(* ===== verification/_CoqProject ===== *)
-Q . S2P
Prelude.v
Rbtree.v
RbtreeRep.v
RbtreeInsert.v
RbtreeErase.v
Vma.v
VmaSpec.v
VmaRange.v
Mmap.v
MmapSpec.v
Csprng.v
CsprngSpec.v
CString.v
Cmdline.v
Printk.v
PrintkSpec.v
Scandata.v
Kbd.v
Pmm.v
PmmList.v
PmmSpec.v
PmmAlloc.v
PmmInit.v
PmmSystem.v
Paging.v
PagingSpec.v
PagingMap.v
MmSystem.v
Vmm.v
VmmSpec.v
Fault.v
Clone.v
UserCopy.v
UserCopySpec.v
Elf.v
ElfSpec.v
Initramfs.v
InitramfsSpec.v
Sched.v
SchedSpec.v
SchedSystem.v
Mutex.v
MutexSpec.v
Futex.v
FutexSpec.v
FutexSystem.v
Fd.v
FdSpec.v
Bufcache.v
BufcacheSpec.v
BufcacheSystem.v
Minix.v
MinixMap.v
MinixRead.v
MinixTree.v
MinixWrite.v
MinixFile.v
MinixSystem.v
MinixDir.v
MinixDirSpec.v
MinixDirSystem.v
Slab.v
SlabList.v
SlabSpec.v
SlabSystem.v
Fat32.v
Fat32Spec.v
Fat32Read.v
Fat32Dir.v
Fat32Mount.v
Block.v
Vfs.v
VfsPath.v
VfsSpec.v
VfsWalk.v
VfsMount.v
VfsSystem.v
VfsTop.v
Fat32Vfs.v
Fat32Top.v
