(* ===== verification/Prelude.v ===== *)
(** * JNU kernel: a verification library

    JNU is a small x86-64 kernel in C.  This library models its core as
    executable Rocq functions, translated function by function from the sources,
    and proves that they do what the kernel needs of them.

    ** How the C code is modelled

    A C function becomes a Rocq function on an explicit state.  Code that can
    fail returns an [outcome]: [Ok], [Panic] (the kernel stops itself), [Fault] (an
    access C leaves undefined: NULL, freed memory, an index out of range), or
    [NoFuel].  Error codes are the negative integers of [errno.h].  Unsigned
    integers are values of [Z] in the range of their type, and the wrap-around is written out
    ([u16], [u32], [u64], [add64]).  Structures are records, shared objects live in
    finite maps indexed by their addresses, and what C leaves to another part (a
    driver, an allocation, the entropy source) is a state component or a list
    of answers.  Loops without an obvious bound take fuel; the theorems say that the
    result is [Ok], so the fuel suffices, for the bounds stated
    (the height of a tree, the number of sectors of a range, the blocks of a
    file, the length of a queue).  Code under a spinlock, with interrupts off, is
    one atomic step.

    ** Memory

    - [Rbtree] (lib/rbtree.c): the red-black tree with parent pointers on a heap
      of nodes.  [RbtreeRep] relates heaps to trees; [RbtreeInsert] and [RbtreeErase]
      prove insertion, traversal and deletion.
    - [Vma] (mm/vma.c): the mappings of an address space on that tree.  It uses the
      page tables through the class [Paging] with the laws [PagingLaws].
      [VmaSpec], [VmaRange]: lookup, insertion, range removal.
    - [Mmap] (mm/mmap.c): mmap, munmap, mprotect; [MmapSpec].
    - [Pmm] (mm/pmm.c): the buddy allocator.  [PmmList], [PmmSpec], [PmmAlloc],
      [PmmInit] prove its operations against the set of free frames;
      [PmmSystem] has the theorems about clients: blocks never overlap, freed
      memory is zeroed, a double free is caught or not.
    - [Paging] (arch/x86_64/paging.c): the four-level tables in physical memory;
      [PagingSpec] and [PagingMap] discharge [PagingLaws]; [MmSystem] puts mmap, the
      tables and the frames together.
    - [Vmm] (mm/vmm.c, mm/clone_space.c, the page-fault path of exceptions.c):
      demand paging, copy-on-write and cloning.  [VmmSpec], [Fault] and [Clone]: faults
      make progress, isolate processes, and keep W^X.
    - [UserCopy] (user/copy.c): the checks of user pointers and the copies through them, byte by byte
      through the page tables; [UserCopySpec].
    - [Slab] (mm/slab.c): kmalloc and the caches below it, on the page allocator.
      [SlabList] (the doubly linked lists), [SlabSpec] (bitmaps and the invariant),
      [SlabSystem] (allocations never overlap and nothing leaks).  The other parts take
      the success of an allocation from a list of answers.

    ** Tasks and descriptors

    - [Sched] (kernel/sched.c): run queue, task table, context switch, sleeping and
      waking.  [SchedSpec], [SchedSystem]: every sequence of calls keeps the state well
      formed; round robin; contexts survive.
    - [Mutex] (lib/mutex.c) as a transition system over tasks that sleep and wake;
      [MutexSpec]: mutual exclusion, no lost wake-up.
    - [Futex] (kernel/futex.c): waiting on and waking words of user memory.  [FutexSpec] (the wait queues
      as lists), [FutexSystem] (a transition system like that of the mutexes: no wake-up
      is lost, and the wake-ups reported balance the waits that succeeded).
    - [Elf] (exec/elf64.c): the validator of executables; [ElfSpec]: it accepts exactly the
      well-formed ones.
    - [Fd] (user/fd.c, sys_close.c, sys_lseek.c, the end of sys_open.c): descriptor
      tables and open files; [FdSpec]: reference counts are exact.

    ** Files

    - [Bufcache] (fs/minix/buffer.c, fs/block.c, the transfers of
      drivers/ata.c, which name a sector by 28 bits): the cache of disk blocks.  [BufcacheSpec]: its
      invariant, on drives of at most [2 ^ 28] sectors;
      [BufcacheSystem]: it refines a plain array of blocks, with I/O errors.  The file system
      uses it through the class [BlockCache] with the laws [BlockCacheSpec].
    - [Minix] (fs/minix/bitmap.c, inode.c, super.c, file.c): the MINIX file system.
      [MinixMap] (bitmaps), [MinixRead] (reading), [MinixTree] (the zones of a
      file), [MinixWrite] and [MinixFile] (writing, truncating), [MinixSystem] (mounting, inodes, the theorems).
      The theorems on writing, truncating and unlinking are about files of direct and
      single-indirect zones, up to 519 KiB; reading and mounting are about any file.
    - [MinixDir] (fs/minix/dir.c): directories.  [MinixDirSpec] (entries and the loops over
      them), [MinixDirSystem] (creating, finding and unlinking files).
    - [Initramfs] (initramfs/cpio_newc.c, initramfs.c): the RAM-disk archive;
      [InitramfsSpec].
    - [Block] (fs/block.c): the registry of block devices.
    - [Vfs] (fs/vfs.c): paths, mounts, the inode cache and the calls on files.  A file
      system is a record of operations; the class [fs_view] and the laws [fs_laws] say what the VFS relies on.
      [VfsPath] (normalisation against split, resolve and join), [VfsSpec] (the cache and its
      reference counts), [VfsWalk] (walks refine a resolver on inode numbers), [VfsMount],
      [VfsSystem] (every call keeps the invariant), [VfsTop] (the theorems, of any drivers that keep the
      contract).  The FAT32 driver is shown to keep it; the MINIX driver, whose lookups depend on unwritten
      directory blocks, is not, and is proved on its own.
    - [Fat32] (fs/fat32): the read-only FAT32 driver with its own sector cache.  [Fat32Spec]
      (the cache, fields, the geometry a mount checks), [Fat32Read] (cluster chains), [Fat32Dir] and
      [Fat32Mount] (directories, inodes, mounting), [Fat32Vfs] (the operation table keeps
      [fs_laws]; states reached with failures), [Fat32Top] (the theorems, those of the VFS on FAT32
      mounts among them, and a disk).

    ** Library code

    - [Csprng] (lib/csprng.c): ChaCha20, BLAKE2s and the generator; [CsprngSpec].
    - [CString] (lib/string.c), [Cmdline] (kernel/cmdline.c), [Printk] and
      [PrintkSpec] (lib/printk.c: the formatter, against a description of formats and numerals of its own, and the log ring), [Scandata] and [Kbd]
      (drivers/scandata.c, drivers/kbd.c: scan codes and the keyboard).

    ** What the theorems show

    Every operation with a theorem returns: it does not fault, does not panic
    unless the theorem says so, and no loop runs out of fuel.  Beyond that there are
    invariants over arbitrary sequences of operations (allocator clients,
    address spaces, scheduler, mutexes, futexes, descriptors, buffer cache), functional
    descriptions of single operations on every branch (trees, mappings, frames,
    page tables, files and directories), refinements of an abstract state (the
    free frames, the page-table entries, the array of blocks, the bytes of a
    file, the names of a directory), round trips (write and read, create and lookup, archive and
    lookup, encode and decode), safety on arbitrary input (disk images, archives) and
    progress (page faults, round robin, wake-ups).  Theorems with hypotheses have
    a witness that runs them on a concrete state.  Examples record behaviours of the
    code that differ from its comments.

    ** What is not modelled

    Hardware access (ports, memory-mapped registers, descriptor tables,
    interrupt controllers, TLB and cache instructions): it has no meaning in
    this memory model.  Hence the drivers, except for the parts that compute, and the
    boot code are left out.  Preemption inside a spinlock section does not happen, and
    there is one CPU.  Self-tests and diagnostics are left out.  Of
    exec/elf64.c the loading of segments and the initial stack are left out, and so are fork, clone,
    exec and process teardown and the system-call wrappers. *)

From stdpp Require Export prelude gmap sorting.
From Stdlib Require Export ZArith Lia.

#[global] Open Scope Z_scope.

(** The bit operations of C, in a scope of their own. *)
Declare Scope c_scope.
Delimit Scope c_scope with C.
Notation "x .& y" := (Z.land x y) (at level 45, left associativity) : c_scope.
Notation "x .| y" := (Z.lor x y) (at level 47, left associativity) : c_scope.
Notation "x .<< y" := (Z.shiftl x y) (at level 41, left associativity) : c_scope.
Notation "x .>> y" := (Z.shiftr x y) (at level 41, left associativity) : c_scope.
#[export] Set Default Goal Selector "!".

(** ** Outcomes of kernel code

    A C function either returns ([Ok]), stops the machine through [panic()]
    ([Panic]), performs an access the C standard leaves undefined, such as
    following a NULL or freed pointer or indexing outside an array ([Fault]),
    or exhausts the fuel given to one of its loops ([NoFuel]).  The theorems
    of the library establish [Ok] outright; [NoFuel] is never an excuse. *)

Inductive outcome (A : Type) : Type :=
| Ok (a : A)
| Panic
| Fault
| NoFuel.
Arguments Ok {A} a.
Arguments Panic {A}.
Arguments Fault {A}.
Arguments NoFuel {A}.

#[export] Instance outcome_ret : MRet outcome := fun A => Ok.

#[export] Instance outcome_bind : MBind outcome :=
  fun A B f m =>
    match m with
    | Ok a => f a
    | Panic => Panic
    | Fault => Fault
    | NoFuel => NoFuel
    end.

(** Reading through a pointer or an index that may be invalid. *)
Definition deref {A} (o : option A) : outcome A :=
  match o with Some a => Ok a | None => Fault end.

Definition panic_if (b : bool) : outcome () := if b then Panic else Ok ().

Lemma bind_Ok {A B} (f : A → outcome B) (a : A) : (Ok a ≫= f) = f a.
Proof. done. Qed.

Lemma bind_inv {A B} (m : outcome A) (f : A → outcome B) b :
  m ≫= f = Ok b → ∃ a, m = Ok a ∧ f a = Ok b.
Proof. destruct m; simpl; try done; eauto. Qed.

Lemma deref_inv {A} (o : option A) a : deref o = Ok a ↔ o = Some a.
Proof. destruct o; simpl; split; congruence. Qed.

Lemma panic_if_inv b u : panic_if b = Ok u ↔ b = false.
Proof. destruct b, u; simpl; split; congruence. Qed.

(** [wp m Q]: [m] returns, with a result that satisfies [Q]. *)
Definition wp {A} (m : outcome A) (Q : A → Prop) : Prop := ∃ a, m = Ok a ∧ Q a.

Lemma wp_Ok {A} (a : A) (Q : A → Prop) : Q a → wp (Ok a) Q.
Proof. by exists a. Qed.

Lemma wp_bind {A B} (m : outcome A) (f : A → outcome B) (P : A → Prop) Q :
  wp m P → (∀ a, P a → wp (f a) Q) → wp (m ≫= f) Q.
Proof. intros (a & -> & Ha) Hf. by apply Hf. Qed.

Lemma wp_mono {A} (m : outcome A) (P Q : A → Prop) : wp m P → (∀ a, P a → Q a) → wp m Q.
Proof. intros (a & -> & Ha) H. exists a. auto. Qed.

Lemma wp_deref {A} (o : option A) (a : A) (Q : A → Prop) : o = Some a → Q a → wp (deref o) Q.
Proof. intros -> H. by exists a. Qed.

(** [wp_step lem as pat]: run the call at the head with its specification. *)
Tactic Notation "wp_step" uconstr(lem) "as" simple_intropattern(pat) :=
  eapply wp_bind; [eapply lem|intros pat; cbn beta iota].

(** The lemmas that settle the common goals: a call that has returned, and
    machine arithmetic that does not wrap around. *)
Create HintDb jnu.
#[export] Hint Resolve wp_Ok wp_deref : jnu.

(** ** Machine integers

    Values of the unsigned C types are integers in the range of their width;
    the operations below wrap around as the C operators do. *)

Definition u16 (x : Z) : Z := x mod 2 ^ 16.
Definition u32 (x : Z) : Z := x mod 2 ^ 32.
Definition u64 (x : Z) : Z := x mod 2 ^ 64.

Definition in_u64 (x : Z) : Prop := 0 ≤ x < 2 ^ 64.

Definition add64 (a b : Z) : Z := u64 (a + b).
Definition sub64 (a b : Z) : Z := u64 (a - b).

(** [(int64_t)v] and [(int)v] of an unsigned value. *)
Definition to_int64 (v : Z) : Z := if v <? 2 ^ 63 then v else v - 2 ^ 64.
Definition to_int32 (v : Z) : Z := if v <? 2 ^ 31 then v else v - 2 ^ 32.

Lemma u64_small x : in_u64 x → u64 x = x.
Proof. apply Z.mod_small. Qed.

(** A sum that did not wrap below its first term did not wrap. *)
Lemma add64_no_wrap a b : 0 <= a < 2 ^ 64 → 0 <= b < 2 ^ 64 → a <= (a + b) mod 2 ^ 64 → a + b < 2 ^ 64.
Proof.
  intros Ha Hb H. destruct (Z.lt_ge_cases (a + b) (2 ^ 64)) as [|Hw]; [done|]. exfalso.
  rewrite <- (Z.mod_unique_pos (a + b) (2 ^ 64) 1 (a + b - 2 ^ 64)) in H by lia. lia.
Qed.

Lemma u64_range x : in_u64 (u64 x).
Proof. apply Z.mod_pos_bound. lia. Qed.

Lemma add64_small a b : 0 ≤ a + b < 2 ^ 64 → add64 a b = a + b.
Proof. apply Z.mod_small. Qed.

Lemma sub64_small a b : 0 ≤ a - b < 2 ^ 64 → sub64 a b = a - b.
Proof. apply Z.mod_small. Qed.

(** A sum of two 64-bit values wraps exactly when it is below its summands. *)
Lemma add64_cases a b :
  in_u64 a → in_u64 b →
  add64 a b = a + b ∧ a + b < 2 ^ 64 ∨ add64 a b = a + b - 2 ^ 64 ∧ 2 ^ 64 ≤ a + b.
Proof.
  unfold in_u64, add64, u64. intros Ha Hb. destruct (decide (a + b < 2 ^ 64)).
  - left. rewrite Z.mod_small; lia.
  - right. split; [|lia]. symmetry. apply Z.mod_unique with 1; lia.
Qed.

#[export] Hint Resolve u64_range : jnu.
#[export] Hint Rewrite @bind_Ok : jnu.
#[export] Hint Rewrite u64_small add64_small sub64_small using (unfold in_u64; lia) : jnu.

(** Pages: [include/jnu/mm/paging.h]. *)
Definition PAGE_SHIFT : Z := 12.
Definition PAGE_SIZE : Z := 4096.
Definition PAGE_MASK : Z := 4095.

Definition page_aligned (x : Z) : Prop := x mod 4096 = 0.

Lemma land_page_mask x : Z.land x PAGE_MASK = x mod 4096.
Proof. change PAGE_MASK with (Z.ones 12). by rewrite Z.land_ones. Qed.

Lemma land_low_mask x n : 0 ≤ n → Z.land x (Z.ones n) = x mod 2 ^ n.
Proof. intros. by rewrite Z.land_ones. Qed.

(** [x & (1 << k)] as a truth value is bit [k]. *)
Lemma land_bit x k : 0 ≤ k → negb (Z.land x (2 ^ k) =? 0) = Z.testbit x k.
Proof.
  intros Hk. destruct (Z.testbit x k) eqn:B.
  - apply negb_true_iff, Z.eqb_neq. intros E. apply (f_equal (λ z, Z.testbit z k)) in E.
    rewrite Z.land_spec, B, Z.pow2_bits_true, Z.bits_0 in E by done. done.
  - apply negb_false_iff, Z.eqb_eq. apply Z.bits_inj'. intros i Hi.
    rewrite Z.land_spec, Z.pow2_bits_eqb, Z.bits_0 by done.
    destruct (Z.eqb_spec k i) as [<-|]; [by rewrite B|apply andb_false_r].
Qed.

(** [x & bit] as a truth value. *)
Definition has (x bit : Z) : bool := negb (Z.land x bit =? 0).

Lemma has_testbit x k : 0 ≤ k → has x (2 ^ k) = Z.testbit x k.
Proof. apply land_bit. Qed.

(** [x & ~PAGE_MASK] for a 64-bit value. *)
Lemma ldiff_page_mask x : Z.ldiff x PAGE_MASK = x - x mod 4096.
Proof.
  change PAGE_MASK with (Z.ones 12). rewrite Z.ldiff_ones_r by lia.
  rewrite Z.shiftl_mul_pow2, Z.shiftr_div_pow2 by lia.
  pose proof (Z.div_mod x 4096 ltac:(lia)). change (2 ^ 12) with 4096. lia.
Qed.

(** ** errno values: [include/uapi/jnu/errno.h] *)
Definition EPERM : Z := 1.
Definition ENOENT : Z := 2.
Definition EINTR : Z := 4.
Definition EIO : Z := 5.
Definition ENXIO : Z := 6.
Definition E2BIG : Z := 7.
Definition ENOEXEC : Z := 8.
Definition ECHILD : Z := 10.
Definition EAGAIN : Z := 11.
Definition ENOMEM : Z := 12.
Definition EACCES : Z := 13.
Definition EFAULT : Z := 14.
Definition EBUSY : Z := 16.
Definition EEXIST : Z := 17.
Definition EXDEV : Z := 18.
Definition ENODEV : Z := 19.
Definition ENOTDIR : Z := 20.
Definition EISDIR : Z := 21.
Definition EINVAL : Z := 22.
Definition EMFILE : Z := 24.
Definition ENOTTY : Z := 25.
Definition ENOSPC : Z := 28.
Definition ESPIPE : Z := 29.
Definition EROFS : Z := 30.
Definition EMLINK : Z := 31.
Definition ERANGE : Z := 34.
Definition ENAMETOOLONG : Z := 36.
Definition ENOSYS : Z := 38.
Definition ENOTSUP : Z := 95.
Definition ETIMEDOUT : Z := 110.

(** ** Generic list lemmas *)

Lemma NoDup_perm {A} (l l' : list A) : l ≡ₚ l' → NoDup l → NoDup l'.
Proof. by intros ->. Qed.

(** Two splittings of a duplicate-free list at the same element agree. *)
Lemma NoDup_split_unique {A} (l1 l2 k1 k2 : list A) x :
  NoDup (l1 ++ x :: l2) → l1 ++ x :: l2 = k1 ++ x :: k2 → l1 = k1 ∧ l2 = k2.
Proof.
  revert k1; induction l1 as [|a l1 IH]; intros [|b k1] N E; simpl in *.
  - by simplify_eq.
  - injection E as -> ->. apply NoDup_cons in N as [N _]. set_solver.
  - injection E as -> <-. apply NoDup_cons in N as [N _]. set_solver.
  - injection E as -> E. apply NoDup_cons in N as [_ N]. destruct (IH _ N E). by subst.
Qed.
