(* ===== verification/RbtreeRep.v ===== *)
(** * Representation of functional trees in the node heap

    [rep] says that a heap stores a functional tree, parent pointers
    included; [repk] says the same of a tree with a hole (a list of frames,
    innermost first).  The file proves that these predicates are framed by
    stores elsewhere and that a rotation in the heap is a rotation of the
    tree at the focus. *)

From S2P Require Import Prelude Rbtree.

Inductive tree := Leaf | Node (c : rb_color) (l : tree) (x : loc) (r : tree).

Record frame := Frame { f_side : side; f_color : rb_color; f_id : loc; f_sib : tree }.

(** A node whose side-[s] subtree is [a] and whose other subtree is [b]. *)
Definition mk (s : side) (c : rb_color) (a : tree) (x : loc) (b : tree) : tree :=
  match s with SL => Node c a x b | SR => Node c b x a end.

Definition cell (s : side) (p : ptr) (a b : ptr) (c : rb_color) : rb_node :=
  match s with SL => RbNode p a b c | SR => RbNode p b a c end.

Definition root_of (t : tree) : ptr :=
  match t with Leaf => None | Node _ _ x _ => Some x end.

Definition color_of (t : tree) : rb_color :=
  match t with Leaf => RB_BLACK | Node c _ _ _ => c end.

Definition paint (c : rb_color) (t : tree) : tree :=
  match t with Leaf => Leaf | Node _ l x r => Node c l x r end.

Fixpoint inorder (t : tree) : list loc :=
  match t with Leaf => [] | Node _ l x r => inorder l ++ x :: inorder r end.

Definition fill (f : frame) (t : tree) : tree := mk (f_side f) (f_color f) t (f_id f) (f_sib f).

Fixpoint plug (k : list frame) (t : tree) : tree :=
  match k with [] => t | f :: k => plug k (fill f t) end.

Definition kparent (k : list frame) : ptr :=
  match k with [] => None | f :: _ => Some (f_id f) end.

Definition kcolor (k : list frame) : rb_color :=
  match k with [] => RB_BLACK | f :: _ => f_color f end.

Fixpoint kids (k : list frame) : list loc :=
  match k with [] => [] | f :: k => f_id f :: inorder (f_sib f) ++ kids k end.

Fixpoint rep (m : gmap loc rb_node) (p : ptr) (t : tree) : Prop :=
  match t with
  | Leaf => True
  | Node c l x r =>
      m !! x = Some (RbNode p (root_of l) (root_of r) c) ∧
      rep m (Some x) l ∧ rep m (Some x) r
  end.

Fixpoint repk (m : gmap loc rb_node) (k : list frame) (q : ptr) : Prop :=
  match k with
  | [] => True
  | f :: k =>
      m !! f_id f = Some (cell (f_side f) (kparent k) q (root_of (f_sib f)) (f_color f)) ∧
      rep m (Some (f_id f)) (f_sib f) ∧ repk m k (Some (f_id f))
  end.

(** The heap stores the tree [plug k t], seen from the focus [t]. *)
Record zrep (h : rb_heap) (k : list frame) (t : tree) : Prop := ZRep {
  z_ctx : repk (nodes h) k (root_of t);
  z_foc : rep (nodes h) (kparent k) t;
  z_nodup : NoDup (kids k ++ inorder t);
  z_root : root h = root_of (plug k t)
}.

(** The heap stores the tree [t]. *)
Abbreviation heap_rep h t := (zrep h [] t).

(** ** Structure lemmas *)

Lemma opp_opp s : opp (opp s) = s.
Proof. by destruct s. Qed.

Lemma child_cell s p a b c : child s (cell s p a b c) = a.
Proof. by destruct s. Qed.

Lemma child_cell_opp s p a b c : child (opp s) (cell s p a b c) = b.
Proof. by destruct s. Qed.

Lemma parent_cell s p a b c : parent (cell s p a b c) = p.
Proof. by destruct s. Qed.

Lemma color_cell s p a b c : color (cell s p a b c) = c.
Proof. by destruct s. Qed.

Lemma with_child_cell s v p a b c : with_child s v (cell s p a b c) = cell s p v b c.
Proof. by destruct s. Qed.

Lemma with_child_opp_cell s v p a b c :
  with_child (opp s) v (cell s p a b c) = cell s p a v c.
Proof. by destruct s. Qed.

Lemma with_parent_cell s v p a b c : with_parent v (cell s p a b c) = cell s v a b c.
Proof. by destruct s. Qed.

Lemma with_color_cell s v p a b c : with_color v (cell s p a b c) = cell s p a b v.
Proof. by destruct s. Qed.

Lemma cell_flip s p a b c : cell (opp s) p a b c = cell s p b a c.
Proof. by destruct s. Qed.

Lemma mk_flip s c a x b : mk (opp s) c a x b = mk s c b x a.
Proof. by destruct s. Qed.

Lemma root_mk s c a x b : root_of (mk s c a x b) = Some x.
Proof. by destruct s. Qed.

Lemma root_paint c t : root_of (paint c t) = root_of t.
Proof. by destruct t. Qed.

Lemma color_mk s c a x b : color_of (mk s c a x b) = c.
Proof. by destruct s. Qed.

Lemma paint_mk s c c' a x b : paint c' (mk s c a x b) = mk s c' a x b.
Proof. by destruct s. Qed.

Lemma inorder_paint c t : inorder (paint c t) = inorder t.
Proof. by destruct t. Qed.

Lemma inorder_mk s c a x b :
  inorder (mk s c a x b) ≡ₚ x :: inorder a ++ inorder b.
Proof. destruct s; simpl; solve_Permutation. Qed.

Lemma elem_of_mk y s c a x b :
  y ∈ inorder (mk s c a x b) ↔ y = x ∨ y ∈ inorder a ∨ y ∈ inorder b.
Proof. rewrite inorder_mk. set_solver. Qed.

Lemma rep_mk m p s c a x b :
  rep m p (mk s c a x b) ↔
  m !! x = Some (cell s p (root_of a) (root_of b) c) ∧
  rep m (Some x) a ∧ rep m (Some x) b.
Proof. destruct s; simpl; tauto. Qed.

Lemma root_plug_cons f k t : root_of (plug (f :: k) t) = root_of (plug k (fill f t)).
Proof. done. Qed.

Lemma root_plug k t t' : root_of t = root_of t' → root_of (plug k t) = root_of (plug k t').
Proof.
  revert t t'; induction k as [|f k IH]; simpl; intros t t' E; [done|].
  apply IH. unfold fill. by rewrite !root_mk.
Qed.

Lemma plug_app k1 k2 t : plug (k1 ++ k2) t = plug k2 (plug k1 t).
Proof. revert t; induction k1; simpl; auto. Qed.

Lemma kids_app k1 k2 : kids (k1 ++ k2) = kids k1 ++ kids k2.
Proof. induction k1 as [|f k1 IH]; simpl; [done|]. by rewrite IH, <- app_assoc. Qed.

Lemma inorder_plug k t : inorder (plug k t) ≡ₚ kids k ++ inorder t.
Proof.
  revert t; induction k as [|f k IH]; simpl; intros t; [done|].
  rewrite IH. unfold fill. rewrite inorder_mk. solve_Permutation.
Qed.

(** ** Framing *)

Lemma rep_insert m p t x n : x ∉ inorder t → rep m p t → rep (<[x:=n]> m) p t.
Proof.
  revert p; induction t as [|c l IHl y r IHr]; simpl; intros p Hx; [done|].
  intros (H & Hl & Hr). rewrite lookup_insert_ne by set_solver.
  split_and!; [done|apply IHl|apply IHr]; set_solver.
Qed.

Lemma repk_insert m k q x n : x ∉ kids k → repk m k q → repk (<[x:=n]> m) k q.
Proof.
  revert q; induction k as [|f k IH]; simpl; intros q Hx; [done|].
  intros (H & Hs & Hk). rewrite lookup_insert_ne by set_solver.
  split_and!; [done|apply rep_insert|apply IH]; set_solver.
Qed.

Lemma rep_lookup m p t x : rep m p t → x ∈ inorder t → is_Some (m !! x).
Proof.
  revert p; induction t as [|c l IHl y r IHr]; simpl; intros p; [set_solver|].
  intros (H & Hl & Hr). rewrite elem_of_app, elem_of_cons.
  intros [?|[->|?]]; eauto.
Qed.

(** Moving the focus. *)
Lemma zrep_up h f k t : zrep h (f :: k) t ↔ zrep h k (fill f t).
Proof.
  unfold fill. split; intros [C F N R]; simpl in *; constructor; simpl in *.
  - rewrite root_mk. tauto.
  - rewrite rep_mk. tauto.
  - rewrite inorder_mk. eapply NoDup_perm, N. solve_Permutation.
  - done.
  - rewrite root_mk, rep_mk in *. tauto.
  - rewrite rep_mk in *. tauto.
  - rewrite inorder_mk in N. eapply NoDup_perm, N. solve_Permutation.
  - done.
Qed.

Lemma zrep_plug h k k' t : zrep h (k ++ k') t ↔ zrep h k' (plug k t).
Proof.
  revert t; induction k as [|f k IH]; intros t; simpl; [done|].
  by rewrite zrep_up, IH.
Qed.

Lemma zrep_top h k t : zrep h k t ↔ heap_rep h (plug k t).
Proof. rewrite <- (zrep_plug h k [] t). by rewrite app_nil_r. Qed.

(** ** Symbolic execution of heap code *)

Lemma get_node_eq h x n : nodes h !! x = Some n → get_node h (Some x) = Ok n.
Proof. unfold get_node. simpl. by intros ->. Qed.

Lemma update_eq h x n f :
  nodes h !! x = Some n → update f (Some x) h = Ok (put_node x (f n) h).
Proof. intros E. unfold update. by rewrite (get_node_eq _ _ _ E). Qed.

Create Rewrite HintDb cells.
#[export] Hint Rewrite opp_opp child_cell child_cell_opp parent_cell color_cell
  with_child_cell with_child_opp_cell with_parent_cell with_color_cell
  root_mk root_paint color_mk paint_mk : cells.

(** Solve [m !! x = Some ?n] for a map built by stores. *)
Ltac lk :=
  cbn [nodes put_node set_root];
  repeat first
    [ rewrite lookup_insert_eq
    | rewrite lookup_insert_ne by congruence ];
  first [ reflexivity | eassumption ].

(** Run the next reads and stores of a program. *)
Ltac hstep :=
  first
    [ progress cbn [mbind outcome_bind nodes put_node set_root root
                    parent left right color kparent f_id f_side f_color f_sib]
    | progress autorewrite with cells
    | erewrite get_node_eq by lk
    | erewrite update_eq by lk ].
Ltac hrun := repeat hstep.

(** Two heaps that agree outside a set of cells; the footprint of a step. *)
Definition same_outside (l : list loc) (m m' : gmap loc rb_node) : Prop :=
  ∀ z, z ∉ l → m' !! z = m !! z.

Lemma same_outside_trans l1 l2 l m1 m2 m3 :
  same_outside l1 m1 m2 → same_outside l2 m2 m3 → l1 ⊆ l → l2 ⊆ l →
  same_outside l m1 m3.
Proof. intros H1 H2 S1 S2 z Hz. rewrite H2, H1; set_solver. Qed.

Lemma rep_frame l m m' p t :
  same_outside l m m' → (∀ z, z ∈ inorder t → z ∉ l) → rep m p t → rep m' p t.
Proof.
  intros S. revert p; induction t as [|c a IHa y b IHb]; simpl; intros p D; [done|].
  intros (H & Ha & Hb). rewrite S by set_solver.
  split_and!; [done|apply IHa|apply IHb]; set_solver.
Qed.

Lemma repk_frame l m m' k q :
  same_outside l m m' → (∀ z, z ∈ kids k → z ∉ l) → repk m k q → repk m' k q.
Proof.
  intros S. revert q; induction k as [|f k IH]; simpl; intros q D; [done|].
  intros (H & Hs & Hk). rewrite S by set_solver.
  split_and!; [done|eapply rep_frame; [done| |done]|apply IH]; set_solver.
Qed.

Lemma same_put l x n h : x ∈ l → same_outside l (nodes h) (nodes (put_node x n h)).
Proof. intros Hx z Hz. simpl. rewrite lookup_insert_ne; set_solver. Qed.

(** [if (v) v->parent = p'] *)
Lemma reparent_spec h p p' b :
  rep (nodes h) p b → NoDup (inorder b) →
  ∃ h', (match root_of b with
         | Some _ => update (with_parent p') (root_of b) h
         | None => Ok h
         end) = Ok h' ∧
    rep (nodes h') p' b ∧ same_outside (inorder b) (nodes h) (nodes h') ∧
    root h' = root h.
Proof.
  destruct b as [|c l x r]; simpl; intros H N.
  - exists h. split_and!; [done..|]. done.
  - destruct H as (Hx & Hl & Hr). hrun.
    apply NoDup_app in N as (Nl & D & N). apply NoDup_cons in N as [Nx Nr].
    eexists. split; [done|]. split_and!; simpl.
    + by rewrite lookup_insert_eq.
    + apply rep_insert; [set_solver|done].
    + apply rep_insert; [set_solver|done].
    + intros z Hz. rewrite lookup_insert_ne; set_solver.
    + done.
Qed.

(** The replacement of [x] by [v] below its parent, as the three copies in
    [rotate_left], [rotate_right] and [transplant] perform it. *)
Lemma relink_spec h k s x v :
  repk (nodes h) k (Some x) → x ∉ kids k → NoDup (kids k) →
  ∃ h', (match kparent k with
         | None => Ok (set_root v h)
         | Some _ =>
             np ← get_node h (kparent k);
             if bool_decide (Some x = child s np)
             then update (with_child s v) (kparent k) h
             else update (with_child (opp s) v) (kparent k) h
         end) = Ok h' ∧
    repk (nodes h') k v ∧ same_outside (kids k) (nodes h) (nodes h') ∧
    root h' = match k with [] => v | _ => root h end.
Proof.
  destruct k as [|f k]; simpl; intros H Nx N.
  - eexists. split_and!; [done..|]. done.
  - destruct H as (Hf & Hs & Hk).
    rewrite NoDup_cons, NoDup_app in N. destruct N as (Nf & N1 & N2 & N3).
    assert (∃ n', n' = cell (f_side f) (kparent k) v (root_of (f_sib f)) (f_color f) ∧
      (np ← get_node h (Some (f_id f));
       if bool_decide (Some x = child s np)
       then update (with_child s v) (Some (f_id f)) h
       else update (with_child (opp s) v) (Some (f_id f)) h)
      = Ok (put_node (f_id f) n' h)) as (n' & En & ->).
    { eexists. split; [done|]. hrun.
      assert (Some x ≠ root_of (f_sib f)) by (destruct (f_sib f); set_solver).
      destruct s, (f_side f); simpl; case_bool_decide; try done; by hrun. }
    eexists. split; [done|]. subst n'. split_and!; simpl.
    + by rewrite lookup_insert_eq.
    + apply rep_insert; [set_solver|done].
    + apply repk_insert; [set_solver|done].
    + intros z Hz. rewrite lookup_insert_ne; set_solver.
    + done.
Qed.

Lemma root_plug_focus k x y v :
  root_of (plug k x) = root_of v →
  root_of (plug k y) = match k with [] => root_of y | _ => root_of v end.
Proof.
  destruct k as [|f k]; simpl; [done|]. intros <-.
  apply root_plug. unfold fill. by rewrite !root_mk.
Qed.

Lemma root_plug_other f k t t' : root_of (plug (f :: k) t) = root_of (plug (f :: k) t').
Proof. simpl. apply root_plug. unfold fill. by rewrite !root_mk. Qed.

(** Rotation towards side [s]: [x], whose far child is [y], goes down. *)
Lemma rotate_spec h k s c c' a x b y d :
  zrep h k (mk s c a x (mk s c' b y d)) →
  ∃ h', rotate s (Some x) h = Ok h' ∧
        zrep h' k (mk s c' (mk s c a x b) y d).
Proof.
  intros [C F N R].
  rewrite !rep_mk, ?root_mk in *. destruct F as (Hx & Ha & Hy & Hb & Hd).
  assert (NoDup (kids k ++ inorder (mk s c' (mk s c a x b) y d))) as N'.
  { eapply NoDup_perm, N. rewrite !inorder_mk. solve_Permutation. }
  rewrite inorder_mk, (inorder_mk s c' b y d) in N.
  rewrite NoDup_app in N. destruct N as (Nk & Nkt & Nt).
  rewrite NoDup_cons, NoDup_app, NoDup_cons, NoDup_app in Nt.
  destruct Nt as (Nx & Na & Nay & Ny & Nb & Nbd & Nd).
  assert (x ≠ y) by set_solver.
  unfold rotate. hrun.
  set (h1 := put_node x _ h).
  assert (rep (nodes h1) (Some y) b) as Hb1 by (apply rep_insert; set_solver).
  destruct (reparent_spec h1 _ (Some x) b Hb1 Nb) as (h2 & -> & Hb2 & S2 & R2).
  assert (nodes h2 !! y = Some (cell s (Some x) (root_of b) (root_of d) c')) as Hy2.
  { rewrite S2 by set_solver. subst h1. lk. }
  assert (nodes h2 !! x = Some (cell s (kparent k) (root_of a) (root_of b) c)) as Hx2.
  { rewrite S2 by set_solver. subst h1. lk. }
  hrun. set (h3 := put_node y _ h2).
  assert (same_outside (x :: y :: inorder b) (nodes h) (nodes h3)) as S3.
  { intros z Hz. subst h3; simpl. rewrite lookup_insert_ne by set_solver.
    rewrite S2 by set_solver. subst h1; simpl. rewrite lookup_insert_ne; set_solver. }
  assert (repk (nodes h3) k (Some x)) as C3 by (eapply repk_frame; [done|set_solver|done]).
  destruct (relink_spec h3 k s x (Some y) C3) as (h4 & E4 & C4 & S4 & R4); [set_solver|done|].
  rewrite E4. clear E4.
  assert (nodes h4 !! y = Some (cell s (kparent k) (root_of b) (root_of d) c')) as Hy4.
  { rewrite S4 by set_solver. subst h3; lk. }
  assert (nodes h4 !! x = Some (cell s (kparent k) (root_of a) (root_of b) c)) as Hx4.
  { rewrite S4 by set_solver. subst h3; lk. }
  hrun. eexists. split; [done|].
  match goal with |- zrep ?h5 _ _ => assert (same_outside [x;y] (nodes h4) (nodes h5)) as S5 end.
  { intros z Hz; simpl. rewrite !lookup_insert_ne; set_solver. }
  assert (rep (nodes h4) (Some x) b).
  { eapply rep_frame; [done|set_solver|]. subst h3; simpl.
    apply rep_insert; [set_solver|done]. }
  assert (same_outside (x :: y :: inorder b ++ kids k) (nodes h) (nodes h4)) as S4'.
  { intros z Hz. rewrite S4, S3; set_solver. }
  constructor.
  - rewrite root_mk. eapply repk_frame; [done|set_solver|done].
  - rewrite !rep_mk, !root_mk. split_and!; [lk|lk|..];
      (eapply rep_frame; [exact S5|set_solver|]); try done;
      (eapply rep_frame; [exact S4'|set_solver|done]).
  - done.
  - simpl. rewrite R4. destruct k as [|f k]; simpl; [by rewrite root_mk|].
    rewrite R2. subst h1; simpl. rewrite R. apply root_plug_other.
Qed.

(** ** Reading and painting through the zipper *)

Lemma zrep_focus h k s c a x b :
  zrep h k (mk s c a x b) →
  nodes h !! x = Some (cell s (kparent k) (root_of a) (root_of b) c).
Proof. intros [_ F _ _]. apply rep_mk in F. tauto. Qed.

Lemma zrep_frame h f k t :
  zrep h (f :: k) t →
  nodes h !! f_id f = Some (cell (f_side f) (kparent k) (root_of t) (root_of (f_sib f)) (f_color f)).
Proof. rewrite zrep_up. apply zrep_focus. Qed.

Lemma zrep_sibling h s c x b k t :
  zrep h (Frame s c x b :: k) t ↔ zrep h (Frame (opp s) c x t :: k) b.
Proof. rewrite !zrep_up. unfold fill; simpl. by rewrite mk_flip. Qed.

Lemma paint_spec h k s c c' a x b :
  zrep h k (mk s c a x b) →
  ∃ h', update (with_color c') (Some x) h = Ok h' ∧ zrep h' k (mk s c' a x b).
Proof.
  intros Z. pose proof (zrep_focus _ _ _ _ _ _ _ Z) as Hx.
  destruct Z as [C F N R]. rewrite rep_mk in F. destruct F as (_ & Ha & Hb).
  hrun. eexists. split; [done|].
  assert (NoDup (kids k ++ inorder (mk s c' a x b))) as N'.
  { eapply NoDup_perm, N. by rewrite !inorder_mk. }
  rewrite inorder_mk, NoDup_app, NoDup_cons in N. destruct N as (Nk & Nkt & Nx & Nt).
  constructor; rewrite ?root_mk in *; simpl.
  - apply repk_insert; [set_solver|done].
  - rewrite rep_mk. split_and!; [lk|..]; (apply rep_insert; [set_solver|done]).
  - done.
  - rewrite R. apply root_plug. by rewrite !root_mk.
Qed.

(** [zpaint_frame] paints the node of the innermost frame. *)
Lemma paint_frame_spec h s c c' x b k t :
  zrep h (Frame s c x b :: k) t →
  ∃ h', update (with_color c') (Some x) h = Ok h' ∧ zrep h' (Frame s c' x b :: k) t.
Proof.
  rewrite zrep_up. intros Z. destruct (paint_spec _ _ _ _ c' _ _ _ Z) as (h' & E & Z').
  exists h'. by rewrite zrep_up.
Qed.

(** In-order sequences only depend on the focus through its own sequence. *)
Lemma inorder_plug_eq k t t' :
  inorder t = inorder t' → inorder (plug k t) = inorder (plug k t').
Proof.
  revert t t'; induction k as [|f k IH]; simpl; intros t t' E; [done|].
  apply IH. unfold fill, mk. destruct (f_side f); simpl; by rewrite E.
Qed.

Lemma inorder_rotate s c1 c2 c3 c4 a x b y d :
  inorder (mk s c1 a x (mk s c2 b y d)) = inorder (mk s c3 (mk s c4 a x b) y d).
Proof. destruct s; simpl; by rewrite <- ?app_assoc. Qed.

Lemma inorder_mk_cong s c c' a a' x b b' :
  inorder a = inorder a' → inorder b = inorder b' →
  inorder (mk s c a x b) = inorder (mk s c' a' x b').
Proof. destruct s; simpl; congruence. Qed.

(** The number of frames is bounded by the number of cells. *)
Lemma length_kids k : (length k ≤ length (kids k))%nat.
Proof. induction k; simpl; rewrite ?length_app; lia. Qed.

Lemma NoDup_size (m : gmap loc rb_node) (l : list loc) :
  NoDup l → (∀ x, x ∈ l → is_Some (m !! x)) → (length l ≤ size m)%nat.
Proof.
  intros N H. rewrite <- size_dom. rewrite <- (size_list_to_set (C:=gset loc) l) by done.
  apply subseteq_size. intros x. rewrite elem_of_list_to_set, elem_of_dom. auto.
Qed.

Lemma repk_lookup m k q x : repk m k q → x ∈ kids k → is_Some (m !! x).
Proof.
  revert q; induction k as [|f k IH]; simpl; intros q; [set_solver|].
  intros (H & Hs & Hk). rewrite elem_of_cons, elem_of_app.
  intros [->|[?|?]]; eauto using rep_lookup.
Qed.

Lemma zrep_size h k t : zrep h k t → (length k + length (inorder t) ≤ size (nodes h))%nat.
Proof.
  intros [C F N _]. pose proof (length_kids k).
  pose proof (NoDup_size (nodes h) _ N) as B. rewrite length_app in B.
  etrans; [|apply B]; [lia|]. intros x. rewrite elem_of_app.
  intros [?|?]; eauto using rep_lookup, repk_lookup.
Qed.
