(* ===== verification/RbtreeInsert.v ===== *)
(** * Insertion and traversal: rb_link_node, rb_insert_color, rb_first and rb_next

    The red-black invariant on trees and on trees with a hole, the
    correctness of the insertion fix-up loop, and the walk in order. *)

From S2P Require Import Prelude Rbtree RbtreeRep.

(** ** The red-black invariant *)

(** [rbt n t]: black height [n], no red node with a red child. *)
Fixpoint rbt (n : nat) (t : tree) : Prop :=
  match t with
  | Leaf => n = O
  | Node RB_RED l _ r =>
      color_of l = RB_BLACK ∧ color_of r = RB_BLACK ∧ rbt n l ∧ rbt n r
  | Node RB_BLACK l _ r => ∃ n', n = S n' ∧ rbt n' l ∧ rbt n' r
  end.

(** [rbk k n]: plugging a black-rooted tree of black height [n] into [k]
    gives a valid tree. *)
Fixpoint rbk (k : list frame) (n : nat) : Prop :=
  match k with
  | [] => True
  | f :: k =>
      match f_color f with
      | RB_RED => color_of (f_sib f) = RB_BLACK ∧ kcolor k = RB_BLACK ∧
                  rbt n (f_sib f) ∧ rbk k n
      | RB_BLACK => rbt n (f_sib f) ∧ rbk k (S n)
      end
  end.

(** A red-black tree: black root, equal black heights, no red-red edge. *)
Definition rbtree_ok (t : tree) : Prop := color_of t = RB_BLACK ∧ ∃ n, rbt n t.

Lemma rbt_red s n a x b :
  rbt n (mk s RB_RED a x b) ↔
  color_of a = RB_BLACK ∧ color_of b = RB_BLACK ∧ rbt n a ∧ rbt n b.
Proof. destruct s; simpl; tauto. Qed.

Lemma rbt_black s n a x b :
  rbt n (mk s RB_BLACK a x b) ↔ ∃ n', n = S n' ∧ rbt n' a ∧ rbt n' b.
Proof. destruct s; simpl; naive_solver. Qed.

Lemma rbt_black_S s n a x b :
  rbt (S n) (mk s RB_BLACK a x b) ↔ rbt n a ∧ rbt n b.
Proof. rewrite rbt_black. naive_solver. Qed.

Lemma rbt_paint n t : rbt n t → ∃ n', rbt n' (paint RB_BLACK t).
Proof. destruct t as [|[] l x r]; simpl; naive_solver. Qed.

Lemma rbt_paint_red n t : color_of t = RB_RED → rbt n t → rbt (S n) (paint RB_BLACK t).
Proof. destruct t as [|[] l x r]; simpl; naive_solver. Qed.

Lemma rb_plug k n t :
  rbk k n → rbt n t → (color_of t = RB_RED → kcolor k = RB_BLACK) →
  ∃ N, rbt N (plug k t).
Proof.
  revert n t; induction k as [|[s c x b] k IH]; simpl; intros n t K T Q; [by exists n|].
  destruct c; simpl in *.
  - destruct K as (? & ? & ? & K). eapply IH; [exact K| |done].
    unfold fill; simpl. rewrite rbt_red. split_and!; [|done..].
    destruct (color_of t); naive_solver.
  - destruct K as (? & K). eapply IH; [exact K| |].
    + unfold fill; simpl. by rewrite rbt_black_S.
    + unfold fill; simpl. by rewrite color_mk.
Qed.

Lemma rb_unplug k N t :
  rbt N (plug k t) →
  ∃ n, rbk k n ∧ rbt n t ∧ (color_of t = RB_RED → kcolor k = RB_BLACK).
Proof.
  revert N t; induction k as [|[s c x b] k IH]; simpl; intros N t T; [by exists N|].
  destruct (IH _ _ T) as (n & K & F & Q). unfold fill in *; simpl in *.
  rewrite color_mk in Q. destruct c.
  - apply rbt_red in F as (? & ? & ? & ?). exists n. split_and!; auto. congruence.
  - apply rbt_black in F as (n' & -> & ? & ?). by exists n'.
Qed.

(** ** The insertion loop *)

Lemma kparent_none k : kparent k = None ↔ k = [].
Proof. destruct k; simpl; split; congruence. Qed.

Lemma is_red_eq h x n :
  nodes h !! x = Some n → is_red h (Some x) = Ok (bool_decide (color n = RB_RED)).
Proof. intros E. unfold is_red. by rewrite (get_node_eq _ _ _ E). Qed.

(** The uncle test: [u && u->color == RB_RED]. *)
Lemma red_test_eq h p t :
  rep (nodes h) p t →
  (match root_of t with None => Ok false | Some _ => is_red h (root_of t) end)
  = Ok (bool_decide (color_of t = RB_RED)).
Proof. destruct t; simpl; [done|]. intros (H & _). by rewrite (is_red_eq _ _ _ H). Qed.

Lemma zrep_sib_rep h f k t :
  zrep h (f :: k) t → rep (nodes h) (Some (f_id f)) (f_sib f).
Proof. intros [C _ _ _]. simpl in C. tauto. Qed.

(** The side test of the loops: which child of [g] is the focus? *)
Lemma side_test h sg cg g u k s c a x b :
  zrep h (Frame sg cg g u :: k) (mk s c a x b) →
  ∃ ng, get_node h (Some g) = Ok ng ∧
    child (opp sg) ng = root_of u ∧ parent ng = kparent k ∧ color ng = cg ∧
    (if bool_decide (Some x = left ng) then SL else SR) = sg.
Proof.
  intros Z. pose proof (zrep_frame _ _ _ _ Z) as G; simpl in G.
  exists (cell sg (kparent k) (Some x) (root_of u) cg).
  rewrite root_mk in G. split; [by apply get_node_eq|].
  autorewrite with cells. split_and!; [done..|].
  destruct sg; simpl; case_bool_decide as Q; try done.
  destruct Z as [_ _ N _]. destruct u as [|? l y r]; simpl in *; [done|].
  injection Q as <-. exfalso. rewrite NoDup_cons, NoDup_app in N.
  destruct N as (_ & _ & N & _). apply (N x); [set_solver|].
  rewrite elem_of_mk. auto.
Qed.

(** Uncle red: recolor and continue at the grandparent. *)
Lemma arm_red h p sp sb g s u k t z :
  zrep h (Frame sp RB_RED p sb :: Frame s RB_BLACK g u :: k) t →
  root_of t = Some z → color_of u = RB_RED →
  ∃ h', insert_color_arm s (Some z) (Some g) h = Ok (Some g, h') ∧
    zrep h' k (mk s RB_RED (mk sp RB_BLACK t p sb) g (paint RB_BLACK u)).
Proof.
  intros Z Hz Hu. unfold insert_color_arm.
  destruct t as [|ct tl z' tr]; simplify_eq/=.
  assert (nodes h !! z = Some (cell SL (Some p) (root_of tl) (root_of tr) ct)) as Ez.
  { apply (zrep_focus h _ SL ct tl z tr Z). }
  hrun. pose proof (proj1 (zrep_up _ _ _ _) Z) as Z1.
  pose proof (zrep_frame _ _ _ _ Z1) as Eg. simpl in Eg. hrun.
  rewrite (red_test_eq h (Some g) u) by exact (zrep_sib_rep _ _ _ _ Z1).
  rewrite bool_decide_true by done. hrun.
  destruct (paint_frame_spec _ _ _ RB_BLACK _ _ _ _ Z) as (h1 & -> & Z2). hrun.
  rewrite zrep_up, zrep_sibling in Z2.
  destruct u as [|cu ul y ur]; simplify_eq/=.
  destruct (paint_spec _ _ SL _ RB_BLACK _ _ _ Z2) as (h2 & -> & Z3). hrun.
  rewrite <- zrep_sibling in Z3.
  destruct (paint_frame_spec _ _ _ RB_RED _ _ _ _ Z3) as (h3 & -> & Z4). hrun.
  eexists. split; [done|]. by rewrite zrep_up in Z4.
Qed.

(** Uncle black, [z] an outer child: one rotation at the grandparent. *)
Lemma arm_outer h p g s u b k t :
  zrep h (Frame s RB_RED p b :: Frame s RB_BLACK g u :: k) t → is_Some (root_of t) →
  ∃ h', (nz ← get_node h (root_of t);
         h ← update (with_color RB_BLACK) (parent nz) h;
         gp ← rb_grandparent h (root_of t);
         match gp with
         | None => Ok (root_of t, h)
         | Some _ =>
             h ← update (with_color RB_RED) gp h;
             h ← rotate (opp s) gp h;
             Ok (root_of t, h)
         end) = Ok (root_of t, h') ∧
    zrep h' k (mk s RB_BLACK t p (mk s RB_RED b g u)).
Proof.
  intros Z [z Hz]. rewrite Hz. destruct t as [|ct tl z' tr]; simplify_eq/=.
  change (Node ct tl z tr) with (mk SL ct tl z tr) in *.
  pose proof (zrep_focus _ _ _ _ _ _ _ Z) as Ez. hrun. cbn [kparent f_id].
  destruct (paint_frame_spec _ _ _ RB_BLACK _ _ _ _ Z) as (h1 & -> & Z1). hrun.
  unfold rb_grandparent.
  pose proof (zrep_focus _ _ _ _ _ _ _ Z1) as Ez1.
  pose proof (zrep_frame _ _ _ _ Z1) as Ep1. simpl in Ez1, Ep1. hrun.
  rewrite zrep_up in Z1.
  destruct (paint_frame_spec _ _ _ RB_RED _ _ _ _ Z1) as (h2 & -> & Z2). hrun.
  rewrite zrep_up in Z2. unfold fill in Z2; simpl in Z2.
  rewrite <- (mk_flip s RB_RED), <- (mk_flip s RB_BLACK) in Z2.
  destruct (rotate_spec _ _ _ _ _ _ _ _ _ _ Z2) as (h3 & -> & Z3). hrun.
  eexists. split; [done|]. by rewrite !mk_flip in Z3.
Qed.

(** Uncle black: at most two rotations; the loop is over. *)
Lemma arm_black h p sp sb g s u k a z b :
  zrep h (Frame sp RB_RED p sb :: Frame s RB_BLACK g u :: k) (mk s RB_RED a z b) →
  color_of u = RB_BLACK →
  ∃ h' z' k' t', insert_color_arm s (Some z) (Some g) h = Ok (Some z', h') ∧
    zrep h' k' t' ∧ root_of t' = Some z' ∧ kcolor k' = RB_BLACK ∧ k' ≠ [] ∧
    (length k' ≤ S (length k))%nat ∧
    plug k' t' = plug k (if decide (sp = s)
                         then mk s RB_BLACK (mk s RB_RED a z b) p (mk s RB_RED sb g u)
                         else mk s RB_BLACK (mk s RB_RED sb p a) z (mk s RB_RED b g u)).
Proof.
  intros Z Hu. unfold insert_color_arm.
  pose proof (zrep_focus _ _ _ _ _ _ _ Z) as Ez.
  pose proof (zrep_frame _ _ _ _ Z) as Ep. rewrite root_mk in Ep.
  pose proof (proj1 (zrep_up _ _ _ _) Z) as Z1.
  pose proof (zrep_frame _ _ _ _ Z1) as Eg. simpl in Eg, Ez, Ep. hrun.
  rewrite (red_test_eq h (Some g) u) by exact (zrep_sib_rep _ _ _ _ Z1).
  rewrite Hu, (bool_decide_false (RB_BLACK = RB_RED)) by done. hrun.
  case_decide as Hs; subst.
  - rewrite bool_decide_false; cbn [mbind outcome_bind].
    2:{ autorewrite with cells. destruct Z as [_ _ N _]. destruct sb as [|? l y r]; simpl in *; [done|].
        intros Q; injection Q as <-. rewrite NoDup_cons, NoDup_app in N.
        destruct N as (_ & _ & N & _). apply (N z); [set_solver|]. rewrite elem_of_mk; auto. }
    destruct (arm_outer _ _ _ _ _ _ _ _ Z) as (h' & E & Z'); [by rewrite root_mk|].
    rewrite root_mk in E. eexists h', z, (Frame s RB_BLACK p _ :: k), _.
    split; [exact E|]. rewrite zrep_up, root_mk. by split_and!.
  - assert (sp = opp s) as -> by (destruct sp, s; done).
    rewrite cell_flip in Ep. hrun. rewrite bool_decide_true by done. hrun.
    unfold fill in Z1; simpl in Z1. rewrite mk_flip in Z1.
    destruct (rotate_spec _ _ _ _ _ _ _ _ _ _ Z1) as (h1 & -> & Z2).
    cbn [mbind outcome_bind]. apply (zrep_up h1 (Frame s RB_RED z b)) in Z2.
    destruct (arm_outer _ _ _ _ _ _ _ _ Z2) as (h' & E & Z'); [by rewrite root_mk|].
    rewrite root_mk in E. eexists h', p, (Frame s RB_BLACK z _ :: k), _.
    split; [exact E|]. rewrite zrep_up, root_mk. by split_and!.
Qed.

(** The fix-up loop: it terminates within the number of enclosing frames,
    keeps the in-order sequence and leaves a tree that is valid once its root
    is painted black. *)
Lemma insert_color_loop_spec fuel : ∀ h k n s a z b,
  zrep h k (mk s RB_RED a z b) → rbk k n → rbt n (mk s RB_RED a z b) →
  (length k < fuel)%nat →
  ∃ h' t', insert_color_loop fuel (Some z) h = Ok h' ∧ heap_rep h' t' ∧
    inorder t' = inorder (plug k (mk s RB_RED a z b)) ∧
    ∃ N, rbt N (paint RB_BLACK t').
Proof.
  induction fuel as [fuel IH] using lt_wf_ind; intros h k n s a z b Z K T Hf.
  destruct fuel as [|fuel]; [lia|]. cbn [insert_color_loop].
  pose proof (zrep_focus _ _ _ _ _ _ _ Z) as Ez. hrun.
  destruct k as [|[sp cp p sb] k]; hrun.
  { exists h, (mk s RB_RED a z b). split_and!; [done..|]. by eapply rbt_paint. }
  pose proof (zrep_frame _ _ _ _ Z) as Ep. cbn in Ep. rewrite root_mk in Ep.
  rewrite (is_red_eq _ _ _ Ep). hrun. destruct cp; simpl in K; cbn -[insert_color_loop];
    rewrite ?(bool_decide_true (RB_RED = RB_RED)), ?(bool_decide_false (RB_BLACK = RB_RED)) by done;
    cbn -[insert_color_loop rb_grandparent].
  2:{ destruct K as (Hb & K). exists h, (plug k (mk sp RB_BLACK (mk s RB_RED a z b) p sb)).
      split_and!; [done|by rewrite zrep_top in Z|done|].
      destruct (rb_plug k (S n) (mk sp RB_BLACK (mk s RB_RED a z b) p sb)) as [N HN];
        [done|by rewrite rbt_black_S|by rewrite color_mk|]. by eapply rbt_paint. }
  destruct K as (Hsb & Hk & Hb & K). unfold rb_grandparent. hrun.
  destruct k as [|[sg cg g u] k]; hrun.
  { exists h, (mk sp RB_RED (mk s RB_RED a z b) p sb).
    split_and!; [done|by rewrite zrep_top in Z|done|].
    exists (S n). rewrite paint_mk, rbt_black_S. done. }
  simpl in Hk, K. subst cg. destruct K as (Hu & K).
  pose proof (proj1 (zrep_up _ _ _ _) Z) as Z1.
  destruct (side_test _ _ _ _ _ _ sp RB_RED (mk s RB_RED a z b) p sb Z1)
    as (ng & -> & _ & _ & _ & Hside). hrun. rewrite Hside. clear Hside.
  rewrite rbt_red in T. destruct T as (Ca & Cb & Ta & Tb).
  destruct (color_of u) eqn:Cu.
  - destruct (arm_red _ _ _ _ _ _ _ _ _ z Z) as (h' & -> & Z'); [by rewrite root_mk|done|].
    hrun. edestruct (IH fuel) as (h2 & t2 & E2 & R2 & I2 & N2);
      [lia|exact Z'|exact K| |simpl in *; lia|].
    + rewrite rbt_red, color_mk, rbt_black_S, rbt_red.
      destruct u; simpl in *; simplify_eq; naive_solver.
    + exists h2, t2. split_and!; [done..| |done]. rewrite I2. simpl.
      apply inorder_plug_eq. unfold fill; simpl.
      apply inorder_mk_cong; [by apply inorder_mk_cong|by rewrite inorder_paint].
  - assert (mk s RB_RED a z b = mk sg RB_RED (if decide (s = sg) then a else b) z
                                      (if decide (s = sg) then b else a)) as Em
      by (destruct s, sg; done).
    rewrite Em in *. set (a' := if decide _ then a else b) in *.
    set (b' := if decide _ then b else a) in *.
    assert (color_of a' = RB_BLACK ∧ color_of b' = RB_BLACK ∧ rbt n a' ∧ rbt n b')
      as (Ca' & Cb' & Ta' & Tb') by (subst a' b'; destruct (decide _); done).
    destruct (arm_black _ _ _ _ _ _ _ _ _ _ _ Z Cu)
      as (h' & z' & k' & t' & -> & Z' & Rt' & Ck' & Nk' & Lk' & Ep').
    hrun. destruct fuel as [|fuel]; [simpl in *; lia|]. cbn [insert_color_loop].
    destruct t' as [|ct tl zz tr]; simplify_eq/=.
    change (Node ct tl z' tr) with (mk SL ct tl z' tr) in *.
    pose proof (zrep_focus _ _ _ _ _ _ _ Z') as Ez'.
    destruct k' as [|f' k']; [done|]. hrun.
    pose proof (zrep_frame _ _ _ _ Z') as Ef'. rewrite (is_red_eq _ _ _ Ef'). simpl in Ck'.
    rewrite color_cell, Ck'. rewrite bool_decide_false by done. hrun.
    exists h', (plug (f' :: k') (mk SL ct tl z' tr)).
    split_and!; [done|by rewrite zrep_top in Z'| |].
    + rewrite Ep'. apply inorder_plug_eq. unfold fill; simpl.
      clear. destruct sp, sg; case_decide; try done; simpl;
        repeat (rewrite <- !app_assoc; simpl); done.
    + rewrite Ep'. destruct (rb_plug k (S n) (if decide (sp = sg)
        then mk sg RB_BLACK (mk sg RB_RED a' z b') p (mk sg RB_RED sb g u)
        else mk sg RB_BLACK (mk sg RB_RED sb p a') z (mk sg RB_RED b' g u))) as [N HN].
      * done.
      * case_decide; rewrite rbt_black_S, !rbt_red; naive_solver.
      * case_decide; by rewrite color_mk.
      * by eapply rbt_paint.
Qed.

(** ** Linking a fresh node at a leaf position *)

(** The slot a descent reaches: the root pointer or a child field. *)
Definition slot_of (k : list frame) : slot :=
  match k with [] => SlotRoot | f :: _ => SlotChild (f_id f) (f_side f) end.

Lemma link_spec h k x :
  zrep h k Leaf → x ∉ kids k →
  ∃ h', rb_link_node x (kparent k) (slot_of k) h = Ok h' ∧
        zrep h' k (mk SL RB_RED Leaf x Leaf).
Proof.
  intros [C F N R] Hx. simpl in *. rewrite app_nil_r in N.
  assert (NoDup (kids k ++ [x])) as N'.
  { rewrite NoDup_app. split_and!; [done|set_solver|apply NoDup_singleton]. }
  unfold rb_link_node. destruct k as [|[s c p b] k]; simpl in *.
  - eexists. split; [done|]. constructor; simpl; [done| |done|done].
    by rewrite lookup_insert_eq.
  - destruct C as (Hp & Hb & C).
    assert (x ≠ p) by set_solver.
    rewrite NoDup_cons, NoDup_app in N. destruct N as (Np & Nb & Nbk & Nk).
    hrun. eexists. split; [done|]. constructor; simpl.
    + split_and!; [lk| |].
      * do 2 (apply rep_insert; [set_solver|]). done.
      * do 2 (apply repk_insert; [set_solver|]). done.
    + split_and!; [lk|done..].
    + done.
    + rewrite R. apply root_plug. unfold fill. by rewrite !root_mk.
Qed.

Lemma blacken_root_spec h t n :
  heap_rep h t → rbt n (paint RB_BLACK t) →
  ∃ h', (match root h with
         | None => Ok h
         | Some _ => update (with_color RB_BLACK) (root h) h
         end) = Ok h' ∧ heap_rep h' (paint RB_BLACK t) ∧ rbtree_ok (paint RB_BLACK t).
Proof.
  intros Z T. assert (root h = root_of t) as Er by apply Z. rewrite Er.
  destruct t as [|c l x r]; simpl in *.
  - exists h. split_and!; [done..|]. split; [done|by exists n].
  - destruct (paint_spec h [] SL c RB_BLACK l x r Z) as (h' & -> & Z').
    exists h'. split_and!; [done..|]. split; [done|by exists n].
Qed.

(** The canonical idiom [rb_link_node; rb_insert_color] at the leaf position
    described by [k]. *)
Definition rb_insert_at (x : loc) (par : ptr) (sl : slot) (h : rb_heap) : outcome rb_heap :=
  h ← rb_link_node x par sl h; rb_insert_color x h.

Lemma insert_at_spec h k x :
  zrep h k Leaf → rbtree_ok (plug k Leaf) → x ∉ kids k →
  ∃ h' t', rb_insert_at x (kparent k) (slot_of k) h = Ok h' ∧
    heap_rep h' t' ∧ rbtree_ok t' ∧
    inorder t' = inorder (plug k (Node RB_RED Leaf x Leaf)).
Proof.
  intros Z [_ [N T]] Hx. unfold rb_insert_at.
  destruct (link_spec _ _ _ Z Hx) as (h1 & -> & Z1). hrun.
  destruct (rb_unplug _ _ _ T) as (n & K & E & _). simpl in E; subst n.
  unfold rb_insert_color.
  destruct (insert_color_loop_spec (loop_fuel h1) _ _ _ _ _ _ _ Z1 K)
    as (h2 & t2 & -> & Z2 & I2 & N2 & T2).
  - done.
  - pose proof (zrep_size _ _ _ Z1). unfold loop_fuel. lia.
  - hrun. destruct (blacken_root_spec _ _ _ Z2 T2) as (h3 & -> & Z3 & Ok3).
    exists h3, (paint RB_BLACK t2). split_and!; [done..|].
    by rewrite inorder_paint.
Qed.

(** ** Traversal: rb_min, rb_first and rb_next

    The walk [for (n = rb_first(r); n; n = rb_next(n))] enumerates the in-order sequence of the tree. *)


(** Elements before and after the hole of a context. *)
Fixpoint kbefore (k : list frame) : list loc :=
  match k with
  | [] => []
  | f :: k => match f_side f with
              | SL => kbefore k
              | SR => kbefore k ++ inorder (f_sib f) ++ [f_id f]
              end
  end.

Fixpoint kafter (k : list frame) : list loc :=
  match k with
  | [] => []
  | f :: k => match f_side f with
              | SL => f_id f :: inorder (f_sib f) ++ kafter k
              | SR => kafter k
              end
  end.

Lemma inorder_plug_split k t : inorder (plug k t) = kbefore k ++ inorder t ++ kafter k.
Proof.
  revert t; induction k as [|[s c x b] k IH]; simpl; intros t; [by rewrite app_nil_r|].
  rewrite IH. unfold fill; simpl. destruct s; simpl; by rewrite <- ?app_assoc.
Qed.

(** Every node of a tree is the root of a focus. *)
Lemma focus_exists t x : x ∈ inorder t → ∃ k c l r, t = plug k (Node c l x r).
Proof.
  induction t as [|c l IHl y r IHr]; simpl; [set_solver|].
  rewrite elem_of_app, elem_of_cons. intros [H|[->|H]].
  - destruct (IHl H) as (k & c' & l' & r' & ->).
    exists (k ++ [Frame SL c y r]), c', l', r'. by rewrite plug_app.
  - by exists [], c, l, r.
  - destruct (IHr H) as (k & c' & l' & r' & ->).
    exists (k ++ [Frame SR c y l]), c', l', r'. by rewrite plug_app.
Qed.

(** The leftmost node of a non-empty tree. *)
Lemma leftmost_exists t :
  t ≠ Leaf → ∃ k c y r, t = plug k (Node c Leaf y r) ∧ Forall (λ f, f_side f = SL) k.
Proof.
  induction t as [|c l IHl y r _]; [done|]. intros _.
  destruct l as [|c' l' y' r']; [by exists [], c, y, r|].
  destruct IHl as (k & c'' & z & r'' & -> & H); [done|].
  exists (k ++ [Frame SL c y r]), c'', z, r''. rewrite plug_app.
  split; [done|]. apply Forall_app. by split; [|apply Forall_singleton].
Qed.

Lemma kbefore_left k : Forall (λ f, f_side f = SL) k → kbefore k = [].
Proof. induction 1 as [|f k Hf _ IH]; simpl; [done|]. by rewrite Hf. Qed.

Lemma root_plug_node k c l x r : root_of (plug k (Node c l x r)) ≠ None.
Proof.
  revert c l x r; induction k as [|[[] c' y b] k IH]; simpl; intros c l x r; [done| |];
    apply IH.
Qed.

Lemma rb_min_loop_spec k1 : ∀ fuel h k c y r,
  zrep h (k1 ++ k) (Node c Leaf y r) → Forall (λ f, f_side f = SL) k1 →
  (length k1 < fuel)%nat →
  rb_min_loop fuel (root_of (plug k1 (Node c Leaf y r))) h = Ok (Some y).
Proof.
  induction k1 as [|f k1 IH] using rev_ind; intros fuel h k c y r Z Hl Hf.
  - destruct fuel as [|fuel]; [simpl in Hf; lia|]. simpl.
    pose proof (zrep_focus h _ SL _ _ _ _ Z) as E. by hrun.
  - rewrite length_app in Hf. simpl in Hf. destruct fuel as [|fuel]; [lia|].
    apply Forall_app in Hl as [Hl Hs]. apply Forall_cons in Hs as [Hs _]. simpl in Hs.
    rewrite <- app_assoc in Z. simpl in Z.
    specialize (IH fuel h (f :: k) c y r Z Hl ltac:(lia)).
    rewrite zrep_plug in Z. pose proof (zrep_frame _ _ _ _ Z) as E.
    rewrite plug_app; simpl. unfold fill. rewrite root_mk. hrun.
    rewrite Hs. simpl.
    destruct (root_of (plug k1 (Node c Leaf y r))) eqn:Er; [done|].
    by apply root_plug_node in Er.
Qed.

Lemma rb_min_spec h k t :
  zrep h k t → rb_min (root_of t) h = Ok (head (inorder t)).
Proof.
  intros Z. destruct (decide (inorder t = [])) as [E|E].
  - destruct t as [|c l x r]; [done|]. simpl in E. by destruct (inorder l).
  - destruct (leftmost_exists t) as (k1 & c & y & r & -> & Hl); [by intros ->|].
    rewrite inorder_plug_split, kbefore_left by done. simpl.
    rewrite <- zrep_plug in Z. unfold rb_min. eapply rb_min_loop_spec; [exact Z|done|].
    pose proof (zrep_size _ _ _ Z) as B. rewrite length_app in B. unfold loop_fuel. lia.
Qed.

Lemma rb_climb_spec k : ∀ fuel h t,
  zrep h k t → t ≠ Leaf → (length k < fuel)%nat →
  rb_climb fuel (root_of t) h = Ok (head (kafter k)).
Proof.
  induction k as [|[s c p b] k IH]; intros fuel h t Z Ht Hf;
    (destruct fuel as [|fuel]; [simpl in Hf; lia|]); simpl in Hf; cbn [rb_climb];
    (destruct t as [|ct l x r]; [done|]); change (Node ct l x r) with (mk SL ct l x r) in *;
    pose proof (zrep_focus _ _ _ _ _ _ _ Z) as Ex; hrun; [done|].
  destruct (side_test _ _ _ _ _ _ _ _ _ _ _ Z) as (np & E & Hc & _ & _ & Hs).
  rewrite E. hrun. destruct s; simpl in Hc; rewrite ?Hc.
  - rewrite bool_decide_false; [done|]. intros Q.
    destruct Z as [_ _ N _]. destruct b as [|? l' y' r']; simplify_eq/=.
    rewrite NoDup_cons, NoDup_app in N. destruct N as (_ & _ & N & _).
    apply (N y'); [set_solver|]. simpl; set_solver.
  - assert (Some x = right np) as ->.
    { pose proof (zrep_frame _ _ _ _ Z) as Ep. apply get_node_eq in Ep. simpl in Ep.
      rewrite Ep in E. by simplify_eq. }
    rewrite bool_decide_true by done. simpl. rewrite zrep_up in Z.
    specialize (IH fuel h _ Z ltac:(done) ltac:(lia)).
    unfold fill in IH. by rewrite root_mk in IH.
Qed.

(** [rb_next] is the in-order successor. *)
Lemma rb_next_spec h t l1 x l2 :
  heap_rep h t → inorder t = l1 ++ x :: l2 → rb_next x h = Ok (head l2).
Proof.
  intros Z E. destruct (focus_exists t x) as (k & c & l & r & ->).
  { rewrite E. set_solver. }
  rewrite inorder_plug_split in E. simpl in E. rewrite <- app_assoc in E. simpl in E.
  rewrite app_assoc in E. apply NoDup_split_unique in E as [_ <-].
  2:{ destruct Z as [_ _ N _]. simpl in N. rewrite inorder_plug_split in N.
      simpl in N. rewrite <- app_assoc in N. simpl in N. by rewrite app_assoc in N. }
  apply zrep_top in Z. change (Node c l x r) with (mk SL c l x r) in Z.
  pose proof (zrep_focus _ _ _ _ _ _ _ Z) as Ex. unfold rb_next. hrun. cbn [cell right].
  destruct r as [|cr rl y rr]; cbn [root_of inorder app].
  - rewrite <- (root_mk SL c l x Leaf). apply rb_climb_spec; [done|done|].
    pose proof (zrep_size _ _ _ Z). unfold loop_fuel. lia.
  - assert (zrep h (Frame SR c x l :: k) (Node cr rl y rr)) as Zr by by rewrite zrep_up.
    change (Some y) with (root_of (Node cr rl y rr)). rewrite (rb_min_spec _ _ _ Zr).
    simpl. by destruct (inorder rl).
Qed.

Lemma rb_first_spec h t : heap_rep h t → rb_first h = Ok (head (inorder t)).
Proof.
  intros Z. unfold rb_first. rewrite (z_root _ _ _ Z). simpl. by eapply rb_min_spec.
Qed.
