(* ===== verification/RbtreeErase.v ===== *)
(** * Removal: transplant, erase_fixup and rb_erase *)

From S2P Require Import Prelude Rbtree RbtreeRep RbtreeInsert.

(** ** Unlinking *)

(** [transplant u v] at the position [k]: the subtree rooted at [u] is
    replaced by the tree [tv]. *)
Lemma transplant_spec h k u nu tu tv p :
  repk (nodes h) k (Some u) → nodes h !! u = Some nu → parent nu = kparent k →
  u ∉ kids k → root_of tu = Some u → root h = root_of (plug k tu) →
  rep (nodes h) p tv → NoDup (kids k ++ inorder tv) →
  ∃ h', transplant u (root_of tv) h = Ok h' ∧ zrep h' k tv ∧
        same_outside (kids k ++ inorder tv) (nodes h) (nodes h').
Proof.
  intros C Hu Hp Nu Rt R F N. pose proof N as N'. rewrite NoDup_app in N'.
  destruct N' as (Nk & Nkv & Nv). unfold transplant. hrun. rewrite Hp.
  destruct (relink_spec h k SL u (root_of tv) C Nu Nk) as (h1 & E1 & C1 & S1 & R1).
  cbn [child with_child opp] in E1. rewrite E1. cbn [mbind outcome_bind].
  assert (rep (nodes h1) p tv) as F1 by (eapply rep_frame; [done|set_solver|done]).
  destruct (reparent_spec h1 p (kparent k) tv F1 Nv) as (h2 & -> & F2 & S2 & R2).
  exists h2. split_and!; [done| |].
  - constructor; [|done|done|].
    + eapply repk_frame; [exact S2|set_solver|done].
    + rewrite R2, R1. destruct k as [|f k]; [done|]. rewrite R. apply root_plug_other.
  - intros z Hz. rewrite S2, S1; set_solver.
Qed.

(** The focus [tu] is replaced by one of its own subtrees. *)
Lemma transplant_child h k c l u r tv :
  zrep h k (Node c l u r) → tv = l ∨ tv = r →
  ∃ h', transplant u (root_of tv) h = Ok h' ∧ zrep h' k tv.
Proof.
  intros Z Htv. pose proof (zrep_focus h k SL _ _ _ _ Z) as Eu.
  destruct Z as [C F N R]. simpl in *. destruct F as (_ & Fl & Fr).
  rewrite NoDup_app, NoDup_app, NoDup_cons in N.
  destruct N as (Nk & Nkt & Nl & Nlr & Nu & Nr).
  edestruct (transplant_spec h k u (RbNode (kparent k) (root_of l) (root_of r) c)
    (Node c l u r) tv (Some u)) as (h' & E & Z & _);
    [exact C|exact Eu|done|set_solver|done|exact R|by destruct Htv as [->| ->]| |eauto].
  rewrite NoDup_app. split_and!; [done|destruct Htv as [->| ->]; set_solver|].
  by destruct Htv as [->| ->].
Qed.

Lemma splice_spec h k c l z rz cy y R p :
  repk (nodes h) k (Some z) → root h = root_of (plug k (Node c l z Leaf)) →
  nodes h !! z = Some (RbNode (kparent k) (root_of l) rz c) →
  rep (nodes h) (Some z) l → l ≠ Leaf →
  rep (nodes h) p (Node cy Leaf y R) →
  NoDup (kids k ++ z :: inorder l ++ y :: inorder R) →
  ∃ h', splice z y h = Ok h' ∧ zrep h' k (Node c l y R).
Proof.
  intros C Rh Hz Fl Nel FR N.
  assert (NoDup (kids k ++ inorder (Node c l y R))) as Nout.
  { simpl. rewrite NoDup_app, NoDup_cons in *. set_solver. }
  rewrite NoDup_app, NoDup_cons, NoDup_app, NoDup_cons in N.
  destruct N as (Nk & Nkt & Nz & Nl & Nly & Ny & NR).
  unfold splice.
  destruct (transplant_spec h k z (RbNode (kparent k) (root_of l) rz c)
    (Node c l z Leaf) (Node cy Leaf y R) p)
    as (h1 & E1 & Z1 & S1); try done; [set_solver| |].
  { simpl. rewrite NoDup_app, NoDup_cons. set_solver. }
  simpl in E1. rewrite E1. clear E1.
  assert (nodes h1 !! z = Some (RbNode (kparent k) (root_of l) rz c)) as Hz1.
  { rewrite S1; [done|]. simpl. set_solver. }
  pose proof (zrep_focus h1 k SL _ _ _ _ Z1) as Hy1.
  destruct Z1 as [C1 F1 N1 R1]. simpl in *. destruct F1 as (_ & _ & F1).
  assert (rep (nodes h1) (Some z) l) as Fl1.
  { eapply rep_frame; [exact S1| |done]. simpl. set_solver. }
  hrun. set (h2 := put_node y _ h1).
  assert (rep (nodes h2) (Some z) l) as Fl2 by (apply rep_insert; set_solver).
  destruct (reparent_spec h2 (Some z) (Some y) l Fl2 Nl) as (h3 & E3 & Fl3 & S3 & R3).
  destruct l as [|cl ll xl rl]; [done|]. simpl in E3. simpl. rewrite E3. clear E3.
  set (l := Node cl ll xl rl) in *. clearbody l. cbn [mbind outcome_bind].
  assert (nodes h3 !! y = Some (RbNode (kparent k) (root_of l) (root_of R) cy)) as Hy3.
  { rewrite S3 by set_solver. subst h2. by lk. }
  hrun. eexists. split; [done|].
  assert (same_outside (y :: inorder l) (nodes h1) (nodes h3)) as S13.
  { intros w Hw. rewrite S3 by set_solver. subst h2; simpl.
    rewrite lookup_insert_ne; set_solver. }
  constructor.
  - apply repk_insert; [set_solver|]. eapply repk_frame; [exact S13|set_solver|done].
  - simpl. split_and!; [lk|by apply rep_insert; [set_solver|]|].
    apply rep_insert; [set_solver|]. eapply rep_frame; [exact S13|set_solver|done].
  - done.
  - simpl. rewrite R3. subst h2; simpl. rewrite R1. by apply root_plug.
Qed.

(** ** The fix-up loop *)

Lemma null_or_black_eq h p t :
  rep (nodes h) p t →
  null_or_black h (root_of t) = Ok (bool_decide (color_of t = RB_BLACK)).
Proof. destruct t; simpl; [done|]. intros (H & _). unfold null_or_black. by hrun. Qed.

Lemma kids_black_eq h s q a b c x :
  rep (nodes h) (Some x) a → rep (nodes h) (Some x) b →
  (bl ← null_or_black h (left (cell s q (root_of a) (root_of b) c));
   if (bl : bool) then null_or_black h (right (cell s q (root_of a) (root_of b) c))
   else Ok false)
  = Ok (bool_decide (color_of a = RB_BLACK ∧ color_of b = RB_BLACK)).
Proof.
  intros Ha Hb. destruct s; simpl; rewrite !(null_or_black_eq _ _ _ Ha), !(null_or_black_eq _ _ _ Hb);
    simpl; f_equal; destruct (color_of a), (color_of b); done.
Qed.

Lemma mk_cases (s : side) t :
  t ≠ Leaf → ∃ a x b, t = mk s (color_of t) a x b.
Proof. destruct t as [|c l x r]; [done|]. intros _. destruct s; simpl; eauto. Qed.

(** Red sibling: after the rotation the sibling of [x] is black. *)
Lemma fix_red_sibling h s p wa w wb k t :
  zrep h (Frame s RB_BLACK p (mk s RB_RED wa w wb) :: k) t →
  ∃ h', (h ← update (with_color RB_BLACK) (Some w) h;
         h ← update (with_color RB_RED) (Some p) h;
         h ← rotate s (Some p) h;
         np ← get_node h (Some p);
         Ok (child (opp s) np, h)) = Ok (root_of wa, h') ∧
    zrep h' (Frame s RB_RED p wa :: Frame s RB_BLACK w wb :: k) t.
Proof.
  intros Z. rewrite zrep_sibling in Z.
  destruct (paint_spec _ _ _ _ RB_BLACK _ _ _ Z) as (h1 & -> & Z1). hrun.
  rewrite <- zrep_sibling in Z1.
  destruct (paint_frame_spec _ _ _ RB_RED _ _ _ _ Z1) as (h2 & -> & Z2). hrun.
  rewrite zrep_up in Z2. unfold fill in Z2; simpl in Z2.
  destruct (rotate_spec _ _ _ _ _ _ _ _ _ _ Z2) as (h3 & -> & Z3). hrun.
  apply (zrep_up h3 (Frame s RB_BLACK w wb)) in Z3.
  apply (zrep_up h3 (Frame s RB_RED p wa)) in Z3.
  pose proof (zrep_frame _ _ _ _ Z3) as Ep. simpl in Ep. hrun. eauto.
Qed.

(** Black sibling whose far child is black and near child red. *)
Lemma fix_near_red h s cp p ya y yb w wb k t :
  zrep h (Frame s cp p (mk s RB_BLACK (mk s RB_RED ya y yb) w wb) :: k) t →
  ∃ h', (h ← update (with_color RB_BLACK) (Some y) h;
         h ← update (with_color RB_RED) (Some w) h;
         h ← rotate (opp s) (Some w) h;
         np ← get_node h (Some p);
         Ok (child (opp s) np, h)) = Ok (Some y, h') ∧
    zrep h' (Frame s cp p (mk s RB_BLACK ya y (mk s RB_RED yb w wb)) :: k) t.
Proof.
  intros Z. rewrite zrep_sibling in Z.
  apply (zrep_up h (Frame s RB_BLACK w wb)) in Z.
  destruct (paint_spec _ _ _ _ RB_BLACK _ _ _ Z) as (h1 & -> & Z1). hrun.
  destruct (paint_frame_spec _ _ _ RB_RED _ _ _ _ Z1) as (h2 & -> & Z2). hrun.
  rewrite zrep_up in Z2. unfold fill in Z2; simpl in Z2.
  rewrite <- (mk_flip s RB_RED), <- (mk_flip s RB_BLACK) in Z2.
  destruct (rotate_spec _ _ _ _ _ _ _ _ _ _ Z2) as (h3 & -> & Z3). hrun.
  rewrite !mk_flip, <- zrep_sibling in Z3.
  pose proof (zrep_frame _ _ _ _ Z3) as Ep. simpl in Ep. rewrite root_mk in Ep. hrun.
  eauto.
Qed.

(** Black sibling whose far child is red: the last rotation. *)
Lemma fix_far_red h s cp p wa w wb k t :
  zrep h (Frame s cp p (mk s RB_BLACK wa w wb) :: k) t → wb ≠ Leaf →
  ∃ h', (np ← get_node h (Some p);
         h ← update (with_color (color np)) (Some w) h;
         h ← update (with_color RB_BLACK) (Some p) h;
         h ← (nw ← get_node h (Some w);
              match child (opp s) nw with
              | None => Ok h
              | Some _ => update (with_color RB_BLACK) (child (opp s) nw) h
              end);
         rotate s (Some p) h) = Ok h' ∧
    zrep h' k (mk s cp (mk s RB_BLACK t p wa) w (paint RB_BLACK wb)).
Proof.
  intros Z Hwb. pose proof (zrep_frame _ _ _ _ Z) as Ep. simpl in Ep. hrun.
  rewrite zrep_sibling in Z.
  destruct (paint_spec _ _ _ _ cp _ _ _ Z) as (h1 & -> & Z1). hrun.
  rewrite <- zrep_sibling in Z1.
  destruct (paint_frame_spec _ _ _ RB_BLACK _ _ _ _ Z1) as (h2 & -> & Z2). hrun.
  rewrite zrep_sibling in Z2. pose proof (zrep_focus _ _ _ _ _ _ _ Z2) as Ew. hrun.
  rewrite <- mk_flip in Z2. apply (zrep_up h2 (Frame (opp s) cp w wa)) in Z2.
  destruct (mk_cases s wb Hwb) as (a & x & b & Ewb). rewrite Ewb in *.
  rewrite root_mk in *. cbn [mbind outcome_bind].
  destruct (paint_spec _ _ _ _ RB_BLACK _ _ _ Z2) as (h3 & -> & Z3). hrun.
  rewrite zrep_up in Z3. unfold fill in Z3; simpl in Z3.
  rewrite mk_flip, <- zrep_sibling, zrep_up in Z3. unfold fill in Z3; simpl in Z3.
  destruct (rotate_spec _ _ _ _ _ _ _ _ _ _ Z3) as (h4 & -> & Z4). eauto.
Qed.

(** What the loop needs of the focus: it is one black node short, or it is
    red and becomes right when painted black. *)
Definition deficit (n : nat) (t : tree) : Prop :=
  (color_of t = RB_BLACK ∧ rbt n t) ∨ (color_of t = RB_RED ∧ rbt (S n) (paint RB_BLACK t)).


(** The second half of an arm: either the fix-up moves up by one frame, or
    the tree is repaired and the loop will stop at the root. *)
Lemma fixup_tail_spec h s cp p wa w wb k t n xp :
  zrep h (Frame s cp p (mk s RB_BLACK wa w wb) :: k) t →
  rbk (Frame s cp p (mk s RB_BLACK wa w wb) :: k) (S n) →
  color_of t = RB_BLACK → rbt n t →
  let t1 := mk s cp t p (mk s RB_RED wa w wb) in
  ∃ x' xp' h', erase_fixup_tail s (Some p) (Some w) xp h = Ok (x', xp', h') ∧
    ((zrep h' k t1 ∧ x' = Some p ∧ xp' = kparent k ∧
      ∃ n1, rbk k (S n1) ∧ deficit n1 t1) ∨
     (∃ T, heap_rep h' T ∧ x' = root h' ∧ inorder T = inorder (plug k t1) ∧
      ∃ N, rbt N T)).
Proof.
  intros Z K Ct T t1. unfold erase_fixup_tail.
  pose proof (zrep_sib_rep _ _ _ _ Z) as Fw. simpl in Fw. rewrite rep_mk in Fw.
  destruct Fw as (Ew & Fa & Fb). erewrite get_node_eq by exact Ew. cbn [mbind outcome_bind].
  rewrite (kids_black_eq _ _ _ _ _ _ _ Fa Fb). cbn [mbind outcome_bind].
  assert (rbt n wa ∧ rbt n wb ∧ (cp = RB_RED → kcolor k = RB_BLACK) ∧
          rbk k (if decide (cp = RB_RED) then S n else S (S n)))
    as (Ta & Tb & Ck & K').
  { destruct cp; simpl in K; case_decide; try done.
    - rewrite color_mk, rbt_black_S in K. tauto.
    - rewrite rbt_black_S in K. naive_solver. }
  case_bool_decide as Hb; cbn [mbind outcome_bind].
  - destruct Hb as [Ca Cb]. pose proof Z as Z1. rewrite zrep_sibling in Z1.
    destruct (paint_spec _ _ _ _ RB_RED _ _ _ Z1) as (h1 & -> & Z2). hrun.
    rewrite <- zrep_sibling in Z2. pose proof (zrep_frame _ _ _ _ Z2) as Ep. simpl in Ep.
    hrun. eexists _, _, _. split; [done|]. left. rewrite zrep_up in Z2.
    split_and!; [exact Z2|done|done|]. subst t1. unfold deficit. rewrite color_mk, paint_mk.
    exists (if decide (cp = RB_RED) then n else S n).
    destruct cp; case_decide; try done; (split; [done|]).
    + right. rewrite rbt_black_S, rbt_red. done.
    + left. rewrite rbt_black_S, rbt_red. done.
  - assert (∃ h1 wa1 w1 wb1,
      (if bool_decide (color_of wb = RB_BLACK) then
         h ← (match root_of wa with
              | None => Ok h
              | Some _ => update (with_color RB_BLACK) (root_of wa) h
              end);
         h ← update (with_color RB_RED) (Some w) h;
         h ← rotate (opp s) (Some w) h;
         np ← get_node h (Some p);
         Ok (child (opp s) np, h)
       else Ok (Some w, h)) = Ok (Some w1, h1) ∧
      zrep h1 (Frame s cp p (mk s RB_BLACK wa1 w1 wb1) :: k) t ∧
      rbt n wa1 ∧ rbt n wb1 ∧ color_of wb1 = RB_RED ∧
      inorder (mk s RB_BLACK wa1 w1 wb1) = inorder (mk s RB_RED wa w wb))
      as (h1 & wa1 & w1 & wb1 & E1 & Z1 & Ta1 & Tb1 & Cb1 & I1).
    { destruct (color_of wb) eqn:Cb.
      - rewrite bool_decide_false by done. exists h, wa, w, wb. split_and!; try done.
        by apply inorder_mk_cong.
      - rewrite bool_decide_true by done.
        assert (color_of wa = RB_RED) as Ca by (destruct (color_of wa); naive_solver).
        destruct (mk_cases s wa) as (ya & y & yb & Ewa); [by intros ->|].
        rewrite Ca in Ewa. subst wa. rewrite root_mk.
        rewrite rbt_red in Ta. destruct Ta as (? & ? & ? & ?).
        destruct (fix_near_red _ _ _ _ _ _ _ _ _ _ _ Z) as (h1 & E1 & Z1).
        exists h1, ya, y, (mk s RB_RED yb w wb).
        rewrite color_mk, rbt_red. split_and!; try done. apply inorder_rotate. }
    autorewrite with cells. rewrite (null_or_black_eq _ _ _ Fb). cbn [mbind outcome_bind].
    rewrite E1. clear E1. cbn [mbind outcome_bind].
    destruct (fix_far_red _ _ _ _ _ _ _ _ _ Z1) as (h2 & E2 & Z2); [by intros ->|].
    destruct (get_node h1 (Some p)) as [np| | |] eqn:Ep; try done. cbn [mbind outcome_bind] in *.
    destruct (update (with_color (color np)) (Some w1) h1) as [h3| | |]; try done.
    cbn [mbind outcome_bind] in *.
    destruct (update (with_color RB_BLACK) (Some p) h3) as [h4| | |]; try done.
    cbn [mbind outcome_bind] in *.
    destruct (get_node h4 (Some w1)) as [nw| | |]; try done. cbn [mbind outcome_bind] in *.
    destruct (match child (opp s) nw with Some _ => _ | None => _ end) as [h5| | |]; try done.
    cbn [mbind outcome_bind] in *. rewrite E2. cbn [mbind outcome_bind].
    eexists _, _, _. split; [done|]. right.
    eexists. rewrite zrep_top in Z2. split_and!; [exact Z2|done| |].
    + apply inorder_plug_eq. subst t1. rewrite <- (inorder_rotate s cp cp).
      apply inorder_mk_cong; [done|]. rewrite <- I1.
      apply inorder_mk_cong; [done|by rewrite inorder_paint].
    + eapply rb_plug; [exact K'| |rewrite color_mk; destruct cp; naive_solver].
      assert (rbt (S n) (paint RB_BLACK wb1)) by by apply rbt_paint_red.
      assert (color_of (paint RB_BLACK wb1) = RB_BLACK) by by destruct wb1.
      destruct cp; case_decide; try done.
      * rewrite rbt_red, color_mk, rbt_black_S. done.
      * by rewrite rbt_black_S, rbt_black_S.
Qed.

Lemma color_plug k t t' :
  color_of t = color_of t' → color_of (plug k t) = color_of (plug k t').
Proof.
  revert t t'; induction k as [|f k IH]; simpl; intros t t' E; [done|].
  apply IH. unfold fill. by rewrite !color_mk.
Qed.

Lemma root_in_kids k : ∀ f t, ∃ r, root_of (plug (f :: k) t) = Some r ∧ r ∈ kids (f :: k).
Proof.
  induction k as [|g k IH]; intros f t.
  - simpl. unfold fill. rewrite root_mk. set_solver.
  - destruct (IH g (fill f t)) as (r & E & H). exists r. split; [exact E|].
    simpl in *. set_solver.
Qed.

Lemma focus_not_root h f k t : zrep h (f :: k) t → root_of t ≠ root h.
Proof.
  intros [_ _ N R]. destruct (root_in_kids k f t) as (r & E & H). rewrite R, E.
  destruct t as [|c l x ri]; simpl; [done|]. intros Q; injection Q as ->.
  apply NoDup_app in N as (_ & N & _). apply (N r H). simpl. set_solver.
Qed.

(** The side test with a possibly empty focus: the sibling is not empty. *)
Lemma side_test_deficit h s c p wt k t :
  zrep h (Frame s c p wt :: k) t → wt ≠ Leaf →
  ∃ np, get_node h (Some p) = Ok np ∧ child (opp s) np = root_of wt ∧
    (if bool_decide (root_of t = left np) then SL else SR) = s.
Proof.
  intros Z Hw. destruct t as [|ct l x r].
  - pose proof (zrep_frame _ _ _ _ Z) as Ep. apply get_node_eq in Ep. simpl in Ep.
    eexists. split; [exact Ep|]. autorewrite with cells. split; [done|].
    destruct wt; [done|]. destruct s; simpl; try case_bool_decide; done.
  - destruct (side_test h s c p wt k SL ct l x r Z) as (np & ? & ? & _ & _ & ?). eauto.
Qed.

(** The parent of the focus, as the loop computes it. *)
Lemma parent_of_focus h k t :
  zrep h k t →
  (match root_of t with
   | None => Ok (kparent k)
   | Some _ => nx ← get_node h (root_of t); Ok (parent nx)
   end) = Ok (kparent k).
Proof.
  intros Z. destruct t as [|c l x r]; simpl; [done|].
  pose proof (zrep_focus h k SL _ _ _ _ Z) as Ex. by hrun.
Qed.

Definition loop_post (seq : list loc) (r : outcome (ptr * rb_heap)) : Prop :=
  ∃ h' k' t', r = Ok (root_of t', h') ∧ zrep h' k' t' ∧ inorder (plug k' t') = seq ∧
    rbtree_ok (plug k' (paint RB_BLACK t')).

(** Once a valid tree is in place and [x] is the root, the loop stops. *)
Lemma loop_done fuel h T N xp :
  heap_rep h T → rbt N T → loop_post (inorder T) (erase_fixup_loop (S fuel) (root h) xp h).
Proof.
  intros Z HT. simpl. rewrite bool_decide_true by done.
  exists h, [], T. rewrite (z_root _ _ _ Z). simpl. split_and!; [done..|].
  split; [by destruct T|]. by eapply rbt_paint.
Qed.

(** One arm, starting from a black focus. *)
Lemma fixup_arm_spec h s cp p wt k t n xp :
  zrep h (Frame s cp p wt :: k) t → rbk (Frame s cp p wt :: k) (S n) →
  color_of t = RB_BLACK → rbt n t →
  ∃ x' xp' h', erase_fixup_arm s (Some p) xp h = Ok (x', xp', h') ∧
    ((∃ k1 t1 n1, zrep h' k1 t1 ∧ x' = root_of t1 ∧ xp' = kparent k1 ∧
        rbk k1 (S n1) ∧ deficit n1 t1 ∧ (color_of t1 = RB_RED ∨ k1 = k) ∧
        inorder (plug k1 t1) = inorder (plug k (mk s cp t p wt)) ∧
        (k1 = [] ∨ color_of (plug k1 t1) = color_of (plug k (mk s cp t p wt)))) ∨
     (∃ T N, heap_rep h' T ∧ x' = root h' ∧
        inorder T = inorder (plug k (mk s cp t p wt)) ∧ rbt N T)).
Proof.
  intros Z K Ct T. unfold erase_fixup_arm.
  pose proof (zrep_frame _ _ _ _ Z) as Ep. apply get_node_eq in Ep. simpl in Ep.
  rewrite Ep. cbn [mbind outcome_bind]. autorewrite with cells.
  rewrite (red_test_eq h (Some p) wt) by exact (zrep_sib_rep _ _ _ _ Z).
  cbn [mbind outcome_bind].
  assert (rbt (S n) wt ∧ (cp = RB_RED → color_of wt = RB_BLACK)) as [Tw Cw].
  { destruct cp; simpl in K; naive_solver. }
  destruct (mk_cases s wt) as (wa & w & wb & Ew); [by intros ->|].
  rewrite Ew in *. rewrite root_mk, !color_mk in *. destruct (color_of wt).
  - rewrite bool_decide_true by done.
    destruct cp; [by specialize (Cw eq_refl)|]. clear Cw.
    rewrite rbt_red in Tw. destruct Tw as (Ca & Cb & Ta & Tb). simpl in K.
    destruct K as [_ K].
    destruct (fix_red_sibling _ _ _ _ _ _ _ _ Z) as (h1 & E1 & Z1).
    cbn [mbind outcome_bind] in *. rewrite E1. cbn [mbind outcome_bind].
    destruct (mk_cases s wa) as (a & v & b & Ea); [by intros ->|]. rewrite Ca in Ea.
    subst wa. rewrite root_mk.
    destruct (fixup_tail_spec h1 s RB_RED p a v b (Frame s RB_BLACK w wb :: k) t n xp)
      as (x' & xp' & h' & E & H); [done| |done|done|].
    { simpl. by rewrite color_mk. }
    exists x', xp', h'. split; [exact E|].
    assert (inorder (plug (Frame s RB_BLACK w wb :: k) (mk s RB_RED t p (mk s RB_RED a v b)))
            = inorder (plug k (mk s RB_BLACK t p (mk s RB_RED (mk s RB_BLACK a v b) w wb)))) as EI.
    { simpl. apply inorder_plug_eq. unfold fill; simpl.
      rewrite (inorder_rotate s RB_BLACK RB_RED RB_BLACK RB_RED).
      apply inorder_mk_cong; [|done]. apply inorder_mk_cong; [done|]. by apply inorder_mk_cong. }
    destruct H as [(Z' & -> & -> & n1 & K1 & D1)|(T' & ZT & ? & IT & N & NT)].
    + left. eexists _, _, n1. split_and!; [exact Z'|by rewrite root_mk|done|done|done| |done|].
      * left. by rewrite color_mk.
      * right. simpl. apply color_plug. unfold fill; simpl. by rewrite !color_mk.
    + right. exists T', N. by rewrite IT.
  - rewrite bool_decide_false by done. cbn [mbind outcome_bind].
    destruct (fixup_tail_spec h s cp p wa w wb k t n xp) as (x' & xp' & h' & E & H); [done..|].
    exists x', xp', h'. split; [exact E|].
    assert (inorder (plug k (mk s cp t p (mk s RB_RED wa w wb)))
            = inorder (plug k (mk s cp t p (mk s RB_BLACK wa w wb)))) as EI.
    { apply inorder_plug_eq, inorder_mk_cong; [done|]. by apply inorder_mk_cong. }
    destruct H as [(Z' & -> & -> & n1 & K1 & D1)|(T' & ZT & ? & IT & N & NT)].
    + left. eexists _, _, n1. split_and!; [exact Z'|by rewrite root_mk|done|done|done|by right|done|].
      right. apply color_plug. by rewrite !color_mk.
    + right. exists T', N. by rewrite IT.
Qed.

Definition loop_need (k : list frame) (t : tree) : nat :=
  match color_of t with RB_RED => 1 | RB_BLACK => S (S (length k)) end.

Lemma erase_fixup_loop_spec fuel : ∀ h k t n,
  zrep h k t → rbk k (S n) → deficit n t →
  (k = [] ∨ color_of (plug k t) = RB_BLACK) → (loop_need k t ≤ fuel)%nat →
  loop_post (inorder (plug k t)) (erase_fixup_loop fuel (root_of t) (kparent k) h).
Proof.
  induction fuel as [|fuel IH]; intros h k t n Z K D C Hf.
  { unfold loop_need in Hf. destruct (color_of t); lia. }
  cbn [erase_fixup_loop]. destruct k as [|[s cp p wt] k].
  { rewrite (z_root _ _ _ Z), bool_decide_true by done.
    exists h, [], t. split_and!; [done..|]. split; [by destruct t|].
    destruct D as [[_ D]|[_ D]]; [by eapply rbt_paint|by eexists]. }
  rewrite bool_decide_false by by eapply focus_not_root.
  rewrite (null_or_black_eq h _ t (z_foc _ _ _ Z)). cbn [mbind outcome_bind].
  destruct D as [[Ct T]|[Ct T]]; rewrite Ct.
  - rewrite bool_decide_true by done. cbn [negb].
    rewrite (parent_of_focus _ _ _ Z). cbn [mbind outcome_bind kparent f_id].
    assert (wt ≠ Leaf) as Hw.
    { destruct cp; simpl in K; intros ->; naive_solver. }
    destruct (side_test_deficit _ _ _ _ _ _ _ Z Hw) as (np & -> & _ & Hs).
    cbn [mbind outcome_bind]. rewrite Hs. clear Hs.
    unfold loop_need in Hf. rewrite Ct in Hf. simpl in Hf.
    destruct (fixup_arm_spec h s cp p wt k t n (Some p) Z K Ct T) as (x' & xp' & h' & -> & H).
    cbn [mbind outcome_bind].
    destruct H as [(k1 & t1 & n1 & Z1 & -> & -> & K1 & D1 & H1 & I1 & C1)
                  |(T' & N & Z1 & -> & I1 & N1)].
    + change (plug (Frame s cp p wt :: k) t) with (plug k (mk s cp t p wt)). rewrite <- I1.
      eapply IH; [exact Z1|exact K1|exact D1| |].
      * destruct C1 as [?|C1]; [by left|]. right. rewrite C1. by destruct C.
      * unfold loop_need. destruct H1 as [-> | ->]; [lia|]. destruct (color_of t1); lia.
    + change (plug (Frame s cp p wt :: k) t) with (plug k (mk s cp t p wt)). rewrite <- I1.
      destruct fuel; [lia|]. by eapply loop_done.
  - rewrite bool_decide_false by done. cbn [negb].
    exists h, (Frame s cp p wt :: k), t. split_and!; [done..|]. split.
    + destruct C as [?|C]; [done|]. rewrite <- C. simpl. apply color_plug.
      unfold fill. by rewrite !color_mk.
    + eapply rb_plug; [exact K|exact T|]. by destruct t.
Qed.

(** ** rb_erase *)

Lemma rbk_rename kr s c z y l k n :
  rbk (kr ++ Frame s c z l :: k) n → rbk (kr ++ Frame s c y l :: k) n.
Proof.
  assert (∀ kr, kcolor (kr ++ Frame s c z l :: k) = kcolor (kr ++ Frame s c y l :: k)) as E
    by (by intros []).
  revert n; induction kr as [|f kr IH]; simpl; intros n; [by destruct c|].
  destruct (f_color f); [rewrite E|]; naive_solver.
Qed.

(** The detour of the two-child case when [y] is not the child of [z]: the
    right subtree, with [y] already cut out, is hung below [y]. *)
Lemma hang_below_spec h kr c l z k cy y ry :
  zrep h (kr ++ Frame SR c z l :: k) (Node cy Leaf y ry) →
  Forall (λ f, f_side f = SL) kr → kr ≠ [] →
  ∃ h', (h ← transplant y (root_of ry) h;
         nz ← get_node h (Some z);
         h ← update (with_right (right nz)) (Some y) h;
         ny ← get_node h (Some y);
         h ← update (with_parent (Some y)) (right ny) h;
         ny ← get_node h (Some y);
         Ok (parent ny, h)) = Ok (kparent kr, h') ∧
    repk (nodes h') k (Some z) ∧ root h' = root_of (plug k (Node c l z Leaf)) ∧
    nodes h' !! z = Some (RbNode (kparent k) (root_of l) (root_of (plug kr ry)) c) ∧
    rep (nodes h') (Some z) l ∧
    rep (nodes h') (kparent kr) (Node cy Leaf y (plug kr ry)).
Proof.
  intros Z Hl Hne. pose proof (zrep_focus h _ SL _ _ _ _ Z) as Ey. simpl in Ey.
  assert (kparent (kr ++ Frame SR c z l :: k) = kparent kr) as Ekp by by destruct kr.
  rewrite Ekp in Ey.
  assert (y ∉ kids (kr ++ Frame SR c z l :: k) ++ inorder ry) as Ny.
  { destruct Z as [_ _ N _]. simpl in N. apply NoDup_app in N as (_ & N1 & N2).
    apply NoDup_cons in N2 as [N2 _]. set_solver. }
  destruct Z as [C F N R]. simpl in F, N, C. destruct F as (_ & _ & F).
  destruct (transplant_spec h (kr ++ Frame SR c z l :: k) y
    (RbNode (kparent kr) None (root_of ry) cy) (Node cy Leaf y ry) ry (Some y))
    as (h1 & -> & Z1 & S1); try done; [set_solver| |].
  { rewrite NoDup_app, NoDup_cons in N. rewrite NoDup_app. set_solver. }
  cbn [mbind outcome_bind]. rewrite zrep_plug in Z1.
  pose proof (zrep_frame _ _ _ _ Z1) as Ez. simpl in Ez.
  assert (nodes h1 !! y = Some (RbNode (kparent kr) None (root_of ry) cy)) as Ey1.
  { rewrite S1; done. }
  rewrite kids_app in Ny. simpl in Ny.
  hrun. set (h2 := put_node y _ h1).
  destruct Z1 as [C1 F1 N1 R1]. simpl in C1, F1, N1, R1. destruct C1 as (_ & Fl & C1).
  assert (inorder (plug kr ry) ≡ₚ kids kr ++ inorder ry) as Pr by apply inorder_plug.
  assert (y ∉ inorder (plug kr ry)) as NyR by (rewrite Pr; set_solver).
  apply NoDup_cons in N1 as [Nz N1]. apply NoDup_app in N1 as (Nlk & Nd & Np).
  assert (rep (nodes h2) (Some z) (plug kr ry)) as F2 by (by apply rep_insert).
  destruct (reparent_spec h2 (Some z) (Some y) (plug kr ry) F2 Np) as (h3 & E3 & F3 & S3 & R3).
  destruct (root_of (plug kr ry)) as [r|] eqn:Er.
  2:{ destruct kr as [|f kr]; [done|]. destruct (root_in_kids kr f ry) as (? & ? & _). congruence. }
  simpl. rewrite E3. cbn [mbind outcome_bind].
  assert (nodes h3 !! y = Some (RbNode (kparent kr) None (Some r) cy)) as Ey3.
  { rewrite S3 by done. subst h2. by lk. }
  hrun. eexists. split; [done|].
  assert (same_outside (y :: inorder (plug kr ry)) (nodes h1) (nodes h3)) as S13.
  { intros w Hw. rewrite S3 by set_solver. subst h2; simpl. rewrite lookup_insert_ne; set_solver. }
  assert (∀ w, w ∈ z :: inorder l ++ kids k → w ∉ y :: inorder (plug kr ry)) as D by set_solver.
  split_and!.
  - eapply repk_frame; [exact S13|set_solver|done].
  - rewrite R3. subst h2; simpl. rewrite R1. apply root_plug. unfold fill. by rewrite root_mk.
  - rewrite S13 by set_solver. by rewrite Ez.
  - eapply rep_frame; [exact S13|set_solver|done].
  - by rewrite Er.
  - done.
  - done.
Qed.

Lemma head_min k1 c y r :
  Forall (λ f, f_side f = SL) k1 → head (inorder (plug k1 (Node c Leaf y r))) = Some y.
Proof. intros H. by rewrite inorder_plug_split, kbefore_left. Qed.

(** Unlinking [z], described on the zipper: the focus [t] is one black node
    short when the node that left its place was black. *)
Definition unlinked (k : list frame) (c : rb_color) (l : tree) (z : loc) (r : tree)
    (res : outcome (ptr * ptr * rb_color * rb_heap)) : Prop :=
  ∃ h' K t cy n, res = Ok (root_of t, kparent K, cy, h') ∧ zrep h' K t ∧
    inorder (plug K t) = kbefore k ++ inorder l ++ inorder r ++ kafter k ∧
    (if decide (cy = RB_RED) then ∃ N', rbt N' (plug K t) else rbk K (S n) ∧ deficit n t) ∧
    (K = [] ∧ k = [] ∧ cy = c ∨
     K ≠ [] ∧ color_of (plug K t) = color_of (plug k (Node c l z r))).

Lemma deficit_black n t : rbt n t → deficit n t.
Proof.
  intros T. unfold deficit. destruct (color_of t) eqn:Ct; [right|by left].
  split; [done|]. by apply rbt_paint_red.
Qed.

(** At most one child: it takes the place of [z]. *)
Lemma unlink_one_child h k c l z r tv N :
  zrep h k (Node c l z r) → rbt N (plug k (Node c l z r)) →
  (tv = l ∧ r = Leaf ∨ tv = r ∧ l = Leaf) →
  unlinked k c l z r (h ← transplant z (root_of tv) h; Ok (root_of tv, kparent k, c, h)).
Proof.
  intros Z T Htv. destruct (rb_unplug _ _ _ T) as (n & K & Tz & Q). simpl in Tz.
  destruct (transplant_child _ _ _ _ _ _ tv Z) as (h' & -> & Z'); [tauto|].
  exists h', k, tv, c, (pred n). split_and!; [done|done| | |].
  - rewrite inorder_plug_split. f_equal. rewrite app_assoc. f_equal.
    destruct Htv as [[-> ->]|[-> ->]]; simpl; by rewrite ?app_nil_r.
  - destruct c; case_decide; try done.
    + destruct Tz as (Cl & Cr & Tl & Tr).
      eapply rb_plug; [exact K|naive_solver|]. naive_solver congruence.
    + destruct Tz as (n' & -> & Tl & Tr). split; [done|].
      apply deficit_black. naive_solver.
  - destruct k as [|f k]; [by left|right]. split; [done|]. simpl. apply color_plug.
    unfold fill. by rewrite !color_mk.
Qed.

(** Two children: [y], the leftmost node of the right subtree, replaces [z]. *)
Lemma unlink_two_children h k c l z kr cy y ry N :
  zrep h k (Node c l z (plug kr (Node cy Leaf y ry))) → l ≠ Leaf →
  Forall (λ f, f_side f = SL) kr →
  rbt N (plug k (Node c l z (plug kr (Node cy Leaf y ry)))) →
  unlinked k c l z (plug kr (Node cy Leaf y ry))
    (ny ← get_node h (Some y);
     '(xp, h) ← (if bool_decide (parent ny = Some z) then Ok (Some y, h)
                 else
                   h ← transplant y (right ny) h;
                   nz ← get_node h (Some z);
                   h ← update (with_right (right nz)) (Some y) h;
                   ny ← get_node h (Some y);
                   h ← update (with_parent (Some y)) (right ny) h;
                   ny ← get_node h (Some y);
                   Ok (parent ny, h));
     h ← splice z y h;
     Ok (right ny, xp, color ny, h)).
Proof.
  intros Z Nel Hkr T.
  assert (zrep h (kr ++ Frame SR c z l :: k) (Node cy Leaf y ry)) as Zr.
  { by rewrite zrep_plug, zrep_up. }
  pose proof (zrep_focus h _ SL _ _ _ _ Zr) as Ey.
  rewrite (get_node_eq _ _ _ Ey). cbn [mbind outcome_bind cell left right parent color].
  set (R := plug kr ry).
  assert (∃ h1 p, (if bool_decide (kparent (kr ++ Frame SR c z l :: k) = Some z)
                   then Ok (Some y, h)
                   else h ← transplant y (root_of ry) h;
                        nz ← get_node h (Some z);
                        h ← update (with_right (right nz)) (Some y) h;
                        ny ← get_node h (Some y);
                        h ← update (with_parent (Some y)) (right ny) h;
                        ny ← get_node h (Some y);
                        Ok (parent ny, h))
                  = Ok (kparent (kr ++ Frame SR c y l :: k), h1) ∧
    repk (nodes h1) k (Some z) ∧ root h1 = root_of (plug k (Node c l z Leaf)) ∧
    (∃ rz, nodes h1 !! z = Some (RbNode (kparent k) (root_of l) rz c)) ∧
    rep (nodes h1) (Some z) l ∧ rep (nodes h1) p (Node cy Leaf y R))
    as (h1 & p & -> & C1 & R1 & [rz Ez1] & Fl1 & Fy1).
  { destruct kr as [|f kr].
    - simpl. rewrite bool_decide_true by done. exists h, (Some z). split; [done|].
      destruct Z as [C (Ez & Fl & Fr) _ Rz]. split; [done|].
      split; [rewrite Rz; by apply root_plug|]. eauto.
    - rewrite bool_decide_false.
      2:{ simpl. intros Q; injection Q as Q. destruct Zr as [_ _ Nd _]. simpl in Nd.
          rewrite Q, kids_app in Nd. apply NoDup_cons in Nd as [Nd _]. apply Nd. simpl. set_solver. }
      destruct (hang_below_spec _ _ _ _ _ _ _ _ _ Zr Hkr) as (h1 & E & H); [done|].
      exists h1, (kparent (f :: kr)). split; [exact E|]. naive_solver. }
  cbn [mbind outcome_bind].
  destruct (splice_spec h1 k c l z rz cy y R p) as (h2 & -> & Z2); try done.
  { eapply NoDup_perm, (z_nodup _ _ _ Z). simpl. unfold R. rewrite !inorder_plug. simpl.
    solve_Permutation. }
  cbn [mbind outcome_bind].
  assert (zrep h2 (kr ++ Frame SR c y l :: k) ry) as Z3 by by rewrite zrep_plug, zrep_up.
  assert (plug k (Node c l z (plug kr (Node cy Leaf y ry)))
          = plug (kr ++ Frame SR c z l :: k) (Node cy Leaf y ry)) as Eplug by by rewrite plug_app.
  rewrite Eplug in T. destruct (rb_unplug _ _ _ T) as (n & K & Ty & Q).
  apply (rbk_rename _ _ _ _ y) in K. simpl in Ty.
  eexists h2, _, ry, cy, (pred n). split_and!; [done|exact Z3| | |].
  - rewrite plug_app. simpl. unfold fill; simpl.
    rewrite !inorder_plug_split, (kbefore_left kr Hkr). simpl.
    rewrite !inorder_plug_split, ?(kbefore_left kr Hkr). simpl.
    rewrite <- !app_assoc. simpl. by rewrite <- !app_assoc.
  - destruct cy; case_decide; try done.
    + destruct Ty as (_ & Cr & _ & Tr). eapply rb_plug; [exact K|done|congruence].
    + destruct Ty as (n' & -> & _ & Tr). split; [done|by apply deficit_black].
  - right. split; [by destruct kr|]. rewrite plug_app. simpl. by apply color_plug.
Qed.

Lemma erase_unlink_spec h k c l z r N :
  zrep h k (Node c l z r) → rbt N (plug k (Node c l z r)) →
  unlinked k c l z r (erase_unlink z h).
Proof.
  intros Z T. unfold erase_unlink. pose proof (zrep_focus h k SL _ _ _ _ Z) as Ez.
  rewrite (get_node_eq _ _ _ Ez). cbn [mbind outcome_bind cell left right parent color].
  destruct (root_of l) eqn:El; [destruct (root_of r) eqn:Er|].
  - assert (zrep h (Frame SR c z l :: k) r) as Zr by by rewrite zrep_up.
    rewrite <- Er, (rb_min_spec _ _ _ Zr).
    destruct (leftmost_exists r) as (kr & cy & y & ry & -> & Hkr); [by intros ->|].
    rewrite head_min by done. cbn [mbind outcome_bind deref].
    eapply unlink_two_children; [done|by intros ->|done|done].
  - rewrite <- El. eapply unlink_one_child; [done|done|left]. by destruct r.
  - eapply unlink_one_child; [done|done|right]. by destruct l.
Qed.

Lemma erase_fixup_spec h k t n :
  zrep h k t → rbk k (S n) → deficit n t →
  (k = [] ∨ color_of (plug k t) = RB_BLACK) →
  ∃ h' T, erase_fixup (root_of t) (kparent k) h = Ok h' ∧ heap_rep h' T ∧ rbtree_ok T ∧
    inorder T = inorder (plug k t).
Proof.
  intros Z K D C. unfold erase_fixup.
  destruct (erase_fixup_loop_spec (S (loop_fuel h)) h k t n Z K D C)
    as (h1 & k1 & t1 & -> & Z1 & I1 & O1).
  { pose proof (zrep_size _ _ _ Z). unfold loop_need, loop_fuel. destruct (color_of t); lia. }
  cbn [mbind outcome_bind]. destruct t1 as [|c x l r]; simpl in *.
  - exists h1, (plug k1 Leaf). split_and!; [done|by rewrite zrep_top in Z1|done|done].
  - destruct (paint_spec h1 k1 SL _ RB_BLACK _ _ _ Z1) as (h2 & -> & Z2).
    eexists _, _. split; [done|]. rewrite zrep_top in Z2. split_and!; [exact Z2|exact O1|].
    rewrite <- I1. by apply inorder_plug_eq.
Qed.

(** [rb_erase] removes exactly the given node from the in-order sequence and
    keeps the tree a red-black tree. *)
Lemma rb_erase_spec h t l1 z l2 :
  heap_rep h t → rbtree_ok t → inorder t = l1 ++ z :: l2 →
  ∃ h' t', rb_erase z h = Ok h' ∧ heap_rep h' t' ∧ rbtree_ok t' ∧ inorder t' = l1 ++ l2.
Proof.
  intros Z [Ct [N T]] E. destruct (focus_exists t z) as (k & c & l & r & ->).
  { rewrite E. set_solver. }
  pose proof (z_nodup _ _ _ Z) as Nd. simpl in Nd.
  rewrite inorder_plug_split in E, Nd. simpl in E, Nd.
  rewrite <- app_assoc, app_assoc in E, Nd. simpl in E, Nd.
  destruct (NoDup_split_unique _ _ _ _ _ Nd E) as [<- <-].
  rewrite <- zrep_top in Z. unfold rb_erase.
  destruct (erase_unlink_spec _ _ _ _ _ _ _ Z T) as (h1 & K & t & cy & n & -> & Z1 & I1 & B & C).
  cbn [mbind outcome_bind]. rewrite <- app_assoc, <- I1. destruct cy; case_decide; try done.
  - rewrite bool_decide_false by done. destruct B as [N' B].
    exists h1, (plug K t). rewrite zrep_top in Z1. split_and!; [done|done| |done].
    split; [|by exists N']. destruct C as [(-> & -> & <-)|[_ ->]]; done.
  - rewrite bool_decide_true by done. destruct B as [K1 D1].
    apply erase_fixup_spec with n; [done|done|done|].
    destruct C as [(-> & _)|[_ ->]]; [by left|by right].
Qed.

(** ** Claims about rbtree.c *)

Definition demo_heap : rb_heap :=
  RbHeap {[ 1%positive := RbNode None (Some 2%positive) (Some 3%positive) RB_BLACK;
            2%positive := RbNode (Some 1%positive) None None RB_RED;
            3%positive := RbNode (Some 1%positive) None None RB_RED;
            4%positive := RbNode None None None RB_RED ]} (Some 1%positive).

Definition demo_tree : tree :=
  Node RB_BLACK (Node RB_RED Leaf 2 Leaf) 1 (Node RB_RED Leaf 3 Leaf).

Lemma demo_rep : heap_rep demo_heap demo_tree.
Proof.
  constructor; simpl; [done| |by apply (bool_decide_unpack _); vm_compute|done].
  by split_and!.
Qed.

Lemma demo_ok : rbtree_ok demo_tree.
Proof. split; [done|]. exists 1%nat. simpl. naive_solver. Qed.

(** C26: linking a node that is not in the tree at an empty child position and
    running [rb_insert_color] always succeeds (no NULL or wild pointer is
    followed and both loops terminate), the tree stays a red-black tree with
    consistent parent pointers, and the in-order sequence gains exactly the
    new node at that position. *)
Theorem rb_insert_correct (h : rb_heap) (k : list frame) (x : loc) :
  heap_rep h (plug k Leaf) → rbtree_ok (plug k Leaf) → x ∉ inorder (plug k Leaf) →
  ∃ h' t', (h1 ← rb_link_node x (kparent k) (slot_of k) h; rb_insert_color x h1) = Ok h' ∧
    heap_rep h' t' ∧ rbtree_ok t' ∧ inorder t' = kbefore k ++ x :: kafter k.
Proof.
  rewrite <- zrep_top. intros Z O Hx.
  destruct (insert_at_spec h k x Z O) as (h' & t' & E & Z' & O' & I').
  { rewrite inorder_plug in Hx. set_solver. }
  exists h', t'. split_and!; [exact E|done|done|]. by rewrite I', inorder_plug_split.
Qed.

Lemma rb_insert_correct_witness :
  ∃ h' t', (h1 ← rb_link_node 4 (Some 3%positive) (SlotChild 3 SR) demo_heap;
            rb_insert_color 4 h1) = Ok h' ∧
    heap_rep h' t' ∧ rbtree_ok t' ∧ inorder t' = [2; 1; 3; 4]%positive.
Proof.
  apply (rb_insert_correct demo_heap
    [Frame SR RB_RED 3 Leaf; Frame SR RB_BLACK 1 (Node RB_RED Leaf 2 Leaf)] 4).
  - apply demo_rep.
  - apply demo_ok.
  - by apply (bool_decide_unpack _); vm_compute.
Defined.

(** C9: erasing any node of the tree always succeeds (no NULL or wild pointer is
    followed and every loop terminates), what is left is a red-black tree with
    consistent parent pointers, and its in-order sequence is the old one
    without the erased node. *)
Theorem rb_erase_correct (h : rb_heap) (t : tree) (l1 l2 : list loc) (z : loc) :
  heap_rep h t → rbtree_ok t → inorder t = l1 ++ z :: l2 →
  ∃ h' t', rb_erase z h = Ok h' ∧ heap_rep h' t' ∧ rbtree_ok t' ∧ inorder t' = l1 ++ l2.
Proof. apply rb_erase_spec. Qed.

Lemma rb_erase_correct_witness :
  ∃ h' t', rb_erase 1 demo_heap = Ok h' ∧ heap_rep h' t' ∧ rbtree_ok t' ∧
    inorder t' = [2; 3]%positive.
Proof.
  apply (rb_erase_correct demo_heap demo_tree [2%positive] [3%positive] 1).
  - apply demo_rep.
  - apply demo_ok.
  - done.
Defined.

(** The walk [for (n = rb_first(r); n; n = rb_next(n))] for at most [fuel]
    steps: the nodes it visits, in order. *)
Fixpoint rb_walk (fuel : nat) (p : ptr) (h : rb_heap) : outcome (list loc) :=
  match fuel, p with
  | O, _ => NoFuel
  | S _, None => Ok []
  | S fuel, Some x => q ← rb_next x h; l ← rb_walk fuel q h; Ok (x :: l)
  end.

Lemma rb_walk_spec h t : heap_rep h t → ∀ l2 l1 fuel,
  inorder t = l1 ++ l2 → (length l2 < fuel)%nat → rb_walk fuel (head l2) h = Ok l2.
Proof.
  intros Z. induction l2 as [|x l2 IH]; intros l1 [|fuel] E Hf; simpl in Hf; try lia; [done|].
  cbn [rb_walk head]. rewrite (rb_next_spec h t l1 x l2 Z E). cbn [mbind outcome_bind].
  rewrite (IH (l1 ++ [x]) fuel); [done| |lia]. by rewrite <- app_assoc.
Qed.

(** Starting at [rb_first] and following [rb_next] visits every node of the
    tree once, in order, and ends. *)
Theorem rb_walk_correct (h : rb_heap) (t : tree) :
  heap_rep h t →
  (p ← rb_first h; rb_walk (S (length (inorder t))) p h) = Ok (inorder t).
Proof.
  intros Z. rewrite (rb_first_spec h t Z). cbn [mbind outcome_bind].
  by apply (rb_walk_spec h t Z (inorder t) []); [|lia].
Qed.

Lemma rb_walk_correct_witness :
  (p ← rb_first demo_heap; rb_walk 4 p demo_heap) = Ok [2; 1; 3]%positive.
Proof. apply (rb_walk_correct demo_heap demo_tree). apply demo_rep. Defined.
