(* ===== verification/Vma.v ===== *)
(** * kernel/mm/vma.c: the VMA tree of an address space

    A [struct vma] embeds its [rb_node], so a VMA and its tree node have the
    same address: [as_rb] holds the nodes, [as_vma] the other fields. *)

From S2P Require Import Prelude Rbtree RbtreeRep RbtreeInsert RbtreeErase.

Record vma := Vma { v_start : Z; v_end : Z; v_flags : Z }.

#[export] Instance vma_eq_dec : EqDecision vma.
Proof. solve_decision. Defined.

(** ** The page-table interface

    What vma.c and mmap.c call of paging.c and pmm.c, on a state [pg] of page
    tables and frames.  Addresses are page-aligned; [paging_get_flags] returns
    an error code and the PTE. *)
Class Paging (pg : Type) := {
  paging_unmap : Z → Z → pg → outcome pg;
  paging_get_flags : Z → pg → Z * Z;
  paging_protect : Z → Z → Z → pg → outcome (Z * pg);
  pmm_user_refcount : pg → Z → Z;
  mm_zero_page : pg → Z
}.

(** PTE bits: [include/jnu/mm/paging.h]. *)
Definition PTE_PRESENT : Z := 1.
Definition PTE_WRITE : Z := 2.
Definition PTE_USER : Z := 4.
Definition PTE_HUGE : Z := 128.
Definition PTE_NX : Z := 2 ^ 63.
Definition PTE_ADDR_MASK : Z := 0x000FFFFFFFFFF000.

(** The end of the user half: [include/uapi/jnu/mman.h]. *)
Abbreviation USER_TOP := 0x800000000000.

(** PTE flags of a user page: not those of a large page, and no address bits. *)
Definition user_flags (fl : Z) : Prop :=
  has fl PTE_USER = true ∧ has fl PTE_HUGE = false ∧ Z.land fl PTE_ADDR_MASK = 0.

(** What the callers rely on, for states satisfying [pg_inv]: [pte_at g va] is
    the present PTE of the user page [va]; unmapping a range never fails,
    removes exactly the PTEs of the range and gives no page that stays mapped
    more references; protecting one page with flags that
    keep it a user page rewrites its flags and keeps its frame. *)
Class PagingLaws (pg : Type) `{Paging pg} := {
  pg_inv : pg → Prop;
  pte_at : pg → Z → option Z;
  get_flags_spec g va : pg_inv g → page_aligned va → 0 ≤ va < USER_TOP →
    paging_get_flags va g =
    match pte_at g va with Some e => (0, e) | None => (- ENOENT, 0) end;
  unmap_spec g va n : pg_inv g → page_aligned va → 0 ≤ va → 0 ≤ n →
    va + n * 4096 ≤ USER_TOP →
    ∃ g', paging_unmap va n g = Ok g' ∧ pg_inv g' ∧ mm_zero_page g' = mm_zero_page g ∧
      (∀ a, page_aligned a → pte_at g' a =
        if decide (va ≤ a < va + n * 4096) then None else pte_at g a) ∧
      (∀ a e, page_aligned a → pte_at g' a = Some e → Z.land e PTE_ADDR_MASK ≠ mm_zero_page g →
        pmm_user_refcount g' (Z.land e PTE_ADDR_MASK) ≤ pmm_user_refcount g (Z.land e PTE_ADDR_MASK));
  protect_spec g va fl e : pg_inv g → page_aligned va → 0 ≤ va < USER_TOP →
    user_flags fl → pte_at g va = Some e →
    ∃ g', paging_protect va 1 fl g = Ok (0, g') ∧ pg_inv g' ∧
      mm_zero_page g' = mm_zero_page g ∧
      (∀ pa, pmm_user_refcount g' pa = pmm_user_refcount g pa) ∧
      ∀ a, page_aligned a → pte_at g' a =
        if decide (a = va)
        then Some (Z.lor (Z.lor (Z.land e PTE_ADDR_MASK) PTE_PRESENT) fl)
        else pte_at g a
}.

(** No page that is still mapped gained references. *)
Definition refs_kept {pg : Type} `{PagingLaws pg} (g g' : pg) : Prop :=
  mm_zero_page g' = mm_zero_page g ∧
  ∀ a e, page_aligned a → pte_at g' a = Some e → Z.land e PTE_ADDR_MASK ≠ mm_zero_page g →
    pmm_user_refcount g' (Z.land e PTE_ADDR_MASK) ≤ pmm_user_refcount g (Z.land e PTE_ADDR_MASK).

Section Vma.
Context {pg : Type} `{!Paging pg}.

Record addr_space := AddrSpace {
  as_rb : rb_heap;
  as_vma : gmap loc vma;
  as_kmem : list bool;
  as_mmap_base : Z;
  as_pg : pg
}.

Definition with_rb (h : rb_heap) (s : addr_space) : addr_space :=
  AddrSpace h (as_vma s) (as_kmem s) (as_mmap_base s) (as_pg s).
Definition with_pg (g : pg) (s : addr_space) : addr_space :=
  AddrSpace (as_rb s) (as_vma s) (as_kmem s) (as_mmap_base s) g.

(** [v->field = x] on an existing VMA. *)
Definition update_vma (v : loc) (f : vma → vma) (s : addr_space) : outcome addr_space :=
  n ← deref (as_vma s !! v);
  Ok (AddrSpace (as_rb s) (<[v := f n]> (as_vma s)) (as_kmem s) (as_mmap_base s) (as_pg s)).

(** [kzalloc(sizeof(struct vma))]: the head of [as_kmem] says whether the
    allocation succeeds; a success returns the address of a zeroed object that
    is not in use.  [kfree] makes the object inaccessible. *)
Definition kzalloc_vma (s : addr_space) : option loc * addr_space :=
  match as_kmem s with
  | true :: ks =>
      let l := fresh (dom (as_vma s)) in
      (Some l, AddrSpace (put_node l (RbNode None None None RB_RED) (as_rb s))
                         (<[l := Vma 0 0 0]> (as_vma s)) ks (as_mmap_base s) (as_pg s))
  | _ :: ks => (None, AddrSpace (as_rb s) (as_vma s) ks (as_mmap_base s) (as_pg s))
  | [] => (None, s)
  end.

Definition kfree_vma (l : loc) (s : addr_space) : addr_space :=
  AddrSpace (RbHeap (delete l (nodes (as_rb s))) (root (as_rb s)))
            (delete l (as_vma s)) (as_kmem s) (as_mmap_base s) (as_pg s).

(** ** Core operations *)

(** The descent of [vma_insert]; [None] is the [-EEXIST] return. *)
Fixpoint vma_insert_loop (fuel : nat) (v : vma) (sl : slot) (par : ptr) (s : addr_space)
    : outcome (option (slot * ptr)) :=
  match fuel with
  | O => NoFuel
  | S fuel =>
      cur ← read_slot sl (as_rb s);
      match cur with
      | None => Ok (Some (sl, par))
      | Some c =>
          n ← deref (as_vma s !! c);
          if v_end v <=? v_start n then vma_insert_loop fuel v (SlotChild c SL) cur s
          else if v_start v >=? v_end n then vma_insert_loop fuel v (SlotChild c SR) cur s
          else Ok None
      end
  end.

Definition vma_insert (v : loc) (s : addr_space) : outcome (Z * addr_space) :=
  n ← deref (as_vma s !! v);
  r ← vma_insert_loop (loop_fuel (as_rb s)) n SlotRoot None s;
  match r with
  | None => Ok (- EEXIST, s)
  | Some (sl, par) =>
      h ← rb_link_node v par sl (as_rb s);
      h ← rb_insert_color v h;
      Ok (0, with_rb h s)
  end.

Fixpoint vma_find_loop (fuel : nat) (addr : Z) (n : ptr) (s : addr_space) : outcome ptr :=
  match fuel with
  | O => NoFuel
  | S fuel =>
      match n with
      | None => Ok None
      | Some c =>
          cur ← deref (as_vma s !! c);
          nd ← get_node (as_rb s) n;
          if addr <? v_start cur then vma_find_loop fuel addr (left nd) s
          else if addr >=? v_end cur then vma_find_loop fuel addr (right nd) s
          else Ok n
      end
  end.

Definition vma_find (addr : Z) (s : addr_space) : outcome ptr :=
  vma_find_loop (loop_fuel (as_rb s)) addr (root (as_rb s)) s.

Definition vma_remove (v : loc) (s : addr_space) : outcome addr_space :=
  h ← rb_erase v (as_rb s); Ok (with_rb h s).

Definition vma_first (s : addr_space) : outcome ptr := rb_first (as_rb s).
Definition vma_next (v : loc) (s : addr_space) : outcome ptr := rb_next v (as_rb s).

(** ** Splitting *)

Definition set_end (e : Z) (v : vma) : vma := Vma (v_start v) e (v_flags v).
Definition set_vflags (f : Z) (v : vma) : vma := Vma (v_start v) (v_end v) f.

Definition vma_split_at (v : loc) (boundary : Z) (s : addr_space)
    : outcome (Z * ptr * addr_space) :=
  n ← deref (as_vma s !! v);
  if (boundary <=? v_start n) || (boundary >=? v_end n) then Ok (- EINVAL, None, s) else
  if negb (Z.land boundary PAGE_MASK =? 0) then Ok (- EINVAL, None, s) else
  let (u, s) := kzalloc_vma s in
  match u with
  | None => Ok (- ENOMEM, None, s)
  | Some upper =>
      s ← update_vma upper (λ _, Vma boundary (v_end n) (v_flags n)) s;
      let original_end := v_end n in
      s ← vma_remove v s;
      s ← update_vma v (set_end boundary) s;
      '(err, s) ← vma_insert v s;
      if negb (err =? 0) then
        s ← update_vma v (set_end original_end) s;
        '(_, s) ← vma_insert v s;
        Ok (err, None, kfree_vma upper s)
      else
      '(err, s) ← vma_insert upper s;
      if negb (err =? 0) then
        s ← vma_remove v s;
        s ← update_vma v (set_end original_end) s;
        '(_, s) ← vma_insert v s;
        Ok (err, None, kfree_vma upper s)
      else Ok (0, Some upper, s)
  end.

(** ** Range removal *)

(** The two splits at the ends of a range, as [vma_remove_range] and
    [sys_mprotect] perform them. *)
Definition split_left (start : Z) (s : addr_space) : outcome (Z * addr_space) :=
  p ← vma_find start s;
  match p with
  | None => Ok (0, s)
  | Some v =>
      n ← deref (as_vma s !! v);
      if v_start n <? start then '(err, _, s) ← vma_split_at v start s; Ok (err, s)
      else Ok (0, s)
  end.

Definition split_right (end_ : Z) (s : addr_space) : outcome (Z * addr_space) :=
  p ← vma_find (sub64 end_ 1) s;
  match p with
  | None => Ok (0, s)
  | Some v =>
      n ← deref (as_vma s !! v);
      if v_end n >? end_ then '(err, _, s) ← vma_split_at v end_ s; Ok (err, s)
      else Ok (0, s)
  end.

(** [while (v && v->end <= start) v = vma_next(v)] *)
Fixpoint skip_below (fuel : nat) (start : Z) (p : ptr) (s : addr_space) : outcome ptr :=
  match fuel with
  | O => NoFuel
  | S fuel =>
      match p with
      | None => Ok None
      | Some v =>
          n ← deref (as_vma s !! v);
          if v_end n <=? start then p ← vma_next v s; skip_below fuel start p s
          else Ok p
      end
  end.

(** The VMA at [start], or the first one past it. *)
Definition walk_from (start : Z) (s : addr_space) : outcome ptr :=
  p ← vma_find start s;
  match p with
  | Some _ => Ok p
  | None => p ← vma_first s; skip_below (loop_fuel (as_rb s)) start p s
  end.

(** [while (v && v->start < end)]: remove what lies inside the range. *)
Fixpoint remove_loop (fuel : nat) (unmap : bool) (start end_ : Z) (p : ptr) (s : addr_space)
    : outcome addr_space :=
  match fuel with
  | O => NoFuel
  | S fuel =>
      match p with
      | None => Ok s
      | Some v =>
          n ← deref (as_vma s !! v);
          if negb (v_start n <? end_) then Ok s else
          next ← vma_next v s;
          s ← (if (v_start n >=? start) && (v_end n <=? end_) then
                 s ← (if unmap then
                        g ← paging_unmap (v_start n)
                              (sub64 (v_end n) (v_start n) / PAGE_SIZE) (as_pg s);
                        Ok (with_pg g s)
                      else Ok s);
                 s ← vma_remove v s;
                 Ok (kfree_vma v s)
               else Ok s);
          remove_loop fuel unmap start end_ next s
      end
  end.

(** [unmap] is [space != NULL]. *)
Definition vma_remove_range (unmap : bool) (start end_ : Z) (s : addr_space)
    : outcome (Z * addr_space) :=
  if start >=? end_ then Ok (- EINVAL, s) else
  '(err, s) ← split_left start s;
  if negb (err =? 0) then Ok (err, s) else
  '(err, s) ← split_right end_ s;
  if negb (err =? 0) then Ok (err, s) else
  p ← walk_from start s;
  s ← remove_loop (loop_fuel (as_rb s)) unmap start end_ p s;
  Ok (0, s).

(** ** Top-down gap finder *)

Definition gap_floor : Z := PAGE_SIZE.

(** One gap: [if (gap_end > prev_end && gap_end - prev_end >= size)] and the
    choice of the highest candidate. *)
Definition gap_candidate (size prev_end gap_end best : Z) (check_floor : bool) : Z :=
  if (gap_end >? prev_end) && (sub64 gap_end prev_end >=? size) then
    let candidate := sub64 gap_end size in
    if (candidate >=? prev_end) && (negb check_floor || (candidate >=? gap_floor)) then
      if (best =? 0) || (candidate >? best) then candidate else best
    else best
  else best.

Fixpoint gap_loop (fuel : nat) (size ceiling : Z) (p : ptr) (prev_end best : Z)
    (s : addr_space) : outcome (Z * Z) :=
  match fuel with
  | O => NoFuel
  | S fuel =>
      match p with
      | None => Ok (prev_end, best)
      | Some v =>
          n ← deref (as_vma s !! v);
          if v_start n >=? ceiling then Ok (prev_end, best) else
          let best := gap_candidate size prev_end (v_start n) best true in
          next ← vma_next v s;
          gap_loop fuel size ceiling next (v_end n) best s
      end
  end.

Definition vma_find_gap_top_down (size ceiling : Z) (s : addr_space) : outcome Z :=
  if (size =? 0) || negb (Z.land size PAGE_MASK =? 0) then Ok 0 else
  p ← vma_first s;
  match p with
  | None => if ceiling >=? add64 gap_floor size then Ok (sub64 ceiling size) else Ok 0
  | Some _ =>
      '(prev_end, best) ← gap_loop (loop_fuel (as_rb s)) size ceiling p gap_floor 0 s;
      Ok (gap_candidate size prev_end ceiling best false)
  end.

End Vma.
Arguments addr_space : clear implicits.
