(* ===== verification/VmaSpec.v ===== *)
(** * The VMA tree as an ordered list of mappings

    [wf s l] says that the tree of [s] stores the VMAs [l], in address order
    and disjoint.  Every operation of vma.c is described on [l]. *)

From S2P Require Import Prelude Rbtree RbtreeRep RbtreeInsert RbtreeErase Vma.

(** Two VMAs in address order. *)
Definition vbefore (a b : vma) : Prop := v_end a ≤ v_start b.

Definition contains (v : vma) (a : Z) : Prop := v_start v ≤ a < v_end v.

Definition overlaps (a b : vma) : Prop := v_start a < v_end b ∧ v_start b < v_end a.

Record vma_ok (v : vma) : Prop := VmaOk {
  ok_start : 0 ≤ v_start v;
  ok_nonempty : v_start v < v_end v;
  ok_end : v_end v ≤ USER_TOP;
  ok_start_al : page_aligned (v_start v);
  ok_end_al : page_aligned (v_end v)
}.

#[export] Instance contains_dec v a : Decision (contains v a).
Proof. unfold contains. apply _. Defined.

#[export] Instance vbefore_dec : RelDecision vbefore.
Proof. unfold vbefore. intros a b. apply _. Defined.

Abbreviation vlist := (list (loc * vma)).

Definition vsorted (l : vlist) : Prop := StronglySorted vbefore l.*2.

Section VmaSpec.
Context {pg : Type} `{!Paging pg}.
Implicit Types s : addr_space pg.

Record wf s (l : vlist) : Prop := Wf {
  wf_tree : ∃ t, heap_rep (as_rb s) t ∧ rbtree_ok t ∧ inorder t = l.*1;
  wf_data : Forall (λ p, as_vma s !! p.1 = Some p.2) l;
  wf_ok : Forall vma_ok l.*2;
  wf_sorted : vsorted l
}.

(** The mapping that contains an address. *)
Definition vlookup (l : vlist) (a : Z) : option (loc * vma) :=
  list_find (λ p, contains p.2 a) l ≫= λ ip, Some ip.2.

(** The abstract address space: the protection of every address. *)
Definition flags_at (l : vlist) (a : Z) : option Z := v_flags ∘ snd <$> vlookup l a.

(** ** Ordered lists of mappings *)

Lemma vsorted_app l1 l2 :
  vsorted (l1 ++ l2) ↔
  vsorted l1 ∧ vsorted l2 ∧ ∀ p q, p ∈ l1 → q ∈ l2 → vbefore p.2 q.2.
Proof.
  unfold vsorted. rewrite fmap_app. induction l1 as [|[i v] l1 IH]; simpl.
  - split; [intros H|tauto]. split_and!; [constructor|done|set_solver].
  - split.
    + intros H. apply StronglySorted_inv in H as [H F]. apply IH in H as (H1 & H2 & H3).
      rewrite Forall_app in F. destruct F as [F1 F2]. split_and!; [by constructor|done|].
      intros p q [->|Hp]%elem_of_cons Hq; simpl; [|eauto].
      rewrite Forall_fmap, Forall_forall in F2. by apply F2.
    + intros (H1 & H2 & H3). apply StronglySorted_inv in H1 as [H1 F1].
      constructor.
      * apply IH. split_and!; [done|done|]. intros p q Hp. apply H3. set_solver.
      * apply Forall_app. split; [done|]. rewrite Forall_fmap, Forall_forall.
        intros q Hq. apply (H3 (i, v) q); set_solver.
Qed.

Lemma vsorted_cons i v l :
  vsorted ((i, v) :: l) ↔ vsorted l ∧ ∀ q, q ∈ l → vbefore v q.2.
Proof.
  rewrite (vsorted_app [(i, v)] l). split.
  - intros (_ & ? & H). split; [done|]. intros q. apply (H (i, v)). set_solver.
  - intros [? H]. split_and!; [by repeat constructor|done|].
    intros p q ->%list_elem_of_singleton. apply H.
Qed.

Lemma vsorted_mid l1 i v l2 :
  vsorted (l1 ++ (i, v) :: l2) →
  (∀ p, p ∈ l1 → vbefore p.2 v) ∧ (∀ p, p ∈ l2 → vbefore v p.2).
Proof.
  rewrite vsorted_app, vsorted_cons. intros (_ & (_ & H2) & H3). split; [|done].
  intros p Hp. apply (H3 p (i, v)); [done|]. by constructor.
Qed.

Lemma all_ok_elem (l : vlist) p : Forall vma_ok l.*2 → p ∈ l → vma_ok p.2.
Proof. rewrite Forall_fmap, Forall_forall. intros H. apply H. Qed.

Lemma vlookup_Some l a i v :
  vsorted l → Forall vma_ok l.*2 →
  vlookup l a = Some (i, v) ↔ (i, v) ∈ l ∧ contains v a.
Proof.
  induction l as [|[j w] l IH]; intros S O; unfold vlookup; simpl.
  - split; [done|]. set_solver.
  - apply vsorted_cons in S as [S B]. apply Forall_cons in O as [Ow O]. simpl in Ow.
    specialize (IH S O). unfold vlookup in IH.
    case_decide as Hc.
    + simpl. split.
      * intros ?; simplify_eq. set_solver.
      * intros [[?|Hi]%elem_of_cons Hv]; [by simplify_eq|].
        exfalso. specialize (B _ Hi). unfold vbefore, contains in *. simpl in *. lia.
    + destruct (list_find _ l) as [[n [i' v']]|]; simpl in *.
      * rewrite IH. set_solver.
      * rewrite elem_of_cons. naive_solver.
Qed.

Lemma vlookup_None l a :
  vlookup l a = None ↔ ∀ p, p ∈ l → ¬ contains p.2 a.
Proof.
  unfold vlookup. destruct (list_find _ l) as [[n p]|] eqn:E; simpl.
  - apply list_find_Some in E as (Hl & Hc & _). split; [done|].
    intros H. exfalso. eapply H; [|exact Hc]. by eapply list_elem_of_lookup_2.
  - apply list_find_None in E. rewrite Forall_forall in E. split; [|done]. intros _. apply E.
Qed.

(** ** The descents *)

Lemma read_slot_spec h k t : zrep h k t → read_slot (slot_of k) h = Ok (root_of t).
Proof.
  intros Z. destruct k as [|f k]; simpl.
  - by rewrite (z_root _ _ _ Z).
  - pose proof (zrep_frame _ _ _ _ Z) as E. by hrun.
Qed.

(** The VMAs below a node of the tree, left and right. *)
Lemma split_node (lm : vlist) c tl x tr :
  lm.*1 = inorder (Node c tl x tr) →
  ∃ l1 n l2, lm = l1 ++ (x, n) :: l2 ∧ l1.*1 = inorder tl ∧ l2.*1 = inorder tr.
Proof.
  simpl. intros E. apply fmap_app_inv in E as (l1 & l2' & E1 & E2 & ->).
  symmetry in E2. apply fmap_cons_inv in E2 as ([x' n] & l2 & E2 & E3 & ->).
  simpl in E2; subst. by exists l1, n, l2.
Qed.

Definition data_ok s (l : vlist) : Prop := Forall (λ p, as_vma s !! p.1 = Some p.2) l.

Lemma data_ok_elem s l1 x n l2 : data_ok s (l1 ++ (x, n) :: l2) → as_vma s !! x = Some n.
Proof. unfold data_ok. rewrite Forall_app, Forall_cons. naive_solver. Qed.

Lemma insert_loop_spec s v : vma_ok v → ∀ t fuel k lb lm la,
  zrep (as_rb s) k t → data_ok s (lb ++ lm ++ la) →
  lb.*1 = kbefore k → lm.*1 = inorder t → la.*1 = kafter k →
  vsorted (lb ++ lm ++ la) → Forall vma_ok (lb ++ lm ++ la).*2 →
  Forall (λ p, vbefore p.2 v) lb → Forall (λ p, vbefore v p.2) la →
  (length (inorder t) < fuel)%nat →
  (∃ k' l1 l2,
     vma_insert_loop fuel v (slot_of k) (kparent k) s = Ok (Some (slot_of k', kparent k')) ∧
     zrep (as_rb s) k' Leaf ∧ plug k' Leaf = plug k t ∧
     lb ++ lm ++ la = l1 ++ l2 ∧ l1.*1 = kbefore k' ∧ l2.*1 = kafter k' ∧
     Forall (λ p, vbefore p.2 v) l1 ∧ Forall (λ p, vbefore v p.2) l2) ∨
  (vma_insert_loop fuel v (slot_of k) (kparent k) s = Ok None ∧
   Exists (λ p, overlaps p.2 v) lm).
Proof.
  intros Ov. induction t as [|c tl IHl x tr IHr]; intros fuel k lb lm la Z D Eb Em Ea S O Fb Fa Hf;
    (destruct fuel as [|fuel]; [lia|]); cbn [vma_insert_loop];
    rewrite (read_slot_spec _ _ _ Z); cbn [mbind outcome_bind root_of].
  { left. exists k, lb, la. destruct lm; [|done]. by split_and!. }
  destruct (split_node lm _ _ _ _ Em) as (l1 & n & l2 & -> & E1 & E2).
  assert (lb ++ (l1 ++ (x, n) :: l2) ++ la = (lb ++ l1) ++ (x, n) :: (l2 ++ la)) as El
    by (by rewrite <- !app_assoc).
  rewrite El in *. pose proof (data_ok_elem _ _ _ _ _ D) as Ex.
  rewrite Ex. cbn [mbind outcome_bind deref]. simpl in Hf. rewrite length_app in Hf. simpl in Hf.
  destruct (vsorted_mid _ _ _ _ S) as [B1 B2].
  assert (vma_ok n) as On by (apply (all_ok_elem _ (x, n) O); set_solver).
  destruct On. destruct Ov.
  destruct (v_end v <=? v_start n) eqn:C1; [|destruct (v_start v >=? v_end n) eqn:C2].
  - specialize (IHl fuel (Frame SL c x tr :: k) lb l1 ((x, n) :: l2 ++ la)).
    replace ((lb ++ l1) ++ (x, n) :: l2 ++ la) with (lb ++ l1 ++ (x, n) :: l2 ++ la) in *
      by (by rewrite <- !app_assoc).
    destruct IHl as [(k' & m1 & m2 & ? & ? & Ep & ?)|[? Hov]]; try done.
    + by rewrite zrep_up.
    + simpl. by rewrite fmap_app, E2, Ea.
    + apply Forall_cons. split; [unfold vbefore; simpl; lia|].
      apply Forall_app. split; [|done]. apply Forall_forall. intros p Hp.
      assert (vbefore n p.2) as B by (apply B2; set_solver). unfold vbefore in *. lia.
    + lia.
    + left. exists k', m1, m2. by rewrite Ep.
    + right. split; [done|]. rewrite Exists_app. auto.
  - specialize (IHr fuel (Frame SR c x tl :: k) (lb ++ l1 ++ [(x, n)]) l2 la).
    replace ((lb ++ l1) ++ (x, n) :: l2 ++ la) with ((lb ++ l1 ++ [(x, n)]) ++ l2 ++ la) in *
      by (by rewrite <- !app_assoc).
    destruct IHr as [(k' & m1 & m2 & ? & ? & Ep & ?)|[? Hov]]; try done.
    + by rewrite zrep_up.
    + simpl. by rewrite !fmap_app, E1, Eb.
    + rewrite !Forall_app, Forall_singleton. split_and!; [done| |unfold vbefore; simpl; lia].
      apply Forall_forall. intros p Hp.
      assert (vbefore p.2 n) as B by (apply B1; set_solver). unfold vbefore in *. lia.
    + lia.
    + left. exists k', m1, m2. by rewrite Ep.
    + right. split; [done|]. rewrite Exists_app, Exists_cons. auto.
  - right. split; [done|]. rewrite Exists_app, Exists_cons. right; left.
    unfold overlaps; simpl. lia.
Qed.

(** ** The core operations on [wf] *)

Lemma before_no_overlap a b : vma_ok a → vma_ok b → vbefore a b → ¬ overlaps a b ∧ ¬ overlaps b a.
Proof. intros [] []. unfold vbefore, overlaps. lia. Qed.

(** [vma_insert] either inserts in order or reports an overlap. *)
Lemma vma_insert_spec s l x v :
  wf s l → as_vma s !! x = Some v → vma_ok v → x ∉ l.*1 →
  (∃ h l1 l2, vma_insert x s = Ok (0, with_rb h s) ∧ l = l1 ++ l2 ∧
     Forall (λ p, ¬ overlaps p.2 v) l ∧ wf (with_rb h s) (l1 ++ (x, v) :: l2)) ∨
  (vma_insert x s = Ok (- EEXIST, s) ∧ Exists (λ p, overlaps p.2 v) l).
Proof.
  intros [(t & Z & Ot & It) D O S] Ex Ov Hx. unfold vma_insert. rewrite Ex.
  cbn [mbind outcome_bind deref].
  destruct (insert_loop_spec s v Ov t (loop_fuel (as_rb s)) [] [] l [])
    as [(k & l1 & l2 & E & Zk & Ep & El & E1 & E2 & F1 & F2)|[E Hov]];
    rewrite ?app_nil_r; try done.
  { pose proof (zrep_size _ _ _ Z). unfold loop_fuel. simpl in *. lia. }
  - left. cbn [slot_of kparent] in E. rewrite E. cbn [mbind outcome_bind]. simpl in El. rewrite app_nil_r in El.
    destruct (insert_at_spec (as_rb s) k x Zk) as (h & t' & Eh & Z' & O' & I').
    { by rewrite Ep. }
    { intros Hk. apply Hx. rewrite <- It.  pose proof (inorder_plug k Leaf) as P. rewrite Ep in P. simpl in P. rewrite P. set_solver. }
    unfold rb_insert_at in Eh. apply bind_inv in Eh as (h1 & -> & E2').
    cbn [mbind outcome_bind]. rewrite E2'. cbn [mbind outcome_bind].
    rewrite El in O, S, D. pose proof S as S'. rewrite vsorted_app in S'. destruct S' as (S1 & S2 & S3).
    exists h, l1, l2. split_and!; [done|done| |].
    + rewrite El, Forall_forall in *. intros p Hp. pose proof (all_ok_elem _ p O Hp).
      apply elem_of_app in Hp as [Hp|Hp];
        [destruct (before_no_overlap p.2 v)|destruct (before_no_overlap v p.2)]; auto.
    + constructor.
      * exists t'. split_and!; [done|done|]. rewrite I', inorder_plug_split. simpl.
        by rewrite fmap_app, E1, <- E2.
      * apply Forall_app in D as [D1 D2]. apply Forall_app. split; [done|]. by constructor.
      * rewrite fmap_app in *. apply Forall_app in O as [O1 O2]. apply Forall_app.
        split; [done|]. by constructor.
      * apply vsorted_app. rewrite vsorted_cons. rewrite Forall_forall in F1, F2.
        split_and!; [done|done|done|]. intros p q Hp [->|Hq]%elem_of_cons; [by apply F1|].
        by apply S3.
  - right. cbn [slot_of kparent] in E. rewrite E. by cbn [mbind outcome_bind].
Qed.

Lemma vma_remove_spec s l1 x v l2 :
  wf s (l1 ++ (x, v) :: l2) →
  ∃ h, vma_remove x s = Ok (with_rb h s) ∧ wf (with_rb h s) (l1 ++ l2).
Proof.
  intros [(t & Z & Ot & It) D O S]. rewrite fmap_app in It. simpl in It.
  destruct (rb_erase_spec _ _ _ _ _ Z Ot It) as (h & t' & E & Z' & O' & I').
  unfold vma_remove. rewrite E. exists h. split; [done|]. constructor.
  - exists t'. by rewrite fmap_app.
  - rewrite Forall_app, Forall_cons in D. apply Forall_app. tauto.
  - rewrite fmap_app in *. simpl in O. rewrite Forall_app, Forall_cons in O. apply Forall_app. tauto.
  - rewrite vsorted_app, vsorted_cons in S. apply vsorted_app.
    destruct S as (S1 & [S2 _] & S3). split_and!; [done|done|].
    intros p q Hp Hq. apply S3; [done|]. by constructor.
Qed.

Lemma vma_first_spec s l : wf s l → vma_first s = Ok (fst <$> head l).
Proof.
  intros [(t & Z & _ & It) _ _ _]. unfold vma_first. rewrite (rb_first_spec _ _ Z), It.
  by destruct l.
Qed.

Lemma vma_next_spec s l1 x v l2 :
  wf s (l1 ++ (x, v) :: l2) → vma_next x s = Ok (fst <$> head l2).
Proof.
  intros [(t & Z & _ & It) _ _ _]. rewrite fmap_app in It. simpl in It.
  unfold vma_next. rewrite (rb_next_spec _ _ _ _ _ Z It). by destruct l2.
Qed.

Lemma find_loop_spec s a : ∀ t fuel k lb lm la,
  zrep (as_rb s) k t → data_ok s (lb ++ lm ++ la) → lm.*1 = inorder t →
  vsorted (lb ++ lm ++ la) → Forall vma_ok (lb ++ lm ++ la).*2 →
  (length (inorder t) < fuel)%nat →
  vma_find_loop fuel a (root_of t) s = Ok (fst <$> vlookup lm a).
Proof.
  induction t as [|c tl IHl x tr IHr]; intros fuel k lb lm la Z D Em S O Hf;
    (destruct fuel as [|fuel]; [lia|]); cbn [vma_find_loop root_of].
  { by destruct lm. }
  destruct (split_node lm _ _ _ _ Em) as (l1 & n & l2 & -> & E1 & E2).
  assert (lb ++ (l1 ++ (x, n) :: l2) ++ la = (lb ++ l1) ++ (x, n) :: (l2 ++ la)) as El
    by (by rewrite <- !app_assoc).
  rewrite El in *. rewrite (data_ok_elem _ _ _ _ _ D). cbn [mbind outcome_bind deref].
  pose proof (zrep_focus _ _ SL _ _ _ _ Z) as En. rewrite (get_node_eq _ _ _ En).
  cbn [mbind outcome_bind cell left right]. simpl in Hf. rewrite length_app in Hf. simpl in Hf.
  assert (vsorted (l1 ++ (x, n) :: l2) ∧ Forall vma_ok (l1 ++ (x, n) :: l2).*2) as [Sm Om].
  { rewrite <- El in S, O. apply vsorted_app in S as (_ & S & _).
    apply vsorted_app in S as (S & _ & _). split; [done|].
    rewrite fmap_app in O. apply Forall_app in O as [_ O].
    rewrite fmap_app in O. by apply Forall_app in O as [O _]. }
  destruct (vsorted_mid _ _ _ _ Sm) as [B1 B2].
  assert (vma_ok n) as [] by (apply (all_ok_elem _ (x, n) Om); set_solver).
  destruct (a <? v_start n) eqn:C1; [|destruct (a >=? v_end n) eqn:C2].
  - rewrite (IHl fuel (Frame SL c x tr :: k) lb l1 ((x, n) :: l2 ++ la)); try done.
    + f_equal. f_equal. apply option_eq. intros [i v].
      rewrite !vlookup_Some; [|try done..].
      * split; [set_solver|]. intros [Hi Hc]. split; [|done].
        apply elem_of_app in Hi as [?|[?|Hi]%elem_of_cons]; [done|..]; exfalso.
        -- simplify_eq. unfold contains in Hc. lia.
        -- specialize (B2 _ Hi). unfold contains, vbefore in *. simpl in *. lia.
      * rewrite vsorted_app in Sm. tauto.
      * rewrite fmap_app, Forall_app in Om. tauto.
    + by rewrite zrep_up.
    + by rewrite <- !app_assoc in *.
    + by rewrite <- !app_assoc in *.
    + by rewrite <- !app_assoc in *.
    + lia.
  - rewrite (IHr fuel (Frame SR c x tl :: k) (lb ++ l1 ++ [(x, n)]) l2 la); try done.
    + f_equal. f_equal. apply option_eq. intros [i v].
      rewrite !vlookup_Some; [|try done..].
      * split; [set_solver|]. intros [Hi Hc]. split; [|done].
        apply elem_of_app in Hi as [Hi|[?|Hi]%elem_of_cons]; [exfalso|exfalso|done].
        -- specialize (B1 _ Hi). unfold contains, vbefore in *. simpl in *. lia.
        -- simplify_eq. unfold contains in Hc. lia.
      * rewrite vsorted_app, vsorted_cons in Sm. tauto.
      * rewrite fmap_app, Forall_app in Om. simpl in Om. rewrite Forall_cons in Om. tauto.
    + by rewrite zrep_up.
    + by rewrite <- !app_assoc in *.
    + by rewrite <- !app_assoc in *.
    + by rewrite <- !app_assoc in *.
    + lia.
  - assert (vlookup (l1 ++ (x, n) :: l2) a = Some (x, n)) as ->; [|done].
    apply vlookup_Some; [done..|]. split; [set_solver|]. unfold contains. lia.
Qed.

Lemma vma_find_spec s l a : wf s l → vma_find a s = Ok (fst <$> vlookup l a).
Proof.
  intros [(t & Z & _ & It) D O S]. unfold vma_find. rewrite (z_root _ _ _ Z).
  apply (find_loop_spec s a t (loop_fuel (as_rb s)) [] [] l []); rewrite ?app_nil_r; try done.
  pose proof (zrep_size _ _ _ Z). unfold loop_fuel. simpl in *. lia.
Qed.

(** The place of [v] in an ordered list is unique. *)
Lemma place_unique v (l1 l2 m1 m2 : vlist) :
  vma_ok v → Forall vma_ok (l1 ++ l2).*2 → l1 ++ l2 = m1 ++ m2 →
  Forall (λ p, vbefore p.2 v) l1 → Forall (λ p, vbefore v p.2) l2 →
  Forall (λ p, vbefore p.2 v) m1 → Forall (λ p, vbefore v p.2) m2 → l1 = m1 ∧ l2 = m2.
Proof.
  intros Ov O. revert m1.
  assert (∀ p, vma_ok p.2 → vbefore (p : loc * vma).2 v → vbefore v p.2 → False) as X.
  { intros p [] ? ?. destruct Ov. unfold vbefore in *. lia. }
  induction l1 as [|p l1 IH]; intros m1 E F1 F2 G1 G2.
  - destruct m1 as [|p m1]; [done|]. simpl in E. subst l2. exfalso.
    apply Forall_cons in F2 as [? _]. apply Forall_cons in G1 as [? _].
    simpl in O. apply Forall_cons in O as [? _]. by eapply X.
  - apply Forall_cons in F1 as [? F1]. simpl in O. apply Forall_cons in O as [? O].
    destruct m1 as [|q m1]; simpl in E.
    + subst m2. apply Forall_cons in G2 as [? _]. exfalso. by eapply X.
    + injection E as <- E. apply Forall_cons in G1 as [_ G1].
      destruct (IH O m1 E F1 F2 G1 G2) as [-> ->]. done.
Qed.

Lemma vma_insert_at s l1 l2 x v :
  wf s (l1 ++ l2) → as_vma s !! x = Some v → vma_ok v → x ∉ (l1 ++ l2).*1 →
  Forall (λ p, vbefore p.2 v) l1 → Forall (λ p, vbefore v p.2) l2 →
  ∃ h, vma_insert x s = Ok (0, with_rb h s) ∧ wf (with_rb h s) (l1 ++ (x, v) :: l2).
Proof.
  intros W Ex Ov Hx F1 F2. pose proof (wf_ok _ _ W) as O.
  destruct (vma_insert_spec _ _ _ _ W Ex Ov Hx) as [(h & m1 & m2 & E & El & _ & W')|[_ H]].
  - exists h. split; [done|]. pose proof (vsorted_mid _ _ _ _ (wf_sorted _ _ W')) as [B1 B2].
    destruct (place_unique v l1 l2 m1 m2) as [-> ->]; try done; by apply Forall_forall.
  - exfalso. apply Exists_exists in H as (p & Hp & H).
    pose proof (all_ok_elem _ _ O Hp). rewrite Forall_forall in F1, F2.
    apply elem_of_app in Hp as [Hp|Hp];
      [destruct (before_no_overlap p.2 v)|destruct (before_no_overlap v p.2)]; auto.
Qed.

(** Changes to an object that is not in the tree. *)
Lemma wf_frame s s' l x :
  wf s l → x ∉ l.*1 → root (as_rb s') = root (as_rb s) →
  same_outside [x] (nodes (as_rb s)) (nodes (as_rb s')) →
  (∀ i, i ≠ x → as_vma s' !! i = as_vma s !! i) → wf s' l.
Proof.
  intros [(t & Z & Ot & It) D O S] Hx R N V. constructor; [|  |done|done].
  - exists t. split_and!; [|done|done]. destruct Z as [C F Nd Rt]. constructor; [done| |done|].
    + eapply rep_frame; [exact N| |done]. rewrite It. intros z Hz ->%list_elem_of_singleton. done.
    + by rewrite R.
  - apply Forall_forall. intros [i v] Hi. rewrite Forall_forall in D. simpl.
    rewrite V; [by apply (D (i, v))|]. intros ->. apply Hx. apply list_elem_of_fmap. by exists (x, v).
Qed.

Lemma wf_ids_in s l i : wf s l → i ∈ l.*1 → is_Some (as_vma s !! i).
Proof.
  intros W Hi. apply list_elem_of_fmap in Hi as ([j v] & -> & Hi).
  pose proof (wf_data _ _ W) as D. rewrite Forall_forall in D. rewrite (D _ Hi). eauto.
Qed.

(** The next allocation fails. *)
Definition out_of_memory s : Prop := head (as_kmem s) ≠ Some true.

Lemma kzalloc_spec s l :
  wf s l →
  (∃ s', kzalloc_vma s = (None, s') ∧ out_of_memory s ∧ wf s' l ∧ as_vma s' = as_vma s ∧
         as_pg s' = as_pg s ∧ as_mmap_base s' = as_mmap_base s) ∨
  (∃ u s', kzalloc_vma s = (Some u, s') ∧ as_kmem s = true :: as_kmem s' ∧ u ∉ l.*1 ∧ wf s' l ∧
           as_vma s !! u = None ∧ as_vma s' = <[u := Vma 0 0 0]> (as_vma s) ∧
           as_pg s' = as_pg s ∧ as_mmap_base s' = as_mmap_base s).
Proof.
  intros W. unfold kzalloc_vma, out_of_memory. destruct (as_kmem s) as [|[] ks].
  - left. exists s. by split_and!.
  - right. set (u := fresh _).
    assert (as_vma s !! u = None) as Hu.
    { apply not_elem_of_dom. apply is_fresh. }
    assert (u ∉ l.*1) as Nu.
    { intros H. apply (wf_ids_in _ _ _ W) in H as [? H]. congruence. }
    eexists u, _. split; [done|]. split_and!; try done.
    eapply (wf_frame s _ _ u); try done; simpl.
    + intros z Hz. rewrite lookup_insert_ne; set_solver.
    + intros i Hi. by rewrite lookup_insert_ne.
  - left. eexists. split; [done|]. split_and!; try done. by destruct W.
Qed.

Lemma kfree_spec s l x : wf s l → x ∉ l.*1 → wf (kfree_vma x s) l.
Proof.
  intros W Hx. eapply (wf_frame s _ _ x); try done; simpl.
  - intros z Hz. rewrite lookup_delete_ne; set_solver.
  - intros i Hi. by rewrite lookup_delete_ne.
Qed.

Lemma update_vma_spec s l x n f :
  wf s l → x ∉ l.*1 → as_vma s !! x = Some n →
  ∃ s', update_vma x f s = Ok s' ∧ wf s' l ∧ as_vma s' = <[x := f n]> (as_vma s) ∧
        as_pg s' = as_pg s ∧ as_mmap_base s' = as_mmap_base s ∧ as_kmem s' = as_kmem s.
Proof.
  intros W Hx E. unfold update_vma. rewrite E. cbn [mbind outcome_bind deref].
  eexists. split; [done|]. split_and!; try done.
  eapply (wf_frame s _ _ x); try done; simpl.
  intros i Hi. by rewrite lookup_insert_ne.
Qed.

Lemma wf_nodup s l : wf s l → NoDup l.*1.
Proof.
  intros [(t & Z & _ & <-) _ _ _]. pose proof (z_nodup _ _ _ Z) as N. done.
Qed.

Lemma wf_at s l1 x n l2 : wf s (l1 ++ (x, n) :: l2) → as_vma s !! x = Some n ∧ vma_ok n.
Proof.
  intros W. split; [eapply data_ok_elem, wf_data, W|].
  eapply (all_ok_elem _ (x, n)); [apply (wf_ok _ _ W)|]. apply elem_of_app. right. by constructor.
Qed.

Lemma wf_not_in s l1 x n l2 : wf s (l1 ++ (x, n) :: l2) → x ∉ (l1 ++ l2).*1.
Proof.
  intros W. pose proof (wf_nodup _ _ W) as N. rewrite fmap_app in *. simpl in N.
  rewrite NoDup_app, NoDup_cons in N. set_solver.
Qed.

(** ** Splitting *)

(** What splitting leaves unchanged. *)
Definition same_env s s' : Prop := as_pg s' = as_pg s ∧ as_mmap_base s' = as_mmap_base s.

Lemma same_env_refl s : same_env s s.
Proof. done. Qed.

Lemma same_env_trans s1 s2 s3 : same_env s1 s2 → same_env s2 s3 → same_env s1 s3.
Proof. unfold same_env. intros [] []. split; congruence. Qed.

Definition lower (b : Z) (n : vma) : vma := Vma (v_start n) b (v_flags n).
Definition upper (b : Z) (n : vma) : vma := Vma b (v_end n) (v_flags n).

Lemma split_ok b n :
  vma_ok n → v_start n < b < v_end n → page_aligned b → vma_ok (lower b n) ∧ vma_ok (upper b n).
Proof. intros [] Hb Ab. split; constructor; simpl; try done; lia. Qed.

Lemma before_sub_l a n b : vbefore a n → vbefore a (lower b n).
Proof. done. Qed.

Lemma vma_split_spec s l1 x n l2 b :
  wf s (l1 ++ (x, n) :: l2) →
  (¬ (v_start n < b < v_end n) ∨ ¬ page_aligned b →
   vma_split_at x b s = Ok (- EINVAL, None, s)) ∧
  (v_start n < b < v_end n → page_aligned b →
   (∃ s', vma_split_at x b s = Ok (- ENOMEM, None, s') ∧ out_of_memory s ∧ same_env s s' ∧
          wf s' (l1 ++ (x, n) :: l2)) ∨
   (∃ u s', vma_split_at x b s = Ok (0, Some u, s') ∧ as_kmem s = true :: as_kmem s' ∧ same_env s s' ∧
            wf s' (l1 ++ (x, lower b n) :: (u, upper b n) :: l2))).
Proof.
  intros W. destruct (wf_at _ _ _ _ _ W) as [Ex On]. unfold vma_split_at. rewrite Ex.
  cbn [mbind outcome_bind deref]. rewrite land_page_mask. split.
  { intros H. destruct (_ || _) eqn:C; [done|].
    apply orb_false_iff in C as [C1 C2]. destruct H as [H|H]; [lia|].
    unfold page_aligned in H. destruct (b mod 4096 =? 0) eqn:C3; [lia|done]. }
  intros Hb Ab. destruct (split_ok b n On Hb Ab) as [Ol Ou].
  destruct (_ || _) eqn:C; [exfalso; apply orb_true_iff in C; lia|]. clear C.
  unfold page_aligned in Ab. rewrite Ab. cbn [negb Z.eqb].
  destruct (kzalloc_spec _ _ W) as [(s1 & E & Km & W1 & V1 & P1 & M1)|(u & s1 & E & Km & Nu & W1 & Eu & V1 & P1 & M1)];
    rewrite E.
  { left. by exists s1. }
  right. assert (u ≠ x) as Nux by congruence.
  destruct (update_vma_spec s1 _ u (Vma 0 0 0) (λ _, upper b n) W1 Nu) as (s2 & E2 & W2 & V2 & P2 & M2 & K2).
  { rewrite V1. by rewrite lookup_insert_eq. }
  unfold upper in E2. rewrite E2. cbn [mbind outcome_bind].
  destruct (vma_remove_spec _ _ _ _ _ W2) as (h3 & E3 & W3). rewrite E3. cbn [mbind outcome_bind].
  pose proof (wf_not_in _ _ _ _ _ W2) as Nx.
  destruct (update_vma_spec (with_rb h3 s2) _ x n (set_end b) W3 Nx) as (s4 & E4 & W4 & V4 & P4 & M4 & K4).
  { simpl. rewrite V2, lookup_insert_ne, V1, lookup_insert_ne by done. done. }
  rewrite E4. cbn [mbind outcome_bind].
  destruct (vsorted_mid _ _ _ _ (wf_sorted _ _ W)) as [B1 B2].
  destruct (vma_insert_at s4 l1 l2 x (lower b n) W4) as (h5 & E5 & W5); [|done|done|..].
  { by rewrite V4, lookup_insert_eq. }
  { by apply Forall_forall. }
  { apply Forall_forall. intros p Hp. specialize (B2 _ Hp). unfold vbefore in *. simpl. lia. }
  rewrite E5. cbn [mbind outcome_bind negb Z.eqb].
  destruct (vma_insert_at (with_rb h5 s4) (l1 ++ [(x, lower b n)]) l2 u (upper b n))
    as (h6 & E6 & W6).
  { by rewrite <- app_assoc. }
  { simpl. rewrite V4, lookup_insert_ne by done. simpl. by rewrite V2, lookup_insert_eq. }
  { done. }
  { rewrite <- app_assoc. simpl. rewrite fmap_app in *. simpl in *. set_solver. }
  { apply Forall_app. split; [|apply Forall_singleton; unfold vbefore; simpl; lia].
    apply Forall_forall. intros p Hp. specialize (B1 _ Hp). unfold vbefore in *. simpl. lia. }
  { by apply Forall_forall. }
  rewrite E6. cbn [mbind outcome_bind negb Z.eqb].
  eexists u, _. split; [done|]. rewrite <- app_assoc in W6. simpl in W6. split; [|split; [|done]].
  { rewrite Km. simpl. rewrite K4. simpl. by rewrite K2. }
  unfold same_env; simpl. rewrite P4, M4. simpl. by rewrite P2, M2.
Qed.

End VmaSpec.
