(* ===== verification/VmaRange.v ===== *)
(** * Range operations of vma.c: split at the ends, walk, remove, find a gap *)

From S2P Require Import Prelude Rbtree RbtreeRep RbtreeInsert RbtreeErase Vma VmaSpec.

Section VmaRange.
Context {pg : Type} `{!Paging pg}.
Implicit Types s : addr_space pg.

(** No mapping lies on both sides of [b]. *)
Definition no_straddle (b : Z) (l : vlist) : Prop :=
  Forall (λ p, v_end p.2 ≤ b ∨ b ≤ v_start p.2) l.

(** The same abstract address space. *)
Definition same_view (l l' : vlist) : Prop := ∀ a, flags_at l' a = flags_at l a.

Lemma flags_at_Some l a f :
  vsorted l → Forall vma_ok l.*2 →
  flags_at l a = Some f ↔ ∃ p, p ∈ l ∧ contains p.2 a ∧ v_flags p.2 = f.
Proof.
  intros S O. unfold flags_at. rewrite fmap_Some. split.
  - intros ([i v] & E & ->). apply vlookup_Some in E as [? ?]; [|done..]. by exists (i, v).
  - intros ([i v] & Hi & Hc & <-). exists (i, v). split; [|done]. by apply vlookup_Some.
Qed.

Lemma flags_at_None l a : flags_at l a = None ↔ ∀ p, p ∈ l → ¬ contains p.2 a.
Proof. unfold flags_at. by rewrite fmap_None, vlookup_None. Qed.

(** Two lists with the same pieces have the same view. *)
Lemma same_view_pieces l l' :
  vsorted l → Forall vma_ok l.*2 → vsorted l' → Forall vma_ok l'.*2 →
  (∀ a f, (∃ p, p ∈ l ∧ contains p.2 a ∧ v_flags p.2 = f) ↔
          (∃ p, p ∈ l' ∧ contains p.2 a ∧ v_flags p.2 = f)) → same_view l l'.
Proof.
  intros S O S' O' H a. apply option_eq. intros f. by rewrite !flags_at_Some, H.
Qed.

Lemma split_view l1 x n l2 u b s s' :
  wf s (l1 ++ (x, n) :: l2) →
  wf s' (l1 ++ (x, lower b n) :: (u, upper b n) :: l2) → v_start n < b < v_end n →
  same_view (l1 ++ (x, n) :: l2) (l1 ++ (x, lower b n) :: (u, upper b n) :: l2).
Proof.
  intros [_ _ O S] [_ _ O' S'] Hb. apply same_view_pieces; [done..|]. intros a f.
  setoid_rewrite elem_of_app. setoid_rewrite elem_of_cons. setoid_rewrite elem_of_cons.
  unfold contains. split; intros (p & Hp & Hc & Hf).
  - destruct Hp as [Hp|[->|Hp]]; [by exists p; auto| |by exists p; auto]. simpl in *.
    destruct (decide (a < b)).
    + exists (x, lower b n). simpl. split; [auto|]. split; [lia|done].
    + exists (u, upper b n). simpl. split; [auto|]. split; [lia|done].
  - destruct Hp as [Hp|[->|[->|Hp]]]; [by exists p; auto| | |by exists p; auto];
      exists (x, n); simpl in *; (split; [auto|]); (split; [lia|done]).
Qed.

Lemma split_no_straddle c l1 x n l2 u b :
  v_start n < b < v_end n →
  no_straddle c (l1 ++ (x, n) :: l2) →
  no_straddle c (l1 ++ (x, lower b n) :: (u, upper b n) :: l2).
Proof.
  unfold no_straddle. rewrite !Forall_app, !Forall_cons. simpl. intros. naive_solver lia.
Qed.

(** ** The two splits *)

Definition split_post (b : Z) s (l : vlist) (r : outcome (Z * addr_space pg)) : Prop :=
  (∃ s', r = Ok (- ENOMEM, s') ∧ (¬ no_straddle b l ∧ out_of_memory s) ∧ same_env s s' ∧ wf s' l) ∨
  (∃ s' l', r = Ok (0, s') ∧ (as_kmem s' = as_kmem s ∨ ¬ no_straddle b l ∧ as_kmem s = true :: as_kmem s') ∧ same_env s s' ∧ wf s' l' ∧ same_view l l' ∧
     no_straddle b l' ∧ ∀ c, no_straddle c l → no_straddle c l').

(** The VMA found at the boundary, if it straddles, is split there. *)
Lemma split_found s l b i n :
  wf s l → (i, n) ∈ l → v_start n < b < v_end n → page_aligned b →
  split_post b s l ('(err, _, s) ← vma_split_at i b s; Ok (err, s)).
Proof.
  intros W Hi Hb Ab. assert (¬ no_straddle b l) as Hs.
  { unfold no_straddle. rewrite Forall_forall. intros F. specialize (F _ Hi). simpl in F. lia. }
  apply list_elem_of_split in Hi as (l1 & l2 & ->).
  destruct (vma_split_spec _ _ _ _ _ b W) as [_ H].
  destruct (H Hb Ab) as [(s' & E & Km & M & W')|(u & s' & E & Km & M & W')]; rewrite E;
    cbn [mbind outcome_bind].
  - left. by exists s'.
  - right. eexists s', _. split_and!; [done|by right|done|exact W'|by eapply split_view| |].
    + destruct (vsorted_mid _ _ _ _ (wf_sorted _ _ W)) as [B1 B2].
      unfold no_straddle. rewrite Forall_app, !Forall_cons, !Forall_forall. unfold vbefore in *.
      split_and!; simpl; [|lia|lia|]; intros p Hp;
        [specialize (B1 _ Hp)|specialize (B2 _ Hp)]; simpl in *; lia.
    + intros c. by apply split_no_straddle.
Qed.

Lemma no_straddle_found s l b a :
  wf s l → (a = b ∨ a = b - 1) →
  (∀ i n, vlookup l a = Some (i, n) → ¬ (v_start n < b < v_end n)) → no_straddle b l.
Proof.
  intros W Ha H. apply Forall_forall. intros [i n] Hi. simpl.
  destruct (decide (v_end n ≤ b)); [by left|]. destruct (decide (b ≤ v_start n)); [by right|].
  exfalso. apply (H i n); [|lia]. apply vlookup_Some; [apply W|apply W|].
  split; [done|]. unfold contains. lia.
Qed.

Lemma split_keep s l b :
  wf s l → no_straddle b l → split_post b s l (Ok (0, s)).
Proof. intros W N. right. exists s, l. split_and!; try done. by left. Qed.

Lemma split_left_spec s l b :
  wf s l → page_aligned b → split_post b s l (split_left b s).
Proof.
  intros W Ab. unfold split_left. rewrite (vma_find_spec _ _ _ W). cbn [mbind outcome_bind].
  destruct (vlookup l b) as [[i n]|] eqn:E; simpl.
  - pose proof E as E'. apply vlookup_Some in E' as [Hi Hc]; [|apply W|apply W].
    pose proof (wf_data _ _ W) as D. rewrite Forall_forall in D. pose proof (D _ Hi) as Di. simpl in Di. rewrite Di.
    cbn [mbind outcome_bind deref]. unfold contains in Hc. destruct (v_start n <? b) eqn:C.
    + eapply split_found; [done|done|lia|done].
    + apply split_keep; [done|]. eapply (no_straddle_found s l b b); [done|by left|].
      intros j m Ej. rewrite E in Ej. simplify_eq. lia.
  - apply split_keep; [done|]. eapply (no_straddle_found s l b b); [done|by left|].
    intros j m Ej. congruence.
Qed.

Lemma split_right_spec s l b :
  wf s l → page_aligned b → 0 < b < 2 ^ 64 → split_post b s l (split_right b s).
Proof.
  intros W Ab Hb. unfold split_right. rewrite sub64_small by lia.
  rewrite (vma_find_spec _ _ _ W). cbn [mbind outcome_bind].
  destruct (vlookup l (b - 1)) as [[i n]|] eqn:E; simpl.
  - pose proof E as E'. apply vlookup_Some in E' as [Hi Hc]; [|apply W|apply W].
    pose proof (wf_data _ _ W) as D. rewrite Forall_forall in D. pose proof (D _ Hi) as Di. simpl in Di. rewrite Di.
    cbn [mbind outcome_bind deref]. unfold contains in Hc. destruct (v_end n >? b) eqn:C.
    + eapply split_found; [done|done|lia|done].
    + apply split_keep; [done|]. eapply (no_straddle_found s l b (b - 1)); [done|by right|].
      intros j m Ej. rewrite E in Ej. simplify_eq. lia.
  - apply split_keep; [done|]. eapply (no_straddle_found s l b (b - 1)); [done|by right|].
    intros j m Ej. congruence.
Qed.

(** ** The walk *)

Lemma wf_fuel s l : wf s l → (length l < loop_fuel (as_rb s))%nat.
Proof.
  intros [(t & Z & _ & It) _ _ _]. pose proof (zrep_size _ _ _ Z) as B.
  rewrite It, length_fmap in B. unfold loop_fuel. simpl in B. lia.
Qed.

Lemma skip_below_spec s b : ∀ lA fuel l0 lR,
  wf s (l0 ++ lA ++ lR) → Forall (λ p, v_end p.2 ≤ b) lA → Forall (λ p, b < v_end p.2) lR →
  (length lA < fuel)%nat →
  skip_below fuel b (fst <$> head (lA ++ lR)) s = Ok (fst <$> head lR).
Proof.
  induction lA as [|[i n] lA IH]; intros fuel l0 lR W FA FR Hf;
    (destruct fuel as [|fuel]; [simpl in Hf; lia|]); simpl in Hf; cbn [skip_below app head].
  - destruct lR as [|[i n] lR]; simpl; [done|].
    destruct (wf_at _ _ _ _ _ W) as [-> _]. cbn [mbind outcome_bind deref].
    apply Forall_cons in FR as [? _]. simpl in *. rewrite (proj2 (Z.leb_gt _ _)) by lia. done.
  - apply Forall_cons in FA as [Hn FA]. simpl in Hn. cbn [fmap option_fmap option_map fst].
    destruct (wf_at _ _ _ _ _ W) as [-> _]. cbn [mbind outcome_bind deref].
    rewrite (proj2 (Z.leb_le _ _)) by lia.
    rewrite (vma_next_spec s l0 i n (lA ++ lR) W). cbn [mbind outcome_bind].
    apply (IH fuel (l0 ++ [(i, n)]) lR); [by rewrite <- app_assoc|done|done|lia].
Qed.

Lemma walk_from_spec s lA lR b :
  wf s (lA ++ lR) → Forall (λ p, v_end p.2 ≤ b) lA → Forall (λ p, b < v_end p.2) lR →
  walk_from b s = Ok (fst <$> head lR).
Proof.
  intros W FA FR. unfold walk_from. rewrite (vma_find_spec _ _ _ W). cbn [mbind outcome_bind].
  destruct (vlookup (lA ++ lR) b) as [[i n]|] eqn:E; cbn [fmap option_fmap option_map fst].
  - apply vlookup_Some in E as [Hi Hc]; [|apply W|apply W]. unfold contains in Hc.
    apply elem_of_app in Hi as [Hi|Hi].
    { rewrite Forall_forall in FA. specialize (FA _ Hi). simpl in FA. lia. }
    apply list_elem_of_split in Hi as (l1 & l2 & ->).
    destruct l1 as [|[j m] l1]; [done|]. exfalso. apply Forall_cons in FR as [Hm _]. simpl in Hm.
    pose proof (wf_sorted _ _ W) as S. rewrite app_assoc in S.
    destruct (vsorted_mid _ _ _ _ S) as [B _]. specialize (B (j, m)). unfold vbefore in B.
    simpl in B. enough (v_end m ≤ v_start n) by lia. apply B. set_solver.
  - rewrite (vma_first_spec _ _ W). cbn [mbind outcome_bind].
    apply (skip_below_spec s b lA _ [] lR); [done|done|done|].
    pose proof (wf_fuel _ _ W) as B. rewrite length_app in B. lia.
Qed.

(** A list without straddling mappings falls into three parts. *)
Lemma partition_range s l a b :
  wf s l → a < b → no_straddle a l → no_straddle b l →
  ∃ lA lB lC, l = lA ++ lB ++ lC ∧ Forall (λ p, v_end p.2 ≤ a) lA ∧
    Forall (λ p, a ≤ v_start p.2 ∧ v_end p.2 ≤ b) lB ∧ Forall (λ p, b ≤ v_start p.2) lC.
Proof.
  intros [_ _ O S] Hab. revert O S. induction l as [|[i n] l IH]; intros O S Na Nb.
  { by exists [], [], []. }
  apply Forall_cons in Na as [Hna Na]. apply Forall_cons in Nb as [Hnb Nb].
  apply vsorted_cons in S as [S B]. simpl in O. apply Forall_cons in O as [[] O]. simpl in *.
  destruct (IH O S Na Nb) as (lA & lB & lC & -> & FA & FB & FC). unfold vbefore in B.
  destruct (decide (v_end n ≤ a)); [|destruct (decide (v_end n ≤ b))].
  - exists ((i, n) :: lA), lB, lC. split_and!; [done|by constructor|done|done].
  - destruct lA as [|[j m] lA].
    + exists [], ((i, n) :: lB), lC. split_and!; [done|done| |done]. constructor; [simpl; lia|done].
    + exfalso. apply Forall_cons in FA as [Hm _]. simpl in Hm.
      assert (v_end n ≤ v_start m) by (apply (B (j, m)); set_solver).
      rewrite fmap_app in O. simpl in O. apply Forall_cons in O as [[] _]. lia.
  - exists [], [], ((i, n) :: lA ++ lB ++ lC). split_and!; [done|done|done|].
    constructor; [simpl; lia|]. apply Forall_forall. intros p Hp. specialize (B _ Hp). lia.
Qed.

(** ** Removal *)

Context `{!PagingLaws pg}.

(** Page [a] lies inside one of the mappings. *)
Definition covered (l : vlist) (a : Z) : Prop := Exists (λ p, contains p.2 a) l.

#[export] Instance covered_dec l a : Decision (covered l a).
Proof. unfold covered. apply _. Defined.

Lemma covered_flags l a : covered l a ↔ is_Some (flags_at l a).
Proof.
  rewrite <- not_eq_None_Some, flags_at_None. unfold covered. rewrite Exists_exists.
  split.
  - intros (p & Hp & Hc) H. by apply (H p).
  - intros H. destruct (decide (covered l a)) as [Hc|Hc]; [by apply Exists_exists in Hc|].
    exfalso. apply H. intros p Hp Hc'. apply Hc. apply Exists_exists. eauto.
Qed.

Lemma aligned_pages n : vma_ok n →
  sub64 (v_end n) (v_start n) / PAGE_SIZE * 4096 = v_end n - v_start n ∧
  0 ≤ sub64 (v_end n) (v_start n) / PAGE_SIZE.
Proof.
  intros []. rewrite sub64_small by lia. unfold page_aligned, PAGE_SIZE in *.
  assert ((v_end n - v_start n) mod 4096 = 0) as E.
  { rewrite Zminus_mod, ok_end_al, ok_start_al. done. }
  split; [|apply Z.div_pos; lia]. pose proof (Z.div_mod (v_end n - v_start n) 4096 ltac:(lia)). lia.
Qed.

(** The page tables after the PTEs of [l] were torn down. *)
Definition unmapped (l : vlist) (g g' : pg) : Prop :=
  pg_inv g' ∧ refs_kept g g' ∧
  ∀ a, page_aligned a → pte_at g' a = if decide (covered l a) then None else pte_at g a.

Lemma remove_loop_spec lB : ∀ s fuel lA lC a b,
  wf s (lA ++ lB ++ lC) → pg_inv (as_pg s) → a < b →
  Forall (λ p, a ≤ v_start p.2 ∧ v_end p.2 ≤ b) lB → Forall (λ p, b ≤ v_start p.2) lC →
  (length lB < fuel)%nat →
  ∃ s', remove_loop fuel true a b (fst <$> head (lB ++ lC)) s = Ok s' ∧ wf s' (lA ++ lC) ∧
    as_mmap_base s' = as_mmap_base s ∧ unmapped lB (as_pg s) (as_pg s').
Proof.
  induction lB as [|[i n] lB IH]; intros s fuel lA lC a b W Hg Hab FB FC Hf;
    (destruct fuel as [|fuel]; [simpl in Hf; lia|]); simpl in Hf; cbn [remove_loop app head].
  - assert (unmapped [] (as_pg s) (as_pg s)) as U.
    { split_and!; [done|by split|]. intros x _. rewrite decide_False; [done|]. intros H. by apply Exists_nil in H. }
    exists s. split_and!; [|done|done|done].
    destruct lC as [|[j m] lC]; simpl; [done|].
    destruct (wf_at _ _ _ _ _ W) as [-> _]. cbn [mbind outcome_bind deref].
    apply Forall_cons in FC as [? _]. simpl in *. by rewrite (proj2 (Z.ltb_ge _ _)) by lia.
  - apply Forall_cons in FB as [Hn FB]. simpl in Hn. cbn [fmap option_fmap option_map fst].
    simpl in W. destruct (wf_at _ _ _ _ _ W) as [Ei On]. rewrite Ei. cbn [mbind outcome_bind deref].
    pose proof On as [].
    rewrite (proj2 (Z.ltb_lt _ _)) by lia. cbn [negb].
    rewrite (vma_next_spec _ _ _ _ _ W). cbn [mbind outcome_bind].
    rewrite (proj2 (Z.geb_le _ _)), (proj2 (Z.leb_le _ _)) by lia. cbn [andb].
    destruct (aligned_pages n On) as [En Pn].
    destruct (unmap_spec (as_pg s) (v_start n) _ Hg ok_start_al ok_start Pn ltac:(lia)) as (g & -> & Hg' & Zp & Hpte & Href).
    cbn [mbind outcome_bind].
    assert (wf (with_pg g s) (lA ++ (i, n) :: lB ++ lC)) as W1 by by destruct W.
    destruct (vma_remove_spec _ _ _ _ _ W1) as (h & -> & W2). cbn [mbind outcome_bind].
    pose proof (wf_not_in _ _ _ _ _ W1) as Ni.
    pose proof (kfree_spec _ _ i W2 Ni) as W3.
    destruct (IH (kfree_vma i (with_rb h (with_pg g s))) fuel lA lC a b)
      as (s' & E & W' & M' & U1 & [Uz U2] & U3); [exact W3|done|done|done|done|lia|].
    simpl in Uz, U2.
    exists s'. split_and!; [exact E|done|done|]. split_and!; [done| |].
    { split; [congruence|]. intros x e Ax He Hz. etransitivity; [apply (U2 x e Ax He); congruence|].
      apply (Href x e Ax); [|done]. pose proof He as He'. rewrite U3 in He' by done. by case_decide. }
    intros x Ax. rewrite U3 by done. simpl. rewrite Hpte, En by done.
    unfold covered, contains. rewrite <- ?Zplus_minus.
    destruct (decide (Exists _ lB)) as [H|H].
    + rewrite decide_True; [done|]. by apply Exists_cons_tl.
    + destruct (decide (v_start n ≤ x < v_start n + (v_end n - v_start n))) as [H2|H2].
      * rewrite decide_True; [done|]. apply Exists_cons_hd. simpl. lia.
      * rewrite decide_False; [done|]. rewrite Exists_cons. simpl. intros [?|?]; [lia|done].
Qed.

Lemma view_removed s s' lA lB lC a b :
  wf s (lA ++ lB ++ lC) → wf s' (lA ++ lC) → a < b →
  Forall (λ p, v_end p.2 ≤ a) lA → Forall (λ p, a ≤ v_start p.2 ∧ v_end p.2 ≤ b) lB →
  Forall (λ p, b ≤ v_start p.2) lC →
  ∀ x, flags_at (lA ++ lC) x =
       if decide (a ≤ x < b) then None else flags_at (lA ++ lB ++ lC) x.
Proof.
  intros [_ _ O S] [_ _ O' S'] Hab FA FB FC x. rewrite Forall_forall in FA, FB, FC.
  case_decide as Hx.
  - apply flags_at_None. intros p [Hp|Hp]%elem_of_app Hc; unfold contains in Hc;
      [specialize (FA _ Hp)|specialize (FC _ Hp)]; simpl in *; lia.
  - apply option_eq. intros f. rewrite !flags_at_Some by done.
    split; intros (p & Hp & Hc & Hf); exists p; (split; [|done]).
    + set_solver.
    + rewrite !elem_of_app in Hp. destruct Hp as [Hp|[Hp|Hp]]; [set_solver| |set_solver].
      specialize (FB _ Hp). unfold contains in Hc. simpl in FB. lia.
Qed.

(** The walk starts at the first mapping of the middle part. *)
Lemma range_tail s (lA lB lC : vlist) a b :
  wf s (lA ++ lB ++ lC) → a < b → Forall (λ p, a ≤ v_start p.2 ∧ v_end p.2 ≤ b) lB →
  Forall (λ p, b ≤ v_start p.2) lC → Forall (λ p, a < v_end p.2) (lB ++ lC).
Proof.
  intros W Hab FB FC. pose proof (wf_ok _ _ W) as O. rewrite !fmap_app, !Forall_app, !Forall_fmap in O.
  destruct O as (_ & OB & OC). rewrite Forall_forall in *.
  intros p [Hp|Hp]%elem_of_app; [specialize (FB _ Hp); destruct (OB _ Hp)
    |specialize (FC _ Hp); destruct (OC _ Hp)]; simpl in *; lia.
Qed.

(** The middle part covers the mapped addresses of the range. *)
Lemma covered_range (lA lB lC : vlist) a b x :
  Forall (λ p, v_end p.2 ≤ a) lA → Forall (λ p, a ≤ v_start p.2 ∧ v_end p.2 ≤ b) lB →
  Forall (λ p, b ≤ v_start p.2) lC →
  covered lB x ↔ a ≤ x < b ∧ is_Some (flags_at (lA ++ lB ++ lC) x).
Proof.
  intros FA FB FC. rewrite <- covered_flags. unfold covered. rewrite !Exists_app, !Exists_exists.
  rewrite Forall_forall in FA, FB, FC. split.
  - intros (p & Hp & Hc). split; [|eauto]. specialize (FB _ Hp). unfold contains in Hc. simpl in FB. lia.
  - intros [Hx [(p & Hp & Hc)|[Hp|(p & Hp & Hc)]]]; [|done|]; exfalso; unfold contains in Hc;
      [specialize (FA _ Hp)|specialize (FC _ Hp)]; simpl in *; lia.
Qed.

(** The effect of [vma_remove_range] on an address space. *)
Definition range_removed (a b : Z) s (l : vlist) s' (l' : vlist) : Prop :=
  wf s' l' ∧ as_mmap_base s' = as_mmap_base s ∧
  (∀ x, flags_at l' x = if decide (a ≤ x < b) then None else flags_at l x) ∧
  pg_inv (as_pg s') ∧ refs_kept (as_pg s) (as_pg s') ∧
  ∀ x, page_aligned x → pte_at (as_pg s') x =
    if decide (a ≤ x < b ∧ is_Some (flags_at l x)) then None else pte_at (as_pg s) x.

(** A mapping straddles an end of the range, and the VMA for the upper part of a split cannot be
    allocated: it is the first allocation, or the second when both ends need one. *)
Definition split_fails (a b : Z) (l : vlist) s : Prop :=
  (¬ no_straddle a l ∨ ¬ no_straddle b l) ∧ out_of_memory s ∨
  ¬ no_straddle a l ∧ ¬ no_straddle b l ∧ as_kmem s !! 1%nat ≠ Some true.

Lemma remove_range_spec s l a b :
  wf s l → pg_inv (as_pg s) → 0 ≤ a < b → b < 2 ^ 64 → page_aligned a → page_aligned b →
  (∃ s' l', vma_remove_range true a b s = Ok (- ENOMEM, s') ∧ split_fails a b l s ∧ same_env s s' ∧ wf s' l' ∧
     same_view l l') ∨
  (∃ s' l', vma_remove_range true a b s = Ok (0, s') ∧ range_removed a b s l s' l').
Proof.
  intros W Hg Hab Hb Aa Ab. unfold vma_remove_range.
  destruct (a >=? b) eqn:C; [lia|]. clear C.
  destruct (split_left_spec s l a W Aa) as [(s1 & -> & [Ns Km] & M1 & W1)|(s1 & l1 & -> & Km & M1 & W1 & V1 & N1 & K1)];
    cbn [mbind outcome_bind].
  { left. exists s1, l. split_and!; try done. left. split; [by left|done]. }
  cbn [Z.eqb negb].
  destruct (split_right_spec s1 l1 b W1 Ab) as [(s2 & -> & [Ns Km2] & M2 & W2)|(s2 & l2 & -> & Km2 & M2 & W2 & V2 & N2 & K2)];
    [lia|..]; cbn [mbind outcome_bind].
  { left. exists s2, l1. split_and!; [done| |by eapply same_env_trans|done|done]. unfold split_fails, out_of_memory in *.
    assert (¬ no_straddle b l) as Nb by auto. destruct Km as [E|[Na E]].
    - left. rewrite E in Km2. auto.
    - right. rewrite E. simpl. by destruct (as_kmem s1). }
  cbn [Z.eqb negb]. right.
  destruct (partition_range s2 l2 a b W2) as (lA & lB & lC & -> & FA & FB & FC); [lia|by apply K2|done|].
  rewrite (walk_from_spec s2 lA (lB ++ lC) a W2 FA).
  2:{ eapply range_tail; [done| |done|done]. lia. }
  cbn [mbind outcome_bind].
  destruct (same_env_trans _ _ _ M1 M2) as [Mg Mb].
  destruct (remove_loop_spec lB s2 (loop_fuel (as_rb s2)) lA lC a b W2)
    as (s3 & -> & W3 & M3 & U1 & U2 & U3); [by rewrite Mg|lia|done|done| |].
  { pose proof (wf_fuel _ _ W2) as B. rewrite !length_app in B. lia. }
  cbn [mbind outcome_bind]. exists s3, (lA ++ lC). split; [done|].
  assert (∀ x, flags_at (lA ++ lB ++ lC) x = flags_at l x) as EV by (intros x; by rewrite V2, V1).
  split_and!; [done|congruence| |done|by rewrite <- Mg|].
  - intros x. rewrite (view_removed s2 s3 lA lB lC a b) by (done || lia). by rewrite EV.
  - intros x Ax. rewrite U3, Mg by done. apply decide_ext. rewrite <- EV.
    by apply covered_range.
Qed.

(** ** The gap finder *)

(** [r] is the base of a free range of [size] bytes between the lowest usable
    address and [lim]. *)
Definition gap (l : vlist) (size lim r : Z) : Prop :=
  gap_floor ≤ r ∧ r + size ≤ lim ∧ ∀ a, r ≤ a < r + size → flags_at l a = None.

(** The walk's invariant: everything at or below [prev] was considered. *)
Record gap_inv (l : vlist) (size ceiling prev best : Z) : Prop := GapInv {
  gi_floor : gap_floor ≤ prev;
  gi_edge : prev = gap_floor ∨ covered l (prev - 1);
  gi_best : best = 0 ∨ gap l size ceiling best;
  gi_max : ∀ r, gap l size prev r → best ≠ 0 ∧ r ≤ best
}.

(** A gap that ends above [prev] starts at or above it. *)
Lemma gap_above l size prev r :
  0 < size → prev = gap_floor ∨ covered l (prev - 1) →
  gap_floor ≤ r → (∀ a, r ≤ a < r + size → flags_at l a = None) →
  prev < r + size → prev ≤ r.
Proof.
  intros Hs [->|C] Hr Hf Hp; [lia|]. destruct (decide (prev ≤ r)); [done|]. exfalso.
  apply covered_flags in C as [f C]. rewrite Hf in C by lia. done.
Qed.

(** Considering the gap between [prev] and [lim]. *)
Lemma gap_candidate_spec l size ceiling prev lim best cf :
  0 < size < 2 ^ 64 → 0 ≤ lim < 2 ^ 64 → lim ≤ ceiling →
  gap_inv l size ceiling prev best →
  (∀ a, prev ≤ a < lim → flags_at l a = None) →
  let best' := gap_candidate size prev lim best cf in
  (best' = 0 ∨ gap l size ceiling best') ∧
  (∀ r, gap l size lim r → best' ≠ 0 ∧ r ≤ best').
Proof.
  intros Hs Hl Hc [Gf Ge Gb Gm] Hfree best'. unfold gap_floor, PAGE_SIZE in *.
  assert (∀ r, gap l size lim r → r + size ≤ prev ∨ prev ≤ r) as Hcase.
  { intros r (R1 & R2 & R3). destruct (decide (r + size ≤ prev)); [by left|right].
    eapply (gap_above l size prev r); unfold gap_floor, PAGE_SIZE in *; try done; lia. }
  assert (∀ r, gap l size lim r → r + size ≤ prev → best ≠ 0 ∧ r ≤ best) as Hold.
  { intros r (R1 & R2 & R3) ?. by apply Gm. }
  subst best'. unfold gap_candidate, gap_floor, PAGE_SIZE in *.
  destruct (lim >? prev) eqn:C1; simpl.
  2:{ split; [done|]. intros r Hr. destruct (Hcase r Hr); [by apply Hold|].
      destruct Hr as (? & ? & _). lia. }
  rewrite sub64_small by lia. destruct (lim - prev >=? size) eqn:C2; simpl.
  2:{ split; [done|]. intros r Hr. destruct (Hcase r Hr); [by apply Hold|].
      destruct Hr as (? & ? & _). lia. }
  rewrite sub64_small by lia.
  replace (lim - size >=? prev) with true by lia.
  replace (negb cf || (lim - size >=? 4096)) with true by (destruct cf; simpl; lia). simpl.
  assert (gap l size ceiling (lim - size)) as Hcand.
  { unfold gap, gap_floor, PAGE_SIZE. split_and!; [lia|lia|]. intros a Ha. apply Hfree. lia. }
  destruct ((best =? 0) || (lim - size >? best)) eqn:C3.
  - split; [by right|]. intros r Hr. split; [lia|]. destruct Hr as (? & ? & _). lia.
  - apply orb_false_iff in C3 as [C3 C4]. split; [done|]. intros r Hr. split; [lia|].
    destruct Hr as (? & ? & _). lia.
Qed.

Lemma gap_loop_spec s size ceiling l2 : ∀ l1 fuel prev best,
  wf s (l1 ++ l2) → 0 < size < 2 ^ 64 → 0 ≤ ceiling < 2 ^ 64 →
  Forall (λ p, v_end p.2 ≤ prev) l1 → gap_inv (l1 ++ l2) size ceiling prev best →
  (length l2 < fuel)%nat →
  ∃ prev' best' m1 m2, gap_loop fuel size ceiling (fst <$> head l2) prev best s = Ok (prev', best') ∧
    l1 ++ l2 = m1 ++ m2 ∧ Forall (λ p, v_end p.2 ≤ prev') m1 ∧
    Forall (λ p, ceiling ≤ v_start p.2) m2 ∧ gap_inv (l1 ++ l2) size ceiling prev' best'.
Proof.
  induction l2 as [|[i n] l2 IH]; intros l1 fuel prev best W Hs Hc F1 G Hf;
    (destruct fuel as [|fuel]; [simpl in Hf; lia|]); simpl in Hf; cbn [gap_loop head].
  { exists prev, best, l1, []. by split_and!. }
  cbn [fmap option_fmap option_map fst]. destruct (wf_at _ _ _ _ _ W) as [-> On].
  cbn [mbind outcome_bind deref]. destruct (vsorted_mid _ _ _ _ (wf_sorted _ _ W)) as [B1 B2].
  unfold vbefore in *. pose proof On as [].
  destruct (v_start n >=? ceiling) eqn:C.
  { exists prev, best, l1, ((i, n) :: l2). split_and!; [done|done|done| |done].
    constructor; [simpl; lia|]. apply Forall_forall. intros p Hp. specialize (B2 _ Hp). lia. }
  rewrite (vma_next_spec _ _ _ _ _ W). cbn [mbind outcome_bind].
  assert (∀ a, prev ≤ a < v_start n → flags_at (l1 ++ (i, n) :: l2) a = None) as Hfree.
  { intros a Ha. apply flags_at_None. intros p Hp Hcn. unfold contains in Hcn.
    rewrite Forall_forall in F1. apply elem_of_app in Hp as [Hp|[->|Hp]%elem_of_cons].
    - specialize (F1 _ Hp). simpl in F1. lia.
    - simpl in *. lia.
    - specialize (B2 _ Hp). lia. }
  destruct (gap_candidate_spec (l1 ++ (i, n) :: l2) size ceiling prev (v_start n) best true)
    as [Q1 Q2]; [lia|lia|lia|done|done|].
  destruct (IH (l1 ++ [(i, n)]) fuel (v_end n)
    (gap_candidate size prev (v_start n) best true)) as (p' & b' & m1 & m2 & E & El & H);
    try done; rewrite <- ?app_assoc; try done.
  - apply Forall_app. split; [|by apply Forall_singleton].
    apply Forall_forall. intros p Hp. specialize (B1 _ Hp). lia.
  - simpl. constructor; [|right|done|].
    + unfold gap_floor, PAGE_SIZE. unfold page_aligned in *.
      pose proof (Z.div_mod (v_end n) 4096). lia.
    + apply Exists_app. right. apply Exists_cons_hd. unfold contains; simpl. lia.
    + intros r (R1 & R2 & R3). apply Q2. split_and!; [done| |done].
      destruct (decide (r + size ≤ v_start n)); [done|]. exfalso.
      assert (flags_at (l1 ++ (i, n) :: l2) (Z.max r (v_start n)) = None) as X by (apply R3; lia).
      rewrite flags_at_None in X. apply (X (i, n)); [by apply elem_of_app; right; constructor|]. unfold contains; simpl. lia.
  - lia.
  - exists p', b', m1, m2. rewrite <- !app_assoc in H. split_and!; [exact E|..]; try apply H.
    by rewrite <- El, <- app_assoc.
Qed.

(** The gap finder returns the highest free range below the ceiling, and 0
    exactly when there is none.  The first premise excludes one request, the
    empty tree with [size = 2^64 - 4096], where [floor + size] wraps. *)
Lemma find_gap_spec s l size ceiling :
  wf s l → l ≠ [] ∨ PAGE_SIZE + size < 2 ^ 64 →
  0 < size < 2 ^ 64 → page_aligned size → 0 ≤ ceiling < 2 ^ 64 →
  ∃ r, vma_find_gap_top_down size ceiling s = Ok r ∧
    (r = 0 ∧ (∀ x, ¬ gap l size ceiling x) ∨
     gap l size ceiling r ∧ ∀ x, gap l size ceiling x → x ≤ r).
Proof.
  intros W Hne Hs As Hc. unfold vma_find_gap_top_down. rewrite land_page_mask.
  unfold page_aligned in As. rewrite As. replace (size =? 0) with false by lia. cbn [orb negb Z.eqb].
  rewrite (vma_first_spec _ _ W). cbn [mbind outcome_bind].
  destruct l as [|[i n] l].
  - destruct Hne as [Hne|Hne]; [done|]. cbn [fmap option_fmap option_map head].
    rewrite add64_small by (unfold gap_floor, PAGE_SIZE in *; lia).
    unfold gap, gap_floor. destruct (ceiling >=? PAGE_SIZE + size) eqn:C.
    + rewrite sub64_small by (unfold PAGE_SIZE in *; lia).
      eexists. split; [done|]. right. split; [|intros x ?; lia]. split_and!; [lia|lia|done].
    + eexists. split; [done|]. left. split; [done|]. intros x ?. lia.
  - destruct (gap_loop_spec s size ceiling ((i, n) :: l) [] (loop_fuel (as_rb s)) gap_floor 0)
      as (p' & b' & m1 & m2 & E & El & F1 & F2 & G); try done.
    { constructor; [done|by left|by left|]. intros r (R1 & R2 & _). lia. }
    { apply (wf_fuel _ _ W). }
    cbn [head fmap option_fmap option_map fst] in *. rewrite E. cbn [mbind outcome_bind].
    eexists. split; [done|]. simpl in El, G. rewrite El in *.
    destruct (gap_candidate_spec (m1 ++ m2) size ceiling p' ceiling b' false) as [Q1 Q2];
      [lia|lia|lia|done| |].
    { intros a Ha. apply flags_at_None. rewrite Forall_forall in F1, F2.
      intros p [Hp|Hp]%elem_of_app Hcn; unfold contains in Hcn;
        [specialize (F1 _ Hp)|specialize (F2 _ Hp)]; simpl in *; lia. }
    destruct Q1 as [Q1|Q1]; [left|right].
    + split; [done|]. intros x Hx. by apply Q2 in Hx as [? _].
    + split; [done|]. intros x Hx. by apply Q2 in Hx as [_ ?].
Qed.

End VmaRange.
