(* ===== verification/Mmap.v ===== *)
(** * kernel/mm/mmap.c: the mmap, munmap and mprotect system calls

    The operations run on the address space of the current process;
    [None] stands for a kernel thread, where [current_user_space()] is NULL. *)

From S2P Require Import Prelude Rbtree RbtreeRep RbtreeInsert RbtreeErase Vma VmaSpec.
From S2P Require Import VmaRange.

(** [include/uapi/jnu/mman.h] *)
Definition PROT_READ : Z := 1.
Definition PROT_WRITE : Z := 2.
Definition PROT_EXEC : Z := 4.
Definition MAP_PRIVATE : Z := 0x02.
Definition MAP_FIXED : Z := 0x10.
Definition MAP_ANONYMOUS : Z := 0x20.
Definition MMAP_BASE : Z := 0x555500000000.

(** [include/jnu/mm/vmm.h] *)
Definition VMA_READ : Z := 1.
Definition VMA_WRITE : Z := 2.
Definition VMA_EXEC : Z := 4.
Definition VMA_USER : Z := 8.

Definition prot_to_vma (prot : Z) : Z :=
  let flags := VMA_USER in
  let flags := if has prot PROT_READ then Z.lor flags VMA_READ else flags in
  let flags := if has prot PROT_WRITE then Z.lor flags VMA_WRITE else flags in
  if has prot PROT_EXEC then Z.lor flags VMA_EXEC else flags.

Definition vma_flags_to_pte (vf : Z) : Z :=
  let pte := PTE_USER in
  let pte := if has vf VMA_WRITE then Z.lor pte PTE_WRITE else pte in
  if negb (has vf VMA_EXEC) then Z.lor pte PTE_NX else pte.

Definition page_align_up (v : Z) : Z := Z.ldiff (add64 v PAGE_MASK) PAGE_MASK.

Section Mmap.
Context {pg : Type} `{!Paging pg}.

Abbreviation space := (addr_space pg).

(** ** vmm_map_anonymous *)

(** The tail after an address was chosen: allocate, fill in and insert. *)
Definition map_chosen (chosen aligned_len vma_flags : Z) (s : space)
    : outcome (Z * option Z * space) :=
  let (p, s) := kzalloc_vma s in
  match p with
  | None => Ok (- ENOMEM, None, s)
  | Some v =>
      s ← update_vma v (λ _, Vma chosen (add64 chosen aligned_len) vma_flags) s;
      '(err, s) ← vma_insert v s;
      if negb (err =? 0) then Ok (err, None, kfree_vma v s) else Ok (0, Some chosen, s)
  end.

(** The result carries the error code and, when it was written, [*addr_out]. *)
Definition vmm_map_anonymous (addr length prot flags : Z) (s : space)
    : outcome (Z * option Z * space) :=
  let known_flags := Z.lor (Z.lor MAP_PRIVATE MAP_ANONYMOUS) MAP_FIXED in
  if length =? 0 then Ok (- EINVAL, None, s) else
  let aligned_len := page_align_up length in
  if aligned_len =? 0 then Ok (- EINVAL, None, s) else
  if negb (Z.ldiff flags known_flags =? 0) then Ok (- EINVAL, None, s) else
  if negb (has flags MAP_PRIVATE) || negb (has flags MAP_ANONYMOUS)
  then Ok (- EINVAL, None, s) else
  if has prot PROT_WRITE && has prot PROT_EXEC then Ok (- EINVAL, None, s) else
  let vma_flags := prot_to_vma prot in
  if has flags MAP_FIXED then
    if negb (Z.land addr PAGE_MASK =? 0) then Ok (- EINVAL, None, s) else
    if (addr <? PAGE_SIZE) || (addr >=? USER_TOP) then Ok (- EINVAL, None, s) else
    if (add64 addr aligned_len <? addr) || (add64 addr aligned_len >? USER_TOP)
    then Ok (- EINVAL, None, s) else
    '(err, s) ← vma_remove_range true addr (add64 addr aligned_len) s;
    if negb (err =? 0) then Ok (err, None, s)
    else map_chosen addr aligned_len vma_flags s
  else
    chosen ← vma_find_gap_top_down aligned_len (as_mmap_base s) s;
    if chosen =? 0 then Ok (- ENOMEM, None, s)
    else map_chosen chosen aligned_len vma_flags s.

(** ** The system calls *)

Definition sys_mmap (addr length prot flags fd offset : Z) (cur : option space)
    : outcome (Z * option space) :=
  if negb (fd =? -1) || negb (offset =? 0) then Ok (- EINVAL, cur) else
  match cur with
  | None => Ok (- EINVAL, cur)
  | Some s =>
      '(err, out, s) ← vmm_map_anonymous addr length (u32 prot) (u32 flags) s;
      if negb (err =? 0) then Ok (err, Some s) else
      result ← deref out; Ok (to_int64 result, Some s)
  end.

Definition sys_munmap (addr length : Z) (cur : option space) : outcome (Z * option space) :=
  if negb (Z.land addr PAGE_MASK =? 0) then Ok (- EINVAL, cur) else
  match cur with
  | None => Ok (- EINVAL, cur)
  | Some s =>
      let aligned_len := page_align_up length in
      if aligned_len =? 0 then Ok (- EINVAL, cur) else
      let start := addr in
      let end_ := add64 start aligned_len in
      if (end_ <? start) || (end_ >? USER_TOP) then Ok (- EINVAL, cur) else
      '(err, s) ← vma_remove_range true start end_ s; Ok (err, Some s)
  end.

(** The PTE of one page under new VMA flags: a frame shared copy-on-write does
    not become writable. *)
Definition protected_pte (new_vma_flags pte : Z) (g : pg) : Z :=
  let pa := Z.land pte PTE_ADDR_MASK in
  let new_pte := vma_flags_to_pte new_vma_flags in
  if has new_pte PTE_WRITE then
    if (pa =? mm_zero_page g) || (pmm_user_refcount g pa >? 1)
    then Z.ldiff new_pte PTE_WRITE else new_pte
  else new_pte.

(** [for (va = v->start; va < v->end; va += PAGE_SIZE)] *)
Fixpoint protect_pages (fuel : nat) (new_vma_flags va end_ : Z) (g : pg) : outcome (Z * pg) :=
  match fuel with
  | O => NoFuel
  | S fuel =>
      if negb (va <? end_) then Ok (0, g) else
      let '(err, pte) := paging_get_flags va g in
      if err =? - ENOENT then protect_pages fuel new_vma_flags (add64 va PAGE_SIZE) end_ g else
      if negb (err =? 0) then Ok (err, g) else
      '(err, g) ← paging_protect va 1 (protected_pte new_vma_flags pte g) g;
      if negb (err =? 0) then Ok (err, g)
      else protect_pages fuel new_vma_flags (add64 va PAGE_SIZE) end_ g
  end.

(** [while (v && v->start < end)] *)
Fixpoint protect_loop (fuel : nat) (new_vma_flags start end_ : Z) (p : ptr) (s : space)
    : outcome (Z * space) :=
  match fuel with
  | O => NoFuel
  | S fuel =>
      match p with
      | None => Ok (0, s)
      | Some v =>
          n ← deref (as_vma s !! v);
          if negb (v_start n <? end_) then Ok (0, s) else
          let old_vma_flags := v_flags n in
          next ← vma_next v s;
          if (v_start n >=? start) && (v_end n <=? end_) then
            s ← update_vma v (set_vflags new_vma_flags) s;
            '(err, g) ← protect_pages (Z.to_nat ((v_end n - v_start n) / PAGE_SIZE + 2))
                          new_vma_flags (v_start n) (v_end n) (as_pg s);
            let s := with_pg g s in
            if negb (err =? 0) then
              s ← update_vma v (set_vflags old_vma_flags) s; Ok (err, s)
            else protect_loop fuel new_vma_flags start end_ next s
          else protect_loop fuel new_vma_flags start end_ next s
      end
  end.

Definition sys_mprotect (addr length prot : Z) (cur : option space)
    : outcome (Z * option space) :=
  if has prot PROT_WRITE && has prot PROT_EXEC then Ok (- EINVAL, cur) else
  if negb (Z.land addr PAGE_MASK =? 0) then Ok (- EINVAL, cur) else
  match cur with
  | None => Ok (- EINVAL, cur)
  | Some s =>
      let aligned_len := page_align_up length in
      if aligned_len =? 0 then Ok (- EINVAL, cur) else
      let start := addr in
      let end_ := add64 start aligned_len in
      if (end_ <? start) || (end_ >? USER_TOP) then Ok (- EINVAL, cur) else
      '(err, s) ← split_left start s;
      if negb (err =? 0) then Ok (err, Some s) else
      '(err, s) ← split_right end_ s;
      if negb (err =? 0) then Ok (err, Some s) else
      let new_vma_flags := prot_to_vma (u32 prot) in
      p ← walk_from start s;
      '(err, s) ← protect_loop (loop_fuel (as_rb s)) new_vma_flags start end_ p s;
      Ok (err, Some s)
  end.

End Mmap.
