(* ===== verification/MmapSpec.v ===== *)
(** * What mmap, munmap and mprotect do to an address space

    [space_ok] is the invariant of an address space: the VMA tree is well
    formed, no page is mapped outside a VMA or with more rights than its VMA
    gives, and no VMA is writable and executable.  Every system call keeps it,
    and its effect is stated on the protection ([flags_at]) and the page-table
    entry ([pte_at]) of every address. *)

From S2P Require Import Prelude Rbtree RbtreeRep RbtreeInsert RbtreeErase Vma VmaSpec.
From S2P Require Import VmaRange Mmap.

Lemma page_align_up_spec v :
  in_u64 v →
  page_align_up v = 0 ∨
  0 < v ∧ v ≤ page_align_up v < v + 4096 ∧ page_align_up v < 2 ^ 64 ∧
  page_aligned (page_align_up v).
Proof.
  intros Hv. unfold page_align_up. rewrite ldiff_page_mask. unfold page_aligned, in_u64 in *.
  destruct (add64_cases v PAGE_MASK) as [[-> H]|[-> H]]; unfold in_u64, PAGE_MASK in *; try lia.
  - destruct (decide (v = 0)) as [->|]; [by left|right].
    pose proof (Z.mod_pos_bound (v + 4095) 4096). split_and!; try lia.
    rewrite Zminus_mod_idemp_r. by rewrite Z.sub_diag.
  - left. rewrite Z.mod_small by lia. lia.
Qed.

(** The permission bits of the flags built from a protection. *)
Definition writable (f : Z) : Prop := has f VMA_WRITE = true.
Definition executable (f : Z) : Prop := has f VMA_EXEC = true.

Lemma prot_to_vma_bits prot :
  has (prot_to_vma prot) VMA_READ = has prot PROT_READ ∧
  has (prot_to_vma prot) VMA_WRITE = has prot PROT_WRITE ∧
  has (prot_to_vma prot) VMA_EXEC = has prot PROT_EXEC ∧
  has (prot_to_vma prot) VMA_USER = true.
Proof.
  unfold prot_to_vma. by destruct (has prot PROT_READ), (has prot PROT_WRITE), (has prot PROT_EXEC).
Qed.

(** A PTE grants no more than its VMA: [W] needs a writable VMA, the absence
    of [NX] an executable one. *)
Definition pte_allowed (e f : Z) : Prop :=
  (has e PTE_WRITE = true → writable f) ∧ (has e PTE_NX = false → executable f).

Lemma has_u32 x k : 0 ≤ k < 32 → has (u32 x) (2 ^ k) = has x (2 ^ k).
Proof. intros Hk. rewrite !has_testbit by lia. unfold u32. by rewrite Z.mod_pow2_bits_low by lia. Qed.

(** The PTE [paging_protect] writes, bit by bit. *)
Lemma new_pte_bits e fl :
  let e' := Z.lor (Z.lor (Z.land e PTE_ADDR_MASK) PTE_PRESENT) fl in
  has e' PTE_WRITE = has fl PTE_WRITE ∧ has e' PTE_NX = has fl PTE_NX.
Proof.
  intros e'. subst e'. change PTE_WRITE with (2 ^ 1). change PTE_NX with (2 ^ 63).
  rewrite !has_testbit, !Z.lor_spec, !Z.land_spec by done.
  unfold PTE_ADDR_MASK, PTE_PRESENT. split.
  - change (Z.testbit 0x000FFFFFFFFFF000 1) with false. change (Z.testbit 1 1) with false.
    by rewrite andb_false_r.
  - change (Z.testbit 0x000FFFFFFFFFF000 63) with false. change (Z.testbit 1 63) with false.
    by rewrite andb_false_r.
Qed.

Lemma vma_flags_to_pte_bits vf :
  has (vma_flags_to_pte vf) PTE_WRITE = has vf VMA_WRITE ∧
  has (vma_flags_to_pte vf) PTE_NX = negb (has vf VMA_EXEC).
Proof. unfold vma_flags_to_pte. by destruct (has vf VMA_WRITE), (has vf VMA_EXEC). Qed.

Section MmapSpec.
Context {pg : Type} `{!Paging pg, !PagingLaws pg}.
Implicit Types s : addr_space pg.

(** A writable page is not shared: its frame is not the zero page and nobody
    else holds a reference to it. *)
Definition private (g : pg) (e : Z) : Prop :=
  has e PTE_WRITE = true → Z.land e PTE_ADDR_MASK ≠ mm_zero_page g ∧
    pmm_user_refcount g (Z.land e PTE_ADDR_MASK) ≤ 1.

Lemma private_kept g g' a e :
  refs_kept g g' → page_aligned a → pte_at g' a = Some e → private g e → private g' e.
Proof.
  intros [Ez Er] Aa He Hp Hw. destruct (Hp Hw) as [Hz H1]. rewrite Ez. split; [done|].
  specialize (Er a e Aa He Hz). lia.
Qed.

Record space_ok s (l : vlist) : Prop := SpaceOk {
  so_wf : wf s l;
  so_pg : pg_inv (as_pg s);
  so_base : page_aligned (as_mmap_base s) ∧ 0 ≤ as_mmap_base s ≤ MMAP_BASE;
  so_pte : ∀ a e, page_aligned a → pte_at (as_pg s) a = Some e →
    ∃ f, flags_at l a = Some f ∧ pte_allowed e f;
  so_cow : ∀ a e, page_aligned a → pte_at (as_pg s) a = Some e → private (as_pg s) e;
  so_wx : ∀ a f, flags_at l a = Some f → ¬ (writable f ∧ executable f)
}.

(** [[a, b)] now has protection [f] and no PTEs; nothing else changed. *)
Definition remapped (a b : Z) (f : option Z) s l s' (l' : vlist) : Prop :=
  (∀ x, flags_at l' x = if decide (a ≤ x < b) then f else flags_at l x) ∧
  (∀ x, page_aligned x →
     pte_at (as_pg s') x = if decide (a ≤ x < b) then None else pte_at (as_pg s) x) ∧
  refs_kept (as_pg s) (as_pg s').

Definition unchanged s l s' (l' : vlist) : Prop :=
  same_view l l' ∧ (∀ x, page_aligned x → pte_at (as_pg s') x = pte_at (as_pg s) x) ∧
  refs_kept (as_pg s) (as_pg s').

Lemma refs_kept_refl (g : pg) : refs_kept g g.
Proof. by split. Qed.

Lemma unchanged_refl s l : unchanged s l s l.
Proof. split_and!; [done|done|apply refs_kept_refl]. Qed.

(** A remapped space keeps the invariant. *)
Lemma space_ok_remapped a b f s l s' l' :
  space_ok s l → wf s' l' → pg_inv (as_pg s') → as_mmap_base s' = as_mmap_base s →
  remapped a b f s l s' l' → (∀ f', f = Some f' → ¬ (writable f' ∧ executable f')) →
  space_ok s' l'.
Proof.
  intros [W G B P C X] W' G' B' (R1 & R2 & R3) Hf. constructor; [done|done|by rewrite B'| | |].
  - intros x e Ax. rewrite R1, R2 by done. case_decide; [done|]. by apply P.
  - intros x e Ax He. eapply private_kept; [exact R3|done|done|]. apply (C x e Ax).
    rewrite R2 in He by done. by case_decide.
  - intros x f'. rewrite R1. case_decide; [apply Hf|apply X].
Qed.

Lemma space_ok_unchanged s l s' l' :
  space_ok s l → wf s' l' → same_env s s' → same_view l l' →
  space_ok s' l' ∧ unchanged s l s' l'.
Proof.
  intros O W' [Eg Eb] V. split; [|split_and!; [done|by rewrite Eg|rewrite Eg; apply refs_kept_refl]].
  apply (space_ok_remapped 0 0 None s l); try done.
  - rewrite Eg. apply O.
  - split_and!; [..|rewrite Eg; apply refs_kept_refl]; intros x; rewrite decide_False by lia; [apply V|by rewrite Eg].
Qed.

Lemma removed_remapped a b s l s' l' :
  space_ok s l → range_removed a b s l s' l' →
  space_ok s' l' ∧ remapped a b None s l s' l'.
Proof.
  intros O (W & B & V & G & K & T).
  assert (remapped a b None s l s' l') as R.
  { split_and!; [done| |done]. intros x Ax. rewrite T by done.
    destruct (pte_at (as_pg s) x) as [e|] eqn:E; [|by repeat case_decide].
    destruct (so_pte _ _ O _ _ Ax E) as (f & F & _).
    apply decide_ext. rewrite F. naive_solver. }
  split; [|done]. by eapply space_ok_remapped.
Qed.

(** ** munmap *)

Lemma end_cases addr len :
  in_u64 addr → in_u64 len →
  ((add64 addr len <? addr) || (add64 addr len >? USER_TOP) = true ∧ USER_TOP < addr + len) ∨
  (add64 addr len <? addr) || (add64 addr len >? USER_TOP) = false ∧
  add64 addr len = addr + len ∧ addr + len ≤ USER_TOP.
Proof.
  intros Ha Hl. unfold in_u64 in *.
  destruct (add64_cases addr len) as [[-> ?]|[-> ?]]; [done|done|..];
    destruct (_ || _) eqn:C; [left|right|left|right]; lia.
Qed.

Lemma aligned_add a b : page_aligned a → page_aligned b → page_aligned (a + b).
Proof. unfold page_aligned. intros Ha Hb. by rewrite Zplus_mod, Ha, Hb. Qed.

(** The call failed with [err] and changed nothing a process can observe. *)
Definition rejected (err : Z) s l (res : outcome (Z * option (addr_space pg))) : Prop :=
  ∃ s' l', res = Ok (err, Some s') ∧ space_ok s' l' ∧ unchanged s l s' l'.

Lemma rejected_here err s l : space_ok s l → rejected err s l (Ok (err, Some s)).
Proof. intros O. exists s, l. split_and!; [done|done|apply unchanged_refl]. Qed.

Lemma rejected_env err s l s' l' :
  space_ok s l → wf s' l' → same_env s s' → same_view l l' →
  rejected err s l (Ok (err, Some s')).
Proof. intros O W M V. exists s', l'. split; [done|]. by apply space_ok_unchanged. Qed.

Lemma munmap_spec s l addr length :
  space_ok s l → in_u64 addr → in_u64 length →
  let len := page_align_up length in
  rejected (- EINVAL) s l (sys_munmap addr length (Some s)) ∧
    (¬ page_aligned addr ∨ len = 0 ∨ USER_TOP < addr + len) ∨
  rejected (- ENOMEM) s l (sys_munmap addr length (Some s)) ∧ split_fails addr (addr + len) l s ∨
  ∃ s' l', sys_munmap addr length (Some s) = Ok (0, Some s') ∧ space_ok s' l' ∧
    page_aligned addr ∧ 0 < len ∧ addr + len ≤ USER_TOP ∧
    remapped addr (addr + len) None s l s' l'.
Proof.
  intros O Ha Hl len. unfold sys_munmap. rewrite land_page_mask. unfold page_aligned. fold len.
  pose proof (rejected_here (- EINVAL) s l O) as Inval.
  destruct (addr mod 4096 =? 0) eqn:Aa; cbn [negb]; [|left; split; [done|lia]].
  destruct (len =? 0) eqn:Z0; [left; split; [done|lia]|].
  destruct (page_align_up_spec length Hl) as [?|(P0 & P1 & P2 & P3)]; [lia|].
  unfold in_u64 in *. destruct (end_cases addr len) as [[-> ?]|(-> & -> & Hend)];
    [unfold in_u64; lia..|left; split; [done|lia]|].
  assert (page_aligned addr) as Aa' by (unfold page_aligned; lia). right.
  destruct (remove_range_spec s l addr (addr + len))
    as [(s' & l' & -> & Sf & M & W & V)|(s' & l' & -> & R)];
    try (apply O || done || lia || by apply aligned_add); cbn [mbind outcome_bind].
  - left. split; [by eapply rejected_env|done].
  - right. exists s', l'. destruct (removed_remapped _ _ _ _ _ _ O R). split_and!; try done. lia.
Qed.

(** ** mmap *)

(** Inserting a mapping where nothing was mapped. *)
Lemma view_inserted s l1 x v l2 :
  wf s (l1 ++ (x, v) :: l2) →
  ∀ a, flags_at (l1 ++ (x, v) :: l2) a =
       if decide (contains v a) then Some (v_flags v) else flags_at (l1 ++ l2) a.
Proof.
  intros [_ _ O S] a. case_decide as Hc.
  - apply flags_at_Some; [done..|]. exists (x, v). split_and!; [|done|done]. apply elem_of_app.
    right. by constructor.
  - apply option_eq. intros f. rewrite flags_at_Some by done.
    rewrite flags_at_Some.
    + split; intros (p & Hp & Hq); exists p; (split; [|done]);
        rewrite elem_of_app, ?elem_of_cons in *; [|tauto].
      destruct Hp as [?|[->|?]]; [by left| |by right]. by destruct Hq.
    + apply vsorted_app in S as (S1 & S2 & S3). apply vsorted_app. apply vsorted_cons in S2 as [S2 _].
      split_and!; [done|done|]. intros p q Hp Hq. apply S3; [done|]. by constructor.
    + rewrite fmap_app in *. simpl in O. rewrite Forall_app, Forall_cons in O. apply Forall_app. tauto.
Qed.

(** A free range overlaps no mapping. *)
Lemma free_no_overlap (l : vlist) v :
  Forall vma_ok l.*2 → v_start v < v_end v → (∀ a, contains v a → flags_at l a = None) →
  ¬ Exists (λ p, overlaps p.2 v) l.
Proof.
  intros O Hv F (p & Hp & H1 & H2)%Exists_exists. pose proof (all_ok_elem _ _ O Hp) as [].
  assert (flags_at l (Z.max (v_start p.2) (v_start v)) = None) as N.
  { apply F. unfold contains. lia. }
  rewrite flags_at_None in N. apply (N p Hp). unfold contains. lia.
Qed.

Lemma map_chosen_spec s l r len f :
  wf s l → page_aligned r → page_aligned len → PAGE_SIZE ≤ r → 0 < len → r + len ≤ USER_TOP →
  (∀ a, r ≤ a < r + len → flags_at l a = None) →
  (∃ s', map_chosen r len f s = Ok (- ENOMEM, None, s') ∧ out_of_memory s ∧
         same_env s s' ∧ wf s' l) ∨
  (∃ s' l', map_chosen r len f s = Ok (0, Some r, s') ∧ same_env s s' ∧ wf s' l' ∧
     ∀ x, flags_at l' x = if decide (r ≤ x < r + len) then Some f else flags_at l x).
Proof.
  intros W Ar Al Hr Hl Ht Hfree. unfold map_chosen, PAGE_SIZE, out_of_memory in *.
  destruct (kzalloc_spec s l W) as [(s1 & E & Km & W1 & _ & Eg & Eb)|(v & s1 & E & _ & Nv & W1 & _ & Ev & Eg & Eb)].
  { rewrite E. left. by exists s1. }
  rewrite E. destruct (update_vma_spec s1 l v (Vma 0 0 0) (λ _, Vma r (add64 r len) f) W1 Nv)
    as (s2 & -> & W2 & Ev2 & Eg2 & Eb2 & _); [by rewrite Ev, lookup_insert_eq|].
  cbn [mbind outcome_bind]. rewrite add64_small in Ev2 by lia.
  assert (vma_ok (Vma r (r + len) f)) as Ov
    by (constructor; simpl; try lia; [done|by apply aligned_add]).
  destruct (vma_insert_spec s2 l v (Vma r (r + len) f) W2) as [(h & l1 & l2 & -> & -> & _ & W3)|[_ Hov]];
    [by rewrite Ev2, lookup_insert_eq|done|done| |].
  - cbn [mbind outcome_bind]. right. exists (with_rb h s2), (l1 ++ (v, Vma r (r + len) f) :: l2).
    split_and!; [done| |done|].
    + split; simpl; congruence.
    + intros x. rewrite (view_inserted _ _ _ _ _ W3). done.
  - exfalso. apply (free_no_overlap l (Vma r (r + len) f)); [apply W2|simpl; lia|exact Hfree|exact Hov].
Qed.

(** Protections are constant on a page. *)
Lemma flags_at_page s l a b :
  wf s l → a / 4096 = b / 4096 → flags_at l a = flags_at l b.
Proof.
  intros [_ _ O S] E. apply option_eq. intros f. rewrite !flags_at_Some by done.
  pose proof (Z.div_mod a 4096). pose proof (Z.div_mod b 4096).
  pose proof (Z.mod_pos_bound a 4096). pose proof (Z.mod_pos_bound b 4096).
  split; intros (p & Hp & Hc & Hf); exists p; (split_and!; [done| |done]);
    pose proof (all_ok_elem _ _ O Hp) as [_ _ _ A1 A2]; unfold contains, page_aligned in *;
    pose proof (Z.div_mod (v_start p.2) 4096); pose proof (Z.div_mod (v_end p.2) 4096); lia.
Qed.

(** The highest gap below an aligned ceiling is aligned: rounding its base up
    would give a higher one. *)
Lemma gap_aligned s l size ceiling r :
  wf s l → 0 < size → page_aligned size → page_aligned ceiling → gap l size ceiling r →
  (∀ x, gap l size ceiling x → x ≤ r) → page_aligned r.
Proof.
  intros W Hs As Ac (G1 & G2 & G3) M. unfold page_aligned in *.
  destruct (decide (r mod 4096 = 0)) as [|Hr]; [done|exfalso].
  assert (∃ q m, r = 4096 * q + m ∧ 0 < m < 4096) as (q & m & Er & Hm).
  { exists (r / 4096), (r mod 4096). pose proof (Z.div_mod r 4096). pose proof (Z.mod_pos_bound r 4096). lia. }
  apply Z.mod_divide in As as [k Ek], Ac as [c Ec]; [|lia..].
  enough (gap l size ceiling (4096 * (q + 1))) as G by (apply M in G; lia).
  split_and!; [lia|lia|]. intros a Ha. destruct (decide (a < r + size)); [apply G3; lia|].
  assert (∀ y, 4096 * (q + k) ≤ y < 4096 * (q + k) + 4096 → y / 4096 = q + k) as D.
  { intros y Hy. symmetry. apply Z.div_unique_pos with (y - 4096 * (q + k)); lia. }
  rewrite (flags_at_page s l a (r + size - 1) W); [apply G3; lia|]. rewrite !D; [done|lia..].
Qed.

(** Mapping a free range keeps the invariant. *)
Lemma map_free_spec s l r len f :
  space_ok s l → ¬ (writable f ∧ executable f) →
  page_aligned r → page_aligned len → PAGE_SIZE ≤ r → 0 < len → r + len ≤ USER_TOP →
  (∀ a, r ≤ a < r + len → flags_at l a = None) →
  (∃ s', map_chosen r len f s = Ok (- ENOMEM, None, s') ∧ out_of_memory s ∧
         space_ok s' l ∧ unchanged s l s' l) ∨
  (∃ s' l', map_chosen r len f s = Ok (0, Some r, s') ∧ space_ok s' l' ∧
     remapped r (r + len) (Some f) s l s' l').
Proof.
  intros O Hf Ar Al Hr Hl Ht Hfree.
  destruct (map_chosen_spec s l r len f (so_wf _ _ O) Ar Al Hr Hl Ht Hfree)
    as [(s' & -> & K & M & W)|(s' & l' & -> & M & W & V)].
  - left. exists s'. split; [done|]. split; [done|]. by apply space_ok_unchanged.
  - right. exists s', l'. split; [done|]. destruct M as [Eg Eb].
    assert (remapped r (r + len) (Some f) s l s' l') as R.
    { split_and!; [done| |rewrite Eg; apply refs_kept_refl]. intros x Ax. rewrite Eg. case_decide as Hx; [|done].
      destruct (pte_at (as_pg s) x) as [e|] eqn:E; [|done].
      destruct (so_pte _ _ O x e Ax E) as (f' & F & _). by rewrite Hfree in F. }
    split; [|done]. eapply space_ok_remapped; [exact O|done| |done|exact R|].
    + rewrite Eg. apply O.
    + by intros ? [= <-].
Qed.

(** The checks both variants of mmap share. *)
Definition mmap_args (length prot flags : Z) : bool :=
  negb (length =? 0) && negb (page_align_up length =? 0) && (Z.ldiff flags 0x32 =? 0) &&
  has flags MAP_PRIVATE && has flags MAP_ANONYMOUS && negb (has prot PROT_WRITE && has prot PROT_EXEC).

Lemma mmap_args_wx length prot flags :
  mmap_args length prot flags = true →
  ¬ (writable (prot_to_vma prot) ∧ executable (prot_to_vma prot)).
Proof.
  unfold mmap_args, writable, executable. destruct (prot_to_vma_bits prot) as (_ & -> & -> & _).
  destruct (has prot PROT_WRITE), (has prot PROT_EXEC); rewrite !andb_true_iff; naive_solver.
Qed.

(** The common prefix of [vmm_map_anonymous]. *)
Lemma map_anonymous_prefix addr length prot flags s :
  vmm_map_anonymous addr length prot flags s =
  if negb (mmap_args length prot flags) then Ok (- EINVAL, None, s) else
  let aligned_len := page_align_up length in
  let vma_flags := prot_to_vma prot in
  if has flags MAP_FIXED then
    if negb (Z.land addr PAGE_MASK =? 0) || ((addr <? PAGE_SIZE) || (addr >=? USER_TOP)) ||
       ((add64 addr aligned_len <? addr) || (add64 addr aligned_len >? USER_TOP))
    then Ok (- EINVAL, None, s) else
    '(err, s) ← vma_remove_range true addr (add64 addr aligned_len) s;
    if negb (err =? 0) then Ok (err, None, s)
    else map_chosen addr aligned_len vma_flags s
  else
    chosen ← vma_find_gap_top_down aligned_len (as_mmap_base s) s;
    if chosen =? 0 then Ok (- ENOMEM, None, s)
    else map_chosen chosen aligned_len vma_flags s.
Proof.
  unfold vmm_map_anonymous, mmap_args. change (Z.lor (Z.lor MAP_PRIVATE MAP_ANONYMOUS) MAP_FIXED) with 0x32.
  destruct (length =? 0); [done|]. destruct (page_align_up length =? 0); [done|].
  destruct (Z.ldiff flags 0x32 =? 0); [|done]. destruct (has flags MAP_PRIVATE); [|done].
  destruct (has flags MAP_ANONYMOUS); [|done].
  destruct (has prot PROT_WRITE && has prot PROT_EXEC); [done|]. cbn [negb andb orb].
  destruct (has flags MAP_FIXED); [|done]. destruct (Z.land addr PAGE_MASK =? 0); [|done].
  destruct (_ || (addr >=? USER_TOP)); [done|]. cbn [negb andb orb].
  by destruct (_ || _).
Qed.

Lemma mmap_args_len length prot flags :
  in_u64 length → mmap_args length prot flags = true →
  0 < page_align_up length < 2 ^ 64 ∧ length ≤ page_align_up length ∧
  page_aligned (page_align_up length).
Proof.
  intros Hl A. unfold mmap_args in A. rewrite !andb_true_iff, !negb_true_iff in A.
  destruct (page_align_up_spec length Hl) as [E|?]; [rewrite E in A; lia|naive_solver lia].
Qed.

(** mmap without MAP_FIXED: a free range, the highest one, or an error that
    changes nothing. *)
Lemma mmap_anywhere_spec s l addr length prot flags :
  space_ok s l → in_u64 length → has (u32 flags) MAP_FIXED = false →
  let len := page_align_up length in
  l ≠ [] ∨ PAGE_SIZE + len < 2 ^ 64 →
  let res := sys_mmap addr length prot flags (-1) 0 (Some s) in
  rejected (- EINVAL) s l res ∧ mmap_args length (u32 prot) (u32 flags) = false ∨
  rejected (- ENOMEM) s l res ∧ ((∀ x, ¬ gap l len (as_mmap_base s) x) ∨ out_of_memory s) ∨
  ∃ r s' l', res = Ok (r, Some s') ∧ space_ok s' l' ∧ page_aligned r ∧ length ≤ len ∧
    gap l len (as_mmap_base s) r ∧ (∀ x, gap l len (as_mmap_base s) x → x ≤ r) ∧
    remapped r (r + len) (Some (prot_to_vma (u32 prot))) s l s' l'.
Proof.
  intros O Hl Hfx len Hne res. subst res. unfold sys_mmap. cbn [Z.eqb negb orb].
  rewrite map_anonymous_prefix, Hfx.
  destruct (mmap_args _ _ _) eqn:A; cbn [negb].
  2:{ left. split; [|done]. by apply rejected_here. }
  right. pose proof (mmap_args_wx _ _ _ A) as WX. destruct (mmap_args_len _ _ _ Hl A) as (L1 & L2 & L3).
  fold len in L1, L2, L3 |- *. destruct (so_base _ _ O) as [Ab Hb]. unfold MMAP_BASE in Hb.
  destruct (find_gap_spec s l len (as_mmap_base s) (so_wf _ _ O) Hne) as (r & -> & [[-> N]|[G M]]);
    [done|done|lia| |]; cbn [mbind outcome_bind].
  { left. split; [by apply rejected_here|by left]. }
  pose proof (gap_aligned s l _ _ _ (so_wf _ _ O) (proj1 L1) L3 Ab G M) as Ar.
  destruct G as (G1 & G2 & G3). unfold gap_floor, PAGE_SIZE in G1.
  rewrite (proj2 (Z.eqb_neq r 0)) by lia.
  destruct (map_free_spec s l r len _ O WX Ar L3) as [(s' & -> & K & O' & U)|(s' & l' & -> & O' & R)];
    [unfold PAGE_SIZE; lia|lia|lia|done| |]; cbn [mbind outcome_bind].
  - left. split; [|by right]. by exists s', l.
  - right. cbn [Z.eqb negb deref mbind outcome_bind]. unfold to_int64.
    rewrite (proj2 (Z.ltb_lt _ _)) by lia. exists r, s', l'. split_and!; try done.
Qed.

Lemma remapped_trans a b f f' s1 l1 s2 l2 s3 l3 :
  remapped a b f s1 l1 s2 l2 → remapped a b f' s2 l2 s3 l3 → remapped a b f' s1 l1 s3 l3.
Proof.
  intros (R1 & R2 & [R3 R4]) (Q1 & Q2 & [Q3 Q4]). split_and!.
  - intros x. rewrite Q1, R1. by case_decide.
  - intros x Ax. rewrite Q2, R2 by done. by case_decide.
  - split; [congruence|]. intros x e Ax He Hz. etransitivity; [apply (Q4 x e Ax He); congruence|].
    apply (R4 x e Ax); [|done]. rewrite Q2 in He by done. by case_decide.
Qed.

(** mmap with MAP_FIXED replaces whatever the range held.  When the kernel
    runs out of memory after the old mappings were removed, the range is left
    unmapped. *)
Lemma mmap_fixed_spec s l addr length prot flags :
  space_ok s l → in_u64 addr → in_u64 length → has (u32 flags) MAP_FIXED = true →
  let len := page_align_up length in
  let res := sys_mmap addr length prot flags (-1) 0 (Some s) in
  rejected (- EINVAL) s l res ∧
    (mmap_args length (u32 prot) (u32 flags) = false ∨ ¬ page_aligned addr ∨
     addr < PAGE_SIZE ∨ USER_TOP < addr + len) ∨
  rejected (- ENOMEM) s l res ∨
  page_aligned addr ∧ PAGE_SIZE ≤ addr ∧ addr + len ≤ USER_TOP ∧
  ∃ r s' l', res = Ok (r, Some s') ∧ space_ok s' l' ∧
    (r = - ENOMEM ∧ remapped addr (addr + len) None s l s' l' ∨
     r = addr ∧ remapped addr (addr + len) (Some (prot_to_vma (u32 prot))) s l s' l').
Proof.
  intros O Ha Hl Hfx len res. subst res. unfold sys_mmap. cbn [Z.eqb negb orb].
  rewrite map_anonymous_prefix, Hfx.
  destruct (mmap_args _ _ _) eqn:A; cbn [negb].
  2:{ left. split; [by apply rejected_here|by left]. }
  pose proof (mmap_args_wx _ _ _ A) as WX. destruct (mmap_args_len _ _ _ Hl A) as (L1 & L2 & L3).
  fold len in L1, L2, L3 |- *. rewrite land_page_mask. unfold PAGE_SIZE, in_u64 in *.
  destruct (end_cases addr len) as [[-> ?]|(-> & -> & Hend)]; [unfold in_u64; lia..| |].
  { rewrite orb_true_r. left. split; [by apply rejected_here|lia]. }
  rewrite orb_false_r. destruct (_ || _) eqn:C.
  { left. split; [by apply rejected_here|]. unfold page_aligned. lia. }
  assert (page_aligned addr) as Aa by (unfold page_aligned; lia). right.
  destruct (remove_range_spec s l addr (addr + len))
    as [(s1 & l1 & -> & _ & M & W & V)|(s1 & l1 & -> & R)];
    try (apply O || done || lia || by apply aligned_add); cbn [mbind outcome_bind Z.eqb negb].
  { left. by eapply rejected_env. }
  right. destruct (removed_remapped _ _ _ _ _ _ O R) as [O1 R1].
  split; [done|]. split; [lia|]. split; [lia|].
  destruct (map_free_spec s1 l1 addr len _ O1 WX Aa L3) as [(s' & -> & K & O' & U)|(s' & l' & -> & O' & R')];
    [unfold PAGE_SIZE; lia|lia|lia| | |]; cbn [mbind outcome_bind Z.eqb negb deref].
  - intros x Hx. destruct R1 as [-> _]. by rewrite decide_True.
  - exists (- ENOMEM), s', l1. split_and!; [done|done|]. left. split; [done|].
    destruct U as (U1 & U2 & U3). eapply (remapped_trans _ _ None None); [exact R1|]. split_and!; [| |exact U3].
    + intros x. case_decide as Hx; [|done]. destruct R1 as [-> _]. by rewrite decide_True.
    + intros x Ax. rewrite U2 by done. case_decide as Hx; [|done]. destruct R1 as (_ & R1 & _).
      rewrite R1 by done. by rewrite decide_True.
  - exists addr, s', l'. unfold to_int64. rewrite (proj2 (Z.ltb_lt _ _)) by lia.
    split_and!; [done|done|]. right. split; [done|]. by eapply remapped_trans.
Qed.

(** ** mprotect *)

(** The PTE of a present page after mprotect. *)
Definition reprotect (nf : Z) (g : pg) (e : Z) : Z :=
  Z.lor (Z.lor (Z.land e PTE_ADDR_MASK) PTE_PRESENT) (protected_pte nf e g).

(** Writable exactly when the VMA is and the frame is not shared. *)
Lemma reprotect_bits nf g e :
  let pa := Z.land e PTE_ADDR_MASK in
  has (reprotect nf g e) PTE_WRITE =
    has nf VMA_WRITE && negb ((pa =? mm_zero_page g) || (pmm_user_refcount g pa >? 1)) ∧
  has (reprotect nf g e) PTE_NX = negb (has nf VMA_EXEC).
Proof.
  intros pa. unfold reprotect. destruct (new_pte_bits e (protected_pte nf e g)) as [-> ->].
  unfold protected_pte. destruct (vma_flags_to_pte_bits nf) as [Ew En]. rewrite Ew. fold pa.
  destruct (has nf VMA_WRITE) eqn:Hw; [|by rewrite Ew].
  destruct (_ || _); [|by rewrite Ew]. rewrite <- En. revert Ew.
  change PTE_WRITE with (2 ^ 1). change PTE_NX with (2 ^ 63).
  rewrite !has_testbit, !Z.ldiff_spec by done. intros ->. split; [done|].
  change (Z.testbit (2 ^ 1) 63) with false. apply andb_true_r.
Qed.

Lemma reprotect_allowed nf g e : pte_allowed (reprotect nf g e) nf.
Proof.
  destruct (reprotect_bits nf g e) as [Ew En]. unfold pte_allowed, writable, executable.
  rewrite Ew, En, andb_true_iff, negb_false_iff. tauto.
Qed.

Lemma reprotect_frame nf g e : Z.land (reprotect nf g e) PTE_ADDR_MASK = Z.land e PTE_ADDR_MASK.
Proof.
  unfold reprotect. rewrite !Z.land_lor_distr_l, <- Z.land_assoc, Z.land_diag.
  unfold protected_pte, vma_flags_to_pte.
  destruct (has nf VMA_WRITE), (has nf VMA_EXEC); cbn [negb]; repeat case_match; apply Z.lor_0_r ||
    (rewrite Z.lor_0_r; apply Z.lor_0_r).
Qed.

(** mprotect makes no shared page writable. *)
Lemma reprotect_private nf g e : private g (reprotect nf g e).
Proof.
  unfold private. destruct (reprotect_bits nf g e) as [-> _]. rewrite reprotect_frame.
  intros [_ [H1 H2]%negb_true_iff%orb_false_iff]%andb_true_iff. lia.
Qed.

(** Page tables that agree up to PTE contents. *)
Definition same_frames (g g' : pg) : Prop :=
  mm_zero_page g' = mm_zero_page g ∧ ∀ pa, pmm_user_refcount g' pa = pmm_user_refcount g pa.

Lemma same_frames_trans g1 g2 g3 : same_frames g1 g2 → same_frames g2 g3 → same_frames g1 g3.
Proof. intros [E1 E2] [F1 F2]. split; [congruence|]. intros pa. by rewrite F2. Qed.

Lemma reprotect_frames nf g g' e : same_frames g g' → reprotect nf g' e = reprotect nf g e.
Proof. intros [E1 E2]. unfold reprotect, protected_pte. by rewrite E1, E2. Qed.

(** The flags [sys_mprotect] writes are those of a user page. *)
Lemma protected_pte_user nf e g :
  user_flags (protected_pte nf e g).
Proof.
  unfold protected_pte, vma_flags_to_pte.
  destruct (has nf VMA_WRITE), (has nf VMA_EXEC); cbn [negb]; destruct (has _ PTE_WRITE);
    try destruct (_ || _); done.
Qed.

Lemma protect_pages_spec nf end_ : ∀ fuel g va,
  pg_inv g → page_aligned va → page_aligned end_ → 0 ≤ va ≤ end_ → end_ ≤ USER_TOP →
  end_ - va < 4096 * Z.of_nat fuel →
  ∃ g', protect_pages fuel nf va end_ g = Ok (0, g') ∧ pg_inv g' ∧ same_frames g g' ∧
    ∀ a, page_aligned a → pte_at g' a =
      if decide (va ≤ a < end_) then reprotect nf g <$> pte_at g a else pte_at g a.
Proof.
  induction fuel as [|fuel IH]; intros g va Hg Av Ae Hv He Hf; [lia|]. cbn [protect_pages].
  destruct (va <? end_) eqn:C; cbn [negb].
  2:{ exists g. split_and!; [done|done|done|]. intros a _. by rewrite decide_False by lia. }
  assert (va + 4096 ≤ end_) as Hstep.
  { unfold page_aligned in *. apply Z.mod_divide in Av as [v ->], Ae as [e ->]; lia. }
  assert (page_aligned (va + 4096)) as Av' by (by apply aligned_add).
  rewrite get_flags_spec by (done || lia). unfold PAGE_SIZE. rewrite add64_small by lia.
  destruct (pte_at g va) as [e|] eqn:E; cbn [Z.eqb ENOENT Z.opp negb].
  - destruct (protect_spec g va (protected_pte nf e g) e) as (g1 & -> & Hg1 & Z1 & F1 & P1);
      [done|done|lia|apply protected_pte_user|done|].
    cbn [mbind outcome_bind Z.eqb negb].
    destruct (IH g1 (va + 4096)) as (g2 & -> & Hg2 & F2 & P2); [done|done|done|lia|lia|lia|].
    assert (same_frames g g1) as Fr by done.
    exists g2. split_and!; [done|done|by eapply same_frames_trans|].
    intros a Aa. rewrite P2, P1 by done.
    destruct (decide (a = va)) as [->|].
    + rewrite decide_False by lia. rewrite decide_True by lia. by rewrite E.
    + assert (va + 4096 ≤ a < end_ ↔ va ≤ a < end_) as Hr.
      { unfold page_aligned in *. apply Z.mod_divide in Av as [v ->], Aa as [x ->]; lia. }
      rewrite (decide_ext _ _ _ _ Hr). case_decide; [|done].
      destruct (pte_at g a); [|done]. cbn [fmap option_fmap option_map]. by rewrite (reprotect_frames nf g g1).
  - destruct (IH g (va + 4096)) as (g2 & -> & Hg2 & F2 & P2); [done|done|done|lia|lia|lia|].
    exists g2. split_and!; [done|done|done|]. intros a Aa. rewrite P2 by done.
    destruct (decide (a = va)) as [->|].
    + rewrite decide_False by lia. rewrite decide_True by lia. by rewrite E.
    + apply decide_ext. unfold page_aligned in *. apply Z.mod_divide in Av as [v ->], Aa as [x ->]; lia.
Qed.

(** [v->flags = f] on a VMA of the tree. *)
Lemma set_flags_spec s l1 x n l2 f :
  wf s (l1 ++ (x, n) :: l2) →
  ∃ s', update_vma x (set_vflags f) s = Ok s' ∧ wf s' (l1 ++ (x, set_vflags f n) :: l2) ∧
        same_env s s' ∧ as_rb s' = as_rb s.
Proof.
  intros W. destruct (wf_at _ _ _ _ _ W) as [Ex On]. pose proof (wf_nodup _ _ W) as N.
  unfold update_vma. rewrite Ex. cbn [mbind outcome_bind deref].
  eexists. split; [done|]. split; [|done]. destruct W as [T D O S]. constructor.
  - simpl. by rewrite fmap_app in *.
  - rewrite Forall_forall in *. simpl. intros [i v] Hi.
    assert (i ≠ x → (i, v) ∈ l1 ++ (x, n) :: l2).
    { intros Hne. rewrite elem_of_app, elem_of_cons in *. destruct Hi as [?|[[= ? ?]|?]]; tauto. }
    destruct (decide (i = x)) as [->|]; [|rewrite lookup_insert_ne by done; by apply (D (i, v)); auto].
    rewrite lookup_insert_eq. rewrite fmap_app in N. simpl in N.
    apply NoDup_app in N as (_ & N1 & N2). apply NoDup_cons in N2 as [N2 _].
    rewrite elem_of_app, elem_of_cons in Hi. destruct Hi as [Hi|[[= ->]|Hi]]; [| done |].
    + exfalso. apply (N1 x); [by apply (list_elem_of_fmap_2 fst) in Hi|by constructor].
    + exfalso. apply N2. by apply (list_elem_of_fmap_2 fst) in Hi.
  - rewrite fmap_app in *. simpl in *. rewrite Forall_app, Forall_cons in *.
    destruct O as (? & ? & ?). split_and!; [done| |done]. destruct On. by constructor.
  - unfold vsorted in *. rewrite fmap_app in *. simpl in *.
    apply StronglySorted_app in S as (S1 & S2 & S3). apply StronglySorted_app.
    apply StronglySorted_inv in S3 as [S3 S4]. split_and!; [|done|by constructor].
    intros y z Hy [->|Hz]%elem_of_cons; [|apply S1; [done|by constructor]].
    apply (S1 y n); [done|]. by constructor.
Qed.

Definition reflag (f : Z) (l : vlist) : vlist := prod_map id (set_vflags f) <$> l.

Lemma protect_loop_spec nf lB : ∀ s fuel lA lC a b,
  wf s (lA ++ lB ++ lC) → pg_inv (as_pg s) → a < b →
  Forall (λ p, a ≤ v_start p.2 ∧ v_end p.2 ≤ b) lB → Forall (λ p, b ≤ v_start p.2) lC →
  (length lB < fuel)%nat →
  ∃ s', protect_loop fuel nf a b (fst <$> head (lB ++ lC)) s = Ok (0, s') ∧
    wf s' (lA ++ reflag nf lB ++ lC) ∧ as_mmap_base s' = as_mmap_base s ∧
    pg_inv (as_pg s') ∧ same_frames (as_pg s) (as_pg s') ∧
    ∀ x, page_aligned x → pte_at (as_pg s') x =
      if decide (covered lB x) then reprotect nf (as_pg s) <$> pte_at (as_pg s) x
      else pte_at (as_pg s) x.
Proof.
  induction lB as [|[i n] lB IH]; intros s fuel lA lC a b W Hg Hab FB FC Hf;
    (destruct fuel as [|fuel]; [simpl in Hf; lia|]); simpl in Hf; cbn [protect_loop app head].
  - exists s. split_and!; [|done|done|done|done|].
    + destruct lC as [|[j m] lC]; simpl; [done|].
      destruct (wf_at _ _ _ _ _ W) as [-> _]. cbn [mbind outcome_bind deref].
      apply Forall_cons in FC as [? _]. simpl in *. by rewrite (proj2 (Z.ltb_ge _ _)) by lia.
    + intros x _. rewrite decide_False; [done|]. intros H. by apply Exists_nil in H.
  - apply Forall_cons in FB as [Hn FB]. simpl in Hn. cbn [fmap option_fmap option_map fst].
    simpl in W. destruct (wf_at _ _ _ _ _ W) as [Ei On]. rewrite Ei. cbn [mbind outcome_bind deref].
    pose proof On as [].
    rewrite (proj2 (Z.ltb_lt _ _)) by lia. cbn [negb].
    rewrite (vma_next_spec _ _ _ _ _ W). cbn [mbind outcome_bind].
    rewrite (proj2 (Z.geb_le _ _)), (proj2 (Z.leb_le _ _)) by lia. cbn [andb].
    destruct (set_flags_spec _ _ _ _ _ nf W) as (s1 & -> & W1 & [Eg Eb] & _). cbn [mbind outcome_bind].
    rewrite Eg. destruct (protect_pages_spec nf (v_end n)
        (Z.to_nat ((v_end n - v_start n) / PAGE_SIZE + 2)) (as_pg s) (v_start n))
      as (g & -> & Hg1 & F1 & P1); [done|done|done|lia|lia| |].
    { unfold PAGE_SIZE. pose proof (Z.div_mod (v_end n - v_start n) 4096).
      pose proof (Z.mod_pos_bound (v_end n - v_start n) 4096). lia. }
    cbn [mbind outcome_bind Z.eqb negb].
    assert (wf (with_pg g s1) ((lA ++ [(i, set_vflags nf n)]) ++ lB ++ lC)) as W2
      by (rewrite <- app_assoc; by destruct W1).
    destruct (IH (with_pg g s1) fuel (lA ++ [(i, set_vflags nf n)]) lC a b W2)
      as (s' & -> & W' & B' & G' & F' & P'); [done|done|done|done|lia|].
    exists s'. rewrite <- app_assoc in W'. simpl in *.
    split_and!; [done|done|congruence|done|by eapply same_frames_trans|].
    intros x Ax. rewrite P', P1 by done.
    assert (covered ((i, n) :: lB) x ↔ v_start n ≤ x < v_end n ∨ covered lB x) as Hc
      by apply Exists_cons.
    rewrite (decide_ext _ _ _ _ Hc). destruct (decide (covered lB x)) as [H|H].
    + rewrite (decide_True (P := _ ∨ _)) by auto. rewrite decide_False; [|].
      * destruct (pte_at (as_pg s) x); [|done]. simpl. by rewrite (reprotect_frames nf (as_pg s) g).
      * apply Exists_exists in H as (p & Hp & Hq).
        destruct (vsorted_mid _ _ _ _ (wf_sorted _ _ W)) as [_ B2].
        assert (vbefore n p.2) as B by (apply B2, elem_of_app; by left).
        unfold vbefore, contains in *. lia.
    + apply decide_ext. tauto.
Qed.

Lemma reflag_ok f s s' lA lB lC a b :
  wf s (lA ++ lB ++ lC) → wf s' (lA ++ reflag f lB ++ lC) → a < b →
  Forall (λ p, v_end p.2 ≤ a) lA → Forall (λ p, a ≤ v_start p.2 ∧ v_end p.2 ≤ b) lB →
  Forall (λ p, b ≤ v_start p.2) lC →
  ∀ x, flags_at (lA ++ reflag f lB ++ lC) x =
    if decide (a ≤ x < b) then (λ _, f) <$> flags_at (lA ++ lB ++ lC) x
    else flags_at (lA ++ lB ++ lC) x.
Proof.
  intros [_ _ O S] [_ _ O' S'] Hab FA FB FC x. rewrite Forall_forall in FA, FB, FC.
  apply option_eq. intros f'. case_decide as Hx.
  - rewrite fmap_Some. setoid_rewrite flags_at_Some; [|done..]. split.
    + intros (p & Hp & Hc & <-). rewrite !elem_of_app in Hp. unfold contains in *.
      destruct Hp as [Hp|[Hp|Hp]]; [specialize (FA _ Hp); simpl in *; lia| |specialize (FC _ Hp); simpl in *; lia].
      apply list_elem_of_fmap in Hp as ([i v] & -> & Hp). simpl in *.
      exists (v_flags v). split; [|done]. exists (i, v). set_solver.
    + intros (f0 & ([i v] & Hp & Hc & <-) & ->). rewrite !elem_of_app in Hp. unfold contains in *.
      destruct Hp as [Hp|[Hp|Hp]]; [specialize (FA _ Hp); simpl in *; lia| |specialize (FC _ Hp); simpl in *; lia].
      exists (i, set_vflags f v). split_and!; [|apply Hc|apply Hc|done].
      rewrite !elem_of_app. right; left. apply list_elem_of_fmap. by exists (i, v).
  - rewrite !flags_at_Some by done. split; intros (p & Hp & Hc & Hf); exists p; (split; [|done]);
      rewrite !elem_of_app in *; (destruct Hp as [Hp|[Hp|Hp]]; [by left| |by right; right]); exfalso;
      unfold contains in Hc.
    + apply list_elem_of_fmap in Hp as ([i v] & -> & Hp). specialize (FB _ Hp). simpl in *. lia.
    + specialize (FB _ Hp). simpl in *. lia.
Qed.

(** The space after [[a, b)] got the VMA flags [nf]: mapped addresses of the
    range change their protection, present pages their permission bits. *)
Definition protected (a b nf : Z) s l s' (l' : vlist) : Prop :=
  (∀ x, flags_at l' x = if decide (a ≤ x < b) then (λ _, nf) <$> flags_at l x else flags_at l x) ∧
  (∀ x, page_aligned x → pte_at (as_pg s') x =
     if decide (a ≤ x < b) then reprotect nf (as_pg s) <$> pte_at (as_pg s) x
     else pte_at (as_pg s) x) ∧
  same_frames (as_pg s) (as_pg s').

Lemma private_frames g g' e : same_frames g g' → private g e → private g' e.
Proof. intros [Ez Er] H Hw. rewrite Ez, Er. by apply H. Qed.

Lemma space_ok_protected a b nf s l s' l' :
  space_ok s l → wf s' l' → pg_inv (as_pg s') → as_mmap_base s' = as_mmap_base s →
  protected a b nf s l s' l' → ¬ (writable nf ∧ executable nf) → space_ok s' l'.
Proof.
  intros [W G B P C X] W' G' B' (R1 & R2 & R3) Hf. constructor; [done|done|by rewrite B'| | |].
  - intros x e Ax. rewrite R1, R2 by done. case_decide; [|by apply P].
    intros (e0 & E & ->)%fmap_Some. destruct (P _ _ Ax E) as (f & -> & _).
    exists nf. split; [done|]. apply reprotect_allowed.
  - intros x e Ax. rewrite R2 by done. intros He. eapply private_frames; [exact R3|].
    case_decide; [|by eapply C]. apply fmap_Some in He as (e0 & E & ->). apply reprotect_private.
  - intros x f'. rewrite R1. case_decide; [|apply X]. by intros (? & _ & ->)%fmap_Some.
Qed.

(** The walk and the loop, once no mapping straddles an end of the range. *)
Lemma protect_range_spec s l nf a b :
  wf s l → pg_inv (as_pg s) → no_straddle a l → no_straddle b l → a < b →
  (∀ x e, page_aligned x → pte_at (as_pg s) x = Some e → is_Some (flags_at l x)) →
  ∃ p s' l', walk_from a s = Ok p ∧
    protect_loop (loop_fuel (as_rb s)) nf a b p s = Ok (0, s') ∧ wf s' l' ∧
    as_mmap_base s' = as_mmap_base s ∧ pg_inv (as_pg s') ∧ protected a b nf s l s' l'.
Proof.
  intros W Hg Na Nb Hab Hp.
  destruct (partition_range s l a b W) as (lA & lB & lC & -> & FA & FB & FC); [lia|done|done|].
  pose proof (walk_from_spec s lA (lB ++ lC) a W FA) as E.
  rewrite E by (eapply range_tail; done). clear E.
  destruct (protect_loop_spec nf lB s (loop_fuel (as_rb s)) lA lC a b W)
    as (s' & E & W' & B' & G' & F' & P'); [done|lia|done|done| |].
  { pose proof (wf_fuel _ _ W) as B. rewrite !length_app in B. lia. }
  eexists _, s', _. split_and!; [done|exact E|exact W'|done|done|]. split_and!; [..|done].
  - eapply reflag_ok; done.
  - intros x Ax. rewrite P' by done.
    rewrite (decide_ext _ _ _ _ (covered_range lA lB lC a b x FA FB FC)).
    destruct (pte_at (as_pg s) x) as [e|] eqn:E2; [|by repeat case_decide].
    apply decide_ext. specialize (Hp _ _ Ax E2). tauto.
Qed.

Lemma mprotect_spec s l addr length prot :
  space_ok s l → in_u64 addr → in_u64 length →
  let len := page_align_up length in
  let res := sys_mprotect addr length prot (Some s) in
  rejected (- EINVAL) s l res ∧
    (has prot PROT_WRITE = true ∧ has prot PROT_EXEC = true ∨
     ¬ page_aligned addr ∨ len = 0 ∨ USER_TOP < addr + len) ∨
  rejected (- ENOMEM) s l res ∨
  ∃ s' l', res = Ok (0, Some s') ∧ space_ok s' l' ∧
    protected addr (addr + len) (prot_to_vma (u32 prot)) s l s' l'.
Proof.
  intros O Ha Hl len res. subst res. unfold sys_mprotect. rewrite land_page_mask.
  unfold page_aligned. fold len. pose proof (rejected_here (- EINVAL) s l O) as Inval.
  destruct (has prot PROT_WRITE && has prot PROT_EXEC) eqn:WX.
  { left. split; [done|]. apply andb_true_iff in WX. by left. }
  destruct (addr mod 4096 =? 0) eqn:Aa; cbn [negb]; [|left; split; [done|lia]].
  destruct (len =? 0) eqn:Z0; [left; split; [done|lia]|].
  destruct (page_align_up_spec length Hl) as [?|(P0 & P1 & P2 & P3)]; [lia|].
  unfold in_u64 in *. destruct (end_cases addr len) as [[-> ?]|(-> & -> & Hend)];
    [unfold in_u64; lia..|left; split; [done|lia]|].
  fold len in P1, P2, P3.
  assert (page_aligned addr) as Aa' by (unfold page_aligned; lia). right.
  pose proof (aligned_add _ _ Aa' P3) as Ae.
  destruct (split_left_spec s l addr (so_wf _ _ O) Aa')
    as [(s1 & -> & _ & M1 & W1)|(s1 & l1 & -> & _ & M1 & W1 & V1 & N1 & _)]; cbn [mbind outcome_bind].
  { left. by eapply rejected_env. }
  cbn [Z.eqb negb].
  destruct (split_right_spec s1 l1 (addr + len) W1 Ae)
    as [(s2 & -> & _ & M2 & W2)|(s2 & l2 & -> & _ & M2 & W2 & V2 & N2 & K2)]; [lia|..]; cbn [mbind outcome_bind].
  { left. eapply rejected_env; [done|exact W2|by eapply same_env_trans|done]. }
  cbn [Z.eqb negb]. right.
  destruct (protect_range_spec s2 l2 (prot_to_vma (u32 prot)) addr (addr + len))
    as (p & s3 & l3 & -> & E & W3 & B3 & G3 & R); [done| |by apply K2|done|lia| |].
  { destruct (same_env_trans _ _ _ M1 M2) as [-> _]. apply O. }
  { destruct (same_env_trans _ _ _ M1 M2) as [-> _]. intros x e Ax E.
    rewrite V2, V1. destruct (so_pte _ _ O _ _ Ax E) as (f & -> & _). eauto. }
  cbn [mbind outcome_bind]. rewrite E. cbn [mbind outcome_bind].
  destruct (same_env_trans _ _ _ M1 M2) as [Mg Mb].
  assert (protected addr (addr + len) (prot_to_vma (u32 prot)) s l s3 l3) as R'.
  { destruct R as (R1 & R2 & R3). rewrite Mg in R2, R3. split_and!; [|done|done]. intros x. by rewrite R1, V2, V1. }
  exists s3, l3. split_and!; [done| |done].
  eapply space_ok_protected; [done|done|done|congruence|done|].
  unfold writable, executable. destruct (prot_to_vma_bits (u32 prot)) as (_ & -> & -> & _).
  pose proof (has_u32 prot 1 ltac:(lia)) as E1. pose proof (has_u32 prot 2 ltac:(lia)) as E2.
  change (2 ^ 1) with PROT_WRITE in E1. change (2 ^ 2) with PROT_EXEC in E2. rewrite E1, E2.
  apply andb_false_iff in WX. destruct WX as [-> | ->]; naive_solver.
Qed.

End MmapSpec.
