(* ===== verification/Csprng.v ===== *)
(** * kernel/lib/csprng.c: BLAKE2s and ChaCha20 with fast key erasure

    Words are integers below [2^32], bytes below [2^8], C arrays are lists.
    [entropy_collect], which reads the CPU's hardware generator, is a stream
    of byte strings held in the state. *)

From S2P Require Import Prelude.

(** [x[i]] and [x[i] = v] on an array. *)
Definition ix (x : list Z) (i : nat) : Z := nth i x 0.

Definition CHACHA_KEY_SIZE : nat := 32.
Definition CHACHA_BLOCK_SIZE : nat := 64.
Definition CSPRNG_RESEED_BYTES : Z := 2 ^ 20.

(** ** Little-endian helpers *)

Definition u8 (x : Z) : Z := x mod 2 ^ 8.

Definition load32_le (p : list Z) : Z :=
  Z.lor (Z.lor (Z.lor (ix p 0) (u32 (Z.shiftl (ix p 1) 8))) (u32 (Z.shiftl (ix p 2) 16)))
        (u32 (Z.shiftl (ix p 3) 24)).

Definition store32_le (v : Z) : list Z :=
  [u8 v; u8 (Z.shiftr v 8); u8 (Z.shiftr v 16); u8 (Z.shiftr v 24)].

Definition rotl32 (x n : Z) : Z := Z.lor (u32 (Z.shiftl x n)) (Z.shiftr x (32 - n)).

Definition add32 (a b : Z) : Z := u32 (a + b).

(** ** ChaCha20 *)

(** [CHACHA_QR] on four words. *)
Definition chacha_qr (a b c d : Z) : Z * Z * Z * Z :=
  let a := add32 a b in let d := Z.lxor d a in let d := rotl32 d 16 in
  let c := add32 c d in let b := Z.lxor b c in let b := rotl32 b 12 in
  let a := add32 a b in let d := Z.lxor d a in let d := rotl32 d 8 in
  let c := add32 c d in let b := Z.lxor b c in let b := rotl32 b 7 in
  (a, b, c, d).

(** [CHACHA_QR(x[i], x[j], x[k], x[l])] *)
Definition qr_at (i j k l : nat) (x : list Z) : list Z :=
  let '(a, b, c, d) := chacha_qr (ix x i) (ix x j) (ix x k) (ix x l) in
  <[l := d]> (<[k := c]> (<[j := b]> (<[i := a]> x))).

Definition double_round (x : list Z) : list Z :=
  let x := qr_at 0 4 8 12 x in
  let x := qr_at 1 5 9 13 x in
  let x := qr_at 2 6 10 14 x in
  let x := qr_at 3 7 11 15 x in
  let x := qr_at 0 5 10 15 x in
  let x := qr_at 1 6 11 12 x in
  let x := qr_at 2 7 8 13 x in
  qr_at 3 4 9 14 x.

Definition chacha20_core (inp : list Z) : list Z :=
  let x := Nat.iter 10 double_round inp in
  concat (imap (λ i xi, store32_le (add32 xi (ix inp i))) x).

(** [load32_le(p + 4 * i)] for [i < n] *)
Definition load_words (n : nat) (p : list Z) : list Z :=
  (λ i, load32_le (drop (4 * i) p)) <$> seq 0 n.

Definition chacha_consts : list Z := [0x61707865; 0x3320646e; 0x79622d32; 0x6b206574].

(** [st[12]++] *)
Definition bump (st : list Z) : list Z := <[12%nat := add32 (ix st 12) 1]> st.

Fixpoint keystream_loop (fuel : nat) (st : list Z) (len : nat) : outcome (list Z) :=
  match fuel with
  | O => NoFuel
  | S fuel =>
      if Nat.eqb len 0 then Ok [] else
      let n := if Nat.ltb len CHACHA_BLOCK_SIZE then len else CHACHA_BLOCK_SIZE in
      let block := chacha20_core st in
      rest ← keystream_loop fuel (bump st) (len - n);
      Ok (take n block ++ rest)
  end.

Definition chacha20_keystream (key : list Z) (nonce : Z) (len : nat) : outcome (list Z) :=
  let st := chacha_consts ++ load_words 8 key ++ [0; u32 nonce; u32 (Z.shiftr nonce 32); 0] in
  keystream_loop (S len) st len.

(** ** BLAKE2s *)

Definition BLAKE2S_OUT : nat := 32.
Definition BLAKE2S_BLOCK : nat := 64.

Definition blake2s_iv : list Z :=
  [0x6a09e667; 0xbb67ae85; 0x3c6ef372; 0xa54ff53a;
   0x510e527f; 0x9b05688c; 0x1f83d9ab; 0x5be0cd19].

Definition blake2s_sigma : list (list nat) :=
  ([[0; 1; 2; 3; 4; 5; 6; 7; 8; 9; 10; 11; 12; 13; 14; 15];
    [14; 10; 4; 8; 9; 15; 13; 6; 1; 12; 0; 2; 11; 7; 5; 3];
    [11; 8; 12; 0; 5; 2; 15; 13; 10; 14; 3; 6; 7; 1; 9; 4];
    [7; 9; 3; 1; 13; 12; 11; 14; 2; 6; 5; 10; 4; 0; 15; 8];
    [9; 0; 5; 7; 2; 4; 10; 15; 14; 1; 11; 12; 6; 8; 3; 13];
    [2; 12; 6; 10; 0; 11; 8; 3; 4; 13; 7; 5; 15; 14; 1; 9];
    [12; 5; 1; 15; 14; 13; 4; 10; 0; 7; 6; 3; 9; 2; 8; 11];
    [13; 11; 7; 14; 12; 1; 3; 9; 5; 0; 15; 4; 8; 6; 2; 10];
    [6; 15; 14; 9; 11; 3; 0; 8; 12; 2; 13; 7; 1; 4; 10; 5];
    [10; 2; 8; 4; 7; 6; 1; 5; 15; 11; 9; 14; 3; 12; 13; 0]])%nat.

Definition sigma (r i : nat) : nat := nth i (nth r blake2s_sigma []) 0%nat.

(** [BLAKE2S_G(r, i, v[a], v[b], v[c], v[d])] *)
Definition blake2s_g (m : list Z) (r i a b c d : nat) (v : list Z) : list Z :=
  let va := add32 (ix v a) (add32 (ix v b) (ix m (sigma r (2 * i)))) in
  let vd := rotl32 (Z.lxor (ix v d) va) 16 in
  let vc := add32 (ix v c) vd in
  let vb := rotl32 (Z.lxor (ix v b) vc) 20 in
  let va := add32 va (add32 vb (ix m (sigma r (2 * i + 1)))) in
  let vd := rotl32 (Z.lxor vd va) 24 in
  let vc := add32 vc vd in
  let vb := rotl32 (Z.lxor vb vc) 25 in
  <[d := vd]> (<[c := vc]> (<[b := vb]> (<[a := va]> v))).

Definition blake2s_round (m : list Z) (r : nat) (v : list Z) : list Z :=
  let v := blake2s_g m r 0 0 4 8 12 v in
  let v := blake2s_g m r 1 1 5 9 13 v in
  let v := blake2s_g m r 2 2 6 10 14 v in
  let v := blake2s_g m r 3 3 7 11 15 v in
  let v := blake2s_g m r 4 0 5 10 15 v in
  let v := blake2s_g m r 5 1 6 11 12 v in
  let v := blake2s_g m r 6 2 7 8 13 v in
  blake2s_g m r 7 3 4 9 14 v.

(** [~x] on 32 bits *)
Definition not32 (x : Z) : Z := Z.lxor x 0xffffffff.

Definition blake2s_compress (h block : list Z) (t : Z) (last : bool) : list Z :=
  let m := load_words 16 block in
  let v := h ++ blake2s_iv in
  let v := <[12%nat := Z.lxor (ix v 12) (u32 t)]> v in
  let v := <[13%nat := Z.lxor (ix v 13) (u32 (Z.shiftr t 32))]> v in
  let v := if last then <[14%nat := not32 (ix v 14)]> v else v in
  let v := fold_left (λ v r, blake2s_round m r v) (seq 0 10) v in
  imap (λ i hi, Z.lxor hi (Z.lxor (ix v i) (ix v (8 + i)))) h.

(** [while (inlen > BLAKE2S_BLOCK)]: all full blocks except the final one. *)
Fixpoint blake2s_blocks (fuel : nat) (h p : list Z) (t : Z) : outcome (list Z * list Z * Z) :=
  match fuel with
  | O => NoFuel
  | S fuel =>
      if Nat.ltb BLAKE2S_BLOCK (length p) then
        let t := add64 t (Z.of_nat BLAKE2S_BLOCK) in
        blake2s_blocks fuel (blake2s_compress h (take BLAKE2S_BLOCK p) t false)
          (drop BLAKE2S_BLOCK p) t
      else Ok (h, p, t)
  end.

Definition blake2s (inp : list Z) : outcome (list Z) :=
  let h := <[0%nat := Z.lxor (ix blake2s_iv 0) (Z.lxor 0x01010000 (Z.of_nat BLAKE2S_OUT))]>
             blake2s_iv in
  '(h, p, t) ← blake2s_blocks (S (length inp)) h inp 0;
  let block := p ++ replicate (BLAKE2S_BLOCK - length p) 0 in
  let t := add64 t (Z.of_nat (length p)) in
  Ok (concat (store32_le <$> blake2s_compress h block t true)).

(** ** The generator *)

(** [entropy n] is what the [n]-th call of [entropy_collect] stores. *)
Record csprng := Csprng {
  key : list Z;
  nonce : Z;
  bytes_since_reseed : Z;
  initialized : bool;
  entropy : nat → list Z;
  collected : nat
}.

Definition csprng_reseed_locked (s : csprng) : outcome csprng :=
  let pool := key s ++ entropy s (collected s) in
  k ← blake2s pool;
  Ok (Csprng k (nonce s) 0 (initialized s) (entropy s) (S (collected s))).

(** [csprng_selftest], below, only logs when it fails. *)
Definition csprng_init (s : csprng) : outcome csprng :=
  if initialized s then Ok s else
  s ← csprng_reseed_locked (Csprng (replicate 32 0) (nonce s) (bytes_since_reseed s)
        (initialized s) (entropy s) (collected s));
  Ok (Csprng (key s) 0 (bytes_since_reseed s) true (entropy s) (collected s)).

(** One draw: new key, then output. *)
Definition csprng_draw (want : nat) (s : csprng) : outcome (list Z * csprng) :=
  ks ← chacha20_keystream (key s) (nonce s) (CHACHA_KEY_SIZE + CHACHA_BLOCK_SIZE);
  let s := Csprng (take CHACHA_KEY_SIZE ks) (add64 (nonce s) 1) (bytes_since_reseed s)
             (initialized s) (entropy s) (collected s) in
  let out := take want (drop CHACHA_KEY_SIZE ks) in
  s ← (if bytes_since_reseed s >? CSPRNG_RESEED_BYTES then csprng_reseed_locked s else Ok s);
  Ok (out, Csprng (key s) (nonce s) (add32 (bytes_since_reseed s) (Z.of_nat want))
             (initialized s) (entropy s) (collected s)).

Fixpoint csprng_loop (fuel len : nat) (s : csprng) : outcome (list Z * csprng) :=
  match fuel with
  | O => NoFuel
  | S fuel =>
      if Nat.eqb len 0 then Ok ([], s) else
      let want := if Nat.ltb CHACHA_BLOCK_SIZE len then CHACHA_BLOCK_SIZE else len in
      '(out, s) ← csprng_draw want s;
      '(rest, s) ← csprng_loop fuel (len - want) s;
      Ok (out ++ rest, s)
  end.

Definition csprng_bytes (len : nat) (s : csprng) : outcome (list Z * csprng) :=
  s ← (if initialized s then Ok s else csprng_init s);
  csprng_loop (S len) len s.

(** A [uint64_t] filled byte by byte on a little-endian machine. *)
Definition le64 (b : list Z) : Z := foldr (λ x acc, x + 256 * acc) 0 b.

Definition csprng_u64 (s : csprng) : outcome (Z * csprng) :=
  '(b, s) ← csprng_bytes 8 s; Ok (le64 b, s).

(** [do r = csprng_u64(); while (r < threshold)] *)
Fixpoint bounded_loop (fuel : nat) (threshold : Z) (s : csprng) : outcome (Z * csprng) :=
  match fuel with
  | O => NoFuel
  | S fuel =>
      '(r, s) ← csprng_u64 s;
      if r <? threshold then bounded_loop fuel threshold s else Ok (r, s)
  end.

Definition bounded_threshold (bound : Z) : Z := sub64 0 bound mod bound.

(** The number of draws is not bounded: it is the [fuel] of the call. *)
Definition csprng_bounded (fuel : nat) (bound : Z) (s : csprng) : outcome (Z * csprng) :=
  if bound <=? 1 then Ok (0, s) else
  '(r, s) ← bounded_loop fuel (bounded_threshold bound) s;
  Ok (r mod bound, s).

Definition csprng_page_offset (fuel : nat) (max_pages : Z) (s : csprng) : outcome (Z * csprng) :=
  if max_pages =? 0 then Ok (0, s) else
  '(r, s) ← csprng_bounded fuel max_pages s; Ok (u64 (r * PAGE_SIZE), s).

(** ** Known-answer tests *)

Definition kat_key : list Z := Z.of_nat <$> seq 0 32.

Definition kat_chacha : list Z :=
  [0x22; 0x4f; 0x51; 0xf3; 0x40; 0x1b; 0xd9; 0xe1; 0x2f; 0xde;
   0x27; 0x6f; 0xb8; 0x63; 0x1d; 0xed; 0x8c; 0x13; 0x1f; 0x82;
   0x3d; 0x2c; 0x06; 0xe2; 0x7e; 0x4f; 0xca; 0xec; 0x9e; 0xf3;
   0xcf; 0x78; 0x8a; 0x3b; 0x0a; 0xa3; 0x72; 0x60; 0x0a; 0x92;
   0xb5; 0x79; 0x74; 0xcd; 0xed; 0x2b; 0x93; 0x34; 0x79; 0x4c;
   0xba; 0x40; 0xc6; 0x3e; 0x34; 0xcd; 0xea; 0x21; 0x2c; 0x4c;
   0xf0; 0x7d; 0x41; 0xb7].

Definition kat_blake : list Z :=
  [0x50; 0x8c; 0x5e; 0x8c; 0x32; 0x7c; 0x14; 0xe2;
   0xe1; 0xa7; 0x2b; 0xa3; 0x4e; 0xeb; 0x45; 0x2f;
   0x37; 0x45; 0x8b; 0x20; 0x9e; 0xd6; 0x3a; 0x29;
   0x4d; 0x99; 0x9b; 0x4c; 0x86; 0x67; 0x59; 0x82].

(** The C function compares with [memcmp] and returns 1 on a mismatch. *)
Definition csprng_selftest : outcome Z :=
  let st := chacha_consts ++ load_words 8 kat_key ++ [1; 0; 0x4a000000; 0] in
  if negb (bool_decide (chacha20_core st = kat_chacha)) then Ok 1 else
  out ← blake2s [97; 98; 99];
  if negb (bool_decide (out = kat_blake)) then Ok 1 else Ok 0.
