(* ===== verification/CsprngSpec.v ===== *)
(** * What the generator of csprng.c guarantees *)

From S2P Require Import Prelude Csprng.

Definition byte (x : Z) : Prop := 0 ≤ x < 256.

(** ** Lengths and byte ranges *)

Lemma store32_bytes v : Forall byte (store32_le v).
Proof.
  unfold store32_le, u8, byte. repeat apply Forall_cons_2; [..|constructor]; by apply Z.mod_pos_bound.
Qed.

Lemma qr_at_length i j k l x : length (qr_at i j k l x) = length x.
Proof. unfold qr_at. destruct (chacha_qr _ _ _ _) as [[[? ?] ?] ?]. by rewrite !length_insert. Qed.

Lemma double_round_length x : length (double_round x) = length x.
Proof. unfold double_round. by rewrite !qr_at_length. Qed.

#[local] Opaque double_round.

Lemma concat_fixed {A} n (ls : list (list A)) :
  Forall (λ l, length l = n) ls → length (concat ls) = (length ls * n)%nat.
Proof. induction 1 as [|l ls Hl _ IH]; simpl; [done|]. rewrite length_app. lia. Qed.

Lemma chacha20_core_length st : length (chacha20_core st) = (4 * length st)%nat.
Proof.
  unfold chacha20_core. rewrite (concat_fixed 4).
  - rewrite length_imap. assert (∀ n x, length (Nat.iter n double_round x) = length x) as ->; [|lia].
    induction n as [|n IH]; intros x; simpl; [done|]. by rewrite double_round_length.
  - apply Forall_forall. intros l (i & y & -> & _)%elem_of_lookup_imap_1. done.
Qed.

Lemma chacha20_core_bytes st : Forall byte (chacha20_core st).
Proof.
  unfold chacha20_core. apply Forall_concat, Forall_forall.
  intros l (i & y & -> & _)%elem_of_lookup_imap_1. apply store32_bytes.
Qed.

(** ** The keystream *)

(** The state of block [i]: only the counter word differs. *)
Definition at_block (st : list Z) (i : nat) : list Z :=
  <[12%nat := add32 (ix st 12) (Z.of_nat i)]> st.

(** The stream as a reference defines it: the concatenation of the blocks,
    cut at the requested length. *)
Definition keystream_ref (st : list Z) (len : nat) : list Z :=
  take len (concat ((λ i, chacha20_core (at_block st i)) <$> seq 0 len)).

Lemma ix_insert_eq x i v : (i < length x)%nat → ix (<[i := v]> x) i = v.
Proof. intros H. unfold ix. by erewrite nth_lookup_Some; [|apply list_lookup_insert_eq]. Qed.

Lemma add32_add a i j : add32 (add32 a i) j = add32 a (i + j).
Proof. unfold add32, u32. rewrite Zplus_mod_idemp_l. f_equal. lia. Qed.

Lemma at_block_bump st i :
  length st = 16%nat → at_block (bump st) i = at_block st (S i).
Proof.
  intros L. unfold at_block, bump. rewrite ix_insert_eq by lia.
  rewrite list_insert_insert_eq, add32_add. do 2 f_equal. lia.
Qed.

Lemma at_block_0 st : 0 ≤ ix st 12 < 2 ^ 32 → (12 < length st)%nat → at_block st 0 = st.
Proof.
  intros H L. unfold at_block. apply list_insert_id. unfold add32, u32, ix in *.
  rewrite Z.add_0_r, Z.mod_small by done. destruct (nth_lookup_or_length st 12 0); [done|lia].
Qed.

Lemma bump_length st : length (bump st) = length st.
Proof. apply length_insert. Qed.

Lemma bump_ctr st : (12 < length st)%nat → 0 ≤ ix (bump st) 12 < 2 ^ 32.
Proof. intros L. unfold bump. rewrite ix_insert_eq by done. by apply Z.mod_pos_bound. Qed.

Lemma at_block_core_length st i :
  length st = 16%nat → length (chacha20_core (at_block st i)) = 64%nat.
Proof. intros L. rewrite chacha20_core_length. unfold at_block. rewrite length_insert. lia. Qed.

(** Blocks past the cut do not matter. *)
Lemma take_blocks {A} (f : nat → list A) m k j :
  (∀ i, length (f i) = 64%nat) → (m ≤ 64 * k)%nat →
  take m (concat (f <$> seq 0 (k + j))) = take m (concat (f <$> seq 0 k)).
Proof.
  intros Hf Hm. rewrite seq_app, fmap_app, concat_app, take_app_le; [done|].
  rewrite (concat_fixed 64).
  - rewrite length_fmap, length_seq. lia.
  - apply Forall_fmap, Forall_forall. intros; apply Hf.
Qed.

Lemma keystream_loop_ref fuel : ∀ st len,
  length st = 16%nat → 0 ≤ ix st 12 < 2 ^ 32 → (len < fuel)%nat →
  keystream_loop fuel st len = Ok (keystream_ref st len).
Proof.
  induction fuel as [|fuel IH]; intros st len L C Hf; [lia|]. cbn [keystream_loop].
  destruct (Nat.eqb_spec len 0) as [->|Hl]; [done|].
  set (n := if Nat.ltb len _ then _ else _).
  assert (n ≤ len ∧ n ≤ 64 ∧ 0 < n ∧ (n = len ∨ n = 64))%nat as Hn.
  { subst n. unfold CHACHA_BLOCK_SIZE. destruct (Nat.ltb_spec len 64); lia. }
  rewrite IH; [|by rewrite bump_length|apply bump_ctr; lia|lia]. cbn [mbind outcome_bind]. f_equal.
  unfold keystream_ref. destruct len as [|len]; [lia|]. cbn [seq fmap list_fmap concat].
  rewrite at_block_0 by (done || lia). pose proof (chacha20_core_length st) as Lc. rewrite L in Lc.
  rewrite <- (fmap_S_seq 0 len), <- list_fmap_compose.
  rewrite (list_fmap_ext (_ ∘ S) (λ i, chacha20_core (at_block (bump st) i))).
  2:{ intros i y _. simpl. by rewrite at_block_bump. }
  assert (∀ i, length (chacha20_core (at_block (bump st) i)) = 64%nat) as Lb.
  { intros i. apply at_block_core_length. by rewrite bump_length. }
  destruct Hn as (Hn1 & Hn2 & Hn3 & [->|Hn4]).
  - rewrite Nat.sub_diag. simpl. rewrite app_nil_r. rewrite take_app_le by lia. done.
  - rewrite Hn4 in *. rewrite (take_app_ge (chacha20_core st)) by lia.
    rewrite take_ge by lia. rewrite Lc. f_equal.
    pose proof (take_blocks _ (S len - 64) (S len - 64) 63 Lb ltac:(lia)) as E.
    replace (S len - 64 + 63)%nat with len in E by lia. by rewrite <- E.
Qed.

(** The initial state [chacha20_keystream] builds. *)
Definition chacha_init (key : list Z) (nonce : Z) : list Z :=
  chacha_consts ++ load_words 8 key ++ [0; u32 nonce; u32 (Z.shiftr nonce 32); 0].

Lemma keystream_eq key nonce len :
  chacha20_keystream key nonce len = Ok (keystream_ref (chacha_init key nonce) len).
Proof. unfold chacha20_keystream. apply keystream_loop_ref; [done|done|lia]. Qed.

Lemma keystream_ref_length st len : length st = 16%nat → length (keystream_ref st len) = len.
Proof.
  intros L. unfold keystream_ref. rewrite length_take, (concat_fixed 64).
  - rewrite length_fmap, length_seq. lia.
  - apply Forall_fmap, Forall_forall. intros i _. by apply at_block_core_length.
Qed.

Lemma keystream_ref_bytes st len : Forall byte (keystream_ref st len).
Proof.
  apply Forall_take, Forall_concat, Forall_fmap, Forall_forall. intros i _. apply chacha20_core_bytes.
Qed.

(** ** BLAKE2s is total *)

#[local] Opaque blake2s_round.

Lemma compress_length h block t last : length (blake2s_compress h block t last) = length h.
Proof. apply length_imap. Qed.

Lemma blake2s_blocks_total fuel : ∀ h p t,
  (length p < fuel)%nat → length h = 8%nat →
  ∃ h' p' t', blake2s_blocks fuel h p t = Ok (h', p', t') ∧ length h' = 8%nat ∧
    (length p' ≤ BLAKE2S_BLOCK)%nat.
Proof.
  induction fuel as [|fuel IH]; intros h p t Hf Lh; [lia|]. cbn [blake2s_blocks].
  destruct (Nat.ltb_spec BLAKE2S_BLOCK (length p)) as [H|H].
  - apply IH; [|by rewrite compress_length]. rewrite length_drop. unfold BLAKE2S_BLOCK in *. lia.
  - by exists h, p, t.
Qed.

#[local] Opaque blake2s_compress.

Lemma blake2s_total inp :
  ∃ d, blake2s inp = Ok d ∧ length d = BLAKE2S_OUT ∧ Forall byte d.
Proof.
  unfold blake2s. set (h0 := <[0%nat := _]> blake2s_iv).
  destruct (blake2s_blocks_total (S (length inp)) h0 inp 0) as (h & p & t & -> & Lh & _); [lia|done|].
  cbn [mbind outcome_bind]. eexists. split; [done|]. split.
  - rewrite (concat_fixed 4); [by rewrite length_fmap, compress_length, Lh|].
    by apply Forall_fmap, Forall_forall.
  - apply Forall_concat, Forall_fmap, Forall_forall. intros; apply store32_bytes.
Qed.

(** ** The generator's invariant *)

Record csprng_ok (s : csprng) : Prop := CsprngOk {
  ck_key : length (key s) = CHACHA_KEY_SIZE;
  ck_bytes : Forall byte (key s);
  ck_nonce : in_u64 (nonce s);
  ck_since : 0 ≤ bytes_since_reseed s ≤ CSPRNG_RESEED_BYTES + 64
}.

Lemma reseed_spec s :
  in_u64 (nonce s) →
  ∃ s', csprng_reseed_locked s = Ok s' ∧ csprng_ok s' ∧ bytes_since_reseed s' = 0 ∧
    nonce s' = nonce s ∧ initialized s' = initialized s ∧
    entropy s' = entropy s ∧ collected s' = S (collected s).
Proof.
  intros Hn. unfold csprng_reseed_locked.
  destruct (blake2s_total (key s ++ entropy s (collected s))) as (d & -> & Ld & Bd).
  cbn [mbind outcome_bind]. eexists. split; [done|]. split; [|done].
  constructor; [done|done|done|]. simpl. unfold CSPRNG_RESEED_BYTES. lia.
Qed.

(** One draw: the next key and the output are disjoint parts of one keystream;
    a reseed may only replace the key. *)
Lemma draw_spec want s :
  csprng_ok s → (want ≤ 64)%nat →
  let ks := keystream_ref (chacha_init (key s) (nonce s)) 96 in
  ∃ s', csprng_draw want s = Ok (take want (drop 32 ks), s') ∧ csprng_ok s' ∧
    nonce s' = add64 (nonce s) 1 ∧ initialized s' = initialized s ∧
    (bytes_since_reseed s ≤ CSPRNG_RESEED_BYTES → key s' = take 32 ks) ∧
    (CSPRNG_RESEED_BYTES < bytes_since_reseed s →
       blake2s (take 32 ks ++ entropy s (collected s)) = Ok (key s')).
Proof.
  intros [Lk Bk Hn Hs] Hw ks. unfold csprng_draw. rewrite keystream_eq. cbn [mbind outcome_bind].
  change (CHACHA_KEY_SIZE + CHACHA_BLOCK_SIZE)%nat with 96%nat. fold ks.
  assert (length ks = 96%nat) as Lks by (by apply keystream_ref_length).
  set (s1 := Csprng _ _ _ _ _ _).
  assert (csprng_ok s1) as O1.
  { constructor; simpl; [|by apply Forall_take, keystream_ref_bytes|apply u64_range|done].
    rewrite length_take, Lks. done. }
  change (bytes_since_reseed s1) with (bytes_since_reseed s).
  unfold CSPRNG_RESEED_BYTES in *. destruct (bytes_since_reseed s >? 2 ^ 20) eqn:C.
  - unfold csprng_reseed_locked.
    destruct (blake2s_total (key s1 ++ entropy s1 (collected s1))) as (d & E & Ld & Bd).
    rewrite E. cbn [mbind outcome_bind]. eexists. split; [done|].
    split; [|split_and!; [done|done|lia|done]].
    constructor; [done|done|apply O1|]. simpl. unfold add32, u32, CSPRNG_RESEED_BYTES.
    rewrite Z.mod_small; lia.
  - cbn [mbind outcome_bind]. eexists. split; [done|]. split; [|split_and!; [done|done|done|lia]].
    destruct O1. constructor; [done|done|done|]. simpl in *. unfold add32, u32, CSPRNG_RESEED_BYTES.
    rewrite Z.mod_small; lia.
Qed.

(** The number of draws for [len] bytes. *)
Definition draw_count (len : nat) : Z := (Z.of_nat len + 63) / 64.

Lemma csprng_loop_spec fuel : ∀ len s,
  csprng_ok s → (len < fuel)%nat →
  ∃ out s', csprng_loop fuel len s = Ok (out, s') ∧ length out = len ∧ Forall byte out ∧
    csprng_ok s' ∧ initialized s' = initialized s ∧
    nonce s' = add64 (nonce s) (draw_count len).
Proof.
  induction fuel as [|fuel IH]; intros len s O Hf; [lia|]. cbn [csprng_loop].
  destruct (Nat.eqb_spec len 0) as [->|Hl].
  { eexists _, _. split; [done|]. split_and!; [done|constructor|done|done|].
    unfold add64, draw_count. simpl. rewrite Z.add_0_r, u64_small; [done|apply O]. }
  set (n := if Nat.ltb _ len then _ else _).
  assert (n ≤ len ∧ n ≤ 64 ∧ 0 < n ∧ (n = len ∨ n = 64))%nat as Hn.
  { subst n. unfold CHACHA_BLOCK_SIZE. destruct (Nat.ltb_spec 64 len); lia. }
  destruct (draw_spec n s O) as (s1 & -> & O1 & N1 & I1 & _); [lia|]. cbn [mbind outcome_bind].
  destruct (IH (len - n)%nat s1 O1) as (out & s2 & -> & L2 & B2 & O2 & I2 & N2); [lia|].
  cbn [mbind outcome_bind]. eexists _, s2. split; [done|].
  assert (length (keystream_ref (chacha_init (key s) (nonce s)) 96) = 96%nat) as Lk
    by by apply keystream_ref_length.
  split_and!; [| |done|congruence|].
  - rewrite length_app, length_take, length_drop, Lk, L2. lia.
  - apply Forall_app. split; [apply Forall_take, Forall_drop, keystream_ref_bytes|done].
  - rewrite N2, N1. unfold add64, u64. rewrite Zplus_mod_idemp_l. f_equal.
    rewrite <- Z.add_assoc. f_equal. unfold draw_count.
    destruct Hn as (? & ? & ? & [E| ->]).
    + rewrite E, Nat.sub_diag. change (1 + (Z.of_nat 0 + 63) / 64) with 1.
      apply Z.div_unique_pos with (Z.of_nat len - 1); lia.
    + rewrite Nat2Z.inj_sub by lia. change (Z.of_nat 64) with 64.
      replace (Z.of_nat len + 63) with (1 * 64 + (Z.of_nat len - 64 + 63)) by lia.
      by rewrite Z.div_add_l by lia.
Qed.

Lemma csprng_init_spec s :
  csprng_ok s → initialized s = false →
  ∃ s', csprng_init s = Ok s' ∧ csprng_ok s' ∧ initialized s' = true ∧ nonce s' = 0.
Proof.
  intros O I. unfold csprng_init. rewrite I.
  edestruct reseed_spec as (s1 & -> & O1 & _); [apply O|]. cbn [mbind outcome_bind].
  eexists. split; [done|]. split; [|done]. by destruct O1.
Qed.

Lemma bytes_spec len s :
  csprng_ok s →
  ∃ out s', csprng_bytes len s = Ok (out, s') ∧ length out = len ∧ Forall byte out ∧
    csprng_ok s' ∧ initialized s' = true ∧
    nonce s' = add64 (if initialized s then nonce s else 0) (draw_count len).
Proof.
  intros O. unfold csprng_bytes. destruct (initialized s) eqn:I.
  - cbn [mbind outcome_bind]. rewrite <- I. apply csprng_loop_spec; [done|lia].
  - destruct (csprng_init_spec s O I) as (s1 & -> & O1 & I1 & N1). cbn [mbind outcome_bind].
    rewrite <- I1, <- N1. apply csprng_loop_spec; [done|lia].
Qed.

Lemma le64_bound b : Forall byte b → 0 ≤ le64 b < 256 ^ Z.of_nat (length b).
Proof.
  induction 1 as [|x b Hx _ IH]; [done|]. cbn [le64 foldr length]. fold (le64 b).
  rewrite Nat2Z.inj_succ, Z.pow_succ_r by lia. unfold byte in Hx. lia.
Qed.

Lemma u64_spec s :
  csprng_ok s → ∃ r s', csprng_u64 s = Ok (r, s') ∧ in_u64 r ∧ csprng_ok s'.
Proof.
  intros O. unfold csprng_u64. destruct (bytes_spec 8 s O) as (out & s' & -> & L & B & O' & _).
  cbn [mbind outcome_bind]. eexists _, s'. split; [done|]. split; [|done].
  pose proof (le64_bound out B) as H. rewrite L in H. done.
Qed.

(** ** Rejection sampling *)

(** The [n]-th 64-bit draw from a state. *)
Fixpoint nth_draw (n : nat) (s : csprng) : outcome Z :=
  '(r, s) ← csprng_u64 s; match n with O => Ok r | S n => nth_draw n s end.

#[local] Opaque csprng_u64.

Lemma threshold_eq bound : 1 < bound < 2 ^ 64 → bounded_threshold bound = 2 ^ 64 mod bound.
Proof.
  intros H. unfold bounded_threshold, sub64, u64.
  rewrite <- (Z_mod_plus_full (0 - bound) 1 (2 ^ 64)), (Z.mod_small _ (2 ^ 64)) by lia.
  rewrite <- (Z_mod_plus_full (2 ^ 64) (-1) bound). f_equal. lia.
Qed.

Lemma threshold_range bound : 1 < bound < 2 ^ 64 → 0 ≤ bounded_threshold bound < bound.
Proof. intros H. rewrite threshold_eq by done. apply Z.mod_pos_bound. lia. Qed.

Lemma accepted_multiple bound :
  1 < bound < 2 ^ 64 →
  2 ^ 64 - bounded_threshold bound = bound * ((2 ^ 64 - bounded_threshold bound) / bound).
Proof.
  intros H. rewrite threshold_eq by done. apply Z_div_exact_full_2; [lia|].
  rewrite Zminus_mod_idemp_r. by rewrite Z.sub_diag.
Qed.

(** ** Properties *)

(** The known-answer tests of [csprng_selftest] (the RFC 8439 ChaCha20
    block and the RFC 7693 BLAKE2s digest of "abc") pass. *)
Theorem csprng_selftest_passes : csprng_selftest = Ok 0.
Proof. vm_compute. reflexivity. Qed.

(** [chacha20_keystream] returns exactly the first [len] bytes of the
    concatenation of the ChaCha20 blocks with counters 0, 1, 2, ... *)
Theorem keystream_correct key nonce len :
  chacha20_keystream key nonce len = Ok (keystream_ref (chacha_init key nonce) len) ∧
  length (keystream_ref (chacha_init key nonce) len) = len.
Proof. split; [apply keystream_eq|by apply keystream_ref_length]. Qed.

(** [csprng_bytes] terminates, returns [len] bytes, advances the nonce by
    one per 64-byte draw so that no two draws share a ChaCha20 stream, and
    keeps the state well formed: at most 2^20 + 64 bytes are ever drawn since
    the last reseed. *)
Theorem csprng_bytes_correct len s :
  csprng_ok s →
  ∃ out s', csprng_bytes len s = Ok (out, s') ∧ length out = len ∧ Forall byte out ∧
    csprng_ok s' ∧ initialized s' = true ∧
    nonce s' = add64 (if initialized s then nonce s else 0) (draw_count len).
Proof. apply bytes_spec. Qed.

Definition demo_csprng : csprng :=
  Csprng (replicate 32 7) 0 0 false (λ n, replicate 64 (Z.of_nat n mod 256)) 0.

Lemma demo_csprng_ok : csprng_ok demo_csprng.
Proof.
  constructor; [done| |done|done]. apply Forall_replicate. done.
Qed.

Lemma csprng_bytes_correct_witness :
  ∃ out s', csprng_bytes 100 demo_csprng = Ok (out, s') ∧ length out = 100%nat ∧
    Forall byte out ∧ csprng_ok s' ∧ initialized s' = true ∧ nonce s' = add64 0 (draw_count 100).
Proof. apply (csprng_bytes_correct 100 demo_csprng). apply demo_csprng_ok. Defined.

(** A draw's output and the next key are disjoint parts of one keystream
    (fast key erasure), and once more than 2^20 bytes were drawn the next key
    is the BLAKE2s digest of that keystream part and fresh entropy. *)
Theorem csprng_draw_erases_key want s :
  csprng_ok s → (want ≤ 64)%nat →
  let ks := keystream_ref (chacha_init (key s) (nonce s)) 96 in
  ∃ s', csprng_draw want s = Ok (take want (drop 32 ks), s') ∧ csprng_ok s' ∧
    nonce s' = add64 (nonce s) 1 ∧ initialized s' = initialized s ∧
    (bytes_since_reseed s ≤ CSPRNG_RESEED_BYTES → key s' = take 32 ks) ∧
    (CSPRNG_RESEED_BYTES < bytes_since_reseed s →
       blake2s (take 32 ks ++ entropy s (collected s)) = Ok (key s')).
Proof. apply draw_spec. Qed.

Lemma csprng_draw_erases_key_witness :
  ∃ s', csprng_draw 16 demo_csprng =
    Ok (take 16 (drop 32 (keystream_ref (chacha_init (key demo_csprng) 0) 96)), s') ∧
    key s' = take 32 (keystream_ref (chacha_init (key demo_csprng) 0) 96).
Proof.
  destruct (csprng_draw_erases_key 16 demo_csprng demo_csprng_ok ltac:(lia))
    as (s' & E & _ & _ & _ & K & _).
  exists s'. split; [exact E|]. apply K. done.
Defined.

(** Rejection sampling has no modulo bias: the accepted 64-bit values with
    residue [k] are [q] values, one for each [j < q], with the same [q] for
    every residue; fewer than [bound] values are rejected. *)
Theorem bounded_uniform bound :
  1 < bound < 2 ^ 64 →
  let t := bounded_threshold bound in
  let q := (2 ^ 64 - t) / bound in
  0 ≤ t < bound ∧
  ∀ k r, 0 ≤ k < bound →
    (t ≤ r < 2 ^ 64 ∧ r mod bound = k) ↔
    ∃ j, 0 ≤ j < q ∧ r = t + (k - t) mod bound + bound * j.
Proof.
  intros H t q. pose proof (threshold_range bound H) as Ht. fold t in Ht.
  pose proof (accepted_multiple bound H) as Hq. fold t q in Hq.
  split; [done|]. intros k r Hk. split.
  - intros [Hr <-]. exists ((r - t) / bound).
    pose proof (Z.div_mod (r - t) bound ltac:(lia)) as D. rewrite Zminus_mod_idemp_l. split; [|lia].
    split; [apply Z.div_pos; lia|]. apply Z.div_lt_upper_bound; lia.
  - intros (j & Hj & ->). pose proof (Z.mod_pos_bound (k - t) bound ltac:(lia)) as M.
    split; [nia|]. rewrite Z.mul_comm, Z_mod_plus_full, Zplus_mod_idemp_r.
    replace (t + (k - t)) with k by lia. by apply Z.mod_small.
Qed.

Lemma bounded_uniform_witness :
  bounded_threshold 6 = 4 ∧
  ((4 ≤ 2 ^ 64 - 1 < 2 ^ 64 ∧ (2 ^ 64 - 1) mod 6 = 3) ↔
   ∃ j, 0 ≤ j < (2 ^ 64 - 4) / 6 ∧ 2 ^ 64 - 1 = 4 + (3 - 4) mod 6 + 6 * j).
Proof.
  split; [reflexivity|].
  destruct (bounded_uniform 6 ltac:(lia)) as [_ H]. apply (H 3 (2 ^ 64 - 1)). lia.
Defined.

(** The loop as a function of the draws: the first one at or above [t], or none among [fuel]. *)
Lemma bounded_loop_draws t : ∀ fuel s, csprng_ok s →
  (∃ n r s', (n < fuel)%nat ∧ (∀ i, (i < n)%nat → ∃ x, nth_draw i s = Ok x ∧ x < t) ∧ nth_draw n s = Ok r ∧ t ≤ r < 2 ^ 64 ∧
     bounded_loop fuel t s = Ok (r, s') ∧ csprng_ok s') ∨
  ((∀ i, (i < fuel)%nat → ∃ x, nth_draw i s = Ok x ∧ x < t) ∧ bounded_loop fuel t s = NoFuel).
Proof.
  induction fuel as [|fuel IH]; intros s O; [right; split; [lia|done]|].
  destruct (u64_spec s O) as (x & s1 & E & Hx & O1). cbn [bounded_loop]. rewrite E. cbn [mbind outcome_bind].
  assert (∀ i y, nth_draw i s1 = Ok y → nth_draw (S i) s = Ok y) as Hs by (intros i y Hy; cbn [nth_draw]; rewrite E; exact Hy).
  assert (nth_draw 0 s = Ok x) as H0 by (cbn [nth_draw]; by rewrite E).
  destruct (Z.ltb_spec x t) as [Hr|Ha].
  - destruct (IH s1 O1) as [(n & r & s' & Hn & Hrej & Hd & Hrt & El & O')|[Hrej El]].
    + left. exists (S n), r, s'. split_and!; try done; try lia; [|by apply Hs].
      intros [|i] Hi; [by exists x|]. destruct (Hrej i ltac:(lia)) as (y & Hy & ?). exists y. split; [by apply Hs|done].
    + right. split; [|done]. intros [|i] Hi; [by exists x|]. destruct (Hrej i ltac:(lia)) as (y & Hy & ?). exists y. split; [by apply Hs|done].
  - left. exists 0%nat, x, s1. unfold in_u64 in *. split_and!; try done; lia.
Qed.

(** C39: [csprng_bounded] is 0 for a bound of 0 or 1.  Otherwise it rejects the draws below [2^64 mod bound] and returns the
    first other one reduced modulo the bound, as soon as there is fuel for that many draws (each is rejected with a
    probability below one half); and the values it does not reject are fair: for every result [k] they are the same number
    [2^64 / bound] of 64-bit values. *)
Theorem csprng_bounded_correct fuel bound s :
  csprng_ok s → 0 ≤ bound < 2 ^ 64 →
  (bound ≤ 1 → csprng_bounded fuel bound s = Ok (0, s)) ∧
  (1 < bound → let t := 2 ^ 64 mod bound in
   ((∃ n r s', (n < fuel)%nat ∧ (∀ i, (i < n)%nat → ∃ x, nth_draw i s = Ok x ∧ x < t) ∧ nth_draw n s = Ok r ∧ t ≤ r < 2 ^ 64 ∧
       csprng_bounded fuel bound s = Ok (r mod bound, s') ∧ csprng_ok s' ∧ 0 ≤ r mod bound < bound) ∨
    ((∀ i, (i < fuel)%nat → ∃ x, nth_draw i s = Ok x ∧ x < t) ∧ csprng_bounded fuel bound s = NoFuel)) ∧
   2 * t < 2 ^ 64 ∧
   ∀ k r, 0 ≤ k < bound →
     (t ≤ r < 2 ^ 64 ∧ r mod bound = k) ↔ ∃ j, 0 ≤ j < 2 ^ 64 / bound ∧ r = t + (k - t) mod bound + bound * j).
Proof.
  intros O Hb. unfold csprng_bounded. split; [intros H; by rewrite (proj2 (Z.leb_le _ _))|]. intros H1. cbv zeta. set (t := 2 ^ 64 mod bound).
  rewrite (proj2 (Z.leb_gt _ _)), threshold_eq by lia. fold t.
  pose proof (Z.mod_pos_bound (2 ^ 64) bound ltac:(lia)) as Ht. fold t in Ht. pose proof (Z.div_mod (2 ^ 64) bound ltac:(lia)) as D. fold t in D.
  pose proof (Z.div_le_lower_bound (2 ^ 64) bound 1 ltac:(lia) ltac:(lia)) as Hq. split_and!.
  - destruct (bounded_loop_draws t fuel s O) as [(n & r & s' & Hn & Hrej & Hd & Hr & -> & O')|[Hrej ->]]; [left|by right].
    exists n, r, s'. pose proof (Z.mod_pos_bound r bound ltac:(lia)). split_and!; try done; try lia.
  - nia.
  - intros k r Hk. destruct (bounded_uniform bound ltac:(lia)) as [_ Hu]. rewrite threshold_eq in Hu by lia. fold t in Hu. rewrite (Hu k r Hk).
    replace ((2 ^ 64 - t) / bound) with (2 ^ 64 / bound); [done|]. replace (2 ^ 64 - t) with (2 ^ 64 / bound * bound) by lia. by rewrite Z.div_mul by lia.
Qed.

#[local] Transparent csprng_u64 blake2s_compress blake2s_round double_round.

Lemma csprng_bounded_correct_witness :
  ∃ r s', nth_draw 0 demo_csprng = Ok r ∧
    csprng_bounded 1 10 demo_csprng = Ok (r mod 10, s') ∧ 0 ≤ r mod 10 < 10.
Proof.
  assert (match nth_draw 0 demo_csprng with Ok d => 2 ^ 64 mod 10 <=? d | _ => false end = true) as C by (vm_compute; reflexivity).
  destruct (csprng_bounded_correct 1 10 demo_csprng demo_csprng_ok ltac:(lia)) as [_ H].
  destruct (H ltac:(lia)) as ([(n & r & s' & Hn & _ & Hd & _ & E & _ & B)|[Hrej _]] & _).
  - assert (n = 0%nat) as -> by lia. exists r, s'. split; [exact Hd|]. split; [exact E|exact B].
  - exfalso. destruct (Hrej 0%nat ltac:(lia)) as (x & Hx & Hlt). rewrite Hx in C. apply Z.leb_le in C. lia.
Defined.
