(* ===== verification/CString.v ===== *)
(** * kernel/lib/string.c: memory and string primitives

    The [mem*] functions run on a byte-addressed memory, where reading or
    writing an address outside it is a [Fault].  A [const char *] is the list
    of the bytes from the pointer to the end of its object, so advancing the
    pointer drops the head and running past the end is a [Fault].  Bytes are
    integers in [0, 256). *)

From S2P Require Import Prelude.

Abbreviation mem := (gmap Z Z).

Definition store (m : mem) (a v : Z) : outcome mem :=
  _ ← deref (m !! a); Ok (<[a := v]> m).

(** [while (n--) *d++ = *s++;] *)
Fixpoint copy_up (n : nat) (d s : Z) (m : mem) : outcome mem :=
  match n with
  | O => Ok m
  | S n => v ← deref (m !! s); m ← store m d v; copy_up n (d + 1) (s + 1) m
  end.

Definition memcpy (d s : Z) (n : nat) (m : mem) : outcome mem := copy_up n d s m.

(** [while (n--) *--d = *--s;] *)
Fixpoint copy_down (n : nat) (d s : Z) (m : mem) : outcome mem :=
  match n with
  | O => Ok m
  | S n => v ← deref (m !! (s - 1)); m ← store m (d - 1) v; copy_down n (d - 1) (s - 1) m
  end.

Definition memmove (d s : Z) (n : nat) (m : mem) : outcome mem :=
  if (d =? s) || Nat.eqb n 0 then Ok m else
  if d <? s then copy_up n d s m
  else copy_down n (d + Z.of_nat n) (s + Z.of_nat n) m.

(** The loop of [memset], after [c] was converted to [unsigned char]. *)
Fixpoint set_loop (n : nat) (d v : Z) (m : mem) : outcome mem :=
  match n with
  | O => Ok m
  | S n => m ← store m d v; set_loop n (d + 1) v m
  end.

Definition memset (d c : Z) (n : nat) (m : mem) : outcome mem := set_loop n d (c mod 256) m.

Fixpoint memcmp (a b : list Z) (n : nat) {struct n} : outcome Z :=
  match n with
  | O => Ok 0
  | S n =>
      match a, b with
      | p :: a, q :: b => if negb (p =? q) then Ok (p - q) else memcmp a b n
      | _, _ => Fault
      end
  end.

Fixpoint strlen (s : list Z) : outcome nat :=
  match s with
  | [] => Fault
  | c :: s => if c =? 0 then Ok 0%nat else n ← strlen s; Ok (S n)
  end.

Fixpoint strnlen (s : list Z) (maxlen : nat) {struct maxlen} : outcome nat :=
  match maxlen with
  | O => Ok 0%nat
  | S maxlen =>
      match s with
      | [] => Fault
      | c :: s => if c =? 0 then Ok 0%nat else n ← strnlen s maxlen; Ok (S n)
      end
  end.

Fixpoint strcmp (a b : list Z) : outcome Z :=
  match a, b with
  | p :: a, q :: b => if negb (p =? 0) && (p =? q) then strcmp a b else Ok (p - q)
  | _, _ => Fault
  end.

Fixpoint strncmp (a b : list Z) (n : nat) {struct n} : outcome Z :=
  match n with
  | O => Ok 0
  | S n =>
      match a, b with
      | p :: a, q :: b => if negb (p =? 0) && (p =? q) then strncmp a b n else Ok (p - q)
      | _, _ => Fault
      end
  end.

(** The result points into [s]: it is a suffix of it, or NULL. *)
Fixpoint strchr (s : list Z) (ch : Z) : outcome (option (list Z)) :=
  match s with
  | [] => Fault
  | c :: s' =>
      if c =? ch then Ok (Some s) else if c =? 0 then Ok None else strchr s' ch
  end.

(** ** The string an object holds *)

(** [cstring t s]: the object [s] holds the NUL-terminated string [t]. *)
Definition cstring (t s : list Z) : Prop :=
  Forall (λ c, c ≠ 0) t ∧ ∃ junk, s = t ++ 0 :: junk.

Lemma cstring_cons c t s : cstring (c :: t) s → c ≠ 0 ∧ ∃ s', s = c :: s' ∧ cstring t s'.
Proof.
  intros [F (junk & ->)]. apply Forall_cons in F as [Hc F]. split; [done|].
  exists (t ++ 0 :: junk). split; [done|]. split; [done|]. by exists junk.
Qed.

Lemma cstring_nil s : cstring [] s → ∃ junk, s = 0 :: junk.
Proof. by intros [_ H]. Qed.

Lemma strlen_spec t s : cstring t s → strlen s = Ok (length t).
Proof.
  revert s; induction t as [|c t IH]; intros s H.
  - by apply cstring_nil in H as (junk & ->).
  - apply cstring_cons in H as (Hc & s' & -> & H). simpl.
    rewrite (proj2 (Z.eqb_neq _ _)) by done. by rewrite (IH s').
Qed.

Lemma strnlen_spec t s n : cstring t s → strnlen s n = Ok (min (length t) n).
Proof.
  revert s n; induction t as [|c t IH]; intros s [|n] H; try done.
  - by apply cstring_nil in H as (junk & ->).
  - apply cstring_cons in H as (Hc & s' & -> & H). simpl.
    rewrite (proj2 (Z.eqb_neq _ _)) by done. by rewrite (IH s').
Qed.

(** Equality of strings is what [strcmp] decides. *)
Lemma strcmp_spec t1 s1 t2 s2 :
  cstring t1 s1 → cstring t2 s2 → ∃ r, strcmp s1 s2 = Ok r ∧ (r = 0 ↔ t1 = t2).
Proof.
  revert s1 t2 s2; induction t1 as [|c t1 IH]; intros s1 [|d t2] s2 H1 H2.
  - apply cstring_nil in H1 as (j1 & ->), H2 as (j2 & ->). by exists 0.
  - apply cstring_nil in H1 as (j1 & ->). apply cstring_cons in H2 as (Hd & s2' & -> & _).
    exists (0 - d). split; [done|]. split; [lia|done].
  - apply cstring_nil in H2 as (j2 & ->). apply cstring_cons in H1 as (Hc & s1' & -> & _).
    exists (c - 0). simpl. rewrite (proj2 (Z.eqb_neq _ _)) by done. simpl.
    split; [done|]. split; [lia|done].
  - apply cstring_cons in H1 as (Hc & s1' & -> & H1), H2 as (Hd & s2' & -> & H2). simpl.
    rewrite (proj2 (Z.eqb_neq _ _)) by done. simpl. destruct (Z.eqb_spec c d) as [->|Hne].
    + destruct (IH s1' t2 s2' H1 H2) as (r & -> & Hr). exists r. split; [done|].
      rewrite Hr. split; congruence.
    + eexists. split; [done|]. split; [lia|congruence].
Qed.

(** ** Copies *)

(** [n] bytes are accessible from [a] on. *)
Definition accessible (m : mem) (a : Z) (n : nat) : Prop :=
  ∀ x, a ≤ x < a + Z.of_nat n → is_Some (m !! x).

(** [m'] is [m] with the [n] bytes at [s] copied to [d]. *)
Definition copied (m : mem) (d s : Z) (n : nat) (m' : mem) : Prop :=
  ∀ x, m' !! x = if decide (d ≤ x < d + Z.of_nat n) then m !! (x - d + s) else m !! x.

Lemma accessible_insert m a n x v : accessible m a n → accessible (<[x := v]> m) a n.
Proof. intros H y Hy. destruct (decide (x = y)) as [->|]; simplify_map_eq; eauto. Qed.

Lemma accessible_head m a n : accessible m a (S n) → ∃ v, m !! a = Some v ∧ accessible m (a + 1) n.
Proof. intros H. destruct (H a) as [v E]; [lia|]. exists v. split; [done|]. intros x Hx. apply H. lia. Qed.

Lemma accessible_last m a n :
  accessible m a (S n) → ∃ v, m !! (a + Z.of_nat n) = Some v ∧ accessible m a n.
Proof.
  intros H. destruct (H (a + Z.of_nat n)) as [v E]; [lia|]. exists v. split; [done|].
  intros x Hx. apply H. lia.
Qed.

Lemma copy_up_spec n : ∀ d s m,
  accessible m d n → accessible m s n → d ≤ s ∨ s + Z.of_nat n ≤ d →
  ∃ m', copy_up n d s m = Ok m' ∧ copied m d s n m'.
Proof.
  induction n as [|n IH]; intros d s m Ad As Hds; cbn [copy_up].
  { exists m. split; [done|]. intros x. by rewrite decide_False by lia. }
  apply accessible_head in Ad as (w & Ew & Ad), As as (v & Ev & As).
  unfold store. rewrite Ev, Ew. cbn [mbind outcome_bind deref].
  destruct (IH (d + 1) (s + 1) (<[d := v]> m)) as (m' & -> & C);
    [by apply accessible_insert..|lia|].
  exists m'. split; [done|]. intros x. rewrite C.
  destruct (decide (x = d)) as [->|Hx].
  - rewrite decide_False by lia. rewrite decide_True by lia. rewrite lookup_insert_eq.
    by replace (d - d + s) with s by lia.
  - rewrite !(lookup_insert_ne _ _ x) by done. destruct (decide (d ≤ x < d + Z.of_nat (S n))).
    + rewrite decide_True by lia. rewrite lookup_insert_ne by lia. f_equal. lia.
    + by rewrite decide_False by lia.
Qed.

Lemma copy_down_spec n : ∀ d s m,
  accessible m d n → accessible m s n → s ≤ d →
  ∃ m', copy_down n (d + Z.of_nat n) (s + Z.of_nat n) m = Ok m' ∧ copied m d s n m'.
Proof.
  induction n as [|n IH]; intros d s m Ad As Hds; cbn [copy_down].
  { exists m. split; [done|]. intros x. by rewrite decide_False by lia. }
  apply accessible_last in Ad as (w & Ew & Ad), As as (v & Ev & As).
  replace (d + Z.of_nat (S n) - 1) with (d + Z.of_nat n) by lia.
  replace (s + Z.of_nat (S n) - 1) with (s + Z.of_nat n) by lia.
  unfold store. rewrite Ev, Ew. cbn [mbind outcome_bind deref].
  destruct (IH d s (<[d + Z.of_nat n := v]> m)) as (m' & -> & C);
    [by apply accessible_insert..|lia|].
  exists m'. split; [done|]. intros x. rewrite C.
  destruct (decide (x = d + Z.of_nat n)) as [->|Hx].
  - rewrite decide_False by lia. rewrite decide_True by lia. rewrite lookup_insert_eq.
    by replace (d + Z.of_nat n - d + s) with (s + Z.of_nat n) by lia.
  - rewrite !(lookup_insert_ne _ _ x) by done. destruct (decide (d ≤ x < d + Z.of_nat (S n))).
    + rewrite decide_True by lia. rewrite lookup_insert_ne by lia. done.
    + by rewrite decide_False by lia.
Qed.

Lemma set_loop_spec n : ∀ d v m,
  accessible m d n →
  ∃ m', set_loop n d v m = Ok m' ∧
    ∀ x, m' !! x = if decide (d ≤ x < d + Z.of_nat n) then Some v else m !! x.
Proof.
  induction n as [|n IH]; intros d v m Ad; cbn [set_loop].
  { exists m. split; [done|]. intros x. by rewrite decide_False by lia. }
  apply accessible_head in Ad as (w & Ew & Ad). unfold store. rewrite Ew.
  cbn [mbind outcome_bind deref].
  destruct (IH (d + 1) v (<[d := v]> m)) as (m' & -> & C); [by apply accessible_insert|].
  exists m'. split; [done|]. intros x. rewrite C. destruct (decide (x = d)) as [->|Hx].
  - rewrite decide_False by lia. rewrite decide_True by lia. apply lookup_insert_eq.
  - rewrite lookup_insert_ne by done. apply decide_ext. lia.
Qed.

(** ** Properties *)

(** [memmove] copies the [n] bytes at [s] to [d] whatever the overlap of
    the two ranges, and changes no other byte. *)
Theorem memmove_correct d s n m :
  accessible m d n → accessible m s n → ∃ m', memmove d s n m = Ok m' ∧ copied m d s n m'.
Proof.
  intros Ad As. unfold memmove.
  destruct (Z.eqb_spec d s) as [->|Hds]; [|destruct (Nat.eqb_spec n 0) as [->|Hn]]; simpl.
  - exists m. split; [done|]. intros x. replace (x - s + s) with x by lia. by case_decide.
  - exists m. split; [done|]. intros x. by rewrite decide_False by lia.
  - destruct (Z.ltb_spec d s); [apply copy_up_spec|apply copy_down_spec]; (done || lia).
Qed.

Definition demo_mem : mem := list_to_map (imap (λ i c, (Z.of_nat i, c)) [10; 20; 30; 40; 50; 60]).

(** Overlapping ranges, upwards. *)
Lemma memmove_correct_witness :
  ∃ m', memmove 2 0 4 demo_mem = Ok m' ∧ (m' !! (5 : Z) = Some 40).
Proof.
  destruct (memmove_correct 2 0 4 demo_mem) as (m' & E & C).
  - intros x Hx. assert (x = 2 ∨ x = 3 ∨ x = 4 ∨ x = 5) as [->|[->|[->| ->]]] by lia;
      vm_compute; eauto.
  - intros x Hx. assert (x = 0 ∨ x = 1 ∨ x = 2 ∨ x = 3) as [->|[->|[->| ->]]] by lia;
      vm_compute; eauto.
  - exists m'. split; [exact E|]. rewrite C. reflexivity.
Defined.

(** On ranges that do not overlap, or where the destination lies below the
    source, [memcpy] copies exactly the [n] bytes. *)
Theorem memcpy_correct d s n m :
  accessible m d n → accessible m s n → d ≤ s ∨ s + Z.of_nat n ≤ d →
  ∃ m', memcpy d s n m = Ok m' ∧ copied m d s n m'.
Proof. apply copy_up_spec. Qed.

Lemma memcpy_correct_witness :
  ∃ m', memcpy 3 0 3 demo_mem = Ok m' ∧ (m' !! (4 : Z) = Some 20).
Proof.
  destruct (memcpy_correct 3 0 3 demo_mem) as (m' & E & C).
  - intros x Hx. assert (x = 3 ∨ x = 4 ∨ x = 5) as [->|[->| ->]] by lia; vm_compute; eauto.
  - intros x Hx. assert (x = 0 ∨ x = 1 ∨ x = 2) as [->|[->| ->]] by lia; vm_compute; eauto.
  - lia.
  - exists m'. split; [exact E|]. rewrite C. reflexivity.
Defined.
