(* ===== verification/Cmdline.v ===== *)
(** * kernel/kernel/cmdline.c: the kernel command line parser

    The parser copies the string into a bounded buffer and stores key/value
    pairs in a fixed table.  [cmdline_spec] says what the table holds: the
    words of the line, split at the first '=', truncated to the field sizes. *)

From S2P Require Import Prelude CString.

Definition CMDLINE_BUF_SIZE : nat := 1024.
Definition CMDLINE_MAX_ENTRIES : nat := 32.
Definition CMDLINE_MAX_KEY : nat := 32.
Definition CMDLINE_MAX_VALUE : nat := 64.

Record cmdline_entry := Entry { e_key : list Z; e_value : list Z; e_used : bool }.

Record cmdline := Cmdline { raw : list Z; table : list cmdline_entry; entry_count : nat }.

Definition is_space (c : Z) : bool := (c =? 32) || (c =? 9).

(** [memcpy] of the first [n] bytes of [src] over the array [dst]. *)
Definition copy_into (dst src : list Z) (n : nat) : outcome (list Z) :=
  if Nat.leb n (length src) && Nat.leb n (length dst) then Ok (take n src ++ drop n dst) else Fault.

(** [a[i] = v] *)
Definition set_at {A} (a : list A) (i : nat) (v : A) : outcome (list A) :=
  if Nat.ltb i (length a) then Ok (<[i := v]> a) else Fault.

Definition store_pair (k : list Z) (klen : nat) (v : list Z) (vlen : nat) (s : cmdline)
    : outcome cmdline :=
  if Nat.leb CMDLINE_MAX_ENTRIES (entry_count s) then Ok s else
  if Nat.eqb klen 0 then Ok s else
  e ← deref (table s !! entry_count s);
  let klen := if Nat.leb CMDLINE_MAX_KEY klen then (CMDLINE_MAX_KEY - 1)%nat else klen in
  key ← copy_into (e_key e) k klen;
  key ← set_at key klen 0;
  let vlen := if Nat.leb CMDLINE_MAX_VALUE vlen then (CMDLINE_MAX_VALUE - 1)%nat else vlen in
  value ← copy_into (e_value e) v vlen;
  value ← set_at value vlen 0;
  Ok (Cmdline (raw s) (<[entry_count s := Entry key value true]> (table s)) (S (entry_count s))).

(** [while (is_space( *p)) p++;] *)
Fixpoint skip_spaces (p : list Z) : outcome (list Z) :=
  match p with
  | [] => Fault
  | c :: p' => if is_space c then skip_spaces p' else Ok p
  end.

(** [while ( *p && cond( *p)) p++;], with the distance moved. *)
Fixpoint scan (cond : Z → bool) (p : list Z) : outcome (nat * list Z) :=
  match p with
  | [] => Fault
  | c :: p' =>
      if negb (c =? 0) && cond c then '(n, q) ← scan cond p'; Ok (S n, q) else Ok (0%nat, p)
  end.

Definition key_char (c : Z) : bool := negb (is_space c) && negb (c =? 61).
Definition value_char (c : Z) : bool := negb (is_space c).

(** One round of the main loop, after the test of [*p]: [None] is [break]. *)
Definition parse_pair (p : list Z) (s : cmdline) : outcome (option (list Z * cmdline)) :=
  p ← skip_spaces p;
  c ← deref (head p);
  if c =? 0 then Ok None else
  '(klen, q) ← scan key_char p;
  c ← deref (head q);
  if c =? 61 then
    let vstart := tail q in
    '(vlen, q) ← scan value_char vstart;
    s ← store_pair p klen vstart vlen s; Ok (Some (q, s))
  else
    s ← store_pair p klen [49; 0] 1 s; Ok (Some (q, s)).

Fixpoint parse_loop (fuel : nat) (p : list Z) (s : cmdline) : outcome cmdline :=
  match fuel with
  | O => NoFuel
  | S fuel =>
      c ← deref (head p);
      if c =? 0 then Ok s else
      r ← parse_pair p s;
      match r with None => Ok s | Some (p, s) => parse_loop fuel p s end
  end.

Definition zero_entry : cmdline_entry :=
  Entry (replicate CMDLINE_MAX_KEY 0) (replicate CMDLINE_MAX_VALUE 0) false.

(** [raw0] is the static buffer before the call; [None] is a NULL argument. *)
Definition cmdline_parse (str : option (list Z)) (raw0 : list Z) : outcome cmdline :=
  let tbl := replicate CMDLINE_MAX_ENTRIES zero_entry in
  match str with
  | None => r ← set_at raw0 0 0; Ok (Cmdline r tbl 0)
  | Some str =>
      n ← strnlen str (CMDLINE_BUF_SIZE - 1);
      r ← copy_into raw0 str n;
      r ← set_at r n 0;
      parse_loop (S (length r)) r (Cmdline r tbl 0)
  end.

Fixpoint get_loop (es : list cmdline_entry) (key : list Z) : outcome (option (list Z)) :=
  match es with
  | [] => Ok None
  | e :: es =>
      if negb (e_used e) then get_loop es key else
      r ← strcmp (e_key e) key;
      if r =? 0 then Ok (Some (e_value e)) else get_loop es key
  end.

Definition cmdline_get (key : list Z) (s : cmdline) : outcome (option (list Z)) :=
  get_loop (take (entry_count s) (table s)) key.

Definition cmdline_bool (key : list Z) (s : cmdline) : outcome bool :=
  r ← cmdline_get key s;
  match r with
  | None => Ok false
  | Some v =>
      v0 ← deref (v !! 0%nat);
      if v0 =? 48 then v1 ← deref (v !! 1%nat); Ok (negb (v1 =? 0)) else Ok true
  end.

(** ** The specification *)

(** The maximal runs of characters other than spaces. *)
Fixpoint words (cur t : list Z) : list (list Z) :=
  match t with
  | [] => match cur with [] => [] | _ => [cur] end
  | c :: t =>
      if is_space c then match cur with [] => words [] t | _ => cur :: words [] t end
      else words (cur ++ [c]) t
  end.

(** A word [k=v] is the pair (k, v); a word without '=' has the value "1". *)
Fixpoint split_eq (k w : list Z) : list Z * list Z :=
  match w with
  | [] => (k, [49])
  | c :: w => if c =? 61 then (k, w) else split_eq (k ++ [c]) w
  end.

Definition truncated (kv : list Z * list Z) : list Z * list Z :=
  (take (CMDLINE_MAX_KEY - 1) kv.1, take (CMDLINE_MAX_VALUE - 1) kv.2).

Definition nonempty_key (kv : list Z * list Z) : Prop := kv.1 ≠ [].

#[export] Instance nonempty_key_dec kv : Decision (nonempty_key kv).
Proof. unfold nonempty_key. apply _. Defined.

(** The pairs a command line defines, in order. *)
Definition pairs_of (t : list Z) : list (list Z * list Z) :=
  truncated <$> filter nonempty_key (split_eq [] <$> words [] t).

Definition cmdline_spec (t : list Z) : list (list Z * list Z) :=
  take CMDLINE_MAX_ENTRIES (pairs_of t).

(** The first value of a key. *)
Fixpoint assoc (k : list Z) (ps : list (list Z * list Z)) : option (list Z) :=
  match ps with
  | [] => None
  | (k', v) :: ps => if decide (k' = k) then Some v else assoc k ps
  end.

(** An entry holds a pair; the table holds the pairs stored so far. *)
Definition holds (e : cmdline_entry) (kv : list Z * list Z) : Prop :=
  e_used e = true ∧ cstring kv.1 (e_key e) ∧ cstring kv.2 (e_value e).

Record table_ok (s : cmdline) (ps : list (list Z * list Z)) : Prop := TableOk {
  to_len : length (table s) = CMDLINE_MAX_ENTRIES;
  to_count : entry_count s = length ps;
  to_max : (length ps ≤ CMDLINE_MAX_ENTRIES)%nat;
  to_holds : Forall2 holds (take (entry_count s) (table s)) ps;
  to_free : Forall (λ e, e = zero_entry) (drop (entry_count s) (table s))
}.

(** ** Storing a pair *)

Lemma field_spec dst src m :
  (m ≤ length src)%nat → (m < length dst)%nat →
  (a ← copy_into dst src m; set_at a m 0) = Ok (take m src ++ 0 :: drop (S m) dst).
Proof.
  intros H1 H2. unfold copy_into, set_at.
  rewrite (proj2 (Nat.leb_le m _)), (proj2 (Nat.leb_le m (length dst))) by lia.
  cbn [andb mbind outcome_bind]. rewrite length_app, length_take, length_drop.
  rewrite (proj2 (Nat.ltb_lt _ _)) by lia. f_equal.
  rewrite insert_app_r_alt by (rewrite length_take; lia). f_equal. rewrite length_take.
  replace (m - m `min` length src)%nat with 0%nat by lia.
  destruct (drop m dst) as [|x d] eqn:E.
  { apply (f_equal length) in E. rewrite length_drop in E. simpl in E. lia. }
  simpl. f_equal. apply (f_equal tail) in E. simpl in E. rewrite <- E.
  change (S m) with (1 + m)%nat. rewrite Nat.add_comm, <- drop_drop. by destruct (drop m dst).
Qed.

Lemma holds_field src m junk :
  Forall (λ c, c ≠ 0) (take m src) → cstring (take m src) (take m src ++ 0 :: junk).
Proof. intros F. split; [done|]. by exists junk. Qed.

Lemma store_pair_spec s ps k klen v vlen :
  table_ok s ps → (klen ≤ length k)%nat → (vlen ≤ length v)%nat →
  Forall (λ c, c ≠ 0) (take klen k) → Forall (λ c, c ≠ 0) (take vlen v) →
  ∃ s', store_pair k klen v vlen s = Ok s' ∧
    table_ok s' (take CMDLINE_MAX_ENTRIES
      (ps ++ (truncated <$> filter nonempty_key [(take klen k, take vlen v)]))).
Proof.
  intros T Hk Hv Fk Fv. pose proof T as [L C M H F]. unfold store_pair.
  destruct (Nat.leb_spec CMDLINE_MAX_ENTRIES (entry_count s)) as [Hm|Hm].
  { exists s. split; [done|]. rewrite take_app_le by lia. by rewrite take_ge by lia. }
  destruct (Nat.eqb_spec klen 0) as [->|Hz].
  { exists s. split; [done|]. rewrite filter_cons_False by (intros X; by apply X).
    simpl. rewrite app_nil_r. by rewrite take_ge by lia. }
  destruct (drop (entry_count s) (table s)) as [|e es] eqn:E.
  { apply (f_equal length) in E. rewrite length_drop in E. simpl in E. lia. }
  assert (table s !! entry_count s = Some e) as Ee.
  { rewrite <- (Nat.add_0_r (entry_count s)), <- lookup_drop, E. done. }
  rewrite Ee. cbn [mbind outcome_bind deref]. apply Forall_cons in F as [-> F].
  set (kl := if Nat.leb _ klen then _ else _). set (vl := if Nat.leb _ vlen then _ else _).
  assert (kl < CMDLINE_MAX_KEY ∧ kl ≤ klen ∧ take kl k = take 31 (take klen k))%nat
    as (Hkl & Hkl' & Ek).
  { subst kl. unfold CMDLINE_MAX_KEY. rewrite take_take.
    destruct (Nat.leb_spec 32 klen); split_and!; try lia; f_equal; lia. }
  assert (vl < CMDLINE_MAX_VALUE ∧ vl ≤ vlen ∧ take vl v = take 63 (take vlen v))%nat
    as (Hvl & Hvl' & Ev).
  { subst vl. unfold CMDLINE_MAX_VALUE. rewrite take_take.
    destruct (Nat.leb_spec 64 vlen); split_and!; try lia; f_equal; lia. }
  pose proof (field_spec (e_key zero_entry) k kl ltac:(lia)) as K.
  pose proof (field_spec (e_value zero_entry) v vl ltac:(lia)) as V. cbn [zero_entry e_key e_value] in *.
  rewrite length_replicate in K, V. specialize (K Hkl). specialize (V Hvl).
  apply bind_inv in K as (a & -> & K), V as (b & -> & V). cbn [mbind outcome_bind].
  rewrite K. cbn [mbind outcome_bind]. rewrite V. cbn [mbind outcome_bind].
  eexists. split; [done|]. rewrite filter_cons_True, filter_nil.
  2:{ unfold nonempty_key. simpl. intros X. apply (f_equal length) in X. rewrite length_take in X. simpl in X. lia. }
  rewrite (take_ge (ps ++ _)) by (rewrite length_app; simpl; lia).
  constructor; simpl.
  - by rewrite length_insert.
  - rewrite length_app. simpl. lia.
  - rewrite length_app. simpl. lia.
  - erewrite take_S_r; [|apply list_lookup_insert_eq; lia].
    rewrite take_insert_ge by lia. apply Forall2_app; [done|]. constructor; [|constructor].
    unfold holds, truncated. simpl. rewrite <- Ek, <- Ev.
    split_and!; [done|apply holds_field|apply holds_field].
    + rewrite Ek. by apply Forall_take.
    + rewrite Ev. by apply Forall_take.
  - rewrite drop_insert_lt by lia. rewrite <- Nat.add_1_r, <- drop_drop, E. simpl. by rewrite drop_0.
Qed.

(** ** Scanning *)

Abbreviation nonzero := (Forall (λ c : Z, c ≠ 0)).

(** [rest] is where a scan of characters satisfying [cond] stops. *)
Definition stops (cond : Z → bool) (rest : list Z) : Prop :=
  match rest with [] => True | c :: _ => cond c = false end.

Lemma scan_spec cond t junk :
  nonzero t →
  ∃ t1 t2, t = t1 ++ t2 ∧ scan cond (t ++ 0 :: junk) = Ok (length t1, t2 ++ 0 :: junk) ∧
    Forall (λ c, cond c = true) t1 ∧ stops cond t2.
Proof.
  induction 1 as [|c t Hc _ IH]; cbn [scan app].
  { by exists [], []. }
  rewrite (proj2 (Z.eqb_neq _ _)) by done. cbn [negb andb]. destruct (cond c) eqn:E.
  - destruct IH as (t1 & t2 & -> & -> & F & S). exists (c :: t1), t2. split_and!; [done|done| |done].
    by constructor.
  - by exists [], (c :: t).
Qed.

Lemma skip_spec t junk :
  nonzero t →
  ∃ t', skip_spaces (t ++ 0 :: junk) = Ok (t' ++ 0 :: junk) ∧ words [] t = words [] t' ∧
    stops is_space t' ∧ (length t' ≤ length t)%nat ∧ nonzero t'.
Proof.
  induction 1 as [|c t Hc F IH]; cbn [skip_spaces app words].
  { by exists []. }
  destruct (is_space c) eqn:E.
  - destruct IH as (t' & -> & Ew & S & L & F'). exists t'. split_and!; try done. simpl. lia.
  - exists (c :: t). split_and!; [done| |done|done|by constructor]. simpl. by rewrite E.
Qed.

Lemma words_word w : ∀ cur rest,
  Forall (λ c, is_space c = false) w → stops value_char rest → cur ++ w ≠ [] →
  words cur (w ++ rest) = (cur ++ w) :: words [] rest.
Proof.
  induction w as [|c w IH]; intros cur rest F S Hne; simpl.
  - rewrite app_nil_r in *. destruct cur as [|d cur]; [done|]. destruct rest as [|c rest]; [done|].
    simpl in *. unfold value_char in S. apply negb_false_iff in S. by rewrite S.
  - apply Forall_cons in F as [-> F]. rewrite IH; [by rewrite <- app_assoc|done|done|].
    by destruct cur.
Qed.

Lemma split_eq_key k : ∀ acc v,
  Forall (λ c, key_char c = true) k → split_eq acc (k ++ 61 :: v) = (acc ++ k, v).
Proof.
  induction k as [|c k IH]; intros acc v F; simpl; [by rewrite app_nil_r|].
  apply Forall_cons in F as [Hc F]. unfold key_char in Hc. apply andb_true_iff in Hc as [_ Hc].
  apply negb_true_iff in Hc. rewrite Hc, IH by done. by rewrite <- app_assoc.
Qed.

Lemma split_eq_flag k : ∀ acc, Forall (λ c, key_char c = true) k → split_eq acc k = (acc ++ k, [49]).
Proof.
  induction k as [|c k IH]; intros acc F; simpl; [by rewrite app_nil_r|].
  apply Forall_cons in F as [Hc F]. unfold key_char in Hc. apply andb_true_iff in Hc as [_ Hc].
  apply negb_true_iff in Hc. rewrite Hc, IH by done. by rewrite <- app_assoc.
Qed.

Lemma key_no_space k : Forall (λ c, key_char c = true) k → Forall (λ c, is_space c = false) k.
Proof. intros F. eapply Forall_impl; [exact F|]. intros c. unfold key_char. by destruct (is_space c). Qed.

Lemma value_no_space v : Forall (λ c, value_char c = true) v → Forall (λ c, is_space c = false) v.
Proof. intros F. eapply Forall_impl; [exact F|]. intros c. unfold value_char. by destruct (is_space c). Qed.

Lemma pairs_of_cons w rest :
  w ≠ [] → Forall (λ c, is_space c = false) w → stops value_char rest →
  pairs_of (w ++ rest) = (truncated <$> filter nonempty_key [split_eq [] w]) ++ pairs_of rest.
Proof.
  intros Hw F S. unfold pairs_of. rewrite (words_word w [] rest) by done. simpl.
  rewrite <- fmap_app. f_equal. rewrite !filter_cons, filter_nil. by case_decide.
Qed.

Lemma take_app_take {A} n (a b : list A) : take n (take n a ++ b) = take n (a ++ b).
Proof.
  destruct (decide (n ≤ length a)%nat).
  - rewrite !take_app_le; [by rewrite take_take, Nat.min_id|done|rewrite length_take; lia].
  - by rewrite (take_ge a) by lia.
Qed.

(** One round consumes one word. *)
Lemma parse_pair_spec t junk s ps :
  nonzero t → t ≠ [] → table_ok s ps →
  parse_pair (t ++ 0 :: junk) s = Ok None ∧ pairs_of t = [] ∨
  ∃ rest s' w, parse_pair (t ++ 0 :: junk) s = Ok (Some (rest ++ 0 :: junk, s')) ∧
    nonzero rest ∧ (length rest < length t)%nat ∧ pairs_of t = w ++ pairs_of rest ∧
    table_ok s' (take CMDLINE_MAX_ENTRIES (ps ++ w)).
Proof.
  intros F Hne T. unfold parse_pair.
  destruct (skip_spec t junk F) as (t' & -> & Ew & St & Lt & F'). cbn [mbind outcome_bind].
  unfold pairs_of at 1 2. rewrite Ew. destruct t' as [|c t']; [by left|]. right.
  cbn [app head deref mbind outcome_bind]. apply Forall_cons in F' as F2. destruct F2 as [Hc _].
  rewrite (proj2 (Z.eqb_neq _ _)) by done. rewrite app_comm_cons.
  destruct (scan_spec key_char (c :: t') junk F') as (k & t2 & E & -> & Fk & S2).
  cbn [mbind outcome_bind]. rewrite E in *. fold (pairs_of (k ++ t2)).
  apply Forall_app in F' as [Fk0 F2].
  assert (take (length k) ((k ++ t2) ++ 0 :: junk) = k) as Tk by (by rewrite <- app_assoc, take_app_length).
  destruct t2 as [|d t2].
  - cbn [app head deref mbind outcome_bind Z.eqb]. rewrite app_nil_r in *.
    destruct (store_pair_spec s ps (k ++ 0 :: junk) (length k) [49; 0] 1 T)
      as (s' & -> & T'); [rewrite length_app; lia|simpl; lia|by rewrite Tk|by repeat constructor|].
    cbn [mbind outcome_bind]. eexists [], s', _. split_and!; [done|done|destruct t; [done|simpl; lia]| |exact T'].
    rewrite Tk. pose proof (pairs_of_cons k []) as P. rewrite app_nil_r in P.
    rewrite P, (split_eq_flag k []); [done|done|by destruct k|by apply key_no_space|done].
  - cbn [app head deref mbind outcome_bind]. apply Forall_cons in F2 as [Hd F2].
    destruct (Z.eqb_spec d 61) as [->|Hd61].
    + cbn [tail]. destruct (scan_spec value_char t2 junk F2) as (v & t3 & -> & -> & Fv & S3).
      cbn [mbind outcome_bind]. apply Forall_app in F2 as [Fv0 F3].
      assert (take (length v) ((v ++ t3) ++ 0 :: junk) = v) as Tv by (by rewrite <- app_assoc, take_app_length).
      destruct (store_pair_spec s ps ((k ++ 61 :: v ++ t3) ++ 0 :: junk) (length k)
        ((v ++ t3) ++ 0 :: junk) (length v) T) as (s' & -> & T').
      { rewrite !length_app. lia. }
      { rewrite !length_app. lia. }
      { by rewrite Tk. }
      { by rewrite Tv. }
      cbn [mbind outcome_bind]. eexists t3, s', _. split_and!; [done|done| | |exact T'].
      * rewrite length_app in Lt. simpl in Lt. rewrite length_app in Lt. lia.
      * rewrite Tk, Tv. replace (k ++ 61 :: v ++ t3) with ((k ++ 61 :: v) ++ t3) by (by rewrite <- app_assoc).
        rewrite pairs_of_cons, split_eq_key; [done|done|by destruct k| |done].
        apply Forall_app. split; [by apply key_no_space|]. constructor; [done|by apply value_no_space].
    + destruct (store_pair_spec s ps ((k ++ d :: t2) ++ 0 :: junk) (length k) [49; 0] 1 T)
        as (s' & -> & T'); [rewrite !length_app; lia|simpl; lia|by rewrite Tk|by repeat constructor|].
      cbn [mbind outcome_bind]. simpl in S2. unfold key_char in S2.
      rewrite (proj2 (Z.eqb_neq d 61)), andb_true_r in S2 by done.
      assert (k ≠ []) as Hk.
      { intros ->. simpl in E. injection E as -> _. simpl in St. unfold key_char in S2. by rewrite St in S2. }
      eexists (d :: t2), s', _. split_and!; [done|by constructor| | |exact T'].
      * rewrite length_app in Lt. destruct k; [done|]. simpl in *. lia.
      * rewrite Tk. rewrite pairs_of_cons, split_eq_flag; [done|done|done|by apply key_no_space|done].
Qed.

Lemma parse_loop_spec fuel : ∀ t junk s ps,
  nonzero t → table_ok s ps → (length t < fuel)%nat →
  ∃ s', parse_loop fuel (t ++ 0 :: junk) s = Ok s' ∧
    table_ok s' (take CMDLINE_MAX_ENTRIES (ps ++ pairs_of t)).
Proof.
  induction fuel as [|fuel IH]; intros t junk s ps F T Hf; [lia|]. cbn [parse_loop].
  assert (take CMDLINE_MAX_ENTRIES ps = ps) as Ep by (apply take_ge, T).
  destruct t as [|c t].
  { exists s. simpl. rewrite app_nil_r, Ep. done. }
  cbn [app head deref mbind outcome_bind]. apply Forall_cons in F as F2. destruct F2 as [Hc _].
  rewrite (proj2 (Z.eqb_neq _ _)) by done. rewrite app_comm_cons.
  destruct (parse_pair_spec (c :: t) junk s ps) as [[-> E]|(rest & s1 & w & -> & Fr & Lr & E & T1)];
    [done|done|done| |]; cbn [mbind outcome_bind].
  - exists s. rewrite E, app_nil_r, Ep. done.
  - destruct (IH rest junk s1 _ Fr T1) as (s' & -> & T'); [simpl in *; lia|].
    exists s'. split; [done|]. by rewrite E, app_assoc, <- take_app_take.
Qed.

Lemma table_ok_empty r : table_ok (Cmdline r (replicate CMDLINE_MAX_ENTRIES zero_entry) 0) [].
Proof.
  constructor; [done|done|simpl; lia|constructor|]. simpl. by repeat constructor.
Qed.

Lemma parse_spec t str raw0 :
  cstring t str → length raw0 = CMDLINE_BUF_SIZE →
  ∃ s, cmdline_parse (Some str) raw0 = Ok s ∧
    table_ok s (cmdline_spec (take (CMDLINE_BUF_SIZE - 1) t)).
Proof.
  intros C L. pose proof C as [F (junk & E)]. unfold cmdline_parse.
  rewrite (strnlen_spec t) by done. cbn [mbind outcome_bind].
  set (n := (length t `min` _)%nat). assert (n ≤ length t ∧ n < CMDLINE_BUF_SIZE)%nat as [H1 H2].
  { subst n. unfold CMDLINE_BUF_SIZE. lia. }
  pose proof (field_spec raw0 str n) as P. apply bind_inv in P as (r & -> & P).
  2:{ rewrite E, length_app. simpl. lia. }
  2:{ lia. }
  cbn [mbind outcome_bind]. rewrite P. cbn [mbind outcome_bind].
  assert (take n str = take (CMDLINE_BUF_SIZE - 1) t) as ->.
  { rewrite E, take_app_le by lia. subst n. rewrite (Nat.min_comm (length t)), <- take_take.
    by rewrite (take_ge _ (length t)) by done. }
  edestruct (parse_loop_spec (S (length (take (CMDLINE_BUF_SIZE - 1) t ++ 0 :: drop (S n) raw0))))
    as (s & Es & T); [by apply Forall_take|apply table_ok_empty| |].
  2:{ exists s. split; [exact Es|exact T]. }
  rewrite length_app. lia.
Qed.

Lemma get_loop_spec k key es ps :
  cstring k key → Forall2 holds es ps →
  match assoc k ps with
  | None => get_loop es key = Ok None
  | Some v => ∃ a, get_loop es key = Ok (Some a) ∧ cstring v a
  end.
Proof.
  intros Ck. induction 1 as [|e [k' v] es ps (U & Hk & Hv) _ IH]; [done|]. simpl.
  rewrite U. cbn [negb]. simpl in *. destruct (strcmp_spec k' (e_key e) k key Hk Ck) as (r & -> & Hr).
  cbn [mbind outcome_bind]. case_decide as D.
  - rewrite (proj2 Hr D). simpl. eauto.
  - rewrite (proj2 (Z.eqb_neq r 0)); [done|]. intros X. by apply D, Hr.
Qed.

(** ** Properties *)

(** After [cmdline_parse] of any NUL-terminated string, which never writes
    outside its fixed buffers, [cmdline_get] returns for every key the value
    of its first [key=value] word among the first 1023 bytes and 32 pairs, "1"
    for a bare word, truncated to 63 bytes, and NULL for any other key. *)
Theorem cmdline_correct t str raw0 :
  cstring t str → length raw0 = CMDLINE_BUF_SIZE →
  ∃ s, cmdline_parse (Some str) raw0 = Ok s ∧
    ∀ k key, cstring k key →
      match assoc k (cmdline_spec (take (CMDLINE_BUF_SIZE - 1) t)) with
      | None => cmdline_get key s = Ok None
      | Some v => ∃ a, cmdline_get key s = Ok (Some a) ∧ cstring v a
      end.
Proof.
  intros C L. destruct (parse_spec t str raw0 C L) as (s & E & T). exists s. split; [done|].
  intros k key Ck. apply get_loop_spec; [done|]. apply T.
Qed.

(** "a=1 b" *)
Definition demo_line : list Z := [97; 61; 49; 32; 98].

Lemma demo_cstring t : nonzero t → cstring t (t ++ [0]).
Proof. intros F. split; [done|]. by exists []. Qed.

Lemma cmdline_correct_witness :
  ∃ s, cmdline_parse (Some (demo_line ++ [0])) (replicate 1024 0) = Ok s ∧
    ∃ a, cmdline_get [98; 0] s = Ok (Some a) ∧ cstring [49] a.
Proof.
  destruct (cmdline_correct demo_line (demo_line ++ [0]) (replicate 1024 0)) as (s & E & G).
  - apply demo_cstring. repeat constructor; discriminate.
  - reflexivity.
  - exists s. split; [exact E|]. apply (G [98] [98; 0]). apply (demo_cstring [98]).
    repeat constructor; discriminate.
Defined.
