(* ===== verification/Printk.v ===== *)
(** * kernel/lib/printk.c: vsnprintf, the log ring and its backends

    A [char *] is the list of bytes from the pointer to the end of its object,
    as in [CString].  The variable arguments are a list of integers and
    strings; fetching one of the wrong kind, or one too many, is a [Fault].
    Writes of the log backends are recorded in a trace. *)

From S2P Require Import Prelude CString Cmdline.
From stdpp Require Import strings.
#[local] Open Scope Z_scope.

(** The bytes of a literal, without its NUL. *)
Definition str (s : string) : list Z :=
  (λ a, Z.of_nat (Ascii.nat_of_ascii a)) <$> String.list_ascii_of_string s.

(** ** The bounded output buffer *)

Record fmt_buf := FmtBuf { fb_buf : list Z; fb_cap : nat; fb_len : nat }.

Definition fb_putc (c : Z) (fb : fmt_buf) : outcome fmt_buf :=
  b ← (if Nat.ltb (fb_len fb + 1) (fb_cap fb) then set_at (fb_buf fb) (fb_len fb) c
       else Ok (fb_buf fb));
  Ok (FmtBuf b (fb_cap fb) (fb_len fb + 1)).

(** [while ( *s) fb_putc(fb, *s++)] *)
Fixpoint fb_puts (s : list Z) (fb : fmt_buf) : outcome fmt_buf :=
  match s with
  | [] => Fault
  | c :: s => if c =? 0 then Ok fb else fb ← fb_putc c fb; fb_puts s fb
  end.

Fixpoint fb_repeat (n : nat) (c : Z) (fb : fmt_buf) : outcome fmt_buf :=
  match n with O => Ok fb | S n => fb ← fb_putc c fb; fb_repeat n c fb end.

(** [while (n-- > 0) fb_putc(fb, c)] *)
Definition fb_pad (c n : Z) (fb : fmt_buf) : outcome fmt_buf := fb_repeat (Z.to_nat n) c fb.

(** [fb_putc] of every element of [tmp], as [while (n--)] prints it. *)
Fixpoint fb_chars (s : list Z) (fb : fmt_buf) : outcome fmt_buf :=
  match s with [] => Ok fb | c :: s => fb ← fb_putc c fb; fb_chars s fb end.

(** ** Numbers *)

Definition lower_digits : list Z := str "0123456789abcdef".
Definition upper_digits : list Z := str "0123456789ABCDEF".
Definition dec_digits : list Z := str "0123456789".

(** [while (v && n < sizeof(tmp)) tmp[n++] = digits[v % base], v /= base]
    with [room] slots left: the least significant digit first. *)
Fixpoint digit_loop (room : nat) (v base : Z) (digits : list Z) : list Z :=
  match room with
  | O => []
  | S room =>
      if v =? 0 then []
      else nth (Z.to_nat (v mod base)) digits 0 :: digit_loop room (v / base) base digits
  end.

Definition uint_digits (v base : Z) (digits : list Z) : list Z :=
  if v =? 0 then [48] else digit_loop 32 v base digits.

Definition fmt_uint (v base : Z) (digits : list Z) (width : Z) (zero_pad : bool) (fb : fmt_buf)
    : outcome fmt_buf :=
  let tmp := uint_digits v base digits in
  fb ← fb_pad (if zero_pad then 48 else 32) (width - Z.of_nat (length tmp)) fb;
  fb_chars (rev tmp) fb.

Definition fmt_int (v width : Z) (zero_pad : bool) (fb : fmt_buf) : outcome fmt_buf :=
  if v <? 0 then
    let u := add64 (- (v + 1)) 1 in
    fb ← fb_putc 45 fb;
    let width := if width >? 0 then width - 1 else width in
    fmt_uint u 10 dec_digits width zero_pad fb
  else fmt_uint v 10 dec_digits width zero_pad fb.

(** ** Format directives *)

Inductive va := VInt (z : Z) | VStr (s : option (list Z)).

(** [va_arg] of a signed and of an unsigned integer type. *)
Definition va_signed (longness : nat) (ap : list va) : outcome (Z * list va) :=
  match ap with
  | VInt z :: ap =>
      Ok (if Nat.leb 1 longness then to_int64 (u64 z) else to_int32 (u32 z), ap)
  | _ => Fault
  end.

Definition va_unsigned (longness : nat) (ap : list va) : outcome (Z * list va) :=
  match ap with
  | VInt z :: ap => Ok (if Nat.leb 1 longness then u64 z else u32 z, ap)
  | _ => Fault
  end.

Definition va_string (ap : list va) : outcome (option (list Z) * list va) :=
  match ap with VStr s :: ap => Ok (s, ap) | _ => Fault end.

(** [while ( *fmt >= '0' && *fmt <= '9')]; a width past [INT_MAX] is a signed
    overflow. *)
Fixpoint scan_width (w : Z) (fmt : list Z) : outcome (Z * list Z) :=
  match fmt with
  | [] => Fault
  | c :: fmt' =>
      if (48 <=? c) && (c <=? 57) then
        let w := w * 10 + (c - 48) in
        if w <? 2 ^ 31 then scan_width w fmt' else Fault
      else Ok (w, fmt)
  end.

Fixpoint scan_long (n : nat) (fmt : list Z) : outcome (nat * list Z) :=
  match fmt with
  | [] => Fault
  | c :: fmt' => if c =? 108 then scan_long (S n) fmt' else Ok (n, fmt)
  end.

Record directive := Directive { d_zero : bool; d_width : Z; d_long : nat; d_conv : Z }.

(** What follows a '%', with the format string after the conversion. *)
Definition scan_directive (fmt : list Z) : outcome (directive * list Z) :=
  c ← deref (head fmt);
  let zero_pad := c =? 48 in
  let fmt := if zero_pad then tail fmt else fmt in
  '(width, fmt) ← scan_width 0 fmt;
  '(longness, fmt) ← scan_long 0 fmt;
  c ← deref (head fmt);
  Ok (Directive zero_pad width longness c, tail fmt).

(** The [switch]. *)
Definition convert (d : directive) (ap : list va) (fb : fmt_buf) : outcome (fmt_buf * list va) :=
  let c := d_conv d in
  if (c =? 100) || (c =? 105) then (* d, i *)
    '(v, ap) ← va_signed (d_long d) ap;
    fb ← fmt_int v (d_width d) (d_zero d) fb; Ok (fb, ap)
  else if c =? 117 then (* u *)
    '(v, ap) ← va_unsigned (d_long d) ap;
    fb ← fmt_uint v 10 dec_digits (d_width d) (d_zero d) fb; Ok (fb, ap)
  else if (c =? 120) || (c =? 88) then (* x, X *)
    let digits := if c =? 88 then upper_digits else lower_digits in
    '(v, ap) ← va_unsigned (d_long d) ap;
    fb ← fmt_uint v 16 digits (d_width d) (d_zero d) fb; Ok (fb, ap)
  else if c =? 112 then (* p *)
    '(v, ap) ← va_unsigned 1 ap;
    fb ← fb_puts (str "0x" ++ [0]) fb;
    fb ← fmt_uint v 16 lower_digits 16 true fb; Ok (fb, ap)
  else if c =? 115 then (* s *)
    '(s, ap) ← va_string ap;
    let s := default (str "(null)" ++ [0]) s in
    slen ← strlen s;
    fb ← (if negb (d_zero d) then fb_pad 32 (d_width d - Z.of_nat slen) fb else Ok fb);
    fb ← fb_puts s fb; Ok (fb, ap)
  else if c =? 99 then (* c *)
    '(v, ap) ← va_signed 0 ap;
    fb ← fb_putc (v mod 256) fb; Ok (fb, ap)
  else if c =? 37 then fb ← fb_putc 37 fb; Ok (fb, ap)
  else fb ← fb_putc 37 fb; fb ← fb_putc c fb; Ok (fb, ap).

Fixpoint format_loop (fuel : nat) (fmt : list Z) (ap : list va) (fb : fmt_buf) : outcome fmt_buf :=
  match fuel with
  | O => NoFuel
  | S fuel =>
      match fmt with
      | [] => Fault
      | c :: fmt =>
          if c =? 0 then Ok fb
          else if negb (c =? 37) then fb ← fb_putc c fb; format_loop fuel fmt ap fb
          else
            '(d, fmt) ← scan_directive fmt;
            '(fb, ap) ← convert d ap fb;
            format_loop fuel fmt ap fb
      end
  end.

(** The result and the buffer afterwards. *)
Definition vsnprintf (buf : list Z) (size : nat) (fmt : list Z) (ap : list va)
    : outcome (Z * list Z) :=
  fb ← format_loop (S (length fmt)) fmt ap (FmtBuf buf size 0);
  b ← (if Nat.ltb 0 (fb_cap fb) then
         let cut := if Nat.ltb (fb_len fb) (fb_cap fb) then fb_len fb else (fb_cap fb - 1)%nat in
         set_at (fb_buf fb) cut 0
       else Ok (fb_buf fb));
  Ok (to_int32 (u32 (Z.of_nat (fb_len fb))), b).

Definition snprintf (buf : list Z) (size : nat) (fmt : list Z) (ap : list va)
    : outcome (Z * list Z) := vsnprintf buf size fmt ap.

(** ** The ring and the backends *)

Definition KLOG_RING_SIZE : Z := 64 * 1024.
Definition KLOG_BACKEND_ANSI : Z := 1.
Definition KLOG_BUILD_LEVEL : Z := 4.

Record klog_backend := Backend { be_id : nat; be_flags : Z }.

Record klog := Klog {
  ring_buf : gmap Z Z;
  ring_head : Z;
  ring_count : Z;
  backends : list klog_backend;
  sent : list (nat * list Z)
}.

(** An element of the static, zero-initialised array. *)
Definition ring_at (k : klog) (i : Z) : Z := default 0 (ring_buf k !! i).

Definition ring_put (c : Z) (k : klog) : klog :=
  Klog (<[ring_head k := c]> (ring_buf k)) ((ring_head k + 1) mod KLOG_RING_SIZE)
       (if ring_count k <? KLOG_RING_SIZE then ring_count k + 1 else ring_count k)
       (backends k) (sent k).

Definition ring_write (s : list Z) (n : nat) (k : klog) : outcome klog :=
  if Nat.leb n (length s) then Ok (foldl (λ k c, ring_put c k) k (take n s)) else Fault.

Definition klog_init (k : klog) : klog := Klog (ring_buf k) 0 0 [] (sent k).

Definition klog_register (be : klog_backend) (k : klog) : klog :=
  Klog (ring_buf k) (ring_head k) (ring_count k) (be :: backends k) (sent k).

(** The bytes of the ring, oldest first: index [(start + i) % KLOG_RING_SIZE]. *)
Definition ring_start (k : klog) : Z :=
  (ring_head k + KLOG_RING_SIZE - ring_count k) mod KLOG_RING_SIZE.

Definition ring_byte (k : klog) (i : Z) : Z := ring_at k ((ring_start k + i) mod KLOG_RING_SIZE).

(** [for (i = 0; i < ring_count; i++)] counting newlines. *)
Fixpoint count_lines (fuel : nat) (i acc : Z) (k : klog) : outcome Z :=
  match fuel with
  | O => NoFuel
  | S fuel =>
      if i <? ring_count k
      then count_lines fuel (i + 1) (if ring_byte k i =? 10 then acc + 1 else acc) k
      else Ok acc
  end.

Fixpoint skip_lines (fuel : nat) (i seen skip : Z) (k : klog) : outcome Z :=
  match fuel with
  | O => NoFuel
  | S fuel =>
      if (i <? ring_count k) && (seen <? skip)
      then skip_lines fuel (i + 1) (if ring_byte k i =? 10 then seen + 1 else seen) skip k
      else Ok i
  end.

(** The emitting loop: [line] is the prefix of the 256-byte buffer in use; the
    result is the sequence of callbacks. *)
Fixpoint emit_lines (fuel : nat) (i : Z) (line : list Z) (k : klog) : outcome (list (list Z)) :=
  match fuel with
  | O => NoFuel
  | S fuel =>
      if i <? ring_count k then
        let ch := ring_byte k i in
        let line := if Nat.ltb (length line) 255 then line ++ [ch] else line in
        if ch =? 10 then rest ← emit_lines fuel (i + 1) [] k; Ok (line :: rest)
        else emit_lines fuel (i + 1) line k
      else if Nat.ltb 0 (length line) then Ok [line] else Ok []
  end.

Definition drain_fuel (k : klog) : nat := S (Z.to_nat (ring_count k)).

Definition klog_drain_tail (n : Z) (k : klog) : outcome (list (list Z)) :=
  if (ring_count k =? 0) || (n =? 0) then Ok [] else
  total_lines ← count_lines (drain_fuel k) 0 0 k;
  let skip := if total_lines >? n then total_lines - n else 0 in
  i ← skip_lines (drain_fuel k) 0 0 skip k;
  emit_lines (drain_fuel k) i [] k.

Definition level_tag (lvl : Z) : list Z :=
  if lvl =? 0 then str "PANIC" else if lvl =? 1 then str "ERROR" else
  if lvl =? 2 then str "WARN " else if lvl =? 3 then str "INFO " else
  if lvl =? 4 then str "DEBUG" else str "?????".

Definition ansi_open (lvl : Z) : option (list Z) :=
  if (lvl =? 0) || (lvl =? 1) then Some (27 :: str "[31m")
  else if lvl =? 2 then Some (27 :: str "[33m") else None.

Definition ansi_close (lvl : Z) : option (list Z) :=
  if (lvl =? 0) || (lvl =? 1) || (lvl =? 2) then Some (27 :: str "[0m") else None.

(** The calls of one backend's [write]. *)
Definition backend_calls (lvl : Z) (s : list Z) (be : klog_backend) : list (nat * list Z) :=
  match ansi_open lvl with
  | Some o =>
      if negb (Z.land (be_flags be) KLOG_BACKEND_ANSI =? 0)
      then [(be_id be, o); (be_id be, s); (be_id be, default [] (ansi_close lvl))]
      else [(be_id be, s)]
  | None => [(be_id be, s)]
  end.

Definition backends_write (lvl : Z) (s : list Z) (n : nat) (k : klog) : outcome klog :=
  if Nat.leb n (length s) then
    Ok (Klog (ring_buf k) (ring_head k) (ring_count k) (backends k)
          (sent k ++ concat (backend_calls lvl (take n s) <$> backends k)))
  else Fault.

(** [ring_write(s, n); backends_write(level, s, n);] *)
Definition log_bytes (lvl : Z) (s : list Z) (n : nat) (k : klog) : outcome klog :=
  k ← ring_write s n k; backends_write lvl s n k.

Definition klog_panic_write (buf : list Z) (len : nat) (k : klog) : outcome klog :=
  if Nat.leb len (length buf) then
    Ok (Klog (ring_buf k) (ring_head k) (ring_count k) (backends k)
          (sent k ++ ((λ be, (be_id be, take len buf)) <$> backends k)))
  else Fault.

Definition klog_raw_write (lvl : Z) (buf : list Z) (len : nat) (k : klog) : outcome klog :=
  log_bytes lvl buf len k.

(** The loop of [klog_user_write] at index [i]. *)
Fixpoint user_loop (fuel : nat) (lvl : Z) (prefix : list Z) (plen : nat) (buf : list Z)
    (len i start : nat) (k : klog) : outcome (nat * klog) :=
  match fuel with
  | O => NoFuel
  | S fuel =>
      if negb (Nat.ltb i len) then Ok (start, k) else
      c ← deref (buf !! i);
      if negb (c =? 10) then user_loop fuel lvl prefix plen buf len (S i) start k else
      k ← log_bytes lvl (drop start buf) (i - start + 1) k;
      let start := S i in
      k ← (if Nat.ltb start len then log_bytes lvl prefix plen k else Ok k);
      user_loop fuel lvl prefix plen buf len (S i) start k
  end.

(** [prefix0] is the uninitialised stack buffer. *)
Definition klog_user_write (lvl pid : Z) (buf : list Z) (len : nat) (prefix0 : list Z) (k : klog)
    : outcome klog :=
  if Nat.eqb len 0 then Ok k else
  '(plen, prefix) ← snprintf prefix0 32 (str "user[pid=%d]: " ++ [0]) [VInt pid];
  let plen := Z.to_nat (if plen <? 0 then 0 else plen) in
  k ← log_bytes lvl prefix plen k;
  '(start, k) ← user_loop (S len) lvl prefix plen buf len 0 0 k;
  if Nat.ltb start len then log_bytes lvl (drop start buf) (len - start) k else Ok k.

(** [us] is the result of [cpu_us_since_boot()], [line0] the uninitialised
    line buffer of 1024 bytes. *)
Definition vprintk (level : Z) (fmt : list Z) (ap : list va) (us : Z) (line0 : list Z) (k : klog)
    : outcome klog :=
  if level >? KLOG_BUILD_LEVEL then Ok k else
  let s := us / 1000000 in
  let u := us mod 1000000 in
  '(hlen, line) ← snprintf line0 1024 (str "[%5lu.%06lu] %s " ++ [0])
                    [VInt s; VInt u; VStr (Some (level_tag level ++ [0]))];
  let h := Z.to_nat hlen in
  '(_, rest) ← vsnprintf (drop h line) (1024 - h) fmt ap;
  let line := take h line ++ rest in
  total ← strnlen line 1024;
  last ← (if Nat.eqb total 0 then Ok 0 else deref (line !! (total - 1)%nat));
  '(line, total) ←
    (if Nat.eqb total 0 || negb (last =? 10) then
       let total := if Nat.leb 1023 total then 1022%nat else total in
       line ← set_at line total 10;
       line ← set_at line (S total) 0;
       Ok (line, S total)
     else Ok (line, total));
  log_bytes level line total k.

(** [sanitize] of kernel/syscall/sys_write.c, applied to user bytes first. *)
Definition sanitize_byte (c : Z) : Z :=
  if (c =? 10) || (c =? 9) then c else if (c <? 32) || (c =? 127) then 46 else c.

Definition sanitize (buf : list Z) (len : nat) : list Z :=
  (sanitize_byte <$> take len buf) ++ drop len buf.
