(* ===== verification/PrintkSpec.v ===== *)
(** * What printk.c guarantees: bounded formatting, the log ring, user lines *)

From S2P Require Import Prelude CString Cmdline Printk.
From stdpp Require Import strings.
#[local] Open Scope Z_scope.

(** ** The text a format denotes, without a buffer *)

Definition pad_text (c n : Z) : list Z := replicate (Z.to_nat n) c.

Definition uint_text (v base : Z) (digits : list Z) (width : Z) (zero_pad : bool) : list Z :=
  let ds := uint_digits v base digits in
  pad_text (if zero_pad then 48 else 32) (width - Z.of_nat (length ds)) ++ rev ds.

Definition int_text (v width : Z) (zero_pad : bool) : list Z :=
  if v <? 0 then
    45 :: uint_text (add64 (- (v + 1)) 1) 10 dec_digits
            (if width >? 0 then width - 1 else width) zero_pad
  else uint_text v 10 dec_digits width zero_pad.

(** The characters of an object up to its NUL. *)
Fixpoint string_text (s : list Z) : outcome (list Z) :=
  match s with
  | [] => Fault
  | c :: s => if c =? 0 then Ok [] else t ← string_text s; Ok (c :: t)
  end.

Definition convert_text (d : directive) (ap : list va) : outcome (list Z * list va) :=
  let c := d_conv d in
  if (c =? 100) || (c =? 105) then
    '(v, ap) ← va_signed (d_long d) ap; Ok (int_text v (d_width d) (d_zero d), ap)
  else if c =? 117 then
    '(v, ap) ← va_unsigned (d_long d) ap; Ok (uint_text v 10 dec_digits (d_width d) (d_zero d), ap)
  else if (c =? 120) || (c =? 88) then
    '(v, ap) ← va_unsigned (d_long d) ap;
    Ok (uint_text v 16 (if c =? 88 then upper_digits else lower_digits) (d_width d) (d_zero d), ap)
  else if c =? 112 then
    '(v, ap) ← va_unsigned 1 ap; Ok (str "0x" ++ uint_text v 16 lower_digits 16 true, ap)
  else if c =? 115 then
    '(s, ap) ← va_string ap;
    t ← string_text (default (str "(null)" ++ [0]) s);
    Ok ((if negb (d_zero d) then pad_text 32 (d_width d - Z.of_nat (length t)) else []) ++ t, ap)
  else if c =? 99 then '(v, ap) ← va_signed 0 ap; Ok ([v mod 256], ap)
  else if c =? 37 then Ok ([37], ap)
  else Ok ([37; c], ap).

Fixpoint format_text (fuel : nat) (fmt : list Z) (ap : list va) : outcome (list Z) :=
  match fuel with
  | O => NoFuel
  | S fuel =>
      match fmt with
      | [] => Fault
      | c :: fmt =>
          if c =? 0 then Ok []
          else if negb (c =? 37) then t ← format_text fuel fmt ap; Ok (c :: t)
          else
            '(d, fmt) ← scan_directive fmt;
            '(t1, ap) ← convert_text d ap;
            t2 ← format_text fuel fmt ap; Ok (t1 ++ t2)
      end
  end.

Definition text_of (fmt : list Z) (ap : list va) : outcome (list Z) :=
  format_text (S (length fmt)) fmt ap.

(** ** The bounded buffer holds a prefix of the text *)

Section Buffer.
Variables (buf0 : list Z) (cap : nat).
Hypothesis cap_ok : (cap ≤ length buf0)%nat.

(** The buffer after [text] was written. *)
Definition fb_of (text : list Z) : fmt_buf :=
  FmtBuf (take (cap - 1) text ++ drop (min (length text) (cap - 1)) buf0) cap (length text).

Lemma putc_spec c text : fb_putc c (fb_of text) = Ok (fb_of (text ++ [c])).
Proof.
  unfold fb_putc, fb_of. cbn [fb_buf fb_cap fb_len]. rewrite length_app. cbn [length].
  destruct (Nat.ltb_spec (length text + 1) cap).
  - rewrite (take_ge text), (take_ge (text ++ [c])) by (rewrite ?length_app; simpl; lia).
    unfold set_at. rewrite length_app, length_drop, (proj2 (Nat.ltb_lt _ _)) by lia.
    cbn [mbind outcome_bind]. do 2 f_equal.
    rewrite insert_app_r_alt by lia. replace (length text - length text)%nat with 0%nat by lia.
    rewrite !Nat.min_l by lia. rewrite <- app_assoc. f_equal.
    destruct (drop (length text) buf0) as [|x d] eqn:E.
    { apply (f_equal length) in E. rewrite length_drop in E. simpl in E. lia. }
    simpl. f_equal. rewrite <- drop_drop, E. done.
  - cbn [mbind outcome_bind]. do 2 f_equal. rewrite take_app_le by lia. f_equal. f_equal. lia.
Qed.

Lemma chars_spec s : ∀ text, fb_chars s (fb_of text) = Ok (fb_of (text ++ s)).
Proof.
  induction s as [|c s IH]; intros text; cbn [fb_chars]; [by rewrite app_nil_r|].
  rewrite putc_spec. cbn [mbind outcome_bind]. by rewrite IH, <- app_assoc.
Qed.

Lemma pad_spec c n text : fb_pad c n (fb_of text) = Ok (fb_of (text ++ pad_text c n)).
Proof.
  unfold fb_pad, pad_text. revert text. induction (Z.to_nat n) as [|m IH]; intros text;
    cbn [fb_repeat replicate]; [by rewrite app_nil_r|].
  rewrite putc_spec. cbn [mbind outcome_bind]. by rewrite IH, <- app_assoc.
Qed.

Lemma puts_spec s : ∀ text, fb_puts s (fb_of text) = (t ← string_text s; Ok (fb_of (text ++ t))).
Proof.
  induction s as [|c s IH]; intros text; cbn [fb_puts string_text]; [done|].
  destruct (c =? 0); cbn [mbind outcome_bind]; [by rewrite app_nil_r|].
  rewrite putc_spec. cbn [mbind outcome_bind]. rewrite IH.
  destruct (string_text s); cbn [mbind outcome_bind]; try done. by rewrite <- app_assoc.
Qed.

Lemma strlen_text s : strlen s = (t ← string_text s; Ok (length t)).
Proof.
  induction s as [|c s IH]; cbn [strlen string_text]; [done|]. destruct (c =? 0); [done|].
  rewrite IH. by destruct (string_text s).
Qed.

Lemma fmt_uint_spec v base digits w z text :
  fmt_uint v base digits w z (fb_of text) = Ok (fb_of (text ++ uint_text v base digits w z)).
Proof.
  unfold fmt_uint, uint_text. rewrite pad_spec. cbn [mbind outcome_bind].
  by rewrite chars_spec, <- app_assoc.
Qed.

Lemma fmt_int_spec v w z text :
  fmt_int v w z (fb_of text) = Ok (fb_of (text ++ int_text v w z)).
Proof.
  unfold fmt_int, int_text. destruct (v <? 0); [|apply fmt_uint_spec].
  rewrite putc_spec. cbn [mbind outcome_bind]. by rewrite fmt_uint_spec, <- app_assoc.
Qed.

Lemma convert_spec d ap text :
  convert d ap (fb_of text) = ('(t, ap) ← convert_text d ap; Ok (fb_of (text ++ t), ap)).
Proof.
  unfold convert, convert_text.
  destruct (_ || (d_conv d =? 105)).
  { destruct (va_signed _ ap) as [[v ap']| | |]; try done. cbn [mbind outcome_bind].
    rewrite fmt_int_spec. done. }
  destruct (d_conv d =? 117).
  { destruct (va_unsigned _ ap) as [[v ap']| | |]; try done. cbn [mbind outcome_bind].
    rewrite fmt_uint_spec. done. }
  destruct (_ || (d_conv d =? 88)).
  { destruct (va_unsigned _ ap) as [[v ap']| | |]; try done. cbn [mbind outcome_bind].
    rewrite fmt_uint_spec. done. }
  destruct (d_conv d =? 112).
  { destruct (va_unsigned _ ap) as [[v ap']| | |]; try done. cbn [mbind outcome_bind].
    rewrite puts_spec. cbn [mbind outcome_bind]. change (string_text _) with (Ok (str "0x")).
    cbn [mbind outcome_bind]. rewrite fmt_uint_spec. cbn [mbind outcome_bind]. by rewrite <- app_assoc. }
  destruct (d_conv d =? 115).
  { destruct (va_string ap) as [[s ap']| | |]; try done. cbn [mbind outcome_bind].
    rewrite strlen_text. destruct (string_text _) as [t| | |] eqn:E; try done. cbn [mbind outcome_bind].
    destruct (d_zero d); cbn [negb mbind outcome_bind]; rewrite ?pad_spec; cbn [mbind outcome_bind];
      rewrite puts_spec, E; cbn [mbind outcome_bind]; [done|]. by rewrite <- app_assoc. }
  destruct (d_conv d =? 99).
  { destruct (va_signed _ ap) as [[v ap']| | |]; try done. cbn [mbind outcome_bind].
    by rewrite putc_spec. }
  destruct (d_conv d =? 37); rewrite putc_spec; cbn [mbind outcome_bind]; [done|].
  rewrite putc_spec. cbn [mbind outcome_bind]. by rewrite <- app_assoc.
Qed.

Lemma format_spec fuel : ∀ fmt ap text,
  format_loop fuel fmt ap (fb_of text) = (t ← format_text fuel fmt ap; Ok (fb_of (text ++ t))).
Proof.
  induction fuel as [|fuel IH]; intros fmt ap text; [done|]. cbn [format_loop format_text].
  destruct fmt as [|c fmt]; [done|]. destruct (c =? 0); cbn [mbind outcome_bind].
  { by rewrite app_nil_r. }
  destruct (c =? 37); cbn [negb].
  - destruct (scan_directive fmt) as [[d fmt']| | |]; try done. cbn [mbind outcome_bind].
    rewrite convert_spec. destruct (convert_text d ap) as [[t1 ap']| | |]; try done.
    cbn [mbind outcome_bind]. rewrite IH.
    destruct (format_text fuel fmt' ap') as [t2| | |]; try done. cbn [mbind outcome_bind].
    by rewrite <- app_assoc.
  - rewrite putc_spec. cbn [mbind outcome_bind]. rewrite IH.
    destruct (format_text fuel fmt ap) as [t| | |]; try done. cbn [mbind outcome_bind].
    by rewrite <- app_assoc.
Qed.

End Buffer.

(** The buffer after formatting: the text cut to [size - 1] characters, a NUL,
    and the rest of the buffer untouched. *)
Definition cut_text (buf : list Z) (size : nat) (t : list Z) : list Z :=
  match size with
  | O => buf
  | S n => take n t ++ 0 :: drop (S (min (length t) n)) buf
  end.

Lemma vsnprintf_spec buf size fmt ap :
  (size ≤ length buf)%nat →
  vsnprintf buf size fmt ap =
  (t ← text_of fmt ap; Ok (to_int32 (u32 (Z.of_nat (length t))), cut_text buf size t)).
Proof.
  intros Hs. unfold vsnprintf, text_of.
  assert (FmtBuf buf size 0 = fb_of buf size []) as ->.
  { unfold fb_of. simpl. by rewrite take_nil. }
  rewrite format_spec by done. destruct (format_text _ _ _) as [t| | |]; try done.
  cbn [mbind outcome_bind app]. unfold fb_of. cbn [fb_buf fb_cap fb_len].
  destruct size as [|n]; [cbn [Nat.ltb Nat.leb mbind outcome_bind]; simpl; by rewrite Nat.min_0_r, drop_0|].
  rewrite (proj2 (Nat.ltb_lt 0 (S n))) by lia. cbn [cut_text]. replace (S n - 1)%nat with n by lia.
  set (cut := if Nat.ltb _ _ then _ else _). assert (cut = min (length t) n) as ->.
  { subst cut. destruct (Nat.ltb_spec (length t) (S n)); lia. }
  set (k := min (length t) n). assert (k ≤ n)%nat as Hk by lia.
  assert (length (take n t) = k) as Lt by (rewrite length_take; lia).
  unfold set_at. rewrite length_app, length_drop, Lt, (proj2 (Nat.ltb_lt _ _)) by lia.
  cbn [mbind outcome_bind]. do 2 f_equal. rewrite insert_app_r_alt by lia. rewrite Lt, Nat.sub_diag.
  f_equal. destruct (drop k buf) as [|x d] eqn:E.
  { apply (f_equal length) in E. rewrite length_drop in E. simpl in E. lia. }
  simpl. f_equal. rewrite <- Nat.add_1_r, <- drop_drop, E. done.
Qed.

(** ** Numbers print to what they are *)

(** The value of a digit character, and of a numeral. *)
Definition digit_val (digits : list Z) (c : Z) : Z :=
  match list_find (λ x, x = c) digits with Some (i, _) => Z.of_nat i | None => 0 end.

Definition numeral (base : Z) (digits s : list Z) : Z :=
  foldl (λ a c, a * base + digit_val digits c) 0 s.

Lemma digit_val_nth digits i :
  NoDup digits → (i < length digits)%nat → digit_val digits (nth i digits 0) = Z.of_nat i.
Proof.
  intros N Hi. unfold digit_val. destruct (nth_lookup_or_length digits i 0) as [E|]; [|lia].
  assert (list_find (λ x, x = nth i digits 0) digits = Some (i, nth i digits 0)) as ->; [|done].
  apply list_find_Some. split_and!; [done|done|]. intros j y Ej Hj ->.
  eapply NoDup_lookup in E; [|done|exact Ej]. lia.
Qed.

Lemma numeral_rev base digits s :
  numeral base digits (rev s) = foldr (λ c a, a * base + digit_val digits c) 0 s.
Proof.
  unfold numeral. induction s as [|c s IH]; simpl; [done|]. by rewrite foldl_app, IH.
Qed.

Lemma digit_loop_value base digits : ∀ room v,
  NoDup digits → Z.of_nat (length digits) = base → 1 < base →
  0 ≤ v < base ^ Z.of_nat room →
  foldr (λ c a, a * base + digit_val digits c) 0 (digit_loop room v base digits) = v.
Proof.
  induction room as [|room IH]; intros v N L Hb Hv; cbn [digit_loop foldr].
  { change (base ^ Z.of_nat 0) with 1 in Hv. lia. }
  destruct (Z.eqb_spec v 0) as [->|Hz]; [done|]. cbn [foldr].
  pose proof (Z.mod_pos_bound v base ltac:(lia)). pose proof (Z.div_mod v base ltac:(lia)) as D.
  rewrite Nat2Z.inj_succ, Z.pow_succ_r in Hv by lia.
  assert (0 ≤ v / base < base ^ Z.of_nat room) as Hq
    by (split; [apply Z.div_pos; lia|apply Z.div_lt_upper_bound; lia]).
  rewrite IH, digit_val_nth by (done || lia). lia.
Qed.

Lemma uint_numeral v base digits :
  NoDup digits → Z.of_nat (length digits) = base → 1 < base → 2 ^ 64 ≤ base ^ 32 →
  digit_val digits 48 = 0 → in_u64 v →
  numeral base digits (rev (uint_digits v base digits)) = v.
Proof.
  intros N L Hb Hp Hd Hv. unfold uint_digits. destruct (Z.eqb_spec v 0) as [->|Hz].
  - unfold numeral. simpl. lia.
  - rewrite numeral_rev. unfold in_u64 in Hv. apply digit_loop_value; [done|done|done|].
    change (Z.of_nat 32) with 32. lia.
Qed.

(** ** The ring *)

Record ring_ok (k : klog) : Prop := RingOk {
  ro_head : 0 ≤ ring_head k < KLOG_RING_SIZE;
  ro_count : 0 ≤ ring_count k ≤ KLOG_RING_SIZE
}.

(** The bytes of the ring, oldest first. *)
Definition contents (k : klog) : list Z := ring_byte k <$> seqZ 0 (ring_count k).

(** The ring keeps the last [KLOG_RING_SIZE] bytes of the log. *)
Definition keep (t : list Z) : list Z := drop (length t - Z.to_nat KLOG_RING_SIZE) t.

Lemma keep_app a b : keep (keep a ++ b) = keep (a ++ b).
Proof.
  unfold keep. generalize (Z.to_nat KLOG_RING_SIZE) as N. intros N.
  destruct (decide (length a ≤ N)%nat).
  - by replace (length a - N)%nat with 0%nat by lia.
  - rewrite !length_app, length_drop.
    rewrite !skipn_app, drop_drop, length_drop. f_equal; f_equal; lia.
Qed.

Lemma contents_length k : ring_ok k → length (contents k) = Z.to_nat (ring_count k).
Proof. intros. unfold contents. by rewrite length_fmap, length_seqZ. Qed.

Lemma contents_lookup k i :
  contents k !! i = if decide (Z.of_nat i < ring_count k) then Some (ring_byte k (Z.of_nat i)) else None.
Proof.
  unfold contents. rewrite list_lookup_fmap. case_decide.
  - rewrite lookup_seqZ_lt by lia. simpl. do 2 f_equal.
  - by rewrite lookup_seqZ_ge by lia.
Qed.

Lemma ring_put_ok c k : ring_ok k → ring_ok (ring_put c k).
Proof.
  intros [H1 H2]. constructor; simpl.
  - apply Z.mod_pos_bound. done.
  - destruct (Z.ltb_spec (ring_count k) KLOG_RING_SIZE); lia.
Qed.

(** The position of the [i]-th oldest byte, counted back from the head. *)
Definition ring_pos (k : klog) (i : Z) : Z := (ring_head k - ring_count k + i) mod KLOG_RING_SIZE.

Lemma ring_byte_pos k i : ring_byte k i = ring_at k (ring_pos k i).
Proof.
  unfold ring_byte, ring_start, ring_pos. f_equal. rewrite Zplus_mod_idemp_l.
  replace (ring_head k + KLOG_RING_SIZE - ring_count k + i)
    with (ring_head k - ring_count k + i + 1 * KLOG_RING_SIZE) by lia.
  apply Z_mod_plus_full.
Qed.

(** Only the byte after the newest one is at the head. *)
Lemma ring_pos_head k i :
  ring_ok k → - KLOG_RING_SIZE < i - ring_count k ≤ 0 →
  ring_pos k i = ring_head k ↔ i = ring_count k.
Proof.
  intros [H1 H2] Hi. unfold ring_pos. unfold KLOG_RING_SIZE in *. split.
  - intros E. destruct (decide (0 ≤ ring_head k - ring_count k + i)).
    + rewrite Z.mod_small in E by lia. lia.
    + rewrite <- (Z_mod_plus_full _ 1), Z.mod_small in E by lia. lia.
  - intros ->. rewrite Z.mod_small by lia. lia.
Qed.

(** Bytes that leave the ring when one more is written. *)
Definition evicted (k : klog) : nat := if ring_count k <? KLOG_RING_SIZE then 0 else 1.

Lemma ring_put_byte c k i :
  ring_ok k → let j := i + Z.of_nat (evicted k) in
  0 ≤ i → j ≤ ring_count k →
  ring_byte (ring_put c k) i = if decide (j = ring_count k) then c else ring_byte k j.
Proof.
  intros O j Hi Hj. rewrite !ring_byte_pos. pose proof O as [H1 H2].
  assert (ring_pos (ring_put c k) i = ring_pos k j) as ->.
  { unfold ring_pos, ring_put, j, evicted. cbn [ring_head ring_count].
    rewrite <- Z.add_opp_r, <- Z.add_assoc, Zplus_mod_idemp_l.
    destruct (Z.ltb_spec (ring_count k) KLOG_RING_SIZE); f_equal; lia. }
  assert (ring_pos k j = ring_head k ↔ j = ring_count k) as Hp.
  { apply ring_pos_head; [done|]. unfold j, evicted in *.
    destruct (Z.ltb_spec (ring_count k) KLOG_RING_SIZE); simpl in *; lia. }
  unfold ring_at. cbn [ring_put ring_buf]. case_decide as D.
  - rewrite (proj2 Hp D), lookup_insert_eq. done.
  - rewrite lookup_insert_ne; [done|]. intros E. by apply D, Hp.
Qed.

Lemma ring_put_contents c k : ring_ok k → contents (ring_put c k) = keep (contents k ++ [c]).
Proof.
  intros O. pose proof O as [H1 H2]. apply list_eq. intros i. rewrite contents_lookup. unfold keep.
  rewrite lookup_drop, length_app, contents_length by done. cbn [length].
  replace (Z.to_nat (ring_count k) + 1 - Z.to_nat KLOG_RING_SIZE)%nat with (evicted k).
  2:{ unfold evicted. destruct (Z.ltb_spec (ring_count k) KLOG_RING_SIZE); lia. }
  assert (ring_count (ring_put c k) = ring_count k + 1 - Z.of_nat (evicted k)) as Ec.
  { unfold evicted. simpl. destruct (_ <? _); simpl; lia. }
  rewrite Ec. case_decide as D.
  - rewrite ring_put_byte by (done || lia). case_decide as E.
    + rewrite lookup_app_r by (rewrite contents_length by done; lia).
      rewrite contents_length by done. by replace (evicted k + i - _)%nat with 0%nat by lia.
    + rewrite lookup_app_l by (rewrite contents_length by done; lia).
      rewrite contents_lookup, decide_True by lia. do 2 f_equal. lia.
  - symmetry. apply lookup_ge_None_2. rewrite length_app, contents_length by done. simpl. lia.
Qed.

Lemma ring_fold s : ∀ k, ring_ok k →
  let k' := foldl (λ k c, ring_put c k) k s in
  ring_ok k' ∧ contents k' = keep (contents k ++ s) ∧ backends k' = backends k ∧ sent k' = sent k.
Proof.
  induction s as [|c s IH]; intros k O; cbn [foldl].
  - split_and!; try done. rewrite app_nil_r. unfold keep. rewrite contents_length by done.
    destruct O. by replace (_ - _)%nat with 0%nat by lia.
  - destruct (IH (ring_put c k) (ring_put_ok c k O)) as (O' & E & B & T). split_and!; try done.
    by rewrite E, ring_put_contents, keep_app, <- app_assoc.
Qed.

(** ** Lines *)

(** The lines of a text, each with its newline; a last line may lack one. *)
Fixpoint lines (cur t : list Z) : list (list Z) :=
  match t with
  | [] => match cur with [] => [] | _ => [cur] end
  | c :: t => if c =? 10 then (cur ++ [10]) :: lines [] t else lines (cur ++ [c]) t
  end.

Definition newlines (t : list Z) : Z := Z.of_nat (length (filter (λ c, c = 10) t)).

(** [t] without its first [m] lines. *)
Fixpoint drop_lines (m : Z) (t : list Z) : list Z :=
  match t with
  | [] => []
  | c :: t' => if m <=? 0 then t else drop_lines (if c =? 10 then m - 1 else m) t'
  end.

Lemma newlines_cons c t : newlines (c :: t) = (if c =? 10 then 1 else 0) + newlines t.
Proof.
  unfold newlines. rewrite filter_cons. destruct (Z.eqb_spec c 10); case_decide; simpl; lia.
Qed.

Lemma drop_lines_0 t : drop_lines 0 t = t.
Proof. by destruct t. Qed.

Lemma lines_drop t : ∀ m cur,
  1 ≤ m ≤ newlines t → lines [] (drop_lines m t) = drop (Z.to_nat m) (lines cur t).
Proof.
  induction t as [|c t IH]; intros m cur Hm; [unfold newlines in Hm; simpl in Hm; lia|].
  rewrite newlines_cons in Hm. cbn [drop_lines lines]. rewrite (proj2 (Z.leb_gt _ _)) by lia.
  destruct (c =? 10); [|apply IH; lia].
  destruct (decide (m = 1)) as [->|]; [by rewrite drop_lines_0|].
  rewrite (IH (m - 1) []) by lia. replace (Z.to_nat m) with (S (Z.to_nat (m - 1))) by lia. done.
Qed.

Section Drain.
Variable k : klog.
Hypothesis O : ring_ok k.

(** The loops at index [i], with [r] the bytes from [i] on. *)
Definition at_index (i : Z) (r : list Z) : Prop := 0 ≤ i ∧ drop (Z.to_nat i) (contents k) = r.

Lemma at_index_nil i : at_index i [] → ring_count k ≤ i.
Proof.
  intros [Hi E]. apply (f_equal length) in E. rewrite length_drop, contents_length in E by done.
  simpl in E. lia.
Qed.

Lemma at_index_cons i c r : at_index i (c :: r) → i < ring_count k ∧ ring_byte k i = c ∧ at_index (i + 1) r.
Proof.
  intros [Hi E]. assert (contents k !! Z.to_nat i = Some c) as L.
  { rewrite <- (Nat.add_0_r (Z.to_nat i)), <- lookup_drop, E. done. }
  rewrite contents_lookup in L. case_decide; [|done]. rewrite Z2Nat.id in * by done.
  injection L as L. split; [done|]. split; [done|]. split; [lia|].
  replace (Z.to_nat (i + 1)) with (Z.to_nat i + 1)%nat by lia. rewrite <- drop_drop, E. done.
Qed.

Lemma count_lines_spec r : ∀ fuel i acc,
  at_index i r → (length r < fuel)%nat → count_lines fuel i acc k = Ok (acc + newlines r).
Proof.
  induction r as [|c r IH]; intros [|fuel] i acc A Hf; simpl in Hf; try lia; cbn [count_lines].
  - apply at_index_nil in A. rewrite (proj2 (Z.ltb_ge _ _)) by lia. unfold newlines. simpl. f_equal. lia.
  - apply at_index_cons in A as (Hi & -> & A). rewrite (proj2 (Z.ltb_lt _ _)) by lia.
    rewrite IH by (done || lia). rewrite newlines_cons. destruct (c =? 10); f_equal; lia.
Qed.

Lemma skip_lines_spec r : ∀ fuel i seen skip,
  at_index i r → (length r < fuel)%nat →
  ∃ j, skip_lines fuel i seen skip k = Ok j ∧ at_index j (drop_lines (skip - seen) r).
Proof.
  induction r as [|c r IH]; intros [|fuel] i seen skip A Hf; simpl in Hf; try lia;
    cbn [skip_lines drop_lines].
  - exists i. pose proof (at_index_nil _ A). by rewrite (proj2 (Z.ltb_ge _ _)) by lia.
  - pose proof (at_index_cons _ _ _ A) as (Hi & -> & A'). rewrite (proj2 (Z.ltb_lt i _)) by lia. cbn [andb].
    destruct (Z.ltb_spec seen skip).
    + rewrite (proj2 (Z.leb_gt _ _)) by lia.
      edestruct (IH fuel (i + 1)) as (j & -> & Aj); [done|lia|]. exists j. split; [done|].
      destruct (c =? 10); [by replace (skip - seen - 1) with (skip - (seen + 1)) by lia|done].
    + rewrite (proj2 (Z.leb_le _ _)) by lia. by exists i.
Qed.

Lemma emit_lines_spec r : ∀ fuel i cur,
  at_index i r → (length r < fuel)%nat →
  emit_lines fuel i (take 255 cur) k = Ok (take 255 <$> lines cur r).
Proof.
  induction r as [|c r IH]; intros [|fuel] i cur A Hf; simpl in Hf; try lia;
    cbn [emit_lines lines].
  - apply at_index_nil in A. rewrite (proj2 (Z.ltb_ge _ _)) by lia. rewrite length_take.
    destruct cur; [done|]. cbn [length]. rewrite (proj2 (Nat.ltb_lt _ _)) by lia. done.
  - apply at_index_cons in A as (Hi & -> & A). rewrite (proj2 (Z.ltb_lt _ _)) by lia.
    assert ((if Nat.ltb (length (take 255 cur)) 255 then take 255 cur ++ [c] else take 255 cur)
            = take 255 (cur ++ [c])) as ->.
    { rewrite length_take. destruct (Nat.ltb_spec (255 `min` length cur) 255).
      - by rewrite !take_ge by (rewrite ?length_app; simpl; lia).
      - by rewrite take_app_le by lia. }
    destruct (Z.eqb_spec c 10) as [->|Hc]; [|by apply IH; [|lia]].
    pose proof (IH fuel (i + 1) [] A ltac:(lia)) as E. rewrite take_nil in E. rewrite E. done.
Qed.

Lemma drain_spec n :
  0 < n →
  klog_drain_tail n k =
  Ok (take 255 <$> drop (Z.to_nat (newlines (contents k) - n)) (lines [] (contents k))).
Proof.
  intros Hn. pose proof (contents_length k O) as L. unfold klog_drain_tail.
  assert (at_index 0 (contents k)) as A by by split.
  destruct (Z.eqb_spec (ring_count k) 0) as [E|E]; cbn [orb].
  { assert (contents k = []) as -> by (apply nil_length_inv; lia). cbn [lines]. by rewrite drop_nil. }
  rewrite (proj2 (Z.eqb_neq n 0)) by lia. unfold drain_fuel.
  rewrite (count_lines_spec (contents k)) by (done || lia). cbn [mbind outcome_bind]. rewrite Z.add_0_l.
  set (skip := if _ >? _ then _ else _).
  destruct (skip_lines_spec (contents k) (S (Z.to_nat (ring_count k))) 0 0 skip A) as (j & -> & Aj); [lia|].
  cbn [mbind outcome_bind]. rewrite Z.sub_0_r in Aj.
  assert (length (drop_lines skip (contents k)) ≤ length (contents k))%nat as Ld.
  { destruct Aj as [_ <-]. rewrite length_drop. lia. }
  pose proof (emit_lines_spec _ (S (Z.to_nat (ring_count k))) j [] Aj ltac:(lia)) as Em.
  rewrite take_nil in Em. rewrite Em. do 2 f_equal. subst skip.
  destruct (_ >? _) eqn:C.
  - apply lines_drop. lia.
  - rewrite drop_lines_0. by replace (Z.to_nat (newlines (contents k) - n)) with 0%nat by lia.
Qed.

End Drain.

(** ** Logging *)

(** The log after the bytes [s] went to the ring and to every backend. *)
Definition logged (lvl : Z) (s : list Z) (k : klog) : klog :=
  let k' := foldl (λ k c, ring_put c k) k s in
  Klog (ring_buf k') (ring_head k') (ring_count k') (backends k)
    (sent k ++ concat (backend_calls lvl s <$> backends k)).

Lemma log_bytes_spec lvl s n k :
  ring_ok k → (n ≤ length s)%nat → log_bytes lvl s n k = Ok (logged lvl (take n s) k).
Proof.
  intros O Hn. unfold log_bytes, ring_write, backends_write. rewrite (proj2 (Nat.leb_le _ _)) by done.
  cbn [mbind outcome_bind].
  unfold logged. destruct (ring_fold (take n s) k O) as (_ & _ & -> & ->). done.
Qed.

Lemma logged_spec lvl s k :
  ring_ok k →
  ring_ok (logged lvl s k) ∧ contents (logged lvl s k) = keep (contents k ++ s) ∧
  backends (logged lvl s k) = backends k.
Proof.
  intros O. destruct (ring_fold s k O) as (O' & E & _ & _). split_and!; [by destruct O'|exact E|done].
Qed.

Definition log_all (lvl : Z) (ps : list (list Z)) (k : klog) : klog :=
  foldl (λ k s, logged lvl s k) k ps.

Lemma log_all_spec lvl ps : ∀ k,
  ring_ok k →
  ring_ok (log_all lvl ps k) ∧ contents (log_all lvl ps k) = keep (contents k ++ concat ps) ∧
  backends (log_all lvl ps k) = backends k ∧
  sent (log_all lvl ps k) =
    sent k ++ concat ((λ s, concat (backend_calls lvl s <$> backends k)) <$> ps).
Proof.
  induction ps as [|s ps IH]; intros k O; cbn [log_all foldl fmap list_fmap concat].
  - rewrite !app_nil_r. split_and!; try done. unfold keep. rewrite contents_length by done.
    destruct O. by replace (_ - _)%nat with 0%nat by lia.
  - destruct (logged_spec lvl s k O) as (O1 & E1 & B1). destruct (IH _ O1) as (O2 & E2 & B2 & S2).
    unfold log_all in *. split_and!; [done| |congruence|].
    + by rewrite E2, E1, keep_app, <- app_assoc.
    + rewrite S2, B1. simpl. by rewrite <- app_assoc.
Qed.

(** ** User lines *)

(** The first line goes out bare, the others after the prefix. *)
Definition tail_pieces (prefix : list Z) (ls : list (list Z)) : list (list Z) :=
  match ls with [] => [] | l :: ls => l :: concat ((λ l, [prefix; l]) <$> ls) end.

Lemma lines_nonempty cur t : cur ++ t ≠ [] → lines cur t ≠ [].
Proof.
  revert cur; induction t as [|c t IH]; intros cur H; cbn [lines].
  - rewrite app_nil_r in H. by destruct cur.
  - destruct (c =? 10); [done|]. apply IH. by destruct cur.
Qed.

Lemma take_seg (buf pre cur rest : list Z) len m :
  take len buf = pre ++ cur ++ rest → m = length cur → take m (drop (length pre) buf) = cur.
Proof.
  intros E ->. rewrite <- (take_drop len buf), E, <- !app_assoc, drop_app_length. by rewrite take_app_length.
Qed.

Lemma user_loop_spec lvl prefix plen buf len t : ∀ fuel pre cur k,
  ring_ok k → (plen ≤ length prefix)%nat → (len ≤ length buf)%nat →
  take len buf = pre ++ cur ++ t → (length t < fuel)%nat →
  ('(start, k) ← user_loop fuel lvl prefix plen buf len (length pre + length cur) (length pre) k;
   if Nat.ltb start len then log_bytes lvl (drop start buf) (len - start) k else Ok k) =
  Ok (log_all lvl (tail_pieces (take plen prefix) (lines cur t)) k).
Proof.
  induction t as [|c t IH]; intros [|fuel] pre cur k O Hp Hb E Hf; simpl in Hf; try lia;
    pose proof (f_equal length E) as L; rewrite length_take, Nat.min_l, !length_app in L by done;
    simpl in L; cbn [user_loop lines].
  - rewrite (proj2 (Nat.ltb_ge _ _)) by lia. cbn [negb mbind outcome_bind].
    destruct cur as [|d cur].
    { simpl in *. rewrite (proj2 (Nat.ltb_ge _ _)) by lia. done. }
    rewrite (proj2 (Nat.ltb_lt _ _)) by (simpl in *; lia).
    rewrite log_bytes_spec; [|done|rewrite length_drop; lia].
    rewrite (take_seg buf pre (d :: cur) [] len) by (done || simpl in *; lia). done.
  - rewrite (proj2 (Nat.ltb_lt _ _)) by lia. cbn [negb].
    assert (buf !! (length pre + length cur)%nat = Some c) as ->.
    { rewrite <- (lookup_take_lt _ len) by lia. rewrite E, app_assoc, <- length_app.
      by apply list_lookup_middle. }
    cbn [mbind outcome_bind deref]. destruct (Z.eqb_spec c 10) as [->|Hc]; cbn [negb].
    + rewrite log_bytes_spec; [|done|rewrite length_drop; lia]. cbn [mbind outcome_bind].
      rewrite (take_seg buf pre (cur ++ [10]) t len);
        [|by rewrite <- app_assoc|rewrite length_app; simpl; lia].
      destruct (logged_spec lvl (cur ++ [10]) k O) as (O1 & _).
      assert (S (length pre + length cur) = length (pre ++ cur ++ [10])) as ES
        by (rewrite !length_app; simpl; lia).
      assert (take len buf = (pre ++ cur ++ [10]) ++ [] ++ t) as E'
        by (by rewrite E, <- !app_assoc).
      rewrite ES. destruct t as [|d t].
      * rewrite (proj2 (Nat.ltb_ge _ _)) by (rewrite !length_app; simpl in *; lia). cbn [mbind outcome_bind].
        pose proof (IH fuel (pre ++ cur ++ [10]) [] _ O1 Hp Hb E' ltac:(simpl in *; lia)) as H.
        cbn [length] in H. rewrite Nat.add_0_r in H. exact H.
      * rewrite (proj2 (Nat.ltb_lt _ _)) by (rewrite !length_app; simpl in *; lia).
        rewrite log_bytes_spec by done. cbn [mbind outcome_bind].
        destruct (logged_spec lvl (take plen prefix) _ O1) as (O2 & _).
        pose proof (IH fuel (pre ++ cur ++ [10]) [] _ O2 Hp Hb E' ltac:(simpl in *; lia)) as H.
        cbn [length] in H. rewrite Nat.add_0_r in H. rewrite H. f_equal.
        pose proof (lines_nonempty [] (d :: t)) as Ln.
        destruct (lines [] (d :: t)) as [|l ls]; [by destruct Ln|]. done.
    + replace (S (length pre + length cur))%nat with (length pre + length (cur ++ [c]))%nat
        by (rewrite length_app; simpl; lia).
      apply IH; [done|done|done|by rewrite <- app_assoc|lia].
Qed.

Lemma digit_loop_length base digits m : ∀ room v,
  1 < base → 0 ≤ v < base ^ Z.of_nat m → (length (digit_loop room v base digits) ≤ m)%nat.
Proof.
  induction m as [|m IH]; intros [|room] v Hb Hv; cbn [digit_loop length]; try lia.
  - rewrite (proj2 (Z.eqb_eq v 0)); [done|]. change (base ^ Z.of_nat 0) with 1 in Hv. lia.
  - destruct (Z.eqb_spec v 0); [simpl; lia|]. cbn [length].
    rewrite Nat2Z.inj_succ, Z.pow_succ_r in Hv by lia.
    enough (length (digit_loop room (v / base) base digits) ≤ m)%nat by lia.
    apply IH; [done|]. split; [apply Z.div_pos; lia|apply Z.div_lt_upper_bound; lia].
Qed.

Lemma uint_text_length v m :
  (1 ≤ m)%nat → 0 ≤ v < 10 ^ Z.of_nat m →
  ∀ w z, (length (uint_text v 10 dec_digits w z) ≤ max m (Z.to_nat w))%nat.
Proof.
  intros Hm Hv w z. unfold uint_text, pad_text. rewrite length_app, length_replicate, length_rev.
  enough (length (uint_digits v 10 dec_digits) ≤ m)%nat by lia.
  unfold uint_digits. destruct (v =? 0); [simpl; lia|]. by apply digit_loop_length.
Qed.

(** [user[pid=N]: ] *)
Definition user_prefix (pid : Z) : list Z :=
  str "user[pid=" ++ int_text (to_int32 (u32 pid)) 0 false ++ str "]: ".

Lemma user_prefix_text pid :
  text_of (str "user[pid=%d]: " ++ [0]) [VInt pid] = Ok (user_prefix pid).
Proof. reflexivity. Qed.

Lemma to_int32_range v : - 2 ^ 31 ≤ to_int32 (u32 v) < 2 ^ 31.
Proof.
  unfold to_int32, u32. pose proof (Z.mod_pos_bound v (2 ^ 32) ltac:(lia)).
  destruct (Z.ltb_spec (v mod 2 ^ 32) (2 ^ 31)); lia.
Qed.

Lemma int32_text_length v : - 2 ^ 31 ≤ v < 2 ^ 31 → (length (int_text v 0 false) ≤ 11)%nat.
Proof.
  intros Hv. assert (∀ u, 0 ≤ u ≤ 2 ^ 31 → (length (uint_text u 10 dec_digits 0 false) ≤ 10)%nat) as H.
  { intros u Hu. apply (uint_text_length u 10); [lia|]. change (10 ^ Z.of_nat 10) with 10000000000. lia. }
  unfold int_text. destruct (Z.ltb_spec v 0).
  - rewrite add64_small by lia. cbn [length Z.gtb Z.compare].
    specialize (H (- (v + 1) + 1)). lia.
  - specialize (H v). lia.
Qed.

(** The prefix always fits its 32-byte buffer. *)
Lemma user_prefix_length pid : (length (user_prefix pid) < 32)%nat.
Proof.
  unfold user_prefix. rewrite !length_app.
  pose proof (int32_text_length _ (to_int32_range pid)).
  change (length (str "user[pid=")) with 9%nat. change (length (str "]: ")) with 3%nat. lia.
Qed.

Lemma cut_text_fits buf size t :
  (length t < size ≤ length buf)%nat →
  take (length t) (cut_text buf size t) = t ∧ (length t ≤ length (cut_text buf size t))%nat.
Proof.
  intros H. destruct size as [|n]; [lia|]. cbn [cut_text]. rewrite (take_ge t n) by lia.
  rewrite length_app. split; [by rewrite take_app_length|lia].
Qed.

Lemma small_int n : (n < 2000)%nat → to_int32 (u32 (Z.of_nat n)) = Z.of_nat n.
Proof.
  intros H. unfold to_int32, u32. rewrite Z.mod_small by lia. by rewrite (proj2 (Z.ltb_lt _ _)) by lia.
Qed.

Lemma concat_pieces (prefix : list Z) ls :
  concat (concat ((λ l, [prefix; l]) <$> ls)) = concat ((λ l, prefix ++ l) <$> ls).
Proof.
  induction ls as [|l ls IH]; [done|]. cbn [fmap list_fmap concat app] in *.
  by rewrite IH, <- app_assoc.
Qed.

Definition user_pieces (pid : Z) (t : list Z) : list (list Z) :=
  concat ((λ l, [user_prefix pid; l]) <$> lines [] t).

Lemma user_write_spec lvl pid buf len prefix0 k :
  ring_ok k → length prefix0 = 32%nat → (len ≤ length buf)%nat →
  klog_user_write lvl pid buf len prefix0 k =
  Ok (log_all lvl (user_pieces pid (take len buf)) k).
Proof.
  intros O Lp Lb. unfold klog_user_write. destruct (Nat.eqb_spec len 0) as [->|Hl]; [done|].
  unfold snprintf. rewrite vsnprintf_spec, user_prefix_text by lia. cbn [mbind outcome_bind].
  pose proof (user_prefix_length pid) as Hp.
  destruct (cut_text_fits prefix0 32 (user_prefix pid)) as [Et Lt]; [lia|].
  rewrite small_int by lia. rewrite (proj2 (Z.ltb_ge _ 0)), Nat2Z.id by lia.
  rewrite log_bytes_spec by done. cbn [mbind outcome_bind]. rewrite Et.
  destruct (logged_spec lvl (user_prefix pid) k O) as (O1 & _).
  pose proof (user_loop_spec lvl (cut_text prefix0 32 (user_prefix pid)) (length (user_prefix pid)) buf len
    (take len buf) (S len) [] [] _ O1 Lt Lb eq_refl) as H. cbn [length Nat.add] in H. rewrite H.
  2:{ rewrite length_take. lia. }
  f_equal. rewrite Et. unfold user_pieces.
  pose proof (lines_nonempty [] (take len buf)) as Ln.
  destruct (lines [] (take len buf)) as [|l ls]; [|done]. exfalso. apply Ln; [|done].
  intros E. apply (f_equal length) in E. rewrite length_app, length_take in E. simpl in E. lia.
Qed.

(** ** Kernel lines *)

Definition header (level us : Z) : list Z :=
  [91] ++ uint_text (u64 (us / 1000000)) 10 dec_digits 5 false ++ [46] ++
  uint_text (u64 (us mod 1000000)) 10 dec_digits 6 true ++ str "] " ++ level_tag level ++ [32].

Lemma header_text level us :
  0 ≤ level ≤ 4 →
  text_of (str "[%5lu.%06lu] %s " ++ [0])
    [VInt (us / 1000000); VInt (us mod 1000000); VStr (Some (level_tag level ++ [0]))]
  = Ok (header level us).
Proof.
  intros H. assert (level = 0 ∨ level = 1 ∨ level = 2 ∨ level = 3 ∨ level = 4)
    as [->|[->|[->|[->| ->]]]] by lia; reflexivity.
Qed.

Lemma dec_digit_nonzero d : 0 ≤ d < 10 → nth (Z.to_nat d) dec_digits 0 ≠ 0.
Proof.
  intros H. assert (d = 0 ∨ d = 1 ∨ d = 2 ∨ d = 3 ∨ d = 4 ∨ d = 5 ∨ d = 6 ∨ d = 7 ∨ d = 8 ∨ d = 9)
    as Hd by lia. repeat destruct Hd as [->|Hd]; try done. by subst.
Qed.

Lemma digit_loop_nonzero : ∀ room v, nonzero (digit_loop room v 10 dec_digits).
Proof.
  induction room as [|room IH]; intros v; cbn [digit_loop]; [constructor|].
  destruct (v =? 0); constructor; [|apply IH]. apply dec_digit_nonzero, Z.mod_pos_bound. lia.
Qed.

Lemma uint_text_nonzero v w z : nonzero (uint_text v 10 dec_digits w z).
Proof.
  unfold uint_text, pad_text. apply Forall_app. split.
  - apply Forall_replicate. by destruct z.
  - apply Forall_rev. unfold uint_digits. destruct (v =? 0); [by repeat constructor|].
    apply digit_loop_nonzero.
Qed.

Lemma header_nonzero level us : 0 ≤ level ≤ 4 → nonzero (header level us).
Proof.
  intros H. unfold header. rewrite !Forall_app.
  assert (nonzero (level_tag level)) as T.
  { assert (level = 0 ∨ level = 1 ∨ level = 2 ∨ level = 3 ∨ level = 4)
      as [->|[->|[->|[->| ->]]]] by lia; repeat constructor; discriminate. }
  split_and!; try apply uint_text_nonzero; try done; repeat constructor; discriminate.
Qed.

Lemma header_length level us : 0 ≤ level ≤ 4 → (length (header level us) ≤ 50)%nat.
Proof.
  intros H. unfold header. rewrite !length_app.
  pose proof (u64_range (us / 1000000)) as [? ?]. pose proof (u64_range (us mod 1000000)) as [? ?].
  pose proof (uint_text_length (u64 (us / 1000000)) 20 ltac:(lia)) as L1.
  pose proof (uint_text_length (u64 (us mod 1000000)) 20 ltac:(lia)) as L2.
  change (10 ^ Z.of_nat 20) with 100000000000000000000 in *.
  specialize (L1 ltac:(lia) 5 false). specialize (L2 ltac:(lia) 6 true).
  assert (length (level_tag level) = 5%nat) as ->.
  { assert (level = 0 ∨ level = 1 ∨ level = 2 ∨ level = 3 ∨ level = 4)
      as [->|[->|[->|[->| ->]]]] by lia; done. }
  change (length (str "] ")) with 2%nat. simpl in *. lia.
Qed.

(** The string at the start of an object that contains a NUL. *)
Lemma cstring_of s : 0 ∈ s → ∃ u, cstring u s.
Proof.
  induction s as [|c s IH]; intros H; [by apply not_elem_of_nil in H|].
  destruct (decide (c = 0)) as [->|Hc].
  - exists []. split; [done|]. by exists s.
  - apply elem_of_cons in H as [?|H]; [done|]. destruct (IH H) as (u & F & junk & ->).
    exists (c :: u). split; [by constructor|]. by exists junk.
Qed.

Lemma cstring_prefix h s u : nonzero h → cstring u (h ++ s) → ∃ v, u = h ++ v.
Proof.
  revert u; induction h as [|c h IH]; intros u F C; [by exists u|].
  apply Forall_cons in F as [Hc F]. destruct u as [|d u].
  - apply cstring_nil in C as (j & C). by injection C.
  - apply cstring_cons in C as (_ & s' & E & C). injection E as -> <-.
    destruct (IH u F C) as (v & ->). by exists v.
Qed.

(** Ending a line in a newline within the 1024-byte buffer. *)
Lemma finish_line line u junk :
  line = u ++ 0 :: junk → length line = 1024%nat →
  ∃ line' total u',
    (last ← (if Nat.eqb (length u) 0 then Ok 0 else deref (line !! (length u - 1)%nat));
     if Nat.eqb (length u) 0 || negb (last =? 10) then
       let total := if Nat.leb 1023 (length u) then 1022%nat else length u in
       line ← set_at line total 10; line ← set_at line (S total) 0; Ok (line, S total)
     else Ok (line, length u)) = Ok (line', total) ∧
    (total ≤ length line')%nat ∧ take total line' = u' ++ [10] ∧ (length u' ≤ 1022)%nat ∧
    take 1022 u `prefix_of` u' ++ [10].
Proof.
  intros E L. assert (length u ≤ 1023)%nat as Lu by (rewrite E, length_app in L; simpl in L; lia).
  assert (∃ last, (if Nat.eqb (length u) 0 then Ok 0 else deref (line !! (length u - 1)%nat)) = Ok last ∧
    (Nat.eqb (length u) 0 || negb (last =? 10) = false → ∃ u', u = u' ++ [10])) as (last & -> & Hlast).
  { destruct (Nat.eqb_spec (length u) 0); [by exists 0|].
    destruct (exists_last (l := u)) as (u' & c & ->); [by intros ->|].
    rewrite length_app in *. simpl in *. exists c. rewrite E. split.
    - rewrite lookup_app_l by (rewrite length_app; simpl; lia).
      rewrite lookup_app_r by lia. by replace (length u' + 1 - 1 - length u')%nat with 0%nat by lia.
    - destruct (Z.eqb_spec c 10) as [->|]; [|done]. eauto. }
  cbn [mbind outcome_bind]. destruct (_ || _) eqn:C.
  - set (total := if Nat.leb _ _ then _ else _).
    assert (total ≤ 1022 ∧ total ≤ length u ∧ take total u = take 1022 u)%nat as (T1 & T2 & T3).
    { subst total. destruct (Nat.leb_spec 1023 (length u)); [split_and!; [lia|lia|done]|].
      split_and!; [lia|lia|]. by rewrite !take_ge by lia. }
    unfold set_at. rewrite (proj2 (Nat.ltb_lt total _)) by lia. cbn [mbind outcome_bind].
    rewrite length_insert, (proj2 (Nat.ltb_lt _ _)) by lia. cbn [mbind outcome_bind].
    eexists _, _, (take total u). split; [done|]. rewrite !length_insert. split_and!; [lia| | |].
    + rewrite take_insert_ge by lia. erewrite take_S_r; [|apply list_lookup_insert_eq; lia].
      rewrite take_insert_ge by lia. f_equal. rewrite E, take_app_le by lia. done.
    + rewrite length_take. lia.
    + rewrite T3. by apply prefix_app_r.
  - destruct (Hlast eq_refl) as (u' & ->). eexists _, _, u'. split; [done|].
    rewrite length_app in *. simpl in *. split_and!; [lia| |lia|].
    + rewrite E, take_app_le by (rewrite length_app; simpl; lia).
      by rewrite take_ge by (rewrite length_app; simpl; lia).
    + rewrite <- (take_drop 1022 (u' ++ [10])) at 2. by apply prefix_app_r.
Qed.

(** What one printk puts into the log: one line with the timestamp and the
    level, ending in a newline. *)
Lemma vprintk_spec level fmt ap us line0 k t :
  ring_ok k → 0 ≤ level ≤ 4 → length line0 = 1024%nat → text_of fmt ap = Ok t →
  ∃ u, vprintk level fmt ap us line0 k = Ok (logged level (u ++ [10]) k) ∧
    header level us `prefix_of` u ++ [10] ∧ (length u ≤ 1022)%nat.
Proof.
  intros O Hl L T. unfold vprintk, KLOG_BUILD_LEVEL. destruct (level >? 4) eqn:C; [lia|]. clear C.
  unfold snprintf. rewrite vsnprintf_spec, header_text by (done || lia). cbn [mbind outcome_bind].
  pose proof (header_length level us Hl) as Hh. pose proof (header_nonzero level us Hl) as Hz.
  set (h := header level us) in *. rewrite small_int, Nat2Z.id by lia.
  destruct (cut_text_fits line0 1024 h) as [Et Lt]; [lia|].
  assert (length (cut_text line0 1024 h) = 1024%nat) as Lc.
  { cbn [cut_text]. rewrite length_app, length_take, length_cons, length_drop. lia. }
  generalize dependent (cut_text line0 1024 h). intros line1 Et Lt Lc.
  rewrite vsnprintf_spec, T by (rewrite length_drop; lia). cbn [mbind outcome_bind]. rewrite Et.
  set (rest := cut_text _ _ t).
  assert (0 ∈ rest ∧ length rest = (1024 - length h)%nat) as [Z0 Lr].
  { subst rest. replace (1024 - length h)%nat with (S (1023 - length h)) by lia. cbn [cut_text].
    rewrite length_app, length_take, length_cons, !length_drop, Lc. split; [|lia].
    apply elem_of_app. right. by constructor. }
  destruct (cstring_of (h ++ rest)) as (u & Cu); [by apply elem_of_app; right|].
  rewrite (strnlen_spec u) by done. cbn [mbind outcome_bind].
  destruct (cstring_prefix h rest u Hz Cu) as (v & Ev). destruct Cu as [_ (junk & Ej)].
  assert (length (h ++ rest) = 1024%nat) as Lh by (rewrite length_app; lia).
  assert (length u < 1024)%nat as Lu by (rewrite Ej, length_app in Lh; simpl in Lh; lia).
  rewrite Nat.min_l by lia.
  destruct (finish_line _ u junk Ej Lh) as (line' & total & u' & E & Hle & Hu & Lu' & Hp).
  destruct (if Nat.eqb (length u) 0 then _ else _) as [last| | |]; try discriminate E.
  cbn [mbind outcome_bind] in E |- *. rewrite E. cbn [mbind outcome_bind].
  rewrite log_bytes_spec, Hu by done. exists u'. split_and!; [done| |done].
  etransitivity; [|exact Hp]. rewrite Ev, firstn_app, take_ge by lia. by apply prefix_app_r.
Qed.

(** ** The format language, on its own

    A format is described by its pieces, together with the argument each
    conversion takes: the concrete syntax, the arguments and the printed text
    are all given from the pieces. *)

Definition decimal : list Z := str "0123456789".
Definition hexadecimal (upper : bool) : list Z :=
  if upper then str "0123456789ABCDEF" else str "0123456789abcdef".

(** [ds] is the numeral of [v] in the positional system of the alphabet [al],
    without superfluous zeros. *)
Definition numeral_of (al : list Z) (v : Z) (ds : list Z) : Prop :=
  Forall (.∈ al) ds ∧ numeral (Z.of_nat (length al)) al ds = v ∧ ds ≠ [] ∧
  (head ds = Some 48 → ds = [48]).

(** What may stand between the '%' and the conversion character. *)
Record modifiers := Modifiers { m_zero : bool; m_width : list Z; m_longs : nat }.

(** The length modifiers that select a 64-bit argument. *)
Definition m_long (m : modifiers) : bool := negb (Nat.eqb (m_longs m) 0).
Definition width_of (m : modifiers) : Z := numeral 10 decimal (m_width m).

Definition modifiers_ok (m : modifiers) : Prop :=
  Forall (.∈ decimal) (m_width m) ∧ width_of m < 2 ^ 31 ∧
  (m_zero m = false → head (m_width m) ≠ Some 48).

Inductive piece :=
| PText (s : list Z)                                    (* ordinary characters *)
| PSigned (m : modifiers) (i : bool) (v : Z)            (* %d or %i *)
| PUnsigned (m : modifiers) (v : Z)                     (* %u *)
| PHex (m : modifiers) (upper : bool) (v : Z)           (* %x or %X *)
| PPointer (m : modifiers) (v : Z)                      (* %p *)
| PString (m : modifiers) (s : option (list Z)) (junk : list Z)  (* %s *)
| PChar (m : modifiers) (c : Z)                         (* %c *)
| PPercent (m : modifiers)                              (* %% *)
| PUnknown (m : modifiers) (c : Z).                     (* any other character *)

Definition conversions : list Z := str "diuxXpsc%".

(** The values an argument of the type the conversion names can have. *)
Definition piece_ok (p : piece) : Prop :=
  match p with
  | PText s => Forall (λ c, c ≠ 0 ∧ c ≠ 37) s
  | PSigned m _ v =>
      modifiers_ok m ∧ if m_long m then - 2 ^ 63 ≤ v < 2 ^ 63 else - 2 ^ 31 ≤ v < 2 ^ 31
  | PUnsigned m v | PHex m _ v =>
      modifiers_ok m ∧ if m_long m then 0 ≤ v < 2 ^ 64 else 0 ≤ v < 2 ^ 32
  | PPointer m v => modifiers_ok m ∧ 0 ≤ v < 2 ^ 64
  | PString m s _ => modifiers_ok m ∧ from_option nonzero True s
  | PChar m c => modifiers_ok m ∧ 0 ≤ c < 256
  | PPercent m => modifiers_ok m
  | PUnknown m c => modifiers_ok m ∧ c ∉ conversions ∧ c ∉ decimal ∧ c ≠ 108
  end.

Definition directive_syntax (m : modifiers) (c : Z) : list Z :=
  str "%" ++ (if m_zero m then str "0" else []) ++ m_width m ++ replicate (m_longs m) 108 ++ [c].

Definition piece_syntax (p : piece) : list Z :=
  match p with
  | PText s => s
  | PSigned m i _ => directive_syntax m (if i then 105 else 100)
  | PUnsigned m _ => directive_syntax m 117
  | PHex m upper _ => directive_syntax m (if upper then 88 else 120)
  | PPointer m _ => directive_syntax m 112
  | PString m _ _ => directive_syntax m 115
  | PChar m _ => directive_syntax m 99
  | PPercent m => directive_syntax m 37
  | PUnknown m c => directive_syntax m c
  end.

Definition piece_args (p : piece) : list va :=
  match p with
  | PSigned _ _ v | PUnsigned _ v | PHex _ _ v | PPointer _ v | PChar _ v => [VInt v]
  | PString _ s junk => [VStr ((λ u, u ++ 0 :: junk) <$> s)]
  | PText _ | PPercent _ | PUnknown _ _ => []
  end.

(** Filled on the left up to the width. *)
Definition fill (c w : Z) (s : list Z) : list Z :=
  replicate (Z.to_nat (w - Z.of_nat (length s))) c ++ s.
Definition blank (m : modifiers) : Z := if m_zero m then 48 else 32.

(** The text of a piece.  The sign comes before the filling, and a string is
    not filled at all under the zero flag. *)
Definition piece_text (p : piece) (t : list Z) : Prop :=
  match p with
  | PText s => t = s
  | PSigned m _ v =>
      ∃ ds, numeral_of decimal (Z.abs v) ds ∧
        t = if v <? 0 then 45 :: fill (blank m) (width_of m - 1) ds
            else fill (blank m) (width_of m) ds
  | PUnsigned m v => ∃ ds, numeral_of decimal v ds ∧ t = fill (blank m) (width_of m) ds
  | PHex m upper v =>
      ∃ ds, numeral_of (hexadecimal upper) v ds ∧ t = fill (blank m) (width_of m) ds
  | PPointer _ v => ∃ ds, numeral_of (hexadecimal false) v ds ∧ t = str "0x" ++ fill 48 16 ds
  | PString m s _ =>
      let u := default (str "(null)") s in
      t = if m_zero m then u else fill 32 (width_of m) u
  | PChar _ c => t = [c]
  | PPercent _ => t = str "%"
  | PUnknown _ c => t = 37 :: [c]
  end.

(** The text, the syntax and the arguments of a whole format. *)
Definition prints (ps : list piece) (t : list Z) : Prop :=
  ∃ ts, Forall2 piece_text ps ts ∧ t = concat ts.
Definition format_syntax (ps : list piece) : list Z := concat (piece_syntax <$> ps).
Definition format_args (ps : list piece) : list va := concat (piece_args <$> ps).

(** *** A numeral is determined by its value *)

Lemma digit_val_range al c : c ∈ al → 0 ≤ digit_val al c < Z.of_nat (length al).
Proof.
  intros H. unfold digit_val. destruct (list_find _ al) as [[i x]|] eqn:E.
  - apply list_find_Some in E as (E & _). apply lookup_lt_Some in E. lia.
  - apply list_find_None in E. rewrite Forall_forall in E. by destruct (E c H).
Qed.

Lemma digit_val_inj al c d : c ∈ al → d ∈ al → digit_val al c = digit_val al d → c = d.
Proof.
  intros Hc Hd. unfold digit_val.
  destruct (list_find (λ x, x = c) al) as [[i x]|] eqn:E;
    [|apply list_find_None in E; rewrite Forall_forall in E; by destruct (E c Hc)].
  destruct (list_find (λ x, x = d) al) as [[j y]|] eqn:E';
    [|apply list_find_None in E'; rewrite Forall_forall in E'; by destruct (E' d Hd)].
  apply list_find_Some in E as (E & -> & _). apply list_find_Some in E' as (E' & -> & _).
  intros H. assert (i = j) as <- by lia. congruence.
Qed.

(** The value of a numeral read from its least significant digit. *)
Notation low_value al s :=
  (foldr (λ c a, a * Z.of_nat (length al) + digit_val al c) 0 s).

Lemma low_value_nonneg al s : Forall (.∈ al) s → 0 ≤ low_value al s.
Proof.
  induction 1 as [|c s Hc _ IH]; simpl; [done|]. pose proof (digit_val_range al c Hc). nia.
Qed.

Lemma low_value_pos al s :
  al !! 0%nat = Some 48 → Forall (.∈ al) s → last s ≠ Some 48 → s ≠ [] → 0 < low_value al s.
Proof.
  intros A F L N. induction F as [|c s Hc F IH]; [done|]. simpl. clear N.
  pose proof (digit_val_range al c Hc). destruct s as [|d s].
  - simpl. assert (digit_val al c ≠ 0); [|lia]. intros E. apply L. simpl. f_equal.
    apply (digit_val_inj al); [done|by apply list_elem_of_lookup_2 in A|]. rewrite E.
    destruct al as [|x al]; [done|]. injection A as ->. unfold digit_val. simpl. done.
  - rewrite last_cons_cons in L. specialize (IH L ltac:(done)). simpl in *. nia.
Qed.

Lemma low_value_inj al : ∀ s s',
  al !! 0%nat = Some 48 → Forall (.∈ al) s → Forall (.∈ al) s' →
  last s ≠ Some 48 → last s' ≠ Some 48 → low_value al s = low_value al s' → s = s'.
Proof.
  intros s s' A F. revert s'. induction F as [|c s Hc F IH]; intros s' F' L L' E.
  - destruct s' as [|d s']; [done|]. pose proof (low_value_pos al _ A F' L' ltac:(done)). simpl in *. lia.
  - assert (0 < low_value al (c :: s)) as P by (apply low_value_pos; try done; by constructor).
    destruct F' as [|d s' Hd F']; [simpl in *; lia|]. simpl in E.
    pose proof (digit_val_range al c Hc). pose proof (digit_val_range al d Hd).
    assert (low_value al s = low_value al s' ∧ digit_val al c = digit_val al d) as [Es Ed]
      by (apply (Z.div_mod_unique (Z.of_nat (length al))); lia).
    f_equal; [by apply (digit_val_inj al)|]. apply IH; [done| | |done].
    + destruct s; [done|]. by rewrite last_cons_cons in L.
    + destruct s'; [done|]. by rewrite last_cons_cons in L'.
Qed.

Lemma numeral_of_unique al v ds ds' :
  al !! 0%nat = Some 48 → numeral_of al v ds → numeral_of al v ds' → ds = ds'.
Proof.
  intros A. rewrite <- (rev_involutive ds), <- (rev_involutive ds').
  generalize (rev ds) as s, (rev ds') as s'. intros s s' (F & V & N & Z0) (F' & V' & N' & Z0').
  rewrite numeral_rev in V, V'. f_equal. apply Forall_rev in F, F'.
  rewrite rev_involutive in F, F'.
  assert (∀ s : list Z, rev s ≠ [] → s ≠ []) as Rn by (by intros [|]).
  assert (∀ s : list Z, (head (rev s) = Some 48 → rev s = [48]) → s = [48] ∨ last s ≠ Some 48) as Cs.
  { intros u Hu. destruct (decide (last u = Some 48)) as [E|]; [|by right]. left.
    rewrite <- (rev_involutive u), Hu; [done|]. apply last_Some in E as (u' & ->).
    by rewrite rev_app_distr. }
  assert (digit_val al 48 = 0) as D0.
  { destruct al as [|x al']; [done|]. injection A as ->. done. }
  destruct (Cs s Z0) as [->|L], (Cs s' Z0') as [->|L']; [done| | |].
  - pose proof (low_value_pos al s' A F' L' (Rn _ N')). simpl in *. lia.
  - pose proof (low_value_pos al s A F L (Rn _ N)). simpl in *. lia.
  - apply (low_value_inj al); congruence.
Qed.

(** *** The digits of the code are that numeral *)

Lemma digit_loop_in al base : ∀ room v,
  Z.of_nat (length al) = base → 0 < base → Forall (.∈ al) (digit_loop room v base al).
Proof.
  induction room as [|room IH]; intros v L Hb; cbn [digit_loop]; [constructor|].
  destruct (v =? 0); constructor; [|by apply IH]. apply list_elem_of_In, nth_In.
  pose proof (Z.mod_pos_bound v base Hb). lia.
Qed.

Lemma digit_loop_last al base : ∀ room v,
  NoDup al → al !! 0%nat = Some 48 → Z.of_nat (length al) = base → 1 < base →
  0 ≤ v < base ^ Z.of_nat room → last (digit_loop room v base al) ≠ Some 48.
Proof.
  induction room as [|room IH]; intros v N A L Hb Hv; cbn [digit_loop]; [done|].
  destruct (Z.eqb_spec v 0) as [->|Hz]; [done|].
  rewrite Nat2Z.inj_succ, Z.pow_succ_r in Hv by lia.
  assert (0 ≤ v / base < base ^ Z.of_nat room) as Hq
    by (split; [apply Z.div_pos; lia|apply Z.div_lt_upper_bound; lia]).
  pose proof (IH (v / base) N A L Hb Hq) as Hl.
  pose proof (digit_loop_value base al room (v / base) N L Hb Hq) as Hval.
  destruct (digit_loop room (v / base) base al) as [|d s] eqn:E; [|by rewrite last_cons_cons].
  simpl in Hval. simpl. intros [= En].
  pose proof (Z.mod_pos_bound v base ltac:(lia)). pose proof (Z.div_mod v base ltac:(lia)).
  destruct (nth_lookup_or_length al (Z.to_nat (v mod base)) 0) as [El|]; [|lia].
  rewrite En in El. pose proof (NoDup_lookup _ _ _ _ N A El). lia.
Qed.

Definition alphabet_ok (al : list Z) : Prop :=
  NoDup al ∧ al !! 0%nat = Some 48 ∧ (length al = 10 ∨ length al = 16)%nat.

Lemma decimal_ok : alphabet_ok decimal.
Proof. split_and!; [apply (bool_decide_unpack _); by vm_compute|done|by left]. Qed.

Lemma hexadecimal_ok u : alphabet_ok (hexadecimal u).
Proof. destruct u; (split_and!; [apply (bool_decide_unpack _); by vm_compute|done|by right]). Qed.

Lemma uint_digits_numeral al v :
  alphabet_ok al → 0 ≤ v < 2 ^ 64 →
  numeral_of al v (rev (uint_digits v (Z.of_nat (length al)) al)).
Proof.
  intros (N & A & L) Hv. set (base := Z.of_nat (length al)). assert (1 < base) by lia.
  assert (2 ^ 64 ≤ base ^ 32) by (unfold base; destruct L as [-> | ->]; vm_compute; congruence).
  assert (digit_val al 48 = 0) as D0 by (destruct al as [|x al']; [done|]; by injection A as ->).
  split; [|split; [by apply uint_numeral|]].
  - apply Forall_rev. unfold uint_digits. destruct (v =? 0); [|apply digit_loop_in; lia].
    constructor; [|done]. by apply list_elem_of_lookup_2 in A.
  - unfold uint_digits. destruct (Z.eqb_spec v 0) as [->|Hz]; [done|].
    pose proof (digit_loop_last al base 32 v N A eq_refl ltac:(lia) ltac:(change (Z.of_nat 32) with 32; lia)) as Hl.
    assert (digit_loop 32 v base al ≠ []) as Hn.
    { cbn [digit_loop]. by rewrite (proj2 (Z.eqb_neq v 0)). }
    destruct (exists_last Hn) as (s & c & E). rewrite E in *. rewrite last_snoc in Hl.
    rewrite rev_app_distr. simpl. split; [done|]. intros [= ->]. done.
Qed.

Lemma uint_text_fill al v w z :
  alphabet_ok al → 0 ≤ v < 2 ^ 64 →
  ∃ ds, numeral_of al v ds ∧
    uint_text v (Z.of_nat (length al)) al w z = fill (if z then 48 else 32) w ds.
Proof.
  intros A Hv. eexists. split; [by apply uint_digits_numeral|].
  unfold uint_text, fill, pad_text. by rewrite length_rev.
Qed.

(** *** The scanner reads the syntax of a directive *)

Lemma decimal_digit c : c ∈ decimal ↔ 48 ≤ c ≤ 57.
Proof.
  change decimal with [48; 49; 50; 51; 52; 53; 54; 55; 56; 57].
  rewrite !elem_of_cons, elem_of_nil. lia.
Qed.

Lemma decimal_val c : 48 ≤ c ≤ 57 → digit_val decimal c = c - 48.
Proof.
  intros H. assert (c = 48 ∨ c = 49 ∨ c = 50 ∨ c = 51 ∨ c = 52 ∨ c = 53 ∨ c = 54 ∨ c = 55 ∨ c = 56 ∨ c = 57)
    as Hc by lia. repeat destruct Hc as [->|Hc]; try done. by subst.
Qed.

Notation read_from w ws := (foldl (λ a c, a * 10 + digit_val decimal c) w ws).

Lemma read_from_le ws : ∀ w, Forall (.∈ decimal) ws → 0 ≤ w → w ≤ read_from w ws.
Proof.
  induction ws as [|c ws IH]; intros w F Hw; simpl; [lia|]. apply Forall_cons in F as [Hc F].
  pose proof (digit_val_range decimal c Hc). etransitivity; [|apply IH; [done|lia]]. lia.
Qed.

Lemma scan_width_spec ws c fmt : c ∉ decimal → ∀ w,
  Forall (.∈ decimal) ws → 0 ≤ w → read_from w ws < 2 ^ 31 →
  scan_width w (ws ++ c :: fmt) = Ok (read_from w ws, c :: fmt).
Proof.
  intros Hc. induction ws as [|d ws IH]; intros w F Hw B; cbn [app scan_width foldl].
  - rewrite decimal_digit in Hc. destruct ((48 <=? c) && (c <=? 57)) eqn:E; [|done].
    apply andb_true_iff in E as [?%Z.leb_le ?%Z.leb_le]. lia.
  - apply Forall_cons in F as [Hd F]. pose proof (digit_val_range decimal d Hd) as R.
    cbn [foldl] in B. pose proof (read_from_le ws (w * 10 + digit_val decimal d) F ltac:(lia)) as Hle.
    rewrite decimal_digit in Hd. rewrite decimal_val in * by done.
    rewrite (proj2 (Z.leb_le 48 d)), (proj2 (Z.leb_le d 57)) by lia. cbn [andb].
    rewrite (proj2 (Z.ltb_lt _ (2 ^ 31))) by lia. apply IH; [done|lia|lia].
Qed.

Lemma scan_long_spec c fmt : c ≠ 108 → ∀ k n,
  scan_long n (replicate k 108 ++ c :: fmt) = Ok ((n + k)%nat, c :: fmt).
Proof.
  intros Hc. induction k as [|k IH]; intros n; cbn [replicate app scan_long].
  - rewrite (proj2 (Z.eqb_neq c 108)) by done. by rewrite Nat.add_0_r.
  - rewrite IH. do 2 f_equal. lia.
Qed.

Definition directive_of (m : modifiers) (c : Z) : directive :=
  Directive (m_zero m) (width_of m) (m_longs m) c.

Lemma scan_directive_spec m c fmt :
  modifiers_ok m → c ∉ decimal → c ≠ 108 →
  ∃ d', directive_syntax m c = 37 :: d' ∧ scan_directive (d' ++ fmt) = Ok (directive_of m c, fmt).
Proof.
  intros (F & B & Z0) Hd Hl. eexists. split; [done|].
  set (tl := m_width m ++ replicate (m_longs m) 108 ++ c :: fmt).
  assert (∃ x t, replicate (m_longs m) 108 ++ c :: fmt = x :: t ∧ x ∉ decimal) as (x & t & Ex & Hx).
  { destruct (m_longs m); simpl; eauto. eexists 108, _. split; [done|]. rewrite decimal_digit. lia. }
  assert (scan_width 0 tl = Ok (width_of m, replicate (m_longs m) 108 ++ c :: fmt)) as Sw.
  { subst tl. rewrite Ex. apply scan_width_spec; try done. }
  assert (m_zero m = false → head tl ≠ Some 48) as Ht.
  { intros E. specialize (Z0 E). subst tl. destruct (m_width m) as [|y ws]; [|done].
    rewrite Ex. simpl. intros [= ->]. apply Hx, decimal_digit. lia. }
  assert (((if m_zero m then str "0" else []) ++ m_width m ++ replicate (m_longs m) 108 ++ [c]) ++ fmt =
    (if m_zero m then str "0" else []) ++ tl) as ->.
  { subst tl. by rewrite <- !app_assoc. }
  assert (∀ z, (z = false → head tl ≠ Some 48) →
    ('(w, f) ← scan_width 0 tl; '(n, f) ← scan_long 0 f; c ← deref (head f);
     Ok (Directive z w n c, tail f)) = scan_directive ((if z then str "0" else []) ++ tl)) as Hs.
  { intros [|] Hz; [done|]. unfold scan_directive. cbn [app]. specialize (Hz eq_refl).
    destruct tl as [|y tl']; [subst; destruct (m_width m); simpl in *; congruence|]. simpl in Hz.
    cbn [head deref mbind outcome_bind]. rewrite (proj2 (Z.eqb_neq y 48)) by congruence. done. }
  rewrite <- Hs by done. rewrite Sw. cbn [mbind outcome_bind]. rewrite scan_long_spec by done. done.
Qed.

(** *** Each conversion prints its piece *)

Lemma signed_arg l v :
  (if negb (Nat.eqb l 0) then - 2 ^ 63 ≤ v < 2 ^ 63 else - 2 ^ 31 ≤ v < 2 ^ 31) → 
  (if Nat.leb 1 l then to_int64 (u64 v) else to_int32 (u32 v)) = v ∧ - 2 ^ 63 ≤ v < 2 ^ 63.
Proof.
  intros H. destruct l as [|l]; cbn [Nat.eqb negb Nat.leb] in *; (split; [|lia]).
  - unfold to_int32, u32. destruct (decide (0 ≤ v)).
    + rewrite Z.mod_small by lia. destruct (Z.ltb_spec v (2 ^ 31)); lia.
    + rewrite <- (Z_mod_plus_full v 1), Z.mod_small by lia.
      destruct (Z.ltb_spec (v + 1 * 2 ^ 32) (2 ^ 31)); lia.
  - unfold to_int64, u64. destruct (decide (0 ≤ v)).
    + rewrite Z.mod_small by lia. destruct (Z.ltb_spec v (2 ^ 63)); lia.
    + rewrite <- (Z_mod_plus_full v 1), Z.mod_small by lia.
      destruct (Z.ltb_spec (v + 1 * 2 ^ 64) (2 ^ 63)); lia.
Qed.

Lemma unsigned_arg l v :
  (if negb (Nat.eqb l 0) then 0 ≤ v < 2 ^ 64 else 0 ≤ v < 2 ^ 32) →
  (if Nat.leb 1 l then u64 v else u32 v) = v ∧ 0 ≤ v < 2 ^ 64.
Proof.
  intros H. destruct l as [|l]; cbn [Nat.eqb negb Nat.leb] in *; (split; [|lia]);
    unfold u64, u32; apply Z.mod_small; lia.
Qed.

Lemma int_text_spec v w z :
  - 2 ^ 63 ≤ v < 2 ^ 63 →
  ∃ ds, numeral_of decimal (Z.abs v) ds ∧
    int_text v w z = if v <? 0 then 45 :: fill (if z then 48 else 32) (w - 1) ds
                     else fill (if z then 48 else 32) w ds.
Proof.
  intros Hv. unfold int_text. change 10 with (Z.of_nat (length decimal)). change dec_digits with decimal.
  destruct (Z.ltb_spec v 0).
  - assert (add64 (- (v + 1)) 1 = Z.abs v) as ->.
    { unfold add64, u64. rewrite Z.mod_small by lia. lia. }
    destruct (uint_text_fill decimal (Z.abs v) (if w >? 0 then w - 1 else w) z decimal_ok) as (ds & N & ->);
      [lia|]. exists ds. split; [done|]. f_equal.
    destruct (w >? 0) eqn:E; [done|]. unfold fill.
    by rewrite !Z2Nat.nonpos by lia.
  - rewrite Z.abs_eq by lia. apply uint_text_fill; [apply decimal_ok|lia].
Qed.

Lemma string_text_spec u junk : nonzero u → string_text (u ++ 0 :: junk) = Ok u.
Proof.
  induction 1 as [|c u Hc _ IH]; [done|]. cbn [app string_text].
  rewrite (proj2 (Z.eqb_neq c 0)) by done. by rewrite IH.
Qed.

(** The directive of a piece that is one. *)
Definition piece_directive (p : piece) : option (modifiers * Z) :=
  match p with
  | PText _ => None
  | PSigned m i _ => Some (m, if i then 105 else 100)
  | PUnsigned m _ => Some (m, 117)
  | PHex m u _ => Some (m, if u then 88 else 120)
  | PPointer m _ => Some (m, 112)
  | PString m _ _ => Some (m, 115)
  | PChar m _ => Some (m, 99)
  | PPercent m => Some (m, 37)
  | PUnknown m c => Some (m, c)
  end.

Lemma piece_directive_syntax p m c :
  piece_ok p → piece_directive p = Some (m, c) →
  piece_syntax p = directive_syntax m c ∧ modifiers_ok m ∧ c ∉ decimal ∧ c ≠ 108.
Proof.
  intros P D. rewrite decimal_digit.
  destruct p as [s|m' i v|m' v|m' u v|m' v|m' s junk|m' v|m'|m' c']; try done;
    injection D as -> <-; cbn [piece_ok piece_syntax] in *; try (split_and!; [done|tauto|lia|lia]).
  - destruct i; (split_and!; [done|tauto|lia|lia]).
  - destruct u; (split_and!; [done|tauto|lia|lia]).
  - rewrite decimal_digit in P. tauto.
Qed.

(** The arguments left after a conversion are those after the piece's own. *)
Ltac pick_conversion :=
  unfold convert_text; cbn [d_conv d_long d_width d_zero directive_of Z.eqb Pos.eqb orb].

Lemma convert_piece m c p rest :
  piece_ok p → piece_directive p = Some (m, c) →
  ∃ t, piece_text p t ∧ convert_text (directive_of m c) (piece_args p ++ rest) = Ok (t, rest).
Proof.
  intros P M. destruct p as [s|m' i v|m' v|m' u v|m' v|m' s junk|m' v|m'|m' c']; [done|..];
    injection M as <- <-; cbn [piece_ok piece_text piece_args app] in *.
  - destruct P as [_ Hv]. destruct (signed_arg _ _ Hv) as [E R].
    destruct (int_text_spec v (width_of m') (m_zero m') R) as (ds & N & T).
    eexists. split; [exists ds; split; [done|reflexivity]|].
    destruct i; pick_conversion; unfold va_signed; rewrite E; cbn [mbind outcome_bind]; by rewrite T.
  - destruct P as [_ Hv]. destruct (unsigned_arg _ _ Hv) as [E R].
    destruct (uint_text_fill decimal v (width_of m') (m_zero m') decimal_ok R) as (ds & N & T).
    eexists. split; [exists ds; split; [done|reflexivity]|].
    pick_conversion. unfold va_unsigned. rewrite E. cbn [mbind outcome_bind]. do 2 f_equal. exact T.
  - destruct P as [_ Hv]. destruct (unsigned_arg _ _ Hv) as [E R].
    destruct (uint_text_fill (hexadecimal u) v (width_of m') (m_zero m') (hexadecimal_ok u) R)
      as (ds & N & T).
    eexists. split; [exists ds; split; [done|reflexivity]|].
    destruct u; pick_conversion; unfold va_unsigned; rewrite E; cbn [mbind outcome_bind];
      do 2 f_equal; exact T.
  - destruct P as [_ Hv].
    destruct (uint_text_fill (hexadecimal false) v 16 true (hexadecimal_ok false) Hv) as (ds & N & T).
    eexists. split; [exists ds; split; [done|reflexivity]|].
    pick_conversion. unfold va_unsigned. cbn [Nat.leb mbind outcome_bind]. rewrite u64_small by done.
    do 2 f_equal. f_equal. exact T.
  - destruct P as [_ Hs]. eexists. split; [reflexivity|].
    pick_conversion. cbn [va_string mbind outcome_bind].
    assert (string_text (default (str "(null)" ++ [0]) ((λ u, u ++ 0 :: junk) <$> s)) =
      Ok (default (str "(null)") s)) as ->.
    { destruct s as [s|]; [by apply string_text_spec|done]. }
    cbn [mbind outcome_bind]. by destruct (m_zero m').
  - destruct P as [_ Hc]. eexists. split; [reflexivity|]. pick_conversion.
    unfold va_signed. destruct (signed_arg 0 v) as [-> _]; [simpl; lia|]. cbn [mbind outcome_bind].
    by rewrite Z.mod_small by lia.
  - by eexists.
  - destruct P as (_ & Hk & _). eexists. split; [reflexivity|].
    change conversions with [100; 105; 117; 120; 88; 112; 115; 99; 37] in Hk.
    rewrite !elem_of_cons, elem_of_nil in Hk. unfold convert_text. cbn [d_conv directive_of].
    repeat (rewrite (proj2 (Z.eqb_neq c' _)) by (intros ->; apply Hk; tauto)). done.
Qed.

Lemma format_pieces ps : ∀ fuel rest junk,
  Forall piece_ok ps → (length (format_syntax ps) + S (length junk) ≤ fuel)%nat →
  ∃ t, prints ps t ∧ format_text fuel (format_syntax ps ++ 0 :: junk) (format_args ps ++ rest) = Ok t.
Proof.
  induction ps as [|p ps IH]; intros fuel rest junk F Hf.
  { exists []. split; [by exists []|]. destruct fuel; [simpl in Hf; lia|done]. }
  apply Forall_cons in F as [P F].
  unfold format_syntax, format_args in *. cbn [fmap list_fmap concat] in *. rewrite <- !app_assoc in *.
  destruct (piece_directive p) as [[m c]|] eqn:D.
  - destruct (piece_directive_syntax p m c P D) as (Es & M & Hd & Hl). rewrite Es in *.
    destruct (scan_directive_spec m c (concat (piece_syntax <$> ps) ++ 0 :: junk) M Hd Hl)
      as (d' & Ed & Hs). rewrite Ed in *. destruct fuel as [|fuel]; [simpl in Hf; lia|].
    destruct (IH fuel rest junk F) as (t & (ts & Ht & ->) & E).
    { rewrite length_app in Hf. cbn [length] in Hf. lia. }
    destruct (convert_piece m c p (concat (piece_args <$> ps) ++ rest) P D) as (t0 & T0 & Ec).
    exists (t0 ++ concat ts). split; [exists (t0 :: ts); split; [by constructor|done]|].
    cbn [app format_text]. change (37 =? 0) with false. change (37 =? 37) with true.
    cbn [negb]. rewrite Hs. cbn [mbind outcome_bind]. rewrite Ec. cbn [mbind outcome_bind].
    by rewrite E.
  - destruct p as [s| | | | | | | |]; try done. cbn [piece_ok piece_syntax piece_args app] in *. clear D.
    assert (∃ t, prints ps t ∧ format_text fuel (s ++ concat (piece_syntax <$> ps) ++ 0 :: junk)
      (concat (piece_args <$> ps) ++ rest) = Ok (s ++ t)) as (t & (ts & Ht & ->) & E).
    { revert fuel Hf. induction P as [|c s [Hc Hp] P IHs]; intros fuel Hf; [by apply IH|].
      destruct fuel as [|fuel]; [simpl in Hf; lia|]. destruct (IHs fuel) as (t & Ht & E); [simpl in Hf; lia|].
      exists t. split; [done|]. cbn [app format_text].
      rewrite (proj2 (Z.eqb_neq c 0)), (proj2 (Z.eqb_neq c 37)) by done. cbn [negb]. by rewrite E. }
    exists (s ++ concat ts). split; [|done]. exists (s :: ts). by split; [constructor|].
Qed.

Lemma piece_text_unique p t t' : piece_text p t → piece_text p t' → t = t'.
Proof.
  destruct p as [s|m i v|m v|m u v|m v|m s junk|m v|m|m c]; cbn [piece_text]; try congruence;
    intros (ds & N & ->) (ds' & N' & ->);
    assert (ds = ds') as <- by (eapply numeral_of_unique; [|exact N|exact N']; by try destruct u); done.
Qed.

Lemma prints_unique ps t t' : prints ps t → prints ps t' → t = t'.
Proof.
  intros (ts & H & ->) (ts' & H' & ->). f_equal. revert ts' H'.
  induction H as [|p t0 ps ts H _ IH]; intros ts' H'; inversion H' as [|? t1 ? ts1 H1 H2]; subst; [done|].
  f_equal; [by eapply piece_text_unique|by apply IH].
Qed.

(** ** Properties *)

(** C40: for every format made of ordinary text and of directives
    %[0][width][l...]conv with the conversions d, i, u, x, X, p, s, c, % or an
    unknown character, and for arguments of the types they name, [vsnprintf]
    prints one text: the decimal or hexadecimal numerals of the arguments (32
    bits wide, 64 with an l), strings ("(null)" for a null pointer), characters
    and padding as described by [piece_text].  It returns the length of the
    whole text as an int and leaves in the buffer its first [size - 1]
    characters, a NUL and the untouched rest, and never writes outside it.
    (The text differs from C's printf in two places: blanks stand after the
    sign of a negative number, and an unknown conversion is copied.) *)
Theorem vsnprintf_correct buf size ps junk rest :
  (size ≤ length buf)%nat → Forall piece_ok ps →
  ∃ t, prints ps t ∧ (∀ t', prints ps t' → t' = t) ∧
    vsnprintf buf size (format_syntax ps ++ 0 :: junk) (format_args ps ++ rest) =
    Ok (to_int32 (u32 (Z.of_nat (length t))), cut_text buf size t).
Proof.
  intros Hs F.
  destruct (format_pieces ps (S (length (format_syntax ps ++ 0 :: junk))) rest junk F) as (t & P & E).
  { rewrite length_app. simpl. lia. }
  exists t. split_and!; [done|intros t' P'; by apply (prints_unique ps)|].
  rewrite vsnprintf_spec by done. unfold text_of. by rewrite E.
Qed.

Definition demo_pieces : list piece :=
  [PSigned (Modifiers false (str "6") 0) false (-42); PText (str "=");
   PHex (Modifiers true (str "4") 1) false 255; PString (Modifiers false [] 0) None []].

Lemma demo_prints : prints demo_pieces (str "-   42=00ff(null)").
Proof.
  assert (∀ al v ds, bool_decide (Forall (.∈ al) ds) = true → numeral (Z.of_nat (length al)) al ds = v →
    (head ds ≠ Some 48 ∧ ds ≠ []) → numeral_of al v ds) as H.
  { intros al v ds F V [Hh Hn]. split_and!; [by apply bool_decide_eq_true in F|done|done|done]. }
  exists [str "-   42"; str "="; str "00ff"; str "(null)"]. split; [|done].
  repeat constructor; [exists (str "42")|exists (str "ff")];
    (split; [apply H; [vm_compute; reflexivity|vm_compute; reflexivity|done]|vm_compute; reflexivity]).
Qed.

Lemma vsnprintf_correct_witness :
  vsnprintf (replicate 12 7) 9 (str "%6d=%04lx%s" ++ [0]) [VInt (-42); VInt 255; VStr None] =
  Ok (17, str "-   42=0" ++ [0; 7; 7; 7]).
Proof.
  destruct (vsnprintf_correct (replicate 12 7) 9 demo_pieces [] []) as (t & _ & U & E).
  - rewrite length_replicate. lia.
  - repeat constructor; (discriminate || lia || done || apply (bool_decide_unpack _); vm_compute; exact I).
  - rewrite <- (U _ demo_prints) in E. exact E.
Defined.

(** A 64-bit value printed in decimal or hexadecimal reads back as itself:
    32 scratch digits are enough and none is lost. *)
Theorem fmt_uint_roundtrip v base digits :
  (base, digits) ∈ [(10, dec_digits); (16, lower_digits); (16, upper_digits)] → in_u64 v →
  numeral base digits (rev (uint_digits v base digits)) = v.
Proof.
  intros H Hv. rewrite !elem_of_cons, elem_of_nil in H.
  assert (NoDup digits ∧ Z.of_nat (length digits) = base ∧ digit_val digits 48 = 0 ∧
    (base = 10 ∨ base = 16)) as (N & L & D & Hb).
  { destruct H as [[= -> ->]|[[= -> ->]|[[= -> ->]|[]]]];
      (split_and!; [apply (bool_decide_unpack _); vm_compute; exact I|reflexivity|reflexivity|auto]). }
  apply uint_numeral; try done; destruct Hb as [->| ->]; vm_compute; congruence.
Qed.

Lemma fmt_uint_roundtrip_witness :
  numeral 10 dec_digits (rev (uint_digits 18446744073709551615 10 dec_digits)) = 18446744073709551615 ∧
  rev (uint_digits 18446744073709551615 10 dec_digits) = str "18446744073709551615".
Proof.
  split; [|vm_compute; reflexivity].
  apply (fmt_uint_roundtrip 18446744073709551615 10 dec_digits); [by constructor|unfold in_u64; lia].
Defined.

(** The log ring holds the last 65536 bytes of everything logged, and
    [klog_drain_tail n] hands out the last [n] complete lines and a trailing
    partial one, each cut to 255 characters. *)
Theorem ring_correct lvl s n m k :
  ring_ok k → (n ≤ length s)%nat → 0 < m →
  ∃ k', klog_raw_write lvl s n k = Ok k' ∧ ring_ok k' ∧
    contents k' = keep (contents k ++ take n s) ∧
    klog_drain_tail m k' =
    Ok (take 255 <$> drop (Z.to_nat (newlines (contents k') - m)) (lines [] (contents k'))).
Proof.
  intros O Hn Hm. exists (logged lvl (take n s) k).
  destruct (logged_spec lvl (take n s) k O) as (O' & E & _).
  split_and!; [by apply log_bytes_spec|done|done|by apply drain_spec].
Qed.

Definition demo_klog : klog := Klog ∅ 0 0 [Backend 0 1] [].

Lemma demo_ring_ok : ring_ok demo_klog.
Proof. constructor; simpl; unfold KLOG_RING_SIZE; lia. Qed.

Lemma ring_correct_witness :
  ∃ k', klog_raw_write 3 [97; 10; 98] 3 demo_klog = Ok k' ∧ contents k' = [97; 10; 98].
Proof.
  destruct (ring_correct 3 [97; 10; 98] 3 1 demo_klog demo_ring_ok) as (k' & E & _ & C & _);
    [simpl; lia|lia|].
  exists k'. split; [exact E|]. rewrite C. vm_compute. reflexivity.
Defined.

(** User output reaches the ring only line by line behind the marker
    [user[pid=N]: ], which always fits its buffer, so that it cannot be taken
    for a kernel line. *)
Theorem user_write_prefixed lvl pid buf len prefix0 k :
  ring_ok k → length prefix0 = 32%nat → (len ≤ length buf)%nat →
  ∃ k', klog_user_write lvl pid buf len prefix0 k = Ok k' ∧ ring_ok k' ∧
    contents k' =
    keep (contents k ++ concat ((λ l, user_prefix pid ++ l) <$> lines [] (take len buf))).
Proof.
  intros O Lp Lb. rewrite user_write_spec by done. eexists. split; [done|].
  destruct (log_all_spec lvl (user_pieces pid (take len buf)) k O) as (O' & E & _).
  split; [done|]. rewrite E. do 2 f_equal. apply concat_pieces.
Qed.

Lemma user_write_prefixed_witness :
  ∃ k', klog_user_write 3 7 [97; 10; 98] 3 (replicate 32 0) demo_klog = Ok k' ∧
    contents k' = str "user[pid=7]: a" ++ [10] ++ str "user[pid=7]: b".
Proof.
  destruct (user_write_prefixed 3 7 [97; 10; 98] 3 (replicate 32 0) demo_klog demo_ring_ok)
    as (k' & E & _ & C); [reflexivity|simpl; lia|].
  exists k'. split; [exact E|]. rewrite C. vm_compute. reflexivity.
Defined.

(** [vprintk] logs exactly one line of at most 1023 bytes that starts with
    the timestamp and level header and ends in a newline, whatever the message. *)
Theorem vprintk_one_line level fmt ap us line0 k t :
  ring_ok k → 0 ≤ level ≤ 4 → length line0 = 1024%nat → text_of fmt ap = Ok t →
  ∃ u, vprintk level fmt ap us line0 k = Ok (logged level (u ++ [10]) k) ∧
    header level us `prefix_of` u ++ [10] ∧ (length u ≤ 1022)%nat.
Proof. apply vprintk_spec. Qed.

Lemma vprintk_one_line_witness :
  ∃ u, vprintk 3 (str "up %s" ++ [0]) [VStr None] 1500000 (replicate 1024 0) demo_klog =
         Ok (logged 3 (u ++ [10]) demo_klog) ∧
    header 3 1500000 `prefix_of` u ++ [10] ∧ (length u ≤ 1022)%nat.
Proof.
  apply (vprintk_one_line 3 (str "up %s" ++ [0]) [VStr None] 1500000 (replicate 1024 0) demo_klog
    (str "up (null)") demo_ring_ok); [lia|reflexivity|vm_compute; reflexivity].
Defined.

(** A format that ends in '%' is read past its terminator. *)
Example format_ends_in_percent : text_of (str "100%" ++ [0]) [] = Fault.
Proof. vm_compute. reflexivity. Qed.

(** The sign of a negative number is printed before the blanks that pad it. *)
Example negative_space_padded :
  text_of (str "%5d" ++ [0]) [VInt (-42)] = Ok (str "-  42").
Proof. vm_compute. reflexivity. Qed.
