(* ===== verification/Scandata.v ===== *)
(** * kernel/drivers/scandata.c: scancodes to keys to characters

    The key codes of include/jnu/drivers/keycode.h are an enumeration; a
    [uint16_t] key code is [Some] of one, or [None] for a value from [KEY_MAX]
    on.  The designated initialisers of the C tables are the branches of a
    match, every other entry being zero. *)

From S2P Require Import Prelude.
From stdpp Require Import strings.
#[local] Open Scope Z_scope.

Inductive key : Set :=
  | KEY_NONE | KEY_A | KEY_B | KEY_C | KEY_D | KEY_E | KEY_F | KEY_G | KEY_H | KEY_I | KEY_J
  | KEY_K | KEY_L | KEY_M | KEY_N | KEY_O | KEY_P | KEY_Q | KEY_R | KEY_S | KEY_T | KEY_U
  | KEY_V | KEY_W | KEY_X | KEY_Y | KEY_Z | KEY_1 | KEY_2 | KEY_3 | KEY_4 | KEY_5 | KEY_6
  | KEY_7 | KEY_8 | KEY_9 | KEY_0 | KEY_MINUS | KEY_EQUAL | KEY_LBRACKET | KEY_RBRACKET
  | KEY_BACKSLASH | KEY_SEMICOLON | KEY_APOSTROPHE | KEY_GRAVE | KEY_COMMA | KEY_PERIOD
  | KEY_SLASH | KEY_ENTER | KEY_TAB | KEY_SPACE | KEY_BACKSPACE | KEY_ESCAPE | KEY_LSHIFT
  | KEY_RSHIFT | KEY_LCTRL | KEY_RCTRL | KEY_LALT | KEY_RALT | KEY_CAPSLOCK | KEY_NUMLOCK
  | KEY_SCROLLLOCK | KEY_F1 | KEY_F2 | KEY_F3 | KEY_F4 | KEY_F5 | KEY_F6 | KEY_F7 | KEY_F8
  | KEY_F9 | KEY_F10 | KEY_F11 | KEY_F12 | KEY_INSERT | KEY_DELETE | KEY_HOME | KEY_END
  | KEY_PAGEUP | KEY_PAGEDOWN | KEY_UP | KEY_DOWN | KEY_LEFT | KEY_RIGHT | KEY_KP0 | KEY_KP1
  | KEY_KP2 | KEY_KP3 | KEY_KP4 | KEY_KP5 | KEY_KP6 | KEY_KP7 | KEY_KP8 | KEY_KP9 | KEY_KPPLUS
  | KEY_KPMINUS | KEY_KPSTAR | KEY_KPSLASH | KEY_KPDOT | KEY_KPENTER | KEY_PRINTSCREEN
  | KEY_PAUSE | KEY_BREAK | KEY_LGUI | KEY_RGUI | KEY_APPS.

#[export] Instance key_eq_dec : EqDecision key.
Proof. solve_decision. Defined.

(** [include/jnu/drivers/keycode.h] *)
Definition KMOD_SHIFT : Z := 1.
Definition KMOD_CTRL : Z := 2.
Definition KMOD_ALT : Z := 4.
Definition KMOD_CAPSLOCK : Z := 8.
Definition KMOD_NUMLOCK : Z := 16.
Definition KMOD_ALTGR : Z := 32.
Definition KMOD_SUPER : Z := 64.

Definition sc1_keycode (idx : Z) : key :=
  match idx with
  | 0x01 => KEY_ESCAPE | 0x02 => KEY_1 | 0x03 => KEY_2 | 0x04 => KEY_3 | 0x05 => KEY_4
  | 0x06 => KEY_5 | 0x07 => KEY_6 | 0x08 => KEY_7 | 0x09 => KEY_8 | 0x0A => KEY_9
  | 0x0B => KEY_0 | 0x0C => KEY_MINUS | 0x0D => KEY_EQUAL | 0x0E => KEY_BACKSPACE
  | 0x0F => KEY_TAB | 0x10 => KEY_Q | 0x11 => KEY_W | 0x12 => KEY_E | 0x13 => KEY_R
  | 0x14 => KEY_T | 0x15 => KEY_Y | 0x16 => KEY_U | 0x17 => KEY_I | 0x18 => KEY_O
  | 0x19 => KEY_P | 0x1A => KEY_LBRACKET | 0x1B => KEY_RBRACKET | 0x1C => KEY_ENTER
  | 0x1D => KEY_LCTRL | 0x1E => KEY_A | 0x1F => KEY_S | 0x20 => KEY_D | 0x21 => KEY_F
  | 0x22 => KEY_G | 0x23 => KEY_H | 0x24 => KEY_J | 0x25 => KEY_K | 0x26 => KEY_L
  | 0x27 => KEY_SEMICOLON | 0x28 => KEY_APOSTROPHE | 0x29 => KEY_GRAVE | 0x2A => KEY_LSHIFT
  | 0x2B => KEY_BACKSLASH | 0x2C => KEY_Z | 0x2D => KEY_X | 0x2E => KEY_C | 0x2F => KEY_V
  | 0x30 => KEY_B | 0x31 => KEY_N | 0x32 => KEY_M | 0x33 => KEY_COMMA | 0x34 => KEY_PERIOD
  | 0x35 => KEY_SLASH | 0x36 => KEY_RSHIFT | 0x37 => KEY_KPSTAR | 0x38 => KEY_LALT
  | 0x39 => KEY_SPACE | 0x3A => KEY_CAPSLOCK | 0x3B => KEY_F1 | 0x3C => KEY_F2 | 0x3D => KEY_F3
  | 0x3E => KEY_F4 | 0x3F => KEY_F5 | 0x40 => KEY_F6 | 0x41 => KEY_F7 | 0x42 => KEY_F8
  | 0x43 => KEY_F9 | 0x44 => KEY_F10 | 0x45 => KEY_NUMLOCK | 0x46 => KEY_SCROLLLOCK
  | 0x47 => KEY_KP7 | 0x48 => KEY_KP8 | 0x49 => KEY_KP9 | 0x4A => KEY_KPMINUS | 0x4B => KEY_KP4
  | 0x4C => KEY_KP5 | 0x4D => KEY_KP6 | 0x4E => KEY_KPPLUS | 0x4F => KEY_KP1 | 0x50 => KEY_KP2
  | 0x51 => KEY_KP3 | 0x52 => KEY_KP0 | 0x53 => KEY_KPDOT | 0x57 => KEY_F11 | 0x58 => KEY_F12
  | _ => KEY_NONE
  end.

Definition sc1_e0_keycode (idx : Z) : key :=
  match idx with
  | 0x1C => KEY_KPENTER | 0x1D => KEY_RCTRL | 0x35 => KEY_KPSLASH | 0x37 => KEY_PRINTSCREEN
  | 0x38 => KEY_RALT | 0x46 => KEY_BREAK | 0x47 => KEY_HOME | 0x48 => KEY_UP
  | 0x49 => KEY_PAGEUP | 0x4B => KEY_LEFT | 0x4D => KEY_RIGHT | 0x4F => KEY_END
  | 0x50 => KEY_DOWN | 0x51 => KEY_PAGEDOWN | 0x52 => KEY_INSERT | 0x53 => KEY_DELETE
  | 0x5B => KEY_LGUI | 0x5C => KEY_RGUI | 0x5D => KEY_APPS
  | _ => KEY_NONE
  end.

Definition ascii_unshift (k : key) : Z :=
  match k with
  | KEY_A => 97 | KEY_B => 98 | KEY_C => 99 | KEY_D => 100 | KEY_E => 101 | KEY_F => 102
  | KEY_G => 103 | KEY_H => 104 | KEY_I => 105 | KEY_J => 106 | KEY_K => 107 | KEY_L => 108
  | KEY_M => 109 | KEY_N => 110 | KEY_O => 111 | KEY_P => 112 | KEY_Q => 113 | KEY_R => 114
  | KEY_S => 115 | KEY_T => 116 | KEY_U => 117 | KEY_V => 118 | KEY_W => 119 | KEY_X => 120
  | KEY_Y => 121 | KEY_Z => 122 | KEY_1 => 49 | KEY_2 => 50 | KEY_3 => 51 | KEY_4 => 52
  | KEY_5 => 53 | KEY_6 => 54 | KEY_7 => 55 | KEY_8 => 56 | KEY_9 => 57 | KEY_0 => 48
  | KEY_MINUS => 45 | KEY_EQUAL => 61 | KEY_LBRACKET => 91 | KEY_RBRACKET => 93
  | KEY_BACKSLASH => 92 | KEY_SEMICOLON => 59 | KEY_APOSTROPHE => 39 | KEY_GRAVE => 96
  | KEY_COMMA => 44 | KEY_PERIOD => 46 | KEY_SLASH => 47 | KEY_ENTER => 10 | KEY_TAB => 9
  | KEY_SPACE => 32 | KEY_BACKSPACE => 8 | KEY_ESCAPE => 27 | KEY_KP0 => 48 | KEY_KP1 => 49
  | KEY_KP2 => 50 | KEY_KP3 => 51 | KEY_KP4 => 52 | KEY_KP5 => 53 | KEY_KP6 => 54
  | KEY_KP7 => 55 | KEY_KP8 => 56 | KEY_KP9 => 57 | KEY_KPPLUS => 43 | KEY_KPMINUS => 45
  | KEY_KPSTAR => 42 | KEY_KPSLASH => 47 | KEY_KPDOT => 46 | KEY_KPENTER => 10
  | _ => 0
  end.

Definition ascii_shift (k : key) : Z :=
  match k with
  | KEY_A => 65 | KEY_B => 66 | KEY_C => 67 | KEY_D => 68 | KEY_E => 69 | KEY_F => 70
  | KEY_G => 71 | KEY_H => 72 | KEY_I => 73 | KEY_J => 74 | KEY_K => 75 | KEY_L => 76
  | KEY_M => 77 | KEY_N => 78 | KEY_O => 79 | KEY_P => 80 | KEY_Q => 81 | KEY_R => 82
  | KEY_S => 83 | KEY_T => 84 | KEY_U => 85 | KEY_V => 86 | KEY_W => 87 | KEY_X => 88
  | KEY_Y => 89 | KEY_Z => 90 | KEY_1 => 33 | KEY_2 => 64 | KEY_3 => 35 | KEY_4 => 36
  | KEY_5 => 37 | KEY_6 => 94 | KEY_7 => 38 | KEY_8 => 42 | KEY_9 => 40 | KEY_0 => 41
  | KEY_MINUS => 95 | KEY_EQUAL => 43 | KEY_LBRACKET => 123 | KEY_RBRACKET => 125
  | KEY_BACKSLASH => 124 | KEY_SEMICOLON => 58 | KEY_APOSTROPHE => 34 | KEY_GRAVE => 126
  | KEY_COMMA => 60 | KEY_PERIOD => 62 | KEY_SLASH => 63 | KEY_ENTER => 10 | KEY_TAB => 9
  | KEY_SPACE => 32 | KEY_BACKSPACE => 8 | KEY_ESCAPE => 27 | KEY_KP0 => 48 | KEY_KP1 => 49
  | KEY_KP2 => 50 | KEY_KP3 => 51 | KEY_KP4 => 52 | KEY_KP5 => 53 | KEY_KP6 => 54
  | KEY_KP7 => 55 | KEY_KP8 => 56 | KEY_KP9 => 57 | KEY_KPPLUS => 43 | KEY_KPMINUS => 45
  | KEY_KPSTAR => 42 | KEY_KPSLASH => 47 | KEY_KPDOT => 46 | KEY_KPENTER => 10
  | _ => 0
  end.

(** [x & bit] as a truth value. *)
Definition mod_on (mods bit : Z) : bool := negb (Z.land mods bit =? 0).

Definition scandata_resolve_numpad (k : key) (modifiers : Z) : key :=
  if mod_on modifiers KMOD_NUMLOCK then k else
  match k with
  | KEY_KP7 => KEY_HOME | KEY_KP8 => KEY_UP | KEY_KP9 => KEY_PAGEUP | KEY_KP4 => KEY_LEFT
  | KEY_KP6 => KEY_RIGHT | KEY_KP1 => KEY_END | KEY_KP2 => KEY_DOWN | KEY_KP3 => KEY_PAGEDOWN
  | KEY_KP0 => KEY_INSERT | KEY_KPDOT => KEY_DELETE
  | _ => k
  end.

Definition scandata_sc1_to_keycode (scancode : Z) (e0_prefix : bool) : key :=
  let idx := Z.land scancode 0x7F in
  if e0_prefix then sc1_e0_keycode idx else sc1_keycode idx.

(** The character before Ctrl: numpad, Shift and Caps Lock. *)
Definition scandata_keycode_to_ascii_unmodified (keycode : option key) (modifiers : Z) : Z :=
  match keycode with
  | None => 0
  | Some k =>
      let k := scandata_resolve_numpad k modifiers in
      let c := if mod_on modifiers KMOD_SHIFT then ascii_shift k else ascii_unshift k in
      if mod_on modifiers KMOD_CAPSLOCK then
        if (97 <=? c) && (c <=? 122) then c - 32
        else if (65 <=? c) && (c <=? 90) then c + 32 else c
      else c
  end.

Definition scandata_keycode_to_ascii (keycode : option key) (modifiers : Z) : Z :=
  match keycode with
  | None => 0
  | Some k =>
      let k := scandata_resolve_numpad k modifiers in
      let c := if mod_on modifiers KMOD_SHIFT then ascii_shift k else ascii_unshift k in
      let c := if mod_on modifiers KMOD_CAPSLOCK then
                 if (97 <=? c) && (c <=? 122) then c - 32
                 else if (65 <=? c) && (c <=? 90) then c + 32 else c
               else c in
      if mod_on modifiers KMOD_CTRL && (97 <=? c) && (c <=? 122) then c - 97 + 1 else c
  end.

Definition keycode_names (k : key) : option string :=
  match k with
  | KEY_NONE => Some "KEY_NONE"%string | KEY_A => Some "KEY_A"%string
  | KEY_B => Some "KEY_B"%string | KEY_C => Some "KEY_C"%string | KEY_D => Some "KEY_D"%string
  | KEY_E => Some "KEY_E"%string | KEY_F => Some "KEY_F"%string | KEY_G => Some "KEY_G"%string
  | KEY_H => Some "KEY_H"%string | KEY_I => Some "KEY_I"%string | KEY_J => Some "KEY_J"%string
  | KEY_K => Some "KEY_K"%string | KEY_L => Some "KEY_L"%string | KEY_M => Some "KEY_M"%string
  | KEY_N => Some "KEY_N"%string | KEY_O => Some "KEY_O"%string | KEY_P => Some "KEY_P"%string
  | KEY_Q => Some "KEY_Q"%string | KEY_R => Some "KEY_R"%string | KEY_S => Some "KEY_S"%string
  | KEY_T => Some "KEY_T"%string | KEY_U => Some "KEY_U"%string | KEY_V => Some "KEY_V"%string
  | KEY_W => Some "KEY_W"%string | KEY_X => Some "KEY_X"%string | KEY_Y => Some "KEY_Y"%string
  | KEY_Z => Some "KEY_Z"%string | KEY_1 => Some "KEY_1"%string | KEY_2 => Some "KEY_2"%string
  | KEY_3 => Some "KEY_3"%string | KEY_4 => Some "KEY_4"%string | KEY_5 => Some "KEY_5"%string
  | KEY_6 => Some "KEY_6"%string | KEY_7 => Some "KEY_7"%string | KEY_8 => Some "KEY_8"%string
  | KEY_9 => Some "KEY_9"%string | KEY_0 => Some "KEY_0"%string
  | KEY_MINUS => Some "KEY_MINUS"%string | KEY_EQUAL => Some "KEY_EQUAL"%string
  | KEY_LBRACKET => Some "KEY_LBRACKET"%string | KEY_RBRACKET => Some "KEY_RBRACKET"%string
  | KEY_BACKSLASH => Some "KEY_BACKSLASH"%string | KEY_SEMICOLON => Some "KEY_SEMICOLON"%string
  | KEY_APOSTROPHE => Some "KEY_APOSTROPHE"%string | KEY_GRAVE => Some "KEY_GRAVE"%string
  | KEY_COMMA => Some "KEY_COMMA"%string | KEY_PERIOD => Some "KEY_PERIOD"%string
  | KEY_SLASH => Some "KEY_SLASH"%string | KEY_ENTER => Some "KEY_ENTER"%string
  | KEY_TAB => Some "KEY_TAB"%string | KEY_SPACE => Some "KEY_SPACE"%string
  | KEY_BACKSPACE => Some "KEY_BACKSPACE"%string | KEY_ESCAPE => Some "KEY_ESCAPE"%string
  | KEY_LSHIFT => Some "KEY_LSHIFT"%string | KEY_RSHIFT => Some "KEY_RSHIFT"%string
  | KEY_LCTRL => Some "KEY_LCTRL"%string | KEY_RCTRL => Some "KEY_RCTRL"%string
  | KEY_LALT => Some "KEY_LALT"%string | KEY_RALT => Some "KEY_RALT"%string
  | KEY_CAPSLOCK => Some "KEY_CAPSLOCK"%string | KEY_NUMLOCK => Some "KEY_NUMLOCK"%string
  | KEY_SCROLLLOCK => Some "KEY_SCROLLLOCK"%string | KEY_F1 => Some "KEY_F1"%string
  | KEY_F2 => Some "KEY_F2"%string | KEY_F3 => Some "KEY_F3"%string
  | KEY_F4 => Some "KEY_F4"%string | KEY_F5 => Some "KEY_F5"%string
  | KEY_F6 => Some "KEY_F6"%string | KEY_F7 => Some "KEY_F7"%string
  | KEY_F8 => Some "KEY_F8"%string | KEY_F9 => Some "KEY_F9"%string
  | KEY_F10 => Some "KEY_F10"%string | KEY_F11 => Some "KEY_F11"%string
  | KEY_F12 => Some "KEY_F12"%string | KEY_INSERT => Some "KEY_INSERT"%string
  | KEY_DELETE => Some "KEY_DELETE"%string | KEY_HOME => Some "KEY_HOME"%string
  | KEY_END => Some "KEY_END"%string | KEY_PAGEUP => Some "KEY_PAGEUP"%string
  | KEY_PAGEDOWN => Some "KEY_PAGEDOWN"%string | KEY_UP => Some "KEY_UP"%string
  | KEY_DOWN => Some "KEY_DOWN"%string | KEY_LEFT => Some "KEY_LEFT"%string
  | KEY_RIGHT => Some "KEY_RIGHT"%string | KEY_KP0 => Some "KEY_KP0"%string
  | KEY_KP1 => Some "KEY_KP1"%string | KEY_KP2 => Some "KEY_KP2"%string
  | KEY_KP3 => Some "KEY_KP3"%string | KEY_KP4 => Some "KEY_KP4"%string
  | KEY_KP5 => Some "KEY_KP5"%string | KEY_KP6 => Some "KEY_KP6"%string
  | KEY_KP7 => Some "KEY_KP7"%string | KEY_KP8 => Some "KEY_KP8"%string
  | KEY_KP9 => Some "KEY_KP9"%string | KEY_KPPLUS => Some "KEY_KPPLUS"%string
  | KEY_KPMINUS => Some "KEY_KPMINUS"%string | KEY_KPSTAR => Some "KEY_KPSTAR"%string
  | KEY_KPSLASH => Some "KEY_KPSLASH"%string | KEY_KPDOT => Some "KEY_KPDOT"%string
  | KEY_KPENTER => Some "KEY_KPENTER"%string | KEY_PRINTSCREEN => Some "KEY_PRINTSCREEN"%string
  | KEY_PAUSE => Some "KEY_PAUSE"%string | KEY_BREAK => Some "KEY_BREAK"%string
  | KEY_LGUI => Some "KEY_LGUI"%string | KEY_RGUI => Some "KEY_RGUI"%string
  | KEY_APPS => Some "KEY_APPS"%string
  end.

Definition scandata_keycode_name (keycode : option key) : string :=
  match keycode with
  | None => "KEY_UNKNOWN"
  | Some k => default "KEY_UNKNOWN"%string (keycode_names k)
  end.
