(* ===== verification/Kbd.v ===== *)
(** * kernel/drivers/kbd.c: the PS/2 keyboard

    The interrupt handler decodes scancode bytes into key events in a ring of
    128 slots; [kbd_cdev_read] turns them into bytes.  The i8042 handshake is
    port I/O and not modelled: a LED update is recorded as the byte sent. *)

From S2P Require Import Prelude Cmdline Scandata.

Definition KBD_RING_SIZE : nat := 128.

Definition e1_pause_seq : list Z := [0xE1; 0x1D; 0x45; 0xE1; 0x9D; 0xC5].
Definition E1_SEQ_LEN : nat := 6.

Record key_event := KeyEvent { ev_key : key; ev_mods : Z; ev_release : bool }.

Record kbd := Kbd {
  kbd_ring : list key_event;
  kbd_head : nat;
  kbd_tail : nat;
  kbd_drops : Z;
  shift_held : bool; ctrl_held : bool; lalt_held : bool; ralt_held : bool; super_held : bool;
  caps_on : bool; numlock_on : bool;
  kbd_leds_dirty : bool;
  leds_sent : list Z;
  e0_pending : bool;
  e1_state : nat
}.

Definition with_ring (r : list key_event) (h t : nat) (d : Z) (s : kbd) : kbd :=
  Kbd r h t d (shift_held s) (ctrl_held s) (lalt_held s) (ralt_held s) (super_held s)
      (caps_on s) (numlock_on s) (kbd_leds_dirty s) (leds_sent s) (e0_pending s) (e1_state s).

Definition with_mods (sh ct la ra su ca nu dirty : bool) (s : kbd) : kbd :=
  Kbd (kbd_ring s) (kbd_head s) (kbd_tail s) (kbd_drops s) sh ct la ra su ca nu dirty
      (leds_sent s) (e0_pending s) (e1_state s).

Definition with_prefix (e0 : bool) (e1 : nat) (s : kbd) : kbd :=
  Kbd (kbd_ring s) (kbd_head s) (kbd_tail s) (kbd_drops s) (shift_held s) (ctrl_held s)
      (lalt_held s) (ralt_held s) (super_held s) (caps_on s) (numlock_on s) (kbd_leds_dirty s)
      (leds_sent s) e0 e1.

Definition with_leds (dirty : bool) (sent : list Z) (s : kbd) : kbd :=
  Kbd (kbd_ring s) (kbd_head s) (kbd_tail s) (kbd_drops s) (shift_held s) (ctrl_held s)
      (lalt_held s) (ralt_held s) (super_held s) (caps_on s) (numlock_on s) dirty sent
      (e0_pending s) (e1_state s).

Definition event_put (k : key) (mods : Z) (release : bool) (s : kbd) : outcome kbd :=
  let next := ((kbd_head s + 1) mod KBD_RING_SIZE)%nat in
  if negb (Nat.eqb next (kbd_tail s)) then
    r ← set_at (kbd_ring s) (kbd_head s) (KeyEvent k mods release);
    Ok (with_ring r next (kbd_tail s) (kbd_drops s) s)
  else Ok (with_ring (kbd_ring s) (kbd_head s) (kbd_tail s) (u32 (kbd_drops s + 1)) s).

Definition current_modifiers (s : kbd) : Z :=
  let mods := 0 in
  let mods := if shift_held s then Z.lor mods KMOD_SHIFT else mods in
  let mods := if ctrl_held s then Z.lor mods KMOD_CTRL else mods in
  let mods := if lalt_held s then Z.lor mods KMOD_ALT else mods in
  let mods := if ralt_held s then Z.lor mods KMOD_ALTGR else mods in
  let mods := if super_held s then Z.lor mods KMOD_SUPER else mods in
  let mods := if caps_on s then Z.lor mods KMOD_CAPSLOCK else mods in
  if numlock_on s then Z.lor mods KMOD_NUMLOCK else mods.

Definition kbd_update_modifiers (k : key) (release : bool) (s : kbd) : kbd :=
  let '(sh, ct, la, ra, su, ca, nu, di) :=
    (shift_held s, ctrl_held s, lalt_held s, ralt_held s, super_held s, caps_on s,
     numlock_on s, kbd_leds_dirty s) in
  match k with
  | KEY_LSHIFT | KEY_RSHIFT => with_mods (negb release) ct la ra su ca nu di s
  | KEY_LCTRL | KEY_RCTRL => with_mods sh (negb release) la ra su ca nu di s
  | KEY_LALT => with_mods sh ct (negb release) ra su ca nu di s
  | KEY_RALT => with_mods sh ct la (negb release) su ca nu di s
  | KEY_LGUI | KEY_RGUI => with_mods sh ct la ra (negb release) ca nu di s
  | KEY_CAPSLOCK => if negb release then with_mods sh ct la ra su (negb ca) nu true s else s
  | KEY_NUMLOCK => if negb release then with_mods sh ct la ra su ca (negb nu) true s else s
  | _ => s
  end.

Definition kbd_deliver_keycode (k : key) (release : bool) (s : kbd) : outcome kbd :=
  if decide (k = KEY_NONE) then Ok s else
  let mods := current_modifiers s in
  s ← event_put k mods release s;
  Ok (kbd_update_modifiers k release s).

Definition kbd_feed_scancode (sc : Z) (is_e0 : bool) (s : kbd) : outcome kbd :=
  let release := negb (Z.land sc 0x80 =? 0) in
  kbd_deliver_keycode (scandata_sc1_to_keycode sc is_e0) release s.

(** The part of the handler after the Pause sequence was ruled out. *)
Definition kbd_irq_plain (sc : Z) (s : kbd) : outcome kbd :=
  if sc =? 0xE1 then Ok (with_prefix false 1 s) else
  let is_e0 := e0_pending s in
  kbd_feed_scancode sc is_e0 (with_prefix false (e1_state s) s).

(** [sc] is the byte read from the data port. *)
Definition kbd_irq_handler (sc : Z) (s : kbd) : outcome kbd :=
  if sc =? 0xE0 then Ok (with_prefix true 0 s) else
  if Nat.ltb 0 (e1_state s) then
    c ← deref (e1_pause_seq !! e1_state s);
    if sc =? c then
      let s := with_prefix (e0_pending s) (e1_state s + 1) s in
      if Nat.eqb (e1_state s) E1_SEQ_LEN then
        s ← kbd_deliver_keycode KEY_PAUSE false s;
        Ok (with_prefix (e0_pending s) 0 s)
      else Ok s
    else kbd_irq_plain sc (with_prefix (e0_pending s) 0 s)
  else kbd_irq_plain sc s.

(** The LED byte [kbd_sync_leds] sends. *)
Definition kbd_leds (s : kbd) : Z :=
  let leds := 0 in
  let leds := if numlock_on s then Z.lor leds 2 else leds in
  if caps_on s then Z.lor leds 4 else leds.

Definition kbd_sync_leds_if_needed (s : kbd) : kbd :=
  if negb (kbd_leds_dirty s) then s else with_leds false (leds_sent s ++ [kbd_leds s]) s.

(** The bytes written at [out + out_off], or [None] when they do not fit. *)
Definition kbd_try_emit_event (ev : key_event) (out_cap out_off : nat) : option (list Z) :=
  if ev_release ev then Some [] else
  if mod_on (ev_mods ev) KMOD_ALT && negb (mod_on (ev_mods ev) KMOD_ALTGR) &&
     negb (mod_on (ev_mods ev) KMOD_CTRL) && negb (mod_on (ev_mods ev) KMOD_SUPER) then
    let meta_c := scandata_keycode_to_ascii_unmodified (Some (ev_key ev)) (ev_mods ev) in
    if meta_c =? 0 then Some [] else
    if Nat.ltb out_cap (out_off + 2) then None else Some [27; meta_c]
  else
    let c := scandata_keycode_to_ascii (Some (ev_key ev)) (ev_mods ev) in
    if c =? 0 then Some [] else
    if Nat.ltb out_cap (out_off + 1) then None else Some [c].

(** [while (n < len)]; [out] is what was written so far. *)
Fixpoint kbd_read_loop (fuel len : nat) (out : list Z) (s : kbd) : outcome (list Z * kbd) :=
  match fuel with
  | O => NoFuel
  | S fuel =>
      if negb (Nat.ltb (length out) len) then Ok (out, s) else
      if Nat.eqb (kbd_tail s) (kbd_head s) then Ok (out, s) else
      ev ← deref (kbd_ring s !! kbd_tail s);
      match kbd_try_emit_event ev len (length out) with
      | None => Ok (out, s)
      | Some w =>
          let s := with_ring (kbd_ring s) (kbd_head s) ((kbd_tail s + 1) mod KBD_RING_SIZE)%nat
                     (kbd_drops s) s in
          kbd_read_loop fuel len (out ++ w) s
      end
  end.

Definition kbd_cdev_read (len : nat) (s : kbd) : outcome (list Z * kbd) :=
  kbd_read_loop (S KBD_RING_SIZE) len [] (kbd_sync_leds_if_needed s).

Definition kbd_cdev_poll (s : kbd) : bool * kbd :=
  let s := kbd_sync_leds_if_needed s in (negb (Nat.eqb (kbd_tail s) (kbd_head s)), s).

(** ** The ring as a queue *)

(** The number of queued events, and the queue, oldest first. *)
Definition queue_len (s : kbd) : nat :=
  if Nat.leb (kbd_tail s) (kbd_head s) then kbd_head s - kbd_tail s
  else kbd_head s + KBD_RING_SIZE - kbd_tail s.

Definition slot_at (s : kbd) (i : nat) : nat := (kbd_tail s + i) mod KBD_RING_SIZE.

(** [queue s q]: the ring holds the events [q]. *)
Record queue (s : kbd) (q : list key_event) : Prop := Queue {
  q_len : length (kbd_ring s) = KBD_RING_SIZE;
  q_head : (kbd_head s < KBD_RING_SIZE)%nat;
  q_tail : (kbd_tail s < KBD_RING_SIZE)%nat;
  q_count : length q = queue_len s;
  q_data : ∀ i ev, q !! i = Some ev → kbd_ring s !! slot_at s i = Some ev
}.

Lemma slot_cases t i :
  (t < KBD_RING_SIZE)%nat → (i < KBD_RING_SIZE)%nat →
  ((t + i) mod KBD_RING_SIZE = if Nat.ltb (t + i) KBD_RING_SIZE then t + i else t + i - KBD_RING_SIZE)%nat.
Proof.
  intros Ht Hi. destruct (Nat.ltb_spec (t + i) KBD_RING_SIZE); [by apply Nat.mod_small|].
  symmetry. apply Nat.mod_unique with 1%nat; lia.
Qed.

Lemma queue_len_lt s :
  (kbd_head s < KBD_RING_SIZE)%nat → (kbd_tail s < KBD_RING_SIZE)%nat →
  (queue_len s < KBD_RING_SIZE)%nat.
Proof. unfold queue_len. destruct (Nat.leb_spec (kbd_tail s) (kbd_head s)); lia. Qed.

(** The slot after the newest event is the head. *)
Lemma slot_head s :
  (kbd_head s < KBD_RING_SIZE)%nat → (kbd_tail s < KBD_RING_SIZE)%nat →
  slot_at s (queue_len s) = kbd_head s ∧
  ∀ i, (i < queue_len s)%nat → slot_at s i ≠ kbd_head s.
Proof.
  intros Hh Ht. pose proof (queue_len_lt s Hh Ht) as Hq. unfold slot_at. split.
  - rewrite slot_cases by done. unfold queue_len in *.
    destruct (Nat.leb_spec (kbd_tail s) (kbd_head s));
      match goal with |- context [Nat.ltb ?a ?b] => destruct (Nat.ltb_spec a b) end; lia.
  - intros i Hi. rewrite slot_cases by lia. unfold queue_len in *.
    destruct (Nat.leb_spec (kbd_tail s) (kbd_head s)), (Nat.ltb_spec (kbd_tail s + i) KBD_RING_SIZE); lia.
Qed.

(** Adding an event appends it unless 127 are already queued. *)
Lemma event_put_spec k mods rel s q :
  queue s q →
  ∃ r h d, event_put k mods rel s = Ok (with_ring r h (kbd_tail s) d s) ∧
    queue (with_ring r h (kbd_tail s) d s)
      (if Nat.ltb (length q) (KBD_RING_SIZE - 1) then q ++ [KeyEvent k mods rel] else q).
Proof.
  intros [L H T C D]. unfold event_put. destruct (slot_head s H T) as [Sh Sn].
  set (next := ((kbd_head s + 1) mod KBD_RING_SIZE)%nat).
  assert (next = if Nat.ltb (kbd_head s + 1) KBD_RING_SIZE then (kbd_head s + 1)%nat else 0%nat) as En.
  { subst next. rewrite slot_cases by (unfold KBD_RING_SIZE in *; lia).
    destruct (Nat.ltb_spec (kbd_head s + 1) KBD_RING_SIZE); lia. }
  destruct (Nat.eqb_spec next (kbd_tail s)) as [E|E]; cbn [negb].
  - eexists _, _, _. split; [done|]. rewrite (proj2 (Nat.ltb_ge _ _)); [by constructor|].
    rewrite C. unfold queue_len. destruct (Nat.ltb_spec (kbd_head s + 1) KBD_RING_SIZE),
      (Nat.leb_spec (kbd_tail s) (kbd_head s)); lia.
  - unfold set_at. rewrite L, (proj2 (Nat.ltb_lt _ _)) by done. cbn [mbind outcome_bind].
    eexists _, _, _. split; [done|].
    assert (queue_len (with_ring (<[kbd_head s := KeyEvent k mods rel]> (kbd_ring s)) next
      (kbd_tail s) (kbd_drops s) s) = S (queue_len s)) as EQ.
    { unfold queue_len. cbn [with_ring kbd_head kbd_tail].
      destruct (Nat.ltb_spec (kbd_head s + 1) KBD_RING_SIZE),
        (Nat.leb_spec (kbd_tail s) (kbd_head s)), (Nat.leb_spec (kbd_tail s) next); lia. }
    assert (next < KBD_RING_SIZE)%nat as Hn by (by apply Nat.mod_upper_bound).
    rewrite (proj2 (Nat.ltb_lt _ _)).
    2:{ rewrite C. match type of EQ with queue_len ?s' = _ => pose proof (queue_len_lt s' Hn T) as Q end.
        rewrite EQ in Q. lia. }
    constructor; cbn [with_ring kbd_ring kbd_head kbd_tail].
    + by rewrite length_insert.
    + done.
    + done.
    + rewrite length_app, EQ, C. simpl. lia.
    + intros i ev Hi. unfold slot_at. cbn [with_ring kbd_tail]. fold (slot_at s i).
      apply lookup_app_Some in Hi as [Hi|[Hi Hi']].
      * rewrite list_lookup_insert_ne; [by apply D|].
        intros X. apply (Sn i); [|done]. rewrite <- C. by apply lookup_lt_Some in Hi.
      * apply list_lookup_singleton_Some in Hi' as [Hi' <-].
        replace i with (queue_len s) by lia. rewrite Sh. apply list_lookup_insert_eq. lia.
Qed.

Lemma deliver_spec k rel s q :
  queue s q →
  ∃ s', kbd_deliver_keycode k rel s = Ok s' ∧ e1_state s' = e1_state s ∧
    e0_pending s' = e0_pending s ∧
    queue s' (if decide (k = KEY_NONE) then q
              else if Nat.ltb (length q) (KBD_RING_SIZE - 1)
              then q ++ [KeyEvent k (current_modifiers s) rel] else q).
Proof.
  intros Q. unfold kbd_deliver_keycode. case_decide as D; [by exists s|].
  destruct (event_put_spec k (current_modifiers s) rel s q Q) as (r & h & d & -> & Q').
  cbn [mbind outcome_bind].
  eexists. split; [done|].
  assert (∀ s1, let s2 := kbd_update_modifiers k rel s1 in
    kbd_ring s2 = kbd_ring s1 ∧ kbd_head s2 = kbd_head s1 ∧ kbd_tail s2 = kbd_tail s1 ∧
    e0_pending s2 = e0_pending s1 ∧ e1_state s2 = e1_state s1) as U.
  { intros s1. unfold kbd_update_modifiers. destruct k, rel; cbv; done. }
  edestruct U as (U1 & U2 & U3 & U4 & U5). split_and!; [exact U5|exact U4|].
  destruct Q' as [L H T C Da]. constructor; rewrite ?U1, ?U2, ?U3; try done.
  - rewrite C. unfold queue_len. by rewrite U2, U3.
  - intros i ev Hi. unfold slot_at. rewrite U3. by apply Da.
Qed.

(** Taking the oldest event. *)
Lemma pop_spec s ev q :
  queue s (ev :: q) →
  kbd_tail s ≠ kbd_head s ∧ kbd_ring s !! kbd_tail s = Some ev ∧
  queue (with_ring (kbd_ring s) (kbd_head s) ((kbd_tail s + 1) mod KBD_RING_SIZE) (kbd_drops s) s) q.
Proof.
  intros [L H T C D]. simpl in C.
  assert (kbd_tail s ≠ kbd_head s) as Hne.
  { intros E. unfold queue_len in C. rewrite E, Nat.leb_refl in C. lia. }
  pose proof (D 0%nat ev eq_refl) as D0. unfold slot_at in D0.
  rewrite Nat.add_0_r, Nat.mod_small in D0 by done. split; [done|]. split; [done|].
  assert ((kbd_tail s + 1) mod KBD_RING_SIZE =
    if Nat.ltb (kbd_tail s + 1) KBD_RING_SIZE then kbd_tail s + 1 else 0)%nat as En.
  { rewrite slot_cases by (unfold KBD_RING_SIZE in *; lia).
    destruct (Nat.ltb_spec (kbd_tail s + 1) KBD_RING_SIZE); lia. }
  constructor; cbn [with_ring kbd_ring kbd_head kbd_tail]; try done.
  - by apply Nat.mod_upper_bound.
  - unfold queue_len in *. cbn [with_ring kbd_head kbd_tail]. rewrite En. clear En D D0. revert C.
    destruct (Nat.ltb_spec (kbd_tail s + 1) KBD_RING_SIZE), (Nat.leb_spec (kbd_tail s) (kbd_head s));
      match goal with |- context [Nat.leb ?a ?b] => destruct (Nat.leb_spec a b) end;
      intros C; lia.
  - intros i e Hi. rewrite <- (D (S i) e Hi). f_equal. unfold slot_at. cbn [with_ring kbd_tail].
    rewrite Nat.Div0.add_mod_idemp_l. f_equal. lia.
Qed.

Lemma queue_empty s q : queue s q → kbd_tail s = kbd_head s → q = [].
Proof.
  intros [L H T C D] E. apply nil_length_inv. rewrite C. unfold queue_len.
  rewrite E, Nat.leb_refl. lia.
Qed.

(** ** Reading *)

(** The bytes an event produces on [read()]. *)
Definition event_bytes (ev : key_event) : list Z := default [] (kbd_try_emit_event ev 2 0).

Lemma try_emit_spec ev cap off :
  (off ≤ cap)%nat →
  kbd_try_emit_event ev cap off =
  if Nat.leb (off + length (event_bytes ev)) cap then Some (event_bytes ev) else None.
Proof.
  intros H. unfold event_bytes, kbd_try_emit_event.
  destruct (ev_release ev); [simpl; by rewrite Nat.add_0_r, (proj2 (Nat.leb_le _ _))|].
  destruct (_ && _).
  - destruct (_ =? 0); [simpl; by rewrite Nat.add_0_r, (proj2 (Nat.leb_le _ _))|].
    change (Nat.ltb 2 (0 + 2)) with false. cbn [from_option id length].
    destruct (Nat.ltb_spec cap (off + 2)), (Nat.leb_spec (off + 2) cap); (done || lia).
  - destruct (_ =? 0); [simpl; by rewrite Nat.add_0_r, (proj2 (Nat.leb_le _ _))|].
    change (Nat.ltb 2 (0 + 1)) with false. cbn [from_option id length].
    destruct (Nat.ltb_spec cap (off + 1)), (Nat.leb_spec (off + 1) cap); (done || lia).
Qed.

(** Where a read of [len] bytes stops. *)
Definition read_stops (len : nat) (out : list Z) (q : list key_event) : Prop :=
  match q with
  | [] => True
  | ev :: _ => length out = len ∨ (len < length out + length (event_bytes ev))%nat
  end.

Lemma read_loop_spec len q : ∀ fuel out s,
  queue s q → (length out ≤ len)%nat → (length q < fuel)%nat →
  ∃ q1 q2 s', q = q1 ++ q2 ∧
    kbd_read_loop fuel len out s = Ok (out ++ concat (event_bytes <$> q1), s') ∧ queue s' q2 ∧
    (length (out ++ concat (event_bytes <$> q1)) ≤ len)%nat ∧
    read_stops len (out ++ concat (event_bytes <$> q1)) q2.
Proof.
  induction q as [|ev q IH]; intros [|fuel] out s Q Ho Hf; simpl in Hf; try lia;
    cbn [kbd_read_loop].
  - exists [], [], s. simpl. rewrite app_nil_r. split_and!; try done.
    destruct (Nat.ltb_spec (length out) len); cbn [negb]; [|done].
    pose proof (q_count _ _ Q) as C. simpl in C. revert C. unfold queue_len.
    destruct Q as [L H' T _ _].
    destruct (Nat.eqb_spec (kbd_tail s) (kbd_head s)); [done|].
    destruct (Nat.leb_spec (kbd_tail s) (kbd_head s)); lia.
  - destruct (Nat.ltb_spec (length out) len) as [Hl|Hl]; cbn [negb].
    2:{ exists [], (ev :: q), s. simpl. rewrite app_nil_r. split_and!; try done. left. lia. }
    destruct (pop_spec s ev q Q) as (Hne & Hev & Q').
    rewrite (proj2 (Nat.eqb_neq _ _)), Hev by done. cbn [mbind outcome_bind deref].
    rewrite try_emit_spec by lia. destruct (Nat.leb_spec (length out + length (event_bytes ev)) len).
    + destruct (IH fuel (out ++ event_bytes ev) _ Q') as (q1 & q2 & s' & -> & E & Q2 & L2 & S2);
        [rewrite length_app; lia|lia|].
      exists (ev :: q1), q2, s'. cbn [fmap list_fmap concat]. rewrite app_assoc. by split_and!.
    + exists [], (ev :: q), s. simpl. rewrite app_nil_r. split_and!; try done. by right.
Qed.

(** ** Decoding *)

(** The handler run on a sequence of bytes. *)
Fixpoint kbd_bytes (bs : list Z) (s : kbd) : outcome kbd :=
  match bs with [] => Ok s | b :: bs => s ← kbd_irq_handler b s; kbd_bytes bs s end.

(** No prefix is pending. *)
Definition idle (s : kbd) : Prop := e0_pending s = false ∧ e1_state s = 0%nat.

(** The make and break sequences of scancode set 1. *)
Definition make_seq (e0 : bool) (sc : Z) : list Z := if e0 then [0xE0; sc] else [sc].
Definition break_seq (e0 : bool) (sc : Z) : list Z := make_seq e0 (sc + 0x80).

Lemma scancode_facts sc e0 :
  0 ≤ sc < 128 → scandata_sc1_to_keycode sc e0 ≠ KEY_NONE →
  sc ≠ 0xE0 ∧ sc ≠ 0xE1 ∧ sc + 0x80 ≠ 0xE0 ∧ sc + 0x80 ≠ 0xE1 ∧
  Z.land sc 0x80 = 0 ∧ Z.land (sc + 0x80) 0x80 ≠ 0 ∧
  scandata_sc1_to_keycode (sc + 0x80) e0 = scandata_sc1_to_keycode sc e0.
Proof.
  intros H. assert (sc ∈ seqZ 0 128) as Hin by (apply elem_of_seqZ; lia). revert sc Hin H.
  assert (Forall (λ sc, scandata_sc1_to_keycode sc e0 ≠ KEY_NONE →
    sc ≠ 0xE0 ∧ sc ≠ 0xE1 ∧ sc + 0x80 ≠ 0xE0 ∧ sc + 0x80 ≠ 0xE1 ∧
    Z.land sc 0x80 = 0 ∧ Z.land (sc + 0x80) 0x80 ≠ 0 ∧
    scandata_sc1_to_keycode (sc + 0x80) e0 = scandata_sc1_to_keycode sc e0) (seqZ 0 128)) as F.
  { apply (bool_decide_unpack _). destruct e0; vm_compute; exact I. }
  rewrite Forall_forall in F. intros sc Hin _. by apply F.
Qed.

(** One make or break sequence delivers one event. *)
Lemma seq_spec e0 b k rel s :
  idle s → b ≠ 0xE0 → b ≠ 0xE1 → scandata_sc1_to_keycode b e0 = k →
  negb (Z.land b 0x80 =? 0) = rel →
  kbd_bytes (make_seq e0 b) s =
  kbd_deliver_keycode k rel (with_prefix false 0 s).
Proof.
  intros [E0 E1] H0 H1 Hk Hr. destruct e0; cbn [make_seq kbd_bytes].
  - change (kbd_irq_handler 0xE0 s) with (Ok (with_prefix true 0 s)). cbn [mbind outcome_bind].
    unfold kbd_irq_handler, kbd_irq_plain, kbd_feed_scancode.
    rewrite (proj2 (Z.eqb_neq _ _) H0), (proj2 (Z.eqb_neq _ _) H1). cbn [with_prefix e1_state e0_pending Nat.ltb Nat.leb].
    rewrite Hk, Hr. by destruct (kbd_deliver_keycode k rel _).
  - unfold kbd_irq_handler, kbd_irq_plain, kbd_feed_scancode.
    rewrite (proj2 (Z.eqb_neq _ _) H0), (proj2 (Z.eqb_neq _ _) H1), E0, E1. cbn [Nat.ltb Nat.leb].
    rewrite Hk, Hr. by destruct (kbd_deliver_keycode k rel _).
Qed.

Lemma seq_delivers e0 b k rel s q :
  idle s → queue s q → (length q < KBD_RING_SIZE - 1)%nat → b ≠ 0xE0 → b ≠ 0xE1 →
  scandata_sc1_to_keycode b e0 = k → k ≠ KEY_NONE → negb (Z.land b 0x80 =? 0) = rel →
  ∃ s', kbd_bytes (make_seq e0 b) s = Ok s' ∧ idle s' ∧
    queue s' (q ++ [KeyEvent k (current_modifiers s) rel]).
Proof.
  intros I Q Hl H0 H1 Hk Hn Hr. rewrite (seq_spec e0 b k rel s I H0 H1 Hk Hr).
  assert (queue (with_prefix false 0 s) q) as Q' by by destruct Q.
  destruct (deliver_spec k rel _ q Q') as (s' & -> & E1 & E0 & Q2).
  exists s'. split; [done|]. split; [by split|].
  rewrite decide_False, (proj2 (Nat.ltb_lt _ _)) in Q2 by done. exact Q2.
Qed.

Lemma kbd_bytes_app a b s : kbd_bytes (a ++ b) s = (s ← kbd_bytes a s; kbd_bytes b s).
Proof.
  revert s; induction a as [|x a IH]; intros s; [done|]. cbn [app kbd_bytes].
  destruct (kbd_irq_handler x s); cbn [mbind outcome_bind]; [apply IH|done..].
Qed.

(** The Pause sequence: five silent bytes, then the event. *)
Lemma pause_spec s q :
  e1_state s = 0%nat → queue s q → (length q < KBD_RING_SIZE - 1)%nat →
  ∃ s', kbd_bytes e1_pause_seq s = Ok s' ∧ idle s' ∧
    queue s' (q ++ [KeyEvent KEY_PAUSE (current_modifiers s) false]).
Proof.
  intros E1 Q Hl.
  assert (kbd_bytes e1_pause_seq s =
    (s ← kbd_deliver_keycode KEY_PAUSE false (with_prefix false 6 s);
     Ok (with_prefix (e0_pending s) 0 s))) as ->.
  { transitivity (r ← (s ← kbd_deliver_keycode KEY_PAUSE false (with_prefix false 6 s);
                      Ok (with_prefix (e0_pending s) 0 s)); Ok r).
    - destruct s; simpl in E1; subst. reflexivity.
    - by destruct (kbd_deliver_keycode KEY_PAUSE false _). }
  assert (queue (with_prefix false 6 s) q) as Q' by by destruct Q.
  destruct (deliver_spec KEY_PAUSE false _ q Q') as (s' & -> & _ & E0 & Q2). cbn [mbind outcome_bind].
  eexists. split; [done|]. split; [by split|].
  rewrite decide_False, (proj2 (Nat.ltb_lt _ _)) in Q2 by done. by destruct Q2.
Qed.

(** ** Properties *)

(** For every key of the scancode tables, plain or 0xE0-prefixed, its make
    sequence followed by its break sequence queues exactly one press and one
    release of that key, in this order, and leaves the decoder idle. *)
Theorem kbd_press_release e0 sc s q :
  idle s → queue s q → (length q < KBD_RING_SIZE - 2)%nat →
  0 ≤ sc < 128 → scandata_sc1_to_keycode sc e0 ≠ KEY_NONE →
  ∃ s' mods mods', kbd_bytes (make_seq e0 sc ++ break_seq e0 sc) s = Ok s' ∧ idle s' ∧
    queue s' (q ++ [KeyEvent (scandata_sc1_to_keycode sc e0) mods false;
                    KeyEvent (scandata_sc1_to_keycode sc e0) mods' true]).
Proof.
  intros I Q Hl Hsc Hk. destruct (scancode_facts sc e0 Hsc Hk) as (H1 & H2 & H3 & H4 & H5 & H6 & H7).
  rewrite kbd_bytes_app.
  destruct (seq_delivers e0 sc (scandata_sc1_to_keycode sc e0) false s q I Q) as (s1 & -> & I1 & Q1); try done; [lia|by rewrite H5|].
  cbn [mbind outcome_bind]. unfold break_seq.
  destruct (seq_delivers e0 (sc + 0x80) (scandata_sc1_to_keycode sc e0) true s1 _ I1 Q1) as (s2 & -> & I2 & Q2); try done.
  - rewrite length_app. unfold KBD_RING_SIZE in *. simpl. lia.
  - by apply negb_true_iff, Z.eqb_neq.
  - exists s2. eexists _, _. split; [done|]. split; [done|]. rewrite <- app_assoc in Q2. exact Q2.
Qed.

Definition demo_kbd : kbd :=
  Kbd (replicate 128 (KeyEvent KEY_NONE 0 false)) 126 126 0 false false false false false
      false false false [] false 0.

Lemma demo_queue : queue demo_kbd [].
Proof. constructor; try (vm_compute; lia); done. Qed.

(** Right Ctrl, across the end of the ring. *)
Lemma kbd_press_release_witness :
  ∃ s' mods mods', kbd_bytes [0xE0; 0x1D; 0xE0; 0x9D] demo_kbd = Ok s' ∧ idle s' ∧
    queue s' [KeyEvent KEY_RCTRL mods false; KeyEvent KEY_RCTRL mods' true].
Proof.
  apply (kbd_press_release true 0x1D demo_kbd []);
    [split; reflexivity|apply demo_queue|vm_compute; lia|lia|discriminate].
Defined.

(** The six-byte Pause sequence queues exactly one press of [KEY_PAUSE]. *)
Theorem kbd_pause s q :
  e1_state s = 0%nat → queue s q → (length q < KBD_RING_SIZE - 1)%nat →
  ∃ s', kbd_bytes e1_pause_seq s = Ok s' ∧ idle s' ∧
    queue s' (q ++ [KeyEvent KEY_PAUSE (current_modifiers s) false]).
Proof. apply pause_spec. Qed.

Lemma kbd_pause_witness :
  ∃ s', kbd_bytes e1_pause_seq demo_kbd = Ok s' ∧ idle s' ∧ queue s' [KeyEvent KEY_PAUSE 0 false].
Proof. apply (kbd_pause demo_kbd []); [reflexivity|apply demo_queue|vm_compute; lia]. Defined.

(** [kbd_cdev_read] returns the bytes of the oldest events in order, at
    most [len], never part of a two-byte Meta sequence; it removes exactly
    those events and stops only when the queue is empty, the buffer is full or
    the next event does not fit. *)
Theorem kbd_read_correct len s q :
  queue s q →
  ∃ q1 q2 s', q = q1 ++ q2 ∧
    kbd_cdev_read len s = Ok (concat (event_bytes <$> q1), s') ∧ queue s' q2 ∧
    (length (concat (event_bytes <$> q1)) ≤ len)%nat ∧
    read_stops len (concat (event_bytes <$> q1)) q2.
Proof.
  intros Q. unfold kbd_cdev_read. assert (queue (kbd_sync_leds_if_needed s) q) as Q'.
  { unfold kbd_sync_leds_if_needed. destruct (negb _); [done|]. by destruct Q. }
  pose proof (queue_len_lt s (q_head _ _ Q) (q_tail _ _ Q)) as Hq. rewrite <- (q_count _ _ Q) in Hq.
  apply (read_loop_spec len q (S KBD_RING_SIZE) []); [done|simpl; lia|lia].
Qed.

Definition demo_kbd2 : kbd :=
  Kbd (<[127%nat := KeyEvent KEY_A KMOD_SHIFT false]>
        (<[0%nat := KeyEvent KEY_B KMOD_ALT false]> (replicate 128 (KeyEvent KEY_NONE 0 false))))
      1 127 0 false false false false false false false true [] false 0.

Lemma demo_queue2 :
  queue demo_kbd2 [KeyEvent KEY_A KMOD_SHIFT false; KeyEvent KEY_B KMOD_ALT false].
Proof.
  constructor; try (vm_compute; lia); try done. intros [|[|i]] ev E; simplify_eq/=; done.
Qed.

(** Three bytes are asked for: "A", then ESC "b". *)
Lemma kbd_read_correct_witness :
  ∃ q1 q2 s', [KeyEvent KEY_A KMOD_SHIFT false; KeyEvent KEY_B KMOD_ALT false] = q1 ++ q2 ∧
    kbd_cdev_read 3 demo_kbd2 = Ok (concat (event_bytes <$> q1), s') ∧ queue s' q2 ∧
    (length (concat (event_bytes <$> q1)) ≤ 3)%nat ∧
    read_stops 3 (concat (event_bytes <$> q1)) q2.
Proof. apply (kbd_read_correct 3 demo_kbd2). apply demo_queue2. Defined.

Example read_two_events :
  (λ r, match r with Ok (out, _) => Some out | _ => None end) (kbd_cdev_read 3 demo_kbd2)
  = Some [65; 27; 98].
Proof. vm_compute. reflexivity. Qed.

(** Both Shift keys share one flag: releasing one of two held Shift keys ends
    the shift state. *)
Example shift_released_early :
  (λ r, match r with Ok s => Some (shift_held s) | _ => None end)
    (kbd_bytes [0x2A; 0x36; 0xB6] demo_kbd) = Some false.
Proof. vm_compute. reflexivity. Qed.

(** With Caps Lock on, Ctrl and a letter give the upper-case letter and not
    the control code. *)
Example ctrl_with_caps_lock :
  scandata_keycode_to_ascii (Some KEY_C) (Z.lor KMOD_CTRL KMOD_CAPSLOCK) = 67.
Proof. reflexivity. Qed.
