(* ===== verification/Pmm.v ===== *)
(** * kernel/mm/pmm.c: the buddy allocator of physical pages

    The page-frame table is a map from page-frame numbers to entries, the
    array of free-list heads a map from (zone, order); an index outside a table
    is a [Fault].  Of the contents of memory the model keeps the set of the
    frames that may be non-zero: [memset(.., 0, ..)] removes frames from it. *)

From S2P Require Import Prelude.

Definition PMM_MAX_ORDER : Z := 11.
Definition PMM_ZONE_DMA : Z := 0.
Definition PMM_ZONE_NORMAL : Z := 1.
Definition PFN_FREE : Z := 1.
Definition NO_LINK : Z := 2 ^ 64 - 1.

Record pmm_pfn := Pfn { p_flags : Z; p_order : Z; p_ref : Z; p_next : Z; p_prev : Z }.

Record pmm_stats := Stats {
  total_pages : Z;
  free_pages : Z;
  free_by_order : gmap Z Z;
  zone_total : gmap Z Z;
  zone_free : gmap Z Z
}.

Record pmm := Pmm {
  pfn_table : gmap Z pmm_pfn;
  pfn_count : Z;
  heads : gmap (Z * Z) Z;
  stats : pmm_stats;
  zero_page : Z;
  dirty : gset Z
}.

(** ** Access *)

Definition with_table (t : gmap Z pmm_pfn) (s : pmm) : pmm :=
  Pmm t (pfn_count s) (heads s) (stats s) (zero_page s) (dirty s).
Definition with_heads (h : gmap (Z * Z) Z) (s : pmm) : pmm :=
  Pmm (pfn_table s) (pfn_count s) h (stats s) (zero_page s) (dirty s).
Definition with_stats (st : pmm_stats) (s : pmm) : pmm :=
  Pmm (pfn_table s) (pfn_count s) (heads s) st (zero_page s) (dirty s).
Definition with_dirty (d : gset Z) (s : pmm) : pmm :=
  Pmm (pfn_table s) (pfn_count s) (heads s) (stats s) (zero_page s) d.
Definition with_zero (z : Z) (s : pmm) : pmm :=
  Pmm (pfn_table s) (pfn_count s) (heads s) (stats s) z (dirty s).

(** [pfn_table[pfn].field = ...] *)
Definition upd_pfn (pfn : Z) (f : pmm_pfn → pmm_pfn) (s : pmm) : outcome pmm :=
  e ← deref (pfn_table s !! pfn); Ok (with_table (<[pfn := f e]> (pfn_table s)) s).

Definition set_next (x : Z) (e : pmm_pfn) : pmm_pfn := Pfn (p_flags e) (p_order e) (p_ref e) x (p_prev e).
Definition set_prev (x : Z) (e : pmm_pfn) : pmm_pfn := Pfn (p_flags e) (p_order e) (p_ref e) (p_next e) x.
Definition set_order (x : Z) (e : pmm_pfn) : pmm_pfn := Pfn (p_flags e) x (p_ref e) (p_next e) (p_prev e).
Definition set_ref (x : Z) (e : pmm_pfn) : pmm_pfn := Pfn (p_flags e) (p_order e) x (p_next e) (p_prev e).
Definition set_free (e : pmm_pfn) : pmm_pfn :=
  Pfn (Z.lor (p_flags e) PFN_FREE) (p_order e) (p_ref e) (p_next e) (p_prev e).
Definition clear_free (e : pmm_pfn) : pmm_pfn :=
  Pfn (Z.ldiff (p_flags e) PFN_FREE) (p_order e) (p_ref e) (p_next e) (p_prev e).

Definition is_free (e : pmm_pfn) : bool := negb (Z.land (p_flags e) PFN_FREE =? 0).

(** [free_list_head[z][o]] *)
Definition get_head (z o : Z) (s : pmm) : outcome Z := deref (heads s !! (z, o)).
Definition set_head (z o pfn : Z) (s : pmm) : outcome pmm :=
  _ ← get_head z o s; Ok (with_heads (<[(z, o) := pfn]> (heads s)) s).

(** [a[k] += d], wrapping as [uint64_t]. *)
Definition bump_at (k d : Z) (a : gmap Z Z) : outcome (gmap Z Z) :=
  v ← deref (a !! k); Ok (<[k := u64 (v + d)]> a).

(** The three counters every (de)registration of a block of order [o] moves:
    [sign] is 1 or -1. *)
Definition count_block (sign z o : Z) (s : pmm) : outcome pmm :=
  let st := stats s in
  bo ← bump_at o sign (free_by_order st);
  zf ← bump_at z (sign * 2 ^ o) (zone_free st);
  Ok (with_stats (Stats (total_pages st) (u64 (free_pages st + sign * 2 ^ o)) bo (zone_total st) zf) s).

Definition pfn_to_pa (pfn : Z) : Z := u64 (Z.shiftl pfn 12).
Definition pa_to_pfn (pa : Z) : Z := Z.shiftr pa 12.

Definition zone_of (pa : Z) : Z := if pa <? 16 * 1024 * 1024 then PMM_ZONE_DMA else PMM_ZONE_NORMAL.

(** ** Free lists *)

Definition list_remove (pfn : Z) (s : pmm) : outcome pmm :=
  e ← deref (pfn_table s !! pfn);
  s ← (if p_prev e =? NO_LINK
       then set_head (zone_of (pfn_to_pa pfn)) (p_order e) (p_next e) s
       else upd_pfn (p_prev e) (set_next (p_next e)) s);
  s ← (if p_next e =? NO_LINK then Ok s else upd_pfn (p_next e) (set_prev (p_prev e)) s);
  upd_pfn pfn (λ e, set_prev NO_LINK (set_next NO_LINK e)) s.

Definition list_push (z order pfn : Z) (s : pmm) : outcome pmm :=
  head ← get_head z order s;
  s ← upd_pfn pfn (λ e, set_free (set_order order (set_next head (set_prev NO_LINK e)))) s;
  s ← (if negb (head =? NO_LINK) then upd_pfn head (set_prev pfn) s else Ok s);
  set_head z order pfn s.

Definition list_pop (z order : Z) (s : pmm) : outcome (Z * pmm) :=
  head ← get_head z order s;
  if head =? NO_LINK then Ok (NO_LINK, s) else
  s ← list_remove head s;
  s ← upd_pfn head clear_free s;
  Ok (head, s).

Definition buddy_pfn (pfn order : Z) : Z := Z.lxor pfn (2 ^ order).

(** The frames of a block. *)
Definition frames (pfn n : Z) : gset Z := list_to_set (seqZ pfn n).

(** ** Registration *)

Definition pmm_register_block (pfn order : Z) (s : pmm) : outcome pmm :=
  let z := zone_of (pfn_to_pa pfn) in
  let s := with_dirty (dirty s ∖ frames pfn (2 ^ order)) s in
  s ← list_push z order pfn s;
  s ← count_block 1 z order s;
  let st := stats s in
  zt ← bump_at z (2 ^ order) (zone_total st);
  Ok (with_stats (Stats (total_pages st) (free_pages st) (free_by_order st) zt (zone_free st)) s).

(** The largest order [start] is aligned to and that fits below [end_]. *)
Fixpoint range_order (fuel : nat) (start end_ order : Z) : outcome Z :=
  match fuel with
  | O => NoFuel
  | S fuel =>
      if (order + 1 <? PMM_MAX_ORDER) && (Z.land start (2 ^ (order + 1) - 1) =? 0) &&
         (add64 start (2 ^ (order + 1)) <=? end_)
      then range_order fuel start end_ (order + 1) else Ok order
  end.

Fixpoint register_loop (fuel : nat) (start end_ : Z) (s : pmm) : outcome pmm :=
  match fuel with
  | O => NoFuel
  | S fuel =>
      if start <? end_ then
        order ← range_order 12 start end_ 0;
        s ← pmm_register_block start order s;
        register_loop fuel (add64 start (2 ^ order)) end_ s
      else Ok s
  end.

Definition pmm_register_range (start_pa end_pa : Z) (s : pmm) : outcome pmm :=
  let start := pa_to_pfn (Z.ldiff (add64 start_pa (PAGE_SIZE - 1)) PAGE_MASK) in
  let end_ := pa_to_pfn (Z.ldiff end_pa PAGE_MASK) in
  register_loop (S (Z.to_nat (end_ - start))) start end_ s.

(** ** Allocation *)

(** [while (o < PMM_MAX_ORDER && free_list_head[z][o] == NO_LINK) o++;] *)
Fixpoint find_order (fuel : nat) (z o : Z) (s : pmm) : outcome Z :=
  match fuel with
  | O => NoFuel
  | S fuel =>
      if o <? PMM_MAX_ORDER then
        h ← get_head z o s;
        if h =? NO_LINK then find_order fuel z (o + 1) s else Ok o
      else Ok o
  end.

(** [while (o > order)]: the upper halves go back to the free lists. *)
Fixpoint split_loop (fuel : nat) (z pfn o order : Z) (s : pmm) : outcome pmm :=
  match fuel with
  | O => NoFuel
  | S fuel =>
      if o >? order then
        let o := o - 1 in
        let buddy := add64 pfn (2 ^ o) in
        s ← list_push z o buddy s;
        s ← count_block 1 z o s;
        split_loop fuel z pfn o order s
      else Ok s
  end.

(** The body of both allocators once a non-empty list was found. *)
Definition take_block (z o order : Z) (s : pmm) : outcome (Z * pmm) :=
  '(pfn, s) ← list_pop z o s;
  s ← count_block (-1) z o s;
  s ← split_loop 12 z pfn o order s;
  s ← upd_pfn pfn (λ e, set_order order (clear_free e)) s;
  Ok (pfn_to_pa pfn, s).

(** [for (z = PMM_ZONE_NORMAL;; z--)] has two rounds. *)
Definition pmm_alloc_pages_locked (order : Z) (s : pmm) : outcome (Z * pmm) :=
  if (order <? 0) || (order >=? PMM_MAX_ORDER) then Ok (0, s) else
  o ← find_order 12 PMM_ZONE_NORMAL order s;
  if o <? PMM_MAX_ORDER then take_block PMM_ZONE_NORMAL o order s else
  o ← find_order 12 PMM_ZONE_DMA order s;
  if o <? PMM_MAX_ORDER then take_block PMM_ZONE_DMA o order s else Ok (0, s).

Definition pmm_alloc_pages (order : Z) (s : pmm) : outcome (Z * pmm) :=
  pmm_alloc_pages_locked order s.

Definition pmm_alloc_zeroed_pages (order : Z) (s : pmm) : outcome (Z * pmm) :=
  pmm_alloc_pages order s.

Definition pmm_alloc_user_page (s : pmm) : outcome (Z * pmm) :=
  '(pa, s) ← pmm_alloc_pages_locked 0 s;
  if negb (pa =? 0) then s ← upd_pfn (pa_to_pfn pa) (set_ref 1) s; Ok (pa, s) else Ok (pa, s).

Definition pmm_alloc_dma (order : Z) (s : pmm) : outcome (Z * pmm) :=
  o ← find_order 12 PMM_ZONE_DMA order s;
  if o >=? PMM_MAX_ORDER then Ok (0, s) else take_block PMM_ZONE_DMA o order s.

(** ** Freeing *)

(** Coalescing: the block and order to push at the end. *)
Fixpoint coalesce (fuel : nat) (z pfn order : Z) (s : pmm) : outcome (Z * Z * pmm) :=
  match fuel with
  | O => NoFuel
  | S fuel =>
      if negb (order + 1 <? PMM_MAX_ORDER) then Ok (pfn, order, s) else
      let bpfn := buddy_pfn pfn order in
      if bpfn >=? pfn_count s then Ok (pfn, order, s) else
      bp ← deref (pfn_table s !! bpfn);
      if negb (is_free bp) || negb (p_order bp =? order) then Ok (pfn, order, s) else
      if negb (zone_of (pfn_to_pa bpfn) =? z) then Ok (pfn, order, s) else
      s ← list_remove bpfn s;
      s ← count_block (-1) z order s;
      s ← upd_pfn bpfn clear_free s;
      coalesce fuel z (if bpfn <? pfn then bpfn else pfn) (order + 1) s
  end.

Definition pmm_free_pages_locked (pa order : Z) (s : pmm) : outcome pmm :=
  let pfn := pa_to_pfn pa in
  let z := zone_of pa in
  '(pfn, order, s) ← coalesce 12 z pfn order s;
  s ← list_push z order pfn s;
  count_block 1 z order s.

Definition pmm_free_validate_locked (pa order : Z) (s : pmm) : outcome () :=
  _ ← panic_if ((order <? 0) || (order >=? PMM_MAX_ORDER));
  _ ← panic_if (negb (Z.land pa (2 ^ (12 + order) - 1) =? 0));
  let pfn := pa_to_pfn pa in
  _ ← panic_if (pfn >=? pfn_count s);
  e ← deref (pfn_table s !! pfn);
  panic_if (is_free e).

Definition pmm_free_pages (pa order : Z) (s : pmm) : outcome pmm :=
  _ ← pmm_free_validate_locked pa order s;
  let s := with_dirty (dirty s ∖ frames (pa_to_pfn pa) (2 ^ order)) s in
  pmm_free_pages_locked pa order s.

(** ** User-page reference counts *)

Definition pmm_get_user_page (pa : Z) (s : pmm) : outcome pmm :=
  let pfn := pa_to_pfn pa in
  _ ← panic_if (pa =? zero_page s);
  _ ← panic_if (pfn >=? pfn_count s);
  e ← deref (pfn_table s !! pfn);
  _ ← panic_if (is_free e);
  _ ← panic_if (p_ref e =? 0);
  _ ← panic_if (p_ref e =? 0xFFFF);
  upd_pfn pfn (set_ref (p_ref e + 1)) s.

Definition pmm_put_user_page (pa : Z) (s : pmm) : outcome pmm :=
  let pfn := pa_to_pfn pa in
  _ ← panic_if (pa =? zero_page s);
  _ ← panic_if (pfn >=? pfn_count s);
  e ← deref (pfn_table s !! pfn);
  _ ← panic_if (is_free e);
  _ ← panic_if (p_ref e =? 0);
  s ← upd_pfn pfn (set_ref (p_ref e - 1)) s;
  if p_ref e - 1 =? 0 then pmm_free_pages pa 0 s else Ok s.

Definition pmm_user_refcount (pa : Z) (s : pmm) : outcome Z :=
  let pfn := pa_to_pfn pa in
  if pfn >=? pfn_count s then Ok 0 else e ← deref (pfn_table s !! pfn); Ok (p_ref e).

(** ** Initialisation *)

(** An entry of the boot loader's memory map. *)
Record memmap_entry := MemEntry { m_base : Z; m_length : Z; m_usable : bool }.

Definition highest_end (mm : list memmap_entry) : Z :=
  foldl (λ h e, if m_usable e then
                  let end_ := add64 (m_base e) (m_length e) in
                  if end_ >? h then end_ else h
                else h) 0 mm.

(** The first usable entry with room for the table: its base, and the map with
    the entry shortened. *)
Fixpoint carve (meta : Z) (mm : list memmap_entry) : Z * list memmap_entry :=
  match mm with
  | [] => (0, [])
  | e :: mm =>
      if m_usable e && (m_length e >=? meta)
      then (m_base e, MemEntry (add64 (m_base e) meta) (m_length e - meta) true :: mm)
      else let (b, mm') := carve meta mm in (b, e :: mm')
  end.

Fixpoint feed (mm : list memmap_entry) (s : pmm) : outcome pmm :=
  match mm with
  | [] => Ok s
  | e :: mm =>
      s ← (if m_usable e
           then pmm_register_range (m_base e) (add64 (m_base e) (m_length e)) s else Ok s);
      feed mm s
  end.

Definition orders : list Z := seqZ 0 PMM_MAX_ORDER.

Definition empty_stats : pmm_stats :=
  Stats 0 0 (list_to_map ((λ o, (o, 0)) <$> orders)) {[0 := 0; 1 := 0]} {[0 := 0; 1 := 0]}.

(** [sizeof(struct pmm_pfn)] is 32 bytes. *)
Definition pfn_size : Z := 32.

(** [dirty0] are the frames with boot-time contents. *)
Definition pmm_init (mm : list memmap_entry) (dirty0 : gset Z) : outcome pmm :=
  let hi := highest_end mm in
  _ ← panic_if (hi =? 0);
  let count := hi / PAGE_SIZE in
  let meta_bytes := u64 (count * pfn_size) in
  let meta_pages := add64 meta_bytes (PAGE_SIZE - 1) / PAGE_SIZE in
  let (meta_pa, mm) := carve (u64 (meta_pages * PAGE_SIZE)) mm in
  _ ← panic_if (meta_pa =? 0);
  let s := Pmm (list_to_map ((λ i, (i, Pfn 0 0 0 NO_LINK NO_LINK)) <$> seqZ 0 count)) count
             (list_to_map ((λ zo, (zo, NO_LINK)) <$>
                ((λ o, (PMM_ZONE_DMA, o)) <$> orders) ++ ((λ o, (PMM_ZONE_NORMAL, o)) <$> orders)))
             empty_stats 0 dirty0 in
  s ← feed mm s;
  let st := stats s in
  let s := with_stats (Stats (free_pages st) (free_pages st) (free_by_order st) (zone_total st)
             (zone_free st)) s in
  '(zp, s) ← pmm_alloc_zeroed_pages 0 s;
  _ ← panic_if (zp =? 0);
  Ok (with_zero zp s).
