(* ===== verification/PmmList.v ===== *)
(** * The free lists of pmm.c as doubly linked lists

    [seg t prev l nxt] says that the entries [l] of the table [t] are linked in
    this order between [prev] and [nxt]. *)

From S2P Require Import Prelude Pmm.

Definition hd_or (l : list Z) (d : Z) : Z := match l with [] => d | x :: _ => x end.
Definition last_or (l : list Z) (d : Z) : Z := default d (last l).

Fixpoint seg (t : gmap Z pmm_pfn) (prev : Z) (l : list Z) (nxt : Z) : Prop :=
  match l with
  | [] => True
  | x :: l =>
      (∃ e, t !! x = Some e ∧ p_prev e = prev ∧ p_next e = hd_or l nxt) ∧ seg t x l nxt
  end.

(** What a relinking leaves alone. *)
Definition payload (e : pmm_pfn) : Z * Z * Z := (p_flags e, p_order e, p_ref e).

Definition same_payload (t t' : gmap Z pmm_pfn) : Prop :=
  ∀ y, payload <$> t' !! y = payload <$> t !! y.

Definition same_off (l : list Z) (t t' : gmap Z pmm_pfn) : Prop :=
  ∀ y, y ∉ l → t' !! y = t !! y.

Lemma hd_or_app l1 l2 d : hd_or (l1 ++ l2) d = hd_or l1 (hd_or l2 d).
Proof. by destruct l1. Qed.

Lemma last_or_app l1 x d : last_or (l1 ++ [x]) d = x.
Proof. unfold last_or. by rewrite last_snoc. Qed.

Lemma last_or_cons x l d : last_or (x :: l) d = last_or l x.
Proof. unfold last_or. rewrite last_cons. by destruct (last l). Qed.

Lemma seg_app t l1 l2 nxt : ∀ prev,
  seg t prev (l1 ++ l2) nxt ↔ seg t prev l1 (hd_or l2 nxt) ∧ seg t (last_or l1 prev) l2 nxt.
Proof.
  induction l1 as [|x l1 IH]; intros prev; simpl; [tauto|].
  rewrite IH, hd_or_app, last_or_cons. tauto.
Qed.

Lemma seg_frame t t' l nxt : ∀ prev,
  (∀ y, y ∈ l → t' !! y = t !! y) → seg t prev l nxt → seg t' prev l nxt.
Proof.
  induction l as [|x l IH]; intros prev F; simpl; [done|].
  intros [(e & E & H) S]. split.
  - exists e. rewrite F by set_solver. done.
  - apply IH; [set_solver|done].
Qed.

Lemma seg_lookup t l nxt x : ∀ prev, seg t prev l nxt → x ∈ l → is_Some (t !! x).
Proof.
  induction l as [|y l IH]; intros prev S Hx; [by apply not_elem_of_nil in Hx|].
  destruct S as [(e & E & _) S]. apply elem_of_cons in Hx as [->|Hx]; [eauto|by eapply IH].
Qed.

(** Changing the last [next] of a segment. *)
Lemma seg_set_next t l x nxt nxt' : ∀ prev,
  NoDup (l ++ [x]) → seg t prev (l ++ [x]) nxt →
  ∃ e, t !! x = Some e ∧ seg (<[x := set_next nxt' e]> t) prev (l ++ [x]) nxt'.
Proof.
  intros prev N S. apply seg_app in S as [S1 S2]. simpl in S2. destruct S2 as [(e & E & P & X) _].
  exists e. split; [done|]. apply seg_app. split.
  - simpl. eapply seg_frame; [|exact S1]. intros y Hy. rewrite lookup_insert_ne; [done|].
    intros ->. apply NoDup_app in N as (_ & N & _). apply (N y Hy). by constructor.
  - simpl. split; [|done]. eexists. rewrite lookup_insert_eq. done.
Qed.

(** Changing the first [prev]. *)
Lemma seg_set_prev t x l prev prev' nxt :
  NoDup (x :: l) → seg t prev (x :: l) nxt →
  ∃ e, t !! x = Some e ∧ seg (<[x := set_prev prev' e]> t) prev' (x :: l) nxt.
Proof.
  intros N [(e & E & P & X) S]. exists e. split; [done|]. split.
  - eexists. rewrite lookup_insert_eq. done.
  - eapply seg_frame; [|exact S]. intros y Hy. rewrite lookup_insert_ne; [done|].
    intros ->. apply NoDup_cons in N as [N _]. done.
Qed.

Lemma same_payload_insert t x e e' :
  t !! x = Some e → payload e' = payload e → same_payload t (<[x := e']> t).
Proof.
  intros E P y. destruct (decide (x = y)) as [<-|]; [|by rewrite lookup_insert_ne].
  rewrite lookup_insert_eq, E. simpl. by rewrite P.
Qed.

Lemma same_payload_trans t1 t2 t3 : same_payload t1 t2 → same_payload t2 t3 → same_payload t1 t3.
Proof. intros H1 H2 y. by rewrite H2. Qed.

(** What [list_remove] does before it clears the links of [x] itself. *)
Lemma unlink_spec s l1 x l2 z o :
  seg (pfn_table s) NO_LINK (l1 ++ x :: l2) NO_LINK → NoDup (l1 ++ x :: l2) →
  NO_LINK ∉ l1 ++ x :: l2 → heads s !! (z, o) = Some (hd_or (l1 ++ x :: l2) NO_LINK) →
  zone_of (pfn_to_pa x) = z → p_order <$> pfn_table s !! x = Some o →
  ∃ t', list_remove x s =
          Ok (with_heads (<[(z, o) := hd_or (l1 ++ l2) NO_LINK]> (heads s)) (with_table t' s)) ∧
    seg t' NO_LINK (l1 ++ l2) NO_LINK ∧ same_payload (pfn_table s) t' ∧
    same_off (l1 ++ x :: l2) (pfn_table s) t'.
Proof.
  intros S N NL H Hz Ho. unfold list_remove.
  pose proof S as S0. apply seg_app in S0 as [S1 S2]. cbn [hd_or seg] in S1, S2.
  destruct S2 as [(e & E & P & X) S2]. rewrite E. cbn [mbind outcome_bind deref].
  rewrite E in Ho. injection Ho as Ho. rewrite P, X, Ho, Hz.
  pose proof N as N0. apply NoDup_app in N0 as (N1 & N12 & N2). apply NoDup_cons in N2 as [Nx N2].
  assert (∃ s1, (if last_or l1 NO_LINK =? NO_LINK then set_head z o (hd_or l2 NO_LINK) s
            else upd_pfn (last_or l1 NO_LINK) (set_next (hd_or l2 NO_LINK)) s) =
            Ok (with_heads (<[(z, o) := hd_or (l1 ++ l2) NO_LINK]> (heads s)) (with_table s1 s)) ∧
          seg s1 NO_LINK l1 (hd_or l2 NO_LINK) ∧ same_payload (pfn_table s) s1 ∧
          same_off l1 (pfn_table s) s1) as (t1 & -> & T1 & Y1 & O1).
  { destruct (decide (l1 = [])) as [->|Hl1].
    - exists (pfn_table s). change (last_or [] NO_LINK =? NO_LINK) with true. cbn iota.
      unfold set_head, get_head. rewrite H. cbn [mbind outcome_bind deref].
      split_and!; [by destruct s|done|done|done].
    - destruct (exists_last Hl1) as (l1' & y & ->). rewrite last_or_app.
      rewrite (proj2 (Z.eqb_neq _ _)) by (intros ->; set_solver).
      destruct (seg_set_next (pfn_table s) l1' y x (hd_or l2 NO_LINK) NO_LINK N1 S1) as (ey & Ey & T).
      unfold upd_pfn. rewrite Ey. cbn [mbind outcome_bind deref].
      exists (<[y := set_next (hd_or l2 NO_LINK) ey]> (pfn_table s)). split_and!.
      + rewrite (insert_id (heads s)); [by destruct s|]. rewrite H. f_equal. destruct l1'; done.
      + exact T.
      + by eapply same_payload_insert.
      + intros w Hw. rewrite lookup_insert_ne; [done|]. intros ->. set_solver. }
  cbn [mbind outcome_bind]. clear P. set (h' := with_heads _).
  assert (seg t1 x l2 NO_LINK) as S2'.
  { eapply seg_frame; [|exact S2]. intros y Hy. apply O1. intros Hy1. apply (N12 y Hy1). set_solver. }
  assert (∃ t2, (if hd_or l2 NO_LINK =? NO_LINK then Ok (h' (with_table t1 s))
                 else upd_pfn (hd_or l2 NO_LINK) (set_prev (last_or l1 NO_LINK)) (h' (with_table t1 s)))
            = Ok (h' (with_table t2 s)) ∧
          seg t2 (last_or l1 NO_LINK) l2 NO_LINK ∧ same_payload t1 t2 ∧ same_off l2 t1 t2)
    as (t2 & -> & T2 & Y2 & O2).
  { destruct l2 as [|y l2]; cbn [hd_or].
    - exists t1. by rewrite Z.eqb_refl.
    - rewrite (proj2 (Z.eqb_neq _ _)) by (intros ->; set_solver).
      destruct (seg_set_prev t1 y l2 x (last_or l1 NO_LINK) NO_LINK N2 S2') as (ey & Ey & T).
      unfold upd_pfn. cbn [h' with_heads with_table pfn_table]. rewrite Ey. cbn [mbind outcome_bind deref].
      exists (<[y := set_prev (last_or l1 NO_LINK) ey]> t1).
      split_and!; [done|exact T|by eapply same_payload_insert|].
      intros w Hw. rewrite lookup_insert_ne; [done|]. set_solver. }
  cbn [mbind outcome_bind]. unfold upd_pfn. cbn [h' with_heads with_table pfn_table].
  assert (t2 !! x = Some e) as Ex.
  { rewrite O2 by done. rewrite O1; [done|]. intros Hx. apply (N12 x Hx). set_solver. }
  rewrite Ex. cbn [mbind outcome_bind deref].
  exists (<[x := set_prev NO_LINK (set_next NO_LINK e)]> t2). split_and!.
  - done.
  - apply seg_app. split.
    + eapply seg_frame; [|exact T1]. intros y Hy. assert (y ∉ x :: l2) as Hy' by (by apply N12).
      rewrite lookup_insert_ne by set_solver. apply O2. set_solver.
    + eapply seg_frame; [|exact T2]. intros y Hy. rewrite lookup_insert_ne; [done|]. by intros ->.
  - eapply same_payload_trans; [exact Y1|]. eapply same_payload_trans; [exact Y2|].
    by eapply same_payload_insert.
  - intros w Hw. rewrite lookup_insert_ne by set_solver. rewrite O2 by set_solver. apply O1. set_solver.
Qed.

(** [list_push] puts [x] in front. *)
Lemma push_links s l x z o e :
  seg (pfn_table s) NO_LINK l NO_LINK → NoDup l → x ∉ l → NO_LINK ∉ l →
  heads s !! (z, o) = Some (hd_or l NO_LINK) → pfn_table s !! x = Some e →
  ∃ t' e', list_push z o x s = Ok (with_heads (<[(z, o) := x]> (heads s)) (with_table t' s)) ∧
    seg t' NO_LINK (x :: l) NO_LINK ∧ t' !! x = Some e' ∧
    payload e' = (Z.lor (p_flags e) PFN_FREE, o, p_ref e) ∧
    (∀ y, y ≠ x → payload <$> t' !! y = payload <$> pfn_table s !! y) ∧
    same_off (x :: l) (pfn_table s) t'.
Proof.
  intros S N Nx NL H E. unfold list_push, get_head. rewrite H. cbn [mbind outcome_bind deref].
  unfold upd_pfn. rewrite E. cbn [mbind outcome_bind deref].
  set (e1 := set_free _). set (t1 := <[x := e1]> (pfn_table s)).
  assert (seg t1 NO_LINK l NO_LINK) as S1.
  { eapply seg_frame; [|exact S]. intros y Hy. subst t1. rewrite lookup_insert_ne; [done|]. by intros ->. }
  destruct l as [|y l]; cbn [hd_or].
  - rewrite Z.eqb_refl. cbn [negb mbind outcome_bind]. unfold set_head, get_head.
    cbn [with_table heads]. rewrite H. cbn [mbind outcome_bind deref].
    exists t1, e1. split_and!.
    + by destruct s.
    + simpl. split; [|done]. exists e1. subst t1. by rewrite lookup_insert_eq.
    + subst t1. by rewrite lookup_insert_eq.
    + done.
    + intros w Hw. subst t1. by rewrite lookup_insert_ne.
    + intros w Hw. subst t1. rewrite lookup_insert_ne; [done|]. set_solver.
  - rewrite (proj2 (Z.eqb_neq _ _)) by (intros ->; set_solver). cbn [negb].
    destruct (seg_set_prev t1 y l NO_LINK x NO_LINK N S1) as (ey & Ey & T).
    unfold upd_pfn. cbn [with_table pfn_table]. rewrite Ey. cbn [mbind outcome_bind deref].
    unfold set_head, get_head. cbn [with_table heads]. rewrite H. cbn [mbind outcome_bind deref].
    assert (x ≠ y) as Hxy by set_solver.
    exists (<[y := set_prev x ey]> t1), e1. split_and!.
    + by destruct s.
    + change (seg (<[y := set_prev x ey]> t1) NO_LINK (x :: y :: l) NO_LINK) with
        ((∃ e, <[y := set_prev x ey]> t1 !! x = Some e ∧ p_prev e = NO_LINK ∧ p_next e = y) ∧
         seg (<[y := set_prev x ey]> t1) x (y :: l) NO_LINK).
      split; [|exact T]. exists e1. rewrite lookup_insert_ne by done. subst t1.
      by rewrite lookup_insert_eq.
    + rewrite lookup_insert_ne by done. subst t1. by rewrite lookup_insert_eq.
    + done.
    + intros w Hw. destruct (decide (w = y)) as [->|].
      * rewrite lookup_insert_eq. subst t1. rewrite lookup_insert_ne in Ey by done. by rewrite Ey.
      * rewrite lookup_insert_ne by done. subst t1. by rewrite lookup_insert_ne.
    + intros w Hw. rewrite lookup_insert_ne by set_solver. subst t1. rewrite lookup_insert_ne; [done|set_solver].
Qed.
