(* ===== verification/PmmSpec.v ===== *)
(** * The buddy allocator's invariant and what each operation does to it

    [B] maps the first frame of every free block to its order.  [core s L B]
    says that the table and the lists [L] of [s] represent [B]: a frame is
    flagged free exactly when it starts a block of [B], the list of a zone and
    order holds exactly the blocks of that zone and order, and blocks are
    aligned, inside the table and disjoint. *)

From S2P Require Import Prelude Pmm PmmList.

Definition zonep (x : Z) : Z := zone_of (pfn_to_pa x).

(** A block of [2^o] frames at [x]. *)
Record block_ok (n x o : Z) : Prop := BlockOk {
  b_order : 0 ≤ o < PMM_MAX_ORDER;
  b_start : 0 ≤ x;
  b_aligned : (2 ^ o | x);
  b_end : x + 2 ^ o ≤ n
}.

Definition disjoint_blocks (x o y o' : Z) : Prop := x + 2 ^ o ≤ y ∨ y + 2 ^ o' ≤ x.

(** Frame [p] is free. *)
Definition ff (B : gmap Z Z) (p : Z) : Prop := ∃ x o, B !! x = Some o ∧ x ≤ p < x + 2 ^ o.

Abbreviation lists := (gmap (Z * Z) (list Z)).

Record core (s : pmm) (L : lists) (B : gmap Z Z) : Prop := Core {
  c_heads : heads s = (λ l, hd_or l NO_LINK) <$> L;
  c_lists : ∀ z o, is_Some (L !! (z, o)) ↔ (z = 0 ∨ z = 1) ∧ 0 ≤ o < PMM_MAX_ORDER;
  c_seg : ∀ z o l, L !! (z, o) = Some l → NoDup l ∧ seg (pfn_table s) NO_LINK l NO_LINK;
  c_mem : ∀ z o l x, L !! (z, o) = Some l → x ∈ l ↔ B !! x = Some o ∧ zonep x = z;
  c_flag : ∀ x e, pfn_table s !! x = Some e → is_free e = true ↔ is_Some (B !! x);
  c_order : ∀ x e o, pfn_table s !! x = Some e → B !! x = Some o → p_order e = o;
  c_table : ∀ x, is_Some (pfn_table s !! x) ↔ 0 ≤ x < pfn_count s;
  c_count : pfn_count s ≤ 2 ^ 52;
  c_block : ∀ x o, B !! x = Some o → block_ok (pfn_count s) x o;
  c_disj : ∀ x o y o', B !! x = Some o → B !! y = Some o' → x ≠ y → disjoint_blocks x o y o'
}.

(** What no list operation changes. *)
Record same_rest (s s' : pmm) : Prop := SameRest {
  sr_count : pfn_count s' = pfn_count s;
  sr_stats : stats s' = stats s;
  sr_zero : zero_page s' = zero_page s;
  sr_dirty : dirty s' = dirty s;
  sr_refs : ∀ y, p_ref <$> pfn_table s' !! y = p_ref <$> pfn_table s !! y
}.

(** ** Bits and zones *)

Lemma is_free_bit e : is_free e = Z.testbit (p_flags e) 0.
Proof. unfold is_free. change PFN_FREE with (2 ^ 0). by apply land_bit. Qed.

Lemma is_free_payload e e' : payload e = payload e' → is_free e = is_free e'.
Proof. intros [= E _ _]. unfold is_free. by rewrite E. Qed.

Lemma set_flag_bit f : Z.testbit (Z.lor f PFN_FREE) 0 = true.
Proof. rewrite Z.lor_spec. by destruct (Z.testbit f 0). Qed.

Lemma clear_flag_bit f : Z.testbit (Z.ldiff f PFN_FREE) 0 = false.
Proof. rewrite Z.ldiff_spec. by destruct (Z.testbit f 0). Qed.

Lemma pfn_pa x : 0 ≤ x < 2 ^ 52 → pfn_to_pa x = x * 4096 ∧ pa_to_pfn (x * 4096) = x.
Proof.
  intros H. unfold pfn_to_pa, pa_to_pfn, u64.
  rewrite Z.shiftl_mul_pow2, Z.shiftr_div_pow2 by lia. change (2 ^ 12) with 4096.
  rewrite Z.mod_small by lia. split; [done|]. apply Z.div_mul. lia.
Qed.

Lemma zonep_cases x : 0 ≤ x < 2 ^ 52 → zonep x = if x <? 4096 then 0 else 1.
Proof.
  intros H. unfold zonep, zone_of. destruct (pfn_pa x H) as [-> _].
  destruct (Z.ltb_spec (x * 4096) (16 * 1024 * 1024)), (Z.ltb_spec x 4096); (done || lia).
Qed.

Lemma zonep_zone x : zonep x = 0 ∨ zonep x = 1.
Proof. unfold zonep, zone_of. destruct (_ <? _); [by left|by right]. Qed.

(** A zone holds whole blocks: 4096 is a multiple of every block size. *)
Lemma zonep_block x o : 0 ≤ o ≤ 12 → (2 ^ o | x) → 0 ≤ x → x + 2 ^ o ≤ 2 ^ 52 →
  ∀ y, x ≤ y < x + 2 ^ o → zonep y = zonep x.
Proof.
  intros Ho [k ->] Hx Hm y Hy. assert (0 < 2 ^ o) by (apply Z.pow_pos_nonneg; lia).
  rewrite !zonep_cases by lia.
  assert (∃ j, 4096 = j * 2 ^ o) as [j Ej].
  { exists (2 ^ (12 - o)). rewrite <- Z.pow_add_r by lia. by replace (12 - o + o) with 12 by lia. }
  generalize dependent (2 ^ o). intros P ? ? ? ? Ej.
  destruct (Z.ltb_spec y 4096), (Z.ltb_spec (k * P) 4096); try done; [lia|]. exfalso.
  assert (k < j) by nia. assert ((k + 1) * P ≤ j * P) by nia. lia.
Qed.

Lemma no_link_not_in s L B z o l : core s L B → L !! (z, o) = Some l → NO_LINK ∉ l.
Proof.
  intros C El Hin. apply (c_mem _ _ _ C _ _ _ _ El) in Hin as [Hb _].
  pose proof (c_block _ _ _ C _ _ Hb) as [? ? ? He]. pose proof (c_count _ _ _ C).
  unfold NO_LINK in *. assert (0 < 2 ^ o) by (apply Z.pow_pos_nonneg; lia). lia.
Qed.

Lemma core_head s L B z o l :
  core s L B → L !! (z, o) = Some l → heads s !! (z, o) = Some (hd_or l NO_LINK).
Proof. intros C El. by rewrite (c_heads _ _ _ C), lookup_fmap, El. Qed.

(** Two lists have no common element. *)
Lemma lists_disjoint s L B z o l z' o' l' y :
  core s L B → L !! (z, o) = Some l → L !! (z', o') = Some l' → (z, o) ≠ (z', o') →
  y ∈ l → y ∉ l'.
Proof.
  intros C E E' Hne Hy Hy'. apply (c_mem _ _ _ C _ _ _ _ E) in Hy as [B1 Z1].
  apply (c_mem _ _ _ C _ _ _ _ E') in Hy' as [B2 Z2]. congruence.
Qed.

(** ** Pushing a block *)

Lemma core_push s L B x o :
  core s L B → B !! x = None → block_ok (pfn_count s) x o →
  (∀ y o', B !! y = Some o' → disjoint_blocks x o y o') →
  ∃ s' L', list_push (zonep x) o x s = Ok s' ∧ core s' L' (<[x := o]> B) ∧ same_rest s s'.
Proof.
  intros C Bx Ob Dj. pose proof Ob as [Ho Hx Ha He].
  assert (0 < 2 ^ o) as Hp by (apply Z.pow_pos_nonneg; lia).
  destruct (proj2 (c_lists _ _ _ C (zonep x) o)) as [l El]; [by split; [apply zonep_zone|]|].
  destruct (c_seg _ _ _ C _ _ _ El) as [N S].
  destruct (proj2 (c_table _ _ _ C x)) as [e Ee]; [lia|].
  assert (x ∉ l) as Nx.
  { intros Hin. apply (c_mem _ _ _ C _ _ _ _ El) in Hin as [? _]. congruence. }
  destruct (push_links s l x (zonep x) o e S N Nx (no_link_not_in _ _ _ _ _ _ C El)
    (core_head _ _ _ _ _ _ C El) Ee) as (t' & e' & -> & S' & Ee' & Pe' & Py & Off).
  assert (∀ y, is_Some (t' !! y) ↔ is_Some (pfn_table s !! y)) as Dom.
  { intros y. destruct (decide (y = x)) as [->|Hy]; [rewrite Ee, Ee'; split; eauto|].
    specialize (Py y Hy). by destruct (t' !! y), (pfn_table s !! y). }
  exists (with_heads (<[(zonep x, o) := x]> (heads s)) (with_table t' s)), (<[(zonep x, o) := x :: l]> L).
  split; [done|]. split.
  - constructor; cbn [with_heads with_table heads pfn_table pfn_count].
    + by rewrite fmap_insert, (c_heads _ _ _ C).
    + intros z o'. rewrite <- (c_lists _ _ _ C). rewrite lookup_insert_is_Some'. naive_solver.
    + intros z o' l' E'. destruct (decide ((zonep x, o) = (z, o'))) as [Hzo|Hzo].
      * rewrite <- Hzo, lookup_insert_eq in E'. injection E' as <-. split; [by constructor|done].
      * rewrite lookup_insert_ne in E' by done. destruct (c_seg _ _ _ C _ _ _ E') as [N2 S2].
        split; [done|]. eapply seg_frame; [|exact S2]. intros y Hy. apply Off.
        intros [->|Hy']%elem_of_cons.
        -- apply (c_mem _ _ _ C _ _ _ _ E') in Hy as [? _]. congruence.
        -- eapply lists_disjoint; [exact C|exact El|exact E'|done|done|done].
    + intros z o' l' y E'. destruct (decide ((zonep x, o) = (z, o'))) as [Hzo|Hzo].
      * rewrite <- Hzo, lookup_insert_eq in E'. injection E' as <-. injection Hzo as <- <-.
        rewrite elem_of_cons, (c_mem _ _ _ C _ _ _ _ El).
        destruct (decide (y = x)) as [->|Hy].
        -- rewrite lookup_insert_eq. naive_solver.
        -- rewrite lookup_insert_ne by done. naive_solver.
      * rewrite lookup_insert_ne in E' by done. rewrite (c_mem _ _ _ C _ _ _ _ E').
        destruct (decide (y = x)) as [->|Hy].
        -- rewrite lookup_insert_eq, Bx. split; [naive_solver|]. intros [[= ->] <-]. done.
        -- by rewrite lookup_insert_ne by done.
    + intros y ey Ey. destruct (decide (y = x)) as [->|Hy].
      * rewrite lookup_insert_eq. rewrite Ee' in Ey. injection Ey as <-. rewrite is_free_bit.
        injection Pe' as -> _ _. rewrite set_flag_bit. naive_solver.
      * rewrite lookup_insert_ne by done. specialize (Py y Hy). rewrite Ey in Py.
        destruct (pfn_table s !! y) as [e0|] eqn:E0; [|done]. injection Py as Py.
        rewrite (is_free_payload ey e0); [by eapply c_flag|]. unfold payload. congruence.
    + intros y ey o' Ey. destruct (decide (y = x)) as [->|Hy].
      * rewrite lookup_insert_eq. intros [= <-]. rewrite Ee' in Ey. injection Ey as <-.
        by injection Pe'.
      * rewrite lookup_insert_ne by done. intros Bo. specialize (Py y Hy). rewrite Ey in Py.
        destruct (pfn_table s !! y) as [e0|] eqn:E0; [|done]. injection Py as _ -> _.
        by eapply c_order.
    + intros y. rewrite Dom. apply C.
    + apply C.
    + intros y o'. rewrite lookup_insert_Some. intros [[<- <-]|[_ Bo]]; [done|by apply C].
    + intros y o1 w o2. rewrite !lookup_insert_Some.
      intros [[<- <-]|[_ B1]] [[<- <-]|[_ B2]] Hne; [done|by apply Dj| |by eapply c_disj].
      destruct (Dj _ _ B1); [by right|by left].
  - constructor; try done. intros y. cbn [with_heads with_table pfn_table].
    destruct (decide (y = x)) as [->|Hy].
    + rewrite Ee', Ee. simpl. injection Pe' as _ _ ->. done.
    + specialize (Py y Hy). destruct (t' !! y), (pfn_table s !! y); simpl in *; try done.
      injection Py as _ _ ->. done.
Qed.

(** ** Removing a block *)

Lemma core_remove s L B x o :
  core s L B → B !! x = Some o →
  ∃ s1 s' L', list_remove x s = Ok s1 ∧ upd_pfn x clear_free s1 = Ok s' ∧
    core s' L' (delete x B) ∧ same_rest s s' ∧ stats s1 = stats s.
Proof.
  intros C Bx. pose proof (c_block _ _ _ C _ _ Bx) as [Ho Hx Ha He].
  assert (0 < 2 ^ o) as Hp by (apply Z.pow_pos_nonneg; lia).
  destruct (proj2 (c_lists _ _ _ C (zonep x) o)) as [l El]; [by split; [apply zonep_zone|]|].
  destruct (c_seg _ _ _ C _ _ _ El) as [N S].
  destruct (proj2 (c_table _ _ _ C x)) as [e Ee]; [lia|].
  pose proof (no_link_not_in _ _ _ _ _ _ C El) as NL. pose proof (core_head _ _ _ _ _ _ C El) as Hh.
  assert (x ∈ l) as Hin by (by apply (c_mem _ _ _ C _ _ _ _ El)).
  apply list_elem_of_split in Hin as (l1 & l2 & El12). rewrite El12 in S, N, NL, Hh.
  destruct (unlink_spec s l1 x l2 (zonep x) o S N NL Hh eq_refl) as (t' & -> & S' & P' & Off).
  { rewrite Ee. simpl. f_equal. by eapply c_order. }
  assert (∃ e', t' !! x = Some e' ∧ payload e' = payload e) as (e' & Ee' & Pe).
  { specialize (P' x). rewrite Ee in P'. destruct (t' !! x) as [e'|]; [|done]. exists e'. split; [done|].
    apply (inj Some). exact P'. }
  set (t2 := <[x := clear_free e']> t').
  assert (∀ y, y ≠ x → payload <$> t2 !! y = payload <$> pfn_table s !! y) as Py.
  { intros y Hy. subst t2. rewrite lookup_insert_ne by done. apply P'. }
  assert (t2 !! x = Some (clear_free e')) as E2 by (subst t2; by rewrite lookup_insert_eq).
  assert (x ∉ l1 ++ l2) as Nx.
  { apply NoDup_app in N as (N1 & N2 & N3). apply NoDup_cons in N3. set_solver. }
  assert (NoDup (l1 ++ l2)) as N'.
  { apply (NoDup_perm (l1 ++ x :: l2) (x :: l1 ++ l2)) in N; [|solve_Permutation].
    by apply NoDup_cons in N as [_ N]. }
  set (s1 := with_heads _ _). exists s1, (with_table t2 s1), (<[(zonep x, o) := l1 ++ l2]> L).
  split; [done|]. split.
  { unfold upd_pfn. cbn [s1 with_heads with_table pfn_table]. by rewrite Ee'. }
  split_and!; [| |done].
  - constructor; cbn [with_heads with_table heads pfn_table pfn_count].
    + cbn [s1 with_heads heads]. by rewrite fmap_insert, (c_heads _ _ _ C).
    + intros z o'. rewrite <- (c_lists _ _ _ C). rewrite lookup_insert_is_Some'. naive_solver.
    + intros z o' l' E'. destruct (decide ((zonep x, o) = (z, o'))) as [Hzo|Hzo].
      * rewrite <- Hzo, lookup_insert_eq in E'. injection E' as <-. split; [done|].
        eapply seg_frame; [|exact S']. intros y Hy. subst t2. rewrite lookup_insert_ne; [done|]. by intros ->.
      * rewrite lookup_insert_ne in E' by done. destruct (c_seg _ _ _ C _ _ _ E') as [N2 S2].
        split; [done|]. eapply seg_frame; [|exact S2]. intros y Hy.
        assert (y ∉ l) as Hyl.
        { intros Hl. eapply (lists_disjoint s L B); [exact C|exact El|exact E'|done|exact Hl|done]. }
        rewrite El12 in Hyl. subst t2. rewrite lookup_insert_ne by set_solver. by apply Off.
    + intros z o' l' y E'. destruct (decide ((zonep x, o) = (z, o'))) as [Hzo|Hzo].
      * rewrite <- Hzo, lookup_insert_eq in E'. injection E' as <-. injection Hzo as <- <-.
        destruct (decide (y = x)) as [->|Hy].
        -- rewrite lookup_delete_eq. naive_solver.
        -- rewrite lookup_delete_ne by done. rewrite <- (c_mem _ _ _ C _ _ _ _ El), El12.
           rewrite !elem_of_app, elem_of_cons. naive_solver.
      * rewrite lookup_insert_ne in E' by done. rewrite (c_mem _ _ _ C _ _ _ _ E').
        destruct (decide (y = x)) as [->|Hy].
        -- rewrite lookup_delete_eq, Bx. split; [|naive_solver]. intros [[= ->] <-]. done.
        -- by rewrite lookup_delete_ne by done.
    + intros y ey Ey. destruct (decide (y = x)) as [->|Hy].
      * rewrite lookup_delete_eq. rewrite E2 in Ey. injection Ey as <-.
        rewrite is_free_bit. unfold clear_free. cbn [p_flags]. rewrite clear_flag_bit.
        split; [done|]. intros [? ?]. done.
      * rewrite lookup_delete_ne by done. specialize (Py y Hy). rewrite Ey in Py.
        destruct (pfn_table s !! y) as [e0|] eqn:E0; [|done]. injection Py as Py.
        rewrite (is_free_payload ey e0); [by eapply c_flag|]. unfold payload. congruence.
    + intros y ey o' Ey. destruct (decide (y = x)) as [->|Hy]; [by rewrite lookup_delete_eq|].
      rewrite lookup_delete_ne by done. intros Bo. specialize (Py y Hy). rewrite Ey in Py.
      destruct (pfn_table s !! y) as [e0|] eqn:E0; [|done]. injection Py as _ -> _. by eapply c_order.
    + intros y. change (pfn_count s1) with (pfn_count s).
      rewrite <- (c_table _ _ _ C). destruct (decide (y = x)) as [->|Hy].
      * rewrite E2, Ee. split; eauto.
      * specialize (Py y Hy). by destruct (t2 !! y), (pfn_table s !! y).
    + apply C.
    + intros y o'. rewrite lookup_delete_Some. intros [_ Bo]. by apply C.
    + intros y o1 w o2. rewrite !lookup_delete_Some. intros [_ B1] [_ B2]. by eapply c_disj.
  - constructor; try done. intros y. cbn [with_heads with_table pfn_table].
    destruct (decide (y = x)) as [->|Hy].
    + rewrite E2, Ee. simpl. injection Pe as _ _ ->. done.
    + specialize (Py y Hy). destruct (t2 !! y), (pfn_table s !! y); simpl in *; try done.
      injection Py as _ _ ->. done.
Qed.

(** ** Statistics *)

(** The sum of a weight over the free blocks. *)
Definition sumB (f : Z → Z → Z) (B : gmap Z Z) : Z := map_fold (λ x o a, f x o + a) 0 B.

Lemma sumB_insert f B x o : B !! x = None → sumB f (<[x := o]> B) = sumB f B + f x o.
Proof. intros H. unfold sumB. rewrite map_fold_insert_L by (done || intros; lia). lia. Qed.

Lemma sumB_delete f B x o : B !! x = Some o → sumB f (delete x B) = sumB f B - f x o.
Proof.
  intros H. rewrite <- (insert_delete_id B x o) at 2 by done.
  rewrite sumB_insert by apply lookup_delete_eq. lia.
Qed.

Definition block_pages (x o : Z) : Z := 2 ^ o.
Definition of_order (k x o : Z) : Z := if o =? k then 1 else 0.
Definition of_zone (z x o : Z) : Z := if zonep x =? z then 2 ^ o else 0.

(** Every counter is the sum it stands for, modulo [2^64]. *)
Record stats_ok (st : pmm_stats) (B : gmap Z Z) : Prop := StatsOk {
  st_free : free_pages st = u64 (sumB block_pages B);
  st_order : ∀ k, 0 ≤ k < PMM_MAX_ORDER → free_by_order st !! k = Some (u64 (sumB (of_order k) B));
  st_zone : ∀ z, z = 0 ∨ z = 1 → zone_free st !! z = Some (u64 (sumB (of_zone z) B));
  st_total : ∀ z, z = 0 ∨ z = 1 → is_Some (zone_total st !! z)
}.

Lemma u64_add a b : u64 (u64 a + b) = u64 (a + b).
Proof. apply Zplus_mod_idemp_l. Qed.

Lemma count_block_spec sign s B B' x o :
  stats_ok (stats s) B → 0 ≤ o < PMM_MAX_ORDER →
  (∀ f, sumB f B' = sumB f B + sign * f x o) →
  ∃ st', count_block sign (zonep x) o s = Ok (with_stats st' s) ∧ stats_ok st' B' ∧
    zone_total st' = zone_total (stats s).
Proof.
  intros [Sf So Sz St] Ho HB. unfold count_block, bump_at. rewrite (So o Ho), (Sz _ (zonep_zone x)).
  cbn [mbind outcome_bind deref]. eexists. split; [done|]. split; [|done]. constructor; simpl.
  - rewrite Sf, u64_add, HB. done.
  - intros k Hk. destruct (decide (o = k)) as [->|Hne].
    + rewrite lookup_insert_eq, u64_add, HB. unfold of_order at 3. rewrite Z.eqb_refl. do 2 f_equal. lia.
    + rewrite lookup_insert_ne by done. rewrite (So k Hk), HB. unfold of_order at 3.
      rewrite (proj2 (Z.eqb_neq _ _)) by done. do 2 f_equal. lia.
  - intros z Hz. destruct (decide (zonep x = z)) as [<-|Hne].
    + rewrite lookup_insert_eq, u64_add, HB. unfold of_zone at 3. by rewrite Z.eqb_refl.
    + rewrite lookup_insert_ne by done. rewrite (Sz z Hz), HB. unfold of_zone at 3.
      rewrite (proj2 (Z.eqb_neq _ _)) by done. do 2 f_equal. lia.
  - done.
Qed.

(** ** The invariant *)

Record pmm_ok (s : pmm) (B : gmap Z Z) : Prop := PmmOk {
  ok_core : ∃ L, core s L B;
  ok_stats : stats_ok (stats s) B;
  ok_zeroed : ∀ p, ff B p → p ∉ dirty s
}.

(** What (de)registering blocks leaves alone. *)
Record keeps (s s' : pmm) : Prop := Keeps {
  k_count : pfn_count s' = pfn_count s;
  k_zero : zero_page s' = zero_page s;
  k_dirty : dirty s' = dirty s;
  k_refs : ∀ y, p_ref <$> pfn_table s' !! y = p_ref <$> pfn_table s !! y
}.

Lemma keeps_refl s : keeps s s.
Proof. by constructor. Qed.

Lemma keeps_trans s1 s2 s3 : keeps s1 s2 → keeps s2 s3 → keeps s1 s3.
Proof. intros [A1 A2 A3 A4] [B1 B2 B3 B4]. constructor; congruence. Qed.

Lemma rest_keeps s s' st : same_rest s s' → keeps s (with_stats st s').
Proof. intros []. by constructor. Qed.

Lemma core_with_stats st s L B : core s L B → core (with_stats st s) L B.
Proof. by intros []. Qed.

Lemma pow_pos o : 0 ≤ o → 0 < 2 ^ o.
Proof. intros. apply Z.pow_pos_nonneg; lia. Qed.

(** The block [x, o] has no free frame. *)
Definition unused (B : gmap Z Z) (x o : Z) : Prop := ∀ p, x ≤ p < x + 2 ^ o → ¬ ff B p.

Lemma unused_disjoint n B x o :
  (∀ y o', B !! y = Some o' → block_ok n y o') → 0 ≤ o → unused B x o →
  B !! x = None ∧ ∀ y o', B !! y = Some o' → disjoint_blocks x o y o'.
Proof.
  intros Hb Ho U. pose proof (pow_pos o Ho). split.
  - destruct (B !! x) as [o'|] eqn:E; [|done]. exfalso. apply (U x); [lia|].
    pose proof (Hb _ _ E) as [? ? ? ?]. pose proof (pow_pos o' ltac:(lia)). exists x, o'. split; [done|lia].
  - intros y o' E. unfold disjoint_blocks. pose proof (Hb _ _ E) as [? ? ? ?]. pose proof (pow_pos o' ltac:(lia)).
    destruct (decide (x + 2 ^ o ≤ y)); [by left|]. destruct (decide (y + 2 ^ o' ≤ x)); [by right|].
    exfalso. apply (U (Z.max x y)); [lia|]. exists y, o'. split; [done|lia].
Qed.

Lemma ff_insert B x o p : B !! x = None → ff (<[x := o]> B) p ↔ ff B p ∨ x ≤ p < x + 2 ^ o.
Proof.
  intros Hx. split.
  - intros (y & o' & E & Hp). apply lookup_insert_Some in E as [[-> ->]|[_ E]]; [by right|].
    left. by exists y, o'.
  - intros [(y & o' & E & Hp)|Hp].
    + exists y, o'. rewrite lookup_insert_ne by congruence. done.
    + exists x, o. by rewrite lookup_insert_eq.
Qed.

(** Removing a block removes its frames. *)
Lemma ff_delete s L B x o p :
  core s L B → B !! x = Some o → ff (delete x B) p ↔ ff B p ∧ ¬ (x ≤ p < x + 2 ^ o).
Proof.
  intros C Hx. split.
  - intros (y & o' & [Hne E]%lookup_delete_Some & Hp). split; [by exists y, o'|].
    destruct (c_disj _ _ _ C x o y o' Hx E Hne); lia.
  - intros [(y & o' & E & Hp) Hn]. exists y, o'. rewrite lookup_delete_ne; [done|]. intros ->.
    rewrite Hx in E. injection E as <-. lia.
Qed.

Lemma ok_blocks s B : pmm_ok s B → ∀ y o', B !! y = Some o' → block_ok (pfn_count s) y o'.
Proof. intros [[L C] _ _]. apply C. Qed.

Lemma ok_count s B : pmm_ok s B → pfn_count s ≤ 2 ^ 52.
Proof. intros [[L C] _ _]. apply C. Qed.

(** Registering a block of frames in no free block. *)
Lemma push_block s B x o :
  pmm_ok s B → block_ok (pfn_count s) x o → unused B x o →
  (∀ p, x ≤ p < x + 2 ^ o → p ∉ dirty s) →
  ∃ s1 st, list_push (zonep x) o x s = Ok s1 ∧
    count_block 1 (zonep x) o s1 = Ok (with_stats st s1) ∧
    pmm_ok (with_stats st s1) (<[x := o]> B) ∧ keeps s (with_stats st s1) ∧
    zone_total st = zone_total (stats s).
Proof.
  intros O Ob U D. pose proof Ob as [Ho _ _ _].
  destruct (unused_disjoint _ B x o (ok_blocks _ _ O) ltac:(lia) U) as [Nx Dj].
  destruct O as [[L C] S Z].
  destruct (core_push s L B x o C Nx Ob Dj) as (s1 & L1 & E1 & C1 & R1).
  destruct (count_block_spec 1 s1 B (<[x := o]> B) x o) as (st & E2 & S2 & T2).
  - by rewrite (sr_stats _ _ R1).
  - done.
  - intros f. rewrite sumB_insert by done. lia.
  - exists s1, st. split; [done|]. split; [done|]. split_and!; [|by apply rest_keeps|by rewrite T2, (sr_stats _ _ R1)].
    constructor; [exists L1; by apply core_with_stats|done|].
    intros p. rewrite ff_insert by done. cbn [with_stats dirty]. rewrite (sr_dirty _ _ R1).
    intros [Hp|Hp]; [by apply Z|by apply D].
Qed.

(** Taking a block off its list; the flag may be cleared before or after the
    counters. *)
Lemma pull_block s B x o :
  pmm_ok s B → B !! x = Some o →
  ∃ s1 s2 st, list_remove x s = Ok s1 ∧ upd_pfn x clear_free s1 = Ok s2 ∧
    count_block (-1) (zonep x) o s2 = Ok (with_stats st s2) ∧
    count_block (-1) (zonep x) o s1 = Ok (with_stats st s1) ∧
    upd_pfn x clear_free (with_stats st s1) = Ok (with_stats st s2) ∧
    pmm_ok (with_stats st s2) (delete x B) ∧ keeps s (with_stats st s2).
Proof.
  intros [[L C] S Z] Hx. pose proof (c_block _ _ _ C _ _ Hx) as [Ho _ _ _].
  destruct (core_remove s L B x o C Hx) as (s1 & s2 & L2 & E1 & E2 & C2 & R2 & S1).
  assert (∀ s', stats s' = stats s → ∃ st, count_block (-1) (zonep x) o s' = Ok (with_stats st s') ∧
    stats_ok st (delete x B)) as CB.
  { intros s' Es. destruct (count_block_spec (-1) s' B (delete x B) x o) as (st & E & So & _).
    - by rewrite Es.
    - done.
    - intros f. rewrite (sumB_delete f B x o) by done. lia.
    - by exists st. }
  destruct (CB s2 (sr_stats _ _ R2)) as (st & Ec2 & So). destruct (CB s1 S1) as (st1 & Ec1 & _).
  assert (st1 = st) as ->.
  { unfold count_block in Ec1, Ec2. rewrite S1 in Ec1. rewrite (sr_stats _ _ R2) in Ec2.
    apply bind_inv in Ec1 as (a1 & A1 & Ec1), Ec2 as (a2 & A2 & Ec2). simplify_eq.
    apply bind_inv in Ec1 as (b1 & B1 & Ec1), Ec2 as (b2 & B2 & Ec2).
    injection Ec1 as Ec1. injection Ec2 as Ec2. congruence. }
  exists s1, s2, st. split_and!; try done.
  - unfold upd_pfn in *. cbn [with_stats pfn_table]. destruct (pfn_table s1 !! x); [|done].
    cbn [mbind outcome_bind deref] in *. injection E2 as <-. done.
  - constructor; [exists L2; by apply core_with_stats|done|]. intros p Hp.
    cbn [with_stats dirty]. rewrite (sr_dirty _ _ R2). apply Z.
    by apply (ff_delete s L B x o) in Hp as [? _].
  - by apply rest_keeps.
Qed.
