(* ===== verification/PmmAlloc.v ===== *)
(** * Allocating and freeing: what pmm.c promises its callers

    The abstract state is the set [ff B] of free frames: an allocation takes
    one aligned block out of it, a free puts one back. *)

From S2P Require Import Prelude Pmm PmmList PmmSpec.

(** Halving an aligned block. *)
Lemma half_block n x o :
  block_ok n x o → 0 < o → block_ok n x (o - 1) ∧ block_ok n (x + 2 ^ (o - 1)) (o - 1) ∧
  2 ^ o = 2 ^ (o - 1) + 2 ^ (o - 1).
Proof.
  intros [Ho Hx Ha He] H. assert (2 ^ o = 2 ^ (o - 1) + 2 ^ (o - 1)) as E.
  { replace o with (Z.succ (o - 1)) at 1 by lia. rewrite Z.pow_succ_r by lia. lia. }
  pose proof (pow_pos (o - 1) ltac:(lia)).
  assert (2 ^ (o - 1) | x) as Ha'.
  { etransitivity; [|exact Ha]. exists 2. lia. }
  split_and!; [constructor; try lia; done| |done].
  constructor; try lia. apply Z.divide_add_r; [done|]. by exists 1; lia.
Qed.

Lemma split_loop_spec x order : ∀ fuel o s B,
  pmm_ok s B → block_ok (pfn_count s) x o → 0 ≤ order ≤ o → o - order < Z.of_nat fuel →
  unused B x o → (∀ p, x ≤ p < x + 2 ^ o → p ∉ dirty s) →
  ∃ s' B', split_loop fuel (zonep x) x o order s = Ok s' ∧ pmm_ok s' B' ∧ keeps s s' ∧
    ∀ p, ff B' p ↔ ff B p ∨ x + 2 ^ order ≤ p < x + 2 ^ o.
Proof.
  induction fuel as [|fuel IH]; intros o s B O Ob Hor Hf U D; [lia|]. cbn [split_loop].
  destruct (o >? order) eqn:Hgt.
  2:{ exists s, B. assert (o = order) as -> by lia. split_and!; [done|done|apply keeps_refl|].
      intros p. split; [by left|]. intros [?|?]; [done|lia]. }
  destruct (half_block _ _ _ Ob) as (O1 & O2 & E2); [lia|].
  pose proof (pow_pos (o - 1) ltac:(lia)) as Hp. pose proof (ok_count _ _ O) as Hc.
  pose proof Ob as [Hb1 Hb2 Hb3 Hb4]. rewrite add64_small by lia.
  assert (zonep (x + 2 ^ (o - 1)) = zonep x) as Hz.
  { apply (zonep_block x o); unfold PMM_MAX_ORDER in *; try lia. done. }
  destruct (push_block s B (x + 2 ^ (o - 1)) (o - 1)) as (s1 & st & E1 & Ec & O' & K & _); [done|done| | |].
  { intros p Hp'. apply U. lia. }
  { intros p Hp'. apply D. lia. }
  rewrite Hz in E1, Ec. rewrite E1. cbn [mbind outcome_bind]. rewrite Ec. cbn [mbind outcome_bind].
  assert (B !! (x + 2 ^ (o - 1)) = None) as Nb.
  { eapply unused_disjoint; [by apply ok_blocks|exact (proj1 (b_order _ _ _ O2))|].
    intros p Hp'. apply U. lia. }
  destruct (IH (o - 1) _ _ O') as (s' & B' & -> & O'' & K' & F).
  - by rewrite (k_count _ _ K).
  - lia.
  - lia.
  - intros p Hp'. rewrite ff_insert by done. intros [?|?]; [|lia]. apply (U p); [lia|done].
  - intros p Hp'. rewrite (k_dirty _ _ K). apply D. lia.
  - exists s', B'. split_and!; [done|done|by eapply keeps_trans|].
    pose proof (Z.pow_le_mono_r 2 order (o - 1)).
    intros p. rewrite F, ff_insert by done. split; [intros [[?|?]|?]|intros [?|?]]; auto; [right; lia|right; lia|].
    destruct (decide (p < x + 2 ^ (o - 1))); [right; lia|left; right; lia].
Qed.

(** The search for a non-empty list. *)
Lemma find_order_spec s L B z : core s L B → z = 0 ∨ z = 1 → ∀ fuel o,
  0 ≤ o ≤ PMM_MAX_ORDER → PMM_MAX_ORDER - o < Z.of_nat fuel →
  ∃ o', find_order fuel z o s = Ok o' ∧ o ≤ o' ≤ PMM_MAX_ORDER ∧
    (∀ k, o ≤ k < o' → L !! (z, k) = Some []) ∧
    (o' < PMM_MAX_ORDER → ∃ x l, L !! (z, o') = Some (x :: l)).
Proof.
  intros C Hz. induction fuel as [|fuel IH]; intros o Ho Hf; [lia|]. cbn [find_order].
  destruct (Z.ltb_spec o PMM_MAX_ORDER).
  2:{ exists o. split_and!; [done|lia|lia|intros; lia|lia]. }
  destruct (proj2 (c_lists _ _ _ C z o)) as [l El]; [split; [done|lia]|].
  unfold get_head. rewrite (core_head _ _ _ _ _ _ C El). cbn [mbind outcome_bind deref].
  destruct l as [|x l]; cbn [hd_or].
  - rewrite Z.eqb_refl. destruct (IH (o + 1)) as (o' & -> & Ho' & He & Hl); [lia|lia|].
    exists o'. split_and!; [done|lia|lia| |done]. intros k Hk.
    destruct (decide (k = o)) as [->|]; [done|]. apply He. lia.
  - pose proof (no_link_not_in _ _ _ _ _ _ C El) as NL.
    rewrite (proj2 (Z.eqb_neq _ _)) by (intros ->; set_solver).
    exists o. split_and!; [done|lia|lia|intros; lia|eauto].
Qed.

(** Clearing the flag and writing the order of a frame that starts no free
    block. *)
Lemma claim_spec s B x order :
  pmm_ok s B → B !! x = None → 0 ≤ x < pfn_count s →
  ∃ s', upd_pfn x (λ e, set_order order (clear_free e)) s = Ok s' ∧ pmm_ok s' B ∧ keeps s s'.
Proof.
  intros [[L C] S Z] Nx Hx. destruct (proj2 (c_table _ _ _ C x) Hx) as [e Ee].
  unfold upd_pfn. rewrite Ee. cbn [mbind outcome_bind deref]. eexists. split; [done|]. split.
  - constructor; [exists L|done|done]. constructor; cbn [with_table pfn_table heads pfn_count]; try (by destruct C).
    + intros z o l El. destruct (c_seg _ _ _ C _ _ _ El) as [N Sg]. split; [done|].
      eapply seg_frame; [|exact Sg]. intros y Hy. rewrite lookup_insert_ne; [done|]. intros ->.
      apply (c_mem _ _ _ C _ _ _ _ El) in Hy as [? _]. congruence.
    + intros y ey Ey. destruct (decide (y = x)) as [->|].
      * rewrite lookup_insert_eq in Ey. injection Ey as <-. rewrite is_free_bit.
        unfold set_order, clear_free. cbn [p_flags]. rewrite clear_flag_bit, Nx.
        split; [done|]. by intros [? ?].
      * rewrite lookup_insert_ne in Ey by done. by apply (c_flag _ _ _ C).
    + intros y ey o Ey Bo. rewrite lookup_insert_ne in Ey by congruence. by eapply c_order.
    + intros y. rewrite <- (c_table _ _ _ C). rewrite lookup_insert_is_Some'. naive_solver.
  - constructor; try done. intros y. cbn [with_table pfn_table].
    destruct (decide (y = x)) as [->|]; [by rewrite lookup_insert_eq, Ee|by rewrite lookup_insert_ne].
Qed.

(** The block taken from a list, split down to [order]. *)
Lemma take_block_spec s L B z o x l order :
  pmm_ok s B → core s L B → L !! (z, o) = Some (x :: l) → 0 ≤ order ≤ o →
  ∃ s' B', take_block z o order s = Ok (x * 4096, s') ∧ pmm_ok s' B' ∧ keeps s s' ∧
    block_ok (pfn_count s) x order ∧ zonep x = z ∧
    (∀ p, x ≤ p < x + 2 ^ order → ff B p) ∧
    (∀ p, ff B' p ↔ ff B p ∧ ¬ (x ≤ p < x + 2 ^ order)).
Proof.
  intros O C El Hor.
  destruct (proj1 (c_mem _ _ _ C _ _ _ x El) ltac:(by constructor)) as [Bx Hz].
  pose proof (c_block _ _ _ C _ _ Bx) as Ob. pose proof Ob as [Ho Hx Ha He].
  pose proof (ok_count _ _ O) as Hc. pose proof (pow_pos o ltac:(lia)) as Hp.
  unfold take_block, list_pop, get_head. rewrite (core_head _ _ _ _ _ _ C El).
  cbn [mbind outcome_bind deref hd_or]. pose proof (no_link_not_in _ _ _ _ _ _ C El) as NL.
  rewrite (proj2 (Z.eqb_neq _ _)) by (intros ->; set_solver).
  destruct (pull_block s B x o O Bx) as (s1 & s2 & st & -> & E2 & E3 & _ & _ & O2 & K2).
  cbn [mbind outcome_bind]. rewrite E2. cbn [mbind outcome_bind].
  subst z. rewrite E3. cbn [mbind outcome_bind].
  assert (∀ p, x ≤ p < x + 2 ^ o → ff B p) as Hin by (intros p Hp'; by exists x, o).
  assert (unused (delete x B) x o) as U.
  { intros p Hp' Hff. apply (ff_delete s L B x o) in Hff as [_ ?]; done. }
  destruct (split_loop_spec x order 12 o _ _ O2) as (s3 & B3 & -> & O3 & K3 & F3).
  { by rewrite (k_count _ _ K2). }
  { lia. }
  { unfold PMM_MAX_ORDER in *. lia. }
  { done. }
  { intros p Hp'. rewrite (k_dirty _ _ K2). destruct O as [_ _ Z]. apply Z. by apply Hin. }
  cbn [mbind outcome_bind].
  pose proof (Z.pow_le_mono_r 2 order o ltac:(lia) ltac:(lia)) as Hle.
  pose proof (pow_pos order ltac:(lia)) as Hpo.
  assert (B3 !! x = None) as Nx.
  { destruct (B3 !! x) as [o3|] eqn:E; [|done]. exfalso.
    pose proof (ok_blocks _ _ O3 _ _ E) as [? _ _ _]. pose proof (pow_pos o3 ltac:(lia)).
    assert (ff B3 x) as Hf by (exists x, o3; split; [done|lia]).
    apply F3 in Hf as [Hf|Hf]; [|lia]. by apply (U x); [lia|]. }
  destruct (claim_spec s3 B3 x order O3 Nx) as (s4 & -> & O4 & K4).
  { rewrite (k_count _ _ K3), (k_count _ _ K2). lia. }
  cbn [mbind outcome_bind]. destruct (pfn_pa x ltac:(lia)) as [-> _].
  exists s4, B3. split; [done|]. split; [done|].
  split; [by eapply keeps_trans; [|eapply keeps_trans]|]. split_and!.
  - constructor; [lia|lia| |lia]. etransitivity; [|exact Ha]. exists (2 ^ (o - order)).
    rewrite <- Z.pow_add_r by lia. f_equal. lia.
  - done.
  - intros p Hp'. apply Hin. lia.
  - intros p. rewrite F3. rewrite (ff_delete s L B x o) by done. split.
    + intros [[? ?]|?]; [split; [done|lia]|]. split; [apply Hin; lia|lia].
    + intros [Hf Hn]. destruct (decide (x ≤ p < x + 2 ^ o)); [right; lia|by left].
Qed.

(** ** Allocation *)

(** A block was taken from the free frames. *)
Record taken (s : pmm) (B : gmap Z Z) (x order : Z) (s' : pmm) (B' : gmap Z Z) : Prop := Taken {
  tk_ok : pmm_ok s' B';
  tk_keeps : keeps s s';
  tk_block : block_ok (pfn_count s) x order;
  tk_free : ∀ p, x ≤ p < x + 2 ^ order → ff B p;
  tk_rest : ∀ p, ff B' p ↔ ff B p ∧ ¬ (x ≤ p < x + 2 ^ order)
}.

(** No free block of zone [z] is large enough. *)
Definition exhausted (B : gmap Z Z) (order z : Z) : Prop :=
  ∀ x o, B !! x = Some o → zonep x = z → o < order.

Lemma zone_alloc_spec s B z order :
  pmm_ok s B → z = 0 ∨ z = 1 → 0 ≤ order < PMM_MAX_ORDER →
  ∃ o, find_order 12 z order s = Ok o ∧
    (o = PMM_MAX_ORDER ∧ exhausted B order z ∨
     o < PMM_MAX_ORDER ∧ ∃ x s' B', take_block z o order s = Ok (x * 4096, s') ∧
       taken s B x order s' B' ∧ zonep x = z).
Proof.
  intros O Hz Ho. pose proof O as [[L C] _ _].
  destruct (find_order_spec s L B z C Hz 12 order) as (o & -> & Ho' & He & Hn);
    [unfold PMM_MAX_ORDER in *; lia|unfold PMM_MAX_ORDER in *; lia|].
  exists o. split; [done|]. destruct (decide (o = PMM_MAX_ORDER)) as [->|Hne].
  - left. split; [done|]. intros x k Bx Hzx. destruct (decide (k < order)); [done|]. exfalso.
    pose proof (c_block _ _ _ C _ _ Bx) as [Hk _ _ _].
    pose proof (He k ltac:(lia)) as El.
    assert (x ∈ @nil Z) as Hin by (by apply (c_mem _ _ _ C _ _ _ _ El)).
    by apply not_elem_of_nil in Hin.
  - right. split; [lia|]. destruct (Hn ltac:(lia)) as (x & l & El).
    destruct (take_block_spec s L B z o x l order O C El) as (s' & B' & E & O' & K & Ob & Zx & Hf & Hr);
      [lia|].
    exists x, s', B'. by split_and!.
Qed.

Lemma alloc_spec s B order :
  pmm_ok s B → 0 ≤ order < PMM_MAX_ORDER →
  pmm_alloc_pages order s = Ok (0, s) ∧ (∀ x o, B !! x = Some o → o < order) ∨
  ∃ x s' B', pmm_alloc_pages order s = Ok (x * 4096, s') ∧ taken s B x order s' B'.
Proof.
  intros O Ho. unfold pmm_alloc_pages, pmm_alloc_pages_locked, PMM_ZONE_NORMAL, PMM_ZONE_DMA.
  replace ((order <? 0) || (order >=? PMM_MAX_ORDER)) with false by lia.
  destruct (zone_alloc_spec s B 1 order O (or_intror eq_refl) Ho)
    as (o1 & -> & [[-> X1]|(H1 & x & s' & B' & E & T & _)]); cbn [mbind outcome_bind].
  2:{ rewrite (proj2 (Z.ltb_lt _ _)) by done. right. eauto. }
  rewrite Z.ltb_irrefl.
  destruct (zone_alloc_spec s B 0 order O (or_introl eq_refl) Ho)
    as (o0 & -> & [[-> X0]|(H0 & x & s' & B' & E & T & _)]); cbn [mbind outcome_bind].
  2:{ rewrite (proj2 (Z.ltb_lt _ _)) by done. right. eauto. }
  rewrite Z.ltb_irrefl. left. split; [done|]. intros x o Bx.
  destruct (zonep_zone x) as [Zx|Zx]; [by apply (X0 x)|by apply (X1 x)].
Qed.

(** ** Freeing *)

Lemma buddy_spec x o :
  0 ≤ o → (2 ^ o | x) →
  ∃ m, (2 ^ (o + 1) | m) ∧
    (x = m ∧ buddy_pfn x o = m + 2 ^ o ∨ x = m + 2 ^ o ∧ buddy_pfn x o = m).
Proof.
  intros Ho [k ->]. unfold buddy_pfn.
  assert (Z.lxor (k * 2 ^ o) (2 ^ o) = Z.lxor k 1 * 2 ^ o) as ->.
  { rewrite <- !Z.shiftl_mul_pow2 by done. rewrite Z.shiftl_lxor. f_equal.
    rewrite Z.shiftl_mul_pow2 by done. lia. }
  rewrite Z.pow_add_r, Z.pow_1_r by lia.
  assert (∀ j, Z.lxor (2 * j) 1 = 2 * j + 1) as Hx.
  { intros j. rewrite <- Z.add_nocarry_lxor; [done|]. change 1 with (Z.ones 1).
    rewrite Z.land_ones by lia. rewrite Z.mul_comm. apply Z.mod_mul. lia. }
  destruct (Z.Even_or_Odd k) as [[j ->]|[j ->]].
  - exists (2 * j * 2 ^ o). split; [exists j; lia|]. left. split; [done|]. rewrite Hx. lia.
  - exists (2 * j * 2 ^ o). split; [exists j; lia|]. right. split; [lia|].
    rewrite <- Hx, Z.lxor_assoc, Z.lxor_nilpotent, Z.lxor_0_r. done.
Qed.

Definition in_block (x o p : Z) : Prop := x ≤ p < x + 2 ^ o.

(** The block waiting to be pushed. *)
Record pending (s : pmm) (B : gmap Z Z) (z x o : Z) : Prop := Pending {
  pd_block : block_ok (pfn_count s) x o;
  pd_unused : unused B x o;
  pd_zone : zonep x = z;
  pd_zeroed : ∀ p, in_block x o p → p ∉ dirty s
}.

(** A free buddy merges with the pending block. *)
Lemma merge_pending s B z x o s' :
  pmm_ok s B → pending s B z x o → o + 1 < PMM_MAX_ORDER →
  B !! buddy_pfn x o = Some o → zonep (buddy_pfn x o) = z →
  pmm_ok s' (delete (buddy_pfn x o) B) → keeps s s' →
  let m := if buddy_pfn x o <? x then buddy_pfn x o else x in
  pending s' (delete (buddy_pfn x o) B) z m (o + 1) ∧
  ∀ p, ff (delete (buddy_pfn x o) B) p ∨ in_block m (o + 1) p ↔ ff B p ∨ in_block x o p.
Proof.
  intros O [Ob U Hz D] Ho Bb Hzb O' K. pose proof Ob as [Ho0 Hx Ha He].
  pose proof O as [[L C] _ Zr]. pose proof (c_block _ _ _ C _ _ Bb) as [_ Hbx _ Hbe].
  pose proof (pow_pos o ltac:(lia)) as Hp.
  assert (2 ^ (o + 1) = 2 ^ o + 2 ^ o) as E2 by (rewrite Z.pow_add_r, Z.pow_1_r by lia; lia).
  destruct (buddy_spec x o ltac:(lia) Ha) as (m & Hm & Hc).
  assert ((if buddy_pfn x o <? x then buddy_pfn x o else x) = m) as ->.
  { destruct Hc as [[-> ->]|[-> ->]];
      match goal with |- context [?a <? ?b] => destruct (Z.ltb_spec a b) end; lia. }
  cbn zeta.
  assert (∀ p, in_block m (o + 1) p ↔ in_block x o p ∨ in_block (buddy_pfn x o) o p) as Hin.
  { intros p. unfold in_block. destruct Hc as [[-> ->]|[-> ->]]; lia. }
  assert (∀ p, in_block (buddy_pfn x o) o p → ff B p) as Hbf by (intros p ?; by exists (buddy_pfn x o), o).
  pose proof (λ p, ff_delete s L B (buddy_pfn x o) o p C Bb) as Hd.
  split.
  - constructor.
    + rewrite (k_count _ _ K). constructor; [lia| |done|]; destruct Hc as [[-> Eb]|[-> Eb]]; rewrite Eb in *; lia.
    + intros p Hpm Hff. apply Hd in Hff as [Hff Hn]. apply Hin in Hpm as [?|?]; [by apply (U p)|].
      by apply Hn.
    + destruct Hc as [[-> _]|[_ <-]]; done.
    + intros p [Hpm|Hpm]%Hin; rewrite (k_dirty _ _ K); [by apply D|]. apply Zr. by apply Hbf.
  - intros p. rewrite Hd, Hin. unfold in_block in *. split.
    + intros [[? _]|[?|?]]; [by left|by right|left; by apply Hbf].
    + intros [?|?]; [|by right; left].
      destruct (decide (buddy_pfn x o ≤ p < buddy_pfn x o + 2 ^ o)); [by right; right|by left].
Qed.

Lemma coalesce_spec z : ∀ fuel x o s B,
  pmm_ok s B → pending s B z x o → PMM_MAX_ORDER - o ≤ Z.of_nat fuel →
  ∃ x' o' s' B', coalesce fuel z x o s = Ok (x', o', s') ∧ pmm_ok s' B' ∧ keeps s s' ∧
    pending s' B' z x' o' ∧ ∀ p, ff B' p ∨ in_block x' o' p ↔ ff B p ∨ in_block x o p.
Proof.
  induction fuel as [|fuel IH]; intros x o s B O P Hf.
  { pose proof P as [[? _ _ _] _ _ _]. lia. }
  cbn [coalesce].
  assert (∃ x' o' s' B', Ok (x, o, s) = Ok (x', o', s') ∧ pmm_ok s' B' ∧ keeps s s' ∧
    pending s' B' z x' o' ∧ ∀ p, ff B' p ∨ in_block x' o' p ↔ ff B p ∨ in_block x o p) as Stop.
  { exists x, o, s, B. by split_and!. }
  destruct (Z.ltb_spec (o + 1) PMM_MAX_ORDER) as [Ho|Ho]; cbn [negb]; [|exact Stop].
  destruct (buddy_pfn x o >=? pfn_count s) eqn:Hb; [exact Stop|].
  pose proof P as [Ob U Hz D]. pose proof Ob as [Ho0 Hx Ha He].
  pose proof O as [[L C] _ _]. pose proof (pow_pos o ltac:(lia)) as Hp.
  assert (0 ≤ buddy_pfn x o) as Hb0.
  { destruct (buddy_spec x o ltac:(lia) Ha) as (m & [k Hm] & [[E1 E2]|[E1 E2]]); [lia|].
    rewrite Z.pow_add_r, Z.pow_1_r in Hm by lia. rewrite E2. clear E2.
    generalize dependent (2 ^ o). intros w **. destruct (decide (0 ≤ k)); nia. }
  destruct (proj2 (c_table _ _ _ C (buddy_pfn x o))) as [bp Ebp]; [lia|].
  rewrite Ebp. cbn [mbind outcome_bind deref].
  destruct (is_free bp) eqn:Fb; cbn [negb orb]; [|exact Stop].
  destruct (Z.eqb_spec (p_order bp) o) as [Eo|Eo]; cbn [negb]; [|exact Stop].
  fold (zonep (buddy_pfn x o)).
  destruct (Z.eqb_spec (zonep (buddy_pfn x o)) z) as [Ez|Ez]; cbn [negb]; [|exact Stop].
  destruct (proj1 (c_flag _ _ _ C _ _ Ebp) Fb) as [o' Bb].
  assert (o' = o) as -> by (rewrite <- Eo; symmetry; by eapply c_order).
  destruct (pull_block s B _ _ O Bb) as (s1 & s2 & st & -> & _ & _ & E3 & E4 & O2 & K2).
  cbn [mbind outcome_bind]. rewrite Ez in E3. rewrite E3. cbn [mbind outcome_bind].
  rewrite E4. cbn [mbind outcome_bind].
  destruct (merge_pending s B z x o _ O P Ho Bb Ez O2 K2) as [P' F'].
  destruct (IH _ (o + 1) _ _ O2 P') as (x' & o'' & s' & B' & -> & O'' & K'' & P'' & F''); [lia|].
  exists x', o'', s', B'. split_and!; [done|done|by eapply keeps_trans|done|].
  intros p. by rewrite F'', F'.
Qed.

(** ** Freeing frames, and the reference counts of user pages

    A free puts exactly the frames of its block back, zeroed; a user page lives until its last
    reference is dropped. *)


(** ** Freeing *)

Lemma dirty_ok s B d : pmm_ok s B → d ⊆ dirty s → pmm_ok (with_dirty d s) B.
Proof.
  intros [[L C] S Z] Hd. constructor; [exists L; by destruct C|done|].
  intros p Hp. cbn [with_dirty dirty]. intros Hin. apply (Z p Hp). set_solver.
Qed.

Lemma elem_of_frames p x n : p ∈ frames x n ↔ x ≤ p < x + n.
Proof. unfold frames. rewrite elem_of_list_to_set, elem_of_seqZ. lia. Qed.

Lemma unused_none s B x o : pmm_ok s B → 0 ≤ o → unused B x o → B !! x = None.
Proof. intros O Ho U. by eapply unused_disjoint; [apply ok_blocks| |]. Qed.

(** The argument check of [pmm_free_pages]. *)
Definition free_rejected (s : pmm) (B : gmap Z Z) (pa order : Z) : Prop :=
  ¬ 0 ≤ order < PMM_MAX_ORDER ∨ pa mod 2 ^ (12 + order) ≠ 0 ∨
  pfn_count s ≤ pa / 4096 ∨ is_Some (B !! (pa / 4096)).

Lemma validate_spec s B pa order :
  pmm_ok s B → 0 ≤ pa →
  pmm_free_validate_locked pa order s = Ok () ∧ ¬ free_rejected s B pa order ∨
  pmm_free_validate_locked pa order s = Panic ∧ free_rejected s B pa order.
Proof.
  intros [[L C] _ _] Hpa. unfold pmm_free_validate_locked, free_rejected, panic_if, pa_to_pfn.
  rewrite Z.shiftr_div_pow2 by done. change (2 ^ 12) with 4096.
  destruct (order <? 0) eqn:H1; cbn [orb mbind outcome_bind]; [right; split; [done|lia]|].
  destruct (order >=? PMM_MAX_ORDER) eqn:H2; cbn [mbind outcome_bind]; [right; split; [done|lia]|].
  replace (2 ^ (12 + order) - 1) with (Z.ones (12 + order)) by (rewrite Z.ones_equiv; lia).
  rewrite Z.land_ones by lia.
  destruct (Z.eqb_spec (pa mod 2 ^ (12 + order)) 0) as [E0|E0]; cbn [negb mbind outcome_bind];
    [|right; split; [done|auto]].
  destruct (pa / 4096 >=? pfn_count s) eqn:H3; cbn [mbind outcome_bind]; [right; split; [done|lia]|].
  pose proof (Z.div_pos pa 4096 Hpa ltac:(lia)).
  destruct (proj2 (c_table _ _ _ C (pa / 4096))) as [e Ee]; [lia|]. rewrite Ee.
  cbn [mbind outcome_bind deref]. pose proof (c_flag _ _ _ C _ _ Ee) as Hf.
  destruct (is_free e).
  - right. split; [done|]. do 3 right. by apply Hf.
  - left. split; [done|]. intros [?|[?|[?|?]]]; [lia|done|lia|]. by apply Hf in H0.
Qed.

Lemma not_rejected s B x order :
  pmm_ok s B → block_ok (pfn_count s) x order → unused B x order →
  ¬ free_rejected s B (x * 4096) order.
Proof.
  intros O Ob U. pose proof Ob as [Ho Hx [k Hk] He]. pose proof (pow_pos order ltac:(lia)).
  unfold free_rejected. rewrite Z.div_mul by lia. intros [?|[Hm|[?|[o' Hs]]]]; [lia| |lia|].
  - apply Hm. rewrite Z.pow_add_r by lia. rewrite Hk. replace (k * 2 ^ order * 4096) with (k * (2 ^ 12 * 2 ^ order)) by lia.
    apply Z.mod_mul. lia.
  - rewrite (unused_none s B x order O) in Hs; [done|lia|done].
Qed.

Lemma free_locked_spec s B x order :
  pmm_ok s B → pending s B (zonep x) x order →
  ∃ s' B', pmm_free_pages_locked (x * 4096) order s = Ok s' ∧ pmm_ok s' B' ∧ keeps s s' ∧
    ∀ p, ff B' p ↔ ff B p ∨ in_block x order p.
Proof.
  intros O P. pose proof P as [[Ho Hx Ha He] U _ D]. pose proof (ok_count _ _ O) as Hc.
  pose proof (pow_pos order ltac:(lia)). unfold pmm_free_pages_locked.
  destruct (pfn_pa x ltac:(lia)) as [Epa ->].
  replace (zone_of (x * 4096)) with (zonep x) by (unfold zonep; by rewrite Epa).
  destruct (coalesce_spec (zonep x) 12 x order s B O P) as (x' & o' & s1 & B1 & -> & O1 & K1 & P1 & F1).
  { unfold PMM_MAX_ORDER in *. lia. }
  cbn [mbind outcome_bind]. destruct P1 as [Ob1 U1 Hz1 D1].
  destruct (push_block s1 B1 x' o' O1 Ob1 U1 D1) as (s2 & st & E2 & E3 & O3 & K3 & _).
  rewrite Hz1 in E2, E3. rewrite E2. cbn [mbind outcome_bind].
  exists (with_stats st s2), (<[x' := o']> B1).
  split_and!; [done|done|by eapply keeps_trans|]. intros p. rewrite <- F1.
  apply ff_insert. eapply unused_none; [exact O1| |exact U1]. destruct Ob1. lia.
Qed.

(** A freed block: its frames are free and zeroed, nothing else changes. *)
Record freed (s : pmm) (B : gmap Z Z) (x order : Z) (s' : pmm) (B' : gmap Z Z) : Prop := Freed {
  fr_ok : pmm_ok s' B';
  fr_count : pfn_count s' = pfn_count s;
  fr_zero : zero_page s' = zero_page s;
  fr_dirty : dirty s' = dirty s ∖ frames x (2 ^ order);
  fr_refs : ∀ y, p_ref <$> pfn_table s' !! y = p_ref <$> pfn_table s !! y;
  fr_free : ∀ p, ff B' p ↔ ff B p ∨ in_block x order p
}.

Lemma free_spec s B x order :
  pmm_ok s B → block_ok (pfn_count s) x order → unused B x order →
  ∃ s' B', pmm_free_pages (x * 4096) order s = Ok s' ∧ freed s B x order s' B'.
Proof.
  intros O Ob U. pose proof Ob as [Ho Hx Ha He]. unfold pmm_free_pages.
  destruct (validate_spec s B (x * 4096) order O ltac:(lia)) as [[-> _]|[_ R]].
  2:{ by apply not_rejected in R. }
  cbn [mbind outcome_bind]. pose proof (ok_count _ _ O). pose proof (pow_pos order ltac:(lia)).
  destruct (pfn_pa x ltac:(lia)) as [_ ->].
  set (s0 := with_dirty _ s).
  assert (pmm_ok s0 B) as O0 by (apply dirty_ok; [done|set_solver]).
  destruct (free_locked_spec s0 B x order O0) as (s' & B' & -> & O' & K & F).
  { constructor; [done|done|done|]. intros p Hp. cbn [s0 with_dirty dirty].
    rewrite elem_of_difference, elem_of_frames. by intros [_ Hn]. }
  exists s', B'. split; [done|]. destruct K as [Kc Kz Kd Kr]. constructor; done.
Qed.

(** ** Reference counts *)

Lemma set_ref_ok s B x r e :
  pmm_ok s B → pfn_table s !! x = Some e →
  ∃ s', upd_pfn x (set_ref r) s = Ok s' ∧ pmm_ok s' B ∧ pfn_count s' = pfn_count s ∧
    zero_page s' = zero_page s ∧ dirty s' = dirty s ∧
    ∀ y, p_ref <$> pfn_table s' !! y = if decide (y = x) then Some r else p_ref <$> pfn_table s !! y.
Proof.
  intros [[L C] S Z] E. unfold upd_pfn. rewrite E. cbn [mbind outcome_bind deref].
  eexists. split; [done|]. split_and!; try done.
  - constructor; [exists L|done|done]. constructor; cbn [with_table pfn_table heads pfn_count]; try (by destruct C).
    + intros z o l El. destruct (c_seg _ _ _ C _ _ _ El) as [N Sg]. split; [done|]. clear El N.
      revert Sg. generalize NO_LINK at 1 3. induction l as [|y l IH]; intros prev; simpl; [done|].
      intros [(ey & Ey & Hy) Sg]. split; [|by apply IH]. destruct (decide (y = x)) as [->|].
      * rewrite lookup_insert_eq. eexists. split; [done|]. by simplify_eq.
      * rewrite lookup_insert_ne by done. eauto.
    + intros y ey Ey. destruct (decide (y = x)) as [->|].
      * rewrite lookup_insert_eq in Ey. injection Ey as <-. by apply (c_flag _ _ _ C x e).
      * rewrite lookup_insert_ne in Ey by done. by apply (c_flag _ _ _ C).
    + intros y ey o Ey Bo. destruct (decide (y = x)) as [->|].
      * rewrite lookup_insert_eq in Ey. injection Ey as <-. by apply (c_order _ _ _ C x e).
      * rewrite lookup_insert_ne in Ey by done. by eapply c_order.
    + intros y. rewrite <- (c_table _ _ _ C). rewrite lookup_insert_is_Some'. naive_solver.
  - intros y. cbn [with_table pfn_table]. case_decide as Hy.
    + subst y. by rewrite lookup_insert_eq.
    + by rewrite lookup_insert_ne.
Qed.

(** Frame [x] is a user page with [r] references: not free, not the shared
    zero page. *)
Record user_page (s : pmm) (B : gmap Z Z) (x r : Z) : Prop := UserPage {
  up_range : 0 ≤ x < pfn_count s;
  up_used : ¬ ff B x;
  up_zero : x * 4096 ≠ zero_page s;
  up_ref : p_ref <$> pfn_table s !! x = Some r
}.

Lemma user_entry s B x r :
  pmm_ok s B → user_page s B x r →
  ∃ e, pfn_table s !! x = Some e ∧ p_ref e = r ∧ is_free e = false ∧ pa_to_pfn (x * 4096) = x.
Proof.
  intros O [Hx Hf _ Hr]. pose proof O as [[L C] _ _]. pose proof (ok_count _ _ O).
  destruct (pfn_table s !! x) as [e|] eqn:E; [|done]. exists e. split_and!; [done|by injection Hr| |].
  - apply not_true_iff_false. intros F. apply (c_flag _ _ _ C _ _ E) in F as [o Bo]. apply Hf.
    pose proof (ok_blocks _ _ O _ _ Bo) as [? _ _ _]. pose proof (pow_pos o ltac:(lia)).
    exists x, o. split; [done|lia].
  - by destruct (pfn_pa x ltac:(lia)).
Qed.

(** The other frames keep their counts. *)
Definition other_refs (s s' : pmm) (x : Z) : Prop :=
  ∀ y, y ≠ x → p_ref <$> pfn_table s' !! y = p_ref <$> pfn_table s !! y.

Lemma alloc_user_spec s B :
  pmm_ok s B → ¬ ff B 0 → ¬ ff B (zero_page s / 4096) →
  pmm_alloc_user_page s = Ok (0, s) ∧ (∀ p, ¬ ff B p) ∨
  ∃ x s' B', pmm_alloc_user_page s = Ok (x * 4096, s') ∧ pmm_ok s' B' ∧ x ≠ 0 ∧ ff B x ∧
    (∀ p, ff B' p ↔ ff B p ∧ p ≠ x) ∧ user_page s' B' x 1 ∧ other_refs s s' x ∧
    dirty s' = dirty s ∧ pfn_count s' = pfn_count s ∧ zero_page s' = zero_page s.
Proof.
  intros O H0 Hzp. unfold pmm_alloc_user_page.
  destruct (alloc_spec s B 0 O ltac:(unfold PMM_MAX_ORDER; lia)) as [[E N]|(x & s1 & B1 & E & T)];
    unfold pmm_alloc_pages in E; rewrite E; cbn [mbind outcome_bind].
  - left. split; [done|]. intros p (x & o & Bx & _). pose proof (N _ _ Bx).
    pose proof (ok_blocks _ _ O _ _ Bx) as [? _ _ _]. lia.
  - right. destruct T as [O1 K Ob Hin Hre]. change (2 ^ 0) with 1 in *.
    assert (ff B x) as Fx by (apply Hin; lia).
    assert (x ≠ 0) as Nx by (by intros ->). rewrite (proj2 (Z.eqb_neq _ _)) by lia. cbn [negb].
    pose proof Ob as [_ Hx _ He]. change (2 ^ 0) with 1 in *. pose proof (ok_count _ _ O).
    destruct (pfn_pa x ltac:(lia)) as [_ ->]. pose proof O1 as [[L1 C1] _ _].
    destruct (proj2 (c_table _ _ _ C1 x)) as [e Ee]; [rewrite (k_count _ _ K); lia|].
    destruct (set_ref_ok s1 B1 x 1 e O1 Ee) as (s2 & -> & O2 & Hc & Hz & Hd & Hr).
    exists x, s2, B1. split_and!; try done.
    + intros p. rewrite Hre. split; intros [? ?]; (split; [done|lia]).
    + constructor.
      * rewrite Hc, (k_count _ _ K). lia.
      * rewrite Hre. intros [_ ?]. lia.
      * rewrite Hz, (k_zero _ _ K). intros E0. rewrite <- E0, Z.div_mul in Hzp by lia. done.
      * rewrite Hr. by rewrite decide_True.
    + intros y Hy. rewrite Hr, decide_False by done. apply K.
    + by rewrite Hd, (k_dirty _ _ K).
    + by rewrite Hc, (k_count _ _ K).
    + by rewrite Hz, (k_zero _ _ K).
Qed.

Lemma get_user_spec s B x r :
  pmm_ok s B → user_page s B x r → 0 < r < 0xFFFF →
  ∃ s', pmm_get_user_page (x * 4096) s = Ok s' ∧ pmm_ok s' B ∧ user_page s' B x (r + 1) ∧
    other_refs s s' x ∧ dirty s' = dirty s ∧ pfn_count s' = pfn_count s ∧ zero_page s' = zero_page s.
Proof.
  intros O U Hr. destruct (user_entry s B x r O U) as (e & E & Er & Ef & Ep).
  pose proof U as [Hx Hf Hz _]. unfold pmm_get_user_page. rewrite Ep.
  rewrite (proj2 (Z.eqb_neq _ _)) by done. replace (x >=? pfn_count s) with false by lia.
  rewrite E. cbn [panic_if mbind outcome_bind deref]. rewrite Ef, Er.
  rewrite !(proj2 (Z.eqb_neq r _)) by lia. cbn [panic_if mbind outcome_bind].
  destruct (set_ref_ok s B x (r + 1) e O E) as (s' & -> & O' & Hc & Hz' & Hd & Hr').
  exists s'. split_and!; try done.
  - constructor; [by rewrite Hc|done|by rewrite Hz'|]. rewrite Hr'. by rewrite decide_True.
  - intros y Hy. by rewrite Hr', decide_False.
Qed.

Lemma put_user_spec s B x r :
  pmm_ok s B → user_page s B x r → 0 < r →
  ∃ s' B', pmm_put_user_page (x * 4096) s = Ok s' ∧ pmm_ok s' B' ∧ other_refs s s' x ∧
    pfn_count s' = pfn_count s ∧ zero_page s' = zero_page s ∧
    (1 < r → B' = B ∧ user_page s' B' x (r - 1) ∧ dirty s' = dirty s) ∧
    (r = 1 → (∀ p, ff B' p ↔ ff B p ∨ p = x) ∧ dirty s' = dirty s ∖ {[x]}).
Proof.
  intros O U Hr. destruct (user_entry s B x r O U) as (e & E & Er & Ef & Ep).
  pose proof U as [Hx Hf Hz _]. unfold pmm_put_user_page. rewrite Ep.
  rewrite (proj2 (Z.eqb_neq _ _)) by done. replace (x >=? pfn_count s) with false by lia.
  rewrite E. cbn [panic_if mbind outcome_bind deref]. rewrite Ef, Er.
  rewrite !(proj2 (Z.eqb_neq r _)) by lia. cbn [panic_if mbind outcome_bind].
  destruct (set_ref_ok s B x (r - 1) e O E) as (s1 & -> & O1 & Hc & Hz' & Hd & Hr').
  cbn [mbind outcome_bind]. destruct (Z.eqb_spec (r - 1) 0) as [Hr1|Hr1].
  - destruct (free_spec s1 B x 0 O1) as (s' & B' & -> & F).
    { rewrite Hc. constructor; [unfold PMM_MAX_ORDER; lia|lia|exists x; lia|lia]. }
    { intros p Hp. by replace p with x by lia. }
    destruct F as [O' Fc Fz Fd Fr Ff]. exists s', B'. split_and!; try done.
    + intros y Hy. by rewrite Fr, Hr', decide_False.
    + congruence.
    + congruence.
    + lia.
    + intros _. split.
      * intros p. rewrite Ff. unfold in_block. change (2 ^ 0) with 1. intuition lia.
      * rewrite Fd, Hd. f_equal. apply set_eq. intros p. rewrite elem_of_frames, elem_of_singleton. lia.
  - exists s1, B. split_and!; try done; [intros y Hy; by rewrite Hr', decide_False| |lia].
    intros _. split_and!; [done| |done].
    constructor; [by rewrite Hc|done|by rewrite Hz'|]. rewrite Hr'. by rewrite decide_True.
Qed.
