(* ===== verification/PmmInit.v ===== *)
(** * Building the allocator from the boot memory map (pmm.c, pmm_init)

    [pmm_register_range] cuts a range into maximal aligned blocks;
    [pmm_init] places the page-frame table, feeds what is left of every usable
    entry into the free lists and takes the shared zero page. *)

From S2P Require Import Prelude Pmm PmmList PmmSpec PmmAlloc.

(** ** One block *)

Lemma divide_mod_0 n x : 0 ≤ n → x mod 2 ^ n = 0 ↔ (2 ^ n | x).
Proof. intros. apply Z.mod_divide. pose proof (pow_pos n ltac:(lia)). lia. Qed.

(** The block found is aligned and inside the range. *)
Lemma range_order_spec start end_ : 0 ≤ start → end_ ≤ 2 ^ 52 → ∀ fuel o,
  0 ≤ o < PMM_MAX_ORDER → (2 ^ o | start) → start + 2 ^ o ≤ end_ →
  PMM_MAX_ORDER - o ≤ Z.of_nat fuel →
  ∃ o', range_order fuel start end_ o = Ok o' ∧ block_ok end_ start o' ∧
    (o' + 1 < PMM_MAX_ORDER → ¬ ((2 ^ (o' + 1) | start) ∧ start + 2 ^ (o' + 1) ≤ end_)).
Proof.
  intros Hs He. induction fuel as [|fuel IH]; intros o Ho Ha Hf Hfuel; [lia|]. cbn [range_order].
  replace (2 ^ (o + 1) - 1) with (Z.ones (o + 1)) by (rewrite Z.ones_equiv; lia).
  rewrite Z.land_ones by lia.
  destruct (Z.ltb_spec (o + 1) PMM_MAX_ORDER) as [Hlt|Hge]; cbn [andb].
  2:{ exists o. split_and!; [done|by constructor|lia]. }
  assert (2 ^ (o + 1) = 2 ^ o + 2 ^ o) as E2 by (rewrite Z.pow_add_r, Z.pow_1_r by lia; lia).
  pose proof (pow_pos o ltac:(lia)) as Hp. rewrite add64_small by lia.
  destruct (Z.eqb_spec (start mod 2 ^ (o + 1)) 0) as [E|E]; cbn [andb].
  - apply divide_mod_0 in E; [|lia]. destruct (Z.leb_spec (start + 2 ^ (o + 1)) end_).
    + apply IH; (done || lia).
    + exists o. split_and!; [done|by constructor|]. intros _ [_ ?]. lia.
  - exists o. split_and!; [done|by constructor|]. intros _ [D _]. by apply divide_mod_0 in D; [|lia].
Qed.

(** What registration changes of a state. *)
Record fed (s : pmm) (B : gmap Z Z) (s' : pmm) (B' : gmap Z Z) (P : Z → Prop) : Prop := Fed {
  fd_ok : pmm_ok s' B';
  fd_count : pfn_count s' = pfn_count s;
  fd_refs : ∀ y, p_ref <$> pfn_table s' !! y = p_ref <$> pfn_table s !! y;
  fd_dirty : dirty s' ⊆ dirty s;
  fd_free : ∀ p, ff B' p ↔ ff B p ∨ P p
}.

Lemma fed_nothing s B P : pmm_ok s B → (∀ p, ¬ P p) → fed s B s B P.
Proof. intros O H. constructor; try done. intros p. split; [by left|]. intros [?|?]; [done|by destruct (H p)]. Qed.

Lemma fed_trans s B s1 B1 s2 B2 (P1 P2 P : Z → Prop) :
  fed s B s1 B1 P1 → fed s1 B1 s2 B2 P2 → (∀ p, P p ↔ P1 p ∨ P2 p) → fed s B s2 B2 P.
Proof.
  intros [O1 C1 R1 D1 F1] [O2 C2 R2 D2 F2] H. constructor; [done|congruence|congruence|set_solver|].
  intros p. rewrite F2, F1, H. tauto.
Qed.

Lemma register_block_spec s B x o :
  pmm_ok s B → block_ok (pfn_count s) x o → unused B x o →
  ∃ s', pmm_register_block x o s = Ok s' ∧ fed s B s' (<[x := o]> B) (in_block x o).
Proof.
  intros O Ob U. unfold pmm_register_block. fold (zonep x). pose proof Ob as [Ho _ _ _].
  set (s0 := with_dirty _ s).
  assert (pmm_ok s0 B) as O0 by (apply dirty_ok; [done|set_solver]).
  destruct (push_block s0 B x o O0 Ob U) as (s1 & st & -> & E2 & O2 & K2 & T2).
  { intros p Hp. cbn [s0 with_dirty dirty]. rewrite elem_of_difference, elem_of_frames. by intros [_ Hn]. }
  cbn [mbind outcome_bind]. rewrite E2. cbn [mbind outcome_bind stats with_stats].
  destruct O2 as [[L C] [Sf So Sz St] Z2]. destruct (St _ (zonep_zone x)) as [v Ev].
  cbn [stats with_stats] in *. unfold bump_at. rewrite Ev. cbn [mbind outcome_bind deref].
  eexists. split; [done|]. destruct K2 as [Kc Kz Kd Kr].
  constructor; cbn [with_stats pfn_count pfn_table dirty] in *.
  - constructor; [exists L; by destruct C| |done].
    constructor; simpl; [done|done|done|]. intros z Hz. rewrite lookup_insert_is_Some'. right. by apply St.
  - done.
  - done.
  - rewrite Kd. cbn [s0 with_dirty dirty]. set_solver.
  - intros p. apply ff_insert. eapply unused_none; [exact O| |exact U]. lia.
Qed.

Lemma register_loop_spec end_ : ∀ fuel start s B,
  pmm_ok s B → 0 ≤ start → end_ ≤ pfn_count s → Z.max 0 (end_ - start) < Z.of_nat fuel →
  (∀ p, start ≤ p < end_ → ¬ ff B p) →
  ∃ s' B', register_loop fuel start end_ s = Ok s' ∧ fed s B s' B' (λ p, start ≤ p < end_).
Proof.
  induction fuel as [|fuel IH]; intros start s B O Hs He Hf U; [lia|].
  cbn [register_loop]. destruct (Z.ltb_spec start end_) as [Hlt|Hge].
  2:{ exists s, B. split; [done|]. apply fed_nothing; [done|lia]. }
  pose proof (ok_count _ _ O) as Hc.
  destruct (range_order_spec start end_ Hs ltac:(lia) 12 0) as (o & -> & Ob & _).
  1-4: change (2 ^ 0) with 1; unfold PMM_MAX_ORDER; (lia || apply Z.divide_1_l).
  cbn [mbind outcome_bind]. pose proof Ob as [Ho _ Ha Hend]. pose proof (pow_pos o ltac:(lia)) as Hp.
  destruct (register_block_spec s B start o O) as (s1 & -> & F1).
  { constructor; (done || lia). }
  { intros p Hp'. apply U. lia. }
  cbn [mbind outcome_bind]. rewrite add64_small by lia. pose proof F1 as [O1 C1 _ _ Ff1].
  destruct (IH (start + 2 ^ o) s1 _ O1) as (s2 & B2 & -> & F2).
  { lia. }
  { lia. }
  { lia. }
  { intros p Hp' [Hff|Hff]%Ff1; [apply (U p); [lia|done]|unfold in_block in Hff; lia]. }
  exists s2, B2. split; [done|]. eapply fed_trans; [exact F1|exact F2|].
  intros p. unfold in_block. simpl. lia.
Qed.

(** Frame [p] lies inside the byte range. *)
Definition frame_in (lo hi p : Z) : Prop := lo ≤ p * 4096 ∧ (p + 1) * 4096 ≤ hi.

Lemma register_range_spec s B lo hi :
  pmm_ok s B → 0 ≤ lo → lo + 4095 < 2 ^ 64 → hi ≤ pfn_count s * 4096 + 4095 →
  (∀ p, frame_in lo hi p → ¬ ff B p) →
  ∃ s' B', pmm_register_range lo hi s = Ok s' ∧ fed s B s' B' (frame_in lo hi).
Proof.
  intros O Hlo Hw Hhi U. unfold pmm_register_range, pa_to_pfn, PAGE_SIZE.
  rewrite add64_small by lia. rewrite !ldiff_page_mask, !Z.shiftr_div_pow2 by lia.
  change (2 ^ 12) with 4096. set (a := (lo + (4096 - 1) - _) / 4096). set (b := (hi - _) / 4096).
  assert (∀ p, frame_in lo hi p ↔ a ≤ p < b) as Hab.
  { intros p. subst a b. unfold frame_in. pose proof (Z.div_mod (lo + (4096 - 1)) 4096 ltac:(lia)).
    pose proof (Z.mod_pos_bound (lo + (4096 - 1)) 4096 ltac:(lia)).
    pose proof (Z.div_mod hi 4096 ltac:(lia)). pose proof (Z.mod_pos_bound hi 4096 ltac:(lia)).
    replace (lo + (4096 - 1) - (lo + (4096 - 1)) mod 4096) with ((lo + (4096 - 1)) / 4096 * 4096) by lia.
    replace (hi - hi mod 4096) with (hi / 4096 * 4096) by lia. rewrite !Z.div_mul by lia. lia. }
  assert (0 ≤ a) as Ha.
  { subst a. apply Z.div_pos; [|lia]. pose proof (Z.mod_le (lo + (4096 - 1)) 4096). lia. }
  assert (b ≤ pfn_count s) as Hb.
  { subst b. apply Z.lt_succ_r, Z.div_lt_upper_bound; [lia|].
    pose proof (Z.mod_pos_bound hi 4096 ltac:(lia)). lia. }
  destruct (register_loop_spec b (S (Z.to_nat (b - a))) a s B O Ha Hb) as (s' & B' & -> & F).
  { lia. }
  { intros p Hp. apply U. by apply Hab. }
  exists s', B'. split; [done|]. destruct F as [F1 F2 F3 F4 F5]. constructor; try done.
  intros p. by rewrite F5, Hab.
Qed.

(** ** The memory map *)

Definition entry_end (e : memmap_entry) : Z := m_base e + m_length e.

(** What the boot protocol promises of usable entries: they lie above frame 0,
    do not wrap and do not overlap. *)
Definition entry_ok (e : memmap_entry) : Prop :=
  m_usable e = true → 0 < m_base e ∧ 0 ≤ m_length e ∧ entry_end e < 2 ^ 64 - 4096.

Definition apart (e e' : memmap_entry) : Prop :=
  m_usable e = true → m_usable e' = true → entry_end e ≤ m_base e' ∨ entry_end e' ≤ m_base e.

Definition map_ok (mm : list memmap_entry) : Prop := Forall entry_ok mm ∧ ForallOrdPairs apart mm.

Definition usable_frame (mm : list memmap_entry) (p : Z) : Prop :=
  ∃ e, e ∈ mm ∧ m_usable e = true ∧ frame_in (m_base e) (entry_end e) p.

Lemma usable_cons e mm p :
  usable_frame (e :: mm) p ↔
  m_usable e = true ∧ frame_in (m_base e) (entry_end e) p ∨ usable_frame mm p.
Proof.
  split.
  - intros (e' & [->|Hin]%elem_of_cons & H); [by left|]. right. by exists e'.
  - intros [H|(e' & Hin & H)]; [exists e|exists e']; (split; [by constructor|done]).
Qed.

Lemma apart_frames e mm p :
  Forall (apart e) mm → m_usable e = true → frame_in (m_base e) (entry_end e) p →
  ¬ usable_frame mm p.
Proof.
  intros HA Hu [H1 H2] (e' & Hin & Hu' & H3 & H4). rewrite Forall_forall in HA.
  destruct (HA e' Hin Hu Hu'); lia.
Qed.

Lemma feed_spec : ∀ mm s B,
  pmm_ok s B → map_ok mm → (∀ e, e ∈ mm → m_usable e = true → entry_end e ≤ pfn_count s * 4096 + 4095) →
  (∀ p, usable_frame mm p → ¬ ff B p) →
  ∃ s' B', feed mm s = Ok s' ∧ fed s B s' B' (usable_frame mm).
Proof.
  induction mm as [|e mm IH]; intros s B O [HE HA] Hhi U.
  { exists s, B. split; [done|]. apply fed_nothing; [done|]. intros p (e & Hin & _). by apply not_elem_of_nil in Hin. }
  apply Forall_cons in HE as [He HE]. inversion HA as [|? ? HA1 HA2]; subst. cbn [feed].
  assert (∃ s1 B1, (if m_usable e then pmm_register_range (m_base e) (add64 (m_base e) (m_length e)) s else Ok s)
    = Ok s1 ∧ fed s B s1 B1 (λ p, m_usable e = true ∧ frame_in (m_base e) (entry_end e) p))
    as (s1 & B1 & -> & F1).
  { destruct (m_usable e) eqn:Hu.
    - destruct (He Hu) as (H1 & H2 & H3). unfold entry_end in H3. rewrite add64_small by lia.
      destruct (register_range_spec s B (m_base e) (m_base e + m_length e) O) as (s1 & B1 & -> & F); [lia|lia| | |].
      { apply (Hhi e); [by constructor|done]. }
      { intros p Hp. apply U. apply usable_cons. by left. }
      exists s1, B1. split; [done|]. destruct F as [F1 F2 F3 F4 F5]. constructor; try done.
      intros p. rewrite F5. unfold entry_end. naive_solver.
    - exists s, B. split; [done|]. apply fed_nothing; [done|]. by intros p [? _]. }
  cbn [mbind outcome_bind]. pose proof F1 as [O1 C1 _ _ Ff1].
  destruct (IH s1 B1 O1) as (s2 & B2 & -> & F2).
  - done.
  - intros e' Hin. rewrite C1. apply Hhi. by constructor.
  - intros p Hp [Hff|[Hu Hff]]%Ff1; [|by eapply apart_frames].
    apply (U p); [|done]. apply usable_cons. by right.
  - exists s2, B2. split; [done|]. eapply fed_trans; [exact F1|exact F2|]. intros p. apply usable_cons.
Qed.

(** ** Placing the table *)

(** [e'] is what is left of [e]. *)
Definition shrinks (e e' : memmap_entry) : Prop :=
  m_usable e = true ∧ m_base e ≤ m_base e' ∧ entry_end e' = entry_end e ∧ 0 ≤ m_length e'.

Record carved (meta : Z) (mm mm' : list memmap_entry) (t : Z) : Prop := Carved {
  cv_map : map_ok mm';
  cv_from : ∀ e', e' ∈ mm' → m_usable e' = true → ∃ e, e ∈ mm ∧ shrinks e e';
  cv_host : ∃ e, e ∈ mm ∧ m_usable e = true ∧ m_base e = t ∧ t + meta ≤ entry_end e;
  cv_frames : ∀ p, usable_frame mm' p ↔ usable_frame mm p ∧ ¬ (t ≤ p * 4096 < t + meta)
}.

Lemma shrinks_refl e : entry_ok e → m_usable e = true → shrinks e e.
Proof. intros H Hu. destruct (H Hu) as (? & ? & ?). unfold shrinks. repeat split; (done || lia). Qed.

Lemma apart_shrinks e mm mm' :
  Forall (apart e) mm → (∀ e', e' ∈ mm' → m_usable e' = true → ∃ e, e ∈ mm ∧ shrinks e e') →
  Forall (apart e) mm'.
Proof.
  rewrite !Forall_forall. intros HA HS e' Hin Hu Hu'.
  destruct (HS e' Hin Hu') as (e0 & Hin0 & Hu0 & Hb & Hend & _).
  destruct (HA e0 Hin0 Hu Hu0); [left; lia|right; lia].
Qed.

Lemma carve_spec meta : 0 ≤ meta → ∀ mm t mm',
  map_ok mm → carve meta mm = (t, mm') → t ≠ 0 → carved meta mm mm' t.
Proof.
  intros Hm. induction mm as [|e mm IH]; intros t mm' [HE HA] Ec Ht; cbn [carve] in Ec; [by simplify_eq|].
  apply Forall_cons in HE as [He HE]. inversion HA as [|? ? HA1 HA2]; subst.
  destruct (m_usable e && (m_length e >=? meta)) eqn:Hc.
  - apply andb_true_iff in Hc as [Hu Hl]. destruct (He Hu) as (Hb & Hl0 & Hend).
    unfold entry_end in Hend. rewrite add64_small in Ec by lia. injection Ec as <- <-.
    set (e1 := MemEntry _ _ _).
    assert (shrinks e e1) as Hs by (unfold shrinks, entry_end; subst e1; cbn [m_base m_length]; repeat split; (done || lia)).
    constructor.
    + split; constructor; try done.
      * intros _. subst e1. unfold entry_end; cbn [m_base m_length]. lia.
      * rewrite Forall_forall in HA1 |- *. intros e2 Hin _ Hu2. destruct Hs as (_ & Hbs & -> & _).
        destruct (HA1 e2 Hin Hu Hu2); [by left|right; lia].
    + intros e' [->|Hin]%elem_of_cons Hu'; [exists e; split; [by constructor|done]|].
      exists e'. split; [by constructor|]. apply shrinks_refl; [|done]. by rewrite Forall_forall in HE; apply HE.
    + exists e. split_and!; [by constructor|done|done|unfold entry_end; lia].
    + intros p. rewrite !usable_cons. unfold frame_in. destruct Hs as (_ & _ & -> & _).
      change (m_usable e1) with true. change (m_base e1) with (m_base e + meta). split.
      * intros [(_ & H1 & H2)|H]; [split; [left; split_and!; (done || lia)|lia]|].
        split; [by right|]. intros Hp. destruct H as (e2 & Hin & Hu2 & H2 & H3).
        rewrite Forall_forall in HA1. destruct (HA1 e2 Hin Hu Hu2); unfold entry_end in *; lia.
      * intros [[(_ & H1 & H2)|H] Hn]; [left; split_and!; (done || lia)|by right].
  - destruct (carve meta mm) as [b mm1] eqn:Ec1. injection Ec as -> <-.
    destruct (IH t mm1 (conj HE HA2) eq_refl Ht) as [[HE1 HO1] Hf (e0 & Hin0 & Hu0 & Hb0 & Hm0) Hp].
    constructor.
    + split; constructor; try done. by eapply apart_shrinks.
    + intros e' [->|Hin]%elem_of_cons Hu'; [exists e; split; [by constructor|by apply shrinks_refl]|].
      destruct (Hf e' Hin Hu') as (e2 & Hin2 & Hs). exists e2. split; [by constructor|done].
    + exists e0. split_and!; try done. by constructor.
    + intros p. rewrite !usable_cons, Hp. split; [|tauto]. intros [[Hu [H1 H2]]|]; [|tauto].
      split; [by left|]. rewrite Forall_forall in HA1. destruct (HA1 e0 Hin0 Hu Hu0); lia.
Qed.

Lemma highest_end_spec mm :
  Forall entry_ok mm →
  0 ≤ highest_end mm < 2 ^ 64 - 4096 ∧ ∀ e, e ∈ mm → m_usable e = true → entry_end e ≤ highest_end mm.
Proof.
  intros HE. unfold highest_end. set (f := λ (h : Z) (e : memmap_entry), _).
  assert (∀ h, 0 ≤ h < 2 ^ 64 - 4096 → h ≤ foldl f h mm < 2 ^ 64 - 4096 ∧
    ∀ e, e ∈ mm → m_usable e = true → entry_end e ≤ foldl f h mm) as H.
  2:{ destruct (H 0 ltac:(lia)) as [? ?]. split; [lia|done]. }
  induction HE as [|e mm He HE IH]; intros h Hh; simpl; [split; [lia|by intros e ?%not_elem_of_nil]|].
  assert (0 ≤ f h e < 2 ^ 64 - 4096 ∧ h ≤ f h e ∧ (m_usable e = true → entry_end e ≤ f h e)) as (H1 & H2 & H3).
  { unfold f. destruct (m_usable e) eqn:Hu; [|split_and!; (done || lia)].
    destruct (He Hu) as (? & ? & Hend). unfold entry_end in *. rewrite add64_small by lia.
    destruct (m_base e + m_length e >? h) eqn:E; split_and!; (lia || intros _; lia). }
  destruct (IH (f h e) H1) as [H4 H5]. split; [lia|].
  intros e' [->|Hin]%elem_of_cons Hu; [specialize (H3 Hu); lia|by apply H5].
Qed.

(** ** The empty allocator *)

Lemma const_map_lookup {K V} `{Countable K} (v w : V) (ks : list K) k :
  (list_to_map ((λ k, (k, v)) <$> ks) : gmap K V) !! k = Some w ↔ k ∈ ks ∧ w = v.
Proof.
  induction ks as [|k' ks IH]; simpl.
  { rewrite lookup_empty. split; [done|]. by intros [?%not_elem_of_nil _]. }
  rewrite elem_of_cons. destruct (decide (k = k')) as [->|].
  - rewrite lookup_insert_eq. split; [intros [= ->]; auto|by intros [_ ->]].
  - rewrite lookup_insert_ne by done. rewrite IH. naive_solver.
Qed.

Definition heads0 : gmap (Z * Z) Z :=
  list_to_map ((λ zo, (zo, NO_LINK)) <$>
    ((λ o, (PMM_ZONE_DMA, o)) <$> orders) ++ ((λ o, (PMM_ZONE_NORMAL, o)) <$> orders)).

Definition table0 (n : Z) : gmap Z pmm_pfn :=
  list_to_map ((λ i, (i, Pfn 0 0 0 NO_LINK NO_LINK)) <$> seqZ 0 n).

Lemma no_free p : ¬ ff ∅ p.
Proof. intros (x & o & H & _). by rewrite lookup_empty in H. Qed.

Lemma empty_ok n d : n ≤ 2 ^ 52 → pmm_ok (Pmm (table0 n) n heads0 empty_stats 0 d) ∅.
Proof.
  intros Hn. constructor.
  - exists ((λ _, @nil Z) <$> heads0).
    assert (∀ z o l, (((λ _, @nil Z) <$> heads0) : lists) !! (z, o) = Some l → l = []) as Hl.
    { intros z o l. rewrite lookup_fmap. by destruct (heads0 !! (z, o)) as [h|]; [intros [= <-]|]. }
    constructor; cbn [heads pfn_table pfn_count]; try by intros *.
    + intros z o. rewrite lookup_fmap, fmap_is_Some. unfold is_Some.
      transitivity ((z, o) ∈ ((λ o, (PMM_ZONE_DMA, o)) <$> orders) ++ ((λ o, (PMM_ZONE_NORMAL, o)) <$> orders)).
      { split; [by intros [w [? _]%const_map_lookup]|]. intros Hin. exists NO_LINK. by apply const_map_lookup. }
      rewrite elem_of_app, !list_elem_of_fmap. unfold orders, PMM_ZONE_DMA, PMM_ZONE_NORMAL. split.
      * intros [(o' & [= -> ->] & Ho%elem_of_seqZ)|(o' & [= -> ->] & Ho%elem_of_seqZ)];
          (split; [auto|lia]).
      * intros [[->| ->] Ho]; [left|right]; exists o; (split; [done|apply elem_of_seqZ; lia]).
    + intros z o l El%Hl. subst l. split; [constructor|done].
    + intros z o l x El%Hl. subst l. rewrite elem_of_nil, lookup_empty. split; [done|by intros [? _]].
    + intros x e [_ ->]%const_map_lookup. rewrite lookup_empty. split; [done|by intros [? ?]].
    + intros x. split.
      * intros [e [Hx%elem_of_seqZ _]%const_map_lookup]. lia.
      * intros Hx. eexists. apply const_map_lookup. split; [apply elem_of_seqZ; lia|done].
  - constructor; cbn [stats empty_stats free_pages free_by_order zone_free zone_total].
    + done.
    + intros k Hk. change (u64 _) with 0. apply const_map_lookup. unfold orders. rewrite elem_of_seqZ. split; [lia|done].
    + intros z [->| ->]; done.
    + intros z [->| ->]; by eexists.
  - intros p Hp. by apply no_free in Hp.
Qed.

(** The bytes of the page-frame table, in whole pages. *)
Definition table_bytes (mm : list memmap_entry) : Z :=
  u64 (add64 (u64 (highest_end mm / PAGE_SIZE * pfn_size)) (PAGE_SIZE - 1) / PAGE_SIZE * PAGE_SIZE).

Lemma total_ok s B st :
  pmm_ok s B → stats s = st →
  pmm_ok (with_stats (Stats (free_pages st) (free_pages st) (free_by_order st) (zone_total st) (zone_free st)) s) B.
Proof.
  intros [[L C] [Sf So Sz St] Z] <-. constructor; [exists L; by destruct C| |done].
  constructor; done.
Qed.

Lemma init_spec mm d0 t mm' p0 :
  map_ok mm → carve (table_bytes mm) mm = (t, mm') → t ≠ 0 → usable_frame mm' p0 →
  ∃ s B zp, pmm_init mm d0 = Ok s ∧ pmm_ok s B ∧ pfn_count s = highest_end mm / 4096 ∧
    zero_page s = zp * 4096 ∧ 0 < zp ∧ zp ∉ dirty s ∧ usable_frame mm' zp ∧
    (∀ y r, p_ref <$> pfn_table s !! y = Some r → r = 0) ∧
    ∀ p, ff B p ↔ usable_frame mm p ∧ ¬ (t ≤ p * 4096 < t + table_bytes mm) ∧ p ≠ zp.
Proof.
  intros HM Ec Ht Hp0. pose proof HM as [HE _].
  destruct (highest_end_spec mm HE) as [Hhi Hends].
  assert (0 ≤ table_bytes mm) as Hm by (unfold table_bytes; apply u64_range).
  destruct (carve_spec _ Hm mm t mm' HM Ec Ht) as [HM' Hfrom (e & Hin & Hu & Hb & _) Hfr].
  assert (∀ p, usable_frame mm' p → 0 < p) as Hpos.
  { intros p (e' & Hin' & Hu' & H1 & _). destruct HM' as [HE' _]. rewrite Forall_forall in HE'.
    destruct (HE' e' Hin' Hu'). lia. }
  unfold pmm_init. pose proof (Hends e Hin Hu). rewrite Forall_forall in HE. destruct (HE e Hin Hu) as (? & ? & ?).
  unfold entry_end in *. rewrite (proj2 (Z.eqb_neq (highest_end mm) 0)) by lia. cbn [panic_if mbind outcome_bind].
  change (u64 (_ / PAGE_SIZE * PAGE_SIZE)) with (table_bytes mm). rewrite Ec.
  rewrite (proj2 (Z.eqb_neq t 0)) by done. cbn [panic_if mbind outcome_bind].
  fold heads0 (table0 (highest_end mm / PAGE_SIZE)). unfold PAGE_SIZE.
  set (n := highest_end mm / 4096). set (s0 := Pmm _ _ _ _ _ _).
  assert (n ≤ 2 ^ 52) as Hn by (subst n; apply Z.lt_le_incl, Z.div_lt_upper_bound; lia).
  destruct (feed_spec mm' s0 ∅ (empty_ok n d0 Hn) HM') as (s1 & B1 & -> & F1).
  { intros e' Hin' Hu'. destruct (Hfrom e' Hin' Hu') as (e2 & Hin2 & Hu2 & _ & -> & _).
    specialize (Hends e2 Hin2 Hu2). cbn [s0 pfn_count]. subst n.
    pose proof (Z.div_mod (highest_end mm) 4096 ltac:(lia)).
    pose proof (Z.mod_pos_bound (highest_end mm) 4096 ltac:(lia)). unfold entry_end in *. lia. }
  { intros p _. apply no_free. }
  cbn [mbind outcome_bind]. destruct F1 as [O1 C1 R1 D1 Ff1].
  pose proof (total_ok s1 B1 _ O1 eq_refl) as O2. set (s2 := with_stats _ s1) in *.
  assert (∀ p, ff B1 p ↔ usable_frame mm' p) as Ff2 by (intros p; rewrite Ff1; pose proof (no_free p); tauto).
  unfold pmm_alloc_zeroed_pages.
  destruct (alloc_spec s2 B1 0 O2 ltac:(unfold PMM_MAX_ORDER; lia)) as [[_ N]|(x & s3 & B3 & -> & T)].
  { exfalso. apply Ff2 in Hp0 as (x & o & Bx & _). pose proof (N _ _ Bx).
    pose proof (ok_blocks _ _ O2 _ _ Bx) as [? _ _ _]. lia. }
  destruct T as [O3 [K1 K2 K3 K4] Ob Hfree Hrest]. change (2 ^ 0) with 1 in *.
  pose proof (proj1 (Ff2 x) (Hfree x ltac:(lia))) as Hx. pose proof (Hpos x Hx) as Hx0.
  cbn [mbind outcome_bind]. rewrite (proj2 (Z.eqb_neq (x * 4096) 0)) by lia. cbn [panic_if mbind outcome_bind].
  exists (with_zero (x * 4096) s3), B3, x. split_and!; try done.
  - destruct O3 as [[L C] S3 Z3]. constructor; [exists L; by destruct C|done|done].
  - cbn [with_zero pfn_count]. by rewrite K1.
  - cbn [with_zero dirty]. rewrite K3. destruct O2 as [_ _ Z2]. apply Z2. apply Hfree. lia.
  - intros y r. cbn [with_zero pfn_table]. rewrite K4. cbn [s2 with_stats pfn_table]. rewrite R1.
    cbn [s0 pfn_table]. unfold table0. destruct (_ !! y) as [w|] eqn:Ew; [|done].
    apply const_map_lookup in Ew as [_ ->]. by intros [= <-].
  - intros p. rewrite Hrest, Ff2, Hfr. split; [intros [[? ?] ?]|intros (? & ? & ?)]; split_and!; (done || lia).
Qed.
