(* ===== verification/PmmSystem.v ===== *)
(** * What pmm.c promises: the theorems about its entry points

    The clients of the allocator are modelled by a step relation: they
    allocate, write to the frames they hold and free the blocks they hold.
    No reachable state lets two clients share a frame. *)

From S2P Require Import Prelude Pmm PmmList PmmSpec PmmAlloc PmmInit.

(** ** The clients *)

(** The allocator and the blocks its clients hold, by first frame. *)
Record world := World { w_pmm : pmm; w_held : gmap Z Z }.

Inductive client_step : world → world → Prop :=
| step_alloc s H order pa s' :
    pmm_alloc_pages order s = Ok (pa, s') → pa ≠ 0 →
    client_step (World s H) (World s' (<[pa / 4096 := order]> H))
| step_alloc_none s H order s' :
    pmm_alloc_pages order s = Ok (0, s') → client_step (World s H) (World s' H)
| step_alloc_dma s H order pa s' :
    0 ≤ order → pmm_alloc_dma order s = Ok (pa, s') → pa ≠ 0 →
    client_step (World s H) (World s' (<[pa / 4096 := order]> H))
| step_write s H x order p :
    H !! x = Some order → in_block x order p →
    client_step (World s H) (World (with_dirty ({[p]} ∪ dirty s) s) H)
| step_free s H x order s' :
    H !! x = Some order → pmm_free_pages (x * 4096) order s = Ok s' →
    client_step (World s H) (World s' (delete x H)).

Record world_ok (w : world) (B : gmap Z Z) : Prop := WorldOk {
  wo_pmm : pmm_ok (w_pmm w) B;
  wo_zero : ¬ ff B 0;
  wo_block : ∀ x o, w_held w !! x = Some o → 0 < x ∧ block_ok (pfn_count (w_pmm w)) x o ∧ unused B x o;
  wo_disj : ∀ x o y o', w_held w !! x = Some o → w_held w !! y = Some o' → x ≠ y → disjoint_blocks x o y o'
}.

Lemma dirty_used s B p : pmm_ok s B → ¬ ff B p → pmm_ok (with_dirty ({[p]} ∪ dirty s) s) B.
Proof.
  intros [[L C] S Z] Hp. constructor; [exists L; by destruct C|done|].
  intros q Hq. cbn [with_dirty dirty]. rewrite elem_of_union, elem_of_singleton.
  intros [->|?]; [done|]. by apply (Z q).
Qed.

Lemma alloc_dma_spec s B order :
  pmm_ok s B → 0 ≤ order →
  pmm_alloc_dma order s = Ok (0, s) ∧ (order < PMM_MAX_ORDER → exhausted B order 0) ∨
  ∃ x s' B', pmm_alloc_dma order s = Ok (x * 4096, s') ∧ taken s B x order s' B' ∧ zonep x = 0.
Proof.
  intros O Ho. unfold pmm_alloc_dma. destruct (Z.ltb_spec order PMM_MAX_ORDER) as [H|H].
  - destruct (zone_alloc_spec s B 0 order O (or_introl eq_refl) ltac:(done))
      as (o & E & [[Eo X]|(H0 & x & s' & B' & Et & T & Hz)]);
      unfold PMM_ZONE_DMA; rewrite E; cbn [mbind outcome_bind].
    + left. rewrite Eo. split; [done|auto].
    + right. replace (o >=? PMM_MAX_ORDER) with false by lia. eauto 6.
  - left. cbn [find_order]. rewrite (proj2 (Z.ltb_ge _ _)) by done. cbn [mbind outcome_bind].
    replace (order >=? PMM_MAX_ORDER) with true by lia. split; [done|lia].
Qed.

(** A block of the DMA zone lies below 16 MiB. *)
Lemma dma_below s B x order : pmm_ok s B → block_ok (pfn_count s) x order → zonep x = 0 →
  (x + 2 ^ order) * 4096 ≤ 16 * 1024 * 1024.
Proof.
  intros O [Ho Hx Ha He] Hz. pose proof (ok_count _ _ O). pose proof (pow_pos order ltac:(lia)).
  pose proof (zonep_block x order ltac:(unfold PMM_MAX_ORDER in *; lia) Ha Hx ltac:(lia) (x + 2 ^ order - 1) ltac:(lia)) as Hl.
  rewrite Hz, zonep_cases in Hl by lia. destruct (Z.ltb_spec (x + 2 ^ order - 1) 4096); [lia|done].
Qed.

(** A block taken from the free frames misses every block in use. *)
Lemma taken_disjoint s B x order s' B' n y o :
  taken s B x order s' B' → block_ok n y o → unused B y o → disjoint_blocks x order y o.
Proof.
  intros [_ _ [? _ _ _] Hin _] [? _ _ _] Uy.
  pose proof (pow_pos order ltac:(lia)). pose proof (pow_pos o ltac:(lia)).
  unfold disjoint_blocks. destruct (decide (x + 2 ^ order ≤ y)); [by left|].
  destruct (decide (y + 2 ^ o ≤ x)); [by right|]. exfalso.
  apply (Uy (Z.max x y)); [lia|]. apply Hin. lia.
Qed.

(** An allocated block joins the held ones. *)
Lemma world_take s B H x order s' B' :
  world_ok (World s H) B → taken s B x order s' B' → x ≠ 0 →
  world_ok (World s' (<[x * 4096 / 4096 := order]> H)) B'.
Proof.
  intros [O Hz Hb Hd] T Hx. pose proof T as [O' K Ob Hin Hre]. cbn [w_pmm w_held] in *. rewrite Z.div_mul by lia.
  assert (∀ y o, H !! y = Some o → disjoint_blocks x order y o) as Hdx.
  { intros y o Hy. destruct (Hb y o Hy) as (_ & Oy & Uy). eapply taken_disjoint; done. }
  constructor; cbn [w_pmm w_held].
  - done.
  - rewrite Hre. by intros [? _].
  - intros y o. rewrite lookup_insert_Some, (k_count _ _ K). intros [[<- <-]|[_ Hy]].
    + pose proof Ob as [_ ? _ _]. split; [lia|]. split; [done|]. intros p Hp. rewrite Hre. by intros [_ ?].
    + destruct (Hb y o Hy) as (? & ? & U). split_and!; [done|done|]. intros p Hp. rewrite Hre.
      intros [Hf _]. by apply (U p).
  - intros y o w o'. rewrite !lookup_insert_Some.
    intros [[<- <-]|[_ Hy]] [[<- <-]|[_ Hw]] Hne; [done|by apply Hdx| |by eapply Hd].
    destruct (Hdx y o Hy); [by right|by left].
Qed.

Lemma world_free s B H x order s' B' :
  world_ok (World s H) B → H !! x = Some order → freed s B x order s' B' →
  world_ok (World s' (delete x H)) B'.
Proof.
  intros [O Hz Hb Hd] Hx [O' Fc _ _ _ Ff]. cbn [w_pmm w_held] in *.
  destruct (Hb x order Hx) as (Hx0 & Ob & U). constructor; cbn [w_pmm w_held].
  - done.
  - rewrite Ff. unfold in_block. intros [?|?]; [done|lia].
  - intros y o. rewrite lookup_delete_Some, Fc. intros [Hne Hy]. destruct (Hb y o Hy) as (? & ? & Uy).
    split_and!; [done|done|]. intros p Hp. rewrite Ff. intros [?|Hp2]; [by apply (Uy p)|].
    unfold in_block in Hp2. destruct (Hd x order y o Hx Hy Hne); lia.
  - intros y o w o'. rewrite !lookup_delete_Some. intros [_ Hy] [_ Hw]. by eapply Hd.
Qed.

Lemma client_step_ok w w' B : world_ok w B → client_step w w' → ∃ B', world_ok w' B'.
Proof.
  intros W St. destruct St as [s H order pa s' E Hpa|s H order s' E|s H order pa s' Ho E Hpa|s H x order p Hx Hp|s H x order s' Hx E];
    pose proof (wo_pmm _ _ W) as O; cbn [w_pmm] in O.
  - destruct (decide (0 ≤ order < PMM_MAX_ORDER)) as [Ho|Ho].
    + destruct (alloc_spec s B order O Ho) as [[E' _]|(x & s1 & B1 & E' & T)]; rewrite E in E'; simplify_eq.
      exists B1. eapply world_take; [done|done|lia].
    + unfold pmm_alloc_pages, pmm_alloc_pages_locked in E.
      replace ((order <? 0) || (order >=? PMM_MAX_ORDER)) with true in E by lia. by simplify_eq.
  - destruct (decide (0 ≤ order < PMM_MAX_ORDER)) as [Ho|Ho].
    + destruct (alloc_spec s B order O Ho) as [[E' _]|(x & s1 & B1 & E' & T)]; rewrite E in E'; simplify_eq.
      * by exists B.
      * exfalso. destruct T as [_ _ [_ _ _ _] Hin _]. apply (wo_zero _ _ W). replace 0 with x by lia. apply Hin.
        pose proof (pow_pos order ltac:(lia)). lia.
    + unfold pmm_alloc_pages, pmm_alloc_pages_locked in E.
      replace ((order <? 0) || (order >=? PMM_MAX_ORDER)) with true in E by lia. simplify_eq. by exists B.
  - destruct (alloc_dma_spec s B order O Ho) as [[E' _]|(x & s1 & B1 & E' & T & _)]; rewrite E in E'; simplify_eq.
    exists B1. eapply world_take; [done|done|lia].
  - exists B. destruct W as [O' Hz Hb Hd]. cbn [w_pmm w_held] in *. constructor; try done.
    cbn [w_pmm]. apply dirty_used; [done|]. destruct (Hb _ _ Hx) as (_ & _ & U). by apply U.
  - destruct (wo_block _ _ W x order Hx) as (_ & Ob & U).
    destruct (free_spec s B x order O Ob U) as (s1 & B1 & E' & F). rewrite E in E'. simplify_eq.
    exists B1. by eapply world_free.
Qed.

Lemma reachable_ok w w' B : world_ok w B → rtc client_step w w' → ∃ B', world_ok w' B'.
Proof.
  intros W R. revert B W. induction R as [w|w w1 w' St _ IH]; intros B W; [by exists B|].
  destruct (client_step_ok _ _ _ W St) as [B1 W1]. by apply (IH B1).
Qed.

(** A fresh block shares no frame with a held one and reads as zeros. *)
Definition fresh_block (w : world) (pa order : Z) : Prop :=
  (∀ y o, w_held w !! y = Some o → disjoint_blocks (pa / 4096) order y o) ∧
  (∀ p, in_block (pa / 4096) order p → p ∉ dirty (w_pmm w)).

Lemma taken_fresh w B x order s' B' :
  world_ok w B → taken (w_pmm w) B x order s' B' → fresh_block w (x * 4096) order.
Proof.
  intros [O Hz Hb Hd] T. unfold fresh_block. rewrite Z.div_mul by lia. split.
  - intros y o Hy. destruct (Hb y o Hy) as (_ & Oy & Uy). eapply taken_disjoint; done.
  - intros p Hp. apply (ok_zeroed _ _ O). by apply T.
Qed.

(** ** User pages *)

(** [n] calls in a row. *)
Fixpoint times (n : nat) (f : pmm → outcome pmm) (s : pmm) : outcome pmm :=
  match n with O => Ok s | S n => s' ← f s; times n f s' end.

Lemma times_S n f s s1 : times n f s = Ok s1 → times (S n) f s = f s1.
Proof.
  revert s. induction n as [|n IH]; intros s; cbn [times].
  - intros [= <-]. by destruct (f s).
  - intros (s' & -> & E)%bind_inv. cbn [mbind outcome_bind]. by apply (IH s').
Qed.

Lemma refcount_spec s B x r : pmm_ok s B → user_page s B x r → pmm_user_refcount (x * 4096) s = Ok r.
Proof.
  intros O U. destruct (user_entry s B x r O U) as (e & E & Er & _ & Ep). unfold pmm_user_refcount.
  rewrite Ep, E. pose proof (up_range _ _ _ _ U). replace (x >=? pfn_count s) with false by lia.
  cbn [mbind outcome_bind deref]. by rewrite Er.
Qed.

Lemma get_calls_spec B x : ∀ n s r, pmm_ok s B → user_page s B x r → 0 < r → r + Z.of_nat n ≤ 0xFFFF →
  ∃ s', times n (pmm_get_user_page (x * 4096)) s = Ok s' ∧ pmm_ok s' B ∧
    user_page s' B x (r + Z.of_nat n) ∧ dirty s' = dirty s.
Proof.
  induction n as [|n IH]; intros s r O U Hr Hn; cbn [times].
  - exists s. replace (r + Z.of_nat 0) with r by lia. done.
  - destruct (get_user_spec s B x r O U ltac:(lia)) as (s1 & -> & O1 & U1 & _ & D1 & _).
    cbn [mbind outcome_bind]. destruct (IH s1 (r + 1) O1 U1) as (s' & E & O' & U' & D'); [lia|lia|].
    exists s'. rewrite E. replace (r + Z.of_nat (S n)) with (r + 1 + Z.of_nat n) by lia.
    split_and!; try done. congruence.
Qed.

Lemma put_calls_spec B x : ∀ k s r, pmm_ok s B → user_page s B x r → Z.of_nat k < r →
  ∃ s', times k (pmm_put_user_page (x * 4096)) s = Ok s' ∧ pmm_ok s' B ∧
    user_page s' B x (r - Z.of_nat k) ∧ dirty s' = dirty s.
Proof.
  induction k as [|k IH]; intros s r O U Hk; cbn [times].
  - exists s. replace (r - Z.of_nat 0) with r by lia. done.
  - destruct (put_user_spec s B x r O U ltac:(lia)) as (s1 & B1 & -> & O1 & _ & _ & _ & H1 & _).
    destruct (H1 ltac:(lia)) as (-> & U1 & D1). cbn [mbind outcome_bind].
    destruct (IH s1 (r - 1) O1 U1) as (s' & E & O' & U' & D'); [lia|].
    exists s'. rewrite E. replace (r - Z.of_nat (S k)) with (r - 1 - Z.of_nat k) by lia.
    split_and!; try done. congruence.
Qed.

(** ** A small machine

    One usable entry of 31 pages above the first page: the table takes one
    page, the zero page another. *)
Definition demo_map : list memmap_entry :=
  [MemEntry 0 0x1000 false; MemEntry 0x1000 0x1f000 true; MemEntry 0x20000 0x1000 false].

Lemma demo_map_ok : map_ok demo_map.
Proof.
  split.
  - repeat constructor; unfold entry_ok, entry_end; simpl; intros; (done || lia).
  - repeat constructor; unfold apart; simpl; done.
Qed.

Definition demo_left : list memmap_entry :=
  [MemEntry 0 0x1000 false; MemEntry 0x2000 0x1e000 true; MemEntry 0x20000 0x1000 false].

Lemma demo_carve : carve (table_bytes demo_map) demo_map = (0x1000, demo_left).
Proof. vm_compute. done. Qed.

Lemma demo_frame p : 2 ≤ p < 32 → usable_frame demo_left p.
Proof.
  intros Hp. exists (MemEntry 0x2000 0x1e000 true). split; [unfold demo_left; set_solver|]. split; [done|].
  unfold frame_in, entry_end. simpl. lia.
Qed.

Lemma demo_init d0 : ∃ s B, pmm_init demo_map d0 = Ok s ∧ pmm_ok s B ∧ ¬ ff B 0 ∧
  ¬ ff B (zero_page s / 4096) ∧ ∃ p, ff B p.
Proof.
  destruct (init_spec demo_map d0 0x1000 demo_left 2 demo_map_ok demo_carve) as
    (s & B & zp & E & O & _ & Hz & Hzp & _ & Huz & _ & Hf); [done|apply demo_frame; lia|].
  exists s, B. split; [exact E|]. clear E. split_and!; [exact O| | |].
  - rewrite Hf. intros ((e & Hin & Hu & H1 & H2) & _). unfold demo_map, entry_end in *. set_unfold in Hin.
    clear -Hin Hu H1 H2.
    destruct Hin as [->|[->|[->|[]]]]; cbn [m_base m_length m_usable] in *; (discriminate || lia).
  - rewrite Hz, Z.div_mul by lia. rewrite Hf. by intros (_ & _ & ?).
  - exists (if decide (zp = 3) then 4 else 3). rewrite Hf. change (table_bytes demo_map) with 0x1000.
    split; [|case_decide; split; lia].
    exists (MemEntry 0x1000 0x1f000 true). split; [unfold demo_map; set_solver|]. split; [done|].
    unfold frame_in, entry_end. simpl. case_decide; lia.
Qed.

(** ** The theorems *)

(** From any boot memory map that keeps the boot protocol's promises and has
    room for the page-frame table and one more frame, pmm_init succeeds: the
    allocator's invariant holds, its free frames are the frames of the usable
    entries outside the page-frame table and other than the shared zero page,
    every free frame and the zero page read as zeros, and no frame has
    references. *)
Theorem pmm_init_correct mm d0 t mm' p0 :
  map_ok mm → carve (table_bytes mm) mm = (t, mm') → t ≠ 0 → usable_frame mm' p0 →
  ∃ s B zp, pmm_init mm d0 = Ok s ∧ pmm_ok s B ∧ pfn_count s = highest_end mm / 4096 ∧
    zero_page s = zp * 4096 ∧ 0 < zp ∧ zp ∉ dirty s ∧ (∀ p, ff B p → p ∉ dirty s) ∧
    (∀ y r, p_ref <$> pfn_table s !! y = Some r → r = 0) ∧
    ∀ p, ff B p ↔ usable_frame mm p ∧ ¬ (t ≤ p * 4096 < t + table_bytes mm) ∧ p ≠ zp.
Proof.
  intros HM Ec Ht Hp. destruct (init_spec mm d0 t mm' p0 HM Ec Ht Hp)
    as (s & B & zp & E & O & Hc & Hz & Hzp & Hd & _ & Hr & Hf).
  exists s, B, zp. split_and!; try done. apply O.
Qed.

Lemma pmm_init_correct_witness : ∃ s B zp, pmm_init demo_map (frames 0 32) = Ok s ∧ pmm_ok s B ∧
  zero_page s = zp * 4096 ∧ zp ∉ dirty s.
Proof.
  destruct (pmm_init_correct demo_map (frames 0 32) 0x1000 demo_left 2 demo_map_ok demo_carve) as
    (s & B & zp & E & O & _ & Hz & _ & Hd & _); [done|apply demo_frame; lia|].
  exists s, B, zp. exact (conj E (conj O (conj Hz Hd))).
Defined.

(** C30: pmm_alloc_pages either reports failure, changes nothing and no free
    block of the order or above exists in any zone, or returns an aligned
    block of [2^order] frames that were free and read as zeros; exactly these
    frames leave the free set and the invariant is kept. *)
Theorem pmm_alloc_correct s B order :
  pmm_ok s B → 0 ≤ order < PMM_MAX_ORDER →
  pmm_alloc_pages order s = Ok (0, s) ∧ (∀ x o, B !! x = Some o → o < order) ∨
  ∃ x s' B', pmm_alloc_pages order s = Ok (x * 4096, s') ∧ pmm_ok s' B' ∧
    (2 ^ order | x) ∧ (∀ p, in_block x order p → ff B p ∧ p ∉ dirty s') ∧
    (∀ p, ff B' p ↔ ff B p ∧ ¬ in_block x order p) ∧ dirty s' = dirty s.
Proof.
  intros O Ho. destruct (alloc_spec s B order O Ho) as [H|(x & s' & B' & E & [O' K Ob Hin Hre])]; [by left|].
  right. exists x, s', B'. split_and!; try done; [apply Ob| |apply K].
  intros p Hp. split; [by apply Hin|]. rewrite (k_dirty _ _ K). apply (ok_zeroed _ _ O). by apply Hin.
Qed.

Lemma pmm_alloc_correct_witness : ∃ s B, pmm_init demo_map ∅ = Ok s ∧
  (pmm_alloc_pages 2 s = Ok (0, s) ∧ (∀ x o, B !! x = Some o → o < 2) ∨
   ∃ x s' B', pmm_alloc_pages 2 s = Ok (x * 4096, s') ∧ pmm_ok s' B' ∧
    (2 ^ 2 | x) ∧ (∀ p, in_block x 2 p → ff B p ∧ p ∉ dirty s') ∧
    (∀ p, ff B' p ↔ ff B p ∧ ¬ in_block x 2 p) ∧ dirty s' = dirty s).
Proof.
  destruct (demo_init ∅) as (s & B & E & O & _). exists s, B. split; [exact E|]. clear E.
  apply pmm_alloc_correct; [done|unfold PMM_MAX_ORDER; lia].
Defined.

(** C29: freeing an aligned block of frames none of which is free succeeds, keeps
    the invariant, adds exactly the block's frames to the free set (however
    many buddies were merged), leaves them zeroed and touches no reference
    count. *)
Theorem pmm_free_correct s B x order :
  pmm_ok s B → block_ok (pfn_count s) x order → unused B x order →
  ∃ s' B', pmm_free_pages (x * 4096) order s = Ok s' ∧ pmm_ok s' B' ∧
    (∀ p, ff B' p ↔ ff B p ∨ in_block x order p) ∧
    (∀ p, p ∈ dirty s' ↔ p ∈ dirty s ∧ ¬ in_block x order p) ∧
    ∀ y, p_ref <$> pfn_table s' !! y = p_ref <$> pfn_table s !! y.
Proof.
  intros O Ob U. destruct (free_spec s B x order O Ob U) as (s' & B' & E & [O' _ _ Fd Fr Ff]).
  exists s', B'. split_and!; try done. intros p. rewrite Fd, elem_of_difference, elem_of_frames. done.
Qed.

Lemma pmm_free_correct_witness : ∃ s B s' B' x, pmm_init demo_map ∅ = Ok s ∧ pmm_ok s B ∧
  pmm_alloc_pages 0 s = Ok (x * 4096, s') ∧ pmm_ok s' B' ∧ ff B x ∧ ¬ ff B' x ∧
  ∃ s2 B2, pmm_free_pages (x * 4096) 0 s' = Ok s2 ∧ pmm_ok s2 B2 ∧ ff B2 x.
Proof.
  destruct (demo_init ∅) as (s & B & E & O & _ & _ & p & Hp). exists s, B.
  enough (∃ s' B' x, pmm_ok s B ∧ pmm_alloc_pages 0 s = Ok (x * 4096, s') ∧ pmm_ok s' B' ∧ ff B x ∧ ¬ ff B' x ∧
    ∃ s2 B2, pmm_free_pages (x * 4096) 0 s' = Ok s2 ∧ pmm_ok s2 B2 ∧ ff B2 x)
    as (s' & B' & x & H) by (exists s', B', x; exact (conj E H)). clear E.
  destruct (alloc_spec s B 0 O ltac:(unfold PMM_MAX_ORDER; lia)) as [[_ N]|(x & s' & B' & E' & [O' K Ob Hin Hre])].
  { destruct Hp as (x & o & Bx & _). pose proof (N _ _ Bx). pose proof (ok_blocks _ _ O _ _ Bx) as [? _ _ _]. lia. }
  exists s', B', x. change (2 ^ 0) with 1 in *. split_and!; try done; [apply Hin; lia|rewrite Hre; intros [_ ?]; lia|].
  destruct (pmm_free_correct s' B' x 0) as (s2 & B2 & E2 & O2 & F & _); [done|by rewrite (k_count _ _ K)| |].
  { intros q Hq. rewrite Hre. intros [_ ?]. change (2 ^ 0) with 1 in *. lia. }
  exists s2, B2. split_and!; try done. apply F. right. unfold in_block. change (2 ^ 0) with 1. lia.
Defined.

(** Pmm_free_pages stops the machine exactly when the order is out of range,
    the address is not aligned to the block, the frame is outside the table or
    the frame starts a free block; in every other case its check passes. *)
Theorem pmm_free_rejects s B pa order :
  pmm_ok s B → 0 ≤ pa →
  (free_rejected s B pa order → pmm_free_pages pa order s = Panic) ∧
  (¬ free_rejected s B pa order → pmm_free_validate_locked pa order s = Ok ()).
Proof.
  intros O Hpa. unfold pmm_free_pages.
  destruct (validate_spec s B pa order O Hpa) as [[-> N]|[-> R]]; split; done.
Qed.

Lemma pmm_free_rejects_witness : ∃ s, pmm_init demo_map ∅ = Ok s ∧ pmm_free_pages 0x1800 0 s = Panic.
Proof.
  destruct (demo_init ∅) as (s & B & E & O & _). exists s. split; [exact E|]. clear E.
  apply (pmm_free_rejects s B); [done|lia|]. right. left. done.
Defined.

(** Pmm_alloc_dma either fails when the DMA zone has no block of the order or
    above, or returns an aligned block of free, zeroed frames, all of them
    below 16 MiB. *)
Theorem pmm_alloc_dma_correct s B order :
  pmm_ok s B → 0 ≤ order < PMM_MAX_ORDER →
  pmm_alloc_dma order s = Ok (0, s) ∧ (∀ x o, B !! x = Some o → x * 4096 < 16 * 1024 * 1024 → o < order) ∨
  ∃ x s' B', pmm_alloc_dma order s = Ok (x * 4096, s') ∧ pmm_ok s' B' ∧ (2 ^ order | x) ∧
    (x + 2 ^ order) * 4096 ≤ 16 * 1024 * 1024 ∧
    (∀ p, in_block x order p → ff B p ∧ p ∉ dirty s') ∧
    (∀ p, ff B' p ↔ ff B p ∧ ¬ in_block x order p).
Proof.
  intros O Ho. destruct (alloc_dma_spec s B order O ltac:(lia)) as [[E N]|(x & s' & B' & E & T & Hz)].
  - left. split; [done|]. intros x o Bx Hx. pose proof (ok_blocks _ _ O _ _ Bx) as [? ? _ ?].
    apply (N ltac:(lia) x o Bx). pose proof (ok_count _ _ O). pose proof (pow_pos o ltac:(lia)).
    rewrite zonep_cases by lia. by rewrite (proj2 (Z.ltb_lt x 4096)) by lia.
  - right. destruct T as [O' K Ob Hin Hre]. exists x, s', B'. pose proof Ob as [_ Hx Ha He].
    pose proof (ok_count _ _ O). pose proof (pow_pos order ltac:(lia)).
    split_and!; try done.
    + exact (dma_below _ _ _ _ O Ob Hz).
    + intros p Hp. split; [by apply Hin|]. rewrite (k_dirty _ _ K). apply (ok_zeroed _ _ O). by apply Hin.
Qed.

Lemma pmm_alloc_dma_correct_witness : ∃ s B, pmm_init demo_map ∅ = Ok s ∧
  (pmm_alloc_dma 1 s = Ok (0, s) ∧ (∀ x o, B !! x = Some o → x * 4096 < 16 * 1024 * 1024 → o < 1) ∨
   ∃ x s' B', pmm_alloc_dma 1 s = Ok (x * 4096, s') ∧ pmm_ok s' B' ∧ (2 ^ 1 | x) ∧
    (x + 2 ^ 1) * 4096 ≤ 16 * 1024 * 1024 ∧
    (∀ p, in_block x 1 p → ff B p ∧ p ∉ dirty s') ∧
    (∀ p, ff B' p ↔ ff B p ∧ ¬ in_block x 1 p)).
Proof.
  destruct (demo_init ∅) as (s & B & E & O & _). exists s, B. split; [exact E|]. clear E.
  apply pmm_alloc_dma_correct; [done|unfold PMM_MAX_ORDER; lia].
Defined.



(** A user page taken with pmm_alloc_user_page and shared by [n] calls of
    pmm_get_user_page stays allocated, with the reference count the callers
    expect, through any [n] calls of pmm_put_user_page; call [n + 1] gives it
    back, zeroed, and the free frames are the ones before the allocation. *)
Theorem user_page_lifetime s B n :
  pmm_ok s B → ¬ ff B 0 → ¬ ff B (zero_page s / 4096) → (∃ p, ff B p) → Z.of_nat n < 0xFFFF →
  ∃ x s0 s1, pmm_alloc_user_page s = Ok (x * 4096, s0) ∧ ff B x ∧ x ∉ dirty s0 ∧
    times n (pmm_get_user_page (x * 4096)) s0 = Ok s1 ∧
    (∀ k, (k ≤ n)%nat → ∃ s2 B2, times k (pmm_put_user_page (x * 4096)) s1 = Ok s2 ∧ pmm_ok s2 B2 ∧
       ¬ ff B2 x ∧ pmm_user_refcount (x * 4096) s2 = Ok (Z.of_nat n + 1 - Z.of_nat k)) ∧
    ∃ s3 B3, times (S n) (pmm_put_user_page (x * 4096)) s1 = Ok s3 ∧ pmm_ok s3 B3 ∧
      (∀ p, ff B3 p ↔ ff B p) ∧ x ∉ dirty s3.
Proof.
  intros O H0 Hz [p Hp] Hn. destruct (alloc_user_spec s B O H0 Hz)
    as [[_ N]|(x & s0 & B0 & E0 & O0 & Hx & Fx & F0 & U0 & _ & D0 & _)]; [by destruct (N p)|].
  destruct (get_calls_spec B0 x n s0 1 O0 U0) as (s1 & E1 & O1 & U1 & D1); [lia|lia|].
  exists x, s0, s1. split_and!; try done.
  - rewrite D0. by apply (ok_zeroed _ _ O).
  - intros k Hk. destruct (put_calls_spec B0 x k s1 _ O1 U1) as (s2 & E2 & O2 & U2 & _); [lia|].
    exists s2, B0. split_and!; [done|done|apply U2|]. rewrite (refcount_spec s2 B0 x _ O2 U2). f_equal. lia.
  - destruct (put_calls_spec B0 x n s1 _ O1 U1) as (s2 & E2 & O2 & U2 & _); [lia|].
    rewrite (times_S _ _ _ _ E2).
    destruct (put_user_spec s2 B0 x _ O2 U2) as (s3 & B3 & E3 & O3 & _ & _ & _ & _ & H3); [lia|].
    destruct (H3 ltac:(lia)) as [F3 D3]. exists s3, B3. split_and!; try done.
    + intros q. rewrite F3, F0. destruct (decide (q = x)) as [->|]; tauto.
    + rewrite D3. set_solver.
Qed.

Lemma user_page_lifetime_witness : ∃ s x s0 s1 s3, pmm_init demo_map ∅ = Ok s ∧
  pmm_alloc_user_page s = Ok (x * 4096, s0) ∧
  times 2 (pmm_get_user_page (x * 4096)) s0 = Ok s1 ∧
  times 3 (pmm_put_user_page (x * 4096)) s1 = Ok s3 ∧ x ∉ dirty s3.
Proof.
  destruct (demo_init ∅) as (s & B & E & O & H0 & Hz & Hp).
  destruct (user_page_lifetime s B 2 O H0 Hz Hp) as (x & s0 & s1 & E0 & _ & _ & E1 & _ & s3 & B3 & E3 & _ & _ & D3);
    [clear; lia|].
  exists s, x, s0, s1, s3. exact (conj E (conj E0 (conj E1 (conj E3 D3)))).
Defined.

(** ** A double free that goes unnoticed

    The check of [pmm_free_validate_locked] only sees the flag of the block's
    first frame: once a freed frame has been merged into its buddy's block, a
    second free of it passes.  Frame 5 is then in two free blocks, the one of
    order 2 that starts at frame 4 and one of its own, and 29 pages are counted
    free although only 28 are. *)
Definition double_free : outcome (Z * Z * Z * list (option (bool * Z))) :=
  s ← pmm_init demo_map ∅;
  '(a, s) ← pmm_alloc_pages 0 s;
  '(b, s) ← pmm_alloc_pages 0 s;
  '(c, s) ← pmm_alloc_pages 0 s;
  s ← pmm_free_pages b 0 s;
  s ← pmm_free_pages c 0 s;
  s ← pmm_free_pages c 0 s;
  Ok (b, c, free_pages (stats s), (λ x, (λ e, (is_free e, p_order e)) <$> pfn_table s !! x) <$> [4; 5]).

Example double_free_unnoticed :
  double_free = Ok (4 * 4096, 5 * 4096, 29, [Some (true, 2); Some (true, 0)]).
Proof. vm_compute. done. Qed.
