(* ===== verification/Paging.v ===== *)
(** * kernel/arch/x86_64/paging.c: four-level page tables

    A page-table page is named by its physical address (the C code reaches it
    through the direct map, a constant offset).  [words] holds the 64-bit words
    of those pages, by page and index; a word that was never written is zero.
    TLB invalidations have no effect on the tables and are left out. *)

From S2P Require Import Prelude Rbtree Vma Pmm.

Record mmu := Mmu {
  words : gmap (Z * Z) Z;
  alloc : pmm;
  user_pml4 : Z;
  kernel_pml4 : Z
}.

Definition PAGE_HUGE_SIZE : Z := 2 ^ 21.

(** [t[i]] and [t[i] = v] *)
Definition rd (t i : Z) (m : mmu) : Z := default 0 (words m !! (t, i)).
Definition wr (t i v : Z) (m : mmu) : mmu :=
  Mmu (<[(t, i) := v]> (words m)) (alloc m) (user_pml4 m) (kernel_pml4 m).

Definition with_alloc (s : pmm) (m : mmu) : mmu := Mmu (words m) s (user_pml4 m) (kernel_pml4 m).

(** [memset(phys_to_virt(pa), 0, PAGE_SIZE)] *)
Definition clear_page (pa : Z) (m : mmu) : mmu :=
  Mmu (filter (λ kv, kv.1.1 ≠ pa) (words m)) (alloc m) (user_pml4 m) (kernel_pml4 m).

(** ** Calls into pmm.c

    Freeing a frame zeroes it. *)
Definition alloc_table (m : mmu) : outcome (Z * mmu) :=
  '(pa, s) ← pmm_alloc_pages 0 (alloc m); Ok (pa, with_alloc s m).

Definition free_table (pa : Z) (m : mmu) : outcome mmu :=
  s ← pmm_free_pages pa 0 (alloc m); Ok (clear_page pa (with_alloc s m)).

(** [pmm_put_user_page] frees the frame with its last reference. *)
Definition put_frame (pa : Z) (m : mmu) : outcome mmu :=
  r ← Pmm.pmm_user_refcount pa (alloc m);
  s ← pmm_put_user_page pa (alloc m);
  let m := with_alloc s m in
  Ok (if r =? 1 then clear_page pa m else m).

(** ** Walking *)

(** [None] is NULL. *)
Definition table_for (parent idx : Z) (create : bool) (pflags : Z) (m : mmu)
    : outcome (option Z * mmu) :=
  let e := rd parent idx m in
  if negb (has e PTE_PRESENT) then
    if negb create then Ok (None, m) else
    '(pa, m) ← alloc_table m;
    if pa =? 0 then Ok (None, m) else
    let m := clear_page pa m in
    Ok (Some pa, wr parent idx (Z.lor (Z.lor (Z.lor pa PTE_PRESENT) PTE_WRITE) pflags) m)
  else if has e PTE_HUGE then Ok (None, m)
  else Ok (Some (Z.land e PTE_ADDR_MASK), m).

Definition pml4_idx (v : Z) : Z := Z.land (Z.shiftr v 39) 0x1FF.
Definition pdpt_idx (v : Z) : Z := Z.land (Z.shiftr v 30) 0x1FF.
Definition pd_idx (v : Z) : Z := Z.land (Z.shiftr v 21) 0x1FF.
Definition pt_idx (v : Z) : Z := Z.land (Z.shiftr v 12) 0x1FF.

(** The three [table_for] calls of every operation: the page table of [v]. *)
Definition descend (root v : Z) (create : bool) (pflags : Z) (m : mmu) : outcome (option Z * mmu) :=
  '(pdpt, m) ← table_for root (pml4_idx v) create pflags m;
  match pdpt with
  | None => Ok (None, m)
  | Some pdpt =>
      '(pd, m) ← table_for pdpt (pdpt_idx v) create pflags m;
      match pd with
      | None => Ok (None, m)
      | Some pd => table_for pd (pd_idx v) create pflags m
      end
  end.

(** ** Map, unmap, protect

    [root] is [space->pml4] or, without a space, [kernel_pml4]. *)

Fixpoint map_loop (pages : nat) (root virt phys flags : Z) (m : mmu) : outcome (Z * mmu) :=
  match pages with
  | O => Ok (0, m)
  | S pages =>
      let intermediate_flags := if has flags PTE_USER then PTE_USER else 0 in
      '(pt, m) ← descend root virt true intermediate_flags m;
      match pt with
      | None => Ok (- ENOMEM, m)
      | Some pt =>
          let m := wr pt (pt_idx virt) (Z.lor (Z.lor (Z.land phys PTE_ADDR_MASK) PTE_PRESENT) flags) m in
          map_loop pages root (add64 virt PAGE_SIZE) (add64 phys PAGE_SIZE) flags m
      end
  end.

Definition paging_map (root virt phys pages flags : Z) (m : mmu) : outcome (Z * mmu) :=
  map_loop (Z.to_nat pages) root virt phys flags m.

(** Dropping the PTE [e] at [pt[i]]. *)
Definition drop_pte (pt i : Z) (m : mmu) : outcome mmu :=
  let e := rd pt i m in
  if has e PTE_PRESENT then
    m ← (if has e PTE_USER then
           let pa := Z.land e PTE_ADDR_MASK in
           if negb (pa =? zero_page (alloc m)) then put_frame pa m else Ok m
         else Ok m);
    Ok (wr pt i 0 m)
  else Ok m.

Fixpoint unmap_loop (pages : nat) (root virt : Z) (m : mmu) : outcome mmu :=
  match pages with
  | O => Ok m
  | S pages =>
      '(pt, m) ← descend root virt false 0 m;
      m ← match pt with None => Ok m | Some pt => drop_pte pt (pt_idx virt) m end;
      unmap_loop pages root (add64 virt PAGE_SIZE) m
  end.

(** The C function always returns 0. *)
Definition paging_unmap_in (root virt pages : Z) (m : mmu) : outcome mmu :=
  unmap_loop (Z.to_nat pages) root virt m.

Fixpoint protect_each (pages : nat) (root virt new_flags : Z) (m : mmu) : outcome (Z * mmu) :=
  match pages with
  | O => Ok (0, m)
  | S pages =>
      '(pt, m) ← descend root virt false 0 m;
      match pt with
      | None => Ok (- ENOENT, m)
      | Some pt =>
          let e := rd pt (pt_idx virt) m in
          if negb (has e PTE_PRESENT) then Ok (- ENOENT, m) else
          let m := wr pt (pt_idx virt) (Z.lor (Z.lor (Z.land e PTE_ADDR_MASK) PTE_PRESENT) new_flags) m in
          protect_each pages root (add64 virt PAGE_SIZE) new_flags m
      end
  end.

Definition paging_protect_in (root virt pages new_flags : Z) (m : mmu) : outcome (Z * mmu) :=
  protect_each (Z.to_nat pages) root virt new_flags m.

(** [table_for] without [create]. *)
Definition look (parent idx : Z) (m : mmu) : option Z :=
  let e := rd parent idx m in
  if negb (has e PTE_PRESENT) then None
  else if has e PTE_HUGE then None else Some (Z.land e PTE_ADDR_MASK).

(** The error code and, when it is 0, the entry. *)
Definition paging_get_flags_in (root virt : Z) (m : mmu) : Z * Z :=
  match look root (pml4_idx virt) m with
  | None => (- ENOENT, 0)
  | Some pdpt =>
      let e := rd pdpt (pdpt_idx virt) m in
      if negb (has e PTE_PRESENT) then (- ENOENT, 0) else
      if has e PTE_HUGE then (0, e) else
      match look pdpt (pdpt_idx virt) m with
      | None => (- ENOENT, 0)
      | Some pd =>
          let e := rd pd (pd_idx virt) m in
          if negb (has e PTE_PRESENT) then (- ENOENT, 0) else
          if has e PTE_HUGE then (0, e) else
          match look pd (pd_idx virt) m with
          | None => (- ENOENT, 0)
          | Some pt =>
              let e := rd pt (pt_idx virt) m in
              if negb (has e PTE_PRESENT) then (- ENOENT, 0) else (0, e)
          end
      end
  end.

(** ** Whole tables *)

(** [for (unsigned i = lo; i < lo + n; i++)] *)
Fixpoint for_idx (n : nat) (lo : Z) (body : Z → mmu → outcome mmu) (m : mmu) : outcome mmu :=
  match n with
  | O => Ok m
  | S n => m ← body lo m; for_idx n (lo + 1) body m
  end.

Definition paging_clone_kernel_half (new_pml4 : Z) (m : mmu) : outcome mmu :=
  for_idx 256 256 (λ i m, Ok (wr new_pml4 i (rd (kernel_pml4 m) i m) m)) m.

(** [t[i] |= PTE_NX] *)
Definition set_nx (t i : Z) (m : mmu) : mmu := wr t i (Z.lor (rd t i m) PTE_NX) m.

(** The two boot-time walks differ in their range and in whether only writable
    entries are marked. *)
Definition enforce_nx_below (only_writable : bool) (i4 : Z) (m : mmu) : outcome mmu :=
  let mark t i m := if negb only_writable || has (rd t i m) PTE_WRITE then set_nx t i m else m in
  if negb (has (rd (kernel_pml4 m) i4 m) PTE_PRESENT) then Ok m else
  let pdpt := Z.land (rd (kernel_pml4 m) i4 m) PTE_ADDR_MASK in
  for_idx 512 0 (λ i3 m,
    let e3 := rd pdpt i3 m in
    if negb (has e3 PTE_PRESENT) then Ok m else
    if has e3 PTE_HUGE then Ok (mark pdpt i3 m) else
    let pd := Z.land e3 PTE_ADDR_MASK in
    for_idx 512 0 (λ i2 m,
      let e2 := rd pd i2 m in
      if negb (has e2 PTE_PRESENT) then Ok m else
      if has e2 PTE_HUGE then Ok (mark pd i2 m) else
      let pt := Z.land e2 PTE_ADDR_MASK in
      for_idx 512 0 (λ i1 m,
        if has (rd pt i1 m) PTE_PRESENT then Ok (mark pt i1 m) else Ok m) m) m) m.

Definition enforce_nx_on_kernel_image (m : mmu) : outcome mmu := enforce_nx_below true 511 m.
Definition enforce_nx_on_hhdm (m : mmu) : outcome mmu := for_idx 255 256 (enforce_nx_below false) m.

Definition prepopulate_kernel_pml4 (m : mmu) : outcome mmu :=
  for_idx 256 256 (λ i m,
    if has (rd (kernel_pml4 m) i m) PTE_PRESENT then Ok m else
    '(pa, m) ← alloc_table m;
    _ ← panic_if (pa =? 0);
    let m := clear_page pa m in
    Ok (wr (kernel_pml4 m) i (Z.lor (Z.lor pa PTE_PRESENT) PTE_WRITE) m)) m.

(** [cr3] is the register's value at entry. *)
Definition paging_init (cr3 : Z) (m : mmu) : outcome mmu :=
  let m := Mmu (words m) (alloc m) (user_pml4 m) (Z.land cr3 0x000FFFFFFFFFF000) in
  m ← enforce_nx_on_hhdm m;
  m ← enforce_nx_on_kernel_image m;
  prepopulate_kernel_pml4 m.

Definition put_huge_user_range (base span : Z) (m : mmu) : outcome mmu :=
  for_idx (Z.to_nat (span / PAGE_SIZE)) 0 (λ k m,
    let pa := add64 base (k * PAGE_SIZE) in
    if pa =? zero_page (alloc m) then Ok m else
    r ← Pmm.pmm_user_refcount pa (alloc m);
    if r =? 0 then Ok m else put_frame pa m) m.

Definition paging_destroy_user_half (pml4 : Z) (m : mmu) : outcome mmu :=
  if pml4 =? kernel_pml4 m then Ok m else
  for_idx 256 0 (λ i4 m,
    let e4 := rd pml4 i4 m in
    if negb (has e4 PTE_PRESENT) then Ok m else
    let pdpt := Z.land e4 PTE_ADDR_MASK in
    m ← for_idx 512 0 (λ i3 m,
      let e3 := rd pdpt i3 m in
      if negb (has e3 PTE_PRESENT) then Ok m else
      if has e3 PTE_HUGE then put_huge_user_range (Z.land e3 PTE_ADDR_MASK) (2 ^ 30) m else
      let pd := Z.land e3 PTE_ADDR_MASK in
      m ← for_idx 512 0 (λ i2 m,
        let e2 := rd pd i2 m in
        if negb (has e2 PTE_PRESENT) then Ok m else
        if has e2 PTE_HUGE then put_huge_user_range (Z.land e2 PTE_ADDR_MASK) PAGE_HUGE_SIZE m else
        let pt := Z.land e2 PTE_ADDR_MASK in
        m ← for_idx 512 0 (λ i1 m,
          let e1 := rd pt i1 m in
          if has e1 PTE_PRESENT then
            let pa := Z.land e1 PTE_ADDR_MASK in
            if negb (pa =? zero_page (alloc m)) then put_frame pa m else Ok m
          else Ok m) m;
        free_table pt m) m;
      free_table pd m) m;
    m ← free_table pdpt m;
    Ok (wr pml4 i4 0 m)) m.

(** A missing table on the way to a direct-map page; [None] is [-ENOMEM]. *)
Definition ensure_table (parent i : Z) (m : mmu) : outcome (option Z * mmu) :=
  if has (rd parent i m) PTE_PRESENT then Ok (Some (Z.land (rd parent i m) PTE_ADDR_MASK), m) else
  '(pa, m) ← alloc_table m;
  if pa =? 0 then Ok (None, m) else
  let m := wr parent i (Z.lor (Z.lor pa PTE_PRESENT) PTE_WRITE) (clear_page pa m) in
  Ok (Some (Z.land (rd parent i m) PTE_ADDR_MASK), m).

Definition is_huge (t i : Z) (m : mmu) : bool :=
  has (rd t i m) PTE_PRESENT && has (rd t i m) PTE_HUGE.

Fixpoint ensure_loop (fuel : nat) (hhdm pa end_ : Z) (m : mmu) : outcome (Z * mmu) :=
  match fuel with
  | O => NoFuel
  | S fuel =>
      if negb (pa <? end_) then Ok (0, m) else
      let next := ensure_loop fuel hhdm (add64 pa PAGE_SIZE) end_ in
      let va := add64 pa hhdm in
      '(pdpt, m) ← ensure_table (kernel_pml4 m) (pml4_idx va) m;
      match pdpt with
      | None => Ok (- ENOMEM, m)
      | Some pdpt =>
          if is_huge pdpt (pdpt_idx va) m then next m else
          '(pd, m) ← ensure_table pdpt (pdpt_idx va) m;
          match pd with
          | None => Ok (- ENOMEM, m)
          | Some pd =>
              if is_huge pd (pd_idx va) m then next m else
              '(pt, m) ← ensure_table pd (pd_idx va) m;
              match pt with
              | None => Ok (- ENOMEM, m)
              | Some pt =>
                  if has (rd pt (pt_idx va) m) PTE_PRESENT then next m else
                  next (wr pt (pt_idx va)
                    (Z.lor (Z.lor (Z.lor (Z.land pa PTE_ADDR_MASK) PTE_PRESENT) PTE_WRITE) PTE_NX) m)
              end
          end
      end
  end.

(** [hhdm] is [hhdm_offset]. *)
Definition paging_ensure_hhdm (hhdm base len : Z) (m : mmu) : outcome (Z * mmu) :=
  let start := Z.ldiff base PAGE_MASK in
  let end_ := Z.ldiff (add64 (add64 base len) PAGE_MASK) PAGE_MASK in
  ensure_loop (S (Z.to_nat ((end_ - start) / PAGE_SIZE))) hhdm start end_ m.

(** ** The interface vma.c and mmap.c use *)

#[export] Instance mmu_paging : Paging mmu := {|
  paging_unmap v n m := paging_unmap_in (user_pml4 m) v n m;
  paging_get_flags v m := paging_get_flags_in (user_pml4 m) v m;
  paging_protect v n fl m := paging_protect_in (user_pml4 m) v n fl m;
  Vma.pmm_user_refcount m pa := match Pmm.pmm_user_refcount pa (alloc m) with Ok r => r | _ => 0 end;
  mm_zero_page m := zero_page (alloc m)
|}.
