(* ===== verification/PagingSpec.v ===== *)
(** * The page tables as a map from user pages to entries

    [T] names the page-table pages of an address space by the indices that
    lead to them ([[]] is the PML4), [P] is the map from user pages to present
    entries.  The machine has a list of address spaces; a frame carries at
    least one reference for each PTE of any of them, and the page-table pages
    are disjoint from one another and from the frames that are mapped. *)

From S2P Require Import Prelude Rbtree Vma Pmm PmmList PmmSpec PmmAlloc Paging.

(** ** Bits *)

Lemma mask_shift : PTE_ADDR_MASK = Z.shiftl (Z.ones 40) 12.
Proof. done. Qed.

Lemma mask_frame x : 0 ≤ x < 2 ^ 40 → Z.land (x * 4096) PTE_ADDR_MASK = x * 4096.
Proof.
  intros Hx. rewrite mask_shift. change 4096 with (2 ^ 12).
  rewrite <- Z.shiftl_mul_pow2, <- Z.shiftl_land, Z.land_ones, Z.mod_small by lia. done.
Qed.

Lemma mask_form e : ∃ x, 0 ≤ x < 2 ^ 40 ∧ Z.land e PTE_ADDR_MASK = x * 4096.
Proof.
  exists (Z.shiftr e 12 mod 2 ^ 40). split; [apply Z.mod_pos_bound; lia|].
  rewrite mask_shift. change 4096 with (2 ^ 12). rewrite <- Z.shiftl_mul_pow2, <- Z.land_ones by lia.
  apply Z.bits_inj'. intros k Hk. rewrite Z.land_spec.
  destruct (Z.ltb_spec k 12).
  - rewrite !Z.shiftl_spec_low by lia. by rewrite andb_false_r.
  - rewrite !Z.shiftl_spec, Z.land_spec, Z.shiftr_spec by lia. by replace (k - 12 + 12) with k by lia.
Qed.

Lemma has_lor x y k : 0 ≤ k → has (Z.lor x y) (2 ^ k) = has x (2 ^ k) || has y (2 ^ k).
Proof. intros. rewrite !has_testbit by done. apply Z.lor_spec. Qed.

Lemma has_frame x k : 0 ≤ k < 12 → has (x * 4096) (2 ^ k) = false.
Proof.
  intros. rewrite has_testbit by lia. change 4096 with (2 ^ 12). rewrite <- Z.shiftl_mul_pow2 by lia.
  apply Z.shiftl_spec_low. lia.
Qed.

(** The entry written for a new table. *)
Lemma table_entry x f :
  0 ≤ x < 2 ^ 40 → f = 0 ∨ f = PTE_USER →
  let e := Z.lor (Z.lor (Z.lor (x * 4096) PTE_PRESENT) PTE_WRITE) f in
  has e PTE_PRESENT = true ∧ has e PTE_HUGE = false ∧ Z.land e PTE_ADDR_MASK = x * 4096.
Proof.
  intros Hx Hf e. subst e. rewrite !Z.land_lor_distr_l, mask_frame by done.
  change PTE_PRESENT with (2 ^ 0). change PTE_HUGE with (2 ^ 7).
  rewrite !has_lor, !has_frame by lia.
  by destruct Hf as [->| ->]; cbn; rewrite ?Z.lor_0_r.
Qed.

(** The entry written for a page. *)
Lemma page_entry a f :
  user_flags f →
  let e := Z.lor (Z.lor (Z.land a PTE_ADDR_MASK) PTE_PRESENT) f in
  has e PTE_PRESENT = true ∧ Z.land e PTE_ADDR_MASK = Z.land a PTE_ADDR_MASK ∧
  has e PTE_USER = true ∧ has e PTE_HUGE = false.
Proof.
  intros (Hu & Hh & Hf) e. subst e. destruct (mask_form a) as (x & Hx & ->).
  rewrite !Z.land_lor_distr_l, mask_frame, Hf by done. revert Hu Hh.
  change PTE_PRESENT with (2 ^ 0). change PTE_USER with (2 ^ 2). change PTE_HUGE with (2 ^ 7).
  rewrite !has_lor, !has_frame by lia. cbn -[has Z.mul]. rewrite ?Z.lor_0_r.
  intros -> ->. by split_and!.
Qed.

(** ** Words *)

Lemma rd_wr t i v m t' i' :
  rd t' i' (wr t i v m) = if decide ((t', i') = (t, i)) then v else rd t' i' m.
Proof.
  unfold rd, wr. cbn [words]. case_decide as E; [rewrite E; by rewrite lookup_insert_eq|].
  by rewrite lookup_insert_ne by congruence.
Qed.

Lemma rd_clear pa m t i : rd t i (clear_page pa m) = if decide (t = pa) then 0 else rd t i m.
Proof.
  unfold rd, clear_page. cbn [words]. rewrite map_lookup_filter. case_decide as E.
  - subst. destruct (words m !! (pa, i)); simpl; [|done]. rewrite option_guard_False; [done|]. simpl. tauto.
  - destruct (words m !! (t, i)); simpl; [|done]. by rewrite option_guard_True.
Qed.

(** ** Addresses *)

Definition user_va (va : Z) : Prop := page_aligned va ∧ 0 ≤ va < USER_TOP.

#[export] Instance user_va_dec va : Decision (user_va va).
Proof. unfold user_va, page_aligned. apply _. Defined.

Definition path (va : Z) : list Z := [pml4_idx va; pdpt_idx va; pd_idx va].

Lemma idx_eqs va :
  pml4_idx va = va / 2 ^ 39 mod 512 ∧ pdpt_idx va = va / 2 ^ 30 mod 512 ∧
  pd_idx va = va / 2 ^ 21 mod 512 ∧ pt_idx va = va / 2 ^ 12 mod 512.
Proof.
  unfold pml4_idx, pdpt_idx, pd_idx, pt_idx. change 0x1FF with (Z.ones 9).
  by rewrite !Z.land_ones, !Z.shiftr_div_pow2 by lia.
Qed.

Lemma idx_range va : user_va va →
  0 ≤ pml4_idx va < 256 ∧ 0 ≤ pdpt_idx va < 512 ∧ 0 ≤ pd_idx va < 512 ∧ 0 ≤ pt_idx va < 512.
Proof.
  intros [_ Hv]. destruct (idx_eqs va) as (-> & -> & -> & ->).
  split_and!; try (apply Z.mod_pos_bound; lia).
  assert (0 ≤ va / 2 ^ 39 < 256).
  { split; [apply Z.div_pos; lia|apply Z.div_lt_upper_bound; lia]. }
  rewrite Z.mod_small by lia. lia.
Qed.

(** The indices determine a user page. *)
Lemma va_inj va vb : user_va va → user_va vb → path va = path vb → pt_idx va = pt_idx vb → va = vb.
Proof.
  assert (∀ v, user_va v →
    v = pml4_idx v * 2 ^ 39 + pdpt_idx v * 2 ^ 30 + pd_idx v * 2 ^ 21 + pt_idx v * 2 ^ 12) as H.
  { intros v Hv. pose proof (idx_range v Hv) as (H4 & _). destruct Hv as [Ha Hr].
    destruct (idx_eqs v) as (E4 & E3 & E2 & E1).
    unfold page_aligned in Ha. pose proof (Z.div_mod v (2 ^ 12) ltac:(lia)).
    set (q := v / 2 ^ 12) in *. change (v mod 2 ^ 12) with (v mod 4096) in *.
    assert (v / 2 ^ 21 = q / 512 ∧ v / 2 ^ 30 = q / 512 / 512 ∧ v / 2 ^ 39 = q / 512 / 512 / 512) as (D2 & D3 & D4).
    { subst q. rewrite !Z.div_div by lia. done. }
    rewrite D2 in E2. rewrite D3 in E3. rewrite D4 in E4.
    pose proof (Z.div_mod q 512 ltac:(lia)). pose proof (Z.div_mod (q / 512) 512 ltac:(lia)).
    pose proof (Z.div_mod (q / 512 / 512) 512 ltac:(lia)).
    assert (0 ≤ q < 2 ^ 35) by (subst q; split; [apply Z.div_pos; lia|apply Z.div_lt_upper_bound; lia]).
    assert (q / 512 / 512 / 512 < 256).
    { rewrite !Z.div_div by lia. apply Z.div_lt_upper_bound; lia. }
    assert (0 ≤ q / 512 / 512 / 512) by (rewrite !Z.div_div by lia; apply Z.div_pos; lia).
    rewrite (Z.mod_small (q / 512 / 512 / 512)) in E4 by lia. lia. }
  intros Ha Hb [= E4 E3 E2] E1. rewrite (H va Ha), (H vb Hb). congruence.
Qed.

(** ** The tree of tables *)

Abbreviation tables := (gmap (list Z) Z).

Definition idx_ok (p : list Z) (i : Z) : Prop := 0 ≤ i < (if decide (p = []) then 256 else 512).

Record tree_ok (m : mmu) (T : tables) : Prop := TreeOk {
  t_root : is_Some (T !! []);
  t_inj : ∀ p q a, T !! p = Some a → T !! q = Some a → p = q;
  t_path : ∀ p i a, T !! (p ++ [i]) = Some a → is_Some (T !! p) ∧ idx_ok p i ∧ (length p < 3)%nat;
  t_link : ∀ p a i, T !! p = Some a → (length p < 3)%nat → idx_ok p i → look a i m = T !! (p ++ [i]);
  t_small : ∀ p a i, T !! p = Some a → (length p < 3)%nat → idx_ok p i →
    has (rd a i m) PTE_PRESENT = true → has (rd a i m) PTE_HUGE = false
}.

(** The physical address of the PML4. *)
Definition cr3 (T : tables) : Z := default 0 (T !! []).

Lemma cr3_at m T : tree_ok m T → T !! [] = Some (cr3 T).
Proof. intros [[a E] _ _ _ _]. unfold cr3. by rewrite E. Qed.

(** The present entry of a page in its page table. *)
Definition pte_in (T : tables) (m : mmu) (va : Z) : option Z :=
  T !! path va ≫= λ pt,
    let e := rd pt (pt_idx va) m in if has e PTE_PRESENT then Some e else None.

Definition leaves (T : tables) (m : mmu) (P : gmap Z Z) : Prop :=
  ∀ va, P !! va = if decide (user_va va) then pte_in T m va else None.

Lemma length_key m T p a : tree_ok m T → T !! p = Some a → (length p ≤ 3)%nat.
Proof.
  intros Ok H. destruct (decide (p = [])) as [->|Hp]; [simpl; lia|].
  destruct (exists_last Hp) as (q & i & ->). destruct (t_path _ _ Ok _ _ _ H) as (_ & _ & ?).
  rewrite length_app. simpl. lia.
Qed.

(** What [descend] without [create] computes. *)
Definition walk (root v : Z) (m : mmu) : option Z :=
  look root (pml4_idx v) m ≫= λ pdpt, look pdpt (pdpt_idx v) m ≫= λ pd, look pd (pd_idx v) m.

Lemma table_for_look parent i m : table_for parent i false 0 m = Ok (look parent i m, m).
Proof. unfold table_for, look. by destruct (has _ PTE_PRESENT), (has _ PTE_HUGE). Qed.

Lemma descend_walk root v m : descend root v false 0 m = Ok (walk root v m, m).
Proof.
  unfold descend, walk. rewrite table_for_look. cbn [mbind outcome_bind option_bind].
  destruct (look root _ m) as [pdpt|]; [|done]. rewrite table_for_look. cbn [mbind outcome_bind option_bind].
  destruct (look pdpt _ m) as [pd|]; [|done]. by rewrite table_for_look.
Qed.

Lemma idx_ok_path va : user_va va →
  idx_ok [] (pml4_idx va) ∧ idx_ok [pml4_idx va] (pdpt_idx va) ∧
  idx_ok [pml4_idx va; pdpt_idx va] (pd_idx va).
Proof. intros H. destruct (idx_range va H) as (? & ? & ? & ?). unfold idx_ok. simpl. split_and!; lia. Qed.

(** A prefix of a key is a key. *)
Lemma no_child m T p i : tree_ok m T → T !! p = None → T !! (p ++ [i]) = None.
Proof.
  intros Ok H. destruct (T !! (p ++ [i])) as [a|] eqn:E; [|done].
  destruct (t_path _ _ Ok _ _ _ E) as [[? ?] _]. congruence.
Qed.

Lemma walk_spec m T va : tree_ok m T → user_va va → walk (cr3 T) va m = T !! path va.
Proof.
  intros Ok Hv. destruct (idx_ok_path va Hv) as (I4 & I3 & I2). unfold walk, path.
  rewrite (t_link _ _ Ok [] _ _ (cr3_at _ _ Ok) ltac:(simpl; lia) I4). simpl.
  destruct (T !! [pml4_idx va]) as [a3|] eqn:E3; simpl.
  2:{ symmetry. apply (no_child m T [_; _] _ Ok). by apply (no_child m T [_] _ Ok). }
  rewrite (t_link _ _ Ok [_] _ _ E3 ltac:(simpl; lia) I3). simpl.
  destruct (T !! [pml4_idx va; pdpt_idx va]) as [a2|] eqn:E2; simpl.
  2:{ symmetry. by apply (no_child m T [_; _] _ Ok). }
  by rewrite (t_link _ _ Ok [_; _] _ _ E2 ltac:(simpl; lia) I2).
Qed.

(** Only the words of the tables matter. *)
Lemma tree_frame m m' T :
  tree_ok m T → (∀ p a i, T !! p = Some a → rd a i m' = rd a i m) → tree_ok m' T.
Proof.
  intros [R I Pa L S] Er. constructor; try done.
  - intros p a i Ha Hl Hi. unfold look. rewrite (Er p a i Ha). by apply L.
  - intros p a i Ha Hl Hi. rewrite (Er p a i Ha). by apply S with p.
Qed.

Lemma pte_frame m m' T va :
  (∀ p a i, T !! p = Some a → rd a i m' = rd a i m) → pte_in T m' va = pte_in T m va.
Proof.
  intros Er. unfold pte_in. destruct (T !! path va) as [pt|] eqn:E; [|done]. simpl. by rewrite (Er _ _ _ E).
Qed.

(** ** Writing an entry of a page table *)

Lemma write_leaf m T P va pt v :
  tree_ok m T → leaves T m P → user_va va → T !! path va = Some pt →
  let P' := if has v PTE_PRESENT then <[va := v]> P else delete va P in
  tree_ok (wr pt (pt_idx va) v m) T ∧ leaves T (wr pt (pt_idx va) v m) P'.
Proof.
  intros Ok Lv Hv Hp P'. split.
  - assert (∀ p a i, T !! p = Some a → (length p < 3)%nat →
      rd a i (wr pt (pt_idx va) v m) = rd a i m) as Er.
    { intros p a i Ha Hl. rewrite rd_wr, decide_False; [done|]. intros [= -> _].
      rewrite (t_inj _ _ Ok _ _ _ Ha Hp) in Hl. simpl in Hl. lia. }
    destruct Ok as [R I Pa L S]. constructor; try done.
    + intros p a i Ha Hl Hi. unfold look. rewrite (Er p a i Ha Hl). by apply L.
    + intros p a i Ha Hl Hi. rewrite (Er p a i Ha Hl). by apply S with p.
  - intros vb. specialize (Lv vb). destruct (decide (vb = va)) as [->|Hne].
    + rewrite decide_True by done. unfold pte_in. rewrite Hp. simpl. rewrite rd_wr, decide_True by done.
      subst P'. destruct (has v PTE_PRESENT); [by rewrite lookup_insert_eq|by rewrite lookup_delete_eq].
    + replace (P' !! vb) with (P !! vb).
      2:{ subst P'. destruct (has v PTE_PRESENT); [by rewrite lookup_insert_ne|by rewrite lookup_delete_ne]. }
      rewrite Lv. case_decide as Hb; [|done]. unfold pte_in.
      destruct (T !! path vb) as [pb|] eqn:Eb; [|done]. simpl. rewrite rd_wr, decide_False; [done|].
      intros [= -> Ei]. apply Hne. apply va_inj; [done|done| |done]. exact (t_inj _ _ Ok _ _ _ Eb Hp).
Qed.

(** ** The frames *)

Definition frame_of (e : Z) : Z := Z.land e PTE_ADDR_MASK.

(** How many PTEs point to a frame. *)
Definition refs (P : gmap Z Z) (pa : Z) : nat := size (filter (λ kv, frame_of kv.2 = pa) P).

Lemma refs_insert P va e pa :
  P !! va = None →
  refs (<[va := e]> P) pa = ((if decide (frame_of e = pa) then 1 else 0) + refs P pa)%nat.
Proof.
  intros H. unfold refs. case_decide as E.
  - rewrite map_filter_insert_True by done. rewrite map_size_insert_None; [done|].
    apply map_lookup_filter_None. by left.
  - rewrite map_filter_insert_False by done. rewrite delete_id by done. done.
Qed.

Lemma refs_delete P va e pa :
  P !! va = Some e →
  refs P pa = ((if decide (frame_of e = pa) then 1 else 0) + refs (delete va P) pa)%nat.
Proof.
  intros H. rewrite <- (insert_delete_id P va e) at 1 by done. apply refs_insert. apply lookup_delete_eq.
Qed.

Lemma refs_delete_le P va pa : (refs (delete va P) pa ≤ refs P pa)%nat.
Proof.
  destruct (P !! va) as [e|] eqn:E; [|by rewrite delete_id]. rewrite (refs_delete P va e pa E). lia.
Qed.

Lemma refs_pos P va e : P !! va = Some e → (1 ≤ refs P (frame_of e))%nat.
Proof. intros H. rewrite (refs_delete P va e _ H), decide_True by done. lia. Qed.

(** The address spaces of the machine: the tables and the pages of each. *)
Abbreviation spaces := (list (tables * gmap Z Z)).

Definition space_tree (m : mmu) (u : tables * gmap Z Z) : Prop := tree_ok m u.1 ∧ leaves u.1 m u.2.

Definition table_at (L : spaces) (a : Z) : Prop := ∃ u p, u ∈ L ∧ u.1 !! p = Some a.

Definition disjoint_tabs (u v : tables * gmap Z Z) : Prop :=
  ∀ p q a, u.1 !! p = Some a → v.1 !! q = Some a → False.

(** The PTEs of the whole machine that point to a frame. *)
Definition total (L : spaces) (pa : Z) : nat := sum_list_with (λ u, refs u.2 pa) L.

(** The frame [x] has a reference for each of [n] PTEs and is no table. *)
Record owned (s : pmm) (B : gmap Z Z) (L : spaces) (x : Z) (n : nat) : Prop := Owned {
  ow_page : ∃ r, user_page s B x r ∧ Z.of_nat n ≤ r;
  ow_table : ¬ table_at L (x * 4096);
  ow_null : x ≠ 0
}.

Record frames_ok (s : pmm) (B : gmap Z Z) (L : spaces) : Prop := FramesOk {
  f_pmm : pmm_ok s B;
  f_width : pfn_count s ≤ 2 ^ 40;
  f_null : ¬ ff B 0;
  f_zero : ∃ z, zero_page s = z * 4096 ∧ 0 ≤ z < pfn_count s ∧ ¬ ff B z ∧ ¬ table_at L (z * 4096);
  f_tables : ∀ a, table_at L a → ∃ x, a = x * 4096 ∧ 0 ≤ x < pfn_count s ∧ ¬ ff B x;
  f_apart : ForallOrdPairs disjoint_tabs L;
  f_user : ∀ u va e, u ∈ L → u.2 !! va = Some e → has e PTE_USER = true ∧ has e PTE_HUGE = false;
  f_owned : ∀ u va e, u ∈ L → u.2 !! va = Some e → frame_of e ≠ zero_page s →
    ∃ x, frame_of e = x * 4096 ∧ owned s B L x (total L (x * 4096))
}.

(** Free frames and the zero page hold zeroes. *)
Definition clean (m : mmu) (B : gmap Z Z) : Prop :=
  (∀ x i, ff B x → rd (x * 4096) i m = 0) ∧ ∀ i, rd (zero_page (alloc m)) i m = 0.

Definition mmu_ok (m : mmu) (L : spaces) (B : gmap Z Z) : Prop :=
  Forall (space_tree m) L ∧ frames_ok (alloc m) B L ∧ clean m B.

Lemma total_pos L u va e : u ∈ L → u.2 !! va = Some e → (1 ≤ total L (frame_of e))%nat.
Proof.
  intros Hu He. pose proof (refs_pos _ _ _ He) as Hr. clear He. unfold total.
  induction L as [|v L IH]; cbn [sum_list_with]; [by apply not_elem_of_nil in Hu|].
  apply elem_of_cons in Hu as [->|Hu]; [lia|]. specialize (IH Hu). lia.
Qed.

Lemma trees_frame m m' L :
  Forall (space_tree m) L → (∀ a i, table_at L a → rd a i m' = rd a i m) → Forall (space_tree m') L.
Proof.
  intros F Er. apply Forall_forall. intros u Hu.
  assert (∀ p a i, u.1 !! p = Some a → rd a i m' = rd a i m) as Eu by (intros p a i Ha; apply Er; by exists u, p).
  destruct (proj1 (Forall_forall _ _) F u Hu) as [Tr Lv]. split; [by eapply tree_frame|].
  intros va. rewrite (pte_frame m m' u.1 va Eu). apply Lv.
Qed.

Lemma head_table T P X p a : T !! p = Some a → table_at ((T, P) :: X) a.
Proof. intros H. exists (T, P), p. split; [apply list_elem_of_here|done]. Qed.

Lemma other_table T P X a : table_at X a → table_at ((T, P) :: X) a.
Proof. intros (u & p & Hu & Hp). exists u, p. split; [by apply list_elem_of_further|done]. Qed.

Lemma table_cons T P X a : table_at ((T, P) :: X) a → (∃ p, T !! p = Some a) ∨ table_at X a.
Proof. intros (u & p & [->|H]%elem_of_cons & Hp); [left; by exists p|right; by exists u, p]. Qed.

Lemma table_head T P P' X a : table_at ((T, P) :: X) a ↔ table_at ((T, P') :: X) a.
Proof. split; intros [[p H]|H]%table_cons; (by eapply head_table) || (by apply other_table). Qed.

(** A word of the head's tables is no word of another space's. *)
Lemma head_apart s B T P X p a :
  frames_ok s B ((T, P) :: X) → T !! p = Some a → ¬ table_at X a.
Proof.
  intros F Ha (u & q & Hu & Hq). pose proof (f_apart _ _ _ F) as A. inversion A as [|? ? H _]; subst.
  by eapply (proj1 (Forall_forall _ _) H u Hu p q a).
Qed.

(** Replacing the pages of the head. *)
Lemma frames_ptes s B T P P' X :
  frames_ok s B ((T, P) :: X) →
  (∀ va e, P' !! va = Some e → (has e PTE_USER = true ∧ has e PTE_HUGE = false) ∧ (frame_of e ≠ zero_page s →
     ∃ x, frame_of e = x * 4096 ∧ owned s B ((T, P) :: X) x (total ((T, P') :: X) (x * 4096)))) →
  (∀ pa, (refs P' pa ≤ refs P pa)%nat ∨ ∃ va e, P' !! va = Some e ∧ frame_of e = pa) →
  frames_ok s B ((T, P') :: X).
Proof.
  intros F H1 H2. destruct F as [O W N (z & Ez & Hz1 & Hz2 & Hz3) Tb A U Ow].
  assert (∀ x n, owned s B ((T, P) :: X) x n → owned s B ((T, P') :: X) x n) as Hown.
  { intros x n [Hp Ht Hn]. constructor; [done| |done]. by rewrite (table_head T P' P X). }
  constructor; try done.
  - exists z. split_and!; try done; try lia. by rewrite (table_head T P' P X).
  - intros a Ha. apply Tb. by rewrite (table_head T P P' X).
  - inversion A; subst. by constructor.
  - intros u va e [->|Hu]%elem_of_cons He; [by destruct (H1 va e He)|]. eapply U; [|done]. by right.
  - intros u va e [->|Hu]%elem_of_cons He Hz.
    + destruct (proj2 (H1 va e He) Hz) as (x & Ex & Hx). exists x. auto.
    + destruct (H2 (frame_of e)) as [Hle|(vb & eb & Hb & Eb)].
      * destruct (Ow u va e) as (x & Ex & Hx); [by right|done|done|]. exists x. split; [done|]. apply Hown.
        rewrite Ex in Hle. destruct Hx as [(r & Ur & Hr) Ht Hn]. constructor; [|done|done]. exists r. split; [done|].
        unfold total in *. simpl in *. lia.
      * rewrite <- Eb in Hz |- *. destruct (proj2 (H1 vb eb Hb) Hz) as (x & Ex & Hx). exists x. auto.
Qed.

(** Dropping a PTE keeps the accounting when the frame keeps its references. *)
Lemma frames_drop s B T P X va :
  frames_ok s B ((T, P) :: X) → frames_ok s B ((T, delete va P) :: X).
Proof.
  intros F. eapply frames_ptes; [exact F| |intros pa; left; apply refs_delete_le].
  intros vb e [_ H]%lookup_delete_Some. split; [by eapply (f_user _ _ _ F); [left|]|].
  intros Hz. destruct (f_owned _ _ _ F (T, P) vb e) as (x & Ex & [(r & Ur & Hr) Ht Hn]); [by left|done|done|].
  exists x. split; [done|]. constructor; [|done|done]. exists r. split; [done|].
  pose proof (refs_delete_le P va (x * 4096)). unfold total in *. simpl in *. lia.
Qed.

(** ** Dropping a reference *)

(** What dropping one reference does to the frame [pa]. *)
Definition released (s : pmm) (B : gmap Z Z) (pa : Z) (s' : pmm) (B' : gmap Z Z) : Prop :=
  ∀ x r, pa = x * 4096 → user_page s B x r →
    (1 < r → user_page s' B' x (r - 1)) ∧ (r = 1 → ff B' x ∧ x ∉ dirty s').

(** No frame gained references. *)
Definition refs_le (s : pmm) (B : gmap Z Z) (s' : pmm) (B' : gmap Z Z) : Prop :=
  ∀ y r', user_page s' B' y r' → ∃ r, user_page s B y r ∧ r' ≤ r.

Lemma refs_le_refl s B : refs_le s B s B.
Proof. intros y r U. exists r. split; [done|lia]. Qed.

Lemma refs_le_trans s B s1 B1 s2 B2 : refs_le s B s1 B1 → refs_le s1 B1 s2 B2 → refs_le s B s2 B2.
Proof.
  intros H1 H2 y r U. destruct (H2 y r U) as (r1 & U1 & ?). destruct (H1 y r1 U1) as (r0 & U0 & ?).
  exists r0. split; [done|lia].
Qed.

Lemma user_page_fun s B s' B' x r r' :
  user_page s B x r → user_page s' B' x r' → pfn_table s' !! x = pfn_table s !! x → r' = r.
Proof. intros [_ _ _ H] [_ _ _ H'] E. congruence. Qed.

Lemma user_page_other s B s' B' x y r :
  user_page s B y r → y ≠ x → other_refs s s' x → pfn_count s' = pfn_count s →
  zero_page s' = zero_page s → (ff B' y → ff B y ∨ y = x) → user_page s' B' y r.
Proof.
  intros [H1 H2 H3 H4] Hne Or Ec Ez Hf. constructor.
  - by rewrite Ec.
  - intros H. destruct (Hf H); [by apply H2|done].
  - by rewrite Ez.
  - by rewrite Or.
Qed.

Lemma refcount_user s B x r :
  pmm_ok s B → user_page s B x r → Pmm.pmm_user_refcount (x * 4096) s = Ok r.
Proof.
  intros O U. destruct (user_entry s B x r O U) as (en & Een & Er & _ & Ep). unfold Pmm.pmm_user_refcount.
  rewrite Ep, Een. pose proof (up_range _ _ _ _ U). replace (x >=? pfn_count s) with false by lia.
  cbn [mbind outcome_bind deref]. by rewrite Er.
Qed.

Record put_ok (m : mmu) (B : gmap Z Z) (x r : Z) (m' : mmu) (B' : gmap Z Z) : Prop := PutOk {
  pu_root : user_pml4 m' = user_pml4 m;
  pu_words : ∀ t i, t ≠ x * 4096 ∨ 1 < r → rd t i m' = rd t i m;
  pu_clear : r = 1 → ∀ i, rd (x * 4096) i m' = 0;
  pu_zero : zero_page (alloc m') = zero_page (alloc m);
  pu_count : pfn_count (alloc m') = pfn_count (alloc m);
  pu_free : ∀ y, ff B' y ↔ ff B y ∨ y = x ∧ r = 1;
  pu_rel : released (alloc m) B (x * 4096) (alloc m') B';
  pu_others : other_refs (alloc m) (alloc m') x;
  pu_le : refs_le (alloc m) B (alloc m') B'
}.

(** A spare reference can be dropped. *)
Lemma put_frame_spec m L B x r :
  frames_ok (alloc m) B L → user_page (alloc m) B x r → ¬ table_at L (x * 4096) → x ≠ 0 →
  Z.of_nat (total L (x * 4096)) < r →
  ∃ m' B', put_frame (x * 4096) m = Ok m' ∧ frames_ok (alloc m') B' L ∧ put_ok m B x r m' B'.
Proof.
  intros F Ur Ht Hx Hr. pose proof F as [O W N (z & Ez & Hz1 & Hz2 & Hz3) Tb A U Ow].
  destruct (put_user_spec (alloc m) B x r O Ur) as (s' & B' & E & O' & Or & Ec & Ez' & H1 & H2); [lia|].
  unfold put_frame. rewrite (refcount_user _ _ _ _ O Ur). cbn [mbind outcome_bind]. rewrite E.
  cbn [mbind outcome_bind].
  assert (∀ y, ff B' y ↔ ff B y ∨ y = x ∧ r = 1) as Hf.
  { intros y. destruct (decide (1 < r)) as [Hr1|Hr1].
    - destruct (H1 Hr1) as (-> & _). naive_solver lia.
    - destruct (H2 ltac:(lia)) as [-> _]. naive_solver lia. }
  assert (∀ y, ff B' y → ff B y ∨ y = x) as Hf1 by (intros y; rewrite Hf; naive_solver).
  set (m' := if r =? 1 then _ else _). assert (alloc m' = s') as Ea by (subst m'; by destruct (r =? 1)).
  exists m', B'. split; [done|]. rewrite Ea. split.
  - constructor; try done.
    + by rewrite Ec.
    + rewrite Hf. naive_solver.
    + exists z. rewrite Ez', Ec, Hf. split_and!; try done; try lia. intros [?|[-> _]]; [done|].
      by apply (up_zero _ _ _ _ Ur).
    + intros a Ha. destruct (Tb a Ha) as (y & -> & Hy & Hn). exists y. rewrite Ec, Hf.
      split_and!; [done|lia|lia|]. intros [?|[-> _]]; done.
    + intros u va e Hu He Hz. rewrite Ez' in Hz. destruct (Ow u va e Hu He Hz) as (y & Ey & [(ry & Uy & Hry) Hty Hny]).
      exists y. split; [done|]. constructor; [|done|done]. destruct (decide (y = x)) as [->|Hyx].
      * pose proof (total_pos L u va e Hu He). rewrite Ey in *. assert (1 < r) as Hr1 by lia.
        destruct (H1 Hr1) as (_ & Ux & _). exists (r - 1). split; [done|lia].
      * exists ry. split; [|done]. apply (user_page_other (alloc m) B s' B' x y ry Uy Hyx Or Ec Ez' (Hf1 y)).
  - constructor; rewrite ?Ea; try done.
    + subst m'. by destruct (r =? 1).
    + intros t i Hti. subst m'. destruct (Z.eqb_spec r 1); [|done]. rewrite rd_clear, decide_False by naive_solver lia. done.
    + intros -> i. subst m'. cbn [Z.eqb Pos.eqb]. by rewrite rd_clear, decide_True.
    + intros y ry Ey Uy. assert (y = x) as -> by lia.
      assert (ry = r) as -> by (pose proof (up_ref _ _ _ _ Uy); pose proof (up_ref _ _ _ _ Ur); congruence).
      split; [intros Hr1; by destruct (H1 Hr1) as (-> & ? & _)|]. intros Hr1. destruct (H2 Hr1) as [Hf2 ->].
      split; [apply Hf2; by right|set_solver].
    + intros y ry Uy. destruct (decide (y = x)) as [->|Hyx].
      * assert (1 < r) as Hr1.
        { destruct (decide (r = 1)) as [->|]; [|lia]. destruct (up_used _ _ _ _ Uy). rewrite Hf. by right. }
        destruct (H1 Hr1) as (_ & Ux & _). exists r. split; [done|].
        pose proof (up_ref _ _ _ _ Uy). pose proof (up_ref _ _ _ _ Ux).
        assert (ry = r - 1) by congruence. lia.
      * exists ry. split; [|lia]. destruct Uy as [U1 U2 U3 U4]. constructor; [by rewrite <- Ec| |by rewrite <- Ez'|].
        -- intros Hy. apply U2. rewrite Hf. by left.
        -- by rewrite <- Or.
Qed.

(** ** Unmapping *)

Lemma wr_words t i v m : words (wr t i v m) = <[(t, i) := v]> (words m).
Proof. done. Qed.

Lemma leaves_lookup T m P va : leaves T m P → user_va va → P !! va = pte_in T m va.
Proof. intros L Hv. rewrite (L va). by rewrite decide_True. Qed.

(** A leaf entry of the head is written. *)
Lemma write_head m s B T P X va pt v :
  Forall (space_tree m) ((T, P) :: X) → frames_ok s B ((T, P) :: X) → user_va va → T !! path va = Some pt →
  let P' := if has v PTE_PRESENT then <[va := v]> P else delete va P in
  Forall (space_tree (wr pt (pt_idx va) v m)) ((T, P') :: X).
Proof.
  intros [[Tr Lv] Fx]%Forall_cons F Hv Hp P'. constructor; [by apply write_leaf|].
  eapply trees_frame; [exact Fx|]. intros a i Ha. rewrite rd_wr, decide_False; [done|]. intros [= -> _].
  by eapply head_apart.
Qed.

Lemma table_used s B L a x : frames_ok s B L → table_at L a → ff B x → a ≠ x * 4096.
Proof.
  intros F Ha Hx. destruct (f_tables _ _ _ F a Ha) as (y & -> & _ & Hy). intros E. apply Hy. by replace y with x by lia.
Qed.

(** Writing to a table, and giving a frame back. *)
Lemma clean_table m L B t i v :
  clean m B → frames_ok (alloc m) B L → table_at L t → clean (wr t i v m) B.
Proof.
  intros [C Cz] F Ht. destruct (f_zero _ _ _ F) as (z & Ez & _ & _ & Tz). split.
  - intros x j Hx. rewrite rd_wr, decide_False; [by apply C|]. intros [= E _]. symmetry in E. revert E.
    by eapply table_used.
  - intros j. cbn [alloc wr]. rewrite rd_wr, decide_False; [by apply Cz|]. intros [= E _]. apply Tz. by rewrite <- Ez, E.
Qed.

Lemma clean_put m B x r m' B' :
  clean m B → user_page (alloc m) B x r → put_ok m B x r m' B' → clean m' B'.
Proof.
  intros [C Cz] U [_ Pw Pc Pz _ Pf _ _ _]. split.
  - intros y i [Hy|[-> Hr]]%Pf; [|by apply Pc].
    rewrite Pw; [by apply C|]. left. intros E. apply (up_used _ _ _ _ U). by replace x with y by lia.
  - intros i. rewrite Pz, Pw; [done|]. left. intros E. by apply (up_zero _ _ _ _ U).
Qed.

(** One iteration of [paging_unmap]. *)
Lemma drop_spec m T P X B va pt :
  mmu_ok m ((T, P) :: X) B → user_va va → T !! path va = Some pt →
  ∃ m' B', drop_pte pt (pt_idx va) m = Ok m' ∧ mmu_ok m' ((T, delete va P) :: X) B' ∧
    zero_page (alloc m') = zero_page (alloc m) ∧ user_pml4 m' = user_pml4 m ∧
    refs_le (alloc m) B (alloc m') B' ∧
    (∀ e, P !! va = Some e → frame_of e ≠ zero_page (alloc m) →
       released (alloc m) B (frame_of e) (alloc m') B').
Proof.
  intros (Fs & F & C) Hv Hp. pose proof Fs as [[Tr Lv] Fx]%Forall_cons. simpl in Tr, Lv.
  pose proof (leaves_lookup T m P va Lv Hv) as El.
  unfold pte_in in El. rewrite Hp in El. simpl in El. unfold drop_pte.
  set (e := rd pt (pt_idx va) m) in *.
  destruct (has e PTE_PRESENT) eqn:Hpr.
  2:{ exists m, B. rewrite delete_id by done. split_and!; try done; [apply refs_le_refl|]. intros e'. by rewrite El. }
  rewrite (proj1 (f_user _ _ _ F (T, P) va e ltac:(by left) El)). fold (frame_of e).
  assert (∃ m1 B1, (if negb (frame_of e =? zero_page (alloc m)) then put_frame (frame_of e) m else Ok m) = Ok m1 ∧
    user_pml4 m1 = user_pml4 m ∧ (∀ a i, table_at ((T, P) :: X) a → rd a i m1 = rd a i m) ∧
    zero_page (alloc m1) = zero_page (alloc m) ∧ frames_ok (alloc m1) B1 ((T, delete va P) :: X) ∧
    refs_le (alloc m) B (alloc m1) B1 ∧ clean m1 B1 ∧
    (frame_of e ≠ zero_page (alloc m) → released (alloc m) B (frame_of e) (alloc m1) B1))
    as (m1 & B1 & -> & Eu & Er & Ez & F1 & L1 & C1 & R1).
  { destruct (Z.eqb_spec (frame_of e) (zero_page (alloc m))) as [Hz|Hz]; cbn [negb].
    - exists m, B. split_and!; try done; [by apply frames_drop|apply refs_le_refl].
    - destruct (f_owned _ _ _ F (T, P) va e ltac:(by left) El Hz) as (x & Ex & [(r & Ur & Hr) Ht Hn]).
      pose proof (refs_delete P va e (x * 4096) El) as Hd. rewrite decide_True in Hd by done.
      destruct (put_frame_spec m ((T, delete va P) :: X) B x r (frames_drop _ _ _ _ _ _ F) Ur)
        as (m1 & B1 & E1 & F1 & Pu);
        [by rewrite (table_head T _ P)|done|unfold total in *; simpl in *; lia|].
      pose proof (clean_put _ _ _ _ _ _ C Ur Pu) as C1. destruct Pu as [P1 P2 Pc P3 P4 P5 P6 P7 P8].
      rewrite Ex, E1. exists m1, B1. split_and!; try done. intros a i Ha. apply P2. left. by intros ->. }
  cbn [mbind outcome_bind]. eexists _, B1. split; [done|].
  assert (Forall (space_tree m1) ((T, P) :: X)) as Fs1 by (by eapply trees_frame).
  pose proof (frames_drop _ _ _ _ _ va F) as Fd.
  split; [split_and!; [|done|]|split_and!; [done|done|done|intros e'; rewrite El; by intros [= <-]]].
  - apply (write_head m1 _ _ T P X va pt 0 Fs1 F Hv Hp).
  - eapply clean_table; [done|exact F1|]. by eapply head_table.
Qed.

Lemma unmap_loop_spec : ∀ n m T P X B va,
  mmu_ok m ((T, P) :: X) B → page_aligned va → 0 ≤ va → va + Z.of_nat n * 4096 ≤ USER_TOP →
  ∃ m' P' B', unmap_loop n (cr3 T) va m = Ok m' ∧ mmu_ok m' ((T, P') :: X) B' ∧
    user_pml4 m' = user_pml4 m ∧ zero_page (alloc m') = zero_page (alloc m) ∧
    refs_le (alloc m) B (alloc m') B' ∧
    ∀ a, page_aligned a → P' !! a = if decide (va ≤ a < va + Z.of_nat n * 4096) then None else P !! a.
Proof.
  induction n as [|n IH]; intros m T P X B va M Ha H0 Ht.
  { exists m, P, B. split_and!; try done; [apply refs_le_refl|]. intros a _. by rewrite decide_False by lia. }
  cbn [unmap_loop]. rewrite descend_walk. cbn [mbind outcome_bind].
  assert (user_va va) as Hv by (split; [done|lia]).
  pose proof M as ([[Tr Lv] _]%Forall_cons & _). simpl in Tr, Lv. rewrite (walk_spec m T va Tr Hv).
  assert (∃ m1 B1, match T !! path va with None => Ok m | Some pt => drop_pte pt (pt_idx va) m end = Ok m1 ∧
    mmu_ok m1 ((T, delete va P) :: X) B1 ∧ zero_page (alloc m1) = zero_page (alloc m) ∧
    user_pml4 m1 = user_pml4 m ∧ refs_le (alloc m) B (alloc m1) B1)
    as (m1 & B1 & -> & M1 & Ez & Eu & Le).
  { destruct (T !! path va) as [pt|] eqn:E.
    { destruct (drop_spec m T P X B va pt M Hv E) as (m1 & B1 & H1 & H2 & H3 & H4 & H5 & _). exists m1, B1. by split_and!. }
    exists m, B. rewrite delete_id; [split_and!; (done || apply refs_le_refl)|].
    rewrite (leaves_lookup T m P va Lv Hv). unfold pte_in. by rewrite E. }
  cbn [mbind outcome_bind]. unfold PAGE_SIZE. rewrite add64_small by lia.
  destruct (IH m1 T (delete va P) X B1 (va + 4096) M1) as (m' & P' & B' & -> & M' & Eu' & Ez' & Le' & Hl).
  { unfold page_aligned in *. rewrite Zplus_mod, Ha. done. }
  { lia. }
  { lia. }
  exists m', P', B'. split_and!; try done; [congruence|congruence|by eapply refs_le_trans|].
  intros a Aa. rewrite (Hl a Aa). destruct (decide (a = va)) as [->|Hne].
  - rewrite decide_False by lia. rewrite lookup_delete_eq. by rewrite decide_True by lia.
  - rewrite lookup_delete_ne by done. apply decide_ext. unfold page_aligned in *.
    apply Z.mod_divide in Ha as [k ->], Aa as [j ->]; lia.
Qed.

(** ** Protecting *)

Lemma refs_protect P va e v pa :
  P !! va = Some e → frame_of v = frame_of e → refs (<[va := v]> P) pa = refs P pa.
Proof.
  intros He Hf. rewrite <- insert_delete_eq, refs_insert by apply lookup_delete_eq.
  by rewrite (refs_delete P va e pa He), Hf.
Qed.

Lemma frames_protect s B T P X va e v :
  frames_ok s B ((T, P) :: X) → P !! va = Some e → frame_of v = frame_of e → has v PTE_USER = true ∧ has v PTE_HUGE = false →
  frames_ok s B ((T, <[va := v]> P) :: X).
Proof.
  intros F He Hf Hu. pose proof (λ pa, refs_protect P va e v pa He Hf) as Hr.
  assert (∀ pa, total ((T, <[va := v]> P) :: X) pa = total ((T, P) :: X) pa) as Ht.
  { intros pa. unfold total. simpl. by rewrite Hr. }
  eapply frames_ptes; [exact F| |intros pa; left; by rewrite Hr].
  intros vb eb [[_ <-]|[_ H]]%lookup_insert_Some.
  - split; [done|]. rewrite Hf. intros Hz. destruct (f_owned _ _ _ F (T, P) va e ltac:(by left) He Hz) as (x & Ex & Hx).
    exists x. by rewrite Ht.
  - split; [by eapply (f_user _ _ _ F); [left|]|]. intros Hz.
    destruct (f_owned _ _ _ F (T, P) vb eb ltac:(by left) H Hz) as (x & Ex & Hx). exists x. by rewrite Ht.
Qed.

Lemma protect_one m T P X B va fl e :
  mmu_ok m ((T, P) :: X) B → user_va va → user_flags fl →
  P !! va = Some e →
  ∃ m', paging_protect_in (cr3 T) va 1 fl m = Ok (0, m') ∧ alloc m' = alloc m ∧
    user_pml4 m' = user_pml4 m ∧ (∀ t i, ¬ table_at ((T, P) :: X) t → rd t i m' = rd t i m) ∧
    mmu_ok m' ((T, <[va := Z.lor (Z.lor (Z.land e PTE_ADDR_MASK) PTE_PRESENT) fl]> P) :: X) B.
Proof.
  intros (Fs & F & C) Hv Hu He. pose proof Fs as [[Tr Lv] _]%Forall_cons. simpl in Tr, Lv.
  unfold paging_protect_in. change (Z.to_nat 1) with 1%nat.
  cbn [protect_each]. rewrite descend_walk. cbn [mbind outcome_bind]. rewrite (walk_spec m T va Tr Hv).
  pose proof He as He0. rewrite (leaves_lookup T m P va Lv Hv) in He0. unfold pte_in in He0.
  destruct (T !! path va) as [pt|] eqn:E; [|done]. simpl in He0.
  destruct (has (rd pt (pt_idx va) m) PTE_PRESENT) eqn:Hp; [|done]. injection He0 as ->. cbn [negb].
  destruct (page_entry e fl Hu) as (E1 & E2 & E3).
  eexists. split; [done|]. split_and!; try done.
  - intros t i Ht. rewrite rd_wr, decide_False; [done|]. intros [= -> _]. by apply Ht, (head_table T P X (path va)).
  - set (v := Z.lor _ fl) in *. pose proof (write_head m _ B T P X va pt v Fs F Hv E) as Fs1.
    rewrite E1 in Fs1. split; [done|]. split; [by eapply frames_protect|].
    eapply clean_table; [done|exact F|]. by eapply head_table.
Qed.

(** ** Reading *)

Lemma get_flags_leaf m T P X B va :
  mmu_ok m ((T, P) :: X) B → user_va va →
  paging_get_flags_in (cr3 T) va m = match P !! va with Some e => (0, e) | None => (- ENOENT, 0) end.
Proof.
  intros ([[Tr Lv] _]%Forall_cons & F & _) Hv. simpl in Tr, Lv. destruct (idx_ok_path va Hv) as (I4 & I3 & I2).
  rewrite (leaves_lookup T m P va Lv Hv). unfold paging_get_flags_in, pte_in.
  pose proof (walk_spec m T va Tr Hv) as Hw. unfold walk in Hw. rewrite <- Hw.
  destruct (look (cr3 T) _ m) as [a3|] eqn:L4; [|done]. simpl.
  rewrite (t_link _ _ Tr [] _ _ (cr3_at _ _ Tr) ltac:(simpl; lia) I4) in L4. simpl in L4.
  pose proof (t_small _ _ Tr [_] _ _ L4 ltac:(simpl; lia) I3) as S3.
  destruct (has (rd a3 (pdpt_idx va) m) PTE_PRESENT) eqn:P3; cbn [negb].
  2:{ unfold look. by rewrite P3. }
  rewrite (S3 eq_refl). destruct (look a3 _ m) as [a2|] eqn:L3; [|done]. simpl.
  rewrite (t_link _ _ Tr [_] _ _ L4 ltac:(simpl; lia) I3) in L3. simpl in L3.
  pose proof (t_small _ _ Tr [_; _] _ _ L3 ltac:(simpl; lia) I2) as S2.
  destruct (has (rd a2 (pd_idx va) m) PTE_PRESENT) eqn:P2; cbn [negb].
  2:{ unfold look. rewrite P2. done. }
  rewrite (S2 eq_refl). destruct (look a2 _ m) as [a1|] eqn:L2; [|done]. simpl.
  by destruct (has (rd a1 (pt_idx va) m) PTE_PRESENT).
Qed.

(** ** The laws *)

(** The present entry of a user page, as the hardware finds it. *)
Definition pte_of (root : Z) (m : mmu) (va : Z) : option Z :=
  if decide (user_va va) then
    walk root va m ≫= λ pt,
      let e := rd pt (pt_idx va) m in if has e PTE_PRESENT then Some e else None
  else None.

Lemma pte_of_in m L B T P va : mmu_ok m L B → (T, P) ∈ L → pte_of (cr3 T) m va = P !! va.
Proof.
  intros (Fs & F & _) H. destruct (proj1 (Forall_forall _ _) Fs _ H) as [Tr Lv]. simpl in Tr, Lv.
  rewrite (Lv va). unfold pte_of. case_decide; [|done]. by rewrite (walk_spec m T va Tr).
Qed.

Lemma pte_of_leaf m T P X B va : mmu_ok m ((T, P) :: X) B → pte_of (cr3 T) m va = P !! va.
Proof. intros M. eapply pte_of_in; [exact M|by left]. Qed.

(** The pages of the other address spaces are the same. *)
Definition others_same (X : spaces) (m m' : mmu) : Prop :=
  ∀ T P va, (T, P) ∈ X → pte_of (cr3 T) m' va = pte_of (cr3 T) m va.

Lemma others_kept m m' u u' X B B' : mmu_ok m (u :: X) B → mmu_ok m' (u' :: X) B' → others_same X m m'.
Proof.
  intros M M' T P va H. rewrite (pte_of_in m' _ B' T P va M'), (pte_of_in m _ B T P va M); [done|by right|by right].
Qed.

(** The address space [user_pml4] is one of the machine's. *)
Definition mmu_pte (m : mmu) (va : Z) : option Z := pte_of (user_pml4 m) m va.

Definition mmu_inv (m : mmu) : Prop := ∃ T P X B, mmu_ok m ((T, P) :: X) B ∧ user_pml4 m = cr3 T.

Lemma mmu_pte_leaf m T P X B va :
  mmu_ok m ((T, P) :: X) B → user_pml4 m = cr3 T → mmu_pte m va = P !! va.
Proof. intros M E. unfold mmu_pte. rewrite E. by eapply pte_of_leaf. Qed.

(** The reference count of a mapped frame. *)
Lemma refcount_mapped m L B u va e :
  frames_ok (alloc m) B L → u ∈ L → u.2 !! va = Some e → frame_of e ≠ zero_page (alloc m) →
  ∃ x r, frame_of e = x * 4096 ∧ user_page (alloc m) B x r ∧ Z.of_nat (total L (frame_of e)) ≤ r ∧ 1 ≤ r ∧
    Vma.pmm_user_refcount m (frame_of e) = r.
Proof.
  intros F Hu He Hz. destruct (f_owned _ _ _ F u va e Hu He Hz) as (x & Ex & [(r & Ur & Hr) Ht Hn]).
  pose proof (total_pos L u va e Hu He) as Hp. rewrite Ex in *. exists x, r.
  cbn [Vma.pmm_user_refcount mmu_paging]. rewrite (refcount_user _ _ _ _ (f_pmm _ _ _ F) Ur).
  split_and!; (done || lia).
Qed.

#[export] Program Instance mmu_laws : PagingLaws mmu := {| pg_inv := mmu_inv; pte_at := mmu_pte |}.
Next Obligation.
  intros g va (T & P & X & B & M & Er) Ha Hv. cbn [paging_get_flags mmu_paging].
  rewrite (mmu_pte_leaf g T P X B va M Er), Er. by apply (get_flags_leaf g T P X B).
Qed.
Next Obligation.
  intros g va n (T & P & X & B & M & Er) Ha H0 Hn Ht. cbn [paging_unmap mmu_paging mm_zero_page].
  unfold paging_unmap_in. rewrite Er. destruct (unmap_loop_spec (Z.to_nat n) g T P X B va M Ha H0)
    as (m' & P' & B' & -> & M' & Eu & Ez & Le & Hl); [lia|].
  exists m'. assert (user_pml4 m' = cr3 T) as Er' by congruence.
  split_and!; [done|by exists T, P', X, B'|done| |].
  - intros a Aa. rewrite (mmu_pte_leaf m' T P' X B' a M' Er'), (mmu_pte_leaf g T P X B a M Er), (Hl a Aa).
    by rewrite Z2Nat.id by lia.
  - intros a e Aa He Hz. rewrite (mmu_pte_leaf m' T P' X B' a M' Er') in He. fold (frame_of e) in *. rewrite <- Ez in Hz.
    destruct (refcount_mapped m' _ B' (T, P') a e (proj1 (proj2 M')) ltac:(by left) He Hz) as (x & r & Ex & Ur & _ & H1 & E).
    rewrite E. destruct (Le x r Ur) as (r0 & U0 & Hle). rewrite Ex.
    cbn [Vma.pmm_user_refcount mmu_paging]. rewrite (refcount_user _ _ _ _ (f_pmm _ _ _ (proj1 (proj2 M))) U0). lia.
Qed.
Next Obligation.
  intros g va fl e (T & P & X & B & M & Er) Ha Hv Hu He. rewrite (mmu_pte_leaf g T P X B va M Er) in He.
  cbn [paging_protect mmu_paging mm_zero_page Vma.pmm_user_refcount]. rewrite Er.
  destruct (protect_one g T P X B va fl e M (conj Ha Hv) Hu He) as (m' & -> & Ea & Eu & _ & M').
  exists m'. rewrite Ea. assert (user_pml4 m' = cr3 T) as Er' by congruence.
  split_and!; [done|by eexists T, _, X, B|done|done|]. intros a Aa.
  rewrite (mmu_pte_leaf m' T _ X B a M' Er'), (mmu_pte_leaf g T P X B a M Er). case_decide as E.
  - subst a. by rewrite lookup_insert_eq.
  - by rewrite lookup_insert_ne.
Qed.
