(* ===== verification/PagingMap.v ===== *)
(** * Creating page tables and mapping pages *)

From S2P Require Import Prelude Rbtree Vma Pmm PmmList PmmSpec PmmAlloc Paging PagingSpec.

(** What creating tables leaves alone. *)
Record grows (m : mmu) (T : tables) (B : gmap Z Z) (m' : mmu) (T' : tables) (B' : gmap Z Z) : Prop := Grows {
  gr_root : user_pml4 m' = user_pml4 m;
  gr_zero : zero_page (alloc m') = zero_page (alloc m);
  gr_count : pfn_count (alloc m') = pfn_count (alloc m);
  gr_refs : ∀ y, p_ref <$> pfn_table (alloc m') !! y = p_ref <$> pfn_table (alloc m) !! y;
  gr_old : T ⊆ T';
  gr_new : ∀ p a, T' !! p = Some a → T !! p = Some a ∨ ∃ x, a = x * 4096 ∧ ff B x;
  gr_free : ∀ p, ff B' p → ff B p;
  gr_data : ∀ x i, ¬ ff B x → (∀ p a, T !! p = Some a → a ≠ x * 4096) → rd (x * 4096) i m' = rd (x * 4096) i m
}.

Lemma grows_refl m T B : grows m T B m T B.
Proof. constructor; (done || by left). Qed.

Lemma grows_trans m T B m1 T1 B1 m2 T2 B2 :
  grows m T B m1 T1 B1 → grows m1 T1 B1 m2 T2 B2 → grows m T B m2 T2 B2.
Proof.
  intros [R1 Z1 C1 F1 O1 N1 Fr1 D1] [R2 Z2 C2 F2 O2 N2 Fr2 D2]. constructor; try congruence.
  - by etransitivity.
  - intros p a H. destruct (N2 p a H) as [H1|(x & -> & Hx)]; [by apply N1|]. right. exists x. auto.
  - auto.
  - intros x i Hx Ht. rewrite D2; [by apply D1|by intros ?%Fr1|].
    intros p a Ha. destruct (N1 p a Ha) as [H|(y & -> & Hy)]; [by eapply Ht|]. intros E. by replace x with y in Hx by lia.
Qed.

Lemma user_page_keeps s B s' B' x r :
  user_page s B x r → pfn_count s' = pfn_count s → zero_page s' = zero_page s →
  (∀ y, p_ref <$> pfn_table s' !! y = p_ref <$> pfn_table s !! y) → (∀ p, ff B' p → ff B p) →
  user_page s' B' x r.
Proof.
  intros [H1 H2 H3 H4] Ec Ez Er Hf. constructor; [by rewrite Ec| |by rewrite Ez|by rewrite Er].
  intros H. by apply H2, Hf.
Qed.

Lemma cr3_grows m T B m' T' B' : tree_ok m T → grows m T B m' T' B' → cr3 T' = cr3 T.
Proof.
  intros Tr G. pose proof (lookup_weaken _ _ _ _ (cr3_at _ _ Tr) (gr_old _ _ _ _ _ _ G)) as E.
  unfold cr3 at 1. by rewrite E.
Qed.

Lemma grows_table m T P X B m' T' B' a :
  grows m T B m' T' B' → table_at ((T', P) :: X) a → table_at ((T, P) :: X) a ∨ ∃ x, a = x * 4096 ∧ ff B x.
Proof.
  intros G [[p H]|H]%table_cons; [|left; by apply other_table].
  destruct (gr_new _ _ _ _ _ _ G p a H) as [H1|H1]; [left; by eapply head_table|by right].
Qed.

(** A frame that had references keeps them, and no new table is that frame. *)
Lemma owned_grows m T P X B m' T' B' x n :
  owned (alloc m) B ((T, P) :: X) x n → grows m T B m' T' B' → owned (alloc m') B' ((T', P) :: X) x n.
Proof.
  intros [(r & U & Hr) Ht Hn] G. constructor; [|intros Ha|done].
  - exists r. split; [|done]. destruct G. by eapply user_page_keeps.
  - destruct (grows_table _ _ _ _ _ _ _ _ _ G Ha) as [H|(y & Ey & Hy)]; [done|].
    apply (up_used _ _ _ _ U). by replace x with y by lia.
Qed.

(** ** A new table *)

Lemma snoc_inj (p q : list Z) i j : p ++ [i] = q ++ [j] → p = q ∧ i = j.
Proof. intros E. apply app_inj_tail in E. done. Qed.

Lemma new_tree m T p a i x f :
  tree_ok m T → T !! p = Some a → (length p < 3)%nat → idx_ok p i → T !! (p ++ [i]) = None →
  (∀ q b, T !! q = Some b → b ≠ x * 4096) → 0 ≤ x < 2 ^ 40 → f = 0 ∨ f = PTE_USER →
  let m' := wr a i (Z.lor (Z.lor (Z.lor (x * 4096) PTE_PRESENT) PTE_WRITE) f) (clear_page (x * 4096) m) in
  let T' := <[p ++ [i] := x * 4096]> T in
  tree_ok m' T' ∧ ∀ va, pte_in T' m' va = pte_in T m va.
Proof.
  intros Tr Ha Hl Hi Hn Hx Hw Hf m' T'.
  destruct (table_entry x f Hw Hf) as (E1 & E2 & E3). set (e := Z.lor _ f) in *.
  assert (∀ j, rd (x * 4096) j m' = 0) as R0.
  { intros j. subst m'. rewrite rd_wr, rd_clear, decide_False; [by rewrite decide_True|].
    intros [= E _]. by apply (Hx p a). }
  assert (∀ q b j, T !! q = Some b → rd b j m' = if decide ((q, j) = (p, i)) then e else rd b j m) as R1.
  { intros q b j Hb. subst m'. rewrite rd_wr, rd_clear. rewrite (decide_False (P := b = x * 4096)) by (by eapply Hx).
    apply decide_ext. split; intros [= ? ->]; [|congruence].
    subst b. by rewrite (t_inj _ _ Tr _ _ _ Hb Ha). }
  assert (∀ q, q ≠ p ++ [i] → T' !! q = T !! q) as Tn by (intros; by apply lookup_insert_ne).
  assert (T' !! (p ++ [i]) = Some (x * 4096)) as Te by apply lookup_insert_eq.
  assert (∀ j, T' !! ((p ++ [i]) ++ [j]) = None) as Tc.
  { intros j. rewrite Tn; [by apply (no_child m)|]. intros E. apply (f_equal length) in E.
    rewrite !length_app in E. simpl in E. lia. }
  split.
  - constructor.
    + rewrite Tn; [apply (t_root _ _ Tr)|]. by destruct p.
    + intros q1 q2 b H1%lookup_insert_Some H2%lookup_insert_Some.
      destruct H1 as [[<- Eb1]|[_ H1]], H2 as [[<- Eb2]|[_ H2]]; [done|subst b|subst b|].
      * by destruct (Hx _ _ H2).
      * by destruct (Hx _ _ H1).
      * by eapply t_inj.
    + intros q j b [[E _]|[_ H]]%lookup_insert_Some.
      * apply snoc_inj in E as [-> ->]. rewrite Tn; [by rewrite Ha; split_and!|].
        intros E. apply (f_equal length) in E. rewrite length_app in E. simpl in E. lia.
      * destruct (t_path _ _ Tr _ _ _ H) as ([c Hc] & ? & ?). split_and!; try done.
        apply lookup_insert_is_Some'. right. eauto.
    + intros q b j [[<- <-]|[Hne H]]%lookup_insert_Some Hlq Hij.
      * rewrite Tc. unfold look. by rewrite R0.
      * unfold look. rewrite (R1 q b j H). case_decide as E.
        -- injection E as -> ->. rewrite E1, E2, E3. cbn [negb]. by rewrite Te.
        -- rewrite Tn by (intros [<- <-]%snoc_inj; done). by apply (t_link _ _ Tr q b j).
    + intros q b j [[<- <-]|[Hne H]]%lookup_insert_Some Hlq Hij; [by rewrite R0|].
      rewrite (R1 q b j H). case_decide; [done|]. by apply (t_small _ _ Tr q b j).
  - intros va. unfold pte_in. destruct (decide (path va = p ++ [i])) as [Ep|Ep].
    + rewrite Ep, Te, Hn. simpl. by rewrite R0.
    + rewrite Tn by done. destruct (T !! path va) as [pt|] eqn:E; [|done]. simpl.
      rewrite (R1 _ _ _ E), decide_False; [done|]. intros [= E' _].
      apply (f_equal length) in E'. simpl in E'. lia.
Qed.

(** The accounting after the frame [x] became a table of the head. *)
Lemma frames_new_table m T P X B m' p a i x B' :
  frames_ok (alloc m) B ((T, P) :: X) → pmm_ok (alloc m') B' → T !! p = Some a →
  let T' := <[p ++ [i] := x * 4096]> T in
  grows m T B m' T' B' → ff B x → ¬ ff B' x → 0 ≤ x < pfn_count (alloc m) →
  frames_ok (alloc m') B' ((T', P) :: X).
Proof.
  intros [O W N (z & Ez & Hz1 & Hz2 & Hz3) Tb A U Ow] O' Ha T' G Fx Nx Hx.
  assert (∀ b, table_at ((T', P) :: X) b → b = x * 4096 ∨ table_at ((T, P) :: X) b) as Hta.
  { intros b [[q [[_ <-]|[_ H]]%lookup_insert_Some]|H]%table_cons; [by left|right; by eapply head_table|right; by apply other_table]. }
  constructor.
  - done.
  - by rewrite (gr_count _ _ _ _ _ _ G).
  - intros H. by apply N, (gr_free _ _ _ _ _ _ G).
  - exists z. rewrite (gr_zero _ _ _ _ _ _ G), (gr_count _ _ _ _ _ _ G). split_and!; [done|lia|lia| |].
    + intros H. by apply Hz2, (gr_free _ _ _ _ _ _ G).
    + intros [E|H]%Hta; [|done]. apply Hz2. by replace z with x by lia.
  - rewrite (gr_count _ _ _ _ _ _ G). intros b [->|H]%Hta; [exists x; split_and!; (done || lia)|].
    destruct (Tb b H) as (y & -> & Hy & Hn). exists y. split_and!; [done|lia|lia|].
    intros ?%(gr_free _ _ _ _ _ _ G). done.
  - inversion A as [|? ? H1 H2]; subst. constructor; [|done]. apply Forall_forall. intros u Hu q1 q2 b. cbn [fst].
    intros [[_ <-]|[_ H]]%lookup_insert_Some Hb; [|by eapply (proj1 (Forall_forall _ _) H1 u Hu)].
    destruct (Tb (x * 4096)) as (y & Ey & _ & Hy); [apply other_table; by exists u, q2|].
    apply Hy. by replace y with x by lia.
  - intros u va e [->|Hu]%elem_of_cons He; [by apply (U (T, P) va e); [left|]|]. apply (U u va e); [by right|done].
  - rewrite (gr_zero _ _ _ _ _ _ G). intros u va e Hu He Hz.
    assert (∃ y, frame_of e = y * 4096 ∧ owned (alloc m) B ((T, P) :: X) y (total ((T, P) :: X) (y * 4096)))
      as (y & Ey & Hy).
    { apply elem_of_cons in Hu as [->|Hu]; [by apply (Ow (T, P) va e); [left|..]|].
      apply (Ow u va e); [by right|done|done]. }
    exists y. split; [done|]. by eapply owned_grows.
Qed.

Lemma table_for_spec m T P X B p a i f :
  mmu_ok m ((T, P) :: X) B → T !! p = Some a → (length p < 3)%nat → idx_ok p i →
  f = 0 ∨ f = PTE_USER →
  ∃ r m' T' B', table_for a i true f m = Ok (r, m') ∧ mmu_ok m' ((T', P) :: X) B' ∧ grows m T B m' T' B' ∧
    (r = None ∧ (∀ q, ¬ ff B q) ∨ ∃ b, r = Some b ∧ T' !! (p ++ [i]) = Some b).
Proof.
  intros (Fs & F & C) Ha Hl Hi Hf. pose proof Fs as [[Tr Lv] Fx]%Forall_cons. simpl in Tr, Lv.
  pose proof (t_link _ _ Tr p a i Ha Hl Hi) as Lk.
  pose proof (t_small _ _ Tr p a i Ha Hl Hi) as Sm. unfold look in Lk. unfold table_for.
  destruct (has (rd a i m) PTE_PRESENT) eqn:Hp; cbn [negb] in *.
  { rewrite (Sm eq_refl) in *. eexists _, m, T, B. split; [done|].
    split; [by split_and!|]. split; [apply grows_refl|]. right. eauto. }
  pose proof F as [O W N _ Tb _ _ _]. unfold alloc_table.
  destruct (alloc_spec (alloc m) B 0 O ltac:(unfold PMM_MAX_ORDER; lia)) as [[E Nf]|(x & s' & B' & E & T0)];
    rewrite E; cbn [mbind outcome_bind].
  { eexists None, _, T, B. split; [done|]. split; [destruct m; by split_and!|].
    split; [by destruct m; apply grows_refl|]. left. split; [done|].
    intros q (y & o & By & _). pose proof (Nf _ _ By). pose proof (ok_blocks _ _ O _ _ By) as [? _ _ _]. lia. }
  destruct T0 as [O' [Kc Kz Kd Kr] Ob Hin Hre]. change (2 ^ 0) with 1 in *. pose proof Ob as [_ Hx _ He].
  change (2 ^ 0) with 1 in *. assert (ff B x) as Fr by (apply Hin; lia).
  assert (x ≠ 0) as Nx by (by intros ->). rewrite (proj2 (Z.eqb_neq _ _)) by lia.
  assert (∀ b, table_at ((T, P) :: X) b → b ≠ x * 4096) as Hfresh.
  { intros b Hb. destruct (Tb b Hb) as (y & -> & _ & Hy). intros E'. by replace x with y in Fr by lia. }
  destruct (new_tree (with_alloc s' m) T p a i x f) as [Tr' Lv']; try done.
  { eapply tree_frame; [exact Tr|done]. }
  { intros q b Hb. eapply Hfresh, head_table, Hb. }
  { lia. }
  set (m' := wr _ _ _ _) in *. set (T' := <[p ++ [i] := x * 4096]> T) in *.
  assert (∀ t j, t ≠ x * 4096 → t ≠ a → rd t j m' = rd t j m) as Hrd.
  { intros t j H1 H2. subst m'. rewrite rd_wr, rd_clear, !decide_False; [done|done|]. by intros [= ? _]. }
  assert (grows m T B m' T' B') as G.
  { constructor; try done; [by apply insert_subseteq| | |].
    - intros q b [[_ <-]|[_ H]]%lookup_insert_Some; [right; by exists x|by left].
    - intros q Hq. by apply Hre in Hq as [? _].
    - intros y j Hy Ht. apply Hrd; [|intros E'; by apply (Ht p a Ha)]. intros E'. by replace x with y in Fr by lia. }
  exists (Some (x * 4096)), m', T', B'. split; [done|]. split; [split_and!|split; [done|]].
  - constructor; [split; [done|]; intros va; simpl; rewrite Lv'; apply Lv|].
    eapply trees_frame; [exact Fx|]. intros b j Hb. apply Hrd; [by apply Hfresh, other_table|].
    intros ->. by eapply head_apart.
  - eapply frames_new_table; [exact F|done|exact Ha|done|done| |lia]. rewrite Hre. intros [_ ?]. lia.
  - destruct C as [C Cz]. split.
    + intros y j Hy. apply Hre in Hy as [Hy Hyx]. rewrite Hrd; [by apply C|lia|].
      intros E'. symmetry in E'. revert E'. eapply table_used; [exact F|by eapply head_table|done].
    + intros j. change (zero_page (alloc m')) with (zero_page s'). rewrite Kz.
      destruct (f_zero _ _ _ F) as (z & Ez & _ & Fz & Tz). rewrite Ez in Cz |- *. rewrite Hrd; [apply Cz| |].
      * intros E'. by replace z with x in Fz by lia.
      * intros <-. apply Tz. by eapply head_table.
  - right. exists (x * 4096). split; [done|]. apply lookup_insert_eq.
Qed.

(** ** The descent that creates *)

Lemma descend_spec m T P X B va f :
  mmu_ok m ((T, P) :: X) B → user_va va → f = 0 ∨ f = PTE_USER →
  ∃ r m' T' B', descend (cr3 T) va true f m = Ok (r, m') ∧ mmu_ok m' ((T', P) :: X) B' ∧
    grows m T B m' T' B' ∧ (r = None ∧ (∀ q, ¬ ff B' q) ∨ ∃ b, r = Some b ∧ T' !! path va = Some b).
Proof.
  intros M Hv Hf. destruct (idx_ok_path va Hv) as (I4 & I3 & I2). unfold descend.
  pose proof M as ([[Tr _] _]%Forall_cons & _). simpl in Tr.
  destruct (table_for_spec m T P X B [] (cr3 T) (pml4_idx va) f M (cr3_at _ _ Tr) ltac:(simpl; lia) I4 Hf)
    as (r1 & m1 & T1 & B1 & -> & M1 & G1 & [[-> N1]|(b1 & -> & E1)]); cbn [mbind outcome_bind].
  { exists None, m1, T1, B1. split_and!; try done. left. split; [done|]. intros q Hq. by apply (N1 q), (gr_free _ _ _ _ _ _ G1). }
  simpl in E1.
  destruct (table_for_spec m1 T1 P X B1 [_] b1 (pdpt_idx va) f M1 E1 ltac:(simpl; lia) I3 Hf)
    as (r2 & m2 & T2 & B2 & -> & M2 & G2 & [[-> N2]|(b2 & -> & E2)]); cbn [mbind outcome_bind].
  { exists None, m2, T2, B2. split_and!; try done; [by eapply grows_trans|].
    left. split; [done|]. intros q Hq. by apply (N2 q), (gr_free _ _ _ _ _ _ G2). }
  simpl in E2.
  destruct (table_for_spec m2 T2 P X B2 [_; _] b2 (pd_idx va) f M2 E2 ltac:(simpl; lia) I2 Hf)
    as (r3 & m3 & T3 & B3 & -> & M3 & G3 & HR).
  assert (grows m T B m3 T3 B3) as G by (eapply grows_trans; [exact G1|]; eapply grows_trans; [exact G2|exact G3]).
  exists r3, m3, T3, B3. split_and!; try done. destruct HR as [[-> N3]|HR]; [left|right; exact HR].
  split; [done|]. intros q Hq. by apply (N3 q), (gr_free _ _ _ _ _ _ G3).
Qed.

(** The descent finds the tables that exist. *)
Lemma table_for_hit parent i b f m : look parent i m = Some b → table_for parent i true f m = Ok (Some b, m).
Proof.
  unfold look, table_for. destruct (has _ PTE_PRESENT); [|done]. cbn [negb].
  destruct (has _ PTE_HUGE); [done|]. by intros [= ->].
Qed.

Lemma descend_hit m T va pt f :
  tree_ok m T → user_va va → T !! path va = Some pt → descend (cr3 T) va true f m = Ok (Some pt, m).
Proof.
  intros Tr Hv Hp. pose proof (walk_spec m T va Tr Hv) as W. rewrite Hp in W. unfold walk in W.
  apply bind_Some in W as (a3 & L3 & W). apply bind_Some in W as (a2 & L2 & L1). unfold descend.
  rewrite (table_for_hit _ _ _ _ _ L3). cbn [mbind outcome_bind].
  rewrite (table_for_hit _ _ _ _ _ L2). cbn [mbind outcome_bind]. by apply table_for_hit.
Qed.

(** ** Mapping a page *)

Lemma frames_map s B T P X va v :
  frames_ok s B ((T, P) :: X) → has v PTE_USER = true ∧ has v PTE_HUGE = false →
  (frame_of v ≠ zero_page s →
     ∃ x, frame_of v = x * 4096 ∧ owned s B ((T, P) :: X) x (S (total ((T, P) :: X) (x * 4096)))) →
  frames_ok s B ((T, <[va := v]> P) :: X).
Proof.
  intros F Hu Hv. pose proof (λ pa, refs_delete_le P va pa) as Hle.
  assert (∀ pa, refs (<[va := v]> P) pa = ((if decide (frame_of v = pa) then 1 else 0) + refs (delete va P) pa)%nat) as Hr.
  { intros pa. rewrite <- insert_delete_eq. apply refs_insert, lookup_delete_eq. }
  eapply frames_ptes; [exact F| |].
  - assert (∀ x, x * 4096 ≠ zero_page s → owned s B ((T, P) :: X) x (total ((T, P) :: X) (x * 4096)) ∨ frame_of v = x * 4096 →
      owned s B ((T, P) :: X) x (total ((T, <[va := v]> P) :: X) (x * 4096))) as Hx.
    { intros x Hz Ho. specialize (Hr (x * 4096)). specialize (Hle (x * 4096)). unfold total in *. cbn [sum_list_with snd] in *.
      destruct (decide (frame_of v = x * 4096)) as [Ev|Ev].
      - destruct (Hv ltac:(congruence)) as (y & Ey & [(r & Ur & Hy) Ht Hn]). assert (y = x) as -> by lia.
        constructor; [|done|done]. exists r. split; [done|lia].
      - destruct Ho as [[(r & Ur & Hy) Ht Hn]|?]; [|done]. constructor; [|done|done]. exists r. split; [done|lia]. }
    intros vb eb [[_ <-]|[_ H]]%lookup_insert_Some.
    + split; [done|]. intros Hz. destruct (Hv Hz) as (x & Ex & _). exists x. split; [done|]. apply Hx; [congruence|by right].
    + split; [by eapply (f_user _ _ _ F (T, P)); [left|]|]. intros Hz.
      destruct (f_owned _ _ _ F (T, P) vb eb ltac:(by left) H Hz) as (x & Ex & Ho). exists x. split; [done|].
      apply Hx; [congruence|by left].
  - intros pa. rewrite Hr. case_decide as E; [right; exists va, v; split; [apply lookup_insert_eq|done]|left].
    specialize (Hle pa). lia.
Qed.

(** The frame is the shared zero page or has a reference to give to the PTE. *)
Definition mappable (m : mmu) (L : spaces) (B : gmap Z Z) (pa : Z) : Prop :=
  pa ≠ zero_page (alloc m) → ∃ x, pa = x * 4096 ∧ owned (alloc m) B L x (S (total L pa)).

Definition new_pte (phys fl : Z) : Z := Z.lor (Z.lor (frame_of phys) PTE_PRESENT) fl.

(** Writing the entry once the table is there. *)
Lemma enter_page m T P X B va phys fl pt :
  mmu_ok m ((T, P) :: X) B → user_va va → user_flags fl →
  mappable m ((T, P) :: X) B (frame_of phys) → T !! path va = Some pt →
  mmu_ok (wr pt (pt_idx va) (new_pte phys fl) m) ((T, <[va := new_pte phys fl]> P) :: X) B.
Proof.
  intros (Fs & F & C) Hv Hu Hp E. destruct (page_entry phys fl Hu) as (E1 & E2 & E3).
  fold (frame_of phys) in *. unfold new_pte. set (v := Z.lor _ fl) in *.
  pose proof (write_head m _ B T P X va pt v Fs F Hv E) as Fs1. rewrite E1 in Fs1.
  split_and!; [done| |eapply clean_table; [done|exact F|by eapply head_table]].
  cbn [alloc wr]. apply frames_map; [done|done|]. change (frame_of v) with (Z.land v PTE_ADDR_MASK). rewrite E2.
  intros Hz. destruct (Hp Hz) as (x & Ex & Hx). exists x. split; [done|]. by rewrite <- Ex.
Qed.

Lemma map_hit m T va pt phys fl :
  tree_ok m T → user_va va → T !! path va = Some pt →
  paging_map (cr3 T) va phys 1 fl m = Ok (0, wr pt (pt_idx va) (new_pte phys fl) m).
Proof.
  intros Tr Hv Hp. unfold paging_map. change (Z.to_nat 1) with 1%nat. cbn [map_loop].
  by rewrite (descend_hit m T va pt _ Tr Hv Hp).
Qed.

Lemma map_one m T P X B va phys fl :
  mmu_ok m ((T, P) :: X) B → user_va va → user_flags fl →
  mappable m ((T, P) :: X) B (frame_of phys) →
  ∃ r m' T' P' B', paging_map (cr3 T) va phys 1 fl m = Ok (r, m') ∧ mmu_ok m' ((T', P') :: X) B' ∧
    grows m T B m' T' B' ∧
    (r = - ENOMEM ∧ P' = P ∧ (∀ q, ¬ ff B' q) ∨ r = 0 ∧ P' = <[va := new_pte phys fl]> P).
Proof.
  intros M Hv Hu Hp. unfold paging_map. change (Z.to_nat 1) with 1%nat. cbn [map_loop]. rewrite (proj1 Hu).
  destruct (descend_spec m T P X B va PTE_USER M Hv (or_intror eq_refl))
    as (r & m1 & T1 & B1 & -> & M1 & G & [[-> N]|(pt & -> & E)]); cbn [mbind outcome_bind].
  { exists (- ENOMEM), m1, T1, P, B1. split_and!; try done. by left. }
  eexists 0, _, T1, (<[va := new_pte phys fl]> P), B1. split; [done|]. split_and!.
  - apply enter_page; try done. intros Hz. rewrite (gr_zero _ _ _ _ _ _ G) in Hz.
    destruct (Hp Hz) as (x & Ex & Hx). exists x. split; [done|]. eapply owned_grows in Hx; [|exact G].
    exact Hx.
  - destruct G as [? ? ? ? ? Gn Gf Gd]. constructor; try done. intros x i Hx Ht. rewrite <- (Gd x i Hx Ht).
    fold (new_pte phys fl). rewrite rd_wr, decide_False; [done|]. intros [= <- _].
    destruct (Gn _ _ E) as [H|(y & Ey & Hy)]; [by apply (Ht _ _ H)|]. by replace x with y in Hx by lia.
  - by right.
Qed.

Lemma new_pte_frame x fl : 0 ≤ x < 2 ^ 40 → user_flags fl → frame_of (new_pte (x * 4096) fl) = x * 4096.
Proof.
  intros Hx Hm. unfold new_pte, frame_of. destruct (page_entry (x * 4096) fl Hm) as (_ & -> & _). by apply mask_frame.
Qed.

(** ** A fresh user page *)

Lemma page_frame m B L x r : frames_ok (alloc m) B L → user_page (alloc m) B x r → 0 ≤ x < 2 ^ 40.
Proof. intros F U. pose proof (f_width _ _ _ F). pose proof (up_range _ _ _ _ U). lia. Qed.

Lemma zero_frame m B L : frames_ok (alloc m) B L → frame_of (zero_page (alloc m)) = zero_page (alloc m).
Proof.
  intros F. destruct (f_zero _ _ _ F) as (z & -> & Hz & _). pose proof (f_width _ _ _ F).
  apply mask_frame. lia.
Qed.

(** A frame that was free is mapped nowhere. *)
Lemma free_unmapped s B L x : frames_ok s B L → ff B x → total L (x * 4096) = 0%nat ∧ ¬ table_at L (x * 4096).
Proof.
  intros F Hx. split.
  - assert (∀ u va e, u ∈ L → u.2 !! va = Some e → frame_of e ≠ x * 4096) as Hn.
    { intros u va e Hu He Ee. destruct (f_zero _ _ _ F) as (z & Ez & _ & Fz & _).
      destruct (decide (frame_of e = zero_page s)) as [E|E].
      - apply Fz. by replace z with x by lia.
      - destruct (f_owned _ _ _ F u va e Hu He E) as (y & Ey & [(r & U & _) _ _]). apply (up_used _ _ _ _ U).
        by replace y with x by lia. }
    clear F. unfold total. induction L as [|u L IH]; cbn [sum_list_with]; [done|].
    rewrite IH by (intros; eapply Hn; [by right|done]).
    assert (refs u.2 (x * 4096) = 0%nat) as ->; [|done].
    unfold refs. apply map_size_empty_iff, map_empty. intros va. apply map_lookup_filter_None. right.
    intros e He. simpl. eapply Hn; [by left|done].
  - intros Ht. destruct (f_tables _ _ _ F _ Ht) as (y & Ey & _ & Hy). apply Hy. by replace y with x by lia.
Qed.

(** [pmm_alloc_user_page] as the page tables see it. *)
Lemma alloc_page_spec m L B :
  mmu_ok m L B →
  pmm_alloc_user_page (alloc m) = Ok (0, alloc m) ∧ (∀ p, ¬ ff B p) ∨
  ∃ x m' B', pmm_alloc_user_page (alloc m) = Ok (x * 4096, alloc m') ∧ mmu_ok m' L B' ∧
    user_page (alloc m') B' x 1 ∧ mappable m' L B' (x * 4096) ∧
    m' = with_alloc (alloc m') m ∧ user_pml4 m' = user_pml4 m ∧ x ≠ 0 ∧ ff B x ∧
    zero_page (alloc m') = zero_page (alloc m) ∧ other_refs (alloc m) (alloc m') x ∧
    dirty (alloc m') = dirty (alloc m) ∧ (∀ p, ff B' p ↔ ff B p ∧ p ≠ x) ∧
    pfn_count (alloc m') = pfn_count (alloc m).
Proof.
  intros (Fs & F & C). pose proof F as [O W N (z & Ez & Hz & Fz & Tz) Tb A U Ow].
  assert (¬ ff B (zero_page (alloc m) / 4096)) as Fz' by (by rewrite Ez, Z.div_mul by lia).
  destruct (alloc_user_spec (alloc m) B O N Fz')
    as [[Ea Nf]|(x & s' & B' & Ea & O' & Hx & Fx & F' & Ux & Or & Ed & Ec & Ez')]; [by left|right].
  destruct (free_unmapped _ _ _ _ F Fx) as [T0 Tx].
  exists x, (with_alloc s' m), B'. cbn [alloc with_alloc user_pml4].
  assert (frames_ok s' B' L) as F1.
  { constructor; try done.
    - by rewrite Ec.
    - rewrite F'. naive_solver.
    - exists z. rewrite Ez', Ec, F'. split; [done|]. split; [done|]. split; [naive_solver|done].
    - intros a Ha. destruct (Tb a Ha) as (y & -> & Hy & Hn). exists y. rewrite Ec, F'. naive_solver.
    - intros u va e Hu He Hne. rewrite Ez' in Hne. destruct (Ow u va e Hu He Hne) as (y & Ey & [(r & Uy & Hr) Ht Hn]).
      exists y. split; [done|]. constructor; [|done|done]. exists r. split; [|done].
      eapply (user_page_other (alloc m) B s' B' x); [done| |done..|rewrite F'; naive_solver].
      intros ->. by apply (up_used _ _ _ _ Uy). }
  split_and!; try done; try (apply F'; done).
  - split_and!; [by eapply trees_frame|exact F1|]. destruct C as [C Cz]. split; [|cbn [alloc with_alloc]; by rewrite Ez'].
    intros y i Hy. apply C. by apply F'.
  - intros _. exists x. split; [done|]. constructor; [exists 1; split; [done|]; rewrite T0; lia|done|done].
Qed.
