(* ===== verification/MmSystem.v ===== *)
(** * The memory-management stack put together

    vma.c and mmap.c run on the page tables of paging.c, which take their
    frames from pmm.c.  The theorems about vma.c and mmap.c are stated for any
    page tables that keep the laws of [PagingLaws]; [mmu_laws] shows that
    paging.c keeps them, so every theorem holds of the whole stack.  The
    examples run on the machine of PmmSystem.v. *)

From S2P Require Import Prelude Rbtree RbtreeRep RbtreeInsert RbtreeErase Vma VmaSpec.
From S2P Require Import VmaRange Mmap MmapSpec Pmm PmmList PmmSpec PmmAlloc PmmInit PmmSystem.
From S2P Require Import Paging PagingSpec PagingMap.

(** ** A machine with one address space *)

(** An address space with an empty user half, [root] a zeroed page. *)
Lemma new_space_ok s B x z k :
  pmm_ok s B → pfn_count s ≤ 2 ^ 40 → ¬ ff B 0 → 0 ≤ x < pfn_count s → ¬ ff B x →
  zero_page s = z * 4096 → 0 ≤ z < pfn_count s → ¬ ff B z → z ≠ x →
  mmu_ok (Mmu ∅ s (x * 4096) k) [({[[] := x * 4096]}, ∅)] B.
Proof.
  intros O W N Hx Hf Ez Hz Fz Hne.
  assert (∀ a, table_at [({[[] := x * 4096]}, ∅)] a → a = x * 4096) as Ht.
  { intros a [[p [_ <-]%lookup_singleton_Some]|(u & _ & []%not_elem_of_nil & _)]%table_cons. done. }
  split_and!; [..|done].
  - constructor; [|by constructor]. split; [constructor|]; simpl.
    + by rewrite lookup_singleton_eq.
    + intros p q a [<- _]%lookup_singleton_Some [<- _]%lookup_singleton_Some. done.
    + intros p i a [E _]%lookup_singleton_Some. by destruct p.
    + intros p a i [<- <-]%lookup_singleton_Some _ _. simpl. by rewrite lookup_singleton_ne.
    + intros p a i [<- <-]%lookup_singleton_Some _ _ H. done.
    + intros va. simpl. rewrite lookup_empty. case_decide; [|done]. unfold pte_in, path.
      by rewrite lookup_singleton_ne.
  - cbn [alloc]. constructor; try done.
    + exists z. split; [done|]. split; [lia|]. split; [done|]. intros E%Ht. lia.
    + intros a ->%Ht. exists x. split; [done|]. by split.
    + repeat constructor.
    + by intros u va e ->%list_elem_of_singleton.
    + by intros u va e ->%list_elem_of_singleton.
Qed.

(** Boot the machine and take a frame for the PML4. *)
Definition boot : outcome mmu :=
  s ← pmm_init demo_map ∅;
  '(pa, s) ← pmm_alloc_pages 0 s;
  Ok (Mmu ∅ s pa 0).

(** The tables of the booted address space. *)
Definition boot_tab (m : mmu) : tables := {[[] := user_pml4 m]}.

Lemma boot_root m : user_pml4 m = cr3 (boot_tab m).
Proof. unfold cr3, boot_tab. by rewrite lookup_singleton_eq. Qed.

Lemma demo_pfns : highest_end demo_map / 4096 = 0x20.
Proof. vm_compute. done. Qed.

Lemma boot_ok : ∃ m B, boot = Ok m ∧ mmu_ok m [(boot_tab m, ∅)] B ∧
  frame_of (zero_page (alloc m)) = zero_page (alloc m).
Proof.
  unfold boot. destruct (init_spec demo_map ∅ 0x1000 demo_left 2 demo_map_ok demo_carve) as
    (s & B & zp & E & O & Ec & Hz & Hzp & Fz & Huz & _ & Hf); [done|apply demo_frame; lia|].
  rewrite E. clear E. cbn [mbind outcome_bind].
  assert (pfn_count s ≤ 2 ^ 40) as W by (rewrite Ec, demo_pfns; lia).
  assert (¬ ff B 0) as H0.
  { rewrite Hf. intros ((e & Hin & Hu & H1 & H2) & _). unfold demo_map, entry_end in *. set_unfold in Hin.
    clear -Hin Hu H1 H2.
    destruct Hin as [->|[->|[->|[]]]]; cbn [m_base m_length m_usable] in *; (discriminate || lia). }
  assert (¬ ff B zp) as H1 by (rewrite Hf; intros (_ & _ & N); by apply N).
  destruct (alloc_spec s B 0 O ltac:(unfold PMM_MAX_ORDER; lia)) as [[_ N]|(x & s' & B' & -> & T)].
  { exfalso. set (p := if decide (zp = 3) then 4 else 3).
    assert (ff B p) as (y & o & By & _).
    { rewrite Hf. change (table_bytes demo_map) with 0x1000. split; [|subst p; case_decide; split; lia].
      exists (MemEntry 0x1000 0x1f000 true). split; [unfold demo_map; set_solver|]. split; [done|].
      unfold frame_in, entry_end. cbn [m_base m_length]. subst p. case_decide; lia. }
    pose proof (N _ _ By). pose proof (ok_blocks _ _ O _ _ By) as [? _ _ _]. lia. }
  cbn [mbind outcome_bind]. destruct T as [O' [Kc Kz Kd Kr] Ob Hin Hre]. change (2 ^ 0) with 1 in *.
  pose proof Ob as [_ Hx _ He]. change (2 ^ 0) with 1 in *.
  assert (0 ≤ zp < 2 ^ 40 ∧ 0 ≤ zp < pfn_count s) as [Z1 Z2].
  { destruct Huz as (e & Hie & Hu & H2 & H3). unfold demo_left, entry_end in *. rewrite Ec.
    set_unfold in Hie. clear -Hie Hu H2 H3 Hzp.
    destruct Hie as [->|[->|[->|[]]]]; cbn [m_base m_length m_usable] in *; (discriminate || (rewrite demo_pfns; lia)). }
  exists (Mmu ∅ s' (x * 4096) 0), B'. split; [done|]. cbn [user_pml4 alloc]. split.
  - apply (new_space_ok s' B' x zp); rewrite ?Kc, ?Kz, ?Hre; [done|done|by intros [? _]|lia| |done|lia|by intros [? _]|].
    + intros [_ ?]. lia.
    + intros ->. apply H1, Hin. lia.
  - rewrite Kz, Hz. by apply mask_frame.
Qed.

(** One process mapping of four pages, readable and writable. *)
Definition demo_vma : vma := Vma 0x10000 0x14000 11.

Definition demo_space (m : mmu) : addr_space mmu :=
  AddrSpace (RbHeap {[1%positive := RbNode None None None RB_BLACK]} (Some 1%positive))
    {[1%positive := demo_vma]} (replicate 8 true) MMAP_BASE m.

Definition demo_vmas : vlist := [(1%positive, demo_vma)].

Lemma demo_wf m : wf (demo_space m) demo_vmas.
Proof.
  constructor.
  - exists (Node RB_BLACK Leaf 1%positive Leaf). split_and!; [|split; [done|exists 1%nat; simpl; naive_solver]|done].
    constructor; cbn [as_rb demo_space root nodes]; [done|by split_and!|by apply NoDup_singleton|done].
  - by repeat constructor.
  - repeat constructor; simpl; done.
  - repeat constructor.
Qed.

Lemma demo_space_ok m B : mmu_ok m [(boot_tab m, ∅)] B → space_ok (demo_space m) demo_vmas.
Proof.
  intros M. pose proof (boot_root m) as Er.
  assert (∀ a, pte_at (as_pg (demo_space m)) a = None) as He.
  { intros a. cbn [pte_at mmu_laws as_pg demo_space]. by rewrite (mmu_pte_leaf m _ ∅ [] B a M Er), lookup_empty. }
  constructor.
  - apply demo_wf.
  - by exists (boot_tab m), ∅, [], B.
  - split; [done|]. cbn [as_mmap_base demo_space]. unfold MMAP_BASE. lia.
  - intros a e _ H. by rewrite He in H.
  - intros a e _ H. by rewrite He in H.
  - intros a f Hf. apply flags_at_Some in Hf as (p & ->%list_elem_of_singleton & _ & <-);
      [|repeat constructor|repeat constructor; simpl; done]. vm_compute. by intros [_ ?].
Qed.

(** ** The VMA tree *)

(** In a well-formed address space vma_find returns the VMA that contains the
    address, and NULL exactly when none does. *)
Theorem vma_find_correct {pg : Type} `{!Paging pg} (s : addr_space pg) l a :
  wf s l →
  ∃ p, vma_find a s = Ok p ∧ (∀ i, p = Some i ↔ ∃ v, (i, v) ∈ l ∧ contains v a) ∧
    (p = None ↔ ∀ q, q ∈ l → ¬ contains q.2 a).
Proof.
  intros W. rewrite (vma_find_spec s l a W). eexists. split; [done|]. split.
  - intros i. rewrite fmap_Some. split.
    + intros ([j v] & E & ->). exists v. by apply vlookup_Some in E; [|apply W..].
    + intros (v & H). exists (i, v). split; [|done]. by apply vlookup_Some; [apply W..|].
  - rewrite fmap_None. apply vlookup_None.
Qed.

Lemma vma_find_correct_witness : ∃ p, vma_find 0x12345 (demo_space (Mmu ∅ (Pmm ∅ 0 ∅ empty_stats 0 ∅) 0 0)) = Ok p ∧
  p = Some 1%positive.
Proof.
  destruct (vma_find_correct (demo_space (Mmu ∅ (Pmm ∅ 0 ∅ empty_stats 0 ∅) 0 0)) demo_vmas 0x12345 (demo_wf _))
    as (p & E & H & _).
  exists p. split; [exact E|]. apply H. exists demo_vma. split; [by constructor|]. split; vm_compute; done.
Defined.

(** Vma_insert links a VMA that overlaps no other at its place in address
    order and keeps the tree well formed; a VMA that overlaps one is refused
    with -EEXIST and nothing changes. *)
Theorem vma_insert_correct {pg : Type} `{!Paging pg} (s : addr_space pg) l x v :
  wf s l → as_vma s !! x = Some v → vma_ok v → x ∉ l.*1 →
  (∃ h l1 l2, vma_insert x s = Ok (0, with_rb h s) ∧ l = l1 ++ l2 ∧
     Forall (λ p, ¬ overlaps p.2 v) l ∧ wf (with_rb h s) (l1 ++ (x, v) :: l2)) ∨
  (vma_insert x s = Ok (- EEXIST, s) ∧ Exists (λ p, overlaps p.2 v) l).
Proof. apply vma_insert_spec. Qed.

(** The demo space with a second VMA object, not yet in the tree. *)
Definition demo_pending : addr_space mmu :=
  AddrSpace (RbHeap {[1%positive := RbNode None None None RB_BLACK]} (Some 1%positive))
    {[1%positive := demo_vma; 2%positive := Vma 0x20000 0x21000 9]} [] MMAP_BASE
    (Mmu ∅ (Pmm ∅ 0 ∅ empty_stats 0 ∅) 0 0).

Lemma demo_pending_wf : wf demo_pending demo_vmas.
Proof.
  destruct (demo_wf (as_pg demo_pending)) as [T D O S]. constructor; [exact T| |exact O|exact S].
  by repeat constructor.
Qed.

Lemma vma_insert_correct_witness :
  (∃ h l1 l2, vma_insert 2%positive demo_pending = Ok (0, with_rb h demo_pending) ∧ demo_vmas = l1 ++ l2 ∧
     Forall (λ p, ¬ overlaps p.2 (Vma 0x20000 0x21000 9)) demo_vmas ∧
     wf (with_rb h demo_pending) (l1 ++ (2%positive, Vma 0x20000 0x21000 9) :: l2)) ∨
  (vma_insert 2%positive demo_pending = Ok (- EEXIST, demo_pending) ∧
   Exists (λ p, overlaps p.2 (Vma 0x20000 0x21000 9)) demo_vmas).
Proof.
  apply (vma_insert_correct demo_pending demo_vmas 2%positive (Vma 0x20000 0x21000 9)).
  - apply demo_pending_wf.
  - done.
  - constructor; done.
  - by intros ?%list_elem_of_singleton.
Defined.

(** Vma_split_at refuses a boundary outside the VMA or off a page with
    -EINVAL; otherwise it fails with -ENOMEM and leaves the mappings as they
    were, or replaces the VMA by its two halves. *)
Theorem vma_split_correct {pg : Type} `{!Paging pg} (s : addr_space pg) l1 x n l2 b :
  wf s (l1 ++ (x, n) :: l2) →
  (¬ (v_start n < b < v_end n) ∨ ¬ page_aligned b →
   vma_split_at x b s = Ok (- EINVAL, None, s)) ∧
  (v_start n < b < v_end n → page_aligned b →
   (∃ s', vma_split_at x b s = Ok (- ENOMEM, None, s') ∧ out_of_memory s ∧ same_env s s' ∧
          wf s' (l1 ++ (x, n) :: l2)) ∨
   (∃ u s', vma_split_at x b s = Ok (0, Some u, s') ∧ as_kmem s = true :: as_kmem s' ∧ same_env s s' ∧
            wf s' (l1 ++ (x, lower b n) :: (u, upper b n) :: l2))).
Proof. apply vma_split_spec. Qed.

Lemma vma_split_correct_witness :
  vma_split_at 1%positive 0x12800 demo_pending = Ok (- EINVAL, None, demo_pending).
Proof.
  apply (vma_split_correct demo_pending [] 1%positive demo_vma [] 0x12800 demo_pending_wf). right.
  unfold page_aligned. vm_compute. done.
Defined.

(** Vma_find_gap_top_down returns the highest page-aligned address below the
    ceiling where [size] bytes are unmapped, or 0 when there is none; an empty
    address space needs [size] below the wrap-around of [floor + size]. *)
Theorem vma_find_gap_correct {pg : Type} `{!Paging pg} (s : addr_space pg) l size ceiling :
  wf s l → l ≠ [] ∨ PAGE_SIZE + size < 2 ^ 64 →
  0 < size < 2 ^ 64 → page_aligned size → 0 ≤ ceiling < 2 ^ 64 →
  ∃ r, vma_find_gap_top_down size ceiling s = Ok r ∧
    (r = 0 ∧ (∀ x, ¬ gap l size ceiling x) ∨
     gap l size ceiling r ∧ ∀ x, gap l size ceiling x → x ≤ r).
Proof. apply find_gap_spec. Qed.

Lemma vma_find_gap_correct_witness :
  ∃ r, vma_find_gap_top_down 0x3000 0x15000 demo_pending = Ok r ∧
    (r = 0 ∧ (∀ x, ¬ gap demo_vmas 0x3000 0x15000 x) ∨
     gap demo_vmas 0x3000 0x15000 r ∧ ∀ x, gap demo_vmas 0x3000 0x15000 x → x ≤ r).
Proof.
  apply vma_find_gap_correct; [apply demo_pending_wf|by left|lia|done|lia].
Defined.

(** The wrap-around on an empty address space: the result is above the
    ceiling. *)
Example gap_wraps :
  vma_find_gap_top_down (2 ^ 64 - 0x1000) MMAP_BASE
    (AddrSpace (RbHeap ∅ None) ∅ [] MMAP_BASE (Mmu ∅ (Pmm ∅ 0 ∅ empty_stats 0 ∅) 0 0)) = Ok (MMAP_BASE + 0x1000).
Proof. vm_compute. done. Qed.

Section Syscalls.
Context {pg : Type} `{PagingLaws pg}.
Implicit Types s : addr_space pg.

(** Vma_remove_range either runs out of memory while splitting and changes
    no mapping and no page, or removes exactly the part of every mapping that
    lies in the range, with its pages, and keeps the rest. *)
Theorem vma_remove_range_correct s l a b :
  wf s l → pg_inv (as_pg s) → 0 ≤ a < b → b < 2 ^ 64 → page_aligned a → page_aligned b →
  (∃ s' l', vma_remove_range true a b s = Ok (- ENOMEM, s') ∧ split_fails a b l s ∧ same_env s s' ∧ wf s' l' ∧
     same_view l l') ∨
  (∃ s' l', vma_remove_range true a b s = Ok (0, s') ∧ range_removed a b s l s' l').
Proof. apply remove_range_spec. Qed.

(** C37: munmap rejects an unaligned address, an empty or wrapping length and a
    range past the user half with -EINVAL, and gives -ENOMEM only when a mapping has to be split at an
    end of the range and the new VMA cannot be allocated,
    changing nothing a process can see; otherwise it returns 0, no address of
    the range is mapped or has a page any more, and every other address keeps
    its protection and its page. *)
Theorem sys_munmap_correct s l addr length :
  space_ok s l → in_u64 addr → in_u64 length →
  let len := page_align_up length in
  rejected (- EINVAL) s l (sys_munmap addr length (Some s)) ∧
    (¬ page_aligned addr ∨ len = 0 ∨ USER_TOP < addr + len) ∨
  rejected (- ENOMEM) s l (sys_munmap addr length (Some s)) ∧ split_fails addr (addr + len) l s ∨
  ∃ s' l', sys_munmap addr length (Some s) = Ok (0, Some s') ∧ space_ok s' l' ∧
    page_aligned addr ∧ 0 < len ∧ addr + len ≤ USER_TOP ∧
    remapped addr (addr + len) None s l s' l'.
Proof. apply munmap_spec. Qed.


(** Mmap with MAP_FIXED replaces whatever the range held by the new mapping.
    It fails with -EINVAL exactly on bad arguments, address or range; when
    memory runs out it returns -ENOMEM, either before anything changed or
    after the old mappings of the range were removed. *)
Theorem sys_mmap_fixed_correct s l addr length prot flags :
  space_ok s l → in_u64 addr → in_u64 length → has (u32 flags) MAP_FIXED = true →
  let len := page_align_up length in
  let res := sys_mmap addr length prot flags (-1) 0 (Some s) in
  rejected (- EINVAL) s l res ∧
    (mmap_args length (u32 prot) (u32 flags) = false ∨ ¬ page_aligned addr ∨
     addr < PAGE_SIZE ∨ USER_TOP < addr + len) ∨
  rejected (- ENOMEM) s l res ∨
  page_aligned addr ∧ PAGE_SIZE ≤ addr ∧ addr + len ≤ USER_TOP ∧
  ∃ r s' l', res = Ok (r, Some s') ∧ space_ok s' l' ∧
    (r = - ENOMEM ∧ remapped addr (addr + len) None s l s' l' ∨
     r = addr ∧ remapped addr (addr + len) (Some (prot_to_vma (u32 prot))) s l s' l').
Proof. apply mmap_fixed_spec. Qed.

(** Mprotect gives every mapped address of the range the new protection and
    rewrites its present pages: a page becomes writable exactly when the
    protection allows it and its frame is neither the shared zero page nor
    shared copy-on-write, executable exactly when the protection allows it.
    Writable and executable together, an unaligned address and a bad range are
    refused with -EINVAL. *)
Theorem sys_mprotect_correct s l addr length prot :
  space_ok s l → in_u64 addr → in_u64 length →
  let len := page_align_up length in
  let nf := prot_to_vma (u32 prot) in
  let res := sys_mprotect addr length prot (Some s) in
  rejected (- EINVAL) s l res ∧
    (has prot PROT_WRITE = true ∧ has prot PROT_EXEC = true ∨
     ¬ page_aligned addr ∨ len = 0 ∨ USER_TOP < addr + len) ∨
  rejected (- ENOMEM) s l res ∨
  ∃ s' l', res = Ok (0, Some s') ∧ space_ok s' l' ∧ protected addr (addr + len) nf s l s' l' ∧
    ∀ x e, page_aligned x → addr ≤ x < addr + len → pte_at (as_pg s) x = Some e →
      ∃ e', pte_at (as_pg s') x = Some e' ∧
        has e' PTE_WRITE = has nf VMA_WRITE && negb ((Z.land e PTE_ADDR_MASK =? mm_zero_page (as_pg s)) ||
          (Vma.pmm_user_refcount (as_pg s) (Z.land e PTE_ADDR_MASK) >? 1)) ∧
        has e' PTE_NX = negb (has nf VMA_EXEC).
Proof.
  intros O Ha Hl len nf res.
  destruct (mprotect_spec s l addr length prot O Ha Hl) as [R|[R|(s' & l' & E & O' & Pr)]]; [by left|by right; left|].
  right. right. exists s', l'. split_and!; try done. intros x e Ax Hx He. destruct Pr as (_ & Pr & _).
  exists (reprotect nf (as_pg s) e). rewrite (Pr x Ax), decide_True by done. rewrite He. split; [done|].
  apply reprotect_bits.
Qed.

(** ** Sequences of calls *)

(** Any system call of mmap.c with arguments a program can pass, but for the one rounded length with
    which [gap_wraps] in mmap. *)
Definition mmap_length (length : Z) : Prop := in_u64 length ∧ page_align_up length ≠ 2 ^ 64 - PAGE_SIZE.

Inductive space_step : addr_space pg → addr_space pg → Prop :=
| step_mmap s addr length prot flags fd offset r s' :
    in_u64 addr → mmap_length length →
    sys_mmap addr length prot flags fd offset (Some s) = Ok (r, Some s') → space_step s s'
| step_munmap s addr length r s' :
    in_u64 addr → in_u64 length →
    sys_munmap addr length (Some s) = Ok (r, Some s') → space_step s s'
| step_mprotect s addr length prot r s' :
    in_u64 addr → in_u64 length →
    sys_mprotect addr length prot (Some s) = Ok (r, Some s') → space_step s s'.

Definition completes s (res : outcome (Z * option (addr_space pg))) : Prop :=
  ∃ r s' l', res = Ok (r, Some s') ∧ space_ok s' l'.

Lemma rejected_completes err s l res : rejected err s l res → completes s res.
Proof. intros (s' & l' & E & O & _). by exists err, s', l'. Qed.

Lemma munmap_completes s l addr length :
  space_ok s l → in_u64 addr → in_u64 length → completes s (sys_munmap addr length (Some s)).
Proof.
  intros O Ha Hl. destruct (munmap_spec s l addr length O Ha Hl) as [[R _]|[[R _]|(s' & l' & E & O' & _)]];
    [by eapply rejected_completes..|by exists 0, s', l'].
Qed.

Lemma mprotect_completes s l addr length prot :
  space_ok s l → in_u64 addr → in_u64 length → completes s (sys_mprotect addr length prot (Some s)).
Proof.
  intros O Ha Hl. destruct (mprotect_spec s l addr length prot O Ha Hl) as [[R _]|[R|(s' & l' & E & O' & _)]];
    [by eapply rejected_completes..|by exists 0, s', l'].
Qed.

Lemma mmap_completes s l addr length prot flags fd offset :
  space_ok s l → in_u64 addr → mmap_length length →
  completes s (sys_mmap addr length prot flags fd offset (Some s)).
Proof.
  intros O Ha [Hl' Hl].
  destruct (decide (fd = -1 ∧ offset = 0)) as [[-> ->]|Hne].
  2:{ exists (- EINVAL), s, l. split; [|done]. unfold sys_mmap.
      by replace (negb (fd =? -1) || negb (offset =? 0)) with true by lia. }
  destruct (has (u32 flags) MAP_FIXED) eqn:Hf.
  - destruct (mmap_fixed_spec s l addr length prot flags O Ha Hl' Hf)
      as [[R _]|[R|(_ & _ & _ & r & s' & l' & E & O' & _)]];
      [by eapply rejected_completes..|by exists r, s', l'].
  - destruct (mmap_anywhere_spec s l addr length prot flags O Hl' Hf)
      as [[R _]|[[R _]|(r & s' & l' & E & O' & _)]]; [|by eapply rejected_completes..|by exists r, s', l'].
    right. destruct (page_align_up_spec length Hl') as [->|(_ & ? & ? & A)]; [done|]. unfold PAGE_SIZE, page_aligned in *.
    pose proof (Z.div_mod (page_align_up length) 4096 ltac:(lia)). lia.
Qed.

Lemma space_step_ok s l s' : space_ok s l → space_step s s' → ∃ l', space_ok s' l'.
Proof.
  intros O St.
  assert (∀ res r, completes s res → res = Ok (r, Some s') → ∃ l1, space_ok s' l1) as Hc.
  { intros res r (r' & s2 & l2 & -> & O2) [= _ <-]. by exists l2. }
  destruct St as [s addr length prot flags fd offset r s1 Ha Hl E|s addr length r s1 Ha Hl E|s addr length prot r s1 Ha Hl E];
    (eapply Hc; [|exact E]).
  - by eapply mmap_completes.
  - by eapply munmap_completes.
  - by eapply mprotect_completes.
Qed.

End Syscalls.

(** ** The theorems on the booted machine *)

Lemma vma_remove_range_correct_witness : ∃ m, boot = Ok m ∧
  ((∃ s' l', vma_remove_range true 0x11000 0x12000 (demo_space m) = Ok (- ENOMEM, s') ∧
      split_fails 0x11000 0x12000 demo_vmas (demo_space m) ∧ same_env (demo_space m) s' ∧ wf s' l' ∧ same_view demo_vmas l') ∨
   (∃ s' l', vma_remove_range true 0x11000 0x12000 (demo_space m) = Ok (0, s') ∧
      range_removed 0x11000 0x12000 (demo_space m) demo_vmas s' l')).
Proof.
  destruct boot_ok as (m & B & E & M & _). exists m. split; [exact E|]. clear E.
  apply vma_remove_range_correct; try lia; [apply demo_wf| |done|done].
  exists (boot_tab m), ∅, [], B. split; [exact M|apply boot_root].
Defined.

Lemma sys_munmap_correct_witness : ∃ m, boot = Ok m ∧
  let s := demo_space m in
  (rejected (- EINVAL) s demo_vmas (sys_munmap 0x11000 0x1000 (Some s)) ∧
     (¬ page_aligned 0x11000 ∨ 0x1000 = 0 ∨ USER_TOP < 0x11000 + 0x1000) ∨
   rejected (- ENOMEM) s demo_vmas (sys_munmap 0x11000 0x1000 (Some s)) ∧ split_fails 0x11000 (0x11000 + 0x1000) demo_vmas s ∨
   ∃ s' l', sys_munmap 0x11000 0x1000 (Some s) = Ok (0, Some s') ∧ space_ok s' l' ∧
     page_aligned 0x11000 ∧ 0 < 0x1000 ∧ 0x11000 + 0x1000 ≤ USER_TOP ∧
     remapped 0x11000 (0x11000 + 0x1000) None s demo_vmas s' l').
Proof.
  destruct boot_ok as (m & B & E & M & _). exists m. split; [exact E|]. clear E.
  apply (sys_munmap_correct (demo_space m) demo_vmas 0x11000 0x1000 (demo_space_ok _ _ M));
    unfold in_u64; lia.
Defined.


Lemma sys_mmap_fixed_correct_witness : ∃ m, boot = Ok m ∧
  let s := demo_space m in
  let res := sys_mmap 0x12000 0x1000 1 0x32 (-1) 0 (Some s) in
  (rejected (- EINVAL) s demo_vmas res ∧
    (mmap_args 0x1000 1 0x32 = false ∨ ¬ page_aligned 0x12000 ∨
     0x12000 < PAGE_SIZE ∨ USER_TOP < 0x12000 + 0x1000) ∨
  rejected (- ENOMEM) s demo_vmas res ∨
  page_aligned 0x12000 ∧ PAGE_SIZE ≤ 0x12000 ∧ 0x12000 + 0x1000 ≤ USER_TOP ∧
  ∃ r s' l', res = Ok (r, Some s') ∧ space_ok s' l' ∧
    (r = - ENOMEM ∧ remapped 0x12000 (0x12000 + 0x1000) None s demo_vmas s' l' ∨
     r = 0x12000 ∧ remapped 0x12000 (0x12000 + 0x1000) (Some 9) s demo_vmas s' l')).
Proof.
  destruct boot_ok as (m & B & E & M & _). exists m. split; [exact E|]. clear E.
  apply (sys_mmap_fixed_correct (demo_space m) demo_vmas 0x12000 0x1000 1 0x32 (demo_space_ok _ _ M));
    [unfold in_u64; lia|unfold in_u64; lia|done].
Defined.

Lemma sys_mprotect_correct_witness : ∃ m, boot = Ok m ∧
  let s := demo_space m in
  let res := sys_mprotect 0x11000 0x2000 1 (Some s) in
  (rejected (- EINVAL) s demo_vmas res ∨ rejected (- ENOMEM) s demo_vmas res ∨
   ∃ s' l', res = Ok (0, Some s') ∧ space_ok s' l' ∧ protected 0x11000 0x13000 9 s demo_vmas s' l').
Proof.
  destruct boot_ok as (m & B & E & M & _). exists m. split; [exact E|]. clear E. intros s res.
  destruct (sys_mprotect_correct s demo_vmas 0x11000 0x2000 1 (demo_space_ok _ _ M))
    as [[R _]|[R|(s' & l' & E & O & P & _)]];
    [unfold in_u64; lia|unfold in_u64; lia|by left|by right; left|].
  right. right. exists s', l'. exact (conj E (conj O P)).
Defined.

(** ** Page tables *)

(** Mapping a user page either fails with -ENOMEM, only when no frame is left
    for a page table, or enters exactly the requested entry; no other user
    page of this or of any other address space changes, paging_get_flags reads
    the entry back and the tables stay well formed. *)
Theorem paging_map_correct m T P X B va phys fl :
  mmu_ok m ((T, P) :: X) B → user_va va → user_flags fl →
  mappable m ((T, P) :: X) B (frame_of phys) →
  let e := Z.lor (Z.lor (frame_of phys) PTE_PRESENT) fl in
  ∃ r m' T' P' B', paging_map (cr3 T) va phys 1 fl m = Ok (r, m') ∧ mmu_ok m' ((T', P') :: X) B' ∧
    others_same X m m' ∧
    (r = - ENOMEM ∧ (∀ q, ¬ ff B' q) ∧ (∀ a, pte_of (cr3 T) m' a = pte_of (cr3 T) m a) ∨
     r = 0 ∧ paging_get_flags_in (cr3 T) va m' = (0, e) ∧
     ∀ a, pte_of (cr3 T) m' a = if decide (a = va) then Some e else pte_of (cr3 T) m a).
Proof.
  intros M Hv Hu Hp e. destruct (map_one m T P X B va phys fl M Hv Hu Hp)
    as (r & m' & T' & P' & B' & E & M' & G & C). exists r, m', T', P', B'.
  pose proof M as ([[Tr _] _]%Forall_cons & _). simpl in Tr. pose proof (cr3_grows _ _ _ _ _ _ Tr G) as Ec.
  assert (∀ a, pte_of (cr3 T) m' a = P' !! a) as E' by (intros a; rewrite <- Ec; by eapply pte_of_leaf).
  split_and!; [done|done|by eapply others_kept|].
  destruct C as [(-> & -> & N)|(-> & ->)]; [left|right]; (split; [done|]).
  - split; [done|]. intros a. by rewrite E', (pte_of_leaf m T P X B a M).
  - split.
    + rewrite <- Ec, (get_flags_leaf m' T' _ X B' va M' Hv). by rewrite lookup_insert_eq.
    + intros a. rewrite E', (pte_of_leaf m T P X B a M).
      case_decide as Ea; [subst; by rewrite lookup_insert_eq|by rewrite lookup_insert_ne].
Qed.

(** The zero page, read-only and not executable, at 0x400000. *)
Lemma paging_map_correct_witness : ∃ m r m' T' P' B', boot = Ok m ∧
  paging_map (user_pml4 m) 0x400000 (zero_page (alloc m)) 1 (PTE_USER + PTE_NX) m = Ok (r, m') ∧
  mmu_ok m' [(T', P')] B'.
Proof.
  destruct boot_ok as (m & B & E & M & Hz).
  enough (∃ r m' T' P' B',
    paging_map (user_pml4 m) 0x400000 (zero_page (alloc m)) 1 (PTE_USER + PTE_NX) m = Ok (r, m') ∧
    mmu_ok m' [(T', P')] B') as (r & m' & T' & P' & B' & H) by (exists m, r, m', T', P', B'; exact (conj E H)). clear E.
  destruct (paging_map_correct m _ ∅ [] B 0x400000 (zero_page (alloc m)) (PTE_USER + PTE_NX) M)
    as (r & m' & T' & P' & B' & Em & M' & _); [by split|by split|by intros Hn; rewrite Hz in Hn|].
  exists r, m', T', P', B'. rewrite boot_root. exact (conj Em M').
Defined.

(** Unmapping a range of user pages always succeeds: it removes exactly the
    entries of the range from this address space and none from another, drops
    one reference per entry without ever underflowing a count, and keeps the
    tables and the allocator well formed. *)
Theorem paging_unmap_correct m T P X B va n :
  mmu_ok m ((T, P) :: X) B → page_aligned va → 0 ≤ va → 0 ≤ n → va + n * 4096 ≤ USER_TOP →
  ∃ m' P' B', paging_unmap_in (cr3 T) va n m = Ok m' ∧ mmu_ok m' ((T, P') :: X) B' ∧ others_same X m m' ∧
    ∀ a, page_aligned a →
      pte_of (cr3 T) m' a = if decide (va ≤ a < va + n * 4096) then None else pte_of (cr3 T) m a.
Proof.
  intros M Ha H0 Hn Ht. unfold paging_unmap_in.
  destruct (unmap_loop_spec (Z.to_nat n) m T P X B va M Ha H0) as (m' & P' & B' & -> & M' & _ & _ & _ & Hl); [lia|].
  exists m', P', B'. split_and!; [done|done|by eapply others_kept|]. intros a Aa.
  rewrite (pte_of_leaf m' T P' X B' a M'), (pte_of_leaf m T P X B a M), (Hl a Aa). by rewrite Z2Nat.id by lia.
Qed.

Lemma paging_unmap_correct_witness : ∃ m m' T P' B', boot = Ok m ∧
  paging_unmap_in (user_pml4 m) 0x400000 16 m = Ok m' ∧ mmu_ok m' [(T, P')] B'.
Proof.
  destruct boot_ok as (m & B & E & M & _).
  destruct (paging_unmap_correct m _ ∅ [] B 0x400000 16 M) as (m' & P' & B' & Eu & M' & _);
    [clear; done|clear; lia|clear; lia|clear; lia|].
  exists m, m', (boot_tab m), P', B'. rewrite <- boot_root in Eu. exact (conj E (conj Eu M')).
Defined.

(** Unmapping a page drops exactly one reference of its frame: the last
    reference gives the frame back to the allocator, zeroed; otherwise the
    frame stays allocated with one reference less. *)
Theorem unmap_releases_frame m T P X B va e x r :
  mmu_ok m ((T, P) :: X) B → user_va va → P !! va = Some e → frame_of e ≠ zero_page (alloc m) →
  frame_of e = x * 4096 → user_page (alloc m) B x r →
  ∃ m' B', paging_unmap_in (cr3 T) va 1 m = Ok m' ∧ mmu_ok m' ((T, delete va P) :: X) B' ∧
    (1 < r → user_page (alloc m') B' x (r - 1)) ∧ (r = 1 → ff B' x ∧ x ∉ dirty (alloc m')).
Proof.
  intros M Hv He Hz Ex Ux. unfold paging_unmap_in. change (Z.to_nat 1) with 1%nat. cbn [unmap_loop].
  rewrite descend_walk. cbn [mbind outcome_bind]. pose proof M as ([[Tr Lv] _]%Forall_cons & _). simpl in Tr, Lv.
  rewrite (walk_spec m T va Tr Hv). pose proof (leaves_lookup T m P va Lv Hv) as El.
  rewrite He in El. unfold pte_in in El. destruct (T !! path va) as [pt|] eqn:E; [|done].
  destruct (drop_spec m T P X B va pt M Hv E) as (m' & B' & -> & M' & _ & _ & _ & R). cbn [mbind outcome_bind].
  exists m', B'. split_and!; [done|done|..]; by apply (R e He Hz x r).
Qed.

(** A process with one private page at 0x400000. *)
Definition one_page : outcome (Z * mmu) :=
  m ← boot;
  '(pa, s) ← pmm_alloc_user_page (alloc m);
  paging_map (user_pml4 m) 0x400000 pa 1 (PTE_USER + PTE_WRITE + PTE_NX) (with_alloc s m).

Lemma one_page_maps : (r ← one_page; Ok r.1) = Ok 0.
Proof. vm_compute. done. Qed.

Lemma boot_has_frame : (m ← boot; r ← pmm_alloc_user_page (alloc m); Ok (r.1 =? 0)) = Ok false.
Proof. vm_compute. done. Qed.

Lemma one_page_full : ∃ m T P B e x, one_page = Ok (0, m) ∧ mmu_ok m [(T, P)] B ∧ user_pml4 m = cr3 T ∧
  P !! 0x400000 = Some e ∧ frame_of e ≠ zero_page (alloc m) ∧ frame_of e = x * 4096 ∧
  user_page (alloc m) B x 1 ∧ e = new_pte (x * 4096) (PTE_USER + PTE_WRITE + PTE_NX) ∧ P = {[0x400000 := e]}.
Proof.
  pose proof one_page_maps as Hr. pose proof boot_has_frame as Hb. unfold one_page in *.
  destruct boot_ok as (m & B & E & M & _). rewrite E in Hr, Hb |- *. clear E.
  cbn [mbind outcome_bind] in *.
  destruct (alloc_page_spec m _ B M) as [[Ea _]|(x & m1 & B1 & Ea & M1 & Ux & Hp & Em & Eu & _)];
    rewrite Ea in Hr, Hb |- *; cbn [mbind outcome_bind fst] in *; [discriminate|]. clear Hb. rewrite <- Em in Hr |- *.
  pose proof (boot_root m) as Er. pose proof (page_frame m1 B1 _ x 1 (proj1 (proj2 M1)) Ux) as Wx.
  destruct (map_one m1 _ ∅ [] B1 0x400000 (x * 4096) (PTE_USER + PTE_WRITE + PTE_NX) M1)
    as (r & m2 & T2 & P2 & B2 & E2 & M2 & G & C);
    [by split|by split|unfold frame_of; rewrite (mask_frame x Wx); exact Hp|].
  rewrite <- Er in E2. rewrite E2 in Hr |- *. cbn [mbind outcome_bind fst] in Hr. injection Hr as ->.
  destruct C as [(C & _)|(_ & ->)]; [discriminate|].
  assert (frame_of (new_pte (x * 4096) (PTE_USER + PTE_WRITE + PTE_NX)) = x * 4096) as Ee
    by (by apply new_pte_frame).
  assert (user_page (alloc m2) B2 x 1) as U2 by (eapply user_page_keeps; [exact Ux|apply G..]).
  eexists m2, T2, _, B2, _, x. split; [done|]. split; [exact M2|].
  split; [rewrite (gr_root _ _ _ _ _ _ G), Eu, Er; symmetry; eapply cr3_grows; [|exact G]; by destruct M1 as ([[? _] _]%Forall_cons & _)|].
  split; [apply lookup_insert_eq|]. rewrite Ee.
  split; [apply U2|]. split; [done|]. split; [exact U2|]. split; [done|by rewrite insert_empty].
Qed.

Lemma one_page_ok : ∃ m T P B e x, one_page = Ok (0, m) ∧ mmu_ok m [(T, P)] B ∧ user_pml4 m = cr3 T ∧
  P !! 0x400000 = Some e ∧ frame_of e ≠ zero_page (alloc m) ∧ frame_of e = x * 4096 ∧
  user_page (alloc m) B x 1 ∧ e = new_pte (x * 4096) (PTE_USER + PTE_WRITE + PTE_NX).
Proof.
  destruct one_page_full as (m & T & P & B & e & x & H1 & H2 & H3 & H4 & H5 & H6 & H7 & H8 & _). exists m, T, P, B, e, x.
  exact (conj H1 (conj H2 (conj H3 (conj H4 (conj H5 (conj H6 (conj H7 H8))))))).
Qed.

Lemma unmap_releases_frame_witness : ∃ m T P B e x m' B', one_page = Ok (0, m) ∧ mmu_ok m [(T, P)] B ∧
  P !! 0x400000 = Some e ∧ paging_unmap_in (cr3 T) 0x400000 1 m = Ok m' ∧
  mmu_ok m' [(T, delete 0x400000 P)] B' ∧ ff B' x ∧ x ∉ dirty (alloc m').
Proof.
  destruct one_page_ok as (m & T & P & B & e & x & E & M & _ & He & Hz & Ex & Ux & _).
  destruct (unmap_releases_frame m T P [] B 0x400000 e x 1 M) as (m' & B' & Eu & M' & _ & R);
    [clear; by split|exact He|exact Hz|exact Ex|exact Ux|].
  exists m, T, P, B, e, x, m', B'.
  exact (conj E (conj M (conj He (conj Eu (conj M' (R eq_refl)))))).
Defined.

(** mprotect with PROT_NONE leaves the page readable: the rewritten entry is
    present and accessible from user mode. *)
Definition one_page_space (m : mmu) : addr_space mmu :=
  AddrSpace (RbHeap {[1%positive := RbNode None None None RB_BLACK]} (Some 1%positive))
    {[1%positive := Vma 0x400000 0x401000 11]} [] MMAP_BASE m.

Definition entry_after (r : Z * option (addr_space mmu)) : option Z :=
  match r.2 with Some s => mmu_pte (as_pg s) 0x400000 | None => None end.

Definition prot_none : outcome (Z * bool * bool) :=
  m ← one_page;
  r ← sys_mprotect 0x400000 0x1000 0 (Some (one_page_space m.2));
  e ← deref (entry_after r);
  Ok (r.1, has e PTE_PRESENT, has e PTE_USER).

Example prot_none_readable : prot_none = Ok (0, true, true).
Proof. vm_compute. done. Qed.
