(* ===== verification/Vmm.v ===== *)
(** * kernel/mm/vmm.c, kernel/mm/clone_space.c and the page-fault path of
      kernel/arch/x86_64/exceptions.c

    An address space is [addr_space mmu] of Vma.v: its VMA tree, its mmap
    ceiling and the machine whose [user_pml4] is its PML4.  The operations that
    handle two address spaces (fork's clone) name the other one by its PML4;
    both share the words of the page tables and the frame allocator.  TLB
    invalidations, locks and log messages have no effect on this state. *)

From S2P Require Import Prelude Rbtree Vma Mmap Pmm Paging Csprng.

#[local] Abbreviation aspace := (addr_space mmu).

Definition at_root (r : Z) (m : mmu) : mmu := Mmu (words m) (alloc m) r (kernel_pml4 m).

(** [sizeof]-independent allocations: the head of the list says whether the
    next [kzalloc] succeeds, as in Vma.v. *)
Definition next_kmem (ks : list bool) : bool * list bool :=
  match ks with k :: ks => (k, ks) | [] => (false, []) end.

Definition vma_to_pte_flags (f : Z) : Z :=
  let pte := 0 in
  let pte := if has f VMA_WRITE then Z.lor pte PTE_WRITE else pte in
  let pte := if has f VMA_USER then Z.lor pte PTE_USER else pte in
  if negb (has f VMA_EXEC) then Z.lor pte PTE_NX else pte.

(** ** Address spaces *)

(** The kernel's space after [vmm_init]: no VMAs, the boot PML4. *)
Definition vmm_init (ks : list bool) (m : mmu) : aspace :=
  AddrSpace (RbHeap ∅ None) ∅ ks MMAP_BASE (at_root (kernel_pml4 m) m).

(** [None] is NULL.  One draw decides the ASLR offset: see
    [aslr_one_draw]. *)
Definition vmm_create_space (ks : list bool) (rng : csprng) (m : mmu)
    : outcome (option aspace * list bool * csprng * mmu) :=
  let '(ok, ks) := next_kmem ks in
  if negb ok then Ok (None, ks, rng, m) else
  '(pml4_pa, s) ← pmm_alloc_zeroed_pages 0 (alloc m);
  let m := with_alloc s m in
  if pml4_pa =? 0 then Ok (None, ks, rng, m) else
  '(off, rng) ← csprng_page_offset 1 262144 rng;
  m ← paging_clone_kernel_half pml4_pa m;
  Ok (Some (AddrSpace (RbHeap ∅ None) ∅ ks (sub64 MMAP_BASE off) (at_root pml4_pa m)), ks, rng, m).

(** [while ((node = rb_first(&space->vmas)) != NULL)] *)
Fixpoint destroy_vmas (fuel : nat) (s : aspace) : outcome aspace :=
  match fuel with
  | O => NoFuel
  | S fuel =>
      n ← rb_first (as_rb s);
      match n with
      | None => Ok s
      | Some n =>
          h ← rb_erase n (as_rb s);
          destroy_vmas fuel (kfree_vma n (with_rb h s))
      end
  end.

(** [kernel] says whether [space] is [&kernel_space]. *)
Definition vmm_destroy_space (kernel : bool) (space : option aspace) (m : mmu) : outcome mmu :=
  match space with
  | None => Ok m
  | Some s =>
      if kernel then Ok m else
      s ← destroy_vmas (loop_fuel (as_rb s)) (with_pg (at_root (user_pml4 (as_pg s)) m) s);
      let m := as_pg s in
      m ← paging_destroy_user_half (user_pml4 m) m;
      free_table (user_pml4 m) m
  end.

Definition vmm_map (virt phys pages flags : Z) (m : mmu) : outcome (Z * mmu) :=
  '(err, m) ← paging_map (user_pml4 m) virt phys pages (vma_to_pte_flags flags) m;
  if negb (err =? 0) then Ok (err, m) else Ok (0, m).

Definition vmm_unmap (virt pages : Z) (m : mmu) : outcome (Z * mmu) :=
  m ← paging_unmap_in (user_pml4 m) virt pages m; Ok (0, m).

Definition vmm_protect (virt pages new_flags : Z) (m : mmu) : outcome (Z * mmu) :=
  paging_protect_in (user_pml4 m) virt pages (vma_to_pte_flags new_flags) m.

(** ** Copy-on-write faults *)

(** [memcpy(phys_to_virt(dst), phys_to_virt(src), PAGE_SIZE)], by words *)
Definition copy_page (dst src : Z) (m : mmu) : mmu :=
  foldl (λ m i, wr dst i (rd src i m) m) m (seqZ 0 512).

(** The fast path's test: not the zero page and no other reference. *)
Definition sole_owner (pa : Z) (m : mmu) : outcome bool :=
  if negb (pa =? zero_page (alloc m)) then
    r ← Pmm.pmm_user_refcount pa (alloc m); Ok (r =? 1)
  else Ok false.

(** The read of the reference count and the re-protection happen under the
    PMM lock. *)
Definition vmm_handle_cow_fault (va : Z) (m : mmu) : outcome (Z * mmu) :=
  let root := user_pml4 m in
  let va := Z.ldiff va PAGE_MASK in
  let '(err, old_pte) := paging_get_flags_in root va m in
  if negb (err =? 0) then Ok (err, m) else
  if has old_pte PTE_HUGE then Ok (- EINVAL, m) else
  let old_pa := Z.land old_pte PTE_ADDR_MASK in
  let new_flags := Z.lor (Z.lor (Z.land old_pte PTE_USER) PTE_WRITE) PTE_NX in
  sole ← sole_owner old_pa m;
  if (sole : bool) then
    '(err, m) ← paging_protect_in root va 1 new_flags m;
    if negb (err =? 0) then Ok (err, m) else Ok (0, m)
  else
  '(new_pa, s) ← pmm_alloc_user_page (alloc m);
  let m := with_alloc s m in
  if new_pa =? 0 then Ok (- ENOMEM, m) else
  let m := copy_page new_pa old_pa m in
  '(err, m) ← paging_map root va new_pa 1 new_flags m;
  if negb (err =? 0) then m ← put_frame new_pa m; Ok (err, m) else
  m ← (if negb (old_pa =? zero_page (alloc m)) then put_frame old_pa m else Ok m);
  Ok (0, m).

(** ** Lazy zero-fill *)

Definition LAZY_EC_W : Z := 2.
Definition LAZY_EC_ID : Z := 16.

(** Mapping the chosen page: the tail of [vmm_handle_lazy_fault]. *)
Definition lazy_map (va pa pte_flags : Z) (m : mmu) : outcome (Z * mmu) :=
  '(err, m) ← paging_map (user_pml4 m) va pa 1 pte_flags m;
  if negb (err =? 0) then
    m ← (if negb (pa =? zero_page (alloc m)) then put_frame pa m else Ok m); Ok (err, m)
  else Ok (0, m).

Definition lazy_fresh (va pte_flags : Z) (m : mmu) : outcome (Z * mmu) :=
  '(pa, s) ← pmm_alloc_user_page (alloc m);
  let m := with_alloc s m in
  if pa =? 0 then Ok (- ENOMEM, m) else lazy_map va pa pte_flags m.

Definition vmm_handle_lazy_fault (v : vma) (va ec : Z) (m : mmu) : outcome (Z * mmu) :=
  if has ec LAZY_EC_ID then
    if negb (has (v_flags v) VMA_EXEC) then Ok (- EACCES, m) else lazy_fresh va PTE_USER m
  else if has ec LAZY_EC_W then
    if negb (has (v_flags v) VMA_WRITE) then Ok (- EACCES, m) else
    lazy_fresh va (Z.lor (Z.lor PTE_USER PTE_WRITE) PTE_NX) m
  else
    if negb (has (v_flags v) VMA_READ) then Ok (- EACCES, m) else
    lazy_map va (zero_page (alloc m)) (Z.lor PTE_USER PTE_NX) m.

(** ** Exceptions: arch/x86_64/exceptions.c *)

Definition PF_EC_P : Z := 1.
Definition PF_EC_W : Z := 2.
Definition PF_EC_U : Z := 4.
Definition PF_EC_ID : Z := 16.

Record cpu_state := CpuState { st_vector : Z; st_error_code : Z; st_cs : Z }.

Definition fault_from_user (st : cpu_state) : bool :=
  if negb (Z.land (st_cs st) 3 =? 3) then false else
  if st_vector st =? 14 then has (st_error_code st) PF_EC_U else true.

(** The faulting instruction runs again, or the process is killed.  A fault in
    the kernel panics. *)
Inductive verdict := Resume | Kill.

(** The copy-on-write attempt: [true] when the fault is resolved. *)
Definition try_cow (cr2 ec : Z) (space : option aspace) : outcome (bool * option aspace) :=
  if negb (has ec PF_EC_P && has ec PF_EC_W) then Ok (false, space) else
  match space with
  | None => Ok (false, None)
  | Some s =>
      p ← vma_find cr2 s;
      match p with
      | None => Ok (false, space)
      | Some i =>
          v ← deref (as_vma s !! i);
          if negb (has (v_flags v) VMA_WRITE) then Ok (false, space) else
          '(err, m) ← vmm_handle_cow_fault (Z.ldiff cr2 PAGE_MASK) (as_pg s);
          Ok (err =? 0, Some (with_pg m s))
      end
  end.

Definition try_lazy (cr2 ec : Z) (space : option aspace) : outcome (bool * option aspace) :=
  if has ec PF_EC_P then Ok (false, space) else
  match space with
  | None => Ok (false, None)
  | Some s =>
      p ← vma_find cr2 s;
      match p with
      | None => Ok (false, space)
      | Some i =>
          v ← deref (as_vma s !! i);
          '(err, m) ← vmm_handle_lazy_fault v (Z.ldiff cr2 PAGE_MASK) ec (as_pg s);
          Ok (err =? 0, Some (with_pg m s))
      end
  end.

(** [space] is the current task's address space; [cr2] the faulting address. *)
Definition exceptions_handle (st : cpu_state) (cr2 : Z) (space : option aspace)
    : outcome (verdict * option aspace) :=
  if st_vector st =? 7 then Panic else
  if fault_from_user st then
    if st_vector st =? 14 then
      let ec := u32 (st_error_code st) in
      '(done, space) ← try_cow cr2 ec space;
      if (done : bool) then Ok (Resume, space) else
      '(done, space) ← try_lazy cr2 ec space;
      if (done : bool) then Ok (Resume, space) else Ok (Kill, space)
    else Ok (Kill, space)
  else Panic.

(** ** Cloning: clone_space.c

    The destination carries the machine; [src] is the source's PML4. *)

Definition CLONE_PTE_FLAGS_MASK : Z := Z.lor (Z.lor PTE_WRITE PTE_USER) PTE_NX.

(** One iteration of the page loop. *)
Definition clone_page (src va : Z) (m : mmu) : outcome (Z * mmu) :=
  let '(err, src_pte) := paging_get_flags_in src va m in
  if err =? - ENOENT then Ok (0, m) else
  if negb (err =? 0) then Ok (err, m) else
  if has src_pte PTE_HUGE then Ok (- EINVAL, m) else
  let pa := Z.land src_pte PTE_ADDR_MASK in
  let dst_flags := Z.ldiff (Z.land src_pte CLONE_PTE_FLAGS_MASK) PTE_WRITE in
  '(err, m) ← (if has src_pte PTE_WRITE then paging_protect_in src va 1 dst_flags m else Ok (0, m));
  if negb (err =? 0) then Ok (err, m) else
  '(err, m) ← paging_map (user_pml4 m) va pa 1 dst_flags m;
  if negb (err =? 0) then Ok (err, m) else
  if negb (pa =? zero_page (alloc m)) then
    s ← pmm_get_user_page pa (alloc m); Ok (0, with_alloc s m)
  else Ok (0, m).

(** [for (va = src_vma->start; va < src_vma->end; va += PAGE_SIZE)] *)
Fixpoint clone_pages (fuel : nat) (src va end_ : Z) (m : mmu) : outcome (Z * mmu) :=
  match fuel with
  | O => NoFuel
  | S fuel =>
      if negb (va <? end_) then Ok (0, m) else
      '(err, m) ← clone_page src va m;
      if negb (err =? 0) then Ok (err, m) else clone_pages fuel src (add64 va PAGE_SIZE) end_ m
  end.

Definition clone_one_vma (src : Z) (src_vma : vma) (dst : aspace) : outcome (Z * aspace) :=
  let '(p, dst) := kzalloc_vma dst in
  match p with
  | None => Ok (- ENOMEM, dst)
  | Some p =>
      dst ← update_vma p (λ _, Vma (v_start src_vma) (v_end src_vma) (v_flags src_vma)) dst;
      '(err, dst) ← vma_insert p dst;
      if negb (err =? 0) then Ok (err, kfree_vma p dst) else
      '(err, m) ← clone_pages (S (Z.to_nat ((v_end src_vma - v_start src_vma) / PAGE_SIZE))) src
                    (v_start src_vma) (v_end src_vma) (as_pg dst);
      Ok (err, with_pg m dst)
  end.

(** [for (node = rb_first(&src->vmas); node; node = rb_next(node))] *)
Fixpoint clone_vmas (fuel : nat) (src : aspace) (node : ptr) (dst : aspace) : outcome (Z * aspace) :=
  match fuel with
  | O => NoFuel
  | S fuel =>
      match node with
      | None => Ok (0, dst)
      | Some n =>
          v ← deref (as_vma src !! n);
          '(err, dst) ← clone_one_vma (user_pml4 (as_pg src)) v dst;
          if negb (err =? 0) then Ok (err, dst) else
          node ← rb_next n (as_rb src);
          clone_vmas fuel src node dst
      end
  end.

(** The error code, the source, the new space and the generator.  [ks] are the
    outcomes of the allocations. *)
Definition vmm_clone_space (src : aspace) (ks : list bool) (rng : csprng)
    : outcome (Z * aspace * option aspace * csprng) :=
  let root := user_pml4 (as_pg src) in
  '(dst, ks, rng, m) ← vmm_create_space ks rng (as_pg src);
  match dst with
  | None => Ok (- ENOMEM, with_pg m src, None, rng)
  | Some dst =>
      node ← rb_first (as_rb src);
      '(err, dst) ← clone_vmas (loop_fuel (as_rb src)) src node dst;
      if negb (err =? 0) then
        m ← vmm_destroy_space false (Some dst) (as_pg dst);
        Ok (err, with_pg (at_root root m) src, None, rng)
      else Ok (0, with_pg (at_root root (as_pg dst)) src, Some dst, rng)
  end.
