(* ===== verification/VmmSpec.v ===== *)
(** * Page faults on the page tables

    What [vmm_handle_cow_fault] and [vmm_handle_lazy_fault] do to the address
    space that faulted, to the frames and their contents, and that they leave
    every other address space alone. *)

From S2P Require Import Prelude Rbtree Vma Mmap MmapSpec Pmm PmmList PmmSpec PmmAlloc.
From S2P Require Import Paging PagingSpec PagingMap Vmm.

(** ** Copying a page *)

Lemma copy_words dst src : dst ≠ src → ∀ n lo m t i,
  let m' := foldl (λ m i, wr dst i (rd src i m) m) m (seqZ lo (Z.of_nat n)) in
  alloc m' = alloc m ∧ user_pml4 m' = user_pml4 m ∧ kernel_pml4 m' = kernel_pml4 m ∧
  rd t i m' = if decide (t = dst ∧ lo ≤ i < lo + Z.of_nat n) then rd src i m else rd t i m.
Proof.
  intros Hne. induction n as [|n IH]; intros lo m t i; cbn zeta.
  { simpl. rewrite decide_False by lia. done. }
  rewrite seqZ_cons by lia. cbn [foldl]. replace (Z.pred (Z.of_nat (S n))) with (Z.of_nat n) by lia.
  destruct (IH (Z.succ lo) (wr dst lo (rd src lo m) m) t i) as (-> & -> & -> & ->).
  split_and!; [done..|]. rewrite !rd_wr. rewrite (decide_False (P := (src, i) = (dst, lo))) by congruence.
  destruct (decide ((t, i) = (dst, lo))) as [[= -> ->]|N].
  - rewrite (decide_False (P := dst = dst ∧ Z.succ lo ≤ lo < _)) by lia. by rewrite decide_True by lia.
  - apply decide_ext. split; intros [-> ?]; (split; [done|]); [lia|].
    assert (i ≠ lo) by congruence. lia.
Qed.

Lemma copy_page_spec dst src m : dst ≠ src →
  alloc (copy_page dst src m) = alloc m ∧ user_pml4 (copy_page dst src m) = user_pml4 m ∧
  (∀ i, 0 ≤ i < 512 → rd dst i (copy_page dst src m) = rd src i m) ∧
  (∀ t i, t ≠ dst → rd t i (copy_page dst src m) = rd t i m).
Proof.
  intros Hne. unfold copy_page. pose proof (λ t i, copy_words dst src Hne 512 0 m t i) as H. cbn zeta in H.
  change (Z.of_nat 512) with 512 in H. destruct (H 0 0) as (-> & -> & _). split_and!; [done|done|..].
  - intros i Hi. destruct (H dst i) as (_ & _ & _ & ->). by rewrite decide_True.
  - intros t i Ht. destruct (H t i) as (_ & _ & _ & ->). rewrite decide_False; [done|]. by intros [? _].
Qed.

(** Writing to a page that is no table and not free. *)
Lemma mmu_ok_data m m' L B x :
  mmu_ok m L B → alloc m' = alloc m → (∀ t i, t ≠ x * 4096 → rd t i m' = rd t i m) →
  ¬ table_at L (x * 4096) → ¬ ff B x → x * 4096 ≠ zero_page (alloc m) → mmu_ok m' L B.
Proof.
  intros (Fs & F & [C Cz]) Ea Er Ht Hf Hz. unfold mmu_ok. split_and!.
  - eapply trees_frame; [exact Fs|]. intros a i Ha. apply Er. by intros ->.
  - by rewrite Ea.
  - split; [|intros i; rewrite Ea, Er; [by apply Cz|done]].
    intros y i Hy. rewrite Er; [by apply C|]. intros E. by replace x with y in Hf by lia.
Qed.

(** ** What a resolved fault changes *)

(** Page tables are told apart from data by [table_at]. *)
Definition data_kept (L : spaces) (m : mmu) (B : gmap Z Z) (m' : mmu) : Prop :=
  ∀ x i, ¬ ff B x → ¬ table_at L (x * 4096) → rd (x * 4096) i m' = rd (x * 4096) i m.

(** So a mapped page keeps its contents. *)
Lemma mapped_data m L B m' T P va e i :
  mmu_ok m L B → data_kept L m B m' → (T, P) ∈ L → P !! va = Some e → rd (frame_of e) i m' = rd (frame_of e) i m.
Proof.
  intros (_ & F & _) D H He. destruct (decide (frame_of e = zero_page (alloc m))) as [Ez|Nz].
  - destruct (f_zero _ _ _ F) as (z & Hz & _ & Fz & Tz). rewrite Ez, Hz. by apply D.
  - destruct (f_owned _ _ _ F (T, P) va e H He Nz) as (x & Ex & [(r & U & _) Tx _]).
    rewrite Ex. apply D; [apply U|done].
Qed.

(** A frame in use gets no further references. *)
Definition refs_used (s : pmm) (B : gmap Z Z) (s' : pmm) (B' : gmap Z Z) : Prop :=
  ∀ y r', user_page s' B' y r' → ¬ ff B y → ∃ r, user_page s B y r ∧ r' ≤ r.

Lemma refs_used_le s B s' B' : refs_le s B s' B' → refs_used s B s' B'.
Proof. intros H y r' U _. by apply H. Qed.

(** The entry is a private page: writable, or a fresh executable one. *)
Record private_page (m : mmu) (B : gmap Z Z) (e : Z) (w x : bool) : Prop := PrivatePage {
  pp_write : has e PTE_WRITE = w;
  pp_nx : has e PTE_NX = negb x;
  pp_frame : ∃ y, frame_of e = y * 4096 ∧ user_page (alloc m) B y 1
}.

(** The flags of the new entries. *)
Lemma new_pte_flags pa fl : user_flags fl →
  has (new_pte pa fl) PTE_USER = true ∧ has (new_pte pa fl) PTE_PRESENT = true ∧
  has (new_pte pa fl) PTE_WRITE = has fl PTE_WRITE ∧ has (new_pte pa fl) PTE_NX = has fl PTE_NX.
Proof.
  intros Hu. destruct (page_entry pa fl Hu) as (E1 & _ & E3 & _). unfold new_pte, frame_of.
  destruct (new_pte_bits pa fl) as [-> ->]. done.
Qed.

Lemma cow_flags_ok e : has e PTE_USER = true →
  let fl := Z.lor (Z.lor (Z.land e PTE_USER) PTE_WRITE) PTE_NX in
  fl = PTE_USER + PTE_WRITE + PTE_NX ∧ user_flags fl.
Proof.
  intros Hu fl. assert (Z.land e PTE_USER = PTE_USER) as E.
  { change PTE_USER with (2 ^ 2) in *. rewrite has_testbit in Hu by lia.
    apply Z.bits_inj'. intros n Hn. rewrite Z.land_spec, Z.pow2_bits_eqb by lia.
    destruct (Z.eqb_spec 2 n) as [<-|]; [by rewrite Hu|apply andb_false_r]. }
  subst fl. rewrite E. done.
Qed.

(** The pages of the head became [P']; the frames in use kept their contents,
    and gained no references. *)
Record stepped (m : mmu) (T : tables) (P : gmap Z Z) (X : spaces) (B : gmap Z Z)
    (m' : mmu) (T' : tables) (P' B' : gmap Z Z) : Prop := Stepped {
  en_ok : mmu_ok m' ((T', P') :: X) B';
  en_root : user_pml4 m' = user_pml4 m;
  en_tree : cr3 T' = cr3 T;
  en_zero : zero_page (alloc m') = zero_page (alloc m);
  en_refs : refs_used (alloc m) B (alloc m') B';
  en_data : data_kept ((T, P) :: X) m B m'
}.

(** The page [va] got the entry [e']. *)
Abbreviation entered m T P X B va e' m' T' B' := (stepped m T P X B m' T' (<[va := e']> P) B').

(** ** Copy-on-write *)

Lemma sole_owner_spec m L B u va e :
  frames_ok (alloc m) B L → u ∈ L → u.2 !! va = Some e →
  frame_of e = zero_page (alloc m) ∧ sole_owner (frame_of e) m = Ok false ∨
  ∃ x r, frame_of e = x * 4096 ∧ frame_of e ≠ zero_page (alloc m) ∧ user_page (alloc m) B x r ∧
    Z.of_nat (total L (x * 4096)) ≤ r ∧ 1 ≤ r ∧ ¬ table_at L (x * 4096) ∧ x ≠ 0 ∧
    sole_owner (frame_of e) m = Ok (r =? 1).
Proof.
  intros F Hu He. unfold sole_owner. destruct (Z.eqb_spec (frame_of e) (zero_page (alloc m))) as [Ez|Ez]; [by left|right].
  destruct (f_owned _ _ _ F u va e Hu He Ez) as (x & Ex & [(r & Ur & Hr) Ht Hn]).
  pose proof (total_pos L u va e Hu He) as Hp. rewrite Ex in *. exists x, r. cbn [negb].
  rewrite (refcount_user _ _ _ _ (f_pmm _ _ _ F) Ur). split_and!; (done || lia).
Qed.

(** Nobody else has a reference: the page becomes writable in place. *)
Lemma cow_fast m T P X B va e x :
  mmu_ok m ((T, P) :: X) B → user_va va → P !! va = Some e → frame_of e = x * 4096 → user_page (alloc m) B x 1 →
  let fl := Z.lor (Z.lor (Z.land e PTE_USER) PTE_WRITE) PTE_NX in
  ∃ m', paging_protect_in (cr3 T) va 1 fl m = Ok (0, m') ∧ entered m T P X B va (new_pte e fl) m' T B ∧
    private_page m' B (new_pte e fl) true false ∧
    ∀ i, rd (frame_of (new_pte e fl)) i m' = rd (frame_of e) i m.
Proof.
  intros M Hv He Ex Ux fl. pose proof M as (_ & F & _).
  destruct (cow_flags_ok e (proj1 (f_user _ _ _ F (T, P) va e ltac:(by left) He))) as [Ef Hu]. fold fl in Ef, Hu.
  destruct (protect_one m T P X B va fl e M Hv Hu He) as (m' & E & Ea & Er & Ew & M').
  fold (frame_of e) in M'. fold (new_pte e fl) in M'.
  destruct (new_pte_flags e fl Hu) as (_ & _ & Hw & Hn).
  assert (frame_of (new_pte e fl) = frame_of e) as Efr by (destruct (page_entry e fl Hu) as (_ & H & _); exact H).
  assert (∀ i, rd (x * 4096) i m' = rd (x * 4096) i m) as Hd.
  { intros i. apply Ew. destruct (f_owned _ _ _ F (T, P) va e ltac:(by left) He) as (y & Ey & [_ Ht _]);
      [rewrite Ex; apply (up_zero _ _ _ _ Ux)|]. by replace x with y by lia. }
  exists m'. split; [done|]. split_and!.
  - constructor; [done|done|done|by rewrite Ea|rewrite Ea; apply refs_used_le, refs_le_refl|].
    intros y i _ Ht. by apply Ew.
  - constructor; [by rewrite Hw, Ef|by rewrite Hn, Ef|]. exists x. rewrite Efr, Ea. by split.
  - intros i. by rewrite Efr, Ex.
Qed.

(** The references of the replaced frame. *)
Lemma total_replace T P X va e v pa :
  P !! va = Some e → frame_of e = pa → frame_of v ≠ pa →
  total ((T, P) :: X) pa = S (total ((T, <[va := v]> P) :: X) pa).
Proof.
  intros He Ee Ev. unfold total. cbn [sum_list_with snd]. rewrite (refs_delete P va e pa He), decide_True by done.
  rewrite <- (insert_delete_eq P va v), refs_insert by apply lookup_delete_eq. by rewrite decide_False.
Qed.

(** The private copy, before the old reference is dropped. *)
Lemma cow_copy m T P X B va e fl :
  mmu_ok m ((T, P) :: X) B → user_va va → P !! va = Some e → user_flags fl →
  pmm_alloc_user_page (alloc m) = Ok (0, alloc m) ∧ (∀ p, ¬ ff B p) ∨
  ∃ x s m' B', pmm_alloc_user_page (alloc m) = Ok (x * 4096, s) ∧ x ≠ 0 ∧
    paging_map (cr3 T) va (x * 4096) 1 fl (copy_page (x * 4096) (frame_of e) (with_alloc s m)) = Ok (0, m') ∧
    entered m T P X B va (new_pte (x * 4096) fl) m' T B' ∧ user_page (alloc m') B' x 1 ∧ ff B x ∧
    frame_of (new_pte (x * 4096) fl) = x * 4096 ∧ (∀ p, ff B' p ↔ ff B p ∧ p ≠ x) ∧
    other_refs (alloc m) (alloc m') x ∧ pfn_count (alloc m') = pfn_count (alloc m) ∧
    ∀ i, 0 ≤ i < 512 → rd (x * 4096) i m' = rd (frame_of e) i m.
Proof.
  intros M Hv He Hu. pose proof M as (Fs & F & C). pose proof Fs as [[Tr Lv] _]%Forall_cons. simpl in Tr, Lv.
  destruct (alloc_page_spec m _ B M) as [?|(x & m1 & B1 & Ea & M1 & Ux & Hp & Em & Eu & Hx & Fx & Ez & Or & _ & Hf & Ec)];
    [by left|right].
  destruct (free_unmapped _ _ _ _ F Fx) as [T0 Tx].
  assert (x * 4096 ≠ frame_of e) as Hne.
  { intros E. pose proof (total_pos ((T, P) :: X) (T, P) va e ltac:(by left) He) as Hp'. rewrite <- E in Hp'. lia. }
  destruct (copy_page_spec (x * 4096) (frame_of e) m1 Hne) as (Ca & Cu & Cd & Co).
  set (m2 := copy_page (x * 4096) (frame_of e) m1) in *.
  assert (mmu_ok m2 ((T, P) :: X) B1) as M2.
  { eapply mmu_ok_data; [exact M1|done|exact Co|done|apply Ux|apply Ux]. }
  pose proof He as He0. rewrite (leaves_lookup T m P va Lv Hv) in He0. unfold pte_in in He0.
  destruct (T !! path va) as [pt|] eqn:Et; [|done]. clear He0.
  pose proof M2 as ([[Tr2 _] _]%Forall_cons & _). simpl in Tr2.
  assert (frame_of (x * 4096) = x * 4096) as Efx.
  { unfold frame_of. by rewrite mask_frame by (eapply page_frame; [apply M1|done]). }
  assert (mmu_ok (wr pt (pt_idx va) (new_pte (x * 4096) fl) m2) ((T, <[va := new_pte (x * 4096) fl]> P) :: X) B1) as M3.
  { eapply enter_page; try done. unfold mappable in *. by rewrite Efx, Ca. }
  assert (∀ i t, ¬ table_at ((T, P) :: X) t → rd t i (wr pt (pt_idx va) (new_pte (x * 4096) fl) m2) = rd t i m2) as Hw.
  { intros i t Ht. rewrite rd_wr, decide_False; [done|]. intros [= -> _]. apply Ht. by eapply head_table. }
  exists x, (alloc m1), (wr pt (pt_idx va) (new_pte (x * 4096) fl) m2), B1.
  split; [done|]. split; [done|]. split; [rewrite <- Em; fold m2; by apply map_hit|].
  clearbody m2. clear Ea.
  assert (alloc (wr pt (pt_idx va) (new_pte (x * 4096) fl) m2) = alloc m1) as Ea1 by exact Ca.
  assert (∀ t i, rd t i m1 = rd t i m) as R1 by (intros t i; by rewrite Em).
  rewrite Ea1. split.
  { constructor; rewrite ?Ea1; try done.
    - exact (eq_trans Cu Eu).
    - intros y r' [U1 U2 U3 U4] Hy. exists r'. split; [|lia]. assert (y ≠ x) by (by intros ->).
      constructor; [by rewrite <- Ec|done|by rewrite <- Ez|by rewrite <- Or].
    - intros y i Hy Ht. rewrite Hw by done. rewrite Co, R1; [done|]. intros E. by replace y with x in Hy by lia. }
  split_and!; try done.
  - apply new_pte_frame; [eapply page_frame; [apply M1|done]|done].
  - intros i Hi. rewrite Hw, Cd by done. apply R1.
Qed.

Lemma ldiff_aligned va : page_aligned va → Z.ldiff va PAGE_MASK = va.
Proof. intros H. rewrite ldiff_page_mask. unfold page_aligned in H. lia. Qed.

(** Dropping the old reference, when there are others. *)
Lemma cow_drop m T P X B va e x0 r0 e' m1 B1 :
  entered m T P X B va e' m1 T B1 → P !! va = Some e → frame_of e = x0 * 4096 → frame_of e' ≠ x0 * 4096 →
  user_page (alloc m1) B1 x0 r0 → ¬ table_at ((T, P) :: X) (x0 * 4096) → x0 ≠ 0 →
  Z.of_nat (total ((T, P) :: X) (x0 * 4096)) ≤ r0 → 1 < r0 →
  ∃ m2 B2, put_frame (x0 * 4096) m1 = Ok m2 ∧ entered m T P X B va e' m2 T B2 ∧ put_ok m1 B1 x0 r0 m2 B2.
Proof.
  intros [(Fs1 & F1 & C1) E1 _ E2 E3 E4] He Ex0 Ne U1 Tx0 N0 Ht0 Hr.
  pose proof (total_replace T P X va e e' (x0 * 4096) He Ex0 Ne) as Ht.
  destruct (put_frame_spec m1 ((T, <[va := e']> P) :: X) B1 x0 r0 F1 U1) as (m2 & B2 & Ep & F2 & Pu);
    [by rewrite (table_head T _ P)|done|lia|].
  exists m2, B2. split; [done|]. split; [|done].
  assert (∀ t i, rd t i m2 = rd t i m1) as R2 by (intros t i; apply (pu_words _ _ _ _ _ _ Pu); lia).
  constructor.
  - split_and!; [eapply trees_frame; [exact Fs1|]; intros; apply R2|done|by eapply clean_put].
  - by rewrite (pu_root _ _ _ _ _ _ Pu).
  - done.
  - by rewrite (pu_zero _ _ _ _ _ _ Pu).
  - intros y r' Uy Hy. destruct (pu_le _ _ _ _ _ _ Pu y r' Uy) as (r1 & U1' & Hle).
    destruct (E3 y r1 U1' Hy) as (r2 & U2 & Hle2). exists r2. split; [done|lia].
  - intros y i Hy Hty. rewrite R2. by apply E4.
Qed.

(** The copy-on-write handler on a present page: it fails only when no frame is
    left, and then changes nothing; otherwise the page is writable, not
    executable, private and holds what it held before. *)
Lemma cow_spec m T P X B va e :
  mmu_ok m ((T, P) :: X) B → user_pml4 m = cr3 T → user_va va → P !! va = Some e →
  vmm_handle_cow_fault va m = Ok (- ENOMEM, m) ∧ (∀ p, ¬ ff B p) ∨
  ∃ m' B' e', vmm_handle_cow_fault va m = Ok (0, m') ∧ entered m T P X B va e' m' T B' ∧
    private_page m' B' e' true false ∧ has e' PTE_USER = true ∧
    ∀ i, 0 ≤ i < 512 → rd (frame_of e') i m' = rd (frame_of e) i m.
Proof.
  intros M Er Hv He. pose proof M as (_ & F & _). unfold vmm_handle_cow_fault.
  rewrite (ldiff_aligned va (proj1 Hv)), Er, (get_flags_leaf m T P X B va M Hv), He. cbn [Z.eqb negb].
  destruct (f_user _ _ _ F (T, P) va e ltac:(by left) He) as [Hus ->].
  destruct (cow_flags_ok e Hus) as [Ef Hu]. fold (frame_of e). set (fl := Z.lor _ PTE_NX) in *.
  pose proof (sole_owner_spec m _ B (T, P) va e F ltac:(by left) He) as So.
  pose proof (cow_copy m T P X B va e fl M Hv He Hu) as Cp.
  destruct So as [[Ez ->]|(x0 & r0 & Ex0 & Nz & U0 & Ht0 & Hr0 & Tx0 & N0 & ->)]; cbn [mbind outcome_bind].
  - destruct Cp as
      [[-> Nf]|(x & s & m' & B' & -> & Hx & Em & En & Ux & Fx & Efr & Hf & Or & Ec & Hd)]; cbn [mbind outcome_bind].
    { left. split; [by destruct m|done]. }
    rewrite (proj2 (Z.eqb_neq _ _)) by lia. rewrite Em. cbn [mbind outcome_bind Z.eqb negb]. clear Em.
    rewrite (en_zero _ _ _ _ _ _ _ _ _ En), Ez, Z.eqb_refl. cbn [negb mbind outcome_bind].
    right. exists m', B', (new_pte (x * 4096) fl). destruct (new_pte_flags (x * 4096) fl Hu) as (HU' & _ & Hw & Hn).
    split_and!; [done|done| |done|by rewrite Efr, <- Ez].
    constructor; [by rewrite Hw, Ef|by rewrite Hn, Ef|]. exists x. by rewrite Efr.
  - destruct (Z.eqb_spec r0 1) as [->|Hr1].
    + destruct (cow_fast m T P X B va e x0 M Hv He Ex0 U0) as (m' & E & En & Pp & Hd). fold fl in E, En, Pp, Hd.
      rewrite E. cbn [mbind outcome_bind Z.eqb negb]. right. exists m', B, (new_pte e fl).
      destruct (new_pte_flags e fl Hu) as (HU' & _). by split_and!.
    + destruct Cp as
        [[-> Nf]|(x & s & m1 & B1 & -> & Hx & Em & En & Ux & Fx & Efr & Hf & Or & Ec & Hd)]; cbn [mbind outcome_bind].
      { left. split; [by destruct m|done]. }
      rewrite (proj2 (Z.eqb_neq (x * 4096) 0)) by lia. rewrite Em. cbn [mbind outcome_bind Z.eqb negb]. clear Em.
      rewrite (en_zero _ _ _ _ _ _ _ _ _ En). rewrite (proj2 (Z.eqb_neq _ _)) by done. cbn [negb].
      set (e' := new_pte (x * 4096) fl) in *. assert (x0 ≠ x) as Hxx.
      { intros ->. by apply (up_used _ _ _ _ U0). }
      assert (user_page (alloc m1) B1 x0 r0) as U1.
      { eapply (user_page_other (alloc m) B _ _ x); [done|done|done|done|apply En|]. intros [? _]%Hf. by left. }
      destruct (cow_drop m T P X B va e x0 r0 e' m1 B1 En He Ex0) as (m2 & B2 & Ep & En2 & Pu); [lia|done..|lia|].
      rewrite Ex0, Ep. cbn [mbind outcome_bind]. right. exists m2, B2, e'.
      destruct (new_pte_flags (x * 4096) fl Hu) as (HU' & _ & Hw & Hn). fold e' in HU', Hw, Hn.
      split_and!; [done|done| |done|].
      * constructor; [by rewrite Hw, Ef|by rewrite Hn, Ef|]. exists x. split; [done|].
        eapply (user_page_other (alloc m1) B1 _ _ x0); [done|done|apply Pu|apply Pu|apply Pu|].
        intros [?|[? _]]%(pu_free _ _ _ _ _ _ Pu); [by left|by right].
      * intros i Hi. rewrite (pu_words _ _ _ _ _ _ Pu) by lia. rewrite Efr, Hd, Ex0 by done. done.
Qed.

(** ** Lazy zero-fill *)

Lemma grows_stepped m T P X B m' T' P' B' :
  mmu_ok m ((T, P) :: X) B → mmu_ok m' ((T', P') :: X) B' → grows m T B m' T' B' →
  stepped m T P X B m' T' P' B'.
Proof.
  intros M M' G. pose proof M as ([[Tr _] _]%Forall_cons & _). simpl in Tr. constructor.
  - done.
  - apply G.
  - by eapply cr3_grows.
  - apply G.
  - intros y r' [U1 U2 U3 U4] Hy. exists r'. split; [|lia]. destruct G as [_ Gz Gc Gr _ _ _ _].
    constructor; [by rewrite <- Gc|done|by rewrite <- Gz|by rewrite <- Gr].
  - intros x i Hx Ht. apply (gr_data _ _ _ _ _ _ G); [done|]. intros p a Ha ->. apply Ht. by eapply head_table.
Qed.

Lemma stepped_trans m T P X B m1 T1 P1 B1 m2 T2 P2 B2 :
  stepped m T P X B m1 T1 P1 B1 → stepped m1 T1 P1 X B1 m2 T2 P2 B2 →
  (∀ x, ff B1 x → ff B x) → (∀ a, table_at ((T1, P1) :: X) a → table_at ((T, P) :: X) a ∨ ∃ x, a = x * 4096 ∧ ff B x) →
  stepped m T P X B m2 T2 P2 B2.
Proof.
  intros [M1 R1 T1' Z1 F1 D1] [M2 R2 T2' Z2 F2 D2] Hf Ht. constructor; [done|congruence..| |].
  - intros y r' U Hy. destruct (F2 y r' U) as (r1 & U1 & H1); [by intros ?%Hf|].
    destruct (F1 y r1 U1 Hy) as (r & U0 & H0). exists r. split; [done|lia].
  - intros x i Hx Hn. rewrite D2; [by apply D1|by intros ?%Hf|].
    intros [H|(y & Ey & Hy)]%Ht; [done|]. by replace x with y in Hx by lia.
Qed.

(** The zero page. *)
Lemma lazy_zero_spec m T P X B va fl :
  mmu_ok m ((T, P) :: X) B → user_pml4 m = cr3 T → user_va va → user_flags fl →
  ∃ r m' T' P' B', lazy_map va (zero_page (alloc m)) fl m = Ok (r, m') ∧ stepped m T P X B m' T' P' B' ∧
    (r = - ENOMEM ∧ P' = P ∧ (∀ q, ¬ ff B' q) ∨ r = 0 ∧ P' = <[va := new_pte (zero_page (alloc m)) fl]> P).
Proof.
  intros M Er Hv Hu. unfold lazy_map. rewrite Er.
  assert (frame_of (zero_page (alloc m)) = zero_page (alloc m)) as Ez by (eapply zero_frame; apply M).
  destruct (map_one m T P X B va (zero_page (alloc m)) fl M Hv Hu) as (r & m' & T' & P' & B' & -> & M' & G & C);
    [by intros Hn; rewrite Ez in Hn|].
  pose proof (grows_stepped _ _ _ _ _ _ _ _ _ M M' G) as St.
  exists r, m', T', P', B'. cbn [mbind outcome_bind]. rewrite (gr_zero _ _ _ _ _ _ G), Z.eqb_refl.
  destruct C as [(-> & -> & N)|(-> & ->)]; cbn [Z.eqb ENOMEM Z.opp negb mbind outcome_bind]; (split; [done|]);
    (split; [done|]); [by left|by right].
Qed.

(** Taking a fresh page leaves everything in use alone. *)
Lemma alloc_stepped m T P X B m' B' x :
  mmu_ok m' ((T, P) :: X) B' → m' = with_alloc (alloc m') m → zero_page (alloc m') = zero_page (alloc m) →
  pfn_count (alloc m') = pfn_count (alloc m) → other_refs (alloc m) (alloc m') x → ff B x →
  stepped m T P X B m' T P B'.
Proof.
  intros M' Em Ez Ec Or Fx. constructor; [done|by rewrite Em|done|done| |by rewrite Em].
  intros y r' [U1 U2 U3 U4] Hy. exists r'. split; [|lia]. assert (y ≠ x) by (by intros ->).
  constructor; [by rewrite <- Ec|done|by rewrite <- Ez|by rewrite <- Or].
Qed.

(** A page that could not be mapped is given back. *)
Lemma lazy_undo m T P X B x :
  mmu_ok m ((T, P) :: X) B → user_page (alloc m) B x 1 → ¬ table_at ((T, P) :: X) (x * 4096) → x ≠ 0 →
  total ((T, P) :: X) (x * 4096) = 0%nat →
  ∃ m' B', put_frame (x * 4096) m = Ok m' ∧ mmu_ok m' ((T, P) :: X) B' ∧ put_ok m B x 1 m' B'.
Proof.
  intros (Fs & F & C) U Ht Hx H0.
  destruct (put_frame_spec m _ B x 1 F U Ht Hx ltac:(lia)) as (m' & B' & E & F' & Pu).
  exists m', B'. split; [done|]. split; [|done]. unfold mmu_ok. split_and!; [|done|by eapply clean_put].
  eapply trees_frame; [exact Fs|]. intros a i Ha. apply (pu_words _ _ _ _ _ _ Pu). left. by intros ->.
Qed.

(** A fresh page.  When there is no frame for a page table, the page is given
    back: at most that one frame was left. *)
Lemma lazy_fresh_spec m T P X B va fl :
  mmu_ok m ((T, P) :: X) B → user_pml4 m = cr3 T → user_va va → user_flags fl →
  ∃ r m' T' P' B', lazy_fresh va fl m = Ok (r, m') ∧ stepped m T P X B m' T' P' B' ∧
    (r = - ENOMEM ∧ P' = P ∧ (∃ x, ∀ q, ff B' q → q = x) ∨
     r = 0 ∧ ∃ x, P' = <[va := new_pte (x * 4096) fl]> P ∧ frame_of (new_pte (x * 4096) fl) = x * 4096 ∧
       user_page (alloc m') B' x 1 ∧ ff B x ∧ ∀ i, rd (x * 4096) i m' = 0).
Proof.
  intros M Er Hv Hu. unfold lazy_fresh.
  destruct (alloc_page_spec m _ B M) as
    [[-> N]|(x & m1 & B1 & -> & M1 & Ux & Hp & Em & Eu & Hx & Fx & Ez & Or & _ & Hf & Ec)]; cbn [mbind outcome_bind].
  { exists (- ENOMEM), m, T, P, B. split; [by destruct m|]. split; [apply grows_stepped; [done|done|apply grows_refl]|].
    left. split_and!; [done|done|]. exists 0. intros q Hq. by destruct (N q). }
  rewrite (proj2 (Z.eqb_neq _ _)) by lia. rewrite <- Em. unfold lazy_map. rewrite Eu, Er.
  pose proof (alloc_stepped m T P X B m1 B1 x M1 Em Ez Ec Or Fx) as St1.
  pose proof (page_frame m1 B1 _ x 1 (proj1 (proj2 M1)) Ux) as Wx.
  destruct (free_unmapped _ _ _ _ (proj1 (proj2 M)) Fx) as [T0 Tx].
  destruct (map_one m1 T P X B1 va (x * 4096) fl M1 Hv Hu) as (r & m2 & T2 & P2 & B2 & -> & M2 & G & C).
  { unfold frame_of. by rewrite mask_frame. }
  assert (stepped m T P X B m2 T2 P2 B2) as St2.
  { eapply stepped_trans; [exact St1|by eapply grows_stepped|by intros y [? _]%Hf|by left]. }
  assert (user_page (alloc m2) B2 x 1) as U2 by (eapply user_page_keeps; [exact Ux|apply G..]).
  cbn [mbind outcome_bind]. destruct C as [(-> & -> & N)|(-> & ->)]; cbn [Z.eqb ENOMEM Z.opp negb].
  - assert (x * 4096 ≠ zero_page (alloc m2)) as Hz by apply U2. rewrite (proj2 (Z.eqb_neq (x * 4096) _)) by done. cbn [negb].
    assert (¬ table_at ((T2, P) :: X) (x * 4096)) as Ht.
    { intros [H|(y & Ey & Hy)]%(grows_table _ _ _ _ _ _ _ _ _ G); [done|]. apply Hf in Hy as [_ ?]. lia. }
    destruct (lazy_undo m2 T2 P X B2 x M2 U2 Ht Hx T0) as (m3 & B3 & -> & M3 & Pu). cbn [mbind outcome_bind].
    exists (- ENOMEM), m3, T2, P, B3. split; [done|].
    destruct St2 as [_ S2 S3 S4 S5 S6]. split.
    + constructor; [done|rewrite (pu_root _ _ _ _ _ _ Pu); done|done|rewrite (pu_zero _ _ _ _ _ _ Pu); done| |].
      * intros y r' U Hy. destruct (pu_le _ _ _ _ _ _ Pu y r' U) as (r1 & U1 & H1).
        destruct (S5 y r1 U1 Hy) as (r0 & U0 & H0). exists r0. split; [done|lia].
      * intros y i Hy Hty. rewrite (pu_words _ _ _ _ _ _ Pu); [by apply S6|]. left. intros E. by replace y with x in Hy by lia.
    + left. split_and!; [done|done|]. exists x. intros q [?|[? _]]%(pu_free _ _ _ _ _ _ Pu); [by destruct (N q)|done].
  - exists 0, m2, T2, (<[va := new_pte (x * 4096) fl]> P), B2. split; [done|]. split; [done|]. right. split; [done|].
    exists x. split_and!; [done|by apply new_pte_frame|done|done|]. intros i.
    rewrite (gr_data _ _ _ _ _ _ G); [rewrite Em; by apply (proj1 (proj2 (proj2 M)))|apply (up_used _ _ _ _ Ux)|].
    intros p a Ha ->. apply Tx. by eapply head_table.
Qed.
