(* ===== verification/Fault.v ===== *)
(** * Page faults of a process

    The page-fault path of exceptions.c on an address space that satisfies
    [space_ok]: every fault from user mode returns with the invariant kept, an
    access the VMA permits succeeds when it is run again, and a resolved fault
    is invisible to the program: every page reads as before, a page that was
    not there yet as zeroes. *)

From S2P Require Import Prelude Rbtree Vma VmaSpec VmaRange Mmap MmapSpec Pmm PmmList PmmSpec PmmAlloc.
From S2P Require Import PmmInit PmmSystem Paging PagingSpec PagingMap MmSystem Vmm VmmSpec.

#[local] Abbreviation aspace := (addr_space mmu).

(** ** The page a program sees *)

Definition page_of (a : Z) : Z := Z.ldiff a PAGE_MASK.

(** Word [i] of the page at [va]; a page that is not present is filled with
    zeroes on demand. *)
Definition page_word (m : mmu) (va i : Z) : Z :=
  match mmu_pte m va with Some e => rd (frame_of e) i m | None => 0 end.

Lemma page_of_eq a : page_of a = a - a mod 4096.
Proof. apply ldiff_page_mask. Qed.

Lemma page_of_aligned a : page_aligned (page_of a).
Proof. rewrite page_of_eq. unfold page_aligned. rewrite Zminus_mod_idemp_r. by rewrite Z.sub_diag. Qed.

Lemma page_of_in v a : vma_ok v → contains v a → contains v (page_of a) ∧ user_va (page_of a).
Proof.
  intros [H0 Hne Hend As Ae] [H1 H2]. rewrite page_of_eq. unfold page_aligned in *.
  assert (v_start v ≤ a - a mod 4096) as Hs.
  { apply Z.mod_divide in As as [k Hk]; [|lia]. pose proof (Z.div_mod a 4096 ltac:(lia)). rewrite Hk in *. 
    assert (k ≤ a / 4096) by (apply Z.div_le_lower_bound; lia). lia. }
  pose proof (Z.mod_pos_bound a 4096). split; [split; lia|]. split; [|lia].
  rewrite <- page_of_eq. apply page_of_aligned.
Qed.

(** A page's contents survive a step that keeps its entry. *)
Lemma stepped_word m T P X B m' T' P' B' va i :
  mmu_ok m ((T, P) :: X) B → user_pml4 m = cr3 T → stepped m T P X B m' T' P' B' → P' !! va = P !! va →
  page_word m' va i = page_word m va i.
Proof.
  intros M Er [M' R' T0 Z' _ D] Ep. unfold page_word. assert (user_pml4 m' = cr3 T') as Er' by congruence.
  rewrite (mmu_pte_leaf m' T' P' X B' va M' Er'), (mmu_pte_leaf m T P X B va M Er), Ep.
  destruct (P !! va) as [e|] eqn:He; [|done]. eapply mapped_data; [exact M|exact D|by left|done].
Qed.

(** ** The invariant of the address space *)

Lemma fault_space_ok (s : aspace) l T P X B m' T' P' B' :
  space_ok s l → mmu_ok (as_pg s) ((T, P) :: X) B → user_pml4 (as_pg s) = cr3 T →
  stepped (as_pg s) T P X B m' T' P' B' →
  (∀ va e, P' !! va = Some e → P !! va = Some e ∨
     ∃ f, flags_at l va = Some f ∧ pte_allowed e f ∧ private m' e) →
  space_ok (with_pg m' s) l.
Proof.
  intros [W _ Sb Sp Sc Sx] M Er St HP. pose proof St as [M' R' T0 Z' Ru D].
  assert (user_pml4 m' = cr3 T') as Er' by congruence.
  assert (∀ va, pte_at (as_pg (with_pg m' s)) va = P' !! va) as E'.
  { intros va. cbn [pte_at mmu_laws as_pg with_pg]. by rewrite (mmu_pte_leaf m' T' P' X B' va M' Er'). }
  assert (∀ va, pte_at (as_pg s) va = P !! va) as E.
  { intros va. cbn [pte_at mmu_laws]. by rewrite (mmu_pte_leaf _ T P X B va M Er). }
  constructor; [by destruct W|by exists T', P', X, B'|done| | |done].
  - intros a e Aa He. rewrite E' in He. destruct (HP a e He) as [Ho|(f & Ef & Hf & _)]; [|by exists f].
    apply (Sp a e Aa). by rewrite E.
  - intros a e Aa He. rewrite E' in He. destruct (HP a e He) as [Ho|(f & _ & _ & Hf)]; [|done].
    intros Hw. cbn [as_pg with_pg mm_zero_page mmu_paging]. fold (frame_of e).
    destruct (Sc a e Aa ltac:(by rewrite E) Hw) as [Hz Hr]. cbn [mm_zero_page mmu_paging] in Hz. fold (frame_of e) in Hz, Hr.
    rewrite Z'. split; [done|].
    destruct M' as (_ & F' & _). rewrite <- Z' in Hz.
    destruct (refcount_mapped m' _ B' (T', P') a e F' ltac:(by left) He Hz) as (x & r' & Ex & U' & _ & _ & ->).
    destruct M as (_ & F & _). rewrite Z' in Hz.
    destruct (refcount_mapped (as_pg s) _ B (T, P) a e F ltac:(by left) Ho Hz) as (y & r & Ey & U & _ & _ & Er1).
    assert (y = x) as -> by lia. destruct (Ru x r' U') as (r0 & U0 & Hle); [apply U|].
    rewrite Er1 in Hr. assert (r0 = r) by (pose proof (up_ref _ _ _ _ U); pose proof (up_ref _ _ _ _ U0); congruence). lia.
Qed.

(** A page with a single reference is private. *)
Lemma private_page_private m L B e w x :
  frames_ok (alloc m) B L → private_page m B e w x → private m e.
Proof.
  intros F [_ _ (y & Ey & U)] _. fold (frame_of e). rewrite Ey. split; [apply U|].
  cbn [Vma.pmm_user_refcount mmu_paging]. by rewrite (refcount_user _ _ _ _ (f_pmm _ _ _ F) U).
Qed.

(** ** Accesses *)

Inductive access := Load | Store | Fetch.

#[export] Instance access_eq_dec : EqDecision access.
Proof. solve_decision. Defined.

(** The access an error code reports. *)
Definition access_of (ec : Z) : access :=
  if has ec PF_EC_ID then Fetch else if has ec PF_EC_W then Store else Load.

Definition vma_permits (f : Z) (a : access) : bool :=
  match a with Load => has f VMA_READ | Store => has f VMA_WRITE | Fetch => has f VMA_EXEC end.

Definition pte_permits (e : Z) (a : access) : bool :=
  has e PTE_USER && match a with Load => true | Store => has e PTE_WRITE | Fetch => negb (has e PTE_NX) end.

(** At most one frame is left. *)
Definition starved (m : mmu) : Prop := ∃ L B x, mmu_ok m L B ∧ ∀ q, ff B q → q = x.

Definition words_kept (m m' : mmu) : Prop :=
  ∀ va i, 0 ≤ i < 512 → page_word m' va i = page_word m va i.

Lemma words_kept_refl m : words_kept m m.
Proof. by intros va i _. Qed.

(** A step that enters one page keeps the words when that page keeps its. *)
Lemma entered_words m T P X B va e' m' T' B' :
  mmu_ok m ((T, P) :: X) B → user_pml4 m = cr3 T → entered m T P X B va e' m' T' B' →
  (∀ i, 0 ≤ i < 512 → rd (frame_of e') i m' = page_word m va i) → words_kept m m'.
Proof.
  intros M Er St Hw vb i Hi. destruct (decide (vb = va)) as [->|Hne].
  - rewrite <- Hw by done. unfold page_word. pose proof St as [M' R' T0 _ _ _].
    by rewrite (mmu_pte_leaf m' T' _ X B' va M' ltac:(congruence)), lookup_insert_eq.
  - eapply stepped_word; [exact M|exact Er|exact St|]. by rewrite lookup_insert_ne.
Qed.

Lemma entered_pte m T P X B va e' m' T' B' :
  user_pml4 m = cr3 T → entered m T P X B va e' m' T' B' → mmu_pte m' va = Some e'.
Proof.
  intros Er [M' R' T0 _ _ _]. by rewrite (mmu_pte_leaf m' T' _ X B' va M' ltac:(congruence)), lookup_insert_eq.
Qed.

Lemma entered_space (s : aspace) l T P X B va e' m' T' B' f :
  space_ok s l → mmu_ok (as_pg s) ((T, P) :: X) B → user_pml4 (as_pg s) = cr3 T →
  entered (as_pg s) T P X B va e' m' T' B' → flags_at l va = Some f → pte_allowed e' f → private m' e' →
  space_ok (with_pg m' s) l.
Proof.
  intros O M Er St Ef Ha Hp. eapply fault_space_ok; [done|done|done|exact St|].
  intros vb e [[<- <-]|[_ H]]%lookup_insert_Some; [right; by exists f|by left].
Qed.

(** ** The two handlers on an address space *)

Lemma cow_space (s : aspace) l va f :
  space_ok s l → user_va va → flags_at l va = Some f → has f VMA_WRITE = true →
  mmu_pte (as_pg s) va = None ∧ vmm_handle_cow_fault va (as_pg s) = Ok (- ENOENT, as_pg s) ∨
  starved (as_pg s) ∧ vmm_handle_cow_fault va (as_pg s) = Ok (- ENOMEM, as_pg s) ∨
  ∃ m' e', vmm_handle_cow_fault va (as_pg s) = Ok (0, m') ∧ space_ok (with_pg m' s) l ∧
    words_kept (as_pg s) m' ∧ mmu_pte m' va = Some e' ∧ pte_permits e' Store = true.
Proof.
  intros O Hv Ef Hf. destruct (so_pg _ _ O) as (T & P & X & B & M & Er).
  pose proof (mmu_pte_leaf _ T P X B va M Er) as Ep. destruct (P !! va) as [e|] eqn:He.
  - right. destruct (cow_spec _ T P X B va e M Er Hv He) as [[-> N]|(m' & B' & e' & -> & St & Pp & Hu & Hw)].
    + left. split; [|done]. exists ((T, P) :: X), B, 0. split; [done|]. intros q Hq. by destruct (N q).
    + right. exists m', e'. pose proof (entered_pte _ _ _ _ _ _ _ _ _ _ Er St) as Ee'.
      split_and!; [done| | |done|unfold pte_permits; rewrite Hu; apply Pp].
      * eapply entered_space; [done|done|done|exact St|done| |].
        -- split; [by intros _|]. rewrite (pp_nx _ _ _ _ _ Pp). done.
        -- eapply private_page_private; [|exact Pp]. apply (en_ok _ _ _ _ _ _ _ _ _ St).
      * eapply entered_words; [done|done|exact St|]. intros i Hi. rewrite Hw by done. unfold page_word. by rewrite Ep.
  - left. split; [done|]. unfold vmm_handle_cow_fault. rewrite (ldiff_aligned va (proj1 Hv)), Er.
    by rewrite (get_flags_leaf _ T P X B va M Hv), He.
Qed.

(** The flags the lazy path writes. *)
Definition lazy_flags (a : access) : Z :=
  match a with
  | Load => Z.lor PTE_USER PTE_NX
  | Store => Z.lor (Z.lor PTE_USER PTE_WRITE) PTE_NX
  | Fetch => PTE_USER
  end.

Lemma lazy_flags_ok pa a : user_flags (lazy_flags a) ∧ pte_permits (new_pte pa (lazy_flags a)) a = true ∧
  has (new_pte pa (lazy_flags a)) PTE_WRITE = match a with Store => true | _ => false end ∧
  has (new_pte pa (lazy_flags a)) PTE_NX = match a with Fetch => false | _ => true end.
Proof.
  assert (user_flags (lazy_flags a)) as Hu by (by destruct a). split; [done|].
  destruct (new_pte_flags pa _ Hu) as (H1 & _ & H2 & H3). unfold pte_permits. rewrite H1, H2, H3. by destruct a.
Qed.

Lemma lazy_cases v va ec m :
  vmm_handle_lazy_fault v va ec m =
  if negb (vma_permits (v_flags v) (access_of ec)) then Ok (- EACCES, m) else
  match access_of ec with
  | Load => lazy_map va (zero_page (alloc m)) (lazy_flags Load) m
  | a => lazy_fresh va (lazy_flags a) m
  end.
Proof.
  unfold vmm_handle_lazy_fault, access_of, LAZY_EC_ID, LAZY_EC_W, PF_EC_ID, PF_EC_W.
  destruct (has ec 16), (has ec 2); simpl; by destruct (negb _).
Qed.

Lemma lazy_allowed pa f a :
  vma_permits f a = true → pte_allowed (new_pte pa (lazy_flags a)) f.
Proof.
  intros H. destruct (lazy_flags_ok pa a) as (_ & _ & Hw & Hn). unfold pte_allowed, writable, executable.
  rewrite Hw, Hn. by destruct a.
Qed.

(** What the lazy handler promises about the page it was asked for. *)
Definition lazy_done (m : mmu) (va : Z) (a : access) (r : Z) (m' : mmu) : Prop :=
  r = - ENOMEM ∧ starved m' ∨ r = 0 ∧ ∃ e', mmu_pte m' va = Some e' ∧ pte_permits e' a = true.

Lemma lazy_load_space (s : aspace) l va f :
  space_ok s l → user_va va → flags_at l va = Some f →
  ∃ r m', lazy_map va (zero_page (alloc (as_pg s))) (lazy_flags Load) (as_pg s) = Ok (r, m') ∧
    space_ok (with_pg m' s) l ∧ (mmu_pte (as_pg s) va = None → words_kept (as_pg s) m') ∧
    lazy_done (as_pg s) va Load r m'.
Proof.
  intros O Hv Ef. destruct (so_pg _ _ O) as (T & P & X & B & M & Er).
  destruct (lazy_flags_ok (zero_page (alloc (as_pg s))) Load) as (Hu & Hp & Hw & Hn).
  destruct (lazy_zero_spec _ T P X B va _ M Er Hv Hu) as (r & m' & T' & P' & B' & -> & St & C).
  exists r, m'. split; [done|]. destruct C as [(-> & -> & N)|(-> & ->)].
  - split_and!.
    + eapply fault_space_ok; [done|done|done|exact St|]. intros; by left.
    + intros _ vb i _. by eapply stepped_word.
    + left. split; [done|]. exists ((T', P) :: X), B', 0. split; [apply St|]. intros q Hq. by destruct (N q).
  - split_and!.
    + eapply entered_space; [done|done|done|exact St|done| |].
      * split; [by rewrite Hw|by rewrite Hn].
      * intros H. by rewrite Hw in H.
    + intros Hab. eapply entered_words; [done|done|exact St|]. intros i Hi. unfold page_word. rewrite Hab.
      destruct (page_entry (zero_page (alloc (as_pg s))) _ Hu) as (_ & Efr & _).
      unfold new_pte, frame_of. rewrite Efr. fold (frame_of (zero_page (alloc (as_pg s)))).
      rewrite (zero_frame _ B ((T, P) :: X)) by apply M. rewrite <- (en_zero _ _ _ _ _ _ _ _ _ St).
      apply (proj2 (proj2 (proj2 (en_ok _ _ _ _ _ _ _ _ _ St)))).
    + right. split; [done|]. eexists. split; [by eapply entered_pte|done].
Qed.

Lemma lazy_fresh_space (s : aspace) l va f a :
  space_ok s l → user_va va → flags_at l va = Some f → vma_permits f a = true →
  ∃ r m', lazy_fresh va (lazy_flags a) (as_pg s) = Ok (r, m') ∧
    space_ok (with_pg m' s) l ∧ (mmu_pte (as_pg s) va = None → words_kept (as_pg s) m') ∧
    lazy_done (as_pg s) va a r m'.
Proof.
  intros O Hv Ef Hper. destruct (so_pg _ _ O) as (T & P & X & B & M & Er).
  destruct (lazy_fresh_spec _ T P X B va _ M Er Hv (proj1 (lazy_flags_ok 0 a))) as (r & m' & T' & P' & B' & -> & St & C).
  exists r, m'. split; [done|]. destruct C as [(-> & -> & x & N)|(-> & x & -> & Efr & Ux & Fx & Hz)].
  - split_and!.
    + eapply fault_space_ok; [done|done|done|exact St|]. intros; by left.
    + intros _ vb i _. by eapply stepped_word.
    + left. split; [done|]. exists ((T', P) :: X), B', x. split; [apply St|done].
  - destruct (lazy_flags_ok (x * 4096) a) as (Hu & Hp & Hw & Hn). split_and!.
    + eapply entered_space; [done|done|done|exact St|done|by apply lazy_allowed|].
      eapply private_page_private; [apply (en_ok _ _ _ _ _ _ _ _ _ St)|]. constructor; [done|symmetry; apply negb_involutive|].
      exists x. by split.
    + intros Hab. eapply entered_words; [done|done|exact St|]. intros i Hi. unfold page_word. by rewrite Hab, Efr.
    + right. split; [done|]. eexists. split; [by eapply entered_pte|done].
Qed.

Lemma lazy_space (s : aspace) l v va ec :
  space_ok s l → user_va va → flags_at l va = Some (v_flags v) →
  ∃ r m', vmm_handle_lazy_fault v va ec (as_pg s) = Ok (r, m') ∧ space_ok (with_pg m' s) l ∧
    (mmu_pte (as_pg s) va = None → words_kept (as_pg s) m') ∧
    (r = - EACCES ∧ m' = as_pg s ∧ vma_permits (v_flags v) (access_of ec) = false ∨
     vma_permits (v_flags v) (access_of ec) = true ∧ lazy_done (as_pg s) va (access_of ec) r m').
Proof.
  intros O Hv Ef. rewrite lazy_cases. destruct (vma_permits _ _) eqn:Hp; cbn [negb].
  - assert (∃ r m', match access_of ec with
      | Load => lazy_map va (zero_page (alloc (as_pg s))) (lazy_flags Load) (as_pg s)
      | a => lazy_fresh va (lazy_flags a) (as_pg s) end = Ok (r, m') ∧ space_ok (with_pg m' s) l ∧
      (mmu_pte (as_pg s) va = None → words_kept (as_pg s) m') ∧ lazy_done (as_pg s) va (access_of ec) r m')
      as (r & m' & H1 & H2 & H3 & H4).
    { destruct (access_of ec); [by eapply lazy_load_space|by eapply lazy_fresh_space|by eapply lazy_fresh_space]. }
    exists r, m'. split_and!; try done. by right.
  - exists (- EACCES), (as_pg s). split; [done|]. split; [by destruct s|].
    split; [intros _; apply words_kept_refl|by left].
Qed.

(** ** The exception handler *)

Lemma find_vma (s : aspace) l a :
  space_ok s l →
  vma_find a s = Ok None ∧ flags_at l a = None ∨
  ∃ i v, vma_find a s = Ok (Some i) ∧ as_vma s !! i = Some v ∧ flags_at l a = Some (v_flags v) ∧
    flags_at l (page_of a) = Some (v_flags v) ∧ user_va (page_of a).
Proof.
  intros O. pose proof (so_wf _ _ O) as W. rewrite (vma_find_spec s l a W).
  destruct (vlookup l a) as [[i v]|] eqn:E; cbn [fmap option_fmap option_map fst]; [right|left].
  - apply vlookup_Some in E as [Hin Hc]; [|apply W..]. exists i, v.
    assert (vma_ok v) as Ov by (by eapply (all_ok_elem _ (i, v)); [apply (wf_ok _ _ W)|]).
    destruct (page_of_in v a Ov Hc) as [Hp Hu]. split; [done|]. split.
    { pose proof (wf_data _ _ W) as D. rewrite Forall_forall in D. exact (D _ Hin). }
    split_and!; try apply Hu; apply flags_at_Some; try apply W; by exists (i, v).
  - split; [done|]. apply flags_at_None. by apply vlookup_None.
Qed.

Definition resumes (s : aspace) l cr2 (a : access) (r : outcome (verdict * option aspace)) : Prop :=
  ∃ s' e', r = Ok (Resume, Some s') ∧ space_ok s' l ∧ words_kept (as_pg s) (as_pg s') ∧
    mmu_pte (as_pg s') (page_of cr2) = Some e' ∧ pte_permits e' a = true.

Lemma try_cow_spec (s : aspace) l cr2 ec :
  space_ok s l →
  ∃ b s', try_cow cr2 ec (Some s) = Ok (b, Some s') ∧ space_ok s' l ∧ words_kept (as_pg s) (as_pg s') ∧
    (b = false → s' = s) ∧
    (b = true → ∃ e', mmu_pte (as_pg s') (page_of cr2) = Some e' ∧ pte_permits e' Store = true) ∧
    (b = true → has ec PF_EC_P = true ∧ has ec PF_EC_W = true ∧ ∃ f, flags_at l cr2 = Some f ∧ has f VMA_WRITE = true) ∧
    (∀ f, b = false → has ec PF_EC_P = true → has ec PF_EC_W = true → flags_at l cr2 = Some f → has f VMA_WRITE = true →
       mmu_pte (as_pg s) (page_of cr2) = None ∨ starved (as_pg s)).
Proof.
  intros O. unfold try_cow. destruct (has ec PF_EC_P && has ec PF_EC_W) eqn:C; cbn [negb].
  2:{ exists false, s. apply andb_false_iff in C. split_and!; try done.
      intros f _ H1 H2. destruct C; congruence. }
  apply andb_true_iff in C as [CP CW].
  destruct (find_vma s l cr2 O) as [[-> En]|(i & v & -> & Ei & Ea & Ep & Hv)]; cbn [mbind outcome_bind].
  { exists false, s. split_and!; try done. intros f _ _ _ Hf. by rewrite En in Hf. }
  rewrite Ei. cbn [mbind outcome_bind deref]. destruct (has (v_flags v) VMA_WRITE) eqn:Hw; cbn [negb].
  2:{ exists false, s. split_and!; try done. intros f _ _ _ Hf. rewrite Ea in Hf. congruence. }
  fold (page_of cr2).
  destruct (cow_space s l (page_of cr2) _ O Hv Ep Hw) as [[Ha ->]|[[St ->]|(m' & e' & -> & O' & Wk & Ee & Pe)]];
    cbn [mbind outcome_bind Z.eqb ENOENT ENOMEM Z.opp].
  - exists false, s. split_and!; try done; [by destruct s|intros; by left].
  - exists false, s. split_and!; try done; [by destruct s|intros; by right].
  - exists true, (with_pg m' s). split_and!; try done; intros _; [by exists e'|]. split_and!; try done. by exists (v_flags v).
Qed.

Lemma try_lazy_spec (s : aspace) l cr2 ec :
  space_ok s l →
  ∃ b s', try_lazy cr2 ec (Some s) = Ok (b, Some s') ∧ space_ok s' l ∧
    ((has ec PF_EC_P = false → mmu_pte (as_pg s) (page_of cr2) = None) → words_kept (as_pg s) (as_pg s')) ∧
    (b = true → has ec PF_EC_P = false ∧ (∃ f, flags_at l cr2 = Some f ∧ vma_permits f (access_of ec) = true) ∧
       ∃ e', mmu_pte (as_pg s') (page_of cr2) = Some e' ∧ pte_permits e' (access_of ec) = true) ∧
    (b = false → s' = s ∧ (has ec PF_EC_P = true ∨ (∀ f, flags_at l cr2 = Some f → vma_permits f (access_of ec) = false)) ∨
       starved (as_pg s') ∧ ∃ f, flags_at l cr2 = Some f ∧ vma_permits f (access_of ec) = true).
Proof.
  intros O. unfold try_lazy. destruct (has ec PF_EC_P) eqn:C.
  { exists false, s. split_and!; try done. intros _. left. split; [done|by left]. }
  destruct (find_vma s l cr2 O) as [[-> En]|(i & v & -> & Ei & Ea & Ep & Hv)]; cbn [mbind outcome_bind].
  { exists false, s. split_and!; try done. intros _. left. split; [done|right].
    intros f Hf. by rewrite En in Hf. }
  rewrite Ei. cbn [mbind outcome_bind deref]. fold (page_of cr2).
  destruct (lazy_space s l v (page_of cr2) ec O Hv Ep) as (r & m' & -> & O' & Wk & D). cbn [mbind outcome_bind].
  exists (r =? 0), (with_pg m' s). split_and!; try done.
  - intros Hab. by apply Wk, Hab.
  - intros Hr. assert (r = 0) as -> by lia. split; [done|].
    destruct D as [(D & _)|(Hp & [(D & _)|(_ & e' & D)])]; [done|done|].
    split; [by exists (v_flags v)|by exists e'].
  - intros Hr. destruct D as [(-> & -> & Hp)|(Hp & [(-> & D)|(-> & _)])]; [|right; split; [done|by exists (v_flags v)]|done].
    left. split; [by destruct s|right]. intros f Hf. rewrite Ea in Hf. by injection Hf as <-.
Qed.

(** A user-mode fault always returns, with the address space consistent. *)
Lemma user_fault_returns (s : aspace) l st cr2 :
  space_ok s l → fault_from_user st = true → st_vector st ≠ 7 →
  ∃ v s', exceptions_handle st cr2 (Some s) = Ok (v, Some s') ∧ space_ok s' l.
Proof.
  intros O Hu H7. unfold exceptions_handle. rewrite (proj2 (Z.eqb_neq _ _)) by done. rewrite Hu.
  destruct (st_vector st =? 14); [|by exists Kill, s].
  destruct (try_cow_spec s l cr2 (u32 (st_error_code st)) O) as (b & s1 & -> & O1 & _). cbn [mbind outcome_bind].
  destruct b; [by exists Resume, s1|].
  destruct (try_lazy_spec s1 l cr2 (u32 (st_error_code st)) O1) as (b & s2 & -> & O2 & _). cbn [mbind outcome_bind].
  destruct b; [by exists Resume, s2|by exists Kill, s2].
Qed.

(** The trap frame the processor builds for a faulting access. *)
Definition fault_code (m : mmu) (cr2 : Z) (a : access) : Z :=
  (match mmu_pte m (page_of cr2) with Some _ => PF_EC_P | None => 0 end) + PF_EC_U +
  match a with Load => 0 | Store => PF_EC_W | Fetch => PF_EC_ID end.

Definition page_fault (m : mmu) (cr2 : Z) (a : access) : cpu_state := CpuState 14 (fault_code m cr2 a) 0x23.

Lemma fault_bits m cr2 a :
  let st := page_fault m cr2 a in
  let ec := u32 (st_error_code st) in
  fault_from_user st = true ∧ access_of ec = a ∧ has ec PF_EC_P = bool_decide (is_Some (mmu_pte m (page_of cr2))) ∧
  has ec PF_EC_W = match a with Store => true | _ => false end.
Proof.
  unfold page_fault, fault_code, fault_from_user, access_of. cbn [st_cs st_vector st_error_code].
  destruct (mmu_pte m (page_of cr2)); [rewrite bool_decide_true by done|rewrite bool_decide_false by (by intros [? ?])];
    by destruct a.
Qed.

(** What the handler does with the fault of an access. *)
Lemma fault_handled (s : aspace) l cr2 a :
  space_ok s l →
  ∃ v s', exceptions_handle (page_fault (as_pg s) cr2 a) cr2 (Some s) = Ok (v, Some s') ∧
    space_ok s' l ∧ words_kept (as_pg s) (as_pg s') ∧
    (v = Resume → (∃ f, flags_at l cr2 = Some f ∧ vma_permits f a = true) ∧
       ∃ e', mmu_pte (as_pg s') (page_of cr2) = Some e' ∧ pte_permits e' a = true) ∧
    (v = Kill → starved (as_pg s') ∧ (∃ f, flags_at l cr2 = Some f ∧ vma_permits f a = true) ∨
       s' = s ∧ (mmu_pte (as_pg s) (page_of cr2) = None ∨ a = Store →
                 ∀ f, flags_at l cr2 = Some f → vma_permits f a = false)).
Proof.
  intros O. destruct (fault_bits (as_pg s) cr2 a) as (Hu & Ha & HP & HW). cbn zeta in *.
  unfold exceptions_handle. rewrite Hu. cbn [st_vector page_fault Z.eqb Pos.eqb].
  fold (page_fault (as_pg s) cr2 a). set (ec := u32 _) in *.
  destruct (try_cow_spec s l cr2 ec O) as (b & s1 & -> & O1 & W1 & K1 & Y1 & Q1 & N1). cbn [mbind outcome_bind].
  destruct b.
  - exists Resume, s1. destruct (Q1 eq_refl) as (_ & Hw & f & Ef & Hf). rewrite HW in Hw. destruct a; try done.
    split_and!; try done. intros _. split; [by exists f|by apply Y1].
  - rewrite (K1 eq_refl) in *. clear O1 W1 K1 Y1 Q1.
    destruct (try_lazy_spec s l cr2 ec O) as (b & s2 & -> & O2 & W2 & Y2 & N2). cbn [mbind outcome_bind].
    rewrite Ha in *.
    assert (words_kept (as_pg s) (as_pg s2)) as Wk.
    { apply W2. rewrite HP. intros H%bool_decide_eq_false. by apply eq_None_not_Some. }
    destruct b; [exists Resume, s2|exists Kill, s2]; split_and!; try done.
    + intros _. by destruct (Y2 eq_refl) as (_ & ? & ?).
    + intros _. destruct (N2 eq_refl) as [[-> N]|?]; [|by left]. rewrite HP in N.
      destruct (decide (is_Some (mmu_pte (as_pg s) (page_of cr2)))) as [Hs|Hs].
      * destruct (decide (a = Store)) as [->|Hne].
        -- destruct (flags_at l cr2) as [f|] eqn:Ef; [|by right]. simpl.
           destruct (has f VMA_WRITE) eqn:Hw; [|right; split; [done|]; intros _ f' [= <-]; exact Hw].
           destruct (N1 f eq_refl) as [Hn|?]; [by rewrite HP, bool_decide_true|done|done|done| |left; split; [done|by exists f]].
           by rewrite Hn in Hs; destruct Hs.
        -- right. split; [done|]. intros [Hn|?]; [rewrite Hn in Hs; by destruct Hs|done].
      * right. split; [done|]. intros _. destruct N as [N|N]; [by rewrite bool_decide_false in N|done].
Qed.

(** ** Theorems *)

(** C22: a user access that the VMA permits and that faults, a store or any
    access to a page that is not present yet, is resolved: the
    handler resumes the program with a page-table entry that permits the
    access, every page of the process still reads as before (pages that were
    not present as zeroes) and the address space stays consistent.  The only
    other outcome is running out of memory, and then the process is killed.
    An instruction fetch from a page that is already present is excluded: see
    [fetch_after_load_kills]. *)
Theorem page_fault_progress (s : aspace) l cr2 a f :
  space_ok s l → flags_at l cr2 = Some f → vma_permits f a = true →
  mmu_pte (as_pg s) (page_of cr2) = None ∨ a = Store →
  let res := exceptions_handle (page_fault (as_pg s) cr2 a) cr2 (Some s) in
  ∃ s', space_ok s' l ∧ words_kept (as_pg s) (as_pg s') ∧
    (res = Ok (Resume, Some s') ∧
     (∃ e, mmu_pte (as_pg s') (page_of cr2) = Some e ∧ pte_permits e a = true) ∨
     res = Ok (Kill, Some s') ∧ starved (as_pg s')).
Proof.
  intros O Ef Hp Ha res. destruct (fault_handled s l cr2 a O) as (v & s' & E & O' & Wk & Hr & Hk).
  exists s'. split_and!; [done|done|]. destruct v; [left|right]; (split; [done|]); [by apply Hr|].
  destruct (Hk eq_refl) as [[? _]|[_ N]]; [done|]. specialize (N Ha f Ef). congruence.
Qed.

Lemma page_fault_progress_witness : ∃ m s', boot = Ok m ∧ space_ok s' demo_vmas ∧
  words_kept m (as_pg s') ∧
  (exceptions_handle (page_fault m 0x12345 Store) 0x12345 (Some (demo_space m)) = Ok (Resume, Some s') ∨
   exceptions_handle (page_fault m 0x12345 Store) 0x12345 (Some (demo_space m)) = Ok (Kill, Some s')).
Proof.
  destruct boot_ok as (m & B & E & M & _).
  destruct (page_fault_progress (demo_space m) demo_vmas 0x12345 Store 11 (demo_space_ok _ _ M))
    as (s' & O & W & C); [clear; done|clear; done|right; reflexivity|].
  exists m, s'. split; [exact E|]. clear E. split; [exact O|]. split; [exact W|].
  destruct C as [[C _]|[C _]]; [left|right]; exact C.
Defined.

(** A user access that no VMA permits kills the process and changes nothing;
    the kernel does not panic on it. *)
Theorem forbidden_access_killed (s : aspace) l cr2 a :
  space_ok s l → (∀ f, flags_at l cr2 = Some f → vma_permits f a = false) →
  exceptions_handle (page_fault (as_pg s) cr2 a) cr2 (Some s) = Ok (Kill, Some s).
Proof.
  intros O N. destruct (fault_handled s l cr2 a O) as (v & s' & E & O' & Wk & Hr & Hk).
  rewrite E. destruct v.
  - destruct (Hr eq_refl) as ((f & Ef & Hp) & _). specialize (N f Ef). congruence.
  - destruct (Hk eq_refl) as [[_ (f & Ef & Hp)]|[-> _]]; [|done]. specialize (N f Ef). congruence.
Qed.

Lemma forbidden_access_killed_witness : ∃ m, boot = Ok m ∧
  exceptions_handle (page_fault m 0x12345 Fetch) 0x12345 (Some (demo_space m)) = Ok (Kill, Some (demo_space m)).
Proof.
  destruct boot_ok as (m & B & E & M & _). exists m. split; [exact E|]. clear E.
  apply (forbidden_access_killed (demo_space m) demo_vmas 0x12345 Fetch (demo_space_ok _ _ M)).
  intros f Hf. vm_compute in Hf. injection Hf as <-. vm_compute. reflexivity.
Defined.

(** Word [i] of a page of the address space with PML4 [root]. *)
Definition word_of (root : Z) (m : mmu) (va i : Z) : Z :=
  match pte_of root m va with Some e => rd (frame_of e) i m | None => 0 end.

(** The contents of the other address spaces survive a step. *)
Lemma stepped_others m T P X B m' T' P' B' T2 P2 va i :
  mmu_ok m ((T, P) :: X) B → stepped m T P X B m' T' P' B' → (T2, P2) ∈ X →
  word_of (cr3 T2) m' va i = word_of (cr3 T2) m va i.
Proof.
  intros M [M' _ _ Z' _ D] H. unfold word_of.
  rewrite (pte_of_in m' _ B' T2 P2 va M'), (pte_of_in m _ B T2 P2 va M) by (by right).
  destruct (P2 !! va) as [e|] eqn:He; [|done]. eapply mapped_data; [exact M|exact D|by right|done].
Qed.

(** C21: a write to a copy-on-write page gives the process its own writable,
    non-executable page with the old contents, to which no other mapping of
    any address space refers; the pages of every other address space keep
    their entries and their contents.  When no frame is left the fault fails
    with -ENOMEM and nothing changes. *)
Theorem cow_fault_isolates m T P X B va e :
  mmu_ok m ((T, P) :: X) B → user_pml4 m = cr3 T → user_va va → P !! va = Some e →
  vmm_handle_cow_fault va m = Ok (- ENOMEM, m) ∧ (∀ p, ¬ ff B p) ∨
  ∃ m' P' B' e', vmm_handle_cow_fault va m = Ok (0, m') ∧ mmu_ok m' ((T, P') :: X) B' ∧
    (∀ a, mmu_pte m' a = if decide (a = va) then Some e' else mmu_pte m a) ∧
    has e' PTE_WRITE = true ∧ has e' PTE_NX = true ∧
    total ((T, P') :: X) (frame_of e') = 1%nat ∧ words_kept m m' ∧
    others_same X m m' ∧ ∀ T2 P2 a i, (T2, P2) ∈ X → word_of (cr3 T2) m' a i = word_of (cr3 T2) m a i.
Proof.
  intros M Er Hv He. destruct (cow_spec m T P X B va e M Er Hv He) as [?|(m' & B' & e' & E & St & Pp & Hu & Hw)];
    [by left|right]. exists m', (<[va := e']> P), B', e'. pose proof St as [M' R' _ Z' _ _].
  assert (user_pml4 m' = cr3 T) as Er' by congruence. destruct Pp as [Pw Pn (y & Ey & Uy)].
  split_and!; [done|done| |done|done| | |by eapply others_kept|intros T2 P2 a i H; by eapply stepped_others].
  - intros a. rewrite (mmu_pte_leaf m' T _ X B' a M' Er'), (mmu_pte_leaf m T P X B a M Er).
    case_decide as Ha; [subst; by rewrite lookup_insert_eq|by rewrite lookup_insert_ne].
  - pose proof M' as (_ & F' & _).
    destruct (refcount_mapped m' _ B' (T, <[va := e']> P) va e' F') as (x & r & Ex & U & Hle & _ & _);
      [by left|apply lookup_insert_eq|rewrite Ey; apply Uy|].
    assert (x = y) as -> by lia.
    assert (r = 1) as -> by (pose proof (up_ref _ _ _ _ U); pose proof (up_ref _ _ _ _ Uy); congruence).
    pose proof (total_pos ((T, <[va := e']> P) :: X) (T, <[va := e']> P) va e' ltac:(by left) (lookup_insert_eq _ _ _)). lia.
  - eapply entered_words; [done|done|exact St|]. intros i Hi. rewrite Hw by done. unfold page_word.
    by rewrite (mmu_pte_leaf m T P X B va M Er), He.
Qed.

(** The private page of [one_page]: the fast path. *)
Lemma cow_fault_isolates_witness : ∃ m T P B e, one_page = Ok (0, m) ∧ mmu_ok m [(T, P)] B ∧
  P !! 0x400000 = Some e ∧
  (vmm_handle_cow_fault 0x400000 m = Ok (- ENOMEM, m) ∨ ∃ m', vmm_handle_cow_fault 0x400000 m = Ok (0, m')).
Proof.
  destruct one_page_ok as (m & T & P & B & e & x & E & M & Er & He & _).
  destruct (cow_fault_isolates m T P [] B 0x400000 e M Er) as [[C _]|(m' & P' & B' & e' & C & _)];
    [clear; by split|exact He|..]; exists m, T, P, B, e; (split; [exact E|]); clear E;
    (split; [exact M|]); (split; [exact He|]); [left|right; exists m']; exact C.
Defined.

(** ** Processes *)

(** What a process does to its address space: memory system calls and page
    faults that are resolved. *)
Inductive user_step : aspace → aspace → Prop :=
| step_call s s' : space_step s s' → user_step s s'
| step_fault s st cr2 s' :
    fault_from_user st = true →
    exceptions_handle st cr2 (Some s) = Ok (Resume, Some s') → user_step s s'.

Lemma user_steps_ok s l s' : space_ok s l → rtc user_step s s' → ∃ l', space_ok s' l'.
Proof.
  intros O R. revert l O. induction R as [s|s s1 s' St _ IH]; intros l O; [by exists l|].
  assert (∃ l1, space_ok s1 l1) as [l1 O1]; [|by apply (IH l1)].
  destruct St as [s s1 St|s st cr2 s1 Hu E]; [by eapply space_step_ok|].
  assert (st_vector st ≠ 7) as H7 by (intros H; unfold exceptions_handle in E; by rewrite H in E).
  destruct (user_fault_returns s l st cr2 O Hu H7) as (v & s2 & E2 & O2). rewrite E2 in E.
  injection E as -> ->. by exists l.
Qed.

(** C2: whatever sequence of mmap, munmap and mprotect calls and page faults a
    process goes through, its memory stays safe: every present page belongs to
    a mapping that allows what the page allows, no page is writable and
    executable at once, no writable page is the zero page or shared with
    another address space, and the next call or fault returns (the kernel
    never panics, follows a bad pointer or loops).  Excluded is mmap with a length that rounds up
    to 2^64 - 4096, the one for which the gap finder wraps around ([gap_wraps]). *)
Theorem process_memory_safe s l s' :
  space_ok s l → rtc user_step s s' →
  ∃ l', space_ok s' l' ∧
    (∀ a e, page_aligned a → mmu_pte (as_pg s') a = Some e →
       is_Some (flags_at l' a) ∧ ¬ (has e PTE_WRITE = true ∧ has e PTE_NX = false) ∧
       (has e PTE_WRITE = true → frame_of e ≠ zero_page (alloc (as_pg s')) ∧
          Vma.pmm_user_refcount (as_pg s') (frame_of e) ≤ 1)) ∧
    (∀ addr length prot flags fd offset, in_u64 addr → in_u64 length →
      (mmap_length length → completes s' (sys_mmap addr length prot flags fd offset (Some s'))) ∧
      completes s' (sys_munmap addr length (Some s')) ∧
      completes s' (sys_mprotect addr length prot (Some s'))) ∧
    ∀ st cr2, fault_from_user st = true → st_vector st ≠ 7 →
      ∃ v s'', exceptions_handle st cr2 (Some s') = Ok (v, Some s'') ∧ space_ok s'' l'.
Proof.
  intros O R. destruct (user_steps_ok s l s' O R) as [l' O']. exists l'. split_and!; [done| | |].
  - intros a e Aa He. destruct (so_pte _ _ O' a e Aa He) as (f & Ef & Hw & Hx). rewrite Ef.
    split_and!; [done| |intros H; by apply (so_cow _ _ O' a e Aa He)].
    intros [H1 H2]. apply (so_wx _ _ O' a f Ef). auto.
  - intros addr length prot flags fd offset Ha Hl. split_and!.
    + intros Hm. by eapply mmap_completes.
    + by eapply munmap_completes.
    + by eapply mprotect_completes.
  - intros st cr2 Hu H7. by apply user_fault_returns.
Qed.

Lemma process_memory_safe_witness : ∃ m l', boot = Ok m ∧ space_ok (demo_space m) l' ∧
  completes (demo_space m) (sys_munmap 0x11000 0x1000 (Some (demo_space m))).
Proof.
  destruct boot_ok as (m & B & E & M & _).
  destruct (process_memory_safe (demo_space m) demo_vmas (demo_space m) (demo_space_ok _ _ M)
    (rtc_refl _ _)) as (l' & O & _ & C & _).
  exists m, l'. split; [exact E|]. clear E. split; [exact O|].
  apply C; [exact 0|exact 0|exact 0|exact 0| |]; unfold in_u64; lia.
Defined.

(** A load maps the zero page without execute permission, even in an
    executable mapping, and a fetch from a present page is never resolved: the
    program is killed although its mapping is readable and executable. *)
Definition text_space (m : mmu) : aspace :=
  AddrSpace (RbHeap {[1%positive := RbNode None None None RB_BLACK]} (Some 1%positive))
    {[1%positive := Vma 0x10000 0x14000 13]} [] MMAP_BASE m.

Definition load_then_fetch : outcome (verdict * verdict) :=
  m ← boot;
  r ← exceptions_handle (page_fault m 0x10000 Load) 0x10000 (Some (text_space m));
  match r.2 with
  | None => Panic
  | Some s =>
      r' ← exceptions_handle (page_fault (as_pg s) 0x10000 Fetch) 0x10000 (Some s);
      Ok (r.1, r'.1)
  end.

Example fetch_after_load_kills : load_then_fetch = Ok (Resume, Kill).
Proof. vm_compute. done. Qed.
