(* ===== verification/Clone.v ===== *)
(** * Copy-on-write cloning: the page loop of clone_space.c

    The machine's address spaces start with the destination, followed by the
    source. *)

From S2P Require Import Prelude Rbtree Vma VmaSpec Mmap MmapSpec Pmm PmmList PmmSpec PmmAlloc.
From S2P Require Import Csprng CsprngSpec PmmInit PmmSystem Paging PagingSpec PagingMap MmSystem Vmm VmmSpec Fault.

(** ** The order of the address spaces does not matter *)

Lemma table_swap u v X a : table_at (u :: v :: X) a → table_at (v :: u :: X) a.
Proof. intros (w & p & Hw & Hp). exists w, p. split; [set_solver|done]. Qed.

Lemma total_swap u v X pa : total (u :: v :: X) pa = total (v :: u :: X) pa.
Proof. unfold total. cbn [sum_list_with]. lia. Qed.

Lemma mmu_ok_swap m u v X B : mmu_ok m (u :: v :: X) B → mmu_ok m (v :: u :: X) B.
Proof.
  intros (Fs & F & C). split; [|split; [destruct F as [O W N Z Tb A U Ow]|done]].
  - apply Forall_cons in Fs as [H1 [H2 H3]%Forall_cons]. constructor; [done|]. by constructor.
  - assert (∀ w, w ∈ v :: u :: X → w ∈ u :: v :: X) as Hin by set_solver. constructor; try done.
    + destruct Z as (z & Hz & Hr & Fz & Tz). exists z. split; [done|]. split; [done|]. split; [done|]. intros H. by apply Tz, table_swap.
    + intros a Ha. by apply Tb, table_swap.
    + inversion A as [|? ? Hu Hv]; subst. apply Forall_cons in Hu as [Huv Hu]. inversion Hv as [|? ? Hv1 Hv2]; subst.
      constructor; [constructor; [|done]|by constructor]. intros p q a Ha Hb. by apply (Huv q p a).
    + intros w va e Hw. by apply U, Hin.
    + intros w va e Hw He Hz. destruct (Ow w va e (Hin w Hw) He Hz) as (x & Ex & [Hp Ht Hn]). exists x.
      split; [done|]. constructor; [by rewrite total_swap|intros H; by apply Ht, table_swap|done].
Qed.

(** ** Taking a reference *)

Lemma get_frame_spec m L B x r :
  mmu_ok m L B → user_page (alloc m) B x r → 0 < r < 0xFFFF →
  ∃ s, pmm_get_user_page (x * 4096) (alloc m) = Ok s ∧ mmu_ok (with_alloc s m) L B ∧
    user_page s B x (r + 1) ∧ zero_page s = zero_page (alloc m) ∧ other_refs (alloc m) s x ∧
    pfn_count s = pfn_count (alloc m).
Proof.
  intros (Fs & F & [C Cz]) U Hr. pose proof F as [O W N Z Tb A Us Ow].
  destruct (get_user_spec (alloc m) B x r O U Hr) as (s & E & O' & U' & Or & _ & Ec & Ez).
  exists s. split; [done|]. split; [|by split_and!].
  split; [by eapply trees_frame|]. split; [|split; [done|cbn [alloc with_alloc]; by rewrite Ez]].
  cbn [alloc with_alloc]. constructor; rewrite ?Ec, ?Ez; try done.
  intros u va e Hu He Hz. destruct (Ow u va e Hu He Hz) as (y & Ey & [(ry & Uy & Hry) Ht Hn]).
  exists y. split; [done|]. constructor; [|done|done]. destruct (decide (y = x)) as [->|Hyx].
  - exists (r + 1). split; [done|].
    assert (ry = r) by (pose proof (up_ref _ _ _ _ U); pose proof (up_ref _ _ _ _ Uy); congruence). lia.
  - exists ry. split; [|done]. eapply (user_page_other (alloc m) B s B x); try done. by left.
Qed.

(** ** One page *)

(** The flags both sides of a shared page get: those of the source without
    write permission. *)
Definition shared_flags (e : Z) : Z := Z.ldiff (Z.land e CLONE_PTE_FLAGS_MASK) PTE_WRITE.

Lemma shared_flags_ok e : has e PTE_USER = true →
  user_flags (shared_flags e) ∧ has (shared_flags e) PTE_WRITE = false ∧ has (shared_flags e) PTE_NX = has e PTE_NX.
Proof.
  intros Hu. assert (∀ k, 0 ≤ k → has (shared_flags e) (2 ^ k) =
    Z.testbit e k && Z.testbit CLONE_PTE_FLAGS_MASK k && negb (Z.testbit PTE_WRITE k)) as Hb.
  { intros k Hk. unfold shared_flags. by rewrite has_testbit, Z.ldiff_spec, Z.land_spec. }
  unfold user_flags. change PTE_USER with (2 ^ 2) in *. change PTE_HUGE with (2 ^ 7). change PTE_WRITE with (2 ^ 1).
  change PTE_NX with (2 ^ 63). rewrite !Hb by lia. rewrite has_testbit in Hu by lia. rewrite Hu.
  rewrite has_testbit by lia. cbn -[Z.land]. rewrite !andb_true_r. split_and!; try done.
  - by rewrite andb_false_r.
  - unfold shared_flags. apply Z.bits_inj'. intros n Hn. rewrite Z.land_spec, Z.ldiff_spec, Z.land_spec, Z.bits_0.
    destruct (Z.testbit CLONE_PTE_FLAGS_MASK n) eqn:E1; [|by rewrite andb_false_r].
    destruct (Z.testbit PTE_ADDR_MASK n) eqn:E2; [|by rewrite andb_false_r]. exfalso.
    assert (Z.testbit (Z.land CLONE_PTE_FLAGS_MASK PTE_ADDR_MASK) n = true) as E by (by rewrite Z.land_spec, E1, E2).
    change (Z.land CLONE_PTE_FLAGS_MASK PTE_ADDR_MASK) with 0 in E. by rewrite Z.bits_0 in E.
  - by rewrite andb_false_r.
Qed.

(** No count can overflow while [n] more references are taken. *)
Definition few_refs (m : mmu) (n : Z) : Prop :=
  ∀ y r, p_ref <$> pfn_table (alloc m) !! y = Some r → r + n < 0xFFFF.

(** The source's entry of a cloned page. *)
Definition src_entry (e : Z) : Z := if has e PTE_WRITE then new_pte e (shared_flags e) else e.

(** The machine and the two spaces after a part of the clone. *)
Record cloned (m : mmu) (Td Ts : tables) (Pd Ps : gmap Z Z) (X : spaces) (B : gmap Z Z)
    (m' : mmu) (Td' : tables) (Pd' Ps' B' : gmap Z Z) : Prop := Cloned {
  cl_ok : mmu_ok m' ((Td', Pd') :: (Ts, Ps') :: X) B';
  cl_root : user_pml4 m' = user_pml4 m;
  cl_tree : cr3 Td' = cr3 Td;
  cl_zero : zero_page (alloc m') = zero_page (alloc m);
  cl_free : ∀ p, ff B' p → ff B p;
  cl_table : ∀ a, table_at ((Td', Pd') :: (Ts, Ps') :: X) a →
    table_at ((Td, Pd) :: (Ts, Ps) :: X) a ∨ ∃ x, a = x * 4096 ∧ ff B x;
  cl_data : data_kept ((Td, Pd) :: (Ts, Ps) :: X) m B m';
  cl_src : ∀ a, frame_of <$> Ps' !! a = frame_of <$> Ps !! a
}.

Lemma table_second u T P P' X a : table_at (u :: (T, P) :: X) a → table_at (u :: (T, P') :: X) a.
Proof. intros H%table_swap. apply table_swap. destruct u. by rewrite (table_head T P' P). Qed.

(** The source's page becomes read-only. *)
Lemma clone_protect m Td Ts Pd Ps X B va e :
  mmu_ok m ((Td, Pd) :: (Ts, Ps) :: X) B → user_va va → Ps !! va = Some e →
  ∃ m1, (if has e PTE_WRITE then paging_protect_in (cr3 Ts) va 1 (shared_flags e) m else Ok (0, m)) = Ok (0, m1) ∧
    alloc m1 = alloc m ∧ cloned m Td Ts Pd Ps X B m1 Td Pd (<[va := src_entry e]> Ps) B.
Proof.
  intros M Hv He. pose proof (mmu_ok_swap _ _ _ _ _ M) as Ms. unfold src_entry.
  destruct (has e PTE_WRITE).
  - pose proof M as (_ & F & _). destruct (f_user _ _ _ F (Ts, Ps) va e ltac:(right; by left) He) as [Hu _].
    destruct (shared_flags_ok e Hu) as (Hfl & _).
    destruct (protect_one m Ts Ps ((Td, Pd) :: X) B va _ e Ms Hv Hfl He) as (m1 & E & Ea & Er & Ew & M1).
    exists m1. split; [done|]. split; [done|]. constructor; [by apply mmu_ok_swap|done|done|by rewrite Ea|done| | |].
    + intros a Ha. left. by eapply table_second.
    + intros x i _ Ht. apply Ew. intros H. by apply Ht, table_swap.
    + intros a. destruct (decide (a = va)) as [->|Hne]; [|by rewrite lookup_insert_ne].
      rewrite lookup_insert_eq, He. simpl. f_equal. destruct (page_entry e _ Hfl) as (_ & H & _). exact H.
  - exists m. split; [done|]. split; [done|]. rewrite insert_id by done. constructor; try done. by left.
Qed.

(** The destination's entry, once its page table is there and the reference is
    taken. *)
Lemma clone_enter m Td Ts Pd Ps X B va e e0 pt :
  mmu_ok m ((Td, Pd) :: (Ts, Ps) :: X) B → user_va va → Ps !! va = Some e → Td !! path va = Some pt →
  frame_of e0 = frame_of e → has e0 PTE_USER = true → few_refs m 1 →
  let v := new_pte e0 (shared_flags e0) in
  ∃ m', (if negb (frame_of e0 =? zero_page (alloc m)) then
           s ← pmm_get_user_page (frame_of e0) (alloc m); Ok (0, with_alloc s (wr pt (pt_idx va) v m))
         else Ok (0, wr pt (pt_idx va) v m)) = Ok (0, m') ∧
    mmu_ok m' ((Td, <[va := v]> Pd) :: (Ts, Ps) :: X) B ∧ user_pml4 m' = user_pml4 m ∧
    zero_page (alloc m') = zero_page (alloc m) ∧
    (∀ y r', p_ref <$> pfn_table (alloc m') !! y = Some r' →
       ∃ r, p_ref <$> pfn_table (alloc m) !! y = Some r ∧ r' ≤ r + 1) ∧
    (∀ t i, t ≠ pt → rd t i m' = rd t i m).
Proof.
  intros M Hv He Hp Ef Hu Hfew v. pose proof M as (_ & F & _). destruct (shared_flags_ok e0 Hu) as (Hfl & _).
  assert (∀ t i, t ≠ pt → rd t i (wr pt (pt_idx va) v m) = rd t i m) as Hw.
  { intros t i Ht. rewrite rd_wr, decide_False; [done|]. by intros [= ? _]. }
  destruct (Z.eqb_spec (frame_of e0) (zero_page (alloc m))) as [Ez|Nz]; cbn [negb].
  - eexists. split; [done|]. split; [|split_and!; [done|done| |done]].
    + apply enter_page; try done. by intros Hn.
    + intros y r' H. exists r'. split; [done|lia].
  - rewrite Ef in Nz.
    destruct (f_owned _ _ _ F (Ts, Ps) va e ltac:(right; by left) He Nz) as (x & Ex & [(r & Ur & Hr) Ht Hn]).
    pose proof (total_pos ((Td, Pd) :: (Ts, Ps) :: X) (Ts, Ps) va e ltac:(right; by left) He) as Htp.
    rewrite Ex in Htp. pose proof (Hfew x r (up_ref _ _ _ _ Ur)).
    destruct (get_frame_spec m _ B x r M Ur ltac:(lia)) as (s & E & M1 & U1 & Ez1 & Or & Ec).
    rewrite Ef, Ex, E. cbn [mbind outcome_bind]. eexists. split; [done|].
    split; [|split_and!; [done|exact Ez1| |done]].
    + apply (enter_page (with_alloc s m) Td Pd ((Ts, Ps) :: X) B va e0 _ pt M1 Hv Hfl); [|done].
      intros _. exists x. rewrite Ef, Ex. split; [done|]. constructor; [exists (r + 1); split; [done|lia]|done|done].
    + intros y r'. cbn [alloc with_alloc]. destruct (decide (y = x)) as [->|Hy].
      * rewrite (up_ref _ _ _ _ U1). intros [= <-]. exists r. split; [apply Ur|lia].
      * rewrite Or by done. intros H'. exists r'. split; [done|lia].
Qed.

Lemma frame_idem e : frame_of (frame_of e) = frame_of e.
Proof. unfold frame_of. by rewrite <- Z.land_assoc, Z.land_diag. Qed.

Definition refs_up (m m' : mmu) (n : Z) : Prop :=
  ∀ y r', p_ref <$> pfn_table (alloc m') !! y = Some r' →
    ∃ r, p_ref <$> pfn_table (alloc m) !! y = Some r ∧ r' ≤ r + n.

Lemma clone_page_spec m Td Ts Pd Ps X B va :
  mmu_ok m ((Td, Pd) :: (Ts, Ps) :: X) B → user_pml4 m = cr3 Td → user_va va → few_refs m 1 →
  Ps !! va = None ∧ clone_page (cr3 Ts) va m = Ok (0, m) ∨
  ∃ e r m' Td' Pd' B', Ps !! va = Some e ∧ clone_page (cr3 Ts) va m = Ok (r, m') ∧
    cloned m Td Ts Pd Ps X B m' Td' Pd' (<[va := src_entry e]> Ps) B' ∧ refs_up m m' 1 ∧
    (r = 0 ∧ Pd' = <[va := new_pte e (shared_flags e)]> Pd ∨ r = - ENOMEM ∧ Pd' = Pd ∧ ∀ q, ¬ ff B' q).
Proof.
  intros M Er Hv Hfew. unfold clone_page.
  rewrite (get_flags_leaf m Ts Ps ((Td, Pd) :: X) B va (mmu_ok_swap _ _ _ _ _ M) Hv).
  destruct (Ps !! va) as [e|] eqn:He; [right|left; split; done]. exists e.
  pose proof M as (_ & F & _). destruct (f_user _ _ _ F (Ts, Ps) va e ltac:(right; by left) He) as [Hu Hh].
  cbn [Z.eqb ENOENT Z.opp negb]. rewrite Hh. fold (frame_of e). fold (shared_flags e).
  destruct (clone_protect m Td Ts Pd Ps X B va e M Hv He) as (m1 & E1 & Ea1 & C1). unfold src_entry in *.
  set (e1 := if has e PTE_WRITE then new_pte e (shared_flags e) else e) in *.
  assert (∀ f : Z * mmu → outcome (Z * mmu), ((if has e PTE_WRITE then paging_protect_in (cr3 Ts) va 1 (shared_flags e) m
    else Ok (0, m)) ≫= f) = f (0, m1)) as Eb by (intros f; by rewrite E1).
  rewrite Eb. clear Eb E1. cbn [Z.eqb negb]. pose proof C1 as [M1 R1 _ Z1 _ T1 D1 S1]. rewrite R1, Er.
  destruct (shared_flags_ok e Hu) as (Hfl & _).
  unfold paging_map. change (Z.to_nat 1) with 1%nat. cbn [map_loop]. rewrite (proj1 Hfl).
  destruct (descend_spec m1 Td Pd ((Ts, <[va := e1]> Ps) :: X) B va PTE_USER M1 Hv (or_intror eq_refl))
    as (r & m2 & T2 & B2 & -> & M2 & G & Cd). cbn [mbind outcome_bind].
  pose proof M1 as ([[Tr1 _] _]%Forall_cons & _). simpl in Tr1.
  assert (cloned m Td Ts Pd Ps X B m2 T2 Pd (<[va := e1]> Ps) B2) as C2.
  { constructor; [done|by rewrite (gr_root _ _ _ _ _ _ G)|by eapply cr3_grows|by rewrite (gr_zero _ _ _ _ _ _ G)|apply G| | |done].
    - intros a Ha. destruct (grows_table _ _ _ _ _ _ _ _ _ G Ha) as [H|H]; [by apply T1|by right].
    - intros x i Hx Ht. rewrite (gr_data _ _ _ _ _ _ G); [by apply D1|done|].
      intros p a Hp ->. apply Ht. by eapply head_table. }
  assert (refs_up m m2 0) as Ru.
  { intros y r' H. rewrite (gr_refs _ _ _ _ _ _ G), Ea1 in H. exists r'. split; [done|lia]. }
  destruct Cd as [[-> N]|(pt & -> & Ept)].
  { exists (- ENOMEM), m2, T2, Pd, B2. split_and!; try done; [|by right]. intros y r' H. destruct (Ru y r' H) as (r & ? & ?).
    exists r. split; [done|lia]. }
  assert (frame_of e1 = frame_of e) as Ee1.
  { subst e1. destruct (has e PTE_WRITE); [|done]. destruct (page_entry e _ Hfl) as (_ & H & _). exact H. }
  assert (few_refs m2 1) as Hfew2 by (intros y r' H; destruct (Ru y r' H) as (r & Hr & ?); specialize (Hfew y r Hr); lia).
  destruct (clone_enter m2 T2 Ts Pd (<[va := e1]> Ps) X B2 va e1 e pt M2 Hv (lookup_insert_eq _ _ _) Ept)
    as (m3 & E3 & M3 & R3 & Z3 & U3 & W3); [done|done|done|].
  fold (frame_of (frame_of e)). rewrite frame_idem. fold (new_pte e (shared_flags e)).
  cbn [Z.eqb negb]. change (zero_page (alloc (wr pt _ _ m2))) with (zero_page (alloc m2)).
  change (alloc (wr pt _ _ m2)) with (alloc m2). cbn [mbind outcome_bind Z.eqb negb alloc wr].
  destruct C2 as [_ Q1 Q2 Q3 Q4 Q5 Q6 Q7].
  exists 0, m3, T2, (<[va := new_pte e (shared_flags e)]> Pd), B2. split; [done|]. split; [exact E3|].
  split_and!; [constructor; [done|congruence|done|congruence|done| | |done]| |by left].
  - intros a [[p Hp]|H]%table_cons; apply Q5; [by eapply head_table|by apply other_table].
  - intros x i Hx Ht. rewrite W3; [by apply Q6|]. intros <-.
    destruct (Q5 (x * 4096)) as [H|(y & Ey & Hy)]; [by eapply head_table|done|]. by replace x with y in Hx by lia.
  - intros y r' H. destruct (U3 y r' H) as (r1 & H1 & ?). destruct (Ru y r1 H1) as (r0 & Hr0 & ?).
    exists r0. split; [done|lia].
Qed.

(** ** The page loop *)

Lemma cloned_trans m Td Ts Pd Ps X B m1 T1 Pd1 Ps1 B1 m2 T2 Pd2 Ps2 B2 :
  cloned m Td Ts Pd Ps X B m1 T1 Pd1 Ps1 B1 → cloned m1 T1 Ts Pd1 Ps1 X B1 m2 T2 Pd2 Ps2 B2 →
  cloned m Td Ts Pd Ps X B m2 T2 Pd2 Ps2 B2.
Proof.
  intros [M1 R1 C1 Z1 F1 Q1 D1 S1] [M2 R2 C2 Z2 F2 Q2 D2 S2].
  constructor; [done|congruence|congruence|congruence|auto| | |intros a; by rewrite S2].
  - intros a [H|(x & -> & Hx)]%Q2; [by apply Q1|right; exists x; auto].
  - intros x i Hx Ht. rewrite D2; [by apply D1|auto|]. intros [H|(y & Ey & Hy)]%Q1; [done|].
    by replace x with y in Hx by lia.
Qed.

Lemma cloned_refl m Td Ts Pd Ps X B :
  mmu_ok m ((Td, Pd) :: (Ts, Ps) :: X) B → cloned m Td Ts Pd Ps X B m Td Pd Ps B.
Proof. intros M. constructor; try done. by left. Qed.

Definition dst_entry (e : Z) : Z := new_pte e (shared_flags e).

(** The pages of [[a, b)] after the loop. *)
Definition range_cloned (a b : Z) (Pd Ps Pd' Ps' : gmap Z Z) : Prop :=
  ∀ x, page_aligned x →
    Pd' !! x = (if decide (a ≤ x < b) then dst_entry <$> Ps !! x else Pd !! x) ∧
    Ps' !! x = (if decide (a ≤ x < b) then src_entry <$> Ps !! x else Ps !! x).

Lemma clone_pages_spec end_ : ∀ fuel m Td Ts Pd Ps X B va,
  mmu_ok m ((Td, Pd) :: (Ts, Ps) :: X) B → user_pml4 m = cr3 Td →
  page_aligned va → page_aligned end_ → 0 ≤ va ≤ end_ → end_ ≤ USER_TOP →
  end_ - va < 4096 * Z.of_nat fuel → few_refs m ((end_ - va) / 4096) →
  (∀ x, page_aligned x → va ≤ x < end_ → Pd !! x = None) →
  ∃ r m' Td' Pd' Ps' B', clone_pages fuel (cr3 Ts) va end_ m = Ok (r, m') ∧
    cloned m Td Ts Pd Ps X B m' Td' Pd' Ps' B' ∧ refs_up m m' ((end_ - va) / 4096) ∧
    (r = 0 ∧ range_cloned va end_ Pd Ps Pd' Ps' ∨ r = - ENOMEM ∧ ∀ q, ¬ ff B' q).
Proof.
  induction fuel as [|fuel IH]; intros m Td Ts Pd Ps X B va M Er Av Ae Hv He Hf Hfew Hd; [lia|].
  cbn [clone_pages]. destruct (va <? end_) eqn:C; cbn [negb].
  2:{ exists 0, m, Td, Pd, Ps, B. split; [done|]. split; [by apply cloned_refl|]. split.
      - intros y r' H. exists r'. split; [done|]. replace (end_ - va) with 0 by lia. change (0 / 4096) with 0. lia.
      - left. split; [done|]. intros x _. by rewrite !decide_False by lia. }
  assert (va + 4096 ≤ end_) as Hstep.
  { unfold page_aligned in *. apply Z.mod_divide in Av as [v ->], Ae as [e ->]; lia. }
  assert (user_va va) as Uv by (split; [done|lia]).
  assert ((end_ - va) / 4096 = (end_ - (va + 4096)) / 4096 + 1) as En.
  { replace (end_ - va) with (end_ - (va + 4096) + 1 * 4096) by lia. by rewrite Z.div_add by lia. }
  assert (0 ≤ (end_ - (va + 4096)) / 4096) as Hn by (apply Z.div_pos; lia).
  assert (∃ r m1 T1 Pd1 Ps1 B1, clone_page (cr3 Ts) va m = Ok (r, m1) ∧ cloned m Td Ts Pd Ps X B m1 T1 Pd1 Ps1 B1 ∧
    refs_up m m1 1 ∧ (r = 0 ∧ (∀ x, Pd1 !! x = if decide (x = va) then dst_entry <$> Ps !! x else Pd !! x) ∧
      (∀ x, Ps1 !! x = if decide (x = va) then src_entry <$> Ps !! x else Ps !! x) ∨ r = - ENOMEM ∧ ∀ q, ¬ ff B1 q))
    as (r & m1 & T1 & Pd1 & Ps1 & B1 & -> & C1 & U1 & D1).
  { destruct (clone_page_spec m Td Ts Pd Ps X B va M Er Uv) as [[E ->]|(e & r & m1 & T1 & Pd1 & B1 & E & -> & C1 & U1 & D1)].
    - intros y r H. specialize (Hfew y r H). lia.
    - exists 0, m, Td, Pd, Ps, B. split; [done|]. split; [by apply cloned_refl|]. split.
      + intros y r' H. exists r'. split; [done|lia].
      + left. split; [done|]. split; intros x; case_decide as Hx; try done; subst x; rewrite E; [|done].
        apply Hd; [done|lia].
    - exists r, m1, T1, Pd1, (<[va := src_entry e]> Ps), B1. split_and!; try done.
      destruct D1 as [[-> ->]|(-> & _ & N)]; [left|by right].
      split; [done|]. split; intros x; case_decide as Hx; try (subst x; rewrite E); rewrite ?lookup_insert_eq, ?lookup_insert_ne by done; done. }
  cbn [mbind outcome_bind]. destruct D1 as [(-> & Hd1 & Hs1)|[-> N]]; cbn [Z.eqb ENOMEM Z.opp negb].
  2:{ exists (- ENOMEM), m1, T1, Pd1, Ps1, B1. split; [done|]. split; [done|]. split; [|by right].
      intros y r' H. destruct (U1 y r' H) as (r & ? & ?). exists r. split; [done|lia]. }
  unfold PAGE_SIZE. rewrite add64_small by lia. pose proof C1 as [M1 R1 Tr1 Z1 F1 Q1 Da1 _].
  destruct (IH m1 T1 Ts Pd1 Ps1 X B1 (va + 4096) M1) as (r & m2 & T2 & Pd2 & Ps2 & B2 & -> & C2 & U2 & D2);
    [congruence|unfold page_aligned in *; by rewrite Zplus_mod, Av|done|lia|lia|lia| | |].
  { intros y r H. destruct (U1 y r H) as (r0 & Hr0 & ?). specialize (Hfew y r0 Hr0). lia. }
  { intros x Ax Hx. rewrite Hd1, decide_False by lia. apply Hd; [done|lia]. }
  exists r, m2, T2, Pd2, Ps2, B2. split; [done|]. split; [by eapply cloned_trans|]. split.
  - intros y r' H. destruct (U2 y r' H) as (r1 & H1 & ?). destruct (U1 y r1 H1) as (r0 & Hr0 & ?). exists r0. split; [done|lia].
  - destruct D2 as [[-> D2]|D2]; [left|by right]. split; [done|]. intros x Ax. destruct (D2 x Ax) as [-> ->].
    rewrite Hd1, Hs1. assert (x = va ∨ x < va ∨ va + 4096 ≤ x) as Hx.
    { unfold page_aligned in *. apply Z.mod_divide in Av as [k ->], Ax as [j ->]; lia. }
    split; repeat case_decide; (done || lia).
Qed.

(** ** New address spaces *)

(** A frame becomes the PML4 of an empty address space. *)
Lemma add_space m L B x m' B' :
  mmu_ok m L B → pmm_ok (alloc m') B' → ff B x → 0 ≤ x < pfn_count (alloc m) → x ≠ 0 →
  pfn_count (alloc m') = pfn_count (alloc m) → zero_page (alloc m') = zero_page (alloc m) →
  (∀ y, p_ref <$> pfn_table (alloc m') !! y = p_ref <$> pfn_table (alloc m) !! y) →
  (∀ p, ff B' p ↔ ff B p ∧ p ≠ x) →
  (∀ t i, t ≠ x * 4096 → rd t i m' = rd t i m) → (∀ i, 0 ≤ i < 256 → rd (x * 4096) i m' = 0) →
  mmu_ok m' (({[[] := x * 4096]}, ∅) :: L) B'.
Proof.
  intros (Fs & F & [C Cz]) O' Fx Hx Nx Ec Ez Er Hf Hrd H0. pose proof F as [O W N (z & Hz & Hzr & Fz & Tz) Tb A U Ow].
  assert (∀ a, table_at (({[[] := x * 4096]}, ∅) :: L) a → a = x * 4096 ∨ table_at L a) as Ht.
  { intros a [[p [_ <-]%lookup_singleton_Some]|H]%table_cons; [by left|by right]. }
  destruct (free_unmapped _ _ _ _ F Fx) as [T0 Tx].
  assert (z ≠ x) as Hzx by (by intros ->).
  split; [constructor|split].
  - split; [constructor|]; simpl.
    + by rewrite lookup_singleton_eq.
    + intros p q a [<- _]%lookup_singleton_Some [<- _]%lookup_singleton_Some. done.
    + intros p i a [E _]%lookup_singleton_Some. by destruct p.
    + intros p a i [<- <-]%lookup_singleton_Some _ Hi. unfold look. rewrite H0 by apply Hi. simpl.
      by rewrite lookup_singleton_ne.
    + intros p a i [<- <-]%lookup_singleton_Some _ Hi. rewrite H0 by apply Hi. done.
    + intros va. simpl. rewrite lookup_empty. case_decide; [|done]. unfold pte_in, path. by rewrite lookup_singleton_ne.
  - eapply trees_frame; [exact Fs|]. intros a i Ha. apply Hrd. intros ->. done.
  - constructor; rewrite ?Ec, ?Ez; try done.
    + rewrite Hf. by intros [? _].
    + exists z. split; [done|]. split; [done|]. split; [rewrite Hf; by intros [? _]|]. intros [E|H]%Ht; [lia|done].
    + intros a [->|H]%Ht; [exists x; rewrite Hf; split; [done|]; split; [done|]; by intros [_ ?]|].
      destruct (Tb a H) as (y & -> & Hy & Hn). exists y. split; [done|]. split; [done|]. rewrite Hf. by intros [? _].
    + constructor; [|done]. apply Forall_forall. intros u Hu p q a. cbn [fst].
      intros [_ <-]%lookup_singleton_Some Ha. apply Tx. by exists u, q.
    + intros u va e [->|Hu]%elem_of_cons He; [done|by apply (U u va e)].
    + intros u va e [->|Hu]%elem_of_cons He Hne; [done|].
      destruct (Ow u va e Hu He Hne) as (y & Ey & [(r & [U1 U2 U3 U4] & Hr) Hty Hn]). exists y. split; [done|].
      constructor; [|intros [E|H]%Ht; [|done]|done].
      * exists r. split; [|done]. constructor; [by rewrite Ec|rewrite Hf; by intros [? _]|by rewrite Ez|by rewrite Er].
      * assert (y = x) as -> by lia. by apply U2.
  - split.
    + intros y i [Hy Hne]%Hf. rewrite Hrd by lia. by apply C.
    + intros i. rewrite Ez, Hz, Hrd by lia. rewrite <- Hz. apply Cz.
Qed.

(** [paging_clone_kernel_half] copies the upper 256 entries. *)
Lemma clone_half_loop root : ∀ n lo m, kernel_pml4 m ≠ root →
  ∃ m', for_idx n lo (λ i m, Ok (wr root i (rd (kernel_pml4 m) i m) m)) m = Ok m' ∧
    alloc m' = alloc m ∧ user_pml4 m' = user_pml4 m ∧ kernel_pml4 m' = kernel_pml4 m ∧
    ∀ t i, rd t i m' = if decide (t = root ∧ lo ≤ i < lo + Z.of_nat n) then rd (kernel_pml4 m) i m else rd t i m.
Proof.
  induction n as [|n IH]; intros lo m Hk; cbn [for_idx].
  { exists m. split_and!; try done. intros t i. by rewrite decide_False by lia. }
  cbn [mbind outcome_bind]. set (m1 := wr root lo _ m).
  destruct (IH (lo + 1) m1 Hk) as (m' & -> & E1 & E2 & E3 & E4). exists m'. split_and!; try done.
  intros t i. rewrite E4. subst m1. cbn [kernel_pml4 wr]. rewrite !rd_wr.
  rewrite (decide_False (P := (kernel_pml4 m, i) = (root, lo))) by congruence.
  destruct (decide ((t, i) = (root, lo))) as [[= -> ->]|N].
  - rewrite (decide_False (P := root = root ∧ lo + 1 ≤ lo < _)) by lia. by rewrite decide_True by lia.
  - apply decide_ext. split; intros [-> ?]; (split; [done|]); [lia|]. assert (i ≠ lo) by congruence. lia.
Qed.

Lemma clone_half_spec root m : kernel_pml4 m ≠ root →
  ∃ m', paging_clone_kernel_half root m = Ok m' ∧ alloc m' = alloc m ∧
    ∀ t i, rd t i m' = if decide (t = root ∧ 256 ≤ i < 512) then rd (kernel_pml4 m) i m else rd t i m.
Proof.
  intros Hk. destruct (clone_half_loop root 256 256 m Hk) as (m' & E & E1 & _ & _ & E4).
  exists m'. split; [exact E|]. split; [exact E1|]. exact E4.
Qed.

(** One draw is enough: the window is a power of two, so no draw is rejected. *)
Lemma aslr_one_draw rng : csprng_ok rng →
  ∃ k rng', csprng_page_offset 1 262144 rng = Ok (k * 4096, rng') ∧ csprng_ok rng' ∧ 0 ≤ k < 262144.
Proof.
  intros O. unfold csprng_page_offset, csprng_bounded. cbn [Z.eqb Z.leb Z.compare Pos.compare Pos.compare_cont].
  rewrite threshold_eq by lia. change (2 ^ 64 mod 262144) with 0.
  destruct (bounded_loop_draws 0 1 rng O) as [(n & r & s' & _ & _ & _ & Hr & -> & O')|[Hrej _]].
  2: { destruct (u64_spec rng O) as (x & s1 & E & Hx & _). destruct (Hrej 0%nat ltac:(lia)) as (y & Hy & Hlt).
    cbn [nth_draw] in Hy. rewrite E in Hy. injection Hy as <-. unfold in_u64 in Hx. lia. }
  cbn [mbind outcome_bind]. pose proof (Z.mod_pos_bound r 262144 ltac:(lia)). exists (r mod 262144), s'.
  split_and!; try done; try lia. unfold PAGE_SIZE, u64. by rewrite Z.mod_small by lia.
Qed.

Lemma mmu_ok_root r m L B : mmu_ok m L B → mmu_ok (at_root r m) L B.
Proof. intros (Fs & F & C). split; [by eapply trees_frame|]. split; [done|]. destruct C. by split. Qed.

(** An address space with nothing mapped. *)
Lemma empty_space_ok rb_ks base x m L B :
  mmu_ok m (({[[] := x * 4096]}, ∅) :: L) B → page_aligned base → 0 ≤ base ≤ MMAP_BASE →
  space_ok (AddrSpace (RbHeap ∅ None) ∅ rb_ks base (at_root (x * 4096) m)) [].
Proof.
  intros M Ha Hb. assert (x * 4096 = cr3 {[[] := x * 4096]}) as Er by (unfold cr3; by rewrite lookup_singleton_eq).
  assert (∀ a, mmu_pte (at_root (x * 4096) m) a = None) as He.
  { intros a. by rewrite (mmu_pte_leaf _ _ ∅ L B a (mmu_ok_root _ _ _ _ M) Er), lookup_empty. }
  constructor; cbn [as_pg as_mmap_base].
  - constructor; [|done|done|constructor]. exists RbtreeRep.Leaf. split_and!; [|split; [done|by exists 0%nat]|done].
    constructor; [done|done|by apply NoDup_nil_2|done].
  - eexists _, ∅, L, B. split; [by apply mmu_ok_root|done].
  - done.
  - intros a e _ H. cbn [pte_at mmu_laws] in H. by rewrite He in H.
  - intros a e _ H. cbn [pte_at mmu_laws] in H. by rewrite He in H.
  - intros a f Hf. done.
Qed.

Record created (m : mmu) (L : spaces) (x : Z) (sp : addr_space mmu) (m' : mmu) (B' : gmap Z Z) : Prop := Created {
  cr_ok : mmu_ok m' (({[[] := x * 4096]}, ∅) :: L) B';
  cr_space : space_ok sp [];
  cr_pg : as_pg sp = at_root (x * 4096) m';
  cr_base : MMAP_BASE - 2 ^ 30 < as_mmap_base sp ≤ MMAP_BASE;
  cr_kernel : ∀ i, 256 ≤ i < 512 → rd (x * 4096) i m' = rd (kernel_pml4 m) i m;
  cr_words : ∀ t i, t ≠ x * 4096 → rd t i m' = rd t i m;
  cr_refs : ∀ y, p_ref <$> pfn_table (alloc m') !! y = p_ref <$> pfn_table (alloc m) !! y
}.

Lemma create_space_spec ks rng m L B :
  mmu_ok m L B → csprng_ok rng → (∀ x, ff B x → kernel_pml4 m ≠ x * 4096) →
  ∃ res ks' rng' m', vmm_create_space ks rng m = Ok (res, ks', rng', m') ∧ csprng_ok rng' ∧
    match res with
    | None => m' = m ∧ (hd false ks = false ∨ ∀ p, ¬ ff B p)
    | Some sp => ∃ x B', ff B x ∧ (∀ p, ff B' p ↔ ff B p ∧ p ≠ x) ∧ created m L x sp m' B'
    end.
Proof.
  intros M Og Hk. pose proof M as (_ & F & [C _]). unfold vmm_create_space, next_kmem.
  destruct ks as [|[] ks]; cbn [negb].
  1,3: by eexists None, _, rng, m; split_and!; try done; left.
  unfold pmm_alloc_zeroed_pages.
  destruct (alloc_spec (alloc m) B 0 (f_pmm _ _ _ F) ltac:(unfold PMM_MAX_ORDER; lia)) as [[E N]|(x & s' & B' & E & T0)];
    rewrite E; cbn [mbind outcome_bind].
  { eexists None, _, rng, m. split_and!; [by destruct m|done|done|]. right.
    intros q (y & o & By & _). pose proof (N _ _ By). pose proof (ok_blocks _ _ (f_pmm _ _ _ F) _ _ By) as [? _ _ _]. lia. }
  destruct T0 as [O' [Kc Kz Kd Kr] Ob Hin Hre]. change (2 ^ 0) with 1 in *. pose proof Ob as [_ Hx _ He].
  change (2 ^ 0) with 1 in *. assert (ff B x) as Fx by (apply Hin; lia).
  assert (x ≠ 0) as Nx by (intros ->; by apply (f_null _ _ _ F)). rewrite (proj2 (Z.eqb_neq _ _)) by lia.
  destruct (aslr_one_draw rng Og) as (k & rng' & -> & Og' & Hkb). rewrite bind_Ok. cbv beta iota.
  destruct (clone_half_spec (x * 4096) (with_alloc s' m)) as (m' & -> & E1 & E4); [by apply Hk|].
  rewrite bind_Ok. cbn [kernel_pml4 with_alloc] in E4.
  assert (∀ p, ff B' p ↔ ff B p ∧ p ≠ x) as Hf by (intros p; rewrite Hre; intuition lia).
  eexists (Some _), ks, rng', m'. split; [done|]. split; [done|]. exists x, B'. split; [done|]. split; [done|].
  assert (mmu_ok m' (({[[] := x * 4096]}, ∅) :: L) B') as M'.
  { apply (add_space m L B x m' B'); rewrite ?E1; try done; try lia.
    - intros t i Ht. rewrite E4, decide_False; [done|]. by intros [? _].
    - intros i Hi. rewrite E4, decide_False by lia. by apply C. }
  assert (sub64 MMAP_BASE (k * 4096) = MMAP_BASE - k * 4096) as Eb by (apply sub64_small; unfold MMAP_BASE; lia).
  constructor; [done| |done|cbn [as_mmap_base]; rewrite Eb; lia| | |by rewrite E1].
  - rewrite Eb. eapply empty_space_ok; [exact M'| |unfold MMAP_BASE; lia].
    unfold page_aligned. rewrite Zminus_mod, Z.mod_mul by lia. done.
  - intros i Hi. rewrite E4, decide_True by lia. done.
  - intros t i Ht. rewrite E4, decide_False; [done|]. by intros [? _].
Qed.

(** ** Theorems *)

(** Vmm_create_space either fails, only when the kernel heap or the frames
    have run out, and then changes nothing; or returns an address space with an
    empty user half, the kernel's half of the page tables and an mmap base
    less than 1 GiB below MMAP_BASE.  No page of another address space
    changes. *)
Theorem vmm_create_space_correct ks rng m L B :
  mmu_ok m L B → csprng_ok rng → (∀ x, ff B x → kernel_pml4 m ≠ x * 4096) →
  ∃ res ks' rng' m', vmm_create_space ks rng m = Ok (res, ks', rng', m') ∧ csprng_ok rng' ∧
    match res with
    | None => m' = m ∧ (hd false ks = false ∨ ∀ p, ¬ ff B p)
    | Some sp => space_ok sp [] ∧ MMAP_BASE - 2 ^ 30 < as_mmap_base sp ≤ MMAP_BASE ∧
        others_same L m m' ∧
        ∃ x B', as_pg sp = at_root (x * 4096) m' ∧ ff B x ∧ mmu_ok m' (({[[] := x * 4096]}, ∅) :: L) B' ∧
          ∀ i, 256 ≤ i < 512 → rd (x * 4096) i m' = rd (kernel_pml4 m) i m
    end.
Proof.
  intros M Og Hk. destruct (create_space_spec ks rng m L B M Og Hk) as (res & ks' & rng' & m' & E & Og' & H).
  exists res, ks', rng', m'. split; [done|]. split; [done|]. destruct res as [sp|]; [|done].
  destruct H as (x & B' & Fx & Hf & [M' O' Ep Eb Ek Ew Er]). split; [done|]. split; [done|]. split.
  - intros T P va Hin. rewrite (pte_of_in m' _ B' T P va M'), (pte_of_in m _ B T P va M); [done|done|by right].
  - exists x, B'. by split_and!.
Qed.

Lemma vmm_create_space_correct_witness : ∃ m res ks' rng' m', boot = Ok m ∧
  vmm_create_space [true] demo_csprng m = Ok (res, ks', rng', m') ∧ csprng_ok rng'.
Proof.
  assert ((m ← boot; Ok (kernel_pml4 m)) = Ok 0) as Hk by (vm_compute; reflexivity).
  destruct boot_ok as (m & B & E & M & _). rewrite E in Hk. cbn [mbind outcome_bind] in Hk. injection Hk as Hk.
  destruct (vmm_create_space_correct [true] demo_csprng m _ B M demo_csprng_ok) as (res & ks' & rng' & m' & Ec & Og & _).
  - intros x Hx. rewrite Hk. pose proof (f_null _ _ _ (proj1 (proj2 M))) as N. clear -Hx N. intros H.
    apply N. by replace 0 with x by lia.
  - exists m, res, ks', rng', m'. exact (conj E (conj Ec Og)).
Defined.

Lemma src_entry_bits e : has e PTE_USER = true →
  frame_of (src_entry e) = frame_of e ∧ has (src_entry e) PTE_WRITE = false ∧ has (src_entry e) PTE_NX = has e PTE_NX.
Proof.
  intros Hu. destruct (shared_flags_ok e Hu) as (Hfl & Hw & Hn). unfold src_entry.
  destruct (has e PTE_WRITE) eqn:E; [|done]. destruct (new_pte_flags e _ Hfl) as (_ & _ & -> & ->).
  split; [|done]. destruct (page_entry e _ Hfl) as (_ & H & _). exact H.
Qed.

Lemma dst_entry_bits e : has e PTE_USER = true →
  frame_of (dst_entry e) = frame_of e ∧ has (dst_entry e) PTE_WRITE = false ∧ has (dst_entry e) PTE_NX = has e PTE_NX.
Proof.
  intros Hu. destruct (shared_flags_ok e Hu) as (Hfl & Hw & Hn). unfold dst_entry.
  destruct (new_pte_flags e _ Hfl) as (_ & _ & -> & ->).
  split; [|done]. destruct (page_entry e _ Hfl) as (_ & H & _). exact H.
Qed.

(** The two sides of a shared page. *)
Definition shared (e es ed : Z) : Prop :=
  frame_of es = frame_of e ∧ frame_of ed = frame_of e ∧
  has es PTE_WRITE = false ∧ has ed PTE_WRITE = false ∧
  has es PTE_NX = has e PTE_NX ∧ has ed PTE_NX = has e PTE_NX.

(** Cloning the pages of a mapping for fork never fails except by running out
    of frames.  The source and every other address space read as before; on
    success the new space reads the same as the source on the whole range,
    each present page is shared by both sides without write permission and
    with its execute permission, and absent pages stay absent. *)
Theorem clone_pages_share m Td Ts Pd Ps X B va end_ :
  mmu_ok m ((Td, Pd) :: (Ts, Ps) :: X) B → user_pml4 m = cr3 Td →
  page_aligned va → page_aligned end_ → 0 ≤ va ≤ end_ → end_ ≤ USER_TOP → few_refs m ((end_ - va) / 4096) →
  (∀ x, page_aligned x → va ≤ x < end_ → Pd !! x = None) →
  ∃ r m' Td' Pd' Ps' B', clone_pages (S (Z.to_nat ((end_ - va) / PAGE_SIZE))) (cr3 Ts) va end_ m = Ok (r, m') ∧
    mmu_ok m' ((Td', Pd') :: (Ts, Ps') :: X) B' ∧ cr3 Td' = cr3 Td ∧
    (∀ a i, word_of (cr3 Ts) m' a i = word_of (cr3 Ts) m a i) ∧
    (∀ T P a i, (T, P) ∈ X → word_of (cr3 T) m' a i = word_of (cr3 T) m a i) ∧
    (r = - ENOMEM ∧ (∀ q, ¬ ff B' q) ∨
     r = 0 ∧ ∀ a, page_aligned a → va ≤ a < end_ →
       (∀ i, word_of (cr3 Td) m' a i = word_of (cr3 Ts) m a i) ∧
       match pte_of (cr3 Ts) m a with
       | None => pte_of (cr3 Td) m' a = None
       | Some e => ∃ es ed, pte_of (cr3 Ts) m' a = Some es ∧ pte_of (cr3 Td) m' a = Some ed ∧ shared e es ed
       end).
Proof.
  intros M Er Av Ae Hv He Hfew Hd. pose proof M as (_ & F & _).
  destruct (clone_pages_spec end_ (S (Z.to_nat ((end_ - va) / PAGE_SIZE))) m Td Ts Pd Ps X B va M Er Av Ae Hv He)
    as (r & m' & Td' & Pd' & Ps' & B' & E & [M' R' Ct Z' Cf Q D Sr] & _ & C); [|done|done|].
  { unfold PAGE_SIZE. pose proof (Z.div_mod (end_ - va) 4096 ltac:(lia)). pose proof (Z.mod_pos_bound (end_ - va) 4096 ltac:(lia)).
    assert (0 ≤ (end_ - va) / 4096) by (apply Z.div_pos; lia). rewrite Nat2Z.inj_succ, Z2Nat.id by lia. lia. }
  assert (∀ L B2 m2 T P, mmu_ok m2 L B2 → (T, P) ∈ L → ∀ a, pte_of (cr3 T) m2 a = P !! a) as Hp
    by (intros L B2 m2 T P ? ? a; by eapply pte_of_in).
  pose proof (Hp _ _ _ Ts Ps M ltac:(right; by left)) as Es. pose proof (Hp _ _ _ Ts Ps' M' ltac:(right; by left)) as Es'.
  pose proof (Hp _ _ _ Td' Pd' M' ltac:(by left)) as Ed'. rewrite Ct in Ed'.
  assert (∀ a e i, Ps !! a = Some e → rd (frame_of e) i m' = rd (frame_of e) i m) as Hdat.
  { intros a e i Ha. eapply mapped_data; [exact M|exact D|right; by left|done]. }
  exists r, m', Td', Pd', Ps', B'. split_and!; try done.
  - intros a i. unfold word_of. rewrite Es, Es'. specialize (Sr a).
    destruct (Ps' !! a) as [e'|], (Ps !! a) as [e|] eqn:Ea; try done. injection Sr as ->. by eapply Hdat.
  - intros T P a i Hin. unfold word_of. rewrite (Hp _ _ _ T P M ltac:(by right; right)), (Hp _ _ _ T P M' ltac:(by right; right)).
    destruct (P !! a) as [e|] eqn:Ea; [|done]. eapply mapped_data; [exact M|exact D|by right; right|done].
  - destruct C as [[-> C]|[-> N]]; [right|by left]. split; [done|]. intros a Aa Ha. destruct (C a Aa) as [C1 C2].
    rewrite decide_True in C1, C2 by done. unfold word_of. rewrite Es, Es', Ed', C1, C2.
    destruct (Ps !! a) as [e|] eqn:Ea; [|done]. simpl.
    destruct (f_user _ _ _ F (Ts, Ps) a e ltac:(right; by left) Ea) as [Hu _].
    destruct (src_entry_bits e Hu) as (S1 & S2 & S3), (dst_entry_bits e Hu) as (D1 & D2 & D3). split.
    + intros i. rewrite D1. by eapply Hdat.
    + exists (src_entry e), (dst_entry e). by split_and!.
Qed.

(** The machine of [one_page] with a second, empty address space. *)
Definition fork_ready : outcome (option (addr_space mmu) * list bool * csprng * mmu) :=
  r ← one_page; vmm_create_space [true] demo_csprng r.2.

Lemma fork_ready_some :
  (r ← fork_ready; Ok (match r.1.1.1 with Some _ => true | None => false end)) = Ok true.
Proof. vm_compute. done. Qed.

Lemma one_page_refs :
  (r ← one_page; Ok (kernel_pml4 r.2 =? 0, bool_decide (map_Forall (λ _ e, p_ref e ≤ 1) (pfn_table (alloc r.2)))))
  = Ok (true, true).
Proof. vm_compute. done. Qed.

Lemma fork_ready_ok : ∃ sp ks rng m Td Ts Ps B, fork_ready = Ok (Some sp, ks, rng, m) ∧
  mmu_ok (as_pg sp) [(Td, ∅); (Ts, Ps)] B ∧ user_pml4 (as_pg sp) = cr3 Td ∧ few_refs (as_pg sp) 1.
Proof.
  pose proof fork_ready_some as Hs. pose proof one_page_refs as Hr. unfold fork_ready in *.
  destruct one_page_ok as (m & T & P & B & e & x & E & M & Er & He & _). rewrite E in Hs, Hr |- *. clear E.
  cbn [mbind outcome_bind snd] in *. injection Hr as Hk Hrefs.
  destruct (create_space_spec [true] demo_csprng m _ B M demo_csprng_ok) as (res & ks & rng & m' & Ec & _ & H).
  { intros y Hy Ey. pose proof (f_null _ _ _ (proj1 (proj2 M))) as N. apply N.
    clear -Hy Ey Hk. by replace 0 with y by lia. }
  rewrite Ec in Hs |- *. clear Ec. cbn [mbind outcome_bind fst] in Hs. destruct res as [sp|]; [|discriminate].
  destruct H as (y & B' & Fy & Hf & [M' O' Ep Eb Ek Ew Ery]).
  exists sp, ks, rng, m', {[[] := y * 4096]}, T, P, B'. split; [done|]. rewrite Ep.
  split; [by apply mmu_ok_root|]. split; [cbn [user_pml4 at_root]; unfold cr3; by rewrite lookup_singleton_eq|].
  intros z r Hz. cbn [alloc at_root] in Hz. rewrite Ery in Hz. apply fmap_Some in Hz as (en & Ez & ->).
  apply bool_decide_eq_true in Hrefs. pose proof (Hrefs _ _ Ez). simpl in *. lia.
Qed.

Lemma clone_pages_share_witness : ∃ sp ks rng m r m', fork_ready = Ok (Some sp, ks, rng, m) ∧
  ∃ src, clone_pages 2 src 0x400000 0x401000 (as_pg sp) = Ok (r, m') ∧ (r = 0 ∨ r = - ENOMEM).
Proof.
  destruct fork_ready_ok as (sp & ks & rng & m & Td & Ts & Ps & B & E & M & Er & Hf).
  destruct (clone_pages_share (as_pg sp) Td Ts ∅ Ps [] B 0x400000 0x401000 M Er)
    as (r & m' & Td' & Pd' & Ps' & B' & Ec & _ & _ & _ & _ & C); [clear; done|clear; done|clear; lia|clear; lia|exact Hf| |].
  { intros y _ _. apply lookup_empty. }
  exists sp, ks, rng, m, r, m'. split; [exact E|]. clear E. exists (cr3 Ts). split; [exact Ec|].
  destruct C as [[C _]|[C _]]; [right|left]; exact C.
Defined.
