(* ===== verification/UserCopy.v ===== *)
(** * kernel/user/copy.c: checking user pointers and copying through them

    The address space is the machine [mmu] whose [user_pml4] is that of the current
    process.  The copies go through the page tables as the CPU does: a page that
    is not present faults, and so does a store to a page that is not writable
    (CR0.WP is set).  STAC and CLAC have no effect here. *)

From S2P Require Import Prelude Vma Paging.

(** ** Bytes through the page tables *)

Definition word_byte (w k : Z) : Z := Z.land (Z.shiftr w (8 * k)) 255.
Definition set_word_byte (w k b : Z) : Z := Z.lor (Z.ldiff w (Z.shiftl 255 (8 * k))) (Z.shiftl b (8 * k)).

(** Index of the word within the page, and of the byte within the word. *)
Definition word_idx (va : Z) : Z := va mod 4096 / 8.
Definition byte_idx (va : Z) : Z := va mod 8.

(** The entry the CPU uses for [va].  The user half has no large pages. *)
Definition access_pte (va : Z) (m : mmu) : outcome Z :=
  let '(err, e) := paging_get_flags_in (user_pml4 m) va m in
  if negb (err =? 0) || has e PTE_HUGE then Fault else Ok e.

Definition load_byte (va : Z) (m : mmu) : outcome Z :=
  e ← access_pte va m; Ok (word_byte (rd (Z.land e PTE_ADDR_MASK) (word_idx va) m) (byte_idx va)).

Definition store_byte (va b : Z) (m : mmu) : outcome mmu :=
  e ← access_pte va m;
  if negb (has e PTE_WRITE) then Fault else
  let f := Z.land e PTE_ADDR_MASK in
  Ok (wr f (word_idx va) (set_word_byte (rd f (word_idx va) m) (byte_idx va) b) m).

(** [memcpy] from and to user memory *)
Fixpoint load_bytes (n : nat) (va : Z) (m : mmu) : outcome (list Z) :=
  match n with
  | O => Ok []
  | S n => b ← load_byte va m; bs ← load_bytes n (va + 1) m; Ok (b :: bs)
  end.

Fixpoint store_bytes (bs : list Z) (va : Z) (m : mmu) : outcome mmu :=
  match bs with
  | [] => Ok m
  | b :: bs => m ← store_byte va b m; store_bytes bs (va + 1) m
  end.

(** ** The checks *)

Definition range_end (uaddr len : Z) : option (Z * Z) :=
  let s := uaddr in
  let e := add64 s len in
  if len =? 0 then Some (s, s) else
  if e <? s then None else Some (s, e).

Definition user_range_ok (uaddr len : Z) : bool :=
  match range_end uaddr len with
  | None => false
  | Some (start, end_) =>
      if len =? 0 then start <? USER_TOP else
      if (start =? 0) || (start >=? USER_TOP) || (end_ >? USER_TOP) then false else true
  end.

(** [for (page = start; page < end; page += PAGE_SIZE)] *)
Fixpoint check_pages (fuel : nat) (page end_ : Z) (write : bool) (m : mmu) : outcome Z :=
  match fuel with
  | O => NoFuel
  | S fuel =>
      if negb (page <? end_) then Ok 0 else
      let '(err, flags) := paging_get_flags_in (user_pml4 m) page m in
      if negb (err =? 0) then Ok (- EFAULT) else
      if negb (has flags PTE_USER) then Ok (- EFAULT) else
      if write && negb (has flags PTE_WRITE) then Ok (- EFAULT) else
      check_pages fuel (add64 page PAGE_SIZE) end_ write m
  end.

Definition user_range_mapped (uaddr len : Z) (write : bool) (m : mmu) : outcome Z :=
  if negb (user_range_ok uaddr len) then Ok (- EFAULT) else
  if len =? 0 then Ok 0 else
  match range_end uaddr len with
  | None => Ok (- EFAULT)
  | Some (start, end_) =>
      let start := Z.ldiff start PAGE_MASK in
      check_pages (S (Z.to_nat ((end_ - start) / PAGE_SIZE + 1))) start end_ write m
  end.

(** ** The copies *)

(** The bytes that [dst] got; [dst] says whether it is not NULL. *)
Definition copy_from_user (dst : bool) (usrc len : Z) (m : mmu) : outcome (Z * list Z) :=
  if len =? 0 then Ok (0, []) else
  if negb dst then Ok (- EINVAL, []) else
  err ← user_range_mapped usrc len false m;
  if negb (err =? 0) then Ok (err, []) else
  bs ← load_bytes (Z.to_nat len) usrc m; Ok (0, bs).

(** [src] is NULL or the bytes to copy, [len] of them. *)
Definition copy_to_user (udst : Z) (src : option (list Z)) (len : Z) (m : mmu) : outcome (Z * mmu) :=
  if len =? 0 then Ok (0, m) else
  match src with
  | None => Ok (- EINVAL, m)
  | Some bs =>
      err ← user_range_mapped udst len true m;
      if negb (err =? 0) then Ok (err, m) else
      m ← store_bytes bs udst m; Ok (0, m)
  end.

(** [for (i = 0; i < chunk; i++)], up to and with the NUL; whether one was met. *)
Fixpoint load_string (n : nat) (va : Z) (m : mmu) : outcome (bool * list Z) :=
  match n with
  | O => Ok (false, [])
  | S n =>
      b ← load_byte va m;
      if b =? 0 then Ok (true, [b]) else
      '(nul, bs) ← load_string n (va + 1) m; Ok (nul, b :: bs)
  end.

(** [while (done < max)]; [acc] are the [done] bytes in [dst] so far. *)
Fixpoint copy_string_loop (fuel : nat) (usrc max : Z) (acc : list Z) (m : mmu) : outcome (Z * list Z) :=
  match fuel with
  | O => NoFuel
  | S fuel =>
      let n := Z.of_nat (length acc) in
      if negb (n <? max) then Ok (- ENAMETOOLONG, <[Z.to_nat (max - 1) := 0]> acc) else
      let curr := add64 usrc n in
      let to_page_end := PAGE_SIZE - Z.land curr PAGE_MASK in
      let chunk := if max - n >? to_page_end then to_page_end else max - n in
      err ← user_range_mapped curr chunk false m;
      if negb (err =? 0) then Ok (err, acc) else
      '(nul, bs) ← load_string (Z.to_nat chunk) curr m;
      if (nul : bool) then Ok (0, acc ++ bs) else copy_string_loop fuel usrc max (acc ++ bs) m
  end.

Definition copy_string_from_user (dst : bool) (usrc max : Z) (m : mmu) : outcome (Z * list Z) :=
  if negb dst || (max =? 0) then Ok (- EINVAL, []) else
  copy_string_loop (S (Z.to_nat max)) usrc max [] m.
