(* ===== verification/UserCopySpec.v ===== *)
(** * User copies: what is checked is what is accessed

    On an address space of the machine the copies never fault: an address that is not
    mapped as needed gives -EFAULT and nothing is copied.  A copy to user
    memory changes the bytes it names and nothing else, in no address space. *)

From S2P Require Import Prelude Rbtree RbtreeRep Vma VmaSpec VmaRange Mmap MmapSpec Pmm PmmList PmmSpec PmmAlloc.
From S2P Require Import PmmInit PmmSystem Paging PagingSpec PagingMap MmSystem Vmm VmmSpec Fault UserCopy.

#[local] Abbreviation aspace := (addr_space mmu).

(** ** Bytes of words *)

Lemma word_byte_testbit w k n : 0 <= k → 0 <= n → Z.testbit (word_byte w k) n = (n <? 8) && Z.testbit w (n + 8 * k).
Proof.
  intros Hk Hn. unfold word_byte. change 255 with (Z.ones 8). rewrite Z.land_spec, Z.shiftr_spec, Z.testbit_ones_nonneg by lia. apply andb_comm.
Qed.

Lemma word_byte_set w k b j : 0 <= k → 0 <= j → 0 <= b < 256 →
  word_byte (set_word_byte w k b) j = if decide (j = k) then b else word_byte w j.
Proof.
  intros Hk Hj Hb. apply Z.bits_inj'. intros n Hn. rewrite word_byte_testbit by lia. unfold set_word_byte. change 255 with (Z.ones 8).
  rewrite Z.lor_spec, Z.ldiff_spec, !Z.shiftl_spec by lia.
  assert (Hhigh : ∀ i, 8 <= i → Z.testbit b i = false).
  { intros i Hi. apply Z.bits_above_log2; [lia|]. destruct (Z.eq_dec b 0) as [->|]; [change (Z.log2 0) with 0; lia|]. apply Z.log2_lt_pow2; [lia|].
    apply Z.lt_le_trans with (2 ^ 8); [lia|]. apply Z.pow_le_mono_r; lia. }
  destruct (Z.ltb_spec n 8) as [H8|H8]; cbn [andb].
  - case_decide as E.
    + subst j. replace (n + 8 * k - 8 * k) with n by lia. rewrite Z.testbit_ones_nonneg by lia.
      rewrite (proj2 (Z.ltb_lt n 8)) by lia. cbn. by rewrite andb_false_r.
    + rewrite word_byte_testbit by lia. rewrite (proj2 (Z.ltb_lt n 8)) by lia. cbn [andb].
      destruct (Z.lt_ge_cases j k).
      * rewrite (Z.testbit_neg_r (Z.ones 8)), (Z.testbit_neg_r b) by lia. cbn. by rewrite andb_true_r, orb_false_r.
      * rewrite Z.testbit_ones_nonneg by lia. rewrite (proj2 (Z.ltb_ge _ 8)) by lia. rewrite Hhigh by lia. cbn. by rewrite andb_true_r, orb_false_r.
  - case_decide; [by rewrite Hhigh|]. rewrite word_byte_testbit by lia. by rewrite (proj2 (Z.ltb_ge n 8)).
Qed.

(** ** Addresses *)

Lemma page_of_range a : page_of a <= a < page_of a + 4096.
Proof. rewrite page_of_eq. pose proof (Z.mod_pos_bound a 4096). lia. Qed.

Lemma page_of_user a : 0 <= a < USER_TOP → user_va (page_of a).
Proof.
  intros H. split; [apply page_of_aligned|]. rewrite page_of_eq. pose proof (Z.mod_pos_bound a 4096). pose proof (Z.mod_le a 4096). lia.
Qed.

(** An address is in the page it is in. *)
Lemma page_of_unique p a : page_aligned p → p <= a < p + 4096 → page_of a = p.
Proof.
  intros [k Hk]%Z.mod_divide Ha; [|lia]. subst p. rewrite page_of_eq. assert (a mod 4096 = a - k * 4096); [|lia].
  symmetry. apply (Z.mod_unique_pos a 4096 k); lia.
Qed.

Lemma idx_page a : pml4_idx (page_of a) = pml4_idx a ∧ pdpt_idx (page_of a) = pdpt_idx a ∧ pd_idx (page_of a) = pd_idx a ∧ pt_idx (page_of a) = pt_idx a.
Proof.
  assert (E : page_of a / 2 ^ 12 = a / 2 ^ 12).
  { rewrite page_of_eq. change (2 ^ 12) with 4096. replace (a - a mod 4096) with (a / 4096 * 4096) by (pose proof (Z.div_mod a 4096); lia). by rewrite Z.div_mul. }
  assert (D : ∀ k x, 0 <= k → x / 2 ^ (12 + k) = x / 2 ^ 12 / 2 ^ k) by (intros k x Hk; rewrite Z.pow_add_r, Z.div_div by lia; done).
  destruct (idx_eqs a) as (-> & -> & -> & ->). destruct (idx_eqs (page_of a)) as (-> & -> & -> & ->).
  change (2 ^ 39) with (2 ^ (12 + 27)). change (2 ^ 30) with (2 ^ (12 + 18)). change (2 ^ 21) with (2 ^ (12 + 9)).
  by rewrite !D, E by lia.
Qed.

Lemma get_flags_page root a m : paging_get_flags_in root (page_of a) m = paging_get_flags_in root a m.
Proof. unfold paging_get_flags_in. by destruct (idx_page a) as (-> & -> & -> & ->). Qed.

(** ** What the checks establish *)

(** The byte at [a] is one of user space and in a page that is present, and writable for a write, so
    that user code gets at it without a page fault. *)
Definition user_ok (m : mmu) (write : bool) (a : Z) : Prop :=
  0 < a < USER_TOP ∧ ∃ e, mmu_pte m (page_of a) = Some e ∧ (write = true → has e PTE_WRITE = true).

(** The byte user code reads at [a]. *)
Definition user_byte (m : mmu) (a : Z) : Z := word_byte (page_word m (page_of a) (word_idx a)) (byte_idx a).

Lemma get_flags_user m a : mmu_inv m → 0 <= a < USER_TOP →
  paging_get_flags_in (user_pml4 m) a m = match mmu_pte m (page_of a) with Some e => (0, e) | None => (- ENOENT, 0) end.
Proof.
  intros (T & P & X & B & M & Er) Ha. rewrite <- get_flags_page, Er, (mmu_pte_leaf m T P X B _ M Er).
  apply (get_flags_leaf m T P X B); [done|by apply page_of_user].
Qed.

Lemma pte_user m a e : mmu_inv m → mmu_pte m a = Some e → has e PTE_USER = true ∧ has e PTE_HUGE = false.
Proof.
  intros (T & P & X & B & M & Er) He. rewrite (mmu_pte_leaf m T P X B _ M Er) in He. pose proof M as (_ & F & _).
  apply (f_user _ _ _ F (T, P) a e); [by left|done].
Qed.

Lemma range_ok_spec uaddr len : 0 <= uaddr < 2 ^ 64 → 0 < len < 2 ^ 64 →
  user_range_ok uaddr len = bool_decide (0 < uaddr ∧ uaddr + len <= USER_TOP) ∧
  (uaddr + len <= USER_TOP → range_end uaddr len = Some (uaddr, uaddr + len)).
Proof.
  intros Hu Hl. assert (Hr : uaddr + len <= USER_TOP → range_end uaddr len = Some (uaddr, uaddr + len)).
  { intros H. unfold range_end, add64, u64. rewrite (proj2 (Z.eqb_neq len 0)), Z.mod_small by lia. by rewrite (proj2 (Z.ltb_ge _ _)) by lia. }
  split; [|done]. unfold user_range_ok. case_bool_decide as H.
  - rewrite Hr by lia. rewrite (proj2 (Z.eqb_neq len 0)), (proj2 (Z.eqb_neq uaddr 0)), Z.geb_leb, Z.gtb_ltb by lia.
    rewrite (proj2 (Z.leb_gt _ _)), (proj2 (Z.ltb_ge _ _)) by lia. done.
  - unfold range_end, add64, u64. rewrite (proj2 (Z.eqb_neq len 0)) by lia.
    destruct (Z.ltb_spec ((uaddr + len) mod 2 ^ 64) uaddr) as [|Hge]; [done|].
    destruct (Z.eqb_spec uaddr 0) as [|]; [done|]. cbn [orb]. rewrite Z.geb_leb, Z.gtb_ltb.
    destruct (Z.leb_spec USER_TOP uaddr); [done|]. cbn [orb].
    pose proof (add64_no_wrap uaddr len Hu ltac:(lia) Hge).
    rewrite (Z.mod_small (uaddr + len)) by lia. by rewrite (proj2 (Z.ltb_lt _ _)) by lia.
Qed.

Lemma check_pages_spec m write end_ fuel page :
  mmu_inv m → page_aligned page → 0 <= page → end_ <= USER_TOP → (0 < fuel)%nat → end_ - page <= 4096 * (Z.of_nat fuel - 1) →
  (check_pages fuel page end_ write m = Ok 0 ∧
     ∀ a, page <= a < end_ → ∃ e, mmu_pte m (page_of a) = Some e ∧ (write = true → has e PTE_WRITE = true)) ∨
  (check_pages fuel page end_ write m = Ok (- EFAULT) ∧
     ∃ p, page_aligned p ∧ page <= p < end_ ∧ ¬ ∃ e, mmu_pte m p = Some e ∧ (write = true → has e PTE_WRITE = true)).
Proof.
  intros I. revert page. induction fuel as [|fuel IH]; intros page Ha H0 Ht Hf Hn; [lia|]. cbn [check_pages].
  destruct (Z.ltb_spec page end_) as [Hlt|Hge]; cbn [negb]; [|left; split; [done|lia]].
  rewrite (get_flags_user m page I) by lia. rewrite (page_of_unique page page Ha) by lia.
  destruct (mmu_pte m page) as [e|] eqn:He.
  2: { right. split; [done|]. exists page. split_and!; [done|lia|lia|]. rewrite He. by intros (? & ? & _). }
  destruct (pte_user m page e I He) as [Hu _]. cbn [negb Z.eqb]. rewrite Hu. cbn [negb].
  destruct (write && negb (has e PTE_WRITE)) eqn:Hw.
  { right. split; [done|]. exists page. split_and!; [done|lia|lia|]. rewrite He. intros (e' & [= <-] & H).
    apply andb_prop in Hw as [-> Hw%negb_true_iff]. by rewrite H in Hw. }
  assert (Hok : write = true → has e PTE_WRITE = true) by (intros ->; by destruct (has e PTE_WRITE)).
  replace (add64 page PAGE_SIZE) with (page + 4096) by (unfold add64, PAGE_SIZE, u64; rewrite Z.mod_small; lia).
  assert (Ha' : page_aligned (page + 4096)) by (unfold page_aligned in *; rewrite Z.add_mod, Ha by lia; done).
  destruct (IH (page + 4096)) as [[E H]|[E (p & Hp & Hr & H)]]; [done|lia|lia|lia|lia| |].
  - left. split; [done|]. intros a Hr. destruct (Z.lt_ge_cases a (page + 4096)); [|apply H; lia].
    rewrite (page_of_unique page a) by (done || lia). eauto.
  - right. split; [done|]. exists p. split_and!; [done|lia|lia|done].
Qed.

(** [user_range_mapped] decides whether user code may access every byte of the range. *)
Lemma range_mapped_spec m uaddr len write :
  mmu_inv m → 0 <= uaddr < 2 ^ 64 → 0 < len < 2 ^ 64 →
  (user_range_mapped uaddr len write m = Ok 0 ∧ ∀ a, uaddr <= a < uaddr + len → user_ok m write a) ∨
  (user_range_mapped uaddr len write m = Ok (- EFAULT) ∧ ∃ a, uaddr <= a < uaddr + len ∧ ¬ user_ok m write a).
Proof.
  intros I Hu Hl. unfold user_range_mapped. destruct (range_ok_spec uaddr len Hu Hl) as [-> Hr]. case_bool_decide as H; cbn [negb].
  2: { right. split; [done|]. destruct (decide (uaddr = 0)) as [->|]; [exists 0; split; [lia|]|exists (uaddr + len - 1); split; [lia|]]; intros [? _]; lia. }
  rewrite (proj2 (Z.eqb_neq len 0)), Hr by lia. fold (page_of uaddr). pose proof (page_of_range uaddr). pose proof (page_of_user uaddr ltac:(lia)) as [Ha Hp0].
  destruct (check_pages_spec m write (uaddr + len) (S (Z.to_nat ((uaddr + len - page_of uaddr) / PAGE_SIZE + 1))) (page_of uaddr) I Ha)
    as [[E P]|[E (p & Hp & Hr' & P)]].
  - lia.
  - lia.
  - lia.
  - unfold PAGE_SIZE. pose proof (Z.div_mod (uaddr + len - page_of uaddr) 4096 ltac:(lia)). pose proof (Z.mod_pos_bound (uaddr + len - page_of uaddr) 4096 ltac:(lia)).
    assert (0 <= (uaddr + len - page_of uaddr) / 4096) by (apply Z.div_pos; lia). lia.
  - left. split; [done|]. intros a Hra. split; [lia|]. apply P. lia.
  - right. split; [done|]. exists (uaddr `max` p). split; [lia|]. intros [_ He]. apply P. rewrite (page_of_unique p) in He; [done|done|].
    destruct (Z.max_spec uaddr p) as [[? ->]|[? ->]]; [lia|]. split; [done|].
    unfold page_aligned in Hp, Ha. rewrite page_of_eq in *. pose proof (Z.mod_pos_bound uaddr 4096 ltac:(lia)).
    assert (p = uaddr - uaddr mod 4096); [|lia]. apply Z.mod_divide in Hp as [k ->]; [|lia].
    pose proof (Z.div_mod uaddr 4096 ltac:(lia)). assert (k <= uaddr / 4096) by (apply Z.div_le_lower_bound; lia). nia.
Qed.

(** ** Loads *)

Lemma access_ok m w a : mmu_inv m → user_ok m w a → ∃ e, access_pte a m = Ok e ∧ mmu_pte m (page_of a) = Some e ∧ (w = true → has e PTE_WRITE = true).
Proof.
  intros I [Ha (e & He & Hw)]. exists e. split_and!; [|done|done]. unfold access_pte. rewrite (get_flags_user m a I), He by lia.
  destruct (pte_user m _ e I He) as [_ ->]. done.
Qed.

Lemma load_byte_ok m w a : mmu_inv m → user_ok m w a → load_byte a m = Ok (user_byte m a).
Proof.
  intros I H. destruct (access_ok m w a I H) as (e & E & He & _). unfold load_byte. rewrite E. cbn [mbind outcome_bind].
  unfold user_byte, page_word. by rewrite He.
Qed.

(** The bytes of [[a, a + n)]. *)
Definition user_bytes (m : mmu) (a : Z) (n : nat) : list Z := user_byte m <$> seqZ a (Z.of_nat n).

Lemma user_bytes_S m a n : user_bytes m a (S n) = user_byte m a :: user_bytes m (a + 1) n.
Proof. unfold user_bytes. rewrite seqZ_cons by lia. replace (Z.pred (Z.of_nat (S n))) with (Z.of_nat n) by lia. done. Qed.

Lemma load_bytes_ok m w n a : mmu_inv m → (∀ x, a <= x < a + Z.of_nat n → user_ok m w x) → load_bytes n a m = Ok (user_bytes m a n).
Proof.
  intros I. revert a. induction n as [|n IH]; intros a H; [done|]. cbn [load_bytes]. rewrite (load_byte_ok m w a I) by (apply H; lia).
  cbn [mbind outcome_bind]. rewrite IH by (intros x Hx; apply H; lia). cbn [mbind outcome_bind]. by rewrite user_bytes_S.
Qed.

(** ** Stores *)

Lemma same_byte x a : page_of x = page_of a → word_idx x = word_idx a → byte_idx x = byte_idx a → x = a.
Proof.
  rewrite !page_of_eq. unfold word_idx, byte_idx. intros H1 H2 H3.
  assert (E : ∀ y, y mod 4096 = 8 * (y mod 4096 / 8) + y mod 8).
  { intros y. pose proof (Z.div_mod (y mod 4096) 8 ltac:(lia)) as D. rewrite D at 1. f_equal.
    change 4096 with (8 * 512). rewrite Z.rem_mul_r by lia. rewrite Z.mul_comm, Z.mod_add by lia. by rewrite Z.mod_mod by lia. }
  pose proof (E x). pose proof (E a). lia.
Qed.

(** Writable entries are private: what [space_ok] says, on the tables. *)
Definition private_writes (m : mmu) (P : gmap Z Z) : Prop :=
  ∀ va e, P !! va = Some e → has e PTE_WRITE = true → frame_of e ≠ zero_page (alloc m) ∧ Vma.pmm_user_refcount m (frame_of e) ≤ 1.

(** So no other entry of the machine leads to the frame. *)
Lemma writable_alone m T P X B va e :
  mmu_ok m ((T, P) :: X) B → private_writes m P → P !! va = Some e → has e PTE_WRITE = true →
  (∃ x, frame_of e = x * 4096 ∧ ¬ table_at ((T, P) :: X) (x * 4096) ∧ ¬ ff B x ∧ x * 4096 ≠ zero_page (alloc m)) ∧
  (∀ vb e', P !! vb = Some e' → frame_of e' = frame_of e → vb = va) ∧
  (∀ T2 P2 vb e', (T2, P2) ∈ X → P2 !! vb = Some e' → frame_of e' ≠ frame_of e).
Proof.
  intros (_ & F & _) Pr He Hw. destruct (Pr va e He Hw) as [Hz Hr].
  destruct (refcount_mapped m _ B (T, P) va e F ltac:(by left) He Hz) as (x & r & Ex & U & Ht & _ & Er). rewrite Er in Hr.
  destruct (f_owned _ _ _ F (T, P) va e ltac:(by left) He Hz) as (x' & Ex' & [_ Tx _]). assert (x' = x) as -> by lia.
  unfold total in Ht. cbn [sum_list_with snd] in Ht. fold (total X (frame_of e)) in Ht. pose proof (refs_delete P va e (frame_of e) He) as Hd. rewrite decide_True in Hd by done.
  split_and!.
  - exists x. split_and!; [done|done|apply U|congruence].
  - intros vb e' He' Ef. destruct (decide (vb = va)) as [|Hne]; [done|]. exfalso.
    assert (1 ≤ refs (delete va P) (frame_of e))%nat; [|lia]. rewrite <- Ef. apply (refs_pos _ vb). by rewrite lookup_delete_ne.
  - intros T2 P2 vb e' Hin He' Ef. pose proof (total_pos X (T2, P2) vb e' Hin He') as Hp. rewrite Ef in Hp. lia.
Qed.

(** A store changes its byte in this address space, and nothing in the others. *)
Record stored (m : mmu) (T : tables) (P : gmap Z Z) (X : spaces) (B : gmap Z Z) (f : Z → option Z) (m' : mmu) : Prop := Stored {
  sd_ok : mmu_ok m' ((T, P) :: X) B;
  sd_alloc : alloc m' = alloc m;
  sd_root : user_pml4 m' = user_pml4 m;
  sd_byte x : user_byte m' x = default (user_byte m x) (f x);
  sd_others T2 P2 va i : (T2, P2) ∈ X → word_of (cr3 T2) m' va i = word_of (cr3 T2) m va i
}.

Lemma store_byte_spec m T P X B a b :
  mmu_ok m ((T, P) :: X) B → user_pml4 m = cr3 T → private_writes m P → user_ok m true a → 0 <= b < 256 →
  ∃ m', store_byte a b m = Ok m' ∧ stored m T P X B (λ x, if decide (x = a) then Some b else None) m'.
Proof.
  intros M Er Pr Hu Hb. assert (I : mmu_inv m) by (by exists T, P, X, B).
  destruct (access_ok m true a I Hu) as (e & E & He & Hw). specialize (Hw eq_refl).
  unfold store_byte. rewrite E. cbn [mbind outcome_bind]. rewrite Hw. cbn [negb]. fold (frame_of e).
  eexists. split; [done|]. set (m' := wr _ _ _ m).
  rewrite (mmu_pte_leaf m T P X B _ M Er) in He. destruct (writable_alone m T P X B _ e M Pr He Hw) as ((y & Ey & Ty & Fy & Zy) & A1 & A2).
  assert (M' : mmu_ok m' ((T, P) :: X) B).
  { apply (mmu_ok_data m m' _ B y M); try done. intros t i Ht. unfold m'. rewrite rd_wr, decide_False; [done|]. congruence. }
  assert (Er' : user_pml4 m' = cr3 T) by done.
  split; [done|done|done| |].
  - intros x. unfold user_byte, page_word. rewrite (mmu_pte_leaf m' T P X B _ M' Er'), (mmu_pte_leaf m T P X B _ M Er).
    destruct (P !! page_of x) as [e'|] eqn:Hx.
    2: { rewrite decide_False by congruence. done. }
    unfold m'. rewrite rd_wr. destruct (decide (_ = _)) as [[= Ef Ew]|N].
    + assert (Hpg : page_of x = page_of a) by (by apply (A1 _ e')). assert (0 <= byte_idx a ∧ 0 <= byte_idx x) as [? ?] by (split; apply Z.mod_pos_bound; lia).
      rewrite word_byte_set by lia. rewrite Ef, Ew. destruct (decide (byte_idx x = byte_idx a)) as [Eb|Nb].
      * by rewrite (same_byte x a Hpg Ew Eb), decide_True.
      * rewrite decide_False by congruence. done.
    + rewrite decide_False; [done|]. intros ->. apply N. congruence.
  - intros T2 P2 va i Hin. unfold word_of. rewrite (pte_of_in m' _ B T2 P2 va M'), (pte_of_in m _ B T2 P2 va M) by (by right).
    destruct (P2 !! va) as [e'|] eqn:Hx; [|done]. unfold m'. rewrite rd_wr, decide_False; [done|]. intros [= Ef _]. by apply (A2 T2 P2 va e').
Qed.

Lemma user_ok_same m m' T P X B w x :
  mmu_ok m ((T, P) :: X) B → user_pml4 m = cr3 T → mmu_ok m' ((T, P) :: X) B → user_pml4 m' = cr3 T → user_ok m w x → user_ok m' w x.
Proof.
  intros M Er M' Er' [H (e & He & Hw)]. split; [done|]. exists e. split; [|done].
  by rewrite (mmu_pte_leaf m' T P X B _ M' Er'), <- (mmu_pte_leaf m T P X B _ M Er).
Qed.

(** The bytes [bs] from [a] on. *)
Definition at_range (a : Z) (bs : list Z) (x : Z) : option Z := if decide (a <= x) then bs !! Z.to_nat (x - a) else None.

Lemma store_bytes_spec bs m T P X B a :
  mmu_ok m ((T, P) :: X) B → user_pml4 m = cr3 T → private_writes m P →
  (∀ x, a <= x < a + Z.of_nat (length bs) → user_ok m true x) → Forall (λ b, 0 <= b < 256) bs →
  ∃ m', store_bytes bs a m = Ok m' ∧ stored m T P X B (at_range a bs) m'.
Proof.
  revert m a. induction bs as [|b bs IH]; intros m a M Er Pr Hu Hb; cbn [store_bytes].
  { exists m. split; [done|]. split; try done. intros x. unfold at_range. case_decide; done. }
  apply Forall_cons in Hb as [Hb Hbs]. cbn [length] in Hu. destruct (store_byte_spec m T P X B a b M Er Pr) as (m1 & E & [M1 Al R1 S1 O1]); [apply Hu; lia|done|].
  rewrite E. cbn [mbind outcome_bind]. assert (Er1 : user_pml4 m1 = cr3 T) by congruence.
  destruct (IH m1 (a + 1) M1 Er1) as (m2 & E2 & [M2 Al2 R2 S2 O2]).
  - intros va e He Hw. rewrite Al. destruct (Pr va e He Hw) as [? Hr]. split; [done|]. cbn [Vma.pmm_user_refcount mmu_paging] in *. by rewrite Al.
  - intros x Hx. eapply (user_ok_same m m1); try done. apply Hu. lia.
  - done.
  - exists m2. split; [done|]. split; [done|congruence|congruence| |].
    + intros x. rewrite S2, S1. unfold at_range. destruct (decide (x = a)) as [->|Hne].
      * rewrite (decide_False (P := a + 1 <= a)), decide_True by lia. rewrite Z.sub_diag. done.
      * destruct (decide (a <= x)).
        -- rewrite decide_True by lia. replace (Z.to_nat (x - a)) with (S (Z.to_nat (x - (a + 1)))) by lia. done.
        -- rewrite decide_False by lia. done.
    + intros T2 P2 va i Hin. by rewrite (O2 T2 P2), (O1 T2 P2).
Qed.

(** ** The theorems *)

Lemma space_private (s : aspace) l T P X B :
  space_ok s l → mmu_ok (as_pg s) ((T, P) :: X) B → user_pml4 (as_pg s) = cr3 T → private_writes (as_pg s) P.
Proof.
  intros O M Er va e He Hw. assert (Hv : page_aligned va).
  { pose proof M as (Fs & _). apply Forall_cons in Fs as [[_ Lv] _]. specialize (Lv va). cbn [fst snd] in Lv. rewrite He in Lv.
    case_decide as Hu; [apply Hu|done]. }
  apply (so_cow _ _ O va e Hv); [|done]. cbn [pte_at mmu_laws]. by rewrite (mmu_pte_leaf _ T P X B va M Er).
Qed.

(** A store leaves the address space well formed. *)
Lemma stored_space (s : aspace) l T P X B f m' :
  space_ok s l → mmu_ok (as_pg s) ((T, P) :: X) B → user_pml4 (as_pg s) = cr3 T → stored (as_pg s) T P X B f m' →
  space_ok (with_pg m' s) l ∧ ∀ va, mmu_pte m' va = mmu_pte (as_pg s) va.
Proof.
  intros [W _ Sb Sp Sc Sx] M Er [M' Al R' _ _]. assert (Er' : user_pml4 m' = cr3 T) by congruence.
  assert (E : ∀ va, mmu_pte m' va = mmu_pte (as_pg s) va) by (intros va; by rewrite (mmu_pte_leaf m' T P X B va M' Er'), (mmu_pte_leaf _ T P X B va M Er)).
  split; [|done]. constructor; [by destruct W|by exists T, P, X, B|done| | |done].
  - intros a e Aa He. cbn [pte_at mmu_laws as_pg with_pg] in *. rewrite E in He. by apply Sp.
  - intros a e Aa He. cbn [pte_at mmu_laws as_pg with_pg] in *. rewrite E in He. intros Hw. destruct (Sc a e Aa He Hw) as [H1 H2].
    cbn [mm_zero_page Vma.pmm_user_refcount mmu_paging] in *. by rewrite Al.
Qed.

(** C15: [copy_to_user] of some bytes fails with -EFAULT, and changes nothing, exactly when a byte of the range is
    not in a page that is present and writable in the page tables (this includes pages user code could
    write after a page fault, see [lazy_buffer_refused]).  Otherwise the range holds the bytes, every other
    byte of the process and all memory of every other process is unchanged, the
    address space stays well formed with the same page tables, and
    [copy_from_user] reads the bytes back. *)
Theorem copy_to_user_correct (s : aspace) l T P X B udst bs :
  space_ok s l → mmu_ok (as_pg s) ((T, P) :: X) B → user_pml4 (as_pg s) = cr3 T →
  0 <= udst < 2 ^ 64 → bs ≠ [] → Z.of_nat (length bs) < 2 ^ 64 → Forall (λ b, 0 <= b < 256) bs →
  let m := as_pg s in let len := Z.of_nat (length bs) in
  (copy_to_user udst (Some bs) len m = Ok (- EFAULT, m) ∧ ∃ a, udst <= a < udst + len ∧ ¬ user_ok m true a) ∨
  (∃ m', copy_to_user udst (Some bs) len m = Ok (0, m') ∧ (∀ a, udst <= a < udst + len → user_ok m true a) ∧
     (∀ a, user_byte m' a = default (user_byte m a) (at_range udst bs a)) ∧
     (∀ T2 P2 va i, (T2, P2) ∈ X → word_of (cr3 T2) m' va i = word_of (cr3 T2) m va i) ∧
     (∀ va, mmu_pte m' va = mmu_pte m va) ∧ space_ok (with_pg m' s) l ∧
     copy_from_user true udst len m' = Ok (0, bs)).
Proof.
  intros O M Er Hu Hne Hl Hb m len. assert (I : mmu_inv m) by (by exists T, P, X, B).
  assert (Hlen : 0 < len) by (destruct bs; [done|]; unfold len; cbn [length]; lia).
  unfold copy_to_user. rewrite (proj2 (Z.eqb_neq len 0)) by lia.
  destruct (range_mapped_spec m udst len true I Hu ltac:(lia)) as [[-> Hok]|[-> Hbad]]; cbn [mbind outcome_bind]; [right|by left].
  destruct (store_bytes_spec bs m T P X B udst M Er (space_private s l T P X B O M Er) Hok Hb) as (m' & -> & St). cbn [negb Z.eqb mbind outcome_bind].
  destruct (stored_space s l T P X B _ m' O M Er St) as [O' Ep]. pose proof St as [M' Al R' Sb So]. assert (Er' : user_pml4 m' = cr3 T) by (rewrite R'; exact Er).
  exists m'. split_and!; [done|done|done|done|done|done|].
  assert (I' : mmu_inv m') by (by exists T, P, X, B).
  assert (Hok' : ∀ a, udst <= a < udst + len → user_ok m' true a) by (intros a Ha; eapply (user_ok_same m m'); try done; by apply Hok).
  unfold copy_from_user. rewrite (proj2 (Z.eqb_neq len 0)) by lia. cbn [negb].
  destruct (range_mapped_spec m' udst len false I' Hu ltac:(lia)) as [[-> _]|[_ (a & Ha & Hn)]].
  2: { destruct Hn. destruct (Hok' a Ha) as [? (e & He & _)]. split; [done|]. by exists e. }
  cbn [mbind outcome_bind negb Z.eqb]. rewrite (load_bytes_ok m' true) by (done || (intros x Hx; apply Hok'; lia)). cbn [mbind outcome_bind].
  do 2 f_equal. unfold len. rewrite Nat2Z.id. apply list_eq. intros i. unfold user_bytes. rewrite list_lookup_fmap.
  destruct (decide (i < length bs)%nat) as [Hi|Hi].
  - rewrite lookup_seqZ_lt by lia. cbn [fmap option_fmap option_map]. rewrite Sb. unfold at_range. rewrite decide_True by lia.
    replace (Z.to_nat (udst + Z.of_nat i - udst)) with i by lia. destruct (lookup_lt_is_Some_2 bs i Hi) as [b ->]. done.
  - rewrite lookup_seqZ_ge by lia. by rewrite lookup_ge_None_2 by lia.
Qed.

(** [copy_from_user] yields the bytes user code would read, or -EFAULT exactly when some byte of the range is
    not in a present page. *)
Theorem copy_from_user_correct m usrc len :
  mmu_inv m → 0 <= usrc < 2 ^ 64 → 0 < len < 2 ^ 64 →
  (copy_from_user true usrc len m = Ok (0, user_bytes m usrc (Z.to_nat len)) ∧ ∀ a, usrc <= a < usrc + len → user_ok m false a) ∨
  (copy_from_user true usrc len m = Ok (- EFAULT, []) ∧ ∃ a, usrc <= a < usrc + len ∧ ¬ user_ok m false a).
Proof.
  intros I Hu Hl. unfold copy_from_user. rewrite (proj2 (Z.eqb_neq len 0)) by lia. cbn [negb].
  destruct (range_mapped_spec m usrc len false I Hu Hl) as [[-> Hok]|[-> Hbad]]; cbn [mbind outcome_bind negb Z.eqb]; [left|by right].
  rewrite (load_bytes_ok m false) by (done || (intros x Hx; apply Hok; lia)). done.
Qed.

(** ** Strings *)

Definition no_nul (m : mmu) (a n : Z) : Prop := ∀ x, a <= x < a + n → user_ok m false x ∧ user_byte m x ≠ 0.

Lemma load_string_spec m n a :
  mmu_inv m → (∀ x, a <= x < a + Z.of_nat n → user_ok m false x) →
  (∃ k, (k < n)%nat ∧ load_string n a m = Ok (true, user_bytes m a (S k)) ∧ no_nul m a (Z.of_nat k) ∧ user_byte m (a + Z.of_nat k) = 0) ∨
  (load_string n a m = Ok (false, user_bytes m a n) ∧ no_nul m a (Z.of_nat n)).
Proof.
  intros I. revert a. induction n as [|n IH]; intros a H; cbn [load_string].
  { right. split; [done|]. intros x Hx. lia. }
  rewrite (load_byte_ok m false a I) by (apply H; lia). cbn [mbind outcome_bind]. destruct (Z.eqb_spec (user_byte m a) 0) as [E|E].
  - left. exists 0%nat. split_and!; [lia| | |by rewrite Z.add_0_r].
    + by rewrite user_bytes_S, E.
    + intros x Hx. lia.
  - assert (Hc : ∀ j, no_nul m (a + 1) j → no_nul m a (j + 1)).
    { intros j Hj x Hx. destruct (decide (x = a)) as [->|]; [split; [apply H; lia|done]|apply Hj; lia]. }
    destruct (IH (a + 1)) as [(k & Hk & -> & Hn & H0)|[-> Hn]]; [intros x Hx; apply H; lia| |]; cbn [mbind outcome_bind].
    + left. exists (S k). split_and!; [lia| | |].
      * by rewrite (user_bytes_S m a (S k)).
      * replace (Z.of_nat (S k)) with (Z.of_nat k + 1) by lia. by apply Hc.
      * rewrite <- H0. f_equal. lia.
    + right. split; [by rewrite user_bytes_S|]. replace (Z.of_nat (S n)) with (Z.of_nat n + 1) by lia. by apply Hc.
Qed.

Lemma user_bytes_app m a n k : user_bytes m a (n + k) = user_bytes m a n ++ user_bytes m (a + Z.of_nat n) k.
Proof. unfold user_bytes. rewrite <- fmap_app. f_equal. rewrite Nat2Z.inj_add. rewrite seqZ_app by lia. done. Qed.

Lemma user_bytes_length m a n : length (user_bytes m a n) = n.
Proof. unfold user_bytes. rewrite length_fmap, length_seqZ. lia. Qed.

(** What [copy_string_from_user] returns: the string with its NUL; the first bytes and a NUL
    when it is too long; or -EFAULT when a byte before the NUL cannot be read. *)
Definition string_result (m : mmu) (usrc max err : Z) (dst : list Z) : Prop :=
  (err = 0 ∧ ∃ k, 0 <= k < max ∧ no_nul m usrc k ∧ user_ok m false (usrc + k) ∧ user_byte m (usrc + k) = 0 ∧
     dst = user_bytes m usrc (S (Z.to_nat k))) ∨
  (err = - ENAMETOOLONG ∧ no_nul m usrc max ∧ dst = user_bytes m usrc (Z.to_nat (max - 1)) ++ [0]) ∨
  (err = - EFAULT ∧ ∃ k a, 0 <= k < max ∧ no_nul m usrc k ∧ usrc + k <= a < usrc + max ∧ page_of a = page_of (usrc + k) ∧ ¬ user_ok m false a).

Lemma no_nul_app m a n k : no_nul m a n → no_nul m (a + n) k → no_nul m a (n + k).
Proof. intros H1 H2 x Hx. destruct (decide (x < a + n)); [apply H1; lia|apply H2; lia]. Qed.

Lemma copy_string_loop_spec m usrc max fuel n :
  mmu_inv m → 0 <= usrc < 2 ^ 64 → 0 < max < 2 ^ 64 → Z.of_nat n <= max → no_nul m usrc (Z.of_nat n) → max - Z.of_nat n < Z.of_nat fuel →
  ∃ err dst, copy_string_loop fuel usrc max (user_bytes m usrc n) m = Ok (err, dst) ∧ string_result m usrc max err dst.
Proof.
  intros I Hu Hm. revert n. induction fuel as [|fuel IH]; intros n Hn Hnn Hf; [lia|]. cbn [copy_string_loop]. rewrite user_bytes_length.
  destruct (Z.ltb_spec (Z.of_nat n) max) as [Hlt|Hge]; cbn [negb].
  2: { eexists _, _. split; [done|]. right. left. assert (E : n = (Z.to_nat (max - 1) + 1)%nat) by lia. split_and!; [done|by replace max with (Z.of_nat n) by lia|].
    rewrite E at 1. rewrite user_bytes_app. set (A := user_bytes m usrc (Z.to_nat (max - 1))).
    assert (La : length A = Z.to_nat (max - 1)) by apply user_bytes_length. rewrite <- La at 1.
    rewrite user_bytes_S. rewrite insert_app_r_alt by lia. by rewrite Nat.sub_diag. }
  assert (Hcurr : usrc + Z.of_nat n <= USER_TOP ∨ n = 0%nat).
  { destruct n as [|n]; [by right|left]. destruct (Hnn (usrc + Z.of_nat n)) as [[? _] _]; lia. }
  assert (Ec : add64 usrc (Z.of_nat n) = usrc + Z.of_nat n) by (unfold add64, u64; rewrite Z.mod_small; lia).
  rewrite Ec, land_page_mask. set (curr := usrc + Z.of_nat n) in *. pose proof (Z.mod_pos_bound curr 4096 ltac:(lia)) as Hmod. unfold PAGE_SIZE.
  set (chunk := if _ >? _ then _ else _). assert (Hch : chunk = (max - Z.of_nat n) `min` (4096 - curr mod 4096)).
  { unfold chunk. rewrite Z.gtb_ltb. destruct (Z.ltb_spec (4096 - curr mod 4096) (max - Z.of_nat n)); lia. }
  destruct (range_mapped_spec m curr chunk false I ltac:(lia) ltac:(lia)) as [[-> Hok]|[-> (a & Ha & Hbad)]]; cbn [mbind outcome_bind negb Z.eqb].
  2: { eexists _, _. split; [done|]. right. right. split; [done|]. exists (Z.of_nat n), a. split_and!; [lia|lia|done|fold curr; lia|lia| |done].
    fold curr. apply page_of_unique; [apply page_of_aligned|]. rewrite page_of_eq. lia. }
  destruct (load_string_spec m (Z.to_nat chunk) curr I) as [(k & Hk & -> & Hn1 & H0)|[-> Hn1]]; [intros x Hx; apply Hok; lia| |]; cbn [mbind outcome_bind].
  - eexists _, _. split; [done|]. left. split; [done|]. exists (Z.of_nat n + Z.of_nat k). unfold curr in *. split_and!; [lia|lia|by apply no_nul_app| | |].
    + apply Hok. lia.
    + by rewrite Z.add_assoc.
    + rewrite <- user_bytes_app. f_equal. lia.
  - rewrite <- user_bytes_app. apply IH; [lia| |lia]. rewrite Nat2Z.inj_add. by apply no_nul_app.
Qed.

(** [copy_string_from_user] copies the string, NUL included, when it has fewer than [max]
    characters in present pages; it truncates a longer one with
    -ENAMETOOLONG; and it gives -EFAULT only when the page it has come to, without
    having met the NUL, is not present.  Pages behind the NUL are never looked at. *)
Theorem copy_string_correct m usrc max :
  mmu_inv m → 0 <= usrc < 2 ^ 64 → 0 < max < 2 ^ 64 →
  ∃ err dst, copy_string_from_user true usrc max m = Ok (err, dst) ∧ string_result m usrc max err dst.
Proof.
  intros I Hu Hm. unfold copy_string_from_user. rewrite (proj2 (Z.eqb_neq max 0)) by lia. cbn [negb orb].
  apply (copy_string_loop_spec m usrc max _ 0 I Hu Hm); [lia| |lia]. intros x Hx. lia.
Qed.

(** ** A process with one page *)

Definition one_vmas : vlist := [(1%positive, Vma 0x400000 0x401000 11)].

Lemma one_page_wf m : wf (one_page_space m) one_vmas.
Proof.
  constructor.
  - exists (Node RB_BLACK Leaf 1%positive Leaf). split_and!; [|split; [done|exists 1%nat; simpl; naive_solver]|done].
    constructor; cbn [as_rb one_page_space root nodes]; [done|by split_and!|by apply NoDup_singleton|done].
  - by repeat constructor.
  - repeat constructor; simpl; done.
  - repeat constructor.
Qed.

Lemma one_page_space_ok : ∃ m T P B, one_page = Ok (0, m) ∧ mmu_ok m [(T, P)] B ∧ user_pml4 m = cr3 T ∧ space_ok (one_page_space m) one_vmas ∧
  ∀ a, 0x400000 <= a < 0x401000 → user_ok m true a.
Proof.
  destruct one_page_full as (m & T & P & B & e & x & E & M & Er & He & Hz & Ex & Ux & Ee & HP). exists m, T, P, B.
  split; [exact E|]. clear E. split; [done|]. split; [done|].
  assert (Hfl : has e PTE_WRITE = true ∧ has e PTE_NX = true).
  { destruct (new_pte_flags (x * 4096) (PTE_USER + PTE_WRITE + PTE_NX)) as (_ & _ & W & N); [by split|]. rewrite Ee, W, N. done. }
  assert (Hp : ∀ a e', pte_at (as_pg (one_page_space m)) a = Some e' → a = 0x400000 ∧ e' = e).
  { intros a e' H. cbn [pte_at mmu_laws as_pg one_page_space] in H. rewrite (mmu_pte_leaf m T P [] B a M Er), HP in H.
    by apply lookup_singleton_Some in H as [<- <-]. }
  split.
  - constructor; [apply one_page_wf|by exists T, P, [], B|done| | |].
    + intros a e' Aa [-> ->]%Hp. exists 11. split; [done|]. split; [by intros _|]. intros N. destruct Hfl as [_ N']. congruence.
    + intros a e' Aa [-> ->]%Hp _. cbn [as_pg one_page_space mm_zero_page mmu_paging]. split; [done|]. fold (frame_of e). rewrite Ex.
      cbn [Vma.pmm_user_refcount mmu_paging]. by rewrite (refcount_user _ _ _ _ (f_pmm _ _ _ (proj1 (proj2 M))) Ux).
    + intros a f Hf. apply flags_at_Some in Hf as (p & ->%list_elem_of_singleton & _ & <-);
        [|repeat constructor|repeat constructor; simpl; done]. vm_compute. by intros [_ ?].
  - intros a Ha. split; [lia|]. exists e. rewrite (page_of_unique 0x400000 a) by (done || lia). split; [|by intros _; apply Hfl].
    by rewrite (mmu_pte_leaf m T P [] B _ M Er).
Qed.

(** Three bytes go to the page and come back. *)
Lemma copy_to_user_correct_witness : ∃ m m', one_page = Ok (0, m) ∧ copy_to_user 0x400ffd (Some [1; 2; 3]) 3 m = Ok (0, m') ∧
  copy_from_user true 0x400ffd 3 m' = Ok (0, [1; 2; 3]).
Proof.
  destruct one_page_space_ok as (m & T & P & B & E & M & Er & O & U).
  destruct (copy_to_user_correct (one_page_space m) one_vmas T P [] B 0x400ffd [1; 2; 3] O M Er)
    as [[_ (a & Ha & N)]|(m' & E1 & _ & _ & _ & _ & _ & E2)].
  - lia.
  - discriminate.
  - cbn [length]. lia.
  - repeat constructor; lia.
  - destruct N. apply U. cbn [length] in Ha. lia.
  - exact (ex_intro _ m (ex_intro _ m' (conj E (conj E1 E2)))).
Defined.

Lemma copy_from_user_correct_witness : ∃ m, one_page = Ok (0, m) ∧ copy_from_user true 0x400000 4 m = Ok (0, user_bytes m 0x400000 4).
Proof.
  destruct one_page_space_ok as (m & T & P & B & E & M & Er & O & U). exists m. split; [exact E|]. clear E.
  destruct (copy_from_user_correct m 0x400000 4) as [[E _]|[_ (a & Ha & N)]]; [exact (so_pg _ _ O)|lia|lia|exact E|].
  destruct N. destruct (U a ltac:(lia)) as [H (e & He & _)]. split; [exact H|]. exists e. split; [exact He|discriminate].
Defined.

(** A fresh page holds the empty string. *)
Lemma copy_string_correct_witness : ∃ m err dst, one_page = Ok (0, m) ∧ copy_string_from_user true 0x400000 16 m = Ok (err, dst) ∧ string_result m 0x400000 16 err dst.
Proof.
  destruct one_page_space_ok as (m & T & P & B & E & M & Er & O & U).
  destruct (copy_string_correct m 0x400000 16 (so_pg _ _ O)) as (err & dst & X & R); [lia|lia|].
  exact (ex_intro _ m (ex_intro _ err (ex_intro _ dst (conj E (conj X R))))).
Defined.

(** A buffer in a writable mapping whose pages were not touched yet is refused: the check
    does not go through the page-fault path that would map them. *)
Example lazy_buffer_refused :
  (m ← boot; '(err, _) ← copy_to_user 0x10000 (Some [1]) 1 (as_pg (demo_space m)); Ok (err, v_flags demo_vma)) = Ok (- EFAULT, VMA_READ + VMA_WRITE + VMA_USER).
Proof. vm_compute. done. Qed.
