(* ===== verification/Elf.v ===== *)
(** * kernel/exec/elf64.c: validating an executable

    [exec_image] is a size and a reader; the reader is code of a file system and a parameter
    here.  It returns the number of bytes, or a negative error, and the bytes it put into the buffer.  The structures
    are read from the bytes of the buffer, little endian. *)

From S2P Require Import Prelude Vma.

Definition EI_NIDENT : Z := 16.
Definition EI_CLASS : Z := 4.
Definition EI_DATA : Z := 5.
Definition ELFCLASS64 : Z := 2.
Definition ELFDATA2LSB : Z := 1.
Definition ET_EXEC : Z := 2.
Definition EM_X86_64 : Z := 62.
Definition PT_LOAD : Z := 1.
Definition PF_X : Z := 1.
Definition PF_W : Z := 2.
Definition sizeof_ehdr : Z := 64.
Definition sizeof_phdr : Z := 56.

(** [read_at] is [None] for NULL. *)
Record exec_image := ExecImage { read_at : option (Z → Z → Z * list Z); image_size : Z }.

Record exec_load_info := LoadInfo { li_entry : Z; li_low : Z; li_high : Z }.

Record elf64_ehdr := Ehdr {
  e_ident : list Z;
  e_type : Z;
  e_machine : Z;
  e_version : Z;
  e_entry : Z;
  e_phoff : Z;
  e_shoff : Z;
  e_flags : Z;
  e_ehsize : Z;
  e_phentsize : Z;
  e_phnum : Z;
  e_shentsize : Z;
  e_shnum : Z;
  e_shstrndx : Z
}.

Record elf64_phdr := Phdr {
  p_type : Z;
  p_flags : Z;
  p_offset : Z;
  p_vaddr : Z;
  p_paddr : Z;
  p_filesz : Z;
  p_memsz : Z;
  p_align : Z
}.

(** An unsigned integer of [n] bytes at offset [o]. *)
Fixpoint le (n : nat) (o : nat) (bs : list Z) : Z :=
  match n with
  | O => 0
  | S n => nth o bs 0 + 256 * le n (S o) bs
  end.

Definition get_ehdr (b : list Z) : elf64_ehdr :=
  Ehdr (take (Z.to_nat EI_NIDENT) b) (le 2 16 b) (le 2 18 b) (le 4 20 b) (le 8 24 b) (le 8 32 b) (le 8 40 b) (le 4 48 b)
    (le 2 52 b) (le 2 54 b) (le 2 56 b) (le 2 58 b) (le 2 60 b) (le 2 62 b).

Definition get_phdr (b : list Z) : elf64_phdr :=
  Phdr (le 4 0 b) (le 4 4 b) (le 8 8 b) (le 8 16 b) (le 8 24 b) (le 8 32 b) (le 8 40 b) (le 8 48 b).

(** The buffer is on the stack, never NULL. *)
Definition image_read_exact (image : option exec_image) (off len : Z) : Z * list Z :=
  match image with
  | None => (- EINVAL, [])
  | Some image =>
      match read_at image with
      | None => (- EINVAL, [])
      | Some read =>
          if (off >? image_size image) || (len >? image_size image - off) then (- ENOEXEC, []) else
          let '(n, bytes) := read off len in
          if n <? 0 then (n, []) else
          if n =? len then (0, bytes) else (- ENOEXEC, [])
      end
  end.

(** The end, when the range is one of user space. *)
Definition user_range (start len : Z) : option Z :=
  let e := add64 start len in
  if (len =? 0) || (e <? start) then None else
  if (start <? 0x1000) || (start >=? USER_TOP) || (e >? USER_TOP) then None else Some e.

Definition ident_ok (eh : elf64_ehdr) : bool :=
  bool_decide (take 4 (e_ident eh) = [0x7f; 69; 76; 70]) &&
  (nth (Z.to_nat EI_CLASS) (e_ident eh) 0 =? ELFCLASS64) && (nth (Z.to_nat EI_DATA) (e_ident eh) 0 =? ELFDATA2LSB) &&
  (e_type eh =? ET_EXEC) && (e_machine eh =? EM_X86_64) && (e_phentsize eh =? sizeof_phdr) && negb (e_phnum eh =? 0).

Record scan_state := ScanState { sc_low : Z; sc_high : Z; sc_loads : Z; sc_entry : bool }.

(** [for (i = 0; i < eh.e_phnum; i++)]: [n] headers left; an error on the left. *)
Fixpoint scan_phdrs (n : nat) (i : Z) (image : exec_image) (eh : elf64_ehdr) (st : scan_state) : Z + scan_state :=
  match n with
  | O => inr st
  | S n =>
      let off := add64 (e_phoff eh) (i * sizeof_phdr) in
      let '(err, b) := image_read_exact (Some image) off sizeof_phdr in
      if negb (err =? 0) then inl err else
      let ph := get_phdr b in
      if negb (p_type ph =? PT_LOAD) then scan_phdrs n (i + 1) image eh st else
      if (p_filesz ph >? p_memsz ph) || (p_offset ph >? image_size image) || (p_filesz ph >? image_size image - p_offset ph) ||
         (Z.land (p_flags ph) (Z.lor PF_X PF_W) =? Z.lor PF_X PF_W) then inl (- ENOEXEC) else
      match user_range (p_vaddr ph) (p_memsz ph) with
      | None => inl (- ENOEXEC)
      | Some end_ =>
          let low := if p_vaddr ph <? sc_low st then p_vaddr ph else sc_low st in
          let high := if end_ >? sc_high st then end_ else sc_high st in
          let entry := if negb (Z.land (p_flags ph) PF_X =? 0) && (e_entry eh >=? p_vaddr ph) && (e_entry eh <? end_) then true else sc_entry st in
          scan_phdrs n (i + 1) image eh (ScanState low high (sc_loads st + 1) entry)
      end
  end.

Definition elf64_validate_image (image : option exec_image) : Z * option exec_load_info :=
  let '(err, b) := image_read_exact image 0 sizeof_ehdr in
  if negb (err =? 0) then (err, None) else
  let eh := get_ehdr b in
  if negb (ident_ok eh) then (- ENOEXEC, None) else
  match image with
  | None => (- EINVAL, None)
  | Some img =>
      if (e_phoff eh >? image_size img) || (e_phnum eh >? (image_size img - e_phoff eh) / sizeof_phdr) then (- ENOEXEC, None) else
      match scan_phdrs (Z.to_nat (e_phnum eh)) 0 img eh (ScanState USER_TOP 0 0 false) with
      | inl err => (err, None)
      | inr st =>
          if (sc_loads st =? 0) || negb (sc_entry st) then (- ENOEXEC, None) else
          (0, Some (LoadInfo (e_entry eh) (sc_low st) (sc_high st)))
      end
  end.

(** ** The file as it should be *)

(** Segment [ph] of a file of [size] bytes: its bytes are in the file, it lies in user space above
    the first page, and it is not both writable and executable. *)
Record segment_ok (size : Z) (ph : elf64_phdr) : Prop := SegmentOk {
  sg_file : p_offset ph + p_filesz ph <= size;
  sg_mem : p_filesz ph <= p_memsz ph;
  sg_some : 0 < p_memsz ph;
  sg_user : 0x1000 <= p_vaddr ph ∧ p_vaddr ph + p_memsz ph <= USER_TOP;
  sg_wx : ¬ (Z.testbit (p_flags ph) 0 = true ∧ Z.testbit (p_flags ph) 1 = true)
}.

Section File.
Context (data : list Z).

Definition slice (o n : Z) : list Z := take (Z.to_nat n) (drop (Z.to_nat o) data).
Definition file_size : Z := Z.of_nat (length data).
Definition header : elf64_ehdr := get_ehdr (slice 0 sizeof_ehdr).
Definition phdrs : list elf64_phdr := (λ i, get_phdr (slice (e_phoff header + i * sizeof_phdr) sizeof_phdr)) <$> seqZ 0 (e_phnum header).
Definition segments : list elf64_phdr := filter (λ ph, p_type ph = PT_LOAD) phdrs.

(** The entry point is in an executable segment. *)
Definition entry_in (ph : elf64_phdr) : Prop :=
  Z.testbit (p_flags ph) 0 = true ∧ p_vaddr ph <= e_entry header < p_vaddr ph + p_memsz ph.

Record valid_elf : Prop := ValidElf {
  ve_size : sizeof_ehdr <= file_size;
  ve_ident : ident_ok header = true;
  ve_table : e_phoff header + e_phnum header * sizeof_phdr <= file_size;
  ve_segments : Forall (segment_ok file_size) segments;
  ve_entry : Exists entry_in segments
}.

Definition lowest : Z := foldr (λ ph, Z.min (p_vaddr ph)) USER_TOP segments.
Definition highest : Z := foldr (λ ph, Z.max (p_vaddr ph + p_memsz ph)) 0 segments.
End File.

(** The reader yields the bytes of the file. *)
Definition reads (image : exec_image) (data : list Z) : Prop :=
  image_size image = file_size data ∧
  ∃ read, read_at image = Some read ∧ ∀ off len, 0 <= off → 0 <= len → off + len <= file_size data → read off len = (len, slice data off len).
