(* ===== verification/ElfSpec.v ===== *)
(** * The validator accepts exactly the executables it should *)

From S2P Require Import Prelude Vma Elf.

Abbreviation byte_list := (Forall (λ b, 0 <= b < 256)).

Lemma le_bound n o bs : byte_list bs → 0 <= le n o bs < 256 ^ Z.of_nat n.
Proof.
  intros H. revert o. induction n as [|n IH]; intros o; cbn [le]; [done|]. specialize (IH (S o)).
  rewrite Nat2Z.inj_succ, Z.pow_succ_r by lia.
  assert (0 <= nth o bs 0 < 256); [|lia]. destruct (nth_in_or_default o bs 0) as [Hin| ->]; [|lia].
  by apply (proj1 (Forall_forall _ _) H), list_elem_of_In.
Qed.

Lemma le8_bound o bs : byte_list bs → 0 <= le 8 o bs < 2 ^ 64.
Proof. intros H. by apply (le_bound 8). Qed.

Lemma slice_byte_list data o n : byte_list data → byte_list (slice data o n).
Proof. intros H. unfold slice. by apply Forall_take, Forall_drop. Qed.

Lemma read_exact_eq image data off len :
  reads image data → 0 <= off → 0 < len → off + len <= file_size data → image_read_exact (Some image) off len = (0, slice data off len).
Proof.
  intros (Hs & read & Hr & H) H0 H1 H2. unfold image_read_exact. rewrite Hr, Hs, !Z.gtb_ltb.
  rewrite (proj2 (Z.ltb_ge _ _)), (proj2 (Z.ltb_ge _ _)) by lia. cbn [orb]. rewrite H by lia.
  rewrite (proj2 (Z.ltb_ge _ _)) by lia. by rewrite Z.eqb_refl.
Qed.

Lemma user_range_spec start len :
  0 <= start < 2 ^ 64 → 0 <= len < 2 ^ 64 →
  user_range start len = if decide (0 < len ∧ 0x1000 <= start ∧ start + len <= USER_TOP) then Some (start + len) else None.
Proof.
  intros Hs Hl. unfold user_range, add64, u64. rewrite Z.geb_leb, Z.gtb_ltb. case_decide as H.
  - rewrite Z.mod_small by lia. rewrite (proj2 (Z.eqb_neq _ _)), (proj2 (Z.ltb_ge _ _)) by lia. cbn [orb].
    rewrite (proj2 (Z.ltb_ge _ _)), (proj2 (Z.leb_gt _ _)), (proj2 (Z.ltb_ge _ _)) by lia. done.
  - destruct (Z.eqb_spec len 0); [done|]. cbn [orb]. destruct (Z.ltb_spec ((start + len) mod 2 ^ 64) start) as [|Hge]; [done|].
    destruct (Z.ltb_spec start 0x1000); [done|]. destruct (Z.leb_spec USER_TOP start); [done|]. cbn [orb].
    pose proof (add64_no_wrap start len Hs Hl Hge). rewrite (Z.mod_small (start + len)) by lia. by rewrite (proj2 (Z.ltb_lt _ _)) by lia.
Qed.

Lemma land_bit0 x : negb (Z.land x PF_X =? 0) = Z.testbit x 0.
Proof.
  change PF_X with (Z.ones 1). rewrite Z.land_ones by lia. change (2 ^ 1) with 2.
  rewrite Z.bit0_odd. rewrite Zmod_odd. by destruct (Z.odd x).
Qed.

Lemma land_wx x : (Z.land x (Z.lor PF_X PF_W) =? Z.lor PF_X PF_W) = Z.testbit x 0 && Z.testbit x 1.
Proof.
  change (Z.lor PF_X PF_W) with (Z.ones 2). apply eq_bool_prop_intro. rewrite !Is_true_true, Z.eqb_eq, andb_true_iff. split.
  - intros H. assert (B : ∀ n, 0 <= n < 2 → Z.testbit x n = true).
    { intros n Hn. assert (T : Z.testbit (Z.land x (Z.ones 2)) n = true) by (rewrite H; apply Z.ones_spec_low; lia).
      rewrite Z.land_spec in T. by apply andb_prop in T as [? _]. }
    split; apply B; lia.
  - intros [H0 H1]. apply Z.bits_inj'. intros n Hn. rewrite Z.land_spec, Z.testbit_ones_nonneg by lia.
    destruct (Z.ltb_spec n 2); [|by rewrite andb_false_r]. rewrite andb_true_r.
    destruct (decide (n = 0)) as [->|]; [done|]. by replace n with 1 by lia.
Qed.

Section Scan.
Context (image : exec_image) (data : list Z).
Hypothesis R : reads image data.
Hypothesis bytes : byte_list data.

Definition phdr_at (eh : elf64_ehdr) (i : Z) : elf64_phdr := get_phdr (slice data (e_phoff eh + i * sizeof_phdr) sizeof_phdr).

(** The headers [i .. i + n) that are segments. *)
Definition segs (eh : elf64_ehdr) (i : Z) (n : nat) : list elf64_phdr := filter (λ ph, p_type ph = PT_LOAD) (phdr_at eh <$> seqZ i (Z.of_nat n)).

Lemma segs_S eh i n : segs eh i (S n) = (if decide (p_type (phdr_at eh i) = PT_LOAD) then [phdr_at eh i] else []) ++ segs eh (i + 1) n.
Proof.
  unfold segs. rewrite seqZ_cons by lia. replace (Z.pred (Z.of_nat (S n))) with (Z.of_nat n) by lia. rewrite fmap_cons, filter_cons.
  replace (Z.succ i) with (i + 1) by lia. by case_decide.
Qed.

(** What a segment does to the running values. *)
Definition take_segment (eh : elf64_ehdr) (ph : elf64_phdr) (st : scan_state) : scan_state :=
  ScanState (Z.min (p_vaddr ph) (sc_low st)) (Z.max (p_vaddr ph + p_memsz ph) (sc_high st)) (sc_loads st + 1)
    (sc_entry st || bool_decide (Z.testbit (p_flags ph) 0 = true ∧ p_vaddr ph <= e_entry eh < p_vaddr ph + p_memsz ph)).

Lemma scan_phdrs_spec eh n i st :
  0 <= e_phoff eh → 0 <= i → e_phoff eh + (i + Z.of_nat n) * sizeof_phdr <= file_size data → file_size data < 2 ^ 63 →
  (Forall (segment_ok (file_size data)) (segs eh i n) ∧
     scan_phdrs n i image eh st = inr (foldl (λ st ph, take_segment eh ph st) st (segs eh i n))) ∨
  (¬ Forall (segment_ok (file_size data)) (segs eh i n) ∧ scan_phdrs n i image eh st = inl (- ENOEXEC)).
Proof.
  revert i st. unfold sizeof_phdr. induction n as [|n IH]; intros i st H0 Hi Hs H63; [left; by split; [constructor|]|]. cbn [scan_phdrs]. unfold sizeof_phdr.
  rewrite segs_S. replace (add64 (e_phoff eh) (i * 56)) with (e_phoff eh + i * 56) by (unfold add64, u64; rewrite Z.mod_small; lia).
  rewrite (read_exact_eq image data) by (done || lia). cbn [Z.eqb negb]. fold sizeof_phdr. fold (phdr_at eh i). set (ph := phdr_at eh i).
  assert (Hb : byte_list (slice data (e_phoff eh + i * sizeof_phdr) sizeof_phdr)) by (by apply slice_byte_list).
  assert (B1 : 0 <= p_offset ph < 2 ^ 64 ∧ 0 <= p_vaddr ph < 2 ^ 64 ∧ 0 <= p_filesz ph < 2 ^ 64 ∧ 0 <= p_memsz ph < 2 ^ 64)
    by (unfold ph, phdr_at, get_phdr; cbn [p_offset p_vaddr p_filesz p_memsz]; split_and!; by apply le8_bound). clearbody ph.
  destruct (Z.eqb_spec (p_type ph) PT_LOAD) as [Et|Et]; cbn [negb].
  2: { rewrite decide_False by done. cbn [app]. apply IH; [done|lia|lia|done]. }
  rewrite decide_True by done. cbn [app foldl]. destruct R as (Hsz & _). rewrite Hsz, land_wx, !Z.gtb_ltb. rewrite user_range_spec by tauto.
  assert (Hd : segment_ok (file_size data) ph ↔
    p_filesz ph <= p_memsz ph ∧ p_offset ph <= file_size data ∧ p_filesz ph <= file_size data - p_offset ph ∧
    (Z.testbit (p_flags ph) 0 && Z.testbit (p_flags ph) 1) = false ∧ 0 < p_memsz ph ∧ 0x1000 <= p_vaddr ph ∧ p_vaddr ph + p_memsz ph <= USER_TOP).
  { rewrite andb_false_iff. split.
    - intros [F1 F2 F3 F4 F5]. split_and!; try lia. destruct (Z.testbit (p_flags ph) 0); [right|by left]. destruct (Z.testbit (p_flags ph) 1); [by destruct F5|done].
    - intros (F1 & F2 & F3 & F4 & F5 & F6 & F7). split; [lia..|split; lia|]. intros [X1 X2]. rewrite X1, X2 in F4. by destruct F4. }
  match goal with |- context [if ?c then inl (- ENOEXEC) else _] => destruct c eqn:C end.
  { right. split; [|done]. intros [H%Hd _]%Forall_cons. destruct H as (F1 & F2 & F3 & F4 & _). rewrite F4 in C.
    rewrite (proj2 (Z.ltb_ge _ _)), (proj2 (Z.ltb_ge _ _)), (proj2 (Z.ltb_ge _ _)) in C by lia. done. }
  apply orb_false_iff in C as [C C4]. apply orb_false_iff in C as [C C3%Z.ltb_ge]. apply orb_false_iff in C as [C1%Z.ltb_ge C2%Z.ltb_ge].
  case_decide as U.
  2: { right. split; [|done]. intros [H%Hd _]%Forall_cons. tauto. }
  assert (Hok : segment_ok (file_size data) ph) by (apply Hd; tauto).
  match goal with |- context [scan_phdrs n (i + 1) image eh ?x] => assert (Es : x = take_segment eh ph st) end.
  { unfold take_segment. rewrite land_bit0, Z.geb_leb. f_equal.
    - destruct (Z.ltb_spec (p_vaddr ph) (sc_low st)); lia.
    - rewrite Z.gtb_ltb. destruct (Z.ltb_spec (sc_high st) (p_vaddr ph + p_memsz ph)); lia.
    - case_bool_decide as Hb1.
      + destruct Hb1 as (-> & H1 & H2). rewrite (proj2 (Z.leb_le _ _)), (proj2 (Z.ltb_lt _ _)) by lia. by rewrite orb_true_r.
      + rewrite orb_false_r. destruct (Z.testbit (p_flags ph) 0) eqn:E0; [|done]. destruct (Z.leb_spec (p_vaddr ph) (e_entry eh)); [|done].
        destruct (Z.ltb_spec (e_entry eh) (p_vaddr ph + p_memsz ph)); [|done]. destruct Hb1. done. }
  rewrite Es. destruct (IH (i + 1) (take_segment eh ph st)) as [[F E]|[F E]]; [done|lia|lia|done| |].
  - left. split; [by constructor|done].
  - right. split; [|done]. by intros [_ ?]%Forall_cons.
Qed.
End Scan.

(** The running values at the end. *)
Lemma scan_fold eh l st :
  let st' := foldl (λ st ph, take_segment eh ph st) st l in
  sc_low st' = foldr (λ ph, Z.min (p_vaddr ph)) (sc_low st) l ∧
  sc_high st' = foldr (λ ph, Z.max (p_vaddr ph + p_memsz ph)) (sc_high st) l ∧
  sc_loads st' = sc_loads st + Z.of_nat (length l) ∧
  (sc_entry st' = true ↔ sc_entry st = true ∨ Exists (λ ph, Z.testbit (p_flags ph) 0 = true ∧ p_vaddr ph <= e_entry eh < p_vaddr ph + p_memsz ph) l).
Proof.
  assert (Hmin : ∀ l x y, foldr (λ ph, Z.min (p_vaddr ph)) (Z.min x y) l = Z.min x (foldr (λ ph, Z.min (p_vaddr ph)) y l)).
  { clear. induction l as [|ph l IH]; intros x y; cbn [foldr]; [done|]. rewrite IH. lia. }
  assert (Hmax : ∀ l x y, foldr (λ ph, Z.max (p_vaddr ph + p_memsz ph)) (Z.max x y) l = Z.max x (foldr (λ ph, Z.max (p_vaddr ph + p_memsz ph)) y l)).
  { clear. induction l as [|ph l IH]; intros x y; cbn [foldr]; [done|]. rewrite IH. lia. }
  revert st. induction l as [|ph l IH]; intros st; cbn zeta; cbn [foldl foldr length].
  { split_and!; [done|done|lia|]. rewrite Exists_nil. tauto. }
  destruct (IH (take_segment eh ph st)) as (-> & -> & -> & ->). cbn [take_segment sc_low sc_high sc_loads sc_entry].
  rewrite Hmin, Hmax, Exists_cons, orb_true_iff, bool_decide_eq_true. split_and!; [done|done|lia|tauto].
Qed.

(** The validator against the checks it makes. *)
Lemma elf_validate_spec image data :
  reads image data → byte_list data → file_size data < 2 ^ 63 →
  (valid_elf data ∧ elf64_validate_image (Some image) = (0, Some (LoadInfo (e_entry (header data)) (lowest data) (highest data)))) ∨
  (¬ valid_elf data ∧ elf64_validate_image (Some image) = (- ENOEXEC, None)).
Proof.
  intros R Hb H63. unfold elf64_validate_image.
  destruct (Z.le_gt_cases sizeof_ehdr (file_size data)) as [Hsz|Hsz].
  2: { right. split; [intros V; pose proof (ve_size _ V); lia|]. destruct R as (Es & read & Er & _). unfold image_read_exact. rewrite Er, Es, !Z.gtb_ltb.
    unfold file_size, sizeof_ehdr in *. rewrite (proj2 (Z.ltb_ge _ 0)), (proj2 (Z.ltb_lt _ 64)) by lia. done. }
  rewrite (read_exact_eq image data) by (done || (unfold sizeof_ehdr in *; lia)). cbn [Z.eqb negb]. fold (header data). set (eh := header data).
  assert (Be : 0 <= e_phoff eh < 2 ^ 64 ∧ 0 <= e_phnum eh < 2 ^ 16).
  { unfold eh, header, get_ehdr. cbn [e_phoff e_phnum]. split; [by apply le8_bound, slice_byte_list|by apply (le_bound 2), slice_byte_list]. }
  destruct (ident_ok eh) eqn:Ei; cbn [negb].
  2: { right. split; [|done]. intros V. pose proof (ve_ident _ V). unfold eh in Ei. congruence. }
  pose proof R as (Es & _). rewrite Es, !Z.gtb_ltb.
  assert (Ht : (file_size data <? e_phoff eh) || ((file_size data - e_phoff eh) / sizeof_phdr <? e_phnum eh) = false ↔
    e_phoff eh + e_phnum eh * sizeof_phdr <= file_size data).
  { rewrite orb_false_iff, !Z.ltb_ge. unfold sizeof_phdr. split.
    - intros [H1 H2]. pose proof (Z.mul_div_le (file_size data - e_phoff eh) 56). lia.
    - intros H. split; [lia|]. apply Z.div_le_lower_bound; lia. }
  destruct ((_ <? _) || (_ <? _)) eqn:Et.
  { right. split; [|done]. intros V. pose proof (proj2 Ht (ve_table _ V)). congruence. }
  pose proof (proj1 Ht eq_refl) as Htab.
  assert (Eseg : segs data eh 0 (Z.to_nat (e_phnum eh)) = segments data) by (unfold segs, segments, phdrs; rewrite Z2Nat.id by lia; done).
  destruct (scan_phdrs_spec image data R Hb eh (Z.to_nat (e_phnum eh)) 0 (ScanState USER_TOP 0 0 false)) as [[F ->]|[F ->]]; [lia|lia|rewrite Z2Nat.id; lia|done| |];
    rewrite Eseg in *.
  2: { right. split; [|done]. intros V. by destruct F; apply V. }
  destruct (scan_fold eh (segments data) (ScanState USER_TOP 0 0 false)) as (-> & -> & -> & He). cbn [sc_low sc_high sc_loads sc_entry] in *.
  destruct (sc_entry _) eqn:Ee.
  - left. destruct (proj1 He eq_refl) as [?|Hx]; [done|]. split; [by split|].
    assert (Hl : segments data ≠ []) by (intros X; rewrite X in Hx; by apply Exists_nil in Hx).
    destruct (segments data) as [|x l] eqn:El; [done|]. rewrite (proj2 (Z.eqb_neq _ _)) by (cbn [length]; lia). cbn [orb negb].
    unfold lowest, highest. by rewrite El.
  - right. rewrite orb_true_r. split; [|done]. intros V. pose proof (proj2 He (or_intror (ve_entry _ V))). congruence.
Qed.

(** ** The format

    Offsets and values are those of the ELF-64 format, not of the code. *)

Section Format.
Context (data : list Z).

(** The number in the [n] bytes at [o], little endian. *)
Definition field (o n : Z) : Z := foldr (λ b a, b + 256 * a) 0 (slice data o n).

Definition f_phoff : Z := field 32 8.
Definition f_phnum : Z := field 56 2.
Definition f_entry : Z := field 24 8.

(** A loadable segment has its program header at [o]. *)
Definition load_header (o : Z) : Prop := ∃ i, 0 <= i < f_phnum ∧ o = f_phoff + 56 * i ∧ field o 4 = 1.

Definition seg_flags (o : Z) : Z := field (o + 4) 4.
Definition seg_offset (o : Z) : Z := field (o + 8) 8.
Definition seg_vaddr (o : Z) : Z := field (o + 16) 8.
Definition seg_filesz (o : Z) : Z := field (o + 32) 8.
Definition seg_memsz (o : Z) : Z := field (o + 40) 8.
Definition seg_end (o : Z) : Z := seg_vaddr o + seg_memsz o.
Definition seg_executable (o : Z) : Prop := Z.testbit (seg_flags o) 0 = true.
Definition seg_writable (o : Z) : Prop := Z.testbit (seg_flags o) 1 = true.

Record x86_64_executable : Prop := X86Executable {
  xe_size : 64 <= file_size data;
  xe_magic : slice data 0 4 = [0x7f; 0x45; 0x4c; 0x46];
  xe_class : field 4 1 = 2;
  xe_endian : field 5 1 = 1;
  xe_type : field 16 2 = 2;
  xe_machine : field 18 2 = 62;
  xe_phentsize : field 54 2 = 56;
  xe_table : f_phoff + 56 * f_phnum <= file_size data;
  xe_in_file : ∀ o, load_header o → seg_offset o + seg_filesz o <= file_size data ∧ seg_filesz o <= seg_memsz o;
  xe_in_user : ∀ o, load_header o → 0x1000 <= seg_vaddr o ∧ 0 < seg_memsz o ∧ seg_end o <= USER_TOP;
  xe_w_xor_x : ∀ o, load_header o → ¬ (seg_writable o ∧ seg_executable o);
  xe_entry : ∃ o, load_header o ∧ seg_executable o ∧ seg_vaddr o <= f_entry < seg_end o
}.

Lemma le_fold n o bs : le n o bs = foldr (λ b a, b + 256 * a) 0 (take n (drop o bs)).
Proof.
  revert o. induction n as [|n IH]; intros o; cbn [le]; [done|]. rewrite IH.
  destruct (drop o bs) as [|b r] eqn:E.
  - assert (length bs <= o)%nat by (apply (f_equal length) in E; rewrite length_drop in E; simpl in E; lia).
    rewrite nth_overflow by done. rewrite (drop_ge bs (S o)) by lia. by rewrite take_nil.
  - assert (bs !! o = Some b) as Hb by (rewrite <- (Nat.add_0_r o), <- lookup_drop, E; done).
    rewrite (nth_lookup_Some bs o 0 b Hb). pose proof (drop_S bs b o Hb) as E2. rewrite E in E2. injection E2 as ->. done.
Qed.

Lemma le_slice n o base m : 0 <= base → Z.of_nat o + Z.of_nat n <= m →
  le n o (slice data base m) = field (base + Z.of_nat o) (Z.of_nat n).
Proof.
  intros Hb Hm. rewrite le_fold. unfold field, slice. f_equal. rewrite Nat2Z.id, Z2Nat.inj_add, Nat2Z.id by lia.
  rewrite skipn_firstn_comm, take_take, drop_drop. f_equal. lia.
Qed.

Lemma header_fields : e_phoff (header data) = f_phoff ∧ e_phnum (header data) = f_phnum ∧ e_entry (header data) = f_entry ∧
  e_type (header data) = field 16 2 ∧ e_machine (header data) = field 18 2 ∧ e_phentsize (header data) = field 54 2.
Proof.
  unfold header, get_ehdr, sizeof_ehdr. cbn [e_phoff e_phnum e_entry e_type e_machine e_phentsize].
  split_and!; (etrans; [apply le_slice; lia|reflexivity]).
Qed.

Definition ph_at (o : Z) : elf64_phdr := get_phdr (slice data o sizeof_phdr).

Lemma phdr_fields o : 0 <= o → p_type (ph_at o) = field o 4 ∧ p_flags (ph_at o) = seg_flags o ∧ p_offset (ph_at o) = seg_offset o ∧
  p_vaddr (ph_at o) = seg_vaddr o ∧ p_filesz (ph_at o) = seg_filesz o ∧ p_memsz (ph_at o) = seg_memsz o.
Proof.
  intros Ho. unfold ph_at, get_phdr, sizeof_phdr. cbn [p_type p_flags p_offset p_vaddr p_filesz p_memsz].
  split_and!; (etrans; [apply le_slice; lia|]); [by rewrite Z.add_0_r|reflexivity..].
Qed.

Hypothesis bytes : byte_list data.

Lemma field_nonneg o n : 0 <= field o n.
Proof.
  unfold field. pose proof (slice_byte_list data o n bytes) as H. induction (slice data o n) as [|b l IH]; [done|].
  apply Forall_cons in H as [? H]. specialize (IH H). cbn [foldr]. lia.
Qed.

Lemma load_header_pos o : load_header o → 0 <= o.
Proof. intros (i & Hi & -> & _). pose proof (field_nonneg 32 8). unfold f_phoff. lia. Qed.

Lemma segments_in ph : ph ∈ segments data ↔ ∃ o, load_header o ∧ ph = ph_at o.
Proof.
  unfold segments, phdrs. destruct header_fields as (-> & -> & _). rewrite list_elem_of_filter, list_elem_of_fmap. split.
  - intros (Ht & i & -> & Hi%elem_of_seqZ). exists (f_phoff + i * 56). fold (ph_at (f_phoff + i * sizeof_phdr)) in *. split; [|done].
    exists i. split; [lia|]. split; [lia|]. unfold sizeof_phdr in Ht. destruct (phdr_fields (f_phoff + i * 56)) as (<- & _); [|done].
    pose proof (field_nonneg 32 8). unfold f_phoff. lia.
  - intros (o & Ho & ->). pose proof (load_header_pos o Ho) as Hp. destruct Ho as (i & Hi & -> & Ht). split.
    + destruct (phdr_fields (f_phoff + 56 * i) Hp) as (-> & _). done.
    + exists i. split; [unfold ph_at, sizeof_phdr; do 2 f_equal; lia|]. apply elem_of_seqZ. lia.
Qed.

Lemma ident_spec : 64 <= file_size data → ident_ok (header data) = true ↔
  slice data 0 4 = [0x7f; 0x45; 0x4c; 0x46] ∧ field 4 1 = 2 ∧ field 5 1 = 1 ∧ field 16 2 = 2 ∧ field 18 2 = 62 ∧ field 54 2 = 56 ∧ f_phnum ≠ 0.
Proof.
  intros Hs. unfold ident_ok. destruct header_fields as (_ & -> & _ & -> & -> & ->).
  assert (∀ k, (k < 16)%nat → nth k (e_ident (header data)) 0 = field (Z.of_nat k) 1) as Hn.
  { intros k Hk. unfold header, get_ehdr, sizeof_ehdr. cbn [e_ident]. pose proof (le_slice 1 k 0 64 ltac:(lia) ltac:(lia)) as E.
    cbn [le] in E. rewrite Z.mul_0_r, Z.add_0_r, Z.add_0_l in E. change (Z.of_nat 1) with 1 in E. rewrite <- E.
    rewrite !nth_lookup. f_equal. apply lookup_take_lt. exact Hk. }
  change (Z.to_nat EI_CLASS) with 4%nat. change (Z.to_nat EI_DATA) with 5%nat. rewrite !Hn by lia.
  assert (take 4 (e_ident (header data)) = slice data 0 4) as ->.
  { unfold header, get_ehdr, sizeof_ehdr, slice. cbn [e_ident]. rewrite !take_take. f_equal. }
  rewrite !andb_true_iff, bool_decide_eq_true, negb_true_iff, !Z.eqb_eq, Z.eqb_neq.
  unfold ELFCLASS64, ELFDATA2LSB, ET_EXEC, EM_X86_64, sizeof_phdr. tauto.
Qed.

Lemma valid_elf_format : valid_elf data ↔ x86_64_executable.
Proof.
  destruct header_fields as (E1 & E2 & E3 & _). split.
  - intros [V1 V2 V3 V4 V5]. unfold sizeof_ehdr, sizeof_phdr in *. apply ident_spec in V2 as (I1 & I2 & I3 & I4 & I5 & I6 & I7); [|done].
    assert (∀ o, load_header o → segment_ok (file_size data) (ph_at o)) as Hseg.
    { intros o Ho. rewrite Forall_forall in V4. apply V4, segments_in. by exists o. }
    constructor; try done; [lia|..].
    + intros o Ho. destruct (Hseg o Ho) as [S1 S2 S3 S4 S5]. destruct (phdr_fields o (load_header_pos o Ho)) as (_ & F2 & F3 & F4 & F5 & F6). lia.
    + intros o Ho. destruct (Hseg o Ho) as [S1 S2 S3 S4 S5]. destruct (phdr_fields o (load_header_pos o Ho)) as (_ & F2 & F3 & F4 & F5 & F6). unfold seg_end. lia.
    + intros o Ho [X1 X2]. destruct (Hseg o Ho) as [S1 S2 S3 S4 S5]. destruct (phdr_fields o (load_header_pos o Ho)) as (_ & F2 & _). apply S5. by rewrite F2.
    + apply Exists_exists in V5 as (ph & (o & Ho & ->)%segments_in & Hx & Hr). exists o. split; [done|].
      destruct (phdr_fields o (load_header_pos o Ho)) as (_ & F2 & _ & F4 & _ & F6). unfold seg_executable, seg_end. rewrite <- F2, <- F4, <- F6, <- E3. done.
  - intros [X1 X2 X3 X4 X5 X6 X7 X8 X9 X10 X11 (o & Ho & Hx & Hr)].
    assert (f_phnum ≠ 0) as Hn by (destruct Ho as (i & Hi & _); lia).
    constructor; unfold sizeof_ehdr, sizeof_phdr; [done|by apply ident_spec|lia|..].
    + apply Forall_forall. intros ph (q & Hq & ->)%segments_in. destruct (phdr_fields q (load_header_pos q Hq)) as (_ & F2 & F3 & F4 & F5 & F6).
      destruct (X9 q Hq), (X10 q Hq) as (? & ? & ?). unfold seg_end in *. constructor; [lia..|]. rewrite F2. intros [? ?]. by apply (X11 q Hq).
    + apply Exists_exists. exists (ph_at o). split; [apply segments_in; by exists o|]. destruct (phdr_fields o (load_header_pos o Ho)) as (_ & F2 & _ & F4 & _ & F6).
      unfold entry_in, seg_executable, seg_end in *. by rewrite F2, F4, F6, E3.
Qed.

Definition lowest_of (low : Z) : Prop := (∃ o, load_header o ∧ seg_vaddr o = low) ∧ ∀ o, load_header o → low <= seg_vaddr o.
Definition highest_of (high : Z) : Prop := (∃ o, load_header o ∧ seg_end o = high) ∧ ∀ o, load_header o → seg_end o <= high.

Lemma bounds_format : x86_64_executable → lowest_of (lowest data) ∧ highest_of (highest data).
Proof.
  intros V. assert (∀ l x, (∀ ph, ph ∈ l → p_vaddr ph <= x) → l ≠ [] → (∃ ph, ph ∈ l ∧ p_vaddr ph = foldr (λ ph, Z.min (p_vaddr ph)) x l) ∧
    ∀ ph, ph ∈ l → foldr (λ ph, Z.min (p_vaddr ph)) x l <= p_vaddr ph) as Hmin.
  { clear. induction l as [|a l IH]; intros x Hx Hne; [done|]. cbn [foldr]. destruct l as [|b l].
    - cbn [foldr]. specialize (Hx a ltac:(by left)). split; [exists a; split; [by left|lia]|]. intros ph ->%list_elem_of_singleton. lia.
    - destruct (IH x) as [(ph & Hp & Ep) Hl]; [intros q Hq; apply Hx; by right|done|]. split.
      + destruct (Z.le_gt_cases (p_vaddr a) (p_vaddr ph)); [exists a; split; [by left|lia]|exists ph; split; [by right|lia]].
      + intros q [->|Hq]%elem_of_cons; [lia|]. specialize (Hl q Hq). lia. }
  assert (∀ l x, (∀ ph, ph ∈ l → x <= p_vaddr ph + p_memsz ph) → l ≠ [] → (∃ ph, ph ∈ l ∧ p_vaddr ph + p_memsz ph = foldr (λ ph, Z.max (p_vaddr ph + p_memsz ph)) x l) ∧
    ∀ ph, ph ∈ l → p_vaddr ph + p_memsz ph <= foldr (λ ph, Z.max (p_vaddr ph + p_memsz ph)) x l) as Hmax.
  { clear. induction l as [|a l IH]; intros x Hx Hne; [done|]. cbn [foldr]. destruct l as [|b l].
    - cbn [foldr]. specialize (Hx a ltac:(by left)). split; [exists a; split; [by left|lia]|]. intros ph ->%list_elem_of_singleton. lia.
    - destruct (IH x) as [(ph & Hp & Ep) Hl]; [intros q Hq; apply Hx; by right|done|]. split.
      + destruct (Z.le_gt_cases (p_vaddr ph + p_memsz ph) (p_vaddr a + p_memsz a)); [exists a; split; [by left|lia]|exists ph; split; [by right|lia]].
      + intros q [->|Hq]%elem_of_cons; [lia|]. specialize (Hl q Hq). lia. }
  assert (segments data ≠ []) as Hne. { destruct (xe_entry V) as (o & Ho & _). intros E. assert (ph_at o ∈ segments data) as H by (apply segments_in; by exists o). rewrite E in H. by apply elem_of_nil in H. }
  assert (∀ o, load_header o → p_vaddr (ph_at o) = seg_vaddr o ∧ p_vaddr (ph_at o) + p_memsz (ph_at o) = seg_end o) as Hf.
  { intros o Ho. destruct (phdr_fields o (load_header_pos o Ho)) as (_ & _ & _ & -> & _ & ->). done. }
  split.
  - destruct (Hmin (segments data) USER_TOP) as [(ph & (o & Ho & ->)%segments_in & Ep) Hl]; [|done|].
    { intros ph (o & Ho & ->)%segments_in. destruct (Hf o Ho) as [-> _], (xe_in_user V o Ho) as (? & ? & ?). unfold seg_end in *. lia. }
    split; [exists o; split; [done|]; destruct (Hf o Ho) as [<- _]; exact Ep|]. intros q Hq. destruct (Hf q Hq) as [<- _]. apply Hl, segments_in. by exists q.
  - destruct (Hmax (segments data) 0) as [(ph & (o & Ho & ->)%segments_in & Ep) Hl]; [|done|].
    { intros ph (o & Ho & ->)%segments_in. destruct (Hf o Ho) as [_ ->], (xe_in_user V o Ho) as (? & ? & ?). unfold seg_end in *. lia. }
    split; [exists o; split; [done|]; destruct (Hf o Ho) as [_ <-]; exact Ep|]. intros q Hq. destruct (Hf q Hq) as [_ <-]. apply Hl, segments_in. by exists q.
Qed.
End Format.


(** ** A file *)

(** The little-endian bytes of [v]. *)
Fixpoint enc (n : nat) (v : Z) : list Z := match n with O => [] | S n => v mod 256 :: enc n (v / 256) end.

Definition demo_ehdr (phnum : Z) : list Z :=
  [0x7f; 69; 76; 70; 2; 1] ++ replicate 10 0 ++ enc 2 ET_EXEC ++ enc 2 EM_X86_64 ++ enc 4 0 ++ enc 8 0x400000 ++ enc 8 64 ++ enc 8 0 ++
  enc 4 0 ++ enc 2 0 ++ enc 2 56 ++ enc 2 phnum ++ enc 2 0 ++ enc 2 0 ++ enc 2 0.

Definition demo_phdr (flags vaddr size : Z) : list Z :=
  enc 4 PT_LOAD ++ enc 4 flags ++ enc 8 0 ++ enc 8 vaddr ++ enc 8 0 ++ enc 8 size ++ enc 8 size ++ enc 8 0.

Definition image_of (data : list Z) : exec_image := ExecImage (Some (λ off len, (len, slice data off len))) (file_size data).

Lemma image_of_reads data : reads (image_of data) data.
Proof. split; [done|]. eexists. done. Qed.

Lemma byte_list_check l : forallb (λ b, (0 <=? b) && (b <? 256)) l = true → byte_list l.
Proof. rewrite forallb_forall. intros H. apply Forall_forall. intros b Hb%list_elem_of_In. specialize (H b Hb). lia. Qed.

Definition demo_exec : list Z := demo_ehdr 1 ++ demo_phdr PF_X 0x400000 120.


(** Segments may share a page: nothing refuses an executable and a writable segment on the
    page 0x400000. *)
Example segments_share_a_page :
  (elf64_validate_image (Some (image_of (demo_ehdr 2 ++ demo_phdr PF_X 0x400000 120 ++ demo_phdr PF_W 0x400800 16)))).1 = 0.
Proof. vm_compute. reflexivity. Qed.
