(* ===== verification/Initramfs.v ===== *)
(** * kernel/initramfs: the cpio newc parser and the initramfs on top of it

    The archive is the list of its bytes; a pointer into it is the list of the
    bytes from there on, so that reading past the end is a [Fault].  [size_t]
    arithmetic wraps at 64 bits. *)

From S2P Require Import Prelude CString.
From stdpp Require Import strings.

#[local] Open Scope Z_scope.

(** The bytes of an ASCII string. *)
Definition ascii_bytes (s : String.string) : list Z :=
  (λ c, Z.of_N (Ascii.N_of_ascii c)) <$> String.list_ascii_of_string s.

(** ** cpio_newc.c *)

Definition CPIO_NEWC_MAGIC : list Z := ascii_bytes "070701"%string.
Definition CPIO_NEWC_HEADER_SIZE : Z := 110.
Definition CPIO_NEWC_TRAILER : list Z := ascii_bytes "TRAILER!!!"%string.

Record cpio_newc_entry := CpioEntry {
  ce_name : list Z;
  ce_name_len : Z;
  ce_data : list Z;
  ce_data_len : Z;
  ce_mode : Z;
  ce_next_off : Z
}.

Definition no_entry : cpio_newc_entry := CpioEntry [] 0 [] 0 0 0.

Definition align4 (v : Z) : Z := Z.ldiff (add64 v 3) 3.

(** [None] is [-ERANGE]. *)
Definition checked_add (a b : Z) : option Z :=
  let v := add64 a b in if v <? a then None else Some v.

Definition hexval (c : Z) : Z :=
  if (48 <=? c) && (c <=? 57) then c - 48 else
  if (97 <=? c) && (c <=? 102) then c - 97 + 10 else
  if (65 <=? c) && (c <=? 70) then c - 65 + 10 else -1.

(** [None] is [-EINVAL]. *)
Fixpoint hex_loop (n : nat) (p : list Z) (v : Z) : outcome (option Z) :=
  match n with
  | O => Ok (Some v)
  | S n =>
      match p with
      | [] => Fault
      | c :: p =>
          let d := hexval c in
          if d <? 0 then Ok None else hex_loop n p (Z.lor (u32 (Z.shiftl v 4)) d)
      end
  end.

Definition parse_hex8 (p : list Z) : outcome (option Z) := hex_loop 8 p 0.

(** [base + off] *)
Definition from (off : Z) (a : list Z) : list Z := drop (Z.to_nat off) a.

(** The part after the header fields were parsed. *)
Definition cpio_entry (archive : list Z) (archive_len off mode filesize namesize : Z)
    : outcome (Z * cpio_newc_entry) :=
  if namesize =? 0 then Ok (- EINVAL, no_entry) else
  match checked_add off CPIO_NEWC_HEADER_SIZE with
  | None => Ok (- ERANGE, no_entry)
  | Some name_off =>
  match checked_add name_off namesize with
  | None => Ok (- ERANGE, no_entry)
  | Some data_off =>
  if data_off >? archive_len then Ok (- EINVAL, no_entry) else
  nul ← deref (archive !! Z.to_nat (data_off - 1));
  if negb (nul =? 0) then Ok (- EINVAL, no_entry) else
  let data_off := align4 data_off in
  match checked_add data_off filesize with
  | None => Ok (- ERANGE, no_entry)
  | Some next_off =>
  if next_off >? archive_len then Ok (- EINVAL, no_entry) else
  let next_off := align4 next_off in
  if next_off >? archive_len then Ok (- EINVAL, no_entry) else
  let out := CpioEntry (from name_off archive) (namesize - 1) (from data_off archive) filesize mode next_off in
  if negb (ce_name_len out =? Z.of_nat (length CPIO_NEWC_TRAILER)) then Ok (1, out) else
  c ← memcmp (ce_name out) CPIO_NEWC_TRAILER (Z.to_nat (ce_name_len out));
  if c =? 0 then Ok (0, out) else Ok (1, out)
  end end end.

Definition cpio_newc_next (archive : list Z) (archive_len off : Z) : outcome (Z * cpio_newc_entry) :=
  if off >=? archive_len then Ok (0, no_entry) else
  if archive_len - off <? CPIO_NEWC_HEADER_SIZE then Ok (- EINVAL, no_entry) else
  let hdr := from off archive in
  c ← memcmp hdr CPIO_NEWC_MAGIC 6;
  if negb (c =? 0) then Ok (- EINVAL, no_entry) else
  mode ← parse_hex8 (from 14 hdr);
  match mode with
  | None => Ok (- EINVAL, no_entry)
  | Some mode =>
  filesize ← parse_hex8 (from 54 hdr);
  match filesize with
  | None => Ok (- EINVAL, no_entry)
  | Some filesize =>
  namesize ← parse_hex8 (from 94 hdr);
  match namesize with
  | None => Ok (- EINVAL, no_entry)
  | Some namesize => cpio_entry archive archive_len off mode filesize namesize
  end end end.

(** ** initramfs.c *)

Record initramfs := Initramfs { initrd_base : list Z; initrd_len : Z; initrd_ready : bool }.

Fixpoint skip_slash (path : list Z) : outcome (list Z) :=
  match path with
  | [] => Fault
  | c :: p => if c =? 47 then skip_slash p else Ok path
  end.

Definition path_match (e : cpio_newc_entry) (path : list Z) : outcome bool :=
  path ← skip_slash path;
  n ← strlen path;
  if negb (Z.of_nat n =? ce_name_len e) then Ok false else
  c ← memcmp path (ce_name e) (Z.to_nat (ce_name_len e));
  Ok (c =? 0).

(** The scan of [initramfs_init]: an error or 0. *)
Fixpoint scan (fuel : nat) (base : list Z) (len off : Z) : outcome Z :=
  match fuel with
  | O => NoFuel
  | S fuel =>
      '(err, e) ← cpio_newc_next base len off;
      if err <? 0 then Ok err else
      if err =? 0 then Ok 0 else scan fuel base len (ce_next_off e)
  end.

(** An entry takes at least a header. *)
Definition scan_fuel (len : Z) : nat := S (Z.to_nat len).

(** [base] is not NULL. *)
Definition initramfs_init (base : list Z) (len : Z) (s : initramfs) : outcome (Z * initramfs) :=
  if len =? 0 then Ok (- EINVAL, s) else
  err ← scan (scan_fuel len) base len 0;
  if err <? 0 then Ok (err, Initramfs base len false) else Ok (0, Initramfs base len true).

Record initramfs_file := InitramfsFile {
  if_name : list Z;
  if_name_len : Z;
  if_data : list Z;
  if_size : Z;
  if_mode : Z
}.

Fixpoint lookup_loop (fuel : nat) (path : list Z) (off : Z) (s : initramfs) : outcome (Z * option initramfs_file) :=
  match fuel with
  | O => NoFuel
  | S fuel =>
      '(err, e) ← cpio_newc_next (initrd_base s) (initrd_len s) off;
      if negb (err >? 0) then Ok (if err <? 0 then err else - ENOENT, None) else
      m ← path_match e path;
      if (m : bool) then
        Ok (0, Some (InitramfsFile (ce_name e) (ce_name_len e) (ce_data e) (ce_data_len e) (ce_mode e)))
      else lookup_loop fuel path (ce_next_off e) s
  end.

Definition initramfs_lookup (path : list Z) (s : initramfs) : outcome (Z * option initramfs_file) :=
  if negb (initrd_ready s) then Ok (- ENODEV, None) else
  lookup_loop (scan_fuel (initrd_len s)) path 0 s.

(** The bytes copied to the caller's buffer and their number. *)
Definition initramfs_read_at (file : initramfs_file) (off len : Z) : outcome (Z * list Z) :=
  if off >=? if_size file then Ok (0, []) else
  let avail := if_size file - off in
  let len := if len >? avail then avail else len in
  if Z.of_nat (length (from off (if_data file))) <? len then Fault else
  Ok (len, take (Z.to_nat len) (from off (if_data file))).
