(* ===== verification/InitramfsSpec.v ===== *)
(** * The initramfs: safety on any input, round trip on well-formed archives *)

From S2P Require Import Prelude CString Initramfs.
From stdpp Require Import strings.

#[local] Open Scope Z_scope.

(** ** Numbers *)

Lemma ldiff3 v : Z.ldiff v 3 = v - v mod 4.
Proof.
  change 3 with (Z.ones 2). rewrite Z.ldiff_ones_r, Z.shiftl_mul_pow2, Z.shiftr_div_pow2 by lia.
  change (2 ^ 2) with 4. pose proof (Z.div_mod v 4). lia.
Qed.

(** Rounding up to a multiple of four. *)
Lemma align4_spec v : 0 ≤ v < 2 ^ 64 - 4 → align4 v mod 4 = 0 ∧ v ≤ align4 v < v + 4.
Proof.
  intros Hv. unfold align4. rewrite add64_small by lia. rewrite ldiff3.
  pose proof (Z.mod_pos_bound (v + 3) 4). split; [|lia]. rewrite Zminus_mod_idemp_r. by rewrite Z.sub_diag.
Qed.

Lemma align4_eq v w : 0 ≤ v < 2 ^ 64 - 4 → w mod 4 = 0 → v ≤ w < v + 4 → align4 v = w.
Proof.
  intros Hv Hw Hb. destruct (align4_spec v Hv) as [H1 H2].
  apply Z.mod_divide in Hw as [a ->], H1 as [b Hb']; lia.
Qed.

Lemma checked_add_small a b : 0 ≤ a → 0 ≤ b → a + b < 2 ^ 64 → checked_add a b = Some (a + b).
Proof.
  intros Ha Hb Hab. unfold checked_add. rewrite add64_small by lia. by rewrite (proj2 (Z.ltb_ge _ _)) by lia.
Qed.

(** ** Hexadecimal fields *)

Lemma hex_loop_total n : ∀ p v, (n ≤ length p)%nat → ∃ r, hex_loop n p v = Ok r.
Proof.
  induction n as [|n IH]; intros p v Hl; cbn [hex_loop]; [by eexists|]. destruct p as [|c p]; simpl in Hl; [lia|].
  destruct (hexval c <? 0); [by eexists|]. apply IH. lia.
Qed.

Lemma hexval_range c : -1 ≤ hexval c < 16.
Proof. unfold hexval. repeat case_match; lia. Qed.

Lemma lor_digit v d : 0 ≤ d < 16 → Z.lor (v * 16) d = v * 16 + d.
Proof.
  intros Hd. assert (Z.land (v * 16) d = 0) as E.
  { change 16 with (2 ^ 4). rewrite <- Z.shiftl_mul_pow2 by lia.
    apply Z.bits_inj'. intros n Hn. rewrite Z.land_spec, Z.bits_0, Z.shiftl_spec by lia.
    destruct (decide (n < 4)); [by rewrite Z.testbit_neg_r by lia|].
    rewrite (Z.bits_above_log2 d n); [apply andb_false_r|lia|].
    destruct (decide (d = 0)) as [->|]; [simpl; lia|]. apply Z.log2_lt_pow2; [lia|].
    assert (2 ^ 4 ≤ 2 ^ n) by (apply Z.pow_le_mono_r; lia). lia. }
  by rewrite <- Z.lxor_lor, <- Z.add_nocarry_lxor.
Qed.

(** A value parsed from eight digits fits a [uint32_t]. *)
Lemma hex_loop_range n : ∀ p v r, 0 ≤ v < 2 ^ 32 → hex_loop n p v = Ok (Some r) → 0 ≤ r < 2 ^ 32.
Proof.
  induction n as [|n IH]; intros p v r Hv; cbn [hex_loop]; [by intros [= <-]|].
  destruct p as [|c p]; [done|]. pose proof (hexval_range c). destruct (hexval c <? 0) eqn:E; [done|].
  apply IH. unfold u32. rewrite Z.shiftl_mul_pow2 by lia. change (2 ^ 4) with 16.
  change (2 ^ 32) with (16 * 2 ^ 28). rewrite (Z.mul_comm v 16), Zmult_mod_distr_l, (Z.mul_comm 16).
  rewrite lor_digit by lia. pose proof (Z.mod_pos_bound v (2 ^ 28)). lia.
Qed.

(** The digits of a number, as the archive writer prints them. *)
Definition hexdigit (d : Z) : Z := if d <? 10 then 48 + d else 55 + d.

Fixpoint hexn (n : nat) (v : Z) : list Z :=
  match n with O => [] | S n => hexdigit (v / 16 ^ Z.of_nat n mod 16) :: hexn n v end.

Lemma hexval_digit d : 0 ≤ d < 16 → hexval (hexdigit d) = d.
Proof. intros Hd. unfold hexval, hexdigit. repeat case_match; lia. Qed.

Lemma length_hexn n v : length (hexn n v) = n.
Proof. induction n; simpl; congruence. Qed.

Lemma hex_loop_digits v rest : ∀ n acc, 0 ≤ acc → (acc + 1) * 16 ^ Z.of_nat n ≤ 2 ^ 32 →
  hex_loop n (hexn n v ++ rest) acc = Ok (Some (acc * 16 ^ Z.of_nat n + v mod 16 ^ Z.of_nat n)).
Proof.
  induction n as [|n IH]; intros acc H0 Ha; cbn [hex_loop hexn app].
  { change (16 ^ Z.of_nat 0) with 1. rewrite Z.mod_1_r. do 2 f_equal. lia. }
  pose proof (Z.pow_pos_nonneg 16 (Z.of_nat n) ltac:(lia) ltac:(lia)) as Hp.
  rewrite Nat2Z.inj_succ, Z.pow_succ_r in * by lia. set (q := 16 ^ Z.of_nat n) in *.
  pose proof (Z.mod_pos_bound (v / q) 16 ltac:(lia)) as Hd.
  rewrite hexval_digit by lia. rewrite (proj2 (Z.ltb_ge _ _)) by lia.
  rewrite Z.shiftl_mul_pow2 by lia. change (2 ^ 4) with 16. unfold u32.
  rewrite (Z.mod_small (acc * 16)) by nia. rewrite lor_digit by lia. rewrite IH by nia.
  rewrite (Z.mul_comm 16 q), Z.rem_mul_r by lia. do 2 f_equal. lia.
Qed.

Lemma parse_hex8_digits v rest : 0 ≤ v < 2 ^ 32 → parse_hex8 (hexn 8 v ++ rest) = Ok (Some v).
Proof.
  intros Hv. unfold parse_hex8. rewrite hex_loop_digits by (change (16 ^ Z.of_nat 8) with (2 ^ 32); lia).
  change (16 ^ Z.of_nat 8) with (2 ^ 32). by rewrite Z.mod_small.
Qed.

(** ** Any input *)

Lemma memcmp_total b : ∀ n a, (n ≤ length a)%nat → (n ≤ length b)%nat → ∃ r, memcmp a b n = Ok r.
Proof.
  induction b as [|q b IH]; intros [|n] [|p a] Ha Hb; simpl in *; try lia; try by eexists.
  destruct (negb (p =? q)); [by eexists|]. apply IH; lia.
Qed.

Lemma length_from off a : 0 ≤ off ≤ Z.of_nat (length a) → Z.of_nat (length (from off a)) = Z.of_nat (length a) - off.
Proof. intros H. unfold from. rewrite length_drop. lia. Qed.

(** An entry the parser accepts lies inside the archive and the next one starts
    behind it. *)
Record entry_ok (archive : list Z) (len off : Z) (e : cpio_newc_entry) : Prop := EntryOk {
  eo_name : 0 ≤ ce_name_len e < 2 ^ 32;
  eo_name_in : ∃ k, off + 110 ≤ k ∧ k + ce_name_len e < len ∧ ce_name e = from k archive;
  eo_data : 0 ≤ ce_data_len e < 2 ^ 32;
  eo_data_in : ∃ k, off + 110 < k ∧ k + ce_data_len e ≤ len ∧ ce_data e = from k archive;
  eo_next : off + 110 < ce_next_off e ≤ len
}.

Definition cpio_result (archive : list Z) (len off : Z) (res : outcome (Z * cpio_newc_entry)) : Prop :=
  ∃ r e, res = Ok (r, e) ∧
    (r = 1 ∧ entry_ok archive len off e ∨ r = 0 ∨ r = - EINVAL ∨ r = - ERANGE).

Lemma cpio_reject archive len off r : r = 0 ∨ r = - EINVAL ∨ r = - ERANGE →
  cpio_result archive len off (Ok (r, no_entry)).
Proof. intros H. exists r, no_entry. split; [done|]. by right. Qed.

Lemma cpio_entry_total archive len off mode filesize namesize :
  0 ≤ off → off + 110 ≤ len → len ≤ Z.of_nat (length archive) → len < 2 ^ 63 →
  0 ≤ filesize < 2 ^ 32 → 0 ≤ namesize < 2 ^ 32 →
  cpio_result archive len off (cpio_entry archive len off mode filesize namesize).
Proof.
  intros H0 H1 Hl Hw Hf Hn. unfold cpio_entry, CPIO_NEWC_HEADER_SIZE.
  destruct (Z.eqb_spec namesize 0); [apply cpio_reject; auto|].
  rewrite checked_add_small by lia. rewrite checked_add_small by lia.
  destruct (off + 110 + namesize >? len) eqn:C1; [apply cpio_reject; auto|].
  assert (Z.to_nat (off + 110 + namesize - 1) < length archive)%nat as Hin by lia.
  destruct (lookup_lt_is_Some_2 archive _ Hin) as [nul ->].
  cbn [mbind outcome_bind deref]. destruct (negb _); [apply cpio_reject; auto|].
  destruct (align4_spec (off + 110 + namesize) ltac:(lia)) as [A1 A2]. set (d := align4 _) in *.
  rewrite checked_add_small by lia. destruct (d + filesize >? len) eqn:C2; [apply cpio_reject; auto|].
  destruct (align4_spec (d + filesize) ltac:(lia)) as [B1 B2]. set (x := align4 (d + filesize)) in *.
  destruct (x >? len) eqn:C3; [apply cpio_reject; auto|]. cbn [ce_name_len ce_name].
  assert (entry_ok archive len off (CpioEntry (from (off + 110) archive) (namesize - 1) (from d archive) filesize mode x)) as E.
  { constructor; cbn [ce_name_len ce_name ce_data ce_data_len ce_next_off]; try lia.
    - exists (off + 110). split_and!; (done || lia).
    - exists d. split_and!; (done || lia). }
  destruct (negb _) eqn:C4; [eexists 1, _; split; [done|by left]|].
  destruct (memcmp_total CPIO_NEWC_TRAILER (Z.to_nat (namesize - 1)) (from (off + 110) archive)) as [c ->].
  - pose proof (length_from (off + 110) archive). lia.
  - apply negb_false_iff, Z.eqb_eq in C4. rewrite C4. lia.
  - cbn [mbind outcome_bind]. destruct (c =? 0); eexists _, _; (split; [done|]); [right; by left|by left].
Qed.

Lemma cpio_next_total archive len off :
  0 ≤ off → len ≤ Z.of_nat (length archive) → len < 2 ^ 63 →
  cpio_result archive len off (cpio_newc_next archive len off).
Proof.
  intros H0 Hl Hw. unfold cpio_newc_next, CPIO_NEWC_HEADER_SIZE.
  destruct (off >=? len) eqn:C0; [apply cpio_reject; auto|]. destruct (len - off <? 110) eqn:C1; [apply cpio_reject; auto|].
  assert (∀ k n, (k + n ≤ 110)%nat → (n ≤ length (from (Z.of_nat k) (from off archive)))%nat) as Hlen.
  { intros k n Hk. unfold from. rewrite !length_drop. lia. }
  destruct (memcmp_total CPIO_NEWC_MAGIC 6 (from off archive)) as [c ->]; [exact (Hlen 0%nat 6%nat ltac:(lia))|done|].
  cbn [mbind outcome_bind]. destruct (negb _); [apply cpio_reject; auto|].
  assert (∀ k, (k + 8 ≤ 110)%nat → ∃ r, parse_hex8 (from (Z.of_nat k) (from off archive)) = Ok r ∧ 
    ∀ v, r = Some v → 0 ≤ v < 2 ^ 32) as Hx.
  { intros k Hk. destruct (hex_loop_total 8 (from (Z.of_nat k) (from off archive)) 0 (Hlen k 8%nat Hk)) as [r Er].
    exists r. split; [done|]. intros v ->. eapply hex_loop_range; [|exact Er]. lia. }
  destruct (Hx 14%nat ltac:(lia)) as ([mode|] & E1 & _); change (Z.of_nat 14) with 14 in E1; rewrite E1;
    cbn [mbind outcome_bind]; [|apply cpio_reject; auto].
  destruct (Hx 54%nat ltac:(lia)) as ([fs|] & E2 & Hf); change (Z.of_nat 54) with 54 in E2; rewrite E2;
    cbn [mbind outcome_bind]; [|apply cpio_reject; auto].
  destruct (Hx 94%nat ltac:(lia)) as ([ns|] & E3 & Hn); change (Z.of_nat 94) with 94 in E3; rewrite E3;
    cbn [mbind outcome_bind]; [|apply cpio_reject; auto].
  apply cpio_entry_total; (lia || auto).
Qed.

(** ** Totality of the scans *)

(** A C string the caller looks up. *)
Section Path.
  Context (t path : list Z) (Hpath : cstring t path).

Lemma skip_slash_total : ∃ t' path', skip_slash path = Ok path' ∧ cstring t' path' ∧ head t' ≠ Some 47 ∧
    ∃ k, t = replicate k 47 ++ t'.
Proof using Hpath.
  revert path Hpath. induction t as [|c l IH]; intros s Hs.
  { destruct (cstring_nil _ Hs) as [junk ->]. exists [], (0 :: junk). split_and!; try done. by exists 0%nat. }
  destruct (cstring_cons _ _ _ Hs) as (Hc & s' & -> & Hs'). cbn [skip_slash].
  destruct (Z.eqb_spec c 47) as [->|Hne].
  - destruct (IH _ Hs') as (t' & p' & E & Ht & Hh & k & ->). exists t', p'. split_and!; try done. by exists (S k).
  - exists (c :: l), (c :: s'). split_and!; try done; [by intros [= ->]|]. by exists 0%nat.
Qed.

Lemma path_match_total e : ce_name_len e = Z.of_nat (length (ce_name e)) ∨ ce_name_len e < Z.of_nat (length (ce_name e)) →
    ∃ b, path_match e path = Ok b.
Proof using Hpath.
  intros He. destruct skip_slash_total as (t' & p' & E & Ht & _). unfold path_match. rewrite E.
  cbn [mbind outcome_bind]. rewrite (strlen_spec _ _ Ht). cbn [mbind outcome_bind].
  destruct (Z.eqb_spec (Z.of_nat (length t')) (ce_name_len e)) as [El|]; cbn [negb]; [|by eexists].
  destruct (memcmp_total (ce_name e) (Z.to_nat (ce_name_len e)) p') as [c ->]; [|lia|by eexists].
  destruct Ht as (_ & junk & ->). rewrite length_app. simpl. lia.
Qed.

End Path.

Section AnyArchive.
  Context (base : list Z) (len : Z).
  Context (Hlen : len ≤ Z.of_nat (length base)) (Hw : len < 2 ^ 63).

Lemma scan_total fuel : ∀ off, 0 ≤ off → (Z.to_nat (len - off) < fuel)%nat →
    ∃ r, scan fuel base len off = Ok r ∧ (r = 0 ∨ r = - EINVAL ∨ r = - ERANGE).
Proof using Hlen Hw.
  induction fuel as [|fuel IH]; intros off H0 Hf; [lia|]. cbn [scan].
  destruct (cpio_next_total base len off H0 Hlen Hw) as (r & e & -> & H). cbn [mbind outcome_bind].
  destruct H as [[-> He]|H].
  - change (1 <? 0) with false. change (1 =? 0) with false. cbv iota. pose proof (eo_next _ _ _ _ He).
    apply IH; lia.
  - destruct H as [->|[->| ->]]; (eexists; split; [reflexivity|]); auto.
Qed.

  Context (t path : list Z) (Hpath : cstring t path).

  (** A file whose bytes lie inside the archive. *)
Definition file_inside (g : initramfs_file) : Prop :=
    0 ≤ if_size g ∧ ∃ k, 0 ≤ k ∧ k + if_size g ≤ len ∧ if_data g = from k base.

Lemma lookup_total fuel ready : ∀ off, 0 ≤ off → (Z.to_nat (len - off) < fuel)%nat →
    ∃ r f, lookup_loop fuel path off (Initramfs base len ready) = Ok (r, f) ∧ from_option file_inside True f.
Proof using Hlen Hw Hpath.
  induction fuel as [|fuel IH]; intros off H0 Hf; [lia|]. cbn [lookup_loop initrd_base initrd_len].
  destruct (cpio_next_total base len off H0 Hlen Hw) as (r & e & -> & H). cbn [mbind outcome_bind].
  destruct H as [[-> He]|H].
  - change (1 >? 0) with true. cbn [negb]. destruct (path_match_total _ _ Hpath e) as [b ->].
    { pose proof (eo_name _ _ _ _ He). destruct (eo_name_in _ _ _ _ He) as (k & ? & ? & ->).
      pose proof (length_from k base). right. lia. }
    cbn [mbind outcome_bind]. pose proof (eo_next _ _ _ _ He). destruct b; [|apply IH; lia].
    eexists _, _. split; [done|]. pose proof (eo_data _ _ _ _ He). destruct (eo_data_in _ _ _ _ He) as (k & ? & ? & E).
    split; [simpl; lia|]. exists k. simpl. split_and!; (done || lia).
  - destruct H as [->|[->| ->]]; by eexists _, _.
Qed.
End AnyArchive.

(** ** Well-formed archives *)

Record cfile := CFile { cf_name : list Z; cf_mode : Z; cf_body : list Z }.

(** [align4 n - n] zero bytes. *)
Definition pad4 (n : nat) : list Z := replicate (Z.to_nat (- Z.of_nat n mod 4)) 0.

(** A newc header: the fields the kernel ignores are zero. *)
Definition newc_header (mode filesize namesize : Z) : list Z :=
  CPIO_NEWC_MAGIC ++ replicate 8 48 ++ hexn 8 mode ++ replicate 32 48 ++ hexn 8 filesize ++
  replicate 32 48 ++ hexn 8 namesize ++ replicate 8 48.

Definition newc_entry (f : cfile) : list Z :=
  newc_header (cf_mode f) (Z.of_nat (length (cf_body f))) (Z.of_nat (S (length (cf_name f)))) ++
  cf_name f ++ [0] ++ pad4 (111 + length (cf_name f)) ++ cf_body f ++ pad4 (length (cf_body f)).

Definition trailer : cfile := CFile CPIO_NEWC_TRAILER 0 [].

Definition newc_archive (fs : list cfile) : list Z := concat (newc_entry <$> fs) ++ newc_entry trailer.

Definition file_fits (f : cfile) : Prop :=
  0 ≤ cf_mode f < 2 ^ 32 ∧ Z.of_nat (length (cf_body f)) < 2 ^ 32 ∧ Z.of_nat (length (cf_name f)) < 2 ^ 32 - 1.

Definition file_ok (f : cfile) : Prop := file_fits f ∧ cf_name f ≠ CPIO_NEWC_TRAILER.

Lemma length_pad4 n : (Z.of_nat n + Z.of_nat (length (pad4 n))) mod 4 = 0 ∧ (length (pad4 n) < 4)%nat.
Proof.
  unfold pad4. rewrite length_replicate. pose proof (Z.mod_pos_bound (- Z.of_nat n) 4).
  rewrite Z2Nat.id by lia. split; [|lia]. rewrite Zplus_mod_idemp_r. by rewrite Z.add_opp_diag_r.
Qed.

Lemma length_header mode fsz nsz : length (newc_header mode fsz nsz) = 110%nat.
Proof. unfold newc_header. rewrite !length_app, !length_hexn, !length_replicate. done. Qed.

Lemma from_app (a b : list Z) n : n = Z.of_nat (length a) → from n (a ++ b) = b.
Proof. intros ->. unfold from. rewrite Nat2Z.id. apply drop_app_length. Qed.

Lemma from_plus (a b : list Z) n k : n = Z.of_nat (length a) → 0 ≤ k → from (n + k) (a ++ b) = from k b.
Proof.
  intros -> Hk. unfold from. rewrite Z2Nat.inj_add, Nat2Z.id by lia.
  by rewrite <- drop_drop, drop_app_length.
Qed.

Lemma memcmp_refl a rest rest' : memcmp (a ++ rest) (a ++ rest') (length a) = Ok 0.
Proof. induction a as [|c a IH]; [by destruct rest, rest'|]. simpl. by rewrite Z.eqb_refl. Qed.

Lemma memcmp_eq : ∀ a b rest rest', length a = length b →
  ∃ c, memcmp (a ++ rest) (b ++ rest') (length a) = Ok c ∧ (c = 0 ↔ a = b).
Proof.
  induction a as [|p a IH]; intros [|q b] rest rest' E; simplify_eq/=; [by exists 0|].
  destruct (Z.eqb_spec p q) as [->|]; cbn [negb].
  - destruct (IH b rest rest' E) as (c & -> & Hc). exists c. split; [done|]. rewrite Hc. split; congruence.
  - exists (p - q). split; [done|]. split; [lia|congruence].
Qed.

Definition parsed (f : cfile) (post : list Z) (next : Z) : cpio_newc_entry :=
  CpioEntry (cf_name f ++ [0] ++ pad4 (111 + length (cf_name f)) ++ cf_body f ++ pad4 (length (cf_body f)) ++ post)
    (Z.of_nat (length (cf_name f)))
    (cf_body f ++ pad4 (length (cf_body f)) ++ post) (Z.of_nat (length (cf_body f))) (cf_mode f) next.

Lemma newc_entry_length f : Z.of_nat (length (newc_entry f)) =
  111 + Z.of_nat (length (cf_name f)) + Z.of_nat (length (pad4 (111 + length (cf_name f)))) +
  Z.of_nat (length (cf_body f)) + Z.of_nat (length (pad4 (length (cf_body f)))).
Proof. unfold newc_entry. rewrite !length_app, length_header. change (length [0]) with 1%nat. lia. Qed.

Lemma newc_entry_aligned f : Z.of_nat (length (newc_entry f)) mod 4 = 0.
Proof.
  rewrite newc_entry_length. destruct (length_pad4 (111 + length (cf_name f))) as [H1 _].
  destruct (length_pad4 (length (cf_body f))) as [H2 _].
  apply Z.mod_divide in H1 as [a Ha], H2 as [b Hb]; try lia. apply Z.mod_divide; [lia|]. exists (a + b). lia.
Qed.

Lemma cpio_entry_reads pre f post off :
  off = Z.of_nat (length pre) → off mod 4 = 0 → file_fits f →
  let base := pre ++ newc_entry f ++ post in let len := Z.of_nat (length base) in
  len < 2 ^ 63 →
  cpio_entry base len off (cf_mode f) (Z.of_nat (length (cf_body f))) (Z.of_nat (S (length (cf_name f)))) =
  Ok (if decide (cf_name f = CPIO_NEWC_TRAILER) then 0 else 1,
      parsed f post (off + Z.of_nat (length (newc_entry f)))).
Proof.
  intros Ho Hal Hf base len Hw. destruct Hf as (_ & Hb & Hn).
  destruct (length_pad4 (111 + length (cf_name f))) as [P1 P1'].
  destruct (length_pad4 (length (cf_body f))) as [P2 P2'].
  pose proof (newc_entry_length f) as EL.
  assert (len = off + Z.of_nat (length (newc_entry f)) + Z.of_nat (length post)) as El.
  { subst len base. rewrite !length_app. lia. }
  set (n := length (cf_name f)) in *. set (bl := length (cf_body f)) in *.
  set (p1 := length (pad4 _)) in EL, P1, P1'. set (p2 := length (pad4 bl)) in *.
  unfold cpio_entry, CPIO_NEWC_HEADER_SIZE. rewrite (proj2 (Z.eqb_neq _ _)) by lia.
  rewrite checked_add_small by lia. rewrite checked_add_small by lia.
  rewrite (Z.gtb_ltb _ len), (proj2 (Z.ltb_ge len _)) by lia.
  assert (base !! Z.to_nat (off + 110 + Z.of_nat (S n) - 1) = Some 0) as ->.
  { subst base. rewrite lookup_app_r by lia. unfold newc_entry. rewrite <- !app_assoc.
    rewrite lookup_app_r by (rewrite length_header; lia). rewrite lookup_app_r by (rewrite length_header; lia).
    rewrite length_header. replace (_ - _ - _ - _)%nat with 0%nat by lia. done. }
  cbn [mbind outcome_bind deref negb Z.eqb].
  assert (align4 (off + 110 + Z.of_nat (S n)) = off + 111 + Z.of_nat n + Z.of_nat p1) as ->.
  { apply align4_eq; [lia| |lia]. apply Z.mod_divide in P1 as [a Ha], Hal as [b Hb']; try lia.
    apply Z.mod_divide; [lia|]. exists (a + b). lia. }
  rewrite checked_add_small by lia. rewrite (Z.gtb_ltb _ len), (proj2 (Z.ltb_ge len _)) by lia.
  assert (align4 (off + 111 + Z.of_nat n + Z.of_nat p1 + Z.of_nat bl) = off + Z.of_nat (length (newc_entry f))) as ->.
  { apply align4_eq; [lia| |lia]. pose proof (newc_entry_aligned f) as HA.
    apply Z.mod_divide in HA as [a Ha], Hal as [b Hb']; try lia. apply Z.mod_divide; [lia|]. exists (a + b). lia. }
  rewrite (Z.gtb_ltb _ len), (proj2 (Z.ltb_ge len _)) by lia.
  assert (from (off + 110) base = ce_name (parsed f post 0)) as ->.
  { subst base. rewrite from_plus by lia. unfold newc_entry. rewrite <- !app_assoc. by rewrite from_app by (rewrite length_header; lia). }
  assert (from (off + 111 + Z.of_nat n + Z.of_nat p1) base = ce_data (parsed f post 0)) as ->.
  { subst base. replace (off + 111 + Z.of_nat n + Z.of_nat p1) with (off + (111 + Z.of_nat n + Z.of_nat p1)) by lia.
    rewrite from_plus by lia. unfold newc_entry, parsed. cbn [ce_data]. rewrite <- !app_assoc.
    do 3 rewrite (app_assoc _ _ (_ ++ cf_body f ++ _)) || rewrite (app_assoc _ _ (cf_body f ++ _)).
    apply from_app. rewrite !length_app, length_header. change (length [0]) with 1%nat. fold n p1. lia. }
  unfold parsed. cbn [ce_name_len ce_name ce_data]. replace (Z.of_nat (S n) - 1) with (Z.of_nat n) by lia.
  destruct (decide (cf_name f = CPIO_NEWC_TRAILER)) as [E|E].
  - subst n. rewrite E. done.
  - destruct (Z.eqb_spec (Z.of_nat n) (Z.of_nat (length CPIO_NEWC_TRAILER))) as [El'|]; cbn [negb]; [|done].
    subst n. rewrite Nat2Z.id. match goal with |- context [memcmp (_ ++ ?r) _ _] =>
      destruct (memcmp_eq (cf_name f) CPIO_NEWC_TRAILER r []) as (c & Ec & Hc); [lia|] end.
    rewrite app_nil_r in Ec. rewrite Ec. cbn [mbind outcome_bind].
    rewrite (proj2 (Z.eqb_neq _ _)) by tauto. done.
Qed.

Lemma cpio_next_reads pre f post off :
  off = Z.of_nat (length pre) → off mod 4 = 0 → file_fits f →
  let base := pre ++ newc_entry f ++ post in let len := Z.of_nat (length base) in
  len < 2 ^ 63 →
  cpio_newc_next base len off =
  Ok (if decide (cf_name f = CPIO_NEWC_TRAILER) then 0 else 1,
      parsed f post (off + Z.of_nat (length (newc_entry f)))).
Proof.
  intros Ho Hal Hf base len Hw. pose proof (newc_entry_length f) as EL.
  assert (len = off + Z.of_nat (length (newc_entry f)) + Z.of_nat (length post)) as El.
  { subst len base. rewrite !length_app. lia. }
  unfold cpio_newc_next, CPIO_NEWC_HEADER_SIZE. rewrite Z.geb_leb, (proj2 (Z.leb_gt _ _)) by lia.
  rewrite (proj2 (Z.ltb_ge _ 110)) by lia.
  assert (from off base = newc_entry f ++ post) as -> by (by apply from_app).
  assert (∃ rest, newc_entry f ++ post = CPIO_NEWC_MAGIC ++ replicate 8 48 ++ hexn 8 (cf_mode f) ++ replicate 32 48 ++
    hexn 8 (Z.of_nat (length (cf_body f))) ++ replicate 32 48 ++ hexn 8 (Z.of_nat (S (length (cf_name f)))) ++ rest) as (rest & ->).
  { eexists. unfold newc_entry, newc_header. by rewrite <- !app_assoc. }
  rewrite <- (app_nil_r CPIO_NEWC_MAGIC) at 2. change 6%nat with (length CPIO_NEWC_MAGIC). rewrite memcmp_refl.
  cbn [mbind outcome_bind Z.eqb negb]. destruct Hf as (Hm & Hb & Hn).
  assert (∀ k a b, length a = k → from (Z.of_nat k) (a ++ b) = b) as Hdrop by (intros k a b <-; by apply from_app).
  rewrite !(app_assoc CPIO_NEWC_MAGIC). rewrite (Hdrop 14%nat) by done. rewrite parse_hex8_digits by lia.
  cbn [mbind outcome_bind]. rewrite !(app_assoc (_ ++ replicate 8 48)), !(app_assoc (_ ++ hexn 8 (cf_mode f))).
  rewrite (Hdrop 54%nat) by (rewrite !length_app, length_hexn; done). rewrite parse_hex8_digits by lia.
  cbn [mbind outcome_bind]. rewrite !(app_assoc (_ ++ replicate 32 48)), !(app_assoc (_ ++ hexn 8 (Z.of_nat (length (cf_body f))))).
  rewrite (Hdrop 94%nat) by (rewrite !length_app, !length_hexn; done). rewrite parse_hex8_digits by lia.
  cbn [mbind outcome_bind]. by apply cpio_entry_reads.
Qed.

Lemma archive_aligned fs : Z.of_nat (length (concat (newc_entry <$> fs))) mod 4 = 0.
Proof.
  induction fs as [|f fs IH]; [done|]. rewrite fmap_cons. cbn [concat].
  rewrite length_app, Nat2Z.inj_add, Zplus_mod, newc_entry_aligned, IH. done.
Qed.

Lemma archive_length fs : (length fs ≤ length (concat (newc_entry <$> fs)))%nat.
Proof.
  induction fs as [|f fs IH]; [simpl; lia|]. rewrite fmap_cons. cbn [concat length]. rewrite length_app. pose proof (newc_entry_length f). lia.
Qed.

Lemma trailer_fits : file_fits trailer.
Proof. by vm_compute. Qed.

(** The file a path names: the first entry with that name. *)
Definition find_file (p : list Z) (fs : list cfile) : option cfile :=
  head (filter (λ f, cf_name f = p) fs).

Section Archive.
  Context (all : list cfile) (junk : list Z) (Hall : Forall file_ok all).
Let base : list Z := newc_archive all ++ junk.
Let len : Z := Z.of_nat (length base).
  Context (Hw : len < 2 ^ 63).

  (** Behind the entries [done] come the entries [fs]. *)
Lemma next_file done f fs : all = done ++ f :: fs →
    ∃ post, cpio_newc_next base len (Z.of_nat (length (concat (newc_entry <$> done)))) =
      Ok (1, parsed f post (Z.of_nat (length (concat (newc_entry <$> (done ++ [f])))))).
Proof using Hall Hw.
  intros E. assert (file_ok f) as [Hf Ht]. { rewrite E in Hall. by apply Forall_app in Hall as [_ [? ?]%Forall_cons]. }
  set (post := concat (newc_entry <$> fs) ++ newc_entry trailer ++ junk).
  assert (base = concat (newc_entry <$> done) ++ newc_entry f ++ post) as Eb.
  { subst base. unfold newc_archive. rewrite E, fmap_app, fmap_cons, concat_app. cbn [concat]. unfold post. by rewrite <- !app_assoc. }
  exists post. unfold len in *. rewrite Eb in *. rewrite cpio_next_reads; [|done|apply archive_aligned|done|exact Hw].
  rewrite decide_False by done. do 3 f_equal. rewrite fmap_app, concat_app, length_app. cbn [fmap list_fmap concat].
  rewrite app_nil_r. lia.
Qed.

Lemma next_trailer : ∃ e, cpio_newc_next base len (Z.of_nat (length (concat (newc_entry <$> all)))) = Ok (0, e).
Proof using Hw.
  assert (base = concat (newc_entry <$> all) ++ newc_entry trailer ++ junk) as Eb.
  { subst base. unfold newc_archive. by rewrite <- !app_assoc. }
  eexists. unfold len in *. rewrite Eb in *.
  rewrite cpio_next_reads; [|done|apply archive_aligned|apply trailer_fits|exact Hw]. by rewrite decide_True by done.
Qed.

Lemma scan_archive fs : ∀ done fuel, all = done ++ fs → (length fs < fuel)%nat →
    scan fuel base len (Z.of_nat (length (concat (newc_entry <$> done)))) = Ok 0.
Proof using Hall Hw.
  induction fs as [|f fs IH]; intros done [|fuel] E Hf; simpl in Hf; try lia; cbn [scan].
  - rewrite app_nil_r in E. subst done. destruct next_trailer as [e ->]. done.
  - destruct (next_file done f fs E) as [post ->]. cbn [mbind outcome_bind].
    change (1 <? 0) with false. change (1 =? 0) with false. cbv iota. cbn [parsed ce_next_off].
    apply IH; [by rewrite <- app_assoc|lia].
Qed.

  Context (p path : list Z) (k : nat).
  Context (Hpath : cstring (replicate k 47 ++ p) path) (Hp : head p ≠ Some 47).

Lemma skip_slash_path : ∃ path', skip_slash path = Ok path' ∧ cstring p path'.
Proof using Hpath Hp.
  clear Hall Hw. clearbody base len. revert path Hpath. induction k as [|n IH]; intros s Hs.
  - exists s. split; [|done]. destruct p as [|c l].
    + by destruct (cstring_nil _ Hs) as [j ->].
    + destruct (cstring_cons _ _ _ Hs) as (_ & s' & -> & _). cbn [skip_slash].
      rewrite (proj2 (Z.eqb_neq _ _)); [done|]. by intros ->.
  - destruct (cstring_cons _ _ _ Hs) as (_ & s' & -> & Hs'). cbn [skip_slash Z.eqb Pos.eqb]. by apply IH.
Qed.

Lemma path_match_spec f post next : path_match (parsed f post next) path = Ok (bool_decide (cf_name f = p)).
Proof using Hpath Hp.
  destruct skip_slash_path as (q & Eq & Hq). unfold path_match. rewrite Eq. cbn [mbind outcome_bind].
  rewrite (strlen_spec _ _ Hq). cbn [mbind outcome_bind parsed ce_name_len ce_name].
  destruct (Z.eqb_spec (Z.of_nat (length p)) (Z.of_nat (length (cf_name f)))) as [E|E]; cbn [negb].
  - destruct Hq as (_ & j & ->). rewrite Nat2Z.id. apply Nat2Z.inj in E. rewrite <- E.
    match goal with |- context [memcmp _ (_ ++ ?r) _] => destruct (memcmp_eq p (cf_name f) (0 :: j) r E) as (c & -> & Hc) end.
    cbn [mbind outcome_bind]. f_equal. destruct (Z.eqb_spec c 0); symmetry; [apply bool_decide_true|apply bool_decide_false]; intuition.
  - symmetry. f_equal. apply bool_decide_false. intros H. apply E. by rewrite H.
Qed.

  (** What a lookup returns for the file [f]. *)
Definition opened (f : cfile) (g : initramfs_file) : Prop :=
    take (length (cf_name f)) (if_name g) = cf_name f ∧ if_name_len g = Z.of_nat (length (cf_name f)) ∧
    take (length (cf_body f)) (if_data g) = cf_body f ∧ if_size g = Z.of_nat (length (cf_body f)) ∧
    if_mode g = cf_mode f.

Lemma lookup_archive fs : ∀ done fuel, all = done ++ fs → (length fs < fuel)%nat →
    match find_file p fs with
    | Some f => ∃ g, lookup_loop fuel path (Z.of_nat (length (concat (newc_entry <$> done)))) (Initramfs base len true) =
        Ok (0, Some g) ∧ opened f g
    | None => lookup_loop fuel path (Z.of_nat (length (concat (newc_entry <$> done)))) (Initramfs base len true) =
        Ok (- ENOENT, None)
    end.
Proof using Hall Hw Hpath Hp.
  induction fs as [|f fs IH]; intros done [|fuel] E Hf; simpl in Hf; try lia; cbn [lookup_loop initrd_base initrd_len].
  - rewrite app_nil_r in E. subst done. destruct next_trailer as [e ->]. done.
  - destruct (next_file done f fs E) as [post ->]. cbn [mbind outcome_bind].
    change (1 >? 0) with true. cbn [negb]. rewrite path_match_spec. cbn [mbind outcome_bind].
    unfold find_file. rewrite filter_cons. case_bool_decide as En.
    + rewrite decide_True by done. cbn [head]. eexists. split; [done|]. unfold opened, parsed.
      cbn [ce_name ce_data ce_data_len ce_name_len ce_mode if_name if_name_len if_data if_size if_mode].
      rewrite !take_app_length. done.
    + rewrite decide_False by done. apply IH; [by rewrite <- app_assoc|lia].
Qed.
End Archive.

Lemma read_opened f g off n : opened f g → 0 ≤ off → 0 ≤ n →
  let bytes := take (Z.to_nat n) (drop (Z.to_nat off) (cf_body f)) in
  initramfs_read_at g off n = Ok (Z.of_nat (length bytes), bytes).
Proof.
  intros (_ & _ & Hd & Hs & _) H0 H1 bytes. unfold initramfs_read_at. rewrite Hs.
  assert (length (cf_body f) ≤ length (if_data g))%nat as Hl. { rewrite <- Hd, length_take. lia. }
  destruct (Z.geb_spec off (Z.of_nat (length (cf_body f)))).
  { unfold bytes. rewrite drop_ge by lia. by rewrite take_nil. }
  set (m := if n >? _ then _ else n). assert (m = Z.of_nat (length bytes)) as Em.
  { subst m bytes. rewrite length_take, length_drop. destruct (Z.gtb_spec n (Z.of_nat (length (cf_body f)) - off)); lia. }
  unfold from. rewrite length_drop, (proj2 (Z.ltb_ge _ _)).
  - do 2 f_equal; [done|]. rewrite Em, Nat2Z.id. unfold bytes at 2. rewrite <- Hd at 1. rewrite skipn_firstn_comm.
    rewrite take_take. f_equal. unfold bytes. rewrite length_take, length_drop. lia.
  - rewrite Em. unfold bytes. rewrite length_take, length_drop. lia.
Qed.

Lemma read_inside base len g off n : len ≤ Z.of_nat (length base) → file_inside base len g → 0 ≤ off → 0 ≤ n →
  ∃ bytes, initramfs_read_at g off n = Ok (Z.of_nat (length bytes), bytes) ∧ (length bytes ≤ Z.to_nat n)%nat ∧
    sublist bytes base.
Proof.
  intros Hl (Hs & k & H0 & Hk & E) Ho Hn. unfold initramfs_read_at.
  destruct (Z.geb_spec off (if_size g)); [exists []; split_and!; [done|simpl; lia|apply sublist_nil_l]|].
  set (m := if n >? _ then _ else n). assert (0 ≤ m ≤ n ∧ m ≤ if_size g - off) as [Hm Hm'].
  { subst m. destruct (Z.gtb_spec n (if_size g - off)); lia. }
  assert (Z.of_nat (length (from off (if_data g))) = Z.of_nat (length base) - k - off) as El.
  { rewrite E. unfold from. rewrite !length_drop. lia. }
  rewrite (proj2 (Z.ltb_ge _ _)) by lia. eexists. split; [|split].
  - f_equal. f_equal. rewrite length_take. lia.
  - rewrite length_take. lia.
  - rewrite E. unfold from. etrans; [apply sublist_take|]. etrans; [apply sublist_drop|]. apply sublist_drop.
Qed.

(** ** The theorems *)

(** Whatever bytes the boot loader hands over as the initial RAM disk, and
    whatever path is looked up, [initramfs_init] and [initramfs_lookup] return
    after at most one step per byte, never read outside the archive, report
    only [-EINVAL] or [-ERANGE] for a malformed archive (which then stays
    unavailable), and reading any range of a file that was found stays inside
    the archive and copies at most the bytes asked for. *)
Theorem initramfs_any_archive base t path s0 :
  0 < Z.of_nat (length base) < 2 ^ 63 → cstring t path →
  ∃ r s, initramfs_init base (Z.of_nat (length base)) s0 = Ok (r, s) ∧ (r = 0 ∨ r = - EINVAL ∨ r = - ERANGE) ∧
    initrd_ready s = bool_decide (r = 0) ∧
    ∃ r' f, initramfs_lookup path s = Ok (r', f) ∧
      ∀ g off n, f = Some g → 0 ≤ off → 0 ≤ n →
        ∃ bytes, initramfs_read_at g off n = Ok (Z.of_nat (length bytes), bytes) ∧
          (length bytes ≤ Z.to_nat n)%nat ∧ sublist bytes base.
Proof.
  intros Hl Hp. set (len := Z.of_nat (length base)) in *.
  destruct (scan_total base len ltac:(lia) ltac:(lia) (scan_fuel len) 0) as (r & E & Hr); [lia|unfold scan_fuel; lia|].
  unfold initramfs_init. rewrite (proj2 (Z.eqb_neq _ _)) by lia. rewrite E. cbn [mbind outcome_bind].
  destruct (Z.ltb_spec r 0) as [Hlt|Hge].
  - exists r, (Initramfs base len false). split_and!; [done|done| |].
    + symmetry. apply bool_decide_false. lia.
    + exists (- ENODEV), None. done.
  - assert (r = 0) as -> by (unfold EINVAL, ERANGE in Hr; lia). exists 0, (Initramfs base len true). split_and!; [done|by left|done|].
    destruct (lookup_total base len ltac:(lia) ltac:(lia) t path Hp (scan_fuel len) true 0) as (r' & f & El & Hf);
      [lia|unfold scan_fuel; lia|].
    exists r', f. split; [exact El|]. intros g off n -> Ho Hn. by apply (read_inside base len); [lia|..].
Qed.

Lemma initramfs_any_archive_witness : ∃ r s, initramfs_init [1; 2; 3] 3 (Initramfs [] 0 false) = Ok (r, s).
Proof.
  destruct (initramfs_any_archive [1; 2; 3] [105] [105; 0] (Initramfs [] 0 false)) as (r & s & E & _).
  - simpl. lia.
  - split; [by apply Forall_singleton|]. by exists [].
  - exists r, s. exact E.
Defined.

(** C33: the initramfs is the inverse of a newc archive writer.  An archive of
    the files [fs], written entry by entry with the trailer and followed by
    any padding, is accepted; looking up a path, with any number of leading
    slashes, finds the first file of that name and fails with [-ENOENT] when
    there is none; and reading [n] bytes at [off] of a file that was found
    returns exactly those bytes of the contents that were written, fewer at
    the end of the file. *)
Theorem initramfs_round_trip fs junk k p path s0 :
  Forall file_ok fs → Z.of_nat (length (newc_archive fs ++ junk)) < 2 ^ 63 →
  cstring (replicate k 47 ++ p) path → head p ≠ Some 47 →
  ∃ s, initramfs_init (newc_archive fs ++ junk) (Z.of_nat (length (newc_archive fs ++ junk))) s0 = Ok (0, s) ∧
    match find_file p fs with
    | None => initramfs_lookup path s = Ok (- ENOENT, None)
    | Some f => ∃ g, initramfs_lookup path s = Ok (0, Some g) ∧ if_mode g = cf_mode f ∧
        ∀ off n, 0 ≤ off → 0 ≤ n →
          let bytes := take (Z.to_nat n) (drop (Z.to_nat off) (cf_body f)) in
          initramfs_read_at g off n = Ok (Z.of_nat (length bytes), bytes)
    end.
Proof.
  intros Hfs Hw Hpath Hp. set (base := newc_archive fs ++ junk) in *. set (len := Z.of_nat (length base)) in *.
  assert (length fs < scan_fuel len)%nat as Hfuel.
  { unfold scan_fuel, len, base, newc_archive. rewrite !length_app. pose proof (archive_length fs). lia. }
  assert (0 < len) as H0.
  { unfold len, base, newc_archive. rewrite !length_app. pose proof (newc_entry_length trailer). lia. }
  exists (Initramfs base len true). split.
  - unfold initramfs_init. rewrite (proj2 (Z.eqb_neq _ _)) by lia.
    pose proof (scan_archive fs junk Hfs Hw fs [] (scan_fuel len) eq_refl Hfuel) as E.
    change (Z.of_nat (length (concat (newc_entry <$> [])))) with 0 in E. fold base len in E. by rewrite E.
  - pose proof (lookup_archive fs junk Hfs Hw p path k Hpath Hp fs [] (scan_fuel len) eq_refl Hfuel) as E.
    change (Z.of_nat (length (concat (newc_entry <$> [])))) with 0 in E. fold base len in E.
    destruct (find_file p fs) as [f|]; [|exact E]. destruct E as (g & E & Hg). exists g.
    split; [exact E|]. split; [apply Hg|]. intros off n Ho Hn. by apply read_opened.
Qed.

(** Two files, the lookup of the second one. *)
Definition demo_files : list cfile :=
  [CFile (ascii_bytes "bin/init"%string) 33261 [127; 69; 76; 70; 2]; CFile (ascii_bytes "etc/motd"%string) 33188 [104; 105]].

Lemma initramfs_round_trip_witness :
  ∃ s g, initramfs_init (newc_archive demo_files) (Z.of_nat (length (newc_archive demo_files))) (Initramfs [] 0 false) = Ok (0, s) ∧
    initramfs_lookup (ascii_bytes "/etc/motd"%string ++ [0]) s = Ok (0, Some g) ∧
    initramfs_read_at g 1 10 = Ok (1, [105]).
Proof.
  destruct (initramfs_round_trip demo_files [] 1 (ascii_bytes "etc/motd"%string) (ascii_bytes "/etc/motd"%string ++ [0])
    (Initramfs [] 0 false)) as (s & E & F).
  - repeat constructor; vm_compute; congruence.
  - vm_compute. congruence.
  - split; [repeat constructor; vm_compute; congruence|]. by exists [].
  - vm_compute. congruence.
  - rewrite app_nil_r in E. destruct F as (g & F & _ & R). exists s, g. split; [exact E|]. split; [exact F|].
    exact (R 1 10 ltac:(lia) ltac:(lia)).
Defined.
