(* ===== verification/Sched.v ===== *)
(** * kernel/sched.c: tasks, the run queue and context switches

    One CPU.  Every function below runs with interrupts off under
    [sched_lock], so it is one atomic step; what may happen between two such
    steps is left to the client relations of [SchedSpec] and [MutexSpec].

    A task is named by its address.  [struct task] objects live in a heap,
    [k_tasks]; reading a freed one is a [Fault].  The lists (run queue, all
    tasks) are chained through the tasks as in C.  [context_switch] saves the
    registers of the previous task and continues the next one behind its own
    call of [context_switch] (or in [kernel_thread_entry]); both places run
    [sched_finish_switch] next, so [switch_to] ends with it.  Of the registers
    a switch exchanges, the FS base, the FPU state, CR3 and RSP0 are modelled;
    GS, the instruction and the stack pointer are not. *)

From S2P Require Import Prelude Pmm.

Definition tptr : Type := option Z.

(** [kernel/sched.h] *)
Inductive task_state := TASK_RUNNABLE | TASK_RUNNING | TASK_SLEEPING | TASK_ZOMBIE | TASK_DEAD.

#[export] Instance task_state_eq_dec : EqDecision task_state.
Proof. solve_decision. Defined.

Record task := Task {
  t_tid : Z;
  t_pid : Z;
  t_state : task_state;
  t_kstack : Z;            (* kstack_base, as a physical address; 0 is NULL *)
  t_kstack_top : Z;
  t_space : Z;             (* the PML4 of process->space, or of the kernel *)
  t_exit_status : Z;
  t_run_next : tptr;
  t_all_next : tptr;
  t_need_die : bool;       (* flags & TIF_NEED_DIE *)
  t_wake_pending : Z;
  t_deadline : Z;
  t_timed_out : bool;
  t_fs_base : Z;
  t_fpu : Z
}.

Definition set_state (v : task_state) (t : task) : task :=
  Task (t_tid t) (t_pid t) v (t_kstack t) (t_kstack_top t) (t_space t) (t_exit_status t) (t_run_next t) (t_all_next t)
    (t_need_die t) (t_wake_pending t) (t_deadline t) (t_timed_out t) (t_fs_base t) (t_fpu t).
Definition set_exit_status (v : Z) (t : task) : task :=
  Task (t_tid t) (t_pid t) (t_state t) (t_kstack t) (t_kstack_top t) (t_space t) v (t_run_next t) (t_all_next t)
    (t_need_die t) (t_wake_pending t) (t_deadline t) (t_timed_out t) (t_fs_base t) (t_fpu t).
Definition set_run_next (v : tptr) (t : task) : task :=
  Task (t_tid t) (t_pid t) (t_state t) (t_kstack t) (t_kstack_top t) (t_space t) (t_exit_status t) v (t_all_next t)
    (t_need_die t) (t_wake_pending t) (t_deadline t) (t_timed_out t) (t_fs_base t) (t_fpu t).
Definition set_all_next (v : tptr) (t : task) : task :=
  Task (t_tid t) (t_pid t) (t_state t) (t_kstack t) (t_kstack_top t) (t_space t) (t_exit_status t) (t_run_next t) v
    (t_need_die t) (t_wake_pending t) (t_deadline t) (t_timed_out t) (t_fs_base t) (t_fpu t).
Definition set_need_die (v : bool) (t : task) : task :=
  Task (t_tid t) (t_pid t) (t_state t) (t_kstack t) (t_kstack_top t) (t_space t) (t_exit_status t) (t_run_next t) (t_all_next t)
    v (t_wake_pending t) (t_deadline t) (t_timed_out t) (t_fs_base t) (t_fpu t).
Definition set_wake (v : Z) (t : task) : task :=
  Task (t_tid t) (t_pid t) (t_state t) (t_kstack t) (t_kstack_top t) (t_space t) (t_exit_status t) (t_run_next t) (t_all_next t)
    (t_need_die t) v (t_deadline t) (t_timed_out t) (t_fs_base t) (t_fpu t).
Definition set_timeout (deadline : Z) (timed_out : bool) (t : task) : task :=
  Task (t_tid t) (t_pid t) (t_state t) (t_kstack t) (t_kstack_top t) (t_space t) (t_exit_status t) (t_run_next t) (t_all_next t)
    (t_need_die t) (t_wake_pending t) deadline timed_out (t_fs_base t) (t_fpu t).
Definition set_context (fs fpu : Z) (t : task) : task :=
  Task (t_tid t) (t_pid t) (t_state t) (t_kstack t) (t_kstack_top t) (t_space t) (t_exit_status t) (t_run_next t) (t_all_next t)
    (t_need_die t) (t_wake_pending t) (t_deadline t) (t_timed_out t) fs fpu.

(** The registers a switch exchanges. *)
Record cpu := Cpu { c_fs_base : Z; c_fpu : Z; c_cr3 : Z; c_rsp0 : Z }.

(** The file's variables, the heap, the page allocator and the outcomes of the
    coming [kzalloc] calls. *)
Record kern := Kern {
  k_tasks : gmap Z task;
  k_current : Z;
  k_runq_head : tptr;
  k_runq_tail : tptr;
  k_all_tasks : tptr;
  k_nr_tasks : Z;
  k_quantum : Z;
  k_ticks : Z;
  k_preempt : Z;
  k_reap : tptr;
  k_cpu : cpu;
  k_mem : pmm;
  k_next_pid : Z;
  k_kmem : list bool;
  k_procs : gset Z           (* the kernel threads' process objects *)
}.

Definition with_tasks v s := Kern v (k_current s) (k_runq_head s) (k_runq_tail s) (k_all_tasks s) (k_nr_tasks s)
  (k_quantum s) (k_ticks s) (k_preempt s) (k_reap s) (k_cpu s) (k_mem s) (k_next_pid s) (k_kmem s) (k_procs s).
Definition with_current v s := Kern (k_tasks s) v (k_runq_head s) (k_runq_tail s) (k_all_tasks s) (k_nr_tasks s)
  (k_quantum s) (k_ticks s) (k_preempt s) (k_reap s) (k_cpu s) (k_mem s) (k_next_pid s) (k_kmem s) (k_procs s).
Definition with_runq h l s := Kern (k_tasks s) (k_current s) h l (k_all_tasks s) (k_nr_tasks s)
  (k_quantum s) (k_ticks s) (k_preempt s) (k_reap s) (k_cpu s) (k_mem s) (k_next_pid s) (k_kmem s) (k_procs s).
Definition with_all h n s := Kern (k_tasks s) (k_current s) (k_runq_head s) (k_runq_tail s) h n
  (k_quantum s) (k_ticks s) (k_preempt s) (k_reap s) (k_cpu s) (k_mem s) (k_next_pid s) (k_kmem s) (k_procs s).
Definition with_quantum v s := Kern (k_tasks s) (k_current s) (k_runq_head s) (k_runq_tail s) (k_all_tasks s) (k_nr_tasks s)
  v (k_ticks s) (k_preempt s) (k_reap s) (k_cpu s) (k_mem s) (k_next_pid s) (k_kmem s) (k_procs s).
Definition with_counts t p s := Kern (k_tasks s) (k_current s) (k_runq_head s) (k_runq_tail s) (k_all_tasks s) (k_nr_tasks s)
  (k_quantum s) t p (k_reap s) (k_cpu s) (k_mem s) (k_next_pid s) (k_kmem s) (k_procs s).
Definition with_reap v s := Kern (k_tasks s) (k_current s) (k_runq_head s) (k_runq_tail s) (k_all_tasks s) (k_nr_tasks s)
  (k_quantum s) (k_ticks s) (k_preempt s) v (k_cpu s) (k_mem s) (k_next_pid s) (k_kmem s) (k_procs s).
Definition with_cpu v s := Kern (k_tasks s) (k_current s) (k_runq_head s) (k_runq_tail s) (k_all_tasks s) (k_nr_tasks s)
  (k_quantum s) (k_ticks s) (k_preempt s) (k_reap s) v (k_mem s) (k_next_pid s) (k_kmem s) (k_procs s).
Definition with_mem v s := Kern (k_tasks s) (k_current s) (k_runq_head s) (k_runq_tail s) (k_all_tasks s) (k_nr_tasks s)
  (k_quantum s) (k_ticks s) (k_preempt s) (k_reap s) (k_cpu s) v (k_next_pid s) (k_kmem s) (k_procs s).
Definition with_pid v s := Kern (k_tasks s) (k_current s) (k_runq_head s) (k_runq_tail s) (k_all_tasks s) (k_nr_tasks s)
  (k_quantum s) (k_ticks s) (k_preempt s) (k_reap s) (k_cpu s) (k_mem s) v (k_kmem s) (k_procs s).
Definition with_kmem v s := Kern (k_tasks s) (k_current s) (k_runq_head s) (k_runq_tail s) (k_all_tasks s) (k_nr_tasks s)
  (k_quantum s) (k_ticks s) (k_preempt s) (k_reap s) (k_cpu s) (k_mem s) (k_next_pid s) v (k_procs s).
Definition with_procs v s := Kern (k_tasks s) (k_current s) (k_runq_head s) (k_runq_tail s) (k_all_tasks s) (k_nr_tasks s)
  (k_quantum s) (k_ticks s) (k_preempt s) (k_reap s) (k_cpu s) (k_mem s) (k_next_pid s) (k_kmem s) v.

(** [p->field] and [p->field = v] *)
Definition get (p : Z) (s : kern) : outcome task := deref (k_tasks s !! p).
Definition upd (p : Z) (f : task → task) (s : kern) : outcome kern :=
  t ← get p s; Ok (with_tasks (<[p := f t]> (k_tasks s)) s).

(** The two tasks that are not on the heap. *)
Definition boot_task : Z := 1.
Definition idle_task : Z := 2.

Definition KSTACK_ORDER : Z := 2.
Definition KSTACK_SIZE : Z := 16384.
Definition SCHED_QUANTUM_TICKS : Z := 1.
Definition JNU_MAX_TASKS : Z := 512.
Definition KERNEL_SPACE : Z := 0.

(** The state [fpu_state_init] writes; FPU states are numbered. *)
Definition FPU_INIT : Z := 0.

(** ** Lists *)

Definition runq_push (p : Z) (s : kern) : outcome kern :=
  s ← upd p (set_run_next None) s;
  match k_runq_tail s with
  | Some l => s ← upd l (set_run_next (Some p)) s; Ok (with_runq (k_runq_head s) (Some p) s)
  | None => Ok (with_runq (Some p) (Some p) s)
  end.

Definition runq_pop (s : kern) : outcome (tptr * kern) :=
  match k_runq_head s with
  | None => Ok (None, s)
  | Some p =>
      t ← get p s;
      let s := with_runq (t_run_next t) (match t_run_next t with None => None | Some _ => k_runq_tail s end) s in
      s ← upd p (set_run_next None) s;
      Ok (Some p, s)
  end.

Definition all_tasks_add (p : Z) (s : kern) : outcome kern :=
  s ← upd p (set_all_next (k_all_tasks s)) s;
  Ok (with_all (Some p) (k_nr_tasks s + 1) s).

(** [link] walks from the list head; [prev] is the task whose [all_next] it
    points at, none for the head itself. *)
Fixpoint unlink_all (fuel : nat) (p : Z) (prev cur : tptr) (s : kern) : outcome kern :=
  match fuel with
  | O => NoFuel
  | S fuel =>
      match cur with
      | None => Ok s
      | Some c =>
          t ← get c s;
          if c =? p then
            s ← (match prev with
                 | None => Ok (with_all (t_all_next t) (k_nr_tasks s) s)
                 | Some q => upd q (set_all_next (t_all_next t)) s
                 end);
            s ← upd p (set_all_next None) s;
            Ok (if k_nr_tasks s >? 0 then with_all (k_all_tasks s) (k_nr_tasks s - 1) s else s)
          else unlink_all fuel p (Some c) (t_all_next t) s
      end
  end.

(** One step per task and one for the end of the list. *)
Definition all_tasks_remove (p : Z) (s : kern) : outcome kern :=
  unlink_all (S (size (k_tasks s))) p None (k_all_tasks s) s.

(** [kfree] of a task: the two static ones are not heap objects. *)
Definition kfree_task (p : Z) (s : kern) : outcome kern :=
  if (p =? boot_task) || (p =? idle_task) then Fault else
  _ ← get p s; Ok (with_tasks (delete p (k_tasks s)) s).

(** [if (task->kstack_base) pmm_free_pages(virt_to_phys(task->kstack_base), KSTACK_ORDER)] *)
Definition free_kstack (p : Z) (s : kern) : outcome kern :=
  t ← get p s;
  if negb (t_kstack t =? 0) then
    a ← pmm_free_pages (t_kstack t) KSTACK_ORDER (k_mem s); Ok (with_mem a s)
  else Ok s.

(** ** Switching *)

Definition sched_finish_switch (s : kern) : outcome kern :=
  match k_reap s with
  | None => Ok s
  | Some z =>
      let s := with_reap None s in
      s ← all_tasks_remove z s;
      s ← free_kstack z s;
      kfree_task z s
  end.

Definition switch_to (next : Z) (s : kern) : outcome kern :=
  let prev := k_current s in
  if prev =? next then
    s ← upd next (set_state TASK_RUNNING) s; Ok (with_quantum SCHED_QUANTUM_TICKS s)
  else
    s ← upd next (set_state TASK_RUNNING) (with_current next s);
    let s := with_quantum SCHED_QUANTUM_TICKS s in
    n ← get next s;
    let regs := k_cpu s in
    s ← upd prev (set_context (c_fs_base regs) (c_fpu regs)) s;
    let s := with_cpu (Cpu (t_fs_base n) (t_fpu n) (t_space n) (t_kstack_top n)) s in
    p ← get prev s;
    let s := if decide (t_state p = TASK_DEAD) then with_reap (Some prev) s else s in
    sched_finish_switch s.

Definition schedule_locked (s : kern) : outcome kern :=
  let prev := k_current s in
  p ← get prev s;
  s ← (if decide (t_state p = TASK_RUNNING) then
         if negb (prev =? idle_task) then
           s ← upd prev (set_state TASK_RUNNABLE) s; runq_push prev s
         else Ok s
       else Ok s);
  '(next, s) ← runq_pop s;
  switch_to (match next with Some p => p | None => idle_task end) s.

Definition sched_yield (s : kern) : outcome kern := schedule_locked s.

(** The calling task does not come back. *)
Definition sched_exit_current (status : Z) (s : kern) : outcome kern :=
  s ← upd (k_current s) (λ t, set_state TASK_ZOMBIE (set_exit_status (Z.land status 255) t)) s;
  schedule_locked s.

Definition sched_exit_detached (s : kern) : outcome kern :=
  s ← upd (k_current s) (set_state TASK_DEAD) s;
  schedule_locked s.

Definition signal_pending (s : kern) : outcome bool :=
  t ← get (k_current s) s; Ok (t_need_die t).

(** ** Sleeping and waking *)

Definition sched_sleep_current (s : kern) : outcome kern :=
  t ← get (k_current s) s;
  if t_wake_pending t >? 0 then upd (k_current s) (set_wake (t_wake_pending t - 1)) s else
  s ← upd (k_current s) (set_state TASK_SLEEPING) s;
  schedule_locked s.

Definition sleep_deadline (timeout_us now : Z) : Z :=
  if timeout_us =? 0 then 0 else
  if timeout_us >? 2 ^ 64 - 1 - now then 2 ^ 64 - 1 else now + timeout_us.

(** The part of [sched_sleep_timed_interruptible] under the lock, after the
    first test of [signal_pending]: [true] when it slept. *)
Definition sleep_timed_section (deadline : Z) (s : kern) : outcome (bool * kern) :=
  t ← get (k_current s) s;
  if t_wake_pending t >? 0 then
    s ← upd (k_current s) (set_wake (t_wake_pending t - 1)) s; Ok (false, s)
  else
    s ← upd (k_current s) (λ t, set_state TASK_SLEEPING (set_timeout deadline false t)) s;
    s ← schedule_locked s; Ok (true, s).

(** Its part after the task runs again. *)
Definition sleep_timed_result (slept : bool) (s : kern) : outcome (Z * kern) :=
  let me := k_current s in
  if slept then
    s ← upd me (λ t, set_timeout 0 (t_timed_out t) t) s;
    die ← signal_pending s;
    if (die : bool) then Ok (- EINTR, s) else
    t ← get me s;
    if t_timed_out t then s ← upd me (λ t, set_timeout (t_deadline t) false t) s; Ok (- ETIMEDOUT, s)
    else Ok (0, s)
  else
    die ← signal_pending s; Ok (if (die : bool) then - EINTR else 0, s).

Definition sched_consume_wake_pending (p : Z) (s : kern) : outcome kern :=
  t ← get p s;
  if t_wake_pending t >? 0 then upd p (set_wake (t_wake_pending t - 1)) s else Ok s.

Definition sched_wake (p : Z) (s : kern) : outcome kern :=
  s ← upd p (λ t, set_wake (u32 (t_wake_pending t + 1)) t) s;
  t ← get p s;
  if decide (t_state t = TASK_SLEEPING) then
    s ← upd p (λ t, set_state TASK_RUNNABLE (set_timeout 0 false (set_wake (u32 (t_wake_pending t - 1)) t))) s;
    runq_push p s
  else Ok s.

(** ** The timer *)

Fixpoint expire_loop (fuel : nat) (now : Z) (cur : tptr) (s : kern) : outcome kern :=
  match fuel with
  | O => NoFuel
  | S fuel =>
      match cur with
      | None => Ok s
      | Some c =>
          t ← get c s;
          s ← (if bool_decide (t_state t = TASK_SLEEPING) && negb (t_deadline t =? 0) && negb (now <? t_deadline t) then
                 s ← upd c (λ t, set_state TASK_RUNNABLE (set_timeout 0 true t)) s; runq_push c s
               else Ok s);
          t ← get c s;
          expire_loop fuel now (t_all_next t) s
      end
  end.

Definition sched_expire_timed_sleepers (now : Z) (s : kern) : outcome kern :=
  expire_loop (S (size (k_tasks s))) now (k_all_tasks s) s.

(** [now] is [cpu_us_since_boot()]. *)
Definition sched_tick (now : Z) (s : kern) : outcome kern :=
  let s := with_counts (u64 (k_ticks s + 1)) (k_preempt s) s in
  s ← sched_expire_timed_sleepers now s;
  let s := if k_quantum s >? 0 then with_quantum (k_quantum s - 1) s else s in
  if negb (k_quantum s =? 0) then Ok s else
  let s := with_quantum SCHED_QUANTUM_TICKS (with_counts (k_ticks s) (u64 (k_preempt s + 1)) s) in
  schedule_locked s.

(** ** Creation and reaping of tasks *)

Definition sched_reap_task (p : Z) (s : kern) : outcome kern :=
  if p =? k_current s then Ok s else
  s ← all_tasks_remove p s;
  s ← free_kstack p s;
  kfree_task p s.

(** [__atomic_fetch_add(&next_pid, 1)] on an [int] *)
Definition process_alloc_pid (s : kern) : Z * kern :=
  let pid := k_next_pid s in
  (if pid <=? 0 then - ENOMEM else pid, with_pid (to_int32 (u32 (pid + 1))) s).

Definition next_alloc (s : kern) : bool * kern :=
  match k_kmem s with [] => (true, s) | b :: bs => (b, with_kmem bs s) end.

(** An address no object has. *)
Definition fresh_task (s : kern) : Z := fresh ({[0; boot_task; idle_task]} ∪ dom (k_tasks s)).

(** [process_create_kernel]: the process object of a kernel thread. *)
Definition process_create_kernel (p : Z) (s : kern) : bool * kern :=
  let '(ok, s) := next_alloc s in
  (ok, if (ok : bool) then with_procs ({[p]} ∪ k_procs s) s else s).

Definition sched_create_kernel_thread (s : kern) : outcome (Z * tptr * kern) :=
  let '(ok, s) := next_alloc s in
  if negb ok then Ok (- ENOMEM, None, s) else
  '(stack_pa, a) ← pmm_alloc_zeroed_pages KSTACK_ORDER (k_mem s);
  let s := with_mem a s in
  if stack_pa =? 0 then Ok (- ENOMEM, None, s) else
  let fail err s := a ← pmm_free_pages stack_pa KSTACK_ORDER (k_mem s); Ok (err, None, with_mem a s) in
  let '(pid, s) := process_alloc_pid s in
  if pid <? 0 then fail pid s else
  let p := fresh_task s in
  let '(ok, s) := process_create_kernel p s in
  if negb ok then fail (- ENOMEM) s else
  if k_nr_tasks s >=? JNU_MAX_TASKS then fail (- EAGAIN) s else
  let t := Task pid pid TASK_RUNNABLE stack_pa (stack_pa + KSTACK_SIZE) KERNEL_SPACE 0 None None false 0 0 false 0 FPU_INIT in
  s ← all_tasks_add p (with_tasks (<[p := t]> (k_tasks s)) s);
  s ← runq_push p s;
  Ok (0, Some p, s).

(** [sched_init]: [stack_top] is the top of the boot stack. *)
Definition sched_init (stack_top : Z) (mem : pmm) (kmem : list bool) (regs : cpu) : outcome kern :=
  let s := Kern ∅ boot_task None None None 0 SCHED_QUANTUM_TICKS 0 0 None regs mem 1 kmem ∅ in
  let '(pid, s) := process_alloc_pid s in
  let boot := Task pid pid TASK_RUNNING 0 stack_top KERNEL_SPACE 0 None None false 0 0 false 0 FPU_INIT in
  let s := with_tasks (<[boot_task := boot]> (k_tasks s)) s in
  let '(_, s) := process_create_kernel boot_task s in
  s ← all_tasks_add boot_task s;
  let '(tid, s) := process_alloc_pid s in
  '(pa, a) ← pmm_alloc_zeroed_pages KSTACK_ORDER (k_mem s);
  let idle := Task tid 0 TASK_RUNNABLE pa (pa + KSTACK_SIZE) KERNEL_SPACE 0 None None false 0 0 false 0 FPU_INIT in
  all_tasks_add idle_task (with_tasks (<[idle_task := idle]> (k_tasks s)) (with_mem a s)).
