(* ===== verification/SchedSpec.v ===== *)
(** * The scheduler: run queue, states and kernel stacks

    The invariant [sched_ok] relates the chained lists to Coq lists and the
    task states to them; every entry point keeps it and returns. *)

From S2P Require Import Prelude Pmm PmmSpec PmmAlloc PmmInit PmmSystem Sched.

(** ** Chained lists *)

(** [l] is the list that starts at [h] and is chained by the field [f]. *)
Fixpoint chain (f : task → tptr) (T : gmap Z task) (l : list Z) (h : tptr) : Prop :=
  match l with
  | [] => h = None
  | x :: l => h = Some x ∧ ∃ t, T !! x = Some t ∧ chain f T l (f t)
  end.

Lemma chain_ext f T T' l h :
  (∀ x, x ∈ l → f <$> T' !! x = f <$> T !! x) → chain f T l h → chain f T' l h.
Proof.
  revert h. induction l as [|x l IH]; intros h He; [done|]. intros (-> & t & Ht & C). split; [done|].
  assert (f <$> T' !! x = f <$> T !! x) as E by (apply He; set_solver).
  rewrite Ht in E. destruct (T' !! x) as [t'|]; [|done]. injection E as E. exists t'. split; [done|].
  rewrite E. apply IH; [|done]. intros y Hy. apply He. set_solver.
Qed.

Lemma chain_head f T l h : chain f T l h → h = head l.
Proof. destruct l; [done|]. by intros [-> _]. Qed.

Lemma chain_lookup f T l h x : chain f T l h → x ∈ l → is_Some (T !! x).
Proof.
  revert h. induction l as [|y l IH]; intros h C Hx; [by apply elem_of_nil in Hx|].
  destruct C as (_ & t & Ht & C). apply elem_of_cons in Hx as [->|Hx]; [by exists t|by eapply IH].
Qed.

(** Appending a task behind the last one. *)
Lemma chain_snoc f T T' l h p t :
  (∀ x, x ∈ l → last l ≠ Some x → f <$> T' !! x = f <$> T !! x) →
  (∀ x, last l = Some x → f <$> T' !! x = Some (Some p)) →
  T' !! p = Some t → f t = None → NoDup l → chain f T l h →
  chain f T' (l ++ [p]) (if h then h else Some p).
Proof.
  revert h. induction l as [|x l IH]; intros h He Hl Hp Hf N C.
  { simpl in C. subst h. simpl. split; [done|]. by exists t. }
  destruct C as (-> & tx & Hx & C). cbn [app chain]. split; [done|]. apply NoDup_cons in N as [Nx N].
  destruct l as [|y l].
  - specialize (Hl x eq_refl). destruct (T' !! x) as [t'|]; [|done]. exists t'. split; [done|].
    injection Hl as Hl. rewrite Hl. cbn [app chain]. split; [done|]. by exists t.
  - assert (f <$> T' !! x = f <$> T !! x) as E.
    { apply He; [set_solver|]. rewrite last_cons_cons. intros H. apply Nx. by apply last_Some_elem_of. }
    rewrite Hx in E. destruct (T' !! x) as [t'|]; [|done]. injection E as E. exists t'. split; [done|]. rewrite E.
    rewrite last_cons_cons in Hl.
    assert (is_Some (f tx)) as [z Hz]. { destruct C as (-> & _). by eexists. }
    specialize (IH (f tx)). rewrite Hz in IH |- *. apply IH; try done; [|by rewrite <- Hz].
    intros z' Hz' Hne. apply He; [set_solver|by rewrite last_cons_cons].
Qed.

(** ** The heap up to the links *)

Definition strip (t : task) : task := set_run_next None (set_all_next None t).
Definition view (s : kern) : gmap Z task := strip <$> k_tasks s.

Record links (s : kern) (rq al : list Z) : Prop := Links {
  ln_rq : chain t_run_next (k_tasks s) rq (k_runq_head s);
  ln_tail : k_runq_tail s = last rq;
  ln_rq_nodup : NoDup rq;
  ln_all : chain t_all_next (k_tasks s) al (k_all_tasks s);
  ln_all_nodup : NoDup al
}.

Lemma view_lookup s p : view s !! p = strip <$> k_tasks s !! p.
Proof. apply lookup_fmap. Qed.

Lemma view_insert s p t : strip <$> (<[p := t]> (k_tasks s)) = <[p := strip t]> (view s).
Proof. apply fmap_insert. Qed.

Lemma get_Some p s t : k_tasks s !! p = Some t → get p s = Ok t.
Proof. intros E. unfold get. by rewrite E. Qed.

Lemma upd_Some p f s t : k_tasks s !! p = Some t → upd p f s = Ok (with_tasks (<[p := f t]> (k_tasks s)) s).
Proof. intros E. unfold upd. by rewrite (get_Some _ _ _ E). Qed.

(** A function that leaves the links alone. *)
Definition keeps_links (f : task → task) : Prop :=
  ∀ t, t_run_next (f t) = t_run_next t ∧ t_all_next (f t) = t_all_next t ∧ strip (f t) = f (strip t).

Lemma links_upd s rq al p f t : keeps_links f → links s rq al → k_tasks s !! p = Some t →
  links (with_tasks (<[p := f t]> (k_tasks s)) s) rq al.
Proof.
  intros Hf [C1 H1 N1 C2 N2] Ht. constructor; cbn [with_tasks k_tasks k_runq_head k_runq_tail k_all_tasks]; try done.
  - eapply chain_ext; [|exact C1]. intros x _. destruct (decide (x = p)) as [->|Hne].
    + rewrite lookup_insert_eq, Ht. simpl. by rewrite (proj1 (Hf t)).
    + by rewrite lookup_insert_ne.
  - eapply chain_ext; [|exact C2]. intros x _. destruct (decide (x = p)) as [->|Hne].
    + rewrite lookup_insert_eq, Ht. simpl. by rewrite (proj1 (proj2 (Hf t))).
    + by rewrite lookup_insert_ne.
Qed.

Lemma view_upd s p f t : keeps_links f → k_tasks s !! p = Some t →
  view (with_tasks (<[p := f t]> (k_tasks s)) s) = <[p := f (strip t)]> (view s).
Proof. intros Hf Ht. unfold view. cbn [with_tasks k_tasks]. rewrite fmap_insert. by rewrite (proj2 (proj2 (Hf t))). Qed.

(** Replacing a task by one that differs in [run_next] only. *)
Lemma strip_same (T : gmap Z task) p t t' : T !! p = Some t → strip t' = strip t → strip <$> (<[p := t']> T) = strip <$> T.
Proof. intros H E. rewrite fmap_insert, E. apply insert_id. by rewrite lookup_fmap, H. Qed.

Lemma all_links_same (T : gmap Z task) p t v l h : T !! p = Some t →
  chain t_all_next T l h → chain t_all_next (<[p := set_run_next v t]> T) l h.
Proof.
  intros Ht. apply chain_ext. intros x _. destruct (decide (x = p)) as [->|Hne].
  - by rewrite lookup_insert_eq, Ht.
  - by rewrite lookup_insert_ne.
Qed.

Lemma push_spec s rq al p t : links s rq al → p ∉ rq → k_tasks s !! p = Some t →
  ∃ T h, let s' := with_runq h (Some p) (with_tasks T s) in
    runq_push p s = Ok s' ∧ links s' (rq ++ [p]) al ∧ view s' = view s.
Proof.
  intros [C1 H1 N1 C2 N2] Hp Ht. unfold runq_push. rewrite (upd_Some _ _ _ _ Ht). cbn [mbind outcome_bind].
  set (T1 := <[p := set_run_next None t]> (k_tasks s)). cbn [with_tasks k_runq_tail k_runq_head]. rewrite H1.
  assert (NoDup (rq ++ [p])) as Nq. { apply NoDup_app. split; [done|]. split; [set_solver|apply NoDup_singleton]. }
  assert (last (rq ++ [p]) = Some p) as El by apply last_snoc.
  destruct (last rq) as [l|] eqn:L.
  - assert (l ∈ rq) as Hl by (by apply last_Some_elem_of). assert (l ≠ p) as Hlp by (by intros ->).
    destruct (chain_lookup _ _ _ _ l C1 Hl) as [tl Htl].
    assert (T1 !! l = Some tl) as Hl1 by (unfold T1; by rewrite lookup_insert_ne).
    rewrite (upd_Some l (set_run_next (Some p)) (with_tasks T1 s) tl) by exact Hl1.
    cbn [mbind outcome_bind with_tasks k_tasks k_runq_head]. set (T2 := <[l := _]> T1).
    exists T2, (k_runq_head s). split; [done|]. split.
    + constructor; cbn [with_runq with_tasks k_tasks k_runq_head k_runq_tail k_all_tasks]; try done.
      * pose proof (chain_head _ _ _ _ C1) as Eh.
        assert (is_Some (k_runq_head s)) as [h Hh] by (rewrite Eh; destruct rq; [done|by eexists]).
        pose proof (chain_snoc t_run_next (k_tasks s) T2 rq (k_runq_head s) p (set_run_next None t)) as Q.
        rewrite Hh in Q |- *. apply Q; try done; [| | |by rewrite <- Hh].
        -- intros x Hx Hne. unfold T2, T1. rewrite lookup_insert_ne by congruence. by rewrite lookup_insert_ne by congruence.
        -- intros x Hx. assert (x = l) as -> by congruence. unfold T2. by rewrite lookup_insert_eq.
        -- unfold T2, T1. rewrite lookup_insert_ne by done. by rewrite lookup_insert_eq.
      * unfold T2. apply all_links_same; [done|]. unfold T1. by apply all_links_same.
    + unfold view. cbn [with_runq with_tasks k_tasks]. unfold T2. rewrite (strip_same T1 l tl) by done. by apply strip_same with t.
  - apply last_None in L. subst rq. cbn [app]. exists T1, (Some p). split; [done|]. split.
    + constructor; cbn [with_runq with_tasks k_tasks k_runq_head k_runq_tail k_all_tasks]; try done.
      * split; [done|]. exists (set_run_next None t). split; [|done]. unfold T1. by rewrite lookup_insert_eq.
      * by apply all_links_same.
    + unfold view. cbn [with_runq with_tasks k_tasks]. by apply strip_same with t.
Qed.

Lemma runq_pop_spec s rq al : links s rq al →
  match rq with
  | [] => runq_pop s = Ok (None, s)
  | p :: rq' => ∃ T, let s' := with_runq (head rq') (last rq') (with_tasks T s) in
      runq_pop s = Ok (Some p, s') ∧ links s' rq' al ∧ view s' = view s
  end.
Proof.
  intros [C1 H1 N1 C2 N2]. unfold runq_pop. rewrite (chain_head _ _ _ _ C1). destruct rq as [|p rq]; [done|]. cbn [head].
  destruct C1 as (_ & t & Ht & C1). rewrite (get_Some _ _ _ Ht). cbn [mbind outcome_bind].
  set (s1 := with_runq _ _ s). rewrite (upd_Some p _ s1 t) by exact Ht. cbn [mbind outcome_bind].
  apply NoDup_cons in N1 as [Np N1]. pose proof (chain_head _ _ _ _ C1) as Eh.
  set (T := <[p := set_run_next None t]> (k_tasks s)). exists T. split; [|split].
  - do 2 f_equal. unfold s1, with_tasks, with_runq. cbn. rewrite Eh, H1. f_equal.
    by destruct rq as [|q rq]; [|rewrite last_cons_cons].
  - constructor; cbn [with_runq with_tasks k_tasks k_runq_head k_runq_tail k_all_tasks]; try done.
    + rewrite <- Eh. eapply chain_ext; [|exact C1]. intros x Hx. unfold T. rewrite lookup_insert_ne; [done|]. by intros ->.
    + by apply all_links_same.
  - unfold view. cbn [with_runq with_tasks k_tasks]. by apply strip_same with t.
Qed.

(** Taking a task out of the middle. *)
Lemma chain_unlink f T T' d p l h tp :
  NoDup (d ++ p :: l) → T !! p = Some tp →
  (∀ x, x ∈ d ++ l → last d ≠ Some x → f <$> T' !! x = f <$> T !! x) →
  (∀ q, last d = Some q → f <$> T' !! q = Some (f tp)) →
  chain f T (d ++ p :: l) h → chain f T' (d ++ l) (match d with [] => f tp | _ => h end).
Proof.
  revert h. induction d as [|x d IH]; intros h N Hp He Hl C.
  { destruct C as (-> & t & Ht & C). assert (t = tp) as -> by congruence.
    eapply chain_ext; [|exact C]. intros x Hx. apply He; [set_solver|done]. }
  destruct C as (-> & tx & Hx & C). cbn [app chain]. split; [done|]. cbn [app] in N. apply NoDup_cons in N as [Nx N].
  destruct d as [|y d].
  - specialize (Hl x eq_refl). destruct (T' !! x) as [t'|]; [|done]. exists t'. split; [done|]. injection Hl as ->.
    apply (IH (f tx)); try done. intros z Hz _. apply He; [set_solver|]. intros [= ->]. set_solver.
  - assert (f <$> T' !! x = f <$> T !! x) as E.
    { apply He; [set_solver|]. rewrite last_cons_cons. intros H. apply last_Some_elem_of in H. set_solver. }
    rewrite Hx in E. destruct (T' !! x) as [t'|]; [|done]. injection E as E. exists t'. split; [done|]. rewrite E.
    rewrite last_cons_cons in *. apply (IH (f tx)); try done. intros z Hz Hne. apply He; [set_solver|done].
Qed.

Lemma rq_links_same (T : gmap Z task) p t v l h : T !! p = Some t →
  chain t_run_next T l h → chain t_run_next (<[p := set_all_next v t]> T) l h.
Proof.
  intros Ht. apply chain_ext. intros x _. destruct (decide (x = p)) as [->|Hne].
  - by rewrite lookup_insert_eq, Ht.
  - by rewrite lookup_insert_ne.
Qed.

Definition dec_count (n : Z) : Z := if n >? 0 then n - 1 else n.

Lemma unlink_found s rq d p l tp :
  links s rq (d ++ p :: l) → k_tasks s !! p = Some tp →
  ∃ T h, let s' := with_all h (dec_count (k_nr_tasks s)) (with_tasks T s) in
    (s1 ← (match last d with
           | None => Ok (with_all (t_all_next tp) (k_nr_tasks s) s)
           | Some q => upd q (set_all_next (t_all_next tp)) s
           end);
     s1 ← upd p (set_all_next None) s1;
     Ok (if k_nr_tasks s1 >? 0 then with_all (k_all_tasks s1) (k_nr_tasks s1 - 1) s1 else s1)) = Ok s' ∧
    links s' rq (d ++ l) ∧ view s' = view s.
Proof.
  intros [C1 H1 N1 C2 N2] Hp.
  assert (NoDup (d ++ l)) as Ndl. { rewrite <- Permutation_middle in N2. by apply NoDup_cons in N2 as [_ ?]. }
  assert (p ∉ d ++ l) as Npd. { rewrite <- Permutation_middle in N2. by apply NoDup_cons in N2 as [? _]. }
  destruct (last d) as [q|] eqn:L.
  - assert (q ∈ d) as Hq by (by apply last_Some_elem_of). assert (q ≠ p) as Hqp by (intros ->; set_solver).
    destruct (chain_lookup _ _ _ _ q C2 ltac:(set_solver)) as [tq Htq].
    rewrite (upd_Some _ _ _ _ Htq). cbn [mbind outcome_bind]. set (T1 := <[q := _]> _).
    assert (T1 !! p = Some tp) as Hp1 by (unfold T1; by rewrite lookup_insert_ne).
    rewrite (upd_Some p _ (with_tasks T1 s) tp) by exact Hp1. cbn [mbind outcome_bind with_tasks k_tasks k_nr_tasks k_all_tasks].
    set (T2 := <[p := _]> T1). exists T2, (k_all_tasks s). split; [|split].
    + unfold dec_count. by destruct (k_nr_tasks s >? 0); destruct s.
    + constructor; cbn [with_all with_tasks k_tasks k_runq_head k_runq_tail k_all_tasks]; try done.
      * unfold T2. apply rq_links_same; [done|]. unfold T1. by apply rq_links_same.
      * assert (d ≠ []) as Hd by (by intros ->). pose proof (chain_unlink t_all_next (k_tasks s) T2 d p l (k_all_tasks s) tp N2 Hp) as Q.
        destruct d as [|x d]; [done|]. apply Q; try done.
        -- intros z Hz Hne. unfold T2, T1. rewrite lookup_insert_ne by (intros ->; done). by rewrite lookup_insert_ne by congruence.
        -- intros z Hz. assert (z = q) as -> by congruence. unfold T2, T1. rewrite lookup_insert_ne by done. by rewrite lookup_insert_eq.
    + unfold view. cbn [with_all with_tasks k_tasks]. unfold T2. rewrite (strip_same T1 p tp) by done. by apply strip_same with tq.
  - apply last_None in L. subst d. cbn [app mbind outcome_bind] in *.
    rewrite (upd_Some p _ (with_all (t_all_next tp) (k_nr_tasks s) s) tp) by exact Hp.
    cbn [mbind outcome_bind with_all with_tasks k_tasks k_nr_tasks k_all_tasks]. set (T := <[p := _]> _).
    exists T, (t_all_next tp). split; [|split].
    + unfold dec_count. by destruct (k_nr_tasks s >? 0); destruct s.
    + constructor; cbn [with_all with_tasks k_tasks k_runq_head k_runq_tail k_all_tasks]; try done.
      * by apply rq_links_same.
      * destruct C2 as (_ & t & Ht & C2). assert (t = tp) as -> by congruence. eapply chain_ext; [|exact C2].
        intros x Hx. unfold T. rewrite lookup_insert_ne; [done|]. by intros ->.
    + unfold view. cbn [with_all with_tasks k_tasks]. by apply strip_same with tp.
Qed.

Lemma unlink_all_spec p l : ∀ fuel s rq d, links s rq (d ++ l) → p ∈ l → (length l < fuel)%nat →
  ∃ T h d' l', d ++ l = d' ++ p :: l' ∧
    let s' := with_all h (dec_count (k_nr_tasks s)) (with_tasks T s) in
    unlink_all fuel p (last d) (head l) s = Ok s' ∧ links s' rq (d' ++ l') ∧ view s' = view s.
Proof.
  induction l as [|c l IH]; intros fuel s rq d Ln Hp Hf; [by apply elem_of_nil in Hp|].
  destruct fuel as [|fuel]; [simpl in Hf; lia|]. cbn [unlink_all head]. simpl in Hf.
  assert (∃ t, k_tasks s !! c = Some t ∧ chain t_all_next (k_tasks s) l (t_all_next t)) as (t & Ht & C).
  { pose proof (ln_all _ _ _ Ln) as C. clear -C. revert C. generalize (k_all_tasks s). induction d as [|x d IHd]; intros h.
    - intros (_ & t & Ht & C). by exists t.
    - intros (_ & t & _ & C). by eapply IHd. }
  rewrite (get_Some _ _ _ Ht). cbn [mbind outcome_bind]. destruct (Z.eqb_spec c p) as [->|Hne].
  - destruct (unlink_found s rq d p l t Ln Ht) as (T & h & E). exists T, h, d, l. split; [done|]. exact E.
  - apply elem_of_cons in Hp as [?|Hp]; [congruence|]. rewrite (chain_head _ _ _ _ C).
    destruct (IH fuel s rq (d ++ [c])) as (T & h & d' & l' & El & E); [by rewrite <- app_assoc|done|lia|].
    rewrite last_snoc in E. exists T, h, d', l'. split; [|exact E]. by rewrite <- app_assoc in El.
Qed.

Lemma remove_spec s rq al p : links s rq al → p ∈ al → (∀ x, x ∈ al → is_Some (k_tasks s !! x)) →
  ∃ T h al', al ≡ₚ p :: al' ∧ let s' := with_all h (dec_count (k_nr_tasks s)) (with_tasks T s) in
    all_tasks_remove p s = Ok s' ∧ links s' rq al' ∧ view s' = view s.
Proof.
  intros Ln Hp Hd. unfold all_tasks_remove. rewrite (chain_head _ _ _ _ (ln_all _ _ _ Ln)).
  destruct (unlink_all_spec p al (S (size (k_tasks s))) s rq [] Ln Hp) as (T & h & d & l & El & E).
  { pose proof (ln_all_nodup _ _ _ Ln) as N. assert (length al ≤ size (k_tasks s))%nat; [|lia].
    rewrite <- size_dom. rewrite <- (size_list_to_set (C := gset Z) al) by done. apply subseteq_size.
    intros x Hx. apply elem_of_list_to_set in Hx. apply elem_of_dom. by apply Hd. }
  exists T, h, (d ++ l). simpl in El. split; [rewrite El; by rewrite Permutation_middle|exact E].
Qed.

Lemma add_spec s rq al p t : links s rq al → p ∉ al → k_tasks s !! p = Some t →
  ∃ T, let s' := with_all (Some p) (k_nr_tasks s + 1) (with_tasks T s) in
    all_tasks_add p s = Ok s' ∧ links s' rq (p :: al) ∧ view s' = view s.
Proof.
  intros [C1 H1 N1 C2 N2] Hp Ht. unfold all_tasks_add. rewrite (upd_Some _ _ _ _ Ht). cbn [mbind outcome_bind].
  eexists. split; [done|]. split.
  - constructor; cbn [with_all with_tasks k_tasks k_runq_head k_runq_tail k_all_tasks]; try done.
    + by apply rq_links_same.
    + split; [done|]. eexists. rewrite lookup_insert_eq. split; [done|]. cbn [t_all_next set_all_next]. eapply chain_ext; [|exact C2].
      intros x Hx. rewrite lookup_insert_ne; [done|]. by intros ->.
    + by apply NoDup_cons.
  - unfold view. cbn [with_all with_tasks k_tasks]. by apply strip_same with t.
Qed.

(** ** Kernel stacks *)

(** The page allocator's blocks in the hands of the scheduler are the kernel
    stacks, one block of four pages for each task that has one. *)
Definition stacks_ok (V : gmap Z task) (mem : pmm) : Prop :=
  ∃ H B, world_ok (World mem H) B ∧
    (∀ p t, V !! p = Some t → t_kstack t ≠ 0 → ∃ x, t_kstack t = x * 4096 ∧ H !! x = Some KSTACK_ORDER) ∧
    (∀ p q t u, V !! p = Some t → V !! q = Some u → t_kstack t = t_kstack u → t_kstack t ≠ 0 → p = q) ∧
    (∀ x, is_Some (H !! x) → ∃ p t, V !! p = Some t ∧ t_kstack t = x * 4096).

Lemma stacks_ext V V' mem : t_kstack <$> V' = t_kstack <$> V → stacks_ok V mem → stacks_ok V' mem.
Proof.
  intros E (H & B & W & H1 & H2 & H3).
  assert (∀ p t, V' !! p = Some t → ∃ u, V !! p = Some u ∧ t_kstack u = t_kstack t) as Hback.
  { intros p t Ht. assert ((t_kstack <$> V') !! p = Some (t_kstack t)) as F by (by rewrite lookup_fmap, Ht).
    rewrite E, lookup_fmap in F. destruct (V !! p) as [u|]; [|done]. injection F as F. by exists u. }
  exists H, B. split_and!; [done|..].
  - intros p t Ht. destruct (Hback p t Ht) as (u & Hu & <-). by apply H1 with p.
  - intros p q t u Ht Hu. destruct (Hback p t Ht) as (t' & Ht' & <-), (Hback q u Hu) as (u' & Hu' & <-). by apply H2.
  - intros x Hx. destruct (H3 x Hx) as (p & t & Ht & Ek). assert ((t_kstack <$> V') !! p = Some (t_kstack t)) as F.
    { by rewrite E, lookup_fmap, Ht. }
    rewrite lookup_fmap in F. destruct (V' !! p) as [u|] eqn:Eu; [|done]. injection F as F. exists p, u. split; [done|congruence].
Qed.

Lemma block_frees mem H B x : world_ok (World mem H) B → H !! x = Some KSTACK_ORDER →
  ∃ mem' B', pmm_free_pages (x * 4096) KSTACK_ORDER mem = Ok mem' ∧ world_ok (World mem' (delete x H)) B'.
Proof.
  intros W Hx. destruct (wo_block _ _ W x _ Hx) as (_ & Ob & U). pose proof (wo_pmm _ _ W) as O. cbn [w_pmm] in *.
  destruct (free_spec mem B x KSTACK_ORDER O Ob U) as (mem' & B' & E & F). exists mem', B'. split; [done|]. by eapply world_free.
Qed.

(** Releasing the stack of a task that goes away. *)
Lemma stacks_free V mem p t : stacks_ok V mem → V !! p = Some t →
  ∃ mem', (if negb (t_kstack t =? 0) then pmm_free_pages (t_kstack t) KSTACK_ORDER mem else Ok mem) = Ok mem' ∧
    stacks_ok (delete p V) mem'.
Proof.
  intros (H & B & W & H1 & H2 & H3) Ht. destruct (Z.eqb_spec (t_kstack t) 0) as [E0|N0]; cbn [negb].
  - exists mem. split; [done|]. exists H, B. split_and!; [done|..].
    + intros q u Hu. apply lookup_delete_Some in Hu as [_ Hu]. by apply H1 with q.
    + intros q r u v Hu Hv. apply lookup_delete_Some in Hu as [_ Hu], Hv as [_ Hv]. by apply H2.
    + intros x Hx. destruct (H3 x Hx) as (q & u & Hu & Ek). exists q, u. split; [|done]. apply lookup_delete_Some. split; [|done].
      intros ->. assert (u = t) as -> by congruence. destruct Hx as [o Hx]. destruct (wo_block _ _ W x o Hx) as (? & _). lia.
  - destruct (H1 p t Ht N0) as (x & Ex & Hx). destruct (block_frees _ _ _ _ W Hx) as (mem' & B' & E & W'). rewrite Ex.
    exists mem'. split; [done|]. exists (delete x H), B'. split_and!; [done|..].
    + intros q u Hu Nu. apply lookup_delete_Some in Hu as [Hne Hu]. destruct (H1 q u Hu Nu) as (y & Ey & Hy).
      exists y. split; [done|]. apply lookup_delete_Some. split; [|done]. intros <-. apply Hne. apply (H2 p q t u); congruence.
    + intros q r u v Hu Hv. apply lookup_delete_Some in Hu as [_ Hu], Hv as [_ Hv]. by apply H2.
    + intros y [o Hy]. apply lookup_delete_Some in Hy as [Hne Hy]. destruct (H3 y ltac:(by eexists)) as (q & u & Hu & Ek).
      exists q, u. split; [|done]. apply lookup_delete_Some. split; [|done]. intros ->. assert (u = t) as -> by congruence. lia.
Qed.

(** A new stack: none, or one for a task to come, which can be given back. *)
Lemma stacks_alloc V mem : stacks_ok V mem →
  pmm_alloc_zeroed_pages KSTACK_ORDER mem = Ok (0, mem) ∨
  ∃ pa mem', pmm_alloc_zeroed_pages KSTACK_ORDER mem = Ok (pa, mem') ∧ pa ≠ 0 ∧
    (∀ p t, V !! p = None → t_kstack t = pa → stacks_ok (<[p := t]> V) mem') ∧
    ∃ mem'', pmm_free_pages pa KSTACK_ORDER mem' = Ok mem'' ∧ stacks_ok V mem''.
Proof.
  intros (H & B & W & H1 & H2 & H3). unfold pmm_alloc_zeroed_pages. pose proof (wo_pmm _ _ W) as O. cbn [w_pmm] in O.
  destruct (alloc_spec mem B KSTACK_ORDER O) as [[E _]|(x & mem' & B' & E & T)];
    [unfold KSTACK_ORDER, PMM_MAX_ORDER; lia|by left|right].
  assert (x ≠ 0) as Hx0.
  { intros ->. apply (wo_zero _ _ W). destruct T as [_ _ _ Hin _]. apply Hin. unfold KSTACK_ORDER. lia. }
  pose proof (world_take _ _ _ _ _ _ _ W T Hx0) as W'. rewrite Z.div_mul in W' by lia.
  assert (H !! x = None) as Hnone.
  { destruct (H !! x) as [o|] eqn:Ex; [|done]. exfalso. destruct (wo_block _ _ W x o Ex) as (_ & Ob & _).
    pose proof (wo_disj _ _ W') as D. cbn [w_held] in D. destruct T as [_ _ Obx Hin _].
    destruct (wo_block _ _ W x o Ex) as (_ & Ob2 & U). destruct Ob2 as [? _ _ _].
    apply (U x); [pose proof (pow_pos o); lia|]. apply Hin. unfold KSTACK_ORDER. lia. }
  exists (x * 4096), mem'. split_and!; [done|lia| |].
  - intros p t Hp Ek. exists (<[x := KSTACK_ORDER]> H), B'. split_and!; [done|..].
    + intros q u. rewrite lookup_insert_Some. intros [[<- <-]|[Hne Hu]] Nu.
      * exists x. split; [done|]. apply lookup_insert_eq.
      * destruct (H1 q u Hu Nu) as (y & Ey & Hy). exists y. split; [done|]. rewrite lookup_insert_ne; [done|]. congruence.
    + assert (∀ q u, V !! q = Some u → t_kstack u ≠ 0 → t_kstack u ≠ t_kstack t) as Hnew.
      { intros q u Hu Nu Eu. destruct (H1 q u Hu Nu) as (y & Ey & Hy). assert (y = x) by lia. congruence. }
      intros q r u v. rewrite !lookup_insert_Some. intros [[<- <-]|[Hne Hu]] [[<- <-]|[Hne' Hv]] Euv Nu; try done.
      * exfalso. apply (Hnew r v Hv); congruence.
      * exfalso. apply (Hnew q u Hu); congruence.
      * by apply (H2 q r u v).
    + intros y [o Hy]. apply lookup_insert_Some in Hy as [[<- _]|[Hne Hy]].
      * exists p, t. split; [apply lookup_insert_eq|done].
      * destruct (H3 y ltac:(by eexists)) as (q & u & Hu & Eu). exists q, u. split; [|done]. rewrite lookup_insert_ne; [done|congruence].
  - destruct (block_frees mem' _ B' x W') as (mem2 & B2 & E2 & W2); [apply lookup_insert_eq|].
    exists mem2. split; [done|]. exists H, B2. rewrite delete_insert_id in W2 by done. done.
Qed.

(** ** The invariant *)

Definition in_state (V : gmap Z task) (p : Z) (st : task_state) : Prop := ∃ t, V !! p = Some t ∧ t_state t = st.

(** The part that holds inside [schedule_locked] too, where the current task is
    in any state. *)
Record flat (V : gmap Z task) (cur : Z) (rq al : list Z) (nr : Z) : Prop := Flat {
  fl_rq : ∀ p, p ∈ rq ↔ p ≠ idle_task ∧ in_state V p TASK_RUNNABLE;
  fl_all : ∀ p, p ∈ al ↔ is_Some (V !! p);
  fl_nr : nr = Z.of_nat (length al);
  fl_running : ∀ p, in_state V p TASK_RUNNING → p = cur ∨ p = idle_task;
  fl_idle : in_state V idle_task TASK_RUNNABLE ∨ in_state V idle_task TASK_RUNNING;
  fl_sleep : ∀ p t, V !! p = Some t → t_state t = TASK_SLEEPING → t_wake_pending t = 0;
  fl_wake : ∀ p t, V !! p = Some t → 0 ≤ t_wake_pending t < 2 ^ 32;
  fl_dead : ∀ p, in_state V p TASK_DEAD → p = cur ∧ p ≠ boot_task
}.

(** Between two calls: the current task runs and no dead task is left. *)
Record sched_ok (s : kern) (rq al : list Z) : Prop := SchedOk {
  so_links : links s rq al;
  so_flat : flat (view s) (k_current s) rq al (k_nr_tasks s);
  so_stacks : stacks_ok (view s) (k_mem s);
  so_cur : in_state (view s) (k_current s) TASK_RUNNING;
  so_reap : k_reap s = None;
  so_quantum : k_quantum s = 1
}.

#[export] Instance in_state_dec V p st : Decision (in_state V p st).
Proof.
  unfold in_state. destruct (V !! p) as [t|] eqn:E; [|right; by intros (? & ? & _)].
  destruct (decide (t_state t = st)) as [H|H]; [left; by exists t|right; intros (? & ? & ?); congruence].
Defined.

Lemma in_state_insert V p t q st : in_state (<[p := t]> V) q st ↔ (q = p ∧ t_state t = st) ∨ (q ≠ p ∧ in_state V q st).
Proof.
  unfold in_state. split.
  - intros (u & Hu & E). apply lookup_insert_Some in Hu as [[<- <-]|[Hne Hu]]; [by left|right]. split; [done|by exists u].
  - intros [[-> E]|[Hne (u & Hu & E)]]; [exists t|exists u]; (split; [|done]).
    + apply lookup_insert_eq.
    + by rewrite lookup_insert_ne.
Qed.

Lemma in_state_unique V p a b : in_state V p a → in_state V p b → a = b.
Proof. intros (t & Ht & <-) (u & Hu & <-). congruence. Qed.

Lemma in_state_alive V p a : in_state V p a → is_Some (V !! p).
Proof. intros (t & Ht & _). by exists t. Qed.

Lemma view_Some s p t : view s !! p = Some t → ∃ u, k_tasks s !! p = Some u ∧ strip u = t.
Proof. rewrite view_lookup. destruct (k_tasks s !! p) as [u|]; [|done]. intros [= <-]. by exists u. Qed.

(** Reading a field other than the links from the stripped task. *)
Lemma strip_fields u : t_state (strip u) = t_state u ∧ t_kstack (strip u) = t_kstack u ∧
  t_wake_pending (strip u) = t_wake_pending u ∧ t_fs_base (strip u) = t_fs_base u ∧ t_fpu (strip u) = t_fpu u ∧
  t_space (strip u) = t_space u ∧ t_kstack_top (strip u) = t_kstack_top u.
Proof. by destruct u. Qed.

(** An update of one task through the view. *)
Lemma upd_spec s rq al p f t : keeps_links f → links s rq al → view s !! p = Some t →
  ∃ T, upd p f s = Ok (with_tasks T s) ∧ links (with_tasks T s) rq al ∧
    view (with_tasks T s) = <[p := f t]> (view s).
Proof.
  intros Hf Ln Ht. destruct (view_Some _ _ _ Ht) as (u & Hu & <-). eexists.
  split; [by apply upd_Some|]. split; [by apply links_upd|by apply view_upd].
Qed.

Lemma get_spec s p t : view s !! p = Some t → ∃ u, get p s = Ok u ∧ strip u = t.
Proof. intros H. destruct (view_Some _ _ _ H) as (u & Hu & E). exists u. split; [by apply get_Some|done]. Qed.

Ltac keeps := by (intros ?; repeat split; reflexivity).

(** What a switch does to the tasks: the current one goes to the back of the
    queue when it was running, the next one runs, registers are exchanged and a
    dead task disappears. *)
Definition requeued (V : gmap Z task) (cur : Z) : Prop := in_state V cur TASK_RUNNING ∧ cur ≠ idle_task.

#[export] Instance requeued_dec V cur : Decision (requeued V cur).
Proof. apply _. Defined.

Definition queue_after (V : gmap Z task) (cur : Z) (rq : list Z) : list Z :=
  if decide (requeued V cur) then rq ++ [cur] else rq.

Lemma queue_push_spec s rq al tc :
  links s rq al → view s !! k_current s = Some tc → k_current s ∉ rq →
  ∃ T h l, let s1 := with_runq h l (with_tasks T s) in
    (if decide (t_state tc = TASK_RUNNING) then
       if negb (k_current s =? idle_task) then
         s1 ← upd (k_current s) (set_state TASK_RUNNABLE) s; runq_push (k_current s) s1
       else Ok s
     else Ok s) = Ok s1 ∧
    links s1 (queue_after (view s) (k_current s) rq) al ∧
    view s1 = (if decide (requeued (view s) (k_current s)) then <[k_current s := set_state TASK_RUNNABLE tc]> (view s) else view s).
Proof.
  intros Ln Hc Nc. unfold queue_after.
  assert (s = with_runq (k_runq_head s) (k_runq_tail s) (with_tasks (k_tasks s) s)) as Eid by (by destruct s).
  destruct (decide (requeued _ _)) as [[R Ri]|R].
  - destruct R as (t & Ht & Hr). assert (t = tc) as -> by congruence. rewrite decide_True by done.
    rewrite (proj2 (Z.eqb_neq _ _)) by done. cbn [negb].
    destruct (upd_spec s rq al (k_current s) (set_state TASK_RUNNABLE) tc) as (T1 & E1 & L1 & V1); [keeps|done|done|].
    rewrite E1. cbn [mbind outcome_bind with_tasks k_current].
    assert (is_Some (T1 !! k_current s)) as [u Hu].
    { assert (view (with_tasks T1 s) !! k_current s = Some (set_state TASK_RUNNABLE tc)) as F by (rewrite V1; apply lookup_insert_eq).
      destruct (view_Some _ _ _ F) as (u & Hu & _). by exists u. }
    destruct (push_spec _ _ _ (k_current s) u L1 Nc Hu) as (T2 & h & E2 & L2 & V2).
    exists T2, h, (Some (k_current s)). split; [exact E2|]. split; [exact L2|]. by rewrite <- V1, <- V2.
  - assert ((if decide (t_state tc = TASK_RUNNING) then if negb (k_current s =? idle_task) then
      s1 ← upd (k_current s) (set_state TASK_RUNNABLE) s; runq_push (k_current s) s1 else Ok s else Ok s) = Ok s) as ->.
    { destruct (decide _) as [Hr|]; [|done]. destruct (Z.eqb_spec (k_current s) idle_task); [done|].
      exfalso. apply R. split; [by exists tc|done]. }
    exists (k_tasks s), (k_runq_head s), (k_runq_tail s). by rewrite <- Eid.
Qed.

Definition switched (V : gmap Z task) (cur next : Z) (regs : cpu) : gmap Z task :=
  if decide (cur = next) then alter (set_state TASK_RUNNING) next V else
  let V := alter (set_context (c_fs_base regs) (c_fpu regs)) cur (alter (set_state TASK_RUNNING) next V) in
  if decide (in_state V cur TASK_DEAD) then delete cur V else V.

Lemma alter_insert (V : gmap Z task) p f t : V !! p = Some t → alter f p V = <[p := f t]> V.
Proof. intros H. apply map_eq. intros q. destruct (decide (q = p)) as [->|Hne].
  - by rewrite lookup_alter_eq, lookup_insert_eq, H.
  - by rewrite lookup_alter_ne, lookup_insert_ne by done.
Qed.

(** Freeing a task that is on no queue. *)
Lemma release_spec s rq al p t :
  links s rq al → (∀ q, q ∈ al ↔ is_Some (view s !! q)) → k_nr_tasks s = Z.of_nat (length al) →
  stacks_ok (view s) (k_mem s) → view s !! p = Some t → p ∉ rq → p ≠ boot_task → p ≠ idle_task →
  ∃ T h mem al', let s' := with_all h (k_nr_tasks s - 1) (with_mem mem (with_tasks T s)) in
    (s ← all_tasks_remove p s; s ← free_kstack p s; kfree_task p s) = Ok s' ∧
    links s' rq al' ∧ al ≡ₚ p :: al' ∧ view s' = delete p (view s) ∧ stacks_ok (view s') mem.
Proof.
  intros Ln Hal Hnr Hst Ht Hp Hb Hi.
  assert (p ∈ al) as Hpa by (apply Hal; by exists t).
  destruct (remove_spec s rq al p Ln Hpa) as (T & h & al' & Ep & E & L1 & V1).
  { intros x Hx. apply Hal in Hx as [u Hu]. destruct (view_Some _ _ _ Hu) as (v & Hv & _). by exists v. }
  cbn zeta in E. rewrite E. cbn [mbind outcome_bind].
  assert (dec_count (k_nr_tasks s) = k_nr_tasks s - 1) as Ed.
  { pose proof (Permutation_length Ep) as El. cbn [length] in El. unfold dec_count. destruct (Z.gtb_spec (k_nr_tasks s) 0); lia. }
  rewrite Ed in *. set (s1 := with_all h (k_nr_tasks s - 1) (with_tasks T s)) in *.
  assert (view s1 !! p = Some t) as Ht1 by (by rewrite V1). destruct (view_Some _ _ _ Ht1) as (u & Hu & Eu).
  unfold free_kstack. rewrite (get_Some _ _ _ Hu). cbn [mbind outcome_bind].
  destruct (stacks_free (view s) (k_mem s) p t Hst Ht) as (mem & Em & Hst').
  assert (t_kstack u = t_kstack t) as Ek by (rewrite <- Eu; by destruct u). rewrite Ek.
  assert ((if negb (t_kstack t =? 0) then a ← pmm_free_pages (t_kstack t) KSTACK_ORDER (k_mem s1); Ok (with_mem a s1) else Ok s1)
    = Ok (with_mem mem s1)) as ->.
  { change (k_mem s1) with (k_mem s). destruct (negb _); [by rewrite Em|]. injection Em as <-. by destruct s. }
  cbn [mbind outcome_bind]. unfold kfree_task. rewrite (proj2 (Z.eqb_neq _ _)) by done. rewrite (proj2 (Z.eqb_neq _ _)) by done. cbn [orb].
  rewrite (get_Some p (with_mem mem s1) u) by exact Hu. cbn [mbind outcome_bind].
  exists (delete p T), h, mem, al'. split; [done|]. destruct L1 as [C1 H1 N1 C2 N2].
  assert (p ∉ al') as Hna. { pose proof (ln_all_nodup _ _ _ Ln) as N. rewrite Ep in N. by apply NoDup_cons in N as [? _]. }
  assert (view (with_all h (k_nr_tasks s - 1) (with_mem mem (with_tasks (delete p T) s))) = delete p (view s)) as Ev.
  { rewrite <- V1. unfold view. cbn [with_all with_mem with_tasks k_tasks]. apply fmap_delete. }
  split; [|split; [done|split; [done|by rewrite Ev]]].
  constructor; cbn [with_all with_mem with_tasks k_tasks k_runq_head k_runq_tail k_all_tasks]; try done.
  - eapply chain_ext; [|exact C1]. intros x Hx. cbn [s1 with_all with_tasks k_tasks]. rewrite lookup_delete_ne; [done|]. by intros ->.
  - eapply chain_ext; [|exact C2]. intros x Hx. cbn [s1 with_all with_tasks k_tasks]. rewrite lookup_delete_ne; [done|]. by intros ->.
Qed.

Lemma links_eq s s' rq al :
  k_tasks s' = k_tasks s → k_runq_head s' = k_runq_head s → k_runq_tail s' = k_runq_tail s →
  k_all_tasks s' = k_all_tasks s → links s rq al → links s' rq al.
Proof. intros E1 E2 E3 E4 [? ? ? ? ?]. constructor; congruence. Qed.

(** The variables a switch does not touch. *)
Definition same_vars (s s' : kern) : Prop :=
  k_ticks s' = k_ticks s ∧ k_preempt s' = k_preempt s ∧ k_next_pid s' = k_next_pid s ∧ k_kmem s' = k_kmem s ∧
  k_procs s' = k_procs s.

Record after_switch (s : kern) (V : gmap Z task) (next : Z) (rq : list Z) (s' : kern) (al' : list Z) : Prop := AfterSwitch {
  as_links : links s' rq al';
  as_all : ∀ p, p ∈ al' ↔ is_Some (view s' !! p);
  as_nr : k_nr_tasks s' = Z.of_nat (length al');
  as_stacks : stacks_ok (view s') (k_mem s');
  as_view : view s' = V;
  as_current : k_current s' = next;
  as_reap : k_reap s' = None;
  as_quantum : k_quantum s' = 1;
  as_vars : same_vars s s'
}.

Lemma switch_spec s rq al next tc tn :
  links s rq al → (∀ p, p ∈ al ↔ is_Some (view s !! p)) → k_nr_tasks s = Z.of_nat (length al) →
  stacks_ok (view s) (k_mem s) → k_reap s = None →
  view s !! k_current s = Some tc → view s !! next = Some tn →
  (t_state tc = TASK_DEAD → k_current s ∉ rq ∧ k_current s ≠ next ∧ k_current s ≠ boot_task ∧ k_current s ≠ idle_task) →
  ∃ s' al', switch_to next s = Ok s' ∧
    after_switch s (switched (view s) (k_current s) next (k_cpu s)) next rq s' al' ∧
    k_cpu s' = if decide (k_current s = next) then k_cpu s else Cpu (t_fs_base tn) (t_fpu tn) (t_space tn) (t_kstack_top tn).
Proof.
  intros Ln Hal Hnr Hst Hre Hc Hn Hd. unfold switch_to. set (cur := k_current s) in *.
  destruct (upd_spec s rq al next (set_state TASK_RUNNING) tn) as (T1 & E1 & L1 & V1); [keeps|done|done|].
  assert (∀ p, is_Some (<[next := set_state TASK_RUNNING tn]> (view s) !! p) ↔ is_Some (view s !! p)) as Hdom1.
  { intros p. rewrite lookup_insert_is_Some. destruct (decide (next = p)) as [->|]; [|tauto]. rewrite Hn. naive_solver. }
  assert (t_kstack <$> <[next := set_state TASK_RUNNING tn]> (view s) = t_kstack <$> view s) as Hk1.
  { rewrite fmap_insert. apply insert_id. by rewrite lookup_fmap, Hn. }
  unfold switched. destruct (decide (cur = next)) as [<-|Hne].
  - rewrite Z.eqb_refl, E1. cbn [mbind outcome_bind]. eexists _, al. split; [done|]. split; [|done].
    rewrite (alter_insert _ _ _ tc Hc). assert (tn = tc) as -> by congruence.
    constructor; try done; cbn [with_quantum with_tasks k_nr_tasks k_mem k_reap k_quantum k_current].
    + by eapply links_eq; [..|exact L1].
    + intros p. change (view _) with (view (with_tasks T1 s)). rewrite V1, Hdom1. apply Hal.
    + change (view _) with (view (with_tasks T1 s)). rewrite V1. by eapply stacks_ext.
  - rewrite (proj2 (Z.eqb_neq _ _)) by done.
    assert (upd next (set_state TASK_RUNNING) (with_current next s) = Ok (with_tasks T1 (with_current next s))) as ->.
    { unfold upd, get in *. cbn [with_current k_tasks] in *. destruct (k_tasks s !! next); [|done]. cbn [mbind outcome_bind deref] in *.
      injection E1 as <-. done. }
    cbn [mbind outcome_bind]. set (s1 := with_quantum _ _).
    assert (links s1 rq al) as L1' by (by eapply links_eq; [..|exact L1]).
    assert (view s1 = <[next := set_state TASK_RUNNING tn]> (view s)) as V1' by exact V1.
    destruct (get_spec s1 next (set_state TASK_RUNNING tn)) as (n & En & Sn); [rewrite V1'; apply lookup_insert_eq|].
    rewrite En. cbn [mbind outcome_bind].
    assert (view s1 !! cur = Some tc) as Hc1 by (rewrite V1'; by rewrite lookup_insert_ne).
    destruct (upd_spec s1 rq al cur (set_context (c_fs_base (k_cpu s1)) (c_fpu (k_cpu s1))) tc) as (T2 & E2 & L2 & V2); [keeps|done|done|].
    rewrite E2. cbn [mbind outcome_bind]. set (s2 := with_cpu _ _).
    assert (links s2 rq al) as L2' by (by eapply links_eq; [..|exact L2]).
    change (k_cpu s1) with (k_cpu s) in *. set (tc' := set_context _ _ tc) in *.
    assert (view s2 = <[cur := tc']> (<[next := set_state TASK_RUNNING tn]> (view s))) as V2' by (rewrite <- V1'; exact V2).
    destruct (get_spec s2 cur tc') as (p & Ep & Sp); [rewrite V2'; apply lookup_insert_eq|]. rewrite Ep. cbn [mbind outcome_bind].
    assert (t_state p = t_state tc) as Est. { transitivity (t_state (strip p)); [by destruct p|]. by rewrite Sp. }
    rewrite Est. rewrite (alter_insert _ next _ tn Hn).
    rewrite (alter_insert _ cur _ tc) by (by rewrite lookup_insert_ne). fold tc'. rewrite <- V2'.
    assert (∀ q, q ∈ al ↔ is_Some (view s2 !! q)) as Hal2.
    { intros q. rewrite V2', lookup_insert_is_Some, Hdom1, Hal. destruct (decide (cur = q)) as [<-|]; [rewrite Hc|]; naive_solver. }
    assert (stacks_ok (view s2) (k_mem s)) as Hst2.
    { eapply stacks_ext; [|exact Hst]. rewrite V2', fmap_insert, Hk1. apply insert_id. by rewrite lookup_fmap, Hc. }
    assert (in_state (view s2) cur TASK_DEAD ↔ t_state tc = TASK_DEAD) as Hdead.
    { rewrite V2', in_state_insert. naive_solver. }
    assert (Cpu (t_fs_base n) (t_fpu n) (t_space n) (t_kstack_top n) = Cpu (t_fs_base tn) (t_fpu tn) (t_space tn) (t_kstack_top tn)) as Ecpu.
    { transitivity (let u := strip n in Cpu (t_fs_base u) (t_fpu u) (t_space u) (t_kstack_top u)); [by destruct n|]. by rewrite Sn. }
    destruct (decide (t_state tc = TASK_DEAD)) as [D|D].
    + rewrite decide_True by tauto. destruct (Hd D) as (Hcq & _ & Hb & Hi). unfold sched_finish_switch. cbn [with_reap k_reap].
      set (s3 := with_reap None (with_reap (Some cur) s2)).
      destruct (release_spec s3 rq al cur tc') as (T3 & h & mem & al' & E3 & L3 & Pa & V3 & S3); try done.
      { by eapply links_eq; [..|exact L2']. }
      { change (view s3) with (view s2). rewrite V2'. apply lookup_insert_eq. }
      exists (with_all h (k_nr_tasks s3 - 1) (with_mem mem (with_tasks T3 s3))), al'. split; [exact E3|]. split; [|exact Ecpu].
      constructor; try done; cbn [with_all with_mem with_tasks k_nr_tasks].
      * intros q. rewrite V3. change (view s3) with (view s2). rewrite lookup_delete_is_Some, <- Hal2, Pa.
        assert (cur ∉ al'). { pose proof (ln_all_nodup _ _ _ Ln) as N. rewrite Pa in N. by apply NoDup_cons in N as [? _]. }
        set_solver.
      * change (k_nr_tasks s3) with (k_nr_tasks s). pose proof (Permutation_length Pa) as El. cbn [length] in El. lia.
    + rewrite decide_False by tauto. unfold sched_finish_switch. change (k_reap s2) with (k_reap s). rewrite Hre.
      exists s2, al. split; [done|]. split; [|exact Ecpu]. constructor; try done.
Qed.

Definition requeue (V : gmap Z task) (cur : Z) : gmap Z task :=
  if decide (requeued V cur) then alter (set_state TASK_RUNNABLE) cur V else V.

Definition next_task (rq : list Z) : Z := default idle_task (head rq).

Lemma alter_state (V : gmap Z task) p st q st' : is_Some (V !! p) →
  in_state (alter (set_state st) p V) q st' ↔ (q = p ∧ st = st') ∨ (q ≠ p ∧ in_state V q st').
Proof. intros [t Ht]. rewrite (alter_insert _ _ _ _ Ht), in_state_insert. done. Qed.

Lemma alter_context (V : gmap Z task) p a b q st : in_state (alter (set_context a b) p V) q st ↔ in_state V q st.
Proof.
  destruct (V !! p) as [t|] eqn:E.
  - rewrite (alter_insert _ _ _ _ E), in_state_insert. unfold in_state. destruct (decide (q = p)) as [->|]; [|naive_solver].
    rewrite E. naive_solver.
  - by rewrite alter_id by (intros ? ?; congruence).
Qed.

(** The states after a switch. *)
Lemma switched_state V cur next regs p st : is_Some (V !! next) →
  in_state (switched V cur next regs) p st ↔
  (p = next ∧ st = TASK_RUNNING) ∨ (p ≠ next ∧ in_state V p st ∧ ¬ (p = cur ∧ st = TASK_DEAD)).
Proof.
  intros Hn. unfold switched. destruct (decide (cur = next)) as [<-|Hne].
  { rewrite alter_state by done. naive_solver. }
  assert (∀ q st', in_state (alter (set_context (c_fs_base regs) (c_fpu regs)) cur (alter (set_state TASK_RUNNING) next V)) q st' ↔
    (q = next ∧ st' = TASK_RUNNING) ∨ (q ≠ next ∧ in_state V q st')) as HA.
  { intros q st'. rewrite alter_context, alter_state by done. naive_solver. }
  destruct (decide _) as [D|D].
  - assert (in_state V cur TASK_DEAD) as Dc by (apply HA in D as [[? _]|[_ ?]]; [done|done]).
    set (W := alter (set_context _ _) _ _) in *.
    assert (in_state (delete cur W) p st ↔ p ≠ cur ∧ in_state W p st) as ->.
    { unfold in_state. setoid_rewrite lookup_delete_Some. naive_solver. }
    rewrite HA. split; [|intros [[-> ->]|(N1 & I & N2)]].
    + intros [N [[-> ->]|[N1 I]]]; [by left|right]. split_and!; [done|done|]. by intros [-> _].
    + split; [congruence|by left].
    + split; [|by right]. intros ->. apply N2. split; [done|]. by eapply in_state_unique.
  - rewrite HA. assert (¬ in_state V cur TASK_DEAD) as Dc by (intros Dc; apply D, HA; by right).
    split; [intros [?|[? ?]]; [by left|right]|intros [?|(? & ? & _)]; [by left|by right]].
    split_and!; [done|done|]. by intros [-> ->].
Qed.

(** Everything but the states and the registers is left alone. *)
Lemma switched_lookup V cur next regs p t : switched V cur next regs !! p = Some t →
  ∃ u, V !! p = Some u ∧ t_wake_pending t = t_wake_pending u ∧ t_kstack t = t_kstack u ∧ t_space t = t_space u ∧
    t_need_die t = t_need_die u ∧ t_kstack_top t = t_kstack_top u ∧
    (p ≠ cur ∨ cur = next → t_fs_base t = t_fs_base u ∧ t_fpu t = t_fpu u) ∧
    (p = cur → cur ≠ next → t_fs_base t = c_fs_base regs ∧ t_fpu t = c_fpu regs) ∧ (p ≠ next → t_state t = t_state u).
Proof.
  assert (∀ (W : gmap Z task) q f v, alter f q W !! p = Some v → ∃ u, W !! p = Some u ∧ v = if decide (q = p) then f u else u) as HA.
  { intros W q f v. destruct (decide (q = p)) as [->|Hne]; [rewrite lookup_alter_eq|rewrite lookup_alter_ne by done; by intros ->; eexists].
    destruct (W !! p); [|done]. simpl. intros [= <-]. by eexists. }
  unfold switched. destruct (decide (cur = next)) as [<-|Hne].
  - intros H. destruct (HA _ _ _ _ H) as (u & Hu & ->). exists u. split; [done|]. destruct (decide (cur = p)); naive_solver.
  - intros H. assert (alter (set_context (c_fs_base regs) (c_fpu regs)) cur (alter (set_state TASK_RUNNING) next V) !! p = Some t) as H1.
    { destruct (decide _); [|done]. by apply lookup_delete_Some in H as [_ ?]. }
    destruct (HA _ _ _ _ H1) as (v & Hv & ->). destruct (HA _ _ _ _ Hv) as (u & Hu & ->). exists u. split; [done|].
    destruct (decide (cur = p)), (decide (next = p)); naive_solver.
Qed.

Lemma requeue_lookup V cur p t : requeue V cur !! p = Some t →
  ∃ u, V !! p = Some u ∧ t_wake_pending t = t_wake_pending u ∧ t_kstack t = t_kstack u ∧ t_space t = t_space u ∧
    t_need_die t = t_need_die u ∧ t_kstack_top t = t_kstack_top u ∧ t_fs_base t = t_fs_base u ∧ t_fpu t = t_fpu u ∧
    (p ≠ cur → t_state t = t_state u).
Proof.
  unfold requeue. destruct (decide _) as [[(v & Hv & _) _]|]; [|intros ->; eexists; naive_solver].
  destruct (decide (cur = p)) as [->|]; [rewrite lookup_alter_eq, Hv|rewrite lookup_alter_ne by done; intros ->; eexists; naive_solver].
  intros [= <-]. exists v. naive_solver.
Qed.

Lemma requeue_state V cur p st :
  in_state (requeue V cur) p st ↔ if decide (requeued V cur) then (p = cur ∧ st = TASK_RUNNABLE) ∨ (p ≠ cur ∧ in_state V p st) else in_state V p st.
Proof.
  unfold requeue. destruct (decide _) as [[R _]|]; [|done]. rewrite alter_state by (by eapply in_state_alive). naive_solver.
Qed.

(** A state in which [schedule_locked] may be called: the current task is
    running, or has just gone to sleep, exited or died. *)
Record ready (s : kern) (rq al : list Z) : Prop := Ready {
  rd_links : links s rq al;
  rd_flat : flat (view s) (k_current s) rq al (k_nr_tasks s);
  rd_stacks : stacks_ok (view s) (k_mem s);
  rd_cur : is_Some (view s !! k_current s);
  rd_not_queued : ¬ in_state (view s) (k_current s) TASK_RUNNABLE;
  rd_reap : k_reap s = None
}.

Lemma sched_ready s rq al : sched_ok s rq al → ready s rq al.
Proof.
  intros [Ln F St Cur Re Qu]. constructor; try done; [by eapply in_state_alive|].
  intros H. by pose proof (in_state_unique _ _ _ _ Cur H).
Qed.

(** What [schedule_locked] does: the queue, the tasks and the registers. *)
Record scheduled (s : kern) (rq : list Z) (s' : kern) : Prop := Scheduled {
  sd_current : k_current s' = next_task (queue_after (view s) (k_current s) rq);
  sd_view : view s' = switched (requeue (view s) (k_current s)) (k_current s) (k_current s') (k_cpu s);
  sd_cpu : k_current s' ≠ k_current s → ∀ t, view s !! k_current s' = Some t →
    k_cpu s' = Cpu (t_fs_base t) (t_fpu t) (t_space t) (t_kstack_top t);
  sd_cpu_same : k_current s' = k_current s → k_cpu s' = k_cpu s;
  sd_vars : same_vars s s'
}.

Lemma queue_nodup s rq al : ready s rq al → k_current s ∉ rq ∧ idle_task ∉ rq.
Proof.
  intros [Ln F _ _ N _]. split; intros H; apply (fl_rq _ _ _ _ _ F) in H as [? ?]; done.
Qed.

(** The invariant of the tasks after the switch. *)
Lemma flat_after s rq al al' nr next : ready s rq al →
  let V := requeue (view s) (k_current s) in let rq1 := queue_after (view s) (k_current s) rq in
  let V' := switched V (k_current s) next (k_cpu s) in
  next = next_task rq1 → (∀ p, p ∈ al' ↔ is_Some (V' !! p)) → nr = Z.of_nat (length al') →
  NoDup rq1 → is_Some (V !! next) → flat V' next (tail rq1) al' nr ∧ in_state V' next TASK_RUNNING.
Proof.
  intros R V rq1 V' En Hal Hnr Nq Hn. pose proof R as [Ln F St Cu NR Re]. set (cur := k_current s) in *.
  assert (∀ p st, in_state V' p st ↔ (p = next ∧ st = TASK_RUNNING) ∨ (p ≠ next ∧ in_state V p st ∧ ¬ (p = cur ∧ st = TASK_DEAD))) as HS.
  { intros p st. by apply switched_state. }
  assert (∀ p, p ∈ rq1 ↔ p ≠ idle_task ∧ in_state V p TASK_RUNNABLE) as Hq1.
  { intros p. unfold rq1, queue_after, V. rewrite requeue_state. pose proof (fl_rq _ _ _ _ _ F p) as Hp.
    destruct (decide (requeued _ _)) as [[Rr Ri]|_]; [|done]. rewrite elem_of_app, list_elem_of_singleton, Hp.
    destruct (decide (p = cur)) as [->|]; [|naive_solver]. naive_solver. }
  assert (∀ p, p ∈ tail rq1 ↔ p ∈ rq1 ∧ p ≠ next) as Htl.
  { intros p. rewrite En. unfold next_task. destruct rq1 as [|x l]; simpl; [set_solver|].
    apply NoDup_cons in Nq as [Nx _]. set_solver. }
  assert (∀ p, in_state V p TASK_RUNNING → p = idle_task) as Hrun.
  { intros p. unfold V. rewrite requeue_state. destruct (decide (requeued _ _)) as [_|NRq].
    - intros [[_ ?]|[Hne H]]; [done|]. destruct (fl_running _ _ _ _ _ F p H); done.
    - intros H. destruct (fl_running _ _ _ _ _ F p H) as [->|]; [|done]. destruct (decide (cur = idle_task)); [done|].
      exfalso. by apply NRq. }
  assert (∀ p st, st ≠ TASK_RUNNABLE → in_state V p st → in_state (view s) p st) as Hback.
  { intros p st Hst. unfold V. rewrite requeue_state. destruct (decide _); [|done]. naive_solver. }
  assert (in_state V idle_task TASK_RUNNABLE ∨ in_state V idle_task TASK_RUNNING) as Hidle.
  { pose proof (fl_idle _ _ _ _ _ F) as HI. unfold V. rewrite !requeue_state. destruct (decide (requeued _ _)) as [[_ Ni]|]; [|done].
    destruct HI; [left|right]; right; done. }
  assert (in_state V' next TASK_RUNNING) as Hcur by (apply HS; by left).
  split; [|done]. constructor; try done.
  - intros p. rewrite Htl, HS, Hq1. split.
    + intros [[? ?] ?]. split; [done|]. right. split_and!; [done|done|by intros [_ ?]].
    + intros [? [[? ?]|(? & ? & _)]]; [done|]. done.
  - intros p Hp. apply HS in Hp as [[-> _]|(_ & Hp & _)]; [by left|]. right. by apply Hrun.
  - destruct (decide (next = idle_task)) as [->|Hne]; [by right|]. destruct Hidle as [HI|HI]; [left|right]; apply HS; right;
      (split; [done|split; [done|by intros [_ ?]]]).
  - intros p t Ht Hs. assert (in_state V' p TASK_SLEEPING) as Hp by (by exists t). apply HS in Hp as [[_ ?]|(Hne & Hp & _)]; [done|].
    destruct (switched_lookup _ _ _ _ _ _ Ht) as (u & Hu & Ew & _). destruct (requeue_lookup _ _ _ _ Hu) as (v & Hv & Ew' & _).
    rewrite Ew, Ew'. apply (fl_sleep _ _ _ _ _ F p v Hv). apply Hback in Hp as (w & Hw & Hws); [|done]. congruence.
  - intros p t Ht. destruct (switched_lookup _ _ _ _ _ _ Ht) as (u & Hu & Ew & _). destruct (requeue_lookup _ _ _ _ Hu) as (v & Hv & Ew' & _).
    rewrite Ew, Ew'. by apply (fl_wake _ _ _ _ _ F p v).
  - intros p Hp. exfalso. apply HS in Hp as [[_ ?]|(Hne & Hp & Nd)]; [done|]. apply Hback in Hp; [|done].
    destruct (fl_dead _ _ _ _ _ F p Hp) as [-> _]. by apply Nd.
Qed.

Lemma schedule_spec s rq al : ready s rq al →
  ∃ s' al', schedule_locked s = Ok s' ∧ sched_ok s' (tail (queue_after (view s) (k_current s) rq)) al' ∧ scheduled s rq s'.
Proof.
  intros R. pose proof R as [Ln F St [tc Hc] NR Re]. destruct (queue_nodup _ _ _ R) as [Nc Ni].
  unfold schedule_locked. destruct (get_spec _ _ _ Hc) as (u & Eu & Su). rewrite Eu. cbn [mbind outcome_bind].
  assert (t_state u = t_state tc) as Est by (rewrite <- Su; by destruct u). rewrite Est. clear Eu Su Est u.
  destruct (queue_push_spec s rq al tc Ln Hc Nc) as (T1 & h1 & l1 & E1 & L1 & V1). rewrite E1. cbn [mbind outcome_bind].
  set (s1 := with_runq h1 l1 (with_tasks T1 s)) in *. set (rq1 := queue_after _ _ _) in *.
  assert (view s1 = requeue (view s) (k_current s)) as V1'.
  { rewrite V1. unfold requeue. rewrite (alter_insert _ _ _ _ Hc). by repeat case_decide. }
  pose proof (runq_pop_spec s1 rq1 al L1) as P.
  assert (∃ T2 h2 l2, let s2 := with_runq h2 l2 (with_tasks T2 s1) in
    runq_pop s1 = Ok (head rq1, s2) ∧ links s2 (tail rq1) al ∧ view s2 = view s1) as (T2 & h2 & l2 & E2 & L2 & V2).
  { destruct rq1 as [|p rq2].
    - exists (k_tasks s1), (k_runq_head s1), (k_runq_tail s1). cbn zeta. rewrite P. done.
    - destruct P as (T2 & E2 & L2 & V2). exists T2, (head rq2), (last rq2). done. }
  rewrite E2. cbn [mbind outcome_bind]. change (match head rq1 with Some p => p | None => idle_task end) with (next_task rq1).
  set (s2 := with_runq h2 l2 (with_tasks T2 s1)) in *. set (next := next_task rq1).
  assert (view s2 = requeue (view s) (k_current s)) as V2' by congruence.
  assert (∀ p, is_Some (view s2 !! p) ↔ is_Some (view s !! p)) as Hdom.
  { intros p. rewrite V2'. unfold requeue. case_decide; [apply lookup_alter_is_Some|done]. }
  assert (is_Some (view s2 !! next)) as [tn Hn].
  { apply Hdom. unfold next, next_task. destruct (head rq1) as [p|] eqn:Ep; simpl.
    - assert (p ∈ rq1) as Hp by (destruct rq1; [done|]; simplify_eq/=; set_solver).
      destruct (chain_lookup _ _ _ _ p (ln_rq _ _ _ L1) Hp) as [v Hv]. apply Hdom. rewrite V2. rewrite view_lookup, Hv. by eexists.
    - destruct (fl_idle _ _ _ _ _ F) as [H|H]; by eapply in_state_alive. }
  assert (is_Some (view s2 !! k_current s)) as [tc2 Hc2] by (apply Hdom; by exists tc).
  assert (t_state tc2 = TASK_DEAD → in_state (view s) (k_current s) TASK_DEAD) as Hd2.
  { intros D. assert (in_state (view s2) (k_current s) TASK_DEAD) as Hd by (by exists tc2). rewrite V2', requeue_state in Hd.
    case_decide; [|done]. naive_solver. }
  destruct (switch_spec s2 (tail rq1) al next tc2 tn) as (s' & al' & E3 & A & Ecpu); try done.
  { intros p. rewrite Hdom. apply (fl_all _ _ _ _ _ F). }
  { exact (fl_nr _ _ _ _ _ F). }
  { eapply stacks_ext; [|exact St]. rewrite V2'. unfold requeue. case_decide; [|done]. rewrite (alter_insert _ _ _ _ Hc), fmap_insert.
    apply insert_id. by rewrite lookup_fmap, Hc. }
  { intros D. apply Hd2 in D. destruct (fl_dead _ _ _ _ _ F _ D) as [_ Hb]. change (k_current s2) with (k_current s).
    assert (k_current s ≠ idle_task) as Hi.
    { intros Ei. rewrite Ei in D. destruct (fl_idle _ _ _ _ _ F) as [H|H]; by pose proof (in_state_unique _ _ _ _ D H). }
    assert (rq1 = rq) as Eq.
    { unfold rq1, queue_after. rewrite decide_False; [done|]. intros [Rr _]. by pose proof (in_state_unique _ _ _ _ D Rr). }
    unfold next. rewrite Eq. split_and!; [intros H; apply Nc; by destruct rq; [|right]| |done|done].
    unfold next_task. destruct rq as [|x rq]; [done|]. simpl. intros Ex. apply Nc. rewrite Ex. by left. }
  destruct A as [A1 A2 A3 A4 A5 A6 A7 A8 A9]. change (k_current s2) with (k_current s) in *. change (k_cpu s2) with (k_cpu s) in *.
  exists s', al'. split; [exact E3|]. split.
  - destruct (flat_after s rq al al' (k_nr_tasks s') next R) as [F' C']; try done.
    + intros p. by rewrite A2, A5, V2'.
    + apply (ln_rq_nodup _ _ _ L1).
    + rewrite <- V2'. by exists tn.
    + rewrite <- V2', <- A5 in F', C'. constructor; try done; by rewrite A6.
  - constructor; try done.
    + by rewrite A5, V2', A6.
    + intros Hne t Ht. rewrite Ecpu, decide_False by congruence. rewrite A6 in Ht. rewrite V2' in Hn.
      destruct (requeue_lookup _ _ _ _ Hn) as (v & Hv & ? & ? & E4 & ? & E5 & E6 & E7 & _). assert (v = t) as -> by congruence. congruence.
    + intros Heq. by rewrite Ecpu, decide_True by congruence.
Qed.
