(* ===== verification/SchedSystem.v ===== *)
(** * What the scheduler promises: round robin, contexts, kernel stacks

    The clients of sched.c (system calls, interrupts, kernel threads) are
    events; the current task is always the one that runs. *)

From S2P Require Import Prelude Pmm PmmSpec PmmAlloc PmmInit PmmSystem Sched SchedSpec.

(** ** Events *)

Inductive event :=
| Yield                     (* sched_yield *)
| Tick (now : Z)            (* the timer interrupt *)
| Sleep                     (* sched_sleep_current *)
| SleepTimed (deadline : Z) (* the locked part of sched_sleep_timed_interruptible *)
| SleepResult (slept : bool)
| Wake (p : Z)
| Consume (p : Z)
| Exit (status : Z)
| ExitDetached
| Reap (p : Z)
| Create                    (* sched_create_kernel_thread *)
| Condemn (p : Z)           (* p->flags |= TIF_NEED_DIE *)
| Compute (fs fpu : Z).     (* the current task loads registers *)

Definition exec (e : event) (s : kern) : outcome kern :=
  match e with
  | Yield => sched_yield s
  | Tick now => sched_tick now s
  | Sleep => sched_sleep_current s
  | SleepTimed deadline => '(_, s) ← sleep_timed_section deadline s; Ok s
  | SleepResult slept => '(_, s) ← sleep_timed_result slept s; Ok s
  | Wake p => sched_wake p s
  | Consume p => sched_consume_wake_pending p s
  | Exit status => sched_exit_current status s
  | ExitDetached => sched_exit_detached s
  | Reap p => sched_reap_task p s
  | Create => '(_, _, s) ← sched_create_kernel_thread s; Ok s
  | Condemn p => upd p (set_need_die true) s
  | Compute fs fpu => Ok (with_cpu (Cpu fs fpu (c_cr3 (k_cpu s)) (c_rsp0 (k_cpu s))) s)
  end.

Fixpoint run (es : list event) (s : kern) : outcome kern :=
  match es with [] => Ok s | e :: es => s ← exec e s; run es s end.

(** What the callers of sched.c guarantee: a task that is woken is alive, the
    idle task never blocks or exits and nobody wakes it, a task that is
    reaped is a zombie from the heap, and only heap tasks exit detached. *)
Definition allowed (e : event) (s : kern) : Prop :=
  match e with
  | Yield | Tick _ | Create | Compute _ _ | SleepResult _ => True
  | Sleep | SleepTimed _ | Exit _ => k_current s ≠ idle_task
  | ExitDetached => k_current s ≠ idle_task ∧ k_current s ≠ boot_task
  | Wake p => p ≠ idle_task ∧ is_Some (k_tasks s !! p)
  | Consume p | Condemn p => is_Some (k_tasks s !! p)
  | Reap p => in_state (k_tasks s) p TASK_ZOMBIE ∧ p ≠ boot_task
  end.

Fixpoint all_allowed (es : list event) (s : kern) : Prop :=
  match es with
  | [] => True
  | e :: es => allowed e s ∧ match exec e s with Ok s => all_allowed es s | _ => True end
  end.

(** ** How the queue and the contexts move *)

(** Tasks join at the back; a switch takes the first one. *)
Definition moved (s : kern) (rq : list Z) (s' : kern) (rq' : list Z) (switch : bool) : Prop :=
  ∃ new, if switch then k_current s' = next_task (rq ++ new) ∧ rq' = tail (rq ++ new)
         else k_current s' = k_current s ∧ rq' = rq ++ new.

(** A task that is not running and will run again, with its saved registers. *)
Definition parked (V : gmap Z task) (p fs fpu space : Z) : Prop :=
  ∃ t, V !! p = Some t ∧ (t_state t = TASK_RUNNABLE ∨ t_state t = TASK_SLEEPING) ∧
    t_fs_base t = fs ∧ t_fpu t = fpu ∧ t_space t = space.

Definition resumed (s : kern) (p fs fpu space : Z) : Prop :=
  k_current s = p ∧ c_fs_base (k_cpu s) = fs ∧ c_fpu (k_cpu s) = fpu ∧ c_cr3 (k_cpu s) = space.

Definition contexts_kept (s s' : kern) : Prop :=
  ∀ p fs fpu space, p ≠ k_current s → p ≠ idle_task → parked (view s) p fs fpu space →
    parked (view s') p fs fpu space ∧ k_current s' ≠ p ∨ resumed s' p fs fpu space.

(** Tasks other than the current one stay awake and keep their wake credits;
    so does the current one when [keep] is set.  [touch] is the task whose
    credits the event is about. *)
Definition awake (t : task) : Prop := t_state t = TASK_RUNNABLE ∨ t_state t = TASK_RUNNING.

Definition tasks_kept (s s' : kern) (keep : bool) (touch : tptr) : Prop :=
  ∀ p t, view s !! p = Some t → t_state t ≠ TASK_ZOMBIE → p ≠ k_current s ∨ keep = true →
    ∃ u, view s' !! p = Some u ∧ (awake t → awake u) ∧ t_state u ≠ TASK_ZOMBIE ∧
      (t_wake_pending t ≤ t_wake_pending u ∨ touch = Some p).

Record stepped (s : kern) (rq : list Z) (s' : kern) (switch keep : bool) (touch : tptr) : Prop := Stepped {
  sp_ok : ∃ rq' al', sched_ok s' rq' al' ∧ moved s rq s' rq' switch;
  sp_kept : contexts_kept s s';
  sp_saved : ∀ t, view s !! k_current s = Some t → k_current s' ≠ k_current s → k_current s ≠ idle_task →
    parked (view s') (k_current s) (c_fs_base (k_cpu s)) (c_fpu (k_cpu s)) (t_space t) ∨
    in_state (view s') (k_current s) TASK_ZOMBIE ∨ view s' !! k_current s = None;
  sp_tasks : tasks_kept s s' keep touch
}.

(** A change of one task's fields that the invariant does not mention. *)
Lemma ok_upd s rq al p f t : keeps_links f → sched_ok s rq al → view s !! p = Some t →
  t_state (f t) = t_state t → t_kstack (f t) = t_kstack t → 0 ≤ t_wake_pending (f t) < 2 ^ 32 →
  (t_state t = TASK_SLEEPING → t_wake_pending (f t) = 0) →
  ∃ s', upd p f s = Ok s' ∧ sched_ok s' rq al ∧ view s' = <[p := f t]> (view s) ∧ k_current s' = k_current s ∧ k_cpu s' = k_cpu s.
Proof.
  intros Hf [Ln F St Cu Re Qu] Ht E1 E2 Hw Hs. destruct (upd_spec s rq al p f t Hf Ln Ht) as (T & E & L' & V').
  exists (with_tasks T s). split; [done|]. split; [|done].
  assert (∀ q st, in_state (<[p := f t]> (view s)) q st ↔ in_state (view s) q st) as HS.
  { intros q st. rewrite in_state_insert, E1. split.
    - intros [[-> <-]|[_ ?]]; [by exists t|done].
    - intros H. destruct (decide (q = p)) as [->|]; [left|by right]. split; [done|]. destruct H as (u & Hu & <-). congruence. }
  constructor; cbn [with_tasks k_current k_nr_tasks k_mem k_reap k_quantum]; rewrite ?V'; try done.
  - destruct F as [F1 F2 F3 F4 F5 F6 F7 F8]. constructor; setoid_rewrite HS || idtac; try done.
    + intros q. rewrite lookup_insert_is_Some, F2. destruct (decide (p = q)) as [<-|]; [rewrite Ht|]; naive_solver.
    + intros q u. rewrite lookup_insert_Some. intros [[<- <-]|[_ Hu]]; [rewrite E1; done|by apply F6 with q].
    + intros q u. rewrite lookup_insert_Some. intros [[<- <-]|[_ Hu]]; [done|by apply F7 with q].
  - eapply stacks_ext; [|exact St]. rewrite fmap_insert, E2. apply insert_id. by rewrite lookup_fmap, Ht.
  - by apply HS.
Qed.

(** Such a change keeps the contexts when it does not touch them. *)
Lemma kept_upd s s' p f t : view s !! p = Some t → view s' = <[p := f t]> (view s) →
  k_current s' = k_current s → t_state (f t) = t_state t ∨ t_state (f t) = TASK_RUNNABLE ∧ t_state t = TASK_SLEEPING →
  t_fs_base (f t) = t_fs_base t → t_fpu (f t) = t_fpu t → t_space (f t) = t_space t → contexts_kept s s'.
Proof.
  intros Ht V' Cu Es E1 E2 E3 q fs fpu sp Hq _ (u & Hu & Hs & <- & <- & <-). left. rewrite Cu. split; [|done].
  unfold parked. rewrite V'. destruct (decide (q = p)) as [->|Hne].
  - assert (u = t) as -> by congruence. exists (f t). rewrite lookup_insert_eq, E1, E2, E3. split_and!; try done. destruct Es as [->|[-> _]]; [done|by left].
  - exists u. by rewrite lookup_insert_ne.
Qed.

Lemma stepped_same s rq al s' rq' touch : sched_ok s' rq' al → (∃ new, rq' = rq ++ new) → k_current s' = k_current s →
  contexts_kept s s' → tasks_kept s s' true touch → stepped s rq s' false true touch.
Proof.
  intros O [new ->] Cu K Tk. constructor; [|done|by intros; congruence|done]. exists (rq ++ new), al. split; [done|]. by exists new.
Qed.

Lemma tasks_refl s touch : tasks_kept s s true touch.
Proof. intros p t Ht Hz _. exists t. split_and!; try done. left. lia. Qed.

Lemma tasks_view s s' touch : view s' = view s → tasks_kept s s' true touch.
Proof. intros E p t Ht Hz _. exists t. rewrite E. split_and!; try done. left. lia. Qed.

Lemma tasks_upd s s' p f t touch : view s !! p = Some t → view s' = <[p := f t]> (view s) →
  t_state (f t) = t_state t ∨ t_state (f t) = TASK_RUNNABLE →
  t_wake_pending t ≤ t_wake_pending (f t) ∨ touch = Some p → tasks_kept s s' true touch.
Proof.
  intros Ht V' Es Hw q u Hu Hz _. rewrite V'. destruct (decide (q = p)) as [->|Hne].
  - assert (u = t) as -> by congruence. exists (f t). rewrite lookup_insert_eq. split_and!; [done| |destruct Es; congruence|done].
    unfold awake. destruct Es as [->| ->]; [done|by left].
  - exists u. rewrite lookup_insert_ne by done. split_and!; try done. left. lia.
Qed.

(** A change of the current task before [schedule_locked], and the switch. *)
Lemma stepped_schedule s rq al s1 new keep :
  sched_ok s rq al → ready s1 (rq ++ new) al → k_current s1 = k_current s → k_cpu s1 = k_cpu s →
  (∀ p t, p ≠ k_current s → view s !! p = Some t → ∃ u, view s1 !! p = Some u ∧
     (t_state u = t_state t ∨ t_state u = TASK_RUNNABLE ∧ t_state t = TASK_SLEEPING) ∧
     t_fs_base u = t_fs_base t ∧ t_fpu u = t_fpu t ∧ t_space u = t_space t ∧ t_wake_pending u = t_wake_pending t) →
  (∀ t, view s !! k_current s = Some t → ∃ u, view s1 !! k_current s = Some u ∧ t_space u = t_space t ∧
     (keep = true → t_state u = t_state t ∧ t_wake_pending u = t_wake_pending t)) →
  ∃ s', schedule_locked s1 = Ok s' ∧ stepped s rq s' true keep None.
Proof.
  intros O R Cu Cp Hoth Hcur. destruct (schedule_spec s1 (rq ++ new) al R) as (s' & al' & E & O' & D). exists s'. split; [done|].
  destruct D as [D1 D2 D3 D4 D5]. set (V1 := view s1) in *. rewrite Cu in *. set (cur := k_current s) in *. rewrite Cp in *.
  assert (∃ new', queue_after V1 cur (rq ++ new) = rq ++ new') as [new' Eq].
  { unfold queue_after. destruct (decide (requeued V1 cur)); [exists (new ++ [cur]); by rewrite app_assoc|by exists new]. }
  rewrite Eq in *.
  assert (∀ p, is_Some (V1 !! p) → is_Some (requeue V1 cur !! p)) as Hre.
  { intros p Hp. unfold requeue. case_decide; [by apply lookup_alter_is_Some|done]. }
  assert (is_Some (V1 !! k_current s')) as Hnext.
  { pose proof (so_cur _ _ _ O') as C. rewrite D2 in C. destruct C as (t & Ht & _).
    destruct (switched_lookup _ _ _ _ _ _ Ht) as (u & Hu & _). destruct (requeue_lookup _ _ _ _ Hu) as (v & Hv & _). by exists v. }
  constructor.
  - exists (tail (rq ++ new')), al'. split; [done|]. by exists new'.
  - intros p fs fpu sp Hp Hi (t & Ht & Hs & <- & <- & <-). change (k_current s) with cur in Hp. destruct (Hoth p t Hp Ht) as (u & Hu & Hsu & E1 & E2 & E3 & _).
    destruct (decide (k_current s' = p)) as [Ep|Np]; [right|left].
    + rewrite <- E1, <- E2, <- E3. split; [done|]. rewrite <- Ep in Hu. by rewrite (D3 ltac:(congruence) u Hu).
    + split; [|done]. assert (is_Some (view s' !! p)) as [v Hv].
      { rewrite D2. assert (in_state (requeue V1 cur) p (t_state u)) as HI.
        { rewrite requeue_state. case_decide; [right; split; [done|by exists u]|by exists u]. }
        eapply in_state_alive. apply switched_state; [by apply Hre|]. right. split_and!; [congruence|exact HI|by intros [? _]]. }
      exists v. split; [done|]. rewrite D2 in Hv. destruct (switched_lookup _ _ _ _ _ _ Hv) as (w & Hw & _ & _ & F3 & _ & _ & F1 & _ & F4).
      destruct (requeue_lookup _ _ _ _ Hw) as (x & Hx & _ & _ & G3 & _ & _ & G1 & G2 & G4).
      destruct (F1 (or_introl Hp)) as [F1a F1b]. assert (x = u) as -> by congruence.
      rewrite F4 by congruence. rewrite G4 by done. split_and!; [|congruence|congruence|congruence].
      destruct Hsu as [->|[-> _]]; [done|by left].
  - intros t Ht Hne Hi. change (k_current s) with cur in Ht, Hne, Hi |- *. destruct (Hcur t Ht) as (u & Hu & Eu & _). destruct (view s' !! cur) as [v|] eqn:Hv; [|by right; right].
    rewrite D2 in Hv. destruct (switched_lookup _ _ _ _ _ _ Hv) as (w & Hw & _ & _ & F3 & _ & _ & _ & F2 & F4).
    destruct (requeue_lookup _ _ _ _ Hw) as (x & Hx & _ & _ & G3 & _). assert (x = u) as -> by congruence.
    destruct (F2 eq_refl ltac:(congruence)) as [F2a F2b].
    assert (in_state (view s') cur (t_state v)) as Sv by (exists v; by rewrite D2). pose proof (so_flat _ _ _ O') as F.
    destruct (t_state v) eqn:Es.
    + left. exists v. rewrite D2. split_and!; try done; [by left|congruence].
    + exfalso. by destruct (fl_running _ _ _ _ _ F cur Sv) as [?|?].
    + left. exists v. rewrite D2. split_and!; try done; [by right|congruence].
    + right. left. done.
    + exfalso. by destruct (fl_dead _ _ _ _ _ F cur Sv) as [? _].
  - intros p t Ht Hz Hk.
    assert (∃ u, V1 !! p = Some u ∧ (t_state u = t_state t ∨ t_state u = TASK_RUNNABLE) ∧ t_wake_pending u = t_wake_pending t) as (u & Hu & Su & Wu).
    { destruct (decide (p = cur)) as [->|Hne].
      - destruct Hk as [?|Hk]; [done|]. destruct (Hcur t Ht) as (u & Hu & _ & Hst). exists u. destruct (Hst Hk). auto.
      - destruct (Hoth p t Hne Ht) as (u & Hu & Su & _ & _ & _ & Wu). exists u. split_and!; [done| |done]. naive_solver. }
    assert (t_state u ≠ TASK_ZOMBIE ∧ t_state u ≠ TASK_DEAD) as [Nz Nd].
    { destruct Su as [->| ->]; [|done]. split; [done|]. intros Hd. assert (in_state (view s) p TASK_DEAD) as HD by (by exists t).
      destruct (fl_dead _ _ _ _ _ (so_flat _ _ _ O) p HD) as [-> _]. by pose proof (in_state_unique _ _ _ _ HD (so_cur _ _ _ O)). }
    assert (∃ v, requeue V1 cur !! p = Some v ∧ t_wake_pending v = t_wake_pending u ∧ (t_state v = t_state u ∨ t_state v = TASK_RUNNABLE)) as (v & Hv & Wv & Sv).
    { destruct (Hre p ltac:(by exists u)) as [v Hv]. exists v. split; [done|]. unfold requeue in Hv. case_decide.
      - destruct (decide (cur = p)) as [->|]; [rewrite lookup_alter_eq, Hu in Hv|rewrite lookup_alter_ne, Hu in Hv by done]; simplify_eq/=; auto.
      - assert (v = u) as -> by congruence. auto. }
    assert (is_Some (view s' !! p)) as [w Hw].
    { rewrite D2. destruct (decide (p = k_current s')) as [->|Hne].
      - eapply (in_state_alive _ _ TASK_RUNNING), switched_state; [by apply Hre|]. by left.
      - eapply (in_state_alive _ _ (t_state v)), switched_state; [by apply Hre|]. right. split_and!; [done|by exists v|].
        intros [_ Hd]. destruct Sv; congruence. }
    exists w. split; [done|]. rewrite D2 in Hw. pose proof (switched_lookup _ _ _ _ _ _ Hw) as (v' & Hv' & Ww & _ & _ & _ & _ & _ & _ & Sw).
    assert (v' = v) as -> by congruence. assert (t_state w = t_state v ∨ t_state w = TASK_RUNNING) as Sw'.
    { destruct (decide (p = k_current s')) as [->|Hne]; [right|left; by apply Sw].
      assert (in_state (view s') (k_current s') (t_state w)) as Hin by (exists w; by rewrite D2).
      by pose proof (in_state_unique _ _ _ _ Hin (so_cur _ _ _ O')). }
    unfold awake. split; [|split; [|left; lia]].
    + intros Ha. destruct Sw' as [->| ->]; [|by right]. destruct Sv as [->| ->]; [|by left]. destruct Su as [->| ->]; [done|by left].
    + destruct Sw' as [->| ->]; [|done]. destruct Sv as [->| ->]; done.
Qed.

Lemma stepped_weaken s rq s' b k t k' t' :
  (k' = true → k = true) → (∀ p, t = Some p → t' = Some p ∨ k' = false ∧ p = k_current s) →
  stepped s rq s' b k t → stepped s rq s' b k' t'.
Proof.
  intros Hk Ht [H1 H2 H3 H4]. constructor; [done..|]. intros p u Hu Hz Hp. destruct (H4 p u Hu Hz) as (v & Hv & Ha & Nz & Hw).
  { destruct Hp as [?|Hp]; [by left|right; auto]. }
  exists v. split_and!; try done. destruct Hw as [?|Et]; [by left|]. destruct (Ht p Et) as [?|[Ek Ep]]; [by right|].
  destruct Hp as [?|?]; congruence.
Qed.

(** ** The entry points *)

Lemma step_yield s rq al : sched_ok s rq al → ∃ s', schedule_locked s = Ok s' ∧ stepped s rq s' true true None.
Proof.
  intros O. apply (stepped_schedule s rq al s [] true); try done.
  - rewrite app_nil_r. by apply sched_ready.
  - intros p t _ Ht. exists t. split_and!; try done. by left.
  - intros t Ht. by exists t.
Qed.

(** The current task stops running. *)
Lemma step_leave s rq al f t st :
  keeps_links f → sched_ok s rq al → view s !! k_current s = Some t → k_current s ≠ idle_task →
  t_state (f t) = st → st = TASK_SLEEPING ∧ t_wake_pending t = 0 ∨ st = TASK_ZOMBIE ∨ st = TASK_DEAD ∧ k_current s ≠ boot_task →
  t_wake_pending (f t) = t_wake_pending t → t_kstack (f t) = t_kstack t → t_space (f t) = t_space t →
  ∃ s1 s', upd (k_current s) f s = Ok s1 ∧ schedule_locked s1 = Ok s' ∧ stepped s rq s' true false None ∧
    (st ≠ TASK_DEAD → in_state (view s') (k_current s) st).
Proof.
  intros Hf O Ht Hi Es Hst Ew Ek Esp. pose proof O as [Ln F St Cu Re Qu].
  destruct (upd_spec s rq al (k_current s) f t Hf Ln Ht) as (T & E & L' & V'). set (s1 := with_tasks T s) in *.
  assert (∀ q st', in_state (view s1) q st' ↔ (q = k_current s ∧ st = st') ∨ (q ≠ k_current s ∧ in_state (view s) q st')) as HS.
  { intros q st'. by rewrite V', in_state_insert, Es. }
  assert (st ≠ TASK_RUNNABLE ∧ st ≠ TASK_RUNNING) as [Nr1 Nr2] by (destruct Hst as [[-> _]|[->|[-> _]]]; done).
  assert (ready s1 rq al) as R.
  { constructor; try done.
    - destruct F as [F1 F2 F3 F4 F5 F6 F7 F8]. constructor; try done; cbn [s1 with_tasks k_current].
      + intros p. rewrite F1, HS. split.
        * intros [? H]. split; [done|]. right. split; [|done]. intros ->. by pose proof (in_state_unique _ _ _ _ Cu H).
        * intros [? [[_ ?]|[_ ?]]]; done.
      + intros p. rewrite F2, V', lookup_insert_is_Some. destruct (decide (k_current s = p)) as [<-|]; [rewrite Ht|]; naive_solver.
      + intros p. rewrite HS. intros [[_ ?]|[_ ?]]; [done|by apply F4].
      + destruct F5 as [H|H]; [left|right]; apply HS; right; done.
      + intros p u Hu Hs. rewrite V' in Hu. apply lookup_insert_Some in Hu as [[<- <-]|[_ Hu]]; [|by apply F6 with p].
        rewrite Ew. rewrite Es in Hs. destruct Hst as [[_ ?]|[?|[? _]]]; [done|congruence|congruence].
      + intros p u Hu. rewrite V' in Hu. apply lookup_insert_Some in Hu as [[<- <-]|[_ Hu]]; [rewrite Ew|]; by eapply F7.
      + intros p. rewrite HS. intros [[-> ->]|[Hne H]]; [|destruct (F8 p H) as [? _]; done]. split; [done|].
        destruct Hst as [[? _]|[?|[_ ?]]]; done.
    - eapply stacks_ext; [|exact St]. rewrite V', fmap_insert, Ek. apply insert_id. by rewrite lookup_fmap, Ht.
    - exists (f t). rewrite V'. apply lookup_insert_eq.
    - rewrite HS. intros [[_ ?]|[? _]]; done. }
  destruct (stepped_schedule s rq al s1 [] false) as (s' & E' & Sp); try done.
  - by rewrite app_nil_r.
  - intros p u Hp Hu. exists u. rewrite V', lookup_insert_ne by done. split_and!; try done. by left.
  - intros u Hu. exists (f t). rewrite V', lookup_insert_eq. split; [done|]. split; [congruence|done].
  - exists s1, s'. split_and!; try done. intros Nd. destruct (schedule_spec s1 rq al R) as (s2 & al' & E2 & O2 & [D1 D2 _ _ _]).
    assert (s2 = s') as -> by congruence. change (k_current s1) with (k_current s) in *.
    assert (in_state (requeue (view s1) (k_current s)) (k_current s) st) as Hre.
    { rewrite requeue_state. case_decide as Hq; [|apply HS; by left]. destruct Hq as [Hq _]. apply HS in Hq as [[_ ?]|[? _]]; done. }
    rewrite D2. destruct (decide (k_current s' = k_current s)) as [Ec|Nc].
    + exfalso. pose proof (queue_nodup _ _ _ R) as [Nq Nid]. assert (queue_after (view s1) (k_current s) rq = rq) as Eq.
      { unfold queue_after. rewrite decide_False; [done|]. intros [Hq _]. apply HS in Hq as [[_ ?]|[? _]]; done. }
      rewrite Eq in D1. unfold next_task in D1. destruct rq as [|x rq]; simpl in D1; [congruence|]. apply Nq. apply elem_of_cons. left. change (k_current s1) with (k_current s). congruence.
    + apply switched_state; [|right; split_and!; [done|done|by intros [_ ?]]].
      pose proof (so_cur _ _ _ O2) as (w & Hw & _). rewrite D2 in Hw. destruct (switched_lookup _ _ _ _ _ _ Hw) as (v & Hv & _). by exists v.
Qed.

(** A change the invariant does not see, as a step. *)
Lemma step_upd s rq al p f t touch : keeps_links f → sched_ok s rq al → view s !! p = Some t →
  t_state (f t) = t_state t → t_kstack (f t) = t_kstack t → 0 ≤ t_wake_pending (f t) < 2 ^ 32 →
  (t_state t = TASK_SLEEPING → t_wake_pending (f t) = 0) →
  t_fs_base (f t) = t_fs_base t → t_fpu (f t) = t_fpu t → t_space (f t) = t_space t →
  t_wake_pending t ≤ t_wake_pending (f t) ∨ touch = Some p →
  ∃ s', upd p f s = Ok s' ∧ stepped s rq s' false true touch ∧ sched_ok s' rq al ∧ view s' = <[p := f t]> (view s) ∧ k_current s' = k_current s.
Proof.
  intros Hf O Ht E1 E2 Hw Hs E3 E4 E5 Et. destruct (ok_upd s rq al p f t Hf O Ht E1 E2 Hw Hs) as (s' & E & O' & V' & Cu & Cp).
  exists s'. split_and!; try done. eapply stepped_same; [done|exists []; by rewrite app_nil_r|done| |].
  - eapply kept_upd; try done. by left.
  - eapply tasks_upd; try done. by left.
Qed.

Lemma cur_view s rq al : sched_ok s rq al → ∃ t u, view s !! k_current s = Some t ∧ t_state t = TASK_RUNNING ∧
  0 ≤ t_wake_pending t < 2 ^ 32 ∧ get (k_current s) s = Ok u ∧ strip u = t ∧ t_wake_pending u = t_wake_pending t.
Proof.
  intros O. destruct (so_cur _ _ _ O) as (t & Ht & Hs). destruct (get_spec _ _ _ Ht) as (u & Eu & Su).
  exists t, u. split_and!; try done; [by apply (fl_wake _ _ _ _ _ (so_flat _ _ _ O) _ _ Ht)..|]. rewrite <- Su. by destruct u.
Qed.

Lemma step_sleep s rq al : sched_ok s rq al → k_current s ≠ idle_task →
  ∃ s' b, sched_sleep_current s = Ok s' ∧ stepped s rq s' b false None.
Proof.
  intros O Hi. destruct (cur_view _ _ _ O) as (t & u & Ht & Hs & Hw & Eu & Su & Ew). unfold sched_sleep_current. rewrite Eu.
  cbn [mbind outcome_bind]. rewrite Ew. destruct (Z.gtb_spec (t_wake_pending t) 0).
  - destruct (step_upd s rq al (k_current s) (set_wake (t_wake_pending t - 1)) t (Some (k_current s))) as (s' & E & Sp & _); try done; [cbn; lia|by rewrite Hs|by right|].
    exists s', false. split; [done|]. eapply stepped_weaken; [..|exact Sp]; [done|]. intros p [= <-]. by right.
  - destruct (step_leave s rq al (set_state TASK_SLEEPING) t TASK_SLEEPING) as (s1 & s' & E1 & E2 & Sp & _); try done; [left; split; [done|lia]|].
    rewrite E1. cbn [mbind outcome_bind]. by exists s', true.
Qed.

Lemma step_sleep_timed s rq al deadline : sched_ok s rq al → k_current s ≠ idle_task →
  ∃ slept s' b, sleep_timed_section deadline s = Ok (slept, s') ∧ stepped s rq s' b false None.
Proof.
  intros O Hi. destruct (cur_view _ _ _ O) as (t & u & Ht & Hs & Hw & Eu & Su & Ew). unfold sleep_timed_section. rewrite Eu.
  cbn [mbind outcome_bind]. rewrite Ew. destruct (Z.gtb_spec (t_wake_pending t) 0).
  - destruct (step_upd s rq al (k_current s) (set_wake (t_wake_pending t - 1)) t (Some (k_current s))) as (s' & E & Sp & _); try done; [cbn; lia|by rewrite Hs|by right|].
    rewrite E. eexists _, s', false. split; [done|]. eapply stepped_weaken; [..|exact Sp]; [done|]. intros p [= <-]. by right.
  - destruct (step_leave s rq al (λ t, set_state TASK_SLEEPING (set_timeout deadline false t)) t TASK_SLEEPING)
      as (s1 & s' & E1 & E2 & Sp & _); try done; [left; split; [done|lia]|].
    rewrite E1. cbn [mbind outcome_bind]. rewrite E2. by eexists _, s', true.
Qed.

Lemma step_consume s rq al p : sched_ok s rq al → is_Some (k_tasks s !! p) →
  ∃ s', sched_consume_wake_pending p s = Ok s' ∧ stepped s rq s' false true (Some p).
Proof.
  intros O [u Hu]. unfold sched_consume_wake_pending. rewrite (get_Some _ _ _ Hu). cbn [mbind outcome_bind].
  assert (view s !! p = Some (strip u)) as Hv by (by rewrite view_lookup, Hu). pose proof (so_flat _ _ _ O) as F.
  pose proof (fl_wake _ _ _ _ _ F _ _ Hv) as Hw. pose proof (fl_sleep _ _ _ _ _ F _ _ Hv) as Hz. cbn in Hw, Hz.
  destruct (Z.gtb_spec (t_wake_pending u) 0).
  - destruct (step_upd s rq al p (set_wake (t_wake_pending u - 1)) (strip u) (Some p)) as (s' & E & Sp & _); try done; [cbn; lia|intros Hs; specialize (Hz Hs); lia|by right|].
    by exists s'.
  - exists s. split; [done|]. eapply stepped_same; [done|exists []; by rewrite app_nil_r|done| |apply tasks_refl]. intros q fs fpu sp Hq _ P. by left.
Qed.

Lemma step_condemn s rq al p : sched_ok s rq al → is_Some (k_tasks s !! p) →
  ∃ s', upd p (set_need_die true) s = Ok s' ∧ stepped s rq s' false true None.
Proof.
  intros O [u Hu]. assert (view s !! p = Some (strip u)) as Hv by (by rewrite view_lookup, Hu). pose proof (so_flat _ _ _ O) as F.
  destruct (step_upd s rq al p (set_need_die true) (strip u) None) as (s' & E & Sp & _); try done; [by apply (fl_wake _ _ _ _ _ F _ _ Hv)
    |by apply (fl_sleep _ _ _ _ _ F _ _ Hv)|left; cbn; lia|]. by exists s'.
Qed.

(** A sleeping task becomes runnable. *)
Lemma rouse s rq al p f t : keeps_links f → sched_ok s rq al → view s !! p = Some t → t_state t = TASK_SLEEPING →
  t_state (f t) = TASK_RUNNABLE → t_kstack (f t) = t_kstack t → 0 ≤ t_wake_pending (f t) < 2 ^ 32 →
  ∃ s', (s1 ← upd p f s; runq_push p s1) = Ok s' ∧ sched_ok s' (rq ++ [p]) al ∧ view s' = <[p := f t]> (view s) ∧
    k_current s' = k_current s ∧ k_cpu s' = k_cpu s ∧ same_vars s s' ∧ dom (k_tasks s') = dom (k_tasks s).
Proof.
  intros Hf [Ln F St Cu Re Qu] Ht Hs E1 E2 Hw. destruct (upd_spec s rq al p f t Hf Ln Ht) as (T & E & L' & V').
  rewrite E. cbn [mbind outcome_bind]. assert (in_state (view s) p TASK_SLEEPING) as Hsl by (by exists t).
  assert (p ∉ rq) as Np. { intros H. apply (fl_rq _ _ _ _ _ F) in H as [_ H]. by pose proof (in_state_unique _ _ _ _ Hsl H). }
  assert (p ≠ idle_task) as Ni. { intros ->. destruct (fl_idle _ _ _ _ _ F) as [H|H]; by pose proof (in_state_unique _ _ _ _ Hsl H). }
  assert (p ≠ k_current s) as Nc. { intros ->. by pose proof (in_state_unique _ _ _ _ Hsl Cu). }
  assert (view (with_tasks T s) !! p = Some (f t)) as Hp by (rewrite V'; apply lookup_insert_eq).
  destruct (view_Some _ _ _ Hp) as (u & Hu & _).
  destruct (push_spec (with_tasks T s) rq al p u L' Np Hu) as (T2 & h & E2' & L2 & V2). cbn zeta in E2'.
  eexists. split; [exact E2'|]. set (s' := with_runq h (Some p) (with_tasks T2 (with_tasks T s))) in *.
  assert (view s' = <[p := f t]> (view s)) as V3 by (by rewrite V2, V').
  assert (∀ q st, in_state (<[p := f t]> (view s)) q st ↔ (q = p ∧ TASK_RUNNABLE = st) ∨ (q ≠ p ∧ in_state (view s) q st)) as HS.
  { intros q st. by rewrite in_state_insert, E1. }
  split; [|split_and!; try done].
  2:{ rewrite <- (dom_fmap_L strip (k_tasks s')), <- (dom_fmap_L strip (k_tasks s)).
      change (strip <$> k_tasks s') with (view s'). change (strip <$> k_tasks s) with (view s). rewrite V3.
      apply dom_insert_lookup_L. by exists t. }
  constructor; try done; rewrite ?V3; cbn [s' with_runq with_tasks k_current k_nr_tasks k_mem].
  - destruct F as [F1 F2 F3 F4 F5 F6 F7 F8]. constructor; try done.
    + intros q. rewrite elem_of_app, list_elem_of_singleton, F1, HS. split.
      * intros [[? H]| ->]; [split; [done|]|split; [done|by left]]. right. split; [|done]. intros ->. by pose proof (in_state_unique _ _ _ _ Hsl H).
      * intros [? [[-> _]|[_ ?]]]; [by right|by left].
    + intros q. rewrite lookup_insert_is_Some, F2. destruct (decide (p = q)) as [<-|]; [rewrite Ht|]; naive_solver.
    + intros q. rewrite HS. intros [[_ ?]|[_ ?]]; [done|by apply F4].
    + destruct F5 as [H|H]; [left|right]; apply HS; right; done.
    + intros q v. rewrite lookup_insert_Some. intros [[<- <-]|[_ Hv]]; [congruence|by apply F6 with q].
    + intros q v. rewrite lookup_insert_Some. intros [[<- <-]|[_ Hv]]; [done|by apply F7 with q].
    + intros q. rewrite HS. intros [[_ ?]|[_ ?]]; [done|by apply F8].
  - eapply stacks_ext; [|exact St]. rewrite fmap_insert, E2. apply insert_id. by rewrite lookup_fmap, Ht.
  - apply HS. right. done.
Qed.

Lemma step_wake_view s rq al p : sched_ok s rq al → p ≠ idle_task → is_Some (k_tasks s !! p) →
  ∃ s', sched_wake p s = Ok s' ∧ stepped s rq s' false true (Some p) ∧
    (∀ t, view s !! p = Some t → ∃ u, view s' !! p = Some u ∧
      (t_state t = TASK_SLEEPING ∧ awake u ∨
       t_state t ≠ TASK_SLEEPING ∧ t_state u = t_state t ∧ t_wake_pending u = u32 (t_wake_pending t + 1))) ∧
    ∀ q, q ≠ p → view s' !! q = view s !! q.
Proof.
  intros O Hi [u Hu]. assert (view s !! p = Some (strip u)) as Hv by (by rewrite view_lookup, Hu). pose proof (so_flat _ _ _ O) as F.
  pose proof (fl_wake _ _ _ _ _ F _ _ Hv) as Hw. pose proof (fl_sleep _ _ _ _ _ F _ _ Hv) as Hz. cbn in Hw, Hz.
  unfold sched_wake. rewrite (upd_Some _ _ _ _ Hu). cbn [mbind outcome_bind]. unfold get at 1. cbn [with_tasks k_tasks].
  rewrite lookup_insert_eq. cbn [deref mbind outcome_bind]. destruct (decide (t_state _ = TASK_SLEEPING)) as [Hs|Hs]; cbn in Hs.
  - set (s1 := with_tasks _ s).
    set (f := λ t, set_state TASK_RUNNABLE (set_timeout 0 false
      (set_wake (u32 (t_wake_pending (set_wake (u32 (t_wake_pending t + 1)) t) - 1)) t))).
    destruct (rouse s rq al p f (strip u)) as (s' & E & O' & V' & Cu & Cp & _); try done.
    { cbn. apply Z.mod_pos_bound. lia. }
    exists s'. split; [|split_and!].
    + rewrite (upd_Some _ _ _ _ Hu) in E. unfold upd, get. cbn [s1 with_tasks k_tasks]. rewrite lookup_insert_eq. cbn [deref mbind outcome_bind].
      rewrite insert_insert_eq. exact E.
    + eapply stepped_same; [done|by exists [p]|done| |].
      * apply (kept_upd s s' p f (strip u) Hv V' Cu); try done. by right.
      * apply (tasks_upd s s' p f (strip u)); [exact Hv|exact V'|by right|by right].
    + intros t Ht. assert (t = strip u) as -> by congruence. rewrite V'. eexists. rewrite lookup_insert_eq. split; [done|]. left. split; [done|by left].
    + intros q Hq. rewrite V'. by rewrite lookup_insert_ne.
  - destruct (step_upd s rq al p (λ t, set_wake (u32 (t_wake_pending t + 1)) t) (strip u) (Some p)) as (s' & E & Sp & _ & V' & _); try done; [|by right|].
    { cbn. apply Z.mod_pos_bound. lia. }
    rewrite (upd_Some _ _ _ _ Hu) in E. exists s'. split; [exact E|]. split_and!; [done| |].
    + intros t Ht. assert (t = strip u) as -> by congruence. rewrite V'. eexists. rewrite lookup_insert_eq. split; [done|]. by right.
    + intros q Hq. rewrite V'. by rewrite lookup_insert_ne.
Qed.

Lemma step_wake s rq al p : sched_ok s rq al → p ≠ idle_task → is_Some (k_tasks s !! p) →
  ∃ s', sched_wake p s = Ok s' ∧ stepped s rq s' false true (Some p) ∧
    ∀ t, view s !! p = Some t → ∃ u, view s' !! p = Some u ∧
      (t_state t = TASK_SLEEPING ∧ awake u ∨
       t_state t ≠ TASK_SLEEPING ∧ t_state u = t_state t ∧ t_wake_pending u = u32 (t_wake_pending t + 1)).
Proof. intros O Hi Hp. destruct (step_wake_view s rq al p O Hi Hp) as (s' & E & Sp & H & _). by exists s'. Qed.

(** Only sleeping tasks change, and they become runnable. *)
Definition roused (s s' : kern) : Prop :=
  ∀ p t, view s !! p = Some t → ∃ u, view s' !! p = Some u ∧
    (u = t ∨ t_state u = TASK_RUNNABLE ∧ t_state t = TASK_SLEEPING ∧ 
     t_fs_base u = t_fs_base t ∧ t_fpu u = t_fpu t ∧ t_space u = t_space t ∧ t_wake_pending u = t_wake_pending t).

Lemma roused_trans s1 s2 s3 : roused s1 s2 → roused s2 s3 → roused s1 s3.
Proof.
  intros R1 R2 p t Ht. destruct (R1 p t Ht) as (u & Hu & Hut). destruct (R2 p u Hu) as (v & Hv & Hvu). exists v. split; [done|].
  destruct Hvu as [->|Hvu]; [done|]. destruct Hut as [->|(H6 & H7 & _)]; [by right|]. destruct Hvu as (_ & H2 & _). congruence.
Qed.

Lemma expire_spec now l : ∀ fuel s rq al d, sched_ok s rq al → al = d ++ l → (length l < fuel)%nat →
  ∃ s' new, expire_loop fuel now (head l) s = Ok s' ∧ sched_ok s' (rq ++ new) al ∧ k_current s' = k_current s ∧
    k_cpu s' = k_cpu s ∧ roused s s'.
Proof.
  induction l as [|c l IH]; intros fuel s rq al d O Ea Hf; (destruct fuel as [|fuel]; [simpl in Hf; lia|]); cbn [expire_loop head]; simpl in Hf.
  { exists s, []. rewrite app_nil_r. split_and!; try done. intros p t Ht. exists t. by split; [|left]. }
  assert (∀ s' rq', sched_ok s' rq' al → ∃ u, k_tasks s' !! c = Some u ∧ t_all_next u = head l) as Hnext.
  { intros s' rq' O'. pose proof (ln_all _ _ _ (so_links _ _ _ O')) as C. rewrite Ea in C. clear -C. revert C. generalize (k_all_tasks s').
    induction d as [|x d IHd]; intros h; [|intros (_ & t & _ & C); by eapply IHd].
    intros (_ & t & Ht & C). exists t. split; [done|]. by eapply chain_head. }
  destruct (Hnext s rq O) as (u & Hu & En). rewrite (get_Some _ _ _ Hu). cbn [mbind outcome_bind].
  assert (view s !! c = Some (strip u)) as Hv by (by rewrite view_lookup, Hu).
  assert (∃ s1 new1, (if bool_decide (t_state u = TASK_SLEEPING) && negb (t_deadline u =? 0) && negb (now <? t_deadline u) then
      s0 ← upd c (λ t, set_state TASK_RUNNABLE (set_timeout 0 true t)) s; runq_push c s0 else Ok s) = Ok s1 ∧
    sched_ok s1 (rq ++ new1) al ∧ k_current s1 = k_current s ∧ k_cpu s1 = k_cpu s ∧ roused s s1) as (s1 & new1 & E1 & O1 & Cu1 & Cp1 & R1).
  { destruct (_ && _) eqn:B.
    - apply andb_true_iff in B as [[B%bool_decide_eq_true _]%andb_true_iff _].
      destruct (rouse s rq al c (λ t, set_state TASK_RUNNABLE (set_timeout 0 true t)) (strip u)) as (s1 & E & O1 & V1 & Cu1 & Cp1 & _); try done.
      { apply (fl_wake _ _ _ _ _ (so_flat _ _ _ O) _ _ Hv). }
      exists s1, [c]. split_and!; try done. intros p t Ht. rewrite V1. destruct (decide (p = c)) as [->|Hne].
      + eexists. rewrite lookup_insert_eq. split; [done|]. right. assert (t = strip u) as -> by congruence. done.
      + exists t. rewrite lookup_insert_ne by done. by split; [|left].
    - exists s, []. rewrite app_nil_r. split_and!; try done. intros p t Ht. exists t. by split; [|left]. }
  rewrite E1. cbn [mbind outcome_bind]. destruct (Hnext s1 _ O1) as (u1 & Hu1 & En1). rewrite (get_Some _ _ _ Hu1). cbn [mbind outcome_bind]. rewrite En1.
  destruct (IH fuel s1 (rq ++ new1) al (d ++ [c]) O1) as (s' & new & E & O' & Cu & Cp & R); [by rewrite <- app_assoc|lia|].
  exists s', (new1 ++ new). rewrite app_assoc. split_and!; try done; [congruence|congruence|by eapply roused_trans].
Qed.

Lemma ok_counts s rq al a b q : q = 1 → sched_ok s rq al → sched_ok (with_quantum q (with_counts a b s)) rq al.
Proof. intros -> [Ln F St Cu Re Qu]. constructor; try done. by eapply links_eq; [..|exact Ln]. Qed.

Lemma step_tick s rq al now : sched_ok s rq al → ∃ s', sched_tick now s = Ok s' ∧ stepped s rq s' true true None.
Proof.
  intros O. unfold sched_tick, sched_expire_timed_sleepers. set (s0 := with_counts _ _ s).
  assert (sched_ok s0 rq al) as O0. { pose proof O as [Ln F St Cu Re Qu]. constructor; try done. by eapply links_eq; [..|exact Ln]. }
  rewrite (chain_head _ _ _ _ (ln_all _ _ _ (so_links _ _ _ O0))).
  destruct (expire_spec now al (S (size (k_tasks s0))) s0 rq al [] O0 eq_refl) as (s1 & new & E1 & O1 & Cu1 & Cp1 & R1).
  { pose proof (so_links _ _ _ O) as Ln. assert (length al ≤ size (k_tasks s))%nat; [|change (k_tasks s0) with (k_tasks s); lia].
    rewrite <- size_dom. rewrite <- (size_list_to_set (C := gset Z) al) by apply (ln_all_nodup _ _ _ Ln). apply subseteq_size.
    intros x Hx. apply elem_of_list_to_set in Hx. apply elem_of_dom. by eapply chain_lookup; [apply (ln_all _ _ _ Ln)|]. }
  rewrite E1. cbn [mbind outcome_bind]. rewrite (so_quantum _ _ _ O1). cbn [Z.gtb Z.compare]. change (k_quantum (with_quantum (1 - 1) s1) =? 0) with true.
  cbn [negb]. set (s2 := with_quantum _ _).
  assert (sched_ok s2 (rq ++ new) al) as O2.
  { pose proof O1 as [Ln F St Cu Re Qu]. constructor; try done. by eapply links_eq; [..|exact Ln]. }
  apply (stepped_schedule s rq al s2 new true); try done.
  - by apply sched_ready.
  - intros p t Hp Ht. destruct (R1 p t Ht) as (u & Hu & Hut). exists u. split; [exact Hu|].
    destruct Hut as [->|(? & ? & ? & ? & ? & ?)]; [split_and!; try done; by left|split_and!; try done; by right].
  - intros t Ht. destruct (R1 _ t Ht) as (u & Hu & Hut). exists u. split; [exact Hu|].
    destruct Hut as [->|(_ & Hsl & _)]; [done|]. destruct (so_cur _ _ _ O) as (w & Hw & Sw). congruence.
Qed.

Lemma stepped_refl s rq al : sched_ok s rq al → stepped s rq s false true None.
Proof.
  intros O. eapply stepped_same; [done|exists []; by rewrite app_nil_r|done| |apply tasks_refl]. intros q fs fpu sp Hq _ P. by left.
Qed.

Lemma quiet_trans s rq s1 s2 : stepped s rq s1 false true None → stepped s1 rq s2 false true None →
  k_current s1 = k_current s → stepped s rq s2 false true None.
Proof.
  intros [_ K1 _ Tk1] [(rq2 & al2 & O2 & M2) K2 _ Tk2] Cu. destruct M2 as (new & Cu2 & ->). constructor.
  - exists (rq ++ new), al2. split; [done|]. exists new. split; [congruence|done].
  - intros p fs fpu sp Hp Hi P. destruct (K1 p fs fpu sp Hp Hi P) as [[P1 N1]|[E1 _]]; [|congruence].
    apply K2; [congruence|done|done].
  - intros t Ht Hne. congruence.
  - intros p t Ht Hz _. destruct (Tk1 p t Ht Hz (or_intror eq_refl)) as (u & Hu & Ha & Nz & Hw).
    destruct (Tk2 p u Hu Nz (or_intror eq_refl)) as (v & Hv & Ha' & Nz' & Hw'). exists v. split_and!; [done|auto|done|].
    left. destruct Hw, Hw'; try done. lia.
Qed.

Lemma step_sleep_result s rq al slept : sched_ok s rq al → ∃ r s', sleep_timed_result slept s = Ok (r, s') ∧ stepped s rq s' false true None.
Proof.
  intros O. destruct (cur_view _ _ _ O) as (t & u & Ht & Hs & Hw & Eu & Su & Ew). unfold sleep_timed_result. destruct slept.
  - destruct (step_upd s rq al (k_current s) (λ t, set_timeout 0 (t_timed_out t) t) t None) as (s1 & E1 & Sp1 & O1 & V1 & Cu1);
      try done; [cbn; by rewrite Hs|left; cbn; lia|]. rewrite E1. cbn [mbind outcome_bind].
    destruct (cur_view _ _ _ O1) as (t1 & u1 & Ht1 & Hs1 & Hw1 & Eu1 & _). unfold signal_pending. rewrite Eu1. cbn [mbind outcome_bind].
    destruct (t_need_die u1); [by eexists _, s1|]. rewrite <- Cu1, Eu1. cbn [mbind outcome_bind]. destruct (t_timed_out u1); [|by eexists _, s1].
    destruct (step_upd s1 rq al (k_current s1) (λ t, set_timeout (t_deadline t) false t) t1 None) as (s2 & E2 & Sp2 & O2 & V2 & Cu2);
      try done; [cbn; by rewrite Hs1|left; cbn; lia|]. rewrite E2. eexists _, s2. split; [done|]. by eapply quiet_trans.
  - unfold signal_pending. rewrite Eu. cbn [mbind outcome_bind]. eexists _, s. split; [done|]. by eapply stepped_refl.
Qed.

Lemma step_exit s rq al status : sched_ok s rq al → k_current s ≠ idle_task →
  ∃ s', sched_exit_current status s = Ok s' ∧ stepped s rq s' true false None.
Proof.
  intros O Hi. destruct (cur_view _ _ _ O) as (t & u & Ht & Hs & Hw & _). unfold sched_exit_current.
  destruct (step_leave s rq al (λ t, set_state TASK_ZOMBIE (set_exit_status (Z.land status 255) t)) t TASK_ZOMBIE)
    as (s1 & s' & E1 & E2 & Sp & _); try done; [right; by left|]. rewrite E1. by exists s'.
Qed.

Lemma step_exit_detached s rq al : sched_ok s rq al → k_current s ≠ idle_task → k_current s ≠ boot_task →
  ∃ s', sched_exit_detached s = Ok s' ∧ stepped s rq s' true false None.
Proof.
  intros O Hi Hb. destruct (cur_view _ _ _ O) as (t & u & Ht & Hs & Hw & _). unfold sched_exit_detached.
  destruct (step_leave s rq al (set_state TASK_DEAD) t TASK_DEAD) as (s1 & s' & E1 & E2 & Sp & _); try done; [right; by right|].
  rewrite E1. by exists s'.
Qed.

Lemma step_reap s rq al p : sched_ok s rq al → in_state (k_tasks s) p TASK_ZOMBIE → p ≠ boot_task →
  ∃ s', sched_reap_task p s = Ok s' ∧ stepped s rq s' false true None.
Proof.
  intros O (u & Hu & Hz) Hb. pose proof O as [Ln F St Cu Re Qu].
  assert (view s !! p = Some (strip u)) as Hv by (by rewrite view_lookup, Hu).
  assert (in_state (view s) p TASK_ZOMBIE) as HZ by (by exists (strip u)).
  assert (∀ st, in_state (view s) p st → st = TASK_ZOMBIE) as Huniq by (intros st H; by pose proof (in_state_unique _ _ _ _ H HZ)).
  assert (p ≠ k_current s) as Nc. { intros ->. by apply Huniq in Cu. }
  assert (p ≠ idle_task) as Ni. { intros ->. by destruct (fl_idle _ _ _ _ _ F) as [H|H]; apply Huniq in H. }
  assert (p ∉ rq) as Nq. { intros H. apply (fl_rq _ _ _ _ _ F) in H as [_ H]. by apply Huniq in H. }
  unfold sched_reap_task. rewrite (proj2 (Z.eqb_neq _ _)) by done.
  destruct (release_spec s rq al p (strip u)) as (T & h & mem & al' & E & L' & Pa & V' & S'); try done.
  { apply (fl_all _ _ _ _ _ F). } { apply (fl_nr _ _ _ _ _ F). }
  cbn zeta in E. exists (with_all h (k_nr_tasks s - 1) (with_mem mem (with_tasks T s))). split; [exact E|]. set (s' := with_all _ _ _) in *.
  assert (∀ q st, in_state (view s') q st ↔ q ≠ p ∧ in_state (view s) q st) as HS.
  { intros q st. rewrite V'. unfold in_state. setoid_rewrite lookup_delete_Some. naive_solver. }
  eapply stepped_same; [|exists []; by rewrite app_nil_r|done| |].
  - constructor; try done; [|apply HS; done]. destruct F as [F1 F2 F3 F4 F5 F6 F7 F8].
    constructor; cbn [s' with_all with_mem with_tasks k_current k_nr_tasks].
    + intros q. rewrite F1, HS. split; [|naive_solver]. intros [? H]. split_and!; try done. intros ->. by apply Huniq in H.
    + intros q. rewrite V', lookup_delete_is_Some, <- F2, Pa.
      assert (p ∉ al'). { pose proof (ln_all_nodup _ _ _ Ln) as N. rewrite Pa in N. by apply NoDup_cons in N as [? _]. } set_solver.
    + pose proof (Permutation_length Pa) as El. cbn [length] in El. lia.
    + intros q. rewrite HS. intros [_ ?]. by apply F4.
    + rewrite !HS. naive_solver.
    + intros q v. rewrite V', lookup_delete_Some. intros [_ ?]. by apply F6 with q.
    + intros q v. rewrite V', lookup_delete_Some. intros [_ ?]. by apply F7 with q.
    + intros q. rewrite HS. intros [_ ?]. by apply F8.
  - intros q fs fpu sp Hq _ (v & Hv' & Hs & R). left. split; [|done]. exists v. split; [|done]. rewrite V'. apply lookup_delete_Some.
    split; [|done]. intros <-. assert (v = strip u) as -> by congruence. cbn in Hs. destruct Hs; congruence.
  - intros q v Hv' Hz' _. exists v. rewrite V', lookup_delete_ne; [split_and!; try done; left; lia|].
    intros ->. assert (v = strip u) as -> by congruence. done.
Qed.

(** Changing the other variables. *)
Lemma ok_vars s s' rq al : sched_ok s rq al →
  k_tasks s' = k_tasks s → k_current s' = k_current s → k_runq_head s' = k_runq_head s → k_runq_tail s' = k_runq_tail s →
  k_all_tasks s' = k_all_tasks s → k_nr_tasks s' = k_nr_tasks s → k_reap s' = k_reap s → k_quantum s' = k_quantum s →
  stacks_ok (view s) (k_mem s') → sched_ok s' rq al ∧ stepped s rq s' false true None.
Proof.
  intros [Ln F St Cu Re Qu] E1 E2 E3 E4 E5 E6 E7 E8 St'. assert (view s' = view s) as Ev by (unfold view; by rewrite E1).
  assert (sched_ok s' rq al) as O'. { constructor; rewrite ?Ev, ?E2, ?E6; try congruence; try done. by eapply links_eq. }
  split; [done|]. eapply stepped_same; [done|exists []; by rewrite app_nil_r|done| |by apply tasks_view]. intros q fs fpu sp Hq _ P. left.
  rewrite Ev. split; [done|congruence].
Qed.

(** A new task joins the lists. *)
Lemma spawn s rq al p t mem : sched_ok s rq al → k_tasks s !! p = None → t_state t = TASK_RUNNABLE → t_wake_pending t = 0 →
  t_run_next t = None → t_all_next t = None → stacks_ok (<[p := t]> (view s)) mem → p ≠ idle_task →
  ∃ s', (s1 ← all_tasks_add p (with_tasks (<[p := t]> (k_tasks s)) (with_mem mem s)); runq_push p s1) = Ok s' ∧
    stepped s rq s' false true None ∧ sched_ok s' (rq ++ [p]) (p :: al) ∧ view s' = <[p := t]> (view s).
Proof.
  intros [Ln F St Cu Re Qu] Hp Hst Hw H1 H2 St' Hi.
  assert (view s !! p = None) as Hv by (by rewrite view_lookup, Hp).
  assert (p ∉ al) as Na. { intros H. apply (fl_all _ _ _ _ _ F) in H as [u Hu]. congruence. }
  assert (p ∉ rq) as Nq. { intros H. apply (fl_rq _ _ _ _ _ F) in H as [_ (u & Hu & _)]. congruence. }
  assert (strip t = t) as Est by (destruct t; cbn in *; by subst).
  set (s0 := with_tasks (<[p := t]> (k_tasks s)) (with_mem mem s)).
  assert (view s0 = <[p := t]> (view s)) as V0. { unfold view, s0. cbn [with_tasks k_tasks]. by rewrite fmap_insert, Est. }
  assert (links s0 rq al) as L0.
  { destruct Ln as [C1 T1 N1 C2 N2]. constructor; try done; cbn [s0 with_tasks with_mem k_tasks].
    - eapply chain_ext; [|exact C1]. intros x Hx. rewrite lookup_insert_ne; [done|]. by intros ->.
    - eapply chain_ext; [|exact C2]. intros x Hx. rewrite lookup_insert_ne; [done|]. by intros ->. }
  assert (k_tasks s0 !! p = Some t) as Hp0 by apply lookup_insert_eq.
  destruct (add_spec s0 rq al p t L0 Na Hp0) as (T1 & E1 & L1 & V1). cbn zeta in E1. rewrite E1. cbn [mbind outcome_bind].
  set (s1 := with_all (Some p) (k_nr_tasks s0 + 1) (with_tasks T1 s0)) in *.
  assert (view s1 !! p = Some t) as Hp1 by (rewrite V1, V0; apply lookup_insert_eq). destruct (view_Some _ _ _ Hp1) as (u & Hu & _).
  destruct (push_spec s1 rq (p :: al) p u L1 Nq Hu) as (T2 & h & E2 & L2 & V2). cbn zeta in E2.
  eexists. split; [exact E2|]. set (s' := with_runq h (Some p) (with_tasks T2 s1)) in *.
  assert (view s' = <[p := t]> (view s)) as V' by congruence.
  assert (p ≠ k_current s) as Nc. { intros ->. destruct Cu as (v & Hcv & _). congruence. }
  assert (∀ q st, in_state (<[p := t]> (view s)) q st ↔ (q = p ∧ TASK_RUNNABLE = st) ∨ (q ≠ p ∧ in_state (view s) q st)) as HS.
  { intros q st. by rewrite in_state_insert, Hst. }
  assert (sched_ok s' (rq ++ [p]) (p :: al)) as O'.
  { constructor; try done; rewrite ?V'; cbn [s' with_runq with_tasks k_current k_nr_tasks k_mem]; [|done|by apply HS; right].
    destruct F as [F1 F2 F3 F4 F5 F6 F7 F8]. constructor; try done.
    + intros q. rewrite elem_of_app, list_elem_of_singleton, F1, HS. split.
      * intros [[? H]| ->]; [split; [done|]|split; [done|by left]]. right. split; [|done]. intros ->. destruct H as (w & Hwv & _). congruence.
      * intros [? [[-> _]|[_ ?]]]; [by right|by left].
    + intros q. rewrite lookup_insert_is_Some, elem_of_cons, F2. destruct (decide (q = p)) as [->|]; naive_solver.
    + cbn [s1 s0 with_all with_tasks with_mem k_nr_tasks length]. lia.
    + intros q. rewrite HS. intros [[_ ?]|[_ ?]]; [done|by apply F4].
    + destruct F5 as [H|H]; [left|right]; apply HS; right; done.
    + intros q v. rewrite lookup_insert_Some. intros [[<- <-]|[_ Hv']]; [congruence|by apply F6 with q].
    + intros q v. rewrite lookup_insert_Some. intros [[<- <-]|[_ Hv']]; [rewrite Hw; lia|by apply F7 with q].
    + intros q. rewrite HS. intros [[_ ?]|[_ ?]]; [done|by apply F8]. }
  split_and!; [|done|done]. eapply stepped_same; [done|by exists [p]|done| |].
  - intros q fs fpu sp Hq _ (v & Hv' & Hs & R). left. split; [|done]. exists v. split; [|done]. rewrite V', lookup_insert_ne; [done|congruence].
  - intros q v Hv' Hz _. exists v. rewrite V', lookup_insert_ne by congruence. split_and!; try done. left. lia.
Qed.

Lemma fresh_task_new s : fresh_task s ∉ ({[0; boot_task; idle_task]} ∪ dom (k_tasks s) : gset Z).
Proof. unfold fresh_task. apply is_fresh. Qed.

Lemma step_create s rq al : sched_ok s rq al →
  ∃ r p s', sched_create_kernel_thread s = Ok (r, p, s') ∧ stepped s rq s' false true None.
Proof.
  intros O. unfold sched_create_kernel_thread.
  assert (∀ s' : kern, k_tasks s' = k_tasks s → k_current s' = k_current s → k_runq_head s' = k_runq_head s →
    k_runq_tail s' = k_runq_tail s → k_all_tasks s' = k_all_tasks s → k_nr_tasks s' = k_nr_tasks s → k_reap s' = k_reap s →
    k_quantum s' = k_quantum s → stacks_ok (view s) (k_mem s') → sched_ok s' rq al ∧ stepped s rq s' false true None) as HV.
  { intros s' **. by apply ok_vars with (s := s). }
  destruct (next_alloc s) as [ok1 s1] eqn:A1.
  assert (∃ ks, s1 = with_kmem ks s) as [ks ->].
  { unfold next_alloc in A1. destruct (k_kmem s) as [|b bs] eqn:Ek; simplify_eq; [|by eexists].
    exists (k_kmem s1). by destruct s1. }
  pose proof (so_stacks _ _ _ O) as St. destruct ok1; cbn [negb]; [|eexists _, _, _; split; [done|by apply HV]].
  change (k_mem (with_kmem ks s)) with (k_mem s).
  destruct (stacks_alloc _ _ St) as [->|(pa & mem & -> & Npa & Hnew & mem' & Ef & St')]; cbn [mbind outcome_bind].
  { cbn [Z.eqb]. eexists _, _, _. split; [done|]. by apply HV. }
  rewrite (proj2 (Z.eqb_neq _ _)) by done. set (s2 := with_mem mem (with_kmem ks s)). unfold process_alloc_pid.
  set (s3 := with_pid _ s2). destruct ((if k_next_pid s2 <=? 0 then - ENOMEM else k_next_pid s2) <? 0).
  { change (k_mem s3) with mem. rewrite Ef. cbn [mbind outcome_bind]. eexists _, _, _. split; [done|]. by apply HV. }
  unfold process_create_kernel. destruct (next_alloc s3) as [ok2 s4] eqn:A2.
  assert (∃ ks2, s4 = with_kmem ks2 s3) as [ks2 ->].
  { unfold next_alloc in A2. destruct (k_kmem s3) as [|b bs] eqn:Ek; simplify_eq; [|by eexists]. by exists ks. }
  destruct ok2; cbn [negb].
  2:{ change (k_mem (with_kmem ks2 s3)) with mem. rewrite Ef. cbn [mbind outcome_bind]. eexists _, _, _. split; [done|]. by apply HV. }
  set (p := fresh_task s3). set (s5 := with_procs _ _). destruct (k_nr_tasks s5 >=? JNU_MAX_TASKS).
  { change (k_mem s5) with mem. rewrite Ef. cbn [mbind outcome_bind]. eexists _, _, _. split; [done|]. by apply HV. }
  set (t := Task _ _ _ _ _ _ _ _ _ _ _ _ _ _ _).
  pose proof (fresh_task_new s3) as Np. fold p in Np. change (k_tasks s3) with (k_tasks s) in Np.
  rewrite !not_elem_of_union, !not_elem_of_singleton in Np. destruct Np as [[[_ _] Ni] Nd]. apply not_elem_of_dom in Nd.
  set (s6 := with_mem (k_mem s) s5). assert (sched_ok s6 rq al ∧ stepped s rq s6 false true None) as [O6 Sp6] by (by apply HV).
  destruct (spawn s6 rq al p t mem O6) as (s' & E & Sp & _); try done.
  { apply Hnew; [|done]. change (view s6) with (view s). by rewrite view_lookup, Nd. }
  change (with_mem mem s6) with s5 in E. change (k_tasks s6) with (k_tasks s5) in E.
  destruct (bind_inv _ _ _ E) as (s7 & E7 & E8). rewrite E7. cbn [mbind outcome_bind]. rewrite E8. cbn [mbind outcome_bind].
  eexists _, _, _. split; [done|]. by eapply quiet_trans.
Qed.

(** ** Every event keeps the invariant *)

(** The current task goes on after the event, or is switched out awake. *)
Definition keeps_current (e : event) : bool :=
  match e with Sleep | SleepTimed _ | Exit _ | ExitDetached => false | _ => true end.

Definition touched (e : event) : tptr := match e with Wake p | Consume p => Some p | _ => None end.

Lemma step_ok e s rq al : sched_ok s rq al → allowed e s →
  ∃ s' b, exec e s = Ok s' ∧ stepped s rq s' b (keeps_current e) (touched e) ∧ (∀ now, e = Tick now → b = true).
Proof.
  intros O A. destruct e as [|now| |dl|slept|p|p|status| |p| |p|fs fpu]; cbn [exec allowed keeps_current touched] in *.
  - destruct (step_yield _ _ _ O) as (s' & E & Sp). by exists s', true.
  - destruct (step_tick _ _ _ now O) as (s' & E & Sp). by exists s', true.
  - destruct (step_sleep _ _ _ O A) as (s' & b & E & Sp). by exists s', b.
  - destruct (step_sleep_timed _ _ _ dl O A) as (r & s' & b & E & Sp). rewrite E. by exists s', b.
  - destruct (step_sleep_result _ _ _ slept O) as (r & s' & E & Sp). rewrite E. by exists s', false.
  - destruct A as [A1 A2]. destruct (step_wake _ _ _ p O A1 A2) as (s' & E & Sp & _). by exists s', false.
  - destruct (step_consume _ _ _ p O A) as (s' & E & Sp). by exists s', false.
  - destruct (step_exit _ _ _ status O A) as (s' & E & Sp). by exists s', true.
  - destruct A as [A1 A2]. destruct (step_exit_detached _ _ _ O A1 A2) as (s' & E & Sp). by exists s', true.
  - destruct A as [A1 A2]. destruct (step_reap _ _ _ p O A1 A2) as (s' & E & Sp). by exists s', false.
  - destruct (step_create _ _ _ O) as (r & p & s' & E & Sp). rewrite E. by exists s', false.
  - destruct (step_condemn _ _ _ p O A) as (s' & E & Sp). by exists s', false.
  - eexists _, false. split; [done|]. split; [|done]. apply (ok_vars s _ rq al); try done. apply (so_stacks _ _ _ O).
Qed.

Lemma run_ok es : ∀ s rq al, sched_ok s rq al → all_allowed es s →
  ∃ s' rq' al', run es s = Ok s' ∧ sched_ok s' rq' al'.
Proof.
  induction es as [|e es IH]; intros s rq al O A; cbn [run all_allowed] in *; [by exists s, rq, al|].
  destruct A as [A1 A2]. destruct (step_ok e s rq al O A1) as (s1 & b & E & [(rq1 & al1 & O1 & _) _ _ _] & _). rewrite E in *.
  cbn [mbind outcome_bind]. by apply (IH s1 rq1 al1).
Qed.

Lemma run_app es1 es2 s s1 : run es1 s = Ok s1 → run (es1 ++ es2) s = run es2 s1.
Proof.
  revert s. induction es1 as [|e es1 IH]; intros s; cbn [run app]; [by intros [= ->]|]. intros H.
  destruct (bind_inv _ _ _ H) as (s2 & -> & H2). cbn [mbind outcome_bind]. by apply IH.
Qed.

(** *** Start *)

Lemma stacks_empty mem B : world_ok (World mem ∅) B → stacks_ok ∅ mem.
Proof. intros W. exists ∅, B. split_and!; try done. intros x [? ?]. done. Qed.

Lemma stacks_none V mem p t : stacks_ok V mem → V !! p = None → t_kstack t = 0 → stacks_ok (<[p := t]> V) mem.
Proof.
  intros (H & B & W & H1 & H2 & H3) Hp Ht. exists H, B. split_and!; [done|..].
  - intros q u. rewrite lookup_insert_Some. intros [[<- <-]|[_ Hu]]; [done|by apply H1 with q].
  - intros q r u v. rewrite !lookup_insert_Some. intros [[<- <-]|[_ Hu]] [[<- <-]|[_ Hv]] Euv Nu; try done; [congruence|by apply (H2 q r u v)].
  - intros x Hx. destruct (H3 x Hx) as (q & u & Hu & E). exists q, u. split; [|done]. rewrite lookup_insert_ne; [done|congruence].
Qed.

Lemma init_ok top mem kmem regs B pa mem' : world_ok (World mem ∅) B →
  pmm_alloc_zeroed_pages KSTACK_ORDER mem = Ok (pa, mem') → pa ≠ 0 →
  ∃ s, sched_init top mem kmem regs = Ok s ∧ sched_ok s [] [idle_task; boot_task].
Proof.
  intros W Ea Npa. unfold sched_init, process_alloc_pid. cbn [k_next_pid with_pid with_tasks k_tasks k_kmem].
  set (boot := Task _ _ TASK_RUNNING _ _ _ _ _ _ _ _ _ _ _ _). set (s0 := with_tasks _ _).
  destruct (process_create_kernel boot_task s0) as [ok s1] eqn:E1.
  assert (∃ ks ps, s1 = with_procs ps (with_kmem ks s0)) as (ks & ps & ->).
  { unfold process_create_kernel, next_alloc in E1. destruct (k_kmem s0) as [|b bs]; [|destruct b]; simplify_eq;
      [by exists kmem; eexists|by exists bs; eexists|by exists bs, ∅]. }
  set (s1 := with_procs ps _). clear E1.
  assert (links s1 [] []) as L1 by (constructor; try done; apply NoDup_nil_2).
  destruct (add_spec s1 [] [] boot_task boot L1) as (T1 & E1 & L2 & V1); [set_solver|apply lookup_insert_eq|]. cbn zeta in E1. rewrite E1.
  cbn [mbind outcome_bind]. set (s2 := with_all _ _ _) in *.
  change (k_mem (with_pid _ s2)) with mem. rewrite Ea. cbn [mbind outcome_bind]. set (idle := Task _ _ TASK_RUNNABLE _ _ _ _ _ _ _ _ _ _ _ _).
  set (s3 := with_tasks _ _). assert (view s2 = <[boot_task := boot]> ∅) as EV2.
  { rewrite V1. unfold view. cbn [s1 s0 with_procs with_kmem with_tasks with_pid k_tasks]. by rewrite fmap_insert, fmap_empty. }
  assert (view s3 = <[idle_task := idle]> (<[boot_task := boot]> ∅)) as EV3.
  { rewrite <- EV2. unfold view, s3. cbn [with_tasks k_tasks]. by rewrite fmap_insert. }
  assert (links s3 [] [boot_task]) as L3.
  { destruct L2 as [C1 T0 N1 C2 N2]. constructor; try done. eapply chain_ext; [|exact C2]. intros x Hx%list_elem_of_singleton.
    subst x. cbn [s3 with_tasks k_tasks]. by rewrite lookup_insert_ne. }
  destruct (add_spec s3 [] [boot_task] idle_task idle L3) as (T4 & E4 & L4 & V4); [set_solver|apply lookup_insert_eq|]. cbn zeta in E4.
  eexists. split; [exact E4|]. set (s := with_all (Some idle_task) _ _) in *. assert (view s = <[idle_task := idle]> (<[boot_task := boot]> ∅)) as EV by (rewrite <- EV3; exact V4).
  assert (∀ q st, in_state (view s) q st ↔ (q = idle_task ∧ st = TASK_RUNNABLE) ∨ (q = boot_task ∧ st = TASK_RUNNING)) as HS.
  { intros q st. rewrite EV, !in_state_insert. cbn [idle boot t_state]. unfold in_state. setoid_rewrite lookup_empty. unfold idle_task, boot_task. naive_solver lia. }
  assert (∀ q t, view s !! q = Some t → q = idle_task ∧ t = idle ∨ q = boot_task ∧ t = boot) as HL.
  { intros q t. rewrite EV, !lookup_insert_Some, lookup_empty. naive_solver. }
  assert (stacks_ok (view s) mem') as St.
  { pose proof (stacks_none ∅ mem boot_task boot (stacks_empty _ _ W) (lookup_empty _) eq_refl) as S1.
    destruct (stacks_alloc _ _ S1) as [E|(pa1 & mem1 & E & _ & Hnew & _)]; rewrite Ea in E; simplify_eq.
    rewrite EV. apply Hnew; [|done]. rewrite lookup_insert_ne by done. apply lookup_empty. }
  constructor; try done; [|by apply HS; right].
  - constructor; try done.
    + intros p. rewrite HS. set_solver.
    + intros p. rewrite EV, !lookup_insert_is_Some, lookup_empty. unfold idle_task, boot_task. rewrite elem_of_cons, list_elem_of_singleton. 
      split; [intros [->| ->]; [by left|right; split; [done|by left]]|]. intros [->|[_ [->|[_ [? ?]]]]]; [by left|by right|done].
    + intros p. rewrite HS. intros [[_ ?]|[-> _]]; [done|by left].
    + left. apply HS. by left.
    + intros p t Ht. by destruct (HL p t Ht) as [[_ ->]|[_ ->]].
    + intros p t Ht. by destruct (HL p t Ht) as [[_ ->]|[_ ->]].
    + intros p. rewrite HS. intros [[_ ?]|[_ ?]]; done.
Qed.

(** ** The theorems *)

Definition is_tick (e : event) : bool := match e with Tick _ => true | _ => false end.

Lemma round_robin_queue p : ∀ es s rq al pre post, sched_ok s rq al → rq = pre ++ p :: post → all_allowed es s →
  (length pre < length (filter is_tick es))%nat →
  ∃ es1 es2 s1, es = es1 ++ es2 ∧ run es1 s = Ok s1 ∧ k_current s1 = p.
Proof.
  induction es as [|e es IH]; intros s rq al pre post O Eq A Hn; [simpl in Hn; lia|]. cbn [all_allowed] in A. destruct A as [A1 A2].
  destruct (step_ok e s rq al O A1) as (s1 & b & E & [(rq1 & al1 & O1 & new & M) _ _ _] & Ht). rewrite E in A2.
  assert (∀ l1 l2 s2, run l1 s1 = Ok s2 → k_current s2 = p → es = l1 ++ l2 →
    ∃ es1 es2 s0, e :: es = es1 ++ es2 ∧ run es1 s = Ok s0 ∧ k_current s0 = p) as Hcons.
  { intros l1 l2 s2 R1 C1 ->. exists (e :: l1), l2, s2. split; [done|]. cbn [run]. rewrite E. done. }
  rewrite filter_cons in Hn. destruct b.
  - destruct M as [Cu ->]. rewrite Eq, <- app_assoc in *. destruct pre as [|x pre]; cbn [app] in *.
    { apply (Hcons [] es s1); [done|by rewrite Cu|done]. }
    destruct (IH s1 _ al1 pre (post ++ new) O1 eq_refl A2) as (l1 & l2 & s2 & -> & R1 & C1); [|by apply (Hcons l1 l2 s2)].
    destruct (decide (is_tick e)); simpl in Hn; lia.
  - destruct M as [Cu ->]. assert (¬ is_tick e) as Nt. { intros H. destruct e as [|now| | | | | | | | | | |]; try done. by specialize (Ht now eq_refl). }
    rewrite decide_False in Hn by done. rewrite Eq, <- app_assoc in O1. cbn [app] in O1.
    destruct (IH s1 _ al1 pre (post ++ new) O1 eq_refl A2 Hn) as (l1 & l2 & s2 & -> & R1 & C1). by apply (Hcons l1 l2 s2).
Qed.

Lemma parked_run p fs fpu sp : ∀ es s rq al s2, sched_ok s rq al → all_allowed es s → run es s = Ok s2 → p ≠ idle_task →
  k_current s ≠ p → parked (view s) p fs fpu sp → k_current s2 = p →
  (∀ es1 es2 s', es = es1 ++ es2 → es2 ≠ [] → run es1 s = Ok s' → k_current s' ≠ p) → resumed s2 p fs fpu sp.
Proof.
  induction es as [|e es IH]; intros s rq al s2 O A R Hi Hc P Hc2 Hfirst; cbn [run all_allowed] in *; [by injection R as <-|].
  destruct A as [A1 A2]. destruct (step_ok e s rq al O A1) as (s1 & b & E & [(rq1 & al1 & O1 & M) K _ _] & _). rewrite E in A2, R.
  cbn [mbind outcome_bind] in R. destruct (K p fs fpu sp ltac:(congruence) Hi P) as [[P1 N1]|R1].
  - apply (IH s1 rq1 al1); try done. intros es1 es2 s' -> Hne R1. apply (Hfirst (e :: es1) es2); [done|done|]. cbn [run]. by rewrite E.
  - destruct es as [|e2 es]; [by injection R as <-|]. exfalso. apply (Hfirst [e] (e2 :: es) s1); [done|done| |apply R1].
    cbn [run]. by rewrite E.
Qed.

(** A page allocator that hands out the idle task's stack. *)
Lemma demo_mem_ok : ∃ mem B pa mem', world_ok (World mem ∅) B ∧ pmm_alloc_zeroed_pages KSTACK_ORDER mem = Ok (pa, mem') ∧ pa ≠ 0.
Proof.
  destruct (demo_init ∅) as (s & B & E & O & Hz & _).
  assert ((s0 ← pmm_init demo_map ∅; '(a, _) ← pmm_alloc_zeroed_pages KSTACK_ORDER s0; Ok (a =? 0)) = Ok false) as C by (vm_compute; reflexivity).
  rewrite E in C. clear E. rewrite bind_Ok in C.
  assert (world_ok (World s ∅) B) as W by (constructor; [exact O|exact Hz|by intros ? ? ?|by intros ? ? ? ? ?]).
  exists s, B. destruct (stacks_alloc ∅ s (stacks_empty _ _ W)) as [F|(pa & mem' & F & N & _)].
  - rewrite F in C. discriminate C.
  - exists pa, mem'. split; [exact W|]. split; [exact F|exact N].
Qed.

(** C3: from [sched_init] on, every sequence of scheduler calls that respects
    their contracts (the current task yields, sleeps, exits; anyone wakes,
    condemns or reaps; threads are created; the timer fires) returns without
    a fault, and keeps the scheduler consistent: the chained run queue holds
    each runnable task exactly once and no other, exactly the current task
    (and possibly the idle task) is running, a sleeping task has no unused
    wake credit, no dead task is left, the list of all tasks is complete, and
    the kernel stacks are distinct blocks the page allocator has handed out,
    one for each task that has one, none leaked. *)
Theorem sched_consistent top mem kmem regs B pa mem' es :
  world_ok (World mem ∅) B → pmm_alloc_zeroed_pages KSTACK_ORDER mem = Ok (pa, mem') → pa ≠ 0 →
  ∃ s0, sched_init top mem kmem regs = Ok s0 ∧
    (all_allowed es s0 → ∃ s rq al, run es s0 = Ok s ∧ sched_ok s rq al).
Proof.
  intros W Ea Npa. destruct (init_ok top mem kmem regs B pa mem' W Ea Npa) as (s0 & E & O). exists s0. split; [done|].
  intros A. by apply (run_ok es s0 [] [idle_task; boot_task]).
Qed.

Lemma sched_consistent_witness : ∃ mem s0 s rq al, sched_init 0 mem [] (Cpu 0 0 0 0) = Ok s0 ∧
  run [Create; Tick 1; Create; Tick 2; Yield] s0 = Ok s ∧ sched_ok s rq al.
Proof.
  destruct demo_mem_ok as (mem & B & pa & mem' & W & Ea & N).
  destruct (sched_consistent 0 mem [] (Cpu 0 0 0 0) B pa mem' [Create; Tick 1; Create; Tick 2; Yield] W Ea N) as (s0 & E & H).
  destruct H as (s & rq & al & R & O).
  - cbn [all_allowed allowed]. repeat (split; [exact I|destruct (exec _ _); try exact I]).
  - by exists mem, s0, s, rq, al.
Defined.

(** C34: round robin, as a liveness property: a task that waits at place [n] of
    the run queue is the current task after at most [n + 1] timer ticks,
    whatever other events happen before, between and after them. *)
Theorem round_robin s rq al pre p post es :
  sched_ok s rq al → rq = pre ++ p :: post → all_allowed es s → (length pre < length (filter is_tick es))%nat →
  ∃ es1 es2 s1, es = es1 ++ es2 ∧ run es1 s = Ok s1 ∧ k_current s1 = p.
Proof. apply round_robin_queue. Qed.


(** A small machine that has just booted, after some events. *)
Definition demo_run (es : list event) : outcome kern :=
  m ← pmm_init demo_map ∅; s ← sched_init 0 m [] (Cpu 7 8 0 0); run es s.

Lemma demo_run_ok es : (∀ s, all_allowed es s) → ∃ s rq al, demo_run es = Ok s ∧ sched_ok s rq al.
Proof.
  intros A. destruct (demo_init ∅) as (m & B & E & O & Hz & _). unfold demo_run. rewrite E, bind_Ok. cbv beta.
  assert ((s0 ← pmm_init demo_map ∅; '(a, _) ← pmm_alloc_zeroed_pages KSTACK_ORDER s0; Ok (a =? 0)) = Ok false) as C by (vm_compute; reflexivity).
  rewrite E, bind_Ok in C. clear E.
  assert (world_ok (World m ∅) B) as W by (constructor; [exact O|exact Hz|by intros ? ? ?|by intros ? ? ? ? ?]).
  destruct (stacks_alloc ∅ m (stacks_empty _ _ W)) as [F|(pa & mem' & F & N & _)]; [rewrite F in C; discriminate C|].
  destruct (init_ok 0 m [] (Cpu 7 8 0 0) B pa mem' W F N) as (s0 & E0 & O0). rewrite E0, bind_Ok. clear E0 F C.
  apply (run_ok es s0 [] [idle_task; boot_task] O0 (A s0)).
Qed.

(** Reading a concrete result off a state that was shown to exist. *)
Lemma demo_read {A} (f : kern → A) es s a : demo_run es = Ok s → (s ← demo_run es; Ok (f s)) = Ok a → f s = a.
Proof. intros ->. rewrite bind_Ok. by intros [= <-]. Qed.

Lemma demo_run_app es1 es2 s : demo_run es1 = Ok s → demo_run (es1 ++ es2) = run es2 s.
Proof.
  unfold demo_run. generalize (pmm_init demo_map ∅). intros [m| | |]; try discriminate. rewrite !bind_Ok.
  destruct (sched_init 0 m [] (Cpu 7 8 0 0)) as [s0| | |]; try discriminate. rewrite !bind_Ok. apply run_app.
Qed.

Lemma round_robin_witness : ∃ s es1 es2 s1, demo_run [Create; Create] = Ok s ∧ [Tick 1; Create; Tick 2] = es1 ++ es2 ∧
  run es1 s = Ok s1 ∧ k_current s1 = 3.
Proof.
  destruct (demo_run_ok [Create; Create]) as (s & rq & al & E & O).
  { intros s. cbn [all_allowed allowed]. repeat (split; [exact I|destruct (exec _ _); try exact I]). }
  assert (k_runq_head s = Some 3) as Hh by (apply (demo_read k_runq_head _ _ _ E); vm_compute; reflexivity).
  rewrite (chain_head _ _ _ _ (ln_rq _ _ _ (so_links _ _ _ O))) in Hh. destruct rq as [|x rq]; [discriminate Hh|]. injection Hh as ->.
  destruct (round_robin s (3 :: rq) al [] 3 rq [Tick 1; Create; Tick 2] O eq_refl) as (es1 & es2 & s1 & H1 & H2 & H3).
  - cbn [all_allowed allowed]. repeat (split; [exact I|destruct (exec _ _); try exact I]).
  - apply Nat.ltb_lt. vm_compute. reflexivity.
  - exists s, es1, es2, s1. split; [exact E|]. split; [exact H1|]. split; [exact H2|exact H3].
Defined.

(** C35: a context switch is transparent: when a task has left the CPU (it was
    preempted, yielded or went to sleep) and is switched in again, the FS
    base and the FPU registers hold what they held when it left, and CR3
    holds its address space, whatever the tasks in between loaded into the
    registers. *)
Theorem context_preserved s rq al p t e s1 es s2 :
  sched_ok s rq al → k_current s = p → p ≠ idle_task → k_tasks s !! p = Some t → allowed e s → exec e s = Ok s1 →
  k_current s1 ≠ p → in_state (k_tasks s1) p TASK_RUNNABLE ∨ in_state (k_tasks s1) p TASK_SLEEPING →
  all_allowed es s1 → run es s1 = Ok s2 → k_current s2 = p →
  (∀ es1 es2 s', es = es1 ++ es2 → es2 ≠ [] → run es1 s1 = Ok s' → k_current s' ≠ p) →
  c_fs_base (k_cpu s2) = c_fs_base (k_cpu s) ∧ c_fpu (k_cpu s2) = c_fpu (k_cpu s) ∧ c_cr3 (k_cpu s2) = t_space t.
Proof.
  intros O Hp Hi Ht A E Hc1 Hs Aes R Hc2 Hfirst. destruct (step_ok e s rq al O A) as (s1' & b & E' & [(rq1 & al1 & O1 & _) _ Hsaved _] & _).
  assert (s1' = s1) as -> by congruence. assert (view s !! k_current s = Some (strip t)) as Hv by (by rewrite view_lookup, Hp, Ht).
  assert (parked (view s1) p (c_fs_base (k_cpu s)) (c_fpu (k_cpu s)) (t_space t)) as P.
  { destruct Hs as [(u & Hu & Su)|(u & Hu & Su)]; (assert (view s1 !! p = Some (strip u)) as Hvu by (by rewrite view_lookup, Hu));
      (destruct (Hsaved _ Hv) as [P|[(w & Hw & Sw)|Z]]; [congruence|congruence|by rewrite Hp in P| |]);
      rewrite Hp, Hvu in *; simplify_eq; cbn in Sw; congruence. }
  destruct (parked_run p _ _ _ es s1 rq1 al1 s2 O1 Aes R Hi Hc1 P Hc2 Hfirst) as (_ & ? & ? & ?). done.
Qed.

Definition boot_state (s : kern) : option task_state := t_state <$> k_tasks s !! boot_task.

Lemma context_preserved_witness : ∃ s s1 s2, demo_run [Create] = Ok s ∧ exec (Tick 1) s = Ok s1 ∧
  run [Compute 1 2; Tick 2] s1 = Ok s2 ∧ c_fs_base (k_cpu s2) = 7 ∧ c_fpu (k_cpu s2) = 8 ∧ c_cr3 (k_cpu s2) = KERNEL_SPACE.
Proof.
  destruct (demo_run_ok [Create]) as (s & rq & al & E & O).
  { intros s. cbn [all_allowed allowed]. repeat (split; [exact I|destruct (exec _ _); try exact I]). }
  assert (∃ s1, exec (Tick 1) s = Ok s1) as [s1 E1] by (destruct (step_ok (Tick 1) s rq al O I) as (s1 & b & E1 & _); exists s1; exact E1).
  assert (∀ A (f : kern → A) a es, (s ← demo_run (Create :: Tick 1 :: es); Ok (f s)) = Ok a → ∀ s2, run es s1 = Ok s2 → f s2 = a) as Hread.
  { intros A f a es C s2 R. apply (demo_read f (Create :: Tick 1 :: es) s2); [|exact C].
    change (Create :: Tick 1 :: es) with ([Create] ++ Tick 1 :: es). rewrite (demo_run_app _ _ _ E). cbn [run]. rewrite E1. exact R. }
  assert (∃ s2, run [Compute 1 2; Tick 2] s1 = Ok s2) as [s2 R2].
  { destruct (step_ok (Tick 1) s rq al O I) as (s1' & b & E1' & [(rq1 & al1 & O1 & _) _ _ _] & _).
    assert (s1' = s1) as -> by (rewrite E1 in E1'; injection E1' as ->; reflexivity). destruct (run_ok [Compute 1 2; Tick 2] s1 rq1 al1 O1) as (s2 & _ & _ & R2 & _); [|exists s2; exact R2].
    cbn [all_allowed allowed exec]. split; [exact I|]. split; [exact I|]. destruct (sched_tick _ _); exact I. }
  assert (∃ t, k_tasks s !! boot_task = Some t ∧ t_space t = KERNEL_SPACE) as (t & Ht & Hsp).
  { assert ((t_space <$> k_tasks s !! boot_task) = Some KERNEL_SPACE) as H by
      (apply (demo_read (λ s, t_space <$> k_tasks s !! boot_task) _ _ _ E); vm_compute; reflexivity).
    destruct (k_tasks s !! boot_task) as [t|]; [|discriminate H]. injection H as H. exists t. split; [reflexivity|exact H]. }
  exists s, s1, s2. split; [exact E|]. split; [exact E1|]. split; [exact R2|].
  assert (k_cpu s = Cpu 7 8 0 0) as Ecpu by (apply (demo_read k_cpu _ _ _ E); vm_compute; reflexivity).
  enough (c_fs_base (k_cpu s2) = c_fs_base (k_cpu s) ∧ c_fpu (k_cpu s2) = c_fpu (k_cpu s) ∧ c_cr3 (k_cpu s2) = t_space t) as (H1 & H2 & H3)
    by (rewrite H1, H2, H3, Ecpu; split; [reflexivity|split; [reflexivity|exact Hsp]]).
  assert (∀ s', run [] s1 = Ok s' → k_current s' ≠ boot_task) as N0.
  { intros s' R'. rewrite (Hread Z k_current 3 [] ltac:(vm_compute; reflexivity) s' R'). discriminate. }
  assert (in_state (k_tasks s1) boot_task TASK_RUNNABLE) as Hr.
  { assert (boot_state s1 = Some TASK_RUNNABLE) as H by
      (apply (Hread (option task_state) boot_state (Some TASK_RUNNABLE) [] ltac:(vm_compute; reflexivity) s1); reflexivity).
    unfold boot_state in H. destruct (k_tasks s1 !! boot_task) as [u|] eqn:Hu; [|discriminate H]. injection H as H. exists u. split; [exact Hu|exact H]. }
  apply (context_preserved s rq al boot_task t (Tick 1) s1 [Compute 1 2; Tick 2] s2 O); try assumption.
  - apply (demo_read k_current _ _ _ E). vm_compute. reflexivity.
  - discriminate.
  - exact I.
  - apply N0. reflexivity.
  - left. exact Hr.
  - cbn [all_allowed allowed exec]. split; [exact I|]. split; [exact I|]. destruct (sched_tick _ _); exact I.
  - apply (Hread Z k_current boot_task [Compute 1 2; Tick 2] ltac:(vm_compute; reflexivity) s2 R2).
  - intros es1 es2 s' Ees Hne R'. destruct es1 as [|e1 [|e2 es1]]; [apply N0; exact R'| |].
    + injection Ees as Ee _. rewrite <- Ee in R'. rewrite (Hread Z k_current 3 [Compute 1 2] ltac:(vm_compute; reflexivity) s' R'). discriminate.
    + exfalso. injection Ees as _ _ Ees. destruct es1; [|discriminate Ees]. apply Hne. symmetry. exact Ees.
Defined.

(** [process_group_exit] condemns a sibling and wakes it only when it sleeps
    already.  Task 3 has passed the test of [signal_pending] that comes before
    the locked part of [sched_sleep_timed_interruptible] when it is preempted
    and condemned; it then goes to sleep, without a deadline, for good. *)
Example condemned_sleeper :
  (s ← demo_run [Create; Tick 1; Tick 2; Condemn 3; Tick 3; SleepTimed 0];
   t ← get 3 s; Ok (t_state t, t_need_die t, t_deadline t, t_wake_pending t)) = Ok (TASK_SLEEPING, true, 0, 0).
Proof. vm_compute. reflexivity. Qed.

(** When the table of tasks is full, [sched_create_kernel_thread] gives the
    stack and the task back but not the process object. *)
Example full_table_leaks_process :
  (s ← demo_run []; '(r, _, s') ← sched_create_kernel_thread (with_all (k_all_tasks s) JNU_MAX_TASKS s);
   Ok (r, size (k_procs s), size (k_procs s'), size (k_tasks s'))) = Ok (- EAGAIN, 1%nat, 2%nat, 2%nat).
Proof. vm_compute. reflexivity. Qed.
