(* ===== verification/Mutex.v ===== *)
(** * lib/mutex.c: sleeping mutexes on one CPU

    The sections a mutex runs under its guard, and the calls between them, are
    the atomic steps; a task can be preempted between two of them.  A waiter
    node lives on the kernel stack of the task that waits, so it is named by
    the task and exists from the moment the task queues itself until its
    [mutex_lock] returns; reading it afterwards is a [Fault]. *)

From S2P Require Import Prelude Sched.

Record mutex_waiter := Waiter { w_task : Z; w_next : tptr }.

Record mutex := Mutex { m_owner : tptr; m_head : tptr; m_tail : tptr; m_nodes : gmap Z mutex_waiter }.

Definition with_owner (o : tptr) (m : mutex) : mutex := Mutex o (m_head m) (m_tail m) (m_nodes m).
Definition with_waiters (h l : tptr) (m : mutex) : mutex := Mutex (m_owner m) h l (m_nodes m).
Definition with_nodes (n : gmap Z mutex_waiter) (m : mutex) : mutex := Mutex (m_owner m) (m_head m) (m_tail m) n.

Definition mutex_init (m : mutex) : mutex := Mutex None None None (m_nodes m).

(** Appending the caller's node to the queue. *)
Definition enqueue (self : Z) (m : mutex) : outcome mutex :=
  let m := with_nodes (<[self := Waiter self None]> (m_nodes m)) m in
  m ← match m_tail m with
      | Some l => w ← deref (m_nodes m !! l); Ok (with_nodes (<[l := Waiter (w_task w) (Some self)]> (m_nodes m)) m)
      | None => Ok (with_waiters (Some self) (m_tail m) m)
      end;
  Ok (with_waiters (m_head m) (Some self) m).

(** The guarded section of [mutex_lock]: [true] when the lock was free. *)
Definition mutex_lock_section (self : Z) (m : mutex) : outcome (bool * mutex) :=
  if decide (m_owner m = Some self) then Panic else
  match m_owner m with
  | None => Ok (true, with_owner (Some self) m)
  | Some _ => m ← enqueue self m; Ok (false, m)
  end.

(** The test after a sleep; the node goes away when [mutex_lock] returns. *)
Definition mutex_recheck (self : Z) (m : mutex) : bool * mutex :=
  if decide (m_owner m = Some self) then (true, with_nodes (delete self (m_nodes m)) m) else (false, m).

(** The guarded section of [mutex_unlock]: the waiter to wake. *)
Definition mutex_unlock_section (self : Z) (m : mutex) : outcome (tptr * mutex) :=
  if decide (m_owner m = Some self) then
    match m_head m with
    | Some n =>
        w ← deref (m_nodes m !! n);
        let m := with_waiters (w_next w) (match w_next w with None => None | Some _ => m_tail m end) m in
        Ok (Some n, with_owner (Some (w_task w)) m)
    | None => Ok (None, with_owner None m)
    end
  else Panic.

(** [sched_wake(next->task)] after the guard was dropped. *)
Definition mutex_wake (n : Z) (m : mutex) (s : kern) : outcome kern :=
  w ← deref (m_nodes m !! n); sched_wake (w_task w) s.

Definition mutex_trylock (self : Z) (m : mutex) : Z * mutex :=
  match m_owner m with
  | None => (0, with_owner (Some self) m)
  | Some _ => (- EBUSY, m)
  end.

Definition mutex_is_locked (m : mutex) : bool := bool_decide (m_owner m ≠ None).
