(* ===== verification/MutexSpec.v ===== *)
(** * Mutual exclusion and hand-over of mutexes under preemption

    The tasks of the scheduler run the code of mutex.c; [pc] says where each
    task is in it.  A step is one atomic section, or any event of the
    scheduler (timer interrupts and stray wake-ups included). *)

From S2P Require Import Prelude Pmm PmmSystem Sched SchedSpec SchedSystem Mutex.

Inductive pc :=
| Outside                 (* not in mutex_lock or mutex_unlock, not holding *)
| Queued                  (* in mutex_lock, before sched_sleep_current *)
| Woke                    (* in mutex_lock, behind sched_sleep_current *)
| Holding                 (* mutex_lock or mutex_trylock has returned *)
| Handing (n : Z).        (* in mutex_unlock, before sched_wake *)

Record msys := Msys { y_kern : kern; y_mutex : mutex; y_pc : gmap Z pc }.

Definition pc_of (y : msys) (p : Z) : pc := default Outside (y_pc y !! p).

Inductive mevent :=
| Lock | TryLock | GoSleep | Recheck | Unlock | Hand | Other (e : event).

Definition set_pc (p : Z) (c : pc) (s : kern) (m : mutex) (y : msys) : msys := Msys s m (<[p := c]> (y_pc y)).

(** The current task takes its next step, or something else happens. *)
Definition mexec (e : mevent) (y : msys) : outcome msys :=
  let s := y_kern y in let m := y_mutex y in let self := k_current s in
  match e, pc_of y self with
  | Lock, Outside => '(got, m) ← mutex_lock_section self m; Ok (set_pc self (if (got : bool) then Holding else Queued) s m y)
  | TryLock, Outside => let '(r, m) := mutex_trylock self m in Ok (set_pc self (if r =? 0 then Holding else Outside) s m y)
  | GoSleep, Queued => s ← sched_sleep_current s; Ok (set_pc self Woke s m y)
  | Recheck, Woke => let '(mine, m) := mutex_recheck self m in Ok (set_pc self (if (mine : bool) then Holding else Queued) s m y)
  | Unlock, Holding =>
      '(next, m) ← mutex_unlock_section self m;
      Ok (set_pc self (match next with Some n => Handing n | None => Outside end) s m y)
  | Hand, Handing n => s ← mutex_wake n m s; Ok (set_pc self Outside s m y)
  | Other e, _ => s ← exec e s; Ok (Msys s m (y_pc y))
  | _, _ => Ok y
  end.

(** A credit counter is 32 bits wide. *)
Definition credit_room (p : Z) (s : kern) : Prop := ∀ t, k_tasks s !! p = Some t → t_wake_pending t < 2 ^ 32 - 1.

(** What other code may do: it blocks and exits only outside the mutex's own
    code, exits only without the lock, and does not take away the wake
    credits of a task that waits. *)
Definition mallowed (e : mevent) (y : msys) : Prop :=
  let s := y_kern y in let self := k_current s in
  match e with
  | Lock | TryLock => self ≠ idle_task
  | GoSleep => self ≠ idle_task
  | Hand => ∀ n w, pc_of y self = Handing n → m_nodes (y_mutex y) !! n = Some w → credit_room (w_task w) s
  | Recheck | Unlock => True
  | Other e =>
      allowed e s ∧
      match e with
      | Sleep | SleepTimed _ => pc_of y self = Outside ∨ pc_of y self = Holding
      | Exit _ | ExitDetached => pc_of y self = Outside
      | Consume p => pc_of y p = Outside ∨ pc_of y p = Holding
      | Wake p => credit_room p s
      | _ => True
      end
  end.

(** ** The invariant *)

Fixpoint wchain (N : gmap Z mutex_waiter) (ws : list Z) (h : tptr) : Prop :=
  match ws with
  | [] => h = None
  | x :: ws => h = Some x ∧ ∃ w, N !! x = Some w ∧ wchain N ws (w_next w)
  end.

Definition waiting (c : pc) : Prop := c = Queued ∨ c = Woke.

(** In the middle of the code, where a task does not sleep. *)
Definition busy (c : pc) : Prop := c = Queued ∨ ∃ n, c = Handing n.

(** The wake-up of a task that was handed the lock is still to come. *)
Definition to_be_woken (y : msys) (p : Z) : Prop := ∃ q, pc_of y q = Handing p.

Record mutex_ok (y : msys) (ws : list Z) : Prop := MutexOk {
  mo_sched : ∃ rq al, sched_ok (y_kern y) rq al;
  mo_chain : wchain (m_nodes (y_mutex y)) ws (m_head (y_mutex y));
  mo_tail : m_tail (y_mutex y) = last ws;
  mo_nodup : NoDup ws;
  mo_node : ∀ p w, m_nodes (y_mutex y) !! p = Some w → w_task w = p ∧ waiting (pc_of y p);
  mo_waiting : ∀ p, waiting (pc_of y p) → is_Some (m_nodes (y_mutex y) !! p) ∧ (p ∈ ws ∨ m_owner (y_mutex y) = Some p);
  mo_queue : ∀ p, p ∈ ws → waiting (pc_of y p) ∧ m_owner (y_mutex y) ≠ None ∧ m_owner (y_mutex y) ≠ Some p;
  mo_holding : ∀ p, pc_of y p = Holding → m_owner (y_mutex y) = Some p;
  mo_owner : ∀ p, m_owner (y_mutex y) = Some p → pc_of y p = Holding ∨ waiting (pc_of y p);
  mo_alive : ∀ p, pc_of y p ≠ Outside → p ≠ idle_task ∧ ∃ t, view (y_kern y) !! p = Some t ∧ t_state t ≠ TASK_ZOMBIE;
  mo_busy : ∀ p t, busy (pc_of y p) → view (y_kern y) !! p = Some t → awake t;
  mo_credit : ∀ p t, m_owner (y_mutex y) = Some p → waiting (pc_of y p) → view (y_kern y) !! p = Some t →
    to_be_woken y p ∨ (pc_of y p = Queued ∧ 0 < t_wake_pending t) ∨ (pc_of y p = Woke ∧ awake t)
}.

Lemma pc_set y p c s m q : pc_of (set_pc p c s m y) q = if decide (q = p) then c else pc_of y q.
Proof.
  unfold pc_of, set_pc. cbn [y_pc]. destruct (decide (q = p)) as [->|Hne]; [by rewrite lookup_insert_eq|by rewrite lookup_insert_ne].
Qed.

Lemma wchain_ext N N' ws h : (∀ x, x ∈ ws → N' !! x = N !! x) → wchain N ws h → wchain N' ws h.
Proof.
  revert h. induction ws as [|x ws IH]; intros h He; [done|]. intros (-> & w & Hw & C). split; [done|]. exists w.
  split; [rewrite He; [done|by left]|]. apply IH; [|done]. intros y Hy. apply He. by right.
Qed.

Lemma wchain_head N ws h : wchain N ws h → h = head ws.
Proof. destruct ws; [done|]. by intros [-> _]. Qed.

Lemma wchain_snoc N ws h p : wchain N ws h → NoDup ws → p ∉ ws →
  ∀ l w, last ws = Some l → N !! l = Some w →
  wchain (<[l := Waiter (w_task w) (Some p)]> (<[p := Waiter p None]> N)) (ws ++ [p]) h.
Proof.
  revert h. induction ws as [|x ws IH]; intros h C Nd Np l w Hl Hw; [done|]. destruct C as (-> & wx & Hwx & C).
  cbn [app wchain]. split; [done|]. apply NoDup_cons in Nd as [Nx Nd]. assert (p ≠ x ∧ p ∉ ws) as [Npx Np'] by set_solver.
  destruct ws as [|y ws].
  - injection Hl as ->. eexists. rewrite lookup_insert_eq. split; [done|]. cbn [w_next app wchain]. split; [done|].
    eexists. rewrite lookup_insert_ne by done. rewrite lookup_insert_eq. done.
  - rewrite last_cons_cons in Hl. assert (l ∈ y :: ws) as Hly by (by apply last_Some_elem_of).
    exists wx. split; [|by apply (IH (w_next wx))]. rewrite !lookup_insert_ne; [done|done|]. by intros ->.
Qed.

(** ** What the scheduler's steps mean for the waiters *)

(** A task that goes to sleep stays where it is until someone wakes it. *)
Lemma sleep_effect s rq al t : sched_ok s rq al → k_current s ≠ idle_task → view s !! k_current s = Some t →
  ∃ s' b, sched_sleep_current s = Ok s' ∧ stepped s rq s' b false None ∧
    ∃ u, view s' !! k_current s = Some u ∧ t_state u ≠ TASK_ZOMBIE ∧ (0 < t_wake_pending t → awake u).
Proof.
  intros O Hi Ht. destruct (step_sleep s rq al O Hi) as (s' & b & E & Sp). exists s', b. split; [done|]. split; [done|].
  destruct (cur_view _ _ _ O) as (t' & u & Ht' & Hs & Hw & Eu & Su & Ew). assert (t' = t) as -> by congruence.
  unfold sched_sleep_current in E. rewrite Eu in E. cbn [mbind outcome_bind] in E. rewrite Ew in E.
  destruct (Z.gtb_spec (t_wake_pending t) 0).
  - destruct (ok_upd s rq al (k_current s) (set_wake (t_wake_pending t - 1)) t) as (s1 & E1 & O1 & V1 & _); try done; [cbn; lia|by rewrite Hs|].
    rewrite E1 in E. injection E as <-. rewrite V1. eexists. rewrite lookup_insert_eq. split; [done|]. cbn. rewrite Hs. split; [done|]. by right.
  - destruct (step_leave s rq al (set_state TASK_SLEEPING) t TASK_SLEEPING) as (s1 & s2 & E1 & E2 & _ & Hin); try done; [left; split; [done|lia]|].
    rewrite E1 in E. cbn [mbind outcome_bind] in E. assert (s2 = s') as -> by congruence. destruct (Hin ltac:(done)) as (v & Hv & Sv).
    exists v. split; [done|]. rewrite Sv. split; [done|lia].
Qed.

Lemma sleep_timed_effect s rq al dl t : sched_ok s rq al → k_current s ≠ idle_task → view s !! k_current s = Some t →
  ∃ slept s' b, sleep_timed_section dl s = Ok (slept, s') ∧ stepped s rq s' b false None ∧
    ∃ u, view s' !! k_current s = Some u ∧ t_state u ≠ TASK_ZOMBIE ∧ (0 < t_wake_pending t → awake u).
Proof.
  intros O Hi Ht. destruct (step_sleep_timed s rq al dl O Hi) as (slept & s' & b & E & Sp). exists slept, s', b. split; [done|]. split; [done|].
  destruct (cur_view _ _ _ O) as (t' & v & Ht' & Hs & Hw & Eu & _ & Ew). assert (t' = t) as -> by congruence.
  unfold sleep_timed_section in E. rewrite Eu in E. cbn [mbind outcome_bind] in E. rewrite Ew in E. destruct (Z.gtb_spec (t_wake_pending t) 0).
  - destruct (ok_upd s rq al (k_current s) (set_wake (t_wake_pending t - 1)) t) as (s1 & E1 & O1 & V1 & _); try done; [cbn; lia|by rewrite Hs|].
    rewrite E1 in E. injection E as <- <-. rewrite V1. eexists. rewrite lookup_insert_eq. split; [done|]. cbn. rewrite Hs. split; [done|]. by right.
  - destruct (step_leave s rq al (λ t, set_state TASK_SLEEPING (set_timeout dl false t)) t TASK_SLEEPING)
      as (s1 & s2 & E1 & E2 & _ & Hin); try done; [left; split; [done|lia]|].
    rewrite E1 in E. cbn [mbind outcome_bind] in E. rewrite E2 in E. injection E as <- <-. destruct (Hin ltac:(done)) as (u & Hu & Su).
    exists u. split; [done|]. rewrite Su. split; [done|lia].
Qed.

Lemma cur_alive y ws : mutex_ok y ws → ∃ t, view (y_kern y) !! k_current (y_kern y) = Some t ∧ t_state t = TASK_RUNNING.
Proof. intros [(rq & al & O) _ _ _ _ _ _ _ _ _ _ _]. apply (so_cur _ _ _ O). Qed.

Lemma pc_self y p c s m : pc_of (set_pc p c s m y) p = c.
Proof. rewrite pc_set. by rewrite decide_True. Qed.

Lemma pc_other y p c s m q : q ≠ p → pc_of (set_pc p c s m y) q = pc_of y q.
Proof. intros H. rewrite pc_set. by rewrite decide_False. Qed.

(** Splitting a statement about all tasks into the current one and the rest. *)
Ltac on_self q p := destruct (decide (q = p)) as [->|?]; [rewrite ?pc_self|rewrite ?pc_other by done].

(** Wake-ups to come survive when the current task was not handing over. *)
Lemma woken_set y p c s m q : (∀ n, pc_of y p ≠ Handing n) → to_be_woken y q → to_be_woken (set_pc p c s m y) q.
Proof.
  intros Hn [r Hr]. exists r. rewrite pc_other; [done|]. intros ->. by eapply Hn.
Qed.

(** The lock is free: the current task takes it. *)
Lemma take_lock y ws : mutex_ok y ws → pc_of y (k_current (y_kern y)) = Outside → k_current (y_kern y) ≠ idle_task →
  m_owner (y_mutex y) = None →
  mutex_ok (set_pc (k_current (y_kern y)) Holding (y_kern y) (with_owner (Some (k_current (y_kern y))) (y_mutex y)) y) [].
Proof.
  intros I Hp Hi Ho. destruct (cur_alive _ _ I) as (t & Ht & Hs). pose proof I as [O C Tl Nd Nn Nw Nq Nh No Na Nqd Nc].
  set (self := k_current (y_kern y)) in *.
  assert (ws = []) as ->. { destruct ws as [|x ws]; [done|]. exfalso. destruct (Nq x) as (_ & ? & _); [by left|done]. }
  assert (∀ q, waiting (pc_of y q) → False) as Hnw by (intros q Hq; destruct (Nw q Hq) as [_ [?%elem_of_nil|?]]; congruence).
  constructor; cbn [set_pc y_kern y_mutex with_owner m_owner m_head m_tail m_nodes]; try done.
  - intros q w Hq. destruct (Nn q w Hq) as [? ?]. by destruct (Hnw q).
  - intros q. on_self q self; [intros [?|?]; done|]. intros Hq. by destruct (Hnw q).
  - intros q Hq. by apply elem_of_nil in Hq.
  - intros q. on_self q self; [done|]. intros Hq. exfalso. specialize (Nh q Hq). congruence.
  - intros q [= <-]. left. apply pc_self.
  - intros q. on_self q self; [intros _; split; [done|]; exists t; split; [done|by rewrite Hs]|]. apply Na.
  - intros q u. on_self q self; [intros [?|[? ?]]; done|]. apply Nqd.
  - intros q u [= <-]. rewrite pc_self. intros [?|?]; done.
Qed.

(** The lock is held: the current task queues itself. *)
Lemma join_queue y ws m' : mutex_ok y ws → pc_of y (k_current (y_kern y)) = Outside → k_current (y_kern y) ≠ idle_task →
  m_owner (y_mutex y) ≠ None → enqueue (k_current (y_kern y)) (y_mutex y) = Ok m' →
  mutex_ok (set_pc (k_current (y_kern y)) Queued (y_kern y) m' y) (ws ++ [k_current (y_kern y)]).
Proof.
  intros I Hp Hi Ho E. destruct (cur_alive _ _ I) as (t & Ht & Hs). pose proof I as [O C Tl Nd Nn Nw Nq Nh No Na Nqd Nc].
  set (self := k_current (y_kern y)) in *.
  assert (self ∉ ws) as Ns. { intros H. destruct (Nq _ H) as [[?|?] _]; congruence. }
  assert (m_owner (y_mutex y) ≠ Some self) as Nos. { intros H. destruct (No _ H) as [?|[?|?]]; congruence. }
  assert (m_owner m' = m_owner (y_mutex y) ∧ m_tail m' = Some self ∧ wchain (m_nodes m') (ws ++ [self]) (m_head m') ∧
    (∀ q w, m_nodes m' !! q = Some w → (q = self ∧ w_task w = self) ∨ q ≠ self ∧ ∃ w0, m_nodes (y_mutex y) !! q = Some w0 ∧ w_task w = w_task w0) ∧
    (∀ q, is_Some (m_nodes (y_mutex y) !! q) → is_Some (m_nodes m' !! q)) ∧ is_Some (m_nodes m' !! self)) as (Eo & Et & Ec & En & Ek & Es).
  { unfold enqueue in E. cbn [with_nodes m_tail m_nodes m_head m_owner] in E. rewrite Tl in E. destruct (last ws) as [l|] eqn:L.
    - assert (l ∈ ws) as Hl by (by apply last_Some_elem_of). assert (l ≠ self) as Hls by (by intros ->).
      destruct (Nw l (proj1 (Nq l Hl))) as [[w Hw] _]. rewrite lookup_insert_ne, Hw in E by done. cbn [deref mbind outcome_bind] in E.
      injection E as <-. cbn [with_waiters with_nodes m_owner m_tail m_nodes m_head]. split_and!; try done.
      + by apply wchain_snoc.
      + intros q v. rewrite !lookup_insert_Some. intros [[<- <-]|[Hne [[<- <-]|[Hne2 Hv]]]]; [right; split; [done|by exists w]|by left|].
        right. split; [done|by exists v].
      + intros q Hq. rewrite !lookup_insert_is_Some. destruct (decide (l = q)); [by left|right]. split; [done|]. destruct (decide (self = q)); [by left|by right].
      + rewrite lookup_insert_is_Some. right. split; [done|]. rewrite lookup_insert_eq. by eexists.
    - apply last_None in L. subst ws. cbn [mbind outcome_bind] in E. injection E as <-.
      cbn [with_waiters with_nodes m_owner m_tail m_nodes m_head app]. split_and!; try done.
      + split; [done|]. eexists. rewrite lookup_insert_eq. done.
      + intros q v. rewrite lookup_insert_Some. intros [[<- <-]|[Hne Hv]]; [by left|]. right. split; [done|by exists v].
      + intros q Hq. rewrite lookup_insert_is_Some. destruct (decide (self = q)); [by left|by right].
      + rewrite lookup_insert_eq. by eexists. }
  constructor; cbn [set_pc y_kern y_mutex]; rewrite ?Eo; try done.
  - by rewrite last_snoc.
  - apply NoDup_app. split; [done|]. split; [set_solver|apply NoDup_singleton].
  - intros q w Hq. destruct (En q w Hq) as [[-> ->]|[Hne (w0 & Hw0 & ->)]]; [rewrite pc_self; split; [done|by left]|].
    rewrite pc_other by done. by apply Nn.
  - intros q. rewrite elem_of_app, list_elem_of_singleton. on_self q self; [intros _; split; [done|]; left; by right|].
    intros Hq. destruct (Nw q Hq) as [? [?|?]]; (split; [by apply Ek|]); [left; by left|by right].
  - intros q. rewrite elem_of_app, list_elem_of_singleton. on_self q self; [intros _; split_and!; [by left|done|done]|].
    intros [Hq|?]; [by apply Nq|done].
  - intros q. on_self q self; [done|]. apply Nh.
  - intros q Hq. rewrite pc_other by congruence. by apply No.
  - intros q. on_self q self; [intros _; split; [done|]; exists t; split; [done|by rewrite Hs]|]. apply Na.
  - intros q u. on_self q self; [intros _ Hu; assert (u = t) as -> by congruence; by right|]. apply Nqd.
  - intros q u Hq. rewrite pc_other by congruence. intros Hw Hu. destruct (Nc q u Hq Hw Hu) as [Hb|?]; [left|by right].
    apply woken_set; [|done]. intros n. by rewrite Hp.
Qed.

Lemma enqueue_total y ws self : mutex_ok y ws → self ∉ ws → ∃ m', enqueue self (y_mutex y) = Ok m'.
Proof.
  intros [O C Tl Nd Nn Nw Nq Nh No Na Nqd Nc] Ns. unfold enqueue. cbn [with_nodes m_tail m_nodes m_head m_owner]. rewrite Tl.
  destruct (last ws) as [l|] eqn:L; [|by eexists]. assert (l ∈ ws) as Hl by (by apply last_Some_elem_of).
  destruct (Nw l (proj1 (Nq l Hl))) as [[w Hw] _]. rewrite lookup_insert_ne by (by intros ->). rewrite Hw. by eexists.
Qed.

(** After a sleep: the task owns the lock, or goes round again. *)
Lemma recheck_ok y ws : mutex_ok y ws → pc_of y (k_current (y_kern y)) = Woke →
  let self := k_current (y_kern y) in let r := mutex_recheck self (y_mutex y) in
  mutex_ok (set_pc self (if fst r then Holding else Queued) (y_kern y) (snd r) y) ws.
Proof.
  intros I Hp self r. destruct (cur_alive _ _ I) as (t & Ht & Hs). pose proof I as [O C Tl Nd Nn Nw Nq Nh No Na Nqd Nc].
  fold self in Hp, Ht. destruct (Na self ltac:(congruence)) as [Hi _]. subst r. unfold mutex_recheck. destruct (decide _) as [Ho|Ho]; cbn [fst snd].
  - assert (self ∉ ws) as Ns. { intros H. by destruct (Nq _ H) as (_ & _ & ?). }
    constructor; cbn [set_pc y_kern y_mutex with_nodes m_owner m_head m_tail m_nodes]; try done.
    + eapply wchain_ext; [|exact C]. intros x Hx. apply lookup_delete_ne. by intros <-.
    + intros q w. rewrite lookup_delete_Some. intros [Hne Hq]. rewrite pc_other by done. by apply Nn.
    + intros q. on_self q self; [intros [?|?]; done|]. intros Hq. destruct (Nw q Hq) as [? ?]. by rewrite lookup_delete_ne by done.
    + intros q Hq. rewrite pc_other by (by intros ->). by apply Nq.
    + intros q. on_self q self; [done|]. apply Nh.
    + intros q Hq. assert (q = self) as -> by congruence. left. apply pc_self.
    + intros q. on_self q self; [intros _; by apply Na; rewrite Hp|]. apply Na.
    + intros q u. on_self q self; [intros [?|[? ?]]; done|]. apply Nqd.
    + intros q u Hq. assert (q = self) as -> by congruence. rewrite pc_self. intros [?|?]; done.
  - constructor; cbn [set_pc y_kern y_mutex]; try done.
    + intros q w Hq. destruct (Nn q w Hq) as [? ?]. split; [done|]. on_self q self; [by left|done].
    + intros q. on_self q self; [intros _; apply Nw; by right|]. apply Nw.
    + intros q Hq. destruct (Nq q Hq) as (? & ? & ?). split_and!; try done. on_self q self; [by left|done].
    + intros q. on_self q self; [done|]. apply Nh.
    + intros q Hq. rewrite pc_other by congruence. by apply No.
    + intros q. on_self q self; [intros _; by apply Na; rewrite Hp|]. apply Na.
    + intros q u. on_self q self; [intros _ Hu; assert (u = t) as -> by congruence; by right|]. apply Nqd.
    + intros q u Hq. rewrite pc_other by congruence. intros Hw Hu. destruct (Nc q u Hq Hw Hu) as [Hb|?]; [left|by right].
      apply woken_set; [|done]. intros n. by rewrite Hp.
Qed.

(** Giving the lock up: to the first waiter, or to nobody. *)
Lemma unlock_ok y ws : mutex_ok y ws → pc_of y (k_current (y_kern y)) = Holding →
  let self := k_current (y_kern y) in
  ∃ m', mutex_unlock_section self (y_mutex y) = Ok (head ws, m') ∧ m_owner m' = head ws ∧
    mutex_ok (set_pc self (match head ws with Some n => Handing n | None => Outside end) (y_kern y) m' y) (tail ws).
Proof.
  intros I Hp self. destruct (cur_alive _ _ I) as (t & Ht & Hs). fold self in Ht. pose proof I as [O C Tl Nd Nn Nw Nq Nh No Na Nqd Nc].
  pose proof (Nh self Hp) as Ho. fold self in Hp.
  unfold mutex_unlock_section. rewrite decide_True by done. rewrite (wchain_head _ _ _ C). destruct ws as [|x ws]; cbn [head tail].
  - exists (with_owner None (y_mutex y)). split_and!; try done.
    assert (∀ q, waiting (pc_of y q) → q = self) as Hnw.
    { intros q Hq. destruct (Nw q Hq) as [_ [?%elem_of_nil|?]]; [done|congruence]. }
    assert (∀ q, waiting (pc_of y q) → False) as Hnw'. { intros q Hq. pose proof (Hnw q Hq) as ->. destruct Hq; congruence. }
    constructor; cbn [set_pc y_kern y_mutex with_owner m_owner m_head m_tail m_nodes]; try done.
    + intros q w Hq. destruct (Nn q w Hq) as [_ ?]. by destruct (Hnw' q).
    + intros q. on_self q self; [intros [?|?]; done|]. intros Hq. by destruct (Hnw' q).
    + intros q Hq. by apply elem_of_nil in Hq.
    + intros q. on_self q self; [done|]. intros Hq. exfalso. specialize (Nh q Hq). congruence.
    + intros q. on_self q self; [done|]. apply Na.
    + intros q u. on_self q self; [intros [?|[? ?]]; done|]. apply Nqd.
  - destruct C as (_ & w & Hw & C). rewrite Hw. cbn [deref mbind outcome_bind]. destruct (Nn x w Hw) as [Ew Hwx]. rewrite Ew.
    apply NoDup_cons in Nd as [Nx Nd]. destruct (Nq x ltac:(by left)) as (_ & _ & Nox). assert (x ≠ self) as Hxs by congruence.
    eexists. split; [done|]. split; [done|].
    constructor; cbn [set_pc y_kern y_mutex with_owner with_waiters m_owner m_head m_tail m_nodes]; try done.
    + rewrite (wchain_head _ _ _ C), Tl. by destruct ws as [|z ws]; [|rewrite last_cons_cons].
    + intros q v Hq. rewrite pc_other; [by apply Nn|]. intros ->. destruct (Nn _ _ Hq) as [_ [?|?]]; congruence.
    + intros q. on_self q self; [intros [?|?]; done|]. intros Hq. destruct (Nw q Hq) as [? Hin]. split; [done|].
      destruct Hin as [[->|?]%elem_of_cons|?]; [by right|by left|congruence].
    + intros q Hq. destruct (Nq q ltac:(by right)) as (? & ? & ?). rewrite pc_other by congruence. split_and!; try done. intros [= ->]. done.
    + intros q. on_self q self; [done|]. intros Hq. exfalso. specialize (Nh q Hq). congruence.
    + intros q [= <-]. right. by rewrite pc_other.
    + intros q. on_self q self; [intros _; apply Na; congruence|]. apply Na.
    + intros q u. on_self q self; [intros _ Hu; assert (u = t) as -> by congruence; by right|]. apply Nqd.
    + intros q u [= <-] _ _. left. exists self. apply pc_self.
Qed.

(** A step of the scheduler that leaves the waiters awake and their credits. *)
Lemma kern_ok y ws s' pcs : mutex_ok y ws → (∃ rq al, sched_ok s' rq al) →
  (∀ q, pc_of (Msys s' (y_mutex y) pcs) q = pc_of y q ∨
        (q = k_current (y_kern y) ∧ (∃ n, pc_of y q = Handing n) ∧ pc_of (Msys s' (y_mutex y) pcs) q = Outside)) →
  (∀ p t, pc_of y p ≠ Outside → view (y_kern y) !! p = Some t → t_state t ≠ TASK_ZOMBIE →
     ∃ u, view s' !! p = Some u ∧ t_state u ≠ TASK_ZOMBIE ∧
       (pc_of y p ≠ Holding → (awake t → awake u) ∧ t_wake_pending t ≤ t_wake_pending u)) →
  (∀ p n, pc_of y p = Handing n → pc_of (Msys s' (y_mutex y) pcs) p = Outside →
     ∀ u, waiting (pc_of y n) → view s' !! n = Some u → (pc_of y n = Queued ∧ 0 < t_wake_pending u) ∨ (pc_of y n = Woke ∧ awake u)) →
  mutex_ok (Msys s' (y_mutex y) pcs) ws.
Proof.
  intros I O' Hpc Hk Hh. pose proof I as [O C Tl Nd Nn Nw Nq Nh No Na Nqd Nc]. set (y' := Msys s' (y_mutex y) pcs) in *.
  assert (∀ q c, (∀ n, c ≠ Handing n) → c ≠ Outside → pc_of y' q = c ↔ pc_of y q = c) as Hsame.
  { intros q c H1 H2. destruct (Hpc q) as [->|(_ & (n & Hn) & ->)]; [done|]. rewrite Hn. split; congruence. }
  assert (∀ q, waiting (pc_of y' q) ↔ waiting (pc_of y q)) as Hw. { intros q. unfold waiting. by rewrite !Hsame. }
  assert (∀ q, pc_of y' q ≠ Outside → pc_of y q ≠ Outside) as Hout. { intros q. destruct (Hpc q) as [->|(_ & _ & ->)]; done. }
  assert (∀ q u, pc_of y q ≠ Outside → view s' !! q = Some u → ∃ t, view (y_kern y) !! q = Some t ∧
    (pc_of y q ≠ Holding → (awake t → awake u) ∧ t_wake_pending t ≤ t_wake_pending u)) as Hview.
  { intros q u Ho Hu. destruct (Na q Ho) as (_ & t & Ht & Hz). exists t. split; [done|]. destruct (Hk q t Ho Ht Hz) as (v & Hv & _ & Hr). assert (v = u) as -> by congruence. exact Hr. }
  constructor; cbn [y' y_kern y_mutex]; fold y'; try done.
  - intros q w Hq. rewrite Hw. by apply Nn.
  - intros q. rewrite Hw. apply Nw.
  - intros q Hq. rewrite Hw. by apply Nq.
  - intros q. rewrite Hsame by done. apply Nh.
  - intros q Hq. rewrite Hw, Hsame by done. by apply No.
  - intros q Hq. apply Hout in Hq. destruct (Na q Hq) as (? & t & Ht & Hz). split; [done|]. destruct (Hk q t Hq Ht Hz) as (u & Hu & Hz' & _). by exists u.
  - intros q u Hq Hu. assert (busy (pc_of y q)) as Hb.
    { destruct Hq as [Hq|[n Hq]]; [left; by apply Hsame|right; exists n]. destruct (Hpc q) as [<-|(_ & _ & E)]; [done|congruence]. }
    destruct (Hview q u) as (t & Ht & Hr); [destruct Hb as [?|[? ?]]; congruence|done|].
    destruct Hr as [Ha _]; [destruct Hb as [?|[? ?]]; congruence|]. apply Ha. by apply (Nqd q).
  - intros q u Hq. rewrite Hw, !Hsame by done. intros Hwq Hu. assert (pc_of y q ≠ Outside) as Ho by (destruct Hwq; congruence).
    destruct (Hview q u Ho Hu) as (t & Ht & Hr). destruct Hr as [Ha Hc]; [destruct Hwq; congruence|].
    destruct (Nc q t Hq Hwq Ht) as [[r Hr']|[[? ?]|[? ?]]]; [|right; left; split; [done|lia]|right; right; auto].
    destruct (Hpc r) as [E|(_ & _ & E)]; [left; exists r; congruence|]. right. by apply (Hh r q Hr' E u).
Qed.

Lemma sleep_ok y ws : mutex_ok y ws → pc_of y (k_current (y_kern y)) = Queued →
  ∃ s', sched_sleep_current (y_kern y) = Ok s' ∧
    mutex_ok (set_pc (k_current (y_kern y)) Woke s' (y_mutex y) y) ws.
Proof.
  intros I Hp. destruct (cur_alive _ _ I) as (t & Ht & Hs). pose proof I as [(rq & al & O) C Tl Nd Nn Nw Nq Nh No Na Nqd Nc].
  set (self := k_current (y_kern y)) in *. destruct (Na self ltac:(congruence)) as [Hi _].
  destruct (sleep_effect _ rq al t O Hi Ht) as (s' & b & E & Sp & u & Hu & Hz & Hcr). exists s'. split; [done|].
  destruct Sp as [(rq' & al' & O' & _) _ _ Tk]. fold self in Hu.
  assert (∀ q v, q ≠ self → pc_of y q ≠ Outside → view s' !! q = Some v → ∃ w, view (y_kern y) !! q = Some w ∧
    (awake w → awake v) ∧ t_state v ≠ TASK_ZOMBIE ∧ t_wake_pending w ≤ t_wake_pending v) as Hoth.
  { intros q v Hne Ho Hv. destruct (Na q Ho) as (_ & w & Hw & Hzw). exists w. split; [done|].
    destruct (Tk q w Hw Hzw (or_introl Hne)) as (v' & Hv' & Ha & Nz & [?|?]); [|done]. assert (v' = v) as -> by congruence. done. }
  constructor; cbn [set_pc y_kern y_mutex]; try done.
  - by exists rq', al'.
  - intros q w Hq. destruct (Nn q w Hq) as [? ?]. split; [done|]. on_self q self; [by right|done].
  - intros q. on_self q self; [intros _; apply Nw; by left|]. apply Nw.
  - intros q Hq. destruct (Nq q Hq) as (? & ? & ?). split_and!; try done. on_self q self; [by right|done].
  - intros q. on_self q self; [done|]. apply Nh.
  - intros q Hq. on_self q self; [right; by right|]. by apply No.
  - intros q. on_self q self; [intros _; split; [done|by exists u]|]. intros Hq. destruct (Na q Hq) as (? & w & Hw & Hzw). split; [done|].
    destruct (Tk q w Hw Hzw) as (v & Hv & _ & Nz & _); [by left|]. by exists v.
  - intros q v. on_self q self; [intros [?|[? ?]]; done|]. intros Hq Hv.
    destruct (Hoth q v) as (w & Hw & Ha & _); [done|destruct Hq as [?|[? ?]]; congruence|done|]. apply Ha. by apply (Nqd q).
  - intros q v Hq. assert (∀ n, pc_of y self ≠ Handing n) as Hnh by (intros n; by rewrite Hp). destruct (decide (q = self)) as [->|Hne].
    + rewrite pc_self. intros _ Hv. assert (v = u) as -> by congruence. destruct (Nc self t Hq ltac:(by left) Ht) as [Hb|[[_ Hc]|[? _]]];
        [left; by apply woken_set|right; right; auto|congruence].
    + rewrite pc_other by done. intros Hw Hv. destruct (Hoth q v) as (w & Hw' & Ha & _ & Hc); [done|destruct Hw; congruence|done|].
      destruct (Nc q w Hq Hw Hw') as [Hb|[[? ?]|[? ?]]]; [left; by apply woken_set|right; left; split; [done|lia]|right; right; auto].
Qed.

Lemma not_sleeping_awake s rq al p t : sched_ok s rq al → view s !! p = Some t →
  t_state t ≠ TASK_SLEEPING → t_state t ≠ TASK_ZOMBIE → awake t.
Proof.
  intros O Ht H1 H2. unfold awake. destruct (t_state t) eqn:E; try done; [by left|by right|]. exfalso.
  assert (in_state (view s) p TASK_DEAD) as D by (by exists t). destruct (fl_dead _ _ _ _ _ (so_flat _ _ _ O) p D) as [-> _].
  by pose proof (in_state_unique _ _ _ _ D (so_cur _ _ _ O)).
Qed.

(** A wake-up of task [n] from anywhere, as long as its counter has room. *)
Lemma wake_kept y ws n : mutex_ok y ws → n ≠ idle_task → is_Some (k_tasks (y_kern y) !! n) → credit_room n (y_kern y) →
  ∃ s', sched_wake n (y_kern y) = Ok s' ∧ (∃ rq al, sched_ok s' rq al) ∧ k_current s' = k_current (y_kern y) ∧
    (∀ p t, pc_of y p ≠ Outside → view (y_kern y) !! p = Some t → t_state t ≠ TASK_ZOMBIE →
       ∃ u, view s' !! p = Some u ∧ t_state u ≠ TASK_ZOMBIE ∧
         (pc_of y p ≠ Holding → (awake t → awake u) ∧ t_wake_pending t ≤ t_wake_pending u)) ∧
    (∀ u, waiting (pc_of y n) → view s' !! n = Some u → (pc_of y n = Queued ∧ 0 < t_wake_pending u) ∨ (pc_of y n = Woke ∧ awake u)).
Proof.
  intros I Hi [v0 Hv0] Hr. pose proof I as [(rq & al & O) C Tl Nd Nn Nw Nq Nh No Na Nqd Nc].
  assert (view (y_kern y) !! n = Some (strip v0)) as Hv by (by rewrite view_lookup, Hv0).
  pose proof (fl_wake _ _ _ _ _ (so_flat _ _ _ O) _ _ Hv) as Hw0. pose proof (fl_sleep _ _ _ _ _ (so_flat _ _ _ O) _ _ Hv) as Hsl0.
  destruct (step_wake _ rq al n O Hi ltac:(by exists v0)) as (s' & E & [(rq' & al' & O' & (new & Cu & _)) _ _ Tk] & Hn).
  exists s'. split; [done|]. split; [by exists rq', al'|]. split; [done|].
  assert (t_wake_pending (strip v0) < 2 ^ 32 - 1) as Hroom by (apply (Hr v0 Hv0)).
  destruct (Hn _ Hv) as (u & Hu & Hcase). split.
  - intros p t Ho Ht Hz. destruct (Tk p t Ht Hz (or_intror eq_refl)) as (u' & Hu' & Ha & Nz & Hwk). exists u'. split_and!; try done.
    intros Hwp. split; [done|]. destruct Hwk as [?|[= <-]]; [done|]. assert (u' = u) as -> by congruence. assert (t = strip v0) as -> by congruence.
    destruct Hcase as [[Hs _]|(Hs & Es & Ew)].
    + rewrite (Hsl0 Hs). by apply (fl_wake _ _ _ _ _ (so_flat _ _ _ O') n u).
    + rewrite Ew. unfold u32. rewrite Z.mod_small by lia. lia.
  - intros u' Hwn Hu'. assert (u' = u) as -> by congruence.
    destruct (Na n ltac:(destruct Hwn; congruence)) as (_ & t & Ht & Hz). assert (t = strip v0) as -> by congruence.
    destruct Hcase as [[Hs Ha]|(Hs & Es & Ew)].
    + right. destruct Hwn as [Hq|Hq]; [|done]. pose proof (Nqd n _ (or_introl Hq) Hv) as [?|?]; congruence.
    + destruct Hwn as [Hq|Hq]; [left|right].
      * split; [done|]. rewrite Ew. unfold u32. rewrite Z.mod_small by lia. lia.
      * split; [done|]. eapply not_sleeping_awake; [exact O'|exact Hu|congruence|congruence].
Qed.

(** A task that goes to sleep is not gone. *)
Lemma leaver_stays e s rq al s' : sched_ok s rq al → allowed e s → exec e s = Ok s' → e = Sleep ∨ (∃ dl, e = SleepTimed dl) →
  ∃ u, view s' !! k_current s = Some u ∧ t_state u ≠ TASK_ZOMBIE.
Proof.
  intros O A E [->|[dl ->]]; cbn [exec allowed] in *; destruct (so_cur _ _ _ O) as (t & Ht & Hs).
  - destruct (sleep_effect s rq al t O A Ht) as (s1 & b & E1 & _ & u & Hu & Hz & _). assert (s1 = s') as -> by congruence. by exists u.
  - destruct (sleep_timed_effect s rq al dl t O A Ht) as (slept & s1 & b & E1 & _ & u & Hu & Hz & _). rewrite E1 in E. injection E as ->. by exists u.
Qed.

(** Handing over: the waiter's node still exists, or it has returned already. *)
Lemma hand_ok y ws n : mutex_ok y ws → mallowed Hand y → pc_of y (k_current (y_kern y)) = Handing n →
  match m_nodes (y_mutex y) !! n with
  | None => mutex_wake n (y_mutex y) (y_kern y) = Fault
  | Some _ => ∃ s', mutex_wake n (y_mutex y) (y_kern y) = Ok s' ∧
      mutex_ok (set_pc (k_current (y_kern y)) Outside s' (y_mutex y) y) ws
  end.
Proof.
  intros I A Hp. pose proof I as [_ _ _ _ Nn _ _ _ _ Na _ _]. unfold mutex_wake. destruct (m_nodes (y_mutex y) !! n) as [w|] eqn:Hw; [|done].
  cbn [deref mbind outcome_bind]. destruct (Nn n w Hw) as [Ew Hwn]. rewrite Ew.
  destruct (Na n ltac:(destruct Hwn; congruence)) as (Hi & t & Ht & _).
  destruct (wake_kept y ws n I Hi) as (s' & E & O' & Cu & Hk & Hn).
  { destruct (view_Some _ _ _ Ht) as (u & Hu & _). by exists u. }
  { rewrite <- Ew. by apply (A n w). }
  exists s'. split; [done|]. set (self := k_current (y_kern y)) in *. unfold set_pc. apply kern_ok with (1 := I); try done.
  - intros q. change (Msys s' (y_mutex y) (<[self := Outside]> (y_pc y))) with (set_pc self Outside s' (y_mutex y) y).
    on_self q self; [right; split_and!; try done; by exists n|by left].
  - intros p n' Hp' Hout u Hwn' Hu. change (Msys s' (y_mutex y) (<[self := Outside]> (y_pc y))) with (set_pc self Outside s' (y_mutex y) y) in Hout.
    destruct (decide (p = self)) as [->|Hne]; [|rewrite pc_other in Hout by done; congruence].
    assert (n' = n) as -> by congruence. by apply Hn.
Qed.

(** Any other event of the scheduler. *)
Lemma other_ok e y ws : mutex_ok y ws → mallowed (Other e) y →
  ∃ s', exec e (y_kern y) = Ok s' ∧ mutex_ok (Msys s' (y_mutex y) (y_pc y)) ws.
Proof.
  intros I [A1 A2]. pose proof I as [(rq & al & O) _ _ _ _ _ _ _ _ Na _ _].
  assert (∀ s', (∃ rq al, sched_ok s' rq al) → (∀ p t, pc_of y p ≠ Outside → view (y_kern y) !! p = Some t → t_state t ≠ TASK_ZOMBIE →
     ∃ u, view s' !! p = Some u ∧ t_state u ≠ TASK_ZOMBIE ∧
       (pc_of y p ≠ Holding → (awake t → awake u) ∧ t_wake_pending t ≤ t_wake_pending u)) →
    mutex_ok (Msys s' (y_mutex y) (y_pc y)) ws) as Hfin.
  { intros s' O' Hk. apply kern_ok with (1 := I); try done; [by left|]. intros p n Hp Hout. change (pc_of y p = Outside) in Hout. congruence. }
  assert ((∃ p, e = Wake p) ∨ ¬ (∃ p, e = Wake p)) as [[p ->]|Hnw] by (destruct e; (by left; eexists) || (by right; intros [? ?])).
  { destruct A1 as [Hi Hp]. destruct (wake_kept y ws p I Hi Hp A2) as (s' & E & O' & _ & Hk & _). exists s'. split; [exact E|]. by apply Hfin. }
  destruct (step_ok e _ rq al O A1) as (s' & b & E & [(rq' & al' & O' & _) _ _ Tk] & _). exists s'. split; [done|].
  apply Hfin; [by exists rq', al'|]. intros p t Ho Ht Hz.
  destruct (decide (p ≠ k_current (y_kern y) ∨ keeps_current e = true)) as [Hk|Hk].
  - destruct (Tk p t Ht Hz Hk) as (u & Hu & Ha & Nz & Hw). exists u. split_and!; try done. intros Hwt. split; [done|].
    destruct Hw as [?|Et]; [done|]. destruct e; try done; [by destruct Hnw; eexists|]. injection Et as <-. destruct A2; congruence.
  - assert (p = k_current (y_kern y)) as -> by (destruct (decide (p = k_current (y_kern y))); [done|]; exfalso; apply Hk; by left).
    assert (keeps_current e = false) as Hk' by (destruct (keeps_current e); [exfalso; apply Hk; by right|done]).
    assert (pc_of y (k_current (y_kern y)) = Holding) as Hh. { destruct e; try done; destruct A2; congruence. }
    destruct (leaver_stays e _ rq al s' O A1 E) as (u & Hu & Nz).
    { destruct e; try done; try congruence; [by left|right; by eexists]. }
    exists u. split_and!; try done.
Qed.

Lemma mutex_step_ok e y ws : mutex_ok y ws → mallowed e y →
  (∃ y' ws', mexec e y = Ok y' ∧ mutex_ok y' ws') ∨ (e = Hand ∧ mexec e y = Fault).
Proof.
  intros I A.
  pose proof I as [_ _ _ _ _ _ Nq Nh No _ _ _]. unfold mexec. set (self := k_current (y_kern y)).
  assert ((∃ y' ws', Ok y = Ok y' ∧ mutex_ok y' ws')) as Hskip by (by exists y, ws).
  destruct e as [| | | | | |e]; [..|left; destruct (other_ok e y ws I A) as (s' & -> & I'); by eexists _, ws].
  - left. destruct (pc_of y self) eqn:Hp; try done. unfold mutex_lock_section. destruct (decide _) as [Ho|Ho].
    { exfalso. destruct (No self Ho) as [?|[?|?]]; congruence. }
    destruct (m_owner (y_mutex y)) as [o|] eqn:Eo.
    + assert (self ∉ ws) as Ns by (intros H; destruct (Nq _ H) as [[?|?] _]; congruence).
      destruct (enqueue_total y ws self I Ns) as [m' Em]. rewrite Em. cbn [mbind outcome_bind]. eexists _, (ws ++ [self]). split; [done|].
      apply join_queue; try done. congruence.
    + eexists _, []. split; [done|]. by eapply take_lock.
  - left. destruct (pc_of y self) eqn:Hp; try done. unfold mutex_trylock. destruct (m_owner (y_mutex y)) as [o|] eqn:Eo; cbn [Z.eqb].
    + exists (set_pc self Outside (y_kern y) (y_mutex y) y), ws. split; [done|]. unfold set_pc. apply kern_ok with (1 := I); try done.
      * by destruct I.
      * intros q. left. change (pc_of (set_pc self Outside (y_kern y) (y_mutex y) y) q = pc_of y q). by on_self q self.
      * intros p t _ Ht Hz. exists t. split_and!; try done.
      * intros p n Hp' Hout. change (pc_of (set_pc self Outside (y_kern y) (y_mutex y) y) p = Outside) in Hout.
        destruct (decide (p = self)) as [->|]; [congruence|rewrite pc_other in Hout by done; congruence].
    + eexists _, []. split; [done|]. by eapply take_lock.
  - left. destruct (pc_of y self) eqn:Hp; try done. destruct (sleep_ok y ws I Hp) as (s' & -> & I'). by eexists _, ws.
  - left. destruct (pc_of y self) eqn:Hp; try done. pose proof (recheck_ok y ws I Hp) as I'. cbn zeta in I'. fold self in I'.
    destruct (mutex_recheck self (y_mutex y)) as [mine m']. by eexists _, ws.
  - left. destruct (pc_of y self) eqn:Hp; try done. destruct (unlock_ok y ws I Hp) as (m' & Em & _ & I'). fold self in Em, I'. rewrite Em.
    by eexists _, (tail ws).
  - destruct (pc_of y self) as [| | | |n] eqn:Hp; try (by left). pose proof (hand_ok y ws n I A Hp) as H.
    destruct (m_nodes (y_mutex y) !! n); [left|right; by rewrite H]. destruct H as (s' & -> & I'). by eexists _, ws.
Qed.

Definition mstep (y y' : msys) : Prop := ∃ e, mallowed e y ∧ mexec e y = Ok y'.

(** A mutex nobody uses yet, under a running scheduler. *)
Definition mstart (s : kern) : msys := Msys s (mutex_init (Mutex None None None ∅)) ∅.

Lemma mstart_ok s rq al : sched_ok s rq al → mutex_ok (mstart s) [].
Proof.
  intros O. assert (∀ p, pc_of (mstart s) p = Outside) as Hp by done.
  constructor; cbn [mstart y_kern y_mutex mutex_init m_owner m_head m_tail m_nodes]; try done; try (by exists rq, al); try apply NoDup_nil_2.
  - intros p. rewrite Hp. by intros [?|?].
  - intros p ?%elem_of_nil. done.
  - intros p t. rewrite Hp. by intros [?|[? ?]].
Qed.

Lemma mreach_ok y y' ws : mutex_ok y ws → rtc mstep y y' → ∃ ws', mutex_ok y' ws'.
Proof.
  intros I R. revert ws I. induction R as [y|y y1 y' (e & A & E) _ IH]; intros ws I; [by exists ws|].
  destruct (mutex_step_ok e y ws I A) as [(y2 & ws2 & E2 & I2)|[_ F]]; [|congruence]. assert (y2 = y1) as -> by congruence. by apply (IH ws2).
Qed.

(** C11: whatever the tasks and the interrupts do (preemption at any point,
    wake-ups from elsewhere included), two tasks never hold the mutex at once:
    a task that came back from [mutex_lock] or [mutex_trylock] is the owner;
    no section of the mutex panics or follows a dangling pointer, except
    possibly the wake-up that ends [mutex_unlock]. *)
Theorem mutex_mutual_exclusion s rq al y :
  sched_ok s rq al → rtc mstep (mstart s) y →
  (∀ p q, pc_of y p = Holding → pc_of y q = Holding → p = q) ∧
  (∀ p, pc_of y p = Holding → m_owner (y_mutex y) = Some p) ∧
  (∀ e, mallowed e y → e ≠ Hand → ∃ y', mexec e y = Ok y').
Proof.
  intros O R. destruct (mreach_ok _ _ _ (mstart_ok _ _ _ O) R) as (ws & I). split_and!.
  - intros p q Hp Hq. pose proof (mo_holding _ _ I p Hp). pose proof (mo_holding _ _ I q Hq). congruence.
  - apply (mo_holding _ _ I).
  - intros e A Hne. destruct (mutex_step_ok e y ws I A) as [(y' & _ & E & _)|[? _]]; [by exists y'|done].
Qed.

(** C36: no wake-up is lost: a task that was handed the lock while it waits in
    [mutex_lock] never sleeps for good.  Either it is awake (runnable, so that
    the scheduler gets to it), or the task that unlocked is about to wake it
    and is itself awake. *)
Theorem mutex_no_lost_wakeup s rq al y p t :
  sched_ok s rq al → rtc mstep (mstart s) y → m_owner (y_mutex y) = Some p → k_tasks (y_kern y) !! p = Some t →
  pc_of y p = Holding ∨ t_state t = TASK_RUNNABLE ∨ t_state t = TASK_RUNNING ∨
  ∃ q u, pc_of y q = Handing p ∧ k_tasks (y_kern y) !! q = Some u ∧ (t_state u = TASK_RUNNABLE ∨ t_state u = TASK_RUNNING).
Proof.
  intros O R Ho Ht. destruct (mreach_ok _ _ _ (mstart_ok _ _ _ O) R) as (ws & I). destruct I as [_ _ _ _ _ _ _ _ No Na Nb Nc].
  destruct (No p Ho) as [?|Hw]; [by left|right]. assert (view (y_kern y) !! p = Some (strip t)) as Hv by (by rewrite view_lookup, Ht).
  destruct (Nc p _ Ho Hw Hv) as [[q Hq]|[[Hq _]|[_ [Ha|Ha]]]].
  - right. right. destruct (Na q ltac:(congruence)) as (_ & u & Hu & _). destruct (view_Some _ _ _ Hu) as (v & Hv' & Ev).
    exists q, v. split_and!; [done|done|]. assert (busy (pc_of y q)) as Hb by (right; by exists p). pose proof (Nb q u Hb Hu) as Ha.
    rewrite <- Ev in Ha. exact Ha.
  - destruct (Nb p _ (or_introl Hq) Hv) as [Ha|Ha]; [by left|right; by left].
  - by left.
  - right. by left.
Qed.

(** The boot task of a small machine takes the lock. *)
Lemma demo_locked : ∃ s rq al y, demo_run [Create] = Ok s ∧ sched_ok s rq al ∧ rtc mstep (mstart s) y ∧
  pc_of y boot_task = Holding ∧ m_owner (y_mutex y) = Some boot_task ∧ ∃ t, k_tasks (y_kern y) !! boot_task = Some t.
Proof.
  destruct (demo_run_ok [Create]) as (s & rq & al & E & O).
  { intros s. cbn [all_allowed allowed]. repeat (split; [exact I|destruct (exec _ _); try exact I]). }
  assert (k_current s = boot_task) as Hc by (apply (demo_read k_current _ _ _ E); vm_compute; reflexivity).
  assert (boot_state s ≠ None) as Hb by (rewrite (demo_read boot_state _ _ (Some TASK_RUNNING) E ltac:(vm_compute; reflexivity)); discriminate).
  exists s, rq, al. eexists. split; [exact E|]. clear E. split; [exact O|]. split.
  - apply rtc_once. exists Lock. split; [|reflexivity]. cbn [mallowed mstart y_kern]. rewrite Hc. discriminate.
  - cbn [mstart y_kern y_mutex]. rewrite Hc. split; [reflexivity|]. split; [reflexivity|]. cbn [set_pc y_kern].
    unfold boot_state in Hb. destruct (k_tasks s !! boot_task) as [t|]; [by exists t|done].
Qed.

Lemma mutex_mutual_exclusion_witness : ∃ y, pc_of y boot_task = Holding ∧
  ∀ q, pc_of y q = Holding → q = boot_task.
Proof.
  destruct demo_locked as (s & rq & al & y & _ & O & R & Hp & _). exists y. split; [exact Hp|]. intros q Hq.
  destruct (mutex_mutual_exclusion s rq al y O R) as (H & _). exact (H q boot_task Hq Hp).
Defined.

Lemma mutex_no_lost_wakeup_witness : ∃ y t, k_tasks (y_kern y) !! boot_task = Some t ∧
  (pc_of y boot_task = Holding ∨ t_state t = TASK_RUNNABLE ∨ t_state t = TASK_RUNNING ∨
   ∃ q u, pc_of y q = Handing boot_task ∧ k_tasks (y_kern y) !! q = Some u ∧ (t_state u = TASK_RUNNABLE ∨ t_state u = TASK_RUNNING)).
Proof.
  destruct demo_locked as (s & rq & al & y & _ & O & R & _ & Ho & t & Ht). exists y, t. split; [exact Ht|].
  exact (mutex_no_lost_wakeup s rq al y boot_task t O R Ho Ht).
Defined.

Fixpoint mrun (es : list mevent) (y : msys) : outcome msys :=
  match es with [] => Ok y | e :: es => y ← mexec e y; mrun es y end.

(** The exception is real: the unlocker hands the lock to task 3 and is
    preempted before the wake-up; task 3 had a wake credit from elsewhere, so
    it finds itself the owner and returns from [mutex_lock]; its waiter node is
    gone when the unlocker reads [next->task]. *)
Example unlock_reads_dead_waiter :
  (s ← demo_run [Create];
   mrun [Lock; Other (Tick 1); Lock; Other (Wake 3); Other (Tick 2); Unlock; Other (Tick 3);
         GoSleep; Recheck; Other (Tick 4); Hand] (mstart s)) = Fault.
Proof. vm_compute. reflexivity. Qed.
