(* ===== verification/Futex.v ===== *)
(** * kernel/futex.c: waiting on a word of user memory

    A waiter node lives on the kernel stack of the task that waits, so it is named by the task and
    exists while that task is in [futex_wait].  The sections under a bucket's
    guard, and the calls between them, are the atomic steps; [futex_wake] is one section, with the
    calls of [sched_wake] inside.  The process of a task is a parameter, its address
    (0 is NULL), and so is what [copy_from_user] finds at the moment of the comparison. *)

From S2P Require Import Prelude Vma Sched UserCopy.

Definition FUTEX_WAKE_ALL : Z := 0x7fffffff.
Definition FUTEX_NR_BUCKETS : Z := 64.

Record futex_waiter := FWaiter { fw_task : Z; fw_proc : Z; fw_uaddr : Z; fw_woken : bool; fw_next : tptr }.

(** [futex_buckets], by their heads, and the nodes on the stacks. *)
Record futex := Futex { x_heads : list tptr; x_nodes : gmap Z futex_waiter }.

Definition set_next (n : tptr) (w : futex_waiter) : futex_waiter := FWaiter (fw_task w) (fw_proc w) (fw_uaddr w) (fw_woken w) n.
Definition set_woken (w : futex_waiter) : futex_waiter := FWaiter (fw_task w) (fw_proc w) (fw_uaddr w) true (fw_next w).

Definition with_heads (h : list tptr) (x : futex) : futex := Futex h (x_nodes x).
Definition with_fnodes (n : gmap Z futex_waiter) (x : futex) : futex := Futex (x_heads x) n.

(** The index of the bucket. *)
Definition bucket_for (proc uaddr : Z) : nat :=
  let h := proc in
  let h := Z.lxor h (Z.shiftr uaddr 2) in
  let h := Z.lxor h (Z.shiftr uaddr 14) in
  let h := u64 (h * 0x9e3779b97f4a7c15) in
  Z.to_nat (Z.shiftr h 32 mod FUTEX_NR_BUCKETS).

(** [*link] and [*link = v], where [link] is [&b->head] ([None]) or [&w->next]. *)
Definition get_link (b : nat) (link : tptr) (x : futex) : outcome tptr :=
  match link with
  | None => deref (x_heads x !! b)
  | Some w => n ← deref (x_nodes x !! w); Ok (fw_next n)
  end.

Definition put_link (b : nat) (link v : tptr) (x : futex) : outcome futex :=
  match link with
  | None => _ ← deref (x_heads x !! b); Ok (with_heads (<[b := v]> (x_heads x)) x)
  | Some w => n ← deref (x_nodes x !! w); Ok (with_fnodes (<[w := set_next v n]> (x_nodes x)) x)
  end.

(** [while ( *link )] *)
Fixpoint remove_from (fuel : nat) (b : nat) (link : tptr) (w : Z) (x : futex) : outcome futex :=
  match fuel with
  | O => NoFuel
  | S fuel =>
      cur ← get_link b link x;
      match cur with
      | None => Ok x
      | Some c =>
          if c =? w then
            n ← deref (x_nodes x !! w);
            x ← put_link b link (fw_next n) x;
            n ← deref (x_nodes x !! w);
            Ok (with_fnodes (<[w := set_next None n]> (x_nodes x)) x)
          else remove_from fuel b (Some c) w x
      end
  end.

Definition bucket_remove (b : nat) (w : Z) (x : futex) : outcome futex := remove_from (S (size (x_nodes x))) b None w x.

(** ** [futex_wait] *)

(** Up to the end of the first section: the node is queued, or an error and no node.
    [mem] is the result of [copy_from_user] and the word. *)
Definition futex_wait_begin (self proc uaddr val : Z) (mem : Z * Z) (x : futex) : outcome (Z * futex) :=
  if negb (Z.land uaddr 3 =? 0) then Ok (- EINVAL, x) else
  if negb (user_range_ok uaddr 4) then Ok (- EFAULT, x) else
  let b := bucket_for proc uaddr in
  head ← deref (x_heads x !! b);
  let x := with_fnodes (<[self := FWaiter self proc uaddr false head]> (x_nodes x)) x in
  let x := with_heads (<[b := Some self]> (x_heads x)) x in
  let '(err, cur) := mem in
  if negb (err =? 0) then
    x ← bucket_remove b self x; Ok (err, with_fnodes (delete self (x_nodes x)) x)
  else if negb (cur =? val) then
    x ← bucket_remove b self x; Ok (- EAGAIN, with_fnodes (delete self (x_nodes x)) x)
  else Ok (0, x).

(** [w.woken], under the guard *)
Definition futex_woken (self : Z) (x : futex) : outcome bool := w ← deref (x_nodes x !! self); Ok (fw_woken w).

(** The time that is left, or [None] when it is over; a timeout of 0 is none. *)
Definition futex_remaining (timeout start now : Z) : option Z :=
  if timeout =? 0 then Some 0 else
  let elapsed := sub64 now start in
  if elapsed >=? timeout then None else Some (timeout - elapsed).

(** After a sleep that returned [r]: the result of the call, or [None] to go round again. *)
Definition futex_give_up (timeout r : Z) : option Z :=
  if timeout =? 0 then
    if r =? - EINTR then Some (- EINTR) else None
  else
    if r =? - EINTR then Some (- EINTR) else
    if r =? - ETIMEDOUT then Some (- ETIMEDOUT) else None.

(** The last section: the result, and whether it consumes a wake credit.  The node goes
    away when [futex_wait] returns. *)
Definition futex_wait_end (self ret : Z) (x : futex) (s : kern) : outcome (Z * futex * kern) :=
  w ← deref (x_nodes x !! self);
  '(ret, x, s) ←
    (if fw_woken w then s ← sched_consume_wake_pending self s; Ok (0, x, s)
     else x ← bucket_remove (bucket_for (fw_proc w) (fw_uaddr w)) self x; Ok (ret, x, s));
  Ok (ret, with_fnodes (delete self (x_nodes x)) x, s).

(** ** [futex_wake] *)

(** [while ( *link && woken < count)] *)
Fixpoint wake_loop (fuel : nat) (b : nat) (link : tptr) (proc uaddr count woken : Z) (x : futex) (s : kern) : outcome (Z * futex * kern) :=
  match fuel with
  | O => NoFuel
  | S fuel =>
      cur ← get_link b link x;
      match cur with
      | None => Ok (woken, x, s)
      | Some c =>
          if negb (woken <? count) then Ok (woken, x, s) else
          n ← deref (x_nodes x !! c);
          if (fw_proc n =? proc) && (fw_uaddr n =? uaddr) then
            x ← put_link b link (fw_next n) x;
            n ← deref (x_nodes x !! c);
            let x := with_fnodes (<[c := set_woken (set_next None n)]> (x_nodes x)) x in
            s ← sched_wake (fw_task n) s;
            wake_loop fuel b link proc uaddr count (woken + 1) x s
          else wake_loop fuel b (Some c) proc uaddr count woken x s
      end
  end.

Definition futex_wake (proc uaddr count : Z) (x : futex) (s : kern) : outcome (Z * futex * kern) :=
  if negb (Z.land uaddr 3 =? 0) then Ok (- EINVAL, x, s) else
  if negb (user_range_ok uaddr 4) then Ok (- EFAULT, x, s) else
  let count := if count <? 0 then FUTEX_WAKE_ALL else count in
  wake_loop (S (size (x_nodes x))) (bucket_for proc uaddr) None proc uaddr count 0 x s.

Definition futex_requeue (proc uaddr nr_wake nr_requeue : Z) (x : futex) (s : kern) : outcome (Z * futex * kern) :=
  let nr_wake := if nr_wake <? 0 then 0 else nr_wake in
  let nr_requeue := if nr_requeue <? 0 then 0 else nr_requeue in
  let total := nr_wake + nr_requeue in
  let total := if total >? FUTEX_WAKE_ALL then FUTEX_WAKE_ALL else total in
  futex_wake proc uaddr total x s.
