(* ===== verification/FutexSpec.v ===== *)
(** * The wait queues of futex.c as lists

    [frep x W cs]: the buckets of [x] hold the lists [cs], the nodes without their links are
    [W], and a node is in the list of its bucket exactly while nobody has woken it. *)

From stdpp Require Import functions.
From S2P Require Import Prelude Pmm Sched SchedSpec SchedSystem MutexSpec UserCopy Futex.

Definition bare (w : futex_waiter) : futex_waiter := set_next None w.

Definition bucket_of (w : futex_waiter) : nat := bucket_for (fw_proc w) (fw_uaddr w).

Fixpoint fchain (N : gmap Z futex_waiter) (ws : list Z) (h : tptr) : Prop :=
  match ws with
  | [] => h = None
  | x :: ws => h = Some x ∧ ∃ w, N !! x = Some w ∧ fchain N ws (fw_next w)
  end.

Record frep (x : futex) (W : gmap Z futex_waiter) (cs : nat → list Z) : Prop := FRep {
  fr_len : length (x_heads x) = Z.to_nat FUTEX_NR_BUCKETS;
  fr_view : bare <$> x_nodes x = W;
  fr_chain : ∀ b h, x_heads x !! b = Some h → fchain (x_nodes x) (cs b) h;
  fr_nodup : ∀ b, NoDup (cs b);
  fr_in : ∀ b p, p ∈ cs b ↔ ∃ w, W !! p = Some w ∧ fw_woken w = false ∧ bucket_of w = b
}.

(** ** Chains *)

Lemma fchain_ext N N' ws h : (∀ x, x ∈ ws → fw_next <$> N' !! x = fw_next <$> N !! x) → fchain N ws h → fchain N' ws h.
Proof.
  revert h. induction ws as [|x ws IH]; intros h He; [done|]. intros (-> & w & Hw & C). split; [done|].
  pose proof (He x ltac:(by left)) as Ex. rewrite Hw in Ex. destruct (N' !! x) as [w'|] eqn:Hw'; [|done].
  exists w'. split; [done|]. injection Ex as ->. apply IH; [|done]. intros y Hy. apply He. by right.
Qed.

Lemma fchain_head N ws h : fchain N ws h → h = head ws.
Proof. destruct ws; [done|]. by intros [-> _]. Qed.

(** What [*link] is when the nodes [d] have been passed. *)
Lemma fchain_at N d l h : fchain N (d ++ l) h →
  match last d with None => h = head l | Some z => ∃ w, N !! z = Some w ∧ fw_next w = head l end.
Proof.
  revert h. induction d as [|x d IH]; intros h C; [by apply fchain_head in C|]. destruct C as (-> & w & Hw & C).
  specialize (IH _ C). destruct d as [|y d]; [exists w; split; [done|exact (fchain_head _ _ _ C)]|]. rewrite last_cons_cons. destruct (last (y :: d)) eqn:El; [done|by apply last_None in El].
Qed.

Lemma fchain_skip N d z c l h w : fchain N (d ++ z :: c :: l) h → NoDup (d ++ z :: c :: l) → N !! z = Some w →
  fchain (<[z := set_next (head l) w]> N) (d ++ z :: l) h.
Proof.
  revert h. induction d as [|x d IH]; intros h C Nd Hw; cbn [app] in *.
  - destruct C as (-> & w' & _ & _ & wc & Hc & C). split; [done|]. eexists. rewrite lookup_insert_eq. split; [done|].
    apply NoDup_cons in Nd as [Nz Nd]. pose proof (fchain_head _ _ _ C) as Eh. cbn [fw_next set_next]. rewrite <- Eh.
    eapply fchain_ext; [|exact C]. intros y Hy. rewrite lookup_insert_ne; [done|]. intros ->. apply Nz. by right.
  - destruct C as (-> & v & Hv & C). apply NoDup_cons in Nd as [Nx Nd]. split; [done|]. exists v.
    rewrite lookup_insert_ne by (intros ->; apply Nx; set_solver). split; [done|]. by apply IH.
Qed.

Section Rep.
Context (x : futex) (W : gmap Z futex_waiter) (cs : nat → list Z) (R : frep x W cs).

Lemma bucket_range proc uaddr : (bucket_for proc uaddr < Z.to_nat FUTEX_NR_BUCKETS)%nat.
Proof using. unfold bucket_for. pose proof (Z.mod_pos_bound (Z.shiftr (u64 (Z.lxor (Z.lxor proc (Z.shiftr uaddr 2)) (Z.shiftr uaddr 14) * 0x9e3779b97f4a7c15)) 32) FUTEX_NR_BUCKETS ltac:(done)). lia. Qed.

Lemma frep_head b : (b < Z.to_nat FUTEX_NR_BUCKETS)%nat → @lookup nat tptr _ _ b (x_heads x) = Some (head (cs b)).
Proof using R.
  intros Hb. rewrite <- (fr_len _ _ _ R) in Hb. destruct (lookup_lt_is_Some_2 _ _ Hb) as [h Hh]. rewrite Hh. f_equal.
  eapply fchain_head. by apply (fr_chain _ _ _ R).
Qed.

Lemma frep_at b : (b < Z.to_nat FUTEX_NR_BUCKETS)%nat → ∃ h, x_heads x !! b = Some h ∧ fchain (x_nodes x) (cs b) h.
Proof using R. intros Hb. exists (head (cs b)). pose proof (frep_head b Hb) as Hh. split; [exact Hh|]. by apply (fr_chain _ _ _ R). Qed.

Lemma frep_node p w : W !! p = Some w → ∃ n, x_nodes x !! p = Some n ∧ w = bare n.
Proof using R. intros H. rewrite <- (fr_view _ _ _ R), lookup_fmap in H. by apply fmap_Some in H. Qed.

Lemma frep_chain_bucket b p : p ∈ cs b → (b < Z.to_nat FUTEX_NR_BUCKETS)%nat.
Proof using R. intros (w & _ & _ & <-)%(fr_in _ _ _ R). exact (bucket_range (fw_proc w) (fw_uaddr w)). Qed.

(** A waiter is in one list. *)
Lemma frep_apart b b' p : p ∈ cs b → p ∈ cs b' → b = b'.
Proof using R. intros (w & Hw & _ & <-)%(fr_in _ _ _ R) (w' & Hw' & _ & <-)%(fr_in _ _ _ R). congruence. Qed.

Lemma frep_length b : (length (cs b) ≤ size (x_nodes x))%nat.
Proof using R.
  rewrite <- (size_list_to_set (C := gset Z) (cs b)), <- size_dom by apply (fr_nodup _ _ _ R).
  apply subseteq_size. intros p Hp. apply elem_of_list_to_set in Hp. apply elem_of_dom.
  apply (fr_in _ _ _ R) in Hp as (w & Hw & _). destruct (frep_node _ _ Hw) as (n & Hn & _). by exists n.
Qed.

Lemma get_link_spec b d l : cs b = d ++ l → (b < Z.to_nat FUTEX_NR_BUCKETS)%nat → get_link b (last d) x = Ok (head l).
Proof using R.
  intros E Hb. pose proof (frep_head b Hb) as Hh. pose proof (fr_chain _ _ _ R _ _ Hh) as C. rewrite E in C. apply fchain_at in C.
  unfold get_link. destruct (last d) as [z|].
  - destruct C as (w & -> & <-). done.
  - rewrite Hh, E, C. done.
Qed.

(** Unlinking a node and giving it a new value (or dropping it): [c] is woken, or gone. *)
Lemma unlink_waiter b d c l : cs b = d ++ c :: l →
  ∃ x1, put_link b (last d) (head l) x = Ok x1 ∧ x_nodes x1 !! c = x_nodes x !! c ∧
    ∀ o : option futex_waiter, (∀ v, o = Some v → fw_woken v = true ∧ bare v = v) →
      frep (with_fnodes (partial_alter (λ _, o) c (x_nodes x1)) x1) (partial_alter (λ _, o) c W) (<[b := d ++ l]> cs).
Proof using R.
  intros E. pose proof R as [Ln Vw Ch Nd In]. assert (c ∈ cs b) as Hc by (rewrite E; set_solver).
  pose proof (frep_chain_bucket _ _ Hc) as Hb. destruct (frep_at b Hb) as (h0 & Hh & C). rewrite E in C.
  pose proof (Nd b) as Nb. rewrite E in Nb.
  assert (NoDup (d ++ l) ∧ c ∉ d ++ l) as [Ndl Nc].
  { apply NoDup_app in Nb as (N1 & N2 & N3). apply NoDup_cons in N3 as [N3 N4]. split; [apply NoDup_app; split_and!; set_solver|set_solver]. }
  assert (∃ x1, put_link b (last d) (head l) x = Ok x1 ∧ length (x_heads x1) = length (x_heads x) ∧ bare <$> x_nodes x1 = bare <$> x_nodes x ∧
    x_nodes x1 !! c = x_nodes x !! c ∧ (∀ b', b' ≠ b → x_heads x1 !! b' = x_heads x !! b') ∧
    (∀ q, q ∉ d → x_nodes x1 !! q = x_nodes x !! q) ∧ ∃ h, x_heads x1 !! b = Some h ∧ fchain (x_nodes x1) (d ++ l) h)
    as (x1 & E1 & L1 & V1 & N1 & H1 & F1 & h1 & Hh1 & C1).
  { unfold put_link. destruct (last d) as [z|] eqn:Ed.
    - apply last_Some in Ed as [d' ->]. rewrite <- app_assoc in C, Nb. cbn [app] in C, Nb.
      assert (z ∈ cs b) as Hz by (rewrite E; set_solver). apply In in Hz as (wz & Hz & _). destruct (frep_node _ _ Hz) as (nz & Hnz & _).
      rewrite Hnz. eexists. split; [done|]. cbn [with_fnodes x_heads x_nodes]. split_and!; try done.
      + rewrite fmap_insert. apply insert_id. by rewrite lookup_fmap, Hnz.
      + rewrite lookup_insert_ne; [done|]. intros ->. set_solver.
      + intros q Hq. rewrite lookup_insert_ne; [done|]. set_solver.
      + eexists. split; [exact Hh|]. rewrite <- app_assoc. cbn [app]. by eapply fchain_skip.
    - apply last_None in Ed as ->. cbn [app] in *. rewrite Hh. eexists. split; [done|]. cbn [with_heads x_heads x_nodes].
      split_and!; try done; [by rewrite length_insert|intros b' Hb'; by rewrite list_lookup_insert_ne|].
      exists (head l). split; [apply list_lookup_insert_eq; by rewrite Ln|]. destruct C as (_ & w & Hw & C). by pose proof (fchain_head _ _ _ C) as <-. }
  exists x1. split; [done|]. split; [done|]. intros o Ho. constructor; cbn [with_fnodes x_heads x_nodes].
  - congruence.
  - apply map_eq. intros q. rewrite lookup_fmap. destruct (decide (q = c)) as [->|Hne].
    + rewrite !lookup_partial_alter_eq. destruct o as [v|]; [|done]. cbn. f_equal. by apply Ho.
    + rewrite !lookup_partial_alter_ne by done. rewrite <- lookup_fmap. congruence.
  - intros b' h Hb'. destruct (decide (b' = b)) as [->|Hne].
    + rewrite fn_lookup_insert. assert (h = h1) as -> by congruence. eapply fchain_ext; [|exact C1].
      intros q Hq. rewrite lookup_partial_alter_ne; [done|]. by intros ->.
    + rewrite fn_lookup_insert_ne by done. rewrite H1 in Hb' by done. eapply fchain_ext; [|by apply Ch].
      intros q Hq. assert (q ∉ cs b) as Hnq by (intros Hq'; by pose proof (frep_apart _ _ _ Hq Hq')). rewrite E in Hnq.
      rewrite lookup_partial_alter_ne by (intros ->; set_solver). by rewrite F1 by set_solver.
  - intros b'. destruct (decide (b' = b)) as [->|Hne]; [by rewrite fn_lookup_insert|by rewrite fn_lookup_insert_ne].
  - intros b' p. destruct (decide (p = c)) as [->|Hpc].
    + rewrite lookup_partial_alter_eq. split.
      * intros Hp. exfalso. destruct (decide (b' = b)) as [->|Hne]; [by rewrite fn_lookup_insert in Hp|].
        rewrite fn_lookup_insert_ne in Hp by done. by pose proof (frep_apart _ _ _ Hp Hc).
      * intros (w & -> & Hw & _). destruct (Ho w ltac:(done)). congruence.
    + rewrite lookup_partial_alter_ne by done. rewrite <- In. destruct (decide (b' = b)) as [->|Hne]; [|by rewrite fn_lookup_insert_ne].
      rewrite fn_lookup_insert, E. set_solver.
Qed.

(** The enqueueing of [futex_wait]. *)
Lemma push_waiter p proc uaddr : W !! p = None →
  let b := bucket_for proc uaddr in
  frep (with_heads (<[b := Some p]> (x_heads x)) (with_fnodes (<[p := FWaiter p proc uaddr false (head (cs b))]> (x_nodes x)) x))
    (<[p := FWaiter p proc uaddr false None]> W) (<[b := p :: cs b]> cs).
Proof using R.
  intros Hp b. pose proof R as [Ln Vw Ch Nd In]. assert (b < Z.to_nat FUTEX_NR_BUCKETS)%nat as Hb by exact (bucket_range proc uaddr).
  assert (∀ b', p ∉ cs b') as Hn. { intros b' (w & Hw & _)%In. congruence. }
  constructor; cbn [with_heads with_fnodes x_heads x_nodes].
  - by rewrite length_insert.
  - rewrite fmap_insert. by rewrite Vw.
  - intros b' h. assert (∀ l h0, (∀ q, q ∈ l → q ∈ cs b') → fchain (x_nodes x) l h0 →
      fchain (<[p := FWaiter p proc uaddr false (head (cs b))]> (x_nodes x)) l h0) as Hx.
    { intros l h0 Hl. apply fchain_ext. intros q Hq. rewrite lookup_insert_ne; [done|]. intros ->. by apply (Hn b'), Hl. }
    destruct (decide (b' = b)) as [->|Hne].
    + rewrite list_lookup_insert_eq by congruence. intros [= <-]. rewrite fn_lookup_insert. split; [done|]. eexists.
      rewrite lookup_insert_eq. split; [done|]. apply Hx; [done|]. apply Ch. by apply frep_head.
    + rewrite list_lookup_insert_ne by done. rewrite fn_lookup_insert_ne by done. intros Hh. apply Hx; [done|]. by apply Ch.
  - intros b'. destruct (decide (b' = b)) as [->|Hne]; [|by rewrite fn_lookup_insert_ne]. rewrite fn_lookup_insert.
    apply NoDup_cons. done.
  - intros b' q. destruct (decide (q = p)) as [->|Hqp].
    + rewrite lookup_insert_eq. split.
      * intros Hq. eexists. split; [done|]. split; [done|]. destruct (decide (b' = b)) as [->|Hne]; [done|].
        rewrite fn_lookup_insert_ne in Hq by done. by apply Hn in Hq.
      * intros (w & [= <-] & _ & Ew). change (b = b') in Ew. subst b'. rewrite fn_lookup_insert. by left.
    + rewrite lookup_insert_ne by done. rewrite <- In. destruct (decide (b' = b)) as [->|Hne]; [|by rewrite fn_lookup_insert_ne].
      rewrite fn_lookup_insert. set_solver.
Qed.

(** [bucket_remove] of a waiter nobody has woken, whose node then goes away. *)
Lemma bucket_remove_spec p w : W !! p = Some w → fw_woken w = false →
  ∃ x1 d l, cs (bucket_of w) = d ++ p :: l ∧ bucket_remove (bucket_of w) p x = Ok x1 ∧
    frep (with_fnodes (delete p (x_nodes x1)) x1) (delete p W) (<[bucket_of w := d ++ l]> cs).
Proof using R.
  intros Hw Hf. set (b := bucket_of w). assert (p ∈ cs b) as Hp by (apply (fr_in _ _ _ R); by exists w).
  pose proof (frep_chain_bucket _ _ Hp) as Hb. clearbody b.
  assert (∀ fuel d l, cs b = d ++ l → p ∈ l → (length l ≤ fuel)%nat → ∃ x1 d' l', cs b = d' ++ p :: l' ∧
    remove_from fuel b (last d) p x = Ok x1 ∧
    frep (with_fnodes (delete p (x_nodes x1)) x1) (delete p W) (<[b := d' ++ l']> cs)) as H.
  { intros fuel. induction fuel as [|fuel IH]; intros d l E Hl Hf2; [destruct l; [by apply elem_of_nil in Hl|cbn in Hf2; lia]|].
    cbn [remove_from]. rewrite (get_link_spec b d l E Hb). cbn [mbind outcome_bind]. destruct l as [|c l]; [by apply elem_of_nil in Hl|]. cbn [head].
    destruct (Z.eqb_spec c p) as [->|Hne].
    - destruct (unlink_waiter b d p l E) as (x1 & E1 & Ec & H1). destruct (frep_node _ _ Hw) as (n & Hn & _).
      pose proof (fr_chain _ _ _ R _ _ (frep_head b Hb)) as C. rewrite E in C.
      assert (fw_next n = head l) as Hnx.
      { rewrite (app_assoc d [p] l : d ++ p :: l = _) in C. apply fchain_at in C. rewrite last_snoc in C. destruct C as (n' & Hn' & ?). congruence. }
      rewrite Hn. cbn [deref mbind outcome_bind]. rewrite Hnx, E1. cbn [mbind outcome_bind]. rewrite Ec, Hn. cbn [deref mbind outcome_bind].
      eexists _, d, l. split; [done|]. split; [done|]. cbn [with_fnodes x_nodes x_heads]. rewrite delete_insert_eq.
      exact (H1 None ltac:(done)).
    - destruct (IH (d ++ [c]) l) as (x1 & d' & l' & E' & E1 & H1); [by rewrite <- app_assoc|by apply elem_of_cons in Hl as [?|?]|cbn in Hf2; lia|].
      rewrite last_snoc in E1. by exists x1, d', l'. }
  unfold bucket_remove. apply (H _ [] (cs b)); [done|done|]. pose proof (frep_length b). lia.
Qed.
End Rep.

Lemma frep_cs x W cs cs' : frep x W cs → (∀ b, cs' b = cs b) → frep x W cs'.
Proof.
  intros [Ln Vw Ch Nd In] E. constructor; try done.
  - intros b h. rewrite E. apply Ch.
  - intros b. by rewrite E.
  - intros b p. rewrite E. apply In.
Qed.

(** ** The walk of [futex_wake] *)

Definition keyed (W : gmap Z futex_waiter) (proc uaddr p : Z) : bool :=
  match W !! p with Some w => (fw_proc w =? proc) && (fw_uaddr w =? uaddr) | None => false end.

(** The waiters a wake-up of [n] picks: the first ones of the word. *)
Definition chosen (W : gmap Z futex_waiter) (proc uaddr : Z) (n : nat) (l : list Z) : list Z :=
  take n (filter (λ p, keyed W proc uaddr p = true) l).

(** What [sched_wake] does to its task. *)
Definition woke (t u : task) : Prop :=
  t_state t = TASK_SLEEPING ∧ awake u ∨
  t_state t ≠ TASK_SLEEPING ∧ t_state u = t_state t ∧ t_wake_pending u = u32 (t_wake_pending t + 1).

Definition wake_all (c : list Z) (W : gmap Z futex_waiter) : gmap Z futex_waiter :=
  map_imap (λ p w, Some (if bool_decide (p ∈ c) then set_woken w else w)) W.

Lemma wake_all_lookup c W q : wake_all c W !! q = if decide (q ∈ c) then set_woken <$> W !! q else W !! q.
Proof. unfold wake_all. rewrite map_lookup_imap. destruct (W !! q); cbn; [|by case_decide]. by destruct (decide (q ∈ c)); [rewrite bool_decide_true|rewrite bool_decide_false]. Qed.

Lemma wake_all_nil W : wake_all [] W = W.
Proof. apply map_eq. intros q. rewrite wake_all_lookup, decide_False; [done|]. apply not_elem_of_nil. Qed.

Lemma wake_all_cons p c W w : p ∉ c → W !! p = Some w → wake_all c (<[p := set_woken w]> W) = wake_all (p :: c) W.
Proof.
  intros Hp Hw. apply map_eq. intros q. rewrite !wake_all_lookup. destruct (decide (q = p)) as [->|Hne].
  - rewrite decide_False by done. rewrite decide_True by (by left). by rewrite lookup_insert_eq, Hw.
  - rewrite lookup_insert_ne by done. destruct (decide (q ∈ c)); [by rewrite decide_True by (by right)|]. by rewrite decide_False by set_solver.
Qed.

Lemma keyed_set W proc uaddr p q w w' : W !! p = Some w → fw_proc w' = fw_proc w → fw_uaddr w' = fw_uaddr w →
  keyed (<[p := w']> W) proc uaddr q = keyed W proc uaddr q.
Proof.
  intros Hw E1 E2. unfold keyed. destruct (decide (q = p)) as [->|Hne]; [rewrite lookup_insert_eq, Hw; congruence|by rewrite lookup_insert_ne].
Qed.

Lemma chosen_set W proc uaddr n l p w w' : W !! p = Some w → fw_proc w' = fw_proc w → fw_uaddr w' = fw_uaddr w →
  chosen (<[p := w']> W) proc uaddr n l = chosen W proc uaddr n l.
Proof.
  intros Hw E1 E2. unfold chosen. f_equal. apply list_filter_iff. intros q. by rewrite (keyed_set W proc uaddr p q w w').
Qed.

Lemma filter_in_ext (P Q : Z → Prop) {dP : ∀ x, Decision (P x)} {dQ : ∀ x, Decision (Q x)} (l : list Z) :
  (∀ x, x ∈ l → P x ↔ Q x) → filter P l = filter Q l.
Proof.
  induction l as [|a l IH]; intros H; [done|]. rewrite !filter_cons. rewrite IH by (intros x Hx; apply H; by right).
  destruct (H a ltac:(by left)). repeat case_decide; tauto.
Qed.

Lemma filter_all (P : Z → Prop) {dP : ∀ x, Decision (P x)} (l : list Z) : (∀ x, x ∈ l → P x) → filter P l = l.
Proof.
  induction l as [|a l IH]; intros H; [done|]. rewrite filter_cons_True by (apply H; by left). f_equal. apply IH. intros x Hx. apply H. by right.
Qed.

Lemma chosen_in W proc uaddr n l q : q ∈ chosen W proc uaddr n l → q ∈ l ∧ keyed W proc uaddr q = true.
Proof. unfold chosen. intros H%subseteq_take%list_elem_of_filter. tauto. Qed.

Lemma chosen_nodup W proc uaddr n l : NoDup l → NoDup (chosen W proc uaddr n l).
Proof. intros H. unfold chosen. eapply sublist_NoDup; [|apply sublist_take]. by apply NoDup_filter. Qed.

Lemma frep_next x W cs b d c l n : frep x W cs → cs b = d ++ c :: l → x_nodes x !! c = Some n → fw_next n = head l.
Proof.
  intros R E Hn. assert (c ∈ cs b) as Hc by (rewrite E; set_solver).
  destruct (frep_at x W cs R b (frep_chain_bucket x W cs R b c Hc)) as (h & _ & C). rewrite E in C.
  rewrite (app_assoc d [c] l : d ++ c :: l = _) in C. apply fchain_at in C. rewrite last_snoc in C. destruct C as (n' & Hn' & ?). congruence.
Qed.

(** One waiter is unlinked, marked and woken. *)
Lemma wake_one x W cs b d c l w s rq al : frep x W cs → cs b = d ++ c :: l → W !! c = Some w → sched_ok s rq al →
  c ≠ idle_task → fw_task w = c → is_Some (view s !! c) →
  ∃ n x1 s1, x_nodes x !! c = Some n ∧ w = bare n ∧ put_link b (last d) (fw_next n) x = Ok x1 ∧ x_nodes x1 !! c = Some n ∧
    frep (with_fnodes (<[c := set_woken (set_next None n)]> (x_nodes x1)) x1) (<[c := set_woken w]> W) (<[b := d ++ l]> cs) ∧
    sched_wake (fw_task n) s = Ok s1 ∧ (∃ rq al, sched_ok s1 rq al) ∧ k_current s1 = k_current s ∧
    (∀ t, view s !! c = Some t → ∃ u, view s1 !! c = Some u ∧ woke t u) ∧ ∀ q, q ≠ c → view s1 !! q = view s !! q.
Proof.
  intros R E Hw O Hi Ht [t Hv]. destruct (frep_node x W cs R c w Hw) as (n & Hn & ->). destruct (unlink_waiter x W cs R b d c l E) as (x1 & E1 & Ec & H1).
  destruct (view_Some _ _ _ Hv) as (v & Hv' & _).
  destruct (step_wake_view s rq al c O Hi ltac:(by exists v)) as (s1 & Es & [(rq' & al' & O' & (new & Cu & _)) _ _ _] & Hc & Hq).
  exists n, x1, s1. rewrite (frep_next x W cs b d c l n R E Hn). rewrite Ec. split_and!; try done.
  - apply (H1 (Some (set_woken (bare n)))). by intros ? [= <-].
  - change (sched_wake (fw_task (bare n)) s = Ok s1). by rewrite Ht.
  - by exists rq', al'.
Qed.

Lemma wake_loop_spec b proc uaddr count : (b < Z.to_nat FUTEX_NR_BUCKETS)%nat → ∀ fuel x W cs d l s rq al n,
  frep x W cs → cs b = d ++ l → sched_ok s rq al →
  (∀ p w, p ∈ l → W !! p = Some w → p ≠ idle_task ∧ fw_task w = p ∧ is_Some (view s !! p)) →
  (length l < fuel)%nat → n ≤ count → ∀ c, c = chosen W proc uaddr (Z.to_nat (count - n)) l →
  ∃ x' s', wake_loop fuel b (last d) proc uaddr count n x s = Ok (n + Z.of_nat (length c), x', s') ∧
    frep x' (wake_all c W) (<[b := d ++ filter (λ p, p ∉ c) l]> cs) ∧
    (∃ rq al, sched_ok s' rq al) ∧ k_current s' = k_current s ∧ (∀ q, q ∉ c → view s' !! q = view s !! q) ∧
    (∀ q t, q ∈ c → view s !! q = Some t → ∃ u, view s' !! q = Some u ∧ woke t u).
Proof.
  intros Hb fuel. induction fuel as [|fuel IH]; intros x W cs d l s rq al n R E O Hl Hf Hn c Ec; [lia|]. cbn [wake_loop].
  rewrite (get_link_spec x W cs R b d l E Hb). cbn [mbind outcome_bind].
  assert (c = [] → ∃ x' s', Ok (n, x, s) = Ok (n + Z.of_nat (length c), x', s') ∧
    frep x' (wake_all c W) (<[b := d ++ filter (λ p, p ∉ c) l]> cs) ∧ (∃ rq al, sched_ok s' rq al) ∧ k_current s' = k_current s ∧
    (∀ q, q ∉ c → view s' !! q = view s !! q) ∧ (∀ q t, q ∈ c → view s !! q = Some t → ∃ u, view s' !! q = Some u ∧ woke t u)) as Hstop.
  { intros ->. exists x, s. cbn [length]. rewrite Z.add_0_r. split; [done|]. rewrite wake_all_nil.
    split_and!; try done; [|by exists rq, al|by intros q t ?%elem_of_nil].
    eapply frep_cs; [done|]. intros b'. destruct (decide (b = b')) as [<-|]; [|by rewrite fn_lookup_insert_ne].
    rewrite fn_lookup_insert, E. f_equal. apply filter_all. intros q _. apply not_elem_of_nil. }
  destruct l as [|a l]; cbn [head]; [apply Hstop; rewrite Ec; unfold chosen; apply take_nil|].
  destruct (Z.ltb_spec n count) as [Hlt|Hge]; cbn [negb]; [|apply Hstop; rewrite Ec; unfold chosen; by replace (Z.to_nat (count - n)) with 0%nat by lia].
  assert (a ∈ cs b) as Ha by (rewrite E; set_solver). pose proof (fr_nodup _ _ _ R b) as Nd. rewrite E in Nd.
  apply (NoDup_app d (a :: l)) in Nd as (_ & _ & [Na Nd]%NoDup_cons).
  pose proof Ha as (w & Hw & Hfw & _)%(fr_in _ _ _ R). destruct (Hl a w ltac:(by left) Hw) as (Hi & Ht & Hv).
  destruct (wake_one x W cs b d a l w s rq al R E Hw O Hi Ht Hv) as (m & x1 & s1 & Hm & Em & E1 & Hm1 & R1 & Es & O1 & Cu & Hva & Hvo).
  rewrite Hm. cbn [deref mbind outcome_bind].
  assert (keyed W proc uaddr a = (fw_proc m =? proc) && (fw_uaddr m =? uaddr)) as Hk by (unfold keyed; by rewrite Hw, Em). simpl in Hf.
  destruct ((fw_proc m =? proc) && (fw_uaddr m =? uaddr)) eqn:Key.
  - rewrite E1. cbn [mbind outcome_bind]. rewrite Hm1. cbn [deref mbind outcome_bind]. rewrite Es. cbn [mbind outcome_bind].
    destruct O1 as (rq1 & al1 & O1).
    set (c1 := chosen W proc uaddr (Z.to_nat (count - (n + 1))) l).
    assert (c = a :: c1) as ->.
    { rewrite Ec. unfold chosen. rewrite filter_cons_True by done. replace (Z.to_nat (count - n)) with (S (Z.to_nat (count - (n + 1)))) by lia. done. }
    assert (a ∉ c1) as Nc1 by (intros ?%chosen_in; tauto).
    edestruct (IH _ _ _ d l s1 rq1 al1 (n + 1) R1) as (x' & s' & Ew & R' & O' & Cu' & Hq & Hc); [by rewrite fn_lookup_insert|done|..|reflexivity|].
    + intros p w' Hp Hw'. assert (p ≠ a) as Hpa by (by intros ->). rewrite lookup_insert_ne in Hw' by done.
      rewrite Hvo by done. apply Hl; [by right|done].
    + lia.
    + lia.
    + rewrite (chosen_set W proc uaddr _ l a w (set_woken w) Hw eq_refl eq_refl) in Ew, R', Hq, Hc. fold c1 in Ew, R', Hq, Hc. rewrite wake_all_cons in R' by done.
      exists x', s'. split_and!; try done.
      * rewrite Ew. by replace (n + Z.of_nat (length (a :: c1))) with (n + 1 + Z.of_nat (length c1)) by (cbn [length]; lia).
      * eapply frep_cs; [exact R'|]. intros b'. destruct (decide (b = b')) as [<-|]; [|by rewrite !fn_lookup_insert_ne].
        rewrite !fn_lookup_insert. f_equal. rewrite filter_cons_False by set_solver. apply filter_in_ext.
        intros q Hq'. assert (q ≠ a) by (by intros ->). set_solver.
      * congruence.
      * intros q Hq'. rewrite Hq by set_solver. apply Hvo. set_solver.
      * intros q t Hq' Htq. destruct (decide (q = a)) as [->|Hqa]; [|apply Hc; [set_solver|by rewrite Hvo]].
        destruct (Hva t Htq) as (u & Hu & Hwk). exists u. split; [|done]. by rewrite Hq.
  - assert (c = chosen W proc uaddr (Z.to_nat (count - n)) l) as Ec' by (rewrite Ec; unfold chosen; by rewrite filter_cons_False by congruence).
    edestruct (IH x W cs (d ++ [a]) l s rq al n R) as (x' & s' & Ew & R' & H'); [by rewrite <- app_assoc|done|..|exact Ec'|].
    + intros p w' Hp. apply Hl. by right.
    + lia.
    + lia.
    + rewrite last_snoc in Ew. exists x', s'. split; [done|]. split; [|done]. rewrite <- app_assoc in R'. cbn [app] in R'.
      rewrite filter_cons_True; [done|]. rewrite Ec'. intros [? _]%chosen_in. done.
Qed.
