(* ===== verification/FutexSystem.v ===== *)
(** * Tasks that wait on and wake words of user memory

    [fpc] says where a task is in [futex_wait].  A step is one atomic section of futex.c, or any
    event of the scheduler.  Two counters observe the results: the waiters [futex_wake] said it
    woke, and the calls of [futex_wait] that returned 0. *)

From stdpp Require Import functions.
From S2P Require Import Prelude Pmm PmmSystem Sched SchedSpec SchedSystem MutexSpec UserCopy Futex FutexSpec.

Inductive fpc :=
| FOut                                  (* not in futex_wait *)
| FLoop (timeout start : Z)             (* before the test of w.woken *)
| FGot                                  (* w.woken was set: before sched_consume_wake_pending *)
| FSleep (timeout start : Z)            (* before the call that sleeps *)
| FBlock (timeout start deadline : Z)   (* in it, before its locked part *)
| FSlept (timeout start : Z) (slept : bool)
| FClean (ret : Z).                     (* before the last section *)

Record fsys := Fsys { f_kern : kern; f_futex : futex; f_pc : gmap Z fpc; f_credited : Z; f_returned : Z }.

Definition fpc_of (y : fsys) (p : Z) : fpc := default FOut (f_pc y !! p).

Definition at_fpc (p : Z) (c : fpc) (s : kern) (x : futex) (y : fsys) : fsys := Fsys s x (<[p := c]> (f_pc y)) (f_credited y) (f_returned y).

Inductive fevent :=
| FWait (uaddr val timeout : Z) (mem : Z * Z) (now : Z)
| FCheck | FConsume
| FEnter (now now' : Z)      (* the two readings of the clock *)
| FSuspend | FResume | FEnd
| FWake (uaddr count : Z)
| FRequeue (uaddr nr_wake nr_requeue : Z)
| FOther (e : event).

Section Futex.
(** The process of each task. *)
Context (proc : Z → Z).

Definition fexec (e : fevent) (y : fsys) : outcome fsys :=
  let s := f_kern y in let x := f_futex y in let self := k_current s in
  match e, fpc_of y self with
  | FWait uaddr val timeout mem now, FOut =>
      '(r, x) ← futex_wait_begin self (proc self) uaddr val mem x;
      Ok (at_fpc self (if r =? 0 then FLoop timeout (if timeout =? 0 then 0 else now) else FOut) s x y)
  | FCheck, FLoop timeout start =>
      woken ← futex_woken self x;
      Ok (at_fpc self (if (woken : bool) then FGot else FSleep timeout start) s x y)
  | FConsume, FGot => s ← sched_consume_wake_pending self s; Ok (at_fpc self (FClean 0) s x y)
  | FEnter now now', FSleep timeout start =>
      match futex_remaining timeout start now with
      | None => Ok (at_fpc self (FClean (- ETIMEDOUT)) s x y)
      | Some remaining =>
          die ← signal_pending s;
          Ok (at_fpc self (if (die : bool) then FClean (- EINTR) else FBlock timeout start (sleep_deadline remaining now')) s x y)
      end
  | FSuspend, FBlock timeout start deadline =>
      '(slept, s) ← sleep_timed_section deadline s; Ok (at_fpc self (FSlept timeout start slept) s x y)
  | FResume, FSlept timeout start slept =>
      '(r, s) ← sleep_timed_result slept s;
      Ok (at_fpc self (match futex_give_up timeout r with Some ret => FClean ret | None => FLoop timeout start end) s x y)
  | FEnd, FClean ret =>
      '(r, x, s) ← futex_wait_end self ret x s;
      Ok (Fsys s x (<[self := FOut]> (f_pc y)) (f_credited y) (f_returned y + (if r =? 0 then 1 else 0)))
  | FWake uaddr count, FOut =>
      '(r, x, s) ← futex_wake (proc self) uaddr count x s;
      Ok (Fsys s x (f_pc y) (f_credited y + Z.max r 0) (f_returned y))
  | FRequeue uaddr nr_wake nr_requeue, FOut =>
      '(r, x, s) ← futex_requeue (proc self) uaddr nr_wake nr_requeue x s;
      Ok (Fsys s x (f_pc y) (f_credited y + Z.max r 0) (f_returned y))
  | FOther e, _ => s ← exec e s; Ok (Fsys s x (f_pc y) (f_credited y) (f_returned y))
  | _, _ => Ok y
  end.

(** What other code may do: in [futex_wait] a task neither sleeps nor exits elsewhere, nobody
    takes its wake credits, and the counters of credits have room. *)
Definition fallowed (e : fevent) (y : fsys) : Prop :=
  let s := f_kern y in let self := k_current s in
  match e with
  | FWait _ _ _ _ _ => self ≠ idle_task
  | FWake _ _ | FRequeue _ _ _ => ∀ p, fpc_of y p ≠ FOut → credit_room p s
  | FOther e =>
      allowed e s ∧
      match e with
      | Sleep | SleepTimed _ | Exit _ | ExitDetached => fpc_of y self = FOut
      | Consume p => fpc_of y p = FOut
      | Wake p => credit_room p s
      | _ => True
      end
  | _ => True
  end.

Definition fstep (y y' : fsys) : Prop := ∃ e, fallowed e y ∧ fexec e y = Ok y'.
End Futex.

(** Nobody waits yet. *)
Definition fstart (s : kern) : fsys := Fsys s (Futex (replicate (Z.to_nat FUTEX_NR_BUCKETS) None) ∅) ∅ 0 0.

(** ** The invariant *)

Definition suspended (c : fpc) : bool := match c with FSlept _ _ _ => true | _ => false end.

(** What a woken waiter needs in order not to sleep on. *)
Definition wakeful (c : fpc) (t : task) : Prop :=
  match c with
  | FSleep _ _ | FBlock _ _ _ => 0 < t_wake_pending t
  | FSlept _ _ _ => awake t
  | _ => True
  end.

Definition succeeding (c : fpc) : Prop := match c with FGot => True | FClean r => r = 0 | _ => False end.

Record waiter_ok (p : Z) (c : fpc) (w : futex_waiter) (t : task) : Prop := WaiterOk {
  wo_task : fw_task w = p;
  wo_idle : p ≠ idle_task;
  wo_alive : t_state t ≠ TASK_ZOMBIE;
  wo_awake : suspended c = false → awake t;
  wo_wakeful : fw_woken w = true → wakeful c t;
  wo_success : succeeding c → fw_woken w = true
}.

Definition task_inv (p : Z) (c : fpc) (ow : option futex_waiter) (ot : option task) : Prop :=
  match c with
  | FOut => ow = None
  | _ => ∃ w t, ow = Some w ∧ ot = Some t ∧ waiter_ok p c w t
  end.

Definition woken_set (W : gmap Z futex_waiter) : gset Z := dom (filter (λ pw, fw_woken pw.2 = true) W).

Record futex_ok (y : fsys) (W : gmap Z futex_waiter) (cs : nat → list Z) : Prop := FutexOk {
  fo_sched : ∃ rq al, sched_ok (f_kern y) rq al;
  fo_rep : frep (f_futex y) W cs;
  fo_tasks : ∀ p, task_inv p (fpc_of y p) (W !! p) (view (f_kern y) !! p);
  fo_count : f_credited y = f_returned y + Z.of_nat (size (woken_set W))
}.

Lemma woken_set_in W p : p ∈ woken_set W ↔ ∃ w, W !! p = Some w ∧ fw_woken w = true.
Proof.
  unfold woken_set. rewrite elem_of_dom. split.
  - intros [w [Hw Hf]%map_lookup_filter_Some]. by exists w.
  - intros (w & Hw & Hf). exists w. by apply map_lookup_filter_Some.
Qed.

Lemma task_inv_out p c ow ot : task_inv p c ow ot → ow = None → c = FOut.
Proof. destruct c; [done|..]; intros (w & t & -> & _); done. Qed.

Lemma task_inv_in p c ow ot : task_inv p c ow ot → c ≠ FOut → ∃ w t, ow = Some w ∧ ot = Some t ∧ waiter_ok p c w t.
Proof. destruct c; [done|..]; intros H _; exact H. Qed.

Lemma task_inv_intro p c w t : c ≠ FOut → waiter_ok p c w t → task_inv p c (Some w) (Some t).
Proof. intros Hc H. destruct c; [done|..]; by exists w, t. Qed.

(** A task that went on living, awake if it was, with its credits. *)
Definition kept (ot ou : option task) : Prop :=
  ∀ t, ot = Some t → t_state t ≠ TASK_ZOMBIE →
    ∃ u, ou = Some u ∧ (awake t → awake u) ∧ t_state u ≠ TASK_ZOMBIE ∧ t_wake_pending t ≤ t_wake_pending u.

Lemma kept_eq ot ou : ou = ot → kept ot ou.
Proof. intros -> t Ht Hz. exists t. split_and!; try done. Qed.

Lemma task_inv_kept p c ow ot ou : task_inv p c ow ot → kept ot ou → task_inv p c ow ou.
Proof.
  intros H K. destruct (decide (ow = None)) as [->|Hw]; [by rewrite (task_inv_out _ _ _ _ H eq_refl)|].
  destruct c eqn:Ec; [done|rewrite <- Ec in *..]; (destruct (task_inv_in _ _ _ _ H ltac:(congruence)) as (w & t & -> & -> & [? ? Hz Ha Hk ?]);
   destruct (K t eq_refl Hz) as (u & -> & Hau & Hzu & Hcu); apply task_inv_intro; [congruence|]; constructor; auto;
   intros Hf; specialize (Hk Hf); subst c; cbn in *; auto; lia).
Qed.

Lemma kept_stepped s rq s' b keep touch q : stepped s rq s' b keep touch → q ≠ k_current s ∨ keep = true → touch ≠ Some q →
  kept (view s !! q) (view s' !! q).
Proof.
  intros [_ _ _ Tk] Hq Ht t Hv Hz. destruct (Tk q t Hv Hz Hq) as (u & Hu & Ha & Hzu & [Hc|?]); [|done]. by exists u.
Qed.

Lemma stepped_ok s rq s' b keep touch : stepped s rq s' b keep touch → ∃ rq al, sched_ok s' rq al.
Proof. intros [(rq' & al' & O & _) _ _ _]. by exists rq', al'. Qed.

Lemma fpc_self y p c s x : fpc_of (at_fpc p c s x y) p = c.
Proof. unfold fpc_of, at_fpc. cbn. by rewrite lookup_insert_eq. Qed.

(** The current task moves on; the others are left alone. *)
Lemma self_moves y W cs c s' x' W' cs' cr rt : futex_ok y W cs → (∃ rq al, sched_ok s' rq al) → frep x' W' cs' →
  (∀ q, q ≠ k_current (f_kern y) → W' !! q = W !! q ∧ kept (view (f_kern y) !! q) (view s' !! q)) →
  task_inv (k_current (f_kern y)) c (W' !! k_current (f_kern y)) (view s' !! k_current (f_kern y)) →
  cr = rt + Z.of_nat (size (woken_set W')) →
  futex_ok (Fsys s' x' (<[k_current (f_kern y) := c]> (f_pc y)) cr rt) W' cs'.
Proof.
  intros [_ _ Ht _] O R Hq Hself Hc. constructor; try done. intros p. unfold fpc_of. cbn [f_pc f_kern].
  destruct (decide (p = k_current (f_kern y))) as [->|Hne]; [by rewrite lookup_insert_eq|]. rewrite lookup_insert_ne by done.
  destruct (Hq p Hne) as [-> Hk]. by eapply task_inv_kept; [apply Ht|].
Qed.

Lemma moves_same y W cs c : futex_ok y W cs →
  task_inv (k_current (f_kern y)) c (W !! k_current (f_kern y)) (view (f_kern y) !! k_current (f_kern y)) →
  futex_ok (at_fpc (k_current (f_kern y)) c (f_kern y) (f_futex y) y) W cs.
Proof.
  intros I H. pose proof I as [O R _ Hc]. apply self_moves with (1 := I); try done. intros q _. split; [done|by apply kept_eq].
Qed.

(** ** The sections of [futex_wait] *)

Lemma cur_running y W cs : futex_ok y W cs → ∃ t, view (f_kern y) !! k_current (f_kern y) = Some t ∧ t_state t = TASK_RUNNING ∧ awake t.
Proof. intros [(rq & al & O) _ _ _]. destruct (so_cur _ _ _ O) as (t & Ht & Hs). exists t. split_and!; try done. by right. Qed.

(** A task in [futex_wait] has its node; the current one is awake. *)
Lemma cur_waiter y W cs c : futex_ok y W cs → fpc_of y (k_current (f_kern y)) = c → c ≠ FOut →
  ∃ w t, W !! k_current (f_kern y) = Some w ∧ view (f_kern y) !! k_current (f_kern y) = Some t ∧ awake t ∧
    waiter_ok (k_current (f_kern y)) c w t.
Proof.
  intros I Hp Hc. destruct (cur_running _ _ _ I) as (t & Ht & _ & Ha). pose proof (fo_tasks _ _ _ I (k_current (f_kern y))) as H. rewrite Hp in H.
  destruct (task_inv_in _ _ _ _ H Hc) as (w & t' & Hw & Ht' & Hok). exists w, t'. assert (t' = t) as -> by congruence. by split_and!.
Qed.

Lemma fwait_ok pr y W cs uaddr val timeout mem now : futex_ok y W cs → fpc_of y (k_current (f_kern y)) = FOut → k_current (f_kern y) ≠ idle_task →
  ∃ r x', futex_wait_begin (k_current (f_kern y)) pr uaddr val mem (f_futex y) = Ok (r, x') ∧
    ∃ W' cs', futex_ok (at_fpc (k_current (f_kern y)) (if r =? 0 then FLoop timeout (if timeout =? 0 then 0 else now) else FOut) (f_kern y) x' y) W' cs'.
Proof.
  intros I Hp Hi. pose proof I as [O R Ht Hc]. set (self := k_current (f_kern y)) in *. pose proof (Ht self) as Hw. rewrite Hp in Hw. cbn in Hw.
  unfold futex_wait_begin.
  assert (∀ r x' cs', r ≠ 0 → frep x' W cs' → ∃ r' x'', Ok (r, x') = Ok (r', x'') ∧
    ∃ W' cs', futex_ok (at_fpc self (if r' =? 0 then FLoop timeout (if timeout =? 0 then 0 else now) else FOut) (f_kern y) x'' y) W' cs') as Herr.
  { intros r x' cs' Hr R'. exists r, x'. split; [done|]. exists W, cs'. destruct (Z.eqb_spec r 0); [done|].
    apply self_moves with (1 := I); try done. intros q _. split; [done|by apply kept_eq]. }
  destruct (negb (Z.land uaddr 3 =? 0)); [by apply (Herr (- EINVAL) (f_futex y) cs)|].
  destruct (negb (user_range_ok uaddr 4)); [by apply (Herr (- EFAULT) (f_futex y) cs)|].
  set (b := bucket_for pr uaddr). pose proof (frep_head _ _ _ R b (bucket_range pr uaddr)) as Hh.
  rewrite Hh. cbn [deref mbind outcome_bind]. pose proof (push_waiter _ _ _ R self pr uaddr Hw) as Rp. cbn zeta in Rp. fold b in Rp.
  set (x1 := with_heads _ (with_fnodes _ _)) in *. change (with_heads (<[b := Some self]> (x_heads (with_fnodes (<[self := FWaiter self pr uaddr false (head (cs b))]> (x_nodes (f_futex y))) (f_futex y)))) (with_fnodes (<[self := FWaiter self pr uaddr false (head (cs b))]> (x_nodes (f_futex y))) (f_futex y))) with x1.
  destruct (bucket_remove_spec _ _ _ Rp self (FWaiter self pr uaddr false None)) as (x2 & d & l & Ed & E2 & R2); [apply lookup_insert_eq|done|].
  change (bucket_of (FWaiter self pr uaddr false None)) with b in Ed, E2, R2. rewrite delete_insert_id in R2 by done.
  destruct mem as [err cur]. destruct (Z.eqb_spec err 0) as [->|Herr0]; cbn [negb].
  - destruct (Z.eqb_spec cur val) as [->|Hv]; cbn [negb].
    + exists 0, x1. split; [done|]. eexists _, _. destruct (cur_running _ _ _ I) as (t & Hvt & Hs & Ha).
      apply self_moves with (1 := I); [done|exact Rp|..].
      * intros q Hq. split; [by rewrite lookup_insert_ne|by apply kept_eq].
      * fold self. rewrite lookup_insert_eq. fold self in Hvt. rewrite Hvt. cbn [Z.eqb]. apply task_inv_intro; [done|]. constructor; try done. by rewrite Hs.
      * rewrite Hc. do 2 f_equal. f_equal. apply set_eq. intros q. rewrite !woken_set_in. destruct (decide (q = self)) as [->|Hne].
        -- rewrite lookup_insert_eq, Hw. split; [by intros (? & ? & ?)|]. intros (? & [= <-] & ?). done.
        -- by rewrite lookup_insert_ne.
    + rewrite E2. cbn [mbind outcome_bind]. by apply (Herr (- EAGAIN) _ _ ltac:(done) R2).
  - rewrite E2. cbn [mbind outcome_bind]. by apply (Herr err _ _ Herr0 R2).
Qed.

Lemma futex_woken_spec y W cs p w : futex_ok y W cs → W !! p = Some w → futex_woken p (f_futex y) = Ok (fw_woken w).
Proof. intros [_ R _ _] Hw. destruct (frep_node _ _ _ R p w Hw) as (n & Hn & ->). unfold futex_woken. by rewrite Hn. Qed.

Lemma fcheck_ok y W cs timeout start : futex_ok y W cs → fpc_of y (k_current (f_kern y)) = FLoop timeout start →
  ∃ b, futex_woken (k_current (f_kern y)) (f_futex y) = Ok b ∧
    futex_ok (at_fpc (k_current (f_kern y)) (if b then FGot else FSleep timeout start) (f_kern y) (f_futex y) y) W cs.
Proof.
  intros I Hp. destruct (cur_waiter _ _ _ _ I Hp ltac:(done)) as (w & t & Hw & Ht & Ha & [H1 H2 H3 H4 H5 H6]).
  exists (fw_woken w). split; [by eapply futex_woken_spec|]. apply moves_same; [done|]. rewrite Hw, Ht.
  apply task_inv_intro; [by destruct (fw_woken w)|]. constructor; try done; destruct (fw_woken w) eqn:Ew; done.
Qed.

(** A quiet step of the scheduler after which the task gives up or goes on. *)
Lemma quiet_ok y W cs c c' s' rq touch : futex_ok y W cs → fpc_of y (k_current (f_kern y)) = c → c ≠ FOut → c' ≠ FOut →
  stepped (f_kern y) rq s' false true touch → touch = None ∨ touch = Some (k_current (f_kern y)) →
  (∀ t, wakeful c' t) → (succeeding c' → succeeding c) →
  futex_ok (at_fpc (k_current (f_kern y)) c' s' (f_futex y) y) W cs.
Proof.
  intros I Hp Hc Hc' Sp Htc Hwk Hsc. destruct (cur_waiter _ _ _ _ I Hp Hc) as (w & t & Hw & Ht & Ha & [H1 H2 H3 H4 H5 H6]).
  pose proof I as [_ R _ Hcn]. apply self_moves with (1 := I); try done; [by eapply stepped_ok| |].
  - intros q Hq. split; [done|]. eapply kept_stepped; [done|by left|]. destruct Htc as [->| ->]; congruence.
  - destruct (sp_tasks _ _ _ _ _ _ Sp _ t Ht H3 ltac:(by right)) as (u & Hu & Hau & Hzu & _). rewrite Hw, Hu.
    apply task_inv_intro; [done|]. constructor; auto.
Qed.

Lemma fconsume_ok y W cs : futex_ok y W cs → fpc_of y (k_current (f_kern y)) = FGot →
  ∃ s', sched_consume_wake_pending (k_current (f_kern y)) (f_kern y) = Ok s' ∧
    futex_ok (at_fpc (k_current (f_kern y)) (FClean 0) s' (f_futex y) y) W cs.
Proof.
  intros I Hp. pose proof I as [(rq & al & O) _ _ _]. destruct (cur_running _ _ _ I) as (t & Ht & _).
  destruct (view_Some _ _ _ Ht) as (u & Hu & _). destruct (step_consume _ rq al _ O ltac:(by exists u)) as (s' & E & Sp).
  exists s'. split; [done|]. by eapply quiet_ok; [..|exact Sp|by right| |].
Qed.

Lemma fenter_ok y W cs timeout start now' : futex_ok y W cs → fpc_of y (k_current (f_kern y)) = FSleep timeout start →
  futex_ok (at_fpc (k_current (f_kern y)) (FClean (- ETIMEDOUT)) (f_kern y) (f_futex y) y) W cs ∧
  ∃ die, signal_pending (f_kern y) = Ok die ∧ ∀ r, futex_ok (at_fpc (k_current (f_kern y))
    (if die then FClean (- EINTR) else FBlock timeout start (sleep_deadline r now')) (f_kern y) (f_futex y) y) W cs.
Proof.
  intros I Hp. pose proof I as [(rq & al & O) _ _ _]. destruct (cur_waiter _ _ _ _ I Hp ltac:(done)) as (w & t & Hw & Ht & Ha & [H1 H2 H3 H4 H5 H6]).
  split; [|destruct (cur_view _ _ _ O) as (t' & u & _ & _ & _ & Eu & _); exists (t_need_die u); split; [unfold signal_pending; by rewrite Eu|intros r]];
    (apply moves_same; [done|]; rewrite Hw, Ht; apply task_inv_intro; [try destruct (t_need_die u); done|]; constructor; try done; try destruct (t_need_die u); try done).
Qed.

Lemma fsuspend_ok y W cs timeout start deadline : futex_ok y W cs → fpc_of y (k_current (f_kern y)) = FBlock timeout start deadline →
  ∃ slept s', sleep_timed_section deadline (f_kern y) = Ok (slept, s') ∧
    futex_ok (at_fpc (k_current (f_kern y)) (FSlept timeout start slept) s' (f_futex y) y) W cs.
Proof.
  intros I Hp. pose proof I as [(rq & al & O) R _ Hcn]. destruct (cur_waiter _ _ _ _ I Hp ltac:(done)) as (w & t & Hw & Ht & Ha & [H1 H2 H3 H4 H5 H6]).
  destruct (sleep_timed_effect _ rq al deadline t O H2 Ht) as (slept & s' & b & E & Sp & u & Hu & Hz & Hcr).
  exists slept, s'. split; [done|]. apply self_moves with (1 := I); try done; [by eapply stepped_ok| |].
  - intros q Hq. split; [done|]. by eapply kept_stepped; [done|left|].
  - rewrite Hw, Hu. apply task_inv_intro; [done|]. constructor; try done. intros Hf. apply Hcr. by apply H5.
Qed.

Lemma fresume_ok y W cs timeout start slept : futex_ok y W cs → fpc_of y (k_current (f_kern y)) = FSlept timeout start slept →
  ∃ r s', sleep_timed_result slept (f_kern y) = Ok (r, s') ∧
    futex_ok (at_fpc (k_current (f_kern y)) (match futex_give_up timeout r with Some ret => FClean ret | None => FLoop timeout start end) s' (f_futex y) y) W cs.
Proof.
  intros I Hp. pose proof I as [(rq & al & O) _ _ _]. destruct (step_sleep_result _ rq al slept O) as (r & s' & E & Sp). exists r, s'. split; [done|].
  assert (∀ ret, futex_give_up timeout r = Some ret → ret ≠ 0) as Hret.
  { unfold futex_give_up. intros ret. destruct (timeout =? 0), (r =? - EINTR), (r =? - ETIMEDOUT); intros [= <-]; done. }
  eapply quiet_ok; [done|exact Hp|done|by destruct (futex_give_up _ _)|exact Sp|by left|by destruct (futex_give_up _ _)|].
  destruct (futex_give_up _ _) as [ret|]; [|done]. intros Hs. by apply Hret in Hs.
Qed.

(** The end: the call returns 0 when the waiter was woken, its error otherwise. *)
Lemma fend_ok y W cs ret : futex_ok y W cs → fpc_of y (k_current (f_kern y)) = FClean ret →
  ∃ w r x' s' W' cs', W !! k_current (f_kern y) = Some w ∧ futex_wait_end (k_current (f_kern y)) ret (f_futex y) (f_kern y) = Ok (r, x', s') ∧
    r = (if fw_woken w then 0 else ret) ∧
    futex_ok (Fsys s' x' (<[k_current (f_kern y) := FOut]> (f_pc y)) (f_credited y) (f_returned y + (if r =? 0 then 1 else 0))) W' cs'.
Proof.
  intros I Hp. pose proof I as [(rq & al & O) R _ Hcn]. destruct (cur_waiter _ _ _ _ I Hp ltac:(done)) as (w & t & Hw & Ht & Ha & [H1 H2 H3 H4 H5 H6]).
  set (self := k_current (f_kern y)) in *. destruct (frep_node _ _ _ R self w Hw) as (n & Hn & Ewn).
  unfold futex_wait_end. rewrite Hn. cbn [deref mbind outcome_bind]. exists w.
  assert (self ∈ woken_set W ↔ fw_woken w = true) as Hin by (rewrite woken_set_in; split; [intros (w' & ? & ?); congruence|intros; by exists w]).
  assert (woken_set (delete self W) = woken_set W ∖ {[self]}) as Hdel.
  { apply set_eq. intros q. rewrite elem_of_difference, !woken_set_in, elem_of_singleton. destruct (decide (q = self)) as [->|Hne].
    - rewrite lookup_delete_eq. split; [by intros (? & ? & ?)|tauto].
    - rewrite lookup_delete_ne by done. tauto. }
  replace (fw_woken n) with (fw_woken w) by (by rewrite Ewn). destruct (fw_woken w) eqn:Ef.
  - destruct (view_Some _ _ _ Ht) as (u & Hu & _). destruct (step_consume _ rq al self O ltac:(by exists u)) as (s' & E & Sp).
    rewrite E. cbn [mbind outcome_bind]. eexists 0, _, s', (delete self W), cs. split_and!; try done. cbn [Z.eqb].
    apply self_moves with (1 := I); [by eapply stepped_ok|..].
    + pose proof R as [Ln Vw Ch Nd In]. assert (∀ b, self ∉ cs b) as Hns. { intros b (w' & Hw' & ? & _)%In. congruence. }
      constructor; cbn [with_fnodes x_heads x_nodes]; try done.
      * by rewrite fmap_delete, Vw.
      * intros b h Hb. eapply fchain_ext; [|by apply Ch]. intros q Hq. rewrite lookup_delete_ne; [done|]. intros <-. by apply (Hns b).
      * intros b q. rewrite In. destruct (decide (q = self)) as [->|Hne]; [|by rewrite lookup_delete_ne].
        rewrite lookup_delete_eq, Hw. split; [intros (w' & [= <-] & ? & _); congruence|by intros (? & ? & _)].
    + fold self. intros q Hq. split; [by rewrite lookup_delete_ne|]. eapply kept_stepped; [exact Sp|by left|congruence].
    + fold self. by rewrite lookup_delete_eq.
    + rewrite Hcn, Hdel. rewrite size_difference by (intros q Hq; apply elem_of_singleton in Hq as ->; by apply Hin). rewrite size_singleton.
      assert (size (woken_set W) ≠ 0%nat). { intros Hz. apply size_empty_inv in Hz. pose proof (proj2 Hin eq_refl) as Hm. by apply Hz, elem_of_empty in Hm. }
      lia.
  - destruct (bucket_remove_spec _ _ _ R self w Hw Ef) as (x1 & d & l & _ & E1 & R1). unfold bucket_of in E1. rewrite Ewn in E1.
    change (fw_proc (bare n)) with (fw_proc n) in E1. change (fw_uaddr (bare n)) with (fw_uaddr n) in E1. rewrite E1. cbn [mbind outcome_bind].
    eexists ret, _, (f_kern y), (delete self W), _. split_and!; try done.
    apply self_moves with (1 := I); [by exists rq, al|exact R1|..].
    + fold self. intros q Hq. split; [by rewrite lookup_delete_ne|by apply kept_eq].
    + fold self. by rewrite lookup_delete_eq.
    + destruct (Z.eqb_spec ret 0) as [->|Hr]; [specialize (H6 eq_refl); congruence|]. rewrite Hcn, Hdel.
      replace (woken_set W ∖ {[self]}) with (woken_set W); [lia|]. apply set_eq. intros q. rewrite elem_of_difference, elem_of_singleton.
      split; [|tauto]. intros Hq. split; [done|]. intros ->. apply Hin in Hq. done.
Qed.
(** ** Waking *)

Lemma room_view p s t : credit_room p s → view s !! p = Some t → t_wake_pending t < 2 ^ 32 - 1.
Proof. intros Hr Ht. destruct (view_Some _ _ _ Ht) as (v & Hv & <-). exact (Hr v Hv). Qed.

Lemma woke_kept s rq al s' rq' al' p t u : sched_ok s rq al → sched_ok s' rq' al' → view s !! p = Some t → view s' !! p = Some u →
  credit_room p s → woke t u → kept (Some t) (Some u).
Proof.
  intros O O' Ht Hu Hr Hw ? [= <-] Hz. exists u. pose proof (fl_wake _ _ _ _ _ (so_flat _ _ _ O) _ _ Ht). pose proof (fl_wake _ _ _ _ _ (so_flat _ _ _ O') _ _ Hu).
  pose proof (fl_sleep _ _ _ _ _ (so_flat _ _ _ O) _ _ Ht) as Hsl. pose proof (room_view _ _ _ Hr Ht).
  destruct Hw as [[Hs Ha]|(Hs & Es & Ew)].
  - split_and!; try done; [by destruct Ha as [-> | ->]|]. rewrite (Hsl Hs). lia.
  - split_and!; [done|unfold awake; by rewrite Es|congruence|]. rewrite Ew. unfold u32. rewrite Z.mod_small; lia.
Qed.

(** A waiter that was marked and woken does not sleep on. *)
Lemma woke_wakeful s rq al p c t u w : sched_ok s rq al → view s !! p = Some t → credit_room p s → woke t u → waiter_ok p c w t → wakeful c u.
Proof.
  intros O Ht Hr Hw [_ _ Hz Ha _ _]. pose proof (fl_wake _ _ _ _ _ (so_flat _ _ _ O) _ _ Ht). pose proof (room_view _ _ _ Hr Ht).
  assert (suspended c = false → 0 < t_wake_pending u) as Hcr.
  { intros Hc. destruct (Ha Hc) as [Hs|Hs]; destruct Hw as [[? _]|(_ & _ & ->)]; try congruence; unfold u32; rewrite Z.mod_small; lia. }
  destruct c; cbn in *; try done; try (by apply Hcr). destruct Hw as [[_ ?]|(Hs & Es & _)]; [done|]. unfold awake. rewrite Es.
  by eapply not_sleeping_awake.
Qed.

Lemma woken_set_wake c W : NoDup c → (∀ p, p ∈ c → ∃ w, W !! p = Some w ∧ fw_woken w = false) →
  size (woken_set (wake_all c W)) = (size (woken_set W) + length c)%nat.
Proof.
  intros Nd Hc. rewrite <- (size_list_to_set (C := gset Z) c Nd).
  assert (woken_set (wake_all c W) = woken_set W ∪ list_to_set c) as ->.
  { apply set_eq. intros q. rewrite elem_of_union, !woken_set_in, elem_of_list_to_set, wake_all_lookup. destruct (decide (q ∈ c)) as [Hq|Hq].
    - destruct (Hc q Hq) as (w & -> & _). split; [by right|]. intros _. by eexists.
    - split; [by left|tauto]. }
  apply size_union. intros q (w & Hw & Hf)%woken_set_in Hq%elem_of_list_to_set. destruct (Hc q Hq) as (w' & Hw' & ?). congruence.
Qed.

Lemma wake_ok pr uaddr count y W cs c : futex_ok y W cs → 0 ≤ count → (∀ p, fpc_of y p ≠ FOut → credit_room p (f_kern y)) →
  let b := bucket_for pr uaddr in c = chosen W pr uaddr (Z.to_nat count) (cs b) →
  ∃ x' s', wake_loop (S (size (x_nodes (f_futex y)))) b None pr uaddr count 0 (f_futex y) (f_kern y) = Ok (Z.of_nat (length c), x', s') ∧
    futex_ok (Fsys s' x' (f_pc y) (f_credited y + Z.of_nat (length c)) (f_returned y)) (wake_all c W) (<[b := filter (λ p, p ∉ c) (cs b)]> cs).
Proof.
  intros I Hn Hr b Ec. pose proof I as [(rq & al & O) R Ht Hcn].
  assert (∀ p w, p ∈ cs b → W !! p = Some w → ∃ t, view (f_kern y) !! p = Some t ∧ waiter_ok p (fpc_of y p) w t ∧ credit_room p (f_kern y)) as Hin.
  { intros p w Hp Hw. assert (fpc_of y p ≠ FOut) as Hpc. { intros E. pose proof (Ht p) as H. rewrite E in H. cbn in H. congruence. }
    destruct (task_inv_in _ _ _ _ (Ht p) Hpc) as (w' & t & Hw' & Hv & Hok). exists t. assert (w' = w) as -> by congruence. auto. }
  destruct (wake_loop_spec b pr uaddr count (bucket_range pr uaddr) (S (size (x_nodes (f_futex y)))) _ W cs [] (cs b) (f_kern y) rq al 0 R) with (c := c)
    as (x' & s' & E & R' & (rq' & al' & O') & Cu & Hq & Hc); try done.
  - intros p w Hp Hw. destruct (Hin p w Hp Hw) as (t & Hv & [H1 H2 _ _ _ _] & _). split_and!; try done.
  - pose proof (frep_length _ _ _ R b). lia.
  - by rewrite Z.sub_0_r.
  - exists x', s'. split; [exact E|]. assert (∀ p, p ∈ c → p ∈ cs b) as Hcb by (intros p; rewrite Ec; by intros [? _]%chosen_in).
    constructor; cbn [f_kern f_futex f_credited f_returned f_pc]; [by exists rq', al'|exact R'| |].
    + intros p. change (fpc_of _ p) with (fpc_of y p). rewrite wake_all_lookup. destruct (decide (p ∈ c)) as [Hp|Hp].
      * pose proof (Hcb p Hp) as (w & Hw & _)%(fr_in _ _ _ R). destruct (Hin p w (Hcb p Hp) Hw) as (t & Hv & Hok & Hrm).
        destruct (Hc p t Hp Hv) as (u & Hu & Hwk). rewrite Hw, Hu. pose proof (woke_kept _ _ _ _ _ _ _ _ _ O O' Hv Hu Hrm Hwk) as K.
        destruct (K t eq_refl (wo_alive _ _ _ _ Hok)) as (u' & [= <-] & Hau & Hzu & _). apply task_inv_intro.
        { intros Eo. pose proof (Ht p) as H. rewrite Eo in H. cbn in H. congruence. }
        pose proof (woke_wakeful _ _ _ _ _ _ _ _ O Hv Hrm Hwk Hok). destruct Hok as [H1 H2 H3 H4 H5 H6]. constructor; auto.
      * rewrite Hq by done. apply Ht.
    + rewrite woken_set_wake; [lia|rewrite Ec; apply chosen_nodup, (fr_nodup _ _ _ R)|]. intros p Hp.
      pose proof (Hcb p Hp) as (w & Hw & Hf & _)%(fr_in _ _ _ R). by exists w.
Qed.

(** A bad address is refused; a negative count wakes all. *)
Definition wake_count (count : Z) : Z := if count <? 0 then FUTEX_WAKE_ALL else count.

Lemma fwake_ok pr uaddr count y W cs : futex_ok y W cs → (∀ p, fpc_of y p ≠ FOut → credit_room p (f_kern y)) →
  ∃ r x' s', futex_wake pr uaddr count (f_futex y) (f_kern y) = Ok (r, x', s') ∧
    ∃ W' cs', futex_ok (Fsys s' x' (f_pc y) (f_credited y + Z.max r 0) (f_returned y)) W' cs'.
Proof.
  intros I Hr. unfold futex_wake. assert (∀ r, r ≤ 0 → ∃ r' x' s', Ok (r, f_futex y, f_kern y) = Ok (r', x', s') ∧
    ∃ W' cs', futex_ok (Fsys s' x' (f_pc y) (f_credited y + Z.max r' 0) (f_returned y)) W' cs') as Herr.
  { intros r Hr0. eexists _, _, _. split; [done|]. exists W, cs. rewrite Z.max_r by done. rewrite Z.add_0_r. by destruct y. }
  destruct (negb (Z.land uaddr 3 =? 0)); [by apply Herr|]. destruct (negb (user_range_ok uaddr 4)); [by apply Herr|]. cbv zeta.
  change (if count <? 0 then FUTEX_WAKE_ALL else count) with (wake_count count).
  destruct (wake_ok pr uaddr (wake_count count) y W cs (chosen W pr uaddr (Z.to_nat (wake_count count)) (cs (bucket_for pr uaddr))) I) as (x' & s' & E & I'); [unfold wake_count; destruct (Z.ltb_spec count 0); done|done|reflexivity|].
  eexists _, x', s'. split; [exact E|]. eexists _, _. rewrite Z.max_l by lia. exact I'.
Qed.

Lemma fother_ok e y W cs : futex_ok y W cs → fallowed (FOther e) y →
  ∃ s', exec e (f_kern y) = Ok s' ∧ futex_ok (Fsys s' (f_futex y) (f_pc y) (f_credited y) (f_returned y)) W cs.
Proof.
  intros I [A1 A2]. pose proof I as [(rq & al & O) R Ht Hcn].
  assert (∀ s', (∃ rq al, sched_ok s' rq al) → (∀ p, fpc_of y p ≠ FOut → kept (view (f_kern y) !! p) (view s' !! p)) →
    futex_ok (Fsys s' (f_futex y) (f_pc y) (f_credited y) (f_returned y)) W cs) as Hfin.
  { intros s' O' Hk. constructor; try done. intros p. cbn [f_kern]. change (fpc_of _ p) with (fpc_of y p).
    pose proof (Ht p) as H. destruct (fpc_of y p) eqn:Ep; [exact H|eapply task_inv_kept; [exact H|apply Hk; congruence]..]. }
  assert ((∃ p, e = Wake p) ∨ ¬ (∃ p, e = Wake p)) as [[p ->]|Hnw] by (destruct e; (by left; eexists) || (by right; intros [? ?])).
  - destruct A1 as [Hi [v Hv]]. destruct (step_wake_view _ rq al p O Hi ltac:(by exists v)) as (s' & E & [(rq' & al' & O' & _) _ _ _] & Hc & Hq).
    exists s'. split; [exact E|]. apply Hfin; [by exists rq', al'|]. intros q _. destruct (decide (q = p)) as [->|Hne]; [|by apply kept_eq, Hq].
    assert (view (f_kern y) !! p = Some (strip v)) as Hs by (by rewrite view_lookup, Hv). destruct (Hc _ Hs) as (u & Hu & Hw). rewrite Hs, Hu.
    exact (woke_kept _ _ _ _ _ _ _ _ _ O O' Hs Hu A2 Hw).
  - destruct (step_ok e _ rq al O A1) as (s' & b & E & Sp & _). exists s'. split; [done|]. apply Hfin; [by eapply stepped_ok|]. intros p Hp.
    eapply kept_stepped; [exact Sp| |].
    + destruct (decide (p = k_current (f_kern y))) as [->|]; [right|by left]. destruct e; try done.
    + destruct e; try done; [by destruct Hnw; eexists|]. cbn. congruence.
Qed.

Lemma futex_step_ok proc e y W cs : futex_ok y W cs → fallowed e y → ∃ y' W' cs', fexec proc e y = Ok y' ∧ futex_ok y' W' cs'.
Proof.
  intros I A. unfold fexec. cbv zeta. assert (∃ y' W' cs', Ok y = Ok y' ∧ futex_ok y' W' cs') as Hskip by (by exists y, W, cs).
  destruct e as [uaddr val timeout mem now| | |now now'| | | |uaddr count|uaddr nw nr|e];
    [..|destruct (fother_ok e y W cs I A) as (s' & -> & I'); by eexists _, W, cs]; destruct (fpc_of y (k_current (f_kern y))) eqn:Hp; try done.
  - destruct (fwait_ok (proc (k_current (f_kern y))) y W cs uaddr val timeout mem now I Hp A) as (r & x' & -> & W' & cs' & I'). by eexists _, W', cs'.
  - destruct (fcheck_ok y W cs _ _ I Hp) as (b & -> & I'). by eexists _, W, cs.
  - destruct (fconsume_ok y W cs I Hp) as (s' & -> & I'). by eexists _, W, cs.
  - destruct (fenter_ok y W cs _ _ now' I Hp) as (I1 & die & -> & I2). destruct (futex_remaining _ _ _) as [r|]; by eexists _, W, cs.
  - destruct (fsuspend_ok y W cs _ _ _ I Hp) as (slept & s' & -> & I'). by eexists _, W, cs.
  - destruct (fresume_ok y W cs _ _ _ I Hp) as (r & s' & -> & I'). by eexists _, W, cs.
  - destruct (fend_ok y W cs _ I Hp) as (w & r & x' & s' & W' & cs' & _ & -> & _ & I'). by eexists _, W', cs'.
  - destruct (fwake_ok (proc (k_current (f_kern y))) uaddr count y W cs I A) as (r & x' & s' & -> & W' & cs' & I'). by eexists _, W', cs'.
  - unfold futex_requeue. cbv zeta. match goal with |- context [futex_wake _ _ ?n] => set (total := n) end.
    destruct (fwake_ok (proc (k_current (f_kern y))) uaddr total y W cs I A) as (r & x' & s' & -> & W' & cs' & I'). by eexists _, W', cs'.
Qed.

Lemma futex_start_ok s rq al : sched_ok s rq al → futex_ok (fstart s) ∅ (λ _, []).
Proof.
  intros O. constructor; cbn [fstart f_kern f_futex f_credited f_returned]; [by exists rq, al| |done|done].
  constructor; cbn [x_heads x_nodes]; try done.
  - intros b h [-> _]%lookup_replicate. done.
  - intros b. apply NoDup_nil_2.
  - intros b p. split; [by intros ?%elem_of_nil|by intros (? & ? & _)].
Qed.

Lemma freach_ok proc y y' W cs : futex_ok y W cs → rtc (fstep proc) y y' → ∃ W' cs', futex_ok y' W' cs'.
Proof.
  intros I R. revert W cs I. induction R as [y|y y1 y' (e & A & E) _ IH]; intros W cs I; [by exists W, cs|].
  destruct (futex_step_ok proc e y W cs I A) as (y2 & W2 & cs2 & E2 & I2). assert (y2 = y1) as -> by congruence. by apply (IH W2 cs2).
Qed.

(** ** What the callers see *)

(** The waiters of a word, in the order of its queue. *)
Fixpoint queue (fuel : nat) (N : gmap Z futex_waiter) (h : tptr) : list Z :=
  match fuel, h with
  | S fuel, Some p => p :: queue fuel N (N !! p ≫= fw_next)
  | _, _ => []
  end.

Definition waiters (x : futex) (pr uaddr : Z) : list Z :=
  filter (λ p, keyed (x_nodes x) pr uaddr p = true)
    match x_heads x !! bucket_for pr uaddr with Some h => queue (size (x_nodes x)) (x_nodes x) h | None => [] end.

Lemma queue_spec N l : ∀ fuel h, fchain N l h → (length l ≤ fuel)%nat → queue fuel N h = l.
Proof.
  induction l as [|p l IH]; intros fuel h C Hf; cbn in Hf; [rewrite C; by destruct fuel|]. destruct C as (-> & w & Hw & C).
  destruct fuel as [|fuel]; [lia|]. cbn [queue]. rewrite Hw. cbn [mbind option_bind]. by rewrite (IH fuel _ C) by lia.
Qed.

Lemma keyed_bare x W cs pr uaddr p : frep x W cs → keyed (x_nodes x) pr uaddr p = keyed W pr uaddr p.
Proof. intros R. unfold keyed. rewrite <- (fr_view _ _ _ R), lookup_fmap. by destruct (x_nodes x !! p). Qed.

Lemma waiters_spec x W cs pr uaddr : frep x W cs → waiters x pr uaddr = filter (λ p, keyed W pr uaddr p = true) (cs (bucket_for pr uaddr)).
Proof.
  intros R. destruct (frep_at _ _ _ R _ (bucket_range pr uaddr)) as (h & Hh & C). unfold waiters. rewrite Hh.
  rewrite (queue_spec _ _ _ _ C (frep_length _ _ _ R _)). apply list_filter_iff. intros p. by rewrite (keyed_bare x W cs).
Qed.

Lemma keyed_wake c W pr uaddr p : keyed (wake_all c W) pr uaddr p = keyed W pr uaddr p.
Proof. unfold keyed. rewrite wake_all_lookup. case_decide; [|done]. by destruct (W !! p). Qed.

Lemma filter_none (P : Z → Prop) {dP : ∀ x, Decision (P x)} (l : list Z) : (∀ x, x ∈ l → ¬ P x) → filter P l = [].
Proof.
  induction l as [|a l IH]; intros H; [done|]. rewrite filter_cons_False by (apply H; by left). apply IH. intros x Hx. apply H. by right.
Qed.

Lemma filter_not_taken (n : nat) (m : list Z) : NoDup m → filter (λ p, p ∉ take n m) m = drop n m.
Proof.
  intros Nd. rewrite <- (take_drop n m) in Nd. apply NoDup_app in Nd as (_ & Hd & _).
  transitivity (filter (λ p, p ∉ take n m) (take n m ++ drop n m)); [by rewrite take_drop|]. rewrite filter_app.
  rewrite filter_none by (intros p Hp Hn; by apply Hn). apply filter_all. intros p Hp Ht. by apply (Hd p).
Qed.

Lemma futex_woken_view x W cs p : frep x W cs → futex_woken p x = match W !! p with Some w => Ok (fw_woken w) | None => Fault end.
Proof. intros R. unfold futex_woken. rewrite <- (fr_view _ _ _ R), lookup_fmap. by destruct (x_nodes x !! p). Qed.

Lemma woken_awake y W cs p w : futex_ok y W cs → W !! p = Some w → fw_woken w = true → ∃ t, k_tasks (f_kern y) !! p = Some t ∧ awake t.
Proof.
  intros I Hw Hf. pose proof (fo_tasks _ _ _ I p) as H. rewrite Hw in H. assert (fpc_of y p ≠ FOut) as Hp by (intros E; by rewrite E in H).
  destruct (task_inv_in _ _ _ _ H Hp) as (w' & t & [= <-] & Ht & [_ _ _ Ha Hk _]). destruct (view_Some _ _ _ Ht) as (v & Hv & Ev). exists v. split; [done|].
  assert (awake t) as Hat by (specialize (Hk Hf); destruct (fpc_of y p); auto). rewrite <- Ev in Hat. exact Hat.
Qed.

(** C14: [futex_wake] wakes exactly the first waiters of the word, as many as it was asked for (all of
    them for a negative count), and returns their number; each is marked and its task is awake.
    The others stay queued in their order, and so do the waiters of every other word, those
    of the same bucket included. *)
Theorem futex_wake_correct proc s rq al y uaddr count :
  sched_ok s rq al → rtc (fstep proc) (fstart s) y → (∀ p, fpc_of y p ≠ FOut → credit_room p (f_kern y)) →
  Z.land uaddr 3 = 0 → user_range_ok uaddr 4 = true →
  let pr := proc (k_current (f_kern y)) in
  let ws := waiters (f_futex y) pr uaddr in let n := Z.to_nat (wake_count count) in
  ∃ x' s', futex_wake pr uaddr count (f_futex y) (f_kern y) = Ok (Z.of_nat (length (take n ws)), x', s') ∧
    waiters x' pr uaddr = drop n ws ∧
    (∀ p, p ∈ take n ws → futex_woken p x' = Ok true ∧ ∃ t, k_tasks s' !! p = Some t ∧ awake t) ∧
    (∀ p, p ∉ take n ws → futex_woken p x' = futex_woken p (f_futex y)) ∧
    (∀ pr' uaddr', (pr', uaddr') ≠ (pr, uaddr) → waiters x' pr' uaddr' = waiters (f_futex y) pr' uaddr').
Proof.
  intros O Re Hr Hal Hrg pr ws n. destruct (freach_ok proc _ _ _ _ (futex_start_ok _ _ _ O) Re) as (W & cs & I). pose proof (fo_rep _ _ _ I) as R.
  set (b := bucket_for pr uaddr). assert (ws = filter (λ p, keyed W pr uaddr p = true) (cs b)) as Ews by exact (waiters_spec _ _ _ _ _ R). clearbody ws.
  assert (chosen W pr uaddr n (cs b) = take n ws) as Ec by (by rewrite Ews).
  destruct (wake_ok pr uaddr (wake_count count) y W cs (take n ws) I) as (x' & s' & E & I'); [unfold wake_count; destruct (Z.ltb_spec count 0); done|done|done|].
  fold b in E, I'. pose proof (fo_rep _ _ _ I') as R'. cbn [f_futex] in R'. exists x', s'.
  assert (∀ p, p ∈ take n ws → p ∈ cs b ∧ keyed W pr uaddr p = true) as Hin by (intros p; rewrite <- Ec; apply chosen_in).
  split_and!.
  - unfold futex_wake. rewrite Hal, Hrg. exact E.
  - rewrite (waiters_spec _ _ _ _ _ R'). fold b. rewrite fn_lookup_insert. etrans; [|apply filter_not_taken; rewrite Ews; apply NoDup_filter, (fr_nodup _ _ _ R)].
    transitivity (filter (λ p, p ∉ take n ws) (filter (λ p, keyed W pr uaddr p = true) (cs b))); [|by rewrite <- Ews]. rewrite !list_filter_filter. apply list_filter_iff. intros p. rewrite keyed_wake. tauto.
  - intros p Hp. destruct (Hin p Hp) as [(w & Hw & _)%(fr_in _ _ _ R) _].
    assert (wake_all (take n ws) W !! p = Some (set_woken w)) as Hw' by (by rewrite wake_all_lookup, decide_True, Hw by done).
    split; [by rewrite (futex_woken_view _ _ _ _ R'), Hw'|]. exact (woken_awake _ _ _ _ _ I' Hw' eq_refl).
  - intros p Hp. rewrite (futex_woken_view _ _ _ _ R'), (futex_woken_view _ _ _ _ R), wake_all_lookup. by rewrite decide_False.
  - intros pr' uaddr' Hne. rewrite (waiters_spec _ _ _ _ _ R'), (waiters_spec _ _ _ _ _ R).
    rewrite (filter_in_ext _ (λ p, keyed W pr' uaddr' p = true)) by (intros p _; by rewrite keyed_wake). destruct (decide (bucket_for pr' uaddr' = b)) as [->|Hb]; [|by rewrite fn_lookup_insert_ne].
    rewrite fn_lookup_insert, list_filter_filter. apply list_filter_iff. intros p. split; [tauto|]. intros Hk. split; [done|]. intros Hp.
    destruct (Hin p Hp) as [_ Hk']. unfold keyed in Hk, Hk'. destruct (W !! p); [|done]. apply Hne. f_equal; lia.
Qed.

(** C13: no wake-up is lost: a waiter that a [futex_wake] counted is runnable or running at every moment
    until its [futex_wait] returns, whether the wake-up came before it slept, while it slept or
    after it had decided to give up; and the call then returns 0, not the error it was about to return. *)
Theorem futex_no_lost_wakeup proc s rq al y p t :
  sched_ok s rq al → rtc (fstep proc) (fstart s) y → futex_woken p (f_futex y) = Ok true → k_tasks (f_kern y) !! p = Some t →
  awake t ∧
  ∀ ret, fpc_of y p = FClean ret → k_current (f_kern y) = p → ∃ x' s', futex_wait_end p ret (f_futex y) (f_kern y) = Ok (0, x', s').
Proof.
  intros O Re Hf Ht. destruct (freach_ok proc _ _ _ _ (futex_start_ok _ _ _ O) Re) as (W & cs & I).
  rewrite (futex_woken_view _ _ _ _ (fo_rep _ _ _ I)) in Hf. destruct (W !! p) as [w|] eqn:Hw; [|done]. injection Hf as Hf. split.
  - destruct (woken_awake _ _ _ _ _ I Hw Hf) as (t' & Ht' & Ha). congruence.
  - intros ret Hp Hc. rewrite <- Hc in Hp. destruct (fend_ok _ _ _ ret I Hp) as (w' & r & x' & s' & _ & _ & Hw' & E & Er & _). rewrite Hc in Hw', E.
    assert (w' = w) as -> by congruence. rewrite Hf in Er. subst r. by exists x', s'.
Qed.

(** C12: whatever the tasks and the interrupts do, every section of futex.c returns (no queue holds
    the node of a call that is over), and the wake-ups balance: the number of waiters
    all calls of [futex_wake] and [futex_requeue] reported is the number of calls of [futex_wait] that
    returned 0 plus the woken waiters that have not returned yet. *)
Theorem futex_wakes_balanced proc s rq al y :
  sched_ok s rq al → rtc (fstep proc) (fstart s) y →
  (∀ e, fallowed e y → ∃ y', fexec proc e y = Ok y') ∧
  f_credited y = f_returned y + Z.of_nat (size (woken_set (x_nodes (f_futex y)))).
Proof.
  intros O Re. destruct (freach_ok proc _ _ _ _ (futex_start_ok _ _ _ O) Re) as (W & cs & I). split.
  - intros e A. destruct (futex_step_ok proc e y W cs I A) as (y' & _ & _ & E & _). by exists y'.
  - rewrite (fo_count _ _ _ I). do 3 f_equal. apply set_eq. intros p. rewrite !woken_set_in, <- (fr_view _ _ _ (fo_rep _ _ _ I)), lookup_fmap.
    destruct (x_nodes (f_futex y) !! p) as [n|]; [|done]. split; intros (w & [= <-] & Hf); by eexists.
Qed.

(** ** A run: the boot task waits, task 3 wakes it *)

Definition one_proc (p : Z) : Z := 0x1000.

Definition room_left (y : fsys) : bool :=
  forallb (λ pc, match k_tasks (f_kern y) !! pc.1 with Some t => t_wake_pending t <? 2 ^ 32 - 1 | None => true end) (map_to_list (f_pc y)).

Definition runs_ok (e : fevent) (y : fsys) : bool :=
  match e with
  | FWait _ _ _ _ _ => negb (k_current (f_kern y) =? idle_task)
  | FWake _ _ | FRequeue _ _ _ => room_left y
  | FOther (Tick _) => true
  | FOther _ => false
  | _ => true
  end.

Fixpoint frun (es : list fevent) (y : fsys) : outcome fsys :=
  match es with
  | [] => Ok y
  | e :: es => if runs_ok e y then y ← fexec one_proc e y; frun es y else Fault
  end.

Lemma room_left_spec y p : room_left y = true → fpc_of y p ≠ FOut → credit_room p (f_kern y).
Proof.
  unfold room_left, fpc_of. intros H Hp t Ht. rewrite forallb_forall in H. destruct (f_pc y !! p) as [c|] eqn:Ec; [|done].
  specialize (H (p, c)). cbn in H. rewrite Ht in H. apply Z.ltb_lt, H. apply list_elem_of_In, elem_of_map_to_list, Ec.
Qed.

Lemma frun_reach es : ∀ y y', frun es y = Ok y' → rtc (fstep one_proc) y y'.
Proof.
  induction es as [|e es IH]; intros y y' E; cbn [frun] in E; [injection E as ->; apply rtc_refl|]. destruct (runs_ok e y) eqn:Hok; [|done].
  apply bind_inv in E as (y1 & E1 & E). eapply rtc_l; [|by apply IH]. exists e. split; [|done].
  destruct e as [| | | | | | |uaddr count|uaddr nw nr|e]; try exact I; cbn in Hok.
  - cbn. apply negb_true_iff, Z.eqb_neq in Hok. exact Hok.
  - intros p. by apply room_left_spec.
  - intros p. by apply room_left_spec.
  - destruct e; try discriminate. split; exact I.
Qed.

Definition demo_word : Z := 0x400000.
Definition demo_wait : list fevent := [FWait demo_word 5 0 (0, 5) 0; FCheck; FEnter 0 0; FSuspend].

Lemma demo_futex {A} es (f : fsys → A) a : (s ← demo_run [Create]; y ← frun es (fstart s); Ok (f y)) = Ok a →
  ∃ s rq al y, sched_ok s rq al ∧ rtc (fstep one_proc) (fstart s) y ∧ f y = a.
Proof.
  destruct (demo_run_ok [Create]) as (s & rq & al & E & O).
  { intros s. cbn [all_allowed allowed]. repeat (split; [exact I|destruct (exec _ _); try exact I]). }
  rewrite E, bind_Ok. intros (y & Ey & [= <-])%bind_inv. exists s, rq, al, y. split; [exact O|]. split; [|reflexivity]. by apply (frun_reach es).
Qed.

Lemma futex_wake_correct_witness : ∃ x s x' s', waiters x 0x1000 demo_word = [boot_task] ∧
  futex_wake 0x1000 demo_word 1 x s = Ok (1, x', s') ∧ waiters x' 0x1000 demo_word = [].
Proof.
  destruct (demo_futex demo_wait (λ y, (waiters (f_futex y) 0x1000 demo_word, room_left y)) ([boot_task], true)) as (s & rq & al & y & O & Re & [= Hw Hr]).
  { vm_compute. reflexivity. }
  destruct (futex_wake_correct one_proc s rq al y demo_word 1 O Re) as (x' & s' & E & Hd & _);
    [intros p; by apply room_left_spec|vm_compute; reflexivity|vm_compute; reflexivity|].
  unfold one_proc in E, Hd. rewrite Hw in E, Hd. exists (f_futex y), (f_kern y), x', s'. split; [exact Hw|]. split; [exact E|exact Hd].
Defined.

Definition boot_known (y : fsys) : bool := match k_tasks (f_kern y) !! boot_task with Some _ => true | None => false end.

Lemma futex_no_lost_wakeup_witness : ∃ y t, futex_woken boot_task (f_futex y) = Ok true ∧ k_tasks (f_kern y) !! boot_task = Some t ∧ awake t.
Proof.
  destruct (demo_futex (demo_wait ++ [FWake demo_word 1]) (λ y, (futex_woken boot_task (f_futex y), boot_known y)) (Ok true, true)) as (s & rq & al & y & O & Re & [= Hw Hb]).
  { vm_compute. reflexivity. }
  unfold boot_known in Hb. destruct (k_tasks (f_kern y) !! boot_task) as [t|] eqn:Ht; [|discriminate]. exists y, t.
  destruct (futex_no_lost_wakeup one_proc s rq al y boot_task t O Re Hw Ht) as [Ha _]. split; [exact Hw|]. split; [exact Ht|exact Ha].
Defined.

Lemma futex_wakes_balanced_witness : ∃ y, f_credited y = 1 ∧ f_returned y = 1 ∧ woken_set (x_nodes (f_futex y)) = ∅.
Proof.
  destruct (demo_futex (demo_wait ++ [FWake demo_word 1; FOther (Tick 1); FResume; FCheck; FConsume; FEnd]) (λ y, (f_credited y, f_returned y)) (1, 1))
    as (s & rq & al & y & O & Re & [= Hc Hr]).
  { vm_compute. reflexivity. }
  destruct (futex_wakes_balanced one_proc s rq al y O Re) as [_ H]. exists y. split; [exact Hc|]. split; [exact Hr|].
  apply leibniz_equiv, size_empty_inv. lia.
Defined.

(** The race the comment before the last section speaks of: the wait has timed out, task 3 wakes it
    before the last section, and the call returns 0. *)
Example late_wake_honoured :
  (s ← demo_run [Create];
   y ← frun [FWait demo_word 5 10 (0, 5) 0; FCheck; FEnter 20 20; FOther (Tick 1); FWake demo_word 1; FOther (Tick 2)] (fstart s);
   '(r, _, _) ← futex_wait_end boot_task (- ETIMEDOUT) (f_futex y) (f_kern y);
   Ok (fpc_of y boot_task, k_current (f_kern y), r)) = Ok (FClean (- ETIMEDOUT), boot_task, 0).
Proof. vm_compute. reflexivity. Qed.

(** The queue is last in, first out: with two waiters, one wake-up reaches the task that came last. *)
Example latest_waiter_first :
  (s ← demo_run [Create; Create];
   y ← frun (demo_wait ++ demo_wait ++ [FWake demo_word 1]) (fstart s);
   Ok (waiters (f_futex y) 0x1000 demo_word, futex_woken 3 (f_futex y), futex_woken boot_task (f_futex y))) = Ok ([boot_task], Ok true, Ok false).
Proof. vm_compute. reflexivity. Qed.
