(* ===== verification/Fd.v ===== *)
(** * user/fd.c: descriptor tables and the lifetime of open files

    [struct file] objects live in a heap and are shared by the slots of the
    descriptor tables; following a pointer to a freed one is a [Fault].  The
    tables' mutexes make each function of fd.c atomic.  A system call is a
    sequence of such steps: [sys_close], [open_tail] and [sys_lseek] compose
    them for a process whose other threads do not run in between.  [fd_get]
    hands out the file without a reference, so what follows it is a step of its
    own, [lseek_file], that another thread's [sys_close] can come before
    ([FdSpec.close_before_lseek]).  [vfs_close] belongs to the VFS; here it is
    recorded in a log of the inodes closed, in order. *)

From S2P Require Import Prelude.

Definition JNU_MAX_FDS : Z := 32.

Inductive jnu_file_type := JNU_FILE_INITRAMFS | JNU_FILE_VFS | JNU_FILE_CHARDEV.

#[export] Instance jnu_file_type_eq_dec : EqDecision jnu_file_type.
Proof. solve_decision. Defined.

(** [f_size] is the size of the initramfs file or of the inode the union
    points at, [f_obj] the address of the inode or device. *)
Record file := File {
  f_type : jnu_file_type;
  f_offset : Z;
  f_flags : Z;
  f_refcount : Z;
  f_obj : Z;
  f_size : Z
}.

Definition set_offset (v : Z) (f : file) : file := File (f_type f) v (f_flags f) (f_refcount f) (f_obj f) (f_size f).
Definition set_refcount (v : Z) (f : file) : file := File (f_type f) (f_offset f) (f_flags f) v (f_obj f) (f_size f).

Abbreviation fptr := (option Z).

(** The slots of a [struct fd_table]. *)
Abbreviation fd_table := (list fptr).

(** The heap of files and the log of [vfs_close] calls. *)
Record fheap := Fheap { h_files : gmap Z file; h_closed : list Z }.

Definition with_files (v : gmap Z file) (h : fheap) : fheap := Fheap v (h_closed h).

Definition file_at (p : Z) (h : fheap) : outcome file := deref (h_files h !! p).

Definition file_destroy (file : fptr) (h : fheap) : outcome fheap :=
  match file with
  | None => Ok h
  | Some p =>
      f ← file_at p h;
      let h := if decide (f_type f = JNU_FILE_VFS) then Fheap (h_files h) (h_closed h ++ [f_obj f]) else h in
      Ok (with_files (delete p (h_files h)) h)
  end.

(** [__atomic_add_fetch] on an [int] wraps. *)
Definition file_get (file : fptr) (h : fheap) : outcome fheap :=
  match file with
  | None => Ok h
  | Some p =>
      f ← file_at p h;
      Ok (with_files (<[p := set_refcount (to_int32 (u32 (f_refcount f + 1))) f]> (h_files h)) h)
  end.

Definition file_put (file : fptr) (h : fheap) : outcome fheap :=
  match file with
  | None => Ok h
  | Some p =>
      f ← file_at p h;
      let r := to_int32 (u32 (f_refcount f - 1)) in
      let h := with_files (<[p := set_refcount r f]> (h_files h)) h in
      if r >? 0 then Ok h else file_destroy file h
  end.

Definition fd_table_init : fd_table := replicate 32 None.

(** [for (fd = 0; fd < JNU_MAX_FDS; fd++)] over the slots of both tables. *)
Fixpoint clone_slots (n : nat) (fd : nat) (dst src : fd_table) (h : fheap) : outcome (fd_table * fheap) :=
  match n with
  | O => Ok (dst, h)
  | S n =>
      f ← deref (src !! fd);
      match f with
      | None => clone_slots n (S fd) (<[fd := None]> dst) src h
      | Some p => h ← file_get (Some p) h; clone_slots n (S fd) (<[fd := Some p]> dst) src h
      end
  end.

Definition fd_table_clone (dst src : fd_table) (h : fheap) : outcome (fd_table * fheap) :=
  clone_slots (Z.to_nat JNU_MAX_FDS) 0 dst src h.

(** [for (fd = 3; fd < JNU_MAX_FDS; fd++)] *)
Fixpoint alloc_slot (n : nat) (fd : nat) (table : fd_table) (p : Z) : outcome (Z * fd_table) :=
  match n with
  | O => Ok (- EMFILE, table)
  | S n =>
      f ← deref (table !! fd);
      match f with
      | None => Ok (Z.of_nat fd, <[fd := Some p]> table)
      | Some _ => alloc_slot n (S fd) table p
      end
  end.

Definition fd_alloc (table : fd_table) (file : fptr) : outcome (Z * fd_table) :=
  match file with
  | None => Ok (- EINVAL, table)
  | Some p => alloc_slot (Z.to_nat (JNU_MAX_FDS - 3)) 3 table p
  end.

Definition fd_get (table : fd_table) (fd : Z) : outcome fptr :=
  if (fd <? 0) || (fd >=? JNU_MAX_FDS) then Ok None else deref (table !! Z.to_nat fd).

Definition fd_close (table : fd_table) (fd : Z) : outcome (fptr * fd_table) :=
  if (fd <? 0) || (fd >=? JNU_MAX_FDS) then Ok (None, table) else
  f ← deref (table !! Z.to_nat fd);
  Ok (f, <[Z.to_nat fd := None]> table).

(** ** The system calls on top *)

Definition sys_close (fd : Z) (table : fd_table) (h : fheap) : outcome (Z * fd_table * fheap) :=
  '(file, table) ← fd_close table fd;
  match file with
  | None => Ok (- EINVAL, table, h)
  | Some p => h ← file_put (Some p) h; Ok (0, table, h)
  end.

(** [for (fd = 0; fd < JNU_MAX_FDS; fd++) file_put(fd_close(&proc->fds, fd))],
    the loop of [process_exit_current], [process_reap] and [process_fork]. *)
Fixpoint close_slots (n : nat) (fd : Z) (table : fd_table) (h : fheap) : outcome (fd_table * fheap) :=
  match n with
  | O => Ok (table, h)
  | S n =>
      '(file, table) ← fd_close table fd;
      h ← file_put file h;
      close_slots n (fd + 1) table h
  end.

Definition close_all (table : fd_table) (h : fheap) : outcome (fd_table * fheap) :=
  close_slots (Z.to_nat JNU_MAX_FDS) 0 table h.

(** The end of [sys_open]: the file object is on the heap with its one
    reference. *)
Definition open_tail (p : Z) (table : fd_table) (h : fheap) : outcome (Z * fd_table * fheap) :=
  '(err, table) ← fd_alloc table (Some p);
  if err <? 0 then h ← file_put (Some p) h; Ok (err, table, h) else Ok (err, table, h).

Definition JNU_SEEK_SET : Z := 0.
Definition JNU_SEEK_CUR : Z := 1.
Definition JNU_SEEK_END : Z := 2.

Definition file_size (f : file) : Z :=
  if decide (f_type f = JNU_FILE_INITRAMFS) then f_size f else
  if decide (f_type f = JNU_FILE_VFS) then f_size f else 0.

(** [__builtin_add_overflow] on [int64_t] *)
Definition add_overflow (a b : Z) : option Z :=
  if (a + b <? - 2 ^ 63) || (a + b >=? 2 ^ 63) then None else Some (a + b).

(** The part of [sys_lseek] after [fd_get], on the file it returned. *)
Definition lseek_file (p off whence : Z) (h : fheap) : outcome (Z * fheap) :=
  f ← file_at p h;
  if decide (f_type f = JNU_FILE_CHARDEV) then Ok (- ESPIPE, h) else
  let base := if whence =? JNU_SEEK_SET then Some 0 else
              if whence =? JNU_SEEK_CUR then Some (to_int64 (f_offset f)) else
              if whence =? JNU_SEEK_END then Some (to_int64 (file_size f)) else None in
  match base with
  | None => Ok (- EINVAL, h)
  | Some base =>
      match add_overflow base off with
      | None => Ok (- EINVAL, h)
      | Some next =>
          if (next <? 0) || (next >? to_int64 (file_size f)) then Ok (- EINVAL, h) else
          Ok (next, with_files (<[p := set_offset (u64 next) f]> (h_files h)) h)
      end
  end.

Definition sys_lseek (fd off whence : Z) (table : fd_table) (h : fheap) : outcome (Z * fheap) :=
  file ← fd_get table fd;
  match file with
  | None => Ok (- EINVAL, h)
  | Some p => lseek_file p off whence h
  end.
