(* ===== verification/FdSpec.v ===== *)
(** * Open files are shared, kept and closed exactly once

    The reference count of every open file is the number of descriptor slots,
    in all processes, that point at it. *)

From S2P Require Import Prelude Fd.

(** ** Counting references *)

Definition slots (p : Z) (t : fd_table) : Z := Z.of_nat (length (filter (λ s, s = Some p) t)).

Lemma slots_cons p s t : slots p (s :: t) = (if decide (s = Some p) then 1 else 0) + slots p t.
Proof. unfold slots. rewrite filter_cons. destruct (decide _); cbn [length]; lia. Qed.

Lemma slots_nonneg p t : 0 ≤ slots p t.
Proof. unfold slots. lia. Qed.

Lemma slots_app p t u : slots p (t ++ u) = slots p t + slots p u.
Proof. unfold slots. rewrite filter_app, length_app. lia. Qed.

Lemma slots_none p n : slots p (replicate n None) = 0.
Proof. induction n; [done|]. cbn [replicate]. rewrite slots_cons, decide_False by done. lia. Qed.

Lemma slots_insert p t i s s' : t !! i = Some s →
  slots p (<[i := s']> t) = slots p t - (if decide (s = Some p) then 1 else 0) + (if decide (s' = Some p) then 1 else 0).
Proof.
  intros Hi. rewrite insert_take_drop by (by eapply lookup_lt_Some). rewrite <- (take_drop_middle t i s Hi) at 3.
  rewrite !slots_app, !slots_cons. lia.
Qed.

Lemma slots_in p t : 0 < slots p t ↔ Some p ∈ t.
Proof.
  induction t as [|s t IH]; [split; [done|]; by intros ?%elem_of_nil|]. rewrite slots_cons, elem_of_cons, <- IH.
  pose proof (slots_nonneg p t). destruct (decide (s = Some p)) as [->|Hne]; split; intros Hs; try lia; [by left|].
  destruct Hs as [?|?]; [congruence|lia].
Qed.

(** The references of all tables together. *)
Definition total_refs (T : gmap Z fd_table) (p : Z) : Z := map_fold (λ _ t a, slots p t + a) 0 T.

Lemma total_insert T i t p : T !! i = None → total_refs (<[i := t]> T) p = slots p t + total_refs T p.
Proof. intros H. unfold total_refs. apply (map_fold_insert_L (λ _ t a, slots p t + a)); [intros; lia|done]. Qed.

Lemma total_delete T i t p : T !! i = Some t → total_refs T p = slots p t + total_refs (delete i T) p.
Proof. intros H. unfold total_refs. apply (map_fold_delete_L (λ _ t a, slots p t + a)); [intros; lia|done]. Qed.

Lemma total_update T i t t' p : T !! i = Some t → total_refs (<[i := t']> T) p = total_refs T p - slots p t + slots p t'.
Proof.
  intros H. rewrite <- insert_delete_eq, total_insert by apply lookup_delete_eq. rewrite (total_delete T i t p H). lia.
Qed.

Lemma total_nonneg T p : 0 ≤ total_refs T p.
Proof.
  unfold total_refs. apply (map_fold_weak_ind (λ r _, 0 ≤ r)); [done|]. intros i t _ r _ ?. pose proof (slots_nonneg p t). lia.
Qed.

(** ** One file *)

(** Every file has the count [n] says, and is there when somebody refers to it. *)
Definition refs_ok (F : gmap Z file) (n : Z → Z) : Prop :=
  ∀ p, match F !! p with Some f => f_refcount f = n p ∧ 0 < n p < 2 ^ 31 | None => n p = 0 end.

(** The inodes of the open VFS files. *)
Definition vfs_obj (e : Z * file) : option Z := if decide (f_type (snd e) = JNU_FILE_VFS) then Some (f_obj (snd e)) else None.
Definition live_inodes (F : gmap Z file) : list Z := omap vfs_obj (map_to_list F).

Lemma live_insert F p f : F !! p = None → live_inodes (<[p := f]> F) ≡ₚ omap vfs_obj [(p, f)] ++ live_inodes F.
Proof. intros H. unfold live_inodes. rewrite (map_to_list_insert F p f H). by rewrite <- omap_app. Qed.

Lemma live_delete F p f : F !! p = Some f → live_inodes F ≡ₚ omap vfs_obj [(p, f)] ++ live_inodes (delete p F).
Proof. intros H. rewrite <- (insert_delete_id F p f H) at 1. apply live_insert. apply lookup_delete_eq. Qed.

Lemma live_update F p f f' : F !! p = Some f → f_type f' = f_type f → f_obj f' = f_obj f →
  live_inodes (<[p := f']> F) ≡ₚ live_inodes F.
Proof.
  intros H E1 E2. rewrite <- insert_delete_eq, live_insert by apply lookup_delete_eq. rewrite (live_delete F p f H).
  simpl. unfold vfs_obj. simpl. by rewrite E1, E2.
Qed.

Definition plus (n : Z → Z) (p k : Z) : Z → Z := λ q, n q + (if decide (q = p) then k else 0).

Lemma int32_small x : 0 ≤ x < 2 ^ 31 → to_int32 (u32 x) = x.
Proof. intros H. unfold u32. rewrite Z.mod_small by lia. unfold to_int32. by rewrite (proj2 (Z.ltb_lt _ _)) by lia. Qed.

(** A file that is shared once more, or once less. *)
Lemma file_get_spec h n p : refs_ok (h_files h) n → 0 < n p → n p + 1 < 2 ^ 31 →
  ∃ h', file_get (Some p) h = Ok h' ∧ refs_ok (h_files h') (plus n p 1) ∧ h_closed h' = h_closed h ∧
    live_inodes (h_files h') ≡ₚ live_inodes (h_files h).
Proof.
  intros R Hp Hb. pose proof (R p) as Rp. unfold file_get, file_at. destruct (h_files h !! p) as [f|] eqn:E; [|lia].
  cbn [deref mbind outcome_bind]. eexists. split; [done|]. cbn [with_files h_files h_closed]. split_and!; [|done|by eapply live_update].
  intros q. unfold plus. destruct (decide (q = p)) as [->|Hne].
  - rewrite lookup_insert_eq. cbn [set_refcount f_refcount]. rewrite int32_small by lia. lia.
  - rewrite lookup_insert_ne by done. pose proof (R q) as Rq. destruct (h_files h !! q); rewrite Z.add_0_r; done.
Qed.

Lemma file_put_spec h n p : refs_ok (h_files h) n → 0 < n p →
  ∃ h', file_put (Some p) h = Ok h' ∧ refs_ok (h_files h') (plus n p (-1)) ∧
    h_closed h' ++ live_inodes (h_files h') ≡ₚ h_closed h ++ live_inodes (h_files h) ∧
    (is_Some (h_files h' !! p) ↔ 1 < n p).
Proof.
  intros R Hp. pose proof (R p) as Rp. unfold file_put, file_at. destruct (h_files h !! p) as [f|] eqn:E; [|lia].
  destruct Rp as [Er Rp]. cbn [deref mbind outcome_bind]. rewrite Er, int32_small by lia. destruct (Z.gtb_spec (n p - 1) 0).
  - eexists. split; [done|]. cbn [with_files h_files h_closed]. split_and!.
    + intros q. unfold plus. destruct (decide (q = p)) as [->|Hne].
      * rewrite lookup_insert_eq. cbn [set_refcount f_refcount]. lia.
      * rewrite lookup_insert_ne by done. pose proof (R q) as Rq. destruct (h_files h !! q); rewrite Z.add_0_r; done.
    + by rewrite (live_update (h_files h) p f).
    + rewrite lookup_insert_eq. split; [lia|by eexists].
  - unfold file_destroy, file_at. cbn [with_files h_files]. rewrite lookup_insert_eq. cbn [deref mbind outcome_bind set_refcount f_type f_obj].
    eexists. split; [done|].
    split_and!.
    + intros q. unfold plus. destruct (decide (f_type f = JNU_FILE_VFS)); cbn [with_files h_files]; rewrite delete_insert_eq;
        (destruct (decide (q = p)) as [->|Hne]; [rewrite lookup_delete_eq; lia|]); rewrite lookup_delete_ne by done;
        pose proof (R q) as Rq; destruct (h_files h !! q); rewrite Z.add_0_r; done.
    + rewrite (live_delete (h_files h) p f E). unfold vfs_obj. simpl. destruct (decide (f_type f = JNU_FILE_VFS)); cbn [with_files h_files h_closed];
        rewrite delete_insert_eq; [|done]. rewrite <- app_assoc. done.
    + destruct (decide (f_type f = JNU_FILE_VFS)); cbn [with_files h_files]; rewrite lookup_delete_eq; (split; [by intros [? ?]|lia]).
Qed.

Lemma refs_ext F n n' : (∀ p, n' p = n p) → refs_ok F n → refs_ok F n'.
Proof. intros E R p. rewrite E. apply R. Qed.

(** ** Tables *)

Lemma take_S_insert (t : fd_table) fd s : (fd < length t)%nat → take (S fd) (<[fd := s]> t) = take fd t ++ [s].
Proof.
  intros H. erewrite take_S_r by (by apply list_lookup_insert_eq). by rewrite take_insert_ge by lia.
Qed.

Lemma clone_spec src : ∀ n fd dst h nn, (fd + n = length src)%nat → length dst = length src →
  refs_ok (h_files h) nn → (∀ p, 0 < slots p (drop fd src) → 0 < nn p) → (∀ p, nn p + slots p (drop fd src) < 2 ^ 31) →
  ∃ h', clone_slots n fd dst src h = Ok (take fd dst ++ drop fd src, h') ∧
    refs_ok (h_files h') (λ p, nn p + slots p (drop fd src)) ∧ h_closed h' = h_closed h ∧
    live_inodes (h_files h') ≡ₚ live_inodes (h_files h).
Proof.
  induction n as [|n IH]; intros fd dst h nn Hl Hd R Hin Hb; cbn [clone_slots].
  { exists h. rewrite (take_ge dst), (drop_ge src), app_nil_r by lia. split_and!; try done. eapply refs_ext; [|exact R].
    intros p. cbn [slots filter]. unfold slots. cbn. lia. }
  destruct (lookup_lt_is_Some_2 src fd ltac:(lia)) as [s Hs]. rewrite Hs. cbn [deref mbind outcome_bind].
  rewrite (drop_S src s fd Hs) in *. assert (∀ p, slots p (s :: drop (S fd) src) = (if decide (s = Some p) then 1 else 0) + slots p (drop (S fd) src)) as Hsl by (intros; apply slots_cons).
  assert (∀ d, take (S fd) (<[fd := s]> dst) ++ d = take fd dst ++ s :: d) as Ht.
  { intros d. rewrite take_S_insert by lia. by rewrite <- app_assoc. }
  destruct s as [p|].
  - pose proof (Hin p) as Hip. pose proof (Hb p) as Hbp. rewrite Hsl, decide_True in Hip, Hbp by done. pose proof (slots_nonneg p (drop (S fd) src)).
    destruct (file_get_spec h nn p R) as (h1 & E1 & R1 & C1 & L1); [lia|lia|]. rewrite E1. cbn [mbind outcome_bind].
    destruct (IH (S fd) (<[fd := Some p]> dst) h1 (plus nn p 1)) as (h' & E & R' & C' & L'); [lia|by rewrite length_insert|done| | |].
    + intros q Hq. unfold plus. specialize (Hin q). rewrite Hsl in Hin. destruct (decide (Some p = Some q)), (decide (q = p)); simplify_eq; lia.
    + intros q. specialize (Hb q). rewrite Hsl in Hb. unfold plus. destruct (decide (Some p = Some q)), (decide (q = p)); simplify_eq; lia.
    + exists h'. rewrite E, Ht. split_and!; [done| |congruence|by rewrite L', L1]. eapply refs_ext; [|exact R']. intros q. cbv beta. rewrite Hsl. unfold plus.
      destruct (decide (Some p = Some q)), (decide (q = p)); simplify_eq; lia.
  - destruct (IH (S fd) (<[fd := None]> dst) h nn) as (h' & E & R' & C' & L'); [lia|by rewrite length_insert|done| | |].
    + intros q Hq. apply Hin. rewrite Hsl, decide_False by done. lia.
    + intros q. specialize (Hb q). by rewrite Hsl, decide_False in Hb by done.
    + exists h'. rewrite E, Ht. split_and!; try done.
Qed.

Lemma close_spec : ∀ n fd (t : fd_table) h nn, (fd + n = length t)%nat → length t = 32%nat →
  refs_ok (h_files h) nn → (∀ p, slots p (drop fd t) ≤ nn p) →
  ∃ h', close_slots n (Z.of_nat fd) t h = Ok (take fd t ++ replicate n None, h') ∧
    refs_ok (h_files h') (λ p, nn p - slots p (drop fd t)) ∧
    h_closed h' ++ live_inodes (h_files h') ≡ₚ h_closed h ++ live_inodes (h_files h).
Proof.
  induction n as [|n IH]; intros fd t h nn Hl H32 R Hle; cbn [close_slots replicate].
  { exists h. rewrite (take_ge t), (drop_ge t), app_nil_r by lia. split_and!; try done. eapply refs_ext; [|exact R]. intros p. unfold slots. cbn. lia. }
  unfold fd_close at 1, JNU_MAX_FDS. replace ((Z.of_nat fd <? 0) || (Z.of_nat fd >=? 32)) with false by lia. rewrite Nat2Z.id.
  destruct (lookup_lt_is_Some_2 t fd ltac:(lia)) as [s Hs]. rewrite Hs. cbn [deref mbind outcome_bind]. rewrite (drop_S t s fd Hs) in *.
  assert (∀ p, slots p (s :: drop (S fd) t) = (if decide (s = Some p) then 1 else 0) + slots p (drop (S fd) t)) as Hsl by (intros; apply slots_cons).
  assert (drop (S fd) (<[fd := None]> t) = drop (S fd) t) as Ed by (apply drop_insert_lt; lia).
  assert (∀ d, take (S fd) (<[fd := None]> t) ++ d = take fd t ++ None :: d) as Ht.
  { intros d. rewrite take_S_insert by lia. by rewrite <- app_assoc. }
  replace (Z.of_nat fd + 1) with (Z.of_nat (S fd)) by lia. destruct s as [p|].
  - pose proof (Hle p) as Hp. rewrite Hsl, decide_True in Hp by done. pose proof (slots_nonneg p (drop (S fd) t)).
    destruct (file_put_spec h nn p R ltac:(lia)) as (h1 & E1 & R1 & C1 & _). rewrite E1. cbn [mbind outcome_bind].
    destruct (IH (S fd) (<[fd := None]> t) h1 (plus nn p (-1))) as (h' & E & R' & C'); [by rewrite length_insert; lia|by rewrite length_insert|done| |].
    + intros q. rewrite Ed. specialize (Hle q). rewrite Hsl in Hle. unfold plus. destruct (decide (Some p = Some q)), (decide (q = p)); simplify_eq; lia.
    + exists h'. rewrite E, Ht. split_and!; [done| |by rewrite C', C1]. eapply refs_ext; [|exact R']. intros q. cbv beta. rewrite Ed, Hsl. unfold plus.
      destruct (decide (Some p = Some q)), (decide (q = p)); simplify_eq; lia.
  - cbn [file_put mbind outcome_bind].
    destruct (IH (S fd) (<[fd := None]> t) h nn) as (h' & E & R' & C'); [by rewrite length_insert; lia|by rewrite length_insert|done| |].
    + intros q. rewrite Ed. specialize (Hle q). rewrite Hsl, decide_False in Hle by done. lia.
    + exists h'. rewrite E, Ht. split_and!; try done. eapply refs_ext; [|exact R']. intros q. cbv beta. rewrite Ed, Hsl, decide_False by done. lia.
Qed.

(** A descriptor is the lowest free one from 3 on. *)
Lemma fd_alloc_spec p : ∀ n fd (t : fd_table), (fd + n = length t)%nat →
  (∃ i, (fd ≤ i < length t)%nat ∧ t !! i = Some None ∧ (∀ j, (fd ≤ j < i)%nat → t !! j ≠ Some None) ∧
     alloc_slot n fd t p = Ok (Z.of_nat i, <[i := Some p]> t)) ∨
  (∀ j, (fd ≤ j < length t)%nat → t !! j ≠ Some None) ∧ alloc_slot n fd t p = Ok (- EMFILE, t).
Proof.
  induction n as [|n IH]; intros fd t Hl; cbn [alloc_slot]; [right; split; [lia|done]|].
  destruct (lookup_lt_is_Some_2 t fd ltac:(lia)) as [s Hs]. rewrite Hs. cbn [deref mbind outcome_bind]. destruct s as [q|].
  - destruct (IH (S fd) t ltac:(lia)) as [(i & Hi & H1 & H2 & E)|[H1 E]]; [left|right].
    + exists i. split_and!; [lia|lia|done| |done]. intros j Hj. destruct (decide (j = fd)) as [->|]; [congruence|]. apply H2. lia.
    + split; [|done]. intros j Hj. destruct (decide (j = fd)) as [->|]; [congruence|]. apply H1. lia.
  - left. exists fd. split_and!; [lia|lia|done|lia|done].
Qed.

(** ** All processes *)

(** The tables by process, the heap, and the inodes [sys_open] has opened. *)
Record fworld := Fworld { fw_tables : gmap Z fd_table; fw_heap : fheap; fw_opened : list Z }.

Inductive fevent :=
| FSpawn (pid : Z)                     (* a process with an empty table *)
| FOpen (pid : Z) (f : file)           (* sys_open found this file *)
| FClose (pid fd : Z)
| FSeek (pid fd off whence : Z)
| FFork (parent child : Z)
| FExit (pid : Z).

Definition fexec (e : fevent) (w : fworld) : outcome (Z * fworld) :=
  let T := fw_tables w in let h := fw_heap w in
  match e with
  | FSpawn pid => Ok (0, Fworld (<[pid := fd_table_init]> T) h (fw_opened w))
  | FOpen pid f =>
      t ← deref (T !! pid);
      let p := fresh (dom (h_files h)) in
      '(r, t, h) ← open_tail p t (with_files (<[p := set_refcount 1 f]> (h_files h)) h);
      Ok (r, Fworld (<[pid := t]> T) h (omap vfs_obj [(p, f)] ++ fw_opened w))
  | FClose pid fd =>
      t ← deref (T !! pid);
      '(r, t, h) ← sys_close fd t h;
      Ok (r, Fworld (<[pid := t]> T) h (fw_opened w))
  | FSeek pid fd off whence =>
      t ← deref (T !! pid);
      '(r, h) ← sys_lseek fd off whence t h;
      Ok (r, Fworld T h (fw_opened w))
  | FFork parent child =>
      t ← deref (T !! parent);
      '(t', h) ← fd_table_clone fd_table_init t h;
      Ok (0, Fworld (<[child := t']> T) h (fw_opened w))
  | FExit pid =>
      t ← deref (T !! pid);
      '(t, h) ← close_all t h;
      Ok (0, Fworld (delete pid T) h (fw_opened w))
  end.

(** Processes exist when they act, and there are few enough of them. *)
Definition MAX_PROCS : Z := 1048576.

Definition fallowed (e : fevent) (w : fworld) : Prop :=
  match e with
  | FSpawn pid => fw_tables w !! pid = None ∧ Z.of_nat (size (fw_tables w)) < MAX_PROCS
  | FOpen pid _ | FClose pid _ | FSeek pid _ _ _ | FExit pid => is_Some (fw_tables w !! pid)
  | FFork parent child => is_Some (fw_tables w !! parent) ∧ fw_tables w !! child = None ∧ Z.of_nat (size (fw_tables w)) < MAX_PROCS
  end.

Record fd_ok (w : fworld) : Prop := FdOk {
  fo_length : ∀ i t, fw_tables w !! i = Some t → length t = 32%nat;
  fo_refs : refs_ok (h_files (fw_heap w)) (total_refs (fw_tables w));
  fo_balance : fw_opened w ≡ₚ h_closed (fw_heap w) ++ live_inodes (h_files (fw_heap w));
  fo_procs : Z.of_nat (size (fw_tables w)) ≤ MAX_PROCS
}.

Lemma total_bound T p : (∀ i t, T !! i = Some t → length t = 32%nat) → total_refs T p ≤ 32 * Z.of_nat (size T).
Proof.
  induction T as [|i t T Hi IH] using map_ind; intros Hl; [done|]. rewrite total_insert, map_size_insert_None by done.
  assert (slots p t ≤ 32). { unfold slots. pose proof (Hl i t (lookup_insert_eq _ _ _)). pose proof (length_filter (λ s, s = Some p) t). lia. }
  assert (total_refs T p ≤ 32 * Z.of_nat (size T)); [|lia]. apply IH. intros j u Hu. apply (Hl j). rewrite lookup_insert_ne; [done|congruence].
Qed.

Lemma lengths_insert (T : gmap Z fd_table) i t : (∀ j u, T !! j = Some u → length u = 32%nat) → length t = 32%nat →
  ∀ j u, <[i := t]> T !! j = Some u → length u = 32%nat.
Proof. intros H Ht j u. rewrite lookup_insert_Some. intros [[_ <-]|[_ Hu]]; [done|by eapply H]. Qed.

Lemma slots_total T i t p : T !! i = Some t → slots p t ≤ total_refs T p.
Proof. intros H. rewrite (total_delete T i t p H). pose proof (total_nonneg (delete i T) p). lia. Qed.

Section Steps.
  Context (w : fworld) (Hw : fd_ok w).

Lemma step_fspawn pid : fallowed (FSpawn pid) w → ∃ r w', fexec (FSpawn pid) w = Ok (r, w') ∧ fd_ok w'.
Proof using Hw.
  intros [Hp Hs]. destruct Hw as [Hl R B Hn]. eexists _, _. split; [done|]. constructor; cbn [fw_tables fw_heap fw_opened]; try done.
  - by apply lengths_insert.
  - eapply refs_ext; [|exact R]. intros p. rewrite total_insert by done. unfold fd_table_init. rewrite slots_none. lia.
  - rewrite map_size_insert_None by done. lia.
Qed.

Lemma step_fclose pid fd t : fw_tables w !! pid = Some t →
  ∃ r w', fexec (FClose pid fd) w = Ok (r, w') ∧ fd_ok w'.
Proof using Hw.
  intros Ht. destruct Hw as [Hl R B Hn]. cbn [fexec]. rewrite Ht. cbn [deref mbind outcome_bind]. pose proof (Hl _ _ Ht) as H32.
  assert (∀ t' h', length t' = 32%nat → refs_ok (h_files h') (λ p, total_refs (fw_tables w) p - slots p t + slots p t') →
    h_closed h' ++ live_inodes (h_files h') ≡ₚ h_closed (fw_heap w) ++ live_inodes (h_files (fw_heap w)) →
    fd_ok (Fworld (<[pid := t']> (fw_tables w)) h' (fw_opened w))) as Hfin.
  { intros t' h' H1 H2 H3. constructor; cbn [fw_tables fw_heap fw_opened].
    - by apply lengths_insert.
    - eapply refs_ext; [|exact H2]. intros p. by rewrite (total_update _ _ t).
    - by rewrite B, H3.
    - rewrite map_size_insert_Some by (by eexists). done. }
  unfold sys_close, fd_close, JNU_MAX_FDS. destruct ((fd <? 0) || (fd >=? 32)) eqn:C; cbn [mbind outcome_bind].
  { eexists _, _. split; [done|]. apply Hfin; [done| |done]. eapply refs_ext; [|exact R]. intros p. lia. }
  destruct (lookup_lt_is_Some_2 t (Z.to_nat fd) ltac:(lia)) as [s Hs]. rewrite Hs. cbn [deref mbind outcome_bind].
  destruct s as [p|]; cbn [mbind outcome_bind].
  - assert (0 < total_refs (fw_tables w) p) as H0.
    { pose proof (slots_total _ _ _ p Ht). assert (0 < slots p t) by (apply slots_in; by eapply list_elem_of_lookup_2). lia. }
    destruct (file_put_spec _ _ p R H0) as (h' & E & R' & B' & _). rewrite E. cbn [mbind outcome_bind]. eexists _, _. split; [done|].
    apply Hfin; [by rewrite length_insert| |done]. eapply refs_ext; [|exact R']. intros q. rewrite (slots_insert _ _ _ _ _ Hs). unfold plus.
    rewrite (decide_False (P := None = Some q)) by done. destruct (decide (Some p = Some q)), (decide (q = p)); simplify_eq; lia.
  - eexists _, _. split; [done|]. apply Hfin; [by rewrite length_insert| |done]. eapply refs_ext; [|exact R]. intros q.
    rewrite (slots_insert _ _ _ _ _ Hs). rewrite !(decide_False (P := None = Some q)) by done. lia.
Qed.

Lemma step_fopen pid f t : fw_tables w !! pid = Some t →
  ∃ r w', fexec (FOpen pid f) w = Ok (r, w') ∧ fd_ok w'.
Proof using Hw.
  intros Ht. destruct Hw as [Hl R B Hn]. cbn [fexec]. rewrite Ht. cbn [deref mbind outcome_bind]. pose proof (Hl _ _ Ht) as H32.
  set (p := fresh (dom (h_files (fw_heap w)))). assert (h_files (fw_heap w) !! p = None) as Hp by (apply not_elem_of_dom, is_fresh).
  set (h1 := with_files _ _). pose proof (R p) as Rp. rewrite Hp in Rp.
  assert (refs_ok (h_files h1) (plus (total_refs (fw_tables w)) p 1)) as R1.
  { intros q. unfold plus, h1. cbn [with_files h_files]. destruct (decide (q = p)) as [->|Hne].
    - rewrite lookup_insert_eq, Rp. cbn. lia.
    - rewrite lookup_insert_ne by done. pose proof (R q) as Rq. destruct (h_files (fw_heap w) !! q); rewrite Z.add_0_r; done. }
  assert (h_closed h1 ++ live_inodes (h_files h1) ≡ₚ omap vfs_obj [(p, f)] ++ fw_opened w) as B1.
  { unfold h1. cbn [with_files h_files h_closed]. rewrite live_insert, B by done. rewrite Permutation_app_comm, <- app_assoc.
    rewrite (Permutation_app_comm (live_inodes _)). done. }
  unfold open_tail, fd_alloc. destruct (fd_alloc_spec p (Z.to_nat (JNU_MAX_FDS - 3)) 3 t) as [(i & Hi & Hs & _ & E)|[_ E]].
  { rewrite H32. done. }
  - rewrite E. cbn [mbind outcome_bind]. rewrite (proj2 (Z.ltb_ge _ 0)) by lia. eexists _, _. split; [done|].
    constructor; cbn [fw_tables fw_heap fw_opened].
    + apply lengths_insert; [done|by rewrite length_insert].
    + eapply refs_ext; [|exact R1]. intros q. rewrite (total_update _ _ t), (slots_insert _ _ _ _ _ Hs) by done. unfold plus.
      rewrite (decide_False (P := None = Some q)) by done. destruct (decide (Some p = Some q)), (decide (q = p)); simplify_eq; lia.
    + by rewrite B1.
    + rewrite map_size_insert_Some by (by eexists). done.
  - rewrite E. cbn [mbind outcome_bind]. change (- EMFILE <? 0) with true. cbv iota.
    destruct (file_put_spec h1 _ p R1) as (h' & E' & R' & B' & _). { unfold plus. rewrite decide_True by done. lia. }
    rewrite E'. cbn [mbind outcome_bind]. eexists _, _. split; [done|]. constructor; cbn [fw_tables fw_heap fw_opened].
    + by apply lengths_insert.
    + eapply refs_ext; [|exact R']. intros q. rewrite (total_update _ _ t) by done. unfold plus. destruct (decide (q = p)); lia.
    + by rewrite B', B1.
    + rewrite map_size_insert_Some by (by eexists). done.
Qed.

(** The clients' calls, with the table looked up. *)
Lemma ffork_eq parent child t : fw_tables w !! parent = Some t → fexec (FFork parent child) w =
  fd_table_clone fd_table_init t (fw_heap w) ≫= λ r, Ok (0, Fworld (<[child := fst r]> (fw_tables w)) (snd r) (fw_opened w)).
Proof using. intros H. unfold fexec. rewrite H. unfold deref. rewrite bind_Ok. destruct (fd_table_clone _ _ _) as [[? ?]| | |]; reflexivity. Qed.

Lemma fexit_eq pid t : fw_tables w !! pid = Some t → fexec (FExit pid) w =
  close_all t (fw_heap w) ≫= λ r, Ok (0, Fworld (delete pid (fw_tables w)) (snd r) (fw_opened w)).
Proof using. intros H. unfold fexec. rewrite H. unfold deref. rewrite bind_Ok. destruct (close_all _ _) as [[? ?]| | |]; reflexivity. Qed.

Lemma step_ffork parent child : fallowed (FFork parent child) w → ∃ r w', fexec (FFork parent child) w = Ok (r, w') ∧ fd_ok w' ∧
  fw_tables w' !! child = fw_tables w !! parent.
Proof using Hw.
  intros ([t Ht] & Hc & Hs). destruct Hw as [Hl R B Hn]. rewrite (ffork_eq _ _ t Ht). pose proof (Hl _ _ Ht) as H32.
  destruct (clone_spec t (Z.to_nat JNU_MAX_FDS) 0 fd_table_init (fw_heap w) (total_refs (fw_tables w))) as (h' & E & R' & C' & L'); try done.
  - intros p Hp. rewrite drop_0 in Hp. pose proof (slots_total _ _ _ p Ht). lia.
  - intros p. rewrite drop_0. pose proof (total_bound _ p Hl). pose proof (slots_total _ _ _ p Ht). unfold MAX_PROCS in *. lia.
  - rewrite take_0, drop_0, app_nil_l in E. unfold fd_table_clone. rewrite E, bind_Ok. cbn [fst snd]. eexists _, _. split; [done|]. split.
    + constructor; cbn [fw_tables fw_heap fw_opened].
      * by apply lengths_insert.
      * eapply refs_ext; [|exact R']. intros p. cbv beta. rewrite total_insert by done. rewrite drop_0. lia.
      * by rewrite B, C', L'.
      * rewrite map_size_insert_None by done. lia.
    + cbn [fw_tables]. by rewrite lookup_insert_eq.
Qed.

Lemma step_fexit pid t : fw_tables w !! pid = Some t → ∃ r w', fexec (FExit pid) w = Ok (r, w') ∧ fd_ok w'.
Proof using Hw.
  intros Ht. destruct Hw as [Hl R B Hn]. rewrite (fexit_eq _ t Ht). pose proof (Hl _ _ Ht) as H32.
  destruct (close_spec (Z.to_nat JNU_MAX_FDS) 0 t (fw_heap w) (total_refs (fw_tables w))) as (h' & E & R' & B'); try done.
  - intros p. rewrite drop_0. by apply slots_total with pid.
  - unfold close_all. rewrite take_0, app_nil_l in E. change (Z.of_nat 0) with 0 in E. rewrite E, bind_Ok. cbn [fst snd]. eexists _, _. split; [done|].
    constructor; cbn [fw_tables fw_heap fw_opened].
    + intros j u. rewrite lookup_delete_Some. intros [_ Hu]. by apply (Hl j).
    + eapply refs_ext; [|exact R']. intros p. cbv beta. rewrite drop_0, (total_delete _ pid t p Ht). lia.
    + by rewrite B, B'.
    + rewrite map_size_delete_Some by (by eexists). lia.
Qed.

Lemma step_fseek pid fd off whence t : fw_tables w !! pid = Some t → ∃ r w', fexec (FSeek pid fd off whence) w = Ok (r, w') ∧ fd_ok w'.
Proof using Hw.
  intros Ht. destruct Hw as [Hl R B Hn]. cbn [fexec]. rewrite Ht. cbn [deref mbind outcome_bind]. pose proof (Hl _ _ Ht) as H32.
  unfold sys_lseek, lseek_file, fd_get, JNU_MAX_FDS. destruct ((fd <? 0) || (fd >=? 32)) eqn:C; cbn [mbind outcome_bind].
  { eexists _, _. split; [done|]. by destruct w. }
  destruct (lookup_lt_is_Some_2 t (Z.to_nat fd) ltac:(lia)) as [s Hs]. rewrite Hs. cbn [deref mbind outcome_bind].
  assert (∀ r, ∃ r' w', (Ok (r, Fworld (fw_tables w) (fw_heap w) (fw_opened w)) : outcome (Z * fworld)) = Ok (r', w') ∧ fd_ok w') as Hstay.
  { intros r. exists r, w. split; [by destruct w|done]. }
  destruct s as [p|]; [|apply Hstay].
  assert (0 < total_refs (fw_tables w) p) as H0.
  { pose proof (slots_total _ _ _ p Ht). assert (0 < slots p t) by (apply slots_in; by eapply list_elem_of_lookup_2). lia. }
  pose proof (R p) as Rp. unfold file_at. destruct (h_files (fw_heap w) !! p) as [f|] eqn:Ef; [|lia]. cbn [deref mbind outcome_bind].
  destruct (decide _); [apply Hstay|]. set (base := if whence =? _ then _ else _). destruct base as [b|]; [|apply Hstay].
  destruct (add_overflow b off) as [next|]; [|apply Hstay].
  destruct ((next <? 0) || (next >? to_int64 (file_size f))); [apply Hstay|]. eexists _, _. split; [done|].
  constructor; cbn [fw_tables fw_heap fw_opened with_files h_files h_closed]; try done.
  - intros q. destruct (decide (q = p)) as [->|Hne]; [rewrite lookup_insert_eq; done|rewrite lookup_insert_ne by done; apply R].
  - by rewrite (live_update _ p f).
Qed.
End Steps.

Fixpoint frun (es : list fevent) (w : fworld) : outcome fworld :=
  match es with [] => Ok w | e :: es => '(_, w) ← fexec e w; frun es w end.

Fixpoint fall (es : list fevent) (w : fworld) : Prop :=
  match es with
  | [] => True
  | e :: es => fallowed e w ∧ match fexec e w with Ok (_, w) => fall es w | _ => True end
  end.

Lemma fexec_ok e w : fd_ok w → fallowed e w → ∃ r w', fexec e w = Ok (r, w') ∧ fd_ok w'.
Proof.
  intros H A. destruct e; cbn [fallowed] in A.
  - by apply step_fspawn.
  - destruct A as [t Ht]. by apply step_fopen with t.
  - destruct A as [t Ht]. by apply step_fclose with t.
  - destruct A as [t Ht]. by apply step_fseek with t.
  - destruct (step_ffork w H _ _ A) as (r & w' & E & O & _). by exists r, w'.
  - destruct A as [t Ht]. by apply step_fexit with t.
Qed.

Lemma frun_ok es : ∀ w, fd_ok w → fall es w → ∃ w', frun es w = Ok w' ∧ fd_ok w'.
Proof.
  induction es as [|e es IH]; intros w H A; cbn [frun fall] in *; [by exists w|]. destruct A as [A1 A2].
  destruct (fexec_ok e w H A1) as (r & w1 & E & H1). rewrite E in *. cbn [mbind outcome_bind]. by apply IH.
Qed.

Definition fstart : fworld := Fworld ∅ (Fheap ∅ []) [].

Lemma fstart_ok : fd_ok fstart.
Proof. by constructor. Qed.

(** C17: the lifetime of open files.  Processes open, close, seek, fork and exit, whole calls
    one after the other in any order: no call follows a pointer to a freed file; a slot always
    points at an open file; the reference count of every open file is the
    number of slots, in all tables, that point at it; and the inodes opened
    through the VFS are the ones closed (each once) and the ones still open,
    so that nothing leaks and nothing is closed twice. *)
Theorem fd_files_balanced es :
  fall es fstart →
  ∃ w, frun es fstart = Ok w ∧
    (∀ pid t p, fw_tables w !! pid = Some t → Some p ∈ t → is_Some (h_files (fw_heap w) !! p)) ∧
    (∀ p f, h_files (fw_heap w) !! p = Some f → f_refcount f = total_refs (fw_tables w) p ∧ 0 < f_refcount f) ∧
    fw_opened w ≡ₚ h_closed (fw_heap w) ++ live_inodes (h_files (fw_heap w)).
Proof.
  intros A. destruct (frun_ok es fstart fstart_ok A) as (w & E & [Hl R B Hn]). exists w. split_and!; try done.
  - intros pid t p Ht Hp. apply slots_in in Hp. pose proof (slots_total _ _ _ p Ht). pose proof (R p) as Rp.
    destruct (h_files (fw_heap w) !! p); [by eexists|lia].
  - intros p f Hf. pose proof (R p) as Rp. rewrite Hf in Rp. lia.
Qed.

(** A parent that shares a VFS file with its child through fork; both close it. *)
Definition demo_share : list fevent :=
  [FSpawn 1; FOpen 1 (File JNU_FILE_VFS 0 0 0 77 100); FFork 1 2; FClose 1 3; FSeek 2 3 10 0; FExit 2].

Lemma fd_files_balanced_witness : ∃ w, frun demo_share fstart = Ok w ∧
  fw_opened w ≡ₚ h_closed (fw_heap w) ++ live_inodes (h_files (fw_heap w)).
Proof.
  destruct (fd_files_balanced demo_share) as (w & E & _ & _ & B).
  - vm_compute. repeat split; try (eexists; reflexivity); lia.
  - exists w. split; [exact E|exact B].
Defined.

Example demo_share_closes : (w ← frun demo_share fstart; Ok (h_closed (fw_heap w), size (h_files (fw_heap w)))) = Ok ([77], 0%nat).
Proof. vm_compute. reflexivity. Qed.

(** Lseek moves the offset to the position asked for, relative to the
    start, the current offset or the end, exactly when that position lies
    between 0 and the file size; otherwise (bad descriptor or mode, position
    outside the file, 64-bit overflow) it fails and changes nothing.  The
    offset never leaves the file. *)
Theorem lseek_correct fd off whence t h p f :
  0 ≤ fd < 32 → t !! Z.to_nat fd = Some (Some p) → h_files h !! p = Some f → f_type f ≠ JNU_FILE_CHARDEV →
  0 ≤ f_offset f ≤ f_size f → f_size f < 2 ^ 63 → - 2 ^ 63 ≤ off < 2 ^ 63 →
  let base := if whence =? 0 then Some 0 else if whence =? 1 then Some (f_offset f) else if whence =? 2 then Some (f_size f) else None in
  match base with
  | Some b =>
      if (0 <=? b + off) && (b + off <=? f_size f)
      then sys_lseek fd off whence t h = Ok (b + off, with_files (<[p := set_offset (b + off) f]> (h_files h)) h)
      else sys_lseek fd off whence t h = Ok (- EINVAL, h)
  | None => sys_lseek fd off whence t h = Ok (- EINVAL, h)
  end.
Proof.
  intros Hfd Ht Hf Hty Ho Hs Hoff base. unfold sys_lseek, lseek_file, fd_get, JNU_MAX_FDS. replace ((fd <? 0) || (fd >=? 32)) with false by lia.
  rewrite Ht. cbn [deref mbind outcome_bind]. unfold file_at. rewrite Hf. cbn [deref mbind outcome_bind]. rewrite decide_False by done.
  assert (file_size f = f_size f) as Es. { unfold file_size. repeat case_decide; try done. destruct (f_type f); done. }
  assert (∀ v, 0 ≤ v < 2 ^ 63 → to_int64 v = v) as Hi. { intros v Hv. unfold to_int64. by rewrite (proj2 (Z.ltb_lt _ _)) by lia. }
  rewrite Es, (Hi (f_offset f)), (Hi (f_size f)) by lia. unfold JNU_SEEK_SET, JNU_SEEK_CUR, JNU_SEEK_END. fold base.
  destruct base as [b|] eqn:Eb; [|done].
  assert (0 ≤ b ≤ f_size f) as Hb. { unfold base in Eb. repeat case_match; simplify_eq; lia. }
  unfold add_overflow. destruct ((0 <=? b + off) && (b + off <=? f_size f)) eqn:C.
  - replace ((b + off <? - 2 ^ 63) || (b + off >=? 2 ^ 63)) with false by lia.
    replace ((b + off <? 0) || (b + off >? f_size f)) with false by lia. by rewrite u64_small by (unfold in_u64; lia).
  - destruct ((b + off <? - 2 ^ 63) || (b + off >=? 2 ^ 63)); [done|]. by replace ((b + off <? 0) || (b + off >? f_size f)) with true by lia.
Qed.

Lemma lseek_correct_witness :
  sys_lseek 3 (-1) 2 [None; None; None; Some 5] (Fheap {[5 := File JNU_FILE_INITRAMFS 0 0 1 0 10]} []) =
  Ok (9, Fheap {[5 := File JNU_FILE_INITRAMFS 9 0 1 0 10]} []).
Proof.
  exact (lseek_correct 3 (-1) 2 [None; None; None; Some 5] (Fheap {[5 := File JNU_FILE_INITRAMFS 0 0 1 0 10]} []) 5
    (File JNU_FILE_INITRAMFS 0 0 1 0 10) ltac:(lia) eq_refl eq_refl ltac:(discriminate) ltac:(simpl; lia) ltac:(simpl; lia) ltac:(lia)).
Defined.

(** [fd_get] takes no reference: when another thread of the process closes the
    descriptor between the lookup and the use, the file is freed under the
    system call. *)
Example close_before_lseek :
  let table := [None; None; None; Some 5] in
  let h := Fheap {[5 := File JNU_FILE_INITRAMFS 0 0 1 0 10]} [] in
  (file ← fd_get table 3;
   '(_, table, h) ← sys_close 3 table h;
   match file with Some p => lseek_file p 0 2 h | None => Ok (- EINVAL, h) end) = Fault.
Proof. vm_compute. reflexivity. Qed.
