(* ===== verification/Bufcache.v ===== *)
(** * fs/block.c and fs/minix/buffer.c: block devices and the buffer cache

    A disk is a list of 512-byte sectors.  A driver moves one sector after the
    other, as [ata_bdev_read] and [ata_bdev_write] do; what each wait for the
    drive returns is taken from a list of error codes, [bc_io]: 0 is success,
    and when the list is used up every wait succeeds.  A failed write leaves
    the sectors before the failing one written, and the failing one too when
    only the wait after the transfer failed.

    The functions of the cache run to their end one after the other.  Under
    that assumption a slot is never found [loading]; the retry loop of
    [bufcache_get], which would spin until another task has finished the load,
    is therefore out of fuel at once. *)

From S2P Require Import Prelude.

(** ** Devices *)

Record block_device := Bdev { bd_sector_size : Z; bd_sectors : list (list Z) }.

Definition sector_count (d : block_device) : Z := Z.of_nat (length (bd_sectors d)).

Definition next_io (io : list Z) : Z * list Z := match io with [] => (0, []) | e :: io => (e, io) end.

(** [ata_wait_ready] before a command and [ata_wait_drq] after it. *)
Definition issue (io : list Z) : Z * list Z :=
  let '(err, io) := next_io io in if negb (err =? 0) then (err, io) else next_io io.

(** The sector the task file names: the low nibble of the drive register and
    the three LBA registers carry 28 bits of the number. *)
Definition lba28 (sector : Z) : Z :=
  Z.lor (Z.shiftl (Z.land (Z.shiftr sector 24) 0x0F) 24)
    (Z.lor (Z.shiftl (Z.land (Z.shiftr sector 16) 0xFF) 16)
      (Z.lor (Z.shiftl (Z.land (Z.shiftr sector 8) 0xFF) 8) (Z.land sector 0xFF))).

(** [for (i = 0; i < count; i++)]: the error, the sectors read so far, and the
    remaining answers.  The last [ata_wait_ready] comes after the transfer. *)
Fixpoint ata_bdev_read (count : nat) (sector : Z) (d : block_device) (io : list Z) : Z * list Z * list Z :=
  match count with
  | O => (0, [], io)
  | S count =>
      if sector >=? sector_count d then (- EINVAL, [], io) else
      let '(err, io) := issue io in
      if negb (err =? 0) then (err, [], io) else
      let p := default [] (bd_sectors d !! Z.to_nat (lba28 sector)) in
      let '(err, io) := next_io io in
      if negb (err =? 0) then (err, p, io) else
      let '(err, bytes, io) := ata_bdev_read count (sector + 1) d io in
      (err, p ++ bytes, io)
  end.

Fixpoint ata_bdev_write (count : nat) (sector : Z) (bytes : list Z) (d : block_device) (io : list Z) :
    Z * block_device * list Z :=
  match count with
  | O => (0, d, io)
  | S count =>
      if sector >=? sector_count d then (- EINVAL, d, io) else
      let '(err, io) := issue io in
      if negb (err =? 0) then (err, d, io) else
      let d := Bdev (bd_sector_size d) (<[Z.to_nat (lba28 sector) := take 512 bytes]> (bd_sectors d)) in
      let '(err, io) := next_io io in
      if negb (err =? 0) then (err, d, io) else
      ata_bdev_write count (sector + 1) (drop 512 bytes) d io
  end.

(** ** The cache *)

Definition MINIX_BLOCK_SIZE : Z := 1024.
Definition BUFCACHE_SLOTS : nat := 64.
Definition BUFCACHE_DIRTY_LIMIT : Z := 48.
Definition BUFCACHE_SECTORS_PER_BLOCK : Z := 2.

Record minix_buffer := Buffer {
  b_bdev : option Z;
  b_block_no : Z;
  b_refcount : Z;
  b_dirty : bool;
  b_data : list Z
}.

Record bufcache_slot := Slot { sl_buf : minix_buffer; sl_valid : bool; sl_loading : bool; sl_lru : Z }.

(** The file's variables, and the devices with the answers to come. *)
Record bufcache := Bufcache {
  bc_slots : list bufcache_slot;
  bc_clock : Z;
  bc_dirty_count : Z;
  bc_hits : Z;
  bc_misses : Z;
  bc_devs : gmap Z block_device;
  bc_io : list Z
}.

Definition with_slots v s := Bufcache v (bc_clock s) (bc_dirty_count s) (bc_hits s) (bc_misses s) (bc_devs s) (bc_io s).
Definition with_clock v s := Bufcache (bc_slots s) v (bc_dirty_count s) (bc_hits s) (bc_misses s) (bc_devs s) (bc_io s).
Definition with_dirty_count v s := Bufcache (bc_slots s) (bc_clock s) v (bc_hits s) (bc_misses s) (bc_devs s) (bc_io s).
Definition with_stats h m s := Bufcache (bc_slots s) (bc_clock s) (bc_dirty_count s) h m (bc_devs s) (bc_io s).
Definition with_devs v io s := Bufcache (bc_slots s) (bc_clock s) (bc_dirty_count s) (bc_hits s) (bc_misses s) v io.

Definition set_refcount (v : Z) (b : minix_buffer) : minix_buffer := Buffer (b_bdev b) (b_block_no b) v (b_dirty b) (b_data b).
Definition set_dirty (v : bool) (b : minix_buffer) : minix_buffer := Buffer (b_bdev b) (b_block_no b) (b_refcount b) v (b_data b).
Definition set_data (v : list Z) (b : minix_buffer) : minix_buffer := Buffer (b_bdev b) (b_block_no b) (b_refcount b) (b_dirty b) v.
Definition on_buf (f : minix_buffer → minix_buffer) (x : bufcache_slot) : bufcache_slot :=
  Slot (f (sl_buf x)) (sl_valid x) (sl_loading x) (sl_lru x).

Definition slot_at (i : nat) (s : bufcache) : outcome bufcache_slot := deref (bc_slots s !! i).
Definition upd_slot (i : nat) (f : bufcache_slot → bufcache_slot) (s : bufcache) : outcome bufcache :=
  x ← slot_at i s; Ok (with_slots (<[i := f x]> (bc_slots s)) s).

(** [block_read] and [block_write] of [block.c]; [bytes] is the buffer before. *)
Definition block_read (bdev : option Z) (lba count : Z) (bytes : list Z) (s : bufcache) : outcome (Z * list Z * bufcache) :=
  match bdev with
  | None => Ok (- EINVAL, bytes, s)
  | Some d =>
      dev ← deref (bc_devs s !! d);
      let '(err, got, io) := ata_bdev_read (Z.to_nat count) lba dev (bc_io s) in
      Ok (err, got ++ drop (length got) bytes, with_devs (bc_devs s) io s)
  end.

Definition block_write (bdev : option Z) (lba count : Z) (bytes : list Z) (s : bufcache) : outcome (Z * bufcache) :=
  match bdev with
  | None => Ok (- EINVAL, s)
  | Some d =>
      dev ← deref (bc_devs s !! d);
      let '(err, dev, io) := ata_bdev_write (Z.to_nat count) lba bytes dev (bc_io s) in
      Ok (err, with_devs (<[d := dev]> (bc_devs s)) io s)
  end.

(** [for (i = 0; i < BUFCACHE_SLOTS; i++)] with the best victim so far. *)
Fixpoint pick_loop (i : nat) (l : list bufcache_slot) (victim : option (nat * bufcache_slot)) : option nat :=
  match l with
  | [] => fst <$> victim
  | x :: l =>
      if sl_loading x then pick_loop (S i) l victim else
      if negb (sl_valid x) && (b_refcount (sl_buf x) =? 0) then Some i else
      if negb (b_refcount (sl_buf x) =? 0) || b_dirty (sl_buf x) then pick_loop (S i) l victim else
      match victim with
      | Some (_, v) => if sl_lru x <? sl_lru v then pick_loop (S i) l (Some (i, x)) else pick_loop (S i) l victim
      | None => pick_loop (S i) l (Some (i, x))
      end
  end.

Definition bufcache_pick_victim (s : bufcache) : option nat := pick_loop 0 (bc_slots s) None.

(** The slot that holds the block or is loading it. *)
Definition slot_matches (bdev : option Z) (block : Z) (x : bufcache_slot) : bool :=
  bool_decide (b_bdev (sl_buf x) = bdev) && (b_block_no (sl_buf x) =? block) && (sl_valid x || sl_loading x).

Fixpoint find_slot (i : nat) (bdev : option Z) (block : Z) (l : list bufcache_slot) : option (nat * bufcache_slot) :=
  match l with
  | [] => None
  | x :: l => if slot_matches bdev block x then Some (i, x) else find_slot (S i) bdev block l
  end.

Definition bufcache_load (i : nat) (bdev : option Z) (block : Z) (s : bufcache) : outcome (option nat * bufcache) :=
  x ← slot_at i s;
  let s := if sl_valid x && b_dirty (sl_buf x) && (bc_dirty_count s >? 0) then with_dirty_count (bc_dirty_count s - 1) s else s in
  let clock := u64 (bc_clock s + 1) in
  s ← upd_slot i (λ x, Slot (Buffer bdev block 1 false (b_data (sl_buf x))) false true clock) (with_clock clock s);
  x ← slot_at i s;
  '(err, bytes, s) ← block_read bdev (block * BUFCACHE_SECTORS_PER_BLOCK) BUFCACHE_SECTORS_PER_BLOCK (b_data (sl_buf x)) s;
  s ← upd_slot i (on_buf (set_data bytes)) s;
  if negb (err =? 0) then
    s ← upd_slot i (λ x, Slot (set_refcount 0 (sl_buf x)) false false (sl_lru x)) s; Ok (None, s)
  else
    s ← upd_slot i (λ x, Slot (sl_buf x) true false (sl_lru x)) s; Ok (Some i, s).

(** A buffer is named by its slot. *)
Definition bufcache_get (bdev : option Z) (block : Z) (s : bufcache) : outcome (option nat * bufcache) :=
  match bdev with
  | None => Ok (None, s)
  | Some d =>
      dev ← deref (bc_devs s !! d);
      if negb (bd_sector_size dev =? 512) then Ok (None, s) else
      match find_slot 0 bdev block (bc_slots s) with
      | Some (i, x) =>
          if sl_loading x then NoFuel else
          let clock := u64 (bc_clock s + 1) in
          s ← upd_slot i (λ x, Slot (set_refcount (u32 (b_refcount (sl_buf x) + 1)) (sl_buf x)) (sl_valid x) (sl_loading x) clock) s;
          Ok (Some i, with_stats (u64 (bc_hits s + 1)) (bc_misses s) (with_clock clock s))
      | None =>
          let s := with_stats (bc_hits s) (u64 (bc_misses s + 1)) s in
          match bufcache_pick_victim s with
          | None => Ok (None, s)
          | Some i => bufcache_load i bdev block s
          end
      end
  end.

Definition bufcache_put (i : nat) (s : bufcache) : outcome bufcache :=
  x ← slot_at i s;
  if b_refcount (sl_buf x) =? 0 then Ok s else
  upd_slot i (on_buf (λ b, set_refcount (b_refcount b - 1) b)) s.

(** One round of [bufcache_sync]. *)
Definition sync_slot (bdev : option Z) (i : nat) (s : bufcache) : outcome (Z * bufcache) :=
  x ← slot_at i s;
  let slot_bdev := b_bdev (sl_buf x) in
  let block := b_block_no (sl_buf x) in
  let do_write := sl_valid x && b_dirty (sl_buf x) && (bool_decide (bdev = None) || bool_decide (slot_bdev = bdev)) in
  if negb do_write then Ok (0, s) else
  s ← upd_slot i (on_buf (λ b, set_refcount (u32 (b_refcount b + 1)) b)) s;
  x ← slot_at i s;
  '(err, s) ← block_write slot_bdev (block * BUFCACHE_SECTORS_PER_BLOCK) BUFCACHE_SECTORS_PER_BLOCK (b_data (sl_buf x)) s;
  s ← (if err =? 0 then
         let s := if b_dirty (sl_buf x) && (bc_dirty_count s >? 0) then with_dirty_count (bc_dirty_count s - 1) s else s in
         upd_slot i (on_buf (set_dirty false)) s
       else Ok s);
  s ← upd_slot i (on_buf (λ b, if b_refcount b >? 0 then set_refcount (b_refcount b - 1) b else b)) s;
  Ok (err, s).

Fixpoint sync_loop (n : nat) (i : nat) (bdev : option Z) (s : bufcache) : outcome (Z * bufcache) :=
  match n with
  | O => Ok (0, s)
  | S n =>
      '(err, s) ← sync_slot bdev i s;
      if negb (err =? 0) then Ok (err, s) else sync_loop n (S i) bdev s
  end.

(** [bdev] is NULL for all devices. *)
Definition bufcache_sync (bdev : option Z) (s : bufcache) : outcome (Z * bufcache) := sync_loop BUFCACHE_SLOTS 0 bdev s.

Definition bufcache_mark_dirty (i : nat) (s : bufcache) : outcome bufcache :=
  x ← slot_at i s;
  s ← (if negb (b_dirty (sl_buf x)) && (bc_dirty_count s >=? BUFCACHE_DIRTY_LIMIT) then
         '(_, s) ← bufcache_sync (b_bdev (sl_buf x)) s; Ok s
       else Ok s);
  x ← slot_at i s;
  let s := if negb (b_dirty (sl_buf x)) then with_dirty_count (u32 (bc_dirty_count s + 1)) s else s in
  upd_slot i (on_buf (set_dirty true)) s.

Definition flush_slot (x : bufcache_slot) : bufcache_slot :=
  if negb (b_refcount (sl_buf x) =? 0) || sl_loading x then x else
  Slot (Buffer None 0 (b_refcount (sl_buf x)) false (b_data (sl_buf x))) false (sl_loading x) (sl_lru x).

Fixpoint flush_loop (l : list bufcache_slot) (n : Z) : Z :=
  match l with
  | [] => n
  | x :: l =>
      if negb (b_refcount (sl_buf x) =? 0) || sl_loading x then flush_loop l n else
      flush_loop l (if sl_valid x && b_dirty (sl_buf x) && (n >? 0) then n - 1 else n)
  end.

Definition bufcache_flush_all (s : bufcache) : outcome bufcache :=
  '(_, s) ← bufcache_sync None s;
  Ok (with_dirty_count (flush_loop (bc_slots s) (bc_dirty_count s)) (with_slots (flush_slot <$> bc_slots s) s)).

(** The variables at boot, when all is zero. *)
Definition bufcache_boot (devs : gmap Z block_device) (io : list Z) : bufcache :=
  Bufcache (replicate BUFCACHE_SLOTS (Slot (Buffer None 0 0 false (replicate 1024 0)) false false 0)) 0 0 0 0 devs io.

(** ** What the file systems use

    [data] reads [buf->data]; [write] is a change of the data followed by
    [bufcache_mark_dirty], as every caller does it. *)
Class BlockCache (S : Type) := {
  bget : Z → Z → S → outcome (option nat * S);
  bdata : nat → S → outcome (list Z);
  bwrite : nat → list Z → S → outcome S;
  bput : nat → S → outcome S;
  bsync : Z → S → outcome (Z * S)
}.

Definition buffer_data (i : nat) (s : bufcache) : outcome (list Z) := x ← slot_at i s; Ok (b_data (sl_buf x)).
Definition buffer_write (i : nat) (v : list Z) (s : bufcache) : outcome bufcache :=
  s ← upd_slot i (on_buf (set_data v)) s; bufcache_mark_dirty i s.

#[export] Instance bufcache_cache : BlockCache bufcache := {
  bget d block := bufcache_get (Some d) block;
  bdata := buffer_data;
  bwrite := buffer_write;
  bput := bufcache_put;
  bsync d := bufcache_sync (Some d)
}.
