(* ===== verification/BufcacheSpec.v ===== *)
(** * The buffer cache implements a plain array of blocks

    The abstract state of the cache and its disks is the contents [V] of every
    block, by device and block number, and the list [R] of the references
    handed out.  [cache_ok] relates it to the slots: a valid slot holds the
    current contents of its block, a clean one also what the disk holds, no
    block has two slots, and the contents of a block without a slot are on the
    disk. *)

From S2P Require Import Prelude Bufcache.

Definition byte (x : Z) : Prop := 0 ≤ x < 256.
Definition block_ok (v : list Z) : Prop := length v = 1024%nat ∧ Forall byte v.

#[export] Instance byte_dec x : Decision (byte x).
Proof. unfold byte. apply _. Defined.
#[export] Instance block_ok_dec v : Decision (block_ok v).
Proof. unfold block_ok. apply _. Defined.

(** Blocks on disk: two sectors each. *)
Fixpoint pair_up (l : list (list Z)) : list (list Z) :=
  match l with a :: b :: l => (a ++ b) :: pair_up l | _ => [] end.

Definition block_of (b : Z) (dev : block_device) : option (list Z) :=
  if 0 <=? b then pair_up (bd_sectors dev) !! Z.to_nat b else None.

(** A drive all of whose sectors the driver can name, with its data. *)
Definition dev_ok (dev : block_device) : Prop :=
  (bd_sector_size dev = 512 ∧ sector_count dev ≤ 2 ^ 28) ∧ Forall (λ s, length s = 512%nat ∧ Forall byte s) (bd_sectors dev).

Abbreviation key := (Z * Z)%type.
Abbreviation hold := (nat * key)%type.

Definition refs (R : list hold) (i : nat) : nat := length (filter (λ p, p.1 = i) R).

Definition slot_key (x : bufcache_slot) : option key :=
  if sl_valid x then (λ d, (d, b_block_no (sl_buf x))) <$> b_bdev (sl_buf x) else None.

Definition slot_ok (devs : gmap Z block_device) (V : gmap key (list Z)) (n : nat) (x : bufcache_slot) : Prop :=
  let b := sl_buf x in
  sl_loading x = false ∧ block_ok (b_data b) ∧ b_refcount b = Z.of_nat n ∧
  if sl_valid x then
    ∃ d dev v, b_bdev b = Some d ∧ devs !! d = Some dev ∧ block_of (b_block_no b) dev = Some v ∧
      V !! (d, b_block_no b) = Some (b_data b) ∧ (b_dirty b = false → v = b_data b)
  else n = 0%nat ∧ b_dirty b = false.

Definition is_dirty (x : bufcache_slot) : Prop := b_dirty (sl_buf x) = true.
#[export] Instance is_dirty_dec x : Decision (is_dirty x) := decide (b_dirty (sl_buf x) = true).

Definition dirties (l : list bufcache_slot) : Z := Z.of_nat (length (filter is_dirty l)).

Record cache_ok (l : list bufcache_slot) (n : Z) (devs : gmap Z block_device) (V : gmap key (list Z)) (R : list hold) : Prop := {
  co_len : length l = 64%nat;
  co_slot : ∀ i x, l !! i = Some x → slot_ok devs V (refs R i) x;
  co_uniq : ∀ i j x y k, l !! i = Some x → l !! j = Some y → slot_key x = Some k → slot_key y = Some k → i = j;
  co_dirty : n = dirties l;
  co_held : ∀ i k, (i, k) ∈ R → ∃ x, l !! i = Some x ∧ slot_key x = Some k;
  co_devs : ∀ d dev, devs !! d = Some dev → dev_ok dev;
  co_rest : ∀ d b, (∀ i x, l !! i = Some x → slot_key x ≠ Some (d, b)) → V !! (d, b) = devs !! d ≫= block_of b
}.

(** ** Disks *)

Lemma lba28_small n : 0 ≤ n < 2 ^ 28 → lba28 n = n.
Proof.
  intros [H0 H1]. unfold lba28. change 0xFF with (Z.ones 8). change 0x0F with (Z.ones 4).
  apply Z.bits_inj'. intros i Hi. rewrite !Z.lor_spec, !Z.shiftl_spec, !Z.land_spec by done.
  destruct (decide (i < 8)) as [L|L].
  { rewrite !(Z.testbit_neg_r _ (i - _)) by lia. rewrite !Z.ones_spec_low by lia. by rewrite andb_true_r. }
  rewrite (Z.ones_spec_high 8 i), andb_false_r, orb_false_r by lia.
  destruct (decide (i < 16)) as [L2|L2].
  { rewrite !(Z.testbit_neg_r _ (i - 24)), !(Z.testbit_neg_r _ (i - 16)) by lia. cbn [orb andb].
    rewrite Z.shiftr_spec, Z.ones_spec_low, andb_true_r by lia. f_equal. lia. }
  rewrite (Z.ones_spec_high 8 (i - 8)), andb_false_r, orb_false_r by lia.
  destruct (decide (i < 24)) as [L3|L3].
  { rewrite !(Z.testbit_neg_r _ (i - 24)) by lia. cbn [orb andb].
    rewrite Z.shiftr_spec, Z.ones_spec_low, andb_true_r by lia. f_equal. lia. }
  rewrite (Z.ones_spec_high 8 (i - 16)), andb_false_r, orb_false_r, Z.shiftr_spec by lia.
  replace (i - 24 + 24) with i by lia. destruct (decide (i < 28)) as [L4|L4].
  { by rewrite Z.ones_spec_low, andb_true_r by lia. }
  rewrite Z.ones_spec_high, andb_false_r by lia. symmetry. destruct (decide (n = 0)) as [->|]; [apply Z.testbit_0_l|].
  apply Z.bits_above_log2; [lia|]. assert (Z.log2 n < 28) by (apply Z.log2_lt_pow2; lia). lia.
Qed.

(** On a larger drive the numbers wrap. *)
Example lba28_wraps : lba28 (2 ^ 28 + 5) = 5.
Proof. reflexivity. Qed.

#[local] Opaque lba28.

Lemma pair_up_lookup l n : pair_up l !! n = a ← l !! (2 * n)%nat; b ← l !! (2 * n + 1)%nat; Some (a ++ b).
Proof.
  revert l. induction n as [|n IH]; intros l.
  - by destruct l as [|a [|b l]].
  - replace (2 * S n)%nat with (S (S (2 * n))) by lia. replace (S (S (2 * n)) + 1)%nat with (S (S (2 * n + 1))) by lia.
    destruct l as [|a [|b l]]; [done..|]. apply IH.
Qed.

Lemma block_of_Some b dev v : block_of b dev = Some v ↔
  0 ≤ b ∧ ∃ x y, bd_sectors dev !! Z.to_nat (2 * b) = Some x ∧ bd_sectors dev !! Z.to_nat (2 * b + 1) = Some y ∧ v = x ++ y.
Proof.
  unfold block_of. destruct (Z.leb_spec 0 b); [|split; [done|lia]].
  rewrite pair_up_lookup. replace (Z.to_nat (2 * b)) with (2 * Z.to_nat b)%nat by lia.
  replace (Z.to_nat (2 * b + 1)) with (2 * Z.to_nat b + 1)%nat by lia. split.
  - intros E. split; [done|]. destruct (_ !! (2 * _)%nat) as [x|]; [|done]. simpl in E.
    destruct (bd_sectors dev !! _) as [y|]; [|done]. simpl in E. simplify_eq. eauto.
  - intros (_ & x & y & -> & E & ->). simpl. simpl in E. by rewrite E.
Qed.

Lemma block_of_ok b dev v : dev_ok dev → block_of b dev = Some v → block_ok v.
Proof.
  intros [_ D] (_ & x & y & Hx & Hy & ->)%block_of_Some. rewrite Forall_lookup in D.
  destruct (D _ _ Hx), (D _ _ Hy). split; [rewrite length_app; lia|by apply Forall_app].
Qed.

Lemma block_of_range b dev : is_Some (block_of b dev) ↔ 0 ≤ b ∧ 2 * b + 1 < sector_count dev.
Proof.
  unfold sector_count. split.
  - intros [v (H & x & y & Hx & Hy & _)%block_of_Some]. apply lookup_lt_Some in Hy. lia.
  - intros [H0 H1]. destruct (lookup_lt_is_Some_2 (bd_sectors dev) (Z.to_nat (2 * b)) ltac:(lia)) as [x Hx].
    destruct (lookup_lt_is_Some_2 (bd_sectors dev) (Z.to_nat (2 * b + 1)) ltac:(lia)) as [y Hy].
    exists (x ++ y). apply block_of_Some. eauto 10.
Qed.

(** Reading a block: all of it, or an error and at most a block of bytes. *)
Lemma read_block b dev io : dev_ok dev → 0 ≤ b →
  ∃ err bytes io', ata_bdev_read 2 (b * 2) dev io = (err, bytes, io') ∧
    (length bytes ≤ 1024)%nat ∧ Forall byte bytes ∧
    (err = 0 → block_of b dev = Some bytes) ∧
    (io = [] → io' = [] ∧ (is_Some (block_of b dev) → err = 0)).
Proof.
  intros [[_ Hcap] D] H0. rewrite Forall_lookup in D. simpl. unfold sector_count in *.
  replace (b * 2) with (2 * b) by lia.
  destruct (Z.geb_spec (2 * b) (Z.of_nat (length (bd_sectors dev)))).
  { eexists _, _, _. split; [done|]. split; [simpl; lia|]. split; [constructor|]. split; [done|]. intros ->. split; [done|].
    intros Hr%block_of_range. unfold sector_count in Hr. lia. }
  destruct (lookup_lt_is_Some_2 (bd_sectors dev) (Z.to_nat (2 * b)) ltac:(lia)) as [x Hx]. destruct (D _ _ Hx) as [Lx Bx].
  rewrite (lba28_small (2 * b)), Hx by lia. cbn [default from_option id]. destruct (issue io) as [e0 io0] eqn:E0. destruct (Z.eqb_spec e0 0) as [->|Hne]; cbn [negb].
  2: { eexists _, _, _. split; [done|]. split; [simpl; lia|]. split; [constructor|]. split; [done|]. intros ->. by injection E0 as <- <-. }
  destruct (next_io io0) as [e1 io1] eqn:E1. destruct (Z.eqb_spec e1 0) as [->|Hne]; cbn [negb].
  2: { eexists _, _, _. split; [done|]. split; [lia|]. split; [done|]. split; [done|]. intros ->. injection E0 as <-. by injection E1 as <- <-. }
  destruct (Z.geb_spec (2 * b + 1) (Z.of_nat (length (bd_sectors dev)))).
  { eexists _, _, _. split; [done|]. rewrite app_nil_r. split; [lia|]. split; [done|]. split; [done|].
    intros ->. injection E0 as <-. injection E1 as <-. split; [done|]. intros Hr%block_of_range. unfold sector_count in Hr. lia. }
  destruct (lookup_lt_is_Some_2 (bd_sectors dev) (Z.to_nat (2 * b + 1)) ltac:(lia)) as [y Hy]. destruct (D _ _ Hy) as [Ly By].
  rewrite (lba28_small (2 * b + 1)), Hy by lia. cbn [default from_option id]. destruct (issue io1) as [e2 io2] eqn:E2. destruct (Z.eqb_spec e2 0) as [->|Hne]; cbn [negb].
  2: { eexists _, _, _. split; [done|]. rewrite app_nil_r. split; [lia|]. split; [done|]. split; [done|].
       intros ->. injection E0 as <-. injection E1 as <-. by injection E2 as <- <-. }
  destruct (next_io io2) as [e3 io3] eqn:E3. destruct (Z.eqb_spec e3 0) as [->|Hne]; cbn [negb].
  2: { eexists _, _, _. split; [done|]. rewrite length_app. split; [lia|]. split; [by apply Forall_app|]. split; [done|].
       intros ->. injection E0 as <-. injection E1 as <-. injection E2 as <-. by injection E3 as <- <-. }
  eexists _, _, _. split; [done|]. rewrite app_nil_r, length_app. split; [lia|].
  split; [by apply Forall_app|]. split.
  - intros _. apply block_of_Some. eauto 10.
  - intros ->. injection E0 as <-. injection E1 as <-. injection E2 as <-. by injection E3 as <-.
Qed.

Lemma sector_write b dev n x :
  dev_ok dev → length x = 512%nat → Forall byte x → (n = 2 * b ∨ n = 2 * b + 1) → 0 ≤ b → is_Some (block_of b dev) →
  let dev' := Bdev (bd_sector_size dev) (<[Z.to_nat n := x]> (bd_sectors dev)) in
  dev_ok dev' ∧ sector_count dev' = sector_count dev ∧ is_Some (block_of b dev') ∧ ∀ b', b' ≠ b → block_of b' dev' = block_of b' dev.
Proof.
  intros [Ds D] Lx Bx Hn H0 Hb dev'.
  assert (sector_count dev' = sector_count dev) as Hc by (unfold sector_count; simpl; by rewrite length_insert).
  split_and!; [split; [split; [apply Ds|rewrite Hc; apply Ds]|]|done| |].
  - simpl. apply Forall_insert; [done|done].
  - apply block_of_range. rewrite Hc. by apply block_of_range.
  - intros b' Hne. apply option_eq. intros v. rewrite !block_of_Some. simpl.
    split; intros (H & a & c & Ha & Hc' & ->); (split; [done|]); exists a, c;
      rewrite list_lookup_insert_ne in * by lia; rewrite ?list_lookup_insert_ne in * by lia; done.
Qed.

Lemma write_block b dev v io : dev_ok dev → 0 ≤ b → block_ok v → is_Some (block_of b dev) →
  ∃ err dev' io', ata_bdev_write 2 (b * 2) v dev io = (err, dev', io') ∧ dev_ok dev' ∧
    is_Some (block_of b dev') ∧ (∀ b', b' ≠ b → block_of b' dev' = block_of b' dev) ∧
    (err = 0 → block_of b dev' = Some v) ∧ (io = [] → io' = [] ∧ err = 0).
Proof.
  intros D H0 [Lv Bv] Hb. pose proof (proj1 (block_of_range _ _) Hb) as [_ Hr]. pose proof D as [[_ Hcap] _]. simpl. replace (b * 2) with (2 * b) by lia.
  rewrite (lba28_small (2 * b)), (lba28_small (2 * b + 1)) by lia.
  destruct (Z.geb_spec (2 * b) (sector_count dev)); [lia|].
  destruct (issue io) as [e0 io0] eqn:E0. destruct (Z.eqb_spec e0 0) as [->|]; cbn [negb].
  2: { eexists _, _, _. split; [done|]. split_and!; try done. intros ->. by injection E0 as <- <-. }
  destruct (sector_write b dev (2 * b) (take 512 v) D) as (D1 & C1 & Hb1 & K1); try done; [rewrite length_take; lia|by apply Forall_take|by left|].
  set (dev1 := Bdev _ _) in *.
  destruct (next_io io0) as [e1 io1] eqn:E1. destruct (Z.eqb_spec e1 0) as [->|]; cbn [negb].
  2: { eexists _, _, _. split; [done|]. split_and!; try done. intros ->. injection E0 as <-. by injection E1 as <- <-. }
  destruct (Z.geb_spec (2 * b + 1) (sector_count dev1)); [lia|].
  destruct (issue io1) as [e2 io2] eqn:E2. destruct (Z.eqb_spec e2 0) as [->|]; cbn [negb].
  2: { eexists _, _, _. split; [done|]. split_and!; try done. intros ->. injection E0 as <-. injection E1 as <-. by injection E2 as <- <-. }
  destruct (sector_write b dev1 (2 * b + 1) (take 512 (drop 512 v)) D1) as (D2 & C2 & Hb2 & K2); try done;
    [rewrite length_take, length_drop; lia|by apply Forall_take, Forall_drop|by right|].
  set (dev2 := Bdev _ (<[Z.to_nat (2 * b + 1) := _]> _)) in *.
  assert (∀ b', b' ≠ b → block_of b' dev2 = block_of b' dev) as K by (intros b' Hne; by rewrite K2, K1).
  destruct (next_io io2) as [e3 io3] eqn:E3. destruct (Z.eqb_spec e3 0) as [->|]; cbn [negb].
  2: { eexists _, _, _. split; [done|]. split_and!; try done. intros ->. injection E0 as <-. injection E1 as <-. injection E2 as <-. by injection E3 as <- <-. }
  eexists _, _, _. split; [done|]. split_and!; [done..| |].
  - intros _. apply block_of_Some. split; [done|]. exists (take 512 v), (drop 512 v). unfold dev2, dev1, sector_count in *. simpl in *.
    rewrite length_insert in *. rewrite list_lookup_insert_ne by lia.
    rewrite !list_lookup_insert_eq by (rewrite ?length_insert; lia). split_and!; [done| |by rewrite take_drop].
    by rewrite (take_ge (drop 512 v)) by (rewrite length_drop; lia).
  - intros ->. injection E0 as <-. injection E1 as <-. injection E2 as <-. by injection E3 as <-.
Qed.

(** ** Slots *)

Lemma refs_cons i k R j : refs ((i, k) :: R) j = (if decide (i = j) then S (refs R j) else refs R j).
Proof. unfold refs. rewrite filter_cons. simpl. by destruct (decide (i = j)). Qed.

Lemma refs_perm R R' i : R ≡ₚ R' → refs R i = refs R' i.
Proof. unfold refs. by intros ->. Qed.

Lemma refs_in i k R : (i, k) ∈ R → (0 < refs R i)%nat.
Proof.
  intros H. unfold refs. assert ((i, k) ∈ filter (λ p, p.1 = i) R) as H' by by apply list_elem_of_filter.
  destruct (filter _ R); [by apply not_elem_of_nil in H'|simpl; lia].
Qed.

Lemma refs_le R i : (refs R i ≤ length R)%nat.
Proof. apply length_filter. Qed.

Definition dirt (x : bufcache_slot) : Z := if b_dirty (sl_buf x) then 1 else 0.

Lemma dirties_insert l i x y : l !! i = Some x → dirties (<[i := y]> l) = dirties l - dirt x + dirt y.
Proof.
  intros H. apply list_elem_of_split_length in H as (l1 & l2 & -> & ->). unfold dirties, dirt.
  rewrite insert_app_r_alt, Nat.sub_diag by lia. simpl. rewrite !filter_app, !length_app, !filter_cons.
  destruct (decide (is_dirty x)) as [X|X], (decide (is_dirty y)) as [Y|Y]; unfold is_dirty in X, Y;
    rewrite ?X, ?Y, ?(not_true_is_false _ X), ?(not_true_is_false _ Y); simpl; lia.
Qed.

Lemma slot_key_Some x d b : slot_key x = Some (d, b) ↔ sl_valid x = true ∧ b_bdev (sl_buf x) = Some d ∧ b_block_no (sl_buf x) = b.
Proof. unfold slot_key. destruct (sl_valid x), (b_bdev (sl_buf x)); simpl; split; intros; naive_solver. Qed.

(** Replacing one slot: [V'] may differ from [V] at the block of the new slot only. *)
Lemma cache_update l n devs V R i x y V' R' n' :
  cache_ok l n devs V R → l !! i = Some x → n' = n - dirt x + dirt y →
  slot_ok devs V' (refs R' i) y →
  (∀ j, j ≠ i → refs R' j = refs R j) →
  (∀ j k, j ≠ i → (j, k) ∈ R' → (j, k) ∈ R) → (∀ k, (i, k) ∈ R' → slot_key y = Some k) →
  (∀ k, V' !! k = V !! k ∨ slot_key y = Some k) →
  (∀ j z k, j ≠ i → l !! j = Some z → slot_key z = Some k → slot_key y ≠ Some k) →
  (∀ d b, slot_key x = Some (d, b) → slot_key y ≠ Some (d, b) → V' !! (d, b) = devs !! d ≫= block_of b) →
  cache_ok (<[i := y]> l) n' devs V' R'.
Proof.
  intros [Cl Cs Cu Cd Ch Cv Cr] Hi -> Sy HR HR1 HR2 HV HU HX.
  assert (i < length l)%nat by by eapply lookup_lt_Some. constructor; [by rewrite length_insert| | | | |done|].
  - intros j z Hz. destruct (decide (j = i)) as [->|Hne]; [rewrite list_lookup_insert_eq in Hz by done; by simplify_eq|].
    rewrite list_lookup_insert_ne in Hz by done. destruct (Cs _ _ Hz) as (H1 & H2 & H3 & H4). rewrite HR by done. split_and!; try done.
    destruct (sl_valid z) eqn:Ez; [|done]. destruct H4 as (d & dev & v & E1 & E2 & E3 & E4 & E5). exists d, dev, v. split_and!; try done.
    destruct (HV (d, b_block_no (sl_buf z))) as [->|Hk]; [done|]. exfalso. eapply (HU j z); [done..| |exact Hk]. by apply slot_key_Some.
  - intros j1 j2 z1 z2 k Hz1 Hz2 K1 K2.
    destruct (decide (j1 = i)) as [->|N1], (decide (j2 = i)) as [->|N2]; try done;
      rewrite ?list_lookup_insert_eq in Hz1 by done; rewrite ?list_lookup_insert_eq in Hz2 by done;
      rewrite ?list_lookup_insert_ne in Hz1 by done; rewrite ?list_lookup_insert_ne in Hz2 by done; simplify_eq.
    + by destruct (HU j2 z2 k).
    + by destruct (HU j1 z1 k).
    + by eapply Cu.
  - rewrite (dirties_insert _ _ x) by done. lia.
  - intros j k Hj. destruct (decide (j = i)) as [->|Hne].
    + exists y. rewrite list_lookup_insert_eq by done. auto.
    + rewrite list_lookup_insert_ne by done. apply Ch. auto.
  - intros d b Hno. assert (slot_key y ≠ Some (d, b)) as Hy by (apply (Hno i); by apply list_lookup_insert_eq).
    destruct (decide (slot_key x = Some (d, b))) as [Hx|Hx]; [by apply HX|].
    destruct (HV (d, b)) as [->|?]; [|done]. apply Cr. intros j z Hz. destruct (decide (j = i)) as [->|Hne]; [by simplify_eq|].
    apply (Hno j). by rewrite list_lookup_insert_ne.
Qed.

(** The same when the slot keeps its block [k]. *)
Lemma cache_refresh l n devs V R i x y V' R' n' k :
  cache_ok l n devs V R → l !! i = Some x → n' = n - dirt x + dirt y → slot_key x = Some k → slot_key y = Some k →
  slot_ok devs V' (refs R' i) y →
  (∀ j, j ≠ i → refs R' j = refs R j) → (∀ j k', (j, k') ∈ R' → (j, k') ∈ R ∨ j = i ∧ k' = k) →
  (∀ k', V' !! k' = V !! k' ∨ k' = k) →
  cache_ok (<[i := y]> l) n' devs V' R'.
Proof.
  intros C Hi Hn Kx Ky Sy HR HR' HV. eapply cache_update; try done.
  - intros j k' Hj Hin. destruct (HR' j k' Hin) as [?|[-> _]]; done.
  - intros k' Hin. destruct (HR' i k' Hin) as [H|[_ ->]]; [|done].
    destruct (co_held _ _ _ _ _ C _ _ H) as (x' & Hx' & ?). congruence.
  - intros k'. destruct (HV k') as [?| ->]; auto.
  - intros j z k' Hj Hz Kz Ky'. apply Hj. eapply (co_uniq _ _ _ _ _ C); [done..|]. congruence.
  - intros d b. congruence.
Qed.

Definition bc_ok (s : bufcache) (V : gmap key (list Z)) (R : list hold) : Prop :=
  cache_ok (bc_slots s) (bc_dirty_count s) (bc_devs s) V R.

(** The device [d] answers every command, and only its blocks are dirty. *)
Definition ready (d : Z) (s : bufcache) : Prop :=
  bc_io s = [] ∧ bc_dirty_count s ≤ 48 ∧ ∀ i x, bc_slots s !! i = Some x → b_dirty (sl_buf x) = true → b_bdev (sl_buf x) = Some d.

Lemma ready_update d s i x y s' : ready d s → bc_slots s !! i = Some x →
  bc_slots s' = <[i := y]> (bc_slots s) → bc_io s' = [] → bc_dirty_count s' ≤ 48 →
  (b_dirty (sl_buf y) = true → b_bdev (sl_buf y) = Some d) → ready d s'.
Proof.
  intros (I & N & H) Hi El Ei En Hy. split_and!; try done. intros j z. rewrite El. destruct (decide (j = i)) as [->|].
  - rewrite list_lookup_insert_eq by (by eapply lookup_lt_Some). by intros [= <-].
  - rewrite list_lookup_insert_ne by done. apply H.
Qed.

Lemma upd_slot_eq i f s x : bc_slots s !! i = Some x → upd_slot i f s = Ok (with_slots (<[i := f x]> (bc_slots s)) s).
Proof. intros H. unfold upd_slot, slot_at. by rewrite H. Qed.

Lemma slot_at_eq i s x : bc_slots s !! i = Some x → slot_at i s = Ok x.
Proof. intros H. unfold slot_at. by rewrite H. Qed.

Lemma insert_at {A} (l : list A) i x y : l !! i = Some x → <[i := y]> l !! i = Some y.
Proof. intros H. apply list_lookup_insert_eq. by eapply lookup_lt_Some. Qed.

Section Ops.
Context (s : bufcache) (V : gmap key (list Z)) (R : list hold) (C : bc_ok s V R).

Lemma slot_facts i x : bc_slots s !! i = Some x → slot_ok (bc_devs s) V (refs R i) x.
Proof using C. apply (co_slot _ _ _ _ _ C). Qed.

Lemma matches_key d b i x : bc_slots s !! i = Some x → slot_matches (Some d) b x = true ↔ slot_key x = Some (d, b).
Proof using C.
  intros H. destruct (slot_facts _ _ H) as (L & _). unfold slot_matches. rewrite L, orb_false_r, slot_key_Some.
  rewrite !andb_true_iff, bool_decide_eq_true, Z.eqb_eq. tauto.
Qed.

Lemma find_slot_spec bdev b l i :
  match find_slot i bdev b l with
  | Some (j, x) => ∃ k, j = (i + k)%nat ∧ l !! k = Some x ∧ slot_matches bdev b x = true
  | None => ∀ k x, l !! k = Some x → slot_matches bdev b x = false
  end.
Proof.
  revert i. induction l as [|x l IH]; intros i; simpl; [done|]. destruct (slot_matches bdev b x) eqn:E.
  - exists 0%nat. by rewrite Nat.add_0_r.
  - specialize (IH (S i)). destruct (find_slot (S i) bdev b l) as [[j y]|].
    + destruct IH as (k & -> & Hk & Hm). exists (S k). split; [lia|done].
    + intros [|k] y; simpl; [by intros [= <-]|apply IH].
Qed.

Definition evictable (x : bufcache_slot) : Prop := b_refcount (sl_buf x) = 0 ∧ (sl_valid x = false ∨ b_dirty (sl_buf x) = false).

Lemma pick_loop_spec l i v :
  (∀ k x, l !! k = Some x → sl_loading x = false) →
  match pick_loop i l v with
  | Some j => (∃ k x, j = (i + k)%nat ∧ l !! k = Some x ∧ evictable x) ∨ fst <$> v = Some j
  | None => v = None ∧ ∀ k x, l !! k = Some x → ¬ evictable x
  end.
Proof.
  revert i v. induction l as [|x l IH]; intros i v Hl; simpl.
  { destruct v as [[j y]|]; simpl; [by right|]. split; [done|]. intros k x. by rewrite lookup_nil. }
  rewrite (Hl 0%nat x eq_refl). assert (∀ k y, l !! k = Some y → sl_loading y = false) as Hl' by (intros k; apply (Hl (S k))).
  destruct (negb (sl_valid x) && (b_refcount (sl_buf x) =? 0)) eqn:E1.
  { left. exists 0%nat, x. split; [lia|]. split; [done|]. apply andb_true_iff in E1 as [E1%negb_true_iff E2%Z.eqb_eq]. split; auto. }
  assert (∀ v', match pick_loop (S i) l v' with
    | Some j => (∃ k y, j = (i + k)%nat ∧ (x :: l) !! k = Some y ∧ evictable y) ∨ fst <$> v' = Some j
    | None => v' = None ∧ ∀ k y, l !! k = Some y → ¬ evictable y end) as Hrec.
  { intros v'. specialize (IH (S i) v' Hl'). destruct (pick_loop (S i) l v'); [|done].
    destruct IH as [(k & y & -> & Hk)|?]; [|by right]. left. exists (S k), y. split; [lia|done]. }
  assert (∀ y, evictable x → pick_loop (S i) l (Some (i, y)) = None → False) as Hsome by (intros y _ E; specialize (Hrec (Some (i, y))); rewrite E in Hrec; by destruct Hrec).
  destruct (negb (b_refcount (sl_buf x) =? 0) || b_dirty (sl_buf x)) eqn:E2.
  - specialize (Hrec v). destruct (pick_loop (S i) l v); [done|]. destruct Hrec as [-> Hno]. split; [done|].
    intros [|k] y; simpl; [|apply Hno]. intros [= <-] [Hr Hd]. rewrite Hr in *. simpl in *.
    destruct (sl_valid x), (b_dirty (sl_buf x)); simpl in *; naive_solver.
  - apply orb_false_iff in E2 as [E2%negb_false_iff%Z.eqb_eq E3].
    assert (evictable x) as Hx by (split; auto).
    assert (match pick_loop (S i) l (Some (i, x)) with
      | Some j => ∃ k y, j = (i + k)%nat ∧ (x :: l) !! k = Some y ∧ evictable y
      | None => False end) as Hnew.
    { specialize (Hrec (Some (i, x))). destruct (pick_loop (S i) l (Some (i, x))); [|by destruct Hrec].
      destruct Hrec as [?|[= <-]]; [done|]. exists 0%nat, x. split; [lia|done]. }
    destruct v as [[j y]|].
    + destruct (sl_lru x <? sl_lru y); [destruct (pick_loop _ _ _); [by left|done]|].
      specialize (Hrec (Some (j, y))). destruct (pick_loop _ _ _); [done|by destruct Hrec].
    + destruct (pick_loop _ _ _); [by left|done].
Qed.

Lemma pick_victim_spec :
  match bufcache_pick_victim s with
  | Some i => ∃ x, bc_slots s !! i = Some x ∧ refs R i = 0%nat ∧ b_dirty (sl_buf x) = false
  | None => ∀ i x, bc_slots s !! i = Some x → (0 < refs R i)%nat ∨ b_dirty (sl_buf x) = true
  end.
Proof using C.
  assert (∀ i x, bc_slots s !! i = Some x → evictable x ↔ refs R i = 0%nat ∧ b_dirty (sl_buf x) = false) as Hev.
  { intros i x H. destruct (slot_facts _ _ H) as (_ & _ & Hr & Hv). unfold evictable. rewrite Hr. split.
    - intros [H0 [E|?]]; (split; [lia|]); [|done]. rewrite E in Hv. by destruct Hv.
    - intros [-> ?]. auto. }
  pose proof (pick_loop_spec (bc_slots s) 0 None) as P. unfold bufcache_pick_victim.
  destruct (pick_loop 0 (bc_slots s) None) as [i|].
  - destruct P as [(k & x & -> & Hk & E)|?]; [intros k x Hk; by destruct (slot_facts _ _ Hk)| |done].
    exists x. split; [done|]. by apply Hev.
  - destruct P as [_ P]; [intros k x Hk; by destruct (slot_facts _ _ Hk)|]. intros i x H. specialize (P i x H).
    rewrite (Hev i x H) in P. destruct (b_dirty (sl_buf x)); [by right|]. left. destruct (refs R i); [tauto|lia].
Qed.

Lemma busy_slots (l : list bufcache_slot) i :
  (∀ k x, l !! k = Some x → (0 < refs R (i + k))%nat ∨ b_dirty (sl_buf x) = true) →
  (length l ≤ length (filter (λ p : hold, (i ≤ p.1)%nat) R) + length (filter is_dirty l))%nat.
Proof.
  clear C. revert i. induction l as [|x l IH]; intros i H; simpl; [lia|].
  assert (length (filter (λ p : hold, (S i ≤ p.1)%nat) R) + refs R i ≤ length (filter (λ p : hold, (i ≤ p.1)%nat) R))%nat as Hc.
  { clear. unfold refs. induction R as [|[j k] R' IH]; [done|]. rewrite !filter_cons. simpl.
    destruct (decide (S i ≤ j)%nat), (decide (j = i)), (decide (i ≤ j)%nat); simpl; lia. }
  rewrite filter_cons. ospecialize (IH (S i) _).
  { intros k y Hk. replace (S i + k)%nat with (i + S k)%nat by lia. by apply H. }
  destruct (decide (is_dirty x)) as [D|D]; simpl; [lia|].
  destruct (H 0%nat x eq_refl) as [Hr|Hd]; [|by destruct D]. rewrite Nat.add_0_r in Hr. lia.
Qed.

Lemma ready_victim d : ready d s → (length R < 16)%nat → is_Some (bufcache_pick_victim s).
Proof using C.
  intros (_ & N & _) L. pose proof pick_victim_spec as P. destruct (bufcache_pick_victim s); [by eexists|].
  pose proof (busy_slots (bc_slots s) 0 P). rewrite (co_len _ _ _ _ _ C) in *.
  pose proof (co_dirty _ _ _ _ _ C). unfold dirties in *. pose proof (length_filter (λ p : hold, (0 ≤ p.1)%nat) R). lia.
Qed.

(** A clean slot may be dropped: its block is on disk. *)
Lemma clean_on_disk i x d b : bc_slots s !! i = Some x → b_dirty (sl_buf x) = false → slot_key x = Some (d, b) →
  V !! (d, b) = bc_devs s !! d ≫= block_of b.
Proof using C.
  intros Hi Hd (E1 & E2 & <-)%slot_key_Some. destruct (slot_facts _ _ Hi) as (_ & _ & _ & Hv). rewrite E1 in Hv.
  destruct Hv as (d' & dev & v & E & Hdev & Hb & HV & Hc). rewrite E2 in E. simplify_eq. rewrite HV, Hdev. simpl. rewrite Hb. by rewrite Hc.
Qed.

Lemma load_spec i x d dev b :
  bc_slots s !! i = Some x → refs R i = 0%nat → b_dirty (sl_buf x) = false → bc_devs s !! d = Some dev → 0 ≤ b →
  (∀ j y, bc_slots s !! j = Some y → slot_key y ≠ Some (d, b)) →
  ∃ r s', bufcache_load i (Some d) b s = Ok (r, s') ∧
    match r with
    | Some h => bc_ok s' V ((h, (d, b)) :: R) ∧ is_Some (V !! (d, b))
    | None => bc_ok s' V R
    end ∧ (∀ d0, ready d0 s → ready d0 s' ∧ (is_Some (V !! (d, b)) → is_Some r)).
Proof using C.
  intros Hi Hr Hd Hdev H0 Hno. pose proof (co_devs _ _ _ _ _ C _ _ Hdev) as D.
  assert (V !! (d, b) = block_of b dev) as HV by (rewrite (co_rest _ _ _ _ _ C d b Hno), Hdev; done).
  assert (slot_key x ≠ Some (d, b)) as Hxk by by eapply Hno.
  destruct (slot_facts _ _ Hi) as (_ & [Lx Bx] & _ & _).
  destruct (read_block b dev (bc_io s) D H0) as (err & bytes & io' & Er & Lb & Bb & Hok & Hio).
  unfold bufcache_load. rewrite (slot_at_eq _ _ _ Hi). cbn [mbind outcome_bind]. rewrite Hd, andb_false_r. simpl (if _ && _ then _ else _).
  rewrite (upd_slot_eq _ _ _ x) by done. cbn [mbind outcome_bind with_slots with_clock bc_slots].
  set (clock := u64 _). set (y0 := Slot _ false true clock). set (s1 := with_slots _ _).
  assert (bc_slots s1 !! i = Some y0) as H1 by by eapply insert_at.
  rewrite (slot_at_eq _ _ _ H1). cbn [mbind outcome_bind]. unfold block_read, BUFCACHE_SECTORS_PER_BLOCK.
  cbn [bc_devs s1 with_slots with_clock]. rewrite Hdev. cbn [deref mbind outcome_bind]. change (Z.to_nat 2) with 2%nat. change (bc_io s1) with (bc_io s).
  rewrite Er. cbn [mbind outcome_bind]. set (s2 := with_devs _ _ _).
  assert (bc_slots s2 !! i = Some y0) as H2 by done.
  rewrite (upd_slot_eq _ _ _ _ H2). cbn [mbind outcome_bind]. set (data := bytes ++ _). set (y1 := on_buf _ y0). set (s3 := with_slots _ s2).
  assert (bc_slots s3 !! i = Some y1) as H3 by by eapply insert_at.
  assert (∀ y, <[i := y]> (bc_slots s3) = <[i := y]> (bc_slots s)) as Hins by (intros y; cbn; by rewrite !list_insert_insert_eq).
  assert (block_ok data) as Hdata.
  { split; [|by apply Forall_app; split; [|by apply Forall_drop]]. unfold data. rewrite length_app, length_drop. simpl. lia. }
  destruct (Z.eqb_spec err 0) as [->|Hne]; cbn [negb]; rewrite (upd_slot_eq _ _ _ _ H3); cbn [mbind outcome_bind].
  - specialize (Hok eq_refl). assert (data = bytes) as Ed.
    { unfold data. destruct (block_of_ok _ _ _ D Hok). rewrite drop_ge by (simpl; lia). by rewrite app_nil_r. }
    eexists _, _. split; [done|]. split; [split; [|by rewrite HV, Hok; eexists]|].
    + unfold bc_ok. cbn [bc_slots bc_dirty_count bc_devs with_slots]. rewrite Hins.
      eapply (cache_update _ _ _ V R i x _ V); try done; [unfold dirt; rewrite Hd; cbn; lia|..].
      * rewrite refs_cons, decide_True, Hr by done. split_and!; try done. cbn. exists d, dev, data. rewrite HV, Ed. done.
      * intros j Hj. rewrite refs_cons, decide_False by done. done.
      * intros j k Hj. rewrite elem_of_cons. intros [[= ]|?]; done.
      * intros k. rewrite elem_of_cons. intros [[= ->]|Hk]; [done|]. apply refs_in in Hk. lia.
      * by left.
      * intros j z k Hj Hz Hk. cbn. intros [= <-]. by apply (Hno j z).
      * intros d' b' Hk _. by eapply clean_on_disk.
    + intros d0 Rd. split; [|done]. eapply ready_update; [done..|apply Hins| |cbn; by apply Rd|done].
      cbn. by apply Hio, Rd.
  - eexists _, _. split; [done|]. split.
    + unfold bc_ok. cbn [bc_slots bc_dirty_count bc_devs with_slots]. rewrite Hins.
      eapply (cache_update _ _ _ V R i x _ V); try done; [unfold dirt; rewrite Hd; cbn; lia|..].
      * rewrite Hr. done.
      * intros k Hk%refs_in. lia.
      * by left.
      * intros d' b' Hk _. by eapply clean_on_disk.
    + intros d0 Rd. split.
      * eapply ready_update; [done..|apply Hins| |cbn; by apply Rd|done]. cbn. by apply Hio, Rd.
      * rewrite HV. intros Hs. by destruct Hne; apply Hio; [apply Rd|].
Qed.
End Ops.

Definition has_dev (V : gmap key (list Z)) (d : Z) : Prop := ∃ b, is_Some (V !! (d, b)).

(** Changing one block of a disk while a dirty slot holds it. *)
Lemma cache_dev l n devs V R d b dev dev' i x :
  cache_ok l n devs V R → devs !! d = Some dev → dev_ok dev' → is_Some (block_of b dev') →
  (∀ b', b' ≠ b → block_of b' dev' = block_of b' dev) →
  l !! i = Some x → slot_key x = Some (d, b) → b_dirty (sl_buf x) = true →
  cache_ok l n (<[d := dev']> devs) V R.
Proof.
  intros [Cl Cs Cu Cd Ch Cv Cr] Hd D' [w Hw] Hb Hi Hk Hdirty. constructor; try done.
  - intros j y Hy. destruct (Cs _ _ Hy) as (H1 & H2 & H3 & H4). split_and!; try done. destruct (sl_valid y) eqn:Ey; [|done].
    destruct H4 as (d' & dv & v & E1 & E2 & E3 & E4 & E5). destruct (decide (d' = d)) as [->|Hne].
    + rewrite Hd in E2. simplify_eq. exists d, dev'. rewrite lookup_insert_eq.
      destruct (decide (b_block_no (sl_buf y) = b)) as [Eb|Nb].
      * exists w. rewrite Eb in *. split_and!; try done.
        assert (j = i) as -> by (eapply Cu; [done..| |exact Hk]; by apply slot_key_Some). simplify_eq. congruence.
      * exists v. rewrite Hb by done. done.
    + exists d', dv, v. by rewrite lookup_insert_ne.
  - intros d' dv. destruct (decide (d' = d)) as [->|]; [rewrite lookup_insert_eq; by intros [= <-]|rewrite lookup_insert_ne by done; apply Cv].
  - intros d' b' Hno. rewrite Cr by done. destruct (decide (d' = d)) as [->|]; [|by rewrite lookup_insert_ne].
    rewrite lookup_insert_eq, Hd. simpl. symmetry. apply Hb. intros ->. by apply (Hno i x).
Qed.

Section Ops2.
Context (s : bufcache) (V : gmap key (list Z)) (R : list hold) (C : bc_ok s V R).

Lemma dev_exists d : has_dev V d → ∃ dev, bc_devs s !! d = Some dev ∧ dev_ok dev.
Proof using C.
  intros [b [v Hv]]. assert (is_Some (bc_devs s !! d)) as [dev Hd]; [|exists dev; split; [done|by eapply co_devs]].
  destruct (find_slot 0 (Some d) b (bc_slots s)) as [[j x]|] eqn:E; pose proof (find_slot_spec (Some d) b (bc_slots s) 0) as F; rewrite E in F.
  - destruct F as (k & -> & Hk & Hm). apply (matches_key _ _ _ C _ _ _ _ Hk) in Hm. destruct (slot_facts _ _ _ C _ _ Hk) as (_ & _ & _ & H).
    apply slot_key_Some in Hm as (E1 & E2 & _). rewrite E1 in H. destruct H as (d' & dev & ? & E' & Hd & _). rewrite E2 in E'. simplify_eq. by eexists.
  - rewrite (co_rest _ _ _ _ _ C d b) in Hv; [destruct (bc_devs s !! d); [by eexists|done]|].
    intros i x Hi Hk. apply (matches_key _ _ _ C _ _ _ _ Hi) in Hk. by rewrite (F i x Hi) in Hk.
Qed.

Lemma bufcache_get_spec d b : has_dev V d → 0 ≤ b → Z.of_nat (length R) < 2 ^ 31 →
  ∃ r s', bufcache_get (Some d) b s = Ok (r, s') ∧
    match r with
    | Some h => bc_ok s' V ((h, (d, b)) :: R) ∧ is_Some (V !! (d, b))
    | None => bc_ok s' V R
    end ∧ (∀ d0, ready d0 s → ready d0 s' ∧ ((length R < 16)%nat → is_Some (V !! (d, b)) → is_Some r)).
Proof using C.
  intros Hd H0 Hlen. destruct (dev_exists d Hd) as (dev & Edev & Ddev). unfold bufcache_get. rewrite Edev. cbn [deref mbind outcome_bind].
  rewrite (proj1 (proj1 Ddev)). cbn [negb Z.eqb Pos.eqb].
  pose proof (find_slot_spec (Some d) b (bc_slots s) 0) as F. destruct (find_slot 0 (Some d) b (bc_slots s)) as [[j x]|].
  - destruct F as (k & -> & Hk & Hm). simpl Nat.add. apply (matches_key _ _ _ C _ _ _ _ Hk) in Hm.
    pose proof (slot_facts _ _ _ C _ _ Hk) as Sx. destruct Sx as (Lx & Dx & Rx & Vx). rewrite Lx.
    rewrite (upd_slot_eq _ _ _ _ Hk). cbn [mbind outcome_bind]. eexists _, _. split; [done|].
    pose proof (refs_le R k). assert (u32 (b_refcount (sl_buf x) + 1) = Z.of_nat (S (refs R k))) as Eu.
    { unfold u32. rewrite Z.mod_small; lia. }
    split; [split|].
    + unfold bc_ok. cbn [bc_slots bc_dirty_count bc_devs with_slots with_stats with_clock].
      eapply (cache_refresh _ _ _ V R k x _ V); [exact C|exact Hk| |exact Hm|done|..].
      * unfold dirt. cbn. lia.
      * rewrite refs_cons, decide_True by done. apply slot_key_Some in Hm as (Ev & _). rewrite Ev in Vx. split_and!; try done. cbn. by rewrite Ev.
      * intros j Hj. rewrite refs_cons, decide_False by done. done.
      * intros j k'. rewrite elem_of_cons. intros [[= -> ->]|?]; auto.
      * by left.
    + apply slot_key_Some in Hm as (E1 & E2 & <-). rewrite E1 in Vx. destruct Vx as (d' & ? & ? & E' & _ & _ & EV & _). rewrite E2 in E'. simplify_eq. rewrite EV. by eexists.
    + intros d0 Rd. split; [|done]. eapply ready_update; [exact Rd|exact Hk|done|apply Rd|apply Rd|].
      cbn. intros Hy. by eapply Rd.
  - set (s0 := with_stats _ _ s). change (bufcache_pick_victim s0) with (bufcache_pick_victim s).
    assert (bc_ok s0 V R) as C0 by exact C. assert (∀ d0, ready d0 s → ready d0 s0) as R0 by (intros d0 H; exact H).
    pose proof (pick_victim_spec s V R C) as P. destruct (bufcache_pick_victim s) as [i|] eqn:Ep.
    + destruct P as (x & Hi & Hr & Hx).
      destruct (load_spec s0 V R C0 i x d dev b Hi Hr Hx Edev H0) as (r & s' & E & H & Hy).
      { intros j y Hj Hy. apply (matches_key _ _ _ C _ _ _ _ Hj) in Hy. by rewrite (F j y Hj) in Hy. }
      exists r, s'. split_and!; [done..|]. intros d0 Rd. destruct (Hy d0 (R0 _ Rd)). auto.
    + exists None, s0. split_and!; [done..|]. intros d0 Rd. split; [by apply R0|]. intros HR _.
      destruct (ready_victim s V R C d0 Rd HR). congruence.
Qed.

Lemma put_spec h k R' : R ≡ₚ (h, k) :: R' →
  ∃ s', bufcache_put h s = Ok s' ∧ bc_ok s' V R' ∧ ∀ d0, ready d0 s → ready d0 s'.
Proof using C.
  intros HR. assert ((h, k) ∈ R) as Hin by (rewrite HR; apply list_elem_of_here).
  destruct (co_held _ _ _ _ _ C _ _ Hin) as (x & Hx & Ek). destruct (slot_facts _ _ _ C _ _ Hx) as (Lx & Dx & Rx & Vx).
  assert (refs R h = S (refs R' h)) as Hrefs by (rewrite (refs_perm _ _ _ HR), refs_cons, decide_True; done).
  unfold bufcache_put. rewrite (slot_at_eq _ _ _ Hx). cbn [mbind outcome_bind]. destruct (Z.eqb_spec (b_refcount (sl_buf x)) 0); [lia|].
  rewrite (upd_slot_eq _ _ _ _ Hx). eexists. split; [done|]. split.
  - unfold bc_ok. cbn [bc_slots bc_dirty_count bc_devs with_slots]. eapply (cache_refresh _ _ _ V R h x _ V); [exact C|exact Hx| |exact Ek|done|..].
    + unfold dirt. cbn. lia.
    + split_and!; [done..| |]; cbn; [lia|]. destruct (sl_valid x); [done|]. lia.
    + intros j Hj. by rewrite (refs_perm _ _ _ HR), refs_cons, decide_False by done.
    + intros j k' H. left. rewrite HR. by apply list_elem_of_further.
    + by left.
  - intros d0 Rd. eapply ready_update; [exact Rd|exact Hx|done|apply Rd|apply Rd|]. cbn. intros Hy. by eapply Rd.
Qed.
End Ops2.

(** ** Write-back *)

(** What a write-back keeps of a slot. *)
Definition synced (x y : bufcache_slot) : Prop :=
  sl_valid y = sl_valid x ∧ b_bdev (sl_buf y) = b_bdev (sl_buf x) ∧ b_block_no (sl_buf y) = b_block_no (sl_buf x) ∧
  b_data (sl_buf y) = b_data (sl_buf x) ∧ (b_dirty (sl_buf y) = true → b_dirty (sl_buf x) = true).

Lemma synced_key x y : synced x y → slot_key y = slot_key x.
Proof. intros (E1 & E2 & E3 & _). unfold slot_key. by rewrite E1, E2, E3. Qed.

Definition wanted (bdev : option Z) (x : bufcache_slot) : Prop := bdev = None ∨ b_bdev (sl_buf x) = bdev.

(** The slot after its block was written: [dirty] is the flag it ends with. *)
Lemma written_slot_ok s V R i x d dev dev' v dirty :
  bc_ok s V R → bc_slots s !! i = Some x → b_dirty (sl_buf x) = true → slot_key x = Some (d, b_block_no (sl_buf x)) →
  bc_devs s !! d = Some dev → dev_ok dev' → block_of (b_block_no (sl_buf x)) dev' = Some v →
  (∀ b', b' ≠ b_block_no (sl_buf x) → block_of b' dev' = block_of b' dev) → (dirty = false → v = b_data (sl_buf x)) →
  cache_ok (<[i := on_buf (set_dirty dirty) x]> (bc_slots s)) (bc_dirty_count s - 1 + (if dirty then 1 else 0)) (<[d := dev']> (bc_devs s)) V R.
Proof.
  intros C Hi Ed Kx Hdev D' Hv Ho Hd. assert (cache_ok (bc_slots s) (bc_dirty_count s) (<[d := dev']> (bc_devs s)) V R) as C2
    by (eapply cache_dev; try done; by eexists).
  destruct (co_slot _ _ _ _ _ C _ _ Hi) as (Lx & Dx & Rx & Vx). apply slot_key_Some in Kx as (Ev & E1 & _). rewrite Ev in Vx.
  destruct Vx as (d' & ? & ? & E1' & _ & _ & HV & _). rewrite E1 in E1'. simplify_eq.
  eapply (cache_refresh _ _ _ V R i x); [exact C2|exact Hi| |by apply slot_key_Some|by apply slot_key_Some|..]; auto.
  - unfold dirt. cbn. rewrite Ed. done.
  - split_and!; try done. cbn. rewrite Ev. exists d', dev', v. by rewrite lookup_insert_eq.
Qed.

Lemma dirty_counted s V R i x : bc_ok s V R → bc_slots s !! i = Some x → b_dirty (sl_buf x) = true → 1 ≤ bc_dirty_count s.
Proof.
  intros C Hi Ed. rewrite (co_dirty _ _ _ _ _ C). unfold dirties. assert (x ∈ filter is_dirty (bc_slots s)) as Hf.
  { apply list_elem_of_filter. split; [done|by eapply list_elem_of_lookup_2]. }
  destruct (filter is_dirty (bc_slots s)); [by apply not_elem_of_nil in Hf|simpl; lia].
Qed.

(** [sync_slot] on a dirty slot, with the two changes of the reference count
    cancelled. *)
Lemma sync_slot_eq s i x d dev b err dev' io' bdev n :
  bc_slots s !! i = Some x → sl_valid x = true → b_dirty (sl_buf x) = true → wanted bdev x → b_refcount (sl_buf x) = Z.of_nat n → Z.of_nat n < 2 ^ 31 →
  b_bdev (sl_buf x) = Some d → b_block_no (sl_buf x) = b → bc_devs s !! d = Some dev → 1 ≤ bc_dirty_count s →
  ata_bdev_write 2 (b * 2) (b_data (sl_buf x)) dev (bc_io s) = (err, dev', io') →
  ∃ s', sync_slot bdev i s = Ok (err, s') ∧ bc_slots s' = <[i := on_buf (set_dirty (negb (err =? 0))) x]> (bc_slots s) ∧
    bc_dirty_count s' = bc_dirty_count s - 1 + (if negb (err =? 0) then 1 else 0) ∧ bc_devs s' = <[d := dev']> (bc_devs s) ∧ bc_io s' = io'.
Proof.
  intros Hi Ev Ed Hw Er Hn E1 Eb Hdev Hpos Ew. unfold sync_slot. rewrite (slot_at_eq _ _ _ Hi). cbn [mbind outcome_bind].
  rewrite Ev, Ed. replace (bool_decide (bdev = None) || bool_decide (b_bdev (sl_buf x) = bdev)) with true
    by (symmetry; apply orb_true_iff; rewrite !bool_decide_eq_true; exact Hw). cbn [andb negb].
  rewrite (upd_slot_eq _ _ _ _ Hi). cbn [mbind outcome_bind]. set (y1 := on_buf _ x). set (s1 := with_slots _ s).
  assert (bc_slots s1 !! i = Some y1) as H1 by by eapply insert_at. rewrite (slot_at_eq _ _ _ H1). cbn [mbind outcome_bind].
  unfold block_write. rewrite E1, Eb. change (bc_devs s1) with (bc_devs s). rewrite Hdev. cbn [deref mbind outcome_bind].
  change (Z.to_nat BUFCACHE_SECTORS_PER_BLOCK) with 2%nat. change (b * BUFCACHE_SECTORS_PER_BLOCK) with (b * 2). change (bc_io s1) with (bc_io s).
  change (b_data (sl_buf y1)) with (b_data (sl_buf x)). rewrite Ew. cbn [mbind outcome_bind]. set (s2 := with_devs _ _ _).
  assert (b_refcount (sl_buf y1) = b_refcount (sl_buf x) + 1) as Ery by (cbn; unfold u32; rewrite Z.mod_small; lia).
  assert (bc_slots s2 !! i = Some y1) as H2 by done.
  change (b_dirty (sl_buf y1)) with (b_dirty (sl_buf x)). rewrite Ed. change (bc_dirty_count s2) with (bc_dirty_count s).
  destruct (Z.gtb_spec (bc_dirty_count s) 0); [|lia]. cbn [andb].
  destruct (Z.eqb_spec err 0) as [->|Hne]; cbn [negb].
  - set (s3 := with_dirty_count _ s2). rewrite (upd_slot_eq _ _ s3 y1) by done. cbn [mbind outcome_bind]. set (y2 := on_buf _ y1). set (s4 := with_slots _ s3).
    assert (bc_slots s4 !! i = Some y2) as H4 by by eapply insert_at. rewrite (upd_slot_eq _ _ _ _ H4). eexists. split; [done|].
    cbn [bc_slots bc_dirty_count bc_devs bc_io with_slots s4 s3 s2 s1 with_devs with_dirty_count]. rewrite !list_insert_insert_eq. split_and!; try done; [|lia].
    f_equal. unfold y2, on_buf, set_dirty. cbn [sl_buf b_refcount sl_valid sl_loading sl_lru b_bdev b_block_no b_data b_dirty]. rewrite Ery.
    destruct (Z.gtb_spec (b_refcount (sl_buf x) + 1) 0); [|lia]. unfold set_refcount. cbn. do 2 f_equal. lia.
  - cbn [mbind outcome_bind]. rewrite (upd_slot_eq _ _ _ _ H2). eexists. split; [done|].
    cbn [bc_slots bc_dirty_count bc_devs bc_io with_slots s2 s1 with_devs]. rewrite !list_insert_insert_eq. split_and!; try done; [|lia].
    f_equal. unfold on_buf, set_dirty. rewrite Ery.
    destruct (Z.gtb_spec (b_refcount (sl_buf x) + 1) 0); [|lia]. cbn. unfold set_refcount. cbn. rewrite Ed. do 2 f_equal. lia.
Qed.

Lemma sync_slot_spec s V R bdev i x : bc_ok s V R → Z.of_nat (length R) < 2 ^ 31 → bc_slots s !! i = Some x →
  ∃ err s' y, sync_slot bdev i s = Ok (err, s') ∧ bc_ok s' V R ∧ bc_slots s' = <[i := y]> (bc_slots s) ∧ synced x y ∧
    (err = 0 → wanted bdev x → b_dirty (sl_buf y) = false) ∧ (∀ d0, ready d0 s → ready d0 s' ∧ err = 0).
Proof.
  intros C Hlen Hi. destruct (slot_facts _ _ _ C _ _ Hi) as (Lx & Dx & Rx & Vx).
  destruct (sl_valid x && b_dirty (sl_buf x) && (bool_decide (bdev = None) || bool_decide (b_bdev (sl_buf x) = bdev))) eqn:W.
  2: { exists 0, s, x. unfold sync_slot. rewrite (slot_at_eq _ _ _ Hi). cbn [mbind outcome_bind]. rewrite W. split_and!; try done.
    - by rewrite list_insert_id.
    - intros _ Hw. destruct (sl_valid x); [|by apply Vx]. destruct (b_dirty (sl_buf x)); [|done]. simpl in W.
      apply orb_false_iff in W as [W1%bool_decide_eq_false W2%bool_decide_eq_false]. by destruct Hw. }
  apply andb_true_iff in W as [[Ev Ed]%andb_true_iff Hw]. rewrite orb_true_iff, !bool_decide_eq_true in Hw. rewrite Ev in Vx.
  destruct Vx as (d & dev & v & E1 & Hdev & Hb & HV & Hc). pose proof (co_devs _ _ _ _ _ C _ _ Hdev) as Ddev.
  destruct (proj1 (block_of_range (b_block_no (sl_buf x)) dev)) as [H0 _]; [by eexists|].
  destruct (write_block _ dev (b_data (sl_buf x)) (bc_io s) Ddev H0 Dx ltac:(by eexists)) as (err & dev' & io' & Ew & D' & [w Hw'] & Ho & Hok & Hio).
  pose proof (refs_le R i). pose proof (dirty_counted _ _ _ _ _ C Hi Ed) as Hpos.
  destruct (sync_slot_eq s i x d dev _ err dev' io' bdev _ Hi Ev Ed Hw Rx ltac:(lia) E1 eq_refl Hdev Hpos Ew) as (s' & E & Es & En & Edv & Eio).
  exists err, s', (on_buf (set_dirty (negb (err =? 0))) x). split_and!; try done.
  - unfold bc_ok. rewrite Es, En, Edv. eapply written_slot_ok; try done; [by apply slot_key_Some|].
    intros Eerr%negb_false_iff%Z.eqb_eq. specialize (Hok Eerr). congruence.
  - intros ->. done.
  - intros d0 Rd. assert (err = 0) as -> by by apply Hio, Rd. split; [|done].
    eapply ready_update; [exact Rd|exact Hi|exact Es| | |done]; [rewrite Eio; by apply Hio, Rd|]. rewrite En. destruct Rd as (_ & ? & _). simpl. lia.
Qed.

Lemma sync_loop_spec V R bdev n i s : bc_ok s V R → Z.of_nat (length R) < 2 ^ 31 → (i + n = 64)%nat →
  ∃ err s', sync_loop n i bdev s = Ok (err, s') ∧ bc_ok s' V R ∧
    (∀ j x, bc_slots s !! j = Some x → ∃ y, bc_slots s' !! j = Some y ∧ synced x y) ∧
    (err = 0 → ∀ j y, (i ≤ j)%nat → bc_slots s' !! j = Some y → wanted bdev y → b_dirty (sl_buf y) = false) ∧
    (∀ d0, ready d0 s → ready d0 s' ∧ err = 0).
Proof.
  revert i s. induction n as [|n IH]; intros i s C Hlen Hn; simpl.
  { exists 0, s. split_and!; try done.
    - intros j x Hx. exists x. done.
    - intros _ j y Hj Hy. apply lookup_lt_Some in Hy. rewrite (co_len _ _ _ _ _ C) in Hy. lia. }
  destruct (lookup_lt_is_Some_2 (bc_slots s) i) as [x Hx]; [rewrite (co_len _ _ _ _ _ C); lia|].
  destruct (sync_slot_spec s V R bdev i x C Hlen Hx) as (err & s1 & y & -> & C1 & E1 & Sy & Hc & Hr). cbn [mbind outcome_bind].
  assert (∀ j z, bc_slots s !! j = Some z → ∃ y, bc_slots s1 !! j = Some y ∧ synced z y) as Hs1.
  { intros j z Hz. rewrite E1. destruct (decide (j = i)) as [->|Hne]; [simplify_eq; exists y; split; [by eapply insert_at|done]|].
    exists z. by rewrite list_lookup_insert_ne. }
  destruct (Z.eqb_spec err 0) as [->|Hne]; cbn [negb].
  2: { exists err, s1. split_and!; try done. }
  destruct (IH (S i) s1 C1 Hlen ltac:(lia)) as (err & s2 & -> & C2 & Hs2 & Hc2 & Hr2). exists err, s2. split_and!; try done.
  - intros j z Hz. destruct (Hs1 j z Hz) as (z1 & Hz1 & S1). destruct (Hs2 j z1 Hz1) as (z2 & Hz2 & S2). exists z2. split; [done|].
    destruct S1 as (A1 & A2 & A3 & A4 & A5), S2 as (B1 & B2 & B3 & B4 & B5). split_and!; try congruence; auto.
  - intros -> j z Hj Hz Hw. destruct (decide (j = i)) as [->|]; [|apply (Hc2 eq_refl j); [lia|done..]].
    destruct (Hs2 i y) as (z' & Hz' & S2); [rewrite E1; by eapply insert_at|]. rewrite Hz in Hz'. simplify_eq.
    destruct (b_dirty (sl_buf z')) eqn:D; [|done]. destruct S2 as (_ & Eb & _ & _ & S2). destruct Sy as (_ & Eb' & _).
    assert (wanted bdev x) as Hwx by (unfold wanted in *; by rewrite <- Eb', <- Eb). specialize (Hc eq_refl Hwx). rewrite D in S2. specialize (S2 eq_refl). congruence.
  - intros d0 Rd. destruct (Hr d0 Rd) as [R1 _]. auto.
Qed.

(** Nothing dirty of a device: its disk is up to date. *)
Lemma clean_disk s V R d : bc_ok s V R → (∀ j y, bc_slots s !! j = Some y → b_bdev (sl_buf y) = Some d → b_dirty (sl_buf y) = false) →
  ∀ b, V !! (d, b) = bc_devs s !! d ≫= block_of b.
Proof.
  intros C Hc b. pose proof (find_slot_spec (Some d) b (bc_slots s) 0) as F. destruct (find_slot 0 (Some d) b (bc_slots s)) as [[j x]|].
  - destruct F as (k & -> & Hk & Hm). apply (matches_key _ _ _ C _ _ _ _ Hk) in Hm. eapply clean_on_disk; try done.
    apply slot_key_Some in Hm as (_ & ? & _). by eapply Hc.
  - apply (co_rest _ _ _ _ _ C). intros j y Hj Hy. apply (matches_key _ _ _ C _ _ _ _ Hj) in Hy. by rewrite (F j y Hj) in Hy.
Qed.

Lemma sync_spec s V R bdev : bc_ok s V R → Z.of_nat (length R) < 2 ^ 31 →
  ∃ err s', bufcache_sync bdev s = Ok (err, s') ∧ bc_ok s' V R ∧
    (∀ j x, bc_slots s !! j = Some x → ∃ y, bc_slots s' !! j = Some y ∧ synced x y) ∧
    (err = 0 → ∀ j y, bc_slots s' !! j = Some y → wanted bdev y → b_dirty (sl_buf y) = false) ∧
    (err = 0 → ∀ d b, bdev = None ∨ bdev = Some d → V !! (d, b) = bc_devs s' !! d ≫= block_of b) ∧
    (∀ d0, ready d0 s → ready d0 s' ∧ err = 0).
Proof.
  intros C Hlen. destruct (sync_loop_spec V R bdev 64 0 s C Hlen eq_refl) as (err & s' & E & C' & Hs & Hc & Hr).
  exists err, s'. split_and!; try done.
  - intros He j y. apply (Hc He). lia.
  - intros He d b Hb. apply (clean_disk s' V R d C'). intros j y Hj Hy. apply (Hc He j y); [lia|done|].
    destruct Hb as [->| ->]; [by left|by right].
Qed.

(** ** Writing *)

(** [s] is [s0] with the data of the clean slot [h] replaced by [v]. *)
Definition pend (h : nat) (v : list Z) (s s0 : bufcache) : Prop :=
  ∃ x, bc_slots s0 !! h = Some x ∧ b_dirty (sl_buf x) = false ∧ bc_slots s = <[h := on_buf (set_data v) x]> (bc_slots s0) ∧
    bc_dirty_count s = bc_dirty_count s0 ∧ bc_devs s = bc_devs s0 ∧ bc_io s = bc_io s0.

Lemma sync_slot_pend V R h v s s0 bdev i : bc_ok s0 V R → Z.of_nat (length R) < 2 ^ 31 → pend h v s s0 → (i < 64)%nat →
  ∃ err s' s0', sync_slot bdev i s = Ok (err, s') ∧ sync_slot bdev i s0 = Ok (err, s0') ∧ pend h v s' s0'.
Proof.
  intros C Hlen (x & Hh & Dx & Es & En & Edv & Eio) Hi.
  destruct (lookup_lt_is_Some_2 (bc_slots s0) i) as [z0 Hz0]; [rewrite (co_len _ _ _ _ _ C); lia|].
  destruct (decide (i = h)) as [->|Hne].
  { assert (z0 = x) as -> by congruence. exists 0, s, s0. unfold sync_slot. rewrite (slot_at_eq _ _ _ Hz0), (slot_at_eq h s (on_buf (set_data v) x)) by (rewrite Es; by eapply insert_at).
    cbn [mbind outcome_bind]. cbn [on_buf sl_buf sl_valid set_data b_dirty]. rewrite Dx, andb_false_r. split_and!; [done..|]. exists x. done. }
  assert (bc_slots s !! i = Some z0) as Hz by (rewrite Es; by rewrite list_lookup_insert_ne).
  destruct (sl_valid z0 && b_dirty (sl_buf z0) && (bool_decide (bdev = None) || bool_decide (b_bdev (sl_buf z0) = bdev))) eqn:W.
  2: { exists 0, s, s0. unfold sync_slot. rewrite (slot_at_eq _ _ _ Hz0), (slot_at_eq _ _ _ Hz). cbn [mbind outcome_bind]. rewrite W. split_and!; [done..|]. by exists x. }
  apply andb_true_iff in W as [[Ev Ed]%andb_true_iff Hw]. rewrite orb_true_iff, !bool_decide_eq_true in Hw.
  destruct (slot_facts _ _ _ C _ _ Hz0) as (_ & _ & Rx & Vx). rewrite Ev in Vx. destruct Vx as (d & dev & w & E1 & Hdev & _).
  destruct (ata_bdev_write 2 (b_block_no (sl_buf z0) * 2) (b_data (sl_buf z0)) dev (bc_io s0)) as [[err dev'] io'] eqn:Ew.
  pose proof (refs_le R i). pose proof (dirty_counted _ _ _ _ _ C Hz0 Ed) as Hpos.
  destruct (sync_slot_eq s0 i z0 d dev _ err dev' io' bdev _ Hz0 Ev Ed Hw Rx ltac:(lia) E1 eq_refl Hdev Hpos Ew) as (s0' & E0 & Es0 & En0 & Edv0 & Eio0).
  destruct (sync_slot_eq s i z0 d dev _ err dev' io' bdev _ Hz Ev Ed Hw Rx ltac:(lia) E1 eq_refl ltac:(by rewrite Edv) ltac:(by rewrite En) ltac:(by rewrite Eio)) as (s' & E' & Es' & En' & Edv' & Eio').
  exists err, s', s0'. split_and!; [done..|]. exists x. rewrite Es0, Es', En0, En', Edv0, Edv', Eio0, Eio', Es, En, Edv. split_and!; try done.
  - by rewrite list_lookup_insert_ne.
  - by rewrite list_insert_insert_ne.
Qed.

Lemma sync_loop_pend V R h v bdev n i s s0 : bc_ok s0 V R → Z.of_nat (length R) < 2 ^ 31 → pend h v s s0 → (i + n = 64)%nat →
  ∃ err s' s0', sync_loop n i bdev s = Ok (err, s') ∧ sync_loop n i bdev s0 = Ok (err, s0') ∧ pend h v s' s0'.
Proof.
  revert i s s0. induction n as [|n IH]; intros i s s0 C Hlen Hp Hn; simpl; [by exists 0, s, s0|].
  destruct (sync_slot_pend V R h v s s0 bdev i C Hlen Hp ltac:(lia)) as (err & s1 & s01 & -> & E0 & Hp1). rewrite E0. cbn [mbind outcome_bind].
  destruct (err =? 0); cbn [negb]; [|by exists err, s1, s01]. apply IH; [|done|done|lia].
  destruct (lookup_lt_is_Some_2 (bc_slots s0) i) as [x Hx]; [rewrite (co_len _ _ _ _ _ C); lia|].
  destruct (sync_slot_spec s0 V R bdev i x C Hlen Hx) as (? & ? & ? & E & ? & _). rewrite E0 in E. by simplify_eq.
Qed.

Lemma refill_ok l n devs V R h k x v n' :
  cache_ok l n devs V R → (h, k) ∈ R → l !! h = Some x → block_ok v → n' = n - dirt x + 1 →
  cache_ok (<[h := on_buf (set_dirty true) (on_buf (set_data v) x)]> l) n' devs (<[k := v]> V) R.
Proof.
  intros C Hin Hx Hv Hn. destruct (co_held _ _ _ _ _ C _ _ Hin) as (x' & Hx' & Kx). rewrite Hx in Hx'. simplify_eq.
  destruct k as [d b]. eapply (cache_refresh l n devs V R h x' _ (<[(d, b) := v]> V) R _ (d, b) C Hx); try done; auto.
  - destruct (co_slot _ _ _ _ _ C _ _ Hx) as (Lx & _ & Rx & Vx). apply slot_key_Some in Kx as (Ev & E1 & <-). rewrite Ev in Vx.
    destruct Vx as (d' & dev & w & E' & Hdev & Hb & _). rewrite E1 in E'. simplify_eq. split_and!; try done. cbn. rewrite Ev.
    exists d', dev, w. by rewrite lookup_insert_eq.
  - intros k'. destruct (decide (k' = (d, b))) as [->|]; [by right|left; by rewrite lookup_insert_ne].
Qed.

Lemma dirties_le l : dirties l ≤ Z.of_nat (length l).
Proof. unfold dirties. pose proof (length_filter is_dirty l). lia. Qed.

Lemma buffer_write_spec s V R h k v : bc_ok s V R → Z.of_nat (length R) < 2 ^ 31 → (h, k) ∈ R → block_ok v →
  ∃ s', buffer_write h v s = Ok s' ∧ bc_ok s' (<[k := v]> V) R ∧ ∀ d0, ready d0 s → k.1 = d0 → ready d0 s'.
Proof.
  intros C Hlen Hin Hv. destruct (co_held _ _ _ _ _ C _ _ Hin) as (x & Hx & Kx).
  assert (b_bdev (sl_buf x) = Some k.1) as Hbd by (destruct k; by apply slot_key_Some in Kx as (_ & ? & _)).
  unfold buffer_write. rewrite (upd_slot_eq _ _ _ _ Hx). cbn [mbind outcome_bind]. set (y := on_buf _ x). set (s1 := with_slots _ s).
  assert (bc_slots s1 !! h = Some y) as H1 by by eapply insert_at.
  unfold bufcache_mark_dirty. rewrite (slot_at_eq _ _ _ H1). cbn [mbind outcome_bind]. change (b_dirty (sl_buf y)) with (b_dirty (sl_buf x)).
  destruct (b_dirty (sl_buf x)) eqn:Ed; cbn [negb andb mbind outcome_bind].
  - rewrite (slot_at_eq _ _ _ H1). cbn [mbind outcome_bind]. change (b_dirty (sl_buf y)) with (b_dirty (sl_buf x)). rewrite Ed. cbn [negb].
    rewrite (upd_slot_eq _ _ _ _ H1). eexists. split; [done|]. split.
    + unfold bc_ok. cbn [bc_slots bc_dirty_count bc_devs with_slots s1]. rewrite list_insert_insert_eq.
      eapply refill_ok; try done. unfold dirt. rewrite Ed. cbn. lia.
    + intros d0 Rd E0. eapply (ready_update d0 s h x (on_buf (set_dirty true) y)); [exact Rd|exact Hx| |apply Rd|apply Rd|cbn; intros _; congruence].
      apply list_insert_insert_eq.
  - change (b_bdev (sl_buf y)) with (b_bdev (sl_buf x)). change (bc_dirty_count s1) with (bc_dirty_count s).
    assert (pend h v s1 s) as Hp by by exists x.
    assert (∃ s2 s0, (if bc_dirty_count s >=? BUFCACHE_DIRTY_LIMIT then '(_, s') ← bufcache_sync (b_bdev (sl_buf x)) s1; Ok s' else Ok s1) = Ok s2 ∧
      pend h v s2 s0 ∧ bc_ok s0 V R ∧ (∀ d0, ready d0 s → k.1 = d0 → ready d0 s0 ∧ bc_dirty_count s0 ≤ 47)) as (s2 & s0 & -> & Hp2 & C2 & Hr2).
    { unfold BUFCACHE_DIRTY_LIMIT. destruct (Z.geb_spec (bc_dirty_count s) 48).
      - destruct (sync_loop_pend V R h v (b_bdev (sl_buf x)) BUFCACHE_SLOTS 0 s1 s C Hlen Hp eq_refl) as (err & s2 & s0 & E & E0 & Hp2).
        destruct (sync_spec s V R (b_bdev (sl_buf x)) C Hlen) as (err' & s0' & E0' & C2 & _ & Hc & _ & Hr). unfold bufcache_sync in *.
        rewrite E0 in E0'. simplify_eq. rewrite E. exists s2, s0'. split_and!; try done. intros d0 Rd <-. destruct (Hr _ Rd) as [R0 ->]. split; [done|].
        destruct R0 as (_ & _ & R0). rewrite (co_dirty _ _ _ _ _ C2). unfold dirties.
        destruct (filter is_dirty (bc_slots s0')) as [|z zs] eqn:F; [simpl; lia|exfalso].
        assert (z ∈ filter is_dirty (bc_slots s0')) as Hz by (rewrite F; apply list_elem_of_here).
        apply list_elem_of_filter in Hz as [Dz [j Hj]%list_elem_of_lookup]. unfold is_dirty in Dz.
        rewrite (Hc eq_refl j z Hj) in Dz; [done|]. right. rewrite Hbd. by eapply R0.
      - exists s1, s. split_and!; try done. intros d0 Rd _. split; [done|lia]. }
    cbn [mbind outcome_bind]. destruct Hp2 as (x2 & Hx2 & D2 & Es & En & Edv & Eio).
    assert (bc_slots s2 !! h = Some (on_buf (set_data v) x2)) as H2 by (rewrite Es; by eapply insert_at).
    rewrite (slot_at_eq _ _ _ H2). cbn [mbind outcome_bind]. cbn [on_buf sl_buf set_data b_dirty]. rewrite D2. cbn [negb].
    rewrite (upd_slot_eq _ _ _ (on_buf (set_data v) x2)) by done. eexists. split; [done|].
    assert (u32 (bc_dirty_count s2 + 1) = bc_dirty_count s0 + 1) as Eu.
    { rewrite En, (co_dirty _ _ _ _ _ C2). pose proof (dirties_le (bc_slots s0)). rewrite (co_len _ _ _ _ _ C2) in *.
      unfold u32. rewrite Z.mod_small; unfold dirties in *; lia. }
    split.
    + unfold bc_ok. cbn [bc_slots bc_dirty_count bc_devs with_slots with_dirty_count]. rewrite Es, list_insert_insert_eq, Eu, Edv.
      eapply refill_ok; try done. unfold dirt. rewrite D2. lia.
    + intros d0 Rd E0. destruct (Hr2 d0 Rd E0) as [R0 H47]. eapply ready_update; [exact R0|exact Hx2| | | |].
      * cbn [bc_slots with_slots with_dirty_count]. by rewrite Es, list_insert_insert_eq.
      * cbn. rewrite Eio. apply R0.
      * cbn [bc_dirty_count with_slots with_dirty_count]. lia.
      * cbn. intros _. destruct (co_held _ _ _ _ _ C2 _ _ Hin) as (x' & Hx' & K'). rewrite Hx2 in Hx'. simplify_eq.
        destruct k as [d b]. apply slot_key_Some in K' as (_ & -> & _). done.
Qed.

Lemma buffer_data_spec s V R h k : bc_ok s V R → (h, k) ∈ R → ∃ v, buffer_data h s = Ok v ∧ V !! k = Some v ∧ block_ok v.
Proof.
  intros C Hin. destruct (co_held _ _ _ _ _ C _ _ Hin) as (x & Hx & Kx). destruct k as [d b].
  destruct (slot_facts _ _ _ C _ _ Hx) as (_ & Dx & _ & Vx). apply slot_key_Some in Kx as (Ev & E1 & <-). rewrite Ev in Vx.
  destruct Vx as (d' & dev & w & E' & _ & _ & HV & _). rewrite E1 in E'. simplify_eq.
  exists (b_data (sl_buf x)). unfold buffer_data. by rewrite (slot_at_eq _ _ _ Hx).
Qed.

Lemma contents_ok s V R k v : bc_ok s V R → V !! k = Some v → block_ok v.
Proof.
  intros C Hk. destruct k as [d b]. pose proof (find_slot_spec (Some d) b (bc_slots s) 0) as F. destruct (find_slot 0 (Some d) b (bc_slots s)) as [[j x]|].
  - destruct F as (i & -> & Hi & Hm). apply (matches_key _ _ _ C _ _ _ _ Hi) in Hm as (Ev & E1 & <-)%slot_key_Some.
    destruct (slot_facts _ _ _ C _ _ Hi) as (_ & Dx & _ & Vx). rewrite Ev in Vx. destruct Vx as (d' & ? & ? & E' & _ & _ & HV & _).
    rewrite E1 in E'. simplify_eq. done.
  - rewrite (co_rest _ _ _ _ _ C d b) in Hk.
    + destruct (bc_devs s !! d) as [dev|] eqn:Ed; [|done]. eapply block_of_ok; [by eapply co_devs|done].
    + intros i y Hi Hy. apply (matches_key _ _ _ C _ _ _ _ Hi) in Hy. by rewrite (F i y Hi) in Hy.
Qed.
