(* ===== verification/BufcacheSystem.v ===== *)
(** * The buffer cache as its clients see it

    [BlockCacheSpec] is the contract the file systems rely on; the instance
    discharges it for the cache of [Bufcache].  [bufcache_refines] states the
    same for whole runs: every result a client gets is one the plain array of
    blocks allows, and after a successful sync the disks hold the array. *)

From S2P Require Import Prelude Bufcache BufcacheSpec.

(** [cst s V R]: the blocks contain [V] and the references [R] are out.
    [cready d s]: device [d] answers every command, and only its blocks wait to be
    written; then 15 buffers can be held at once. *)
Class BlockCacheSpec (S : Type) `{BlockCache S} := {
  cst : S → gmap key (list Z) → list hold → Prop;
  cready : Z → S → Prop;
  cdisk : S → Z → Z → option (list Z);
  cst_perm s V R R' : R ≡ₚ R' → cst s V R → cst s V R';
  cst_block s V R k v : cst s V R → V !! k = Some v → block_ok v;
  bget_spec s V R d b : cst s V R → has_dev V d → 0 ≤ b → Z.of_nat (length R) < 2 ^ 31 →
    ∃ r s', bget d b s = Ok (r, s') ∧
      match r with Some h => cst s' V ((h, (d, b)) :: R) ∧ is_Some (V !! (d, b)) | None => cst s' V R end ∧
      (cready d s → cready d s' ∧ ((length R < 16)%nat → is_Some (V !! (d, b)) → is_Some r));
  bdata_spec s V R h k : cst s V R → (h, k) ∈ R → ∃ v, bdata h s = Ok v ∧ V !! k = Some v;
  bwrite_spec s V R h k v : cst s V R → (h, k) ∈ R → block_ok v → Z.of_nat (length R) < 2 ^ 31 →
    ∃ s', bwrite h v s = Ok s' ∧ cst s' (<[k := v]> V) R ∧ (cready k.1 s → cready k.1 s');
  bput_spec s V R h k : cst s V ((h, k) :: R) → ∃ s', bput h s = Ok s' ∧ cst s' V R ∧ ∀ d, cready d s → cready d s';
  bsync_spec s V R d : cst s V R → Z.of_nat (length R) < 2 ^ 31 →
    ∃ err s', bsync d s = Ok (err, s') ∧ cst s' V R ∧ (err = 0 → ∀ b, cdisk s' d b = V !! (d, b)) ∧ (cready d s → cready d s' ∧ err = 0)
}.

Lemma cache_perm l n devs V R R' : R ≡ₚ R' → cache_ok l n devs V R → cache_ok l n devs V R'.
Proof.
  intros HR [Cl Cs Cu Cd Ch Cv Cr]. constructor; try done.
  - intros i x Hx. rewrite <- (refs_perm _ _ _ HR). auto.
  - intros i k. rewrite <- HR. apply Ch.
Qed.

#[export] Program Instance bufcache_spec : BlockCacheSpec bufcache := {|
  cst := bc_ok;
  cready := ready;
  cdisk s d b := bc_devs s !! d ≫= block_of b
|}.
Next Obligation. intros s V R R' HR C. by eapply cache_perm. Qed.
Next Obligation. intros s V R k v C. by apply (contents_ok s V R). Qed.
Next Obligation.
  intros s V R d b C Hd H0 Hlen. destruct (bufcache_get_spec s V R C d b Hd H0 Hlen) as (r & s' & E & H & Hr). exists r, s'. split_and!; [done..|apply Hr].
Qed.
Next Obligation. intros s V R h k C Hin. destruct (buffer_data_spec s V R h k C Hin) as (v & E & Hk & _). by exists v. Qed.
Next Obligation.
  intros s V R h k v C Hin Hv Hlen. destruct (buffer_write_spec s V R h k v C Hlen Hin Hv) as (s' & E & C' & Hr). exists s'. split_and!; try done. intros Rd. by apply Hr.
Qed.
Next Obligation. intros s V R h k C. by apply (put_spec s V _ C h k). Qed.
Next Obligation.
  intros s V R d C Hlen. destruct (sync_spec s V R (Some d) C Hlen) as (err & s' & E & C' & _ & _ & Hd & Hr).
  exists err, s'. split_and!; try done; [|apply Hr]. intros He b. symmetry. apply (Hd He). by right.
Qed.

(** ** Boot *)

Definition disk_map (devs : gmap Z block_device) : gmap key (list Z) :=
  map_uncurry (M1 := gmap Z) (M2 := gmap Z) ((λ dev, map_seqZ 0 (pair_up (bd_sectors dev))) <$> devs).

Lemma disk_map_lookup devs d b : disk_map devs !! (d, b) = devs !! d ≫= block_of b.
Proof.
  unfold disk_map. rewrite lookup_map_uncurry, lookup_fmap. destruct (devs !! d) as [dev|]; simpl; [|done].
  rewrite lookup_map_seqZ. unfold block_of. destruct (Z.leb_spec 0 b).
  - rewrite option_guard_True by lia. by rewrite Z.sub_0_r.
  - rewrite option_guard_False by lia. done.
Qed.

Definition devs_ok (devs : gmap Z block_device) : Prop := ∀ d dev, devs !! d = Some dev → dev_ok dev.

Lemma boot_bc_ok devs io : devs_ok devs → bc_ok (bufcache_boot devs io) (disk_map devs) [].
Proof.
  intros D. unfold bc_ok. cbn [bufcache_boot bc_slots bc_dirty_count bc_devs]. set (x0 := Slot _ _ _ _).
  assert (∀ i x, replicate BUFCACHE_SLOTS x0 !! i = Some x → x = x0) as Hx by (intros i x [-> _]%lookup_replicate; done).
  constructor; try done.
  - intros i x Hi. rewrite (Hx _ _ Hi). split_and!; try done. cbn [b_data sl_buf x0]. split; [by rewrite length_replicate|]. apply Forall_replicate. unfold byte. lia.
  - intros i j x y k Hi Hj Hk. by rewrite (Hx _ _ Hi) in Hk.
  - intros i k Hin. by apply not_elem_of_nil in Hin.
  - intros d b _. apply disk_map_lookup.
Qed.

(** ** Runs *)

Inductive bevent := BGet (d b : Z) | BRead (h : nat) | BWrite (h : nat) (v : list Z) | BPut (h : nat) | BSync (bdev : option Z).
Inductive bresult := RGet (r : option nat) | RData (v : list Z) | RUnit | RErr (err : Z).

Definition bexec (e : bevent) (s : bufcache) : outcome (bresult * bufcache) :=
  match e with
  | BGet d b => '(r, s) ← bufcache_get (Some d) b s; Ok (RGet r, s)
  | BRead h => v ← buffer_data h s; Ok (RData v, s)
  | BWrite h v => s ← buffer_write h v s; Ok (RUnit, s)
  | BPut h => s ← bufcache_put h s; Ok (RUnit, s)
  | BSync bdev => '(err, s) ← bufcache_sync bdev s; Ok (RErr err, s)
  end.

(** The plain array of blocks: an operation, its result and its effect. *)
Inductive array_step : bevent → gmap key (list Z) * list hold → bresult → gmap key (list Z) * list hold → Prop :=
| a_get V R d b h : is_Some (V !! (d, b)) → (∀ k, (h, k) ∈ R → k = (d, b)) → (∀ h', (h', (d, b)) ∈ R → h' = h) →
    array_step (BGet d b) (V, R) (RGet (Some h)) (V, (h, (d, b)) :: R)
| a_fail V R d b : array_step (BGet d b) (V, R) (RGet None) (V, R)
| a_read V R h k v : (h, k) ∈ R → V !! k = Some v → array_step (BRead h) (V, R) (RData v) (V, R)
| a_write V R h k v : (h, k) ∈ R → array_step (BWrite h v) (V, R) RUnit (<[k := v]> V, R)
| a_put V R R' h k : R ≡ₚ (h, k) :: R' → array_step (BPut h) (V, R) RUnit (V, R')
| a_sync V R bdev err : array_step (BSync bdev) (V, R) (RErr err) (V, R).

Inductive array_run : list bevent → gmap key (list Z) * list hold → list bresult → gmap key (list Z) * list hold → Prop :=
| ar_nil a : array_run [] a [] a
| ar_cons e es a1 r rs a2 a3 : array_step e a1 r a2 → array_run es a2 rs a3 → array_run (e :: es) a1 (r :: rs) a3.

Fixpoint brun (es : list bevent) (s : bufcache) : outcome (list bresult * bufcache) :=
  match es with
  | [] => Ok ([], s)
  | e :: es => '(r, s) ← bexec e s; '(rs, s) ← brun es s; Ok (r :: rs, s)
  end.

Fixpoint remove_one (h : nat) (hs : list nat) : list nat :=
  match hs with [] => [] | x :: hs => if decide (x = h) then hs else x :: remove_one h hs end.

(** The buffers a client holds after an event: it uses only those it was given
    and gives each back once. *)
Definition holds_after (e : bevent) (r : bresult) (hs : list nat) : list nat :=
  match e, r with
  | BGet _ _, RGet (Some h) => h :: hs
  | BPut h, _ => remove_one h hs
  | _, _ => hs
  end.

Definition legal (devs : gmap Z block_device) (e : bevent) (hs : list nat) : bool :=
  match e with
  | BGet d b => (0 <=? b) && match devs !! d with Some dev => 2 <=? sector_count dev | None => false end
  | BRead h | BPut h => bool_decide (h ∈ hs)
  | BWrite h v => bool_decide (h ∈ hs) && bool_decide (block_ok v)
  | BSync _ => true
  end.

Fixpoint all_legal (devs : gmap Z block_device) (es : list bevent) (hs : list nat) (s : bufcache) : bool :=
  match es with
  | [] => true
  | e :: es => legal devs e hs && match bexec e s with Ok (r, s) => all_legal devs es (holds_after e r hs) s | _ => true end
  end.

Lemma remove_one_perm h hs hs' : hs ≡ₚ h :: hs' → remove_one h hs ≡ₚ hs'.
Proof.
  revert hs'. induction hs as [|x hs IH]; intros hs' H; simpl; [by apply Permutation_nil_cons in H|].
  destruct (decide (x = h)) as [->|Hne]; [by apply Permutation.Permutation_cons_inv in H|].
  assert (x ∈ h :: hs') as Hx by (rewrite <- H; apply list_elem_of_here). apply elem_of_cons in Hx as [?|Hx]; [done|].
  apply elem_of_Permutation in Hx as [hs2 E]. rewrite E in *. rewrite Permutation.perm_swap in H. apply Permutation.Permutation_cons_inv in H.
  by rewrite (IH _ H).
Qed.

Definition devs_kept (devs : gmap Z block_device) (V : gmap key (list Z)) : Prop :=
  ∀ d dev, devs !! d = Some dev → 2 ≤ sector_count dev → has_dev V d.

Lemma bexec_refines devs e s V R hs :
  bc_ok s V R → hs ≡ₚ R.*1 → devs_kept devs V → Z.of_nat (length R) < 2 ^ 31 → legal devs e hs = true →
  ∃ r s' V' R', bexec e s = Ok (r, s') ∧ array_step e (V, R) r (V', R') ∧ bc_ok s' V' R' ∧
    holds_after e r hs ≡ₚ R'.*1 ∧ devs_kept devs V' ∧ (length R' ≤ S (length R))%nat.
Proof.
  intros C Hh Hd Hlen HL.
  assert (∀ h, bool_decide (h ∈ hs) = true → ∃ k, (h, k) ∈ R) as held.
  { intros h H%bool_decide_eq_true. rewrite Hh in H. apply list_elem_of_fmap in H as ([h' k] & -> & ?). by exists k. }
  destruct e as [d b|h|h v|h|bdev]; cbn [legal bexec holds_after] in *.
  - apply andb_true_iff in HL as [H0%Z.leb_le HL]. destruct (devs !! d) as [dev|] eqn:Edev; [|done]. apply Z.leb_le in HL as Hc. destruct (bufcache_get_spec s V R C d b (Hd _ _ Edev Hc) H0 Hlen) as ([h|] & s' & -> & H & _); cbn [mbind outcome_bind].
    + destruct H as [C' Hb]. eexists _, _, V, _. split; [done|]. split_and!; [|exact C'|by rewrite Hh|done|done].
      assert (∀ h' k', (h', k') ∈ R → (h', k') ∈ (h, (d, b)) :: R) as Hsub by (intros; by apply list_elem_of_further).
      destruct (co_held _ _ _ _ _ C' h (d, b) (list_elem_of_here _ _)) as (x & Hx & Kx). apply a_get; [done|..].
      * intros k Hk%Hsub. destruct (co_held _ _ _ _ _ C' _ _ Hk) as (x' & Hx' & Kx'). congruence.
      * intros h' Hk%Hsub. destruct (co_held _ _ _ _ _ C' _ _ Hk) as (x' & Hx' & Kx'). by eapply (co_uniq _ _ _ _ _ C').
    + eexists _, _, V, R. split; [done|]. split_and!; try done; [by constructor|lia].
  - apply held in HL as (k & HL).
    destruct (buffer_data_spec s V R h k C HL) as (v & -> & Hk & _). eexists _, _, V, R. split; [done|]. split_and!; try done; [by econstructor|lia].
  - apply andb_true_iff in HL as [HL Hv%bool_decide_eq_true]. apply held in HL as (k & HL).
    destruct (buffer_write_spec s V R h k v C Hlen HL Hv) as (s' & -> & C' & _). eexists _, _, _, R. split; [done|]. split_and!; try done; [by constructor| |lia].
    intros d dev E1 E2. destruct (Hd d dev E1 E2) as (b & Hb). exists b. destruct (decide (k = (d, b))) as [->|]; [rewrite lookup_insert_eq; by eexists|by rewrite lookup_insert_ne].
  - apply held in HL as (k & HL).
    apply elem_of_Permutation in HL as [R' HR]. destruct (put_spec s V R C h k R' HR) as (s' & -> & C' & _). eexists _, _, V, R'. split; [done|].
    split_and!; try done; [by econstructor| |rewrite HR; simpl; lia]. apply remove_one_perm. by rewrite Hh, HR.
  - destruct (sync_spec s V R bdev C Hlen) as (err & s' & -> & C' & _). eexists _, _, V, R. split; [done|]. split_and!; try done; [by constructor|lia].
Qed.

Lemma brun_refines devs es s V R hs :
  bc_ok s V R → hs ≡ₚ R.*1 → devs_kept devs V → Z.of_nat (length R + length es) < 2 ^ 31 → all_legal devs es hs s = true →
  ∃ rs s' V' R', brun es s = Ok (rs, s') ∧ array_run es (V, R) rs (V', R') ∧ bc_ok s' V' R' ∧ Z.of_nat (length R') < 2 ^ 31.
Proof.
  revert s V R hs. induction es as [|e es IH]; intros s V R hs C Hh Hd Hlen HL; simpl in *.
  { eexists _, _, _, _. split; [done|]. split; [constructor|]. split; [done|lia]. }
  apply andb_true_iff in HL as [HL1 HL2]. destruct (bexec_refines devs e s V R hs C Hh Hd ltac:(lia) HL1) as (r & s1 & V1 & R1 & E & A & C1 & Hh1 & Hd1 & Hl1).
  rewrite E in *. cbn [mbind outcome_bind]. destruct (IH s1 V1 R1 _ C1 Hh1 Hd1 ltac:(lia) HL2) as (rs & s2 & V2 & R2 & -> & A2 & C2 & H2).
  cbn [mbind outcome_bind]. eexists _, _, _, _. split; [done|]. split; [by econstructor|done].
Qed.

Lemma disk_map_kept devs : devs_kept devs (disk_map devs).
Proof.
  intros d dev E Hc. exists 0. rewrite disk_map_lookup, E. simpl. apply block_of_range. lia.
Qed.

(** C10: the buffer cache refines a plain array of blocks, on drives of at most
    [2 ^ 28] sectors ([dev_ok]), which the driver can address.  Whatever sequence of
    [bufcache_get], accesses to the data, [bufcache_put] and [bufcache_sync]
    its clients make on buffers they hold, and whatever commands the disks
    fail, no call faults, two buffers never stand for the same block, reading a
    buffer returns what was last written to its block (at first the disk's
    contents), evictions and write-backs included; and when a final sync
    reports success, every disk holds the array. *)
Theorem bufcache_refines devs io es :
  devs_ok devs → Z.of_nat (length es) < 2 ^ 31 → all_legal devs es [] (bufcache_boot devs io) = true →
  ∃ rs s V R, brun es (bufcache_boot devs io) = Ok (rs, s) ∧ array_run es (disk_map devs, []) rs (V, R) ∧
    ∃ err s', bufcache_sync None s = Ok (err, s') ∧ (err = 0 → ∀ d b, V !! (d, b) = bc_devs s' !! d ≫= block_of b).
Proof.
  intros D Hlen HL. destruct (brun_refines devs es _ _ [] [] (boot_bc_ok devs io D) (Permutation_refl _) (disk_map_kept devs) Hlen HL) as (rs & s & V & R & E & A & C & Hl).
  exists rs, s, V, R. split_and!; [done..|]. destruct (sync_spec s V R None C Hl) as (err & s' & E' & _ & _ & _ & H & _).
  exists err, s'. split; [done|]. intros He d b. apply (H He). by left.
Qed.

(** Two blocks of one disk; each sector takes three answers, and the third sector fails. *)
Definition demo_disk : gmap Z block_device := {[1 := Bdev 512 (replicate 4 (replicate 512 7))]}.
Definition demo_io : list Z := replicate 6 0 ++ [- EIO].
Definition demo_events : list bevent := [BGet 1 0; BWrite 0 (replicate 1024 9); BGet 1 1; BGet 1 0; BPut 0; BRead 0; BSync None; BPut 0].

Lemma demo_disk_ok : devs_ok demo_disk.
Proof.
  intros d dev H. unfold demo_disk in H. apply lookup_singleton_Some in H as [<- <-]. split; [done|].
  apply Forall_replicate. split; [by rewrite length_replicate|]. apply Forall_replicate. unfold byte. lia.
Qed.

Lemma bufcache_refines_witness : ∃ rs s V R, brun demo_events (bufcache_boot demo_disk demo_io) = Ok (rs, s) ∧
  array_run demo_events (disk_map demo_disk, []) rs (V, R).
Proof.
  destruct (bufcache_refines demo_disk demo_io demo_events demo_disk_ok) as (rs & s & V & R & E & A & _).
  - vm_compute. reflexivity.
  - vm_compute. reflexivity.
  - exists rs, s, V, R. split; [exact E|exact A].
Defined.

(** The third sector fails, so block 1 cannot be read; block 0 reads back and
    reaches the disk. *)
Example demo_events_run :
  match brun demo_events (bufcache_boot demo_disk demo_io) with
  | Ok ([RGet (Some 0%nat); RUnit; RGet None; RGet (Some 0%nat); RUnit; RData v; RErr 0; RUnit], s) =>
      v = replicate 1024 9 ∧ bc_devs s !! 1 ≫= block_of 0 = Some v
  | _ => False
  end.
Proof. vm_compute. split; reflexivity. Qed.

(** When a write-back fails, [bufcache_flush_all] drops the dirty buffer all the
    same: the data written is gone from the cache and never reached the disk. *)
Example flush_loses_data :
  ('(_, s) ← bufcache_get (Some 1) 0 (bufcache_boot demo_disk (replicate 6 0 ++ [- EIO]));
   s ← buffer_write 0 (replicate 1024 9) s;
   s ← bufcache_put 0 s;
   s ← bufcache_flush_all s;
   '(r, s) ← bufcache_get (Some 1) 0 s;
   v ← buffer_data 0 s; Ok (r, take 3 v)) = Ok (Some 0%nat, [7; 7; 7]).
Proof. vm_compute. reflexivity. Qed.
