(* ===== verification/Minix.v ===== *)
(** * fs/minix: super.c, bitmap.c, inode.c and file.c

    The file system works on the blocks of one device through the operations of
    [BlockCache].  A mounted file system is described by its superblock, which
    never changes after the mount.  In-memory inodes are passed by value and
    returned when changed.  The outcomes of the coming [kmalloc] and [kzalloc]
    calls are a list, [fs_kmem]; the clock is [fs_now]. *)

From S2P Require Import Prelude Bufcache.

Definition MINIX_V1_MAGIC : Z := 0x137F.
Definition MINIX_BITS_PER_BLOCK : Z := 8192.
Definition MINIX_WRITE_MAX_CHUNK : Z := 65536.

Record minix_super := Super {
  s_ninodes : Z;
  s_nzones : Z;
  s_imap_blocks : Z;
  s_zmap_blocks : Z;
  s_firstdatazone : Z;
  s_log_zone_size : Z;
  s_max_size : Z;
  s_magic : Z;
  s_state : Z
}.

Record minix_raw_inode := RawInode {
  i_mode : Z;
  i_uid : Z;
  i_size : Z;
  i_time : Z;
  i_gid : Z;
  i_nlinks : Z;
  i_zone : list Z
}.

Record minix_inode_info := Info { mi_raw : minix_raw_inode; mi_dirty : bool }.

(** [struct vfs_mount] with its private data. *)
Record minix_mount_info := Mount { mnt_bdev : Z; mnt_sb : minix_super; mnt_inodes_start : Z }.

(** [struct vfs_inode] with its private data. *)
Record vfs_inode := Inode { v_ino : Z; v_size : Z; v_is_dir : bool; v_mode : Z; v_uid : Z; v_gid : Z; v_info : minix_inode_info }.

Definition set_zone (i : nat) (z : Z) (r : minix_raw_inode) : minix_raw_inode :=
  RawInode (i_mode r) (i_uid r) (i_size r) (i_time r) (i_gid r) (i_nlinks r) (<[i := z]> (i_zone r)).
Definition set_size (n : Z) (r : minix_raw_inode) : minix_raw_inode :=
  RawInode (i_mode r) (i_uid r) n (i_time r) (i_gid r) (i_nlinks r) (i_zone r).
Definition set_time (t : Z) (r : minix_raw_inode) : minix_raw_inode :=
  RawInode (i_mode r) (i_uid r) (i_size r) t (i_gid r) (i_nlinks r) (i_zone r).
Definition set_nlinks (n : Z) (r : minix_raw_inode) : minix_raw_inode :=
  RawInode (i_mode r) (i_uid r) (i_size r) (i_time r) (i_gid r) n (i_zone r).
Definition with_info (mi : minix_inode_info) (v : vfs_inode) : vfs_inode :=
  Inode (v_ino v) (v_size v) (v_is_dir v) (v_mode v) (v_uid v) (v_gid v) mi.

(** ** Little-endian fields of a block *)

Definition byte_at (data : list Z) (i : Z) : outcome Z := deref (data !! Z.to_nat i).
Definition get16 (data : list Z) (i : Z) : outcome Z :=
  lo ← byte_at data (2 * i); hi ← byte_at data (2 * i + 1); Ok (lo + 256 * hi).
Definition put16 (data : list Z) (i v : Z) : list Z :=
  <[Z.to_nat (2 * i + 1) := v / 256 mod 256]> (<[Z.to_nat (2 * i) := v mod 256]> data).

(** Little-endian integers as byte lists. *)
Fixpoint le_bytes (n : nat) (v : Z) : list Z :=
  match n with O => [] | S n => v mod 256 :: le_bytes n (v / 256) end.
Fixpoint le_val (l : list Z) : Z := match l with [] => 0 | x :: l => x + 256 * le_val l end.
Definition le_field (data : list Z) (off len : nat) : Z := le_val (take len (drop off data)).

(** [memcpy(data + off, bytes, length bytes)] inside a buffer *)
Definition splice_bytes (off : nat) (bytes data : list Z) : list Z :=
  take off data ++ bytes ++ drop (off + length bytes) data.

(** ** On-disk structures *)

Definition decode_super (data : list Z) : minix_super :=
  Super (le_field data 0 2) (le_field data 2 2) (le_field data 4 2) (le_field data 6 2) (le_field data 8 2)
    (le_field data 10 2) (le_field data 12 4) (le_field data 16 2) (le_field data 18 2).

Definition decode_inode (data : list Z) : minix_raw_inode :=
  RawInode (le_field data 0 2) (le_field data 2 2) (le_field data 4 4) (le_field data 8 4) (le_field data 12 1)
    (le_field data 13 1) ((λ i, le_field data (14 + 2 * i) 2) <$> seq 0 9).

Definition encode_inode (r : minix_raw_inode) : list Z :=
  le_bytes 2 (i_mode r) ++ le_bytes 2 (i_uid r) ++ le_bytes 4 (i_size r) ++ le_bytes 4 (i_time r) ++
  le_bytes 1 (i_gid r) ++ le_bytes 1 (i_nlinks r) ++ concat (le_bytes 2 <$> i_zone r).

(** ** The file-system state *)

Record fs (S : Type) := Fs { fs_cache : S; fs_kmem : list bool; fs_now : Z }.
Arguments Fs {S} _ _ _.
Arguments fs_cache {S} _.
Arguments fs_kmem {S} _.
Arguments fs_now {S} _.

Section Minix.
Context {S : Type} `{BlockCache S}.

(** *** bitmap.c *)

Definition minix_test_bit (map : list Z) (bit : Z) : outcome bool :=
  b ← byte_at map (bit / 8); Ok (has b (Z.shiftl 1 (bit mod 8))).
Definition minix_set_bit (map : list Z) (bit : Z) : outcome (list Z) :=
  b ← byte_at map (bit / 8); Ok (<[Z.to_nat (bit / 8) := Z.lor b (Z.shiftl 1 (bit mod 8))]> map).
Definition minix_clear_bit (map : list Z) (bit : Z) : outcome (list Z) :=
  b ← byte_at map (bit / 8); Ok (<[Z.to_nat (bit / 8) := Z.ldiff b (Z.shiftl 1 (bit mod 8))]> map).

(** [for (bit = 0; bit < MINIX_BITS_PER_BLOCK; bit++)]: the bit to take, if the
    loop finds one. *)
Fixpoint scan_bits (n : nat) (bit base limit : Z) (map : list Z) : outcome (option Z) :=
  match n with
  | O => Ok None
  | Datatypes.S n =>
      let idx := u32 (base + bit) in
      if idx =? 0 then scan_bits n (bit + 1) base limit map else
      if idx >? limit then Ok None else
      used ← minix_test_bit map bit;
      if (used : bool) then scan_bits n (bit + 1) base limit map else Ok (Some bit)
  end.

Fixpoint alloc_blocks (n : nat) (blk d start limit : Z) (s : S) : outcome (Z * S) :=
  match n with
  | O => Ok (0, s)
  | Datatypes.S n =>
      let base := u32 (blk * MINIX_BITS_PER_BLOCK) in
      '(buf, s) ← bget d (u32 (start + blk)) s;
      match buf with
      | None => Ok (0, s)
      | Some h =>
          map ← bdata h s;
          found ← scan_bits (Z.to_nat MINIX_BITS_PER_BLOCK) 0 base limit map;
          match found with
          | Some bit =>
              map ← minix_set_bit map bit;
              s ← bwrite h map s;
              s ← bput h s;
              Ok (u32 (base + bit), s)
          | None =>
              s ← bput h s;
              alloc_blocks n (blk + 1) d start limit s
          end
      end
  end.

Definition minix_alloc_from_map (mnt : minix_mount_info) (start blocks limit : Z) (s : S) : outcome (Z * S) :=
  alloc_blocks (Z.to_nat blocks) 0 (mnt_bdev mnt) start limit s.

Definition minix_free_from_map (mnt : minix_mount_info) (start idx : Z) (s : S) : outcome S :=
  let blk := idx / MINIX_BITS_PER_BLOCK in
  let bit := idx mod MINIX_BITS_PER_BLOCK in
  '(buf, s) ← bget (mnt_bdev mnt) (u32 (start + blk)) s;
  match buf with
  | None => Panic
  | Some h =>
      map ← bdata h s;
      used ← minix_test_bit map bit;
      if negb used then Panic else
      map ← minix_clear_bit map bit;
      s ← bwrite h map s;
      bput h s
  end.

Definition minix_alloc_inode (mnt : minix_mount_info) (s : S) : outcome (Z * S) :=
  let sb := mnt_sb mnt in minix_alloc_from_map mnt 2 (s_imap_blocks sb) (s_ninodes sb) s.

Definition minix_free_inode (mnt : minix_mount_info) (ino : Z) (s : S) : outcome S :=
  if (ino =? 0) || (ino >? s_ninodes (mnt_sb mnt)) then Panic else minix_free_from_map mnt 2 ino s.

Definition minix_alloc_zone (mnt : minix_mount_info) (s : S) : outcome (Z * S) :=
  let sb := mnt_sb mnt in
  '(zidx, s) ← minix_alloc_from_map mnt (2 + s_imap_blocks sb) (s_zmap_blocks sb) (u32 (s_nzones sb - s_firstdatazone sb)) s;
  if zidx =? 0 then Ok (0, s) else Ok (u32 (s_firstdatazone sb + zidx - 1), s).

Definition zone_valid (sb : minix_super) (zone : Z) : bool := (s_firstdatazone sb <=? zone) && (zone <? s_nzones sb).

Definition minix_free_zone (mnt : minix_mount_info) (zone : Z) (s : S) : outcome S :=
  let sb := mnt_sb mnt in
  if (zone <? s_firstdatazone sb) || (zone >=? s_nzones sb) then Panic else
  minix_free_from_map mnt (2 + s_imap_blocks sb) (zone - s_firstdatazone sb + 1) s.

(** *** inode.c *)

Definition inode_block (mnt : minix_mount_info) (ino : Z) : Z := u32 (mnt_inodes_start mnt + (ino - 1) / 32).
Definition inode_offset (ino : Z) : nat := Z.to_nat ((ino - 1) mod 32 * 32).

Definition minix_get_raw_inode (mnt : minix_mount_info) (ino : Z) (s : S) : outcome (Z * option minix_raw_inode * S) :=
  if ino =? 0 then Ok (- EINVAL, None, s) else
  if ino >? s_ninodes (mnt_sb mnt) then Ok (- EINVAL, None, s) else
  '(buf, s) ← bget (mnt_bdev mnt) (inode_block mnt ino) s;
  match buf with
  | None => Ok (- EIO, None, s)
  | Some h =>
      data ← bdata h s;
      let raw := decode_inode (take 32 (drop (inode_offset ino) data)) in
      s ← bput h s;
      Ok (0, Some raw, s)
  end.

Definition minix_alloc_data_zone (mnt : minix_mount_info) (s : S) : outcome (Z * S) :=
  '(zone, s) ← minix_alloc_zone mnt s;
  if zone =? 0 then Ok (0, s) else
  '(buf, s) ← bget (mnt_bdev mnt) zone s;
  match buf with
  | None => s ← minix_free_zone mnt zone s; Ok (0, s)
  | Some h => s ← bwrite h (replicate 1024 0) s; s ← bput h s; Ok (zone, s)
  end.

(** [if (ino->i_zone[i] == 0 && create) { ino->i_zone[i] = ...; mi->dirty = true; }] *)
Definition need_zone (mnt : minix_mount_info) (i : nat) (create : bool) (mi : minix_inode_info) (s : S) : outcome (Z * minix_inode_info * S) :=
  z ← deref (i_zone (mi_raw mi) !! i);
  if (z =? 0) && create then
    '(zone, s) ← minix_alloc_data_zone mnt s;
    let z := u16 zone in
    Ok (z, Info (set_zone i z (mi_raw mi)) true, s)
  else Ok (z, mi, s).

(** The same for entry [i] of the table in the buffer [h]. *)
Definition need_entry (mnt : minix_mount_info) (h : nat) (i : Z) (create : bool) (s : S) : outcome (Z * S) :=
  data ← bdata h s;
  z ← get16 data i;
  if (z =? 0) && create then
    '(zone, s) ← minix_alloc_data_zone mnt s;
    data ← bdata h s;
    s ← bwrite h (put16 data i (u16 zone)) s;
    data ← bdata h s;
    z ← get16 data i;
    Ok (z, s)
  else Ok (z, s).

(** The label [check]: out-of-range pointers count as holes. *)
Definition check_zone (mnt : minix_mount_info) (b : Z) : Z :=
  if negb (b =? 0) && negb (zone_valid (mnt_sb mnt) b) then 0 else b.

Definition minix_bmap (mnt : minix_mount_info) (mi : minix_inode_info) (block : Z) (create : bool) (s : S) :
    outcome (Z * minix_inode_info * S) :=
  let per_block := 512 in
  if block <? 7 then
    '(b, mi, s) ← need_zone mnt (Z.to_nat block) create mi s;
    Ok (check_zone mnt b, mi, s)
  else
  let block := block - 7 in
  if block <? per_block then
    '(z, mi, s) ← need_zone mnt 7 create mi s;
    if z =? 0 then Ok (0, mi, s) else
    if negb (zone_valid (mnt_sb mnt) z) then Ok (0, mi, s) else
    '(buf, s) ← bget (mnt_bdev mnt) z s;
    match buf with
    | None => Ok (0, mi, s)
    | Some h =>
        '(b, s) ← need_entry mnt h block create s;
        s ← bput h s;
        Ok (check_zone mnt b, mi, s)
    end
  else
  let block := block - per_block in
  if block <? per_block * per_block then
    '(z, mi, s) ← need_zone mnt 8 create mi s;
    if z =? 0 then Ok (0, mi, s) else
    if negb (zone_valid (mnt_sb mnt) z) then Ok (0, mi, s) else
    '(buf, s) ← bget (mnt_bdev mnt) z s;
    match buf with
    | None => Ok (0, mi, s)
    | Some h =>
        '(ind1, s) ← need_entry mnt h (block / per_block) create s;
        s ← bput h s;
        if ind1 =? 0 then Ok (0, mi, s) else
        if negb (zone_valid (mnt_sb mnt) ind1) then Ok (0, mi, s) else
        '(buf, s) ← bget (mnt_bdev mnt) ind1 s;
        match buf with
        | None => Ok (0, mi, s)
        | Some h =>
            data ← bdata h s;
            b ← get16 data (block mod per_block);
            s ← bput h s;
            Ok (check_zone mnt b, mi, s)
        end
    end
  else Ok (0, mi, s).

Definition minix_write_inode (mnt : minix_mount_info) (ino : Z) (mi : minix_inode_info) (s : S) : outcome (Z * minix_inode_info * S) :=
  if negb (mi_dirty mi) then Ok (0, mi, s) else
  if (ino =? 0) || (ino >? s_ninodes (mnt_sb mnt)) then Ok (- EINVAL, mi, s) else
  '(buf, s) ← bget (mnt_bdev mnt) (inode_block mnt ino) s;
  match buf with
  | None => Ok (- EIO, mi, s)
  | Some h =>
      data ← bdata h s;
      s ← bwrite h (splice_bytes (inode_offset ino) (encode_inode (mi_raw mi)) data) s;
      s ← bput h s;
      Ok (0, Info (mi_raw mi) false, s)
  end.

Definition next_kmem (f : fs S) : bool * fs S :=
  match fs_kmem f with [] => (true, f) | b :: bs => (b, Fs (fs_cache f) bs (fs_now f)) end.

(** The new inode is returned by value. *)
Definition minix_inode_from_raw (ino : Z) (raw : minix_raw_inode) (f : fs S) : Z * option vfs_inode * fs S :=
  let '(ok, f) := next_kmem f in
  if negb ok then (- ENOMEM, None, f) else
  let '(ok, f) := next_kmem f in
  if negb ok then (- ENOMEM, None, f) else
  (0, Some (Inode ino (i_size raw) (has (i_mode raw) 0x4000) (i_mode raw) (i_uid raw) (i_gid raw) (Info raw false)), f).

Definition minix_close (mnt : minix_mount_info) (v : vfs_inode) (s : S) : outcome S :=
  '(_, _, s) ← minix_write_inode mnt (v_ino v) (v_info v) s; Ok s.

(** *** super.c *)

Definition minix_validate_super (sb : minix_super) (sector_size sector_count : Z) : Z :=
  if negb (s_magic sb =? MINIX_V1_MAGIC) then - EINVAL else
  if (s_ninodes sb =? 0) || (s_nzones sb =? 0) then - EINVAL else
  if (s_imap_blocks sb =? 0) || (s_zmap_blocks sb =? 0) then - EINVAL else
  if negb (s_log_zone_size sb =? 0) then - EINVAL else
  if s_firstdatazone sb <? 2 then - EINVAL else
  if s_firstdatazone sb >=? s_nzones sb then - EINVAL else
  if negb (sector_size =? 512) then - EINVAL else
  let inode_blocks := u32 (s_ninodes sb * 32 + 1024 - 1) / 1024 in
  let metadata_blocks := u32 (2 + s_imap_blocks sb + s_zmap_blocks sb + inode_blocks) in
  if metadata_blocks >? s_firstdatazone sb then - EINVAL else
  let disk_blocks := u32 (sector_count / 2) in
  if s_nzones sb >? disk_blocks then - EINVAL else 0.

(** [sector_size] and [sector_count] are the device's. *)
Definition minix_mount (d sector_size sector_count : Z) (f : fs S) : outcome (Z * option (minix_mount_info * vfs_inode) * fs S) :=
  '(buf, s) ← bget d 1 (fs_cache f);
  match buf with
  | None => Ok (- EIO, None, Fs s (fs_kmem f) (fs_now f))
  | Some h =>
      data ← bdata h s;
      let sb := decode_super data in
      let err := minix_validate_super sb sector_size sector_count in
      s ← bput h s;
      let f := Fs s (fs_kmem f) (fs_now f) in
      if negb (err =? 0) then Ok (err, None, f) else
      let '(ok, f) := next_kmem f in
      if negb ok then Ok (- ENOMEM, None, f) else
      let mnt := Mount d sb (2 + s_imap_blocks sb + s_zmap_blocks sb) in
      '(err, raw, s) ← minix_get_raw_inode mnt 1 (fs_cache f);
      let f := Fs s (fs_kmem f) (fs_now f) in
      match raw with
      | None => Ok (err, None, f)
      | Some raw =>
          let '(err, root, f) := minix_inode_from_raw 1 raw f in
          match root with
          | None => Ok (err, None, f)
          | Some root => Ok (0, Some (mnt, root), f)
          end
      end
  end.

Definition minix_fsync (mnt : minix_mount_info) (v : vfs_inode) (s : S) : outcome (Z * vfs_inode * S) :=
  '(err, mi, s) ← minix_write_inode mnt (v_ino v) (v_info v) s;
  let v := with_info mi v in
  if negb (err =? 0) then Ok (err, v, s) else
  '(err, s) ← bsync (mnt_bdev mnt) s;
  Ok (err, v, s).

(** *** file.c *)

Definition minix_safe_free_zone (mnt : minix_mount_info) (zone : Z) (s : S) : outcome S :=
  if zone =? 0 then Ok s else
  if negb (zone_valid (mnt_sb mnt) zone) then Ok s else
  minix_free_zone mnt zone s.

(** One piece of a transfer: the part of block [curr_off / 1024] it covers. *)
Definition piece (curr_off left : Z) : Z := Z.min (MINIX_BLOCK_SIZE - curr_off mod MINIX_BLOCK_SIZE) left.

(** The bytes read before the loop ended, and whether it failed. *)
Fixpoint read_loop (fuel : nat) (mnt : minix_mount_info) (mi : minix_inode_info) (curr_off left : Z) (s : S) :
    outcome (bool * list Z * S) :=
  match fuel with
  | O => NoFuel
  | Datatypes.S fuel =>
      if left =? 0 then Ok (true, [], s) else
      let lblk := u32 (curr_off / MINIX_BLOCK_SIZE) in
      let boff := curr_off mod MINIX_BLOCK_SIZE in
      '(pblk, _, s) ← minix_bmap mnt mi lblk false s;
      let chunk := piece curr_off left in
      '(got, s) ← (if pblk =? 0 then Ok (Some (replicate (Z.to_nat chunk) 0), s) else
                   '(buf, s) ← bget (mnt_bdev mnt) pblk s;
                   match buf with
                   | None => Ok (None, s)
                   | Some h =>
                       data ← bdata h s;
                       s ← bput h s;
                       Ok (Some (take (Z.to_nat chunk) (drop (Z.to_nat boff) data)), s)
                   end);
      match got with
      | None => Ok (false, [], s)
      | Some bytes =>
          '(ok, rest, s) ← read_loop fuel mnt mi (curr_off + chunk) (left - chunk) s;
          Ok (ok, bytes ++ rest, s)
      end
  end.

(** Enough rounds for [left] bytes: one for each block touched and one to stop. *)
Definition rounds (left : Z) : nat := Z.to_nat (left / MINIX_BLOCK_SIZE + 3).

Definition minix_read (mnt : minix_mount_info) (v : vfs_inode) (offset len : Z) (s : S) : outcome (Z * list Z * S) :=
  if offset >=? v_size v then Ok (0, [], s) else
  let len := Z.min len (v_size v - offset) in
  '(ok, bytes, s) ← read_loop (rounds len) mnt (v_info v) offset len s;
  Ok (if (ok : bool) then len else - EIO, bytes, s).

(** [for (i = 0; i < 512; i++) if (table[i] != 0) minix_safe_free_zone(mnt, table[i])]
    on the buffer [h], which is read again for every entry. *)
Fixpoint free_entries (n : nat) (i : Z) (mnt : minix_mount_info) (h : nat) (s : S) : outcome S :=
  match n with
  | O => Ok s
  | Datatypes.S n =>
      data ← bdata h s;
      z ← get16 data i;
      s ← (if negb (z =? 0) then minix_safe_free_zone mnt z s else Ok s);
      free_entries n (i + 1) mnt h s
  end.

Definition minix_free_indirect (mnt : minix_mount_info) (zone : Z) (s : S) : outcome S :=
  if zone =? 0 then Ok s else
  '(buf, s) ← bget (mnt_bdev mnt) zone s;
  match buf with
  | None => Ok s
  | Some h =>
      s ← free_entries 512 0 mnt h s;
      s ← bput h s;
      minix_safe_free_zone mnt zone s
  end.

Fixpoint free_indirects (n : nat) (i : Z) (mnt : minix_mount_info) (copy : list Z) (s : S) : outcome S :=
  match n with
  | O => Ok s
  | Datatypes.S n =>
      z ← get16 copy i;
      s ← (if negb (z =? 0) then minix_free_indirect mnt z s else Ok s);
      free_indirects n (i + 1) mnt copy s
  end.

Definition minix_free_double_indirect (mnt : minix_mount_info) (zone : Z) (s : S) : outcome S :=
  if zone =? 0 then Ok s else
  '(buf, s) ← bget (mnt_bdev mnt) zone s;
  match buf with
  | None => Ok s
  | Some h =>
      copy ← bdata h s;
      s ← bput h s;
      s ← free_indirects 512 0 mnt copy s;
      minix_safe_free_zone mnt zone s
  end.

(** [if (table[i] != 0) { minix_safe_free_zone(table[i]); table[i] = 0; mark dirty }] *)
Definition clear_entry (mnt : minix_mount_info) (h : nat) (i : Z) (s : S) : outcome S :=
  data ← bdata h s;
  z ← get16 data i;
  if negb (z =? 0) then
    s ← minix_safe_free_zone mnt z s;
    data ← bdata h s;
    bwrite h (put16 data i 0) s
  else Ok s.

Definition minix_clear_block_mapping (mnt : minix_mount_info) (mi : minix_inode_info) (lblk : Z) (s : S) : outcome (minix_inode_info * S) :=
  let per_block := 512 in
  if lblk <? 7 then
    z ← deref (i_zone (mi_raw mi) !! Z.to_nat lblk);
    if negb (z =? 0) then
      s ← minix_safe_free_zone mnt z s;
      Ok (Info (set_zone (Z.to_nat lblk) 0 (mi_raw mi)) (mi_dirty mi), s)
    else Ok (mi, s)
  else
  let lblk := lblk - 7 in
  if lblk <? per_block then
    z ← deref (i_zone (mi_raw mi) !! 7%nat);
    if z =? 0 then Ok (mi, s) else
    '(buf, s) ← bget (mnt_bdev mnt) z s;
    match buf with
    | None => Ok (mi, s)
    | Some h => s ← clear_entry mnt h lblk s; s ← bput h s; Ok (mi, s)
    end
  else
  let lblk := lblk - per_block in
  z ← deref (i_zone (mi_raw mi) !! 8%nat);
  if z =? 0 then Ok (mi, s) else
  '(buf, s) ← bget (mnt_bdev mnt) z s;
  match buf with
  | None => Ok (mi, s)
  | Some h =>
      data ← bdata h s;
      ind ← get16 data (lblk / per_block);
      s ← bput h s;
      if ind =? 0 then Ok (mi, s) else
      '(buf, s) ← bget (mnt_bdev mnt) ind s;
      match buf with
      | None => Ok (mi, s)
      | Some h => s ← clear_entry mnt h (lblk mod per_block) s; s ← bput h s; Ok (mi, s)
      end
  end.

Fixpoint entries_empty (n : nat) (i : Z) (data : list Z) : outcome bool :=
  match n with
  | O => Ok true
  | Datatypes.S n => z ← get16 data i; if negb (z =? 0) then Ok false else entries_empty n (i + 1) data
  end.

Definition minix_indirect_empty (mnt : minix_mount_info) (zone : Z) (s : S) : outcome (bool * S) :=
  if zone =? 0 then Ok (true, s) else
  '(buf, s) ← bget (mnt_bdev mnt) zone s;
  match buf with
  | None => Ok (false, s)
  | Some h =>
      data ← bdata h s;
      empty ← entries_empty 512 0 data;
      s ← bput h s;
      Ok (empty, s)
  end.

Fixpoint prune_entries (n : nat) (i : Z) (mnt : minix_mount_info) (h : nat) (s : S) : outcome S :=
  match n with
  | O => Ok s
  | Datatypes.S n =>
      data ← bdata h s;
      ind ← get16 data i;
      s ← (if negb (ind =? 0) then
             '(empty, s) ← minix_indirect_empty mnt ind s;
             if (empty : bool) then
               s ← minix_safe_free_zone mnt ind s;
               data ← bdata h s;
               bwrite h (put16 data i 0) s
             else Ok s
           else Ok s);
      prune_entries n (i + 1) mnt h s
  end.

Definition minix_prune_empty_indirects (mnt : minix_mount_info) (mi : minix_inode_info) (s : S) : outcome (minix_inode_info * S) :=
  z7 ← deref (i_zone (mi_raw mi) !! 7%nat);
  '(mi, s) ← (if negb (z7 =? 0) then
                '(empty, s) ← minix_indirect_empty mnt z7 s;
                if (empty : bool) then
                  s ← minix_safe_free_zone mnt z7 s;
                  Ok (Info (set_zone 7 0 (mi_raw mi)) (mi_dirty mi), s)
                else Ok (mi, s)
              else Ok (mi, s));
  z8 ← deref (i_zone (mi_raw mi) !! 8%nat);
  if z8 =? 0 then Ok (mi, s) else
  '(buf, s) ← bget (mnt_bdev mnt) z8 s;
  match buf with
  | None => Ok (mi, s)
  | Some h =>
      s ← prune_entries 512 0 mnt h s;
      s ← bput h s;
      '(empty, s) ← minix_indirect_empty mnt z8 s;
      if (empty : bool) then
        s ← minix_safe_free_zone mnt z8 s;
        Ok (Info (set_zone 8 0 (mi_raw mi)) (mi_dirty mi), s)
      else Ok (mi, s)
  end.

(** [for (i = first_lblk; i <= last_lblk; i++)]: the blocks created, and whether
    there was room for all. *)
Fixpoint create_blocks (n : nat) (i : Z) (mnt : minix_mount_info) (mi : minix_inode_info) (s : S) :
    outcome (bool * list Z * minix_inode_info * S) :=
  match n with
  | O => Ok (true, [], mi, s)
  | Datatypes.S n =>
      '(b, mi, s) ← minix_bmap mnt mi i false s;
      let missing := b =? 0 in
      '(pblk, mi, s) ← minix_bmap mnt mi i true s;
      if pblk =? 0 then Ok (false, [], mi, s) else
      '(ok, created, mi, s) ← create_blocks n (i + 1) mnt mi s;
      Ok (ok, if missing then i :: created else created, mi, s)
  end.

(** The copying loop: 0 or the error, and the bytes left. *)
Fixpoint write_loop (fuel : nat) (mnt : minix_mount_info) (mi : minix_inode_info) (curr_off left : Z) (p : list Z) (s : S) :
    outcome (Z * Z * S) :=
  match fuel with
  | O => NoFuel
  | Datatypes.S fuel =>
      if left =? 0 then Ok (0, 0, s) else
      let lblk := u32 (curr_off / MINIX_BLOCK_SIZE) in
      let boff := curr_off mod MINIX_BLOCK_SIZE in
      '(pblk, _, s) ← minix_bmap mnt mi lblk false s;
      let chunk := piece curr_off left in
      if pblk =? 0 then Ok (- EIO, left, s) else
      '(buf, s) ← bget (mnt_bdev mnt) pblk s;
      match buf with
      | None => Ok (- EIO, left, s)
      | Some h =>
          data ← bdata h s;
          s ← bwrite h (splice_bytes (Z.to_nat boff) (take (Z.to_nat chunk) p) data) s;
          s ← bput h s;
          write_loop fuel mnt mi (curr_off + chunk) (left - chunk) (drop (Z.to_nat chunk) p) s
      end
  end.

(** [rollback_data]: put the old bytes back, as far as that is possible. *)
Fixpoint rollback_loop (fuel : nat) (mnt : minix_mount_info) (mi : minix_inode_info) (curr_off left : Z) (backup : list Z) (s : S) : outcome S :=
  match fuel with
  | O => NoFuel
  | Datatypes.S fuel =>
      if left =? 0 then Ok s else
      let lblk := u32 (curr_off / MINIX_BLOCK_SIZE) in
      let boff := curr_off mod MINIX_BLOCK_SIZE in
      '(pblk, _, s) ← minix_bmap mnt mi lblk false s;
      let chunk := piece curr_off left in
      s ← (if pblk =? 0 then Ok s else
           '(buf, s) ← bget (mnt_bdev mnt) pblk s;
           match buf with
           | None => Ok s
           | Some h =>
               data ← bdata h s;
               s ← bwrite h (splice_bytes (Z.to_nat boff) (take (Z.to_nat chunk) backup) data) s;
               bput h s
           end);
      rollback_loop fuel mnt mi (curr_off + chunk) (left - chunk) (drop (Z.to_nat chunk) backup) s
  end.

Fixpoint clear_created (l : list Z) (mnt : minix_mount_info) (mi : minix_inode_info) (s : S) : outcome (minix_inode_info * S) :=
  match l with
  | [] => Ok (mi, s)
  | i :: l => '(mi, s) ← minix_clear_block_mapping mnt mi i s; clear_created l mnt mi s
  end.

(** [rollback_alloc] *)
Definition rollback_alloc (mnt : minix_mount_info) (v : vfs_inode) (mi : minix_inode_info) (created : list Z) (s : S) : outcome (vfs_inode * S) :=
  '(mi, s) ← clear_created created mnt mi s;
  '(mi, s) ← minix_prune_empty_indirects mnt mi s;
  Ok (with_info (Info (set_time (i_time (mi_raw (v_info v))) (set_size (u32 (v_size v)) (mi_raw mi))) true) v, s).

(** [buf] holds at least [len] bytes. *)
Definition minix_write (mnt : minix_mount_info) (v : vfs_inode) (offset len : Z) (buf : list Z) (f : fs S) : outcome (Z * vfs_inode * fs S) :=
  if len =? 0 then Ok (0, v, f) else
  let len := Z.min len MINIX_WRITE_MAX_CHUNK in
  if offset + len >=? 2 ^ 64 then Ok (- EINVAL, v, f) else
  let end_ := offset + len in
  if end_ >? 0xffffffff then Ok (- EINVAL, v, f) else
  let first_lblk := offset / MINIX_BLOCK_SIZE in
  let last_lblk := (end_ - 1) / MINIX_BLOCK_SIZE in
  let block_count := last_lblk - first_lblk + 1 in
  let '(ok, f) := next_kmem f in
  if negb ok then Ok (- ENOMEM, v, f) else
  let '(ok, f) := next_kmem f in
  if negb ok then Ok (- ENOMEM, v, f) else
  let fin s := Fs s (fs_kmem f) (fs_now f) in
  '(bad, backup, s) ← (if offset <? v_size v then
                         let read_len := Z.min len (v_size v - offset) in
                         '(n, bytes, s) ← minix_read mnt v offset read_len (fs_cache f);
                         Ok (negb (n =? read_len), bytes ++ replicate (Z.to_nat len - length bytes) 0, s)
                       else Ok (false, replicate (Z.to_nat len) 0, fs_cache f));
  if (bad : bool) then Ok (- EIO, v, fin s) else
  '(ok, created, mi, s) ← create_blocks (Z.to_nat block_count) first_lblk mnt (v_info v) s;
  if negb ok then
    '(v, s) ← rollback_alloc mnt v mi created s; Ok (- ENOSPC, v, fin s)
  else
  '(err, todo, s) ← write_loop (rounds len) mnt mi offset len buf s;
  if negb (err =? 0) then
    s ← rollback_loop (rounds len) mnt mi offset (len - todo) backup s;
    '(v, s) ← rollback_alloc mnt v mi created s;
    Ok (err, v, fin s)
  else
  let size := if end_ >? v_size v then end_ else v_size v in
  let raw := if end_ >? v_size v then set_size (u32 end_) (mi_raw mi) else mi_raw mi in
  Ok (len, Inode (v_ino v) size (v_is_dir v) (v_mode v) (v_uid v) (v_gid v) (Info (set_time (fs_now f) raw) true), fin s).

Fixpoint clear_range (n : nat) (i : Z) (mnt : minix_mount_info) (mi : minix_inode_info) (s : S) : outcome (minix_inode_info * S) :=
  match n with
  | O => Ok (mi, s)
  | Datatypes.S n => '(mi, s) ← minix_clear_block_mapping mnt mi i s; clear_range n (i + 1) mnt mi s
  end.

Definition resized (v : vfs_inode) (mi : minix_inode_info) (size now : Z) : vfs_inode :=
  Inode (v_ino v) size (v_is_dir v) (v_mode v) (v_uid v) (v_gid v) (Info (set_time now (set_size (u32 size) (mi_raw mi))) true).

Definition minix_truncate (mnt : minix_mount_info) (v : vfs_inode) (size : Z) (f : fs S) : outcome (Z * vfs_inode * fs S) :=
  let fin s := Fs s (fs_kmem f) (fs_now f) in
  if (size >? 0) && (size >? v_size v) then Ok (0, resized v (v_info v) size (fs_now f), f) else
  if size =? v_size v then Ok (0, v, f) else
  let keep_blocks := u32 (u64 (size + MINIX_BLOCK_SIZE - 1) / MINIX_BLOCK_SIZE) in
  if negb (keep_blocks =? 0) then
    let old_blocks := u32 (u64 (v_size v + MINIX_BLOCK_SIZE - 1) / MINIX_BLOCK_SIZE) in
    '(mi, s) ← clear_range (Z.to_nat (old_blocks - keep_blocks)) keep_blocks mnt (v_info v) (fs_cache f);
    '(mi, s) ← minix_prune_empty_indirects mnt mi s;
    Ok (0, resized v mi size (fs_now f), fin s)
  else
    '(mi, s) ← clear_range 7 0 mnt (v_info v) (fs_cache f);
    z7 ← deref (i_zone (mi_raw mi) !! 7%nat);
    s ← minix_free_indirect mnt z7 s;
    z8 ← deref (i_zone (mi_raw mi) !! 8%nat);
    s ← minix_free_double_indirect mnt z8 s;
    let mi := Info (set_zone 8 0 (set_zone 7 0 (mi_raw mi))) true in
    Ok (0, resized v mi size (fs_now f), fin s).

End Minix.
