(* ===== verification/MinixMap.v ===== *)
(** * The MINIX bitmaps

    Theory of [bitmap.c] over any block cache that keeps the contract
    [BlockCacheSpec]: allocation takes the first free index, freeing is its
    inverse. *)

From S2P Require Import Prelude Bufcache BufcacheSpec BufcacheSystem Minix.

(** ** Bits of a block *)

Definition byte_of (v : list Z) (i : Z) : Z := default 0 (v !! Z.to_nat i).
Definition bitv (v : list Z) (i : Z) : bool := Z.testbit (byte_of v (i / 8)) (i mod 8).

Lemma byte_at_spec v i : block_ok v → 0 ≤ i < 1024 → byte_at v i = Ok (byte_of v i) ∧ byte (byte_of v i).
Proof.
  intros [L B] Hi. unfold byte_at, byte_of. destruct (lookup_lt_is_Some_2 v (Z.to_nat i)) as [x Hx]; [lia|]. rewrite Hx. simpl.
  split; [done|]. by eapply Forall_lookup_1 in Hx.
Qed.

Lemma byte_of_insert v i j x : block_ok v → 0 ≤ i < 1024 → 0 ≤ j →
  byte_of (<[Z.to_nat i := x]> v) j = if decide (j = i) then x else byte_of v j.
Proof.
  intros [L B] Hi Hj. unfold byte_of. destruct (decide (j = i)) as [->|].
  - by rewrite list_lookup_insert_eq by lia.
  - by rewrite list_lookup_insert_ne by lia.
Qed.

Lemma block_ok_insert v i x : block_ok v → byte x → block_ok (<[i := x]> v).
Proof. intros [L B] Hx. split; [by rewrite length_insert|by apply Forall_insert]. Qed.

Lemma bit_pos i : 0 ≤ i < 8192 → 0 ≤ i / 8 < 1024 ∧ 0 ≤ i mod 8 < 8.
Proof. intros. pose proof (Z.div_mod i 8). pose proof (Z.mod_pos_bound i 8). lia. Qed.

Lemma has_shift b k : 0 ≤ k → has b (Z.shiftl 1 k) = Z.testbit b k.
Proof. intros. rewrite Z.shiftl_1_l. by apply has_testbit. Qed.

(** A byte with one bit changed is a byte. *)
Lemma byte_testbit b : byte b ↔ 0 ≤ b ∧ ∀ i, 8 ≤ i → Z.testbit b i = false.
Proof.
  unfold byte. split.
  - intros H. split; [lia|]. intros i Hi. destruct (decide (b = 0)) as [->|]; [apply Z.testbit_0_l|].
    apply Z.bits_above_log2; [lia|]. apply Z.log2_lt_pow2; [lia|]. apply Z.lt_le_trans with (2 ^ 8); [lia|]. by apply Z.pow_le_mono_r.
  - intros [H0 H]. split; [done|]. destruct (Z.lt_ge_cases b 256) as [|Hb]; [done|exfalso].
    assert (8 ≤ Z.log2 b) by (apply Z.log2_le_pow2; lia). specialize (H _ H1). rewrite Z.bit_log2 in H by lia. done.
Qed.

Lemma byte_lor b k : byte b → 0 ≤ k < 8 → byte (Z.lor b (Z.shiftl 1 k)).
Proof.
  rewrite !byte_testbit. intros [H0 H] Hk. rewrite Z.shiftl_1_l. split; [apply Z.lor_nonneg; split; [done|apply Z.pow_nonneg; lia]|].
  intros i Hi. by rewrite Z.lor_spec, H, Z.pow2_bits_false by lia.
Qed.

Lemma byte_ldiff b k : byte b → 0 ≤ k → byte (Z.ldiff b (Z.shiftl 1 k)).
Proof.
  rewrite !byte_testbit. intros [H0 H] Hk. split; [apply Z.ldiff_nonneg; by left|]. intros i Hi. by rewrite Z.ldiff_spec, H.
Qed.

Lemma test_bit_spec v i : block_ok v → 0 ≤ i < 8192 → minix_test_bit v i = Ok (bitv v i).
Proof.
  intros B Hi. destruct (bit_pos i Hi). unfold minix_test_bit. destruct (byte_at_spec v (i / 8) B) as [-> _]; [done|].
  cbn [mbind outcome_bind]. unfold bitv. by rewrite has_shift by lia.
Qed.

(** [v'] is [v] with bit [i] set to [b]. *)
Definition bit_changed (v v' : list Z) (i : Z) (b : bool) : Prop :=
  block_ok v' ∧ ∀ j, 0 ≤ j < 8192 → bitv v' j = if decide (j = i) then b else bitv v j.

Lemma change_bit v i f b : block_ok v → 0 ≤ i < 8192 → byte (f (byte_of v (i / 8))) →
  (∀ k, 0 ≤ k < 8 → Z.testbit (f (byte_of v (i / 8))) k = if decide (k = i mod 8) then b else Z.testbit (byte_of v (i / 8)) k) →
  bit_changed v (<[Z.to_nat (i / 8) := f (byte_of v (i / 8))]> v) i b.
Proof.
  intros B Hi Hf Hk. destruct (bit_pos i Hi). split; [by apply block_ok_insert|]. intros j Hj. destruct (bit_pos j Hj).
  unfold bitv. rewrite byte_of_insert by (done || lia). destruct (decide (j / 8 = i / 8)) as [E|E].
  - rewrite Hk by done. rewrite E. pose proof (Z.div_mod i 8). pose proof (Z.div_mod j 8). repeat case_decide; try done; lia.
  - case_decide as D; [by subst|done].
Qed.

Lemma set_bit_spec v i : block_ok v → 0 ≤ i < 8192 → ∃ v', minix_set_bit v i = Ok v' ∧ bit_changed v v' i true.
Proof.
  intros B Hi. destruct (bit_pos i Hi). unfold minix_set_bit. destruct (byte_at_spec v (i / 8) B) as [-> Hb]; [done|].
  eexists. split; [done|]. apply (change_bit v i (λ b, Z.lor b (Z.shiftl 1 (i mod 8)))); [done|done|by apply byte_lor|]. intros k Hk. rewrite Z.lor_spec, Z.shiftl_1_l, Z.pow2_bits_eqb by lia.
  destruct (Z.eqb_spec (i mod 8) k), (decide (k = i mod 8)); try lia; by rewrite ?orb_true_r, ?orb_false_r.
Qed.

Lemma clear_bit_spec v i : block_ok v → 0 ≤ i < 8192 → ∃ v', minix_clear_bit v i = Ok v' ∧ bit_changed v v' i false.
Proof.
  intros B Hi. destruct (bit_pos i Hi). unfold minix_clear_bit. destruct (byte_at_spec v (i / 8) B) as [-> Hb]; [done|].
  eexists. split; [done|]. apply (change_bit v i (λ b, Z.ldiff b (Z.shiftl 1 (i mod 8)))); [done|done|apply byte_ldiff; [done|lia]|]. intros k Hk. rewrite Z.ldiff_spec, Z.shiftl_1_l, Z.pow2_bits_eqb by lia.
  destruct (Z.eqb_spec (i mod 8) k), (decide (k = i mod 8)); try lia; by rewrite ?andb_true_r, ?andb_false_r.
Qed.

(** Two blocks with the same bits are equal. *)
Lemma bits_ext v v' : block_ok v → block_ok v' → (∀ j, 0 ≤ j < 8192 → bitv v' j = bitv v j) → v' = v.
Proof.
  intros B B' E. apply list_eq_same_length with 1024%nat; [by rewrite (proj1 B)|by rewrite (proj1 B')|]. intros i y x Hi Hy Hx.
  assert (∀ w, block_ok w → ∀ z, w !! i = Some z → byte_of w (Z.of_nat i) = z ∧ byte z) as Hw.
  { intros w Bw z Hz. unfold byte_of. rewrite Nat2Z.id, Hz. split; [done|]. by eapply (Forall_lookup_1 _ _ _ _ (proj2 Bw)). }
  destruct (Hw v' B' y Hy) as [E1 [Y0 Y]%byte_testbit], (Hw v B x Hx) as [E2 [X0 X]%byte_testbit]. subst x y. apply Z.bits_inj'. intros k Hk.
  destruct (Z.lt_ge_cases k 8); [|by rewrite Y, X]. specialize (E (8 * Z.of_nat i + k) ltac:(lia)). unfold bitv in E.
  replace ((8 * Z.of_nat i + k) / 8) with (Z.of_nat i) in E by (apply Z.div_unique with k; lia).
  by replace ((8 * Z.of_nat i + k) mod 8) with k in E by (apply Z.mod_unique with (Z.of_nat i); lia).
Qed.

Lemma bit_change_back v v1 v2 i b : block_ok v → 0 ≤ i < 8192 → bitv v i = b → bit_changed v v1 i (negb b) → bit_changed v1 v2 i b → v2 = v.
Proof.
  intros B Hi Hb [_ H1] [B2 H2]. apply bits_ext; [done..|]. intros j Hj. rewrite H2 by done. case_decide as D; [by subst|].
  rewrite H1 by done. by rewrite decide_False.
Qed.

(** The scan finds the first clear bit. *)
Lemma scan_bits_spec n bit base limit v : block_ok v → 0 ≤ bit → Z.of_nat n = 8192 - bit → 0 ≤ base → base + 8192 ≤ 2 ^ 32 →
  ∃ r, scan_bits n bit base limit v = Ok r ∧
    match r with
    | Some k => bit ≤ k < 8192 ∧ 0 < base + k ≤ limit ∧ bitv v k = false ∧ ∀ j, bit ≤ j < k → base + j ≠ 0 → bitv v j = true
    | None => ∀ j, bit ≤ j < 8192 → 0 < base + j ≤ limit → bitv v j = true
    end.
Proof.
  intros B. revert bit. induction n as [|n IH]; intros bit H0 Hn Hb Hb'; cbn [scan_bits].
  { exists None. split; [done|]. intros. lia. }
  unfold u32. rewrite Z.mod_small by lia. specialize (IH (bit + 1) ltac:(lia) ltac:(lia) Hb Hb').
  assert (∀ r, scan_bits n (bit + 1) base limit v = Ok r → bitv v bit = true ∨ base + bit = 0 →
    match r with
    | Some k => bit ≤ k < 8192 ∧ 0 < base + k ≤ limit ∧ bitv v k = false ∧ ∀ j, bit ≤ j < k → base + j ≠ 0 → bitv v j = true
    | None => ∀ j, bit ≤ j < 8192 → 0 < base + j ≤ limit → bitv v j = true
    end) as Hrec.
  { intros r Hr Hbit. destruct IH as (r' & E & IH). rewrite Hr in E. simplify_eq. destruct r' as [k|].
    - destruct IH as (? & ? & ? & Hj). split_and!; try done; try lia. intros j Hj1 Hj2. destruct (decide (j = bit)) as [->|]; [|apply Hj; [lia|done]].
      destruct Hbit; [done|lia].
    - intros j Hj1 Hj2. destruct (decide (j = bit)) as [->|]; [|apply IH; lia]. destruct Hbit; [done|lia]. }
  destruct IH as (r & E & _). destruct (Z.eqb_spec (base + bit) 0); [exists r; split; [done|by apply Hrec; [|right]]|].
  destruct (Z.gtb_spec (base + bit) limit); [exists None; split; [done|]; intros; lia|].
  rewrite (test_bit_spec v bit) by (done || lia). cbn [mbind outcome_bind]. destruct (bitv v bit) eqn:Eb.
  - exists r. split; [done|apply Hrec; auto].
  - exists (Some bit). split; [done|]. split_and!; try done; try lia.
Qed.

(** ** Bitmaps that span blocks *)

(** The state of the cache, with the promise that the device answers. *)
Section Map.
Context {S : Type} {BC : BlockCache S} {CS : BlockCacheSpec S}.

Definition st (rdy : bool) (d : Z) (s : S) (V : gmap key (list Z)) (R : list hold) : Prop :=
  cst s V R ∧ Z.of_nat (length R) < 2 ^ 30 ∧ if rdy then cready d s ∧ (length R ≤ 8)%nat else True.

Definition blk (V : gmap key (list Z)) (d b : Z) : list Z := default [] (V !! (d, b)).

Lemma wp_bget rdy d s V R b : st rdy d s V R → has_dev V d → 0 ≤ b → (length R < 8)%nat →
  wp (bget d b s) (λ '(r, s'), match r with
    | Some h => st rdy d s' V ((h, (d, b)) :: R) ∧ is_Some (V !! (d, b))
    | None => st rdy d s' V R ∧ (rdy = true → V !! (d, b) = None)
    end).
Proof.
  intros (C & L & Hr) Hd Hb HR. destruct (bget_spec s V R d b C Hd Hb ltac:(lia)) as (r & s' & -> & H & Hr'). apply wp_Ok.
  destruct r as [h|].
  - destruct H as [C' Hs]. split; [|done]. split; [done|]. simpl. split; [lia|]. destruct rdy; [|done]. split; [apply Hr', Hr|lia].
  - split; [split; [done|]; split; [lia|]; destruct rdy; [|done]; split; [apply Hr', Hr|lia]|]. intros ->.
    destruct (V !! (d, b)) eqn:E; [|done]. destruct Hr as [Hr _]. destruct (Hr' Hr) as [_ Hs].
    destruct Hs as [? ?]; [lia|by eexists|done].
Qed.

Lemma wp_bdata rdy d s V R h k : st rdy d s V R → (h, k) ∈ R →
  wp (bdata h s) (λ v, V !! k = Some v ∧ block_ok v).
Proof.
  intros (C & _) Hin. destruct (bdata_spec s V R h k C Hin) as (v & -> & Hv). apply wp_Ok. split; [done|]. by eapply cst_block.
Qed.

Lemma wp_bwrite rdy d b s V R h v : st rdy d s V R → (h, (d, b)) ∈ R → block_ok v →
  wp (bwrite h v s) (λ s', st rdy d s' (<[(d, b) := v]> V) R).
Proof.
  intros (C & L & Hr) Hin Hv. destruct (bwrite_spec s V R h (d, b) v C Hin Hv ltac:(lia)) as (s' & -> & C' & Hr'). apply wp_Ok.
  split; [done|]. split; [done|]. destruct rdy; [|done]. split; [apply Hr', Hr|apply Hr].
Qed.

Lemma wp_bput rdy d s V R h k : st rdy d s V ((h, k) :: R) → wp (bput h s) (λ s', st rdy d s' V R).
Proof.
  intros (C & L & Hr). destruct (bput_spec s V R h k C) as (s' & -> & C' & Hr'). apply wp_Ok. simpl in L.
  split; [done|]. split; [lia|]. destruct rdy; [|done]. split; [apply Hr', Hr|simpl in Hr; lia].
Qed.

Lemma st_dev rdy d s V R b v : st rdy d s V R → V !! (d, b) = Some v → has_dev V d ∧ block_ok v.
Proof. intros (C & _) H1. split; [exists b; by eexists|by eapply cst_block]. Qed.

Lemma has_dev_insert V d d' b v : has_dev V d → has_dev (<[(d', b) := v]> V) d.
Proof.
  intros [b' Hb]. exists b'. destruct (decide ((d', b) = (d, b'))) as [->|]; [rewrite lookup_insert_eq; by eexists|by rewrite lookup_insert_ne].
Qed.

(** Index [idx] of the map that starts at block [start]. *)
Definition mbit (V : gmap key (list Z)) (d start idx : Z) : bool := bitv (blk V d (start + idx / 8192)) (idx mod 8192).

(** [V'] is [V] with index [idx] set to [b]. *)
Definition map_changed (V V' : gmap key (list Z)) (d start idx : Z) (b : bool) : Prop :=
  ∃ v v', V !! (d, start + idx / 8192) = Some v ∧ V' = <[(d, start + idx / 8192) := v']> V ∧ bit_changed v v' (idx mod 8192) b.

Lemma idx_pos idx : 0 ≤ idx → 0 ≤ idx / 8192 ∧ 0 ≤ idx mod 8192 < 8192.
Proof. intros. pose proof (Z.mod_pos_bound idx 8192 ltac:(lia)). split; [apply Z.div_pos; lia|lia]. Qed.

Lemma map_changed_mbit V V' d start idx b j : 0 ≤ idx → 0 ≤ j → map_changed V V' d start idx b →
  mbit V' d start j = if decide (j = idx) then b else mbit V d start j.
Proof.
  intros H0 Hj (v & v' & Hv & -> & _ & Hb). destruct (idx_pos idx H0), (idx_pos j Hj). unfold mbit, blk.
  destruct (decide (j / 8192 = idx / 8192)) as [E|E].
  - rewrite E, lookup_insert_eq, Hv. simpl. rewrite Hb by done.
    pose proof (Z.div_mod idx 8192). pose proof (Z.div_mod j 8192). repeat case_decide; try done; lia.
  - rewrite lookup_insert_ne by (intros [= ?]; lia). case_decide; [by subst|done].
Qed.

(** Setting a free index and clearing it again restores the block exactly. *)
Lemma map_change_back V V1 V2 d start idx v : V !! (d, start + idx / 8192) = Some v → block_ok v → 0 ≤ idx →
  mbit V d start idx = false → map_changed V V1 d start idx true → map_changed V1 V2 d start idx false → V2 = V.
Proof.
  intros Hv Bv H0 Hm (w & w' & Hw & -> & Bc) (u & u' & Hu & -> & Bd). rewrite lookup_insert_eq in Hu. injection Hu as <-. rewrite Hv in Hw. injection Hw as <-.
  destruct (idx_pos idx H0). rewrite insert_insert_eq. rewrite (bit_change_back v w' u' (idx mod 8192) false); try done; [by apply insert_id|].
  unfold mbit, blk in Hm. by rewrite Hv in Hm.
Qed.

(** [alloc_blocks] from block [blk] on. *)
Lemma alloc_blocks_spec rdy d start limit n k s V R : st rdy d s V R → has_dev V d → (length R < 8)%nat →
  0 ≤ k → k + Z.of_nat n ≤ 65536 → 0 ≤ start ≤ 2 ^ 20 →
  (rdy = true → ∀ j, k ≤ j < k + Z.of_nat n → is_Some (V !! (d, start + j))) →
  wp (alloc_blocks n k d start limit s) (λ '(idx, s'),
    idx = 0 ∧ st rdy d s' V R ∧ (rdy = true → ∀ j, k * 8192 ≤ j < (k + Z.of_nat n) * 8192 → 0 < j ≤ limit → mbit V d start j = true) ∨
    0 < idx ≤ limit ∧ k * 8192 ≤ idx < (k + Z.of_nat n) * 8192 ∧ mbit V d start idx = false ∧
      (∀ j, k * 8192 ≤ j < idx → 0 < j → mbit V d start j = true) ∧
      ∃ V', st rdy d s' V' R ∧ map_changed V V' d start idx true).
Proof.
  revert k s. induction n as [|n IH]; intros k s C Hd HR Hk Hn Hs HV; cbn [alloc_blocks].
  { apply wp_Ok. left. split_and!; [done..|]. intros. lia. }
  unfold MINIX_BITS_PER_BLOCK, u32. rewrite !(Z.mod_small _ (2 ^ 32)) by lia.
  wp_step (wp_bget _ _ _ _ _ (start + k) C Hd ltac:(lia) HR) as [[h|] s1].
  2: { intros [C1 Hno]. apply wp_Ok. left. split_and!; [done..|]. intros Hr. destruct (HV Hr k ltac:(lia)) as [? E]. by rewrite (Hno Hr) in E. }
  intros [C1 [v Hv]].
  wp_step (wp_bdata _ _ _ _ _ h (d, start + k) C1 (list_elem_of_here _ _)) as v'. intros [Hv' Bv]. rewrite Hv in Hv'. simplify_eq.
  destruct (scan_bits_spec (Z.to_nat 8192) 0 (k * 8192) limit v' Bv) as (r & -> & Hr); [lia..|]. cbn [mbind outcome_bind].
  assert (∀ j, 0 ≤ j < 8192 → mbit V d start (k * 8192 + j) = bitv v' j) as Hbit.
  { intros j Hj. unfold mbit, blk. replace ((k * 8192 + j) / 8192) with k by (apply Z.div_unique with j; lia).
    replace ((k * 8192 + j) mod 8192) with j by (apply Z.mod_unique with k; lia). by rewrite Hv. }
  assert (∀ j, k * 8192 ≤ j < (k + 1) * 8192 → mbit V d start j = bitv v' (j - k * 8192)) as Hbit'.
  { intros j Hj. rewrite <- Hbit by lia. f_equal. lia. }
  destruct r as [bit|].
  - destruct Hr as (Hb1 & Hb2 & Hb3 & Hb4). destruct (set_bit_spec v' bit Bv ltac:(lia)) as (w & -> & Bw). cbn [mbind outcome_bind].
    wp_step (wp_bwrite _ _ _ _ _ _ _ w C1 (list_elem_of_here _ _) (proj1 Bw)) as s2. intros C2.
    wp_step (wp_bput _ _ _ _ _ _ _ C2) as s3. intros C3. apply wp_Ok. right. rewrite Z.mod_small by lia. split_and!; try lia.
    + by rewrite Hbit by lia.
    + intros j Hj Hj0. rewrite Hbit' by lia. apply Hb4; lia.
    + eexists. split; [exact C3|]. exists v', w. replace ((k * 8192 + bit) / 8192) with k by (apply Z.div_unique with bit; lia).
      by replace ((k * 8192 + bit) mod 8192) with bit by (apply Z.mod_unique with k; lia).
  - wp_step (wp_bput _ _ _ _ _ _ _ C1) as s2. intros C2.
    eapply wp_mono; [apply (IH (k + 1) s2 C2 Hd HR); try lia; intros Hr' j Hj; apply HV; [done|lia]|].
    assert (∀ j, k * 8192 ≤ j < (k + 1) * 8192 → 0 < j ≤ limit → mbit V d start j = true) as Hfull.
    { intros j Hj Hj0. rewrite Hbit' by done. apply Hr; lia. }
    intros [idx s3] [(-> & C3 & Hall)|(H1 & H2 & H3 & H4 & H5)]; [left|right].
    + split_and!; [done..|]. intros Hr' j Hj Hj0. destruct (Z.lt_ge_cases j ((k + 1) * 8192)); [apply Hfull; lia|]. apply Hall; [done|lia|done].
    + split_and!; try done; try lia. intros j Hj Hj0. destruct (Z.lt_ge_cases j ((k + 1) * 8192)); [apply Hfull; lia|]. apply H4; lia.
Qed.

Lemma free_from_map_spec mnt s V R start idx v : st true (mnt_bdev mnt) s V R → (length R < 8)%nat → 0 ≤ start ≤ 2 ^ 20 → 0 ≤ idx < 2 ^ 20 →
  V !! (mnt_bdev mnt, start + idx / 8192) = Some v → mbit V (mnt_bdev mnt) start idx = true →
  wp (minix_free_from_map mnt start idx s) (λ s', ∃ V', st true (mnt_bdev mnt) s' V' R ∧ map_changed V V' (mnt_bdev mnt) start idx false).
Proof.
  intros C HR Hs Hi Hv Hm. destruct (idx_pos idx ltac:(lia)) as [P1 P2]. destruct (st_dev _ _ _ _ _ _ _ C Hv) as [Hd Bv].
  assert (idx / 8192 < 2 ^ 20) by (apply Z.div_lt_upper_bound; lia).
  unfold minix_free_from_map, MINIX_BITS_PER_BLOCK, u32. rewrite (Z.mod_small _ (2 ^ 32)) by lia.
  wp_step (wp_bget _ _ _ _ _ (start + idx / 8192) C Hd ltac:(lia) HR) as [[h|] s1].
  2: { intros [_ Hno]. by rewrite Hno in Hv. }
  intros [C1 _]. wp_step (wp_bdata _ _ _ _ _ h _ C1 (list_elem_of_here _ _)) as w. intros [Hw _]. rewrite Hv in Hw. injection Hw as <-.
  rewrite (test_bit_spec v) by done. cbn [mbind outcome_bind]. unfold mbit, blk in Hm. rewrite Hv in Hm. simpl in Hm. rewrite Hm. cbn [negb].
  destruct (clear_bit_spec v (idx mod 8192) Bv P2) as (w & -> & Bw). cbn [mbind outcome_bind].
  wp_step (wp_bwrite _ _ _ _ _ _ _ w C1 (list_elem_of_here _ _) (proj1 Bw)) as s2. intros C2.
  eapply wp_mono; [apply (wp_bput _ _ _ _ _ _ _ C2)|]. intros s3 C3. eexists. split; [exact C3|]. by exists v, w.
Qed.

(** Freeing a free index stops the kernel. *)
Lemma double_free_panics mnt s V R start idx v : st true (mnt_bdev mnt) s V R → (length R < 8)%nat → 0 ≤ start ≤ 2 ^ 20 → 0 ≤ idx < 2 ^ 20 →
  V !! (mnt_bdev mnt, start + idx / 8192) = Some v → mbit V (mnt_bdev mnt) start idx = false → minix_free_from_map mnt start idx s = Panic.
Proof.
  intros C HR Hs Hi Hv Hm. destruct (idx_pos idx ltac:(lia)) as [P1 P2]. destruct (st_dev _ _ _ _ _ _ _ C Hv) as [Hd Bv].
  assert (idx / 8192 < 2 ^ 20) by (apply Z.div_lt_upper_bound; lia).
  unfold minix_free_from_map, MINIX_BITS_PER_BLOCK, u32. rewrite (Z.mod_small _ (2 ^ 32)) by lia.
  destruct (wp_bget _ _ _ _ _ (start + idx / 8192) C Hd ltac:(lia) HR) as ([[h|] s1] & -> & Hg).
  2: { destruct Hg as [_ Hno]. by rewrite Hno in Hv. }
  destruct Hg as [C1 _]. cbn [mbind outcome_bind]. destruct (wp_bdata _ _ _ _ _ h _ C1 (list_elem_of_here _ _)) as (w & -> & Hw & _). rewrite Hv in Hw. injection Hw as <-.
  cbn [mbind outcome_bind]. rewrite (test_bit_spec v) by done. cbn [mbind outcome_bind]. unfold mbit, blk in Hm. rewrite Hv in Hm. simpl in Hm. by rewrite Hm.
Qed.

(** ** Mounted file systems *)

Record sb_ok (sb : minix_super) : Prop := {
  so_ninodes : 0 < s_ninodes sb < 65536;
  so_nzones : 0 < s_nzones sb < 65536;
  so_imap : 0 < s_imap_blocks sb < 65536;
  so_zmap : 0 < s_zmap_blocks sb < 65536;
  so_first : 2 + s_imap_blocks sb + s_zmap_blocks sb + (s_ninodes sb * 32 + 1023) / 1024 ≤ s_firstdatazone sb < s_nzones sb
}.

(** The bitmaps are large enough, as the tools that make file systems see to. *)
Definition maps_cover (sb : minix_super) : Prop :=
  s_ninodes sb < s_imap_blocks sb * 8192 ∧ s_nzones sb - s_firstdatazone sb < s_zmap_blocks sb * 8192.

Definition mnt_ok (V : gmap key (list Z)) (mnt : minix_mount_info) : Prop :=
  sb_ok (mnt_sb mnt) ∧ mnt_inodes_start mnt = 2 + s_imap_blocks (mnt_sb mnt) + s_zmap_blocks (mnt_sb mnt) ∧
  ∀ b, 0 ≤ b < s_nzones (mnt_sb mnt) → is_Some (V !! (mnt_bdev mnt, b)).

Lemma mnt_ok_dev V mnt : mnt_ok V mnt → has_dev V (mnt_bdev mnt).
Proof. intros ([] & _ & Hb). exists 0. apply Hb. lia. Qed.

Lemma mnt_ok_insert V mnt b v : mnt_ok V mnt → mnt_ok (<[(mnt_bdev mnt, b) := v]> V) mnt.
Proof.
  intros (Hs & Hi & Hb). split_and!; try done. intros b' Hb'. destruct (decide (b = b')) as [->|]; [rewrite lookup_insert_eq; by eexists|].
  rewrite lookup_insert_ne by congruence. auto.
Qed.

(** The zone map: zone [z] has index [z - firstdatazone + 1]. *)
Definition zmap_start (mnt : minix_mount_info) : Z := 2 + s_imap_blocks (mnt_sb mnt).
Definition zindex (mnt : minix_mount_info) (z : Z) : Z := z - s_firstdatazone (mnt_sb mnt) + 1.
Definition marked (V : gmap key (list Z)) (mnt : minix_mount_info) (z : Z) : bool := mbit V (mnt_bdev mnt) (zmap_start mnt) (zindex mnt z).

Lemma zone_valid_iff sb z : zone_valid sb z = true ↔ s_firstdatazone sb ≤ z < s_nzones sb.
Proof. unfold zone_valid. rewrite andb_true_iff, Z.leb_le, Z.ltb_lt. done. Qed.

(** The block that holds the bit of a zone is below the data. *)
Lemma zmap_block V mnt z : mnt_ok V mnt → maps_cover (mnt_sb mnt) → zone_valid (mnt_sb mnt) z = true →
  0 ≤ zindex mnt z < 2 ^ 20 ∧ 0 ≤ zmap_start mnt ≤ 2 ^ 20 ∧
  0 ≤ zmap_start mnt + zindex mnt z / 8192 < s_firstdatazone (mnt_sb mnt) ∧ is_Some (V !! (mnt_bdev mnt, zmap_start mnt + zindex mnt z / 8192)).
Proof.
  intros ([N1 N2 N3 N4 N5] & _ & Hb) [_ Hc] Hz%zone_valid_iff. unfold zindex, zmap_start.
  assert (0 ≤ (z - s_firstdatazone (mnt_sb mnt) + 1) / 8192 < s_zmap_blocks (mnt_sb mnt)) as Hq
    by (split; [apply Z.div_pos; lia|apply Z.div_lt_upper_bound; lia]).
  assert (0 ≤ (s_ninodes (mnt_sb mnt) * 32 + 1023) / 1024) by (apply Z.div_pos; lia). split_and!; try lia. apply Hb. lia.
Qed.

(** Allocating a zone: none left, or a free one that is now taken. *)
Lemma alloc_zone_spec mnt s V R : st true (mnt_bdev mnt) s V R → (length R < 8)%nat → mnt_ok V mnt → maps_cover (mnt_sb mnt) →
  wp (minix_alloc_zone mnt s) (λ '(z, s'),
    z = 0 ∧ st true (mnt_bdev mnt) s' V R ∧ (∀ z', zone_valid (mnt_sb mnt) z' = true → marked V mnt z' = true) ∨
    zone_valid (mnt_sb mnt) z = true ∧ marked V mnt z = false ∧
      (∀ z', zone_valid (mnt_sb mnt) z' = true → z' < z → marked V mnt z' = true) ∧
      ∃ V', st true (mnt_bdev mnt) s' V' R ∧ map_changed V V' (mnt_bdev mnt) (zmap_start mnt) (zindex mnt z) true).
Proof.
  intros C HR HM HC. pose proof HM as ([N1 N2 N3 N4 N5] & _ & Hb). destruct HC as [_ HC]. unfold minix_alloc_zone, minix_alloc_from_map. set (sb := mnt_sb mnt) in *.
  assert (0 ≤ (s_ninodes sb * 32 + 1023) / 1024) by (apply Z.div_pos; lia).
  cbv zeta. fold sb. replace (u32 (s_nzones sb - s_firstdatazone sb)) with (s_nzones sb - s_firstdatazone sb) by (unfold u32; rewrite Z.mod_small; lia).
  wp_step (alloc_blocks_spec true (mnt_bdev mnt) (2 + s_imap_blocks sb) (s_nzones sb - s_firstdatazone sb) (Z.to_nat (s_zmap_blocks sb)) 0 s V R C (mnt_ok_dev _ _ HM) HR) as [idx s1];
    [lia|lia|lia|intros _ j Hj; apply Hb; lia|].
  intros [(-> & C1 & Hall)|(H1 & H2 & H3 & H4 & V' & C1 & Hc)].
  - cbn. apply wp_Ok. left. split_and!; [done..|]. intros z' Hz%zone_valid_iff. unfold marked, zindex, zmap_start. fold sb. apply Hall; [done|lia|]. fold sb in Hz. lia.
  - destruct (Z.eqb_spec idx 0); [lia|]. apply wp_Ok. right. unfold u32. rewrite Z.mod_small by lia. fold sb.
    assert (zindex mnt (s_firstdatazone sb + idx - 1) = idx) as Ei by (unfold zindex; fold sb; lia). unfold marked. rewrite Ei.
    split_and!; [by apply zone_valid_iff; fold sb; lia|done| |by exists V'].
    intros z' Hz%zone_valid_iff Hlt. fold sb in Hz. unfold zindex, zmap_start. fold sb. apply H4; lia.
Qed.

Lemma free_zone_spec mnt s V R z : st true (mnt_bdev mnt) s V R → (length R < 8)%nat → mnt_ok V mnt → maps_cover (mnt_sb mnt) →
  zone_valid (mnt_sb mnt) z = true → marked V mnt z = true →
  wp (minix_free_zone mnt z s) (λ s', ∃ V', st true (mnt_bdev mnt) s' V' R ∧ map_changed V V' (mnt_bdev mnt) (zmap_start mnt) (zindex mnt z) false).
Proof.
  intros C HR HM HC Hz Hm. destruct (zmap_block V mnt z HM HC Hz) as (H1 & H2 & _ & [v Hv]). unfold minix_free_zone.
  pose proof Hz as Hz'%zone_valid_iff. destruct (Z.ltb_spec z (s_firstdatazone (mnt_sb mnt))); [lia|]. destruct (Z.geb_spec z (s_nzones (mnt_sb mnt))); [lia|]. cbn [orb].
  by eapply free_from_map_spec.
Qed.
End Map.
