(* ===== verification/MinixRead.v ===== *)
(** * Reading MINIX files

    The block map of an inode as a function of the disk, and [minix_read]
    against it. *)

From S2P Require Import Prelude Bufcache BufcacheSpec BufcacheSystem Minix MinixMap.

(** ** 16-bit entries *)

Definition word (v : list Z) (i : Z) : Z := byte_of v (2 * i) + 256 * byte_of v (2 * i + 1).

Lemma get16_spec v i : block_ok v → 0 ≤ i < 512 → get16 v i = Ok (word v i) ∧ 0 ≤ word v i < 65536.
Proof.
  intros B Hi. unfold get16, word. destruct (byte_at_spec v (2 * i) B) as [-> H1]; [lia|]. cbn [mbind outcome_bind].
  destruct (byte_at_spec v (2 * i + 1) B) as [-> H2]; [lia|]. cbn [mbind outcome_bind]. unfold byte in *. split; [done|lia].
Qed.

Lemma put16_spec v i x : block_ok v → 0 ≤ i < 512 → 0 ≤ x < 65536 →
  block_ok (put16 v i x) ∧ ∀ j, 0 ≤ j < 512 → word (put16 v i x) j = if decide (j = i) then x else word v j.
Proof.
  intros B Hi Hx. unfold put16. pose proof (Z.mod_pos_bound x 256 ltac:(lia)). pose proof (Z.mod_pos_bound (x / 256) 256 ltac:(lia)).
  assert (block_ok (<[Z.to_nat (2 * i) := x mod 256]> v)) as B1 by by apply block_ok_insert. split; [by apply block_ok_insert|].
  intros j Hj. unfold word. rewrite !(byte_of_insert _ (2 * i + 1)) by (done || lia). rewrite !(byte_of_insert v (2 * i)) by (done || lia).
  repeat case_decide; try lia; try done. assert (0 ≤ x / 256 < 256) by (split; [apply Z.div_pos; lia|apply Z.div_lt_upper_bound; lia]).
  rewrite (Z.mod_small (x / 256)) by done. pose proof (Z.div_mod x 256). lia.
Qed.

(** Two blocks with the same entries are equal. *)
Lemma words_ext v v' : block_ok v → block_ok v' → (∀ j, 0 ≤ j < 512 → word v' j = word v j) → v' = v.
Proof.
  intros B B' E. apply list_eq_same_length with 1024%nat; [apply B|apply B'|]. intros i y x Hi Hy Hx.
  assert (∀ w z, w !! i = Some z → byte_of w (Z.of_nat i) = z) as Hw by (intros w z Hz; unfold byte_of; by rewrite Nat2Z.id, Hz).
  rewrite <- (Hw _ _ Hx), <- (Hw _ _ Hy). set (j := Z.of_nat i / 2). pose proof (Z.div_mod (Z.of_nat i) 2). pose proof (Z.mod_pos_bound (Z.of_nat i) 2 ltac:(lia)).
  assert (0 ≤ j < 512) as Hj by (subst j; split; [apply Z.div_pos; lia|apply Z.div_lt_upper_bound; lia]). specialize (E j Hj). unfold word in E.
  assert (∀ k, 0 ≤ k < 1024 → byte (byte_of v k) ∧ byte (byte_of v' k)) as Hb by (intros k Hk; split; [apply (byte_at_spec v k B Hk)|apply (byte_at_spec v' k B' Hk)]).
  destruct (Hb (2 * j) ltac:(lia)), (Hb (2 * j + 1) ltac:(lia)). unfold byte in *.
  assert (Z.of_nat i = 2 * j ∨ Z.of_nat i = 2 * j + 1) as [-> | ->] by lia; lia.
Qed.

(** ** The block map *)

Definition raw_ok (r : minix_raw_inode) : Prop := length (i_zone r) = 9%nat ∧ Forall (λ z, 0 ≤ z < 65536) (i_zone r).

Definition zone_at (r : minix_raw_inode) (i : nat) : Z := default 0 (i_zone r !! i).

Lemma zone_at_spec r i : raw_ok r → (i < 9)%nat → i_zone r !! i = Some (zone_at r i) ∧ 0 ≤ zone_at r i < 65536.
Proof.
  intros [L F] Hi. unfold zone_at. destruct (lookup_lt_is_Some_2 (i_zone r) i) as [z Hz]; [lia|]. rewrite Hz. simpl. split; [done|].
  exact (Forall_lookup_1 _ _ _ _ F Hz).
Qed.

(** Entry [i] of the table in zone [z]: none when [z] is no data zone. *)
Definition entry (V : gmap key (list Z)) (mnt : minix_mount_info) (z i : Z) : Z :=
  if zone_valid (mnt_sb mnt) z then word (blk V (mnt_bdev mnt) z) i else 0.

Definition bmap_ref (V : gmap key (list Z)) (mnt : minix_mount_info) (r : minix_raw_inode) (l : Z) : Z :=
  check_zone mnt
    (if l <? 7 then zone_at r (Z.to_nat l) else
     if l - 7 <? 512 then entry V mnt (zone_at r 7) (l - 7) else
     if l - 519 <? 512 * 512 then entry V mnt (entry V mnt (zone_at r 8) ((l - 519) / 512)) ((l - 519) mod 512) else 0).

(** Block [l] of the file, and its byte [o]. *)
Definition fblock (V : gmap key (list Z)) (mnt : minix_mount_info) (r : minix_raw_inode) (l : Z) : list Z :=
  if bmap_ref V mnt r l =? 0 then replicate 1024 0 else blk V (mnt_bdev mnt) (bmap_ref V mnt r l).
Definition fbyte (V : gmap key (list Z)) (mnt : minix_mount_info) (r : minix_raw_inode) (o : Z) : Z :=
  byte_of (fblock V mnt r (o / 1024)) (o mod 1024).
Definition content (V : gmap key (list Z)) (mnt : minix_mount_info) (r : minix_raw_inode) (off len : Z) : list Z :=
  fbyte V mnt r <$> seqZ off len.

Lemma check_zone_ok mnt b : sb_ok (mnt_sb mnt) → check_zone mnt b = 0 ∨ zone_valid (mnt_sb mnt) (check_zone mnt b) = true.
Proof.
  intros _. unfold check_zone. destruct (Z.eqb_spec b 0) as [->|]; [by left|]. cbn [negb andb].
  destruct (zone_valid (mnt_sb mnt) b) eqn:E; [by right|by left].
Qed.

Lemma check_zone_0 mnt : check_zone mnt 0 = 0.
Proof. done. Qed.

Lemma zone_valid_0 mnt : sb_ok (mnt_sb mnt) → zone_valid (mnt_sb mnt) 0 = false.
Proof.
  intros []. destruct (zone_valid (mnt_sb mnt) 0) eqn:E; [|done]. apply zone_valid_iff in E.
  assert (0 ≤ (s_ninodes (mnt_sb mnt) * 32 + 1023) / 1024) by (apply Z.div_pos; lia). lia.
Qed.

Lemma bmap_ref_ok V mnt r l : sb_ok (mnt_sb mnt) → bmap_ref V mnt r l = 0 ∨ zone_valid (mnt_sb mnt) (bmap_ref V mnt r l) = true.
Proof. apply check_zone_ok. Qed.

Lemma valid_block V mnt z : mnt_ok V mnt → zone_valid (mnt_sb mnt) z = true → 0 < z ∧ ∃ v, V !! (mnt_bdev mnt, z) = Some v ∧ blk V (mnt_bdev mnt) z = v.
Proof.
  intros (Hs & _ & Hb) Hz. destruct (decide (z = 0)) as [->|]; [by rewrite zone_valid_0 in Hz|].
  apply zone_valid_iff in Hz. destruct Hs. assert (0 ≤ (s_ninodes (mnt_sb mnt) * 32 + 1023) / 1024) by (apply Z.div_pos; lia).
  split; [lia|]. destruct (Hb z ltac:(lia)) as [v Hv]. exists v. unfold blk. by rewrite Hv.
Qed.

(** ** Contents *)

Lemma content_length V mnt r off len : length (content V mnt r off len) = Z.to_nat len.
Proof. unfold content. by rewrite length_fmap, length_seqZ. Qed.

Lemma content_app V mnt r off a b : 0 ≤ a → 0 ≤ b → content V mnt r off (a + b) = content V mnt r off a ++ content V mnt r (off + a) b.
Proof. intros. unfold content. by rewrite seqZ_app, fmap_app. Qed.

Lemma fblock_ok V mnt r l : mnt_ok V mnt → (∀ k v, V !! k = Some v → block_ok v) → block_ok (fblock V mnt r l).
Proof.
  intros HM HV. unfold fblock. destruct (Z.eqb_spec (bmap_ref V mnt r l) 0).
  - split; [by rewrite length_replicate|]. apply Forall_replicate. unfold byte. lia.
  - destruct (bmap_ref_ok V mnt r l (proj1 HM)) as [?|Hz]; [done|]. destruct (valid_block V mnt _ HM Hz) as (_ & v & Hv & ->). by eapply HV.
Qed.

(** The bytes [boff .. boff + n) of a block. *)
Lemma slice_bytes v boff n : block_ok v → 0 ≤ boff → 0 ≤ n → boff + n ≤ 1024 →
  take (Z.to_nat n) (drop (Z.to_nat boff) v) = (λ i, byte_of v (boff + i)) <$> seqZ 0 n.
Proof.
  intros [L _] H0 Hn Hb. apply list_eq_same_length with (Z.to_nat n).
  - by rewrite length_fmap, length_seqZ.
  - rewrite length_take, length_drop. lia.
  - intros i x y Hi Hx Hy. rewrite lookup_take, lookup_drop in Hx by lia. case_decide; [|done].
    apply list_lookup_fmap_Some_1 in Hy as (z & -> & Hz). apply lookup_seqZ in Hz as [-> _]. unfold byte_of.
    replace (Z.to_nat (boff + (0 + Z.of_nat i))) with (Z.to_nat boff + i)%nat by lia. by rewrite Hx.
Qed.

Lemma content_piece V mnt r off n : mnt_ok V mnt → (∀ k v, V !! k = Some v → block_ok v) → 0 ≤ off → 0 ≤ n → off mod 1024 + n ≤ 1024 →
  content V mnt r off n = take (Z.to_nat n) (drop (Z.to_nat (off mod 1024)) (fblock V mnt r (off / 1024))).
Proof.
  intros HM HV H0 Hn Hb. pose proof (Z.mod_pos_bound off 1024 ltac:(lia)). rewrite (slice_bytes _ (off mod 1024) n) by (done || lia || by apply fblock_ok).
  unfold content. rewrite <- (Z.add_0_r off) at 1. rewrite <- fmap_add_seqZ, <- list_fmap_compose. apply list_fmap_ext. intros i x Hx. apply lookup_seqZ in Hx as [-> Hi].
  unfold compose, fbyte. rewrite Z.add_0_l. pose proof (Z.div_mod off 1024).
  replace ((off + Z.of_nat i) / 1024) with (off / 1024) by (apply Z.div_unique with (off mod 1024 + Z.of_nat i); lia).
  by replace ((off + Z.of_nat i) mod 1024) with (off mod 1024 + Z.of_nat i) by (apply Z.mod_unique with (off / 1024); lia).
Qed.

(** Two disks that agree on the data zones give the same file. *)
Lemma content_zones V V' mnt r off len : (∀ z, zone_valid (mnt_sb mnt) z = true → V' !! (mnt_bdev mnt, z) = V !! (mnt_bdev mnt, z)) →
  sb_ok (mnt_sb mnt) → content V' mnt r off len = content V mnt r off len.
Proof.
  intros HV HS. assert (∀ z, zone_valid (mnt_sb mnt) z = true → blk V' (mnt_bdev mnt) z = blk V (mnt_bdev mnt) z) as Hb by (intros z Hz; unfold blk; by rewrite HV).
  assert (∀ z i, entry V' mnt z i = entry V mnt z i) as He by (intros z i; unfold entry; destruct (zone_valid (mnt_sb mnt) z) eqn:Z; [by rewrite Hb|done]).
  assert (∀ l, bmap_ref V' mnt r l = bmap_ref V mnt r l) as Hm by (intros l; unfold bmap_ref; by rewrite !He).
  apply list_fmap_ext. intros _ o _. unfold fbyte, fblock. rewrite Hm. destruct (Z.eqb_spec (bmap_ref V mnt r (o / 1024)) 0); [done|].
  destruct (bmap_ref_ok V mnt r (o / 1024) HS) as [?|Hz]; [done|]. by rewrite Hb.
Qed.

Section Read.
Context {S : Type} {BC : BlockCache S} {CS : BlockCacheSpec S}.

(** Reading entry [i] of the table in a zone. *)
Lemma wp_table rdy mnt s V R z : st rdy (mnt_bdev mnt) s V R → mnt_ok V mnt → (length R < 8)%nat → zone_valid (mnt_sb mnt) z = true →
  wp (bget (mnt_bdev mnt) z s) (λ '(r, s'), match r with
    | Some h => st rdy (mnt_bdev mnt) s' V ((h, (mnt_bdev mnt, z)) :: R)
    | None => st rdy (mnt_bdev mnt) s' V R ∧ rdy = false
    end).
Proof.
  intros C HM HR Hz. destruct (valid_block V mnt z HM Hz) as (Hp & v & Hv & _).
  eapply wp_mono; [apply (wp_bget rdy _ s V R z C (mnt_ok_dev _ _ HM)); [lia|done]|].
  intros [[h|] s'] [C' Hs]; [done|]. split; [done|]. destruct rdy; [|done]. by rewrite Hs in Hv.
Qed.

Lemma wp_block rdy mnt s V R z h : st rdy (mnt_bdev mnt) s V R → (h, (mnt_bdev mnt, z)) ∈ R →
  wp (bdata h s) (λ v, v = blk V (mnt_bdev mnt) z ∧ block_ok v).
Proof.
  intros C Hin. eapply wp_mono; [by eapply wp_bdata|]. intros v [Hv Bv]. unfold blk. by rewrite Hv.
Qed.

Lemma need_entry_read rdy mnt s V R z h i : st rdy (mnt_bdev mnt) s V R → (h, (mnt_bdev mnt, z)) ∈ R → zone_valid (mnt_sb mnt) z = true → 0 ≤ i < 512 →
  wp (need_entry mnt h i false s) (λ '(b, s'), s' = s ∧ b = entry V mnt z i).
Proof.
  intros C Hin Hz Hi. unfold need_entry. wp_step (wp_block _ _ _ _ _ z h C Hin) as v. intros [-> Bv].
  destruct (get16_spec _ i Bv Hi) as [-> _]. cbn [mbind outcome_bind]. rewrite andb_false_r. apply wp_Ok. unfold entry. by rewrite Hz.
Qed.

Lemma need_zone_read mnt i mi s : raw_ok (mi_raw mi) → (i < 9)%nat → need_zone mnt i false mi s = Ok (zone_at (mi_raw mi) i, mi, s).
Proof.
  intros Hraw Hi. unfold need_zone. destruct (zone_at_spec _ i Hraw Hi) as [-> _]. cbn [deref mbind outcome_bind]. by rewrite andb_false_r.
Qed.

(** The result of a map lookup: the reference's, unless the device failed. *)
Definition mapped (rdy : bool) (V : gmap key (list Z)) mnt (mi : minix_inode_info) R (l : Z) : Z * minix_inode_info * S → Prop :=
  λ '(b, mi', s'), mi' = mi ∧ st rdy (mnt_bdev mnt) s' V R ∧
    (b = 0 ∨ zone_valid (mnt_sb mnt) b = true) ∧ (rdy = true → b = bmap_ref V mnt (mi_raw mi) l).

Lemma bmap_read_spec rdy mnt mi l s V R : st rdy (mnt_bdev mnt) s V R → mnt_ok V mnt → (length R < 8)%nat → raw_ok (mi_raw mi) → 0 ≤ l →
  wp (minix_bmap mnt mi l false s) (mapped rdy V mnt mi R l).
Proof.
  intros C HM HR Hraw Hl. pose proof (proj1 HM) as HS. unfold minix_bmap.
  assert (∀ s', st rdy (mnt_bdev mnt) s' V R → (rdy = true → bmap_ref V mnt (mi_raw mi) l = 0) → wp (Ok (0, mi, s')) (mapped rdy V mnt mi R l)) as Hzero.
  { intros s' C' H0. apply wp_Ok. split_and!; try done; [by left|]. intros Hr. by rewrite H0. }
  destruct (Z.ltb_spec l 7) as [H7|H7].
  { rewrite need_zone_read by (done || lia). cbn [mbind outcome_bind]. apply wp_Ok. split_and!; try done; [by apply check_zone_ok|].
    intros _. unfold bmap_ref. destruct (Z.ltb_spec l 7); [done|lia]. }
  assert (l <? 7 = false) as E7 by lia. destruct (Z.ltb_spec (l - 7) 512) as [H5|H5].
  { assert (bmap_ref V mnt (mi_raw mi) l = check_zone mnt (entry V mnt (zone_at (mi_raw mi) 7) (l - 7))) as Eb.
    { unfold bmap_ref. rewrite E7. by destruct (Z.ltb_spec (l - 7) 512); [|lia]. }
    rewrite need_zone_read by (done || lia). cbn [mbind outcome_bind]. destruct (Z.eqb_spec (zone_at (mi_raw mi) 7) 0) as [E|_].
    { apply Hzero; [done|]. rewrite Eb, E. unfold entry. by rewrite zone_valid_0. }
    destruct (zone_valid (mnt_sb mnt) (zone_at (mi_raw mi) 7)) eqn:Z7; cbn [negb].
    2: { apply Hzero; [done|]. rewrite Eb. unfold entry. by rewrite Z7. }
    wp_step (wp_table rdy mnt s V R _ C HM HR Z7) as [[h|] s1]; [|intros [C1 Hr]; apply Hzero; [done|congruence]].
    intros C1. wp_step (need_entry_read _ _ _ _ _ _ h (l - 7) C1 (list_elem_of_here _ _) Z7 ltac:(lia)) as [b s2]. intros [-> ->].
    wp_step (wp_bput _ _ _ _ _ _ _ C1) as s3. intros C3. apply wp_Ok. split_and!; try done. by apply check_zone_ok. }
  replace (l - 7 - 512) with (l - 519) by lia. destruct (Z.ltb_spec (l - 519) (512 * 512)) as [H8|H8].
  2: { apply Hzero; [done|]. intros _. unfold bmap_ref. rewrite E7. destruct (Z.ltb_spec (l - 7) 512); [lia|]. by destruct (Z.ltb_spec (l - 519) (512 * 512)); [lia|]. }
  set (q := (l - 519) / 512). set (m := (l - 519) mod 512). assert (0 ≤ q < 512) by (split; [apply Z.div_pos; lia|apply Z.div_lt_upper_bound; lia]).
  assert (0 ≤ m < 512) by (apply Z.mod_pos_bound; lia).
  assert (bmap_ref V mnt (mi_raw mi) l = check_zone mnt (entry V mnt (entry V mnt (zone_at (mi_raw mi) 8) q) m)) as Eb.
  { unfold bmap_ref. rewrite E7. destruct (Z.ltb_spec (l - 7) 512); [lia|]. by destruct (Z.ltb_spec (l - 519) (512 * 512)); [|lia]. }
  rewrite need_zone_read by (done || lia). cbn [mbind outcome_bind]. destruct (Z.eqb_spec (zone_at (mi_raw mi) 8) 0) as [E|_].
  { apply Hzero; [done|]. rewrite Eb, E. unfold entry. by rewrite zone_valid_0, zone_valid_0. }
  destruct (zone_valid (mnt_sb mnt) (zone_at (mi_raw mi) 8)) eqn:Z8; cbn [negb].
  2: { apply Hzero; [done|]. rewrite Eb. unfold entry at 2. by rewrite Z8; unfold entry; rewrite zone_valid_0. }
  wp_step (wp_table rdy mnt s V R _ C HM HR Z8) as [[h|] s1]; [|intros [C1 Hr]; apply Hzero; [done|congruence]].
  intros C1. wp_step (need_entry_read _ _ _ _ _ _ h q C1 (list_elem_of_here _ _) Z8 ltac:(done)) as [b s2]. intros [-> ->].
  wp_step (wp_bput _ _ _ _ _ _ _ C1) as s3. intros C3. set (ind := entry V mnt (zone_at (mi_raw mi) 8) q) in *.
  destruct (Z.eqb_spec ind 0) as [E|_]. { apply Hzero; [done|]. rewrite Eb, E. unfold entry. by rewrite zone_valid_0. }
  destruct (zone_valid (mnt_sb mnt) ind) eqn:ZI; cbn [negb]. 2: { apply Hzero; [done|]. rewrite Eb. unfold entry. by rewrite ZI. }
  wp_step (wp_table rdy mnt s3 V R _ C3 HM HR ZI) as [[h2|] s4]; [|intros [C4 Hr]; apply Hzero; [done|congruence]].
  intros C4. wp_step (wp_block _ _ _ _ _ ind h2 C4 (list_elem_of_here _ _)) as v. intros [-> Bv].
  destruct (get16_spec _ m Bv ltac:(done)) as [-> _]. cbn [mbind outcome_bind].
  wp_step (wp_bput _ _ _ _ _ _ _ C4) as s5. intros C5. apply wp_Ok. split_and!; try done; [by apply check_zone_ok|].
  intros _. rewrite Eb. unfold entry at 1. by rewrite ZI.
Qed.

Lemma st_blocks rdy d s V R : st rdy d s V R → ∀ k v, V !! k = Some v → block_ok v.
Proof. intros (C & _) k v. by eapply cst_block. Qed.

(** Enough fuel for a transfer of [todo] bytes at [off]. *)
Definition enough (fuel : nat) (off todo : Z) : Prop :=
  (0 < fuel)%nat ∧ (todo = 0 ∨ off mod 1024 + todo ≤ 1024 * (Z.of_nat fuel - 1)).

Lemma rounds_enough off todo : 0 ≤ todo → enough (rounds todo) off todo.
Proof.
  intros Ht. unfold enough, rounds, MINIX_BLOCK_SIZE. pose proof (Z.mod_pos_bound off 1024 ltac:(lia)). pose proof (Z.div_mod todo 1024).
  pose proof (Z.mod_pos_bound todo 1024 ltac:(lia)). split; [lia|right]. lia.
Qed.

Lemma piece_spec off todo : 0 ≤ off → 0 < todo → 0 < piece off todo ≤ todo ∧ off mod 1024 + piece off todo ≤ 1024.
Proof. intros. unfold piece, MINIX_BLOCK_SIZE. pose proof (Z.mod_pos_bound off 1024 ltac:(lia)). lia. Qed.

Lemma enough_step fuel off todo : enough (Datatypes.S fuel) off todo → 0 ≤ off → 0 < todo → enough fuel (off + piece off todo) (todo - piece off todo).
Proof.
  intros [_ [->|He]] H0 Ht; [lia|]. pose proof (Z.mod_pos_bound off 1024 ltac:(lia)). split; [lia|].
  destruct (decide (todo - piece off todo = 0)); [by left|right]. unfold piece, MINIX_BLOCK_SIZE in *.
  replace (Z.min (1024 - off mod 1024) todo) with (1024 - off mod 1024) in * by lia.
  replace ((off + (1024 - off mod 1024)) mod 1024) with 0; [lia|]. pose proof (Z.div_mod off 1024). apply Z.mod_unique with (off / 1024 + 1); lia.
Qed.

Lemma minix_read_loop_spec rdy mnt mi V R fuel off todo s : st rdy (mnt_bdev mnt) s V R → mnt_ok V mnt → (length R < 8)%nat → raw_ok (mi_raw mi) →
  0 ≤ off → 0 ≤ todo → enough fuel off todo →
  wp (read_loop fuel mnt mi off todo s) (λ '(ok, bytes, s'), st rdy (mnt_bdev mnt) s' V R ∧
    (ok = true → length bytes = Z.to_nat todo) ∧ Forall byte bytes ∧
    (rdy = true → ok = true ∧ (off + todo ≤ 2 ^ 42 → bytes = content V mnt (mi_raw mi) off todo))).
Proof.
  intros C HM HR Hraw. revert off todo s C. induction fuel as [|fuel IH]; intros off todo s C H0 Ht He; [destruct He; lia|]. cbn [read_loop].
  destruct (Z.eqb_spec todo 0) as [->|Hne]; [apply wp_Ok; split_and!; done|].
  destruct (piece_spec off todo H0 ltac:(lia)) as [P1 P2]. pose proof (Z.mod_pos_bound off 1024 ltac:(lia)) as Hm.
  assert (0 ≤ u32 (off / MINIX_BLOCK_SIZE)) as Hu by (apply Z.mod_pos_bound; lia).
  wp_step (bmap_read_spec rdy mnt mi _ s V R C HM HR Hraw Hu) as [[b mi'] s1]. intros (-> & C1 & Hb & Href).
  set (chunk := piece off todo) in *.
  eapply (wp_bind _ _ (λ '(got, s2), st rdy (mnt_bdev mnt) s2 V R ∧ match got with
    | None => rdy = false
    | Some bytes => length bytes = Z.to_nat chunk ∧ Forall byte bytes ∧
        (rdy = true → off < 2 ^ 42 → bytes = content V mnt (mi_raw mi) off chunk)
    end)).
  { assert (rdy = true → off < 2 ^ 42 → b = bmap_ref V mnt (mi_raw mi) (off / 1024)) as Hbm.
    { intros Hr Ho. rewrite (Href Hr). f_equal. unfold u32, MINIX_BLOCK_SIZE. rewrite Z.mod_small; [done|]. split; [apply Z.div_pos; lia|apply Z.div_lt_upper_bound; lia]. }
    destruct (Z.eqb_spec b 0) as [->|Hnz].
    - apply wp_Ok. split; [done|]. split_and!; [by rewrite length_replicate|apply Forall_replicate; unfold byte; lia|].
      intros Hr Ho. rewrite content_piece by (done || lia || by eapply st_blocks). unfold fblock. rewrite <- (Hbm Hr Ho). destruct (Z.eqb_spec 0 0) as [_|?]; [|done].
      rewrite drop_replicate, take_replicate. f_equal. lia.
    - destruct Hb as [?|Hb]; [done|]. wp_step (wp_table rdy mnt s1 V R b C1 HM HR Hb) as [[h|] s2]; [|intros [C2 ->]; by apply wp_Ok].
      intros C2. wp_step (wp_block _ _ _ _ _ b h C2 (list_elem_of_here _ _)) as v. intros [-> Bv].
      wp_step (wp_bput _ _ _ _ _ _ _ C2) as s3. intros C3. apply wp_Ok. split; [done|]. pose proof Bv as [Lv Fv]. unfold MINIX_BLOCK_SIZE. split_and!.
      + rewrite length_take, length_drop. lia.
      + by apply Forall_take, Forall_drop.
      + intros Hr Ho. rewrite content_piece by (done || lia || by eapply st_blocks). unfold fblock. rewrite <- (Hbm Hr Ho). by destruct (Z.eqb_spec b 0). }
  intros [[bytes|] s2] [C2 Hg].
  2: { apply wp_Ok. split_and!; try done. by rewrite Hg. }
  destruct Hg as (Hg1 & Hg2 & Hg3).
  wp_step (IH (off + chunk) (todo - chunk) s2 C2 ltac:(lia) ltac:(lia) (enough_step _ _ _ He H0 ltac:(lia))) as [[ok rest] s3].
  intros (C3 & I1 & I2 & I3). apply wp_Ok. split_and!; [done| | |].
  - intros E. rewrite length_app, Hg1, (I1 E). lia.
  - by apply Forall_app.
  - intros Hr. destruct (I3 Hr) as [-> I4]. split; [done|]. intros Ho. rewrite (Hg3 Hr), I4 by lia.
    rewrite <- content_app by lia. f_equal. lia.
Qed.

(** What a read returns: nothing past the end, fewer bytes at the end. *)
Definition read_len (v : vfs_inode) (off len : Z) : Z := if off >=? v_size v then 0 else Z.min len (v_size v - off).

Lemma minix_read_spec rdy mnt v off len s V R : st rdy (mnt_bdev mnt) s V R → mnt_ok V mnt → (length R < 8)%nat → raw_ok (mi_raw (v_info v)) →
  0 ≤ off → 0 ≤ len →
  wp (minix_read mnt v off len s) (λ '(n, bytes, s'), st rdy (mnt_bdev mnt) s' V R ∧ Forall byte bytes ∧
    (n = read_len v off len ∧ length bytes = Z.to_nat n ∨ n = - EIO ∧ rdy = false) ∧
    (rdy = true → off + read_len v off len ≤ 2 ^ 42 → bytes = content V mnt (mi_raw (v_info v)) off n)).
Proof.
  intros C HM HR Hraw H0 Hl. unfold minix_read, read_len. destruct (Z.geb_spec off (v_size v)).
  { apply wp_Ok. split_and!; try done. by left. }
  set (n := Z.min len (v_size v - off)). assert (0 ≤ n) as Hn by lia.
  wp_step (minix_read_loop_spec rdy mnt (v_info v) V R (rounds n) off n s C HM HR Hraw H0 Hn (rounds_enough off n Hn)) as [[ok bytes] s1].
  intros (C1 & Hlen & Hb & Hr). apply wp_Ok. destruct ok.
  - split_and!; try done; [left; auto|]. intros Hr' Ho. by apply Hr.
  - split_and!; try done; [right; split; [done|]; destruct rdy; [by destruct (Hr eq_refl)|done]|]. intros ->. by destruct (Hr eq_refl).
Qed.
End Read.
