(* ===== verification/MinixTree.v ===== *)
(** * The zones of a MINIX file

    A file without a double-indirect block owns up to 520 zones: seven direct
    ones, the index block (slot 7) and the 512 entries of the index block
    (slots 8 to 519).  [file_wf] says they are data zones that the zone map
    marks as taken, all different.  [same_but] is what a change confined to some
    zones leaves alone; [fstate] is the state of a file while an operation works
    on it. *)

From S2P Require Import Prelude Bufcache BufcacheSpec BufcacheSystem Minix MinixMap MinixRead.

Definition zeros : list Z := replicate 1024 0.

Lemma zeros_ok : block_ok zeros.
Proof. split; [apply length_replicate|]. apply Forall_replicate. unfold byte. lia. Qed.

Lemma byte_of_zeros i : byte_of zeros i = 0.
Proof. unfold byte_of, zeros. destruct (replicate 1024 0 !! Z.to_nat i) eqn:E; [|done]. by apply lookup_replicate in E as [-> _]. Qed.

Lemma word_zeros i : word zeros i = 0.
Proof. unfold word. by rewrite !byte_of_zeros. Qed.

(** Slot of the logical block [l]. *)
Definition lpos (l : Z) : nat := if decide (l < 7) then Z.to_nat l else Z.to_nat (l + 1).

Lemma lpos_lt l : 0 ≤ l < 519 → (lpos l < 520)%nat ∧ lpos l ≠ 7%nat.
Proof. unfold lpos. case_decide; lia. Qed.

Lemma lpos_inj l l' : 0 ≤ l → 0 ≤ l' → lpos l = lpos l' → l = l'.
Proof. unfold lpos. repeat case_decide; lia. Qed.

Section Tree.
Context (mnt : minix_mount_info).
Let d : Z := mnt_bdev mnt.
Let valid (z : Z) : Prop := zone_valid (mnt_sb mnt) z = true.

Definition slot (V : gmap key (list Z)) (r : minix_raw_inode) (p : nat) : Z :=
  if decide (p < 8)%nat then zone_at r p else entry V mnt (zone_at r 7) (Z.of_nat p - 8).

Definition owned (V : gmap key (list Z)) (r : minix_raw_inode) (z : Z) : Prop := ∃ p, (p < 520)%nat ∧ slot V r p = z ∧ z ≠ 0.

Record file_wf (V : gmap key (list Z)) (r : minix_raw_inode) : Prop := {
  fw_raw : raw_ok r;
  fw_double : zone_at r 8 = 0;
  fw_zone : ∀ z, owned V r z → valid z ∧ marked V mnt z = true;
  fw_diff : ∀ p q, (p < 520)%nat → (q < 520)%nat → slot V r p = slot V r q → slot V r p ≠ 0 → p = q
}.

Lemma check_valid z : z = 0 ∨ valid z → check_zone mnt z = z.
Proof. unfold check_zone, valid. intros [->|E]; [done|]. rewrite E. by rewrite andb_false_r. Qed.

Lemma slot_checked V r p : file_wf V r → (p < 520)%nat → slot V r p = 0 ∨ valid (slot V r p).
Proof. intros W Hp. destruct (decide (slot V r p = 0)); [by left|right]. apply (fw_zone _ _ W). by exists p. Qed.

Lemma bmap_slot V r l : file_wf V r → 0 ≤ l < 519 → bmap_ref V mnt r l = slot V r (lpos l).
Proof.
  intros W Hl. destruct (lpos_lt l Hl) as [Hp _]. rewrite <- (check_valid (slot V r (lpos l))) by by apply slot_checked.
  unfold bmap_ref, slot, lpos. f_equal. destruct (Z.ltb_spec l 7).
  - rewrite (decide_True (P := l < 7)) by lia. by rewrite decide_True by lia.
  - rewrite (decide_False (P := l < 7)) by lia. destruct (Z.ltb_spec (l - 7) 512); [|lia]. rewrite decide_False by lia. f_equal. lia.
Qed.

Lemma bmap_far V r l : sb_ok (mnt_sb mnt) → file_wf V r → 519 ≤ l → bmap_ref V mnt r l = 0.
Proof.
  intros HS W Hl. unfold bmap_ref. destruct (Z.ltb_spec l 7); [lia|]. destruct (Z.ltb_spec (l - 7) 512); [lia|].
  destruct (l - 519 <? 512 * 512); [|done]. rewrite (fw_double _ _ W). unfold entry at 2. rewrite zone_valid_0 by done. unfold entry. by rewrite zone_valid_0.
Qed.

(** The contents of a slot. *)
Definition scont (V : gmap key (list Z)) (r : minix_raw_inode) (p : nat) : list Z := if slot V r p =? 0 then zeros else blk V d (slot V r p).

Lemma fblock_slot V r l : file_wf V r → 0 ≤ l < 519 → fblock V mnt r l = scont V r (lpos l).
Proof. intros W Hl. unfold fblock, scont. by rewrite (bmap_slot V r l W Hl). Qed.

Lemma fblock_far V r l : sb_ok (mnt_sb mnt) → file_wf V r → 519 ≤ l → fblock V mnt r l = zeros.
Proof. intros HS W Hl. unfold fblock. by rewrite (bmap_far V r l HS W Hl). Qed.

(** ** Frames *)

Context (HC : maps_cover (mnt_sb mnt)).

Definition zmap_key (k : key) : Prop := k.1 = d ∧ zmap_start mnt ≤ k.2 < zmap_start mnt + s_zmap_blocks (mnt_sb mnt).
Definition zone_key (k : key) : Prop := k.1 = d ∧ valid k.2.

(** Outside the zones [P] nothing changes: neither contents nor marks, nor the
    blocks that are neither data zones nor the zone map. *)
Record same_but (P : Z → Prop) (V V' : gmap key (list Z)) : Prop := {
  sb_mnt : mnt_ok V' mnt;
  sb_zone : ∀ z, valid z → ¬ P z → V' !! (d, z) = V !! (d, z) ∧ marked V' mnt z = marked V mnt z;
  sb_meta : ∀ k, ¬ zmap_key k → ¬ zone_key k → V' !! k = V !! k
}.

Lemma same_but_refl P V : mnt_ok V mnt → same_but P V V.
Proof. constructor; auto. Qed.

Lemma same_but_trans P V V1 V2 : same_but P V V1 → same_but P V1 V2 → same_but P V V2.
Proof.
  intros [M1 Z1 K1] [M2 Z2 K2]. constructor; [done| |].
  - intros z Hz HP. destruct (Z1 z Hz HP), (Z2 z Hz HP). split; congruence.
  - intros k Hk1 Hk2. by rewrite K2, K1.
Qed.

Lemma zindex_inj z z' : zindex mnt z = zindex mnt z' → z = z'.
Proof. unfold zindex. lia. Qed.

(** A data zone is no block of the zone map. *)
Lemma zmap_not_zone V z z' : mnt_ok V mnt → valid z → valid z' → zmap_start mnt + zindex mnt z / 8192 ≠ z'.
Proof. intros HM Hz Hz' E. destruct (zmap_block V mnt z HM HC Hz) as (_ & _ & ? & _). apply zone_valid_iff in Hz'. lia. Qed.

Lemma marked_insert V t v z : mnt_ok V mnt → valid t → valid z → marked (<[(d, t) := v]> V) mnt z = marked V mnt z.
Proof.
  intros HM Ht Hz. unfold marked, mbit, blk. fold d. rewrite lookup_insert_ne; [done|]. intros [= E]. by eapply (zmap_not_zone V z t).
Qed.

Lemma same_insert P V t v : mnt_ok V mnt → valid t → P t → same_but P V (<[(d, t) := v]> V).
Proof.
  intros HM Ht HP. constructor; [by apply mnt_ok_insert| |].
  - intros z Hz Hn. split; [|by apply marked_insert]. rewrite lookup_insert_ne; [done|]. intros [= ->]. done.
  - intros k _ Hk. rewrite lookup_insert_ne; [done|]. intros <-. by apply Hk.
Qed.

(** Changing the mark of a zone. *)
Lemma mark_changed V V' z b : mnt_ok V mnt → valid z → map_changed V V' d (zmap_start mnt) (zindex mnt z) b →
  mnt_ok V' mnt ∧ (∀ z', valid z' → marked V' mnt z' = (if decide (z' = z) then b else marked V mnt z') ∧ V' !! (d, z') = V !! (d, z')) ∧
  ∀ k, ¬ zmap_key k → V' !! k = V !! k.
Proof.
  intros HM Hz Hc. destruct (zmap_block V mnt z HM HC Hz) as (I1 & I2 & I3 & _). split_and!.
  - destruct Hc as (v & v' & _ & -> & _). by apply mnt_ok_insert.
  - intros z' Hz'. destruct (zmap_block V mnt z' HM HC Hz') as (J1 & _). split.
    + unfold marked. fold d. rewrite (map_changed_mbit V V' d (zmap_start mnt) (zindex mnt z) b (zindex mnt z')) by (done || lia).
      repeat case_decide; try done; [by destruct H0; apply zindex_inj|by subst].
    + destruct Hc as (v & v' & _ & -> & _). rewrite lookup_insert_ne; [done|]. intros [= E]. by eapply (zmap_not_zone V z z').
  - intros k Hk. destruct Hc as (v & v' & _ & -> & _). rewrite lookup_insert_ne; [done|]. intros <-. apply Hk. split; [done|]. simpl.
    destruct (idx_pos (zindex mnt z) ltac:(lia)). split; [lia|]. apply zone_valid_iff in Hz. destruct HC as [_ Hc'].
    assert (zindex mnt z / 8192 < s_zmap_blocks (mnt_sb mnt)); [|lia]. apply Z.div_lt_upper_bound; [lia|]. unfold zindex. lia.
Qed.

Lemma mark_same P V V' z b : mnt_ok V mnt → valid z → P z → map_changed V V' d (zmap_start mnt) (zindex mnt z) b → same_but P V V'.
Proof.
  intros HM Hz HP Hc. destruct (mark_changed V V' z b HM Hz Hc) as (M & Hm & Hk). constructor; [done| |auto].
  intros z' Hz' Hn. destruct (Hm z' Hz') as [-> ->]. split; [done|]. rewrite decide_False; [done|]. by intros ->.
Qed.

(** ** A file at work

    [P] holds the zones an operation may touch: those the file owns and those
    that are free at its start, when the disk is [V0]. *)
Record fstate (P : Z → Prop) (V0 V : gmap key (list Z)) (r : minix_raw_inode) : Prop := {
  fs_wf : file_wf V r;
  fs_same : same_but P V0 V;
  fs_exact : ∀ z, valid z → P z → marked V mnt z = true → owned V r z;
  fs_own : ∀ z, owned V r z → P z;
  fs_free : ∀ z, valid z → marked V mnt z = false → P z
}.

Definition at_disposal (V : gmap key (list Z)) (r : minix_raw_inode) (z : Z) : Prop := owned V r z ∨ marked V mnt z = false.

Lemma fstate_start V r : mnt_ok V mnt → file_wf V r → fstate (at_disposal V r) V V r.
Proof.
  intros HM W. constructor; [done|by apply same_but_refl| | |].
  - intros z Hz [?|E] Hm; [done|congruence].
  - intros z Hz. by left.
  - intros z _ Hz. by right.
Qed.

(** Slot [p] now holds [x], the others are as they were. *)
Definition slots_upd (V : gmap key (list Z)) (r : minix_raw_inode) (V' : gmap key (list Z)) (r' : minix_raw_inode) (p : nat) (x : Z) : Prop :=
  ∀ q, (q < 520)%nat → slot V' r' q = if decide (q = p) then x else slot V r q.

(** The zone map follows: the zone that was in [p] is free, [x] is taken. *)
Definition marks_upd (V V' : gmap key (list Z)) (old x : Z) : Prop :=
  ∀ z, valid z → marked V' mnt z = true ↔ z = x ∨ marked V mnt z = true ∧ z ≠ old.

Lemma fstate_step P V0 V r V' r' p x : sb_ok (mnt_sb mnt) → fstate P V0 V r → same_but P V V' → raw_ok r' → zone_at r' 8 = 0 → (p < 520)%nat →
  slots_upd V r V' r' p x → marks_upd V V' (slot V r p) x →
  x = 0 ∨ valid x ∧ P x ∧ (marked V mnt x = false ∨ x = slot V r p) → fstate P V0 V' r'.
Proof.
  intros HS [[W1 W2 W3 W4] Fs Fe Fo Ff] S R' R8 Hp Hs Hm Hx. assert (∀ q, (q < 520)%nat → slot V r q ≠ 0 → owned V r (slot V r q)) as own by (intros q; by exists q).
  assert (¬ valid 0) as H0 by (unfold valid; by rewrite zone_valid_0).
  constructor; [constructor; [done..| |]|by eapply same_but_trans| | |].
  - intros z (q & Hq & <- & Hz). rewrite Hs in * by done. case_decide as D.
    + destruct Hx as [?|(Vx & _)]; [done|]. split; [done|]. apply Hm; auto.
    + destruct (W3 _ (own q Hq Hz)) as [Vz Mz]. split; [done|]. apply Hm; [done|right]. split; [done|]. intros E. by apply D, (W4 q p).
  - intros q q' Hq Hq'. rewrite !Hs by done.
    assert (∀ q, (q < 520)%nat → q ≠ p → x = slot V r q → x ≠ 0 → False) as Hdiff.
    { intros q2 Hq2 Hne -> Hz. destruct Hx as [?|(_ & _ & [Mx|Ex])]; [done| |by apply Hne, (W4 q2 p)].
      destruct (W3 _ (own q2 Hq2 Hz)). congruence. }
    repeat case_decide; try congruence; [intros ?? ; by destruct (Hdiff q')|intros E ?; destruct (Hdiff q); congruence|auto].
  - intros z Hz HP [->|[Mz Ne]]%Hm; [| |done].
    + exists p. rewrite Hs, decide_True by done. split_and!; try done. intros ->. done.
    + destruct (Fe z Hz HP Mz) as (q & Hq & E & Nz). exists q. rewrite Hs by done. rewrite decide_False by (intros ->; done). done.
  - intros z (q & Hq & <- & Hz). rewrite Hs in * by done. case_decide; [by destruct Hx as [?|(_ & ? & _)]|auto].
  - intros z Hz Mz. destruct (marked V mnt z) eqn:M; [|by apply Ff]. destruct (decide (z = slot V r p)) as [->|Ne].
    + apply Fo, own; [done|]. intros E. by rewrite E in Hz.
    + assert (marked V' mnt z = true) by (apply Hm; auto). congruence.
Qed.

End Tree.
