(* ===== verification/MinixWrite.v ===== *)
(** * Writing MINIX files

    [minix_bmap] with [create], the allocation loop, its rollback and the
    copying loop of [minix_write], on a device that answers. *)

From S2P Require Import Prelude Bufcache BufcacheSpec BufcacheSystem Minix MinixMap MinixRead MinixTree.

(** Dropping one element from a set lowers its count by at most one. *)
Lemma filter_less `{EqDecision A} (Q Q' : A → Prop) `{∀ x, Decision (Q x), ∀ x, Decision (Q' x)} (l : list A) z :
  NoDup l → (∀ x, x ∈ l → x ≠ z → Q x → Q' x) → (length (filter Q l) ≤ Datatypes.S (length (filter Q' l)))%nat.
Proof.
  intros ND Hq. apply (submseteq_length _ (z :: filter Q' l)), NoDup_submseteq; [by apply NoDup_filter|]. intros x [Hx Hl]%list_elem_of_filter.
  destruct (decide (Q' x)); [apply list_elem_of_further, list_elem_of_filter; auto|].
  destruct (decide (x = z)) as [->|]; [apply list_elem_of_here|]. by destruct n; apply Hq.
Qed.

Section Write.
Context {S : Type} {BC : BlockCache S} {CS : BlockCacheSpec S}.
Context (mnt : minix_mount_info) (HC : maps_cover (mnt_sb mnt)) (HS : sb_ok (mnt_sb mnt)).
Let d : Z := mnt_bdev mnt.
Let valid (z : Z) : Prop := zone_valid (mnt_sb mnt) z = true.

Lemma valid_bounds z : valid z → 0 < z < 65536.
Proof.
  intros Hz. unfold valid in Hz. assert (z ≠ 0) by (intros ->; by rewrite zone_valid_0 in Hz). apply zone_valid_iff in Hz. destruct HS.
  assert (0 ≤ (s_ninodes (mnt_sb mnt) * 32 + 1023) / 1024) by (apply Z.div_pos; lia). lia.
Qed.

(** ** A zone taken from the zone map *)

(** [V'] is [V] with the free zone [z] taken and zeroed. *)
Record grown (V V' : gmap key (list Z)) (z : Z) : Prop := {
  gr_valid : valid z;
  gr_free : marked V mnt z = false;
  gr_mnt : mnt_ok V' mnt;
  gr_zero : V' !! (d, z) = Some zeros;
  gr_rest : ∀ z', valid z' → z' ≠ z → V' !! (d, z') = V !! (d, z');
  gr_marks : ∀ z', valid z' → marked V' mnt z' = true ↔ z' = z ∨ marked V mnt z' = true;
  gr_same : ∀ P : Z → Prop, P z → same_but mnt P V V'
}.

Lemma alloc_data_zone_spec s V R : st true d s V R → (length R < 8)%nat → mnt_ok V mnt →
  wp (minix_alloc_data_zone mnt s) (λ '(z, s'),
    z = 0 ∧ st true d s' V R ∧ (∀ z', valid z' → marked V mnt z' = true) ∨ ∃ V', st true d s' V' R ∧ grown V V' z).
Proof.
  intros C HR HM. unfold minix_alloc_data_zone. wp_step (alloc_zone_spec mnt s V R C HR HM HC) as [z s1].
  intros [(-> & C1 & Hall)|(Hz & Hf & _ & V1 & C1 & Hc)]; [apply wp_Ok; by left|].
  pose proof (valid_bounds z Hz). destruct (Z.eqb_spec z 0); [lia|].
  destruct (mark_changed mnt HC V V1 z true HM Hz Hc) as (M1 & Hm & Hk).
  wp_step (wp_table true mnt s1 V1 R z C1 M1 HR Hz) as [[h|] s2]; [|intros [_ ?]; done]. intros C2.
  wp_step (wp_bwrite _ _ _ _ _ _ _ zeros C2 (list_elem_of_here _ _) zeros_ok) as s3. intros C3.
  wp_step (wp_bput _ _ _ _ _ _ _ C3) as s4. intros C4. apply wp_Ok. right. eexists. split; [exact C4|]. constructor; try done.
  - by apply mnt_ok_insert.
  - apply lookup_insert_eq.
  - intros z' Hz' Hne. rewrite lookup_insert_ne by congruence. by apply Hm.
  - intros z' Hz'. rewrite marked_insert by done. destruct (Hm z' Hz') as [-> _]. case_decide as D; [by subst; split; [left|]|]. split; [auto|]. by intros [?|?].
  - intros P HP. eapply same_but_trans; [by eapply mark_same|by apply same_insert].
Qed.

(** The zones left. *)
Definition nfree (V : gmap key (list Z)) : Z :=
  let first := s_firstdatazone (mnt_sb mnt) in
  Z.of_nat (length (filter (λ z, marked V mnt z = false) (seqZ first (s_nzones (mnt_sb mnt) - first)))).

Lemma nfree_grown V V' z : grown V V' z → nfree V ≤ nfree V' + 1.
Proof.
  intros G. unfold nfree. set (l := seqZ _ _).
  assert (∀ x, x ∈ l → x ≠ z → marked V mnt x = false → marked V' mnt x = false) as Hq.
  { intros x Hx Hne Hm. destruct (marked V' mnt x) eqn:E; [|done]. apply (gr_marks _ _ _ G) in E; [destruct E; congruence|].
    apply zone_valid_iff. apply elem_of_seqZ in Hx. lia. }
  pose proof (filter_less _ _ l z (NoDup_seqZ _ _) Hq). lia.
Qed.

Lemma nfree_mono V V' : (∀ z, valid z → marked V mnt z = false → marked V' mnt z = false) → nfree V ≤ nfree V'.
Proof.
  intros H. unfold nfree. apply inj_le, submseteq_length, NoDup_submseteq; [apply NoDup_filter, NoDup_seqZ|].
  intros z [Hm Hz]%list_elem_of_filter. apply list_elem_of_filter. split; [|done]. apply H; [|done]. apply zone_valid_iff. apply elem_of_seqZ in Hz. lia.
Qed.

Lemma nfree_none V : (∀ z, valid z → marked V mnt z = true) → nfree V = 0.
Proof.
  intros H. unfold nfree. destruct (filter _ _) as [|z l] eqn:E; [done|]. assert (z ∈ z :: l) as Hz by apply list_elem_of_here.
  rewrite <- E in Hz. apply list_elem_of_filter in Hz as [Hm Hz%elem_of_seqZ]. rewrite H in Hm; [done|]. apply zone_valid_iff. lia.
Qed.

(** ** Slots *)

Lemma zone_at_set r i j x : raw_ok r → (i < 9)%nat → zone_at (set_zone i x r) j = if decide (j = i) then x else zone_at r j.
Proof.
  intros [L _] Hi. unfold zone_at, set_zone. simpl. case_decide as D; [subst; rewrite list_lookup_insert_eq by lia; done|by rewrite list_lookup_insert_ne].
Qed.

Lemma raw_ok_set r i x : raw_ok r → 0 ≤ x < 65536 → raw_ok (set_zone i x r).
Proof. intros [L F] Hx. split; simpl; [by rewrite length_insert|by apply Forall_insert]. Qed.

Lemma set_zone_same r i x : raw_ok r → (i < 9)%nat → zone_at r i = x → set_zone i x r = r.
Proof.
  intros Hr Hi <-. destruct (zone_at_spec r i Hr Hi) as [E _]. destruct r. unfold set_zone. simpl in *. f_equal. by apply list_insert_id.
Qed.

Lemma entry_eq V V' t i : (valid t → V' !! (d, t) = V !! (d, t)) → entry V' mnt t i = entry V mnt t i.
Proof. intros E. unfold entry. destruct (zone_valid (mnt_sb mnt) t) eqn:Z; [|done]. unfold blk. fold d. by rewrite E. Qed.

(** A direct zone, or the index block: its entries must be all empty then. *)
Lemma slots_upd_zone V r V' p x : raw_ok r → (p < 8)%nat →
  (p ≠ 7%nat → valid (zone_at r 7) → V' !! (d, zone_at r 7) = V !! (d, zone_at r 7)) →
  (p = 7%nat → ∀ i, 0 ≤ i < 512 → entry V' mnt x i = 0 ∧ entry V mnt (zone_at r 7) i = 0) →
  slots_upd mnt V r V' (set_zone p x r) p x.
Proof.
  intros Hr Hp H7 H7' q Hq. unfold slot. rewrite !zone_at_set by (done || lia). destruct (decide (q < 8)%nat) as [Hq8|Hq8]; [done|].
  rewrite (decide_False (P := q = p)) by lia. case_decide as D.
  - destruct (H7' (eq_sym D) (Z.of_nat q - 8)) as [-> ->]; [lia|done].
  - apply entry_eq. auto.
Qed.

(** An entry of the index block. *)
Lemma slots_upd_entry V r V' p x v : (8 ≤ p < 520)%nat → valid (zone_at r 7) → V' !! (d, zone_at r 7) = Some v →
  (∀ j, 0 ≤ j < 512 → word v j = if decide (j = Z.of_nat p - 8) then x else entry V mnt (zone_at r 7) j) →
  slots_upd mnt V r V' r p x.
Proof.
  intros Hp Ht Hv Hw q Hq. unfold slot. destruct (decide (q < 8)%nat) as [Hq8|Hq8]; [by rewrite decide_False by lia|].
  unfold entry at 1, blk. fold d. rewrite Ht, Hv. simpl. rewrite Hw by lia. repeat case_decide; try done; lia.
Qed.

(** The data of the other slots. *)
Definition data_same (V : gmap key (list Z)) (r : minix_raw_inode) (V' : gmap key (list Z)) (r' : minix_raw_inode) : Prop :=
  ∀ q, (q < 520)%nat → q ≠ 7%nat → scont mnt V' r' q = scont mnt V r q.

Lemma scont_eq V r V' r' q : slot mnt V' r' q = slot mnt V r q → (slot mnt V r q ≠ 0 → V' !! (d, slot mnt V r q) = V !! (d, slot mnt V r q)) →
  scont mnt V' r' q = scont mnt V r q.
Proof. intros E Hd. unfold scont. rewrite E. destruct (Z.eqb_spec (slot mnt V r q) 0); [done|]. unfold blk. fold d. by rewrite Hd. Qed.

Lemma fbyte_same V r V' r' : file_wf mnt V r → file_wf mnt V' r' → data_same V r V' r' → ∀ o, 0 ≤ o → fbyte V' mnt r' o = fbyte V mnt r o.
Proof.
  intros W W' D o Ho. unfold fbyte. f_equal. assert (0 ≤ o / 1024) by (apply Z.div_pos; lia). destruct (Z.lt_ge_cases (o / 1024) 519).
  - destruct (lpos_lt (o / 1024)); [lia|]. by rewrite !fblock_slot, D by (done || lia).
  - by rewrite !fblock_far.
Qed.

(** ** Attaching a zone *)

Lemma slot_7 V r : slot mnt V r 7 = zone_at r 7.
Proof. done. Qed.

Lemma slot_owned V r q : (q < 520)%nat → slot mnt V r q ≠ 0 → owned mnt V r (slot mnt V r q).
Proof. by exists q. Qed.

Lemma data_same_attach V r V' r' p z : file_wf mnt V r → slot mnt V r p = 0 → valid z → marked V mnt z = false → slots_upd mnt V r V' r' p z →
  V' !! (d, z) = Some zeros → (∀ z', valid z' → z' ≠ z → z' ≠ slot mnt V r 7 → V' !! (d, z') = V !! (d, z')) → data_same V r V' r'.
Proof.
  intros W Hp Hz Hf Hs H0 Hr q Hq H7. pose proof (valid_bounds z Hz). specialize (Hs q Hq) as Hsq. case_decide as D.
  - subst q. unfold scont. rewrite Hsq, Hp. destruct (Z.eqb_spec z 0); [lia|]. unfold blk. fold d. by rewrite H0.
  - apply scont_eq; [done|]. intros Hn. destruct (fw_zone _ _ _ W _ (slot_owned V r q Hq Hn)) as [Vq Mq]. apply Hr; [done| |].
    + intros E. rewrite E in Mq. congruence.
    + intros E. apply H7, (fw_diff _ _ _ W); auto. lia.
Qed.

(** The outcome of looking for the zone of slot [p], with the leave to take one. *)
Definition attached (P : Z → Prop) V0 V r R p (z : Z) (r' : minix_raw_inode) (s' : S) : Prop :=
  ∃ V', st true d s' V' R ∧ fstate mnt P V0 V' r' ∧ data_same V r V' r' ∧ nfree V ≤ nfree V' + 1 ∧
    (z = 0 ∧ V' = V ∧ r' = r ∧ slot mnt V r p = 0 ∧ nfree V = 0 ∨
     valid z ∧ slots_upd mnt V r V' r' p z ∧ (slot mnt V r p = 0 ∨ slot mnt V r p = z ∧ V' = V ∧ r' = r)).

Lemma attached_old P V0 V r R p s : st true d s V R → fstate mnt P V0 V r → (p < 520)%nat → slot mnt V r p ≠ 0 →
  attached P V0 V r R p (slot mnt V r p) r s.
Proof.
  intros C F Hp Hn. exists V. split_and!; [done..|lia|]. right. split_and!; [|intros q _; case_decide; by subst|by right].
  by apply (fw_zone _ _ _ (fs_wf _ _ _ _ _ F)), slot_owned.
Qed.

(** After the zone [z] was taken, [V'] and [r'] have it in slot [p]. *)
Lemma attach_fstate P V0 V r V1 V' r' p z : fstate mnt P V0 V r → (p < 520)%nat → slot mnt V r p = 0 → grown V V1 z → same_but mnt P V1 V' →
  (∀ z', valid z' → marked V' mnt z' = marked V1 mnt z') → raw_ok r' → zone_at r' 8 = 0 → slots_upd mnt V r V' r' p z →
  fstate mnt P V0 V' r'.
Proof.
  intros F Hp H0 G S1 Hm R' R8 Hs. destruct G as [Gv Gf Gm Gz Gr Gk Gs]. assert (P z) as HP by by apply (fs_free _ _ _ _ _ F).
  eapply (fstate_step mnt P V0 V r V' r' p z HS F); try done.
  - by eapply same_but_trans; [apply Gs|].
  - intros z' Hz'. rewrite (Hm z' Hz'), (Gk z' Hz'), H0. pose proof (valid_bounds z' Hz'). split; [intros [?|?]; [by left|right; split; [done|lia]]|]. intros [?|[? _]]; auto.
  - right. split_and!; try done. by left.
Qed.

Lemma need_zone_create P V0 V R p mi s : st true d s V R → (length R < 8)%nat → mnt_ok V mnt → fstate mnt P V0 V (mi_raw mi) → (p < 8)%nat →
  wp (need_zone mnt p true mi s) (λ '(z, mi', s'), attached P V0 V (mi_raw mi) R p z (mi_raw mi') s').
Proof.
  intros C HR HM F Hp. pose proof (fs_wf _ _ _ _ _ F) as W. pose proof (fw_raw _ _ _ W) as Hraw. unfold need_zone.
  destruct (zone_at_spec (mi_raw mi) p Hraw) as [-> _]; [lia|]. cbn [deref mbind outcome_bind].
  assert (slot mnt V (mi_raw mi) p = zone_at (mi_raw mi) p) as Ep by (unfold slot; by rewrite decide_True).
  destruct (Z.eqb_spec (zone_at (mi_raw mi) p) 0) as [E0|Hn]; cbn [andb].
  2: { apply wp_Ok. rewrite <- Ep. apply attached_old; try done; [lia|congruence]. }
  wp_step (alloc_data_zone_spec s V R C HR HM) as [z s1]. intros [(-> & C1 & Hall)|(V1 & C1 & G)].
  { apply wp_Ok. simpl. rewrite set_zone_same by (done || lia). exists V. split_and!; try done; [lia|]. left. rewrite (nfree_none V Hall). by rewrite Ep. }
  apply wp_Ok. pose proof G as [Gv Gf Gm Gz Gr Gk Gs]. pose proof (valid_bounds z Gv). unfold u16. rewrite Z.mod_small by lia. simpl.
  assert (slots_upd mnt V (mi_raw mi) V1 (set_zone p z (mi_raw mi)) p z) as Hs.
  { apply slots_upd_zone; [done..| |].
    - intros H7 Ht. apply Gr; [done|]. intros E. change (slot mnt V (mi_raw mi) 7 = z) in E. destruct (fw_zone _ _ _ W (slot mnt V (mi_raw mi) 7)) as [_ M].
      + apply slot_owned; [lia|]. rewrite E. lia.
      + rewrite E in M. congruence.
    - intros -> i Hi. rewrite E0. unfold entry, blk. fold d. rewrite Gv, Gz, zone_valid_0 by done. simpl. by rewrite word_zeros. }
  exists V1. split_and!; [done| | |by eapply nfree_grown|].
  - eapply (attach_fstate P V0 V _ V1 V1 _ p z F); try done; [lia|congruence|apply raw_ok_set; [done|lia]|].
    rewrite zone_at_set by (done || lia). rewrite decide_False by lia. apply W.
  - eapply data_same_attach; try done; [congruence|]. intros z' Hz' Hne _. by apply Gr.
  - right. split_and!; try done. left. congruence.
Qed.

Lemma need_entry_create P V0 V R r i h s : st true d s V R → (h, (d, zone_at r 7)) ∈ R → (length R < 8)%nat → mnt_ok V mnt → fstate mnt P V0 V r →
  valid (zone_at r 7) → 0 ≤ i < 512 →
  wp (need_entry mnt h i true s) (λ '(z, s'), attached P V0 V r R (Z.to_nat (i + 8)) z r s').
Proof.
  intros C Hin HR HM F Ht Hi. pose proof (fs_wf _ _ _ _ _ F) as W. unfold need_entry.
  set (t := zone_at r 7) in *. set (p := Z.to_nat (i + 8)). assert (Z.of_nat p - 8 = i) as Ep by lia. pose proof (valid_bounds t Ht).
  assert (slot mnt V r p = entry V mnt t i) as Es by (unfold slot; rewrite decide_False by lia; by rewrite Ep).
  wp_step (wp_block _ _ _ _ _ t h C Hin) as v. intros [-> Bv].
  assert (word (blk V (mnt_bdev mnt) t) i = entry V mnt t i) as Ew by (unfold entry; by rewrite Ht).
  destruct (get16_spec _ i Bv Hi) as [-> _]. cbn [mbind outcome_bind]. rewrite Ew.
  destruct (Z.eqb_spec (entry V mnt t i) 0) as [E0|Hn]; cbn [andb].
  2: { apply wp_Ok. rewrite <- Es. apply attached_old; try done; [lia|congruence]. }
  wp_step (alloc_data_zone_spec s V R C HR HM) as [z s1]. intros [(-> & C1 & Hall)|(V1 & C1 & G)].
  - wp_step (wp_block _ _ _ _ _ t h C1 Hin) as v. intros [-> _]. destruct (put16_spec _ i 0 Bv Hi ltac:(lia)) as [Bw Hw].
    wp_step (wp_bwrite _ _ t _ _ _ h _ C1 Hin Bw) as s2. intros C2.
    wp_step (wp_block _ _ _ _ _ t h C2 Hin) as v. intros [-> Bv2]. destruct (get16_spec _ i Bv2 Hi) as [-> _]. cbn [mbind outcome_bind]. apply wp_Ok.
    change (u16 0) with 0 in *. assert (put16 (blk V (mnt_bdev mnt) t) i 0 = blk V (mnt_bdev mnt) t) as Eb.
    { apply words_ext; [done..|]. intros j Hj. rewrite Hw by done. case_decide as D; [rewrite D; congruence|done]. }
    rewrite Eb in *. destruct (valid_block V mnt t HM Ht) as (_ & v & Hv & Ev). rewrite Ev in *. fold d in Hv. rewrite (insert_id V _ _ Hv) in *. rewrite Ev, Ew, E0.
    exists V. split_and!; [done..|lia|]. left. rewrite (nfree_none V Hall), Es. done.
  - pose proof G as [Gv Gf Gm Gz Gr Gk Gs]. pose proof (valid_bounds z Gv).
    assert (t ≠ z) as Htz. { intros E. destruct (fw_zone _ _ _ W t) as [_ M]; [exists 7%nat; split_and!; [lia|done|lia]|congruence]. }
    assert (blk V1 (mnt_bdev mnt) t = blk V (mnt_bdev mnt) t) as Eb by (unfold blk; fold d; by rewrite Gr).
    wp_step (wp_block _ _ _ _ _ t h C1 Hin) as v. intros [-> _]. rewrite Eb. unfold u16. rewrite Z.mod_small by lia.
    destruct (put16_spec _ i z Bv Hi ltac:(lia)) as [Bw Hw]. set (w := put16 _ i z) in *.
    wp_step (wp_bwrite _ _ t _ _ _ h w C1 Hin Bw) as s2. intros C2. fold d in C2. set (V2 := <[(d, t) := w]> V1) in *.
    assert (V2 !! (d, t) = Some w) as HV2 by apply lookup_insert_eq.
    assert (∀ z', valid z' → z' ≠ z → z' ≠ t → V2 !! (d, z') = V !! (d, z')) as Hrest.
    { intros z' Hz' Hne Hne'. unfold V2. rewrite lookup_insert_ne by congruence. auto. }
    wp_step (wp_block _ _ _ _ _ t h C2 Hin) as v. intros [-> Bv2]. destruct (get16_spec _ i Bv2 Hi) as [-> _]. cbn [mbind outcome_bind]. apply wp_Ok.
    unfold blk. fold d. rewrite HV2. simpl. rewrite Hw, decide_True by done.
    assert (slots_upd mnt V r V2 r p z) as Hs.
    { eapply slots_upd_entry; [lia|done|done|]. fold t. intros j Hj. rewrite Hw, Ep by done. case_decide; [done|]. unfold entry. by rewrite Ht. }
    exists V2. split_and!; [done| | | |].
    + eapply (attach_fstate P V0 V r V1 V2 r p z F); try done; [lia|congruence|apply same_insert; try done; apply (fs_own _ _ _ _ _ F); exists 7%nat; split_and!; [lia|done|lia]| |apply W|apply W].
      intros z' Hz'. by apply marked_insert.
    + eapply data_same_attach; try done; [congruence|]. unfold V2. by rewrite lookup_insert_ne by congruence.
    + pose proof (nfree_grown _ _ _ G). enough (nfree V1 ≤ nfree V2) by lia. apply nfree_mono. intros z' Hz'. by rewrite <- (marked_insert mnt HC V1 t w z' Gm Ht Hz').
    + right. split_and!; try done. left. congruence.
Qed.

(** ** [minix_bmap] with [create] *)

(** The zones left after the index block, which takes one. *)
Definition room (V : gmap key (list Z)) (r : minix_raw_inode) : Z := nfree V - (if zone_at r 7 =? 0 then 1 else 0).

Definition made (P : Z → Prop) V0 V r R (p : nat) : Z * minix_inode_info * S → Prop := λ '(b, mi', s'),
  let r' := mi_raw mi' in
  ∃ V', st true d s' V' R ∧ fstate mnt P V0 V' r' ∧ data_same V r V' r' ∧ room V r ≤ room V' r' + 1 ∧
    (∀ q, (q < 520)%nat → q ≠ p → slot mnt V' r' q = slot mnt V r q ∨ q = 7%nat ∧ slot mnt V r 7 = 0) ∧
    (b = 0 ∧ slot mnt V' r' p = 0 ∧ slot mnt V r p = 0 ∧ room V r ≤ 0 ∨
     valid b ∧ slot mnt V' r' p = b ∧ (slot mnt V r p = 0 ∨ slot mnt V r p = b)).

Lemma data_same_trans V r V1 r1 V2 r2 : data_same V r V1 r1 → data_same V1 r1 V2 r2 → data_same V r V2 r2.
Proof. intros D1 D2 q Hq H7. by rewrite D2, D1. Qed.

Lemma check_zone_valid z : z = 0 ∨ valid z → check_zone mnt z = z.
Proof. apply check_valid. Qed.

Lemma bmap_create_spec P V0 V R mi l s : st true d s V R → (length R < 6)%nat → fstate mnt P V0 V (mi_raw mi) → 0 ≤ l < 519 →
  wp (minix_bmap mnt mi l true s) (made P V0 V (mi_raw mi) R (lpos l)).
Proof.
  intros C HR F Hl. pose proof (fs_wf _ _ _ _ _ F) as W. pose proof (sb_mnt _ _ _ _ (fs_same _ _ _ _ _ F)) as HM. unfold minix_bmap, lpos.
  destruct (Z.ltb_spec l 7) as [H7|H7].
  - rewrite decide_True by done. wp_step (need_zone_create P V0 V R (Z.to_nat l) mi s C ltac:(lia) HM F ltac:(lia)) as [[z mi1] s1].
    intros (V1 & C1 & F1 & D1 & N1 & H1). apply wp_Ok. exists V1.
    destruct H1 as [(-> & -> & E & H1 & Hn)|(Hz & Hs & Ho)].
    + rewrite E in *. rewrite check_zone_valid by by left. unfold room. split_and!; try done; [lia|auto|]. left. split_and!; try done. case_match; lia.
    + rewrite check_zone_valid by by right. specialize (Hs (Z.to_nat l) ltac:(lia)) as Hsl. rewrite decide_True in Hsl by done.
      assert (zone_at (mi_raw mi1) 7 = zone_at (mi_raw mi) 7) as E7 by (specialize (Hs 7%nat ltac:(lia)); by rewrite decide_False in Hs by lia).
      unfold room. rewrite E7. split_and!; [done..|lia| |].
      * intros q Hq Hne. left. by rewrite Hs, decide_False.
      * right. split_and!; try done. destruct Ho as [?|(? & _)]; auto.
  - rewrite decide_False by lia. destruct (Z.ltb_spec (l - 7) 512); [|lia].
    wp_step (need_zone_create P V0 V R 7 mi s C ltac:(lia) HM F ltac:(lia)) as [[z mi1] s1].
    intros (V1 & C1 & F1 & D1 & N1 & H1). set (p := Z.to_nat (l + 1)). assert (p = Z.to_nat (l - 7 + 8)) as Ep by lia.
    destruct H1 as [(-> & -> & E & H1 & Hn)|(Hz & Hs & Ho)].
    { apply wp_Ok. rewrite E in *. exists V. unfold room. rewrite slot_7 in H1. rewrite E, H1, Z.eqb_refl.
      assert (slot mnt V (mi_raw mi) p = 0) as E0 by (unfold slot; rewrite decide_False by lia; rewrite H1; unfold entry; by rewrite zone_valid_0).
      split_and!; try done; [lia|auto|]. left. split_and!; try done. lia. }
    pose proof (valid_bounds z Hz). destruct (Z.eqb_spec z 0); [lia|]. rewrite Hz. cbn [negb].
    assert (zone_at (mi_raw mi1) 7 = z) as E7 by (specialize (Hs 7%nat ltac:(lia)); by rewrite decide_True in Hs).
    assert (room V (mi_raw mi) ≤ room V1 (mi_raw mi1)) as Hroom.
    { unfold room. rewrite E7. destruct (Z.eqb_spec z 0); [lia|]. destruct Ho as [Eo|(Eo & -> & _)]; rewrite slot_7 in Eo; rewrite Eo; [rewrite Z.eqb_refl; lia|]. destruct (Z.eqb_spec z 0); lia. }
    pose proof (sb_mnt _ _ _ _ (fs_same _ _ _ _ _ F1)) as HM1.
    wp_step (wp_table true mnt s1 V1 R z C1 HM1 ltac:(lia) Hz) as [[h|] s2]; [|intros [_ ?]; done]. intros C2. rewrite <- E7 in Hz, C2.
    wp_step (need_entry_create P V0 V1 _ _ (l - 7) h s2 C2 (list_elem_of_here _ _) ltac:(simpl; lia) HM1 F1 Hz ltac:(lia)) as [b s3].
    rewrite <- Ep. intros (V2 & C3 & F2 & D2 & N2 & H2). wp_step (wp_bput _ _ _ _ _ _ _ C3) as s4. intros C4. apply wp_Ok. exists V2.
    assert (∀ q, (q < 520)%nat → slot mnt V1 (mi_raw mi1) q = slot mnt V (mi_raw mi) q ∨ q = 7%nat ∧ slot mnt V (mi_raw mi) 7 = 0) as Hs'.
    { intros q Hq. rewrite Hs by done. case_decide as D; [|by left]. subst. destruct Ho as [?|(? & _)]; auto. }
    assert (slot mnt V1 (mi_raw mi1) p = slot mnt V (mi_raw mi) p) as Ep1 by (rewrite Hs, decide_False by lia; done).
    assert (data_same V (mi_raw mi) V2 (mi_raw mi1)) by by eapply data_same_trans.
    assert (room V1 (mi_raw mi1) ≤ room V2 (mi_raw mi1) + 1) as Hroom2 by (unfold room; lia).
    destruct H2 as [(-> & -> & _ & H2 & Hn)|(Hb & Hs2 & Ho2)].
    + rewrite check_zone_valid by by left. split_and!; try done; [lia| |].
      * auto.
      * left. split_and!; try done; [congruence|]. unfold room in *. destruct (Z.eqb_spec (zone_at (mi_raw mi1) 7) 0); lia.
    + rewrite check_zone_valid by by right. split_and!; try done; [lia| |].
      * intros q Hq Hne. rewrite Hs2, decide_False by done. auto.
      * right. rewrite Hs2, decide_True by (done || lia). rewrite <- Ep1. split_and!; try done. destruct Ho2 as [?|(? & _)]; auto.
Qed.

Definition in_range (i : Z) (n : nat) (l : Z) : Prop := i ≤ l < i + Z.of_nat n.

(** The outcome of the allocation loop. *)
Definition all_made (P : Z → Prop) V0 V r R i n : bool * list Z * minix_inode_info * S → Prop := λ '(ok, created, mi', s'),
  let r' := mi_raw mi' in
  ∃ V', st true d s' V' R ∧ fstate mnt P V0 V' r' ∧ data_same V r V' r' ∧
    (∀ q, (q < 520)%nat → slot mnt V' r' q = slot mnt V r q ∨ (∃ l, l ∈ created ∧ q = lpos l) ∨ q = 7%nat ∧ slot mnt V r 7 = 0) ∧
    (∀ l, l ∈ created → in_range i n l ∧ slot mnt V r (lpos l) = 0) ∧
    (ok = true → ∀ l, in_range i n l → slot mnt V' r' (lpos l) ≠ 0) ∧ (ok = false → room V r < Z.of_nat n ∧ ∃ l, in_range i n l ∧ slot mnt V r (lpos l) = 0).

Lemma create_blocks_spec P V0 R n i V mi s : st true d s V R → (length R < 6)%nat → fstate mnt P V0 V (mi_raw mi) → 0 ≤ i → i + Z.of_nat n ≤ 519 →
  wp (create_blocks n i mnt mi s) (all_made P V0 V (mi_raw mi) R i n).
Proof.
  revert i V mi s. induction n as [|n IH]; intros i V mi s C HR F Hi Hn; cbn [create_blocks].
  { apply wp_Ok. exists V. split_and!; try done; [auto|set_solver|]. intros _ l [? ?]. lia. }
  pose proof (fs_wf _ _ _ _ _ F) as W. pose proof (sb_mnt _ _ _ _ (fs_same _ _ _ _ _ F)) as HM.
  wp_step (bmap_read_spec true mnt mi i s V R C HM ltac:(lia) (fw_raw _ _ _ W) Hi) as [[b mi0] s1]. intros (-> & C1 & _ & Hb).
  rewrite (bmap_slot mnt V _ i W) in Hb by lia. specialize (Hb eq_refl). subst b.
  wp_step (bmap_create_spec P V0 V R mi i s1 C1 HR F ltac:(lia)) as [[b mi1] s2]. intros (V1 & C2 & F1 & D1 & R1 & Hs1 & Hb).
  destruct (lpos_lt i ltac:(lia)) as [Hp1 Hp2].
  destruct Hb as [(-> & Hb1 & Hb2 & Hb3)|(Hb & Hb1 & Hb2)].
  { apply wp_Ok. exists V1. split_and!; try done; [|set_solver|intros _; split; [lia|exists i; split; [split; lia|done]]]. intros q Hq. destruct (decide (q = lpos i)) as [->|]; [left; congruence|].
    destruct (Hs1 q); auto. }
  pose proof (valid_bounds b Hb). destruct (Z.eqb_spec b 0); [lia|].
  wp_step (IH (i + 1) V1 mi1 s2 C2 HR F1 ltac:(lia) ltac:(lia)) as [[[ok created] mi2] s3]. intros (V2 & C3 & F2 & D2 & Hs2 & Hc & Hok & Hno).
  apply wp_Ok. set (made_here := slot mnt V (mi_raw mi) (lpos i) =? 0). exists V2.
  assert (∀ l, in_range (i + 1) n l → lpos l ≠ lpos i) as Hlp by (intros l [? ?] E; apply lpos_inj in E; lia).
  assert (∀ l, l ∈ created → l ∈ (if made_here then i :: created else created)) as Hin by (intros l Hl; destruct made_here; set_solver).
  split_and!; try done; [by eapply data_same_trans| | | |].
  - intros q Hq. destruct (Hs2 q Hq) as [E|[(l & Hl & ->)|[-> E]]].
    + rewrite E. destruct (decide (q = lpos i)) as [->|Hne].
      * unfold made_here. destruct (Z.eqb_spec (slot mnt V (mi_raw mi) (lpos i)) 0) as [E0|Hne0]; [right; left; exists i; set_solver|].
        left. destruct Hb2; congruence.
      * destruct (Hs1 q Hq Hne) as [?|?]; auto.
    + right. left. exists l. auto.
    + right. right. destruct (Hs1 7%nat Hq ltac:(auto)) as [E'|[_ E']]; [|done]. split; [done|congruence].
  - intros l Hl. assert (l ∈ created ∨ l = i ∧ slot mnt V (mi_raw mi) (lpos i) = 0) as [Hl'|[-> E]].
    { unfold made_here in Hl. destruct (Z.eqb_spec (slot mnt V (mi_raw mi) (lpos i)) 0); set_solver. }
    + destruct (Hc l Hl') as [Hr E]. pose proof (Hlp l Hr) as Hne. destruct Hr. split; [split; lia|]. destruct (lpos_lt l ltac:(lia)).
      destruct (Hs1 (lpos l)) as [E'|[? _]]; [done..|congruence|done].
    + split; [split; lia|done].
  - intros Eok l [Hl1 Hl2]. destruct (decide (l = i)) as [->|]; [|apply Hok; [done|split; lia]]. destruct (Hs2 (lpos i) Hp1) as [E|[(l & Hl & E)|[? _]]]; [rewrite E; congruence| |done].
    destruct (Hc l Hl) as [Hr _]. by destruct (Hlp l Hr).
  - intros E. destruct (Hno E) as (Hr & l & [Hl1 Hl2] & E0). split; [lia|]. exists l. split; [split; lia|]. destruct (lpos_lt l ltac:(lia)).
    destruct (Hs1 (lpos l)) as [E'|[? _]]; [done|apply Hlp; split; lia|congruence|done].
Qed.

(** ** Detaching a zone *)

Definition cleared (P : Z → Prop) V0 V r R p (r' : minix_raw_inode) (s' : S) : Prop :=
  ∃ V', st true d s' V' R ∧ fstate mnt P V0 V' r' ∧ slots_upd mnt V r V' r' p 0 ∧
    ∀ q, (q < 520)%nat → q ≠ 7%nat → q ≠ p → scont mnt V' r' q = scont mnt V r q.

Lemma cleared_empty P V0 V r R p s : st true d s V R → fstate mnt P V0 V r → slot mnt V r p = 0 → cleared P V0 V r R p r s.
Proof. intros C F E. exists V. split_and!; try done. intros q Hq. case_decide; by subst. Qed.

(** The zone of slot [p] is freed ([V1]) and the slot emptied ([V'], [r']). *)
Lemma detach P V0 V r R V1 V' r' p s : fstate mnt P V0 V r → (p < 520)%nat → slot mnt V r p ≠ 0 →
  map_changed V V1 d (zmap_start mnt) (zindex mnt (slot mnt V r p)) false → same_but mnt P V1 V' →
  (∀ z, valid z → marked V' mnt z = marked V1 mnt z) → (∀ z, valid z → z ≠ slot mnt V r 7 → V' !! (d, z) = V1 !! (d, z)) →
  raw_ok r' → zone_at r' 8 = 0 → slots_upd mnt V r V' r' p 0 → st true d s V' R → cleared P V0 V r R p r' s.
Proof.
  intros F Hp Hn Hc S1 Hm Hd R' R8 Hs C. pose proof (fs_wf _ _ _ _ _ F) as W. pose proof (sb_mnt _ _ _ _ (fs_same _ _ _ _ _ F)) as HM.
  pose proof (slot_owned V r p Hp Hn) as Ho. destruct (fw_zone _ _ _ W _ Ho) as [Vz _]. destruct (mark_changed mnt HC V V1 _ false HM Vz Hc) as (M1 & Hm1 & _). fold d in Hm1.
  exists V'. split_and!; try done.
  - eapply (fstate_step mnt P V0 V r V' r' p 0 HS F); try done; [| |by left].
    + eapply same_but_trans; [|exact S1]. eapply mark_same; try done. by apply (fs_own _ _ _ _ _ F).
    + intros z Hz. rewrite (Hm z Hz), (proj1 (Hm1 z Hz)). pose proof (valid_bounds z Hz). case_decide; split; [done|intros [?|[? ?]]; [lia|done]|auto|intros [?|[? ?]]; [lia|done]].
  - intros q Hq H7 Hne. specialize (Hs q Hq) as E. rewrite decide_False in E by done. apply scont_eq; [done|]. intros Hq0.
    destruct (fw_zone _ _ _ W _ (slot_owned V r q Hq Hq0)) as [Vq _]. rewrite Hd, (proj2 (Hm1 _ Vq)); [done..|].
    intros E7. apply H7, (fw_diff _ _ _ W); auto. lia.
Qed.

Lemma safe_free_spec V R z s : st true d s V R → (length R < 8)%nat → mnt_ok V mnt → valid z → marked V mnt z = true →
  wp (minix_safe_free_zone mnt z s) (λ s', ∃ V', st true d s' V' R ∧ map_changed V V' d (zmap_start mnt) (zindex mnt z) false).
Proof.
  intros C HR HM Hz Hm. unfold minix_safe_free_zone. pose proof (valid_bounds z Hz). destruct (Z.eqb_spec z 0); [lia|]. rewrite Hz. cbn [negb].
  by apply free_zone_spec.
Qed.

(** Emptying slot [p] of the inode itself. *)
Lemma clear_zone_spec P V0 V R r p s : st true d s V R → (length R < 8)%nat → fstate mnt P V0 V r → (p < 8)%nat → slot mnt V r p ≠ 0 →
  (p = 7%nat → ∀ i, 0 ≤ i < 512 → entry V mnt (zone_at r 7) i = 0) →
  wp (minix_safe_free_zone mnt (slot mnt V r p) s) (λ s', cleared P V0 V r R p (set_zone p 0 r) s').
Proof.
  intros C HR F Hp Hn H7. pose proof (fs_wf _ _ _ _ _ F) as W. pose proof (sb_mnt _ _ _ _ (fs_same _ _ _ _ _ F)) as HM.
  destruct (fw_zone _ _ _ W _ (slot_owned V r p ltac:(lia) Hn)) as [Vz Mz]. pose proof (fw_raw _ _ _ W) as Hraw.
  eapply wp_mono; [by apply safe_free_spec|]. intros s1 (V1 & C1 & Hc). destruct (mark_changed mnt HC V V1 _ false HM Vz Hc) as (M1 & Hm1 & _). fold d in Hm1.
  eapply (detach P V0 V r R V1 V1); try done; [lia|by apply raw_ok_set| |].
  - rewrite zone_at_set by (done || lia). rewrite decide_False by lia. apply W.
  - apply slots_upd_zone; [done..|intros _ Ht; apply (Hm1 _ Ht)|]. intros -> i Hi. split; [unfold entry; by rewrite zone_valid_0|auto].
Qed.

Lemma clear_entry_spec P V0 V R r i h s : st true d s V R → (h, (d, zone_at r 7)) ∈ R → (length R < 8)%nat → fstate mnt P V0 V r → valid (zone_at r 7) → 0 ≤ i < 512 →
  wp (clear_entry mnt h i s) (λ s', cleared P V0 V r R (Z.to_nat (i + 8)) r s').
Proof.
  intros C Hin HR F Ht Hi. pose proof (fs_wf _ _ _ _ _ F) as W. pose proof (sb_mnt _ _ _ _ (fs_same _ _ _ _ _ F)) as HM. unfold clear_entry.
  set (t := zone_at r 7) in *. set (p := Z.to_nat (i + 8)). assert (Z.of_nat p - 8 = i) as Ep by lia. pose proof (valid_bounds t Ht).
  assert (slot mnt V r p = entry V mnt t i) as Es by (unfold slot; rewrite decide_False by lia; by rewrite Ep).
  wp_step (wp_block _ _ _ _ _ t h C Hin) as v. intros [-> Bv].
  assert (word (blk V (mnt_bdev mnt) t) i = entry V mnt t i) as Ew by (unfold entry; by rewrite Ht).
  destruct (get16_spec _ i Bv Hi) as [-> _]. cbn [mbind outcome_bind]. rewrite Ew, <- Es.
  destruct (Z.eqb_spec (slot mnt V r p) 0) as [E0|Hn]; cbn [negb]; [apply wp_Ok; by apply cleared_empty|].
  destruct (fw_zone _ _ _ W _ (slot_owned V r p ltac:(lia) Hn)) as [Vz Mz].
  wp_step (safe_free_spec V R _ s C HR HM Vz Mz) as s1. intros (V1 & C1 & Hc). destruct (mark_changed mnt HC V V1 _ false HM Vz Hc) as (M1 & Hm1 & _). fold d in Hm1.
  assert (blk V1 (mnt_bdev mnt) t = blk V (mnt_bdev mnt) t) as Eb by (unfold blk; fold d; by rewrite (proj2 (Hm1 t Ht))).
  wp_step (wp_block _ _ _ _ _ t h C1 Hin) as v. intros [-> _]. rewrite Eb. destruct (put16_spec _ i 0 Bv Hi ltac:(lia)) as [Bw Hw]. set (w := put16 _ i 0) in *.
  eapply wp_mono; [apply (wp_bwrite _ _ t _ _ _ h w C1 Hin Bw)|]. intros s2 C2.
  eapply (detach P V0 V r R V1 (<[(d, t) := w]> V1)); try done; [lia| | | |apply W|apply W|].
  - apply same_insert; try done. apply (fs_own _ _ _ _ _ F). exists 7%nat. split_and!; [lia|done|lia].
  - intros z Hz. by apply marked_insert.
  - intros z Hz Hne. rewrite lookup_insert_ne; [done|]. intros [= E]. by apply Hne.
  - eapply slots_upd_entry; [lia|done|apply lookup_insert_eq|]. fold t. intros j Hj. rewrite Hw, Ep by done. case_decide; [done|]. unfold entry. by rewrite Ht.
Qed.

Lemma clear_mapping_spec P V0 V R mi l s : st true d s V R → (length R < 6)%nat → fstate mnt P V0 V (mi_raw mi) → 0 ≤ l < 519 →
  wp (minix_clear_block_mapping mnt mi l s) (λ '(mi', s'), cleared P V0 V (mi_raw mi) R (lpos l) (mi_raw mi') s').
Proof.
  intros C HR F Hl. pose proof (fs_wf _ _ _ _ _ F) as W. pose proof (fw_raw _ _ _ W) as Hraw. unfold minix_clear_block_mapping, lpos.
  destruct (Z.ltb_spec l 7).
  - rewrite decide_True by done. destruct (zone_at_spec _ (Z.to_nat l) Hraw) as [-> _]; [lia|]. cbn [deref mbind outcome_bind].
    assert (zone_at (mi_raw mi) (Z.to_nat l) = slot mnt V (mi_raw mi) (Z.to_nat l)) as E by (unfold slot; by rewrite decide_True by lia). rewrite E.
    destruct (Z.eqb_spec (slot mnt V (mi_raw mi) (Z.to_nat l)) 0); cbn [negb]; [apply wp_Ok; by apply cleared_empty|].
    wp_step (clear_zone_spec P V0 V R (mi_raw mi) (Z.to_nat l) s C ltac:(lia) F ltac:(lia) ltac:(done) ltac:(lia)) as s1. intros H1. by apply wp_Ok.
  - rewrite decide_False by lia. destruct (Z.ltb_spec (l - 7) 512); [|lia]. destruct (zone_at_spec _ 7 Hraw) as [-> _]; [lia|]. cbn [deref mbind outcome_bind].
    destruct (Z.eqb_spec (zone_at (mi_raw mi) 7) 0) as [E|Hn].
    { apply wp_Ok. apply cleared_empty; try done. unfold slot. rewrite decide_False by lia. rewrite E. unfold entry. by rewrite zone_valid_0. }
    destruct (fw_zone _ _ _ W (zone_at (mi_raw mi) 7)) as [Vz _]; [exists 7%nat; split_and!; [lia|done|done]|].
    wp_step (wp_table true mnt s V R _ C (sb_mnt _ _ _ _ (fs_same _ _ _ _ _ F)) ltac:(lia) Vz) as [[h|] s1]; [|intros [_ ?]; done]. intros C1.
    wp_step (clear_entry_spec P V0 V _ _ (l - 7) h s1 C1 (list_elem_of_here _ _) ltac:(simpl; lia) F Vz ltac:(lia)) as s2. intros (V2 & C2 & F2 & S2 & D2).
    wp_step (wp_bput _ _ _ _ _ _ _ C2) as s3. intros C3. apply wp_Ok. replace (Z.to_nat (l + 1)) with (Z.to_nat (l - 7 + 8)) by lia. by exists V2.
Qed.

End Write.
