(* ===== verification/MinixFile.v ===== *)
(** * MINIX files as their users see them

    The rollback and the copying loop of [minix_write], and what a write as a
    whole does to the file, to the free zones and to the other files. *)

From S2P Require Import Prelude Bufcache BufcacheSpec BufcacheSystem Minix MinixMap MinixRead MinixTree MinixWrite.

Section File.
Context {S : Type} {BC : BlockCache S} {CS : BlockCacheSpec S}.
Context (mnt : minix_mount_info) (HC : maps_cover (mnt_sb mnt)) (HS : sb_ok (mnt_sb mnt)).
Let d : Z := mnt_bdev mnt.
Let valid (z : Z) : Prop := zone_valid (mnt_sb mnt) z = true.

(** ** Rolling an allocation back *)

Lemma clear_list_spec P V0 R ls V mi s : st true d s V R → (length R < 6)%nat → fstate mnt P V0 V (mi_raw mi) → Forall (λ l, 0 ≤ l < 519) ls →
  wp (clear_created ls mnt mi s) (λ '(mi', s'), ∃ V', st true d s' V' R ∧ fstate mnt P V0 V' (mi_raw mi') ∧
    (∀ l, l ∈ ls → slot mnt V' (mi_raw mi') (lpos l) = 0) ∧
    ∀ q, (q < 520)%nat → (∃ l, l ∈ ls ∧ q = lpos l) ∧ slot mnt V' (mi_raw mi') q = 0 ∨
      slot mnt V' (mi_raw mi') q = slot mnt V (mi_raw mi) q ∧ (q ≠ 7%nat → scont mnt V' (mi_raw mi') q = scont mnt V (mi_raw mi) q)).
Proof.
  revert V mi s. induction ls as [|l ls IH]; intros V mi s C HR F Hl; cbn [clear_created].
  { apply wp_Ok. exists V. split_and!; try done; [set_solver|auto]. }
  apply Forall_cons in Hl as [Hl0 Hl].
  wp_step (clear_mapping_spec mnt HC HS P V0 V R mi l s C HR F Hl0) as [mi1 s1]. intros (V1 & C1 & F1 & S1 & D1).
  eapply wp_mono; [apply (IH V1 mi1 s1 C1 HR F1 Hl)|]. intros [mi2 s2] (V2 & C2 & F2 & H0 & Hs). exists V2. split_and!; try done.
  { intros l' [->|Hl']%elem_of_cons; [|auto]. destruct (lpos_lt l Hl0) as [Hp _]. specialize (S1 _ Hp). rewrite decide_True in S1 by done.
    destruct (Hs _ Hp) as [[_ ?]|[-> _]]; done. }
  intros q Hq. destruct (Hs q Hq) as [[(l' & Hl' & E) E0]|[E Ed]]; [left; split; [exists l'; set_solver|done]|].
  specialize (S1 q Hq). case_decide as Dq.
  - left. split; [exists l; set_solver|congruence].
  - right. split; [congruence|]. intros H7. rewrite Ed, D1; done.
Qed.

Lemma entries_empty_spec v n i : block_ok v → 0 ≤ i → i + Z.of_nat n ≤ 512 →
  ∃ b, entries_empty n i v = Ok b ∧ (b = true ↔ ∀ j, i ≤ j < i + Z.of_nat n → word v j = 0).
Proof.
  intros B. revert i. induction n as [|n IH]; intros i Hi Hn; cbn [entries_empty]; [exists true; split; [done|]; split; [lia|done]|].
  destruct (get16_spec v i B ltac:(lia)) as [-> _]. cbn [mbind outcome_bind]. destruct (Z.eqb_spec (word v i) 0) as [E|Hne]; cbn [negb].
  - destruct (IH (i + 1) ltac:(lia) ltac:(lia)) as (b & -> & Hb). exists b. split; [done|]. rewrite Hb. split; intros H j Hj.
    + destruct (decide (j = i)) as [->|]; [done|]. apply H. lia.
    + apply H. lia.
  - exists false. split; [done|]. split; [done|]. intros H. destruct Hne. apply H. lia.
Qed.

(** The index block goes when all its entries are empty. *)
Lemma prune_spec P V0 R V mi s : st true d s V R → (length R < 6)%nat → fstate mnt P V0 V (mi_raw mi) →
  wp (minix_prune_empty_indirects mnt mi s) (λ '(mi', s'), ∃ V', st true d s' V' R ∧ fstate mnt P V0 V' (mi_raw mi') ∧
    (∀ q, (q < 520)%nat → q ≠ 7%nat → slot mnt V' (mi_raw mi') q = slot mnt V (mi_raw mi) q) ∧ data_same mnt V (mi_raw mi) V' (mi_raw mi') ∧
    (slot mnt V' (mi_raw mi') 7 = 0 ∨ slot mnt V' (mi_raw mi') 7 = slot mnt V (mi_raw mi) 7) ∧
    ((∀ q, (8 ≤ q < 520)%nat → slot mnt V (mi_raw mi) q = 0) → slot mnt V' (mi_raw mi') 7 = 0)).
Proof.
  intros C HR F. pose proof (fs_wf _ _ _ _ _ F) as W. pose proof (fw_raw _ _ _ W) as Hraw. pose proof (sb_mnt _ _ _ _ (fs_same _ _ _ _ _ F)) as HM.
  unfold minix_prune_empty_indirects. destruct (zone_at_spec _ 7 Hraw) as [-> _]; [lia|]. cbn [deref mbind outcome_bind].
  eapply (wp_bind _ _ (λ '(mi', s'), ∃ V', st true d s' V' R ∧ fstate mnt P V0 V' (mi_raw mi') ∧
    (∀ q, (q < 520)%nat → q ≠ 7%nat → slot mnt V' (mi_raw mi') q = slot mnt V (mi_raw mi) q) ∧ data_same mnt V (mi_raw mi) V' (mi_raw mi') ∧
    (slot mnt V' (mi_raw mi') 7 = 0 ∨ slot mnt V' (mi_raw mi') 7 = slot mnt V (mi_raw mi) 7) ∧
    ((∀ q, (8 ≤ q < 520)%nat → slot mnt V (mi_raw mi) q = 0) → slot mnt V' (mi_raw mi') 7 = 0))).
  2: { intros [mi1 s1] (V1 & C1 & F1 & H1). pose proof (fs_wf _ _ _ _ _ F1) as W1. destruct (zone_at_spec _ 8 (fw_raw _ _ _ W1)) as [-> _]; [lia|].
    cbn [deref mbind outcome_bind]. rewrite (fw_double _ _ _ W1), Z.eqb_refl. apply wp_Ok. by exists V1. }
  destruct (Z.eqb_spec (zone_at (mi_raw mi) 7) 0) as [E|Hn]; cbn [negb].
  { apply wp_Ok. exists V. split_and!; try done. by left. }
  destruct (fw_zone _ _ _ W (zone_at (mi_raw mi) 7)) as [Vz _]; [exists 7%nat; split_and!; [lia|done|done]|].
  unfold minix_indirect_empty. destruct (Z.eqb_spec (zone_at (mi_raw mi) 7) 0); [done|].
  assert (∀ q, (8 ≤ q < 520)%nat → slot mnt V (mi_raw mi) q = word (blk V (mnt_bdev mnt) (zone_at (mi_raw mi) 7)) (Z.of_nat q - 8)) as Hq.
  { intros q Hq. unfold slot. rewrite decide_False by lia. unfold entry. by rewrite Vz. }
  set (t := zone_at (mi_raw mi) 7) in *.
  eapply (wp_bind _ _ (λ '(e, s'), st true d s' V R ∧ (e = true ↔ ∀ j, 0 ≤ j < 512 → word (blk V (mnt_bdev mnt) t) j = 0))).
  { wp_step (wp_table true mnt s V R _ C HM ltac:(lia) Vz) as [[h|] s1]; [|intros [_ ?]; done]. intros C1.
    wp_step (wp_block _ _ _ _ _ t h C1 (list_elem_of_here _ _)) as v. intros [-> Bv].
    destruct (entries_empty_spec _ 512 0 Bv ltac:(lia) ltac:(lia)) as (e & -> & He). cbn [mbind outcome_bind].
    wp_step (wp_bput _ _ _ _ _ _ _ C1) as s2. intros C2. by apply wp_Ok. }
  intros [[] s1] [C1 He].
  - wp_step (clear_zone_spec mnt HC HS P V0 V R (mi_raw mi) 7 s1 C1 ltac:(lia) F ltac:(lia) ltac:(done)) as s2.
    { intros _ i Hi. unfold entry. fold t. rewrite Vz. by apply He. }
    intros (V2 & C2 & F2 & S2 & D2). apply wp_Ok. simpl. exists V2. specialize (S2 7%nat ltac:(lia)) as S7. rewrite decide_True in S7 by done. split_and!; try done; [| |by left].
    + intros q Hq1 H7. by rewrite S2, decide_False.
    + intros q Hq1 H7. auto.
  - apply wp_Ok. exists V. split_and!; try done; [by right|]. intros H0. exfalso. enough (false = true) by done. apply He. intros j Hj.
    specialize (Hq (Z.to_nat (j + 8)) ltac:(lia)). replace (Z.of_nat (Z.to_nat (j + 8)) - 8) with j in Hq by lia. rewrite <- Hq. apply H0. lia.
Qed.

(** Only the zone pointers of an inode matter. *)
Lemma fstate_zones P V0 V r r' : i_zone r' = i_zone r → fstate mnt P V0 V r → fstate mnt P V0 V r'.
Proof.
  intros E [[W1 W2 W3 W4] Fs Fe Fo Ff]. assert (∀ p, zone_at r' p = zone_at r p) as Ez by (intros p; unfold zone_at; by rewrite E).
  assert (∀ p, slot mnt V r' p = slot mnt V r p) as Es by (intros p; unfold slot; by rewrite !Ez).
  assert (∀ z, owned mnt V r' z ↔ owned mnt V r z) as Eo by (intros z; unfold owned; by setoid_rewrite Es).
  constructor; [constructor|done|..].
  - unfold raw_ok. by rewrite E.
  - by rewrite Ez.
  - intros z. rewrite Eo. auto.
  - intros p q. rewrite !Es. auto.
  - intros z ???. apply Eo. auto.
  - intros z. rewrite Eo. auto.
  - done.
Qed.

(** A rolled-back allocation leaves the file's data, and owns no more than before. *)
Lemma rollback_spec P V0 V v R i n ok created mi1 s1 : 0 ≤ i → i + Z.of_nat n ≤ 519 → (length R < 6)%nat →
  all_made mnt P V0 V (mi_raw (v_info v)) R i n (ok, created, mi1, s1) → file_wf mnt V (mi_raw (v_info v)) →
  wp (rollback_alloc mnt v mi1 created s1) (λ '(v', s'), v_size v' = v_size v ∧ v_ino v' = v_ino v ∧ v_mode v' = v_mode v ∧ v_is_dir v' = v_is_dir v ∧
    i_time (mi_raw (v_info v')) = i_time (mi_raw (v_info v)) ∧ ∃ V', st true d s' V' R ∧
    fstate mnt P V0 V' (mi_raw (v_info v')) ∧ data_same mnt V (mi_raw (v_info v)) V' (mi_raw (v_info v')) ∧
    (∀ q, (q < 520)%nat → q ≠ 7%nat → slot mnt V' (mi_raw (v_info v')) q = slot mnt V (mi_raw (v_info v)) q) ∧
    (slot mnt V' (mi_raw (v_info v')) 7 = 0 ∨ slot mnt V' (mi_raw (v_info v')) 7 = slot mnt V (mi_raw (v_info v)) 7)).
Proof.
  intros Hi Hn HR (V1 & C1 & F1 & D1 & Hs1 & Hc & _) W. set (r := mi_raw (v_info v)) in *. unfold rollback_alloc.
  wp_step (clear_list_spec P V0 R created V1 mi1 s1 C1 HR F1) as [mi2 s2]. { apply Forall_forall. intros l Hl. destruct (Hc l Hl) as [[? ?] _]. lia. }
  intros (V2 & C2 & F2 & Hz2 & Hs2). wp_step (prune_spec P V0 R V2 mi2 s2 C2 HR F2) as [mi3 s3]. intros (V3 & C3 & F3 & Hs3 & D3 & H7 & He). apply wp_Ok.
  assert (∀ q, (q < 520)%nat → q ≠ 7%nat → slot mnt V2 (mi_raw mi2) q = slot mnt V r q ∧ scont mnt V2 (mi_raw mi2) q = scont mnt V r q) as Hq.
  { intros q Hq Hq7. assert (∀ l, l ∈ created → q = lpos l → slot mnt V2 (mi_raw mi2) q = slot mnt V r q ∧ scont mnt V2 (mi_raw mi2) q = scont mnt V r q) as Hcr.
    { intros l Hl ->. destruct (Hc l Hl) as [_ E]. unfold scont. by rewrite E, (Hz2 l Hl). }
    destruct (Hs2 q Hq) as [[(l & Hl & E) _]|[E Ed]]; [by eapply Hcr|]. specialize (Ed Hq7).
    destruct (Hs1 q Hq) as [E1|[(l & Hl & E1)|[? _]]]; [|by eapply Hcr|done]. by rewrite E, Ed, D1. }
  assert (slot mnt V3 (mi_raw mi3) 7 = 0 ∨ slot mnt V3 (mi_raw mi3) 7 = slot mnt V r 7) as Hq7.
  { destruct H7 as [?|H7]; [by left|]. destruct (Hs2 7%nat ltac:(lia)) as [[_ E]|[E _]]; [left; congruence|]. rewrite H7, E.
    destruct (Hs1 7%nat ltac:(lia)) as [E1|[(l & Hl & E1)|[_ E0]]]; [by right| |].
    - destruct (Hc l Hl) as [[? ?] _]. by destruct (lpos_lt l ltac:(lia)).
    - left. rewrite <- E, <- H7. apply He. intros q Hq8. destruct (Hq q) as [-> _]; [lia..|]. unfold slot. rewrite decide_False by lia.
      rewrite slot_7 in E0. rewrite E0. unfold entry. by rewrite zone_valid_0. }
  split_and!; try done. exists V3. split_and!; [done|by eapply fstate_zones; [|exact F3]| | |].
  - intros q Hq1 Hq2. change (scont mnt V3 (mi_raw mi3) q = scont mnt V r q). rewrite D3 by done. by apply Hq.
  - intros q Hq1 Hq2. change (slot mnt V3 (mi_raw mi3) q = slot mnt V r q). rewrite Hs3 by done. by apply Hq.
  - exact Hq7.
Qed.

(** ** Copying the data *)

Lemma splice_ok off bytes v : block_ok v → Forall byte bytes → (off + length bytes ≤ 1024)%nat → block_ok (splice_bytes off bytes v).
Proof.
  intros [L F] Fb H. unfold splice_bytes. split; [rewrite !length_app, length_take, length_drop; lia|].
  apply Forall_app. split; [by apply Forall_take|]. apply Forall_app. split; [done|by apply Forall_drop].
Qed.

Lemma splice_byte off bytes v i : block_ok v → (off + length bytes ≤ 1024)%nat → 0 ≤ i →
  byte_of (splice_bytes off bytes v) i =
    if decide (Z.of_nat off ≤ i < Z.of_nat off + Z.of_nat (length bytes)) then byte_of bytes (i - Z.of_nat off) else byte_of v i.
Proof.
  intros [L _] H Hi. unfold byte_of, splice_bytes. case_decide as D.
  - rewrite lookup_app_r by (rewrite length_take; lia). rewrite lookup_app_l by (rewrite length_take; lia). rewrite length_take. do 2 f_equal. lia.
  - destruct (Z.lt_ge_cases i (Z.of_nat off)).
    + rewrite lookup_app_l by (rewrite length_take; lia). by rewrite lookup_take_lt by lia.
    + rewrite !lookup_app_r by (rewrite ?length_take; lia). rewrite length_take, lookup_drop. do 2 f_equal. lia.
Qed.

(** [V'] has the bytes [bytes] of the file [r] at [off]. *)
Definition spliced (V : gmap key (list Z)) (r : minix_raw_inode) (V' : gmap key (list Z)) (r' : minix_raw_inode) (off len : Z) (bytes : list Z) : Prop :=
  ∀ o, 0 ≤ o → fbyte V' mnt r' o = if decide (off ≤ o < off + len) then byte_of bytes (o - off) else fbyte V mnt r o.

Lemma same_slots_fstate P V0 V r t v : fstate mnt P V0 V r → owned mnt V r t → t ≠ slot mnt V r 7 →
  (∀ q, slot mnt (<[(d, t) := v]> V) r q = slot mnt V r q) ∧ fstate mnt P V0 (<[(d, t) := v]> V) r.
Proof.
  intros F Ho H7. pose proof (fs_wf _ _ _ _ _ F) as W. pose proof (sb_mnt _ _ _ _ (fs_same _ _ _ _ _ F)) as HM. destruct (fw_zone _ _ _ W t Ho) as [Vt Mt].
  assert (∀ q, slot mnt (<[(d, t) := v]> V) r q = slot mnt V r q) as Hs.
  { intros q. unfold slot. case_decide; [done|]. apply entry_eq. intros _. rewrite lookup_insert_ne; [done|]. intros [= E]. by apply H7. }
  split; [done|]. eapply (fstate_step mnt P V0 V r _ r 7 (slot mnt V r 7) HS F); [|apply W|apply W|lia| | |].
  - apply same_insert; try done. by apply (fs_own _ _ _ _ _ F).
  - intros q Hq. rewrite Hs. case_decide; by subst.
  - intros z Hz. pose proof (marked_insert mnt HC V t v z HM Vt Hz) as Em. fold d in Em. rewrite Em. destruct (decide (z = slot mnt V r 7)) as [->|]; [|tauto]. split; [by left|]. intros _.
    apply (fw_zone _ _ _ W). exists 7%nat. split_and!; [lia|done|]. intros E. rewrite E in Hz. unfold valid in Hz. by rewrite zone_valid_0 in Hz.
  - destruct (decide (slot mnt V r 7 = 0)); [by left|right]. assert (owned mnt V r (slot mnt V r 7)) as Ho7 by (exists 7%nat; split_and!; [lia|done..]).
    split_and!; [by apply (fw_zone _ _ _ W)|by apply (fs_own _ _ _ _ _ F)|by right].
Qed.

Lemma write_piece P V0 V r l boff bytes : fstate mnt P V0 V r → 0 ≤ l < 519 → slot mnt V r (lpos l) ≠ 0 → 0 ≤ boff → Forall byte bytes →
  boff + Z.of_nat (length bytes) ≤ 1024 → (∀ k v, V !! k = Some v → block_ok v) →
  let z := slot mnt V r (lpos l) in let v := splice_bytes (Z.to_nat boff) bytes (blk V d z) in let V' := <[(d, z) := v]> V in
  block_ok v ∧ fstate mnt P V0 V' r ∧ (∀ q, slot mnt V' r q = slot mnt V r q) ∧ spliced V r V' r (l * 1024 + boff) (Z.of_nat (length bytes)) bytes.
Proof.
  intros F Hl Hn Hb HB Hlen HV z v V'. pose proof (fs_wf _ _ _ _ _ F) as W. pose proof (sb_mnt _ _ _ _ (fs_same _ _ _ _ _ F)) as HM.
  destruct (lpos_lt l Hl) as [Hp Hp7]. assert (owned mnt V r z) as Ho by by exists (lpos l). destruct (fw_zone _ _ _ W z Ho) as [Vz _].
  destruct (valid_block V mnt z HM Vz) as (_ & w & Hw & Ew). assert (block_ok w) as Bw by by eapply HV. fold d in Ew, Hw.
  destruct (same_slots_fstate P V0 V r z v F Ho) as [Hs F']. { intros E. apply Hp7, (fw_diff _ _ _ W); [lia..|done|done]. }
  fold V' in Hs, F'. split; [apply splice_ok; [by rewrite Ew|done|lia]|]. split_and!; [done..|].
  intros o Hoo. unfold fbyte. assert (0 ≤ o / 1024) by (apply Z.div_pos; lia). pose proof (Z.div_mod o 1024). pose proof (Z.mod_pos_bound o 1024 ltac:(lia)).
  destruct (Z.lt_ge_cases (o / 1024) 519).
  2: { rewrite !fblock_far by (done || apply F'). rewrite decide_False by lia. done. }
  rewrite !fblock_slot by (done || apply F' || lia). unfold scont. rewrite Hs. destruct (decide (o / 1024 = l)) as [El|Hne].
  - rewrite El. fold z. destruct (Z.eqb_spec z 0); [done|]. fold d. unfold blk at 1. unfold V'. rewrite lookup_insert_eq. simpl. unfold v.
    rewrite splice_byte by (rewrite ?Ew; done || lia). repeat case_decide; try lia; try done. f_equal. lia.
  - rewrite decide_False by lia. destruct (Z.eqb_spec (slot mnt V r (lpos (o / 1024))) 0); [done|]. f_equal. unfold blk. fold d. unfold V'. rewrite lookup_insert_ne; [done|].
    intros [= E]. apply Hne. symmetry. apply lpos_inj; [lia..|]. destruct (lpos_lt (o / 1024)); [lia|]. by apply (fw_diff _ _ _ W).
Qed.

Lemma spliced_app V r V1 r1 V2 r2 off a b bytes : 0 ≤ off → 0 ≤ a → 0 ≤ b →
  spliced V r V1 r1 off a (take (Z.to_nat a) bytes) → spliced V1 r1 V2 r2 (off + a) b (drop (Z.to_nat a) bytes) → spliced V r V2 r2 off (a + b) bytes.
Proof.
  intros H0 Ha Hb S1 S2 o Ho. rewrite S2, S1 by done. unfold byte_of. repeat case_decide; try lia; try done.
  - rewrite lookup_drop. do 2 f_equal. lia.
  - by rewrite lookup_take_lt by lia.
Qed.

Lemma write_loop_spec P V0 R mi fuel off todo bytes V s : st true d s V R → (length R < 6)%nat → fstate mnt P V0 V (mi_raw mi) → 0 ≤ off → 0 ≤ todo →
  off + todo ≤ 519 * 1024 → (∀ o, off ≤ o < off + todo → slot mnt V (mi_raw mi) (lpos (o / 1024)) ≠ 0) →
  Forall byte bytes → todo ≤ Z.of_nat (length bytes) → enough fuel off todo →
  wp (write_loop fuel mnt mi off todo bytes s) (λ '(err, rest, s'), err = 0 ∧ rest = 0 ∧ ∃ V', st true d s' V' R ∧ fstate mnt P V0 V' (mi_raw mi) ∧
    spliced V (mi_raw mi) V' (mi_raw mi) off todo bytes).
Proof.
  intros C HR F. revert off todo bytes V s C F. induction fuel as [|fuel IH]; intros off todo bytes V s C F H0 Ht Hend Hslot HB Hlen He; [destruct He; lia|]. cbn [write_loop].
  destruct (Z.eqb_spec todo 0) as [->|Hne].
  { apply wp_Ok. split_and!; try done. exists V. split_and!; try done. intros o Ho. by rewrite decide_False by lia. }
  destruct (piece_spec off todo H0 ltac:(lia)) as [P1 P2]. pose proof (Z.mod_pos_bound off 1024 ltac:(lia)) as Hm. pose proof (Z.div_mod off 1024 ltac:(lia)) as Hd.
  assert (0 ≤ off / 1024 < 519) as Hl by (split; [apply Z.div_pos; lia|apply Z.div_lt_upper_bound; lia]).
  unfold MINIX_BLOCK_SIZE, u32. rewrite (Z.mod_small (off / 1024)) by lia. set (chunk := piece off todo) in *.
  pose proof (fs_wf _ _ _ _ _ F) as W. pose proof (sb_mnt _ _ _ _ (fs_same _ _ _ _ _ F)) as HM.
  wp_step (bmap_read_spec true mnt mi (off / 1024) s V R C HM ltac:(lia) (fw_raw _ _ _ W) ltac:(lia)) as [[b mi0] s1]. intros (-> & C1 & _ & Hb).
  rewrite (bmap_slot mnt V _ _ W Hl) in Hb. specialize (Hb eq_refl). subst b. pose proof (Hslot off ltac:(lia)) as Hn. set (z := slot mnt V (mi_raw mi) (lpos (off / 1024))) in *.
  destruct (Z.eqb_spec z 0); [done|]. destruct (lpos_lt _ Hl) as [Hp _].
  destruct (fw_zone _ _ _ W z) as [Vz _]; [by exists (lpos (off / 1024))|].
  assert (length (take (Z.to_nat chunk) bytes) = Z.to_nat chunk) as Lc by (rewrite length_take; lia).
  wp_step (wp_table true mnt s1 V R z C1 HM ltac:(lia) Vz) as [[h|] s2]; [|intros [_ ?]; done]. intros C2.
  wp_step (wp_block _ _ _ _ _ z h C2 (list_elem_of_here _ _)) as v. intros [-> Bv].
  destruct (write_piece P V0 V (mi_raw mi) (off / 1024) (off mod 1024) (take (Z.to_nat chunk) bytes) F Hl Hn ltac:(lia)) as (Bw & F' & Hs & Hsp);
    [by apply Forall_take|rewrite Lc; lia|by eapply st_blocks|]. fold z in Bw, F', Hs, Hsp.
  wp_step (wp_bwrite _ _ z _ _ _ h _ C2 (list_elem_of_here _ _) Bw) as s3. intros C3.
  wp_step (wp_bput _ _ _ _ _ _ _ C3) as s4. intros C4. rewrite Lc in Hsp. replace (off / 1024 * 1024 + off mod 1024) with off in Hsp by lia. rewrite Z2Nat.id in Hsp by lia.
  eapply wp_mono; [apply (IH (off + chunk) (todo - chunk) (drop (Z.to_nat chunk) bytes) _ s4 C4 F')|].
  - lia.
  - lia.
  - lia.
  - intros o Ho. rewrite Hs. apply Hslot. lia.
  - by apply Forall_drop.
  - rewrite length_drop. lia.
  - apply enough_step; [done|done|lia].
  - intros [[err rest] s5] (-> & -> & V2 & C5 & F2 & Hsp2). split_and!; try done. exists V2. split_and!; try done.
    replace todo with (chunk + (todo - chunk)) by lia. eapply spliced_app; [done|lia|lia|exact Hsp|exact Hsp2].
Qed.

(** ** Writing *)

(** The bytes one call writes. *)
Definition write_len (len : Z) : Z := Z.min len MINIX_WRITE_MAX_CHUNK.

(** The blocks it touches. *)
Definition write_blocks (off n : Z) : Z := (off + n - 1) / 1024 - off / 1024 + 1.

(** All the data of a file, from the first byte on. *)
Definition same_bytes (V : gmap key (list Z)) (r : minix_raw_inode) (V' : gmap key (list Z)) (r' : minix_raw_inode) : Prop :=
  ∀ o, 0 ≤ o → fbyte V' mnt r' o = fbyte V mnt r o.

(** The zones that are taken afterwards were taken before. *)
Definition no_leak (V V' : gmap key (list Z)) : Prop := ∀ z, valid z → marked V' mnt z = true → marked V mnt z = true.

(** Exactly the zones of the file, and those taken by others before, are taken:
    none leaks and none is given away. *)
Definition accounted (V : gmap key (list Z)) (r : minix_raw_inode) (V' : gmap key (list Z)) (r' : minix_raw_inode) : Prop :=
  ∀ z, valid z → marked V' mnt z = true ↔ owned mnt V' r' z ∨ marked V mnt z = true ∧ ¬ owned mnt V r z.

Lemma fstate_accounted V r V' r' : fstate mnt (at_disposal mnt V r) V V' r' → accounted V r V' r'.
Proof.
  intros F z Hz. split.
  - intros Hm. destruct (decide (marked V mnt z = true)) as [M|M%not_true_is_false]; [|left; apply (fs_exact _ _ _ _ _ F); [done|by right|done]].
    destruct (decide (Exists (λ q, slot mnt V r q = z) (seq 0 520))) as [Hx|Hx].
    + apply Exists_exists in Hx as (q & Hq%elem_of_seq & E). left. apply (fs_exact _ _ _ _ _ F); [done| |done]. left. exists q. pose proof (valid_bounds mnt HS z Hz). split_and!; [lia|done|lia].
    + right. split; [done|]. intros (q & Hq & E & _). apply Hx, Exists_exists. exists q. split; [apply elem_of_seq; lia|done].
  - intros [Ho|[M Hn]]; [by apply (fw_zone _ _ _ (fs_wf _ _ _ _ _ F))|].
    destruct (sb_zone _ _ _ _ (fs_same _ _ _ _ _ F) z Hz) as [_ ->]; [|done]. intros [?|?]; [done|congruence].
Qed.

(** The zone map is as before, but that an index block without entries may be free now. *)
Definition marks_kept (V : gmap key (list Z)) (r : minix_raw_inode) (V' : gmap key (list Z)) : Prop :=
  ∀ z, valid z → marked V' mnt z = marked V mnt z ∨
    z = slot mnt V r 7 ∧ marked V' mnt z = false ∧ ∀ l, 7 ≤ l < 519 → slot mnt V r (lpos l) = 0.

Lemma same_slots_marks V r V' r' : file_wf mnt V r → fstate mnt (at_disposal mnt V r) V V' r' → (∀ q, (q < 520)%nat → q ≠ 7%nat → slot mnt V' r' q = slot mnt V r q) →
  slot mnt V' r' 7 = 0 ∨ slot mnt V' r' 7 = slot mnt V r 7 → marks_kept V r V'.
Proof.
  intros W F Hs H7 z Hz. pose proof (fstate_accounted V r V' r' F z Hz) as Ha. pose proof (valid_bounds mnt HS z Hz) as Hb.
  destruct (decide (z = slot mnt V r 7 ∧ slot mnt V' r' 7 = 0)) as [[E E7]|Hne].
  - right. split_and!; [done| |].
    + apply not_true_is_false. rewrite Ha. intros [(q & Hq & Eq & _)|[_ Hn]]; [|apply Hn; exists 7%nat; split_and!; [lia|done|lia]].
      destruct (decide (q = 7%nat)) as [->|Hq7]; [lia|]. rewrite Hs in Eq by done. apply Hq7, (fw_diff _ _ _ W); [lia..|congruence|lia].
    + intros l Hl. destruct (lpos_lt l ltac:(lia)) as [Hp Hp7]. rewrite <- Hs by done. unfold slot, lpos. rewrite (decide_False (P := l < 7)), decide_False by lia.
      rewrite slot_7 in E7. rewrite E7. unfold entry. by rewrite zone_valid_0.
  - left. assert (owned mnt V' r' z ↔ owned mnt V r z) as Ho.
    { split; intros (q & Hq & Eq & Hq0); exists q; (split; [done|split; [|done]]); (destruct (decide (q = 7%nat)) as [->|Hq7]; [|by rewrite <- Eq, Hs || rewrite Hs; done]).
      - destruct H7; congruence.
      - destruct H7 as [?|H7]; [destruct Hne; done|congruence]. }
    rewrite Ho in Ha. apply eq_bool_prop_intro. destruct (marked V mnt z) eqn:M.
    + split; [done|]. intros _. apply Is_true_true, Ha. destruct (decide (Exists (λ q, slot mnt V r q = z) (seq 0 520))) as [Hx|Hx].
      * apply Exists_exists in Hx as (q & Hq%elem_of_seq & E). left. exists q. split_and!; [lia|done|lia].
      * right. split; [done|]. intros (q & Hq & E & _). apply Hx, Exists_exists. exists q. split; [apply elem_of_seq; lia|done].
    + split; [|done]. intros Hm%Is_true_true. apply Ha in Hm as [Hm|[? _]]; [|done]. destruct (fw_zone _ _ _ W z Hm). congruence.
Qed.

(** One of the two buffers of a write cannot be allocated. *)
Definition write_starved (f : fs S) : Prop := false ∈ take 2 (fs_kmem f).

Definition write_post (V : gmap key (list Z)) (v : vfs_inode) (off n : Z) (buf : list Z) (f : fs S) (V' : gmap key (list Z)) (v' : vfs_inode) (res : Z) : Prop :=
  let r := mi_raw (v_info v) in let r' := mi_raw (v_info v') in
  res = n ∧ v_size v' = Z.max (v_size v) (off + n) ∧ spliced V r V' r' off n buf ∨
  res = - ENOSPC ∧ v_size v' = v_size v ∧ same_bytes V r V' r' ∧ (∀ l, 0 ≤ l < 519 → slot mnt V' r' (lpos l) = slot mnt V r (lpos l)) ∧ marks_kept V r V' ∧
    nfree mnt V ≤ write_blocks off n ∧ (∃ l, off / 1024 ≤ l ≤ (off + n - 1) / 1024 ∧ slot mnt V r (lpos l) = 0) ∨
  res = - ENOMEM ∧ write_starved f ∧ v' = v ∧ V' = V.

Lemma marks_kept_no_leak V r V' : marks_kept V r V' → no_leak V V'.
Proof. intros H z Hz Hm. destruct (H z Hz) as [<-|(_ & E & _)]; [done|congruence]. Qed.

(** The backup the code takes first always succeeds here. *)
Lemma backup_spec v off len s V R : st true d s V R → (length R < 6)%nat → mnt_ok V mnt → raw_ok (mi_raw (v_info v)) → 0 ≤ off → 0 ≤ len →
  wp (if off <? v_size v then
        let read_len := Z.min len (v_size v - off) in
        '(n, bytes, s) ← minix_read mnt v off read_len s;
        Ok (negb (n =? read_len), bytes ++ replicate (Z.to_nat len - length bytes) 0, s)
      else Ok (false, replicate (Z.to_nat len) 0, s)) (λ '(bad, backup, s'), bad = false ∧ st true d s' V R).
Proof.
  intros C HR HM Hraw H0 Hl. destruct (Z.ltb_spec off (v_size v)); [|by apply wp_Ok].
  cbv zeta. wp_step (minix_read_spec true mnt v off (Z.min len (v_size v - off)) s V R C HM ltac:(lia) Hraw H0 ltac:(lia)) as [[n bytes] s1].
  intros (C1 & _ & Hn & _). apply wp_Ok. split; [|done]. destruct Hn as [[-> _]|[_ ?]]; [|done]. unfold read_len.
  destruct (Z.geb_spec off (v_size v)); [lia|]. rewrite negb_false_iff, Z.eqb_eq. lia.
Qed.

Lemma next_kmem_cache (f : fs S) b f' : next_kmem f = (b, f') → fs_cache f' = fs_cache f ∧ fs_now f' = fs_now f.
Proof. unfold next_kmem. destruct (fs_kmem f); intros [= <- <-]; done. Qed.

Lemma next_kmem_starved (f : fs S) b f' : next_kmem f = (b, f') → b = false → write_starved f.
Proof. unfold next_kmem, write_starved. destruct (fs_kmem f) as [|x l]; intros [= <- <-] E; [done|]. rewrite E. apply list_elem_of_here. Qed.

Lemma next_kmem_starved2 (f f1 f2 : fs S) : next_kmem f = (true, f1) → next_kmem f1 = (false, f2) → write_starved f.
Proof.
  unfold next_kmem, write_starved. destruct (fs_kmem f) as [|x [|y l]] eqn:E; intros H H2; simplify_eq; try (rewrite E in H2; discriminate H2).
  cbn [fs_kmem] in H2. simplify_eq. apply list_elem_of_further, list_elem_of_here.
Qed.

Lemma minix_write_spec v off len buf f V R : st true d (fs_cache f) V R → (length R < 6)%nat → mnt_ok V mnt → file_wf mnt V (mi_raw (v_info v)) →
  0 ≤ v_size v → 0 ≤ off → 0 < len ≤ Z.of_nat (length buf) → Forall byte buf → off + write_len len ≤ 519 * 1024 →
  wp (minix_write mnt v off len buf f) (λ '(res, v', f'), ∃ V', st true d (fs_cache f') V' R ∧
    fstate mnt (at_disposal mnt V (mi_raw (v_info v))) V V' (mi_raw (v_info v')) ∧ v_ino v' = v_ino v ∧ v_mode v' = v_mode v ∧ v_is_dir v' = v_is_dir v ∧
    write_post V v off (write_len len) buf f V' v' res).
Proof.
  intros C HR HM W Hsz H0 Hlen HB Hend. unfold minix_write. destruct (Z.eqb_spec len 0) as [|_]; [lia|]. fold (write_len len). set (n := write_len len) in *.
  assert (0 < n ≤ len) as Hn by (unfold n, write_len, MINIX_WRITE_MAX_CHUNK; lia).
  destruct (Z.geb_spec (off + n) (2 ^ 64)); [lia|]. destruct (Z.gtb_spec (off + n) 0xffffffff); [lia|]. cbv zeta.
  pose proof (fstate_start mnt V _ HM W) as F. set (r := mi_raw (v_info v)) in *. set (P := at_disposal mnt V r) in *.
  assert (∀ f1, fs_cache f1 = fs_cache f → write_starved f → wp (Ok (- ENOMEM, v, f1)) (λ '(res, v', f'), ∃ V', st true d (fs_cache f') V' R ∧
    fstate mnt P V V' (mi_raw (v_info v')) ∧ v_ino v' = v_ino v ∧ v_mode v' = v_mode v ∧ v_is_dir v' = v_is_dir v ∧ write_post V v off n buf f V' v' res)) as Hnomem.
  { intros f1 E Hst. apply wp_Ok. exists V. rewrite E. split_and!; try done. right. by right. }
  destruct (next_kmem f) as [ok1 f1] eqn:K1. destruct (next_kmem_cache _ _ _ K1) as [E1 N1]. destruct ok1; cbn [negb]; [|apply Hnomem; [done|by apply (next_kmem_starved f false f1)]].
  destruct (next_kmem f1) as [ok2 f2] eqn:K2. destruct (next_kmem_cache _ _ _ K2) as [E2 N2]. destruct ok2; cbn [negb]; [|apply Hnomem; [congruence|by apply (next_kmem_starved2 f f1 f2)]].
  rewrite <- E1, <- E2 in C. wp_step (backup_spec v off n (fs_cache f2) V R C HR HM (fw_raw _ _ _ W) H0 ltac:(lia)) as [[bad backup] s1]. intros [-> C1].
  set (first := off / MINIX_BLOCK_SIZE). set (count := (off + n - 1) / MINIX_BLOCK_SIZE - first + 1).
  assert (0 ≤ first ∧ 0 < count ∧ first + count ≤ 519) as (Hf & Hcnt & Hfc).
  { subst first count. unfold MINIX_BLOCK_SIZE. split; [apply Z.div_pos; lia|]. pose proof (Z.div_le_mono off (off + n - 1) 1024 ltac:(lia) ltac:(lia)). split; [lia|].
    assert ((off + n - 1) / 1024 < 519) by (apply Z.div_lt_upper_bound; lia). lia. }
  wp_step (create_blocks_spec mnt HC HS P V R (Z.to_nat count) first V (v_info v) s1 C1 HR F Hf ltac:(lia)) as [[[ok created] mi1] s2]. intros Hmade.
  destruct ok; cbn [negb].
  - destruct Hmade as (V1 & C2 & F1 & D1 & _ & _ & Hok & _). specialize (Hok eq_refl).
    wp_step (write_loop_spec P V R mi1 (rounds n) off n buf V1 s2 C2 HR F1 H0 ltac:(lia) Hend) as [[err todo] s3]; [|done|lia|by apply rounds_enough; lia|].
    { intros o Ho. apply Hok. unfold in_range. subst first count. unfold MINIX_BLOCK_SIZE in *. pose proof (Z.div_le_mono off o 1024 ltac:(lia) ltac:(lia)).
      pose proof (Z.div_le_mono o (off + n - 1) 1024 ltac:(lia) ltac:(lia)). lia. }
    intros (-> & -> & V2 & C3 & F2 & Hsp). cbn [Z.eqb negb]. apply wp_Ok. exists V2. cbn [v_info v_size v_ino v_mode v_is_dir mi_raw fs_cache]. split_and!; try done.
    + eapply fstate_zones; [|exact F2]. by destruct (off + n >? v_size v).
    + left. split_and!; try done; [cbn; destruct (Z.gtb_spec (off + n) (v_size v)); lia|]. intros o Ho. fold r. rewrite <- (fbyte_same mnt HS V r V1 (mi_raw mi1) W (fs_wf _ _ _ _ _ F1) D1 o Ho), <- Hsp by done. by destruct (off + n >? v_size v).
  - pose proof Hmade as (V1 & _ & _ & _ & _ & _ & _ & Hroom). destruct (Hroom eq_refl) as (Hroom1 & l & [Hl1 Hl2] & Hl0). clear Hroom. rename Hroom1 into Hroom.
    wp_step (rollback_spec P V V v R first (Z.to_nat count) false created mi1 s2 Hf ltac:(lia) HR Hmade W) as [v2 s3].
    intros (Ev & Ei & Em & Ed & _ & V2 & C3 & F2 & D2 & Hsl & Hs7). apply wp_Ok. exists V2. cbn [fs_cache]. split_and!; try done.
    right. left. split_and!; try done; [intros o Ho'; apply (fbyte_same mnt HS); [done|apply F2|done|done]|intros l' Hl'; destruct (lpos_lt l' Hl'); auto|by eapply same_slots_marks| |subst first count; unfold MINIX_BLOCK_SIZE in *; exists l; split; [lia|done]].
    unfold room in Hroom. fold r in Hroom. unfold write_blocks. subst first count. unfold MINIX_BLOCK_SIZE in *. destruct (zone_at r 7 =? 0); lia.
Qed.

(** ** Truncating *)

Lemma clear_range_created n i mi (s : S) : clear_range n i mnt mi s = clear_created (seqZ i (Z.of_nat n)) mnt mi s.
Proof.
  revert i mi s. induction n as [|n IH]; intros i mi s; [done|]. rewrite seqZ_cons by lia. cbn [clear_range clear_created].
  replace (Z.pred (Z.of_nat (Datatypes.S n))) with (Z.of_nat n) by lia. replace (Z.succ i) with (i + 1) by lia.
  destruct (minix_clear_block_mapping mnt mi i s) as [[mi' s']| | | ]; try done. cbn [mbind outcome_bind]. apply IH.
Qed.

(** The marks of [V'] are those of [V] without the slots in [Q]; the data zones stay. *)
Record freed (P : Z → Prop) V r (Q : nat → Prop) V' : Prop := {
  fd_same : same_but mnt P V V';
  fd_zone : ∀ z, valid z → V' !! (d, z) = V !! (d, z);
  fd_mark : ∀ z, valid z → marked V' mnt z = true ↔ marked V mnt z = true ∧ ∀ q, Q q → z ≠ slot mnt V r q
}.

Lemma freed_none P V r (Q : nat → Prop) : mnt_ok V mnt → (∀ q, Q q → slot mnt V r q = 0) → freed P V r Q V.
Proof.
  intros HM HQ. constructor; [by apply same_but_refl|done|]. intros z Hz. split; [|by intros [? _]]. intros M. split; [done|]. intros q Hq.
  rewrite HQ by done. pose proof (valid_bounds mnt HS z Hz). lia.
Qed.

(** Slot [b] joins the freed ones: it was empty or its zone is freed now. *)
Lemma freed_step P V r (Q Q' : nat → Prop) b V1 V' : freed P V r Q V1 → (∀ q, Q' q ↔ Q q ∨ q = b) →
  slot mnt V r b = 0 ∧ V' = V1 ∨ valid (slot mnt V r b) ∧ P (slot mnt V r b) ∧ map_changed V1 V' d (zmap_start mnt) (zindex mnt (slot mnt V r b)) false →
  freed P V r Q' V'.
Proof.
  intros [F1 F2 F3] HQ [[E ->]|(Hz & HP & Hc)].
  { constructor; try done. intros z Hz. rewrite (F3 z Hz). split; intros [M Hq]; (split; [done|]); intros q Hr; [|apply Hq, HQ; by left].
    apply HQ in Hr as [?| ->]; [auto|]. rewrite E. pose proof (valid_bounds mnt HS z Hz). lia. }
  destruct (mark_changed mnt HC V1 V' _ false (sb_mnt _ _ _ _ F1) Hz Hc) as (M1 & Hm1 & _). fold d in Hm1. constructor.
  - eapply same_but_trans; [exact F1|]. eapply mark_same; try done. apply F1.
  - intros z Hz'. by rewrite (proj2 (Hm1 z Hz')), F2.
  - intros z Hz'. rewrite (proj1 (Hm1 z Hz')). case_decide as D.
    + split; [done|]. intros [_ Hq]. destruct (Hq b); [apply HQ; by right|done].
    + rewrite (F3 z Hz'). split; intros [M Hq]; (split; [done|]); intros q Hr; [|apply Hq, HQ; by left]. apply HQ in Hr as [?| ->]; auto.
Qed.

Lemma free_entries_spec P V r R n i h V1 s : st true d s V1 R → (h, (d, zone_at r 7)) ∈ R → (length R < 8)%nat → file_wf mnt V r → valid (zone_at r 7) →
  (∀ z, owned mnt V r z → P z) → 0 ≤ i → i + Z.of_nat n = 512 → freed P V r (λ q, (8 ≤ q < Z.to_nat (i + 8))%nat) V1 →
  wp (free_entries n i mnt h s) (λ s', ∃ V', st true d s' V' R ∧ freed P V r (λ q, (8 ≤ q < 520)%nat) V').
Proof.
  intros C Hin HR W Ht HP. revert i V1 s C. induction n as [|n IH]; intros i V1 s C Hi Hn Hf; cbn [free_entries].
  { apply wp_Ok. exists V1. split; [done|]. by replace (Z.to_nat (i + 8)) with 520%nat in Hf by lia. }
  set (t := zone_at r 7) in *. set (p := Z.to_nat (i + 8)) in *. assert (Z.of_nat p - 8 = i) as Ep by lia.
  wp_step (wp_block _ _ _ _ _ t h C Hin) as v. intros [-> Bv]. destruct (get16_spec _ i Bv ltac:(lia)) as [-> _]. cbn [mbind outcome_bind].
  assert (word (blk V1 (mnt_bdev mnt) t) i = slot mnt V r p) as ->.
  { unfold slot. rewrite decide_False by lia. rewrite Ep. unfold entry. fold t. rewrite Ht. unfold blk. fold d. by rewrite (fd_zone _ _ _ _ _ Hf t Ht). }
  assert (Datatypes.S p = Z.to_nat (i + 1 + 8)) as Ep' by lia.
  destruct (Z.eqb_spec (slot mnt V r p) 0) as [E|Hne]; cbn [negb].
  { apply (IH (i + 1) V1 s C); [lia..|]. rewrite <- Ep'. eapply (freed_step _ _ _ _ _ p _ _ Hf); [intros q; lia|by left]. }
  assert (owned mnt V r (slot mnt V r p)) as Ho by (exists p; split_and!; [lia|done..]). destruct (fw_zone _ _ _ W _ Ho) as [Vz Mz].
  wp_step (safe_free_spec mnt HC HS V1 R (slot mnt V r p) s C HR (sb_mnt _ _ _ _ (fd_same _ _ _ _ _ Hf)) Vz) as s1.
  { apply (fd_mark _ _ _ _ _ Hf); [done|]. split; [done|]. intros q Hq E. assert (p = q); [|lia]. apply (fw_diff _ _ _ W); [lia..|done|done]. }
  intros (V2 & C2 & Hc). apply (IH (i + 1) V2 s1 C2); [lia..|]. rewrite <- Ep'.
  eapply (freed_step _ _ _ _ _ p _ _ Hf); [intros q; lia|right; auto].
Qed.

(** A file whose first seven slots are empty loses its index block and all it names. *)
Lemma free_indirect_spec P V0 V R r s : st true d s V R → (length R < 6)%nat → fstate mnt P V0 V r → (∀ q, (q < 7)%nat → slot mnt V r q = 0) →
  wp (minix_free_indirect mnt (zone_at r 7) s) (λ s', ∃ V', st true d s' V' R ∧ fstate mnt P V0 V' (set_zone 8 0 (set_zone 7 0 r)) ∧
    (∀ q, (q < 520)%nat → slot mnt V' (set_zone 8 0 (set_zone 7 0 r)) q = 0)).
Proof.
  intros C HR F H7. pose proof (fs_wf _ _ _ _ _ F) as W. pose proof (fw_raw _ _ _ W) as Hraw. set (r' := set_zone 8 0 (set_zone 7 0 r)).
  assert (raw_ok r') as Hraw' by (apply raw_ok_set; [apply raw_ok_set; [done|lia]|lia]).
  assert (∀ V' q, (q < 520)%nat → slot mnt V' r' q = 0) as Hs'.
  { intros V' q Hq. unfold slot, r'. rewrite !zone_at_set by (try apply raw_ok_set; done || lia). case_decide; [|unfold entry; by rewrite zone_valid_0].
    repeat case_decide; try done. specialize (H7 q ltac:(lia)). unfold slot in H7. by rewrite decide_True in H7. }
  assert (∀ s' V', st true d s' V' R → freed P V r (λ q, (7 ≤ q < 520)%nat) V' → ∃ V', st true d s' V' R ∧ fstate mnt P V0 V' r' ∧ (∀ q, (q < 520)%nat → slot mnt V' r' q = 0)) as Hfin.
  { intros s' V' C' Hf. exists V'. split_and!; try done; [|by apply Hs'].
    assert (∀ z, ¬ owned mnt V' r' z) as Hno by (intros z (q & Hq & E & Hz); by rewrite Hs' in E).
    constructor; [constructor; [done|unfold r'; rewrite zone_at_set, decide_True by (try apply raw_ok_set; done || lia); done|intros z Hz; by destruct (Hno z)|]| | | |].
    - intros p q Hp Hq _ Hz. by rewrite Hs' in Hz.
    - eapply same_but_trans; [apply F|apply Hf].
    - intros z Hz HP [Mz Hq]%(fd_mark _ _ _ _ _ Hf); [|done]. destruct (fs_exact _ _ _ _ _ F z Hz HP Mz) as (q & Hq1 & E & Hne).
      destruct (Nat.lt_ge_cases q 7); [rewrite H7 in E by done; congruence|]. by destruct (Hq q).
    - intros z Hz. by destruct (Hno z).
    - intros z Hz Mz. destruct (marked V mnt z) eqn:M; [|by apply (fs_free _ _ _ _ _ F)]. destruct (decide (Exists (λ q, z = slot mnt V r q) (seq 7 513))) as [Hx|Hx].
      + apply Exists_exists in Hx as (q & Hq%elem_of_seq & ->). apply (fs_own _ _ _ _ _ F). exists q. pose proof (valid_bounds mnt HS _ Hz). split_and!; [lia|done|lia].
      + assert (marked V' mnt z = true); [|congruence]. apply (fd_mark _ _ _ _ _ Hf); [done|]. split; [done|]. intros q Hq E. apply Hx, Exists_exists. exists q. split; [apply elem_of_seq; lia|done]. }
  unfold minix_free_indirect. destruct (Z.eqb_spec (zone_at r 7) 0) as [E0|Hne].
  { apply wp_Ok. apply (Hfin s V C), freed_none; [apply F|]. intros q Hq. destruct (decide (q = 7%nat)) as [->|]; [done|].
    unfold slot. rewrite decide_False by lia. rewrite E0. unfold entry. by rewrite zone_valid_0. }
  assert (owned mnt V r (zone_at r 7)) as Ho by (exists 7%nat; split_and!; [lia|done..]). destruct (fw_zone _ _ _ W _ Ho) as [Vz Mz].
  wp_step (wp_table true mnt s V R _ C (sb_mnt _ _ _ _ (fs_same _ _ _ _ _ F)) ltac:(lia) Vz) as [[h|] s1]; [|intros [_ ?]; done]. intros C1.
  wp_step (free_entries_spec P V r _ 512 0 h V s1 C1 (list_elem_of_here _ _) ltac:(simpl; lia) W Vz (fs_own _ _ _ _ _ F) ltac:(lia) ltac:(lia)) as s2.
  { apply freed_none; [apply F|]. intros q Hq. lia. }
  intros (V2 & C2 & Hf). wp_step (wp_bput _ _ _ _ _ _ _ C2) as s3. intros C3.
  eapply wp_mono; [apply (safe_free_spec mnt HC HS V2 R (zone_at r 7) s3 C3); [lia|apply Hf|done|]|].
  { apply (fd_mark _ _ _ _ _ Hf); [done|]. split; [done|]. intros q Hq E. assert (7%nat = q); [|lia]. by apply (fw_diff _ _ _ W); [lia..|exact E|]. }
  intros s4 (V4 & C4 & Hc). apply (Hfin s4 V4 C4). eapply (freed_step _ _ _ _ _ 7%nat _ _ Hf); [intros q; lia|]. right.
  split_and!; [done|by apply (fs_own _ _ _ _ _ F)|done].
Qed.

(** The blocks [size] bytes take. *)
Definition blocks_of (size : Z) : Z := (size + 1023) / 1024.

Definition truncate_post (V : gmap key (list Z)) (v : vfs_inode) (size : Z) (V' : gmap key (list Z)) (v' : vfs_inode) : Prop :=
  let r := mi_raw (v_info v) in let r' := mi_raw (v_info v') in
  (∀ l, 0 ≤ l < 519 → slot mnt V' r' (lpos l) = if decide (size < v_size v ∧ (size = 0 ∨ blocks_of size ≤ l < blocks_of (v_size v))) then 0 else slot mnt V r (lpos l)) ∧
  (size < v_size v → (∀ l, 7 ≤ l < 519 → slot mnt V' r' (lpos l) = 0) → slot mnt V' r' 7 = 0) ∧
  (v_size v ≤ size ∨ (∃ l, 7 ≤ l < 519 ∧ slot mnt V' r' (lpos l) ≠ 0) → slot mnt V' r' 7 = slot mnt V r 7) ∧
  (∀ o, 0 ≤ o → v_size v ≤ size ∨ o < blocks_of size * 1024 → fbyte V' mnt r' o = fbyte V mnt r o) ∧
  (∀ o, blocks_of size * 1024 ≤ o < v_size v → fbyte V' mnt r' o = 0) ∧
  (size = 0 → 0 < v_size v → ∀ z, owned mnt V r z → marked V' mnt z = false).

Lemma blocks_of_spec size : 0 ≤ size ≤ 519 * 1024 → u32 (u64 (size + MINIX_BLOCK_SIZE - 1) / MINIX_BLOCK_SIZE) = blocks_of size ∧ 0 ≤ blocks_of size ≤ 519 ∧ size ≤ blocks_of size * 1024.
Proof.
  intros Hs. unfold MINIX_BLOCK_SIZE, blocks_of, u64, u32. rewrite (Z.mod_small (size + 1024 - 1)) by lia. replace (size + 1024 - 1) with (size + 1023) by lia.
  assert (0 ≤ (size + 1023) / 1024 ≤ 519) by (split; [apply Z.div_pos; lia|apply Z.lt_succ_r, Z.div_lt_upper_bound; lia]).
  pose proof (Z.div_mod (size + 1023) 1024). pose proof (Z.mod_pos_bound (size + 1023) 1024). rewrite Z.mod_small by lia. lia.
Qed.

Lemma fbyte_slot V r o : file_wf mnt V r → 0 ≤ o / 1024 < 519 → fbyte V mnt r o = byte_of (scont mnt V r (lpos (o / 1024))) (o mod 1024).
Proof. intros W Ho. unfold fbyte. by rewrite fblock_slot. Qed.

Lemma fbyte_hole V r o : file_wf mnt V r → 0 ≤ o → (o / 1024 < 519 → slot mnt V r (lpos (o / 1024)) = 0) → fbyte V mnt r o = 0.
Proof.
  intros W Ho Hs. assert (0 ≤ o / 1024) by (apply Z.div_pos; lia). destruct (Z.lt_ge_cases (o / 1024) 519) as [Hl|Hl].
  - rewrite fbyte_slot by done. unfold scont. by rewrite Hs, Z.eqb_refl, byte_of_zeros.
  - unfold fbyte. by rewrite fblock_far, byte_of_zeros.
Qed.

Lemma minix_truncate_spec v size f V R : st true d (fs_cache f) V R → (length R < 6)%nat → mnt_ok V mnt → file_wf mnt V (mi_raw (v_info v)) →
  0 ≤ v_size v ≤ 519 * 1024 → 0 ≤ size →
  wp (minix_truncate mnt v size f) (λ '(res, v', f'), res = 0 ∧ v_size v' = size ∧ v_ino v' = v_ino v ∧ v_mode v' = v_mode v ∧ ∃ V', st true d (fs_cache f') V' R ∧
    fstate mnt (at_disposal mnt V (mi_raw (v_info v))) V V' (mi_raw (v_info v')) ∧ truncate_post V v size V' v').
Proof.
  intros C HR HM W Hv Hs. pose proof (fstate_start mnt V _ HM W) as F. set (r := mi_raw (v_info v)) in *. set (P := at_disposal mnt V r) in *.
  unfold minix_truncate. destruct (Z.gtb_spec size (v_size v)) as [Hgt|Hle].
  { destruct (Z.gtb_spec size 0); [|lia]. cbn [andb]. apply wp_Ok. unfold resized. cbn [v_info mi_raw v_size v_ino v_mode]. split_and!; try done. exists V. split_and!; try done; [by eapply fstate_zones; [|exact F]|].
    split_and!; [intros l Hl; by rewrite decide_False by lia|lia|done|done| |lia]. intros o Ho. destruct (blocks_of_spec (v_size v) ltac:(lia)) as (_ & ? & ?). unfold blocks_of in *.
    pose proof (Z.div_le_mono (v_size v + 1023) (size + 1023) 1024 ltac:(lia) ltac:(lia)). lia. }
  rewrite andb_false_r. destruct (Z.eqb_spec size (v_size v)) as [->|Hne].
  { apply wp_Ok. split_and!; try done. exists V. split_and!; try done. split_and!; [intros l Hl; by rewrite decide_False by lia|lia|done|done| |lia]. intros o Ho. destruct (blocks_of_spec (v_size v) ltac:(lia)). lia. }
  cbv zeta. destruct (blocks_of_spec size ltac:(lia)) as (-> & Kb & Ks), (blocks_of_spec (v_size v) ltac:(lia)) as (-> & Ob & Os). set (keep := blocks_of size) in *. set (old := blocks_of (v_size v)) in *.
  assert (keep ≤ old) as Hko by (apply Z.div_le_mono; lia).
  destruct (Z.eqb_spec keep 0) as [Hk|Hk]; cbn [negb].
  - rewrite clear_range_created. wp_step (clear_list_spec P V R (seqZ 0 (Z.of_nat 7)) V (v_info v) (fs_cache f) C HR F) as [mi1 s1]. { apply Forall_forall. intros l Hl%elem_of_seqZ. lia. }
    intros (V1 & C1 & F1 & Hz1 & Hs1). fold r in Hs1. pose proof (fs_wf _ _ _ _ _ F1) as W1. pose proof (fw_raw _ _ _ W1) as Hraw.
    destruct (zone_at_spec _ 7 Hraw) as [-> _]; [lia|]. cbn [deref mbind outcome_bind].
    wp_step (free_indirect_spec P V V1 R (mi_raw mi1) s1 C1 HR F1) as s2.
    { intros q Hq. specialize (Hz1 (Z.of_nat q)). unfold lpos in Hz1. rewrite decide_True, Nat2Z.id in Hz1 by lia. apply Hz1, elem_of_seqZ. lia. }
    intros (V2 & C2 & F2 & Hs2). destruct (zone_at_spec _ 8 Hraw) as [-> _]; [lia|]. cbn [deref mbind outcome_bind].
    unfold minix_free_double_indirect. rewrite (fw_double _ _ _ W1), Z.eqb_refl. cbn [mbind outcome_bind]. apply wp_Ok.
    unfold resized. cbn [v_info mi_raw v_size v_ino v_mode fs_cache]. split_and!; try done. exists V2.
    assert (fstate mnt P V V2 (set_time (fs_now f) (set_size (u32 size) (set_zone 8 0 (set_zone 7 0 (mi_raw mi1)))))) as F3 by by eapply fstate_zones; [|exact F2].
    assert (size = 0) as -> by lia. split_and!; [done..|]. split_and!.
    + intros l Hl. rewrite decide_True by lia. destruct (lpos_lt l Hl). by apply Hs2.
    + intros _ _. apply Hs2. lia.
    + intros [?|(l & Hl & Hn)]; [lia|]. destruct Hn. destruct (lpos_lt l ltac:(lia)). by apply Hs2.
    + fold keep. intros o Ho [?|?]; lia.
    + intros o Ho. apply fbyte_hole; [apply F3|lia|]. intros Ho'. apply Hs2. apply lpos_lt. split; [apply Z.div_pos; lia|done].
    + intros _ _ z Hz. destruct (marked V2 mnt z) eqn:M; [|done]. destruct (fw_zone _ _ _ W z Hz) as [Vz _].
      destruct (fs_exact _ _ _ _ _ F2 z Vz) as (q & Hq & E & Hne0); [by left|done|]. rewrite Hs2 in E; congruence.
  - rewrite clear_range_created, Z2Nat.id by lia. wp_step (clear_list_spec P V R (seqZ keep (old - keep)) V (v_info v) (fs_cache f) C HR F) as [mi1 s1]. { apply Forall_forall. intros l Hl%elem_of_seqZ. lia. }
    intros (V1 & C1 & F1 & Hz1 & Hs1). fold r in Hs1. wp_step (prune_spec P V R V1 mi1 s1 C1 HR F1) as [mi2 s2]. intros (V2 & C2 & F2 & Hs2 & D2 & H7 & He). apply wp_Ok.
    unfold resized. cbn [v_info mi_raw v_size v_ino v_mode fs_cache]. split_and!; try done. exists V2.
    assert (fstate mnt P V V2 (set_time (fs_now f) (set_size (u32 size) (mi_raw mi2)))) as F3 by by eapply fstate_zones; [|exact F2].
    split_and!; [done..|]. split_and!.
    + intros l Hl. fold keep old. destruct (lpos_lt l Hl) as [Hp Hp7]. change (slot mnt V2 (mi_raw mi2) (lpos l) = if decide (size < v_size v ∧ (size = 0 ∨ keep ≤ l < old)) then 0 else slot mnt V r (lpos l)).
      rewrite Hs2 by done. case_decide as Dl.
      * apply Hz1, elem_of_seqZ. destruct Dl as [_ [?|?]]; [|lia]. subst size. done.
      * destruct (Hs1 _ Hp) as [[(l' & Hl'%elem_of_seqZ & E) _]|[E _]]; [|done]. apply lpos_inj in E; lia.
    + intros _ Hz. change (slot mnt V2 (mi_raw mi2) 7 = 0). apply He. intros q Hq. rewrite <- Hs2 by lia. specialize (Hz (Z.of_nat q - 1) ltac:(lia)).
      unfold lpos in Hz. rewrite decide_False in Hz by lia. by replace (Z.to_nat (Z.of_nat q - 1 + 1)) with q in Hz by lia.
    + intros [?|(l & Hl & Hn)]; [lia|]. change (slot mnt V2 (mi_raw mi2) 7 = slot mnt V r 7). change (slot mnt V2 (mi_raw mi2) (lpos l) ≠ 0) in Hn. destruct H7 as [E7|E7].
      * destruct Hn. unfold slot, lpos. rewrite (decide_False (P := l < 7)), decide_False by lia. rewrite slot_7 in E7. rewrite E7. unfold entry. by rewrite zone_valid_0.
      * rewrite E7. destruct (Hs1 7%nat ltac:(lia)) as [[(l' & Hl'%elem_of_seqZ & E) _]|[E _]]; [|done]. destruct (lpos_lt l'); lia.
    + fold keep. intros o Ho [?|Ho']; [lia|]. assert (0 ≤ o / 1024 < keep) as Hl by (split; [apply Z.div_pos; lia|apply Z.div_lt_upper_bound; lia]).
      rewrite !fbyte_slot by (apply F3 || done || lia). f_equal. change (scont mnt V2 (mi_raw mi2) (lpos (o / 1024)) = scont mnt V r (lpos (o / 1024))). destruct (lpos_lt (o / 1024)) as [Hp Hp7]; [lia|].
      rewrite D2 by done. destruct (Hs1 _ Hp) as [[(l & Hl'%elem_of_seqZ & E) _]|[_ E]]; [|by apply E]. apply lpos_inj in E; lia.
    + fold keep. intros o Ho. apply fbyte_hole; [apply F3|lia|]. intros Ho'. change (slot mnt V2 (mi_raw mi2) (lpos (o / 1024)) = 0). assert (keep ≤ o / 1024 < old) as Hl.
      { split; [apply Z.div_le_lower_bound; lia|]. apply Z.div_lt_upper_bound; lia. }
      destruct (lpos_lt (o / 1024)); [lia|]. rewrite Hs2 by done. apply Hz1, elem_of_seqZ. lia.
    + intros E _. exfalso. apply Hk. unfold keep. rewrite E. done.
Qed.

(** ** Other files *)

(** A file none of whose zones belong to [r] is as it was. *)
Lemma other_slots V r V' r' r2 : fstate mnt (at_disposal mnt V r) V V' r' → file_wf mnt V r2 → (∀ z, owned mnt V r z → ¬ owned mnt V r2 z) →
  (∀ z, owned mnt V r2 z → V' !! (d, z) = V !! (d, z) ∧ marked V' mnt z = marked V mnt z ∧ ¬ owned mnt V' r' z) ∧
  (∀ q, (q < 520)%nat → slot mnt V' r2 q = slot mnt V r2 q) ∧ ∀ z, owned mnt V' r2 z ↔ owned mnt V r2 z.
Proof.
  intros F [W1 W2 W3 W4] Hd. assert (∀ z, owned mnt V r2 z → V' !! (d, z) = V !! (d, z) ∧ marked V' mnt z = marked V mnt z ∧ ¬ owned mnt V' r' z) as Hk.
  { intros z Hz. destruct (W3 z Hz) as [Vz Mz]. assert (¬ at_disposal mnt V r z) as Hn by (intros [Hr|?]; [by apply (Hd z)|congruence]).
    destruct (sb_zone _ _ _ _ (fs_same _ _ _ _ _ F) z Vz Hn). split_and!; try done. intros Ho. by apply Hn, (fs_own _ _ _ _ _ F). }
  assert (∀ q, (q < 520)%nat → slot mnt V' r2 q = slot mnt V r2 q) as Hs.
  { intros q Hq. unfold slot. case_decide; [done|]. apply entry_eq. intros V7. apply Hk. exists 7%nat. pose proof (valid_bounds mnt HS _ V7). split_and!; [lia|done|lia]. }
  split; [done|]. split; [done|]. intros z. split; intros (q & Hq & E & Hz); exists q; (split; [done|]); split; try done; [by rewrite <- Hs|by rewrite Hs].
Qed.

Lemma other_file V r V' r' r2 : fstate mnt (at_disposal mnt V r) V V' r' → file_wf mnt V r2 → (∀ z, owned mnt V r z → ¬ owned mnt V r2 z) →
  file_wf mnt V' r2 ∧ same_bytes V r2 V' r2 ∧ ∀ z, owned mnt V' r' z → ¬ owned mnt V' r2 z.
Proof.
  intros F W Hd. destruct (other_slots V r V' r' r2 F W Hd) as (Hk & Hs & Ho). pose proof W as [W1 W2 W3 W4]. assert (file_wf mnt V' r2) as W'.
  { constructor; [done..| |].
    - intros z Hz%Ho. destruct (Hk z Hz) as (_ & -> & _). auto.
    - intros p q Hp Hq. rewrite !Hs by done. auto. }
  split; [done|]. split; [|intros z Hz Hz2%Ho; by apply (Hk z Hz2)]. intros o Hoo. apply (fbyte_same mnt HS); try done. intros q Hq _. apply scont_eq; [auto|]. intros Hne. apply Hk. by exists q.
Qed.

End File.
