(* ===== verification/MinixSystem.v ===== *)
(** * The MINIX file system from mount to fsync

    Mounting validates the superblock, which gives the hypotheses the file
    operations need; inodes survive their encoding; and the theorems about
    reading, writing and truncating files. *)

From S2P Require Import Prelude Bufcache BufcacheSpec BufcacheSystem Minix MinixMap MinixRead MinixTree MinixWrite MinixFile.

(** ** Encodings *)

Lemma le_val_bytes n v : 0 ≤ v < 256 ^ Z.of_nat n → le_val (le_bytes n v) = v.
Proof.
  revert v. induction n as [|n IH]; intros v Hv; cbn [le_bytes le_val].
  - change (256 ^ Z.of_nat 0) with 1 in Hv. lia.
  - rewrite Nat2Z.inj_succ, Z.pow_succ_r in Hv by lia. rewrite IH; [pose proof (Z.div_mod v 256); lia|].
    split; [apply Z.div_pos; lia|apply Z.div_lt_upper_bound; lia].
Qed.

Lemma le_bytes_ok n v : length (le_bytes n v) = n ∧ Forall byte (le_bytes n v).
Proof.
  revert v. induction n as [|n IH]; intros v; simpl; [done|]. destruct (IH (v / 256)). split; [by f_equal|]. constructor; [|done]. apply Z.mod_pos_bound. lia.
Qed.

Lemma le_val_bound l : Forall byte l → 0 ≤ le_val l < 256 ^ Z.of_nat (length l).
Proof.
  induction 1 as [|x l Hx _ IH]; [done|]. cbn [le_val length]. rewrite Nat2Z.inj_succ, Z.pow_succ_r by lia. unfold byte in Hx. lia.
Qed.

Lemma le_field_bound data off len : Forall byte data → 0 ≤ le_field data off len < 256 ^ Z.of_nat len.
Proof.
  intros HB. unfold le_field. pose proof (le_val_bound (take len (drop off data)) (Forall_take _ _ _ (Forall_drop _ _ _ HB))) as H.
  split; [lia|]. eapply Z.lt_le_trans; [apply H|]. apply Z.pow_le_mono_r; [lia|]. rewrite length_take. lia.
Qed.

(** The fields of an inode fit the widths they have on disk. *)
Record inode_ok (r : minix_raw_inode) : Prop := {
  io_mode : 0 ≤ i_mode r < 2 ^ 16;
  io_uid : 0 ≤ i_uid r < 2 ^ 16;
  io_size : 0 ≤ i_size r < 2 ^ 32;
  io_time : 0 ≤ i_time r < 2 ^ 32;
  io_gid : 0 ≤ i_gid r < 2 ^ 8;
  io_nlinks : 0 ≤ i_nlinks r < 2 ^ 8;
  io_raw : raw_ok r
}.

Lemma encode_ok r : raw_ok r → length (encode_inode r) = 32%nat ∧ Forall byte (encode_inode r).
Proof.
  intros [L _]. unfold encode_inode. rewrite !length_app, !Forall_app.
  assert (∀ l, length (concat (le_bytes 2 <$> l)) = (2 * length l)%nat ∧ Forall byte (concat (le_bytes 2 <$> l))) as Hc.
  { induction l as [|x l [IH1 IH2]]; [done|]. rewrite fmap_cons. cbn [concat]. rewrite length_app, Forall_app, IH1. destruct (le_bytes_ok 2 x) as [-> ?].
    cbn [length]. split; [lia|done]. }
  destruct (Hc (i_zone r)) as [-> ?]. rewrite !(proj1 (le_bytes_ok _ _)), L. split_and!; try done; apply le_bytes_ok.
Qed.

Lemma decode_encode r : inode_ok r → decode_inode (encode_inode r) = r.
Proof.
  intros [H1 H2 H3 H4 H5 H6 [L F]]. destruct r as [mode uid size time gid nlinks zones]. cbn in *.
  do 10 (destruct zones as [|? zones]; try discriminate L). repeat (apply Forall_cons in F as [? F]).
  assert (∀ k v, 0 ≤ v < 256 ^ Z.of_nat k → le_val (le_bytes k v) = v) as E by (intros; by apply le_val_bytes).
  unfold decode_inode, encode_inode. cbn [i_mode i_uid i_size i_time i_gid i_nlinks i_zone].
  f_equal; [apply (E 2%nat mode)|apply (E 2%nat uid)|apply (E 4%nat size)|apply (E 4%nat time)|apply (E 1%nat gid)|apply (E 1%nat nlinks)|]; try done.
  cbn [seq fmap list_fmap]. repeat f_equal; apply (E 2%nat); done.
Qed.

Lemma decode_inode_ok data : Forall byte data → inode_ok (decode_inode data).
Proof.
  intros HB. pose proof (λ o n, le_field_bound data o n HB) as E. unfold decode_inode.
  constructor; cbn [i_mode i_uid i_size i_time i_gid i_nlinks]; [apply (E 0 2)%nat|apply (E 2 2)%nat|apply (E 4 4)%nat|apply (E 8 4)%nat|apply (E 12 1)%nat|apply (E 13 1)%nat|].
  split; cbn [i_zone]; [done|]. apply Forall_fmap, Forall_forall. intros i _. apply (E (14 + 2 * i) 2)%nat.
Qed.

(** ** Mounting *)

Lemma super_bounds data : block_ok data → let sb := decode_super data in
  0 ≤ s_ninodes sb < 65536 ∧ 0 ≤ s_nzones sb < 65536 ∧ 0 ≤ s_imap_blocks sb < 65536 ∧ 0 ≤ s_zmap_blocks sb < 65536 ∧ 0 ≤ s_firstdatazone sb < 65536.
Proof.
  intros [_ HB]. pose proof (λ o n, le_field_bound data o n HB) as E. cbn [decode_super s_ninodes s_nzones s_imap_blocks s_zmap_blocks s_firstdatazone].
  split_and!; apply (E _ 2%nat).
Qed.

(** What the validation of the superblock establishes. *)
Lemma validate_super_ok data sector_size sector_count : block_ok data → 0 ≤ sector_count < 2 ^ 33 →
  minix_validate_super (decode_super data) sector_size sector_count = 0 → sb_ok (decode_super data) ∧ s_nzones (decode_super data) ≤ sector_count / 2.
Proof.
  intros B Hc. pose proof (super_bounds data B) as Hb. cbv zeta in Hb. generalize dependent (decode_super data). intros sb (B1 & B2 & B3 & B4 & B5).
  unfold minix_validate_super, EINVAL.
  assert (0 ≤ (s_ninodes sb * 32 + 1023) / 1024 < 4096) as Hq by (split; [apply Z.div_pos; lia|apply Z.div_lt_upper_bound; lia]).
  assert (0 ≤ sector_count / 2 < 2 ^ 32) as Hh by (split; [apply Z.div_pos; lia|apply Z.div_lt_upper_bound; lia]).
  assert (u32 (s_ninodes sb * 32 + 1024 - 1) = s_ninodes sb * 32 + 1023) as -> by (unfold u32; rewrite Z.mod_small; lia). cbv zeta.
  assert (u32 (2 + s_imap_blocks sb + s_zmap_blocks sb + (s_ninodes sb * 32 + 1023) / 1024) = 2 + s_imap_blocks sb + s_zmap_blocks sb + (s_ninodes sb * 32 + 1023) / 1024) as ->
    by (unfold u32; rewrite Z.mod_small; lia).
  assert (u32 (sector_count / 2) = sector_count / 2) as -> by (unfold u32; rewrite Z.mod_small; lia).
  destruct (negb (s_magic sb =? MINIX_V1_MAGIC)); [done|]. destruct (Z.eqb_spec (s_ninodes sb) 0), (Z.eqb_spec (s_nzones sb) 0); cbn [orb]; try done.
  destruct (Z.eqb_spec (s_imap_blocks sb) 0), (Z.eqb_spec (s_zmap_blocks sb) 0); cbn [orb]; try done. destruct (negb _); [done|].
  destruct (_ <? 2); [done|]. destruct (Z.geb_spec (s_firstdatazone sb) (s_nzones sb)); [done|]. destruct (negb _); [done|].
  destruct (Z.gtb_spec (2 + s_imap_blocks sb + s_zmap_blocks sb + (s_ninodes sb * 32 + 1023) / 1024) (s_firstdatazone sb)); [done|].
  destruct (Z.gtb_spec (s_nzones sb) (sector_count / 2)); [done|]. intros _. split; [constructor|]; lia.
Qed.

Section System.
Context {S : Type} {BC : BlockCache S} {CS : BlockCacheSpec S}.

(** Inode [ino] as the disk has it. *)
Definition raw_at (V : gmap key (list Z)) (mnt : minix_mount_info) (ino : Z) : minix_raw_inode :=
  decode_inode (take 32 (drop (inode_offset ino) (blk V (mnt_bdev mnt) (inode_block mnt ino)))).

Lemma inode_block_range V mnt ino : mnt_ok V mnt → 1 ≤ ino ≤ s_ninodes (mnt_sb mnt) →
  inode_block mnt ino = mnt_inodes_start mnt + (ino - 1) / 32 ∧ 2 ≤ inode_block mnt ino < s_firstdatazone (mnt_sb mnt) ∧
  ∃ v, V !! (mnt_bdev mnt, inode_block mnt ino) = Some v ∧ blk V (mnt_bdev mnt) (inode_block mnt ino) = v.
Proof.
  intros ([N1 N2 N3 N4 N5] & Hi & Hb) Hino. set (sb := mnt_sb mnt) in *. unfold inode_block.
  assert (0 ≤ (ino - 1) / 32) by (apply Z.div_pos; lia). pose proof (Z.div_mod (ino - 1) 32). pose proof (Z.mod_pos_bound (ino - 1) 32).
  assert ((ino - 1) / 32 + 1 ≤ (s_ninodes sb * 32 + 1023) / 1024) by (apply Z.div_le_lower_bound; lia).
  rewrite Hi. unfold u32. rewrite Z.mod_small by lia. split; [done|]. split; [lia|]. destruct (Hb (2 + s_imap_blocks sb + s_zmap_blocks sb + (ino - 1) / 32) ltac:(lia)) as [v Hv].
  exists v. unfold blk. by rewrite Hv.
Qed.

Lemma get_raw_inode_spec rdy mnt s V R ino : st rdy (mnt_bdev mnt) s V R → mnt_ok V mnt → (length R < 8)%nat → 0 ≤ ino →
  wp (minix_get_raw_inode mnt ino s) (λ '(err, raw, s'), st rdy (mnt_bdev mnt) s' V R ∧
    match raw with
    | Some r => err = 0 ∧ 1 ≤ ino ≤ s_ninodes (mnt_sb mnt) ∧ r = raw_at V mnt ino ∧ inode_ok r
    | None => err = - EINVAL ∧ ¬ 1 ≤ ino ≤ s_ninodes (mnt_sb mnt) ∨ err = - EIO ∧ rdy = false
    end).
Proof.
  intros C HM HR H0. unfold minix_get_raw_inode. destruct (Z.eqb_spec ino 0); [apply wp_Ok; split; [done|]; left; split; [done|lia]|].
  destruct (Z.gtb_spec ino (s_ninodes (mnt_sb mnt))); [apply wp_Ok; split; [done|]; left; split; [done|lia]|].
  destruct (inode_block_range V mnt ino HM ltac:(lia)) as (_ & Hr & v & Hv & _).
  wp_step (wp_bget rdy _ s V R (inode_block mnt ino) C (mnt_ok_dev _ _ HM) ltac:(lia) HR) as [[h|] s1].
  2: { intros [C1 Hn]. apply wp_Ok. split; [done|right]. split; [done|]. destruct rdy; [|done]. by rewrite Hn in Hv. }
  intros [C1 _]. wp_step (wp_block _ _ _ _ _ (inode_block mnt ino) h C1 (list_elem_of_here _ _)) as w. intros [-> Bv].
  wp_step (wp_bput _ _ _ _ _ _ _ C1) as s2. intros C2. apply wp_Ok. split; [done|]. split_and!; try done; [lia..|]. apply decode_inode_ok.
  apply Forall_take, Forall_drop, Bv.
Qed.

(** The disk holds whole blocks up to its last sector. *)
Definition disk_size (V : gmap key (list Z)) (d sector_count : Z) : Prop := ∀ b, 0 ≤ b < sector_count / 2 → is_Some (V !! (d, b)).

Lemma minix_mount_spec rdy d sector_size sector_count f V R : st rdy d (fs_cache f) V R → (length R < 8)%nat → has_dev V d → disk_size V d sector_count →
  0 ≤ sector_count < 2 ^ 33 →
  wp (minix_mount d sector_size sector_count f) (λ '(err, res, f'), st rdy d (fs_cache f') V R ∧
    match res with
    | Some (mnt, root) => err = 0 ∧ mnt_bdev mnt = d ∧ mnt_ok V mnt ∧ v_ino root = 1 ∧ mi_raw (v_info root) = raw_at V mnt 1 ∧
        inode_ok (mi_raw (v_info root)) ∧ v_size root = i_size (mi_raw (v_info root))
    | None => err < 0
    end).
Proof.
  intros C HR Hd Hsz Hc. unfold minix_mount.
  wp_step (wp_bget rdy d _ V R 1 C Hd ltac:(lia) HR) as [[h|] s1]; [|intros [C1 _]; by apply wp_Ok].
  intros [C1 _]. wp_step (wp_bdata _ _ _ _ _ h _ C1 (list_elem_of_here _ _)) as data. intros [_ B].
  wp_step (wp_bput _ _ _ _ _ _ _ C1) as s2. intros C2. set (err := minix_validate_super _ _ _).
  destruct (Z.eqb_spec err 0) as [E|Hne]; cbn [negb].
  2: { apply wp_Ok. split; [done|]. subst err. unfold minix_validate_super, EINVAL in *. repeat case_match; done. }
  destruct (validate_super_ok data sector_size sector_count B Hc E) as [HS Hz]. clearbody err.
  destruct (next_kmem _) as [ok f1] eqn:K. destruct (next_kmem_cache _ _ _ K) as [E1 _]. cbn [fs_cache] in E1.
  destruct ok; cbn [negb]; [|apply wp_Ok; by rewrite E1]. set (mnt := Mount d (decode_super data) _).
  assert (mnt_ok V mnt) as HM. { split_and!; try done. intros b Hb. apply Hsz. cbn in *. lia. }
  rewrite <- E1 in C2. wp_step (get_raw_inode_spec rdy mnt (fs_cache f1) V R 1 C2 HM HR ltac:(lia)) as [[err2 [raw|]] s3].
  2: { intros [C3 He]. apply wp_Ok. split; [done|]. by destruct He as [[-> _]|[-> _]]. }
  intros (C3 & -> & _ & -> & Hok). unfold minix_inode_from_raw.
  destruct (next_kmem (Fs s3 _ _)) as [ok2 f2] eqn:K2. destruct (next_kmem_cache _ _ _ K2) as [E2 _]. cbn [fs_cache] in E2.
  destruct ok2; cbn [negb]; [|apply wp_Ok; by rewrite E2].
  destruct (next_kmem f2) as [ok3 f3] eqn:K3. destruct (next_kmem_cache _ _ _ K3) as [E3 _].
  destruct ok3; cbn [negb]; apply wp_Ok; rewrite E3, E2; [|done]. split; [done|]. split_and!; done.
Qed.

(** ** Writing an inode back *)

Lemma splice_take_drop off bytes (data : list Z) : (off + length bytes ≤ length data)%nat → take (length bytes) (drop off (splice_bytes off bytes data)) = bytes.
Proof. intros H. unfold splice_bytes. rewrite drop_app_length' by (rewrite length_take; lia). by rewrite take_app_length. Qed.

Lemma splice_other off bytes (data : list Z) o n : (off + length bytes ≤ length data)%nat → (o + n ≤ off ∨ off + length bytes ≤ o)%nat →
  take n (drop o (splice_bytes off bytes data)) = take n (drop o data).
Proof.
  intros H Ho. apply list_eq. intros i. rewrite !lookup_take. case_decide; [|done]. rewrite !lookup_drop. unfold splice_bytes.
  destruct Ho.
  - rewrite lookup_app_l by (rewrite length_take; lia). by rewrite lookup_take_lt by lia.
  - rewrite !lookup_app_r by (rewrite ?length_take; lia). rewrite length_take, lookup_drop. f_equal. lia.
Qed.

Lemma inode_offset_range ino : 1 ≤ ino → (inode_offset ino + 32 ≤ 1024)%nat.
Proof. intros H. unfold inode_offset. pose proof (Z.mod_pos_bound (ino - 1) 32). lia. Qed.

Lemma write_inode_spec mnt s V R ino mi : st true (mnt_bdev mnt) s V R → mnt_ok V mnt → (length R < 8)%nat → 1 ≤ ino ≤ s_ninodes (mnt_sb mnt) →
  raw_ok (mi_raw mi) → mi_dirty mi = true →
  wp (minix_write_inode mnt ino mi s) (λ '(err, mi', s'), err = 0 ∧ mi' = Info (mi_raw mi) false ∧ ∃ V', st true (mnt_bdev mnt) s' V' R ∧ mnt_ok V' mnt ∧
    (inode_ok (mi_raw mi) → raw_at V' mnt ino = mi_raw mi) ∧ (∀ ino', 1 ≤ ino' ≤ s_ninodes (mnt_sb mnt) → ino' ≠ ino → raw_at V' mnt ino' = raw_at V mnt ino') ∧
    ∀ k, k ≠ (mnt_bdev mnt, inode_block mnt ino) → V' !! k = V !! k).
Proof.
  intros C HM HR Hino Hok Hdirty. unfold minix_write_inode. rewrite Hdirty. cbn [negb].
  destruct (Z.eqb_spec ino 0); [lia|]. destruct (Z.gtb_spec ino (s_ninodes (mnt_sb mnt))); [lia|]. cbn [orb].
  destruct (inode_block_range V mnt ino HM Hino) as (Eb & Hr & v & Hv & Ev).
  wp_step (wp_bget true _ s V R (inode_block mnt ino) C (mnt_ok_dev _ _ HM) ltac:(lia) HR) as [[h|] s1]; [|intros [_ Hn]; by rewrite Hn in Hv].
  intros [C1 _]. wp_step (wp_block _ _ _ _ _ (inode_block mnt ino) h C1 (list_elem_of_here _ _)) as w. intros [-> Bv]. rewrite Ev in *.
  destruct (encode_ok _ Hok) as [Le Fe]. pose proof (inode_offset_range ino ltac:(lia)) as Ho. pose proof Bv as [Lv _].
  set (w := splice_bytes _ _ _). assert (block_ok w) as Bw by (apply splice_ok; [done..|lia]).
  wp_step (wp_bwrite _ _ _ _ _ _ h w C1 (list_elem_of_here _ _) Bw) as s2. intros C2.
  wp_step (wp_bput _ _ _ _ _ _ _ C2) as s3. intros C3. apply wp_Ok. split_and!; try done. eexists. split; [exact C3|]. split_and!.
  - by apply mnt_ok_insert.
  - intros Hok2. unfold raw_at, blk. rewrite lookup_insert_eq. simpl. rewrite <- Le at 1. subst w. rewrite splice_take_drop by lia. by apply decode_encode.
  - intros ino' Hino' Hne. unfold raw_at. destruct (decide (inode_block mnt ino' = inode_block mnt ino)) as [E|E].
    + rewrite E, Ev. unfold blk. rewrite lookup_insert_eq. simpl. f_equal. subst w. apply splice_other; [lia|]. rewrite Le.
      destruct (inode_block_range V mnt ino' HM Hino') as (Eb' & _). assert ((ino' - 1) / 32 = (ino - 1) / 32) by lia.
      unfold inode_offset. pose proof (Z.div_mod (ino - 1) 32). pose proof (Z.div_mod (ino' - 1) 32).
      pose proof (Z.mod_pos_bound (ino - 1) 32). pose proof (Z.mod_pos_bound (ino' - 1) 32). lia.
    + unfold blk. by rewrite lookup_insert_ne by congruence.
  - intros k Hk. by rewrite lookup_insert_ne.
Qed.
End System.

(** ** The file system *)

(** A client that mounts a device, opens inode [ino] and reads from it: the
    first error, or the result of the read. *)
Definition mount_and_read {S} `{BlockCache S} (d sector_size sector_count ino off len : Z) (f : fs S) : outcome (Z * list Z * S) :=
  '(err, res, f) ← minix_mount d sector_size sector_count f;
  match res with
  | None => Ok (err, [], fs_cache f)
  | Some (mnt, _) =>
      '(err, raw, s) ← minix_get_raw_inode mnt ino (fs_cache f);
      match raw with
      | None => Ok (err, [], s)
      | Some raw =>
          let '(err, v, f) := minix_inode_from_raw ino raw (Fs s (fs_kmem f) (fs_now f)) in
          match v with
          | None => Ok (err, [], fs_cache f)
          | Some v => minix_read mnt v off len (fs_cache f)
          end
      end
  end.

Lemma inode_from_raw_spec {S} ino raw (f : fs S) err v f' : minix_inode_from_raw ino raw f = (err, v, f') → fs_cache f' = fs_cache f ∧
  match v with
  | Some v => err = 0 ∧ v_ino v = ino ∧ v_size v = i_size raw ∧ mi_raw (v_info v) = raw
  | None => err = - ENOMEM
  end.
Proof.
  unfold minix_inode_from_raw. destruct (next_kmem f) as [ok f1] eqn:K. destruct (next_kmem_cache _ _ _ K) as [E _].
  destruct ok; cbn [negb]; [|by intros [= <- <- <-]]. destruct (next_kmem f1) as [ok2 f2] eqn:K2. destruct (next_kmem_cache _ _ _ K2) as [E2 _].
  destruct ok2; cbn [negb]; intros [= <- <- <-]; rewrite E2, E; done.
Qed.

Section Claims.
Context {S : Type} {BC : BlockCache S} {CS : BlockCacheSpec S}.

(** C18: mounting and reading are safe on any image.  Whatever bytes the device
    (of at most [2 ^ 28] sectors, [dev_ok]) holds, whatever commands it fails and whatever allocations fail, mounting
    it, opening any inode and reading any range returns: nothing faults, no
    access leaves a block, no loop runs out, no block changes and no buffer stays
    referenced.  The result is an error, or as many bytes as were asked for
    and the file has. *)
Theorem minix_any_image (f : fs S) V d sector_size sector_count ino off len :
  st false d (fs_cache f) V [] → has_dev V d → disk_size V d sector_count → 0 ≤ sector_count < 2 ^ 33 → 0 ≤ ino → 0 ≤ off → 0 ≤ len →
  ∃ n bytes s', mount_and_read d sector_size sector_count ino off len f = Ok (n, bytes, s') ∧ st false d s' V [] ∧
    (n < 0 ∨ n = Z.of_nat (length bytes) ∧ 0 ≤ n ≤ len ∧ Forall byte bytes).
Proof.
  intros C Hd Hsz Hc Hi Ho Hl.
  assert (wp (mount_and_read d sector_size sector_count ino off len f) (λ '(n, bytes, s'), st false d s' V [] ∧
    (n < 0 ∨ n = Z.of_nat (length bytes) ∧ 0 ≤ n ≤ len ∧ Forall byte bytes))) as ([[n bytes] s'] & E & H); [|by exists n, bytes, s'].
  unfold mount_and_read. wp_step (minix_mount_spec false d sector_size sector_count f V [] C ltac:(simpl; lia) Hd Hsz Hc) as [[err [[mnt root]|]] f1].
  2: { intros [C1 He]. apply wp_Ok. auto. }
  intros (C1 & -> & <- & HM & _). wp_step (get_raw_inode_spec false mnt _ V [] ino C1 HM ltac:(simpl; lia) Hi) as [[err [raw|]] s2].
  2: { intros [C2 He]. apply wp_Ok. split; [done|left]. unfold EINVAL, EIO in He. lia. }
  intros (C2 & -> & _ & _ & Hok). destruct (minix_inode_from_raw ino raw _) as [[err v] f3] eqn:E. apply inode_from_raw_spec in E as [E3 Hv]. cbn [fs_cache] in E3.
  rewrite <- E3 in C2. destruct v as [v|]; [|subst err; apply wp_Ok; split; [done|by left]]. destruct Hv as (_ & _ & Hv & Hr).
  eapply wp_mono; [apply (minix_read_spec false mnt v off len _ V [] C2 HM); [simpl; lia|rewrite Hr; apply Hok|done|done]|].
  intros [[n bytes] s4] (C4 & HB & [[-> Hlen]|[-> _]] & _); (split; [done|]); [right|left; done]. pose proof (io_size _ Hok).
  unfold read_len in *. destruct (Z.geb_spec off (v_size v)); split_and!; try done; lia.
Qed.

(** Reading returns the file.  On a device that answers, [minix_read]
    returns as many bytes as were asked for and lie before the end of the
    file, and they are the bytes the block map of the inode leads to: direct,
    indirect and double-indirect zones, with zeros for the holes. *)
Theorem minix_read_correct mnt v off len s V R :
  st true (mnt_bdev mnt) s V R → mnt_ok V mnt → (length R < 8)%nat → raw_ok (mi_raw (v_info v)) → 0 ≤ off → 0 ≤ len → off + len ≤ 2 ^ 42 →
  ∃ s', minix_read mnt v off len s = Ok (read_len v off len, content V mnt (mi_raw (v_info v)) off (read_len v off len), s') ∧ st true (mnt_bdev mnt) s' V R.
Proof.
  intros C HM HR Hraw Ho Hl Hend. destruct (minix_read_spec true mnt v off len s V R C HM HR Hraw Ho Hl) as ([[n bytes] s'] & E & C' & _ & Hn & Hb).
  destruct Hn as [[-> _]|[_ ?]]; [|done]. exists s'. split; [|done]. rewrite E, Hb; [done..|]. unfold read_len. destruct (Z.geb_spec off (v_size v)); lia.
Qed.

(** C5: a write changes the file as it should, and nothing else.  The file has
    no double-indirect zone ([file_wf]) and the write ends within the first 519
    KiB, the part such a file can map.  On a device that answers, [minix_write]
    writes up to 64 KiB: then the file has the new bytes in their place, its old
    bytes everywhere else, and the larger size; or it fails.  It fails with
    [-ENOMEM] only when one of its two buffers cannot be allocated, and then
    nothing changes; with [-ENOSPC] only when a block of the range had no zone
    and there were no more free zones than the blocks of the range, and then the
    size, every byte and the zone of every block are as before, and so is the
    zone map, but that an index block without any entry is given back.  In all
    cases exactly the zones of the file and those taken by others before are
    taken ([accounted]), the inode stays well formed and every other file keeps
    its zones and its bytes. *)
Theorem minix_write_correct mnt v off len buf f V :
  st true (mnt_bdev mnt) (fs_cache f) V [] → mnt_ok V mnt → maps_cover (mnt_sb mnt) → file_wf mnt V (mi_raw (v_info v)) → 0 ≤ v_size v →
  0 ≤ off → 0 < len ≤ Z.of_nat (length buf) → Forall byte buf → off + write_len len ≤ 519 * 1024 →
  ∃ res v' f' V', minix_write mnt v off len buf f = Ok (res, v', f') ∧ st true (mnt_bdev mnt) (fs_cache f') V' [] ∧ mnt_ok V' mnt ∧
    file_wf mnt V' (mi_raw (v_info v')) ∧ write_post mnt V v off (write_len len) buf f V' v' res ∧ accounted mnt V (mi_raw (v_info v)) V' (mi_raw (v_info v')) ∧
    ∀ r, file_wf mnt V r → (∀ z, owned mnt V (mi_raw (v_info v)) z → ¬ owned mnt V r z) →
      file_wf mnt V' r ∧ same_bytes mnt V r V' r ∧ ∀ z, owned mnt V' (mi_raw (v_info v')) z → ¬ owned mnt V' r z.
Proof.
  intros C HM HC W Hs Ho Hl HB Hend.
  destruct (minix_write_spec mnt HC (proj1 HM) v off len buf f V [] C ltac:(simpl; lia) HM W Hs Ho Hl HB Hend) as ([[res v'] f'] & E & V' & C' & F & _ & _ & _ & Hp).
  exists res, v', f', V'. split_and!; [done|done|apply F|apply F|done|by apply (fstate_accounted mnt (proj1 HM))|]. intros r Wr Hd. by apply (other_file mnt (proj1 HM) V (mi_raw (v_info v))).
Qed.

(** What was written is read back.  After a write that succeeded, reading the
    same range returns the bytes written. *)
Theorem minix_write_read mnt v off len buf f V res v' f' :
  st true (mnt_bdev mnt) (fs_cache f) V [] → mnt_ok V mnt → maps_cover (mnt_sb mnt) → file_wf mnt V (mi_raw (v_info v)) → 0 ≤ v_size v →
  0 ≤ off → 0 < len ≤ Z.of_nat (length buf) → Forall byte buf → off + write_len len ≤ 519 * 1024 →
  minix_write mnt v off len buf f = Ok (res, v', f') → 0 ≤ res →
  ∃ s, minix_read mnt v' off res (fs_cache f') = Ok (res, take (Z.to_nat res) buf, s).
Proof.
  intros C HM HC W Hs Ho Hl HB Hend Ew Hres.
  destruct (minix_write_spec mnt HC (proj1 HM) v off len buf f V [] C ltac:(simpl; lia) HM W Hs Ho Hl HB Hend) as ([[res1 v1] f1] & E & V' & C' & F & _ & _ & _ & Hp).
  rewrite Ew in E. injection E as <- <- <-. destruct Hp as [(-> & Hsz & Hsp)|[(-> & _)|(-> & _)]]; [|done|done]. set (n := write_len len) in *.
  assert (0 < n ≤ len) as Hn by (unfold n, write_len, MINIX_WRITE_MAX_CHUNK; lia).
  destruct (minix_read_spec true mnt v' off n (fs_cache f') V' [] C' (sb_mnt _ _ _ _ (fs_same _ _ _ _ _ F)) ltac:(simpl; lia) (fw_raw _ _ _ (fs_wf _ _ _ _ _ F)) Ho Hres)
    as ([[k bytes] s] & E & _ & _ & Hk & Hb).
  assert (read_len v' off n = n) as En by (unfold read_len; destruct (Z.geb_spec off (v_size v')); lia). rewrite En in *. destruct Hk as [[-> _]|[_ ?]]; [|done].
  exists s. rewrite E, (Hb eq_refl) by lia. do 3 f_equal. apply list_eq_same_length with (Z.to_nat n); [rewrite length_take; lia|by rewrite content_length|].
  intros i x y Hi Hx Hy. apply list_lookup_fmap_Some_1 in Hx as (o & -> & Ho'). apply lookup_seqZ in Ho' as [-> _]. rewrite Hsp, decide_True by lia.
  rewrite lookup_take_lt in Hy by lia. unfold byte_of. replace (Z.to_nat (off + Z.of_nat i - off)) with i by lia. by rewrite Hy.
Qed.

(** C23: truncation keeps the blocks below the new size and gives the others
    back.  The file has at most 519 KiB and no double-indirect zone ([file_wf]).
    On a device that answers, [minix_truncate] succeeds with the new size; a file
    that grows, or keeps its size, keeps its zones and bytes; one that shrinks
    keeps the zones and bytes of the blocks that remain, has no zone for those
    from there to its old end, which read as zeros, and keeps its index block
    exactly when an entry of it is left; truncated to nothing it has no zones.
    Every zone it no longer has is free: exactly its zones and those taken by
    others before are taken ([accounted]).  Every other file keeps its zones and
    its bytes. *)
Theorem minix_truncate_correct mnt v size f V :
  st true (mnt_bdev mnt) (fs_cache f) V [] → mnt_ok V mnt → maps_cover (mnt_sb mnt) → file_wf mnt V (mi_raw (v_info v)) →
  0 ≤ v_size v ≤ 519 * 1024 → 0 ≤ size →
  ∃ v' f' V', minix_truncate mnt v size f = Ok (0, v', f') ∧ st true (mnt_bdev mnt) (fs_cache f') V' [] ∧ mnt_ok V' mnt ∧ v_size v' = size ∧
    file_wf mnt V' (mi_raw (v_info v')) ∧ truncate_post mnt V v size V' v' ∧ accounted mnt V (mi_raw (v_info v)) V' (mi_raw (v_info v')) ∧
    ∀ r, file_wf mnt V r → (∀ z, owned mnt V (mi_raw (v_info v)) z → ¬ owned mnt V r z) →
      file_wf mnt V' r ∧ same_bytes mnt V r V' r ∧ ∀ z, owned mnt V' (mi_raw (v_info v')) z → ¬ owned mnt V' r z.
Proof.
  intros C HM HC W Hv Hs.
  destruct (minix_truncate_spec mnt HC (proj1 HM) v size f V [] C ltac:(simpl; lia) HM W Hv Hs) as ([[res v'] f'] & E & -> & Hsz & _ & _ & V' & C' & F & Hp).
  exists v', f', V'. split_and!; [done|done|apply F|done|apply F|apply Hp..|by apply (fstate_accounted mnt (proj1 HM))|]. intros r Wr Hd. by apply (other_file mnt (proj1 HM) V (mi_raw (v_info v))).
Qed.

(** Zones are taken and given back one at a time.  [minix_alloc_zone] returns
    the lowest free data zone and marks exactly it, or 0 when none is free;
    freeing it then restores the disk byte for byte, and freeing it once more
    stops the kernel. *)
Theorem minix_zone_roundtrip mnt s V R :
  st true (mnt_bdev mnt) s V R → (length R < 8)%nat → mnt_ok V mnt → maps_cover (mnt_sb mnt) →
  ∃ z s1, minix_alloc_zone mnt s = Ok (z, s1) ∧
    (z = 0 ∧ (∀ z', zone_valid (mnt_sb mnt) z' = true → marked V mnt z' = true) ∨
     zone_valid (mnt_sb mnt) z = true ∧ marked V mnt z = false ∧ (∀ z', zone_valid (mnt_sb mnt) z' = true → z' < z → marked V mnt z' = true) ∧
     ∃ V1 s2, st true (mnt_bdev mnt) s1 V1 R ∧
       (∀ z', zone_valid (mnt_sb mnt) z' = true → marked V1 mnt z' = (if decide (z' = z) then true else marked V mnt z') ∧
         V1 !! (mnt_bdev mnt, z') = V !! (mnt_bdev mnt, z')) ∧
       minix_free_zone mnt z s1 = Ok s2 ∧ st true (mnt_bdev mnt) s2 V R ∧ minix_free_zone mnt z s2 = Panic).
Proof.
  intros C HR HM HC. destruct (alloc_zone_spec mnt s V R C HR HM HC) as ([z s1] & E & H). exists z, s1. split; [done|].
  destruct H as [(-> & _ & Hall)|(Hz & Hf & Hlow & V1 & C1 & Hc)]; [by left|right]. split_and!; try done.
  destruct (mark_changed mnt HC V V1 z true HM Hz Hc) as (M1 & Hm & _).
  destruct (free_zone_spec mnt s1 V1 R z C1 HR M1 HC Hz) as (s2 & E2 & V2 & C2 & Hc2). { rewrite (proj1 (Hm z Hz)). by rewrite decide_True. }
  destruct (zmap_block V mnt z HM HC Hz) as (I1 & I2 & _ & [v Hv]). assert (V2 = V) as ->.
  { eapply (map_change_back V V1 V2); [exact Hv|exact (st_blocks _ _ _ _ _ C _ _ Hv)|lia|exact Hf|exact Hc|exact Hc2]. }
  exists V1, s2. split_and!; try done. unfold minix_free_zone. pose proof Hz as Hz'%zone_valid_iff.
  destruct (Z.ltb_spec z (s_firstdatazone (mnt_sb mnt))); [lia|]. destruct (Z.geb_spec z (s_nzones (mnt_sb mnt))); [lia|]. cbn [orb].
  by eapply double_free_panics.
Qed.

(** C31: fsync makes a file durable.  On a device that answers, [minix_fsync] of a
    changed inode succeeds, the disk itself then holds the file system as its
    users see it, with the inode in its place and the other inodes and all data
    as they were, and reading the inode back yields it. *)
Theorem minix_fsync_durable mnt v s V :
  st true (mnt_bdev mnt) s V [] → mnt_ok V mnt → 1 ≤ v_ino v ≤ s_ninodes (mnt_sb mnt) → inode_ok (mi_raw (v_info v)) → mi_dirty (v_info v) = true →
  ∃ v' s' V', minix_fsync mnt v s = Ok (0, v', s') ∧ mi_raw (v_info v') = mi_raw (v_info v) ∧ mi_dirty (v_info v') = false ∧
    st true (mnt_bdev mnt) s' V' [] ∧ (∀ b, cdisk s' (mnt_bdev mnt) b = V' !! (mnt_bdev mnt, b)) ∧
    (∀ k, k ≠ (mnt_bdev mnt, inode_block mnt (v_ino v)) → V' !! k = V !! k) ∧
    (∀ ino, 1 ≤ ino ≤ s_ninodes (mnt_sb mnt) → ino ≠ v_ino v → raw_at V' mnt ino = raw_at V mnt ino) ∧
    ∃ s'', minix_get_raw_inode mnt (v_ino v) s' = Ok (0, Some (mi_raw (v_info v)), s'').
Proof.
  intros C HM Hi Hok Hd. destruct (write_inode_spec mnt s V [] (v_ino v) (v_info v) C HM ltac:(simpl; lia) Hi (io_raw _ Hok) Hd) as ([[err mi] s1] & E & -> & -> & V1 & C1 & M1 & Hr & Hoth & Hk). specialize (Hr Hok).
  unfold minix_fsync. rewrite E. cbn [mbind outcome_bind Z.eqb negb].
  destruct C1 as (C1 & L1 & Hrd & _). destruct (bsync_spec s1 V1 [] (mnt_bdev mnt) C1 ltac:(simpl; lia)) as (err & s2 & -> & C2 & Hdisk & Hrdy).
  destruct (Hrdy Hrd) as [Hr2 ->]. cbn [mbind outcome_bind]. assert (st true (mnt_bdev mnt) s2 V1 []) as C3 by (split_and!; simpl; done || lia).
  eexists _, _, V1. split; [done|]. split_and!; try done; [by apply Hdisk|].
  destruct (get_raw_inode_spec true mnt s2 V1 [] (v_ino v) C3 M1 ltac:(simpl; lia) ltac:(lia)) as ([[err raw] s3] & -> & _ & H).
  exists s3. destruct raw as [raw|]; [destruct H as (-> & _ & -> & _); by rewrite Hr|]. destruct H as [[_ ?]|[_ ?]]; [lia|done].
Qed.
End Claims.

(** ** A small disk

    20 blocks: superblock, two bitmaps, one block of inodes and the data zones 5
    to 19.  Inode 1 is the root directory (zone 5), inode 2 a file of five bytes
    in zone 6. *)
Definition block_from (bytes : list Z) : list Z := bytes ++ replicate (1024 - length bytes) 0.
Definition demo_super : list Z := concat (le_bytes 2 <$> [32; 20; 1; 1; 5; 0]) ++ le_bytes 4 0x10081c00 ++ concat (le_bytes 2 <$> [0x137F; 1]).
Definition demo_root : minix_raw_inode := RawInode 0x41ED 0 64 7 0 2 (5 :: replicate 8 0).
Definition demo_file : minix_raw_inode := RawInode 0x81A4 0 5 7 0 1 (6 :: replicate 8 0).
Definition demo_hello : list Z := [104; 101; 108; 108; 111].
(** The entries [.], [..] and [f] of the root. *)
Definition demo_entries : list Z :=
  [1; 0; 46] ++ replicate 13 0 ++ [1; 0; 46; 46] ++ replicate 12 0 ++ [2; 0; 102] ++ replicate 13 0.
Definition demo_blocks : list (list Z) :=
  block_from [] :: block_from demo_super :: block_from [7] :: block_from [7] :: block_from (encode_inode demo_root ++ encode_inode demo_file) ::
  block_from demo_entries :: block_from demo_hello :: replicate 13 (block_from []).
Definition demo_sectors : list (list Z) := concat ((λ b, [take 512 b; drop 512 b]) <$> demo_blocks).
Definition minix_disk : gmap Z block_device := {[1 := Bdev 512 demo_sectors]}.

Definition demo_mnt : minix_mount_info := Mount 1 (decode_super (block_from demo_super)) 4.
Definition demo_inode : vfs_inode := Inode 2 5 false 0x81A4 0 0 (Info demo_file false).
Definition demo_cache (io : list Z) : bufcache := bufcache_boot minix_disk io.
Definition demo_fs (io : list Z) : fs bufcache := Fs (demo_cache io) [] 42.

Lemma minix_disk_ok : devs_ok minix_disk.
Proof.
  intros d dev H. unfold minix_disk in H. apply lookup_singleton_Some in H as [<- <-]. split; [done|].
  apply (bool_decide_unpack (Forall (λ s, length s = 512%nat ∧ Forall (λ x, 0 ≤ x < 256) s) demo_sectors)). vm_compute. exact I.
Qed.

Lemma demo_lookup b : disk_map minix_disk !! (1, b) = block_of b (Bdev 512 demo_sectors).
Proof. rewrite disk_map_lookup. done. Qed.

Lemma demo_size : disk_size (disk_map minix_disk) 1 40.
Proof.
  intros b Hb. rewrite demo_lookup. apply block_of_range. change (40 / 2) with 20 in Hb.
  assert (sector_count (Bdev 512 demo_sectors) = 40) as -> by (vm_compute; reflexivity). lia.
Qed.

Lemma demo_has_dev : has_dev (disk_map minix_disk) 1.
Proof. exists 0. apply demo_size. done. Qed.

Lemma demo_st rdy io : (rdy = true → io = []) → st rdy 1 (demo_cache io) (disk_map minix_disk) [].
Proof.
  intros Hio. split; [apply boot_bc_ok, minix_disk_ok|]. split; [done|]. destruct rdy; [|done]. rewrite Hio by done. split; [|simpl; lia].
  split; [done|]. split; [done|]. intros i x Hx. apply lookup_replicate in Hx as [-> _]. done.
Qed.

Lemma demo_mnt_ok : mnt_ok (disk_map minix_disk) demo_mnt ∧ maps_cover (mnt_sb demo_mnt).
Proof.
  assert (mnt_sb demo_mnt = Super 32 20 1 1 5 0 0x10081c00 0x137F 1) as E by (vm_compute; reflexivity).
  split; [split_and!|]; rewrite ?E; try done. intros b Hb. apply demo_size. simpl in Hb. change (40 / 2) with 20. lia.
Qed.

(** A file with one zone. *)
Definition one_zone (z size : Z) : minix_raw_inode → Prop := λ r, i_zone r = z :: replicate 8 0 ∧ i_size r = size.

Lemma one_zone_slots z size r q : one_zone z size r → (q < 520)%nat → slot demo_mnt (disk_map minix_disk) r q = if decide (q = 0%nat) then z else 0.
Proof.
  intros [E _] Hq. unfold slot. case_decide as D.
  - unfold zone_at. rewrite E. do 8 (destruct q as [|q]; [done|]). lia.
  - rewrite decide_False by lia. assert (zone_at r 7 = 0) as -> by (unfold zone_at; by rewrite E). unfold entry. by rewrite (zone_valid_0 demo_mnt (proj1 (proj1 demo_mnt_ok))).
Qed.

Lemma one_zone_owned z size r z' : one_zone z size r → owned demo_mnt (disk_map minix_disk) r z' → z' = z.
Proof. intros Hr (q & Hq & <- & Hz). rewrite (one_zone_slots z size) in * by done. by case_decide. Qed.

Lemma one_zone_wf z size r : one_zone z size r → 0 ≤ z < 65536 → zone_valid (mnt_sb demo_mnt) z = true → marked (disk_map minix_disk) demo_mnt z = true →
  file_wf demo_mnt (disk_map minix_disk) r.
Proof.
  intros Hr Hz Hv Hm. pose proof Hr as [E _]. constructor.
  - unfold raw_ok. rewrite E. split; [done|]. repeat constructor; lia.
  - unfold zone_at. by rewrite E.
  - intros z' Ho. by rewrite (one_zone_owned z size r z' Hr Ho).
  - intros p q Hp Hq. rewrite !(one_zone_slots z size) by done. repeat case_decide; congruence.
Qed.

Lemma demo_marked : marked (disk_map minix_disk) demo_mnt 5 = true ∧ marked (disk_map minix_disk) demo_mnt 6 = true.
Proof. unfold marked, mbit, blk. rewrite !demo_lookup. split; vm_compute; reflexivity. Qed.

Lemma demo_file_wf : file_wf demo_mnt (disk_map minix_disk) demo_file.
Proof. apply (one_zone_wf 6 5); [done|lia|vm_compute; reflexivity|apply demo_marked]. Qed.

Lemma demo_root_wf : file_wf demo_mnt (disk_map minix_disk) demo_root.
Proof. apply (one_zone_wf 5 64); [done|lia|vm_compute; reflexivity|apply demo_marked]. Qed.

(** Writing 3000 bytes at offset 3: three blocks, two of them new. *)
Definition demo_text : list Z := replicate 3000 65.

Lemma demo_text_ok : Forall byte demo_text.
Proof. apply Forall_replicate. unfold byte. lia. Qed.

Lemma minix_any_image_witness : ∃ n bytes s', mount_and_read 1 512 40 2 0 100 (demo_fs (replicate 20 0 ++ [- EIO])) = Ok (n, bytes, s') ∧
  st false 1 s' (disk_map minix_disk) [] ∧ (n < 0 ∨ n = Z.of_nat (length bytes) ∧ 0 ≤ n ≤ 100 ∧ Forall byte bytes).
Proof.
  apply (minix_any_image (demo_fs (replicate 20 0 ++ [- EIO])) (disk_map minix_disk) 1 512 40 2 0 100); try lia; [by apply demo_st|exact demo_has_dev|exact demo_size].
Defined.

Lemma minix_read_correct_witness : ∃ s', minix_read demo_mnt demo_inode 1 10 (demo_cache []) = Ok (4, content (disk_map minix_disk) demo_mnt demo_file 1 4, s').
Proof.
  destruct (minix_read_correct demo_mnt demo_inode 1 10 (demo_cache []) (disk_map minix_disk) []) as (s' & E & _); try lia.
  - by apply demo_st.
  - apply demo_mnt_ok.
  - simpl. lia.
  - apply demo_file_wf.
  - exists s'. exact E.
Defined.

Lemma minix_write_correct_witness : ∃ res v' f' V', minix_write demo_mnt demo_inode 3 3000 demo_text (demo_fs []) = Ok (res, v', f') ∧
  write_post demo_mnt (disk_map minix_disk) demo_inode 3 (write_len 3000) demo_text (demo_fs []) V' v' res.
Proof.
  destruct (minix_write_correct demo_mnt demo_inode 3 3000 demo_text (demo_fs []) (disk_map minix_disk)) as (res & v' & f' & V' & E & _ & _ & _ & Hp & _).
  - by apply demo_st.
  - apply demo_mnt_ok.
  - apply demo_mnt_ok.
  - exact demo_file_wf.
  - simpl. lia.
  - lia.
  - unfold demo_text. rewrite length_replicate. lia.
  - exact demo_text_ok.
  - vm_compute. discriminate.
  - exists res, v', f', V'. split; [exact E|exact Hp].
Defined.

Lemma minix_write_read_witness : ∃ v' f' s, minix_write demo_mnt demo_inode 3 3000 demo_text (demo_fs []) = Ok (3000, v', f') ∧
  minix_read demo_mnt v' 3 3000 (fs_cache f') = Ok (3000, demo_text, s).
Proof.
  destruct (minix_write demo_mnt demo_inode 3 3000 demo_text (demo_fs [])) as [[[res v'] f']| | | ] eqn:E; [|vm_compute in E; discriminate E..].
  assert (res = 3000) as ->.
  { assert ((match minix_write demo_mnt demo_inode 3 3000 demo_text (demo_fs []) with Ok (res, _, _) => res | _ => 0 end) = 3000) as H by (vm_compute; reflexivity).
    rewrite E in H. exact H. }
  destruct (minix_write_read demo_mnt demo_inode 3 3000 demo_text (demo_fs []) (disk_map minix_disk) 3000 v' f') as (s & Er).
  - by apply demo_st.
  - apply demo_mnt_ok.
  - apply demo_mnt_ok.
  - exact demo_file_wf.
  - simpl. lia.
  - lia.
  - unfold demo_text. rewrite length_replicate. lia.
  - exact demo_text_ok.
  - vm_compute. discriminate.
  - exact E.
  - lia.
  - exists v', f', s. split; [reflexivity|]. rewrite Er. do 3 f_equal.
Defined.

Lemma minix_truncate_correct_witness : ∃ v' f' V', minix_truncate demo_mnt demo_inode 0 (demo_fs []) = Ok (0, v', f') ∧ v_size v' = 0 ∧
  truncate_post demo_mnt (disk_map minix_disk) demo_inode 0 V' v'.
Proof.
  destruct (minix_truncate_correct demo_mnt demo_inode 0 (demo_fs []) (disk_map minix_disk)) as (v' & f' & V' & E & _ & _ & Hs & _ & Hp & _).
  - by apply demo_st.
  - apply demo_mnt_ok.
  - apply demo_mnt_ok.
  - exact demo_file_wf.
  - simpl. lia.
  - lia.
  - exists v', f', V'. split; [exact E|]. split; [exact Hs|exact Hp].
Defined.

Lemma minix_zone_roundtrip_witness : ∃ z s1, minix_alloc_zone demo_mnt (demo_cache []) = Ok (z, s1).
Proof.
  destruct (minix_zone_roundtrip demo_mnt (demo_cache []) (disk_map minix_disk) []) as (z & s1 & E & _).
  - by apply demo_st.
  - simpl. lia.
  - apply demo_mnt_ok.
  - apply demo_mnt_ok.
  - exists z, s1. exact E.
Defined.

Lemma minix_fsync_durable_witness : ∃ v' s', minix_fsync demo_mnt (with_info (Info demo_file true) demo_inode) (demo_cache []) = Ok (0, v', s').
Proof.
  destruct (minix_fsync_durable demo_mnt (with_info (Info demo_file true) demo_inode) (demo_cache []) (disk_map minix_disk)) as (v' & s' & V' & E & _).
  - by apply demo_st.
  - apply demo_mnt_ok.
  - assert (s_ninodes (mnt_sb demo_mnt) = 32) as -> by (vm_compute; reflexivity). simpl. lia.
  - constructor; try (simpl; lia). apply demo_file_wf.
  - reflexivity.
  - exists v', s'. exact E.
Defined.

(** ** Behaviours worth knowing *)

(** Shrinking a file leaves the tail of its last block: growing it again shows
    the old bytes. *)
Example truncate_shows_old_bytes :
  ('(_, v, f) ← minix_truncate demo_mnt demo_inode 2 (demo_fs []);
   '(_, v, f) ← minix_truncate demo_mnt v 5 f;
   '(n, bytes, _) ← minix_read demo_mnt v 0 5 (fs_cache f); Ok (n, bytes)) = Ok (5, demo_hello).
Proof. vm_compute. reflexivity. Qed.

(** A write past block 518 needs a leaf of the double-indirect tree, which is never
    allocated: it fails for want of space on an almost empty disk. *)
Example far_write_fails :
  ('(n, v, _) ← minix_write demo_mnt demo_inode (519 * 1024) 1 [65] (demo_fs []); Ok (n, v_size v)) = Ok (- ENOSPC, 5).
Proof. vm_compute. reflexivity. Qed.

(** Two pointers to one zone in a corrupt inode: truncating it stops the kernel. *)
Example shared_zone_panics :
  minix_truncate demo_mnt (with_info (Info (set_zone 1 6 demo_file) false) demo_inode) 0 (demo_fs []) = Panic.
Proof. vm_compute. reflexivity. Qed.
