(* ===== verification/MinixDir.v ===== *)
(** * fs/minix/dir.c

    Names are C strings without their terminating NUL.  A directory is passed
    by value and returned when changed, as in [Minix]; [minix_rename] gets its
    two directories as a [dirs], in which they may be the same object. *)

From S2P Require Import Prelude Bufcache Minix.

Definition MINIX_NAME_LEN : Z := 14.
Definition MINIX_MODE_REG : Z := 0x8000.
Definition MINIX_MODE_DIR : Z := 0x4000.
Definition MINIX_RENAME_MAX_DEPTH : nat := 256.

Record minix_dir_entry := Dirent { de_inode : Z; de_name : list Z }.

Definition decode_dirent (data : list Z) (i : Z) : minix_dir_entry :=
  Dirent (le_field data (Z.to_nat i) 2) (take 14 (drop (Z.to_nat (i + 2)) data)).
Definition encode_dirent (de : minix_dir_entry) : list Z := le_bytes 2 (de_inode de) ++ de_name de.

(** The string at the start of a character array. *)
Fixpoint cstr (l : list Z) : list Z :=
  match l with [] => [] | x :: l => if x =? 0 then [] else x :: cstr l end.

Definition minix_dirent_name (de : minix_dir_entry) : list Z := cstr (de_name de).

Definition dot : list Z := [46].
Definition dotdot : list Z := [46; 46].

Definition named (name : list Z) (de : minix_dir_entry) : bool :=
  negb (de_inode de =? 0) && bool_decide (minix_dirent_name de = name).

(** [for (i = 0; i < chunk; i += 16)]: the first entry that passes [test]. *)
Fixpoint scan_block (n : nat) (i chunk : Z) (data : list Z) (test : minix_dir_entry → bool) : option (Z * minix_dir_entry) :=
  match n with
  | O => None
  | S n =>
      if i >=? chunk then None else
      let de := decode_dirent data i in
      if test de then Some (i, de) else scan_block n (i + 16) chunk data test
  end.

Section Dir.
Context {S : Type} `{BlockCache S}.

Definition on_cache (s : S) (f : fs S) : fs S := Fs s (fs_kmem f) (fs_now f).

(** [while (offset < size)]: the first entry that passes [test] goes to [found]
    with its offset and the referenced buffer it lies in; [failed] is the
    return on an I/O error, [ended] what follows the loop. *)
Fixpoint dir_scan {A} (fuel : nat) (mnt : minix_mount_info) (mi : minix_inode_info) (size offset : Z) (test : minix_dir_entry → bool)
    (found : nat → Z → minix_dir_entry → fs S → outcome A) (failed ended : fs S → outcome A) (f : fs S) : outcome A :=
  match fuel with
  | O => NoFuel
  | Datatypes.S fuel =>
      if offset >=? size then ended f else
      '(b, _, s) ← minix_bmap mnt mi (offset / MINIX_BLOCK_SIZE) false (fs_cache f);
      if b =? 0 then dir_scan fuel mnt mi size (u32 (offset + MINIX_BLOCK_SIZE)) test found failed ended (on_cache s f) else
      '(buf, s) ← bget (mnt_bdev mnt) b s;
      match buf with
      | None => failed (on_cache s f)
      | Some h =>
          data ← bdata h s;
          let chunk := Z.min (size - offset) MINIX_BLOCK_SIZE in
          match scan_block 64 0 chunk data test with
          | Some (i, de) => found h (offset + i) de (on_cache s f)
          | None =>
              s ← bput h s;
              dir_scan fuel mnt mi size (u32 (offset + MINIX_BLOCK_SIZE)) test found failed ended (on_cache s f)
          end
      end
  end.

Definition minix_clone_inode (v : vfs_inode) (f : fs S) : Z * option vfs_inode * fs S :=
  minix_inode_from_raw (v_ino v) (mi_raw (v_info v)) f.

Definition minix_lookup (mnt : minix_mount_info) (dir : vfs_inode) (name : list Z) (f : fs S) : outcome (Z * option vfs_inode * fs S) :=
  if negb (v_is_dir dir) then Ok (- ENOTDIR, None, f) else
  let size := i_size (mi_raw (v_info dir)) in
  if decide (name = dot) then Ok (minix_clone_inode dir f) else
  dir_scan (rounds size) mnt (v_info dir) size 0 (λ de, (de_inode de <=? s_ninodes (mnt_sb mnt)) && named name de)
    (λ h _ de f,
      '(err, raw, s) ← minix_get_raw_inode mnt (de_inode de) (fs_cache f);
      match raw with
      | None => s ← bput h s; Ok (- EIO, None, on_cache s f)
      | Some raw =>
          let '(err, inode, f) := minix_inode_from_raw (de_inode de) raw (on_cache s f) in
          s ← bput h (fs_cache f);
          Ok (err, inode, on_cache s f)
      end)
    (λ f, Ok (- EIO, None, f)) (λ f, Ok (- ENOENT, None, f)) f.

(** The entries of one block that are live: the wanted one, or how many. *)
Fixpoint nth_live (n : nat) (i chunk : Z) (data : list Z) (ninodes index curr_idx : Z) : option minix_dir_entry * Z :=
  match n with
  | O => (None, curr_idx)
  | Datatypes.S n =>
      if i >=? chunk then (None, curr_idx) else
      let de := decode_dirent data i in
      if de_inode de =? 0 then nth_live n (i + 16) chunk data ninodes index curr_idx else
      if de_inode de >? ninodes then nth_live n (i + 16) chunk data ninodes index curr_idx else
      if curr_idx =? index then (Some de, curr_idx) else
      nth_live n (i + 16) chunk data ninodes index (curr_idx + 1)
  end.

Fixpoint readdir_loop (fuel : nat) (mnt : minix_mount_info) (mi : minix_inode_info) (size offset index curr_idx : Z) (s : S) :
    outcome (Z * option minix_dir_entry * S) :=
  match fuel with
  | O => NoFuel
  | Datatypes.S fuel =>
      if offset >=? size then Ok (0, None, s) else
      '(b, _, s) ← minix_bmap mnt mi (offset / MINIX_BLOCK_SIZE) false s;
      if b =? 0 then readdir_loop fuel mnt mi size (u32 (offset + MINIX_BLOCK_SIZE)) index curr_idx s else
      '(buf, s) ← bget (mnt_bdev mnt) b s;
      match buf with
      | None => Ok (- EIO, None, s)
      | Some h =>
          data ← bdata h s;
          let chunk := Z.min (size - offset) MINIX_BLOCK_SIZE in
          let '(de, curr_idx) := nth_live 64 0 chunk data (s_ninodes (mnt_sb mnt)) index curr_idx in
          s ← bput h s;
          match de with
          | Some de => Ok (1, Some de, s)
          | None => readdir_loop fuel mnt mi size (u32 (offset + MINIX_BLOCK_SIZE)) index curr_idx s
          end
      end
  end.

Definition minix_readdir (mnt : minix_mount_info) (dir : vfs_inode) (index : Z) (s : S) : outcome (Z * option minix_dir_entry * S) :=
  if negb (v_is_dir dir) then Ok (- ENOTDIR, None, s) else
  let size := i_size (mi_raw (v_info dir)) in
  readdir_loop (rounds size) mnt (v_info dir) size 0 index 0 s.

Definition minix_find_dirent (mnt : minix_mount_info) (dir : vfs_inode) (name : list Z) (f : fs S) :
    outcome (Z * option (Z * minix_dir_entry) * fs S) :=
  let size := i_size (mi_raw (v_info dir)) in
  dir_scan (rounds size) mnt (v_info dir) size 0 (named name)
    (λ h off de f, s ← bput h (fs_cache f); Ok (0, Some (off, de), on_cache s f))
    (λ f, Ok (- EIO, None, f)) (λ f, Ok (- ENOENT, None, f)) f.

Definition minix_write_dirent_at (mnt : minix_mount_info) (dir : vfs_inode) (offset : Z) (de : minix_dir_entry) (f : fs S) : outcome (Z * vfs_inode * fs S) :=
  '(n, dir, f) ← minix_write mnt dir offset 16 (encode_dirent de) f;
  if n <? 0 then Ok (n, dir, f) else Ok (if n =? 16 then 0 else - EIO, dir, f).

(** A string of 1 to 14 characters without a slash. *)
Definition minix_name_valid (name : list Z) : bool :=
  negb (bool_decide (name = [])) && (Z.of_nat (length name) <=? MINIX_NAME_LEN) && bool_decide (47 ∉ name).

Definition new_dirent (ino : Z) (name : list Z) : minix_dir_entry := Dirent (u16 ino) (name ++ replicate (14 - length name) 0).

Definition minix_add_dirent (mnt : minix_mount_info) (dir : vfs_inode) (name : list Z) (ino : Z) (f : fs S) : outcome (Z * vfs_inode * fs S) :=
  if negb (minix_name_valid name) then Ok (- EINVAL, dir, f) else
  if Z.of_nat (length name) >? MINIX_NAME_LEN then Ok (- ENAMETOOLONG, dir, f) else
  '(err, _, f) ← minix_find_dirent mnt dir name f;
  if err =? 0 then Ok (- EEXIST, dir, f) else
  let de := new_dirent ino name in
  let size := i_size (mi_raw (v_info dir)) in
  dir_scan (rounds size) mnt (v_info dir) size 0 (λ slot, de_inode slot =? 0)
    (λ h off _ f, s ← bput h (fs_cache f); minix_write_dirent_at mnt dir off de (on_cache s f))
    (λ f, Ok (- EIO, dir, f)) (λ f, minix_write_dirent_at mnt dir size de f) f.

Definition minix_zero_dirent (mnt : minix_mount_info) (dir : vfs_inode) (name : list Z) (f : fs S) : outcome (Z * option minix_dir_entry * vfs_inode * fs S) :=
  '(err, r, f) ← minix_find_dirent mnt dir name f;
  match r with
  | None => Ok (err, None, dir, f)
  | Some (off, old) =>
      '(err, dir, f) ← minix_write_dirent_at mnt dir off (Dirent 0 (replicate 14 0)) f;
      Ok (err, Some old, dir, f)
  end.

Definition minix_restore_dirent (mnt : minix_mount_info) (dir : vfs_inode) (name : list Z) (de : minix_dir_entry) (f : fs S) : outcome (Z * vfs_inode * fs S) :=
  '(err, _, f) ← minix_find_dirent mnt dir name f;
  if err =? 0 then Ok (- EEXIST, dir, f) else minix_add_dirent mnt dir name (de_inode de) f.

(** One call of [minix_readdir] for each index; any result but 1 ends the loop. *)
Fixpoint empty_loop (fuel : nat) (i : Z) (mnt : minix_mount_info) (dir : vfs_inode) (s : S) : outcome (bool * S) :=
  match fuel with
  | O => NoFuel
  | Datatypes.S fuel =>
      '(err, de, s) ← minix_readdir mnt dir i s;
      match de with
      | Some de =>
          let name := minix_dirent_name de in
          if negb (bool_decide (name = dot)) && negb (bool_decide (name = dotdot)) then Ok (false, s) else
          empty_loop fuel (i + 1) mnt dir s
      | None => Ok (true, s)
      end
  end.

Definition minix_dir_empty (mnt : minix_mount_info) (dir : vfs_inode) (s : S) : outcome (bool * S) :=
  empty_loop (Z.to_nat (i_size (mi_raw (v_info dir)) / 16 + 2)) 0 mnt dir s.

(** [vfs_close] of an inode that is not in the inode cache. *)
Definition vfs_close (mnt : minix_mount_info) (v : vfs_inode) (f : fs S) : outcome (fs S) :=
  s ← minix_close mnt v (fs_cache f); Ok (on_cache s f).

(** The root inode of the mount has number [root_ino]. *)
Fixpoint minix_is_ancestor_or_self (fuel : nat) (mnt : minix_mount_info) (root_ino curr target : Z) (f : fs S) : outcome (bool * fs S) :=
  match fuel with
  | O => Ok (true, f)
  | Datatypes.S fuel =>
      if curr =? target then Ok (true, f) else
      if curr =? root_ino then Ok (false, f) else
      '(err, raw, s) ← minix_get_raw_inode mnt curr (fs_cache f);
      let f := on_cache s f in
      match raw with
      | None => Ok (true, f)
      | Some raw =>
          let '(err, node, f) := minix_inode_from_raw curr raw f in
          match node with
          | None => Ok (true, f)
          | Some node =>
              '(err, r, f) ← minix_find_dirent mnt node dotdot f;
              f ← vfs_close mnt node f;
              match r with
              | None => Ok (true, f)
              | Some (_, de) =>
                  if (de_inode de =? 0) || (de_inode de =? curr) then Ok (false, f) else
                  minix_is_ancestor_or_self fuel mnt root_ino (de_inode de) target f
              end
          end
      end
  end.

Definition minix_replace_dotdot (mnt : minix_mount_info) (dir : vfs_inode) (parent : Z) (f : fs S) : outcome (Z * vfs_inode * fs S) :=
  '(err, r, f) ← minix_find_dirent mnt dir dotdot f;
  match r with
  | None => Ok (err, dir, f)
  | Some (off, de) => minix_write_dirent_at mnt dir off (Dirent (u16 parent) (de_name de)) f
  end.

Definition minix_free_tree_inode (mnt : minix_mount_info) (ino : Z) (raw : minix_raw_inode) (f : fs S) : outcome (Z * fs S) :=
  let '(err, victim, f) := minix_inode_from_raw ino raw f in
  match victim with
  | None => Ok (err, f)
  | Some victim =>
      '(busy, s) ← (if v_is_dir victim then '(empty, s) ← minix_dir_empty mnt victim (fs_cache f); Ok (negb empty, s) else Ok (false, fs_cache f));
      let f := on_cache s f in
      if (busy : bool) then f ← vfs_close mnt victim f; Ok (- EBUSY, f) else
      '(err, victim, f) ← minix_truncate mnt victim 0 f;
      f ← vfs_close mnt victim f;
      if negb (err =? 0) then Ok (err, f) else
      s ← minix_free_inode mnt ino (fs_cache f);
      Ok (0, on_cache s f)
  end.

Definition fresh_raw (mode now nlinks : Z) : minix_raw_inode := RawInode mode 0 0 now 0 nlinks (replicate 9 0).

Definition minix_create (mnt : minix_mount_info) (dir : vfs_inode) (name : list Z) (mode : Z) (f : fs S) : outcome (Z * option vfs_inode * vfs_inode * fs S) :=
  if negb (v_is_dir dir) then Ok (- ENOTDIR, None, dir, f) else
  '(ino, s) ← minix_alloc_inode mnt (fs_cache f);
  let f := on_cache s f in
  if ino =? 0 then Ok (- ENOSPC, None, dir, f) else
  let raw := fresh_raw (Z.lor MINIX_MODE_REG (Z.land mode 0x1FF)) (fs_now f) 1 in
  '(err, mi, s) ← minix_write_inode mnt ino (Info raw true) (fs_cache f);
  let f := on_cache s f in
  if negb (err =? 0) then s ← minix_free_inode mnt ino (fs_cache f); Ok (err, None, dir, on_cache s f) else
  '(err, dir, f) ← minix_add_dirent mnt dir name ino f;
  if negb (err =? 0) then s ← minix_free_inode mnt ino (fs_cache f); Ok (err, None, dir, on_cache s f) else
  let '(err, v, f) := minix_inode_from_raw ino raw f in
  Ok (err, v, dir, f).

Definition minix_unlink (mnt : minix_mount_info) (dir : vfs_inode) (name : list Z) (f : fs S) : outcome (Z * vfs_inode * fs S) :=
  '(err, r, f) ← minix_find_dirent mnt dir name f;
  match r with
  | None => Ok (err, dir, f)
  | Some (_, de) =>
      '(err, raw, s) ← minix_get_raw_inode mnt (de_inode de) (fs_cache f);
      let f := on_cache s f in
      match raw with
      | None => Ok (err, dir, f)
      | Some raw =>
          if has (i_mode raw) MINIX_MODE_DIR then Ok (- EISDIR, dir, f) else
          '(err, old, dir, f) ← minix_zero_dirent mnt dir name f;
          if negb (err =? 0) then Ok (err, dir, f) else
          let de := default de old in
          '(err, f) ← minix_free_tree_inode mnt (de_inode de) raw f;
          if negb (err =? 0) then
            '(_, dir, f) ← minix_restore_dirent mnt dir name de f; Ok (err, dir, f)
          else Ok (0, dir, f)
      end
  end.

Definition bump_nlinks (k : Z) (v : vfs_inode) : vfs_inode :=
  with_info (Info (set_nlinks (i_nlinks (mi_raw (v_info v)) + k) (mi_raw (v_info v))) true) v.

(** [parent->raw.i_nlinks--] unless it is 0; the inode becomes dirty. *)
Definition drop_nlink (v : vfs_inode) : vfs_inode :=
  if i_nlinks (mi_raw (v_info v)) >? 0 then bump_nlinks (-1) v else bump_nlinks 0 v.

(** [parent->raw.i_nlinks++], an 8-bit counter. *)
Definition add_nlink (v : vfs_inode) : vfs_inode :=
  with_info (Info (set_nlinks ((i_nlinks (mi_raw (v_info v)) + 1) mod 256) (mi_raw (v_info v))) true) v.

Definition minix_mkdir (mnt : minix_mount_info) (dir : vfs_inode) (name : list Z) (mode : Z) (f : fs S) : outcome (Z * vfs_inode * fs S) :=
  if i_nlinks (mi_raw (v_info dir)) >=? 0xff then Ok (- EMLINK, dir, f) else
  '(ino, s) ← minix_alloc_inode mnt (fs_cache f);
  let f := on_cache s f in
  if ino =? 0 then Ok (- ENOSPC, dir, f) else
  let raw := fresh_raw (Z.lor MINIX_MODE_DIR (Z.land mode 0x1FF)) (fs_now f) 2 in
  let tmp := Inode ino 0 true (i_mode raw) 0 0 (Info raw true) in
  let fail err tmp dir f :=
    '(_, _, f) ← minix_truncate mnt tmp 0 f;
    s ← minix_free_inode mnt ino (fs_cache f);
    Ok (err, dir, on_cache s f) in
  '(err, tmp, f) ← minix_add_dirent mnt tmp dot ino f;
  if negb (err =? 0) then fail err tmp dir f else
  '(err, tmp, f) ← minix_add_dirent mnt tmp dotdot (v_ino dir) f;
  if negb (err =? 0) then fail err tmp dir f else
  '(err, mi, s) ← minix_write_inode mnt ino (v_info tmp) (fs_cache f);
  let f := on_cache s f in
  let tmp := with_info mi tmp in
  if negb (err =? 0) then fail err tmp dir f else
  '(err, dir, f) ← minix_add_dirent mnt dir name ino f;
  if negb (err =? 0) then fail err tmp dir f else
  Ok (0, add_nlink dir, f).

Definition minix_rmdir (mnt : minix_mount_info) (dir : vfs_inode) (name : list Z) (f : fs S) : outcome (Z * vfs_inode * fs S) :=
  if bool_decide (name = dot) || bool_decide (name = dotdot) then Ok (- EINVAL, dir, f) else
  '(err, victim, f) ← minix_lookup mnt dir name f;
  match victim with
  | None => Ok (err, dir, f)
  | Some victim =>
      if negb (v_is_dir victim) then f ← vfs_close mnt victim f; Ok (- ENOTDIR, dir, f) else
      '(empty, s) ← minix_dir_empty mnt victim (fs_cache f);
      let f := on_cache s f in
      if negb empty then f ← vfs_close mnt victim f; Ok (- EBUSY, dir, f) else
      '(err, victim, f) ← minix_truncate mnt victim 0 f;
      f ← vfs_close mnt victim f;
      if negb (err =? 0) then Ok (err, dir, f) else
      '(err, de, dir, f) ← minix_zero_dirent mnt dir name f;
      if negb (err =? 0) then Ok (err, dir, f) else
      de ← deref de;
      s ← minix_free_inode mnt (de_inode de) (fs_cache f);
      Ok (0, drop_nlink dir, on_cache s f)
  end.

(** The two directories of a rename; [None] for the second when it is the first. *)
Record dirs := Dirs { old_dir : vfs_inode; new_dir : option vfs_inode }.

Definition get_new (d : dirs) : vfs_inode := default (old_dir d) (new_dir d).
Definition put_new (v : vfs_inode) (d : dirs) : dirs :=
  match new_dir d with None => Dirs v None | Some _ => Dirs (old_dir d) (Some v) end.
Definition put_old (v : vfs_inode) (d : dirs) : dirs := Dirs v (new_dir d).
Definition apart (d : dirs) : bool := match new_dir d with None => false | Some _ => true end.

(** The label [out_old_inode]. *)
Definition out_old_inode (mnt : minix_mount_info) (err : Z) (old_inode : vfs_inode) (d : dirs) (f : fs S) : outcome (Z * dirs * fs S) :=
  f ← vfs_close mnt old_inode f; Ok (err, d, f).

(** The entry a rename replaces: an error, or the entry and its inode, already
    removed, or nothing. *)
Definition rename_target (mnt : minix_mount_info) (old_is_dir : bool) (new_name : list Z) (d : dirs) (f : fs S) :
    outcome (Z * option (minix_dir_entry * minix_raw_inode) * dirs * fs S) :=
  '(err, r, f) ← minix_find_dirent mnt (get_new d) new_name f;
  match r with
  | None => Ok (if err =? - ENOENT then 0 else err, None, d, f)
  | Some (_, replaced) =>
      '(err, raw, s) ← minix_get_raw_inode mnt (de_inode replaced) (fs_cache f);
      let f := on_cache s f in
      match raw with
      | None => Ok (err, None, d, f)
      | Some raw =>
          let is_dir := has (i_mode raw) MINIX_MODE_DIR in
          if old_is_dir && negb is_dir then Ok (- ENOTDIR, None, d, f) else
          if negb old_is_dir && is_dir then Ok (- EISDIR, None, d, f) else
          '(err, f) ← (if is_dir then
                         let '(err, dst, f) := minix_inode_from_raw (de_inode replaced) raw f in
                         match dst with
                         | None => Ok (err, f)
                         | Some dst =>
                             '(empty, s) ← minix_dir_empty mnt dst (fs_cache f);
                             f ← vfs_close mnt dst (on_cache s f);
                             Ok (if (empty : bool) then 0 else - EBUSY, f)
                         end
                       else Ok (0, f));
          if negb (err =? 0) then Ok (err, None, d, f) else
          '(err, old, v, f) ← minix_zero_dirent mnt (get_new d) new_name f;
          let d := put_new v d in
          if negb (err =? 0) then Ok (err, None, d, f) else
          Ok (0, Some (default replaced old, raw), d, f)
      end
  end.

(** [if (had_replaced) (void)minix_restore_dirent(new_dir, new_name, &replaced)] *)
Definition restore_replaced (mnt : minix_mount_info) (new_name : list Z) (had : option (minix_dir_entry * minix_raw_inode)) (d : dirs) (f : fs S) : outcome (dirs * fs S) :=
  match had with
  | None => Ok (d, f)
  | Some (replaced, _) => '(_, v, f) ← minix_restore_dirent mnt (get_new d) new_name replaced f; Ok (put_new v d, f)
  end.

Definition minix_rename (mnt : minix_mount_info) (root_ino : Z) (old_name new_name : list Z) (d : dirs) (f : fs S) : outcome (Z * dirs * fs S) :=
  if negb (apart d) && bool_decide (old_name = new_name) then Ok (0, d, f) else
  if bool_decide (old_name = dot) || bool_decide (old_name = dotdot) || bool_decide (new_name = dot) || bool_decide (new_name = dotdot) then Ok (- EINVAL, d, f) else
  '(err, r, f) ← minix_find_dirent mnt (old_dir d) old_name f;
  match r with
  | None => Ok (err, d, f)
  | Some (_, de) =>
      '(err, raw, s) ← minix_get_raw_inode mnt (de_inode de) (fs_cache f);
      let f := on_cache s f in
      match raw with
      | None => Ok (err, d, f)
      | Some old_raw =>
          let '(err, inode, f) := minix_inode_from_raw (de_inode de) old_raw f in
          match inode with
          | None => Ok (err, d, f)
          | Some old_inode =>
              '(cycle, f) ← (if v_is_dir old_inode && apart d then
                               minix_is_ancestor_or_self MINIX_RENAME_MAX_DEPTH mnt root_ino (v_ino (get_new d)) (v_ino old_inode) f
                             else Ok (false, f));
              if (cycle : bool) then out_old_inode mnt (- EINVAL) old_inode d f else
              '(err, had, d, f) ← rename_target mnt (v_is_dir old_inode) new_name d f;
              if negb (err =? 0) then out_old_inode mnt err old_inode d f else
              '(err, v, f) ← minix_add_dirent mnt (get_new d) new_name (de_inode de) f;
              let d := put_new v d in
              if negb (err =? 0) then
                '(d, f) ← restore_replaced mnt new_name had d f;
                out_old_inode mnt err old_inode d f
              else
              '(err, old, v, f) ← minix_zero_dirent mnt (old_dir d) old_name f;
              let d := put_old v d in
              if negb (err =? 0) then
                '(_, _, v, f) ← minix_zero_dirent mnt (get_new d) new_name f;
                let d := put_new v d in
                '(d, f) ← restore_replaced mnt new_name had d f;
                out_old_inode mnt err old_inode d f
              else
              '(err, old_inode, d, f) ←
                (if v_is_dir old_inode && apart d then
                   '(err, old_inode, f) ← minix_replace_dotdot mnt old_inode (v_ino (get_new d)) f;
                   if negb (err =? 0) then Ok (err, old_inode, d, f) else
                   let d := put_old (drop_nlink (old_dir d)) d in
                   Ok (0, old_inode, put_new (add_nlink (get_new d)) d, f)
                 else Ok (0, old_inode, d, f));
              if negb (err =? 0) then out_old_inode mnt err old_inode d f else
              match had with
              | None => out_old_inode mnt 0 old_inode d f
              | Some (replaced, replaced_raw) =>
                  '(err, f) ← minix_free_tree_inode mnt (de_inode replaced) replaced_raw f;
                  out_old_inode mnt err old_inode d f
              end
          end
      end
  end.

End Dir.
