(* ===== verification/MinixDirSpec.v ===== *)
(** * MINIX directories

    A directory is a file of 16-byte entries.  [dent] reads them off the disk;
    the loops of [dir.c] are related to it, and creating and unlinking a name
    change exactly the entry they should. *)

From S2P Require Import Prelude Bufcache BufcacheSpec BufcacheSystem Minix MinixMap MinixRead MinixTree MinixWrite MinixFile MinixSystem MinixDir.

(** ** What does not change in an inode *)

Definition meta (r : minix_raw_inode) : minix_raw_inode :=
  RawInode (i_mode r) (i_uid r) (i_size r) (i_time r) (i_gid r) (i_nlinks r) [].

Ltac ok_inv := repeat (cbv beta zeta in *; match goal with
  | H : (_ ≫= _) = Ok _ |- _ => let a := fresh "a" in let E := fresh "E" in apply bind_inv in H as (a & E & H)
  | H : Ok _ = Ok _ |- _ => injection H as <- + injection H as <- <- + injection H as <- <- <- + injection H as <- <- <- <-
  | H : (let '(_, _) := ?x in _) = Ok _ |- _ => destruct x eqn:?
  | H : (if ?b then _ else _) = Ok _ |- _ => destruct b eqn:?
  | H : match ?o with Some _ => _ | None => _ end = Ok _ |- _ => destruct o eqn:?
  | H : Panic = Ok _ |- _ => discriminate H
  | H : NoFuel = Ok _ |- _ => discriminate H
  end); simplify_eq/=.

Section Meta.
Context {S : Type} {BC : BlockCache S}.

Lemma need_zone_meta mnt i create mi (s : S) z mi' s' : need_zone mnt i create mi s = Ok (z, mi', s') → meta (mi_raw mi') = meta (mi_raw mi).
Proof. unfold need_zone. intros H. ok_inv; done. Qed.

Lemma bmap_meta mnt mi l create (s : S) b mi' s' : minix_bmap mnt mi l create s = Ok (b, mi', s') → meta (mi_raw mi') = meta (mi_raw mi).
Proof.
  unfold minix_bmap. intros H. ok_inv; try done;
    match goal with E : need_zone _ _ _ _ _ = Ok _ |- _ => by apply need_zone_meta in E end.
Qed.

Lemma create_blocks_meta n i mnt mi (s : S) ok created mi' s' : create_blocks n i mnt mi s = Ok (ok, created, mi', s') → meta (mi_raw mi') = meta (mi_raw mi).
Proof.
  revert i mi s ok created. induction n as [|n IH]; intros i mi s ok created H; cbn [create_blocks] in H; [by simplify_eq|].
  ok_inv; repeat match goal with
    | E : minix_bmap _ _ _ _ _ = Ok _ |- _ => apply bmap_meta in E
    | E : create_blocks _ _ _ _ _ = Ok _ |- _ => apply IH in E
    end; congruence.
Qed.

Lemma rollback_size mnt v mi created (s : S) v' s' : 0 ≤ v_size v < 2 ^ 32 →
  rollback_alloc mnt v mi created s = Ok (v', s') → v_size v' = i_size (mi_raw (v_info v')).
Proof. intros Hv H. unfold rollback_alloc in H. ok_inv. unfold u32. by rewrite Z.mod_small. Qed.

(** The size on disk follows the size in memory. *)
Lemma write_size mnt v off len buf (f : fs S) res v' f' : 0 ≤ off → 0 ≤ len → v_size v = i_size (mi_raw (v_info v)) → 0 ≤ v_size v < 2 ^ 32 →
  minix_write mnt v off len buf f = Ok (res, v', f') → v_size v' = i_size (mi_raw (v_info v')).
Proof.
  intros Ho Hl Hv Hr H. unfold minix_write in H. ok_inv; try done.
  1-4: match goal with E : rollback_alloc _ _ _ _ _ = Ok _ |- _ => by apply rollback_size in E end.
  all: match goal with E : create_blocks _ _ _ _ _ = Ok _ |- _ => apply create_blocks_meta in E; injection E as _ _ E _ _ _ end.
  all: match goal with |- context [?a >? ?b] => destruct (Z.gtb_spec a b) end; simpl; [|congruence].
  all: unfold u32; rewrite Z.mod_small; [done|]; lia.
Qed.
(** Without failures in store no allocation fails. *)
Lemma next_kmem_nil (f : fs S) : fs_kmem f = [] → next_kmem f = (true, f).
Proof. unfold next_kmem. by intros ->. Qed.

Lemma write_kmem mnt v off len buf (f : fs S) res v' f' : 0 ≤ len → fs_kmem f = [] → minix_write mnt v off len buf f = Ok (res, v', f') →
  fs_kmem f' = [] ∧ res ≠ - ENOMEM.
Proof.
  intros Hl Hk H. unfold minix_write in H. rewrite !(next_kmem_nil f Hk) in H.
  assert (∀ fuel mi o t p (s : S) err rest s', write_loop fuel mnt mi o t p s = Ok (err, rest, s') → err = 0 ∨ err = - EIO) as Hw.
  { induction fuel as [|fuel IH]; intros mi o t p s err rest s' E; cbn [write_loop] in E; ok_inv; eauto. }
  ok_inv; try done; split; try done; try (match goal with E : write_loop _ _ _ _ _ _ _ = Ok _ |- _ => apply Hw in E as [->| ->] end; done); unfold ENOMEM, MINIX_WRITE_MAX_CHUNK; lia.
Qed.
End Meta.

(** ** Entries *)

Section Entries.
Context (mnt : minix_mount_info) (HS : sb_ok (mnt_sb mnt)).

(** Entry [k] of the directory [r]. *)
Definition dent (V : gmap key (list Z)) (r : minix_raw_inode) (k : Z) : minix_dir_entry :=
  Dirent (fbyte V mnt r (16 * k) + 256 * fbyte V mnt r (16 * k + 1)) (content V mnt r (16 * k + 2) 14).

(** Its block is no hole. *)
Definition live (V : gmap key (list Z)) (r : minix_raw_inode) (k : Z) : Prop := bmap_ref V mnt r (k / 64) ≠ 0.

Lemma fbyte_block V r l i : 0 ≤ i < 1024 → fbyte V mnt r (1024 * l + i) = byte_of (fblock V mnt r l) i.
Proof.
  intros Hi. unfold fbyte. replace ((1024 * l + i) / 1024) with l by (apply Z.div_unique with i; lia).
  by replace ((1024 * l + i) mod 1024) with i by (apply Z.mod_unique with l; lia).
Qed.

Lemma decode_block V r l m : block_ok (fblock V mnt r l) → 0 ≤ m < 64 → decode_dirent (fblock V mnt r l) (16 * m) = dent V r (64 * l + m).
Proof.
  intros B Hm. unfold decode_dirent, dent. f_equal.
  - unfold le_field. change 2%nat with (Z.to_nat 2). rewrite (slice_bytes _ (16 * m) 2) by (done || lia). change (seqZ 0 2) with [0; 1]. cbn [fmap list_fmap le_val].
    replace (16 * (64 * l + m)) with (1024 * l + 16 * m) by lia. replace (1024 * l + 16 * m + 1) with (1024 * l + (16 * m + 1)) by lia.
    rewrite !fbyte_block by lia. rewrite Z.add_0_r. lia.
  - change 14%nat with (Z.to_nat 14). rewrite (slice_bytes _ (16 * m + 2) 14) by (done || lia). unfold content.
    replace (16 * (64 * l + m) + 2) with ((1024 * l + (16 * m + 2)) + 0) by lia. rewrite <- fmap_add_seqZ, <- list_fmap_compose.
    apply list_fmap_ext. intros i x Hx. apply lookup_seqZ in Hx as [-> Hi]. unfold compose. rewrite Z.add_0_l.
    replace (1024 * l + (16 * m + 2) + Z.of_nat i) with (1024 * l + (16 * m + 2 + Z.of_nat i)) by lia. by rewrite fbyte_block by lia.
Qed.

Lemma scan_block_spec data test n m c : 0 ≤ m → 0 ≤ c ≤ 64 → c - m ≤ Z.of_nat n →
  match scan_block n (16 * m) (16 * c) data test with
  | Some (i, de) => ∃ k, i = 16 * k ∧ m ≤ k < c ∧ de = decode_dirent data (16 * k) ∧ test de = true ∧ ∀ j, m ≤ j < k → test (decode_dirent data (16 * j)) = false
  | None => ∀ j, m ≤ j < c → test (decode_dirent data (16 * j)) = false
  end.
Proof.
  revert m. induction n as [|n IH]; intros m Hm Hc Hn; cbn [scan_block]; [intros; lia|].
  destruct (Z.geb_spec (16 * m) (16 * c)); [intros; lia|]. destruct (test (decode_dirent data (16 * m))) eqn:E.
  - exists m. split_and!; try done; lia.
  - specialize (IH (m + 1) ltac:(lia) Hc ltac:(lia)). replace (16 * m + 16) with (16 * (m + 1)) by lia.
    destruct (scan_block n (16 * (m + 1)) (16 * c) data test) as [[i de]|].
    + destruct IH as (k & -> & Hk & -> & Ht & Hj). exists k. split_and!; try done; try lia. intros j Hj'. destruct (decide (j = m)) as [->|]; [done|apply Hj; lia].
    + intros j Hj. destruct (decide (j = m)) as [->|]; [done|apply IH; lia].
Qed.

(** An entry in a hole is empty. *)
Lemma hole_dent V r k : 0 ≤ k → ¬ live V r k → de_inode (dent V r k) = 0.
Proof.
  intros Hk Hl. unfold live in Hl. assert (bmap_ref V mnt r (k / 64) = 0) as E by lia. pose proof (Z.div_mod k 64). pose proof (Z.mod_pos_bound k 64 ltac:(lia)).
  assert (∀ i, 0 ≤ i < 1024 → fbyte V mnt r (1024 * (k / 64) + i) = 0) as Hz.
  { intros i Hi. rewrite fbyte_block by done. unfold fblock. rewrite E, Z.eqb_refl. apply (byte_of_zeros i). }
  simpl. replace (16 * k) with (1024 * (k / 64) + 16 * (k mod 64)) by lia. rewrite <- Z.add_assoc, !Hz by lia. done.
Qed.

Lemma hole_not_named V r k name : 0 ≤ k → ¬ live V r k → named name (dent V r k) = false.
Proof. intros Hk Hl. unfold named. by rewrite hole_dent. Qed.

End Entries.

Section Scan.
Context {S : Type} {BC : BlockCache S} {CS : BlockCacheSpec S}.

Definition same_rest (f f' : fs S) : Prop := fs_kmem f' = fs_kmem f ∧ fs_now f' = fs_now f.

(** Every loop over a directory finds the first entry it looks for. *)
Lemma dir_scan_spec {A} mnt V R mi N test found failed ended (Q : A → Prop) fuel l f : mnt_ok V mnt → (length R < 6)%nat → raw_ok (mi_raw mi) →
  0 ≤ N → 16 * N ≤ 519 * 1024 → 0 ≤ l → (0 < fuel)%nat → 16 * N ≤ 1024 * (l + Z.of_nat fuel - 1) → st true (mnt_bdev mnt) (fs_cache f) V R →
  (∀ j, 0 ≤ j < N → j < 64 * l → live mnt V (mi_raw mi) j → test (dent mnt V (mi_raw mi) j) = false) →
  (∀ h b k f', 0 ≤ k < N → st true (mnt_bdev mnt) (fs_cache f') V ((h, (mnt_bdev mnt, b)) :: R) → same_rest f f' → live mnt V (mi_raw mi) k →
    test (dent mnt V (mi_raw mi) k) = true → (∀ j, 0 ≤ j < k → live mnt V (mi_raw mi) j → test (dent mnt V (mi_raw mi) j) = false) →
    wp (found h (16 * k) (dent mnt V (mi_raw mi) k) f') Q) →
  (∀ f', st true (mnt_bdev mnt) (fs_cache f') V R → same_rest f f' → (∀ j, 0 ≤ j < N → live mnt V (mi_raw mi) j → test (dent mnt V (mi_raw mi) j) = false) → wp (ended f') Q) →
  wp (dir_scan fuel mnt mi (16 * N) (1024 * l) test found failed ended f) Q.
Proof.
  intros HM HR Hraw HN HN2. revert l f. induction fuel as [|fuel IH]; intros l f Hl Hfuel0 Hfuel C Hpre Hfound Hend; [lia|]. cbn [dir_scan].
  destruct (Z.geb_spec (1024 * l) (16 * N)) as [Hge|Hlt]. { apply Hend; [done|done|]. intros j Hj. apply Hpre; lia. }
  change MINIX_BLOCK_SIZE with 1024. replace (1024 * l / 1024) with l by (apply Z.div_unique with 0; lia).
  wp_step (bmap_read_spec true mnt mi l (fs_cache f) V R C HM ltac:(lia) Hraw Hl) as [[b mi'] s1]. intros (-> & C1 & Hb & Href). specialize (Href eq_refl). subst b.
  assert (∀ j, 64 * l ≤ j < 64 * (l + 1) → j / 64 = l) as Hdiv by (intros j Hj; symmetry; apply Z.div_unique with (j - 64 * l); lia).
  unfold u32. rewrite Z.mod_small by lia. replace (1024 * l + 1024) with (1024 * (l + 1)) by lia.
  assert (∀ f', st true (mnt_bdev mnt) (fs_cache f') V R → same_rest f f' → (∀ j, 64 * l ≤ j < 64 * (l + 1) → j < N → live mnt V (mi_raw mi) j → test (dent mnt V (mi_raw mi) j) = false) →
    wp (dir_scan fuel mnt mi (16 * N) (1024 * (l + 1)) test found failed ended f') Q) as Hnext.
  { intros f' C' [K1 K2] Hblk. apply IH; [lia|lia|lia|done| | |].
    - intros j Hj Hj2 Hlv. destruct (Z.lt_ge_cases j (64 * l)); [by apply Hpre|]. apply Hblk; [lia|lia|done].
    - intros h b k f2 Hk C2 [K3 K4]. eapply Hfound; [done|exact C2|split; congruence].
    - intros f2 C2 [K3 K4]. apply Hend; [done|split; congruence]. }
  destruct (Z.eqb_spec (bmap_ref V mnt (mi_raw mi) l) 0) as [E0|Hne].
  { apply Hnext; [done|done|]. intros j Hj _ Hlv. unfold live in Hlv. rewrite Hdiv in Hlv by done. done. }
  destruct Hb as [?|Hz]; [done|]. wp_step (wp_table true mnt s1 V R _ C1 HM ltac:(lia) Hz) as [[h|] s2]; [|intros [_ ?]; done]. intros C2.
  wp_step (wp_block _ _ _ _ _ (bmap_ref V mnt (mi_raw mi) l) h C2 (list_elem_of_here _ _)) as v. intros [-> Bv].
  assert (blk V (mnt_bdev mnt) (bmap_ref V mnt (mi_raw mi) l) = fblock V mnt (mi_raw mi) l) as Eb by (unfold fblock; by destruct (Z.eqb_spec (bmap_ref V mnt (mi_raw mi) l) 0)).
  rewrite Eb in *. set (c := Z.min (N - 64 * l) 64). replace (Z.min (16 * N - 1024 * l) 1024) with (16 * c) by lia.
  pose proof (scan_block_spec (fblock V mnt (mi_raw mi) l) test 64 0 c ltac:(lia) ltac:(lia) ltac:(lia)) as Hscan. rewrite Z.mul_0_r in Hscan.
  assert (∀ m, 0 ≤ m < c → decode_dirent (fblock V mnt (mi_raw mi) l) (16 * m) = dent mnt V (mi_raw mi) (64 * l + m)) as Hdec by (intros m Hm; apply decode_block; [done|lia]).
  destruct (scan_block 64 0 (16 * c) (fblock V mnt (mi_raw mi) l) test) as [[i de]|].
  - destruct Hscan as (k & -> & Hk & -> & Ht & Hj). rewrite Hdec in * by lia. replace (1024 * l + 16 * k) with (16 * (64 * l + k)) by lia. eapply Hfound; [lia|exact C2|done| |done|].
    + unfold live. by rewrite Hdiv by lia.
    + intros j Hj' Hlv. destruct (Z.lt_ge_cases j (64 * l)); [apply Hpre; [lia|lia|done]|]. specialize (Hj (j - 64 * l) ltac:(lia)). rewrite Hdec in Hj by lia.
      by replace (64 * l + (j - 64 * l)) with j in Hj by lia.
  - wp_step (wp_bput _ _ _ _ _ _ _ C2) as s3. intros C3. apply Hnext; [done|done|]. intros j Hj HjN _. specialize (Hscan (j - 64 * l) ltac:(lia)). rewrite Hdec in Hscan by lia.
    by replace (64 * l + (j - 64 * l)) with j in Hscan by lia.
Qed.
End Scan.

(** ** Names *)

Section Names.
Context (mnt : minix_mount_info).

(** [name] is bound to inode [ino]: its first live entry among the [N] of the directory. *)
Definition first_named V r N name k : Prop :=
  0 ≤ k < N ∧ named name (dent mnt V r k) = true ∧ ∀ j, 0 ≤ j < k → named name (dent mnt V r j) = false.
Definition bound V r N name ino : Prop := ∃ k, first_named V r N name k ∧ de_inode (dent mnt V r k) = ino.
Definition unbound V r N name : Prop := ∀ j, 0 ≤ j < N → named name (dent mnt V r j) = false.

Record dir_ok (V : gmap key (list Z)) (dir : vfs_inode) (N : Z) : Prop := {
  dk_wf : file_wf mnt V (mi_raw (v_info dir));
  dk_size : v_size dir = i_size (mi_raw (v_info dir));
  dk_num : i_size (mi_raw (v_info dir)) = 16 * N;
  dk_range : 0 ≤ N ∧ 16 * N ≤ 519 * 1024
}.

Definition de_ok (de : minix_dir_entry) : Prop := 0 ≤ de_inode de < 65536 ∧ length (de_name de) = 14%nat ∧ Forall byte (de_name de).

Lemma encode_dirent_ok de : de_ok de → length (encode_dirent de) = 16%nat ∧ Forall byte (encode_dirent de).
Proof.
  intros (_ & L & F). unfold encode_dirent. destruct (le_bytes_ok 2 (de_inode de)) as [L2 F2]. rewrite length_app, L2, L. split; [done|by apply Forall_app].
Qed.

Lemma dent_spliced V r V' r' k de j : de_ok de → 0 ≤ k → 0 ≤ j → spliced mnt V r V' r' (16 * k) 16 (encode_dirent de) →
  dent mnt V' r' j = if decide (j = k) then de else dent mnt V r j.
Proof.
  intros (Hi & L & F) Hk Hj Hs. unfold dent, content. case_decide as D.
  - subst j. destruct de as [ino nm]. cbn in *. assert (∀ o, 0 ≤ o < 16 → fbyte V' mnt r' (16 * k + o) = byte_of (encode_dirent (Dirent ino nm)) o) as Hb.
    { intros o Ho. rewrite Hs by lia. rewrite decide_True by lia. f_equal. lia. }
    f_equal.
    + rewrite <- (Z.add_0_r (16 * k)) at 1. rewrite !Hb by lia. pose proof (le_val_bytes 2 ino ltac:(simpl; lia)) as E. cbn [le_val le_bytes] in E.
      change (byte_of (encode_dirent (Dirent ino nm)) 0) with (ino mod 256). change (byte_of (encode_dirent (Dirent ino nm)) 1) with (ino / 256 mod 256). lia.
    + apply list_eq_same_length with 14%nat; [done|by rewrite length_fmap, length_seqZ|]. intros i x y Hi' Hx Hy.
      apply list_lookup_fmap_Some_1 in Hx as (o & -> & Ho). apply lookup_seqZ in Ho as [-> _].
      replace (16 * k + 2 + Z.of_nat i) with (16 * k + (2 + Z.of_nat i)) by lia. rewrite Hb by lia. unfold byte_of, encode_dirent.
      replace (Z.to_nat (2 + Z.of_nat i)) with (2 + i)%nat by lia. rewrite lookup_app_r by (rewrite (proj1 (le_bytes_ok _ _)); lia). rewrite (proj1 (le_bytes_ok _ _)).
      replace (2 + i - 2)%nat with i by lia. cbn [de_name]. by rewrite Hy.
  - f_equal.
    + rewrite !Hs by lia. rewrite !decide_False by lia. done.
    + apply list_fmap_ext. intros i o Ho. apply lookup_seqZ in Ho as [-> Ho]. rewrite Hs by lia. by rewrite decide_False by lia.
Qed.

Lemma dent_same V r V' r' j : 0 ≤ j → same_bytes mnt V r V' r' → dent mnt V' r' j = dent mnt V r j.
Proof.
  intros Hj Hs. unfold dent, content. rewrite !Hs by lia. f_equal. apply list_fmap_ext. intros i o Ho. apply lookup_seqZ in Ho as [-> Ho]. by rewrite Hs by lia.
Qed.

(** The entries afterwards are those before, but entry [k]. *)
Definition entry_set V r V' r' k de : Prop := ∀ j, 0 ≤ j → dent mnt V' r' j = if decide (j = k) then de else dent mnt V r j.

(** Changing an entry that does not bear [name] to one that does not either. *)
Lemma bound_entry_set V r V' r' N N' k de name : entry_set V r V' r' k de → 0 ≤ k ≤ N → N' = Z.max N (k + 1) →
  named name de = false → (k < N → named name (dent mnt V r k) = false) →
  (∀ ino, bound V' r' N' name ino ↔ bound V r N name ino) ∧ (unbound V' r' N' name ↔ unbound V r N name).
Proof.
  intros He Hk -> Hde Hold. assert (∀ j, 0 ≤ j < N → named name (dent mnt V' r' j) = named name (dent mnt V r j)) as En.
  { intros j Hj. rewrite He by lia. case_decide as D; [subst; rewrite Hde, Hold by lia; done|done]. }
  assert (∀ j, N ≤ j < Z.max N (k + 1) → named name (dent mnt V' r' j) = false) as Elast by (intros j Hj; rewrite He by lia; rewrite decide_True by lia; done).
  assert (∀ j, first_named V' r' (Z.max N (k + 1)) name j ↔ first_named V r N name j) as Ef.
  { intros j. split; intros (Hj & Hn & Hf).
    - assert (j < N) by (destruct (Z.lt_ge_cases j N); [done|]; rewrite Elast in Hn by lia; done). rewrite En in Hn by lia. split_and!; [lia..|done|].
      intros i Hi. rewrite <- En by lia. by apply Hf.
    - split_and!; [lia..|by rewrite En|]. intros i Hi. rewrite En by lia. by apply Hf. }
  split.
  - intros ino. split; intros (j & Hj & E); exists j; (split; [by apply Ef|]).
    + apply Ef in Hj. destruct Hj as (Hj & Hn & _). rewrite He in E by lia. case_decide as D; [|done]. subst. rewrite Hold in Hn by lia. done.
    + destruct Hj as (Hj & Hn & _). rewrite He by lia. case_decide as D; [|done]. subst. rewrite Hold in Hn by lia. done.
  - split; intros Hu j Hj; [rewrite <- En by lia; apply Hu; lia|]. destruct (Z.lt_ge_cases j N); [rewrite En by lia; apply Hu; lia|apply Elast; lia].
Qed.

Lemma cstr_pad name n : Forall (λ c, 0 < c) name → cstr (name ++ replicate n 0) = name.
Proof.
  induction 1 as [|x l Hx _ IH]; cbn [app cstr]; [by destruct n|]. destruct (Z.eqb_spec x 0); [lia|]. by rewrite IH.
Qed.

Definition name_ok (name : list Z) : Prop := minix_name_valid name = true ∧ Forall (λ c, 0 < c < 256) name.

Lemma new_dirent_ok ino name : 0 ≤ ino < 65536 → name_ok name → de_ok (new_dirent ino name) ∧ de_inode (new_dirent ino name) = ino ∧ minix_dirent_name (new_dirent ino name) = name.
Proof.
  intros Hi [Hv F]. unfold minix_name_valid, MINIX_NAME_LEN in Hv. rewrite !andb_true_iff, Z.leb_le in Hv. destruct Hv as [[_ L] _].
  unfold new_dirent, u16. rewrite Z.mod_small by lia. unfold de_ok. cbn [de_inode de_name]. split_and!; [lia|lia| | |done|].
  - cbn. rewrite length_app, length_replicate. lia.
  - cbn. apply Forall_app. split; [|apply Forall_replicate; unfold byte; lia]. eapply Forall_impl; [exact F|]. unfold byte. simpl. intros. lia.
  - unfold minix_dirent_name. cbn. apply cstr_pad. eapply Forall_impl; [exact F|]. simpl. intros. lia.
Qed.
End Names.

Section Ops.
Context {S : Type} {BC : BlockCache S} {CS : BlockCacheSpec S}.
Context (mnt : minix_mount_info) (HC : maps_cover (mnt_sb mnt)).
Let d : Z := mnt_bdev mnt.

Lemma rounds_scan N : 0 ≤ N → (0 < rounds (16 * N))%nat ∧ 16 * N ≤ 1024 * (0 + Z.of_nat (rounds (16 * N)) - 1).
Proof.
  intros HN. unfold rounds, MINIX_BLOCK_SIZE. pose proof (Z.div_mod (16 * N) 1024). pose proof (Z.mod_pos_bound (16 * N) 1024 ltac:(lia)). lia.
Qed.

Lemma find_spec V R dir N name f : st true d (fs_cache f) V R → (length R < 6)%nat → mnt_ok V mnt → dir_ok mnt V dir N →
  wp (minix_find_dirent mnt dir name f) (λ '(err, res, f'), st true d (fs_cache f') V R ∧ same_rest f f' ∧
    match res with
    | Some (off, de) => err = 0 ∧ ∃ k, off = 16 * k ∧ de = dent mnt V (mi_raw (v_info dir)) k ∧ first_named mnt V (mi_raw (v_info dir)) N name k
    | None => err = - ENOENT ∧ unbound mnt V (mi_raw (v_info dir)) N name
    end).
Proof.
  intros C HR HM [W Hs Hn [HN HN2]]. unfold minix_find_dirent. rewrite Hn. destruct (rounds_scan N HN) as [F0 F1].
  apply (dir_scan_spec mnt V R (v_info dir) N (named name) _ _ _ _ (rounds (16 * N)) 0 f HM HR (fw_raw _ _ _ W) HN HN2 ltac:(lia) F0 F1 C).
  - intros; lia.
  - intros h b k f' Hk C' [K1 K2] _ Ht Hj. wp_step (wp_bput _ _ _ _ _ _ _ C') as s. intros C2. apply wp_Ok. split; [done|]. split; [done|]. split; [done|].
    exists k. split; [done|]. split; [done|]. split; [lia|]. split; [done|]. intros j Hj'. destruct (decide (bmap_ref V mnt (mi_raw (v_info dir)) (j / 64) = 0)) as [E|E].
    + apply hole_not_named; [lia|]. unfold live. lia.
    + by apply Hj.
  - intros f' C' K Hj. apply wp_Ok. split; [done|]. split; [done|]. split; [done|]. intros j Hj'. destruct (decide (bmap_ref V mnt (mi_raw (v_info dir)) (j / 64) = 0)) as [E|E].
    + apply hole_not_named; [lia|]. unfold live. lia.
    + by apply Hj.
Qed.

(** An update of one entry: done, or refused for want of space or memory. *)
Definition entry_written (f : fs S) V (dir : vfs_inode) N k de R : Z * vfs_inode * fs S → Prop := λ '(err, dir', f'),
  let r := mi_raw (v_info dir) in let r' := mi_raw (v_info dir') in
  v_ino dir' = v_ino dir ∧ v_is_dir dir' = v_is_dir dir ∧ ∃ V', st true d (fs_cache f') V' R ∧ fstate mnt (at_disposal mnt V r) V V' r' ∧
    (fs_kmem f = [] → fs_kmem f' = []) ∧
    (err = 0 ∧ dir_ok mnt V' dir' (Z.max N (k + 1)) ∧ entry_set mnt V r V' r' k de ∨
     (err = - ENOSPC ∧ slot mnt V r (lpos (k / 64)) = 0 ∧ nfree mnt V ≤ 1 ∨ err = - ENOMEM ∧ fs_kmem f ≠ []) ∧ dir_ok mnt V' dir' N ∧ (∀ j, 0 ≤ j → dent mnt V' r' j = dent mnt V r j) ∧ no_leak mnt V V').

Lemma write_at_spec V R dir N k de f : st true d (fs_cache f) V R → (length R < 6)%nat → mnt_ok V mnt → dir_ok mnt V dir N →
  0 ≤ k ≤ N → 16 * (k + 1) ≤ 519 * 1024 → de_ok de →
  wp (minix_write_dirent_at mnt dir (16 * k) de f) (entry_written f V dir N k de R).
Proof.
  intros C HR HM [W Hs Hn [HN HN2]] Hk Hk2 Hde. destruct (encode_dirent_ok de Hde) as [Le Fe]. unfold minix_write_dirent_at.
  assert (write_len 16 = 16) as E16 by done.
  destruct (minix_write_spec mnt HC (proj1 HM) dir (16 * k) 16 (encode_dirent de) f V R C HR HM W) as ([[res dir'] f'] & E & V' & C' & F & Ei & Em & Ed & Hp);
    [lia|lia|rewrite Le; lia|done|rewrite E16; lia|]. rewrite E16 in Hp. rewrite E. cbn [mbind outcome_bind].
  assert (v_size dir' = i_size (mi_raw (v_info dir'))) as Hs' by (eapply write_size; [| |exact Hs| |exact E]; lia).
  assert (∀ N', v_size dir' = 16 * N' → 0 ≤ N' → 16 * N' ≤ 519 * 1024 → dir_ok mnt V' dir' N') as Hok.
  { intros N' E' H1 H2. constructor; [apply F|done|congruence|done]. }
  assert (fs_kmem f = [] → fs_kmem f' = [] ∧ res ≠ - ENOMEM) as Hkm by (intros Hk0; eapply write_kmem; [|exact Hk0|exact E]; lia).
  destruct Hp as [(-> & Hsz & Hsp)|[(-> & Hsz & Hsb & _ & Hmk & Hnf & l & Hl & Hl0)|(-> & _ & -> & ->)]].
  - destruct (Z.ltb_spec 16 0); [lia|]. change (16 =? 16) with true. cbv iota. apply wp_Ok. split_and!; try done. exists V'. split_and!; try done; [intros Hk0; apply (Hkm Hk0)|]. left. split_and!; [done| |].
    + apply Hok; [lia|lia|lia].
    + intros j Hj. by eapply dent_spliced; [| | |exact Hsp]; [|lia|].
  - apply wp_Ok. split_and!; try done. exists V'. split_and!; try done; [intros Hk0; apply (Hkm Hk0)|]. right. split_and!; [left; split; [done|]|apply Hok; lia| |by eapply marks_kept_no_leak].
    { assert (16 * k / 1024 = k / 64 ∧ (16 * k + 16 - 1) / 1024 = k / 64) as [E1 E2]; [|unfold write_blocks in Hnf; rewrite E1, E2 in Hl, Hnf; split; [by replace (k / 64) with l by lia|lia]].
      pose proof (Z.div_mod k 64). pose proof (Z.mod_pos_bound k 64 ltac:(lia)). split; symmetry; [apply Z.div_unique with (16 * (k mod 64))|apply Z.div_unique with (16 * (k mod 64) + 15)]; lia. }
    intros j Hj. by apply dent_same.
  - apply wp_Ok. split_and!; try done. exists V. split_and!; try done; [intros Hk0; apply (Hkm Hk0)|]. right. split_and!; [right; split; [done|intros Hk0; by destruct (Hkm Hk0)]|apply Hok; lia|done|by intros z].
Qed.

(** Adding a name: refused when it exists; otherwise a free entry or a new one. *)
Lemma add_dirent_spec V R dir N name ino f : st true d (fs_cache f) V R → (length R < 6)%nat → mnt_ok V mnt → dir_ok mnt V dir N → name_ok name →
  0 ≤ ino < 65536 → 16 * (N + 1) ≤ 519 * 1024 →
  wp (minix_add_dirent mnt dir name ino f) (λ '(err, dir', f'),
    err = - EEXIST ∧ dir' = dir ∧ st true d (fs_cache f') V R ∧ ¬ unbound mnt V (mi_raw (v_info dir)) N name ∨
    unbound mnt V (mi_raw (v_info dir)) N name ∧ ∃ k, 0 ≤ k ≤ N ∧ (k < N → de_inode (dent mnt V (mi_raw (v_info dir)) k) = 0) ∧
      entry_written f V dir N k (new_dirent ino name) R (err, dir', f')).
Proof.
  intros C HR HM D Hname Hi Hroom. pose proof D as [W Hs Hn [HN HN2]]. pose proof Hname as [Hv _]. unfold minix_add_dirent. rewrite Hv. cbn [negb].
  unfold minix_name_valid in Hv. rewrite !andb_true_iff, Z.leb_le in Hv. destruct Hv as [[_ Hl] _]. destruct (Z.gtb_spec (Z.of_nat (length name)) MINIX_NAME_LEN); [lia|].
  wp_step (find_spec V R dir N name f C HR HM D) as [[err res] f1]. intros (C1 & [Kf _] & Hres).
  destruct res as [[off de]|].
  { destruct Hres as (-> & k & _ & _ & Hk & Hnm & _). cbn. apply wp_Ok. left. split_and!; try done. intros Hu. rewrite (Hu k Hk) in Hnm. done. }
  destruct Hres as [-> Hu]. cbn [Z.eqb Z.opp ENOENT]. rewrite Hn. destruct (rounds_scan N HN) as [F0 F1]. destruct (new_dirent_ok ino name Hi Hname) as (Hde & _).
  assert (∀ f2 k, st true d (fs_cache f2) V R → fs_kmem f2 = fs_kmem f → 0 ≤ k ≤ N → (k < N → de_inode (dent mnt V (mi_raw (v_info dir)) k) = 0) →
    wp (minix_write_dirent_at mnt dir (16 * k) (new_dirent ino name) f2) (λ '(err, dir', f'),
      err = - EEXIST ∧ dir' = dir ∧ st true d (fs_cache f') V R ∧ ¬ unbound mnt V (mi_raw (v_info dir)) N name ∨
      unbound mnt V (mi_raw (v_info dir)) N name ∧ ∃ k, 0 ≤ k ≤ N ∧ (k < N → de_inode (dent mnt V (mi_raw (v_info dir)) k) = 0) ∧
        entry_written f V dir N k (new_dirent ino name) R (err, dir', f'))) as Hw.
  { intros f2 k C2 Kf2 Hk Hfree. eapply wp_mono; [apply (write_at_spec V R dir N k (new_dirent ino name) f2 C2 HR HM D Hk); [lia|done]|]. intros [[err dir'] f'] Hp. right. split; [done|]. exists k.
    split; [done|]. split; [done|]. unfold entry_written in *. by rewrite Kf2 in Hp. }
  apply (dir_scan_spec mnt V R (v_info dir) N (λ slot, de_inode slot =? 0) _ _ _ _ (rounds (16 * N)) 0 f1 HM HR (fw_raw _ _ _ W) HN HN2 ltac:(lia) F0 F1 C1).
  - intros; lia.
  - intros h b k f' Hk C' [K' _] _ Ht _. wp_step (wp_bput _ _ _ _ _ _ _ C') as s. intros C2. apply Hw; [done|cbn; congruence|lia|]. intros _. by apply Z.eqb_eq.
  - intros f' C' [K' _] _. apply Hw; [done|congruence|lia|lia].
Qed.

(** Removing a name: its first entry is emptied. *)
Lemma zero_dirent_spec V R dir N name f : st true d (fs_cache f) V R → (length R < 6)%nat → mnt_ok V mnt → dir_ok mnt V dir N →
  wp (minix_zero_dirent mnt dir name f) (λ '(err, old, dir', f'),
    err = - ENOENT ∧ old = None ∧ dir' = dir ∧ st true d (fs_cache f') V R ∧ unbound mnt V (mi_raw (v_info dir)) N name ∨
    ∃ k, first_named mnt V (mi_raw (v_info dir)) N name k ∧ old = Some (dent mnt V (mi_raw (v_info dir)) k) ∧
      entry_written f V dir N k (Dirent 0 (replicate 14 0)) R (err, dir', f')).
Proof.
  intros C HR HM D. pose proof D as [W Hs Hn [HN HN2]]. unfold minix_zero_dirent.
  wp_step (find_spec V R dir N name f C HR HM D) as [[err res] f1]. intros (C1 & [Kf _] & Hres). destruct res as [[off de]|].
  2: { destruct Hres as [-> Hu]. apply wp_Ok. by left. }
  destruct Hres as (_ & k & -> & -> & Hk). pose proof Hk as (Hk1 & _).
  wp_step (write_at_spec V R dir N k (Dirent 0 (replicate 14 0)) f1 C1 HR HM D ltac:(lia) ltac:(lia)) as [[err2 dir'] f'].
  { split_and!; try done. apply Forall_replicate. unfold byte. lia. }
  intros Hp. apply wp_Ok. right. exists k. split; [done|]. split; [done|]. unfold entry_written in *. by rewrite Kf in Hp.
Qed.
End Ops.
