(* ===== verification/MinixDirSystem.v ===== *)
(** * Creating and removing MINIX files

    [minix_create] and [minix_unlink] from the bitmaps to the directory: a
    directory behaves as a finite map from names to inodes. *)

From S2P Require Import Prelude Bufcache BufcacheSpec BufcacheSystem Minix MinixMap MinixRead MinixTree MinixWrite MinixFile MinixSystem MinixDir MinixDirSpec.

Section Create.
Context {S : Type} {BC : BlockCache S} {CS : BlockCacheSpec S}.
Context (mnt : minix_mount_info) (HC : maps_cover (mnt_sb mnt)).
Let d : Z := mnt_bdev mnt.
Let valid (z : Z) : Prop := zone_valid (mnt_sb mnt) z = true.

(** ** The inode map *)

Definition imarked (V : gmap key (list Z)) (ino : Z) : bool := mbit V d 2 ino.

Lemma alloc_inode_spec s V R : st true d s V R → (length R < 8)%nat → mnt_ok V mnt →
  wp (minix_alloc_inode mnt s) (λ '(ino, s'),
    ino = 0 ∧ st true d s' V R ∧ (∀ i, 1 ≤ i ≤ s_ninodes (mnt_sb mnt) → imarked V i = true) ∨
    1 ≤ ino ≤ s_ninodes (mnt_sb mnt) ∧ imarked V ino = false ∧ ∃ V', st true d s' V' R ∧ map_changed V V' d 2 ino true).
Proof.
  intros C HR HM. pose proof HM as ([N1 N2 N3 N4 N5] & _ & Hb). destruct HC as [HI _]. unfold minix_alloc_inode, minix_alloc_from_map. cbv zeta. set (sb := mnt_sb mnt) in *.
  assert (0 ≤ (s_ninodes sb * 32 + 1023) / 1024) by (apply Z.div_pos; lia).
  eapply wp_mono; [apply (alloc_blocks_spec true d 2 (s_ninodes sb) (Z.to_nat (s_imap_blocks sb)) 0 s V R C (mnt_ok_dev _ _ HM) HR); [lia|lia|lia|intros _ j Hj; apply Hb; lia]|].
  intros [idx s1] [(-> & C1 & Hall)|(H1 & H2 & H3 & _ & V' & C1 & Hc)]; [left|right].
  - split_and!; try done. intros i Hi. apply Hall; [done|lia|lia].
  - split_and!; [lia|lia|done|]. by exists V'.
Qed.

Lemma imap_block V ino : mnt_ok V mnt → 1 ≤ ino ≤ s_ninodes (mnt_sb mnt) →
  2 ≤ 2 + ino / 8192 < zmap_start mnt ∧ is_Some (V !! (d, 2 + ino / 8192)) ∧ 0 ≤ ino < 2 ^ 20.
Proof.
  intros ([N1 N2 N3 N4 N5] & _ & Hb) Hi. destruct HC as [HI _]. unfold zmap_start. assert (0 ≤ (s_ninodes (mnt_sb mnt) * 32 + 1023) / 1024) by (apply Z.div_pos; lia).
  assert (0 ≤ ino / 8192 < s_imap_blocks (mnt_sb mnt)) by (split; [apply Z.div_pos; lia|apply Z.div_lt_upper_bound; lia]). split_and!; try lia. apply Hb. lia.
Qed.

Lemma free_inode_spec s V R ino : st true d s V R → (length R < 8)%nat → mnt_ok V mnt → 1 ≤ ino ≤ s_ninodes (mnt_sb mnt) → imarked V ino = true →
  wp (minix_free_inode mnt ino s) (λ s', ∃ V', st true d s' V' R ∧ map_changed V V' d 2 ino false).
Proof.
  intros C HR HM Hi Hm. destruct (imap_block V ino HM Hi) as (_ & [v Hv] & Hi2). unfold minix_free_inode. destruct (Z.eqb_spec ino 0); [lia|].
  destruct (Z.gtb_spec ino (s_ninodes (mnt_sb mnt))); [lia|]. cbn [orb]. by eapply free_from_map_spec; [..|lia|lia|exact Hv|].
Qed.

(** ** Changes outside the data zones *)

(** [V'] agrees with [V] on the zone map and the data zones. *)
Definition zones_same (V V' : gmap key (list Z)) : Prop := mnt_ok V' mnt ∧ ∀ k, zmap_key mnt k ∨ zone_key mnt k → V' !! k = V !! k.

Lemma zmap_key_of V z : mnt_ok V mnt → valid z → zmap_key mnt (d, zmap_start mnt + zindex mnt z / 8192).
Proof.
  intros HM Hz. destruct (zmap_block V mnt z HM HC Hz) as (I1 & _). destruct (idx_pos (zindex mnt z) ltac:(lia)). split; [done|]. simpl. split; [lia|].
  apply zone_valid_iff in Hz. destruct HC as [_ Hc]. assert (zindex mnt z / 8192 < s_zmap_blocks (mnt_sb mnt)); [|lia]. apply Z.div_lt_upper_bound; [lia|]. unfold zindex. lia.
Qed.

Lemma zones_same_marked V V' z : mnt_ok V mnt → zones_same V V' → valid z → marked V' mnt z = marked V mnt z.
Proof. intros HM [_ Hk] Hz. unfold marked, mbit, blk. fold d. rewrite Hk; [done|]. left. by eapply zmap_key_of. Qed.

Lemma zones_same_zone V V' z : zones_same V V' → valid z → V' !! (d, z) = V !! (d, z).
Proof. intros [_ Hk] Hz. apply Hk. by right. Qed.

Lemma zones_same_slot V V' r q : zones_same V V' → slot mnt V' r q = slot mnt V r q.
Proof. intros HV. unfold slot. case_decide; [done|]. apply entry_eq. intros Hz. by apply zones_same_zone. Qed.

Lemma zones_same_owned V V' r z : zones_same V V' → owned mnt V' r z ↔ owned mnt V r z.
Proof. intros HV. unfold owned. setoid_rewrite (λ p, zones_same_slot V V' r p HV). done. Qed.

Lemma zones_same_file V V' r : mnt_ok V mnt → zones_same V V' → file_wf mnt V r → file_wf mnt V' r ∧ same_bytes mnt V r V' r.
Proof.
  intros HM HV [W1 W2 W3 W4]. assert (file_wf mnt V' r) as W'.
  { constructor; [done..| |].
    - intros z Hz. apply (zones_same_owned V V' r z HV) in Hz. destruct (W3 z Hz) as [Vz Mz]. split; [done|]. by rewrite zones_same_marked with (V := V).
    - intros p q Hp Hq. rewrite !(zones_same_slot V V') by done. auto. }
  split; [done|]. intros o Ho. apply (fbyte_same mnt (proj1 HM)); try done. intros q Hq _. apply scont_eq; [by apply zones_same_slot|]. intros Hne. apply zones_same_zone; [done|]. apply W3. by exists q.
Qed.

Lemma imap_changed_zones V V' ino b : mnt_ok V mnt → 1 ≤ ino ≤ s_ninodes (mnt_sb mnt) → map_changed V V' d 2 ino b →
  zones_same V V' ∧ (∀ i, 1 ≤ i ≤ s_ninodes (mnt_sb mnt) → raw_at V' mnt i = raw_at V mnt i) ∧
  ∀ i, 0 ≤ i → imarked V' i = if decide (i = ino) then b else imarked V i.
Proof.
  intros HM Hi Hc. destruct (imap_block V ino HM Hi) as (Hr & _ & Hi2). split_and!.
  - destruct Hc as (v & v' & _ & -> & _). split; [by apply mnt_ok_insert|]. intros k Hk. rewrite lookup_insert_ne; [done|]. intros <-. destruct Hk as [[_ Hk]|[_ Hk%zone_valid_iff]]; simpl in Hk.
    + lia.
    + destruct HM as ([] & _). unfold zmap_start in *. assert (0 ≤ (s_ninodes (mnt_sb mnt) * 32 + 1023) / 1024) by (apply Z.div_pos; lia). lia.
  - intros i Hii. destruct (inode_block_range V mnt i HM Hii) as (Eb & _). destruct Hc as (v & v' & _ & -> & _). unfold raw_at, blk. fold d. rewrite lookup_insert_ne; [done|]. intros [= E].
    destruct HM as ([] & Hst & _). rewrite Eb, Hst in E. unfold zmap_start in *. assert (0 ≤ (i - 1) / 32) by (apply Z.div_pos; lia). lia.
  - intros i Hii. unfold imarked. by rewrite (map_changed_mbit V V' d 2 ino b i) by (done || lia).
Qed.

(** Blocks below the data that are not the zone map: the inode map and the inodes. *)
Lemma inode_key V ino : mnt_ok V mnt → 1 ≤ ino ≤ s_ninodes (mnt_sb mnt) →
  ¬ zmap_key mnt (d, inode_block mnt ino) ∧ ¬ zone_key mnt (d, inode_block mnt ino) ∧ ∀ i, 1 ≤ i ≤ s_ninodes (mnt_sb mnt) → 2 + i / 8192 ≠ inode_block mnt ino.
Proof.
  intros HM Hi. destruct (inode_block_range V mnt ino HM Hi) as (Eb & Hr & _). pose proof HM as ([] & Hst & _). assert (0 ≤ (ino - 1) / 32) by (apply Z.div_pos; lia). split_and!.
  - intros [_ Hk]. simpl in Hk. unfold zmap_start in Hk. lia.
  - intros [_ Hk%zone_valid_iff]. simpl in Hk. lia.
  - intros i Hii E. destruct (imap_block V i HM Hii) as (Hr2 & _). unfold zmap_start in Hr2. lia.
Qed.

Lemma imap_key V i : mnt_ok V mnt → 1 ≤ i ≤ s_ninodes (mnt_sb mnt) → ¬ zmap_key mnt (d, 2 + i / 8192) ∧ ¬ zone_key mnt (d, 2 + i / 8192).
Proof.
  intros HM Hi. destruct (imap_block V i HM Hi) as (Hr & _). split; intros [_ Hk]; simpl in Hk; [lia|]. apply zone_valid_iff in Hk. destruct HM as ([] & _). unfold zmap_start in *.
  assert (0 ≤ (s_ninodes (mnt_sb mnt) * 32 + 1023) / 1024) by (apply Z.div_pos; lia). lia.
Qed.

(** What happens to files leaves the inode map and the inodes alone. *)
Lemma same_but_inodes P V V' : mnt_ok V mnt → same_but mnt P V V' → ∀ i, 1 ≤ i ≤ s_ninodes (mnt_sb mnt) → imarked V' i = imarked V i ∧ raw_at V' mnt i = raw_at V mnt i.
Proof.
  intros HM [_ _ Hk] i Hi. destruct (imap_key V i HM Hi) as [K1 K2], (inode_key V i HM Hi) as (K3 & K4 & _). unfold imarked, mbit, raw_at, blk. fold d. fold d in Hk. by rewrite !Hk.
Qed.

Lemma zones_same_trans V V1 V2 : zones_same V V1 → zones_same V1 V2 → zones_same V V2.
Proof. intros [_ H1] [M2 H2]. split; [done|]. intros k Hk. by rewrite H2, H1. Qed.

Lemma inode_written_zones V V' ino : mnt_ok V mnt → mnt_ok V' mnt → 1 ≤ ino ≤ s_ninodes (mnt_sb mnt) → (∀ k, k ≠ (d, inode_block mnt ino) → V' !! k = V !! k) →
  zones_same V V' ∧ ∀ i, 1 ≤ i ≤ s_ninodes (mnt_sb mnt) → imarked V' i = imarked V i.
Proof.
  intros HM HM' Hi Hk. destruct (inode_key V ino HM Hi) as (K1 & K2 & K3). split.
  - split; [done|]. intros k Hkey. apply Hk. intros ->. tauto.
  - intros i Hii. unfold imarked, mbit, blk. rewrite Hk; [done|]. intros [= E]. by apply (K3 i Hii).
Qed.

(** ** Bindings *)

Definition raw_of (v : vfs_inode) : minix_raw_inode := mi_raw (v_info v).

(** Every name of the directory means the same afterwards, but those in [P]. *)
Definition bindings_same (P : list Z → Prop) V (dir : vfs_inode) N V' (dir' : vfs_inode) N' : Prop := ∀ name, ¬ P name →
  (∀ i, bound mnt V' (raw_of dir') N' name i ↔ bound mnt V (raw_of dir) N name i) ∧ (unbound mnt V' (raw_of dir') N' name ↔ unbound mnt V (raw_of dir) N name).

Lemma bindings_dents P V dir V' dir' N : (∀ j, 0 ≤ j → dent mnt V' (raw_of dir') j = dent mnt V (raw_of dir) j) → bindings_same P V dir N V' dir' N.
Proof.
  intros He name _. unfold bound, unbound, first_named. split; [intros i; split|split].
  - intros (k & (Hk & Hn & Hj) & E). exists k. rewrite He in Hn, E by lia. refine (conj (conj Hk (conj Hn _)) E). intros j Hj'. rewrite <- He by lia. by apply Hj.
  - intros (k & (Hk & Hn & Hj) & E). exists k. rewrite He by lia. refine (conj (conj Hk (conj Hn _)) E). intros j Hj'. rewrite He by lia. by apply Hj.
  - intros Hu j Hj. rewrite <- He by lia. by apply Hu.
  - intros Hu j Hj. rewrite He by lia. by apply Hu.
Qed.

Lemma bindings_trans P V dir N V1 dir1 N1 V2 dir2 N2 : bindings_same P V dir N V1 dir1 N1 → bindings_same P V1 dir1 N1 V2 dir2 N2 → bindings_same P V dir N V2 dir2 N2.
Proof. intros H1 H2 name Hn. destruct (H1 name Hn) as [A1 A2], (H2 name Hn) as [B1 B2]. split; [intros i; by rewrite B1|by rewrite B2]. Qed.

Lemma zones_same_dir V V' dir N : mnt_ok V mnt → zones_same V V' → dir_ok mnt V dir N → dir_ok mnt V' dir N ∧ ∀ j, 0 ≤ j → dent mnt V' (raw_of dir) j = dent mnt V (raw_of dir) j.
Proof.
  intros HM HV [W Hs Hn HN]. destruct (zones_same_file V V' _ HM HV W) as [W' Hb]. split; [by constructor|]. intros j Hj. by apply dent_same.
Qed.

(** Another file: none of its zones are the directory's. *)
Definition files_kept V (dir : vfs_inode) V' (dir' : vfs_inode) : Prop := ∀ r, file_wf mnt V r → (∀ z, owned mnt V (raw_of dir) z → ¬ owned mnt V r z) →
  file_wf mnt V' r ∧ same_bytes mnt V r V' r ∧ (∀ z, owned mnt V' (raw_of dir') z → ¬ owned mnt V' r z) ∧ ∀ z, owned mnt V' r z ↔ owned mnt V r z.

Lemma files_zones V V' dir : mnt_ok V mnt → zones_same V V' → files_kept V dir V' dir.
Proof.
  intros HM HV r W Hd. destruct (zones_same_file V V' r HM HV W) as [W' Hb]. split; [done|]. split; [done|]. split; [|intros z; by apply zones_same_owned].
  intros z Hz. rewrite (zones_same_owned V V' r) by done. apply Hd. by apply (zones_same_owned V V').
Qed.

Lemma files_trans V dir V1 dir1 V2 dir2 : files_kept V dir V1 dir1 → files_kept V1 dir1 V2 dir2 → files_kept V dir V2 dir2.
Proof.
  intros H1 H2 r W Hd. destruct (H1 r W Hd) as (W1 & B1 & D1 & O1), (H2 r W1 D1) as (W2 & B2 & D2 & O2). split; [done|]. split; [intros o Ho; by rewrite B2, B1|].
  split; [done|]. intros z. by rewrite O2.
Qed.

(** ** Creating a file *)

Lemma fresh_raw_ok mode now nlinks : 0 ≤ mode < 2 ^ 16 → 0 ≤ now < 2 ^ 32 → 0 ≤ nlinks < 2 ^ 8 → inode_ok (fresh_raw mode now nlinks).
Proof. intros. constructor; try (simpl; lia). split; [done|]. simpl. repeat constructor; lia. Qed.

Lemma mode_range k mode : 0 ≤ k < 2 ^ 16 → 0 ≤ Z.lor k (Z.land mode 0x1FF) < 2 ^ 16.
Proof.
  intros Hk. assert (0 ≤ Z.land mode 0x1FF < 2 ^ 9) by (change 0x1FF with (Z.ones 9); rewrite Z.land_ones by lia; apply Z.mod_pos_bound; lia).
  split; [apply Z.lor_nonneg; lia|]. destruct (Z.eq_dec (Z.lor k (Z.land mode 0x1FF)) 0) as [->|]; [lia|].
  assert (0 ≤ Z.lor k (Z.land mode 0x1FF)) by (apply Z.lor_nonneg; lia). apply Z.log2_lt_pow2; [lia|].
  assert (∀ a, 0 ≤ a < 2 ^ 16 → Z.log2 a < 16) as Hl by (intros a Ha; destruct (Z.eq_dec a 0) as [->|]; [done|apply Z.log2_lt_pow2; lia]).
  rewrite Z.log2_lor by lia. apply Z.max_lub_lt; apply Hl; lia.
Qed.

(** The directory afterwards, the inode map, and every inode but [ino]. *)
Record dir_step (ino : Z) (P : list Z → Prop) V (dir : vfs_inode) N V' (dir' : vfs_inode) N' : Prop := {
  ds_mnt : mnt_ok V' mnt;
  ds_dir : dir_ok mnt V' dir' N';
  ds_names : bindings_same P V dir N V' dir' N';
  ds_others : files_kept V dir V' dir';
  ds_inodes : ∀ i, 1 ≤ i ≤ s_ninodes (mnt_sb mnt) → i ≠ ino → imarked V' i = imarked V i ∧ raw_at V' mnt i = raw_at V mnt i
}.

Lemma dir_step_trans ino P V dir N V1 dir1 N1 V2 dir2 N2 : dir_step ino P V dir N V1 dir1 N1 → dir_step ino P V1 dir1 N1 V2 dir2 N2 → dir_step ino P V dir N V2 dir2 N2.
Proof.
  intros [A1 A2 A3 A4 A5] [B1 B2 B3 B4 B5]. constructor; [done|done|by eapply bindings_trans|by eapply files_trans|].
  intros i Hi Hne. destruct (A5 i Hi Hne) as [<- <-]. auto.
Qed.

Lemma dir_step_zones ino P V dir N V' : mnt_ok V mnt → dir_ok mnt V dir N → zones_same V V' →
  (∀ i, 1 ≤ i ≤ s_ninodes (mnt_sb mnt) → i ≠ ino → imarked V' i = imarked V i ∧ raw_at V' mnt i = raw_at V mnt i) → dir_step ino P V dir N V' dir N.
Proof.
  intros HM D HV Hi. destruct (zones_same_dir V V' dir N HM HV D) as [D' He]. constructor; [apply HV|done|by apply bindings_dents|by apply files_zones|done].
Qed.

Lemma dir_step_imap ino P V dir N V' b : mnt_ok V mnt → dir_ok mnt V dir N → 1 ≤ ino ≤ s_ninodes (mnt_sb mnt) → map_changed V V' d 2 ino b →
  dir_step ino P V dir N V' dir N ∧ imarked V' ino = b ∧ raw_at V' mnt ino = raw_at V mnt ino.
Proof.
  intros HM D Hi Hc. destruct (imap_changed_zones V V' ino b HM Hi Hc) as (HV & Hr & Hm). split_and!.
  - apply dir_step_zones; [done..|]. intros i Hii Hne. rewrite Hm by lia. rewrite decide_False by done. split; [done|by apply Hr].
  - rewrite Hm by lia. by rewrite decide_True.
  - by apply Hr.
Qed.

(** An entry that is empty or gets its first name, and one without a name. *)
Lemma dir_step_entry ino name V dir N f k de R err dir' f' : mnt_ok V mnt → dir_ok mnt V dir N → 0 ≤ k ≤ N → entry_written mnt f V dir N k de R (err, dir', f') →
  (∀ name', name' ≠ name → named name' de = false ∧ (k < N → named name' (dent mnt V (raw_of dir) k) = false)) →
  ∃ V' N', st true d (fs_cache f') V' R ∧ v_ino dir' = v_ino dir ∧ v_is_dir dir' = v_is_dir dir ∧ (fs_kmem f = [] → fs_kmem f' = []) ∧
    (∀ i, 1 ≤ i ≤ s_ninodes (mnt_sb mnt) → imarked V' i = imarked V i ∧ raw_at V' mnt i = raw_at V mnt i) ∧
    (err = 0 ∧ N' = Z.max N (k + 1) ∧ dir_step ino (eq name) V dir N V' dir' N' ∧ entry_set mnt V (raw_of dir) V' (raw_of dir') k de ∨
     (err = - ENOSPC ∧ slot mnt V (raw_of dir) (lpos (k / 64)) = 0 ∧ nfree mnt V ≤ 1 ∨ err = - ENOMEM ∧ fs_kmem f ≠ []) ∧ N' = N ∧ dir_step ino (λ _, False) V dir N V' dir' N).
Proof.
  intros HM D Hk (Ei & Ed & V' & C' & F & Hkm & Hres) Hn. assert (∀ i, 1 ≤ i ≤ s_ninodes (mnt_sb mnt) → imarked V' i = imarked V i ∧ raw_at V' mnt i = raw_at V mnt i) as Hi.
  { eapply same_but_inodes; [done|apply F]. }
  assert (files_kept V dir V' dir') as Ho.
  { intros r Wr Hd. destruct (other_file mnt (proj1 HM) V (raw_of dir) V' (raw_of dir') r F Wr Hd) as (? & ? & ?). split; [done|]. split; [done|]. split; [done|].
    by apply (other_slots mnt (proj1 HM) V (raw_of dir) V' (raw_of dir') r F Wr Hd). }
  destruct Hres as [(-> & D' & He)|(He & D' & Hd & _)].
  - exists V', (Z.max N (k + 1)). repeat (split; [done|]). left. repeat (split; [done|]). split; [|done]. constructor; [apply F|done| |done|auto].
    intros name' Hne. destruct (Hn name' ltac:(congruence)) as [N1 N2]. by eapply bound_entry_set.
  - exists V', N. repeat (split; [done|]). right. split; [done|]. split; [done|]. constructor; [apply F|done|by apply bindings_dents|done|auto].
Qed.

Lemma zones_same_nfree V V' : mnt_ok V mnt → zones_same V V' → nfree mnt V' = nfree mnt V.
Proof.
  intros HM HV. unfold nfree. cbv zeta. set (n := s_nzones (mnt_sb mnt) - s_firstdatazone (mnt_sb mnt)).
  assert (∀ z, z ∈ seqZ (s_firstdatazone (mnt_sb mnt)) n → marked V' mnt z = marked V mnt z) as Hm.
  { intros z Hz%elem_of_seqZ. apply zones_same_marked; [done..|]. apply zone_valid_iff. lia. }
  induction (seqZ (s_firstdatazone (mnt_sb mnt)) n) as [|z l IH]; [done|]. rewrite !filter_cons, Hm by left.
  assert (Z.of_nat (length (filter (λ z, marked V' mnt z = false) l)) = Z.of_nat (length (filter (λ z, marked V mnt z = false) l))) as E by (apply IH; intros; apply Hm; by right).
  case_decide; simpl; lia.
Qed.

(** A new name in an empty entry is the only one. *)
Lemma bound_new V r V' r' N k name ino : entry_set mnt V r V' r' k (new_dirent ino name) → unbound mnt V r N name → 0 ≤ k ≤ N → 1 ≤ ino < 65536 → name_ok name →
  bound mnt V' r' (Z.max N (k + 1)) name ino.
Proof.
  intros He Hu Hk Hi Hn. destruct (new_dirent_ok ino name ltac:(lia) Hn) as (_ & E1 & E2). exists k. rewrite He, decide_True by lia. split; [|done].
  split; [lia|]. rewrite He, decide_True by lia. split.
  - unfold named. rewrite E1, E2. destruct (Z.eqb_spec ino 0); [lia|]. by rewrite bool_decide_true.
  - intros j Hj. rewrite He, decide_False by lia. apply Hu. lia.
Qed.

(** What a failed operation leaves: the names, the inode map and the inodes in use. *)
Definition untouched V (dir : vfs_inode) N V' (dir' : vfs_inode) : Prop :=
  mnt_ok V' mnt ∧ dir_ok mnt V' dir' N ∧ bindings_same (λ _, False) V dir N V' dir' N ∧ files_kept V dir V' dir' ∧
  ∀ i, 1 ≤ i ≤ s_ninodes (mnt_sb mnt) → imarked V' i = imarked V i ∧ (imarked V i = true → raw_at V' mnt i = raw_at V mnt i).

(** The zones are used up, and the entries of the directory as well. *)
Definition no_zone V (dir : vfs_inode) N : Prop := nfree mnt V ≤ 1 ∧ ∃ k, 0 ≤ k ≤ N ∧ slot mnt V (raw_of dir) (lpos (k / 64)) = 0.

Definition create_raw (mode now : Z) : minix_raw_inode := fresh_raw (Z.lor MINIX_MODE_REG (Z.land mode 0x1FF)) now 1.

(** What [minix_create] does: the inode was free and is in use, the name had no
    meaning and means it. *)
Definition created V (dir : vfs_inode) N name raw V' (dir' : vfs_inode) N' ino : Prop :=
  1 ≤ ino ≤ s_ninodes (mnt_sb mnt) ∧ imarked V ino = false ∧ imarked V' ino = true ∧ raw_at V' mnt ino = raw ∧
  unbound mnt V (raw_of dir) N name ∧ bound mnt V' (raw_of dir') N' name ino ∧ N ≤ N' ≤ N + 1 ∧ dir_step ino (eq name) V dir N V' dir' N'.
Definition create_refused V (dir : vfs_inode) N name (f : fs S) err : Prop :=
  err = - EEXIST ∧ ¬ unbound mnt V (raw_of dir) N name ∨
  err = - ENOSPC ∧ ((∀ i, 1 ≤ i ≤ s_ninodes (mnt_sb mnt) → imarked V i = true) ∨ no_zone V dir N) ∨
  err = - ENOMEM ∧ fs_kmem f ≠ [].

Lemma inode_from_raw_nil ino raw (f : fs S) : fs_kmem f = [] → ∃ v, minix_inode_from_raw ino raw f = (0, Some v, f) ∧ v_ino v = ino ∧ v_size v = i_size raw ∧ mi_raw (v_info v) = raw.
Proof. intros Hk. unfold minix_inode_from_raw. rewrite (next_kmem_nil f Hk). cbn [negb]. rewrite (next_kmem_nil f Hk). cbn [negb]. by eexists. Qed.

Lemma untouched_step V dir N V' dir' ino : imarked V ino = false → imarked V' ino = false → dir_step ino (λ _, False) V dir N V' dir' N → untouched V dir N V' dir'.
Proof.
  intros H1 H2 [A1 A2 A3 A4 A5]. split; [done|]. split; [done|]. split; [done|]. split; [done|]. intros i Hi. destruct (decide (i = ino)) as [->|Hne].
  - rewrite H1, H2. done.
  - destruct (A5 i Hi Hne). done.
Qed.

Lemma dir_step_weaken ino (P P' : list Z → Prop) V dir N V' dir' N' : (∀ n, P n → P' n) → dir_step ino P V dir N V' dir' N' → dir_step ino P' V dir N V' dir' N'.
Proof. intros Hw [A1 A2 A3 A4 A5]. constructor; [done|done| |done|done]. intros n Hn. apply A3. naive_solver. Qed.

(** A new inode on the disk, with no name yet. *)
Definition new_inode V (dir : vfs_inode) N V' ino raw : Prop :=
  1 ≤ ino ≤ s_ninodes (mnt_sb mnt) ∧ imarked V ino = false ∧ imarked V' ino = true ∧ raw_at V' mnt ino = raw ∧ zones_same V V' ∧ dir_step ino (λ _, False) V dir N V' dir N.

Lemma new_inode_written V V1 dir N ino mi s R : mnt_ok V mnt → dir_ok mnt V dir N → 1 ≤ ino ≤ s_ninodes (mnt_sb mnt) → imarked V ino = false → map_changed V V1 d 2 ino true →
  st true d s V1 R → (length R < 8)%nat → inode_ok (mi_raw mi) → mi_dirty mi = true →
  wp (minix_write_inode mnt ino mi s) (λ '(err, mi', s'), err = 0 ∧ mi' = Info (mi_raw mi) false ∧ ∃ V', st true d s' V' R ∧ new_inode V dir N V' ino (mi_raw mi)).
Proof.
  intros HM D Hi Hf Hc C HR Hok Hdirty. destruct (imap_changed_zones V V1 ino true HM Hi Hc) as (HV & _ & Hm).
  destruct (dir_step_imap ino (λ _, False) V dir N V1 true HM D Hi Hc) as (S1 & M1 & _).
  eapply wp_mono; [apply (write_inode_spec mnt s V1 R ino mi C (proj1 HV) HR Hi (io_raw _ Hok) Hdirty)|]. intros [[err mi'] s'] (-> & -> & V2 & C2 & HM2 & Hr & Hoth & Hk). specialize (Hr Hok).
  destruct (inode_written_zones V1 V2 ino (proj1 HV) HM2 Hi Hk) as [HV2 Hm2]. split; [done|]. split; [done|]. exists V2. split; [done|].
  split; [done|]. split; [done|]. split; [by rewrite Hm2|]. split; [done|]. split; [by eapply zones_same_trans|].
  eapply dir_step_trans; [exact S1|]. apply dir_step_zones; [apply HV|apply S1|done|]. intros i Hii Hne. split; [by apply Hm2|by apply Hoth].
Qed.

Lemma free_after V dir N V3 dir3 ino s R : dir_step ino (λ _, False) V dir N V3 dir3 N → 1 ≤ ino ≤ s_ninodes (mnt_sb mnt) → imarked V ino = false → imarked V3 ino = true →
  st true d s V3 R → (length R < 8)%nat → wp (minix_free_inode mnt ino s) (λ s', ∃ V', st true d s' V' R ∧ untouched V dir N V' dir3).
Proof.
  intros S3 Hi Hf M3 C HR. eapply wp_mono; [by apply (free_inode_spec s V3 R ino C HR (ds_mnt _ _ _ _ _ _ _ _ S3))|]. intros s' (V' & C' & Hc). exists V'. split; [done|].
  destruct (dir_step_imap ino (λ _, False) V3 dir3 N V' false (ds_mnt _ _ _ _ _ _ _ _ S3) (ds_dir _ _ _ _ _ _ _ _ S3) Hi Hc) as (S4 & M4 & _).
  eapply untouched_step; [exact Hf|exact M4|]. by eapply dir_step_trans.
Qed.

Lemma create_spec V R dir N name mode f : st true d (fs_cache f) V R → (length R < 6)%nat → mnt_ok V mnt → dir_ok mnt V dir N → v_is_dir dir = true → name_ok name →
  0 ≤ fs_now f < 2 ^ 32 → 16 * (N + 1) ≤ 519 * 1024 →
  wp (minix_create mnt dir name mode f) (λ '(err, v, dir', f'), v_is_dir dir' = true ∧ ∃ V', st true d (fs_cache f') V' R ∧
    ((∃ ino N', created V dir N name (create_raw mode (fs_now f)) V' dir' N' ino ∧ (fs_kmem f = [] → fs_kmem f' = []) ∧
        match v with
        | Some v => err = 0 ∧ v_ino v = ino ∧ v_size v = 0 ∧ mi_raw (v_info v) = create_raw mode (fs_now f)
        | None => err = - ENOMEM ∧ fs_kmem f ≠ []
        end) ∨
     v = None ∧ create_refused V dir N name f err ∧ untouched V dir N V' dir')).
Proof.
  intros C HR HM D Hd Hname Hnow Hroom. unfold minix_create. rewrite Hd. cbn [negb].
  wp_step (alloc_inode_spec (fs_cache f) V R C ltac:(lia) HM) as [ino s1]. intros [(-> & C1 & Hall)|(Hi & Hf & V1 & C1 & Hc)].
  { apply wp_Ok. split; [done|]. exists V. split; [done|]. right. split; [done|]. split; [right; left; auto|]. split; [done|]. split; [done|].
    split; [by apply bindings_dents|]. split; [|auto]. by apply files_zones. }
  destruct (Z.eqb_spec ino 0); [lia|]. cbn [fs_now on_cache]. set (raw := fresh_raw _ _ 1).
  assert (inode_ok raw) as Hraw by (apply fresh_raw_ok; [apply mode_range; unfold MINIX_MODE_REG; lia|done|lia]).
  wp_step (new_inode_written V V1 dir N ino (Info raw true) s1 R HM D Hi Hf Hc C1 ltac:(lia) Hraw eq_refl) as [[err mi] s2].
  intros (-> & _ & V2 & C2 & _ & _ & M2 & Hr2 & HV2 & S2). cbn [Z.eqb negb]. pose proof (ds_mnt _ _ _ _ _ _ _ _ S2) as HM2. pose proof (ds_dir _ _ _ _ _ _ _ _ S2) as D2.
  assert (s_ninodes (mnt_sb mnt) < 65536) as Hn by apply HM.
  wp_step (add_dirent_spec mnt HC V2 R dir N name ino (on_cache s2 (on_cache s1 f)) C2 HR HM2 D2 Hname ltac:(lia) Hroom) as [[err dir'] f3].
  destruct (ds_names _ _ _ _ _ _ _ _ S2 name) as [_ Hub]; [tauto|].
  intros [(-> & -> & C3 & Hu)|(Hu & k & Hk & Hfree & Hw)].
  { cbn. wp_step (free_after V dir N V2 dir ino _ R S2 Hi Hf M2 C3 ltac:(lia)) as s4. intros (V' & C4 & U). apply wp_Ok. split; [done|]. exists V'. split; [done|].
    right. split; [done|]. split; [|done]. left. split; [done|]. by rewrite <- Hub. }
  destruct (new_dirent_ok ino name ltac:(lia) Hname) as (_ & E1 & E2).
  destruct (dir_step_entry ino name V2 dir N _ k _ R err dir' f3 HM2 D2 Hk Hw) as (V3 & N' & C3 & _ & Ed & Hkm & Hi3 & Hres).
  { intros name' Hne. unfold named. rewrite E2. split; [rewrite bool_decide_false by congruence; by rewrite andb_false_r|]. intros Hk2. unfold raw_of. by rewrite Hfree. }
  cbn [fs_kmem on_cache] in Hkm, Hres. destruct (Hi3 ino Hi) as [M3 Hr3].
  destruct Hres as [(-> & -> & S3 & He)|(He & -> & S3)].
  - cbn [Z.eqb negb]. destruct (minix_inode_from_raw ino raw f3) as [[err v] f4] eqn:Ef. apply wp_Ok. split; [congruence|]. exists V3. pose proof (inode_from_raw_spec _ _ _ _ _ _ Ef) as [E4 Hv].
    split; [by rewrite E4|]. left. exists ino, (Z.max N (k + 1)). split; [|split].
    + split; [done|]. split; [done|]. split; [congruence|]. split; [rewrite Hr3; exact Hr2|]. split; [exact (proj1 Hub Hu)|]. split; [by eapply bound_new; [exact He|done|done|lia|done]|]. split; [lia|].
      eapply dir_step_trans; [eapply dir_step_weaken; [|exact S2]; done|exact S3].
    + intros Hk0. destruct (inode_from_raw_nil ino raw f3 (Hkm Hk0)) as (v' & E & _). rewrite Ef in E. simplify_eq. by apply Hkm.
    + destruct v as [v|]; [done|]. split; [done|]. intros Hk0. destruct (inode_from_raw_nil ino raw f3 (Hkm Hk0)) as (v' & E & _). by rewrite Ef in E.
  - assert (err ≠ 0) as Hne by (destruct He as [[-> _]|[-> _]]; done). apply Z.eqb_neq in Hne as ->. cbn [negb].
    wp_step (free_after V dir N V3 dir' ino _ R (dir_step_trans _ _ _ _ _ _ _ _ _ _ _ S2 S3) Hi Hf ltac:(congruence) C3 ltac:(lia)) as s4. intros (V' & C4 & U). apply wp_Ok.
    split; [congruence|]. exists V'. split; [done|]. right. split; [done|]. split; [|done]. right. destruct He as [(-> & Hsl & Hnf)|[-> Hk0]]; [left|by right]. split; [done|]. right.
    unfold no_zone. rewrite <- (zones_same_nfree V V2) by done. split; [done|]. exists k. split; [done|]. by rewrite <- (zones_same_slot V V2).
Qed.

Lemma inode_from_raw_none ino raw (f : fs S) err f' : minix_inode_from_raw ino raw f = (err, None, f') → fs_kmem f ≠ [].
Proof. intros E Hk. destruct (inode_from_raw_nil ino raw f Hk) as (v & E' & _). congruence. Qed.

(** ** Looking a name up *)

Lemma live_or_empty V r j : 0 ≤ j → live mnt V r j ∨ ∀ name, named name (dent mnt V r j) = false.
Proof. intros Hj. destruct (decide (bmap_ref V mnt r (j / 64) = 0)) as [E|E]; [right|by left]. intros name. apply hole_not_named; [done|]. unfold live. lia. Qed.

Lemma lookup_spec V R dir N name f : st true d (fs_cache f) V R → (length R < 6)%nat → mnt_ok V mnt → dir_ok mnt V dir N → v_is_dir dir = true → name ≠ dot →
  wp (minix_lookup mnt dir name f) (λ '(err, v, f'), st true d (fs_cache f') V R ∧
    (unbound mnt V (raw_of dir) N name → err = - ENOENT ∧ v = None) ∧
    ∀ ino, bound mnt V (raw_of dir) N name ino → 1 ≤ ino ≤ s_ninodes (mnt_sb mnt) →
      match v with
      | Some v => err = 0 ∧ v_ino v = ino ∧ v_size v = i_size (raw_at V mnt ino) ∧ raw_of v = raw_at V mnt ino
      | None => err = - ENOMEM ∧ fs_kmem f ≠ []
      end).
Proof.
  intros C HR HM D Hd Hdot. pose proof D as [W Hs Hn [HN HN2]]. unfold minix_lookup. rewrite Hd. cbn [negb]. rewrite decide_False by done. rewrite Hn.
  destruct (rounds_scan mnt N HN) as [F0 F1].
  apply (dir_scan_spec mnt V R (v_info dir) N _ _ _ _ _ (rounds (16 * N)) 0 f HM HR (fw_raw _ _ _ W) HN HN2 ltac:(lia) F0 F1 C).
  - intros; lia.
  - intros h b k f' Hk C' [K1 K2] _ Ht Hj. apply andb_true_iff in Ht as [Hle Hnm]. apply Z.leb_le in Hle.
    assert (1 ≤ de_inode (dent mnt V (raw_of dir) k)) as Hge.
    { apply andb_true_iff in Hnm as [Hz _]. apply negb_true_iff, Z.eqb_neq in Hz. unfold raw_of.
      assert (∀ o, 0 ≤ fbyte V mnt (mi_raw (v_info dir)) o) as Hb.
      { intros o. unfold fbyte. pose proof (Z.mod_pos_bound o 1024 ltac:(lia)) as Ho.
        destruct (byte_at_spec _ _ (fblock_ok V mnt (mi_raw (v_info dir)) (o / 1024) HM (st_blocks _ _ _ _ _ C)) Ho) as [_ Hb]. unfold byte in Hb. lia. }
      simpl in *. pose proof (Hb (16 * k)). pose proof (Hb (16 * k + 1)). lia. }
    assert (0 ≤ de_inode (dent mnt V (raw_of dir) k)) as Hge0 by lia.
    wp_step (get_raw_inode_spec true mnt (fs_cache f') V _ _ C' HM ltac:(simpl; lia) Hge0) as [[err [raw|]] s1].
    2: { intros [_ [[_ ?]|[_ ?]]]; [unfold raw_of in *; lia|done]. }
    intros (C1 & -> & _ & -> & _). destruct (minix_inode_from_raw _ _ _) as [[err v] f2] eqn:E. pose proof (inode_from_raw_spec _ _ _ _ _ _ E) as [E2 Hv]. cbn [fs_cache on_cache] in E2.
    rewrite <- E2 in C1. wp_step (wp_bput _ _ _ _ _ _ _ C1) as s3. intros C3. apply wp_Ok. split; [done|]. split.
    + intros Hu. unfold raw_of in Hu. by rewrite (Hu k Hk) in Hnm.
    + intros ino (j & (Hj1 & Hj2 & Hj3) & <-) Hino. assert (j = k) as ->.
      { destruct (Z.lt_trichotomy j k) as [Hlt|[->|Hlt]]; [|done|].
        - destruct (live_or_empty V (raw_of dir) j ltac:(lia)) as [Hl|He]; [|by rewrite He in Hj2]. unfold raw_of in *. specialize (Hj j ltac:(lia) Hl). cbv beta in Hj. rewrite Hj2, andb_true_r in Hj.
          apply Z.leb_gt in Hj. lia.
        - rewrite Hj3 in Hnm by lia. done. }
      destruct v as [v|]; [done|]. split; [done|]. rewrite <- K1. exact (inode_from_raw_none _ _ _ _ _ E).
  - intros f' C' K Hj. apply wp_Ok. split; [done|]. split; [done|]. intros ino (j & (Hj1 & Hj2 & Hj3) & <-) Hino.
    destruct (live_or_empty V (raw_of dir) j ltac:(lia)) as [Hl|He]; [|by rewrite He in Hj2]. unfold raw_of in *. specialize (Hj j ltac:(lia) Hl). cbv beta in Hj. rewrite Hj2, andb_true_r in Hj.
    apply Z.leb_gt in Hj. lia.
Qed.

(** ** Removing a file *)

Lemma vfs_close_spec V R v f : st true d (fs_cache f) V R → (length R < 8)%nat → mnt_ok V mnt → 1 ≤ v_ino v ≤ s_ninodes (mnt_sb mnt) → raw_ok (raw_of v) →
  wp (vfs_close mnt v f) (λ f', ∃ V', st true d (fs_cache f') V' R ∧ zones_same V V' ∧ (∀ i, 1 ≤ i ≤ s_ninodes (mnt_sb mnt) → imarked V' i = imarked V i) ∧
    ∀ i, 1 ≤ i ≤ s_ninodes (mnt_sb mnt) → i ≠ v_ino v → raw_at V' mnt i = raw_at V mnt i).
Proof.
  intros C HR HM Hi Hok. unfold vfs_close, minix_close. destruct (mi_dirty (v_info v)) eqn:Hd.
  - destruct (write_inode_spec mnt (fs_cache f) V R (v_ino v) (v_info v) C HM HR Hi Hok Hd) as ([[err mi] s'] & -> & _ & _ & V' & C' & HM' & _ & Hoth & Hk).
    cbn [mbind outcome_bind]. apply wp_Ok. exists V'. destruct (inode_written_zones V V' (v_ino v) HM HM' Hi Hk). done.
  - unfold minix_write_inode. rewrite Hd. cbn. apply wp_Ok. exists V. done.
Qed.

(** What remains when the file [r] of inode [ino] is gone. *)
Record removed ino r V V' : Prop := {
  rm_mnt : mnt_ok V' mnt;
  rm_ino : imarked V' ino = false;
  rm_inodes : ∀ i, 1 ≤ i ≤ s_ninodes (mnt_sb mnt) → i ≠ ino → imarked V' i = imarked V i ∧ raw_at V' mnt i = raw_at V mnt i;
  rm_zones : 0 < i_size r → ∀ z, owned mnt V r z → marked V' mnt z = false;
  rm_files : ∀ r2, file_wf mnt V r2 → (∀ z, owned mnt V r z → ¬ owned mnt V r2 z) → file_wf mnt V' r2 ∧ same_bytes mnt V r2 V' r2
}.

Lemma free_tree_spec V R ino raw f : st true d (fs_cache f) V R → (length R < 6)%nat → mnt_ok V mnt → fs_kmem f = [] → 1 ≤ ino ≤ s_ninodes (mnt_sb mnt) → imarked V ino = true →
  has (i_mode raw) MINIX_MODE_DIR = false → file_wf mnt V raw → 0 ≤ i_size raw ≤ 519 * 1024 →
  wp (minix_free_tree_inode mnt ino raw f) (λ '(err, f'), err = 0 ∧ ∃ V', st true d (fs_cache f') V' R ∧ removed ino raw V V').
Proof.
  intros C HR HM Hk0 Hi Hm Hd W Hsz. unfold minix_free_tree_inode. unfold minix_inode_from_raw. rewrite !(next_kmem_nil f Hk0). cbn [negb v_is_dir].
  change 0x4000 with MINIX_MODE_DIR. rewrite Hd. cbn [mbind outcome_bind]. set (v := Inode _ _ _ _ _ _ _).
  wp_step (minix_truncate_spec mnt HC (proj1 HM) v 0 (on_cache (fs_cache f) f) V R C HR HM W Hsz ltac:(lia)) as [[res v'] f1]. intros (-> & _ & Ei & _ & V1 & C1 & F & Hp). change (v_ino v) with ino in Ei.
  pose proof (sb_mnt _ _ _ _ (fs_same _ _ _ _ _ F)) as HM1. pose proof (same_but_inodes _ V V1 HM (fs_same _ _ _ _ _ F)) as Hi1.
  wp_step (vfs_close_spec V1 R v' f1 C1 ltac:(lia) HM1) as f2; [by rewrite Ei|apply F|]. intros (V2 & C2 & HV2 & Hm2 & Hr2). cbn [Z.eqb negb].
  assert (imarked V2 ino = true) as M2 by (rewrite Hm2 by done; destruct (Hi1 ino Hi); congruence).
  wp_step (free_inode_spec (fs_cache f2) V2 R ino C2 ltac:(lia) (proj1 HV2) Hi M2) as s3. intros (V3 & C3 & Hc). apply wp_Ok. split; [done|]. exists V3. split; [done|].
  destruct (imap_changed_zones V2 V3 ino false (proj1 HV2) Hi Hc) as (HV3 & Hr3 & Hm3). pose proof (zones_same_trans V1 V2 V3 HV2 HV3) as HV.
  constructor.
  - apply HV3.
  - rewrite Hm3, decide_True by lia. done.
  - intros i Hii Hne. rewrite Hm3, decide_False, Hr3, Hm2, Hr2 by (done || lia || congruence). by apply Hi1.
  - intros Hpos z Hz. rewrite (zones_same_marked V1 V3) by (done || by apply (fw_zone _ _ _ W)). destruct Hp as (_ & _ & _ & _ & _ & Hfree). by apply Hfree.
  - intros r2 W2 Hdis. destruct (other_file mnt (proj1 HM) V raw V1 (mi_raw (v_info v')) r2 F W2 Hdis) as (W3 & B3 & _).
    destruct (zones_same_file V1 V3 r2 HM1 HV W3) as [W4 B4]. split; [done|]. intros o Ho. by rewrite B4, B3.
Qed.
(** What [minix_unlink] does to a name that means the regular file [ino]. *)
Definition unlinked V (dir : vfs_inode) N name ino V' (dir' : vfs_inode) : Prop :=
  mnt_ok V' mnt ∧ dir_ok mnt V' dir' N ∧ bindings_same (eq name) V dir N V' dir' N ∧
  (∃ k, first_named mnt V (raw_of dir) N name k ∧ entry_set mnt V (raw_of dir) V' (raw_of dir') k (Dirent 0 (replicate 14 0))) ∧
  imarked V' ino = false ∧ (∀ i, 1 ≤ i ≤ s_ninodes (mnt_sb mnt) → i ≠ ino → imarked V' i = imarked V i ∧ raw_at V' mnt i = raw_at V mnt i) ∧
  (0 < i_size (raw_at V mnt ino) → ∀ z, owned mnt V (raw_at V mnt ino) z → marked V' mnt z = false) ∧
  ∀ r, file_wf mnt V r → (∀ z, owned mnt V (raw_of dir) z ∨ owned mnt V (raw_at V mnt ino) z → ¬ owned mnt V r z) → file_wf mnt V' r ∧ same_bytes mnt V r V' r.

Lemma first_named_fun V r N name k k' : first_named mnt V r N name k → first_named mnt V r N name k' → k = k'.
Proof.
  intros (H1 & H2 & H3) (G1 & G2 & G3). destruct (Z.lt_trichotomy k k') as [Hlt|[->|Hlt]]; [|done|].
  - rewrite G3 in H2 by lia. done.
  - rewrite H3 in G2 by lia. done.
Qed.

Lemma named_slot V dir N k name : dir_ok mnt V dir N → 0 ≤ k < N → named name (dent mnt V (raw_of dir) k) = true → slot mnt V (raw_of dir) (lpos (k / 64)) ≠ 0.
Proof.
  intros [W _ _ [HN HN2]] Hk Hn E. destruct (live_or_empty V (raw_of dir) k ltac:(lia)) as [Hl|He]; [|by rewrite He in Hn]. apply Hl.
  rewrite (bmap_slot mnt V (raw_of dir) (k / 64) W); [done|]. split; [apply Z.div_pos; lia|apply Z.div_lt_upper_bound; lia].
Qed.

Lemma minix_unlink_spec V R dir N name ino f : st true d (fs_cache f) V R → (length R < 6)%nat → mnt_ok V mnt → dir_ok mnt V dir N → fs_kmem f = [] →
  bound mnt V (raw_of dir) N name ino → 1 ≤ ino ≤ s_ninodes (mnt_sb mnt) → imarked V ino = true → has (i_mode (raw_at V mnt ino)) MINIX_MODE_DIR = false →
  file_wf mnt V (raw_at V mnt ino) → i_size (raw_at V mnt ino) ≤ 519 * 1024 → (∀ z, owned mnt V (raw_of dir) z → ¬ owned mnt V (raw_at V mnt ino) z) →
  wp (minix_unlink mnt dir name f) (λ '(err, dir', f'), err = 0 ∧ ∃ V', st true d (fs_cache f') V' R ∧ unlinked V dir N name ino V' dir').
Proof.
  intros C HR HM D Hk0 (k & Hk & Hino) Hi Hm Hreg W Hsz Hdis. unfold minix_unlink.
  wp_step (find_spec mnt V R dir N name f C HR HM D) as [[err res] f1]. intros (C1 & [Kf _] & Hres). destruct res as [[off de]|].
  2: { destruct Hres as [_ Hu]. destruct Hk as (Hk1 & Hk2 & _). unfold raw_of in Hk2. by rewrite (Hu k Hk1) in Hk2. }
  destruct Hres as (_ & k' & -> & -> & Hk'). rewrite (first_named_fun _ _ _ _ _ _ Hk' Hk) in *. unfold raw_of in Hino. rewrite Hino.
  wp_step (get_raw_inode_spec true mnt (fs_cache f1) V R ino C1 HM ltac:(lia) ltac:(lia)) as [[err2 [raw|]] s2]; [|intros [_ [[_ ?]|[_ ?]]]; done || lia].
  intros (C2 & _ & _ & -> & Hok). rewrite Hreg.
  wp_step (zero_dirent_spec mnt HC V R dir N name (on_cache s2 f1) C2 HR HM D) as [[[err3 old] dir'] f3]. intros [(_ & _ & _ & _ & Hu)|(k2 & Hk2 & -> & Hw)].
  { destruct Hk as (Hk1 & Hk2 & _). unfold raw_of in Hk2. by rewrite (Hu k Hk1) in Hk2. }
  rewrite (first_named_fun _ _ _ _ _ _ Hk2 Hk) in *. pose proof Hk as (Hkr & Hkn & _). pose proof Hw as (_ & _ & V1 & C3 & F & Hkm & _).
  destruct (dir_step_entry ino name V dir N _ k _ R err3 dir' f3 HM D ltac:(lia) Hw) as (V1' & N' & C3' & _ & _ & Hkm' & Hi3 & Hres).
  { intros name' Hne. split; [done|]. intros _. apply andb_true_iff in Hkn as [_ Hkn]. apply bool_decide_eq_true in Hkn. unfold named. rewrite Hkn. by rewrite bool_decide_false, andb_false_r by congruence. }
  cbn [fs_kmem on_cache] in Hkm', Hres. rewrite Kf in Hkm', Hres. clear V1 C3 F Hkm Hw. destruct Hres as [(-> & -> & S3 & He)|([(_ & Hs0 & _)|[_ ?]] & _)]; [|by destruct (named_slot V dir N k name D Hkr Hkn)|done].
  cbv zeta. cbn [Z.eqb negb from_option id]. unfold id. rewrite Hino. replace (Z.max N (k + 1)) with N in * by lia. destruct (Hi3 ino Hi) as [M3 Hr3]. destruct (ds_others _ _ _ _ _ _ _ _ S3 _ W Hdis) as (W3 & B3 & D3 & O3).
  wp_step (free_tree_spec V1' R ino (raw_at V mnt ino) f3 C3' HR (ds_mnt _ _ _ _ _ _ _ _ S3) (Hkm' Hk0) Hi ltac:(congruence) Hreg W3) as [err4 f4].
  { pose proof (io_size _ Hok). lia. }
  intros (-> & V4 & C4 & [R1 R2 R3 R4 R5]). cbn [Z.eqb negb]. apply wp_Ok. split; [done|]. exists V4. split; [done|].
  pose proof (ds_dir _ _ _ _ _ _ _ _ S3) as [Wd Hs3 Hn3 HN3]. destruct (R5 _ Wd) as [Wd4 Bd4]. { intros z Hz Hz2. by apply (D3 z). }
  assert (∀ j, 0 ≤ j → dent mnt V4 (raw_of dir') j = dent mnt V1' (raw_of dir') j) as Hde by (intros j Hj; by apply dent_same).
  split; [done|]. split; [by constructor|]. split; [eapply bindings_trans; [apply S3|by apply bindings_dents]|]. split; [exists k; split; [done|]; intros j Hj; rewrite Hde by done; by apply He|].
  split; [done|]. split; [intros i Hii Hne; destruct (R3 i Hii Hne) as [-> ->]; by apply Hi3|]. split.
  - intros Hpos z Hz. apply R4; [done|]. by apply O3.
  - intros r Wr Hr. destruct (ds_others _ _ _ _ _ _ _ _ S3 r Wr) as (W5 & B5 & D5 & O5); [intros z Hz; apply Hr; by left|].
    destruct (R5 r W5) as [W6 B6]; [intros z Hz%O3 Hz2%O5; by apply (Hr z); [right|]|]. split; [done|]. intros o Ho. by rewrite B6, B5.
Qed.

(** C24: creating a file.  On a device that answers, [minix_create] in a directory
    either creates the file: one free inode is taken
    and written, empty and with the requested permissions, and that the name,
    which had no meaning, means it; or it refuses, because the name exists, or no
    inode is free, or neither an entry nor a zone for one, or for want
    of memory, and gives the inode back.  Every other name, every other inode in
    use and every other file are as they were. *)
Theorem minix_create_correct V dir N name mode f :
  st true d (fs_cache f) V [] → mnt_ok V mnt → dir_ok mnt V dir N → v_is_dir dir = true → name_ok name → 0 ≤ fs_now f < 2 ^ 32 → 16 * (N + 1) ≤ 519 * 1024 →
  ∃ err v dir' f' V', minix_create mnt dir name mode f = Ok (err, v, dir', f') ∧ st true d (fs_cache f') V' [] ∧
    ((∃ ino N', created V dir N name (create_raw mode (fs_now f)) V' dir' N' ino ∧
        match v with
        | Some v => err = 0 ∧ v_ino v = ino ∧ v_size v = 0 ∧ raw_of v = create_raw mode (fs_now f)
        | None => err = - ENOMEM ∧ fs_kmem f ≠ []
        end) ∨
     v = None ∧ create_refused V dir N name f err ∧ untouched V dir N V' dir').
Proof.
  intros C HM D Hd Hn Hnow Hroom. destruct (create_spec V [] dir N name mode f C ltac:(simpl; lia) HM D Hd Hn Hnow Hroom) as ([[[err v] dir'] f'] & E & _ & V' & C' & Hp).
  exists err, v, dir', f', V'. split; [done|]. split; [done|]. destruct Hp as [(ino & N' & H1 & _ & H3)|Hp]; [left; by exists ino, N'|by right].
Qed.

(** A name that was created is found.  When memory suffices and
    [minix_create] succeeds, looking the name up in the directory yields
    the inode just created, as it is on the disk. *)
Theorem minix_create_lookup V dir N name mode f v dir' f' :
  st true d (fs_cache f) V [] → mnt_ok V mnt → dir_ok mnt V dir N → v_is_dir dir = true → name_ok name → name ≠ dot → 0 ≤ fs_now f < 2 ^ 32 → 16 * (N + 1) ≤ 519 * 1024 →
  fs_kmem f = [] → minix_create mnt dir name mode f = Ok (0, Some v, dir', f') →
  ∃ v2 f2, minix_lookup mnt dir' name f' = Ok (0, Some v2, f2) ∧ v_ino v2 = v_ino v ∧ v_size v2 = 0 ∧ raw_of v2 = raw_of v.
Proof.
  intros C HM D Hd Hn Hdot Hnow Hroom Hk E. destruct (create_spec V [] dir N name mode f C ltac:(simpl; lia) HM D Hd Hn Hnow Hroom) as ([[[err v0] dir0] f0] & E0 & Hd' & V' & C' & Hp).
  rewrite E in E0. injection E0 as <- <- <- <-. destruct Hp as [(ino & N' & (Hi & _ & _ & Hr & _ & Hb & _ & S3) & Hk' & _ & Hv1 & Hv2 & Hv3)|(? & _)]; [|done].
  destruct (lookup_spec V' [] dir' N' name f' C' ltac:(simpl; lia) (ds_mnt _ _ _ _ _ _ _ _ S3) (ds_dir _ _ _ _ _ _ _ _ S3) Hd' Hdot) as ([[err2 v2] f2] & E2 & _ & _ & Hl).
  specialize (Hl ino Hb Hi). destruct v2 as [v2|]; [|destruct Hl as [_ Hl]; by destruct (Hl (Hk' Hk))]. destruct Hl as (-> & L1 & L2 & L3). exists v2, f2.
  split; [done|]. split; [congruence|]. split; [by rewrite L2, Hr|]. unfold raw_of at 2. by rewrite L3, Hr, Hv3.
Qed.

(** C25: removing a file.  On a device that answers and with memory enough,
    [minix_unlink] of a name that means a regular file succeeds: the entry is
    emptied, the inode is free, so are all its zones, the index block included,
    when its size is not 0, and every other name, inode and file is as it was.
    It holds for a file of at most 519 KiB without a double-indirect zone
    ([file_wf]: the direct zones and one index block, all taken and different)
    that shares no zone with the directory; of a file of size 0 the code frees
    no zone, and none is claimed. *)
Theorem minix_unlink_correct V dir N name ino f :
  st true d (fs_cache f) V [] → mnt_ok V mnt → dir_ok mnt V dir N → fs_kmem f = [] →
  bound mnt V (raw_of dir) N name ino → 1 ≤ ino ≤ s_ninodes (mnt_sb mnt) → imarked V ino = true → has (i_mode (raw_at V mnt ino)) MINIX_MODE_DIR = false →
  file_wf mnt V (raw_at V mnt ino) → i_size (raw_at V mnt ino) ≤ 519 * 1024 → (∀ z, owned mnt V (raw_of dir) z → ¬ owned mnt V (raw_at V mnt ino) z) →
  ∃ dir' f' V', minix_unlink mnt dir name f = Ok (0, dir', f') ∧ st true d (fs_cache f') V' [] ∧ unlinked V dir N name ino V' dir'.
Proof.
  intros C HM D Hk Hb Hi Hm Hreg W Hsz Hdis. destruct (minix_unlink_spec V [] dir N name ino f C ltac:(simpl; lia) HM D Hk Hb Hi Hm Hreg W Hsz Hdis) as ([[err dir'] f'] & E & -> & V' & C' & U).
  by exists dir', f', V'.
Qed.
End Create.

(** ** On the small disk *)

Definition demo_dir : vfs_inode := Inode 1 64 true 0x41ED 0 0 (Info demo_root false).
Definition demo_name : list Z := [110; 101; 119].

Lemma demo_dir_ok : dir_ok demo_mnt (disk_map minix_disk) demo_dir 4.
Proof. constructor; [exact demo_root_wf|done|done|lia]. Qed.

Lemma demo_name_ok : name_ok demo_name.
Proof. split; [vm_compute; reflexivity|]. repeat constructor. Qed.

Lemma minix_create_correct_witness : ∃ err v dir' f' V', minix_create demo_mnt demo_dir demo_name 0x1A4 (demo_fs []) = Ok (err, v, dir', f') ∧ st true 1 (fs_cache f') V' [].
Proof.
  destruct (minix_create_correct demo_mnt (proj2 demo_mnt_ok) (disk_map minix_disk) demo_dir 4 demo_name 0x1A4 (demo_fs [])) as (err & v & dir' & f' & V' & E & C' & _).
  - by apply demo_st.
  - apply demo_mnt_ok.
  - exact demo_dir_ok.
  - reflexivity.
  - exact demo_name_ok.
  - simpl. lia.
  - lia.
  - exists err, v, dir', f', V'. split; [exact E|exact C'].
Defined.

Lemma minix_create_lookup_witness : ∃ v dir' f' v2 f2, minix_create demo_mnt demo_dir demo_name 0x1A4 (demo_fs []) = Ok (0, Some v, dir', f') ∧
  minix_lookup demo_mnt dir' demo_name f' = Ok (0, Some v2, f2) ∧ v_ino v2 = v_ino v.
Proof.
  destruct (minix_create demo_mnt demo_dir demo_name 0x1A4 (demo_fs [])) as [[[[err v] dir'] f']| | | ] eqn:E; [|vm_compute in E; discriminate E..].
  assert ((match minix_create demo_mnt demo_dir demo_name 0x1A4 (demo_fs []) with Ok (err, Some _, _, _) => err | _ => 1 end) = 0) as H by (vm_compute; reflexivity).
  rewrite E in H. destruct v as [v|]; [|discriminate H]. subst err.
  destruct (minix_create_lookup demo_mnt (proj2 demo_mnt_ok) (disk_map minix_disk) demo_dir 4 demo_name 0x1A4 (demo_fs []) v dir' f') as (v2 & f2 & E2 & H2 & _).
  - by apply demo_st.
  - apply demo_mnt_ok.
  - exact demo_dir_ok.
  - reflexivity.
  - exact demo_name_ok.
  - discriminate.
  - simpl. lia.
  - lia.
  - reflexivity.
  - exact E.
  - exists v, dir', f', v2, f2. split; [reflexivity|]. split; [exact E2|exact H2].
Defined.

Lemma demo_dents : (λ k, dent demo_mnt (disk_map minix_disk) demo_root k) <$> [0; 1; 2] =
  [Dirent 1 (46 :: replicate 13 0); Dirent 1 (46 :: 46 :: replicate 12 0); Dirent 2 (102 :: replicate 13 0)].
Proof.
  assert (bmap_ref (disk_map minix_disk) demo_mnt demo_root 0 = 5) as Eb by (vm_compute; reflexivity).
  assert (∃ b, disk_map minix_disk !! (1, 5) = Some b ∧ b = block_from demo_entries) as (b & Hb & ->) by (rewrite demo_lookup; vm_compute; by eexists).
  assert (∀ o, 0 ≤ o < 1024 → fbyte (disk_map minix_disk) demo_mnt demo_root o = byte_of (block_from demo_entries) o) as Hf.
  { intros o Ho. unfold fbyte, fblock, blk. rewrite (Z.div_small o), (Z.mod_small o), Eb by lia. change (mnt_bdev demo_mnt) with 1. by rewrite Hb. }
  cbn [fmap list_fmap]. unfold dent, content. rewrite !Hf by lia.
  assert (∀ o n, 0 ≤ o → o + n ≤ 1024 → (λ i, fbyte (disk_map minix_disk) demo_mnt demo_root i) <$> seqZ o n = (λ i, byte_of (block_from demo_entries) i) <$> seqZ o n) as Hc.
  { intros o n Ho Hn. apply list_fmap_ext. intros i x Hx. apply lookup_seqZ in Hx as [-> Hi]. apply Hf. lia. }
  rewrite !Hc by lia. vm_compute. reflexivity.
Qed.

Lemma demo_bound : bound demo_mnt (disk_map minix_disk) demo_root 4 [102] 2.
Proof.
  pose proof (f_equal (λ l, nth 0 l (Dirent 0 [])) demo_dents) as E0. pose proof (f_equal (λ l, nth 1 l (Dirent 0 [])) demo_dents) as E1.
  pose proof (f_equal (λ l, nth 2 l (Dirent 0 [])) demo_dents) as E2. cbn [fmap list_fmap nth] in E0, E1, E2. exists 2. rewrite E2. split; [|done]. split; [lia|]. rewrite E2. split; [done|].
  intros j Hj. destruct (decide (j = 0)) as [->|]; [by rewrite E0|]. replace j with 1 by lia. by rewrite E1.
Qed.

Lemma demo_inode_two : raw_at (disk_map minix_disk) demo_mnt 2 = demo_file ∧ imarked demo_mnt (disk_map minix_disk) 2 = true.
Proof. unfold raw_at, imarked, mbit, blk. rewrite !demo_lookup. split; vm_compute; reflexivity. Qed.

Lemma minix_unlink_correct_witness : ∃ dir' f' V', minix_unlink demo_mnt demo_dir [102] (demo_fs []) = Ok (0, dir', f') ∧ unlinked demo_mnt (disk_map minix_disk) demo_dir 4 [102] 2 V' dir'.
Proof.
  destruct (minix_unlink_correct demo_mnt (proj2 demo_mnt_ok) (disk_map minix_disk) demo_dir 4 [102] 2 (demo_fs [])) as (dir' & f' & V' & E & _ & U); rewrite ?(proj1 demo_inode_two).
  - by apply demo_st.
  - apply demo_mnt_ok.
  - exact demo_dir_ok.
  - reflexivity.
  - exact demo_bound.
  - assert (s_ninodes (mnt_sb demo_mnt) = 32) as -> by (vm_compute; reflexivity). lia.
  - apply demo_inode_two.
  - reflexivity.
  - exact demo_file_wf.
  - simpl. lia.
  - intros z H1 H2. apply (one_zone_owned 5 64) in H1; [|done]. apply (one_zone_owned 6 5) in H2; [|done]. congruence.
  - exists dir', f', V'. split; [exact E|exact U].
Defined.

(** ** Behaviours worth knowing *)

(** Unlinking does not ask whether the parent is a directory: on a regular file
    its bytes are taken for entries, and the inode they name is freed. *)
Definition forged : list Z := [2; 0; 120] ++ replicate 13 0.

Example unlink_in_a_file :
  ('(n, v, f) ← minix_write demo_mnt demo_inode 0 16 forged (demo_fs []);
   '(err, _, f) ← minix_unlink demo_mnt v [120] f;
   '(ino, _) ← minix_alloc_inode demo_mnt (fs_cache f); Ok (v_is_dir v, err, ino)) = Ok (false, 0, 2).
Proof. vm_compute. reflexivity. Qed.

(** An unreadable directory counts as empty, and is removed: the directory [d]
    holds [x]; after a restart the read of its block fails, and [rmdir] succeeds. *)
Definition disk_with_dir : outcome (gmap Z block_device) :=
  '(_, dir, f) ← minix_mkdir demo_mnt demo_dir [100] 0x1ED (demo_fs []);
  '(_, v, f) ← minix_lookup demo_mnt dir [100] f;
  v ← deref v;
  '(_, _, v, f) ← minix_create demo_mnt v [120] 0x1A4 f;
  f ← vfs_close demo_mnt v f;
  '(_, s) ← bsync 1 (fs_cache f);
  Ok (bc_devs s).

Definition rmdir_on (io : list Z) : outcome Z :=
  devs ← disk_with_dir;
  '(err, _, _) ← minix_rmdir demo_mnt demo_dir [100] (Fs (bufcache_boot devs io) [] 42);
  Ok err.

Example rmdir_keeps_entries : rmdir_on [] = Ok (- EBUSY).
Proof. vm_compute. reflexivity. Qed.

Example rmdir_unreadable : rmdir_on (replicate 12 0 ++ [- EIO]) = Ok 0.
Proof. vm_compute. reflexivity. Qed.
