(* ===== verification/Slab.v ===== *)
(** * kernel/mm/slab.c: the object caches and kmalloc

    A slab is a page whose first bytes are a [slab_page] header; a large
    allocation starts with a [large_hdr].  The headers are kept in a map from the
    virtual addresses of their pages; the rest of those pages belongs to the
    clients.  Reading the tag of a page without a header gives 0 when the page is still zeroed, and
    what its owner wrote otherwise, which is a [Fault] here.  Caches are
    numbered by their place in [cache_pool]. *)

From S2P Require Import Prelude Pmm.

Local Open Scope c_scope.

Definition SLAB_BITMAP_WORDS : Z := 8.
Definition PAGE_KIND_SLAB : Z := 0xA1.
Definition PAGE_KIND_LARGE : Z := 0xA2.
Definition LARGE_MAGIC : Z := 0x534C4142504B5350.
Definition MAX_CACHES : Z := 32.
Definition KMALLOC_MIN_SHIFT : Z := 4.
Definition KMALLOC_MAX_SHIFT : Z := 11.
Definition KMALLOC_NCLASSES : Z := KMALLOC_MAX_SHIFT - KMALLOC_MIN_SHIFT + 1.

(** [sizeof(struct slab_page)] and [sizeof(struct large_hdr)]. *)
Definition slab_page_size : Z := 104.
Definition large_hdr_size : Z := 56.

Record slab_page := SlabPage { sp_next : Z; sp_prev : Z; sp_cache : option nat; sp_used : Z; sp_capacity : Z; sp_bitmap : list Z }.

Inductive header :=
| Slab (sp : slab_page)
| Large (kind magic order : Z).

Record kmem_cache := Cache {
  object_size : Z;
  align : Z;
  objects_per_slab : Z;
  partial : Z;
  full : Z;
  alloc_count : Z;
  free_count : Z
}.

Record slab := SlabState {
  sl_pmm : pmm;
  sl_hhdm : Z;
  sl_pages : gmap Z header;
  cache_pool : list kmem_cache;
  kmalloc_caches : list nat
}.

Definition with_pmm p s := SlabState p (sl_hhdm s) (sl_pages s) (cache_pool s) (kmalloc_caches s).
Definition with_pages h s := SlabState (sl_pmm s) (sl_hhdm s) h (cache_pool s) (kmalloc_caches s).
Definition with_pool c s := SlabState (sl_pmm s) (sl_hhdm s) (sl_pages s) c (kmalloc_caches s).
Definition with_kmalloc k s := SlabState (sl_pmm s) (sl_hhdm s) (sl_pages s) (cache_pool s) k.

Definition set_sp_next v p := SlabPage v (sp_prev p) (sp_cache p) (sp_used p) (sp_capacity p) (sp_bitmap p).
Definition set_sp_prev v p := SlabPage (sp_next p) v (sp_cache p) (sp_used p) (sp_capacity p) (sp_bitmap p).
Definition set_used_bitmap u b p := SlabPage (sp_next p) (sp_prev p) (sp_cache p) u (sp_capacity p) b.

Definition set_partial v c := Cache (object_size c) (align c) (objects_per_slab c) v (full c) (alloc_count c) (free_count c).
Definition set_full v c := Cache (object_size c) (align c) (objects_per_slab c) (partial c) v (alloc_count c) (free_count c).
Definition set_per_slab v c := Cache (object_size c) (align c) v (partial c) (full c) (alloc_count c) (free_count c).
Definition count_alloc c := Cache (object_size c) (align c) (objects_per_slab c) (partial c) (full c) (u64 (alloc_count c + 1)) (free_count c).
Definition count_free c := Cache (object_size c) (align c) (objects_per_slab c) (partial c) (full c) (alloc_count c) (u64 (free_count c + 1)).

Definition phys_to_virt (pa : Z) (s : slab) : Z := add64 pa (sl_hhdm s).
Definition virt_to_phys (va : Z) (s : slab) : Z := sub64 va (sl_hhdm s).

Definition get_slab (p : Z) (s : slab) : outcome slab_page :=
  match sl_pages s !! p with Some (Slab sp) => Ok sp | _ => Fault end.
Definition upd_slab (p : Z) (f : slab_page → slab_page) (s : slab) : outcome slab :=
  sp ← get_slab p s; Ok (with_pages (<[p := Slab (f sp)]> (sl_pages s)) s).
Definition get_cache (c : nat) (s : slab) : outcome kmem_cache := deref (cache_pool s !! c).
Definition upd_cache (c : nat) (f : kmem_cache → kmem_cache) (s : slab) : outcome slab :=
  x ← get_cache c s; Ok (with_pool (<[c := f x]> (cache_pool s)) s).

(** ** Lists of slabs: a head is read and written through its cache *)

Definition list_remove (set : Z → kmem_cache → kmem_cache) (c : nat) (p : Z) (s : slab) : outcome slab :=
  sp ← get_slab p s;
  s ← (if negb (sp_prev sp =? 0) then upd_slab (sp_prev sp) (set_sp_next (sp_next sp)) s else upd_cache c (set (sp_next sp)) s);
  s ← (if negb (sp_next sp =? 0) then upd_slab (sp_next sp) (set_sp_prev (sp_prev sp)) s else Ok s);
  upd_slab p (λ sp, set_sp_next 0 (set_sp_prev 0 sp)) s.

Definition list_push (get : kmem_cache → Z) (set : Z → kmem_cache → kmem_cache) (c : nat) (p : Z) (s : slab) : outcome slab :=
  cc ← get_cache c s;
  let head := get cc in
  s ← upd_slab p (λ sp, set_sp_next head (set_sp_prev 0 sp)) s;
  s ← (if negb (head =? 0) then upd_slab head (set_sp_prev p) s else Ok s);
  upd_cache c (set p) s.

(** ** Caches *)

(** The address of the first object: [(base + sizeof(header) + align - 1) & ~(align - 1)]. *)
Definition first_object (p : Z) (c : kmem_cache) : Z :=
  let obj0 := add64 p slab_page_size in
  let a := if negb (align c =? 0) then align c else 8 in
  Z.ldiff (u64 (obj0 + a - 1)) (a - 1).

(** The frame of a page may be non-zero from now on. *)
Definition touch (pa : Z) (s : slab) : slab :=
  with_pmm (with_dirty ({[pa_to_pfn pa]} ∪ dirty (sl_pmm s)) (sl_pmm s)) s.

Definition new_slab (c : nat) (s : slab) : outcome (Z * slab) :=
  '(pa, pm) ← pmm_alloc_pages 0 (sl_pmm s);
  let s := with_pmm pm s in
  if pa =? 0 then Ok (0, s) else
  let p := phys_to_virt pa s in
  cc ← get_cache c s;
  let obj0 := sub64 (first_object p cc) p in
  let avail := sub64 PAGE_SIZE obj0 in
  let cap := avail / object_size cc in
  let cap := if cap >? SLAB_BITMAP_WORDS * 64 then SLAB_BITMAP_WORDS * 64 else cap in
  let s := with_pages (<[p := Slab (SlabPage 0 0 (Some c) 0 (u32 cap) (replicate 8 0))]> (sl_pages s)) (touch pa s) in
  s ← upd_cache c (set_per_slab cap) s;
  Ok (p, s).

(** [__builtin_ctzll] of a non-zero 64-bit value. *)
Fixpoint ctz_from (n : nat) (i v : Z) : Z :=
  match n with O => i | S n => if Z.testbit v i then i else ctz_from n (i + 1) v end.
Definition ctz (v : Z) : Z := ctz_from 64 0 v.

Definition ones64 : Z := 2 ^ 64 - 1.

(** The index of the bit that was clear, with the new bitmap. *)
Fixpoint alloc_bit (n : nat) (w : Z) (capacity : Z) (bitmap : list Z) : option (Z * list Z) :=
  match n with
  | O => None
  | S n =>
      let b := default 0 (bitmap !! Z.to_nat w) in
      if b =? ones64 then alloc_bit n (w + 1) capacity bitmap else
      let bit := ctz (Z.lxor b ones64) in
      let idx := w * 64 + bit in
      if idx >=? capacity then None else
      Some (idx, <[Z.to_nat w := b .| 1 .<< bit]> bitmap)
  end.

Definition alloc_in_slab (p : Z) (s : slab) : outcome (Z * slab) :=
  sp ← get_slab p s;
  match alloc_bit 8 0 (sp_capacity sp) (sp_bitmap sp) with
  | None => Ok (-1, s)
  | Some (idx, bm) => s ← upd_slab p (set_used_bitmap (u32 (sp_used sp + 1)) bm) s; Ok (idx, s)
  end.

Definition free_in_slab (p : Z) (idx : Z) (s : slab) : outcome slab :=
  sp ← get_slab p s;
  let w := idx / 64 in
  let bit := idx mod 64 in
  b ← deref (sp_bitmap sp !! Z.to_nat w);
  _ ← panic_if (negb (has b (1 .<< bit)));
  upd_slab p (set_used_bitmap (u32 (sp_used sp - 1)) (<[Z.to_nat w := Z.ldiff b (1 .<< bit)]> (sp_bitmap sp))) s.

Definition kmem_cache_create (size align : Z) (s : slab) : option nat * slab :=
  if Z.of_nat (length (cache_pool s)) >=? MAX_CACHES then (None, s) else
  let align := if align =? 0 then 8 else align in
  let size := Z.ldiff (u64 (size + align - 1)) (align - 1) in
  if size =? 0 then (None, s) else
  (Some (length (cache_pool s)), with_pool (cache_pool s ++ [Cache size align 0 0 0 0 0]) s).

(** An object of the slab at [p], which moves to the full ones with its last. *)
Definition take_object (c : nat) (cc : kmem_cache) (p : Z) (s : slab) : outcome (Z * slab) :=
  '(idx, s) ← alloc_in_slab p s;
  if idx <? 0 then Ok (0, s) else
  sp ← get_slab p s;
  s ← (if sp_used sp =? sp_capacity sp then
         s ← list_remove set_partial c p s; list_push full set_full c p s
       else Ok s);
  let obj := add64 (first_object p cc) (u64 (idx * object_size cc)) in
  s ← upd_cache c count_alloc s;
  Ok (obj, s).

Definition kmem_cache_alloc (c : nat) (s : slab) : outcome (Z * slab) :=
  cc ← get_cache c s;
  if partial cc =? 0 then
    '(p, s) ← new_slab c s;
    if p =? 0 then Ok (0, s) else
    s ← list_push partial set_partial c p s;
    take_object c cc p s
  else take_object c cc (partial cc) s.

(** Reading [sp->cache] of the page at [p]; [None] is NULL. *)
Definition cache_of (p : Z) (s : slab) : outcome (option nat) :=
  match sl_pages s !! p with
  | Some (Slab sp) => Ok (sp_cache sp)
  | Some (Large _ _ _) => Ok None
  | None => if decide (pa_to_pfn (virt_to_phys p s) ∈ dirty (sl_pmm s)) then Fault else Ok None
  end.

Definition kmem_cache_free (c : nat) (obj : Z) (s : slab) : outcome slab :=
  if obj =? 0 then Ok s else
  let p := Z.ldiff obj PAGE_MASK in
  owner ← cache_of p s;
  _ ← panic_if (negb (bool_decide (owner = Some c)));
  sp ← get_slab p s;
  cc ← get_cache c s;
  let off := sub64 obj (first_object p cc) in
  let idx := to_int32 (u32 (off / object_size cc)) in
  let was_full := sp_used sp =? sp_capacity sp in
  s ← free_in_slab p idx s;
  s ← upd_cache c count_free s;
  s ← (if was_full then s ← list_remove set_full c p s; list_push partial set_partial c p s else Ok s);
  sp ← get_slab p s;
  if sp_used sp =? 0 then
    s ← list_remove set_partial c p s;
    pm ← pmm_free_pages (virt_to_phys p s) 0 (sl_pmm s);
    Ok (with_pages (delete p (sl_pages s)) (with_pmm pm s))
  else Ok s.

(** ** kmalloc *)

Fixpoint init_classes (n : nat) (i : Z) (s : slab) : outcome slab :=
  match n with
  | O => Ok s
  | S n =>
      let sz := 1 .<< (i + KMALLOC_MIN_SHIFT) in
      let align := if sz <? 64 then sz else 64 in
      let '(c, s) := kmem_cache_create sz align s in
      match c with
      | None => Panic
      | Some c => init_classes n (i + 1) (with_kmalloc (kmalloc_caches s ++ [c]) s)
      end
  end.

Definition slab_init (s : slab) : outcome slab :=
  init_classes (Z.to_nat KMALLOC_NCLASSES) 0 (with_kmalloc [] (with_pool [] s)).

(** [while ((PAGE_SIZE << order) < req)]; [None] when the order is too large. *)
Fixpoint large_order (fuel : nat) (order req : Z) : option Z :=
  match fuel with
  | O => None
  | S fuel =>
      if PAGE_SIZE .<< order <? req then
        if order + 1 >=? PMM_MAX_ORDER then None else large_order fuel (order + 1) req
      else Some order
  end.

Definition large_alloc (size : Z) (s : slab) : outcome (Z * slab) :=
  if size + large_hdr_size >=? 2 ^ 64 then Ok (0, s) else
  match large_order 12 0 (size + large_hdr_size) with
  | None => Ok (0, s)
  | Some order =>
      '(pa, pm) ← pmm_alloc_pages order (sl_pmm s);
      let s := with_pmm pm s in
      if pa =? 0 then Ok (0, s) else
      let h := phys_to_virt pa s in
      let s := with_pages (<[h := Large PAGE_KIND_LARGE LARGE_MAGIC order]> (sl_pages s)) (touch pa s) in
      Ok (add64 h large_hdr_size, s)
  end.

Definition large_free (p : Z) (s : slab) : outcome slab :=
  let h := sub64 p large_hdr_size in
  match sl_pages s !! h with
  | Some (Large kind magic order) =>
      _ ← panic_if (negb (kind =? PAGE_KIND_LARGE) || negb (magic =? LARGE_MAGIC));
      pm ← pmm_free_pages (virt_to_phys h s) order (sl_pmm s);
      Ok (with_pages (delete h (sl_pages s)) (with_pmm pm s))
  | Some (Slab _) => Panic
  | None => Fault
  end.

Fixpoint class_shift (fuel : nat) (shift size : Z) : outcome Z :=
  match fuel with
  | O => NoFuel
  | S fuel => if 1 .<< shift <? size then class_shift fuel (shift + 1) size else Ok shift
  end.

Definition kmalloc (size : Z) (s : slab) : outcome (Z * slab) :=
  if size =? 0 then Ok (0, s) else
  if size >? 1 .<< KMALLOC_MAX_SHIFT then large_alloc size s else
  shift ← class_shift 12 KMALLOC_MIN_SHIFT size;
  c ← deref (kmalloc_caches s !! Z.to_nat (shift - KMALLOC_MIN_SHIFT));
  kmem_cache_alloc c s.

(** The bytes of objects are not part of the state, so that clearing them has no
    effect on it. *)
Definition kzalloc (size : Z) (s : slab) : outcome (Z * slab) := kmalloc size s.

(** The byte at the start of a page. *)
Definition page_kind (p : Z) (s : slab) : outcome Z :=
  match sl_pages s !! p with
  | Some (Slab _) => Ok PAGE_KIND_SLAB
  | Some (Large kind _ _) => Ok kind
  | None =>
      let pfn := pa_to_pfn (virt_to_phys p s) in
      if decide (pfn ∈ dirty (sl_pmm s)) then Fault else
      _ ← deref (pfn_table (sl_pmm s) !! pfn); Ok 0
  end.

Definition kfree (p : Z) (s : slab) : outcome slab :=
  if p =? 0 then Ok s else
  let page := Z.ldiff p PAGE_MASK in
  kind ← page_kind page s;
  if kind =? PAGE_KIND_LARGE then
    _ ← panic_if (negb (p =? add64 page large_hdr_size));
    large_free p s
  else if kind =? PAGE_KIND_SLAB then
    c ← cache_of page s;
    match c with
    | None => Panic
    | Some c => kmem_cache_free c p s
    end
  else Panic.
