(* ===== verification/SlabList.v ===== *)
(** * The lists of slabs

    Every cache has two lists of slabs, the partial and the full ones.  [links]
    says that the pages and the heads of the caches represent the lists [L];
    pushing and removing a page change one list and nothing but links. *)

From S2P Require Import Prelude Pmm Slab.

Definition hd0 (l : list Z) : Z := match l with [] => 0 | x :: _ => x end.

(** The list heads: [true] for the full slabs. *)
Definition sel (b : bool) : kmem_cache → Z := if b then full else partial.
Definition put (b : bool) : Z → kmem_cache → kmem_cache := if b then set_full else set_partial.

Fixpoint dll (M : gmap Z header) (prev : Z) (l : list Z) : Prop :=
  match l with
  | [] => True
  | p :: l => p ≠ 0 ∧ (∃ sp, M !! p = Some (Slab sp) ∧ sp_prev sp = prev ∧ sp_next sp = hd0 l) ∧ dll M p l
  end.

(** What is not a link. *)
Definition strip (h : header) : header :=
  match h with Slab sp => Slab (set_sp_next 0 (set_sp_prev 0 sp)) | Large k m o => Large k m o end.
Definition same_pages (M M' : gmap Z header) : Prop := ∀ p, strip <$> M' !! p = strip <$> M !! p.
Definition shape (c : kmem_cache) : Z * Z := (object_size c, align c).
Definition same_pool (pool pool' : list kmem_cache) : Prop := shape <$> pool' = shape <$> pool.

Abbreviation slists := (gmap (nat * bool) (list Z)).

Record links (M : gmap Z header) (pool : list kmem_cache) (L : slists) : Prop := {
  ln_some : ∀ c b, is_Some (L !! (c, b)) ↔ is_Some (pool !! c);
  ln_list : ∀ c b l cc, L !! (c, b) = Some l → pool !! c = Some cc → NoDup l ∧ sel b cc = hd0 l ∧ dll M 0 l;
  ln_disj : ∀ k k' l l' p, L !! k = Some l → L !! k' = Some l' → p ∈ l → p ∈ l' → k = k'
}.

Definition unlisted (L : slists) (p : Z) : Prop := ∀ k l, L !! k = Some l → p ∉ l.

Lemma dll_frame M M' prev l : dll M prev l → (∀ p, p ∈ l → M' !! p = M !! p) → dll M' prev l.
Proof.
  revert prev. induction l as [|p l IH]; intros prev; [done|]. intros (H0 & (sp & Hp & H1 & H2) & Hl) Hf. split; [done|]. split.
  - exists sp. rewrite Hf by left. done.
  - apply IH; [done|]. intros q Hq. apply Hf. by right.
Qed.

(** Updates that keep the links of a page. *)
Lemma dll_upd M prev l p sp f : dll M prev l → M !! p = Some (Slab sp) → sp_next (f sp) = sp_next sp → sp_prev (f sp) = sp_prev sp → dll (<[p := Slab (f sp)]> M) prev l.
Proof.
  intros Hl Hp E1 E2. revert prev Hl. induction l as [|q l IH]; intros prev; [done|]. intros (H0 & (sq & Hq & H1 & H2) & Hl). split; [done|]. split; [|by apply IH].
  destruct (decide (p = q)) as [->|Hne]; [|exists sq; by rewrite lookup_insert_ne]. rewrite Hp in Hq. injection Hq as <-. exists (f sp). rewrite lookup_insert_eq. split; [done|]. split; congruence.
Qed.

Lemma dll_in M prev l p : dll M prev l → p ∈ l → p ≠ 0 ∧ ∃ sp, M !! p = Some (Slab sp).
Proof.
  revert prev. induction l as [|q l IH]; intros prev; [by intros _ ?%elem_of_nil|]. intros (H0 & (sq & Hq & _) & Hl) [->|Hin]%elem_of_cons; [eauto|by eapply IH].
Qed.

(** The page at the head gets a new predecessor. *)
Lemma dll_reprev M prev prev' q l sq : dll M prev (q :: l) → q ∉ l → M !! q = Some (Slab sq) → dll (<[q := Slab (set_sp_prev prev' sq)]> M) prev' (q :: l).
Proof.
  intros (H0 & (sp & Hq & H1 & H2) & Hl) Hn E. rewrite Hq in E. injection E as <-. split; [done|]. split.
  - exists (set_sp_prev prev' sp). rewrite lookup_insert_eq. done.
  - eapply dll_frame; [exact Hl|]. intros p Hp. rewrite lookup_insert_ne; [done|]. by intros ->.
Qed.

Lemma same_pages_upd M p sp f : M !! p = Some (Slab sp) → strip (Slab (f sp)) = strip (Slab sp) → same_pages M (<[p := Slab (f sp)]> M).
Proof. intros Hp E q. destruct (decide (p = q)) as [->|]; [rewrite lookup_insert_eq, Hp; simpl; by f_equal|by rewrite lookup_insert_ne]. Qed.

Lemma same_pages_trans M M1 M2 : same_pages M M1 → same_pages M1 M2 → same_pages M M2.
Proof. intros H1 H2 p. by rewrite H2, H1. Qed.

Lemma same_pages_slab M M' p sp : same_pages M M' → M !! p = Some (Slab sp) → ∃ sp', M' !! p = Some (Slab sp') ∧ strip (Slab sp') = strip (Slab sp).
Proof. intros Hs Hp. specialize (Hs p). rewrite Hp in Hs. destruct (M' !! p) as [[sp'|]|]; [|discriminate Hs..]. exists sp'. split; [done|]. exact (Some_inj _ _ Hs). Qed.

Lemma upd_cache_pool c f s cc : cache_pool s !! c = Some cc → upd_cache c f s = Ok (with_pool (<[c := f cc]> (cache_pool s)) s).
Proof. intros E. unfold upd_cache, get_cache. by rewrite E. Qed.

Lemma upd_slab_page p f s sp : sl_pages s !! p = Some (Slab sp) → upd_slab p f s = Ok (with_pages (<[p := Slab (f sp)]> (sl_pages s)) s).
Proof. intros E. unfold upd_slab, get_slab. by rewrite E. Qed.

Lemma shape_insert pool c cc cc' : pool !! c = Some cc → shape cc' = shape cc → same_pool pool (<[c := cc']> pool).
Proof.
  intros Hc E. unfold same_pool. rewrite list_fmap_insert, E. apply list_insert_id. by rewrite list_lookup_fmap, Hc.
Qed.

Lemma sel_put b v cc : sel b (put b v cc) = v ∧ (∀ b', b' ≠ b → sel b' (put b v cc) = sel b' cc) ∧ shape (put b v cc) = shape cc.
Proof. by destruct b; (split; [done|]; split; [intros []|]). Qed.

(** The rest of the state. *)
Definition same_sys (s s' : slab) : Prop := sl_pmm s' = sl_pmm s ∧ sl_hhdm s' = sl_hhdm s ∧ kmalloc_caches s' = kmalloc_caches s.

(** The lists after one of them changed: the other lists keep their pages. *)
Lemma links_change M pool L c b l l' M' cc : links M pool L → L !! (c, b) = Some l → pool !! c = Some cc →
  NoDup l' → dll M' 0 l' → (∀ p, p ∉ l → p ∉ l' → M' !! p = M !! p) → (∀ p, p ∈ l' → p ∈ l ∨ unlisted L p) →
  links M' (<[c := put b (hd0 l') cc]> pool) (<[(c, b) := l']> L).
Proof.
  intros [Hs Hl Hd] El Ec Hn Hdll Hf Hnew. assert (c < length pool)%nat as Hlt by by eapply lookup_lt_Some. destruct (sel_put b (hd0 l') cc) as (P1 & P2 & _). constructor.
  - intros c' b'. destruct (decide ((c, b) = (c', b'))) as [[= <- <-]|Hne].
    + rewrite lookup_insert_eq, list_lookup_insert_eq by done. split; eauto.
    + rewrite lookup_insert_ne by done. rewrite Hs. destruct (decide (c = c')) as [->|]; [rewrite list_lookup_insert_eq by done; rewrite Ec; split; eauto|by rewrite list_lookup_insert_ne].
  - intros c' b' k cc' Ek Ec'. destruct (decide ((c, b) = (c', b'))) as [[= <- <-]|Hne].
    + rewrite lookup_insert_eq in Ek. injection Ek as <-. rewrite list_lookup_insert_eq in Ec' by done. injection Ec' as <-. done.
    + rewrite lookup_insert_ne in Ek by done. assert (∃ c0, pool !! c' = Some c0 ∧ sel b' cc' = sel b' c0) as (c0 & Ec0 & Esel).
      { destruct (decide (c = c')) as [->|Hc].
        - rewrite list_lookup_insert_eq in Ec' by done. injection Ec' as <-. exists cc. split; [done|]. apply P2. congruence.
        - rewrite list_lookup_insert_ne in Ec' by done. by exists cc'. }
      destruct (Hl c' b' k c0 Ek Ec0) as (N & Hh & Hk). split; [done|]. split; [congruence|]. eapply dll_frame; [exact Hk|]. intros p Hp. apply Hf.
      * intros Hpl. by specialize (Hd _ _ _ _ p El Ek Hpl Hp).
      * intros Hpl. destruct (Hnew p Hpl) as [Hpl2|Hu]; [by specialize (Hd _ _ _ _ p El Ek Hpl2 Hp)|by apply (Hu _ _ Ek)].
  - assert (∀ k m p, k ≠ (c, b) → L !! k = Some m → p ∈ m → p ∉ l') as Hx.
    { intros k m p Hk Em Hp Hpl. destruct (Hnew p Hpl) as [Hpl2|Hu]; [by specialize (Hd _ _ _ _ p El Em Hpl2 Hp)|by apply (Hu _ _ Em)]. }
    intros k k' m m' p. rewrite !lookup_insert_Some. intros [[<- <-]|[Hk Hm]] [[<- <-]|[Hk' Hm']] Hp Hp'; [done| | |by eapply Hd].
    + destruct (Hx k' m' p ltac:(congruence) Hm' Hp' Hp).
    + destruct (Hx k m p ltac:(congruence) Hm Hp Hp').
Qed.

Lemma slab_push_spec b c p s L l cc sp : links (sl_pages s) (cache_pool s) L → L !! (c, b) = Some l → cache_pool s !! c = Some cc →
  sl_pages s !! p = Some (Slab sp) → p ≠ 0 → unlisted L p →
  ∃ s', list_push (sel b) (put b) c p s = Ok s' ∧ same_sys s s' ∧ same_pages (sl_pages s) (sl_pages s') ∧ cache_pool s' = <[c := put b p cc]> (cache_pool s) ∧
    links (sl_pages s') (cache_pool s') (<[(c, b) := p :: l]> L).
Proof.
  intros HL El Ec Ep Hp0 Hu. destruct (ln_list _ _ _ HL c b l cc El Ec) as (N & Hh & Hl). pose proof (Hu _ _ El) as Hpl.
  unfold list_push. unfold get_cache at 1. rewrite Ec. cbn [deref mbind outcome_bind]. rewrite Hh. rewrite (upd_slab_page p _ s sp Ep). cbn [mbind outcome_bind].
  set (M1 := <[p := _]> (sl_pages s)). set (s1 := with_pages M1 s).
  assert (∃ M2, (if negb (hd0 l =? 0) then upd_slab (hd0 l) (set_sp_prev p) s1 else Ok s1) = Ok (with_pages M2 s) ∧ same_pages (sl_pages s) M2 ∧ dll M2 0 (p :: l) ∧
    ∀ q, q ∉ l → q ∉ p :: l → M2 !! q = sl_pages s !! q) as (M2 & -> & Hs2 & Hd2 & Hf2).
  { assert (same_pages (sl_pages s) M1) as Hs1 by by apply (same_pages_upd _ _ sp (λ sp, set_sp_next (hd0 l) (set_sp_prev 0 sp))).
    assert (dll M1 0 l) as Hl1 by (eapply dll_frame; [exact Hl|]; intros q Hq; apply lookup_insert_ne; by intros ->).
    destruct l as [|q l].
    - exists M1. split; [done|]. split; [done|]. split; [|intros q _ Hq; apply lookup_insert_ne; set_solver]. split; [done|]. split; [|done]. eexists. unfold M1. by rewrite lookup_insert_eq.
    - pose proof Hl1 as (Hq0 & (sq & Eq & _) & _). cbn [hd0]. rewrite (proj2 (Z.eqb_neq _ _) Hq0). cbn [negb]. rewrite (upd_slab_page q _ s1 sq Eq).
      exists (<[q := Slab (set_sp_prev p sq)]> M1). apply NoDup_cons in N as [Nq _]. assert (p ≠ q) by set_solver. split; [done|]. split.
      { eapply same_pages_trans; [exact Hs1|]. by apply (same_pages_upd _ _ sq (set_sp_prev p)). }
      split; [|intros r _ Hr; unfold M1; rewrite !lookup_insert_ne by set_solver; done]. split; [done|]. split; [|by apply (dll_reprev M1 0 p)].
      eexists. rewrite lookup_insert_ne by done. unfold M1. rewrite lookup_insert_eq. done. }
  cbn [mbind outcome_bind]. rewrite (upd_cache_pool c _ (with_pages M2 s) cc Ec). eexists. split; [done|]. split; [done|]. split; [done|]. split; [done|]. cbn.
  apply (links_change (sl_pages s) (cache_pool s) L c b l (p :: l) M2 cc HL El Ec); [by constructor|done|done|]. intros q [->|?]%elem_of_cons; [by right|by left].
Qed.

Lemma last_cons_eq (q : Z) l prev : List.last l q = List.last (q :: l) prev.
Proof. revert q prev. induction l as [|r l IH]; intros q prev; [done|]. rewrite <- (IH r q). exact (IH r prev). Qed.

(** Taking a page out of the middle of a list. *)
Lemma dll_split M prev l1 p l2 : dll M prev (l1 ++ p :: l2) → ∃ sp, M !! p = Some (Slab sp) ∧ p ≠ 0 ∧ sp_next sp = hd0 l2 ∧ sp_prev sp = List.last l1 prev ∧ dll M p l2.
Proof.
  revert prev. induction l1 as [|q l1 IH]; intros prev.
  - intros (H0 & (sp & Hp & H1 & H2) & Hl). exists sp. done.
  - intros (H0 & (sq & Hq & H1 & H2) & Hl). destruct (IH q Hl) as (sp & E & E0 & E1 & E2 & E3). exists sp. split; [done|]. split; [done|]. split; [done|]. split; [|done].
    rewrite E2. apply last_cons_eq.
Qed.

Lemma dll_next M prev l1 p l2 q sp : dll M prev (l1 ++ p :: l2) → NoDup (l1 ++ p :: l2) → q ∈ l1 → M !! q = Some (Slab sp) → sp_next sp = p ↔ q = List.last l1 prev.
Proof.
  revert prev. induction l1 as [|r l1 IH]; intros prev; [by intros _ _ ?%elem_of_nil|]. intros (_ & (sr & Er & _ & Hnx) & Hl) [Nr N]%NoDup_cons Hq Eq. fold (l1 ++ p :: l2) in *.
  rewrite <- last_cons_eq. apply elem_of_cons in Hq as [->|Hq].
  - rewrite Er in Eq. injection Eq as <-. rewrite Hnx. destruct l1 as [|r2 l1]; [done|]. split.
    + intros E. simpl in E. subst r2. apply NoDup_cons in N as [N _]. set_solver.
    + intros E. exfalso. apply Nr. rewrite E. apply elem_of_app. left. destruct (exists_last (l := r2 :: l1)) as (l3 & x & E2); [done|]. rewrite E2, last_last. set_solver.
  - by apply IH.
Qed.

Lemma dll_prev M p l q sp : dll M p l → NoDup (p :: l) → q ∈ l → M !! q = Some (Slab sp) → sp_prev sp = p ↔ q = hd0 l.
Proof.
  destruct l as [|r l]; [by intros _ _ ?%elem_of_nil|]. intros (_ & (sr & Er & Hpr & _) & Hl) N Hq Eq. apply elem_of_cons in Hq as [->|Hq].
  - rewrite Er in Eq. injection Eq as <-. done.
  - apply NoDup_cons in N as [Np [Nr N]%NoDup_cons]. split; [|intros ->; done]. intros E. exfalso.
    assert (∀ l' r', dll M r' l' → q ∈ l' → sp_prev sp = r' ∨ sp_prev sp ∈ l') as Hx.
    { clear -Eq. induction l' as [|x l' IH]; intros r' Hd Hin; [by apply elem_of_nil in Hin|]. destruct Hd as (_ & (sx & Ex & E1 & _) & Hd). apply elem_of_cons in Hin as [->|Hin].
      - rewrite Ex in Eq. injection Eq as <-. by left.
      - right. destruct (IH x Hd Hin) as [->|?]; [by left|by right]. }
    apply Np. rewrite <- E. destruct (Hx l r Hl Hq) as [->|E2]; [left|by right].
Qed.

Lemma dll_rem_head M M' p prev l : dll M p l → NoDup (p :: l) →
  (∀ q sp, q ∈ l → M !! q = Some (Slab sp) → ∃ sp', M' !! q = Some (Slab sp') ∧ sp_next sp' = sp_next sp ∧ sp_prev sp' = if decide (q = hd0 l) then prev else sp_prev sp) → dll M' prev l.
Proof.
  destruct l as [|r l]; [done|]. intros (H0 & (sr & Er & _ & Hn) & Hl) N Hm. split; [done|]. apply NoDup_cons in N as [_ [Nr N]%NoDup_cons]. split.
  - destruct (Hm r sr ltac:(left) Er) as (sp' & E' & E1 & E2). exists sp'. rewrite decide_True in E2 by done. split; [done|]. split; [done|congruence].
  - assert (∀ q sp, q ∈ l → M !! q = Some (Slab sp) → ∃ sp', M' !! q = Some (Slab sp') ∧ sp_next sp' = sp_next sp ∧ sp_prev sp' = sp_prev sp) as Hm2.
    { intros q sp Hq Eq. destruct (Hm q sp ltac:(by right) Eq) as (sp' & E' & E1 & E2). exists sp'. rewrite decide_False in E2 by (simpl; intros ->; done). done. }
    clear -Hl Hm2. revert r Hl. induction l as [|x l IH]; intros r; [done|]. intros (H0 & (sx & Ex & E1 & E2) & Hl). split; [done|]. split.
    + destruct (Hm2 x sx ltac:(left) Ex) as (sp' & E' & E3 & E4). exists sp'. split; [done|]. split; congruence.
    + apply IH; [|done]. intros q sp Hq. apply Hm2. by right.
Qed.

Lemma dll_rem M M' prev l1 p l2 : dll M prev (l1 ++ p :: l2) → NoDup (l1 ++ p :: l2) →
  (∀ q sp, q ∈ l1 → M !! q = Some (Slab sp) → ∃ sp', M' !! q = Some (Slab sp') ∧ sp_prev sp' = sp_prev sp ∧ sp_next sp' = if decide (sp_next sp = p) then hd0 l2 else sp_next sp) →
  (∀ q sp, q ∈ l2 → M !! q = Some (Slab sp) → ∃ sp', M' !! q = Some (Slab sp') ∧ sp_next sp' = sp_next sp ∧ sp_prev sp' = if decide (q = hd0 l2) then List.last l1 prev else sp_prev sp) →
  dll M' prev (l1 ++ l2).
Proof.
  revert prev. induction l1 as [|r l1 IH]; intros prev.
  - intros (_ & _ & Hl) N _ H2. by apply (dll_rem_head M M' p prev l2).
  - intros (H0 & (sr & Er & Hp & Hn) & Hl) [Nr N]%NoDup_cons H1 H2. fold (l1 ++ p :: l2) in *. split; [done|]. split.
    + destruct (H1 r sr ltac:(left) Er) as (sp' & E' & E1 & E2). exists sp'. split; [done|]. split; [congruence|]. rewrite E2. destruct l1 as [|r2 l1]; [by rewrite decide_True|].
      rewrite decide_False; [done|]. rewrite Hn. simpl. apply NoDup_cons in N as [N _]. set_solver.
    + apply IH; [done|done| |].
      * intros q sp Hq. apply H1. by right.
      * intros q sp Hq Eq. destruct (H2 q sp Hq Eq) as (sp' & E1 & E2 & E3). exists sp'. by rewrite last_cons_eq with (prev := prev).
Qed.

Lemma put_sel b cc : put b (sel b cc) cc = cc.
Proof. by destruct b, cc. Qed.

Lemma last_in (l : list Z) d : l ≠ [] → List.last l d ∈ l.
Proof. intros Hne. destruct (exists_last Hne) as (l' & x & ->). rewrite last_last. set_solver. Qed.

(** The three updates of [list_remove]. *)
Lemma remove_pred b c l1 p l2 s cc : let r := List.last l1 0 in cache_pool s !! c = Some cc → sel b cc = hd0 (l1 ++ p :: l2) → dll (sl_pages s) 0 (l1 ++ p :: l2) →
  ∃ M1, (if negb (r =? 0) then upd_slab r (set_sp_next (hd0 l2)) s else upd_cache c (put b (hd0 l2)) s) =
      Ok (with_pool (<[c := put b (hd0 (l1 ++ l2)) cc]> (cache_pool s)) (with_pages M1 s)) ∧ same_pages (sl_pages s) M1 ∧
    (∀ q, q ∉ l1 → M1 !! q = sl_pages s !! q) ∧
    ∀ q sq, q ∈ l1 → sl_pages s !! q = Some (Slab sq) → M1 !! q = Some (Slab (if decide (q = r) then set_sp_next (hd0 l2) sq else sq)).
Proof.
  intros r Ec Hh Hl. destruct (decide (l1 = [])) as [->|Hne].
  - exists (sl_pages s). subst r. cbn [List.last Z.eqb negb app]. rewrite (upd_cache_pool c _ s cc Ec). split; [by destruct s|]. split; [done|]. split; [done|]. by intros q sq ?%elem_of_nil.
  - pose proof (last_in l1 0 Hne) as Hr. fold r in Hr. destruct (dll_in _ _ _ r Hl) as (Hr0 & sr & Er); [apply elem_of_app; by left|].
    rewrite (proj2 (Z.eqb_neq _ _) Hr0). cbn [negb]. rewrite (upd_slab_page r _ s sr Er). exists (<[r := Slab (set_sp_next (hd0 l2) sr)]> (sl_pages s)). split.
    + assert (hd0 (l1 ++ l2) = sel b cc) as -> by (rewrite Hh; by destruct l1). rewrite put_sel, list_insert_id by done. by destruct s.
    + split; [by apply (same_pages_upd _ _ sr (set_sp_next (hd0 l2)))|]. split; [intros q Hq; apply lookup_insert_ne; by intros ->|]. intros q sq Hq Eq. case_decide as D.
      * subst q. rewrite Er in Eq. injection Eq as <-. by rewrite lookup_insert_eq.
      * by rewrite lookup_insert_ne.
Qed.

Lemma remove_succ r p l2 s : dll (sl_pages s) p l2 →
  ∃ M2, (if negb (hd0 l2 =? 0) then upd_slab (hd0 l2) (set_sp_prev r) s else Ok s) = Ok (with_pages M2 s) ∧ same_pages (sl_pages s) M2 ∧
    (∀ q, q ∉ l2 → M2 !! q = sl_pages s !! q) ∧
    ∀ q sq, q ∈ l2 → sl_pages s !! q = Some (Slab sq) → M2 !! q = Some (Slab (if decide (q = hd0 l2) then set_sp_prev r sq else sq)).
Proof.
  intros Hl. destruct l2 as [|x l2].
  - exists (sl_pages s). split; [by destruct s|]. split; [done|]. split; [done|]. by intros q sq ?%elem_of_nil.
  - pose proof Hl as (Hx0 & (sx & Ex & _) & _). cbn [hd0]. rewrite (proj2 (Z.eqb_neq _ _) Hx0). cbn [negb]. rewrite (upd_slab_page x _ s sx Ex).
    exists (<[x := Slab (set_sp_prev r sx)]> (sl_pages s)). split; [done|]. split; [by apply (same_pages_upd _ _ sx (set_sp_prev r))|]. split; [intros q Hq; apply lookup_insert_ne; set_solver|].
    intros q sq Hq Eq. case_decide as D; [subst q; rewrite Ex in Eq; injection Eq as <-; by rewrite lookup_insert_eq|by rewrite lookup_insert_ne].
Qed.

Lemma slab_remove_spec b c p s L l1 l2 cc : links (sl_pages s) (cache_pool s) L → L !! (c, b) = Some (l1 ++ p :: l2) → cache_pool s !! c = Some cc →
  ∃ s', list_remove (put b) c p s = Ok s' ∧ same_sys s s' ∧ same_pages (sl_pages s) (sl_pages s') ∧ cache_pool s' = <[c := put b (hd0 (l1 ++ l2)) cc]> (cache_pool s) ∧
    links (sl_pages s') (cache_pool s') (<[(c, b) := l1 ++ l2]> L) ∧ unlisted (<[(c, b) := l1 ++ l2]> L) p.
Proof.
  intros HL El Ec. destruct (ln_list _ _ _ HL c b _ cc El Ec) as (N & Hh & Hl). destruct (dll_split _ _ _ _ _ Hl) as (sp & Ep & Hp0 & Hnx & Hpv & Hl2).
  pose proof N as (N1 & Nd & [Np N2]%NoDup_cons)%NoDup_app. assert (p ∉ l1) as Np1 by (intros Hx; apply (Nd p Hx); left).
  assert (∀ q, q ∈ l1 → q ∉ l2) as Nd2 by (intros q Hq Hq2; apply (Nd q Hq); by right).
  unfold list_remove. unfold get_slab at 1. rewrite Ep. cbn [mbind outcome_bind]. rewrite Hnx, Hpv.
  destruct (remove_pred b c l1 p l2 s cc Ec Hh Hl) as (M1 & -> & S1 & F1 & G1). cbn [mbind outcome_bind]. set (s1 := with_pool _ _).
  destruct (remove_succ (List.last l1 0) p l2 s1) as (M2 & -> & S2 & F2 & G2).
  { eapply dll_frame; [exact Hl2|]. intros q Hq. apply F1. intros Hq1. by apply (Nd2 q). }
  change (sl_pages s1) with M1 in *. cbn [mbind outcome_bind]. assert (M2 !! p = Some (Slab sp)) as Ep2 by by rewrite F2, F1.
  rewrite (upd_slab_page p _ (with_pages M2 s1) sp Ep2). set (M3 := <[p := Slab (set_sp_next 0 (set_sp_prev 0 sp))]> M2). exists (with_pages M3 s1). split; [done|]. split; [done|].
  assert (same_pages (sl_pages s) M3) as S3.
  { eapply same_pages_trans; [exact S1|]. eapply same_pages_trans; [exact S2|]. by apply (same_pages_upd _ _ sp (λ sp, set_sp_next 0 (set_sp_prev 0 sp))). }
  split; [exact S3|]. split; [done|]. cbn.
  assert (∀ q, q ≠ p → M3 !! q = M2 !! q) as F3 by (intros q Hq; by apply lookup_insert_ne).
  split.
  - apply (links_change (sl_pages s) (cache_pool s) L c b (l1 ++ p :: l2) (l1 ++ l2) M3 cc HL El Ec).
    + apply NoDup_app. split; [done|]. split; [exact Nd2|done].
    + apply (dll_rem (sl_pages s) M3 0 l1 p l2 Hl N).
      * intros q sq Hq Eq. rewrite F3 by (by intros ->). rewrite F2 by by apply Nd2. rewrite (G1 q sq Hq Eq). eexists. split; [done|].
        pose proof (dll_next _ _ _ _ _ q sq Hl N Hq Eq) as Hi. destruct (decide (q = List.last l1 0)) as [D|D].
        -- rewrite decide_True by by apply Hi. done.
        -- rewrite decide_False by (intros X; by apply D, Hi). done.
      * intros q sq Hq Eq. rewrite F3 by (by intros ->). rewrite (G2 q sq Hq); [|rewrite F1; [done|intros Hq1; by apply (Nd2 q)]]. eexists. split; [done|]. by case_decide.
    + intros q Hq _. assert (q ≠ p ∧ q ∉ l1 ∧ q ∉ l2) as (Q1 & Q2 & Q3) by set_solver. by rewrite F3, F2, F1.
    + intros q Hq. left. set_solver.
  - intros k l Hk. apply lookup_insert_Some in Hk as [[_ <-]|[Hne Hk]]; [set_solver|]. intros Hp. destruct Hne.
    eapply (ln_disj _ _ _ HL); [exact El|exact Hk| |exact Hp]. set_solver.
Qed.
