(* ===== verification/SlabSpec.v ===== *)
(** * The caches

    A slab hands out the objects whose bits are set; [slab_inv] ties pages,
    lists, bitmaps and the frames of the page allocator together, and every
    operation keeps it. *)

From S2P Require Import Prelude Pmm PmmList PmmSpec PmmAlloc PmmInit PmmSystem Slab SlabList.

(** ** Bitmaps *)

Definition bm_ok (bm : list Z) : Prop := length bm = 8%nat ∧ Forall (λ w, 0 ≤ w < 2 ^ 64) bm.

(** Bit [i] of the bitmap. *)
Definition tk (bm : list Z) (i : Z) : bool := Z.testbit (default 0 (bm !! Z.to_nat (i / 64))) (i mod 64).

Lemma ctz_from_spec v n i : 0 ≤ i → (∃ j, i ≤ j < i + Z.of_nat n ∧ Z.testbit v j = true) →
  i ≤ ctz_from n i v < i + Z.of_nat n ∧ Z.testbit v (ctz_from n i v) = true ∧ ∀ j, i ≤ j < ctz_from n i v → Z.testbit v j = false.
Proof.
  revert i. induction n as [|n IH]; intros i Hi (j & Hj & Hb); [lia|]. cbn [ctz_from]. destruct (Z.testbit v i) eqn:E.
  - split; [lia|]. split; [done|lia].
  - destruct (IH (i + 1)) as (H1 & H2 & H3); [lia|exists j; split; [|done]; destruct (decide (j = i)) as [->|]; [congruence|lia]|]. split; [lia|]. split; [done|].
    intros k Hk. destruct (decide (k = i)) as [->|]; [done|apply H3; lia].
Qed.

Lemma word_bits w : 0 ≤ w < 2 ^ 64 → ∀ j, 64 ≤ j → Z.testbit w j = false.
Proof.
  intros Hw j Hj. destruct (decide (w = 0)) as [->|]; [apply Z.bits_0|]. apply Z.bits_above_log2; [lia|]. assert (Z.log2 w < 64); [|lia]. apply Z.log2_lt_pow2; lia.
Qed.

Lemma ones64_bits j : 0 ≤ j < 64 → Z.testbit ones64 j = true.
Proof. intros Hj. change ones64 with (Z.ones 64). by apply Z.ones_spec_low. Qed.

Lemma full_word w : 0 ≤ w < 2 ^ 64 → w ≠ ones64 → ∃ j, 0 ≤ j < 64 ∧ Z.testbit (Z.lxor w ones64) j = true.
Proof.
  intros Hw Hne. destruct (decide (Forall (λ j, Z.testbit w j = true) (seqZ 0 64))) as [F|F].
  - destruct Hne. apply Z.bits_inj'. intros j Hj. destruct (decide (j < 64)).
    + rewrite ones64_bits by lia. rewrite Forall_forall in F. apply F. apply elem_of_seqZ. lia.
    + rewrite word_bits by lia. symmetry. change ones64 with (Z.ones 64). apply Z.ones_spec_high. lia.
  - apply not_Forall_Exists in F; [|apply _]. apply Exists_exists in F as (j & Hj%elem_of_seqZ & Hb). exists j. split; [lia|]. rewrite Z.lxor_spec, ones64_bits by lia.
    apply not_true_iff_false in Hb. by rewrite Hb.
Qed.

(** Setting or clearing one bit of one word. *)
Lemma word_range w i b : 0 ≤ w < 2 ^ 64 → 0 ≤ i < 64 → 0 ≤ (if (b : bool) then Z.lor w (Z.shiftl 1 i) else Z.ldiff w (Z.shiftl 1 i)) < 2 ^ 64.
Proof.
  intros Hw Hi. set (v := if b then _ else _). assert (0 ≤ v) as Hv.
  { destruct b; [apply Z.lor_nonneg; split; [lia|apply Z.shiftl_nonneg; lia]|apply Z.ldiff_nonneg; lia]. }
  split; [done|]. destruct (decide (v = 0)) as [->|]; [lia|]. apply Z.log2_lt_pow2; [lia|]. apply Z.lt_nge. intros Hg.
  assert (Z.testbit v (Z.log2 v) = true) as Hb by (apply Z.bit_log2; lia). destruct b; subst v.
  - rewrite Z.shiftl_1_l in *. rewrite Z.lor_spec, word_bits, Z.pow2_bits_eqb in Hb by lia. rewrite orb_false_l in Hb. apply Z.eqb_eq in Hb. lia.
  - rewrite Z.ldiff_spec, word_bits in Hb by lia. done.
Qed.

Lemma word_bit w i b j : 0 ≤ i → 0 ≤ j → Z.testbit (if (b : bool) then Z.lor w (Z.shiftl 1 i) else Z.ldiff w (Z.shiftl 1 i)) j = if decide (j = i) then b else Z.testbit w j.
Proof.
  intros Hi Hj. rewrite Z.shiftl_1_l. destruct b; rewrite ?Z.lor_spec, ?Z.ldiff_spec, Z.pow2_bits_eqb by lia; case_decide; subst; rewrite ?Z.eqb_refl, ?(proj2 (Z.eqb_neq i j)) by lia; destruct (Z.testbit w _); done.
Qed.

Lemma tk_insert bm w i b j : bm_ok bm → 0 ≤ w < 8 → 0 ≤ i < 64 → 0 ≤ j < 512 → let v := default 0 (bm !! Z.to_nat w) in
  tk (<[Z.to_nat w := if (b : bool) then Z.lor v (Z.shiftl 1 i) else Z.ldiff v (Z.shiftl 1 i)]> bm) j = if decide (j = w * 64 + i) then b else tk bm j.
Proof.
  intros [HL _] Hw Hi Hj v. unfold tk. pose proof (Z.div_mod j 64 ltac:(lia)). pose proof (Z.mod_pos_bound j 64 ltac:(lia)). destruct (decide (j / 64 = w)) as [E|E].
  - rewrite E, list_lookup_insert_eq by lia. cbn [default from_option id]. rewrite word_bit by lia. repeat case_decide; try done; lia.
  - rewrite list_lookup_insert_ne by lia. rewrite decide_False; [done|]. intros ->. rewrite Z.div_add_l, Z.div_small in E by lia. lia.
Qed.

Lemma insert_bm_ok bm w i b : bm_ok bm → 0 ≤ w < 8 → 0 ≤ i < 64 → let v := default 0 (bm !! Z.to_nat w) in
  bm_ok (<[Z.to_nat w := if (b : bool) then Z.lor v (Z.shiftl 1 i) else Z.ldiff v (Z.shiftl 1 i)]> bm).
Proof.
  intros [HL F] Hw Hi v. split; [by rewrite length_insert|]. apply Forall_insert; [done|]. apply word_range; [|done]. unfold v.
  destruct (bm !! Z.to_nat w) as [x|] eqn:E; [|simpl; lia]. rewrite Forall_lookup in F. by apply (F _ _ E).
Qed.

Lemma alloc_bit_spec bm cap : bm_ok bm → 0 ≤ cap ≤ 512 → ∀ n w, 0 ≤ w → w + Z.of_nat n = 8 → (∀ i, 0 ≤ i < 64 * w → tk bm i = true) →
  match alloc_bit n w cap bm with
  | None => ∀ i, 0 ≤ i < cap → tk bm i = true
  | Some (idx, bm') => 0 ≤ idx < cap ∧ tk bm idx = false ∧ bm_ok bm' ∧ ∀ i, 0 ≤ i < 512 → tk bm' i = if decide (i = idx) then true else tk bm i
  end.
Proof.
  intros Hbm Hcap. induction n as [|n IH]; intros w Hw Hn Hlow; cbn [alloc_bit]; [intros i Hi; apply Hlow; lia|].
  pose proof Hbm as [HL HF]. set (b := default 0 (bm !! Z.to_nat w)). assert (0 ≤ b < 2 ^ 64) as Hb.
  { unfold b. destruct (bm !! Z.to_nat w) as [x|] eqn:E; [|simpl; lia]. rewrite Forall_lookup in HF. by apply (HF _ _ E). }
  assert (∀ i, 0 ≤ i < 64 → tk bm (w * 64 + i) = Z.testbit b i) as Htk.
  { intros i Hi. unfold tk. rewrite Z.div_add_l, Z.div_small, Z.add_0_r by lia. rewrite Z.add_comm, Z.mod_add, Z.mod_small by lia. done. }
  destruct (Z.eqb_spec b ones64) as [E|E].
  - apply IH; [lia|lia|]. intros i Hi. destruct (decide (i < 64 * w)); [apply Hlow; lia|]. replace i with (w * 64 + (i - w * 64)) by lia. rewrite Htk, E by lia. apply ones64_bits. lia.
  - destruct (full_word b Hb E) as (j & Hj & Hbj). destruct (ctz_from_spec (Z.lxor b ones64) 64 0 ltac:(lia) ltac:(exists j; split; [lia|done])) as (C1 & C2 & C3). fold (ctz (Z.lxor b ones64)) in *.
    set (bit := ctz (Z.lxor b ones64)) in *. assert (Z.testbit b bit = false) as Hfree by (rewrite Z.lxor_spec, ones64_bits in C2 by lia; by destruct (Z.testbit b bit)).
    assert (∀ i, 0 ≤ i < bit → Z.testbit b i = true) as Hset by (intros i Hi; specialize (C3 i Hi); rewrite Z.lxor_spec, ones64_bits in C3 by lia; by destruct (Z.testbit b i)).
    destruct (Z.geb_spec (w * 64 + bit) cap) as [Hge|Hlt].
    + intros i Hi. destruct (decide (i < 64 * w)); [apply Hlow; lia|]. replace i with (w * 64 + (i - w * 64)) by lia. rewrite Htk by lia. apply Hset. lia.
    + split; [lia|]. split; [by rewrite Htk by lia|]. split; [apply (insert_bm_ok bm w bit true); [done|lia|lia]|]. intros i Hi. apply (tk_insert bm w bit true i); [done|lia|lia|lia].
Qed.

(** How many of the first [cap] objects are handed out. *)
Definition cnt (bm : list Z) (cap : Z) : Z := Z.of_nat (length (filter (λ i, tk bm i = true) (seqZ 0 cap))).

Lemma cnt_flip bm bm' cap idx b : 0 ≤ idx < cap → tk bm idx = negb b → (∀ i, 0 ≤ i < cap → tk bm' i = if decide (i = idx) then b else tk bm i) →
  cnt bm' cap = cnt bm cap + if b then 1 else -1.
Proof.
  intros Hi Ho Hn. unfold cnt. assert (idx ∈ seqZ 0 cap) as Hin by (apply elem_of_seqZ; lia). pose proof (NoDup_seqZ 0 cap) as N.
  assert (∀ i, i ∈ seqZ 0 cap → 0 ≤ i < cap) as Hr by (intros i Hs%elem_of_seqZ; lia). revert Hin N Hr. generalize (seqZ 0 cap). intros l Hin N Hr.
  apply list_elem_of_split in Hin as (l1 & l2 & ->). apply NoDup_app in N as (_ & Nd & [N2 _]%NoDup_cons). assert (idx ∉ l1) as N1 by (intros X; apply (Nd idx X); left).
  assert (∀ l, idx ∉ l → (∀ i, i ∈ l → 0 ≤ i < cap) → length (filter (λ i, tk bm' i = true) l) = length (filter (λ i, tk bm i = true) l)) as Heq.
  { clear -Hn. induction l as [|x l IH]; intros Hx Hl; [done|]. rewrite !filter_cons. rewrite Hn by (apply Hl; left). apply not_elem_of_cons in Hx as [Hx1 Hx]. rewrite (decide_False (P := x = idx)) by congruence.
    specialize (IH Hx (λ i Hi, Hl i (proj2 (elem_of_cons _ _ _) (or_intror Hi)))). case_decide; simpl; lia. }
  rewrite !filter_app, !length_app, !filter_cons. rewrite (Heq l1) by (done || (intros i Hx; apply Hr; rewrite elem_of_app, elem_of_cons; tauto)).
  pose proof (Heq l2 N2 ltac:(intros i Hx; apply Hr; rewrite elem_of_app, elem_of_cons; tauto)) as H2. rewrite Hn, Ho by lia. rewrite (decide_True (P := idx = idx)) by done.
  destruct b; simpl; repeat case_decide; simpl; try lia; done.
Qed.

Lemma cnt_range bm cap : 0 ≤ cap → 0 ≤ cnt bm cap ≤ cap.
Proof. intros Hc. unfold cnt. pose proof (length_filter (λ i, tk bm i = true) (seqZ 0 cap)) as H. rewrite length_seqZ in H. lia. Qed.

Lemma cnt_full bm cap : (∀ i, 0 ≤ i < cap → tk bm i = true) → 0 ≤ cap → cnt bm cap = cap.
Proof.
  intros H Hc. unfold cnt. assert (∀ i, i ∈ seqZ 0 cap → tk bm i = true) as Hl by (intros i Hi%elem_of_seqZ; apply H; lia).
  assert (length (filter (λ i, tk bm i = true) (seqZ 0 cap)) = length (seqZ 0 cap)) as ->; [|rewrite length_seqZ; lia].
  induction (seqZ 0 cap) as [|x l IH]; [done|]. rewrite filter_cons, decide_True by (apply Hl; left). simpl. f_equal. apply IH. intros i Hi. apply Hl. by right.
Qed.

Lemma cnt_zero bm cap i : cnt bm cap = 0 → 0 ≤ i < cap → tk bm i = false.
Proof.
  intros H Hi. destruct (tk bm i) eqn:E; [|done]. unfold cnt in H. assert (i ∈ filter (λ i, tk bm i = true) (seqZ 0 cap)) as Hin by (apply list_elem_of_filter; split; [done|apply elem_of_seqZ; lia]).
  destruct (filter _ _); [by apply elem_of_nil in Hin|simpl in H; lia].
Qed.

(** ** Geometry of a slab *)

Lemma ldiff_low v k : 0 ≤ k → Z.ldiff v (2 ^ k - 1) = v - v mod 2 ^ k.
Proof.
  intros Hk. rewrite Z.sub_1_r, <- Z.ones_equiv, Z.ldiff_ones_r by done. rewrite Z.shiftl_mul_pow2, Z.shiftr_div_pow2 by done.
  assert (2 ^ k ≠ 0) by (apply Z.pow_nonzero; lia). pose proof (Z.div_mod v (2 ^ k)). lia.
Qed.

Definition obj_off (cc : kmem_cache) : Z := 103 + align cc - (103 + align cc) mod align cc.
Definition cap_of (cc : kmem_cache) : Z := Z.min 512 ((4096 - obj_off cc) / object_size cc).

Record cache_ok (cc : kmem_cache) : Prop := {
  co_align : ∃ k, 0 ≤ k ≤ 6 ∧ align cc = 2 ^ k;
  co_size : 0 < object_size cc ∧ (align cc | object_size cc);
  co_fits : obj_off cc + object_size cc ≤ 4096
}.

Lemma obj_off_range cc : cache_ok cc → 104 ≤ obj_off cc < 168 ∧ (align cc | obj_off cc).
Proof.
  intros [(k & Hk & Ea) _ _]. unfold obj_off. assert (1 ≤ align cc ≤ 64) as Hr.
  { rewrite Ea. split; [assert (0 < 2 ^ k) by (apply Z.pow_pos_nonneg; lia); lia|]. change 64 with (2 ^ 6). apply Z.pow_le_mono_r; lia. }
  pose proof (Z.mod_pos_bound (103 + align cc) (align cc) ltac:(lia)). split; [lia|]. exists ((103 + align cc) / align cc). pose proof (Z.div_mod (103 + align cc) (align cc)). lia.
Qed.

Lemma cap_range cc : cache_ok cc → 1 ≤ cap_of cc ≤ 512 ∧ obj_off cc + cap_of cc * object_size cc ≤ 4096.
Proof.
  intros H. pose proof (obj_off_range cc H) as [Ho _]. destruct H as [_ [Hs _] Hf]. unfold cap_of.
  assert (1 ≤ (4096 - obj_off cc) / object_size cc) by (apply Z.div_le_lower_bound; lia). pose proof (Z.mul_div_le (4096 - obj_off cc) (object_size cc) ltac:(lia)). split; [lia|]. nia.
Qed.

(** A page of the kernel's window on physical memory. *)
Definition page_at (p : Z) : Prop := 0 < p ∧ p + 4096 ≤ 2 ^ 64 ∧ (4096 | p).

Lemma first_object_eq p cc : page_at p → cache_ok cc → first_object p cc = p + obj_off cc.
Proof.
  intros (H0 & H1 & [m ->]) [(k & Hk & Ea) _ _]. unfold first_object, obj_off, slab_page_size. assert (1 ≤ align cc ≤ 64) as Hr.
  { rewrite Ea. split; [assert (0 < 2 ^ k) by (apply Z.pow_pos_nonneg; lia); lia|]. change 64 with (2 ^ 6). apply Z.pow_le_mono_r; lia. }
  rewrite (proj2 (Z.eqb_neq (align cc) 0)) by lia. cbn [negb]. rewrite add64_small by lia. unfold u64. rewrite Z.mod_small by lia. rewrite Ea, ldiff_low by lia.
  assert (2 ^ (12 - k) * 2 ^ k = 4096) as E12 by (rewrite <- Z.pow_add_r by lia; by replace (12 - k + k) with 12 by lia).
  replace (m * 4096 + 104 + 2 ^ k - 1) with (103 + 2 ^ k + (m * 2 ^ (12 - k)) * 2 ^ k).
  2: { rewrite <- Z.mul_assoc, E12. lia. }
  rewrite Z.mod_add by (apply Z.pow_nonzero; lia). rewrite <- (Z.mul_assoc m), E12. lia.
Qed.

Lemma page_of p a : page_at p → p ≤ a < p + 4096 → Z.ldiff a PAGE_MASK = p.
Proof. intros (_ & _ & [m ->]) Ha. rewrite ldiff_page_mask. replace (a mod 4096) with (a - m * 4096); [lia|]. apply Z.mod_unique with m; lia. Qed.

(** ** The invariant *)

Definition order_of (h : header) : Z := match h with Slab _ => 0 | Large _ _ o => o end.
Definition va (s : slab) (x : Z) : Z := sl_hhdm s + x * 4096.

Record sp_ok (pool : list kmem_cache) (sp : slab_page) (c : nat) (cc : kmem_cache) : Prop := {
  sk_cache : sp_cache sp = Some c;
  sk_pool : pool !! c = Some cc;
  sk_cap : sp_capacity sp = cap_of cc;
  sk_bm : bm_ok (sp_bitmap sp);
  sk_used : sp_used sp = cnt (sp_bitmap sp) (cap_of cc)
}.

(** Only the pages in [E] may be empty. *)
Definition hdr_ok (E : Z → Prop) (pool : list kmem_cache) (p : Z) (h : header) : Prop :=
  match h with
  | Slab sp => ∃ c cc, sp_ok pool sp c cc ∧ (0 < sp_used sp ∨ E p)
  | Large k m o => k = PAGE_KIND_LARGE ∧ m = LARGE_MAGIC ∧ 0 ≤ o < PMM_MAX_ORDER
  end.

Definition in_list (M : gmap Z header) (c : nat) (b : bool) (p : Z) : Prop :=
  ∃ sp, M !! p = Some (Slab sp) ∧ sp_cache sp = Some c ∧ (sp_used sp =? sp_capacity sp) = b.

Record slab_inv (E : Z → Prop) (s : slab) (B : gmap Z Z) (H : gmap Z Z) (L : slists) : Prop := {
  si_world : world_ok (World (sl_pmm s) H) B;
  si_hhdm : 0 < sl_hhdm s ∧ (4096 | sl_hhdm s) ∧ sl_hhdm s + pfn_count (sl_pmm s) * 4096 ≤ 2 ^ 64;
  si_pages : ∀ p h, sl_pages s !! p = Some h → ∃ x, p = va s x ∧ H !! x = Some (order_of h);
  si_held : ∀ x o, H !! x = Some o → is_Some (sl_pages s !! va s x);
  si_caches : ∀ c cc, cache_pool s !! c = Some cc → cache_ok cc;
  si_hdr : ∀ p h, sl_pages s !! p = Some h → hdr_ok E (cache_pool s) p h;
  si_links : links (sl_pages s) (cache_pool s) L;
  si_mem : ∀ c b l p, L !! (c, b) = Some l → p ∈ l ↔ in_list (sl_pages s) c b p
}.

Lemma inv_page E s B H L p h : slab_inv E s B H L → sl_pages s !! p = Some h → page_at p ∧ ∃ x, p = va s x ∧ H !! x = Some (order_of h) ∧ 0 < x ∧ x + 2 ^ order_of h ≤ pfn_count (sl_pmm s) ∧ x * 4096 + sl_hhdm s ≤ 2 ^ 64.
Proof.
  intros I Hp. destruct (si_pages _ _ _ _ _ I p h Hp) as (x & -> & Hx). destruct (si_hhdm _ _ _ _ _ I) as (H0 & [m Em] & H1).
  destruct (wo_block _ _ (si_world _ _ _ _ _ I) x _ Hx) as (Hx0 & [Ho _ _ He] & _). cbn [w_pmm] in He. pose proof (pow_pos (order_of h) ltac:(lia)) as Hpow. unfold va. split; [split; [lia|]; split; [lia|]; exists (m + x); lia|].
  exists x. split; [done|]. split; [done|]. split; [done|]. split; [done|]. lia.
Qed.

Lemma shape_lookup pool pool' c cc : same_pool pool pool' → pool !! c = Some cc → ∃ cc', pool' !! c = Some cc' ∧ shape cc' = shape cc.
Proof.
  intros Hs Hc. assert ((shape <$> pool') !! c = Some (shape cc)) as E by (rewrite Hs, list_lookup_fmap, Hc; done). rewrite list_lookup_fmap in E.
  destruct (pool' !! c) as [cc'|]; [|done]. exists cc'. split; [done|]. exact (Some_inj _ _ E).
Qed.

Lemma shape_geometry cc cc' : shape cc' = shape cc → obj_off cc' = obj_off cc ∧ cap_of cc' = cap_of cc ∧ object_size cc' = object_size cc ∧ align cc' = align cc.
Proof. intros E. injection E as E1 E2. unfold cap_of, obj_off. by rewrite E1, E2. Qed.

Lemma shape_ok cc cc' : shape cc' = shape cc → cache_ok cc → cache_ok cc'.
Proof. intros Hs [H1 H2 H3]. destruct (shape_geometry _ _ Hs) as (G1 & _ & G3 & G4). constructor; rewrite ?G1, ?G3, ?G4; done. Qed.

Lemma strip_slab sp sp' : strip (Slab sp') = strip (Slab sp) → sp_cache sp' = sp_cache sp ∧ sp_used sp' = sp_used sp ∧ sp_capacity sp' = sp_capacity sp ∧ sp_bitmap sp' = sp_bitmap sp.
Proof. intros [= ? ? ? ?]. done. Qed.

Lemma same_pages_sym M M' : same_pages M M' → same_pages M' M.
Proof. intros Hs p. by rewrite Hs. Qed.

Lemma same_pages_inv M M' p h' : same_pages M M' → M' !! p = Some h' → ∃ h, M !! p = Some h ∧ strip h' = strip h.
Proof. intros Hs Hp. specialize (Hs p). rewrite Hp in Hs. destruct (M !! p) as [h|]; [|discriminate Hs]. exists h. split; [done|]. exact (Some_inj _ _ Hs). Qed.

Lemma sp_ok_shape pool pool' sp sp' c cc : same_pool pool pool' → strip (Slab sp') = strip (Slab sp) → sp_ok pool sp c cc → ∃ cc', sp_ok pool' sp' c cc' ∧ shape cc' = shape cc.
Proof.
  intros Hs Hst [K1 K2 K3 K4 K5]. destruct (strip_slab _ _ Hst) as (E1 & E2 & E3 & E4). destruct (shape_lookup _ _ _ _ Hs K2) as (cc' & Hc & Hsh). exists cc'. split; [|done].
  destruct (shape_geometry _ _ Hsh) as (_ & G2 & _). constructor; rewrite ?G2; congruence.
Qed.

Lemma hdr_ok_shape E pool pool' p h h' : same_pool pool pool' → strip h' = strip h → hdr_ok E pool p h → hdr_ok E pool' p h'.
Proof.
  intros Hs Hst. destruct h as [sp|k m o], h' as [sp'|k' m' o']; try discriminate Hst; [|by injection Hst as -> -> ->]. intros (c & cc & K & Hu). destruct (sp_ok_shape _ _ _ _ _ _ Hs Hst K) as (cc' & K' & _).
  exists c, cc'. split; [done|]. by rewrite (proj1 (proj2 (strip_slab _ _ Hst))).
Qed.

Lemma in_list_same M M' c b p : same_pages M M' → in_list M' c b p ↔ in_list M c b p.
Proof.
  assert (∀ M M', same_pages M M' → in_list M c b p → in_list M' c b p) as Hx.
  { intros N N' Hs (sp & Hp & Hc & Hb). destruct (same_pages_slab _ _ _ _ Hs Hp) as (sp' & Hp' & Hst). destruct (strip_slab _ _ Hst) as (E1 & E2 & E3 & _). exists sp'. split; [done|]. split; [congruence|]. by rewrite E2, E3. }
  intros Hs. split; [apply Hx; by apply same_pages_sym|by apply Hx].
Qed.

(** ** The objects handed out: address and size *)

Definition hobj (pool : list kmem_cache) (p : Z) (h : header) (a n : Z) : Prop :=
  match h with
  | Slab sp => ∃ c cc i, sp_cache sp = Some c ∧ pool !! c = Some cc ∧ 0 ≤ i < cap_of cc ∧ tk (sp_bitmap sp) i = true ∧
      a = p + obj_off cc + i * object_size cc ∧ n = object_size cc
  | Large _ _ o => a = p + 56 ∧ n = 4096 * 2 ^ o - 56
  end.
Definition objs_in (M : gmap Z header) (pool : list kmem_cache) (a n : Z) : Prop := ∃ p h, M !! p = Some h ∧ hobj pool p h a n.
Definition objs (s : slab) : Z → Z → Prop := objs_in (sl_pages s) (cache_pool s).

Lemma same_pool_sym pool pool' : same_pool pool pool' → same_pool pool' pool.
Proof. unfold same_pool. done. Qed.

Lemma hobj_same pool pool' p h h' a n : same_pool pool pool' → strip h' = strip h → hobj pool p h a n → hobj pool' p h' a n.
Proof.
  intros Hs Hst. destruct h as [sp|k m o], h' as [sp'|k' m' o']; try discriminate Hst; [|by injection Hst as -> -> ->]. destruct (strip_slab _ _ Hst) as (E1 & _ & _ & E4).
  intros (c & cc & i & Hc & Hp & Hi & Ht & -> & ->). destruct (shape_lookup _ _ _ _ Hs Hp) as (cc' & Hp' & Hsh). destruct (shape_geometry _ _ Hsh) as (G1 & G2 & G3 & _).
  exists c, cc', i. rewrite E1, E4, G1, G2, G3. done.
Qed.

Lemma objs_same M M' pool pool' a n : same_pages M M' → same_pool pool pool' → objs_in M' pool' a n ↔ objs_in M pool a n.
Proof.
  assert (∀ M M' pool pool', same_pages M M' → same_pool pool pool' → objs_in M pool a n → objs_in M' pool' a n) as Hx.
  { intros N N' q q' Hs Hp (p & h & Hh & Ho). destruct (same_pages_inv _ _ _ _ (same_pages_sym _ _ Hs) Hh) as (h' & Hh' & Hst). exists p, h'. split; [done|]. by eapply hobj_same. }
  intros Hs Hp. split; [apply Hx; [by apply same_pages_sym|by apply same_pool_sym]|by apply Hx].
Qed.

(** One page changes. *)
Lemma reassemble E E' s s' B H L L' p sp sp1 : slab_inv E s B H L → sl_pages s !! p = Some (Slab sp) →
  same_pages (<[p := Slab sp1]> (sl_pages s)) (sl_pages s') → same_pool (cache_pool s) (cache_pool s') → same_sys s s' → links (sl_pages s') (cache_pool s') L' →
  hdr_ok E' (cache_pool s) p (Slab sp1) → (∀ q, q ≠ p → E q → E' q) →
  (∀ c b l q, L' !! (c, b) = Some l → q ∈ l ↔ in_list (<[p := Slab sp1]> (sl_pages s)) c b q) →
  slab_inv E' s' B H L'.
Proof.
  intros [I1 I2 I3 I4 I5 I6 I7 I8] Hp Hs Hpool (S1 & S2 & S3) HL Hok HE Hmem. unfold va in *. constructor; rewrite ?S1, ?S2; try done.
  - intros q h Hq. destruct (same_pages_inv _ _ _ _ Hs Hq) as (h0 & Hq0 & Hst). assert (order_of h = order_of h0) as -> by (destruct h, h0; try discriminate Hst; [done|]; by injection Hst).
    unfold va. rewrite S2. destruct (decide (p = q)) as [<-|]; [rewrite lookup_insert_eq in Hq0; injection Hq0 as <-; apply (I3 p (Slab sp) Hp)|]. rewrite lookup_insert_ne in Hq0 by done. by apply I3.
  - intros x o Hx. unfold va. rewrite S2. specialize (Hs (sl_hhdm s + x * 4096)). destruct (I4 x o Hx) as [h Hh]. destruct (sl_pages s' !! _); [done|].
    destruct (decide (p = sl_hhdm s + x * 4096)) as [Ep|]; [by rewrite <- Ep, lookup_insert_eq in Hs|]. by rewrite lookup_insert_ne, Hh in Hs.
  - intros c cc Hc. destruct (shape_lookup _ _ _ _ (same_pool_sym _ _ Hpool) Hc) as (cc0 & Hc0 & Hsh). eapply shape_ok; [by symmetry|by eapply I5].
  - intros q h Hq. destruct (same_pages_inv _ _ _ _ Hs Hq) as (h0 & Hq0 & Hst). eapply hdr_ok_shape; [exact Hpool|exact Hst|]. destruct (decide (p = q)) as [<-|Hne].
    + rewrite lookup_insert_eq in Hq0. by injection Hq0 as <-.
    + rewrite lookup_insert_ne in Hq0 by done. specialize (I6 q h0 Hq0). destruct h0 as [sq|]; [|done]. destruct I6 as (c & cc & K & Hu). exists c, cc. split; [done|]. destruct Hu; [by left|right; apply HE; [by intros ->|done]].
  - intros c b l q Hl. rewrite (Hmem c b l q Hl). symmetry. by apply in_list_same.
Qed.

Lemma slab_links_upd M pool L p sp f : links M pool L → M !! p = Some (Slab sp) → sp_next (f sp) = sp_next sp → sp_prev (f sp) = sp_prev sp → links (<[p := Slab (f sp)]> M) pool L.
Proof.
  intros [L1 L2 L3] Hp E1 E2. constructor; [done| |done]. intros c b l cc Hl Hc. destruct (L2 c b l cc Hl Hc) as (N & Hh & Hd). split; [done|]. split; [done|]. by apply dll_upd.
Qed.

Lemma links_pool M pool L c cc f : links M pool L → pool !! c = Some cc → (∀ b, sel b (f cc) = sel b cc) → links M (<[c := f cc]> pool) L.
Proof.
  intros [L1 L2 L3] Hc Hf. assert (c < length pool)%nat by by eapply lookup_lt_Some. constructor; [|  |done].
  - intros c' b. rewrite L1. destruct (decide (c = c')) as [<-|]; [rewrite list_lookup_insert_eq, Hc by done; split; eauto|by rewrite list_lookup_insert_ne].
  - intros c' b l cc' Hl Hc'. destruct (decide (c = c')) as [<-|].
    + rewrite list_lookup_insert_eq in Hc' by done. injection Hc' as <-. rewrite Hf. by apply L2 with c.
    + rewrite list_lookup_insert_ne in Hc' by done. by apply (L2 c').
Qed.

Lemma in_list_insert M p sp1 c b q : in_list (<[p := Slab sp1]> M) c b q ↔ (if decide (q = p) then sp_cache sp1 = Some c ∧ (sp_used sp1 =? sp_capacity sp1) = b else in_list M c b q).
Proof.
  unfold in_list. case_decide as D.
  - subst. rewrite lookup_insert_eq. split; [by intros (sp & [= <-] & ?)|]. intros ?. by exists sp1.
  - by rewrite lookup_insert_ne by congruence.
Qed.

(** The lists after page [p] of cache [c] moved from one list to the other. *)
Lemma moved_mem (M : gmap Z header) (L : slists) p sp1 c b l1 l2 l' : (∀ c b l q, L !! (c, b) = Some l → q ∈ l ↔ in_list M c b q) →
  L !! (c, b) = Some (l1 ++ p :: l2) → L !! (c, negb b) = Some l' → NoDup (l1 ++ p :: l2) → sp_cache sp1 = Some c → (sp_used sp1 =? sp_capacity sp1) = negb b →
  ∀ c0 b0 l q, <[(c, negb b) := p :: l']> (<[(c, b) := l1 ++ l2]> L) !! (c0, b0) = Some l → q ∈ l ↔ in_list (<[p := Slab sp1]> M) c0 b0 q.
Proof.
  intros Hm Hl Hl' N Hc Hb c0 b0 l q. rewrite in_list_insert. assert (p ∉ l1 ++ l2) as Np.
  { apply NoDup_app in N as (_ & Nd & [N2 _]%NoDup_cons). rewrite elem_of_app. intros [X|X]; [|done]. apply (Nd p X). left. }
  assert (in_list M c b p) as Hin by (apply (Hm _ _ _ _ Hl); set_solver).
  assert (∀ c1 b1, in_list M c1 b1 p → c1 = c ∧ b1 = b) as Huniq.
  { intros c1 b1 (sp & E & E1 & E2). destruct Hin as (sp' & E' & E1' & E2'). rewrite E in E'. injection E' as <-. split; congruence. }
  rewrite !lookup_insert_Some. intros [[[= <- <-] <-]|[Hne [[[= <- <-] <-]|[Hne2 El]]]].
  - case_decide as D; [subst; split; [done|left]|]. rewrite elem_of_cons, (Hm _ _ _ _ Hl'). split; [by intros [?|?]|by right].
  - case_decide as D; [subst; split; [done|intros [_ X]; rewrite Hb in X; by destruct b]|]. rewrite <- (Hm _ _ _ _ Hl). set_solver.
  - case_decide as D; [|by apply Hm]. subst. split.
    + intros Hq. apply (Hm _ _ _ _ El) in Hq. destruct (Huniq _ _ Hq) as [-> ->]. done.
    + intros [E1 E2]. rewrite Hc in E1. injection E1 as <-. rewrite Hb in E2. subst. done.
Qed.

Lemma sel_count cc b : sel b (count_alloc cc) = sel b cc ∧ sel b (count_free cc) = sel b cc.
Proof. by destruct b. Qed.

Lemma same_pool_trans pool pool1 pool2 : same_pool pool pool1 → same_pool pool1 pool2 → same_pool pool pool2.
Proof. unfold same_pool. congruence. Qed.

Lemma lists_of s E B H L c cc : slab_inv E s B H L → cache_pool s !! c = Some cc → ∃ lp lf, L !! (c, false) = Some lp ∧ L !! (c, true) = Some lf.
Proof.
  intros I Hc. destruct (proj2 (ln_some _ _ _ (si_links _ _ _ _ _ I) c false)) as [lp ?]; [eauto|]. destruct (proj2 (ln_some _ _ _ (si_links _ _ _ _ _ I) c true)) as [lf ?]; [eauto|]. eauto.
Qed.

(** Moving a page to the other list of its cache. *)
Lemma move_spec b s L c cc p sp l1 l2 l' : links (sl_pages s) (cache_pool s) L → cache_pool s !! c = Some cc → sl_pages s !! p = Some (Slab sp) →
  L !! (c, b) = Some (l1 ++ p :: l2) → L !! (c, negb b) = Some l' →
  ∃ s', (s ← list_remove (put b) c p s; list_push (sel (negb b)) (put (negb b)) c p s) = Ok s' ∧ same_sys s s' ∧ same_pages (sl_pages s) (sl_pages s') ∧ same_pool (cache_pool s) (cache_pool s') ∧
    links (sl_pages s') (cache_pool s') (<[(c, negb b) := p :: l']> (<[(c, b) := l1 ++ l2]> L)).
Proof.
  intros HL Hc Hp El El'. destruct (slab_remove_spec b c p s L l1 l2 cc HL El Hc) as (s1 & -> & (S1 & S2 & S3) & P1 & C1 & L1 & U1). cbn [mbind outcome_bind].
  assert (c < length (cache_pool s))%nat as Hlt by by eapply lookup_lt_Some. destruct (same_pages_slab _ _ _ _ P1 Hp) as (sp1 & Hp1 & _).
  destruct (ln_list _ _ _ HL c b _ cc El Hc) as (_ & _ & Hd). assert (p ≠ 0) as Hp0 by (eapply dll_in; [exact Hd|set_solver]).
  destruct (slab_push_spec (negb b) c p s1 (<[(c, b) := l1 ++ l2]> L) l' (put b (hd0 (l1 ++ l2)) cc) sp1 L1) as (s2 & -> & (T1 & T2 & T3) & P2 & C2 & L2); [|by rewrite C1, list_lookup_insert_eq|done|done|done|].
  { rewrite lookup_insert_ne; [done|]. intros [= E]. by destruct b. }
  exists s2. split; [done|]. split; [split; [congruence|]; split; congruence|]. split; [by eapply same_pages_trans|]. split; [|done]. rewrite C2, C1, list_insert_insert_eq.
  apply (shape_insert _ _ cc _ Hc). by destruct b.
Qed.

(** What changes in the objects when one page does. *)
Lemma objs_insert M pool p sp sp1 a n : M !! p = Some (Slab sp) → objs_in (<[p := Slab sp1]> M) pool a n ↔ hobj pool p (Slab sp1) a n ∨ ∃ q h, q ≠ p ∧ M !! q = Some h ∧ hobj pool q h a n.
Proof.
  intros Hp. unfold objs_in. split.
  - intros (q & h & Hq & Ho). destruct (decide (q = p)) as [->|Hne]; [rewrite lookup_insert_eq in Hq; injection Hq as <-; by left|]. rewrite lookup_insert_ne in Hq by done. right. by exists q, h.
  - intros [Ho|(q & h & Hne & Hq & Ho)]; [exists p, (Slab sp1); by rewrite lookup_insert_eq|]. exists q, h. by rewrite lookup_insert_ne.
Qed.

Lemma objs_flip M pool p sp c cc i b bm u : M !! p = Some (Slab sp) → sp_cache sp = Some c → pool !! c = Some cc → 0 < object_size cc → 0 ≤ i < cap_of cc → cap_of cc ≤ 512 →
  tk (sp_bitmap sp) i = negb b → (∀ j, 0 ≤ j < 512 → tk bm j = if decide (j = i) then b else tk (sp_bitmap sp) j) → (b = false → ∀ q h n, M !! q = Some h → q ≠ p → ¬ hobj pool q h (p + obj_off cc + i * object_size cc) n) →
  ∀ a n, objs_in (<[p := Slab (set_used_bitmap u bm sp)]> M) pool a n ↔
    if b then objs_in M pool a n ∨ a = p + obj_off cc + i * object_size cc ∧ n = object_size cc else objs_in M pool a n ∧ a ≠ p + obj_off cc + i * object_size cc.
Proof.
  intros Hp Hc Hpool Hsz Hi Hcap Ho Hn Hother a n. rewrite (objs_insert M pool p sp) by done.
  assert (objs_in M pool a n ↔ hobj pool p (Slab sp) a n ∨ ∃ q h, q ≠ p ∧ M !! q = Some h ∧ hobj pool q h a n) as HM by (rewrite <- (insert_id M p (Slab sp) Hp) at 1; by apply (objs_insert M pool p sp)).
  assert (∀ bm', hobj pool p (Slab (set_used_bitmap u bm' sp)) a n ↔ ∃ j, 0 ≤ j < cap_of cc ∧ tk bm' j = true ∧ a = p + obj_off cc + j * object_size cc ∧ n = object_size cc) as Hbm.
  { intros bm'. cbn [hobj set_used_bitmap sp_cache sp_bitmap]. split.
    - intros (c' & cc' & j & E & E2 & Hj). rewrite Hc in E. injection E as <-. rewrite Hpool in E2. injection E2 as <-. by exists j.
    - intros (j & Hj). by exists c, cc, j. }
  assert (hobj pool p (Slab sp) a n ↔ ∃ j, 0 ≤ j < cap_of cc ∧ tk (sp_bitmap sp) j = true ∧ a = p + obj_off cc + j * object_size cc ∧ n = object_size cc) as Hsp.
  { rewrite <- Hbm. done. }
  destruct b; rewrite HM, Hbm, Hsp.
  - split.
    + intros [(j & Hj & Ht & Ha)|Hq]; [|by left; right]. rewrite Hn in Ht by lia. case_decide; [subst j; by right|]. left. left. by exists j.
    + intros [[(j & Hj & Ht & Ha)|Hq]|[-> ->]]; [left; exists j; rewrite Hn by lia; case_decide; done|by right|]. left. exists i. rewrite Hn, decide_True by lia. done.
  - split.
    + intros [(j & Hj & Ht & Ha & ->)|(q & h & Hne & Hq & Hh)].
      * rewrite Hn in Ht by lia. case_decide; [done|]. split; [left; by exists j|]. rewrite Ha. nia.
      * split; [right; by exists q, h|]. intros ->. by apply (Hother eq_refl q h n).
    + intros [[(j & Hj & Ht & Ha & ->)|Hq] Hne]; [|by right]. left. exists j. rewrite Hn by lia. rewrite decide_False; [done|]. intros ->. done.
Qed.

(** An object lies in its page, behind the header. *)
Lemma hobj_range E s B H L q h a n : slab_inv E s B H L → sl_pages s !! q = Some h → hobj (cache_pool s) q h a n →
  q + 56 ≤ a ∧ 0 < n ∧ a + n ≤ q + 4096 * 2 ^ order_of h ∧ (∀ sp, h = Slab sp → q + 104 ≤ a).
Proof.
  intros I Hq Ho. pose proof (si_hdr _ _ _ _ _ I q h Hq) as Hok. destruct h as [sp|k m o].
  - destruct Ho as (c & cc & i & Hc & Hpool & Hi & _ & -> & ->). pose proof (si_caches _ _ _ _ _ I _ _ Hpool) as Hco. pose proof (cap_range cc Hco) as [_ Hend]. pose proof (obj_off_range cc Hco) as [Hoff _].
    pose proof (co_size _ Hco) as [Hsz _]. cbn [order_of]. change (2 ^ 0) with 1. split; [nia|]. split; [done|]. split; [nia|]. intros. nia.
  - destruct Ho as [-> ->]. destruct Hok as (_ & _ & Ho). cbn [order_of]. pose proof (pow_pos o ltac:(lia)). split; [lia|]. split; [lia|]. split; [lia|]. intros sp [=].
Qed.

(** Two pages have no common byte. *)
Lemma pages_apart E s B H L p h q h' : slab_inv E s B H L → sl_pages s !! p = Some h → sl_pages s !! q = Some h' → p ≠ q → p + 4096 * 2 ^ order_of h ≤ q ∨ q + 4096 * 2 ^ order_of h' ≤ p.
Proof.
  intros I Hp Hq Hne. destruct (inv_page _ _ _ _ _ _ _ I Hp) as (_ & x & -> & Hx & _). destruct (inv_page _ _ _ _ _ _ _ I Hq) as (_ & y & -> & Hy & _). unfold va in *.
  destruct (wo_disj _ _ (si_world _ _ _ _ _ I) x _ y _ Hx Hy) as [?|?]; [intros ->; done|left; lia|right; lia].
Qed.

Lemma hobj_other E s B H L p h q h' a n' : slab_inv E s B H L → sl_pages s !! p = Some h → sl_pages s !! q = Some h' → q ≠ p → p ≤ a < p + 4096 * 2 ^ order_of h → ¬ hobj (cache_pool s) q h' a n'.
Proof.
  intros I Hp Hq Hne Ha Ho. destruct (hobj_range _ _ _ _ _ _ _ _ _ I Hq Ho) as (H1 & H2 & H3 & _). destruct (pages_apart _ _ _ _ _ _ _ _ _ I Hq Hp Hne); lia.
Qed.

Lemma get_slab_eq p s sp : sl_pages s !! p = Some (Slab sp) → get_slab p s = Ok sp.
Proof. intros E. unfold get_slab. by rewrite E. Qed.

Lemma take_spec E s B H L c cc cc0 p l : slab_inv E s B H L → cache_pool s !! c = Some cc → shape cc0 = shape cc → L !! (c, false) = Some (p :: l) → (∀ q, E q → q = p) →
  ∃ s' L' i, take_object c cc0 p s = Ok (p + obj_off cc + i * object_size cc, s') ∧ slab_inv (λ _, False) s' B H L' ∧ 0 ≤ i < cap_of cc ∧ same_sys s s' ∧ same_pool (cache_pool s) (cache_pool s') ∧
    (∀ a n, objs s' a n ↔ objs s a n ∨ a = p + obj_off cc + i * object_size cc ∧ n = object_size cc) ∧ ¬ objs s (p + obj_off cc + i * object_size cc) (object_size cc).
Proof.
  intros I Hc Hsh Hl HE. assert (in_list (sl_pages s) c false p) as (sp & Hp & Hsc & Hnf) by (apply (si_mem _ _ _ _ _ I _ _ _ _ Hl); left).
  destruct (si_hdr _ _ _ _ _ I p _ Hp) as (c' & cc' & [K1 K2 K3 K4 K5] & _). rewrite Hsc in K1. injection K1 as <-. rewrite Hc in K2. injection K2 as <-.
  pose proof (si_caches _ _ _ _ _ I _ _ Hc) as Hco. pose proof (cap_range cc Hco) as [Hcap Hend]. pose proof (obj_off_range cc Hco) as [Hoff _]. pose proof (co_size _ Hco) as [Hsz _].
  pose proof (cnt_range (sp_bitmap sp) (cap_of cc) ltac:(lia)) as Hcr. rewrite K5, K3 in Hnf. apply Z.eqb_neq in Hnf. destruct (inv_page _ _ _ _ _ _ _ I Hp) as [Hpage _].
  unfold take_object, alloc_in_slab. rewrite (get_slab_eq p s sp Hp). cbn [mbind outcome_bind]. rewrite K3.
  pose proof (alloc_bit_spec (sp_bitmap sp) (cap_of cc) K4 ltac:(lia) 8 0 ltac:(lia) ltac:(lia) ltac:(intros; lia)) as Hab.
  destruct (alloc_bit 8 0 (cap_of cc) (sp_bitmap sp)) as [[i bm]|]; [|destruct Hnf; by apply cnt_full; [|lia]]. destruct Hab as (Hi & Hfree & Hbm & Htk).
  rewrite (upd_slab_page p _ s sp Hp). cbn [mbind outcome_bind]. destruct (Z.ltb_spec i 0); [lia|]. erewrite get_slab_eq by (cbn [with_pages sl_pages]; apply lookup_insert_eq). cbn [mbind outcome_bind set_used_bitmap sp_used sp_capacity].
  assert (u32 (sp_used sp + 1) = cnt bm (cap_of cc)) as Hu.
  { rewrite K5. rewrite (cnt_flip (sp_bitmap sp) bm (cap_of cc) i true) by (done || lia || (intros j Hj; apply Htk; lia)). unfold u32. rewrite Z.mod_small by lia. done. }
  assert (cnt bm (cap_of cc) = cnt (sp_bitmap sp) (cap_of cc) + 1) as Hcn by (apply (cnt_flip _ _ _ i true); [done|done|intros j Hj; apply Htk; lia]).
  rewrite Hu, K3. set (sp1 := set_used_bitmap (cnt bm (cap_of cc)) bm sp). set (s1 := with_pages (<[p := Slab sp1]> (sl_pages s)) s).
  assert (links (sl_pages s1) (cache_pool s1) L) as L1 by (apply (slab_links_upd _ _ _ p sp (set_used_bitmap (cnt bm (cap_of cc)) bm)); [apply I|done..]).
  destruct (lists_of _ _ _ _ _ _ _ I Hc) as (_ & lf & _ & Hlf).
  assert (NoDup (p :: l)) as N by (destruct (ln_list _ _ _ (si_links _ _ _ _ _ I) _ _ _ _ Hl Hc) as (N & _); done).
  assert (∃ s2 L2, (if cnt bm (cap_of cc) =? cap_of cc then s ← list_remove set_partial c p s1; list_push full set_full c p s else Ok s1) = Ok s2 ∧ same_sys s s2 ∧ same_pages (sl_pages s1) (sl_pages s2) ∧
    same_pool (cache_pool s) (cache_pool s2) ∧ links (sl_pages s2) (cache_pool s2) L2 ∧ ∀ c0 b0 l0 q, L2 !! (c0, b0) = Some l0 → q ∈ l0 ↔ in_list (<[p := Slab sp1]> (sl_pages s)) c0 b0 q)
    as (s2 & L2 & -> & T2 & P2 & Q2 & HL2 & Hm2).
  { destruct (Z.eqb_spec (cnt bm (cap_of cc)) (cap_of cc)) as [Ef|Ef].
    - destruct (move_spec false s1 L c cc p sp1 [] l lf L1 Hc) as (s2 & E2 & T2 & P2 & Q2 & HL2); [unfold s1; simpl; by rewrite lookup_insert_eq|done|done|].
      exists s2, (<[(c, true) := p :: lf]> (<[(c, false) := l]> L)). split; [exact E2|]. split; [exact T2|]. split; [done|]. split; [done|]. split; [done|].
      apply (moved_mem (sl_pages s) L p sp1 c false [] l lf); [apply I|done|done|done|done|]. unfold sp1. simpl. rewrite K3. by apply Z.eqb_eq.
    - exists s1, L. split; [done|]. split; [done|]. split; [done|]. split; [done|]. split; [done|]. intros c0 b0 l0 q Hl0. rewrite in_list_insert. rewrite (si_mem _ _ _ _ _ I _ _ _ _ Hl0). case_decide as D; [|done]. subst q.
      unfold sp1. cbn [set_used_bitmap sp_cache sp_used sp_capacity]. rewrite K3. rewrite (proj2 (Z.eqb_neq _ _) Ef). unfold in_list. rewrite Hp. split.
      + intros (sp' & [= <-] & ? & Hb). split; [done|]. rewrite <- Hb, K5, K3. symmetry. by apply Z.eqb_neq.
      + intros [? <-]. exists sp. split; [done|]. split; [done|]. rewrite K5, K3. by apply Z.eqb_neq. }
  cbn [mbind outcome_bind]. destruct (shape_lookup _ _ _ _ Q2 Hc) as (cc2 & Hc2 & Hsh2). rewrite (upd_cache_pool c _ s2 cc2 Hc2). cbn [mbind outcome_bind].
  assert (first_object p cc0 = p + obj_off cc) as Efo by (rewrite first_object_eq; [|done|by eapply shape_ok]; by destruct (shape_geometry _ _ Hsh) as (-> & _)).
  destruct (shape_geometry _ _ Hsh) as (_ & _ & Eos & _). destruct Hpage as (Hp1 & Hp2 & _). assert (0 ≤ i * object_size cc ≤ (cap_of cc - 1) * object_size cc) by nia.
  rewrite Efo, Eos. unfold u64. rewrite Z.mod_small by lia. rewrite add64_small by lia. set (s3 := with_pool _ s2). exists s3, L2, i. split; [done|].
  assert (same_pool (cache_pool s) (cache_pool s3)) as Q3 by (eapply same_pool_trans; [exact Q2|]; apply (shape_insert _ _ cc2 _ Hc2); done).
  split.
  { apply (reassemble E _ s s3 B H L L2 p sp sp1 I Hp P2 Q3 T2).
    - apply links_pool; [done|done|]. intros b. apply sel_count.
    - exists c, cc. split; [|left; unfold sp1; simpl; lia]. constructor; try done.
    - intros q Hq HEq. by destruct Hq; apply HE.
    - exact Hm2. }
  split; [done|]. split; [exact T2|]. split; [done|].
  assert (∀ a n, objs_in (<[p := Slab sp1]> (sl_pages s)) (cache_pool s) a n ↔ objs s a n ∨ a = p + obj_off cc + i * object_size cc ∧ n = object_size cc) as Hobj.
  { apply (objs_flip (sl_pages s) (cache_pool s) p sp c cc i true bm (cnt bm (cap_of cc))); try done; lia. }
  split.
  - intros a n. rewrite <- Hobj. unfold objs. by apply objs_same.
  - intros (q & h & Hq & Ho). destruct (decide (q = p)) as [->|Hne].
    + rewrite Hp in Hq. injection Hq as <-. destruct Ho as (c' & cc' & j & E1 & E2 & Hj & Ht & Ea & _). rewrite Hsc in E1. injection E1 as <-. rewrite Hc in E2. injection E2 as <-.
      assert (j = i) as -> by nia. congruence.
    + eapply (hobj_other E s B H L p (Slab sp) q h); [exact I|exact Hp|exact Hq|exact Hne| |exact Ho]. simpl. lia.
Qed.

(** ** Frames *)

Definition covered (H : gmap Z Z) (p : Z) : Prop := ∃ x o, H !! x = Some o ∧ x ≤ p < x + 2 ^ o.

(** [F] are the frames that are free or held by slabs and large blocks. *)
Definition frames_ok (F : Z → Prop) (B H : gmap Z Z) : Prop := ∀ p, F p ↔ ff B p ∨ covered H p.

Lemma frames_take F s B H x o s' B' : frames_ok F B H → taken s B x o s' B' → H !! x = None → frames_ok F B' (<[x := o]> H).
Proof.
  intros HF [_ _ _ T1 T2] Hx p. rewrite (HF p), T2. unfold covered. setoid_rewrite lookup_insert_Some. split.
  - intros [Hf|(y & o' & Hy & Hp)]; [|right; exists y, o'; split; [right; split; [congruence|done]|done]]. destruct (decide (x ≤ p < x + 2 ^ o)); [right; exists x, o; auto|by left].
  - intros [[Hf _]|(y & o' & [[<- <-]|[_ Hy]] & Hp)]; [by left|left; by apply T1|right; by exists y, o'].
Qed.

Lemma frames_free F s B H x o s' B' : frames_ok F B H → H !! x = Some o → freed s B x o s' B' → frames_ok F B' (delete x H).
Proof.
  intros HF Hx [_ _ _ _ _ Hf] p. rewrite (HF p), Hf. unfold covered, in_block. setoid_rewrite lookup_delete_Some. split.
  - intros [?|(y & o' & Hy & Hp)]; [by left; left|]. destruct (decide (x = y)) as [<-|Hne]; [left; right; congruence|]. right. exists y, o'. done.
  - intros [[?|?]|(y & o' & [Hne Hy] & Hp)]; [by left|right; by exists x, o|right; by exists y, o'].
Qed.

Lemma world_dirty pm H B x : world_ok (World pm H) B → ¬ ff B x → world_ok (World (with_dirty ({[x]} ∪ dirty pm) pm) H) B.
Proof. intros [W1 W2 W3 W4] Hx. constructor; [by apply dirty_used|done|done|done]. Qed.

Lemma unlisted_new E s B H L p : slab_inv E s B H L → sl_pages s !! p = None → unlisted L p.
Proof. intros I Hp [c b] l Hl Hin. apply (si_mem _ _ _ _ _ I _ _ _ _ Hl) in Hin as (sp & E1 & _). congruence. Qed.

(** A page that is not among the frames in use has no header. *)
Lemma fresh_page E s B H L x : slab_inv E s B H L → ff B x → sl_pages s !! va s x = None ∧ H !! x = None.
Proof.
  intros I Hf. assert (H !! x = None) as Hx.
  { destruct (H !! x) as [o|] eqn:Ex; [|done]. destruct (wo_block _ _ (si_world _ _ _ _ _ I) x o Ex) as (_ & [Ho _ _ _] & U). destruct (U x); [|done]. pose proof (pow_pos o ltac:(lia)). lia. }
  split; [|done]. destruct (sl_pages s !! va s x) as [h|] eqn:Ep; [|done]. destruct (si_pages _ _ _ _ _ I _ _ Ep) as (y & Ey & Hy). unfold va in Ey. assert (y = x) as -> by lia. congruence.
Qed.

Lemma links_new M pool L p h : links M pool L → M !! p = None → links (<[p := h]> M) pool L.
Proof.
  intros [L1 L2 L3] Hp. constructor; [done| |done]. intros c b l cc Hl Hc. destruct (L2 c b l cc Hl Hc) as (N & Hh & Hd). split; [done|]. split; [done|]. eapply dll_frame; [exact Hd|].
  intros q Hq. apply lookup_insert_ne. intros <-. destruct (dll_in _ _ _ _ Hd Hq) as (_ & sp & E). congruence.
Qed.

(** A page taken from the allocator gets a header. *)
Lemma install E E' s s' B B' H L L' x o pm h : slab_inv E s B H L → taken (sl_pmm s) B x o pm B' → order_of h = o →
  same_pages (<[va s x := h]> (sl_pages s)) (sl_pages s') → same_pool (cache_pool s) (cache_pool s') → sl_hhdm s' = sl_hhdm s →
  sl_pmm s' = with_dirty ({[x]} ∪ dirty pm) pm → links (sl_pages s') (cache_pool s') L' →
  hdr_ok E' (cache_pool s) (va s x) h → (∀ q, E q → E' q) → (∀ c b l q, L' !! (c, b) = Some l → q ∈ l ↔ in_list (<[va s x := h]> (sl_pages s)) c b q) →
  slab_inv E' s' B' (<[x := o]> H) L'.
Proof.
  intros I T Ho Hs Hpool Hh Hpm HL Hok HE Hmem. pose proof T as [_ TK TB T1 T2]. pose proof TB as [Hord Hx0 _ Hend]. pose proof (pow_pos o ltac:(lia)) as Hpow.
  assert (ff B x) as Hfx by (apply T1; lia). destruct (fresh_page _ _ _ _ _ _ I Hfx) as [Hnone HxN]. destruct I as [I1 I2 I3 I4 I5 I6 I7 I8].
  assert (x ≠ 0) as Hxz by (intros ->; by destruct I1). constructor; rewrite ?Hpm, ?Hh.
  - apply world_dirty; [|rewrite T2; intros [_ ?]; lia]. pose proof (world_take _ B H x o pm B' I1 T Hxz) as W. by rewrite Z.div_mul in W by lia.
  - cbn [with_dirty pfn_count]. by rewrite (k_count _ _ TK).
  - intros q h' Hq. destruct (same_pages_inv _ _ _ _ Hs Hq) as (h0 & Hq0 & Hst). assert (order_of h' = order_of h0) as -> by (destruct h', h0; try discriminate Hst; [done|]; by injection Hst).
    unfold va. rewrite Hh. destruct (decide (va s x = q)) as [<-|Hne]; [rewrite lookup_insert_eq in Hq0; injection Hq0 as <-; exists x; rewrite lookup_insert_eq; by subst|].
    rewrite lookup_insert_ne in Hq0 by done. destruct (I3 q h0 Hq0) as (y & -> & Hy). exists y. split; [done|]. rewrite lookup_insert_ne; [done|]. intros <-. done.
  - intros y o' Hy. unfold va. rewrite Hh. fold (va s y). specialize (Hs (va s y)). destruct (sl_pages s' !! va s y); [done|]. apply lookup_insert_Some in Hy as [[<- <-]|[Hne Hy]].
    + by rewrite lookup_insert_eq in Hs.
    + destruct (I4 y o' Hy) as [h' Hh']. rewrite lookup_insert_ne, Hh' in Hs by (unfold va; lia). done.
  - intros c cc Hc. destruct (shape_lookup _ _ _ _ (same_pool_sym _ _ Hpool) Hc) as (cc0 & Hc0 & Hsh). eapply shape_ok; [by symmetry|by eapply I5].
  - intros q h' Hq. destruct (same_pages_inv _ _ _ _ Hs Hq) as (h0 & Hq0 & Hst). eapply hdr_ok_shape; [exact Hpool|exact Hst|]. destruct (decide (va s x = q)) as [<-|Hne].
    + rewrite lookup_insert_eq in Hq0. by injection Hq0 as <-.
    + rewrite lookup_insert_ne in Hq0 by done. specialize (I6 q h0 Hq0). destruct h0 as [sq|]; [|done]. destruct I6 as (c & cc & K & Hu). exists c, cc. split; [done|]. destruct Hu; [by left|right; by apply HE].
  - done.
  - intros c b l q Hl. rewrite (Hmem c b l q Hl). symmetry. by apply in_list_same.
Qed.

Lemma phys_to_virt_eq E s B H L x pm : slab_inv E s B H L → 0 ≤ x < pfn_count (sl_pmm s) → phys_to_virt (x * 4096) (with_pmm pm s) = va s x ∧ page_at (va s x) ∧ pa_to_pfn (x * 4096) = x ∧ virt_to_phys (va s x) s = x * 4096.
Proof.
  intros I Hx. destruct (si_hhdm _ _ _ _ _ I) as (H0 & [m Em] & H1). pose proof (ok_count _ _ (wo_pmm _ _ (si_world _ _ _ _ _ I))) as Hc. cbn [w_pmm] in Hc. unfold phys_to_virt, virt_to_phys, va, page_at. cbn [with_pmm sl_hhdm].
  rewrite add64_small, sub64_small by lia. split; [lia|]. split; [split; [lia|]; split; [lia|]; exists (m + x); lia|]. split; [by apply pfn_pa; lia|lia].
Qed.

(** The objects of pages that have none. *)
Lemma objs_new M pool p h a n : M !! p = None → objs_in (<[p := h]> M) pool a n ↔ objs_in M pool a n ∨ hobj pool p h a n.
Proof.
  intros Hp. unfold objs_in. split.
  - intros (q & h' & Hq & Ho). apply lookup_insert_Some in Hq as [[<- <-]|[_ Hq]]; [by right|left; by exists q, h'].
  - intros [(q & h' & Hq & Ho)|Ho]; [|exists p, h; by rewrite lookup_insert_eq]. exists q, h'. rewrite lookup_insert_ne; [done|]. intros <-. congruence.
Qed.

Lemma empty_bitmap i : tk (replicate 8 0) i = false.
Proof. unfold tk. destruct (replicate 8 0 !! Z.to_nat (i / 64)) as [x|] eqn:E; [apply lookup_replicate in E as [-> _]|]; apply Z.bits_0. Qed.

Definition same_env (s s' : slab) : Prop := sl_hhdm s' = sl_hhdm s ∧ kmalloc_caches s' = kmalloc_caches s ∧ same_pool (cache_pool s) (cache_pool s').

Lemma new_spec s B H L c cc F : slab_inv (λ _, False) s B H L → cache_pool s !! c = Some cc → L !! (c, false) = Some [] → frames_ok F B H →
  new_slab c s = Ok (0, s) ∧ (∀ p, ¬ ff B p) ∨
  ∃ s1 s2 B' H' L' p cc', new_slab c s = Ok (p, s1) ∧ p ≠ 0 ∧ list_push partial set_partial c p s1 = Ok s2 ∧ slab_inv (λ q, q = p) s2 B' H' L' ∧ frames_ok F B' H' ∧
    cache_pool s2 !! c = Some cc' ∧ shape cc' = shape cc ∧ L' !! (c, false) = Some [p] ∧ same_env s s2 ∧ ∀ a n, objs s2 a n ↔ objs s a n.
Proof.
  intros I Hc Hl HF. pose proof (si_world _ _ _ _ _ I) as W. pose proof (wo_pmm _ _ W) as O. cbn [w_pmm] in O. unfold new_slab.
  destruct (alloc_spec (sl_pmm s) B 0 O ltac:(unfold PMM_MAX_ORDER; lia)) as [[-> Hex]|(x & pm & B' & -> & T)]; cbn [mbind outcome_bind].
  { left. split; [by destruct s|]. intros p (y & o & Hy & _). pose proof (Hex _ _ Hy). pose proof (ok_blocks _ _ O _ _ Hy) as [? _ _ _]. lia. }
  right. pose proof T as [_ _ [_ Hx0 _ Hend] T1 _]. change (2 ^ 0) with 1 in *. assert (ff B x) as Hfx by (apply T1; lia). assert (x ≠ 0) as Hxz by (intros ->; by destruct W).
  destruct (fresh_page _ _ _ _ _ _ I Hfx) as [Hnone HxN]. destruct (phys_to_virt_eq _ _ _ _ _ x pm I ltac:(lia)) as (Ev & Hpage & Epfn & _). rewrite (proj2 (Z.eqb_neq (x * 4096) 0)) by lia. rewrite Ev.
  set (p := va s x) in *. pose proof (si_caches _ _ _ _ _ I _ _ Hc) as Hco. pose proof (cap_range cc Hco) as [Hcap Hce]. pose proof (obj_off_range cc Hco) as [Hoff _]. pose proof Hpage as (Hp0 & Hp1 & _).
  unfold get_cache at 1. cbn [with_pmm cache_pool]. rewrite Hc. cbn [deref mbind outcome_bind]. rewrite (first_object_eq p cc Hpage Hco).
  assert (sub64 (p + obj_off cc) p = obj_off cc) as -> by (rewrite sub64_small; lia). assert (sub64 PAGE_SIZE (obj_off cc) = 4096 - obj_off cc) as -> by (rewrite sub64_small; unfold PAGE_SIZE; lia).
  assert ((if (4096 - obj_off cc) / object_size cc >? SLAB_BITMAP_WORDS * 64 then SLAB_BITMAP_WORDS * 64 else (4096 - obj_off cc) / object_size cc) = cap_of cc) as ->.
  { unfold cap_of, SLAB_BITMAP_WORDS. destruct (Z.gtb_spec ((4096 - obj_off cc) / object_size cc) (8 * 64)); lia. }
  assert (u32 (cap_of cc) = cap_of cc) as -> by (unfold u32; rewrite Z.mod_small; lia). set (sp := SlabPage 0 0 (Some c) 0 (cap_of cc) (replicate 8 0)). set (s1 := with_pages _ _).
  assert (cache_pool s1 !! c = Some cc) as Hc1 by done. rewrite (upd_cache_pool c _ s1 cc Hc1). cbn [mbind outcome_bind]. set (s2 := with_pool _ s1).
  assert (c < length (cache_pool s))%nat as Hlt by by eapply lookup_lt_Some.
  assert (links (sl_pages s2) (cache_pool s2) L) as L2.
  { apply (links_pool (sl_pages s1) (cache_pool s1)); [|done|by intros []]. apply (links_new (sl_pages s)); [apply I|done]. }
  destruct (slab_push_spec false c p s2 L [] (set_per_slab (cap_of cc) cc) sp L2 Hl) as (s3 & E3 & (T1' & T2' & T3') & P3 & C3 & L3).
  { unfold s2. cbn [with_pool cache_pool]. by apply list_lookup_insert_eq. }
  { unfold s2, s1. cbn [with_pool with_pages sl_pages]. by rewrite lookup_insert_eq. }
  { lia. }
  { by eapply unlisted_new. }
  assert (same_pool (cache_pool s) (cache_pool s3)) as Q3.
  { rewrite C3. unfold s2. cbn [with_pool cache_pool]. rewrite list_insert_insert_eq. by apply (shape_insert _ _ cc). }
  exists s2, s3, B', (<[x := 0]> H), (<[(c, false) := [p]]> L), p, (put false p (set_per_slab (cap_of cc) cc)).
  split; [done|]. split; [lia|]. split; [exact E3|]. split.
  { apply (install (λ _, False) _ s s3 B B' H L _ x 0 pm (Slab sp) I T); try done.
    - cbn [s2 s1 with_pool with_pages touch sl_pmm with_pmm] in T1'. by rewrite Epfn in T1'.
    - exists c, cc. split; [|by right]. constructor; try done; [split; [done|by repeat constructor]|]. cbn [sp sp_used sp_bitmap]. unfold cnt.
      assert (∀ l, filter (λ i, tk (replicate 8 0) i = true) l = []) as -> by (induction l as [|y l IH]; [done|]; by rewrite filter_cons, decide_False by (rewrite empty_bitmap; done)). done.
    - intros c0 b0 l0 q Hl0. rewrite in_list_insert. apply lookup_insert_Some in Hl0 as [[[= <- <-] <-]|[Hne Hl0]].
      + fold p. case_decide as D.
        * subst q. split; [intros _|intros _; left]. split; [done|]. cbn [sp sp_used sp_capacity]. apply Z.eqb_neq. lia.
        * rewrite list_elem_of_singleton. split; [done|]. intros Hq. apply (si_mem _ _ _ _ _ I _ _ _ _ Hl) in Hq. by apply elem_of_nil in Hq.
      + fold p. case_decide as D; [|by apply (si_mem _ _ _ _ _ I)]. subst q. split.
        * intros Hq. apply (si_mem _ _ _ _ _ I _ _ _ _ Hl0) in Hq as (sp' & E' & _). congruence.
        * cbn [sp sp_used sp_capacity sp_cache]. intros [[= <-] Eb]. destruct Hne. rewrite (proj2 (Z.eqb_neq 0 (cap_of cc))) in Eb by lia. by subst b0. }
  split; [by eapply frames_take|]. split; [rewrite C3; apply list_lookup_insert_eq; unfold s2; cbn [with_pool cache_pool]; by rewrite length_insert|]. split; [done|].
  split; [by rewrite lookup_insert_eq|]. split; [done|]. intros a n. unfold objs. rewrite (objs_same (<[p := Slab sp]> (sl_pages s)) _ (cache_pool s)) by done. rewrite objs_new by done. split; [|by left].
  intros [?|(c' & cc' & i & _ & _ & _ & Ht & _)]; [done|]. cbn [sp sp_bitmap] in Ht. by rewrite empty_bitmap in Ht.
Qed.

(** ** Allocating *)

Lemma obj_aligned p cc i : page_at p → cache_ok cc → (align cc | p + obj_off cc + i * object_size cc).
Proof.
  intros (_ & _ & Hp) Hco. pose proof (obj_off_range cc Hco) as [_ Ho]. destruct Hco as [(k & Hk & Ea) [_ Hs] _]. apply Z.divide_add_r; [apply Z.divide_add_r; [|done]|by apply Z.divide_mul_r].
  eapply Z.divide_trans; [|exact Hp]. rewrite Ea. exists (2 ^ (12 - k)). rewrite <- Z.pow_add_r by lia. by replace (12 - k + k) with 12 by lia.
Qed.

(** The result of an allocation of objects of [n] bytes. *)
Definition allocated (s : slab) (B : gmap Z Z) (r n al : Z) (s' : slab) : Prop :=
  r = 0 ∧ s' = s ∨ r ≠ 0 ∧ (al | r) ∧ ¬ objs s r n ∧ ∀ a m, objs s' a m ↔ objs s a m ∨ a = r ∧ m = n.

Lemma cache_alloc_spec s B H L c cc F : slab_inv (λ _, False) s B H L → cache_pool s !! c = Some cc → frames_ok F B H →
  ∃ r s' B' H' L', kmem_cache_alloc c s = Ok (r, s') ∧ slab_inv (λ _, False) s' B' H' L' ∧ frames_ok F B' H' ∧ same_env s s' ∧ allocated s B r (object_size cc) (align cc) s' ∧
    (r = 0 → ∀ p, ¬ ff B p).
Proof.
  intros I Hc HF. destruct (lists_of _ _ _ _ _ _ _ I Hc) as (lp & lf & Hl & _). destruct (ln_list _ _ _ (si_links _ _ _ _ _ I) _ _ _ _ Hl Hc) as (_ & Hh & Hd).
  pose proof (si_caches _ _ _ _ _ I _ _ Hc) as Hco. unfold kmem_cache_alloc. unfold get_cache at 1. rewrite Hc. cbn [deref mbind outcome_bind]. change (partial cc) with (sel false cc). rewrite Hh.
  assert (∀ E s1 B1 H1 L1 cc1 p l, slab_inv E s1 B1 H1 L1 → cache_pool s1 !! c = Some cc1 → shape cc = shape cc1 → L1 !! (c, false) = Some (p :: l) → (∀ q, E q → q = p) → frames_ok F B1 H1 →
    same_env s s1 → (∀ a n, objs s1 a n ↔ objs s a n) → ∃ r s' B' H' L', take_object c cc p s1 = Ok (r, s') ∧ slab_inv (λ _, False) s' B' H' L' ∧ frames_ok F B' H' ∧ same_env s s' ∧
      allocated s B r (object_size cc) (align cc) s' ∧ (r = 0 → ∀ p, ¬ ff B p)) as Htake.
  { intros E s1 B1 H1 L1 cc1 p l I1 Hc1 Hsh Hl1 HE HF1 (V1 & V2 & V3) Ho. destruct (take_spec E s1 B1 H1 L1 c cc1 cc p l I1 Hc1 Hsh Hl1 HE) as (s' & L' & i & E1 & I' & Hi & (S1 & S2 & S3) & Q & Hobj & Hnew).
    destruct (shape_geometry _ _ Hsh) as (G1 & G2 & G3 & G4). rewrite G3, G4. assert (in_list (sl_pages s1) c false p) as (sp & Hp & _) by (apply (si_mem _ _ _ _ _ I1 _ _ _ _ Hl1); left).
    destruct (inv_page _ _ _ _ _ _ _ I1 Hp) as [Hpage _]. pose proof (si_caches _ _ _ _ _ I1 _ _ Hc1) as Hco1. pose proof (obj_off_range _ Hco1) as [Ho1 _]. pose proof (co_size _ Hco1) as [Hsz _]. pose proof Hpage as (Hp0 & _).
    assert (0 < p + obj_off cc1 + i * object_size cc1) by nia. eexists _, s', B1, H1, L'. split; [exact E1|]. split; [done|]. split; [done|].
    split; [split; [congruence|]; split; [congruence|]; by eapply same_pool_trans|]. split; [|lia]. right. split; [lia|]. split; [by apply obj_aligned|]. split; [by rewrite <- Ho|]. intros a m. by rewrite Hobj, Ho. }
  destruct lp as [|p lp].
  - cbn [hd0 Z.eqb]. destruct (new_spec s B H L c cc F I Hc Hl HF) as [[-> Hex]|(s1 & s2 & B' & H' & L' & p & cc' & -> & Hp0 & E2 & I2 & HF2 & Hc2 & Hsh & Hl2 & V & Ho)]; cbn [mbind outcome_bind].
    + exists 0, s, B, H, L. split; [done|]. split; [done|]. split; [done|]. split; [done|]. split; [by left|done].
    + rewrite (proj2 (Z.eqb_neq _ _) Hp0). rewrite E2. cbn [mbind outcome_bind]. by apply (Htake _ s2 B' H' L' cc' p [] I2 Hc2 (eq_sym Hsh) Hl2).
  - pose proof Hd as (Hp0 & _). cbn [hd0]. rewrite (proj2 (Z.eqb_neq _ _) Hp0). by apply (Htake _ s B H L cc p lp I Hc eq_refl Hl).
Qed.

Lemma large_order_spec req : ∀ fuel order, 0 ≤ order ≤ 10 → 11 - order ≤ Z.of_nat fuel →
  match large_order fuel order req with
  | Some o => order ≤ o ≤ 10 ∧ req ≤ 4096 * 2 ^ o ∧ (order < o → 4096 * 2 ^ (o - 1) < req)
  | None => 4096 * 2 ^ 10 < req
  end.
Proof.
  induction fuel as [|fuel IH]; intros order Ho Hf; [lia|]. cbn [large_order]. unfold PAGE_SIZE, PMM_MAX_ORDER. rewrite Z.shiftl_mul_pow2 by lia.
  destruct (Z.ltb_spec (4096 * 2 ^ order) req) as [Hlt|Hge]; [|split; [lia|]; split; [lia|lia]]. destruct (Z.geb_spec (order + 1) 11); [replace order with 10 in Hlt by lia; done|].
  specialize (IH (order + 1) ltac:(lia) ltac:(lia)). destruct (large_order fuel (order + 1) req) as [o|]; [|done]. destruct IH as (H1 & H2 & H3). split; [lia|]. split; [done|]. intros _.
  destruct (decide (order + 1 = o)) as [<-|]; [by replace (order + 1 - 1) with order by lia|apply H3; lia].
Qed.

Definition large_room (o : Z) : Z := 4096 * 2 ^ o - 56.

Lemma large_alloc_spec s B H L size F : slab_inv (λ _, False) s B H L → frames_ok F B H → 0 < size →
  ∃ r s' B' H' o, large_alloc size s = Ok (r, s') ∧ slab_inv (λ _, False) s' B' H' L ∧ frames_ok F B' H' ∧ same_env s s' ∧ allocated s B r (large_room o) 8 s' ∧ (r ≠ 0 → size ≤ large_room o) ∧
    (r = 0 → 4096 * 2 ^ 10 - 56 < size ∨ ∀ x o', B !! x = Some o' → 4096 * 2 ^ o' < size + 56).
Proof.
  intros I HF Hs. pose proof (si_world _ _ _ _ _ I) as W. pose proof (wo_pmm _ _ W) as O. cbn [w_pmm] in O. unfold large_alloc, large_hdr_size.
  assert (∀ P : Prop, P → ∃ r s' B' H' o, Ok (0, s) = Ok (r, s') ∧ slab_inv (λ _, False) s' B' H' L ∧ frames_ok F B' H' ∧ same_env s s' ∧ allocated s B r (large_room o) 8 s' ∧ (r ≠ 0 → size ≤ large_room o) ∧ (r = 0 → P)) as Hfail.
  { intros P HP. exists 0, s, B, H, 0. split; [done|]. split; [done|]. split; [done|]. split; [done|]. split; [by left|]. done. }
  destruct (Z.geb_spec (size + 56) (2 ^ 64)); [apply Hfail; left; lia|]. pose proof (large_order_spec (size + 56) 12 0 ltac:(lia) ltac:(lia)) as Hord.
  destruct (large_order 12 0 (size + 56)) as [o|]; [|apply Hfail; left; lia]. destruct Hord as (Ho & Hreq & Hmin).
  destruct (alloc_spec (sl_pmm s) B o O ltac:(unfold PMM_MAX_ORDER; lia)) as [[-> Hex]|(x & pm & B' & -> & T)]; cbn [mbind outcome_bind].
  { replace (with_pmm (sl_pmm s) s) with s by by destruct s. apply Hfail. right. intros x o' Hx. specialize (Hex x o' Hx). pose proof (ok_blocks _ _ O _ _ Hx) as [Ho' _ _ _].
    eapply Z.le_lt_trans; [|apply Hmin; lia]. apply Z.mul_le_mono_nonneg_l; [lia|]. apply Z.pow_le_mono_r; lia. }
  pose proof T as [_ _ [_ Hx0 _ Hend] T1 _]. pose proof (pow_pos o ltac:(lia)) as Hpow. assert (ff B x) as Hfx by (apply T1; lia). assert (x ≠ 0) as Hxz by (intros ->; by destruct W).
  destruct (fresh_page _ _ _ _ _ _ I Hfx) as [Hnone HxN]. destruct (phys_to_virt_eq _ _ _ _ _ x pm I ltac:(lia)) as (Ev & Hpage & Epfn & _). rewrite (proj2 (Z.eqb_neq (x * 4096) 0)) by lia. rewrite Ev.
  set (p := va s x) in *. pose proof Hpage as (Hp0 & Hp1 & Hp2). rewrite add64_small by lia. set (s1 := with_pages _ _). exists (p + 56), s1, B', (<[x := o]> H), o. split; [done|]. split.
  { apply (install (λ _, False) _ s s1 B B' H L _ x o pm (Large PAGE_KIND_LARGE LARGE_MAGIC o) I T); try done.
    - unfold s1. cbn [with_pages touch sl_pmm with_pmm]. by rewrite Epfn.
    - apply (links_new (sl_pages s)); [apply I|done].
    - split; [done|]. split; [done|]. unfold PMM_MAX_ORDER. lia.
    - intros c b l q Hl. rewrite (si_mem _ _ _ _ _ I _ _ _ _ Hl). fold p. unfold in_list. destruct (decide (q = p)) as [->|]; [|by rewrite lookup_insert_ne by congruence].
      rewrite lookup_insert_eq, Hnone. split; intros (sp & ? & _); discriminate. }
  split; [by eapply frames_take|]. split; [done|]. split; [|split; [unfold large_room; lia|lia]]. right. split; [lia|]. split; [apply Z.divide_add_r; [eapply Z.divide_trans; [|exact Hp2]; by exists 512|by exists 7]|].
  split.
  - intros (q & h & Hq & Hobj). destruct (hobj_range _ _ _ _ _ _ _ _ _ I Hq Hobj) as (R1 & R2 & R3 & _). destruct (inv_page _ _ _ _ _ _ _ I Hq) as (_ & y & Eq & Hy & _).
    destruct (wo_block _ _ W y _ Hy) as (_ & Yb & Yu). destruct (taken_disjoint _ _ _ _ _ _ _ _ _ T Yb Yu) as [D|D]; unfold p, va, large_room in *; lia.
  - intros a m. unfold objs. cbn [s1 with_pages sl_pages touch with_pmm cache_pool]. by rewrite objs_new.
Qed.

(** ** Freeing *)

Lemma links_delete M pool L p : links M pool L → unlisted L p → links (delete p M) pool L.
Proof.
  intros [L1 L2 L3] Hu. constructor; [done| |done]. intros c b l cc Hl Hc. destruct (L2 c b l cc Hl Hc) as (N & Hh & Hd). split; [done|]. split; [done|]. eapply dll_frame; [exact Hd|].
  intros q Hq. apply lookup_delete_ne. intros <-. by apply (Hu _ _ Hl).
Qed.

(** A page goes back to the allocator. *)
Lemma uninstall E s s' B B' H L L' p x h pm M2 : slab_inv E s B H L → sl_pages s !! p = Some h → p = va s x → freed (sl_pmm s) B x (order_of h) pm B' →
  H !! x = Some (order_of h) → same_pages (sl_pages s) M2 → sl_pages s' = delete p M2 → same_pool (cache_pool s) (cache_pool s') → sl_pmm s' = pm → sl_hhdm s' = sl_hhdm s →
  links M2 (cache_pool s') L' → unlisted L' p → (∀ c b l q, L' !! (c, b) = Some l → q ≠ p → q ∈ l ↔ in_list (sl_pages s) c b q) → (∀ q, E q → q = p) →
  slab_inv (λ _, False) s' B' (delete x H) L'.
Proof.
  intros [I1 I2 I3 I4 I5 I6 I7 I8] Hp Ep Fr Hx Hs2 Hs' Hpool Hpm Hh HL Hu Hmem HE.
  assert (∀ q h', sl_pages s' !! q = Some h' → q ≠ p ∧ ∃ h0, sl_pages s !! q = Some h0 ∧ strip h' = strip h0) as Hback.
  { intros q h' Hq. rewrite Hs' in Hq. apply lookup_delete_Some in Hq as [Hne Hq]. split; [done|]. by eapply same_pages_inv. }
  constructor; rewrite ?Hpm, ?Hh.
  - by apply (world_free (sl_pmm s) B H x (order_of h)).
  - by rewrite (fr_count _ _ _ _ _ _ Fr).
  - intros q h' Hq. destruct (Hback q h' Hq) as (Hne & h0 & Hq0 & Hst). assert (order_of h' = order_of h0) as -> by (destruct h', h0; try discriminate Hst; [done|]; by injection Hst).
    destruct (I3 q h0 Hq0) as (y & -> & Hy). exists y. unfold va. rewrite Hh. split; [done|]. rewrite lookup_delete_ne; [done|]. intros <-. congruence.
  - intros y o Hy. apply lookup_delete_Some in Hy as [Hne Hy]. unfold va. rewrite Hh. fold (va s y). rewrite Hs', lookup_delete_ne by (subst p; unfold va; lia). specialize (Hs2 (va s y)).
    destruct (I4 y o Hy) as [h' Hh']. rewrite Hh' in Hs2. by destruct (M2 !! va s y).
  - intros c cc Hc. destruct (shape_lookup _ _ _ _ (same_pool_sym _ _ Hpool) Hc) as (cc0 & Hc0 & Hsh). eapply shape_ok; [by symmetry|by eapply I5].
  - intros q h' Hq. destruct (Hback q h' Hq) as (Hne & h0 & Hq0 & Hst). eapply hdr_ok_shape; [exact Hpool|exact Hst|]. specialize (I6 q h0 Hq0). destruct h0 as [sq|]; [|done].
    destruct I6 as (c & cc & K & Hused). exists c, cc. split; [done|]. destruct Hused as [?|HEq]; [by left|]. by destruct Hne; apply HE.
  - rewrite Hs'. by apply links_delete.
  - intros c b l q Hl. destruct (decide (q = p)) as [->|Hne].
    + split; [intros Hq; by destruct (Hu _ _ Hl)|]. intros (sp & Hq & _). by rewrite Hs', lookup_delete_eq in Hq.
    + rewrite (Hmem c b l q Hl Hne). rewrite <- (in_list_same _ _ c b q Hs2). unfold in_list. by rewrite Hs', lookup_delete_ne.
Qed.

Lemma objs_delete M pool p h a n : M !! p = Some h → objs_in (delete p M) pool a n ↔ ∃ q h', q ≠ p ∧ M !! q = Some h' ∧ hobj pool q h' a n.
Proof.
  intros Hp. unfold objs_in. split.
  - intros (q & h' & Hq & Ho). apply lookup_delete_Some in Hq as [Hne Hq]. exists q, h'. done.
  - intros (q & h' & Hne & Hq & Ho). exists q, h'. by rewrite lookup_delete_ne.
Qed.

Lemma held_block E s B H L p h : slab_inv E s B H L → sl_pages s !! p = Some h →
  ∃ x, p = va s x ∧ H !! x = Some (order_of h) ∧ virt_to_phys p s = x * 4096 ∧ ∃ pm B', pmm_free_pages (x * 4096) (order_of h) (sl_pmm s) = Ok pm ∧ freed (sl_pmm s) B x (order_of h) pm B'.
Proof.
  intros I Hp. destruct (inv_page _ _ _ _ _ _ _ I Hp) as (_ & x & -> & Hx & Hx0 & Hend & _). pose proof (pow_pos (order_of h)) as Hpow. pose proof (si_world _ _ _ _ _ I) as W. destruct (wo_block _ _ W x _ Hx) as (_ & Ob & U). cbn [w_pmm] in Ob.
  pose proof Ob as [Ho _ _ _]. specialize (Hpow ltac:(lia)). exists x. split; [done|]. split; [done|]. split; [by apply (phys_to_virt_eq _ _ _ _ _ x (sl_pmm s) I); lia|].
  destruct (free_spec (sl_pmm s) B x (order_of h) (wo_pmm _ _ W) Ob U) as (pm & B' & E1 & Fr). by exists pm, B'.
Qed.

Lemma slab_env_trans s s1 s2 : same_env s s1 → same_env s1 s2 → same_env s s2.
Proof. intros (A1 & A2 & A3) (B1 & B2 & B3). split; [congruence|]. split; [congruence|]. by eapply same_pool_trans. Qed.

(** A slab without objects goes back; any other stays. *)
Lemma drop_empty s B H L c cc p sp F : slab_inv (λ q, q = p) s B H L → cache_pool s !! c = Some cc → sl_pages s !! p = Some (Slab sp) → sp_cache sp = Some c → sp_used sp < sp_capacity sp → frames_ok F B H →
  ∃ s' B' H' L', (if sp_used sp =? 0 then s ← list_remove set_partial c p s; pm ← pmm_free_pages (virt_to_phys p s) 0 (sl_pmm s); Ok (with_pages (delete p (sl_pages s)) (with_pmm pm s)) else Ok s) = Ok s' ∧
    slab_inv (λ _, False) s' B' H' L' ∧ frames_ok F B' H' ∧ same_env s s' ∧ ∀ a n, objs s' a n ↔ objs s a n.
Proof.
  intros I Hc Hp Hsc Hlt HF. destruct (si_hdr _ _ _ _ _ I p _ Hp) as (c' & cc' & [K1 K2 K3 K4 K5] & _). rewrite Hsc in K1. injection K1 as <-. rewrite Hc in K2. injection K2 as <-.
  pose proof (cap_range cc (si_caches _ _ _ _ _ I _ _ Hc)) as [Hcap _]. pose proof (cnt_range (sp_bitmap sp) (cap_of cc) ltac:(lia)) as Hcr. destruct (Z.eqb_spec (sp_used sp) 0) as [E0|E0].
  - destruct (lists_of _ _ _ _ _ _ _ I Hc) as (lp & _ & Hl & _). assert (p ∈ lp) as Hin by (apply (si_mem _ _ _ _ _ I _ _ _ _ Hl); exists sp; split; [done|]; split; [done|]; apply Z.eqb_neq; lia).
    apply list_elem_of_split in Hin as (l1 & l2 & ->). destruct (slab_remove_spec false c p s L l1 l2 cc (si_links _ _ _ _ _ I) Hl Hc) as (s1 & E1 & (S1 & S2 & S3) & P1 & C1 & L1 & U1).
    change (put false) with set_partial in E1. rewrite E1. cbn [mbind outcome_bind]. destruct (held_block _ _ _ _ _ _ _ I Hp) as (x & Ex & Hx & Ev & pm & B' & Ef & Fr). cbn [order_of] in *.
    assert (virt_to_phys p s1 = x * 4096) as -> by (unfold virt_to_phys in *; by rewrite S2). rewrite S1, Ef. cbn [mbind outcome_bind]. set (s2 := with_pages _ _). exists s2, B', (delete x H), (<[(c, false) := l1 ++ l2]> L).
    assert (same_pool (cache_pool s) (cache_pool s2)) as Q2 by (unfold s2; cbn; rewrite C1; by apply (shape_insert _ _ cc)).
    assert (NoDup (l1 ++ p :: l2)) as N by (destruct (ln_list _ _ _ (si_links _ _ _ _ _ I) _ _ _ _ Hl Hc) as (N & _); done).
    split; [done|]. split.
    { apply (uninstall (λ q, q = p) s s2 B B' H L (<[(c, false) := l1 ++ l2]> L) p x (Slab sp) pm (sl_pages s1) I Hp Ex Fr Hx P1); try done.
      intros c0 b0 l0 q Hl0 Hne. apply lookup_insert_Some in Hl0 as [[[= <- <-] <-]|[_ Hl0]]; [|by apply (si_mem _ _ _ _ _ I)]. rewrite <- (si_mem _ _ _ _ _ I _ _ _ _ Hl). set_solver. }
    split; [by eapply frames_free|]. split; [split; [done|]; split; done|]. intros a n. unfold objs. cbn [s2 with_pages sl_pages].
    assert (objs_in (delete p (sl_pages s1)) (cache_pool s2) a n ↔ objs_in (delete p (sl_pages s)) (cache_pool s) a n) as ->.
    { apply objs_same; [|done]. intros q. destruct (decide (p = q)) as [->|]; [by rewrite !lookup_delete_eq|by rewrite !lookup_delete_ne]. }
    rewrite (objs_delete _ _ _ _ _ _ Hp). unfold objs_in. split; [intros (q & h & _ & Hq & Ho); by exists q, h|]. intros (q & h & Hq & Ho). exists q, h. split; [|done]. intros ->.
    rewrite Hp in Hq. injection Hq as <-. destruct Ho as (c' & cc' & i & F1 & F2 & Hi & Ht & _). rewrite Hsc in F1. injection F1 as <-. rewrite Hc in F2. injection F2 as <-.
    rewrite (cnt_zero _ (cap_of cc) i) in Ht by (done || lia). done.
  - exists s, B, H, L. split; [done|]. split; [|done]. destruct I as [I1 I2 I3 I4 I5 I6 I7 I8]. constructor; try done. intros q h Hq. specialize (I6 q h Hq). destruct h as [sq|]; [|done].
    destruct I6 as (c' & cc' & K & Hu). exists c', cc'. split; [done|]. left. destruct Hu as [?| ->]; [done|]. rewrite Hp in Hq. injection Hq as <-. lia.
Qed.

Lemma tk_word bm i : bm_ok bm → 0 ≤ i < 512 → ∃ b, bm !! Z.to_nat (i / 64) = Some b ∧ tk bm i = Z.testbit b (i mod 64) ∧ 0 ≤ i / 64 < 8 ∧ 0 ≤ i mod 64 < 64 ∧ i = i / 64 * 64 + i mod 64.
Proof.
  intros [HL _] Hi. assert (0 ≤ i / 64 < 8) as Hd by (split; [apply Z.div_pos; lia|apply Z.div_lt_upper_bound; lia]). destruct (lookup_lt_is_Some_2 bm (Z.to_nat (i / 64))) as [b Hb]; [lia|].
  exists b. split; [done|]. split; [unfold tk; by rewrite Hb|]. split; [done|]. split; [apply Z.mod_pos_bound; lia|]. pose proof (Z.div_mod i 64). lia.
Qed.

Lemma free_bit_spec p s sp i : sl_pages s !! p = Some (Slab sp) → bm_ok (sp_bitmap sp) → 0 ≤ i < 512 → tk (sp_bitmap sp) i = true →
  ∃ bm, free_in_slab p i s = Ok (with_pages (<[p := Slab (set_used_bitmap (u32 (sp_used sp - 1)) bm sp)]> (sl_pages s)) s) ∧ bm_ok bm ∧
    ∀ j, 0 ≤ j < 512 → tk bm j = if decide (j = i) then false else tk (sp_bitmap sp) j.
Proof.
  intros Hp Hbm Hi Ht. destruct (tk_word _ _ Hbm Hi) as (b & Hb & Htb & Hw & Hm & Ei). unfold free_in_slab. rewrite (get_slab_eq _ _ _ Hp). cbn [mbind outcome_bind]. rewrite Hb. cbn [deref mbind outcome_bind].
  assert (has b (Z.shiftl 1 (i mod 64)) = true) as -> by (rewrite Z.shiftl_1_l, has_testbit by lia; congruence). cbn [negb panic_if mbind outcome_bind]. rewrite (upd_slab_page _ _ _ _ Hp). eexists. split; [done|].
  replace b with (default 0 (sp_bitmap sp !! Z.to_nat (i / 64))) by by rewrite Hb. split; [by apply (insert_bm_ok _ (i / 64) (i mod 64) false)|]. intros j Hj.
  rewrite (tk_insert _ (i / 64) (i mod 64) false j) by done. by rewrite <- Ei.
Qed.

Lemma cache_free_spec s B H L c cc p sp i F : slab_inv (λ _, False) s B H L → frames_ok F B H → sl_pages s !! p = Some (Slab sp) → sp_cache sp = Some c → cache_pool s !! c = Some cc → 0 ≤ i < cap_of cc →
  tk (sp_bitmap sp) i = true → let a0 := p + obj_off cc + i * object_size cc in
  ∃ s' B' H' L', kmem_cache_free c a0 s = Ok s' ∧ slab_inv (λ _, False) s' B' H' L' ∧ frames_ok F B' H' ∧ same_env s s' ∧ ∀ a n, objs s' a n ↔ objs s a n ∧ a ≠ a0.
Proof.
  intros I HF Hp Hsc Hc Hi Ht a0. destruct (si_hdr _ _ _ _ _ I p _ Hp) as (c' & cc' & [K1 K2 K3 K4 K5] & Hpos). rewrite Hsc in K1. injection K1 as <-. rewrite Hc in K2. injection K2 as <-. destruct Hpos as [Hpos|[]].
  pose proof (si_caches _ _ _ _ _ I _ _ Hc) as Hco. pose proof (cap_range cc Hco) as [Hcap Hend]. pose proof (obj_off_range cc Hco) as [Hoff _]. pose proof (co_size _ Hco) as [Hsz _]. destruct (inv_page _ _ _ _ _ _ _ I Hp) as [Hpage _].
  pose proof Hpage as (Hp0 & Hp1 & _). assert (0 ≤ i * object_size cc ≤ (cap_of cc - 1) * object_size cc) as Hio by nia. pose proof (cnt_range (sp_bitmap sp) (cap_of cc) ltac:(lia)) as Hcr.
  unfold kmem_cache_free. rewrite (proj2 (Z.eqb_neq a0 0)) by (unfold a0; lia). rewrite (page_of p a0 Hpage) by (unfold a0; lia). unfold cache_of. rewrite Hp. cbn [mbind outcome_bind]. rewrite Hsc, bool_decide_true by done.
  cbn [negb panic_if mbind outcome_bind]. rewrite (get_slab_eq _ _ _ Hp). cbn [mbind outcome_bind]. unfold get_cache at 1. rewrite Hc. cbn [deref mbind outcome_bind].
  rewrite (first_object_eq p cc Hpage Hco). assert (sub64 a0 (p + obj_off cc) / object_size cc = i) as ->.
  { rewrite sub64_small by (unfold a0; lia). unfold a0. replace (p + obj_off cc + i * object_size cc - (p + obj_off cc)) with (i * object_size cc) by lia. apply Z.div_mul. lia. }
  assert (to_int32 (u32 i) = i) as -> by (unfold u32, to_int32; rewrite Z.mod_small by lia; destruct (Z.ltb_spec i (2 ^ 31)); lia).
  destruct (free_bit_spec p s sp i Hp K4 ltac:(lia) Ht) as (bm & -> & Hbm & Htk). cbn [mbind outcome_bind].
  assert (cnt bm (cap_of cc) = cnt (sp_bitmap sp) (cap_of cc) - 1) as Hcn by (rewrite (cnt_flip (sp_bitmap sp) bm (cap_of cc) i false) by (done || (intros j Hj; apply Htk; lia)); lia).
  assert (u32 (sp_used sp - 1) = cnt bm (cap_of cc)) as -> by (rewrite K5; unfold u32; rewrite Z.mod_small by lia; lia).
  set (sp1 := set_used_bitmap (cnt bm (cap_of cc)) bm sp). set (s1 := with_pages (<[p := Slab sp1]> (sl_pages s)) s). rewrite (upd_cache_pool c _ s1 cc Hc). cbn [mbind outcome_bind]. set (s2 := with_pool _ s1).
  assert (links (sl_pages s2) (cache_pool s2) L) as L2.
  { apply (links_pool (sl_pages s1) (cache_pool s1)); [|done|intros b; apply sel_count]. apply (slab_links_upd _ _ _ p sp (set_used_bitmap (cnt bm (cap_of cc)) bm)); [apply I|done..]. }
  assert (c < length (cache_pool s))%nat as Hlt by by eapply lookup_lt_Some. assert (cache_pool s2 !! c = Some (count_free cc)) as Hc2 by (unfold s2; cbn; by apply list_lookup_insert_eq).
  assert (sl_pages s2 !! p = Some (Slab sp1)) as Hp2 by (unfold s2, s1; cbn; apply lookup_insert_eq). assert (same_pool (cache_pool s) (cache_pool s2)) as Q2 by (unfold s2; cbn; by apply (shape_insert _ _ cc)).
  assert (∃ s3 L3, (if sp_used sp =? sp_capacity sp then s ← list_remove set_full c p s2; list_push partial set_partial c p s else Ok s2) = Ok s3 ∧ same_sys s s3 ∧ same_pages (sl_pages s2) (sl_pages s3) ∧
    same_pool (cache_pool s2) (cache_pool s3) ∧ links (sl_pages s3) (cache_pool s3) L3 ∧ ∀ c0 b0 l0 q, L3 !! (c0, b0) = Some l0 → q ∈ l0 ↔ in_list (<[p := Slab sp1]> (sl_pages s)) c0 b0 q)
    as (s3 & L3 & -> & T3 & P3 & Q3 & HL3 & Hm3).
  { destruct (Z.eqb_spec (sp_used sp) (sp_capacity sp)) as [Ef|Ef].
    - destruct (lists_of _ _ _ _ _ _ _ I Hc) as (lp & lf & Hlp & Hlf). assert (p ∈ lf) as Hin by (apply (si_mem _ _ _ _ _ I _ _ _ _ Hlf); exists sp; split; [done|]; split; [done|]; by apply Z.eqb_eq).
      apply list_elem_of_split in Hin as (l1 & l2 & ->). destruct (move_spec true s2 L c (count_free cc) p sp1 l1 l2 lp L2 Hc2 Hp2 Hlf Hlp) as (s3 & E3 & T3 & P3 & Q3 & HL3).
      exists s3, (<[(c, false) := p :: lp]> (<[(c, true) := l1 ++ l2]> L)). split; [exact E3|]. split; [exact T3|]. split; [done|]. split; [done|]. split; [done|].
      apply (moved_mem (sl_pages s) L p sp1 c true l1 l2 lp); [apply I|done|done| |done|].
      + by destruct (ln_list _ _ _ (si_links _ _ _ _ _ I) _ _ _ _ Hlf Hc) as (N & _).
      + unfold sp1. cbn [set_used_bitmap sp_used sp_capacity negb]. rewrite K3. apply Z.eqb_neq. lia.
    - exists s2, L. split; [done|]. split; [done|]. split; [done|]. split; [done|]. split; [done|]. intros c0 b0 l0 q Hl0. rewrite in_list_insert. rewrite (si_mem _ _ _ _ _ I _ _ _ _ Hl0). case_decide as D; [|done]. subst q.
      unfold sp1. cbn [set_used_bitmap sp_cache sp_used sp_capacity]. rewrite K3. rewrite (proj2 (Z.eqb_neq (cnt bm (cap_of cc)) (cap_of cc))) by lia. unfold in_list. rewrite Hp. split.
      + intros (sp' & [= <-] & ? & Hb). split; [done|]. rewrite <- Hb. symmetry. by apply Z.eqb_neq.
      + intros [? <-]. exists sp. split; [done|]. split; [done|]. by apply Z.eqb_neq. }
  cbn [mbind outcome_bind]. destruct (same_pages_slab _ _ _ _ P3 Hp2) as (sp3 & Hp3 & Hst3). destruct (strip_slab _ _ Hst3) as (F1 & F2 & F3 & F4). rewrite (get_slab_eq _ _ _ Hp3). cbn [mbind outcome_bind].
  destruct (shape_lookup _ _ _ _ Q3 Hc2) as (cc3 & Hc3 & Hsh3). assert (same_pool (cache_pool s) (cache_pool s3)) as Q03 by by eapply same_pool_trans.
  assert (slab_inv (λ q, q = p) s3 B H L3) as I3.
  { apply (reassemble (λ _, False) _ s s3 B H L L3 p sp sp1 I Hp P3 Q03 T3 HL3); [|done|exact Hm3]. exists c, cc. split; [|by right]. constructor; try done. }
  destruct (drop_empty s3 B H L3 c cc3 p sp3 F I3 Hc3 Hp3) as (s4 & B' & H' & L' & E4 & I4 & HF4 & V4 & Ho4); [rewrite F1; done|rewrite F2, F3; unfold sp1; cbn; lia|done|].
  exists s4, B', H', L'. split; [exact E4|]. split; [done|]. split; [done|]. destruct T3 as (T31 & T32 & T33). split; [eapply slab_env_trans; [|exact V4]; by split; [|split]|].
  intros a n. rewrite Ho4. unfold objs at 1. rewrite (objs_same (<[p := Slab sp1]> (sl_pages s)) _ (cache_pool s)) by done.
  apply (objs_flip (sl_pages s) (cache_pool s) p sp c cc i false bm (cnt bm (cap_of cc))); try done; [lia|]. intros _ q h n' Hq Hne.
  eapply (hobj_other (λ _, False) s B H L p (Slab sp)); [exact I|exact Hp|exact Hq|exact Hne|]. simpl. lia.
Qed.

Lemma slab_kfree_spec s B H L F a n : slab_inv (λ _, False) s B H L → frames_ok F B H → objs s a n →
  ∃ s' B' H' L', kfree a s = Ok s' ∧ slab_inv (λ _, False) s' B' H' L' ∧ frames_ok F B' H' ∧ same_env s s' ∧ ∀ a' n', objs s' a' n' ↔ objs s a' n' ∧ a' ≠ a.
Proof.
  intros I HF (p & h & Hp & Ho). destruct (hobj_range _ _ _ _ _ _ _ _ _ I Hp Ho) as (R1 & R2 & R3 & _). destruct (inv_page _ _ _ _ _ _ _ I Hp) as [Hpage _]. pose proof Hpage as (Hp0 & Hp1 & _).
  unfold kfree. rewrite (proj2 (Z.eqb_neq a 0)) by lia. destruct h as [sp|k m o].
  - cbn [order_of] in R3. change (2 ^ 0) with 1 in R3. rewrite (page_of p a Hpage) by lia. unfold page_kind. rewrite Hp. cbn [mbind outcome_bind].
    change (PAGE_KIND_SLAB =? PAGE_KIND_LARGE) with false. change (PAGE_KIND_SLAB =? PAGE_KIND_SLAB) with true. cbv iota. unfold cache_of. rewrite Hp. cbn [mbind outcome_bind].
    destruct Ho as (c & cc & i & Hc & Hpool & Hi & Ht & -> & ->). rewrite Hc. by apply (cache_free_spec s B H L c cc p sp i F).
  - destruct Ho as [-> ->]. destruct (si_hdr _ _ _ _ _ I p _ Hp) as (-> & -> & Hor). rewrite (page_of p (p + 56) Hpage) by lia. unfold page_kind. rewrite Hp. cbn [mbind outcome_bind].
    change (PAGE_KIND_LARGE =? PAGE_KIND_LARGE) with true. cbv iota. unfold large_hdr_size. rewrite add64_small by lia. rewrite Z.eqb_refl. cbn [negb panic_if mbind outcome_bind].
    unfold large_free, large_hdr_size. assert (sub64 (p + 56) 56 = p) as -> by (rewrite sub64_small; lia). rewrite Hp. change (PAGE_KIND_LARGE =? PAGE_KIND_LARGE) with true. rewrite Z.eqb_refl.
    cbn [negb orb panic_if mbind outcome_bind]. destruct (held_block _ _ _ _ _ _ _ I Hp) as (x & Ex & Hx & Ev & pm & B' & Ef & Fr). rewrite Ev. cbn [order_of] in *. rewrite Ef. cbn [mbind outcome_bind].
    set (s' := with_pages _ _). exists s', B', (delete x H), L. split; [done|]. split.
    { apply (uninstall (λ _, False) s s' B B' H L L p x _ pm (sl_pages s) I Hp Ex Fr Hx); try done; [apply I|..].
      - intros [c b] l Hl Hin. apply (si_mem _ _ _ _ _ I _ _ _ _ Hl) in Hin as (sp & E1 & _). congruence.
      - intros c b l q Hl _. by apply (si_mem _ _ _ _ _ I). }
    split; [by eapply frames_free|]. split; [done|]. intros a' n'. unfold objs. cbn [s' with_pages sl_pages with_pmm cache_pool]. rewrite (objs_delete _ _ _ _ _ _ Hp). split.
    + intros (q & h' & Hne & Hq & Ho). split; [by exists q, h'|]. intros ->. eapply (hobj_other (λ _, False) s B H L p); [exact I|exact Hp|exact Hq|exact Hne| |exact Ho]. simpl. pose proof (pow_pos o ltac:(lia)). lia.
    + intros [(q & h' & Hq & Ho) Hne]. exists q, h'. split; [|done]. intros ->. rewrite Hp in Hq. injection Hq as <-. destruct Ho as [-> _]. done.
Qed.
