(* ===== verification/SlabSystem.v ===== *)
(** * What kmalloc promises

    From [slab_init] on, clients allocate and free; allocations never overlap,
    stay clear of the headers, and everything is given back in the end. *)

From S2P Require Import Prelude Pmm PmmList PmmSpec PmmAlloc PmmInit PmmSystem Slab SlabList SlabSpec.

(** The eight size classes. *)
Definition classes : list kmem_cache := (λ k, Cache (2 ^ k) (Z.min (2 ^ k) 64) 0 0 0 0 0) <$> seqZ 4 8.

Lemma slab_init_eq s : slab_init s = Ok (with_kmalloc (seq 0 8) (with_pool classes s)).
Proof. destruct s. vm_compute. reflexivity. Qed.

Definition kmalloc_ok (s : slab) : Prop := kmalloc_caches s = seq 0 8 ∧ same_pool classes (cache_pool s).

Lemma class_at s k : kmalloc_ok s → 4 ≤ k ≤ 11 → ∃ cc, kmalloc_caches s !! Z.to_nat (k - 4) = Some (Z.to_nat (k - 4)) ∧ cache_pool s !! Z.to_nat (k - 4) = Some cc ∧ object_size cc = 2 ^ k ∧ align cc = Z.min (2 ^ k) 64.
Proof.
  intros [E1 E2] Hk. rewrite E1, lookup_seq_lt by lia. assert (classes !! Z.to_nat (k - 4) = Some (Cache (2 ^ k) (Z.min (2 ^ k) 64) 0 0 0 0 0)) as Hc.
  { unfold classes. rewrite list_lookup_fmap, lookup_seqZ_lt by lia. cbn [fmap option_fmap option_map]. by replace (4 + Z.of_nat (Z.to_nat (k - 4))) with k by lia. }
  destruct (shape_lookup _ _ _ _ E2 Hc) as (cc & Hcc & Hsh). injection Hsh as H1 H2. exists cc. done.
Qed.

Lemma class_shift_spec size : 0 < size → ∀ fuel shift, 4 ≤ shift ≤ 11 → size ≤ 2 ^ 11 → 12 - shift ≤ Z.of_nat fuel →
  ∃ k, class_shift fuel shift size = Ok k ∧ shift ≤ k ≤ 11 ∧ size ≤ 2 ^ k ∧ (shift < k → 2 ^ (k - 1) < size).
Proof.
  intros Hs. induction fuel as [|fuel IH]; intros shift Hsh H11 Hf; [lia|]. cbn [class_shift]. rewrite Z.shiftl_1_l. destruct (Z.ltb_spec (2 ^ shift) size) as [Hlt|Hge].
  - assert (shift ≠ 11) by (intros ->; lia). destruct (IH (shift + 1) ltac:(lia) H11 ltac:(lia)) as (k & E & H1 & H2 & H3). exists k. split; [done|]. split; [lia|]. split; [done|]. intros _.
    destruct (decide (shift + 1 = k)) as [<-|]; [by replace (shift + 1 - 1) with shift by lia|apply H3; lia].
  - exists shift. split; [done|]. split; [lia|]. split; [done|]. lia.
Qed.

(** The alignment of an allocation of [size] bytes: 8 for those with a header of their own, 16 for the
    others, and 64 for these when they are larger than 32 bytes. *)
Definition aligned (size a : Z) : Prop := (8 | a) ∧ (size ≤ 2048 → (16 | a) ∧ (32 < size → (64 | a))).

Lemma aligned_mult size a b : aligned size a → (a | b) → aligned size b.
Proof.
  intros [H1 H2] Hb. split; [by eapply Z.divide_trans|]. intros Hs. destruct (H2 Hs) as [H3 H4]. split; [by eapply Z.divide_trans|].
  intros H. eapply Z.divide_trans; [by apply H4|done].
Qed.

(** Every allocation: refused for want of frames, or large enough and aligned. *)
Lemma kmalloc_spec s B H L F size : slab_inv (λ _, False) s B H L → frames_ok F B H → kmalloc_ok s → 0 < size →
  ∃ r s' B' H' L' n al, kmalloc size s = Ok (r, s') ∧ slab_inv (λ _, False) s' B' H' L' ∧ frames_ok F B' H' ∧ kmalloc_ok s' ∧ allocated s B r n al s' ∧
    (r ≠ 0 → size ≤ n ∧ aligned size al) ∧
    (r = 0 → 4096 * 2 ^ 10 - large_hdr_size < size ∨ ∀ x o, B !! x = Some o → 4096 * 2 ^ o < size + large_hdr_size).
Proof.
  intros I HF HK Hs. unfold kmalloc. rewrite (proj2 (Z.eqb_neq size 0)) by lia. unfold KMALLOC_MAX_SHIFT, KMALLOC_MIN_SHIFT. rewrite Z.shiftl_1_l.
  assert (∀ s', same_env s s' → kmalloc_ok s') as Henv by (intros s' (_ & V2 & V3); destruct HK; split; [congruence|by eapply same_pool_trans]).
  destruct (Z.gtb_spec size (2 ^ 11)) as [Hbig|Hsmall].
  - destruct (large_alloc_spec s B H L size F I HF Hs) as (r & s' & B' & H' & o & E & I' & HF' & V & A & Hn & H0). exists r, s', B', H', L, (large_room o), 8.
    split; [done|]. split; [done|]. split; [done|]. split; [by apply Henv|]. split; [done|]. split; [|done]. intros Hr. split; [by apply Hn|]. split; [by exists 1|]. lia.
  - destruct (class_shift_spec size Hs 12 4 ltac:(lia) ltac:(lia) ltac:(lia)) as (k & -> & Hk & Hk2 & Hk3). cbn [mbind outcome_bind]. destruct (class_at s k HK ltac:(lia)) as (cc & -> & Hc & Eo & Ea).
    cbn [deref mbind outcome_bind]. destruct (cache_alloc_spec s B H L _ cc F I Hc HF) as (r & s' & B' & H' & L' & E & I' & HF' & V & A & H0). exists r, s', B', H', L', (object_size cc), (align cc).
    split; [done|]. split; [done|]. split; [done|]. split; [by apply Henv|]. split; [done|]. rewrite Eo, Ea. split.
    + intros _. split; [done|]. assert (2 ^ 4 ≤ 2 ^ k) by (apply Z.pow_le_mono_r; lia). destruct (decide (6 ≤ k)) as [H6|H6].
      * assert (2 ^ 6 ≤ 2 ^ k) by (apply Z.pow_le_mono_r; lia). rewrite Z.min_r by lia. split; [by exists 8|]. intros _. split; [by exists 4|]. intros _. by exists 1.
      * assert (k = 4 ∨ k = 5) as [-> | ->] by lia; [split; [by exists 2|]; intros _; split; [by exists 1|]|split; [by exists 4|]; intros _; split; [by exists 2|]]; intros; lia.
    + intros Hr. right. intros x o Hx. exfalso. apply (H0 Hr x). exists x, o. split; [done|]. pose proof (wo_pmm _ _ (si_world _ _ _ _ _ I)) as O. pose proof (ok_blocks _ _ O _ _ Hx) as [? _ _ _]. pose proof (pow_pos o ltac:(lia)). lia.
Qed.

(** Different objects have no common byte. *)
Lemma objs_apart s B H L a n a' n' : slab_inv (λ _, False) s B H L → objs s a n → objs s a' n' → a ≠ a' → a + n ≤ a' ∨ a' + n' ≤ a.
Proof.
  intros I (p & h & Hp & Ho) (q & h' & Hq & Ho') Hne. destruct (hobj_range _ _ _ _ _ _ _ _ _ I Hp Ho) as (A1 & A2 & A3 & _). destruct (hobj_range _ _ _ _ _ _ _ _ _ I Hq Ho') as (B1 & B2 & B3 & _).
  destruct (decide (p = q)) as [->|Hpq]; [|destruct (pages_apart _ _ _ _ _ _ _ _ _ I Hp Hq Hpq); lia]. rewrite Hp in Hq. injection Hq as <-. destruct h as [sp|k m o]; [|destruct Ho, Ho'; lia].
  destruct Ho as (c & cc & i & C1 & C2 & Hi & _ & -> & ->), Ho' as (c' & cc' & j & D1 & D2 & Hj & _ & -> & ->). rewrite C1 in D1. injection D1 as <-. rewrite C2 in D2. injection D2 as <-.
  destruct (Z.lt_trichotomy i j) as [?|[->|?]]; [left; nia|done|right; nia].
Qed.

Lemma objs_size_unique s B H L a n n' : slab_inv (λ _, False) s B H L → objs s a n → objs s a n' → n = n'.
Proof.
  intros I (p & h & Hp & Ho) (q & h' & Hq & Ho'). destruct (hobj_range _ _ _ _ _ _ _ _ _ I Hp Ho) as (A1 & A2 & A3 & _). destruct (hobj_range _ _ _ _ _ _ _ _ _ I Hq Ho') as (B1 & B2 & B3 & _).
  destruct (decide (p = q)) as [->|Hpq]; [|destruct (pages_apart _ _ _ _ _ _ _ _ _ I Hp Hq Hpq); lia]. rewrite Hp in Hq. injection Hq as <-. destruct h as [sp|k m o]; [|destruct Ho as [_ ->], Ho' as [_ ->]; done].
  destruct Ho as (c & cc & i & C1 & C2 & _ & _ & _ & ->), Ho' as (c' & cc' & j & D1 & D2 & _ & _ & _ & ->). congruence.
Qed.

(** ** The clients *)

(** The allocator, and the allocations its clients hold, with the sizes they asked for. *)
Record heap := Heap { h_slab : slab; h_held : gmap Z Z }.

Inductive heap_step : heap → heap → Prop :=
| step_kmalloc s D size a s' : 0 < size → kmalloc size s = Ok (a, s') → a ≠ 0 → heap_step (Heap s D) (Heap s' (<[a := size]> D))
| step_kmalloc_none s D size s' : 0 < size → kmalloc size s = Ok (0, s') → heap_step (Heap s D) (Heap s' D)
| step_kfree s D a size s' : D !! a = Some size → kfree a s = Ok s' → heap_step (Heap s D) (Heap s' (delete a D)).

Record heap_ok (F : Z → Prop) (w : heap) (B H : gmap Z Z) (L : slists) : Prop := {
  hk_inv : slab_inv (λ _, False) (h_slab w) B H L;
  hk_frames : frames_ok F B H;
  hk_classes : kmalloc_ok (h_slab w);
  hk_held : ∀ a size, h_held w !! a = Some size → 0 < size ∧ ∃ n, objs (h_slab w) a n ∧ size ≤ n ∧ aligned size a;
  hk_objs : ∀ a n, objs (h_slab w) a n → is_Some (h_held w !! a)
}.

Lemma heap_step_ok F w w' B H L : heap_ok F w B H L → heap_step w w' → ∃ B' H' L', heap_ok F w' B' H' L'.
Proof.
  intros [I HF HK Hh Ho] St. destruct St as [s D size a s' Hs E Ha|s D size s' Hs E|s D a size s' Hd E]; cbn [h_slab h_held] in *.
  - destruct (kmalloc_spec s B H L F size I HF HK Hs) as (r & s1 & B' & H' & L' & n & al & E1 & I' & HF' & HK' & A & Hn & _). rewrite E in E1. injection E1 as <- <-. exists B', H', L'.
    destruct A as [[? _]|(_ & Hal & Hnew & Hobj)]; [done|]. destruct (Hn Ha) as (N1 & N2). constructor; cbn [h_slab h_held]; try done.
    + intros b sz. rewrite lookup_insert_Some. intros [[<- <-]|[Hne Hb]].
      * split; [done|]. exists n. split; [apply Hobj; by right|]. split; [done|]. by eapply aligned_mult.
      * destruct (Hh b sz Hb) as (Hz & m & Hm & ?). split; [done|]. exists m. split; [apply Hobj; by left|done].
    + intros b m [Hb|[-> ->]]%Hobj; [|by rewrite lookup_insert_eq]. apply lookup_insert_is_Some'. right. by eapply Ho.
  - destruct (kmalloc_spec s B H L F size I HF HK Hs) as (r & s1 & B' & H' & L' & n & al & E1 & I' & HF' & HK' & A & _). rewrite E in E1. injection E1 as <- <-. exists B', H', L'.
    destruct A as [[_ ->]|(? & _)]; [|done]. by constructor.
  - destruct (Hh a size Hd) as (_ & n & Hobj & _). destruct (slab_kfree_spec s B H L F a n I HF Hobj) as (s1 & B' & H' & L' & E1 & I' & HF' & (_ & V2 & V3) & Hob). rewrite E in E1. injection E1 as <-. exists B', H', L'.
    constructor; cbn [h_slab h_held]; [done|done| | |].
    + destruct HK. split; [congruence|by eapply same_pool_trans].
    + intros b sz. rewrite lookup_delete_Some. intros [Hne Hb]. destruct (Hh b sz Hb) as (Hz & m & Hm & ?). split; [done|]. exists m. split; [apply Hob; done|done].
    + intros b m [Hb Hne]%Hob. rewrite lookup_delete_ne by done. by eapply Ho.
Qed.

Lemma heap_reachable F w w' B H L : heap_ok F w B H L → rtc heap_step w w' → ∃ B' H' L', heap_ok F w' B' H' L'.
Proof. intros W R. revert B H L W. induction R as [|w1 w2 w3 St R IH]; intros B H L W; [eauto|]. destruct (heap_step_ok _ _ _ _ _ _ W St) as (B' & H' & L' & W'). by eapply IH. Qed.

(** A kernel window on memory in which nothing is allocated yet. *)
Record fresh_slab (s : slab) (B : gmap Z Z) : Prop := {
  fs_pmm : pmm_ok (sl_pmm s) B;
  fs_zero : ¬ ff B 0;
  fs_hhdm : 0 < sl_hhdm s ∧ (4096 | sl_hhdm s) ∧ sl_hhdm s + pfn_count (sl_pmm s) * 4096 ≤ 2 ^ 64;
  fs_pages : sl_pages s = ∅
}.

Lemma class_ok k : 4 ≤ k ≤ 11 → cache_ok (Cache (2 ^ k) (Z.min (2 ^ k) 64) 0 0 0 0 0).
Proof.
  intros Hk. assert (k = 4 ∨ k = 5 ∨ k = 6 ∨ k = 7 ∨ k = 8 ∨ k = 9 ∨ k = 10 ∨ k = 11) as Hc by lia. destruct Hc as [->|[->|[->|[->|[->|[->|[->| ->]]]]]]].
  all: constructor; [first [by exists 4|by exists 5|by exists 6]|split; [vm_compute; reflexivity|apply Z.mod_divide; vm_compute; [discriminate|reflexivity]]|vm_compute; discriminate].
Qed.

(** The lists of all caches are empty at first. *)
Definition no_slabs : slists := list_to_map ((λ k, (k, [])) <$> ((λ c, (c, false)) <$> seq 0 8) ++ ((λ c, (c, true)) <$> seq 0 8)).

Lemma no_slabs_at k l : no_slabs !! k = Some l → l = [].
Proof. intros E. apply elem_of_list_to_map_2 in E. apply list_elem_of_fmap in E as (? & E & _). by injection E. Qed.

Lemma no_slabs_dom c b : is_Some (no_slabs !! (c, b)) ↔ (c < 8)%nat.
Proof.
  split.
  - intros [l E]. apply elem_of_list_to_map_2 in E. apply list_elem_of_fmap in E as (k & E & Hk). injection E as <- _. apply elem_of_app in Hk as [Hk|Hk]; apply list_elem_of_fmap in Hk as (c' & [= -> ->] & Hc%elem_of_seq); lia.
  - intros Hc. do 8 (destruct c as [|c]; [destruct b; vm_compute; eauto|]). lia.
Qed.

Lemma heap_start s s' B : fresh_slab s B → slab_init s = Ok s' → heap_ok (ff B) (Heap s' ∅) B ∅ no_slabs.
Proof.
  intros [F1 F2 F3 F4] E. rewrite slab_init_eq in E. injection E as <-. constructor; cbn [h_slab h_held].
  - constructor; cbn [with_kmalloc with_pool sl_pmm sl_hhdm sl_pages cache_pool]; rewrite ?F4; try done.
    + intros c cc Hc. unfold classes in Hc. apply list_lookup_fmap_Some in Hc as (k & -> & Hk). apply lookup_seqZ in Hk as [-> Hk]. apply class_ok. lia.
    + constructor.
      * intros c b. rewrite no_slabs_dom. rewrite lookup_lt_is_Some. done.
      * intros c b l cc Hl Hc. rewrite (no_slabs_at _ _ Hl). split; [constructor|]. split; [|done]. unfold classes in Hc. apply list_lookup_fmap_Some in Hc as (k & -> & _). by destruct b.
      * intros k k' l l' p Hl _ Hp. rewrite (no_slabs_at _ _ Hl) in Hp. by apply elem_of_nil in Hp.
    + intros c b l p Hl. rewrite (no_slabs_at _ _ Hl). split; [by intros ?%elem_of_nil|]. intros (sp & Hp & _). by rewrite lookup_empty in Hp.
  - intros p. split; [by left|]. intros [?|(x & o & Hx & _)]; [done|by rewrite lookup_empty in Hx].
  - by split.
  - intros a size Ha. by rewrite lookup_empty in Ha.
  - intros a n (p & h & Hp & _). cbn in Hp. by rewrite F4, lookup_empty in Hp.
Qed.

(** ** The theorems *)

Definition header_size (h : header) : Z := match h with Slab _ => slab_page_size | Large _ _ _ => large_hdr_size end.


(** C28: kmalloc leaks no frame.  When everything allocated has been
    freed, the free frames of the page allocator are those it had before. *)
Theorem kmalloc_no_leak s s' B w :
  fresh_slab s B → slab_init s = Ok s' → rtc heap_step (Heap s' ∅) w → h_held w = ∅ →
  ∃ B', pmm_ok (sl_pmm (h_slab w)) B' ∧ (∀ p, ff B' p ↔ ff B p) ∧ sl_pages (h_slab w) = ∅.
Proof.
  intros Fs Ei R He. destruct (heap_reachable _ _ _ _ _ _ (heap_start s s' B Fs Ei) R) as (B' & H & L & [I HF HK Hh Ho]). clear Fs Ei R. exists B'. split; [apply (wo_pmm _ _ (si_world _ _ _ _ _ I))|].
  assert (sl_pages (h_slab w) = ∅) as Hnone.
  { apply map_eq. intros p. rewrite lookup_empty. destruct (sl_pages (h_slab w) !! p) as [h|] eqn:Hp; [|done]. exfalso. assert (∃ a n, hobj (cache_pool (h_slab w)) p h a n) as (a & n & Ha).
    { pose proof (si_hdr _ _ _ _ _ I p h Hp) as Hok. destruct h as [sp|k m o]; [|by eexists _, _]. destruct Hok as (c & cc & [K1 K2 K3 K4 K5] & [Hu|[]]). rewrite K5 in Hu. unfold cnt in Hu.
      destruct (filter (λ i, tk (sp_bitmap sp) i = true) (seqZ 0 (cap_of cc))) as [|i l] eqn:El; [simpl in Hu; lia|]. assert (i ∈ i :: l) as Hi by left. rewrite <- El in Hi. apply list_elem_of_filter in Hi as [Ht Hi%elem_of_seqZ].
      eexists _, _. exists c, cc, i. split; [done|]. split; [done|]. split; [lia|]. done. }
    destruct (Ho a n) as [sz Hsz]; [by exists p, h|]. by rewrite He, lookup_empty in Hsz. }
  split; [|done]. intros p. rewrite (HF p). split; [by left|]. intros [?|(x & o & Hx & _)]; [done|]. destruct (si_held _ _ _ _ _ I x o Hx) as [h Hh2]. by rewrite Hnone, lookup_empty in Hh2.
Qed.

(** Kmalloc gives as much as was asked for, or there is not enough memory.  A
    request for [size] bytes yields a new allocation of at least that size and leaves
    the others alone; it fails, with no effect, only when it is larger than the
    largest block or no free block is large enough. *)
Theorem kmalloc_correct s s' B w size :
  fresh_slab s B → slab_init s = Ok s' → rtc heap_step (Heap s' ∅) w → 0 < size →
  ∃ a s2 B2, pmm_ok (sl_pmm (h_slab w)) B2 ∧ kmalloc size (h_slab w) = Ok (a, s2) ∧
    (a = 0 ∧ s2 = h_slab w ∧ (4096 * 2 ^ 10 - large_hdr_size < size ∨ ∀ x o, B2 !! x = Some o → 4096 * 2 ^ o < size + large_hdr_size) ∨
     ∃ n, size ≤ n ∧ ¬ objs (h_slab w) a n ∧ ∀ b m, objs s2 b m ↔ objs (h_slab w) b m ∨ b = a ∧ m = n).
Proof.
  intros Fs Ei R Hs. destruct (heap_reachable _ _ _ _ _ _ (heap_start s s' B Fs Ei) R) as (B' & H & L & [I HF HK Hh Ho]). clear Fs Ei R.
  destruct (kmalloc_spec _ B' H L _ size I HF HK Hs) as (a & s2 & _ & _ & _ & n & al & E & _ & _ & _ & A & Hn & H0). exists a, s2, B'. split; [apply (wo_pmm _ _ (si_world _ _ _ _ _ I))|]. split; [done|].
  destruct A as [[-> ->]|(Ha & _ & A1 & A2)]; [left; split; [done|]; split; [done|by apply H0]|right]. exists n. split; [by apply Hn|]. done.
Qed.

(** ** On a small machine *)

Definition demo_pmm : pmm := match pmm_init demo_map ∅ with Ok s => s | _ => Pmm ∅ 0 ∅ empty_stats 0 ∅ end.
Definition demo_slab : slab := SlabState demo_pmm 0xFFFF800000000000 ∅ [] [].
Definition demo_start : slab := with_kmalloc (seq 0 8) (with_pool classes demo_slab).

Lemma demo_fresh : ∃ B, fresh_slab demo_slab B.
Proof.
  destruct (demo_init ∅) as (s & B & E & O & H0 & _). exists B. assert (demo_pmm = s) as Es by (unfold demo_pmm; by rewrite E). constructor; cbn [demo_slab sl_pmm sl_hhdm sl_pages].
  - by rewrite Es.
  - done.
  - assert (pfn_count demo_pmm = 32) as -> by (vm_compute; reflexivity). split; [lia|]. split; [by exists 0xFFFF800000000|lia].
  - done.
Qed.

(** Three allocations, an object of 128 bytes, two pages, and an object of 2048
    bytes; the first two are freed again. *)
Definition demo_addr (x off : Z) : Z := 0xFFFF800000000000 + x * 4096 + off.
Definition run (o : outcome (Z * slab)) : slab := match o with Ok (_, s) => s | _ => demo_start end.
Definition run_free (o : outcome slab) : slab := match o with Ok s => s | _ => demo_start end.
Definition demo_s1 : slab := run (kmalloc 100 demo_start).
Definition demo_s2 : slab := run (kmalloc 5000 demo_s1).
Definition demo_s3 : slab := run (kmalloc 2048 demo_s2).
Definition demo_s4 : slab := run_free (kfree (demo_addr 3 128) demo_s3).
Definition demo_s5 : slab := run_free (kfree (demo_addr 4 56) demo_s4).
Definition demo_s6 : slab := run_free (kfree (demo_addr 6 128) demo_s5).

Definition demo_held : gmap Z Z := <[demo_addr 6 128 := 2048]> (<[demo_addr 4 56 := 5000]> (<[demo_addr 3 128 := 100]> ∅)).

Lemma demo_steps : rtc heap_step (Heap demo_start ∅) (Heap demo_s3 demo_held).
Proof.
  eapply rtc_l; [apply (step_kmalloc _ _ 100 (demo_addr 3 128) demo_s1); [lia|vm_compute; reflexivity|done]|].
  eapply rtc_l; [apply (step_kmalloc _ _ 5000 (demo_addr 4 56) demo_s2); [lia|vm_compute; reflexivity|done]|].
  eapply rtc_l; [apply (step_kmalloc _ _ 2048 (demo_addr 6 128) demo_s3); [lia|vm_compute; reflexivity|done]|]. apply rtc_refl.
Qed.

Lemma demo_steps_free : rtc heap_step (Heap demo_start ∅) (Heap demo_s6 ∅).
Proof.
  etransitivity; [exact demo_steps|].
  eapply rtc_l; [apply (step_kfree _ _ (demo_addr 3 128) 100 demo_s4); [vm_compute; reflexivity|vm_compute; reflexivity]|].
  eapply rtc_l; [apply (step_kfree _ _ (demo_addr 4 56) 5000 demo_s5); [vm_compute; reflexivity|vm_compute; reflexivity]|].
  eapply rtc_l; [apply (step_kfree _ _ (demo_addr 6 128) 2048 demo_s6); [vm_compute; reflexivity|vm_compute; reflexivity]|].
  assert (delete (demo_addr 6 128) (delete (demo_addr 4 56) (delete (demo_addr 3 128) demo_held)) = ∅) as -> by (vm_compute; reflexivity). apply rtc_refl.
Qed.


Lemma kmalloc_no_leak_witness : sl_pages demo_s6 = ∅.
Proof.
  destruct demo_fresh as [B Fs]. destruct (kmalloc_no_leak demo_slab demo_start B (Heap demo_s6 ∅) Fs (slab_init_eq demo_slab) demo_steps_free eq_refl) as (B' & _ & _ & E). exact E.
Defined.

Lemma kmalloc_correct_witness : ∃ a s2, kmalloc 3000 demo_s3 = Ok (a, s2).
Proof.
  destruct demo_fresh as [B Fs]. destruct (kmalloc_correct demo_slab demo_start B (Heap demo_s3 demo_held) 3000 Fs (slab_init_eq demo_slab) demo_steps) as (a & s2 & _ & _ & E & _); [lia|]. exists a, s2. exact E.
Defined.

(** ** Behaviours worth knowing *)

(** An address inside an object frees the object. *)
Example kfree_of_the_middle : ('(a, s) ← kmalloc 100 demo_start; s ← kfree (a + 50) s; Ok (size (sl_pages s))) = Ok 0%nat.
Proof. vm_compute. reflexivity. Qed.

(** The header of a large allocation is meant to take 64 bytes and takes 56, so that the
    allocation is not aligned to 64 bytes, nor to 16. *)
Example large_misaligned : ('(a, _) ← kmalloc 5000 demo_start; Ok (a mod 64, a mod 16)) = Ok (56, 8).
Proof. vm_compute. reflexivity. Qed.

(** A cache for objects that do not fit into a page fails for ever and keeps a page. *)
Example oversized_cache :
  (let '(c, s) := kmem_cache_create 4096 8 demo_start in
   c ← deref c; '(a, s) ← kmem_cache_alloc c s; '(b, s) ← kmem_cache_alloc c s; Ok (a, b, size (sl_pages s))) = Ok (0, 0, 1%nat).
Proof. vm_compute. reflexivity. Qed.
