(* ===== verification/Fat32.v ===== *)
(** * kernel/fs/fat32: the read-only FAT32 file system

    buffer.c (a sector cache of its own), fat.c, inode.c, file.c, dir.c and super.c, over the disks and
    the transfers of [Bufcache].  [struct vfs_mount] is named by its slot; its device and
    private data are in [f_mnts].  In-memory inodes are values.  The outcomes of the
    coming allocations are [f_kmem] (none left: they succeed). *)

From S2P Require Import Prelude Bufcache.

Definition FAT32_SECTOR_SIZE : Z := 512.
Definition FAT32_DIRENT_SIZE : Z := 32.
Definition FAT32_NAME_LEN : nat := 11.
Definition FAT32_ROOT_INO : Z := 1.
Definition FAT32_ATTR_VOLUME_ID : Z := 0x08.
Definition FAT32_ATTR_DIRECTORY : Z := 0x10.
Definition FAT32_ATTR_LONG_NAME : Z := 0x0f.
Definition FAT32_DIRENT_END : Z := 0x00.
Definition FAT32_DIRENT_FREE : Z := 0xe5.
Definition FAT32_DIRENT_E5 : Z := 0x05.
Definition FAT32_ENTRY_MASK : Z := 0x0fffffff.
Definition FAT32_EOC_MIN : Z := 0x0ffffff8.
Definition FAT32_MIN_DATA_CLUSTERS : Z := 65525.
Definition FAT32_CACHE_SLOTS : nat := 64.
Definition FAT32_MODE_DIR : Z := 0x16d.
Definition FAT32_MODE_REG : Z := 0x124.

(** ** Data *)

Record fat32_dirent := Dirent {
  de_name : list Z;
  de_attr : Z;
  de_nt_reserved : Z;
  de_crt_time_tenth : Z;
  de_crt_time : Z;
  de_crt_date : Z;
  de_last_acc_date : Z;
  de_fst_clus_hi : Z;
  de_wrt_time : Z;
  de_wrt_date : Z;
  de_fst_clus_lo : Z;
  de_file_size : Z
}.

Record fat32_priv := Priv {
  bytes_per_sec : Z;
  sec_per_clus : Z;
  rsvd_sec : Z;
  num_fats : Z;
  fat_sz : Z;
  root_clus : Z;
  data_start_sec : Z;
  total_sectors : Z;
  cluster_count : Z;
  cluster_bytes : Z
}.

(** [struct vfs_inode] with its [struct fat32_inode_info]. *)
Record fat32_inode := Finode {
  fi_ino : Z;
  fi_first_cluster : Z;
  fi_attr : Z;
  fi_is_dir : bool;
  fi_size : Z;
  fi_mode : Z;
  fi_uid : Z;
  fi_gid : Z
}.

Record fat32_buffer := Fbuf { fb_bdev : option Z; fb_lba : Z; fb_refcount : Z; fb_data : list Z }.

Record fat32_slot := Fslot { fs_buf : fat32_buffer; fs_valid : bool; fs_loading : bool; fs_lru : Z }.

Record fat32_mnt := Fmnt { fm_bdev : Z; fm_priv : option fat32_priv }.

Record fat := Fat {
  f_slots : list fat32_slot;
  f_clock : Z;
  f_devs : gmap Z block_device;
  f_io : list Z;
  f_kmem : list bool;
  f_mnts : gmap nat fat32_mnt
}.

Definition with_fslots v t := Fat v (f_clock t) (f_devs t) (f_io t) (f_kmem t) (f_mnts t).
Definition with_fclock v t := Fat (f_slots t) v (f_devs t) (f_io t) (f_kmem t) (f_mnts t).
Definition with_fio v t := Fat (f_slots t) (f_clock t) (f_devs t) v (f_kmem t) (f_mnts t).
Definition with_fmnts v t := Fat (f_slots t) (f_clock t) (f_devs t) (f_io t) (f_kmem t) v.

(** Little-endian fields; reading outside of the sector is a [Fault]. *)
Definition rd8 (p : Z) (b : list Z) : outcome Z := if 0 <=? p then deref (b !! Z.to_nat p) else Fault.

Definition fat32_rd16 (p : Z) (b : list Z) : outcome Z :=
  b0 ← rd8 p b; b1 ← rd8 (p + 1) b; Ok (Z.lor b0 (Z.shiftl b1 8)).

Definition fat32_rd32 (p : Z) (b : list Z) : outcome Z :=
  b0 ← rd8 p b; b1 ← rd8 (p + 1) b; b2 ← rd8 (p + 2) b; b3 ← rd8 (p + 3) b;
  Ok (Z.lor (Z.lor (Z.lor b0 (Z.shiftl b1 8)) (Z.shiftl b2 16)) (Z.shiftl b3 24)).

Definition fat32_is_eoc (cluster : Z) : bool := cluster >=? FAT32_EOC_MIN.

(** ** buffer.c *)

(** [for (i = 0; i < FAT32_CACHE_SLOTS; i++)] with the best victim so far. *)
Fixpoint fat32_pick_loop (i : nat) (l : list fat32_slot) (victim : option (nat * fat32_slot)) : option nat :=
  match l with
  | [] => fst <$> victim
  | x :: l =>
      if fs_loading x then fat32_pick_loop (S i) l victim else
      if negb (fs_valid x) && (fb_refcount (fs_buf x) =? 0) then Some i else
      if negb (fb_refcount (fs_buf x) =? 0) then fat32_pick_loop (S i) l victim else
      match victim with
      | Some (_, v) => if fs_lru x <? fs_lru v then fat32_pick_loop (S i) l (Some (i, x)) else fat32_pick_loop (S i) l victim
      | None => fat32_pick_loop (S i) l (Some (i, x))
      end
  end.

Definition fat32_pick_victim (t : fat) : option nat := fat32_pick_loop 0 (f_slots t) None.

Definition fslot_matches (bdev : Z) (lba : Z) (x : fat32_slot) : bool :=
  bool_decide (fb_bdev (fs_buf x) = Some bdev) && (fb_lba (fs_buf x) =? lba) && (fs_valid x || fs_loading x).

Fixpoint find_fslot (i : nat) (bdev lba : Z) (l : list fat32_slot) : option (nat * fat32_slot) :=
  match l with
  | [] => None
  | x :: l => if fslot_matches bdev lba x then Some (i, x) else find_fslot (S i) bdev lba l
  end.

Definition fslot_at (i : nat) (t : fat) : outcome fat32_slot := deref (f_slots t !! i).
Definition set_fslot (i : nat) (x : fat32_slot) (t : fat) : fat := with_fslots (<[i := x]> (f_slots t)) t.

(** A buffer is named by its slot.  Calls run one after the other, so no slot
    is found loading and the retry is out of fuel at once. *)
Definition fat32_bget (bdev lba : Z) (t : fat) : outcome (option nat * fat) :=
  dev ← deref (f_devs t !! bdev);
  if negb (bd_sector_size dev =? FAT32_SECTOR_SIZE) then Ok (None, t) else
  match find_fslot 0 bdev lba (f_slots t) with
  | Some (i, x) =>
      if fs_loading x then NoFuel else
      let clock := u64 (f_clock t + 1) in
      let b := fs_buf x in
      Ok (Some i, set_fslot i (Fslot (Fbuf (fb_bdev b) (fb_lba b) (u32 (fb_refcount b + 1)) (fb_data b)) (fs_valid x) (fs_loading x) clock)
                    (with_fclock clock t))
  | None =>
      match fat32_pick_victim t with
      | None => Ok (None, t)
      | Some i =>
          x ← fslot_at i t;
          let clock := u64 (f_clock t + 1) in
          let '(err, got, io) := ata_bdev_read 1 lba dev (f_io t) in
          let bytes := got ++ drop (length got) (fb_data (fs_buf x)) in
          let t := with_fio io (with_fclock clock t) in
          if negb (err =? 0) then Ok (None, set_fslot i (Fslot (Fbuf (Some bdev) lba 0 bytes) false false clock) t)
          else Ok (Some i, set_fslot i (Fslot (Fbuf (Some bdev) lba 1 bytes) true false clock) t)
      end
  end.

Definition fat32_bput (i : nat) (t : fat) : outcome fat :=
  x ← fslot_at i t;
  let b := fs_buf x in
  if fb_refcount b =? 0 then Ok t else
  Ok (set_fslot i (Fslot (Fbuf (fb_bdev b) (fb_lba b) (fb_refcount b - 1) (fb_data b)) (fs_valid x) (fs_loading x) (fs_lru x)) t).

(** Take a sector, look at its bytes, and give it back. *)
Definition with_sector {A} (bdev lba : Z) (f : list Z → outcome A) (t : fat) : outcome (option A * fat) :=
  '(buf, t) ← fat32_bget bdev lba t;
  match buf with
  | None => Ok (None, t)
  | Some i => x ← fslot_at i t; a ← f (fb_data (fs_buf x)); t ← fat32_bput i t; Ok (Some a, t)
  end.

(** ** fat.c *)

Definition fat32_cluster_lba (priv : fat32_priv) (cluster : Z) : Z :=
  u64 (data_start_sec priv + u64 (u32 (cluster - 2) * sec_per_clus priv)).

Definition fat32_cluster_valid (priv : fat32_priv) (cluster : Z) : bool :=
  (cluster >=? 2) && (cluster <? u32 (cluster_count priv + 2)).

Definition fat32_fat_entry (off : Z) (fat_sector : list Z) : outcome Z :=
  v ← fat32_rd32 off fat_sector; Ok (Z.land v FAT32_ENTRY_MASK).

Definition fat32_next_cluster (mnt : fat32_mnt) (priv : fat32_priv) (cluster : Z) (t : fat) : outcome (Z * fat) :=
  let fat_byte := cluster * 4 in
  let fat_sec := rsvd_sec priv + fat_byte / bytes_per_sec priv in
  let off := fat_byte mod bytes_per_sec priv in
  '(next, t) ← with_sector (fm_bdev mnt) fat_sec (fat32_fat_entry off) t;
  Ok (default FAT32_EOC_MIN next, t).

(** ** inode.c *)

Definition next_fkmem (t : fat) : bool * fat :=
  match f_kmem t with
  | [] => (true, t)
  | b :: bs => (b, Fat (f_slots t) (f_clock t) (f_devs t) (f_io t) bs (f_mnts t))
  end.

Definition fat32_inode_alloc (ino first_cluster attr : Z) (is_dir : bool) (size : Z) (t : fat) : Z * option fat32_inode * fat :=
  let '(ok, t) := next_fkmem t in
  if negb ok then (- ENOMEM, None, t) else
  let '(ok, t) := next_fkmem t in
  if negb ok then (- ENOMEM, None, t) else
  (0, Some (Finode ino first_cluster attr is_dir (if is_dir then 0 else size) (if is_dir then FAT32_MODE_DIR else FAT32_MODE_REG) 0 0), t).

Definition fat32_inode_build (ino : Z) (de : fat32_dirent) (t : fat) : Z * option fat32_inode * fat :=
  let first := Z.lor (Z.shiftl (de_fst_clus_hi de) 16) (de_fst_clus_lo de) in
  let is_dir := negb (Z.land (de_attr de) FAT32_ATTR_DIRECTORY =? 0) in
  fat32_inode_alloc ino first (de_attr de) is_dir (de_file_size de) t.

Definition fat32_inode_root (priv : fat32_priv) (t : fat) : Z * option fat32_inode * fat :=
  fat32_inode_alloc FAT32_ROOT_INO (root_clus priv) FAT32_ATTR_DIRECTORY true 0 t.

Definition fat32_clone_inode (src : fat32_inode) (t : fat) : Z * option fat32_inode * fat :=
  fat32_inode_alloc (fi_ino src) (fi_first_cluster src) (fi_attr src) (fi_is_dir src) (fi_size src) t.

(** Nothing is written back. *)
Definition fat32_close (_ : nat) (_ : fat32_inode) (t : fat) : outcome fat := Ok t.

(** ** file.c *)

(** [ino->mnt] and [ino->mnt->priv] *)
Definition mnt_priv (m : nat) (t : fat) : outcome (fat32_mnt * fat32_priv) :=
  mnt ← deref (f_mnts t !! m); priv ← deref (fm_priv mnt); Ok (mnt, priv).

(** [for (i = 0; i < cluster_index; i++)]: the cluster and the guard, or [None] when the chain ends. *)
Fixpoint seek_loop (n : nat) (mnt : fat32_mnt) (priv : fat32_priv) (cluster guard : Z) (t : fat) : outcome (option (Z * Z) * fat) :=
  match n with
  | O => Ok (Some (cluster, guard), t)
  | S n =>
      if negb (fat32_cluster_valid priv cluster) then Ok (None, t) else
      '(cluster, t) ← fat32_next_cluster mnt priv cluster t;
      if fat32_is_eoc cluster then Ok (None, t) else
      let guard := u32 (guard + 1) in
      if guard >? cluster_count priv then Ok (None, t) else
      seek_loop n mnt priv cluster guard t
  end.

(** [while (left > 0)]: the bytes copied, or [None] on an I/O error. *)
Fixpoint fat32_read_loop (fuel : nat) (mnt : fat32_mnt) (priv : fat32_priv) (cluster guard left cur : Z) (t : fat) : outcome (option (list Z) * fat) :=
  match fuel with
  | O => NoFuel
  | S fuel =>
      if negb (left >? 0) then Ok (Some [], t) else
      let coff := cur mod cluster_bytes priv in
      let sec_in_clus := coff / bytes_per_sec priv in
      let soff := coff mod bytes_per_sec priv in
      if negb (fat32_cluster_valid priv cluster) then Ok (Some [], t) else
      let lba := u64 (fat32_cluster_lba priv cluster + sec_in_clus) in
      let chunk := Z.min (bytes_per_sec priv - soff) left in
      '(p, t) ← with_sector (fm_bdev mnt) lba
                  (λ b, if soff + chunk <=? Z.of_nat (length b) then Ok (take (Z.to_nat chunk) (drop (Z.to_nat soff) b)) else Fault) t;
      match p with
      | None => Ok (None, t)
      | Some p =>
          let left := left - chunk in
          let cur := cur + chunk in
          '(go, cluster, guard, t) ←
            (if (left >? 0) && (cur mod cluster_bytes priv =? 0) then
               '(cluster, t) ← fat32_next_cluster mnt priv cluster t;
               if fat32_is_eoc cluster then Ok (false, cluster, guard, t) else
               let guard := u32 (guard + 1) in
               Ok (negb (guard >? cluster_count priv), cluster, guard, t)
             else Ok (true, cluster, guard, t));
          if negb go then Ok (Some p, t) else
          '(r, t) ← fat32_read_loop fuel mnt priv cluster guard left cur t;
          Ok (match r with Some q => Some (p ++ q) | None => None end, t)
      end
  end.

Definition fat32_read (m : nat) (ino : fat32_inode) (offset len : Z) (t : fat) : outcome (Z * list Z * fat) :=
  if fi_is_dir ino then Ok (- EISDIR, [], t) else
  if offset >=? fi_size ino then Ok (0, [], t) else
  let len := if len >? fi_size ino - offset then fi_size ino - offset else len in
  if len =? 0 then Ok (0, [], t) else
  '(mnt, priv) ← mnt_priv m t;
  '(at_cluster, t) ← seek_loop (Z.to_nat (offset / cluster_bytes priv)) mnt priv (fi_first_cluster ino) 0 t;
  match at_cluster with
  | None => Ok (0, [], t)
  | Some (cluster, guard) =>
      '(r, t) ← fat32_read_loop (S (Z.to_nat len)) mnt priv cluster guard len offset t;
      match r with
      | None => Ok (- EIO, [], t)
      | Some bytes => Ok (Z.of_nat (length bytes), bytes, t)
      end
  end.

(** ** dir.c *)

(** [while (n > 0 && name[base + n - 1] == ' ') n--;] on the reversed bytes *)
Fixpoint trim_spaces (r : list Z) : list Z :=
  match r with [] => [] | c :: r' => if c =? 32 then trim_spaces r' else r end.

Definition trim (s : list Z) : list Z := rev (trim_spaces (rev s)).

Definition restore_e5 (s : list Z) : list Z :=
  match s with [] => [] | c :: s => (if c =? FAT32_DIRENT_E5 then FAT32_DIRENT_FREE else c) :: s end.

(** The characters before the NUL. *)
Definition fat32_decode_83 (name : list Z) : list Z :=
  let base := trim (take 8 name) in
  let ext := trim (drop 8 name) in
  restore_e5 base ++ (if (Z.of_nat (length ext) >? 0) then 46 :: ext else []).

Definition to_upper (c : Z) : Z := if (c >=? 97) && (c <=? 122) then c - 32 else c.

(** On C strings: the lists are followed by a NUL. *)
Fixpoint fat32_name_eq (a b : list Z) : bool :=
  match a with
  | [] => to_upper (default 0 (head b)) =? 0
  | ca :: a =>
      if negb (to_upper ca =? to_upper (default 0 (head b))) then false else
      if ca =? 0 then true else fat32_name_eq a (tail b)
  end.

Definition fat32_dirent_ino (lba off : Z) : Z :=
  u32 (lba * (FAT32_SECTOR_SIZE / FAT32_DIRENT_SIZE) + off / FAT32_DIRENT_SIZE).

(** The quote, star, plus, comma, dot, slash, colon, semicolon, less, equals, greater,
    question mark, brackets, backslash and bar. *)
Definition illegal_chars : list Z := [34; 42; 43; 44; 46; 47; 58; 59; 60; 61; 62; 63; 91; 92; 93; 124].

Definition legal_char (c : Z) : bool := negb (c <? 0x20) && negb (bool_decide (c ∈ illegal_chars)).

Definition fat32_name_valid (name : list Z) : bool :=
  if bool_decide (head name = Some 46) then true else forallb legal_char (restore_e5 name).

Definition fat32_entry_skip (de : fat32_dirent) : bool :=
  bool_decide (head (de_name de) = Some FAT32_DIRENT_FREE) ||
  (Z.land (de_attr de) FAT32_ATTR_LONG_NAME =? FAT32_ATTR_LONG_NAME) ||
  negb (Z.land (de_attr de) FAT32_ATTR_VOLUME_ID =? 0) ||
  negb (fat32_name_valid (de_name de)).

(** The entry at offset [o] of a sector, a cast in C. *)
Definition get_dirent (o : Z) (b : list Z) : outcome fat32_dirent :=
  if (0 <=? o) && (o + FAT32_DIRENT_SIZE <=? Z.of_nat (length b)) then
    attr ← rd8 (o + 11) b; nt ← rd8 (o + 12) b; tenth ← rd8 (o + 13) b;
    ct ← fat32_rd16 (o + 14) b; cd ← fat32_rd16 (o + 16) b; ad ← fat32_rd16 (o + 18) b;
    hi ← fat32_rd16 (o + 20) b; wt ← fat32_rd16 (o + 22) b; wd ← fat32_rd16 (o + 24) b;
    lo ← fat32_rd16 (o + 26) b; size ← fat32_rd32 (o + 28) b;
    Ok (Dirent (take FAT32_NAME_LEN (drop (Z.to_nat o) b)) attr nt tenth ct cd ad hi wt wd lo size)
  else Fault.

(** The loops of [fat32_lookup] and [fat32_readdir], which differ in what they do with a
    live entry: go on with an accumulator, or stop with a result.  [inr None] is the end marker. *)
Section Scan.
Context {A R : Type} (visit : Z → Z → fat32_dirent → A → A + R).

(** [for (o = 0; o < bytes_per_sec; o += FAT32_DIRENT_SIZE)] *)
Fixpoint scan_entries (n : nat) (lba o : Z) (b : list Z) (a : A) : outcome (A + option R) :=
  match n with
  | O => Ok (inl a)
  | S n =>
      de ← get_dirent o b;
      if bool_decide (head (de_name de) = Some FAT32_DIRENT_END) then Ok (inr None) else
      if fat32_entry_skip de then scan_entries n lba (o + FAT32_DIRENT_SIZE) b a else
      match visit lba o de a with
      | inl a => scan_entries n lba (o + FAT32_DIRENT_SIZE) b a
      | inr r => Ok (inr (Some r))
      end
  end.

(** [for (s = 0; s < sec_per_clus; s++)]; [None] is an I/O error. *)
Fixpoint scan_sectors (n : nat) (mnt : fat32_mnt) (priv : fat32_priv) (lba : Z) (a : A) (t : fat) : outcome (option (A + option R) * fat) :=
  match n with
  | O => Ok (Some (inl a), t)
  | S n =>
      '(r, t) ← with_sector (fm_bdev mnt) lba (λ b, scan_entries (Z.to_nat (bytes_per_sec priv / FAT32_DIRENT_SIZE)) lba 0 b a) t;
      match r with
      | None => Ok (None, t)
      | Some (inr r) => Ok (Some (inr r), t)
      | Some (inl a) => scan_sectors n mnt priv (u64 (lba + 1)) a t
      end
  end.

(** [while (fat32_cluster_valid(priv, cluster))]; [Some None] is the end of the directory. *)
Fixpoint scan_clusters (fuel : nat) (mnt : fat32_mnt) (priv : fat32_priv) (cluster guard : Z) (a : A) (t : fat) : outcome (option (option R) * fat) :=
  match fuel with
  | O => NoFuel
  | S fuel =>
      if negb (fat32_cluster_valid priv cluster) then Ok (Some None, t) else
      let base := fat32_cluster_lba priv cluster in
      if guard >? cluster_count priv then Ok (None, t) else
      let guard := u32 (guard + 1) in
      '(r, t) ← scan_sectors (Z.to_nat (sec_per_clus priv)) mnt priv base a t;
      match r with
      | None => Ok (None, t)
      | Some (inr r) => Ok (Some r, t)
      | Some (inl a) =>
          '(cluster, t) ← fat32_next_cluster mnt priv cluster t;
          if fat32_is_eoc cluster then Ok (Some None, t) else
          scan_clusters fuel mnt priv cluster guard a t
      end
  end.
End Scan.

Definition scan_fuel (priv : fat32_priv) : nat := S (S (S (Z.to_nat (cluster_count priv)))).

Definition lookup_visit (name : list Z) (lba o : Z) (de : fat32_dirent) (a : ()) : () + (Z * fat32_dirent) :=
  if negb (fat32_name_eq (fat32_decode_83 (de_name de)) name) then inl a else inr (fat32_dirent_ino lba o, de).

Definition fat32_lookup (m : nat) (dir : fat32_inode) (name : list Z) (t : fat) : outcome (Z * option fat32_inode * fat) :=
  if negb (fi_is_dir dir) then Ok (- ENOTDIR, None, t) else
  if decide (name = [46]) then Ok (fat32_clone_inode dir t) else
  '(mnt, priv) ← mnt_priv m t;
  '(r, t) ← scan_clusters (lookup_visit name) (scan_fuel priv) mnt priv (fi_first_cluster dir) 0 () t;
  match r with
  | None => Ok (- EIO, None, t)
  | Some None => Ok (- ENOENT, None, t)
  | Some (Some (ino, de)) => Ok (fat32_inode_build ino de t)
  end.

Definition readdir_visit (index : Z) (lba o : Z) (de : fat32_dirent) (cur : Z) : Z + (Z * list Z) :=
  if cur =? index then inr (fat32_dirent_ino lba o, fat32_decode_83 (de_name de)) else inl (u64 (cur + 1)).

Definition fat32_readdir (m : nat) (dir : fat32_inode) (index : Z) (t : fat) : outcome (Z * option (Z * list Z) * fat) :=
  if negb (fi_is_dir dir) then Ok (- ENOTDIR, None, t) else
  '(mnt, priv) ← mnt_priv m t;
  '(r, t) ← scan_clusters (readdir_visit index) (scan_fuel priv) mnt priv (fi_first_cluster dir) 0 0 t;
  match r with
  | None => Ok (- EIO, None, t)
  | Some None => Ok (0, None, t)
  | Some (Some de) => Ok (1, Some de, t)
  end.

(** ** super.c *)

(** The fields of the BIOS parameter block, or [None] without the signature. *)
Record bpb := Bpb {
  bpb_bytes_per_sec : Z; bpb_sec_per_clus : Z; bpb_rsvd : Z; bpb_num_fats : Z; bpb_root_ent_cnt : Z; bpb_tot_sec16 : Z;
  bpb_fat_sz16 : Z; bpb_tot_sec : Z; bpb_fat_sz : Z; bpb_root_clus : Z
}.

Definition read_bpb (b : list Z) : outcome (option bpb) :=
  s0 ← rd8 510 b; s1 ← rd8 511 b;
  if negb (s0 =? 0x55) || negb (s1 =? 0xaa) then Ok None else
  bps ← fat32_rd16 11 b; spc ← rd8 13 b; rsvd ← fat32_rd16 14 b; nf ← rd8 16 b; rec ← fat32_rd16 17 b;
  ts16 ← fat32_rd16 19 b; fs16 ← fat32_rd16 22 b; ts ← fat32_rd32 32 b; fsz ← fat32_rd32 36 b; rc ← fat32_rd32 44 b;
  Ok (Some (Bpb bps spc rsvd nf rec ts16 fs16 ts fsz rc)).

(** The checks, on the fields and the size of the device. *)
Definition check_bpb (b : bpb) (sectors : Z) : Z * option fat32_priv :=
  let einval := (- EINVAL, None) in
  let spc := bpb_sec_per_clus b in
  if negb (bpb_bytes_per_sec b =? FAT32_SECTOR_SIZE) then einval else
  if (spc =? 0) || negb (Z.land spc (spc - 1) =? 0) || (spc >? 128) then einval else
  if (bpb_rsvd b =? 0) || (bpb_num_fats b =? 0) || (bpb_fat_sz b =? 0) then einval else
  if negb (bpb_root_ent_cnt b =? 0) || negb (bpb_fat_sz16 b =? 0) then einval else
  if bpb_root_clus b <? 2 then einval else
  let tot_sec := if bpb_tot_sec b =? 0 then bpb_tot_sec16 b else bpb_tot_sec b in
  if tot_sec =? 0 then einval else
  let fat_region := u64 (bpb_num_fats b * bpb_fat_sz b) in
  let data_sec64 := u64 (bpb_rsvd b + fat_region) in
  if data_sec64 >=? tot_sec then einval else
  let data_sec := u32 data_sec64 in
  let count := u32 (tot_sec - data_sec) / spc in
  if count <? FAT32_MIN_DATA_CLUSTERS then einval else
  if bpb_root_clus b >=? u32 (count + 2) then einval else
  if tot_sec >? sectors then einval else
  let fat_bytes := u64 (bpb_fat_sz b * bpb_bytes_per_sec b) in
  let fat_entry_bytes := u64 (u64 (count + 2) * 4) in
  if fat_bytes <? fat_entry_bytes then einval else
  let last_data_sec := u64 (data_sec + u64 (count * spc)) in
  if u64 (last_data_sec * (FAT32_SECTOR_SIZE / FAT32_DIRENT_SIZE)) >? 0xffffffff then einval else
  (0, Some (Priv (bpb_bytes_per_sec b) spc (bpb_rsvd b) (bpb_num_fats b) (bpb_fat_sz b) (bpb_root_clus b) data_sec tot_sec count
              (u32 (spc * bpb_bytes_per_sec b)))).

Definition fat32_parse_bpb (bdev : Z) (t : fat) : outcome (Z * option fat32_priv * fat) :=
  '(r, t) ← with_sector bdev 0 read_bpb t;
  match r with
  | None => Ok (- EIO, None, t)
  | Some None => Ok (- EINVAL, None, t)
  | Some (Some b) => dev ← deref (f_devs t !! bdev); let '(err, priv) := check_bpb b (sector_count dev) in Ok (err, priv, t)
  end.

(** [vfs_mount] has set [mnt->bdev]; the root inode goes to [mnt->root]. *)
Definition fat32_mount (m : nat) (bdev : Z) (t : fat) : outcome (Z * option fat32_inode * fat) :=
  let old := match f_mnts t !! m with Some mnt => fm_priv mnt | None => None end in
  let t := with_fmnts (<[m := Fmnt bdev old]> (f_mnts t)) t in
  dev ← deref (f_devs t !! bdev);
  if negb (bd_sector_size dev =? FAT32_SECTOR_SIZE) then Ok (- EINVAL, None, t) else
  let '(ok, t) := next_fkmem t in
  if negb ok then Ok (- ENOMEM, None, t) else
  '(err, priv, t) ← fat32_parse_bpb bdev t;
  if negb (err =? 0) then Ok (err, None, t) else
  priv ← deref priv;
  let t := with_fmnts (<[m := Fmnt bdev (Some priv)]> (f_mnts t)) t in
  let '(err, root, t) := fat32_inode_root priv t in
  if negb (err =? 0) then Ok (err, None, with_fmnts (<[m := Fmnt bdev None]> (f_mnts t)) t) else
  Ok (0, root, t).
