(* ===== verification/Fat32Spec.v ===== *)
(** * FAT32: the sector cache, cluster chains and reads

    Every operation returns, whatever the disk holds and whichever transfers fail; when
    none fails ([f_io t = []]) it computes what a reference on the sectors of the device gives. *)

From S2P Require Import Prelude Bufcache BufcacheSpec Fat32.

(** ** The sector cache *)

(** A drive of at most [2 ^ 28] sectors of 512 bytes. *)
Definition dev_sized (dev : block_device) : Prop :=
  sector_count dev ≤ 2 ^ 28 ∧ Forall (λ s, length s = 512%nat ∧ Forall byte s) (bd_sectors dev).

Definition sec (dev : block_device) (lba : Z) : list Z := default [] (bd_sectors dev !! Z.to_nat lba).

Definition in_dev (dev : block_device) (lba : Z) : Prop := 0 <= lba < sector_count dev.

Lemma sec_ok dev lba : dev_sized dev → in_dev dev lba → length (sec dev lba) = 512%nat ∧ Forall byte (sec dev lba).
Proof.
  intros [_ H] [H0 H1]. unfold sec, sector_count in *.
  destruct (lookup_lt_is_Some_2 (bd_sectors dev) (Z.to_nat lba)) as [x Hx]; [lia|]. rewrite Hx. cbn.
  by apply (Forall_lookup_1 _ _ _ _ H Hx).
Qed.

Lemma sec_length dev lba : dev_sized dev → in_dev dev lba → length (sec dev lba) = 512%nat.
Proof. intros. by apply sec_ok. Qed.

(** Between two operations no sector is referenced, and a valid one is what the disk has. *)
Record fslot_ok (devs : gmap Z block_device) (x : fat32_slot) : Prop := FslotOk {
  so_loading : fs_loading x = false;
  so_ref : fb_refcount (fs_buf x) = 0;
  so_len : length (fb_data (fs_buf x)) = 512%nat;
  so_valid : fs_valid x = true → ∃ d dev, fb_bdev (fs_buf x) = Some d ∧ devs !! d = Some dev ∧
    in_dev dev (fb_lba (fs_buf x)) ∧ fb_data (fs_buf x) = sec dev (fb_lba (fs_buf x))
}.

Record fat_ok (t : fat) : Prop := FatOk {
  fo_len : length (f_slots t) = FAT32_CACHE_SLOTS;
  fo_slot i x : f_slots t !! i = Some x → fslot_ok (f_devs t) x;
  fo_dev d dev : f_devs t !! d = Some dev → dev_sized dev
}.

(** What an operation leaves alone. *)
Record kept (t t' : fat) : Prop := Kept {
  kp_ok : fat_ok t';
  kp_devs : f_devs t' = f_devs t;
  kp_mnts : f_mnts t' = f_mnts t;
  kp_kmem : f_kmem t' = f_kmem t;
  kp_io : f_io t = [] → f_io t' = []
}.

Lemma kept_refl t : fat_ok t → kept t t.
Proof. by split. Qed.

#[export] Instance kept_trans : Transitive kept.
Proof. intros t1 t2 t3 [A1 A2 A3 A4 A5] [B1 B2 B3 B4 B5]. split; [done|congruence|congruence|congruence|auto]. Qed.

Lemma find_fslot_spec k d lba l i x :
  find_fslot k d lba l = Some (i, x) → (k ≤ i)%nat ∧ l !! (i - k)%nat = Some x ∧ fslot_matches d lba x = true.
Proof.
  revert k. induction l as [|y l IH]; intros k; cbn; [done|]. destruct (fslot_matches d lba y) eqn:E.
  - intros [= <- <-]. rewrite Nat.sub_diag. done.
  - intros (H1 & H2 & H3)%IH. replace (i - k)%nat with (S (i - S k)) by lia. split_and!; [lia|done|done].
Qed.

(** A victim is always found when nothing is referenced. *)
Lemma pick_some k l v :
  Forall (λ x, fs_loading x = false ∧ fb_refcount (fs_buf x) = 0) l → (l ≠ [] ∨ is_Some v) →
  (∀ j x, v = Some (j, x) → (j < k)%nat) →
  ∃ i, fat32_pick_loop k l v = Some i ∧ (i < k + length l)%nat.
Proof.
  intros H. revert k v. induction H as [|x l [Hl Hr] H IH]; intros k v Hv Hk; cbn [fat32_pick_loop].
  - destruct Hv as [?|[[j x] ->]]; [done|]. exists j. cbn. split; [done|]. specialize (Hk j x eq_refl). lia.
  - rewrite Hl, Hr. cbn [negb andb Z.eqb]. rewrite andb_true_r. destruct (fs_valid x); cbn [negb].
    + assert (Hnew : ∀ w, is_Some w → (∀ j y, w = Some (j, y) → (j < S k)%nat) → ∃ i, fat32_pick_loop (S k) l w = Some i ∧ (i < k + length (x :: l))%nat).
      { intros w Hw Hwk. destruct (IH (S k) w (or_intror Hw) Hwk) as (i & E & Hi). exists i. split; [done|]. cbn [length]. lia. }
      destruct v as [[j y]|].
      * destruct (fs_lru x <? fs_lru y); apply Hnew; try (by eexists).
        { intros ? ? [= <- <-]. lia. }
        { intros ? ? [= <- <-]. specialize (Hk j y eq_refl). lia. }
      * apply Hnew; [by eexists|]. intros ? ? [= <- <-]. lia.
    + exists k. split; [done|]. cbn [length]. lia.
Qed.

Lemma victim_some t : fat_ok t → ∃ i x, fat32_pick_victim t = Some i ∧ f_slots t !! i = Some x ∧ fslot_ok (f_devs t) x.
Proof.
  intros O. destruct (pick_some 0 (f_slots t) None) as (i & E & Hi).
  - apply Forall_lookup. intros i x Hx. by destruct (fo_slot _ O i x Hx).
  - left. intros E. pose proof (fo_len _ O) as H. rewrite E in H. done.
  - done.
  - destruct (lookup_lt_is_Some_2 (f_slots t) i) as [x Hx]; [lia|]. exists i, x. split_and!; [done|done|]. by apply (fo_slot _ O i).
Qed.

(** One sector from the driver. *)
Lemma read_sector dev lba io err got io' :
  sector_count dev ≤ 2 ^ 28 → 0 <= lba → ata_bdev_read 1 lba dev io = (err, got, io') →
  (io = [] → io' = [] ∧ (in_dev dev lba → err = 0)) ∧
  (got = [] ∨ in_dev dev lba ∧ got = sec dev lba) ∧ (err = 0 → in_dev dev lba ∧ got = sec dev lba).
Proof.
  intros Hcap H0. cbn [ata_bdev_read]. destruct (Z.geb_spec lba (sector_count dev)) as [Hge|Hlt].
  { intros [= <- <- <-]. split_and!; [|by left|done]. intros ->. split; [done|]. intros [_ ?]. lia. }
  rewrite lba28_small by lia.
  assert (Hin : in_dev dev lba) by (split; lia). fold (sec dev lba). unfold issue.
  destruct (next_io io) as [e1 io1] eqn:E1.
  assert (S1 : io = [] → e1 = 0 ∧ io1 = []) by (intros ->; cbn in E1; injection E1 as <- <-; done).
  destruct (Z.eqb_spec e1 0) as [->|N1]; cbn [negb].
  2: { rewrite (proj2 (Z.eqb_neq _ _)) by done. intros [= <- <- <-]. split_and!; [|by left|done]. intros X. destruct (S1 X). done. }
  destruct (next_io io1) as [e2 io2] eqn:E2.
  assert (S2 : io = [] → e2 = 0 ∧ io2 = []) by (intros X; destruct (S1 X) as [_ ->]; cbn in E2; injection E2 as <- <-; done).
  destruct (Z.eqb_spec e2 0) as [->|N2]; cbn [negb].
  2: { intros [= <- <- <-]. split_and!; [|by left|done]. intros X. destruct (S2 X). done. }
  destruct (next_io io2) as [e3 io3] eqn:E3.
  assert (S3 : io = [] → e3 = 0 ∧ io3 = []) by (intros X; destruct (S2 X) as [_ ->]; cbn in E3; injection E3 as <- <-; done).
  destruct (Z.eqb_spec e3 0) as [->|N3]; cbn [negb]; intros [= <- <- <-]; rewrite ?app_nil_r.
  - split_and!; [|by right|done]. intros X. by destruct (S3 X).
  - split_and!; [|by right|done]. intros X. destruct (S3 X). done.
Qed.

(** Put a slot back: the state around [with_sector]. *)
Lemma fat_ok_slot t i x clock io :
  fat_ok t → fslot_ok (f_devs t) x → fat_ok (Fat (<[i := x]> (f_slots t)) clock (f_devs t) io (f_kmem t) (f_mnts t)).
Proof.
  intros [O1 O2 O3] Hx. split; cbn.
  - by rewrite length_insert.
  - intros j y Hj. destruct (decide (i = j)) as [->|Hne].
    + destruct (decide (j < length (f_slots t))%nat).
      * rewrite list_lookup_insert_eq in Hj by done. congruence.
      * rewrite list_insert_ge in Hj by lia. by apply (O2 j).
    + rewrite list_lookup_insert_ne in Hj by done. by apply (O2 j).
  - done.
Qed.

Lemma bput_eq i t x :
  f_slots t !! i = Some x →
  fat32_bput i t = Ok (if fb_refcount (fs_buf x) =? 0 then t else
    set_fslot i (Fslot (Fbuf (fb_bdev (fs_buf x)) (fb_lba (fs_buf x)) (fb_refcount (fs_buf x) - 1) (fb_data (fs_buf x))) (fs_valid x) (fs_loading x) (fs_lru x)) t).
Proof. intros H. unfold fat32_bput, fslot_at. rewrite H. cbn. by destruct (_ =? 0). Qed.

(** The body of [with_sector] on a slot that was just referenced. *)
Lemma visit_slot {A} t i x y clock io (f : list Z → outcome A) a :
  fat_ok t → f_slots t !! i = Some x → fs_buf y = Fbuf (fb_bdev (fs_buf y)) (fb_lba (fs_buf y)) 1 (fb_data (fs_buf y)) →
  fslot_ok (f_devs t) (Fslot (Fbuf (fb_bdev (fs_buf y)) (fb_lba (fs_buf y)) 0 (fb_data (fs_buf y))) (fs_valid y) (fs_loading y) (fs_lru y)) →
  f (fb_data (fs_buf y)) = Ok a → (f_io t = [] → io = []) →
  let t1 := Fat (<[i := y]> (f_slots t)) clock (f_devs t) io (f_kmem t) (f_mnts t) in
  wp (x ← fslot_at i t1; a ← f (fb_data (fs_buf x)); t ← fat32_bput i t1; Ok (Some a, t)) (λ '(r, t'), kept t t' ∧ r = Some a).
Proof.
  intros O Hx Hy Hs Hf Hio t1.
  assert (H1 : f_slots t1 !! i = Some y) by (cbn; apply list_lookup_insert_eq; by eapply lookup_lt_Some).
  unfold fslot_at. rewrite H1. cbn [deref mbind outcome_bind]. rewrite Hf. cbn [mbind outcome_bind].
  rewrite (bput_eq i t1 y H1). rewrite Hy. cbn [fb_refcount fb_bdev fb_lba fb_data Z.eqb mbind outcome_bind]. apply wp_Ok.
  unfold set_fslot, with_fslots. cbn [f_slots f_clock f_devs f_io f_kmem f_mnts t1].
  rewrite list_insert_insert_eq. split_and!; [|done]. split; cbn; try done. by apply fat_ok_slot.
Qed.

(** A sector: its bytes as the disk has them.  Without transfer errors it is obtained
    whenever the device has it. *)
Lemma with_sector_spec {A} t d dev lba (f : list Z → outcome A) :
  fat_ok t → f_devs t !! d = Some dev → 0 <= lba → (∀ b, length b = 512%nat → ∃ a, f b = Ok a) →
  wp (with_sector d lba f t) (λ '(r, t'), kept t t' ∧
    (∀ a, r = Some a → in_dev dev lba ∧ f (sec dev lba) = Ok a) ∧
    (f_io t = [] → bd_sector_size dev = 512 → in_dev dev lba → is_Some r)).
Proof.
  intros O Hd H0 Hf. unfold with_sector, fat32_bget. rewrite Hd. cbn [deref mbind outcome_bind].
  destruct (Z.eqb_spec (bd_sector_size dev) FAT32_SECTOR_SIZE) as [Hsz|Hsz]; cbn [negb].
  2: { cbn [mbind outcome_bind]. apply wp_Ok. split_and!; [by apply kept_refl|done|]. intros _ X. by destruct Hsz. }
  destruct (find_fslot 0 d lba (f_slots t)) as [[i x]|] eqn:Ef.
  - apply find_fslot_spec in Ef as (_ & Hx & Hm). rewrite Nat.sub_0_r in Hx. pose proof (fo_slot _ O i x Hx) as [S1 S2 S3 S4].
    rewrite S1. cbn [mbind outcome_bind]. unfold fslot_matches in Hm. rewrite S1, orb_false_r in Hm.
    apply andb_prop in Hm as [[Hb%bool_decide_eq_true Hl%Z.eqb_eq]%andb_prop Hv].
    destruct (S4 Hv) as (d' & dev' & Hd' & Hdev & Hin & Hdata). rewrite Hb in Hd'. injection Hd' as <-. rewrite Hd in Hdev. injection Hdev as <-.
    rewrite Hl in Hin, Hdata. destruct (Hf (fb_data (fs_buf x)) S3) as [a Ha]. rewrite S2.
    set (y := Fslot (Fbuf (fb_bdev (fs_buf x)) (fb_lba (fs_buf x)) (u32 (0 + 1)) (fb_data (fs_buf x))) (fs_valid x) false (u64 (f_clock t + 1))).
    eapply wp_mono; [apply (visit_slot t i x y (u64 (f_clock t + 1)) (f_io t) f a O Hx)|].
    + done.
    + by split.
    + done.
    + done.
    + intros [r t'] [K ->]. split_and!; [done| |by eexists]. intros a' [= <-]. by rewrite <- Hdata.
  - destruct (victim_some t O) as (i & x & -> & Hx & S). unfold fslot_at. rewrite Hx. cbn [deref mbind outcome_bind].
    destruct (ata_bdev_read 1 lba dev (f_io t)) as [[err got] io'] eqn:Er.
    destruct (read_sector dev lba (f_io t) err got io' (proj1 (fo_dev _ O _ _ Hd)) H0 Er) as (R1 & R2 & R3).
    assert (Hlen : length (got ++ drop (length got) (fb_data (fs_buf x))) = 512%nat).
    { rewrite length_app, length_drop, (so_len _ _ S). destruct R2 as [->|[Hin ->]]; [done|].
      rewrite sec_length by (try apply (fo_dev _ O d); done). lia. }
    destruct (Z.eqb_spec err 0) as [->|He]; cbn [negb mbind outcome_bind].
    + destruct (R3 eq_refl) as [Hin ->]. destruct (Hf _ Hlen) as [a Ha].
      assert (Hs : sec dev lba ++ drop (length (sec dev lba)) (fb_data (fs_buf x)) = sec dev lba).
      { rewrite drop_ge; [by rewrite app_nil_r|]. rewrite (so_len _ _ S), sec_length by (try apply (fo_dev _ O d); done). done. }
      set (y := Fslot (Fbuf (Some d) lba 1 (sec dev lba ++ drop (length (sec dev lba)) (fb_data (fs_buf x)))) true false (u64 (f_clock t + 1))).
      eapply wp_mono; [apply (visit_slot t i x y (u64 (f_clock t + 1)) io' f a O Hx)|].
      * done.
      * split; cbn; try done. intros _. exists d, dev. by rewrite Hs.
      * done.
      * intros X. by apply R1.
      * intros [r t'] [K ->]. split_and!; [done| |by eexists]. intros a' [= <-]. cbn in Ha. by rewrite Hs in Ha.
    + apply wp_Ok. split_and!; [|done|].
      * split; cbn; try done; [|intros X; by apply R1]. apply (fat_ok_slot (with_fio io' t)); [by destruct O; split|]. by split.
      * intros X _ Hin. destruct (R1 X) as [_ Y]. by destruct He; apply Y.
Qed.

(** ** Fields *)

Lemma rd8_ok p b : 0 <= p < Z.of_nat (length b) → ∃ v, rd8 p b = Ok v ∧ (Forall byte b → byte v).
Proof.
  intros Hp. unfold rd8. rewrite (proj2 (Z.leb_le 0 p)) by lia.
  destruct (lookup_lt_is_Some_2 b (Z.to_nat p)) as [v Hv]; [lia|]. rewrite Hv. exists v. split; [done|].
  intros H. by apply (Forall_lookup_1 _ _ _ _ H Hv).
Qed.

Lemma shiftl_bound x n k : 0 <= x < 2 ^ k → 0 <= n → 0 <= k → 0 <= Z.shiftl x n < 2 ^ (k + n).
Proof. intros Hx Hn Hk. rewrite Z.shiftl_mul_pow2 by done. rewrite Z.pow_add_r by done. nia. Qed.

Lemma lor_bound x y k : 0 <= k → 0 <= x < 2 ^ k → 0 <= y < 2 ^ k → 0 <= Z.lor x y < 2 ^ k.
Proof.
  intros Hk Hx Hy. split; [apply Z.lor_nonneg; lia|].
  destruct (Z.eq_dec (Z.lor x y) 0) as [E|E]; [rewrite E; lia|].
  apply Z.log2_lt_pow2; [pose proof (proj2 (Z.lor_nonneg x y)); lia|]. rewrite Z.log2_lor by lia. apply Z.max_lub_lt.
  - destruct (Z.eq_dec x 0) as [->|]; [cbn; destruct (Z.eq_dec k 0) as [->|]; [|lia]; assert (y = 0) by lia; subst; done|apply Z.log2_lt_pow2; lia].
  - destruct (Z.eq_dec y 0) as [->|]; [cbn; destruct (Z.eq_dec k 0) as [->|]; [|lia]; assert (x = 0) by lia; subst; done|apply Z.log2_lt_pow2; lia].
Qed.

Lemma rd16_ok p b : 0 <= p → p + 2 <= Z.of_nat (length b) →
  ∃ v, fat32_rd16 p b = Ok v ∧ (Forall byte b → 0 <= v < 2 ^ 16).
Proof.
  intros H0 Hp. unfold fat32_rd16.
  destruct (rd8_ok p b) as (b0 & -> & B0); [lia|]. destruct (rd8_ok (p + 1) b) as (b1 & -> & B1); [lia|].
  cbn [mbind outcome_bind]. eexists. split; [done|]. intros H. specialize (B0 H). specialize (B1 H). unfold byte in *.
  apply lor_bound; [lia|lia|]. apply (shiftl_bound b1 8 8); lia.
Qed.

Lemma rd32_ok p b : 0 <= p → p + 4 <= Z.of_nat (length b) →
  ∃ v, fat32_rd32 p b = Ok v ∧ (Forall byte b → 0 <= v < 2 ^ 32).
Proof.
  intros H0 Hp. unfold fat32_rd32.
  destruct (rd8_ok p b) as (b0 & -> & B0); [lia|]. destruct (rd8_ok (p + 1) b) as (b1 & -> & B1); [lia|].
  destruct (rd8_ok (p + 2) b) as (b2 & -> & B2); [lia|]. destruct (rd8_ok (p + 3) b) as (b3 & -> & B3); [lia|].
  cbn [mbind outcome_bind]. eexists. split; [done|]. intros H. specialize (B0 H). specialize (B1 H). specialize (B2 H). specialize (B3 H).
  unfold byte in *. repeat apply lor_bound; try lia.
  - pose proof (shiftl_bound b1 8 8). lia.
  - pose proof (shiftl_bound b2 16 8). lia.
  - pose proof (shiftl_bound b3 24 8). lia.
Qed.

Lemma fat_entry_ok off b : 0 <= off → off + 4 <= Z.of_nat (length b) → ∃ v, fat32_fat_entry off b = Ok v ∧ 0 <= v < 2 ^ 28.
Proof.
  intros H0 H. unfold fat32_fat_entry. destruct (rd32_ok off b H0 H) as (v & -> & _). cbn [mbind outcome_bind]. eexists. split; [done|].
  change FAT32_ENTRY_MASK with (Z.ones 28). rewrite Z.land_ones by lia. by apply Z.mod_pos_bound.
Qed.

(** ** The geometry a mount has checked *)

Record geometry (priv : fat32_priv) (dev : block_device) : Prop := Geometry {
  g_size : bd_sector_size dev = 512;
  g_bps : bytes_per_sec priv = 512;
  g_spc : 1 <= sec_per_clus priv <= 128;
  g_cb : cluster_bytes priv = sec_per_clus priv * 512;
  g_rsvd : 0 < rsvd_sec priv;
  g_count : FAT32_MIN_DATA_CLUSTERS <= cluster_count priv < 2 ^ 28;
  g_root : 2 <= root_clus priv < cluster_count priv + 2;
  g_fat : rsvd_sec priv + (cluster_count priv + 1) * 4 / 512 < data_start_sec priv;
  g_end : data_start_sec priv + cluster_count priv * sec_per_clus priv <= sector_count dev;
  g_ino : (data_start_sec priv + cluster_count priv * sec_per_clus priv) * 16 < 2 ^ 32
}.

Definition valid_cluster (priv : fat32_priv) (c : Z) : Prop := 2 <= c < cluster_count priv + 2.

#[export] Instance valid_cluster_dec priv c : Decision (valid_cluster priv c).
Proof. unfold valid_cluster. apply _. Defined.

Lemma cluster_valid_spec priv dev c : geometry priv dev → fat32_cluster_valid priv c = bool_decide (valid_cluster priv c).
Proof.
  intros G. pose proof (g_count _ _ G) as Hc. unfold FAT32_MIN_DATA_CLUSTERS in Hc.
  unfold fat32_cluster_valid, valid_cluster, u32. rewrite Z.mod_small by lia.
  apply eq_bool_prop_intro. rewrite bool_decide_spec, andb_True, Is_true_true, Is_true_true, Z.geb_le, Z.ltb_lt. done.
Qed.

(** The first sector of a cluster. *)
Definition first_sec (priv : fat32_priv) (c : Z) : Z := data_start_sec priv + (c - 2) * sec_per_clus priv.

Lemma cluster_sec priv dev c s :
  geometry priv dev → valid_cluster priv c → 0 <= s < sec_per_clus priv →
  in_dev dev (first_sec priv c + s) ∧ data_start_sec priv <= first_sec priv c + s ∧ (first_sec priv c + s) * 16 + 15 < 2 ^ 32 ∧
  fat32_cluster_lba priv c = first_sec priv c.
Proof.
  intros G [H1 H2] Hs. destruct G as [_ _ G1 _ G2 G3 _ G4 G5 G6]. unfold first_sec, in_dev, FAT32_MIN_DATA_CLUSTERS in *.
  assert (0 <= (c - 2) * sec_per_clus priv) by nia.
  assert ((c - 2) * sec_per_clus priv + sec_per_clus priv <= cluster_count priv * sec_per_clus priv) by nia.
  assert (0 <= (cluster_count priv + 1) * 4 / 512) by (apply Z.div_pos; lia).
  split_and!; try lia. unfold fat32_cluster_lba, u32, u64. rewrite (Z.mod_small (c - 2)) by lia.
  rewrite (Z.mod_small ((c - 2) * _)) by lia. rewrite Z.mod_small; lia.
Qed.

Lemma fat_sec_in priv dev c : geometry priv dev → valid_cluster priv c → in_dev dev (rsvd_sec priv + c * 4 / 512).
Proof.
  intros G [H1 H2]. destruct G as [_ _ G1 _ G2 G3 _ G4 G5 G6]. unfold in_dev, FAT32_MIN_DATA_CLUSTERS in *.
  assert (0 <= c * 4 / 512 <= (cluster_count priv + 1) * 4 / 512) by (split; [apply Z.div_pos; lia|apply Z.div_le_mono; lia]). nia.
Qed.

(** The next cluster, on the disk. *)
Definition next_of (dev : block_device) (priv : fat32_priv) (c : Z) : Z :=
  match fat32_fat_entry (c * 4 mod 512) (sec dev (rsvd_sec priv + c * 4 / 512)) with Ok v => v | _ => FAT32_EOC_MIN end.

Lemma mod4_bound c : 0 <= c * 4 mod 512 ∧ c * 4 mod 512 + 4 <= 512.
Proof.
  replace (c * 4 mod 512) with (4 * (c mod 128)) by (rewrite (Z.mul_comm c), <- Z.mul_mod_distr_l by lia; done).
  pose proof (Z.mod_pos_bound c 128). lia.
Qed.

Lemma next_cluster_spec t mnt priv dev c :
  fat_ok t → f_devs t !! fm_bdev mnt = Some dev → geometry priv dev → 0 <= c →
  wp (fat32_next_cluster mnt priv c t) (λ '(n, t'), kept t t' ∧ 0 <= n < 2 ^ 28 ∧
    (f_io t = [] → valid_cluster priv c → n = next_of dev priv c)).
Proof.
  intros O Hd G Hc. unfold fat32_next_cluster. cbv zeta. rewrite (g_bps _ _ G). pose proof (mod4_bound c) as [M1 M2].
  eapply wp_bind.
  { eapply (with_sector_spec t (fm_bdev mnt) dev); [done|done| |].
    - pose proof (g_rsvd _ _ G). assert (0 <= c * 4 / 512) by (apply Z.div_pos; lia). lia.
    - intros b Hb. destruct (fat_entry_ok (c * 4 mod 512) b) as (v & E & _); [lia|lia|]. eauto. }
  intros [r t'] (K & H1 & H2). apply wp_Ok. refine (conj K (conj _ _)); destruct r as [v|]; cbn [default].
  - destruct (H1 v eq_refl) as [Hin E]. destruct (fat_entry_ok (c * 4 mod 512) (sec dev (rsvd_sec priv + c * 4 / 512))) as (v' & E' & B);
      [lia|rewrite sec_length by (try apply (fo_dev _ O _ _ Hd); done); lia|]. rewrite E in E'. injection E' as <-. done.
  - by split.
  - intros _ _. destruct (H1 v eq_refl) as [_ E]. unfold next_of. by rewrite E.
  - intros Hio Hv. destruct (H2 Hio (g_size _ _ G) (fat_sec_in _ _ _ G Hv)) as [? ?]. done.
Qed.
