(* ===== verification/Fat32Read.v ===== *)
(** * FAT32: cluster chains and what reading a file yields *)

From S2P Require Import Prelude Bufcache BufcacheSpec Fat32 Fat32Spec.

Section Read.
Context (dev : block_device) (priv : fat32_priv) (mnt : fat32_mnt).
Hypothesis G : geometry priv dev.

(** ** The reference *)

(** At most [k] clusters of the chain that starts at [c]. *)
Fixpoint fat_chain (k : nat) (c : Z) : list Z :=
  match k with
  | O => []
  | S k =>
      if bool_decide (valid_cluster priv c) then
        c :: (if fat32_is_eoc (next_of dev priv c) then [] else fat_chain k (next_of dev priv c))
      else []
  end.

Definition cluster_secs (c : Z) : list (list Z) := (λ s, sec dev (first_sec priv c + s)) <$> seqZ 0 (sec_per_clus priv).
Definition cluster_data (c : Z) : list Z := mjoin (cluster_secs c).

(** The bytes of the chain; the code follows at most [cluster_count] links. *)
Definition content (k : nat) (c : Z) : list Z := mjoin (cluster_data <$> fat_chain k c).
Definition chain_bytes (c : Z) : list Z := content (S (Z.to_nat (cluster_count priv))) c.

(** ** Bytes of a cluster *)

Hypothesis sized : dev_sized dev.

Lemma cluster_secs_len c : valid_cluster priv c → Forall (λ b, length b = 512%nat) (cluster_secs c).
Proof.
  intros V. apply Forall_fmap, Forall_forall. intros s Hs. apply elem_of_seqZ in Hs. cbn.
  apply sec_length; [done|]. destruct (cluster_sec priv dev c s G V) as [H _]; [lia|done].
Qed.

Lemma length_blocks (l : list (list Z)) : Forall (λ b, length b = 512%nat) l → length (mjoin l) = (512 * length l)%nat.
Proof. induction 1 as [|b l Hb Hl IH]; [done|]. change (mjoin (b :: l)) with (b ++ mjoin l). cbn [length]. rewrite length_app, IH, Hb. lia. Qed.

Lemma cluster_data_len c : valid_cluster priv c → Z.of_nat (length (cluster_data c)) = cluster_bytes priv.
Proof.
  intros V. unfold cluster_data. rewrite length_blocks by (by apply cluster_secs_len).
  unfold cluster_secs. rewrite length_fmap, length_seqZ, (g_cb _ _ G). pose proof (g_spc _ _ G). lia.
Qed.

(** From byte [j] of block [i]. *)
Lemma drop_blocks (l : list (list Z)) i j b :
  Forall (λ b, length b = 512%nat) l → l !! i = Some b → (j ≤ 512)%nat →
  drop (512 * i + j) (mjoin l) = drop j b ++ drop (512 * S i) (mjoin l).
Proof.
  intros H. revert i. induction H as [|x l Hx Hl IH]; intros [|i] Hi Hj; cbn [lookup list_lookup] in Hi; [done|done| |]; change (mjoin (x :: l)) with (x ++ mjoin l).
  - injection Hi as ->. rewrite Nat.mul_0_r, Nat.add_0_l, Nat.mul_1_r, !drop_app, Hx.
    rewrite Nat.sub_diag, (drop_ge b 512) by lia. by replace (j - 512)%nat with 0%nat by lia.
  - rewrite !drop_app, Hx, (drop_ge x) by lia. rewrite (drop_ge x (512 * S (S i))) by lia.
    replace (512 * S i + j - 512)%nat with (512 * i + j)%nat by lia.
    replace (512 * S (S i) - 512)%nat with (512 * S i)%nat by lia. cbn [app]. by apply IH.
Qed.

Lemma drop_cluster c coff :
  valid_cluster priv c → 0 <= coff < cluster_bytes priv →
  drop (Z.to_nat coff) (cluster_data c) =
  drop (Z.to_nat (coff mod 512)) (sec dev (first_sec priv c + coff / 512)) ++ drop (Z.to_nat (coff - coff mod 512 + 512)) (cluster_data c).
Proof.
  intros V Hc. rewrite (g_cb _ _ G) in Hc. pose proof (Z.mod_pos_bound coff 512 ltac:(lia)). pose proof (Z.div_mod coff 512 ltac:(lia)) as E.
  assert (0 <= coff / 512 < sec_per_clus priv) by (split; [apply Z.div_pos; lia|apply Z.div_lt_upper_bound; lia]).
  pose proof (drop_blocks (cluster_secs c) (Z.to_nat (coff / 512)) (Z.to_nat (coff mod 512)) (sec dev (first_sec priv c + coff / 512))) as D.
  unfold cluster_data. replace (Z.to_nat coff) with (512 * Z.to_nat (coff / 512) + Z.to_nat (coff mod 512))%nat by lia.
  replace (Z.to_nat (coff - coff mod 512 + 512)) with (512 * S (Z.to_nat (coff / 512)))%nat by lia.
  apply D; [by apply cluster_secs_len| |lia]. unfold cluster_secs. rewrite list_lookup_fmap, lookup_seqZ_lt by lia. cbn. by rewrite Z2Nat.id by lia.
Qed.

Lemma content_step k c :
  valid_cluster priv c →
  content (S k) c = cluster_data c ++ (if fat32_is_eoc (next_of dev priv c) then [] else content k (next_of dev priv c)).
Proof.
  intros V. unfold content. cbn [fat_chain]. rewrite bool_decide_eq_true_2 by done. cbn. f_equal. by destruct (fat32_is_eoc _).
Qed.

Lemma content_invalid k c : ¬ valid_cluster priv c → content k c = [].
Proof. intros V. unfold content. destruct k; [done|]. cbn [fat_chain]. by rewrite bool_decide_eq_false_2. Qed.

(** The clusters still allowed when the guard is [g]. *)
Definition allowance (g : Z) : nat := S (Z.to_nat (cluster_count priv - g)).

(** ** Seeking *)

Lemma count_bound : 0 <= cluster_count priv < 2 ^ 28.
Proof. pose proof (g_count _ _ G). unfold FAT32_MIN_DATA_CLUSTERS in *. lia. Qed.

(** The next cluster and the guard, as both loops step. *)
Lemma step_content g c :
  valid_cluster priv c → 0 <= g <= cluster_count priv →
  content (allowance g) c = cluster_data c ++
    (if fat32_is_eoc (next_of dev priv c) || (u32 (g + 1) >? cluster_count priv) then [] else content (allowance (u32 (g + 1))) (next_of dev priv c)).
Proof.
  intros V Hg. pose proof count_bound. unfold allowance at 1. rewrite content_step by done. f_equal.
  destruct (fat32_is_eoc _); [done|]. cbn [orb]. unfold u32. rewrite Z.mod_small by lia.
  destruct (Z.gtb_spec (g + 1) (cluster_count priv)).
  - by replace (Z.to_nat (cluster_count priv - g)) with 0%nat by lia.
  - f_equal. unfold allowance. lia.
Qed.

Lemma seek_loop_spec n t c g :
  fat_ok t → f_devs t !! fm_bdev mnt = Some dev → 0 <= c → 0 <= g <= cluster_count priv →
  wp (seek_loop n mnt priv c g t) (λ '(r, t'), kept t t' ∧
    (∀ c' g', r = Some (c', g') → 0 <= c' ∧ 0 <= g' <= cluster_count priv) ∧
    (f_io t = [] → drop (n * Z.to_nat (cluster_bytes priv)) (content (allowance g) c) =
       match r with Some (c', g') => content (allowance g') c' | None => [] end)).
Proof.
  revert t c g. induction n as [|n IH]; intros t c g O Hd Hc Hg; cbn [seek_loop].
  { apply wp_Ok. split_and!; [by apply kept_refl| |done]. by intros c' g' [= <- <-]. }
  rewrite (cluster_valid_spec _ _ _ G). case_bool_decide as V; cbn [negb].
  2: { apply wp_Ok. split_and!; [by apply kept_refl|done|]. intros _. rewrite content_invalid by done. by rewrite drop_nil. }
  assert (Hdrop : ∀ l, drop (S n * Z.to_nat (cluster_bytes priv)) (cluster_data c ++ l) = drop (n * Z.to_nat (cluster_bytes priv)) l).
  { intros l. rewrite drop_app. pose proof (cluster_data_len c V). rewrite drop_ge by lia. cbn [app]. f_equal. lia. }
  rewrite (step_content g c V Hg), Hdrop.
  eapply wp_bind; [by eapply next_cluster_spec|]. intros [c1 t1] (K1 & Hc1 & E1).
  destruct (fat32_is_eoc c1) eqn:Ee.
  { apply wp_Ok. split_and!; [done|done|]. intros Hio. rewrite <- E1, Ee by done. cbn [orb]. by rewrite drop_nil. }
  destruct (u32 (g + 1) >? cluster_count priv) eqn:Eg.
  { apply wp_Ok. split_and!; [done|done|]. intros Hio. rewrite orb_true_r. by rewrite drop_nil. }
  assert (Hg1 : 0 <= u32 (g + 1) <= cluster_count priv).
  { pose proof count_bound. unfold u32 in *. rewrite Z.mod_small in * by lia. rewrite Z.gtb_ltb in Eg. lia. }
  eapply wp_mono; [apply (IH t1 c1 (u32 (g + 1))); [apply K1|by rewrite (kp_devs _ _ K1)|lia|done]|].
  intros [r t2] (K2 & H1 & H2). split_and!; [by etrans|done|]. intros Hio. rewrite <- E1, Ee by done. cbn [orb]. apply H2. by apply K1.
Qed.

(** ** Reading *)

(** Splitting off the bytes of one sector. *)
Lemma take_chunk (A B : list Z) left chunk :
  (chunk ≤ left)%nat → (chunk = left ∨ chunk = length A) → (chunk ≤ length A)%nat →
  take left (A ++ B) = take chunk A ++ (if decide (chunk = left) then [] else take (left - chunk) B).
Proof.
  intros H1 H2 H3. case_decide as E.
  - subst. rewrite app_nil_r. by rewrite take_app_le.
  - destruct H2 as [?| ->]; [done|]. rewrite (take_ge A (length A)) by done. rewrite take_app_ge by done. done.
Qed.

(** What follows a cluster when the guard is [g]. *)
Definition rest_of (g c : Z) : list Z :=
  if fat32_is_eoc (next_of dev priv c) || (u32 (g + 1) >? cluster_count priv) then [] else content (allowance (u32 (g + 1))) (next_of dev priv c).

(** The bytes behind the sector that holds offset [coff] of cluster [c]. *)
Definition after (g c coff : Z) : list Z := drop (Z.to_nat (coff - coff mod 512 + 512)) (cluster_data c) ++ rest_of g c.

Lemma content_from g c coff :
  valid_cluster priv c → 0 <= g <= cluster_count priv → 0 <= coff < cluster_bytes priv →
  drop (Z.to_nat coff) (content (allowance g) c) = drop (Z.to_nat (coff mod 512)) (sec dev (first_sec priv c + coff / 512)) ++ after g c coff.
Proof.
  intros V Hg Hc. rewrite (step_content g c V Hg). pose proof (cluster_data_len c V). rewrite drop_app_le by lia.
  rewrite (drop_cluster c coff V Hc). by rewrite <- app_assoc.
Qed.

(** The next sector of the cluster, or the next cluster. *)
Lemma after_sector g c coff :
  valid_cluster priv c → 0 <= g <= cluster_count priv → 0 <= coff < cluster_bytes priv →
  let coff' := coff - coff mod 512 + 512 in
  coff' <= cluster_bytes priv ∧
  after g c coff = if decide (coff' = cluster_bytes priv) then rest_of g c else drop (Z.to_nat coff') (content (allowance g) c).
Proof.
  intros V Hg Hc coff'. pose proof (cluster_data_len c V) as Hl. pose proof (g_cb _ _ G) as Hcb.
  pose proof (Z.div_mod coff 512 ltac:(lia)) as E. pose proof (Z.mod_pos_bound coff 512 ltac:(lia)).
  assert (coff / 512 < sec_per_clus priv) by (apply Z.div_lt_upper_bound; lia).
  split; [lia|]. unfold after. fold coff'. case_decide as Ec.
  - rewrite drop_ge by lia. done.
  - rewrite (step_content g c V Hg). rewrite drop_app_le by lia. done.
Qed.

(** Moving on by [chunk] bytes. *)
Lemma cur_mod cur chunk :
  0 <= cur → 0 < chunk → cur mod cluster_bytes priv + chunk <= cluster_bytes priv →
  (cur + chunk) mod cluster_bytes priv = if decide (cur mod cluster_bytes priv + chunk = cluster_bytes priv) then 0 else cur mod cluster_bytes priv + chunk.
Proof.
  intros H0 H1 H2. assert (0 < cluster_bytes priv) by (pose proof (g_spc _ _ G); rewrite (g_cb _ _ G); lia).
  rewrite <- Zplus_mod_idemp_l. case_decide as E; [rewrite E; apply Z.mod_same; lia|]. apply Z.mod_small.
  pose proof (Z.mod_pos_bound cur (cluster_bytes priv)). lia.
Qed.

(** The part of the loop behind the copy: where it goes on, and with what. *)
Definition move_on (left cur c g : Z) (t : fat) : outcome (bool * Z * Z * fat) :=
  if (left >? 0) && (cur mod cluster_bytes priv =? 0) then
    '(cluster, t) ← fat32_next_cluster mnt priv c t;
    if fat32_is_eoc cluster then Ok (false, cluster, g, t) else
    let guard := u32 (g + 1) in
    Ok (negb (guard >? cluster_count priv), cluster, guard, t)
  else Ok (true, c, g, t).

Lemma move_on_spec t c g left cur chunk :
  fat_ok t → f_devs t !! fm_bdev mnt = Some dev → valid_cluster priv c → 0 <= g <= cluster_count priv → 0 <= cur →
  let coff := cur mod cluster_bytes priv in
  chunk = Z.min (512 - coff mod 512) left → 0 < left →
  wp (move_on (left - chunk) (cur + chunk) c g t) (λ '(go, c', g', t'), kept t t' ∧
    (go = true → 0 <= c' ∧ 0 <= g' <= cluster_count priv) ∧
    (f_io t = [] → chunk = left ∨ after g c coff =
       if go : bool then drop (Z.to_nat ((cur + chunk) mod cluster_bytes priv)) (content (allowance g') c') else [])).
Proof.
  intros O Hd V Hg Hcur coff Hch Hl. pose proof count_bound as HB. pose proof (g_spc _ _ G). pose proof (g_cb _ _ G) as Hcb.
  assert (Hco : 0 <= coff < cluster_bytes priv) by (apply Z.mod_pos_bound; lia).
  destruct (after_sector g c coff V Hg Hco) as [Hle Ha]. pose proof (Z.mod_pos_bound coff 512 ltac:(lia)).
  pose proof (cur_mod cur chunk Hcur ltac:(lia) ltac:(fold coff; lia)) as Hm. fold coff in Hm.
  assert (Hfull : chunk = left ∨ coff + chunk = coff - coff mod 512 + 512) by lia. unfold move_on.
  destruct ((left - chunk >? 0) && ((cur + chunk) mod cluster_bytes priv =? 0)) eqn:E.
  - apply andb_prop in E as [E1 E2%Z.eqb_eq]. rewrite Z.gtb_ltb in E1. apply Z.ltb_lt in E1.
    destruct Hfull as [?|Hf]; [lia|]. rewrite E2 in Hm. case_decide as Ec; [|lia]. rewrite decide_True in Ha by lia.
    eapply wp_bind; [eapply next_cluster_spec; [done|done|done|destruct V; lia]|]. intros [c1 t1] (K1 & Hc1 & N1).
    destruct (fat32_is_eoc c1) eqn:Ee.
    { apply wp_Ok. split_and!; [done|done|]. intros Hio. right. rewrite Ha. unfold rest_of. by rewrite <- N1, Ee by done. }
    apply wp_Ok. cbv zeta. split_and!; [done| |].
    + intros Hgo. assert (u32 (g + 1) = g + 1) as Eu by (unfold u32; rewrite Z.mod_small; lia). rewrite Eu in *.
      rewrite Z.gtb_ltb in Hgo. apply negb_true_iff, Z.ltb_ge in Hgo. lia.
    + intros Hio. right. rewrite Ha. unfold rest_of. rewrite <- N1, Ee by done. cbn [orb]. rewrite E2. cbn [Z.to_nat drop]. by destruct (u32 (g + 1) >? _).
  - apply wp_Ok. split_and!; [by apply kept_refl|intros _; destruct V; lia|]. intros _.
    destruct Hfull as [?|Hf]; [by left|]. destruct (decide (chunk = left)) as [|Hn]; [by left|right].
    rewrite Ha, Hm, <- Hf. destruct (decide (coff + chunk = cluster_bytes priv)) as [Ec|Ec]; [|done].
    exfalso. rewrite Hm, Z.eqb_refl, andb_true_r, Z.gtb_ltb in E. apply Z.ltb_ge in E. lia.
Qed.

Lemma fat32_read_loop_spec fuel t c g left cur :
  fat_ok t → f_devs t !! fm_bdev mnt = Some dev → 0 <= c → 0 <= g <= cluster_count priv →
  0 <= left < Z.of_nat fuel → 0 <= cur →
  wp (fat32_read_loop fuel mnt priv c g left cur t) (λ '(r, t'), kept t t' ∧
    (f_io t = [] → r = Some (take (Z.to_nat left) (drop (Z.to_nat (cur mod cluster_bytes priv)) (content (allowance g) c))))).
Proof.
  pose proof (g_spc _ _ G) as Hspc. pose proof (g_cb _ _ G) as Hcb.
  revert t c g left cur. induction fuel as [|fuel IH]; intros t c g left cur O Hd Hc Hg Hl Hcur; [lia|]. cbn [fat32_read_loop].
  destruct (Z.gtb_spec left 0) as [Hpos|Hz]; cbn [negb].
  2: { apply wp_Ok. split_and!; [by apply kept_refl|]. intros _. by replace (Z.to_nat left) with 0%nat by lia. }
  rewrite (cluster_valid_spec _ _ _ G). case_bool_decide as V; cbn [negb].
  2: { apply wp_Ok. split_and!; [by apply kept_refl|]. intros _. rewrite content_invalid by done. by rewrite drop_nil, take_nil. }
  rewrite (g_bps _ _ G). set (coff := cur mod cluster_bytes priv).
  assert (Hco : 0 <= coff < cluster_bytes priv) by (apply Z.mod_pos_bound; lia).
  assert (Hsec : 0 <= coff / 512 < sec_per_clus priv) by (split; [apply Z.div_pos; lia|apply Z.div_lt_upper_bound; lia]).
  pose proof (Z.mod_pos_bound coff 512 ltac:(lia)) as Hso. destruct (cluster_sec priv dev c (coff / 512) G V Hsec) as (Hin & _ & H16 & ->).
  rewrite (u64_small (first_sec priv c + coff / 512)) by (unfold in_u64, in_dev in *; lia).
  set (chunk := (512 - coff mod 512) `min` left). eapply wp_bind.
  { eapply (with_sector_spec t (fm_bdev mnt) dev); [done|done|by apply Hin|]. intros b Hb. rewrite Hb.
    rewrite (proj2 (Z.leb_le _ _)) by lia. eauto. }
  intros [p t1] (K1 & P1 & P2). destruct p as [p|].
  2: { apply wp_Ok. split_and!; [done|]. intros Hio. destruct (P2 Hio (g_size _ _ G) Hin). done. }
  assert (Hp : p = take (Z.to_nat chunk) (drop (Z.to_nat (coff mod 512)) (sec dev (first_sec priv c + coff / 512)))).
  { destruct (P1 p eq_refl) as [_ E]. destruct (_ <=? _); [congruence|done]. }
  rewrite (content_from g c coff V Hg Hco). set (A := drop (Z.to_nat (coff mod 512)) _) in *.
  assert (HA : Z.of_nat (length A) = 512 - coff mod 512) by (unfold A; rewrite length_drop, sec_length by done; lia).
  rewrite (take_chunk A (after g c coff) (Z.to_nat left) (Z.to_nat chunk)), <- Hp by lia.
  eapply wp_bind; [apply (move_on_spec t1 c g left cur chunk); try done; [apply K1|by rewrite (kp_devs _ _ K1)]|].
  intros [[[go c'] g'] t2] (K2 & B2 & R2). destruct go; cbn [negb].
  - destruct (B2 eq_refl) as [Hc' Hg']. eapply wp_bind.
    { apply (IH t2 c' g' (left - chunk) (cur + chunk)); [apply K2|by rewrite (kp_devs _ _ K2), (kp_devs _ _ K1)|done|done|lia|lia]. }
    intros [r t3] (K3 & R3). apply wp_Ok. split_and!; [by etrans; [|etrans]|]. intros Hio. rewrite R3 by (by apply K2, K1). do 2 f_equal. case_decide as E.
    + by replace (Z.to_nat (left - chunk)) with 0%nat by lia.
    + destruct R2 as [?|R2]; [by apply K1|lia|]. fold coff in R2. rewrite R2. f_equal. lia.
  - apply wp_Ok. split_and!; [by etrans|]. intros Hio. do 2 f_equal. case_decide as E; [by rewrite app_nil_r|].
    destruct R2 as [?|R2]; [by apply K1|lia|]. fold coff in R2. by rewrite R2, take_nil, app_nil_r.
Qed.
End Read.

(** ** [fat32_read] *)

(** The mount of slot [m]. *)
Record mnt_ok (t : fat) (m : nat) (mnt : fat32_mnt) (priv : fat32_priv) (dev : block_device) : Prop := MntOk {
  mk_mnt : f_mnts t !! m = Some mnt;
  mk_priv : fm_priv mnt = Some priv;
  mk_dev : f_devs t !! fm_bdev mnt = Some dev;
  mk_geo : geometry priv dev
}.

Lemma mnt_priv_eq t m mnt priv dev : mnt_ok t m mnt priv dev → mnt_priv m t = Ok (mnt, priv).
Proof. intros [E1 E2 _ _]. unfold mnt_priv. rewrite E1. cbn. by rewrite E2. Qed.

(** The bytes of a file: those of its chain, up to its size. *)
Definition file_bytes (dev : block_device) (priv : fat32_priv) (ino : fat32_inode) : list Z :=
  take (Z.to_nat (fi_size ino)) (chain_bytes dev priv (fi_first_cluster ino)).

Lemma fat32_read_spec t m mnt priv dev ino off len :
  fat_ok t → mnt_ok t m mnt priv dev → 0 <= fi_first_cluster ino → 0 <= off → 0 <= len →
  wp (fat32_read m ino off len t) (λ '(r, bytes, t'), kept t t' ∧
    (fi_is_dir ino = true → r = - EISDIR ∧ bytes = []) ∧
    (f_io t = [] → fi_is_dir ino = false → bytes = take (Z.to_nat len) (drop (Z.to_nat off) (file_bytes dev priv ino)) ∧ r = Z.of_nat (length bytes))).
Proof.
  intros O M Hf Ho Hlen. unfold fat32_read. pose proof (mk_geo _ _ _ _ _ M) as G. pose proof (fo_dev _ O _ _ (mk_dev _ _ _ _ _ M)) as Sz.
  pose proof (g_spc _ _ G). pose proof (g_cb _ _ G) as Hcb. pose proof (g_count _ _ G). unfold FAT32_MIN_DATA_CLUSTERS in *.
  destruct (fi_is_dir ino); [by apply wp_Ok; split_and!; [apply kept_refl| |]|].
  unfold file_bytes. rewrite skipn_firstn_comm, take_take. set (C := chain_bytes dev priv (fi_first_cluster ino)).
  destruct (Z.geb_spec off (fi_size ino)) as [Hge|Hlt].
  { apply wp_Ok. split_and!; [by apply kept_refl|done|]. intros _ _. split; [|done].
    by replace (Z.to_nat len `min` (Z.to_nat (fi_size ino) - Z.to_nat off))%nat with 0%nat by lia. }
  set (len' := if len >? fi_size ino - off then _ else _).
  assert (Hlen' : len' = len `min` (fi_size ino - off)) by (unfold len'; destruct (Z.gtb_spec len (fi_size ino - off)); lia).
  replace (Z.to_nat len `min` (Z.to_nat (fi_size ino) - Z.to_nat off))%nat with (Z.to_nat len') by lia.
  destruct (Z.eqb_spec len' 0) as [E0|E0].
  { apply wp_Ok. split_and!; [by apply kept_refl|done|]. intros _ _. by rewrite E0. }
  rewrite (mnt_priv_eq _ _ _ _ _ M). cbn [mbind outcome_bind].
  eapply wp_bind; [apply (seek_loop_spec dev priv mnt G Sz); [done|apply M|done|lia]|]. intros [r t1] (K1 & S1 & S2).
  assert (Hdrop : drop (Z.to_nat off) C = drop (Z.to_nat (off mod cluster_bytes priv)) (drop (Z.to_nat (off / cluster_bytes priv) * Z.to_nat (cluster_bytes priv)) C)).
  { rewrite drop_drop. f_equal. pose proof (Z.div_mod off (cluster_bytes priv) ltac:(lia)). pose proof (Z.mod_pos_bound off (cluster_bytes priv) ltac:(lia)).
    assert (0 <= off / cluster_bytes priv) by (apply Z.div_pos; lia). nia. }
  assert (HC : C = content dev priv (allowance priv 0) (fi_first_cluster ino)) by (unfold C, chain_bytes, allowance; by rewrite Z.sub_0_r).
  destruct r as [[c g]|].
  - destruct (S1 c g eq_refl) as [Hc Hg].
    eapply wp_bind; [apply (fat32_read_loop_spec dev priv mnt G Sz); [apply K1|rewrite (kp_devs _ _ K1); apply M|done|done|lia|done]|].
    intros [r t2] (K2 & R2). destruct r as [bytes|].
    + apply wp_Ok. split_and!; [by etrans|done|]. intros Hio _. split; [|done].
      specialize (R2 (kp_io _ _ K1 Hio)). injection R2 as ->. rewrite Hdrop, HC, (S2 Hio). done.
    + apply wp_Ok. split_and!; [by etrans|done|]. intros Hio. specialize (R2 (kp_io _ _ K1 Hio)). done.
  - apply wp_Ok. split_and!; [done|done|]. intros Hio _. rewrite Hdrop, HC, (S2 Hio). by rewrite drop_nil, take_nil.
Qed.
