(* ===== verification/Fat32Dir.v ===== *)
(** * FAT32: directories, mounting, and the file system as the VFS sees it *)

From S2P Require Import Prelude Bufcache BufcacheSpec Fat32 Fat32Spec Fat32Read.

(** ** The reference: the slots of a directory in order *)

Definition no_dirent : fat32_dirent := Dirent [] 0 0 0 0 0 0 0 0 0 0 0.

(** The entry at offset [o] of sector [lba]. *)
Definition entry_at (dev : block_device) (p : Z * Z) : fat32_dirent :=
  match get_dirent p.2 (sec dev p.1) with Ok de => de | _ => no_dirent end.

(** The end marker. *)
Definition is_end (de : fat32_dirent) : bool := bool_decide (head (de_name de) = Some FAT32_DIRENT_END).

(** Visit the live entries up to the end marker. *)
Fixpoint scan_list {A R} (visit : Z → Z → fat32_dirent → A → A + R) (dev : block_device) (ps : list (Z * Z)) (a : A) : A + option R :=
  match ps with
  | [] => inl a
  | p :: ps =>
      let de := entry_at dev p in
      if is_end de then inr None else
      if fat32_entry_skip de then scan_list visit dev ps a else
      match visit p.1 p.2 de a with inl a => scan_list visit dev ps a | inr r => inr (Some r) end
  end.

Definition sector_slots (lba : Z) : list (Z * Z) := (λ j, (lba, 32 * j)) <$> seqZ 0 16.

Section Dir.
Context (dev : block_device) (priv : fat32_priv).

Definition cluster_slots (c : Z) : list (Z * Z) := mjoin ((λ s, sector_slots (first_sec priv c + s)) <$> seqZ 0 (sec_per_clus priv)).
Definition chain_slots (k : nat) (c : Z) : list (Z * Z) := mjoin (cluster_slots <$> fat_chain dev priv k c).

(** The chain ends within [k] clusters. *)
Fixpoint chain_ends (k : nat) (c : Z) : bool :=
  if bool_decide (valid_cluster priv c) then
    match k with
    | O => false
    | S k => fat32_is_eoc (next_of dev priv c) || chain_ends k (next_of dev priv c)
    end
  else true.

(** The scan of a directory; [None]: its chain is longer than the disk, a loop. *)
Definition scan_dir {A R} (visit : Z → Z → fat32_dirent → A → A + R) (k : nat) (c : Z) (a : A) : option (option R) :=
  match scan_list visit dev (chain_slots k c) a with
  | inr r => Some r
  | inl _ => if chain_ends k c then Some None else None
  end.
End Dir.

(** ** The scans compute the reference *)

Lemma get_dirent_ok o b :
  0 <= o → o + 32 <= Z.of_nat (length b) → ∃ de, get_dirent o b = Ok de ∧
    (Forall byte b → 0 <= de_fst_clus_hi de < 2 ^ 16 ∧ 0 <= de_fst_clus_lo de < 2 ^ 16 ∧ 0 <= de_file_size de < 2 ^ 32).
Proof.
  intros H0 H1. unfold get_dirent. unfold FAT32_DIRENT_SIZE. rewrite (proj2 (Z.leb_le 0 o)), (proj2 (Z.leb_le (o + 32) _)) by lia. cbn [andb].
  destruct (rd8_ok (o + 11) b) as (v11 & -> & B11); [lia..|].
  destruct (rd8_ok (o + 12) b) as (v12 & -> & B12); [lia..|].
  destruct (rd8_ok (o + 13) b) as (v13 & -> & B13); [lia..|].
  destruct (rd16_ok (o + 14) b) as (v14 & -> & B14); [lia..|].
  destruct (rd16_ok (o + 16) b) as (v16 & -> & B16); [lia..|].
  destruct (rd16_ok (o + 18) b) as (v18 & -> & B18); [lia..|].
  destruct (rd16_ok (o + 20) b) as (v20 & -> & B20); [lia..|].
  destruct (rd16_ok (o + 22) b) as (v22 & -> & B22); [lia..|].
  destruct (rd16_ok (o + 24) b) as (v24 & -> & B24); [lia..|].
  destruct (rd16_ok (o + 26) b) as (v26 & -> & B26); [lia..|].
  destruct (rd32_ok (o + 28) b) as (v28 & -> & B28); [lia..|].
  cbn [mbind outcome_bind].
  eexists. split; [done|]. intros F. cbn. auto.
Qed.

(** A slot of a cluster of the data area. *)
Definition is_slot (priv : fat32_priv) (p : Z * Z) : Prop :=
  ∃ d s j, valid_cluster priv d ∧ 0 <= s < sec_per_clus priv ∧ 0 <= j < 16 ∧ p = (first_sec priv d + s, 32 * j).

(** A result of a scan was found at a slot. *)
Definition found_at {A R} (visit : Z → Z → fat32_dirent → A → A + R) (dev : block_device) (priv : fat32_priv) (x : R) : Prop :=
  ∃ p a, is_slot priv p ∧ visit p.1 p.2 (entry_at dev p) a = inr x.

Section Scans.
Context {A R : Type} (visit : Z → Z → fat32_dirent → A → A + R).
Context (dev : block_device) (priv : fat32_priv) (mnt : fat32_mnt).
Hypothesis G : geometry priv dev.
Hypothesis sized : dev_sized dev.

Lemma Ok_inj {B} (x y : B) : Ok x = Ok y → x = y.
Proof. by intros [= ->]. Qed.

Lemma mjoin_cons {B} (x : list B) l : mjoin (x :: l) = x ++ mjoin l.
Proof. done. Qed.

Lemma scan_list_app ps qs a :
  scan_list visit dev (ps ++ qs) a = match scan_list visit dev ps a with inl a => scan_list visit dev qs a | inr r => inr r end.
Proof.
  revert a. induction ps as [|p ps IH]; intros a; [done|]. cbn [app scan_list].
  destruct (is_end _); [done|]. destruct (fat32_entry_skip _); [done|]. by destruct (visit _ _ _ a).
Qed.

Lemma scan_list_found ps a r :
  scan_list visit dev ps a = inr (Some r) → ∃ p a', p ∈ ps ∧ visit p.1 p.2 (entry_at dev p) a' = inr r.
Proof.
  revert a. induction ps as [|p ps IH]; intros a; [done|]. cbn [scan_list].
  destruct (is_end _); [done|]. destruct (fat32_entry_skip _).
  { intros (q & a' & H & E)%IH. exists q, a'. split; [by right|done]. }
  destruct (visit p.1 p.2 (entry_at dev p) a) as [a1|r'] eqn:E.
  - intros (q & a' & H & E')%IH. exists q, a'. split; [by right|done].
  - intros [= <-]. exists p, a. split; [by left|done].
Qed.

Lemma scan_entries_total n lba o b a :
  0 <= o → o + 32 * Z.of_nat n <= Z.of_nat (length b) → ∃ r, scan_entries visit n lba o b a = Ok r.
Proof.
  revert o a. induction n as [|n IH]; intros o a H0 H1; cbn [scan_entries]; [eauto|].
  destruct (get_dirent_ok o b) as (de & -> & _); [lia|lia|]. cbn [mbind outcome_bind]. unfold FAT32_DIRENT_SIZE.
  case_bool_decide; [eauto|]. destruct (fat32_entry_skip de); [apply IH; lia|]. destruct (visit lba o de a); [apply IH; lia|eauto].
Qed.

Lemma scan_entries_spec n lba j a :
  in_dev dev lba → 0 <= j → j + Z.of_nat n <= 16 →
  scan_entries visit n lba (32 * j) (sec dev lba) a = Ok (scan_list visit dev ((λ i, (lba, 32 * i)) <$> seqZ j (Z.of_nat n)) a).
Proof.
  intros Hin. pose proof (sec_length dev lba sized Hin) as Hl.
  revert j a. induction n as [|n IH]; intros j a H0 H1; cbn [scan_entries]; [done|].
  rewrite seqZ_cons by lia. replace (Z.pred (Z.of_nat (S n))) with (Z.of_nat n) by lia. replace (Z.succ j) with (j + 1) by lia.
  cbn [fmap list_fmap scan_list]. unfold entry_at. cbn [fst snd].
  destruct (get_dirent_ok (32 * j) (sec dev lba)) as (de & E & _); [lia|lia|]. rewrite E. cbn [mbind outcome_bind]. unfold is_end.
  replace (32 * j + FAT32_DIRENT_SIZE) with (32 * (j + 1)) by (unfold FAT32_DIRENT_SIZE; lia).
  destruct (bool_decide _); [done|]. destruct (fat32_entry_skip de); [apply IH; lia|]. destruct (visit lba (32 * j) de a); [apply IH; lia|done].
Qed.

Lemma scan_sectors_spec n t c s a :
  fat_ok t → f_devs t !! fm_bdev mnt = Some dev → valid_cluster priv c → 0 <= s → s + Z.of_nat n <= sec_per_clus priv →
  wp (scan_sectors visit n mnt priv (first_sec priv c + s) a t) (λ '(r, t'), kept t t' ∧
    (∀ x, r = Some (inr (Some x)) → found_at visit dev priv x) ∧
    (f_io t = [] → r = Some (scan_list visit dev (mjoin ((λ s, sector_slots (first_sec priv c + s)) <$> seqZ s (Z.of_nat n))) a))).
Proof.
  revert t s a. induction n as [|n IH]; intros t s a O Hd V H0 H1; cbn [scan_sectors].
  { apply wp_Ok. split_and!; [by apply kept_refl|done|done]. }
  destruct (cluster_sec priv dev c s G V) as (Hin & _ & H16 & _); [lia|]. rewrite (g_bps _ _ G). change (Z.to_nat (512 / FAT32_DIRENT_SIZE)) with 16%nat.
  eapply wp_bind.
  { eapply (with_sector_spec t (fm_bdev mnt) dev); [done|done|by apply Hin|]. intros b Hb. apply scan_entries_total; lia. }
  intros [r t1] (K1 & P1 & P2).
  rewrite seqZ_cons by lia. replace (Z.pred (Z.of_nat (S n))) with (Z.of_nat n) by lia. replace (Z.succ s) with (s + 1) by lia.
  rewrite fmap_cons, mjoin_cons, scan_list_app. destruct r as [r|].
  2: { apply wp_Ok. split_and!; [done|done|]. intros Hio. by destruct (P2 Hio (g_size _ _ G) Hin). }
  destruct (P1 r eq_refl) as [_ E]. pose proof (scan_entries_spec 16 (first_sec priv c + s) 0 a Hin ltac:(lia) ltac:(lia)) as E'.
  change (32 * 0) with 0 in E'. change (Z.of_nat 16) with 16 in E'. rewrite E in E'. apply Ok_inj in E'. fold (sector_slots (first_sec priv c + s)) in E'. rewrite <- E'.
  destruct r as [a'|r].
  2: { apply wp_Ok. split_and!; [done| |done]. intros x [= ->]. symmetry in E'. apply scan_list_found in E' as (p & a' & Hp & Hv).
    exists p, a'. split; [|done]. apply list_elem_of_fmap in Hp as (j & -> & Hj). apply elem_of_seqZ in Hj. exists c, s, j. split_and!; [done|lia..|done]. }
  rewrite (u64_small (first_sec priv c + s + 1)) by (unfold in_u64, in_dev in *; lia). rewrite <- Z.add_assoc.
  eapply wp_mono; [apply (IH t1 (s + 1) a'); [apply K1|by rewrite (kp_devs _ _ K1)|done|lia|lia]|].
  intros [r t2] (K2 & F2 & R2). split_and!; [by etrans|done|]. intros Hio. apply R2. by apply K1.
Qed.

Lemma scan_dir_step k c a :
  valid_cluster priv c →
  scan_dir dev priv visit (S k) c a = match scan_list visit dev (cluster_slots priv c) a with
    | inr r => Some r
    | inl a => if fat32_is_eoc (next_of dev priv c) then Some None else scan_dir dev priv visit k (next_of dev priv c) a
    end.
Proof.
  intros V. unfold scan_dir, chain_slots. cbn [fat_chain chain_ends]. rewrite bool_decide_eq_true_2 by done.
  rewrite fmap_cons, mjoin_cons, scan_list_app. destruct (scan_list visit dev (cluster_slots priv c) a) as [a'|r]; [|done].
  by destruct (fat32_is_eoc _).
Qed.

Lemma scan_dir_invalid k c a : ¬ valid_cluster priv c → scan_dir dev priv visit k c a = Some None.
Proof. intros V. unfold scan_dir, chain_slots. destruct k; cbn [fat_chain chain_ends]; by rewrite bool_decide_eq_false_2. Qed.

Lemma scan_clusters_spec fuel t c g a :
  fat_ok t → f_devs t !! fm_bdev mnt = Some dev → 0 <= g <= cluster_count priv + 1 → cluster_count priv + 1 - g < Z.of_nat fuel →
  wp (scan_clusters visit fuel mnt priv c g a t) (λ '(r, t'), kept t t' ∧ (∀ x, r = Some (Some x) → found_at visit dev priv x) ∧
    (f_io t = [] → r = scan_dir dev priv visit (Z.to_nat (cluster_count priv + 1 - g)) c a)).
Proof.
  pose proof (g_count _ _ G) as Hcc. unfold FAT32_MIN_DATA_CLUSTERS in Hcc.
  revert t c g a. induction fuel as [|fuel IH]; intros t c g a O Hd Hg Hf; [lia|]. cbn [scan_clusters].
  rewrite (cluster_valid_spec _ _ _ G). case_bool_decide as V; cbn [negb].
  2: { apply wp_Ok. split_and!; [by apply kept_refl|done|]. intros _. by rewrite scan_dir_invalid. }
  destruct (Z.gtb_spec g (cluster_count priv)) as [Hgt|Hle].
  { apply wp_Ok. split_and!; [by apply kept_refl|done|]. intros _. replace (Z.to_nat _) with 0%nat by lia.
    unfold scan_dir. cbn [chain_slots fat_chain chain_ends]. by rewrite bool_decide_eq_true_2. }
  pose proof (g_spc _ _ G). destruct (cluster_sec priv dev c 0 G V) as (_ & _ & _ & ->); [lia|].
  replace (Z.to_nat (cluster_count priv + 1 - g)) with (S (Z.to_nat (cluster_count priv + 1 - (g + 1)))) by lia.
  rewrite (scan_dir_step _ c a V). eapply wp_bind.
  { rewrite <- (Z.add_0_r (first_sec priv c)). apply (scan_sectors_spec _ t c 0 a O Hd V); lia. }
  intros [r t1] (K1 & F1 & R1). rewrite Z2Nat.id in R1 by lia. fold (cluster_slots priv c) in R1.
  destruct r as [[a'|r]|].
  2: { apply wp_Ok. split_and!; [done|intros x [= ->]; by apply F1|]. intros Hio. specialize (R1 Hio). injection R1 as <-. done. }
  2: { apply wp_Ok. split_and!; [done|done|]. intros Hio. by specialize (R1 Hio). }
  eapply wp_bind; [eapply next_cluster_spec; [apply K1|rewrite (kp_devs _ _ K1); exact Hd|done|destruct V; lia]|].
  intros [c1 t2] (K2 & Hc1 & N). assert (K : kept t t2) by (by etrans).
  assert (N' : f_io t = [] → c1 = next_of dev priv c) by (intros Hio; apply N; [by apply K1|done]).
  destruct (fat32_is_eoc c1) eqn:Ee.
  { apply wp_Ok. split_and!; [done|done|]. intros Hio. specialize (R1 Hio). injection R1 as <-. by rewrite <- N', Ee. }
  replace (u32 (g + 1)) with (g + 1) by (unfold u32; rewrite Z.mod_small; lia).
  eapply wp_mono; [apply (IH t2 c1 (g + 1) a'); [apply K|by rewrite (kp_devs _ _ K)|lia|lia]|].
  intros [r t3] (K3 & F3 & R3). split_and!; [by etrans|done|]. intros Hio. specialize (R1 Hio). injection R1 as <-. rewrite <- N', Ee by done.
  apply R3. by apply K.
Qed.
End Scans.
