(* ===== verification/Fat32Mount.v ===== *)
(** * FAT32: the checks of a mount, and the directory operations *)

From S2P Require Import Prelude Bufcache BufcacheSpec Fat32 Fat32Spec Fat32Read Fat32Dir.

(** ** The superblock *)

(** The ranges of the fields, by their widths. *)
Record bpb_ranges (b : bpb) : Prop := BpbRanges {
  br_spc : 0 <= bpb_sec_per_clus b < 2 ^ 8;
  br_rsvd : 0 <= bpb_rsvd b < 2 ^ 16;
  br_nf : 0 <= bpb_num_fats b < 2 ^ 8;
  br_ts16 : 0 <= bpb_tot_sec16 b < 2 ^ 16;
  br_ts : 0 <= bpb_tot_sec b < 2 ^ 32;
  br_fsz : 0 <= bpb_fat_sz b < 2 ^ 32;
  br_rc : 0 <= bpb_root_clus b < 2 ^ 32
}.

Lemma read_bpb_ok b : length b = 512%nat → ∃ r, read_bpb b = Ok r ∧ (Forall byte b → ∀ x, r = Some x → bpb_ranges x).
Proof.
  intros Hl. unfold read_bpb.
  destruct (rd8_ok 510 b) as (s0 & -> & _); [lia|]. destruct (rd8_ok 511 b) as (s1 & -> & _); [lia|]. cbn [mbind outcome_bind].
  destruct (_ || _); [by eexists|].
  destruct (rd16_ok 11 b) as (v11 & -> & _); [lia..|]. destruct (rd8_ok 13 b) as (v13 & -> & B13); [lia..|].
  destruct (rd16_ok 14 b) as (v14 & -> & B14); [lia..|]. destruct (rd8_ok 16 b) as (v16 & -> & B16); [lia..|].
  destruct (rd16_ok 17 b) as (v17 & -> & _); [lia..|]. destruct (rd16_ok 19 b) as (v19 & -> & B19); [lia..|].
  destruct (rd16_ok 22 b) as (v22 & -> & _); [lia..|]. destruct (rd32_ok 32 b) as (v32 & -> & B32); [lia..|].
  destruct (rd32_ok 36 b) as (v36 & -> & B36); [lia..|]. destruct (rd32_ok 44 b) as (v44 & -> & B44); [lia..|].
  cbn [mbind outcome_bind]. eexists. split; [done|]. intros F x [= <-]. unfold byte in *.
  specialize (B13 F). specialize (B16 F). specialize (B14 F). specialize (B19 F). specialize (B32 F). specialize (B36 F). specialize (B44 F).
  split; cbn; lia.
Qed.

(** A superblock that is accepted describes a disk that is there: the FAT covers every cluster, the data lies
    on the device behind it, and the numbers of directory entries fit 32 bits. *)
Lemma check_bpb_geometry b dev err priv :
  bpb_ranges b → bd_sector_size dev = 512 → check_bpb b (sector_count dev) = (err, priv) →
  (err = 0 ∧ ∃ p, priv = Some p ∧ geometry p dev) ∨ (err = - EINVAL ∧ priv = None).
Proof.
  intros [R1 R2 R3 R4 R5 R6 R7] Hsz. unfold check_bpb. cbv zeta.
  set (tot := if bpb_tot_sec b =? 0 then bpb_tot_sec16 b else bpb_tot_sec b). set (spc := bpb_sec_per_clus b) in *.
  assert (Ht : 0 <= tot < 2 ^ 32) by (unfold tot; destruct (_ =? 0); lia).
  rewrite (u64_small (bpb_num_fats b * bpb_fat_sz b)) by (unfold in_u64; nia).
  rewrite (u64_small (bpb_rsvd b + _)) by (unfold in_u64; nia).
  set (data := bpb_rsvd b + bpb_num_fats b * bpb_fat_sz b). assert (Hd0 : 0 <= data) by nia.
  assert (Einval : ∀ (c : bool) x, (if c then (- EINVAL, @None fat32_priv) else x) = (err, priv) →
    (err = - EINVAL ∧ priv = None) ∨ (c = false ∧ x = (err, priv))).
  { intros [] x; [intros [= <- <-]; by left|by right]. }
  intros H. repeat (apply Einval in H as [H|[? H]]; [by right|]). left.
  repeat match goal with
  | E : _ || _ = false |- _ => apply orb_false_iff in E as [? ?]
  | E : negb _ = false |- _ => apply negb_false_iff in E
  | E : (_ =? _) = true |- _ => apply Z.eqb_eq in E
  | E : (_ =? _) = false |- _ => apply Z.eqb_neq in E
  | E : (_ <? _) = false |- _ => apply Z.ltb_ge in E
  | E : (_ >? _) = false |- _ => rewrite Z.gtb_ltb in E; apply Z.ltb_ge in E
  | E : (_ >=? _) = false |- _ => rewrite Z.geb_leb in E; apply Z.leb_gt in E
  end.
  assert (Hdata : u32 data = data) by (unfold u32; rewrite Z.mod_small; lia). rewrite Hdata in *.
  assert (Hdiff : u32 (tot - data) = tot - data) by (unfold u32; rewrite Z.mod_small; lia). rewrite Hdiff in *.
  set (count := (tot - data) / spc) in *. unfold FAT32_MIN_DATA_CLUSTERS, FAT32_SECTOR_SIZE in *.
  assert (Hcount : count * spc <= tot - data) by (unfold count; pose proof (Z.mul_div_le (tot - data) spc); lia).
  rewrite (u64_small (count * spc)), (u64_small (data + _)) in * by (unfold in_u64; nia).
  change (512 / FAT32_DIRENT_SIZE) with 16 in *. rewrite (u64_small (_ * 16)) in * by (unfold in_u64; nia).
  assert (Hc28 : count < 2 ^ 28) by nia.
  assert (Hc2 : u32 (count + 2) = count + 2) by (unfold u32; rewrite Z.mod_small; lia). rewrite Hc2 in *.
  rewrite (u64_small (count + 2)), (u64_small (_ * 4)) in * by (unfold in_u64; lia).
  assert (Hbps : bpb_bytes_per_sec b = 512) by done. rewrite Hbps in *.
  rewrite (u64_small (bpb_fat_sz b * 512)) in * by (unfold in_u64; lia).
  injection H as <- <-. split; [done|]. eexists. split; [done|].
  assert (Hcb : u32 (spc * 512) = spc * 512) by (unfold u32; rewrite Z.mod_small; lia).
  assert (Hfat : (count + 1) * 4 / 512 < bpb_fat_sz b) by (apply Z.div_lt_upper_bound; lia).
  split; cbn; unfold FAT32_MIN_DATA_CLUSTERS; try lia. nia.
Qed.

(** What an operation that may allocate leaves alone. *)
Record kept_fs (t t' : fat) : Prop := KeptFs {
  kf_ok : fat_ok t';
  kf_devs : f_devs t' = f_devs t;
  kf_mnts : f_mnts t' = f_mnts t;
  kf_io : f_io t = [] → f_io t' = [];
  kf_kmem : f_kmem t = [] → f_kmem t' = []
}.

Lemma kept_kept_fs t t' : kept t t' → kept_fs t t'.
Proof. intros [A1 A2 A3 A4 A5]. split; [done|done|done|done|]. by rewrite A4. Qed.

#[export] Instance kept_fs_trans : Transitive kept_fs.
Proof. intros t1 t2 t3 [A1 A2 A3 A4 A5] [B1 B2 B3 B4 B5]. split; [done|congruence|congruence|auto|auto]. Qed.

Lemma kept_fs_refl t : fat_ok t → kept_fs t t.
Proof. by split. Qed.

Lemma fat_ok_same t t' : f_slots t' = f_slots t → f_devs t' = f_devs t → fat_ok t → fat_ok t'.
Proof. intros E1 E2 [A1 A2 A3]. split; rewrite ?E1, ?E2; [done| |done]. intros i x. rewrite ?E1, ?E2. apply A2. Qed.

Lemma next_fkmem_spec t : fat_ok t → ∃ b t', next_fkmem t = (b, t') ∧ kept_fs t t' ∧ (f_kmem t = [] → b = true).
Proof.
  intros O. unfold next_fkmem. destruct (f_kmem t) as [|b bs] eqn:E.
  - eexists _, _. split_and!; [done|by apply kept_fs_refl|done].
  - eexists _, _. split_and!; [done| |done]. split; cbn; try done; [|by rewrite E]. by apply (fat_ok_same t).
Qed.

(** ** Inodes *)

(** An in-memory inode from its fields. *)
Definition mk_node (ino first attr : Z) (is_dir : bool) (size : Z) : fat32_inode :=
  Finode ino first attr is_dir (if is_dir then 0 else size) (if is_dir then FAT32_MODE_DIR else FAT32_MODE_REG) 0 0.

Lemma inode_alloc_spec ino first attr d size t :
  fat_ok t → ∃ err o t', fat32_inode_alloc ino first attr d size t = (err, o, t') ∧ kept_fs t t' ∧
    (err = 0 ∧ o = Some (mk_node ino first attr d size) ∨ err = - ENOMEM ∧ o = None) ∧ (f_kmem t = [] → err = 0).
Proof.
  intros O. unfold fat32_inode_alloc. destruct (next_fkmem_spec t O) as (b1 & t1 & -> & K1 & H1).
  destruct b1; cbn [negb]; [|eexists _, _, _; split_and!; [done|done|by right|intros X; by specialize (H1 X)]].
  destruct (next_fkmem_spec t1) as (b2 & t2 & -> & K2 & H2); [apply K1|].
  destruct b2; cbn [negb]; (eexists _, _, _; split_and!; [done|by etrans| |]).
  - by left.
  - done.
  - by right.
  - intros X. specialize (H2 (kf_kmem _ _ K1 X)). done.
Qed.

Definition first_of (de : fat32_dirent) : Z := Z.lor (Z.shiftl (de_fst_clus_hi de) 16) (de_fst_clus_lo de).

Definition entry_node (ino : Z) (de : fat32_dirent) : fat32_inode :=
  mk_node ino (first_of de) (de_attr de) (negb (Z.land (de_attr de) FAT32_ATTR_DIRECTORY =? 0)) (de_file_size de).

Definition root_node (priv : fat32_priv) : fat32_inode := mk_node FAT32_ROOT_INO (root_clus priv) FAT32_ATTR_DIRECTORY true 0.

Lemma first_of_nonneg dev p : dev_sized dev → 0 <= first_of (entry_at dev p).
Proof.
  intros S. unfold entry_at. destruct (get_dirent p.2 (sec dev p.1)) as [de| | |] eqn:E; [|done..].
  assert (H : length (sec dev p.1) = 512%nat ∧ Forall byte (sec dev p.1)).
  { unfold sec in *. destruct (bd_sectors dev !! Z.to_nat p.1) as [x|] eqn:Ex; [by apply (Forall_lookup_1 _ _ _ _ (proj2 S) Ex)|].
    exfalso. unfold get_dirent, FAT32_DIRENT_SIZE in E. cbn [default length] in E.
    destruct (Z.leb_spec 0 p.2); cbn [andb] in E; [|done]. rewrite (proj2 (Z.leb_gt _ _)) in E by lia. done. }
  destruct H as [Hl Hb]. unfold get_dirent, FAT32_DIRENT_SIZE in E. destruct (_ && _) eqn:Ec; [|done].
  apply andb_prop in Ec as [Ha%Z.leb_le Hc%Z.leb_le].
  destruct (get_dirent_ok p.2 (sec dev p.1)) as (de' & E' & B); [lia|lia|]. unfold get_dirent, FAT32_DIRENT_SIZE in E'.
  rewrite (proj2 (Z.leb_le 0 _)), (proj2 (Z.leb_le _ _)) in E' by lia. cbn [andb] in E'. rewrite E in E'. apply Ok_inj in E'. subst de'.
  destruct (B Hb) as (B1 & B2 & _). unfold first_of. apply Z.lor_nonneg. rewrite Z.shiftl_nonneg. lia.
Qed.

Section Names.
Context (dev : block_device) (priv : fat32_priv).

(** The inode with a number: the root, or the entry it is the number of. *)
Definition node_at (ino : Z) : fat32_inode :=
  if ino =? FAT32_ROOT_INO then root_node priv else entry_node ino (entry_at dev (ino / 16, 32 * (ino mod 16))).

(** What a name leads to in a directory. *)
Definition dir_look (dir : fat32_inode) (name : list Z) : Z + Z :=
  if negb (fi_is_dir dir) then inl (- ENOTDIR) else
  if decide (name = [46]) then inr (fi_ino dir) else
  match scan_dir dev priv (lookup_visit name) (S (Z.to_nat (cluster_count priv))) (fi_first_cluster dir) () with
  | None => inl (- EIO)
  | Some None => inl (- ENOENT)
  | Some (Some (ino, _)) => inr ino
  end.

Hypothesis G : geometry priv dev.

(** The number of an entry leads back to it. *)
Lemma dirent_ino_at p : is_slot priv p → node_at (fat32_dirent_ino p.1 p.2) = entry_node (fat32_dirent_ino p.1 p.2) (entry_at dev p).
Proof.
  intros (d & s & j & V & Hs & Hj & Ep). destruct (cluster_sec priv dev d s G V Hs) as (Hin & Hds & H16 & _).
  assert (0 < data_start_sec priv).
  { pose proof (g_rsvd _ _ G). pose proof (g_fat _ _ G). pose proof (g_count _ _ G). unfold FAT32_MIN_DATA_CLUSTERS in *.
    assert (0 <= (cluster_count priv + 1) * 4 / 512) by (apply Z.div_pos; lia). lia. }
  assert (E : fat32_dirent_ino p.1 p.2 = (first_sec priv d + s) * 16 + j).
  { unfold fat32_dirent_ino. rewrite Ep. cbn [fst snd]. change (FAT32_SECTOR_SIZE / FAT32_DIRENT_SIZE) with 16. unfold FAT32_DIRENT_SIZE.
    rewrite (Z.mul_comm 32 j), Z.div_mul by lia. unfold u32. rewrite Z.mod_small; [done|]. unfold in_dev in Hin. lia. }
  rewrite E, Ep. unfold node_at. rewrite (proj2 (Z.eqb_neq _ _)) by (unfold FAT32_ROOT_INO; lia).
  replace (((first_sec priv d + s) * 16 + j) / 16) with (first_sec priv d + s) by (rewrite Z.div_add_l, Z.div_small; lia).
  replace (((first_sec priv d + s) * 16 + j) mod 16) with j by (rewrite Z.add_comm, Z.mod_add, Z.mod_small; lia). done.
Qed.

Lemma look_found name i de : found_at (lookup_visit name) dev priv (i, de) → entry_node i de = node_at i.
Proof.
  intros (p & [] & Hp & E). unfold lookup_visit in E. destruct (negb _); [done|]. injection E as <- <-. by rewrite dirent_ino_at.
Qed.

Lemma node_at_ino i : fi_ino (node_at i) = i.
Proof. unfold node_at. destruct (Z.eqb_spec i FAT32_ROOT_INO) as [->|]; done. Qed.

Lemma node_first_nonneg i : dev_sized dev → 0 <= fi_first_cluster (node_at i).
Proof.
  intros S. unfold node_at. destruct (_ =? _); cbn; [pose proof (g_root _ _ G); lia|by apply first_of_nonneg].
Qed.

(** The copy of an inode is the inode. *)
Lemma clone_eq i : let d := node_at i in mk_node (fi_ino d) (fi_first_cluster d) (fi_attr d) (fi_is_dir d) (fi_size d) = d.
Proof. unfold node_at, root_node, entry_node, mk_node. destruct (_ =? _); cbn; [done|]. by destruct (negb _). Qed.
End Names.

(** ** The operations *)

(** The entry [readdir] reports at an index: the code's errors, the end, or an entry. *)
Definition dir_entry (dev : block_device) (priv : fat32_priv) (dir : fat32_inode) (index : Z) : Z * option (Z * list Z) :=
  if negb (fi_is_dir dir) then (- ENOTDIR, None) else
  match scan_dir dev priv (readdir_visit index) (S (Z.to_nat (cluster_count priv))) (fi_first_cluster dir) 0 with
  | None => (- EIO, None)
  | Some None => (0, None)
  | Some (Some e) => (1, Some e)
  end.

Section Ops.
Context (t : fat) (m : nat) (mnt : fat32_mnt) (priv : fat32_priv) (dev : block_device).
Hypothesis O : fat_ok t.
Hypothesis M : mnt_ok t m mnt priv dev.

Lemma fat32_scan_spec {A R} (visit : Z → Z → fat32_dirent → A → A + R) c a :
  wp (scan_clusters visit (scan_fuel priv) mnt priv c 0 a t) (λ '(r, t'), kept t t' ∧ (∀ x, r = Some (Some x) → found_at visit dev priv x) ∧
    (f_io t = [] → r = scan_dir dev priv visit (S (Z.to_nat (cluster_count priv))) c a)).
Proof.
  pose proof (mk_geo _ _ _ _ _ M) as G. pose proof (g_count _ _ G). unfold FAT32_MIN_DATA_CLUSTERS, scan_fuel in *.
  replace (S (Z.to_nat (cluster_count priv))) with (Z.to_nat (cluster_count priv + 1 - 0)) by lia.
  apply (scan_clusters_spec visit dev priv mnt G (fo_dev _ O _ _ (mk_dev _ _ _ _ _ M))); [done|apply M|lia|lia].
Qed.

Lemma fat32_lookup_spec i name :
  let d := node_at dev priv i in
  wp (fat32_lookup m d name t) (λ '(err, o, t'), kept_fs t t' ∧
    (err = 0 ∧ (∃ j, o = Some (node_at dev priv j)) ∨ err < 0 ∧ o = None) ∧
    (f_io t = [] → f_kmem t = [] → match dir_look dev priv d name with
      | inl e => err = e ∧ o = None
      | inr j => err = 0 ∧ o = Some (node_at dev priv j)
      end)).
Proof.
  intros d. unfold fat32_lookup, dir_look. pose proof (mk_geo _ _ _ _ _ M) as G.
  destruct (fi_is_dir d) eqn:Ed; cbn [negb]; [|by apply wp_Ok; split_and!; [apply kept_fs_refl|right|]].
  case_decide.
  { destruct (inode_alloc_spec (fi_ino d) (fi_first_cluster d) (fi_attr d) true (fi_size d) t O) as (err & o & t' & E & K & C & H0).
    unfold fat32_clone_inode. rewrite Ed, E. apply wp_Ok. pose proof (clone_eq dev priv i) as Ec. cbv zeta in Ec. fold d in Ec. rewrite Ed in Ec. rewrite Ec in C. split_and!; [done| |].
    - destruct C as [[-> ->]|[-> ->]]; [left|by right]. split; [done|by exists i].
    - intros _ Hk. destruct C as [[-> ->]|[-> ->]]; [|by specialize (H0 Hk)]. unfold d. by rewrite node_at_ino. }
  rewrite (mnt_priv_eq _ _ _ _ _ M). cbn [mbind outcome_bind].
  eapply wp_bind; [apply fat32_scan_spec|]. intros [r t1] (K1 & F1 & R1). apply kept_kept_fs in K1 as K1'.
  destruct r as [[[j de]|]|].
  - destruct (inode_alloc_spec j (first_of de) (de_attr de) (negb (Z.land (de_attr de) FAT32_ATTR_DIRECTORY =? 0)) (de_file_size de) t1)
      as (err & o & t' & E & K & C & H0); [apply K1|]. unfold fat32_inode_build. fold (first_of de). rewrite E. apply wp_Ok.
    pose proof (look_found dev priv G _ _ _ (F1 _ eq_refl)) as Hn. unfold entry_node in Hn. rewrite Hn in C.
    split_and!; [by etrans| |].
    + destruct C as [[-> ->]|[-> ->]]; [left|by right]. split; [done|by exists j].
    + intros Hio Hk. specialize (R1 Hio). rewrite <- R1. specialize (H0 (kf_kmem _ _ K1' Hk)).
      destruct C as [[-> ->]|[-> ->]]; [|done]. done.
  - apply wp_Ok. split_and!; [done|by right|]. intros Hio Hk. by rewrite <- (R1 Hio).
  - apply wp_Ok. split_and!; [done|by right|]. intros Hio Hk. by rewrite <- (R1 Hio).
Qed.

Lemma fat32_readdir_spec d index :
  wp (fat32_readdir m d index t) (λ '(err, o, t'), kept t t' ∧ (f_io t = [] → (err, o) = dir_entry dev priv d index)).
Proof.
  unfold fat32_readdir, dir_entry. destruct (fi_is_dir d); cbn [negb]; [|by apply wp_Ok; split; [apply kept_refl|]].
  rewrite (mnt_priv_eq _ _ _ _ _ M). cbn [mbind outcome_bind].
  eapply wp_bind; [apply fat32_scan_spec|]. intros [r t1] (K1 & F1 & R1).
  destruct r as [[e|]|]; apply wp_Ok; (split; [done|]); intros Hio; by rewrite <- (R1 Hio).
Qed.
End Ops.

(** The superblock as the disk has it. *)
Definition super_of (dev : block_device) : Z * option fat32_priv :=
  match read_bpb (sec dev 0) with Ok (Some b) => check_bpb b (sector_count dev) | _ => (- EINVAL, None) end.

Lemma parse_bpb_spec t bdev dev :
  fat_ok t → f_devs t !! bdev = Some dev → bd_sector_size dev = 512 →
  wp (fat32_parse_bpb bdev t) (λ '(err, priv, t'), kept t t' ∧
    (err = 0 ∧ (∃ p, priv = Some p ∧ geometry p dev) ∨ err < 0 ∧ priv = None) ∧
    (f_io t = [] → in_dev dev 0 → (err, priv) = super_of dev)).
Proof.
  intros O Hd Hsz. unfold fat32_parse_bpb. eapply wp_bind.
  { eapply (with_sector_spec t bdev dev); [done|done|lia|]. intros b Hb. destruct (read_bpb_ok b Hb) as (r & -> & _). eauto. }
  intros [r t1] (K1 & P1 & P2). destruct r as [r|].
  2: { apply wp_Ok. split_and!; [done|by right|]. intros Hio Hin. by destruct (P2 Hio Hsz Hin). }
  destruct (P1 r eq_refl) as [Hin E]. destruct (sec_ok dev 0 (fo_dev _ O _ _ Hd) Hin) as [Hl Hb].
  unfold super_of. rewrite E. destruct r as [b|].
  2: { apply wp_Ok. split_and!; [done|by right|done]. }
  rewrite (kp_devs _ _ K1), Hd. cbn [deref mbind outcome_bind].
  destruct (read_bpb_ok _ Hl) as (r' & E' & B). rewrite E in E'. apply Ok_inj in E'. subst r'.
  destruct (check_bpb b (sector_count dev)) as [err priv] eqn:Ec. apply wp_Ok. split_and!; [done| |done].
  destruct (check_bpb_geometry b dev err priv (B Hb b eq_refl) Hsz Ec) as [?|[-> ->]]; [by left|by right].
Qed.

(** Only slot [m] changes. *)
Record mounts_at (t t' : fat) (m : nat) : Prop := MountsAt {
  ma_ok : fat_ok t';
  ma_devs : f_devs t' = f_devs t;
  ma_mnts k : k ≠ m → f_mnts t' !! k = f_mnts t !! k;
  ma_io : f_io t = [] → f_io t' = [];
  ma_kmem : f_kmem t = [] → f_kmem t' = []
}.

Lemma mounts_at_kept t t1 t2 m : mounts_at t t1 m → kept_fs t1 t2 → mounts_at t t2 m.
Proof. intros [A1 A2 A3 A4 A5] [B1 B2 B3 B4 B5]. split; [done|congruence| |auto|auto]. intros k Hk. rewrite B3. by apply A3. Qed.

Lemma mounts_at_set t t1 m v : mounts_at t t1 m → mounts_at t (with_fmnts (<[m := v]> (f_mnts t1)) t1) m.
Proof.
  intros [A1 A2 A3 A4 A5]. split; cbn; [by apply (fat_ok_same t1)|done| |done|done]. intros k Hk. rewrite lookup_insert_ne by done. by apply A3.
Qed.

Lemma fat32_mount_spec t m bdev dev :
  fat_ok t → f_devs t !! bdev = Some dev →
  wp (fat32_mount m bdev t) (λ '(err, o, t'), mounts_at t t' m ∧
    (err = 0 ∧ (∃ priv, mnt_ok t' m (Fmnt bdev (Some priv)) priv dev ∧ o = Some (root_node priv)) ∨ err < 0 ∧ o = None) ∧
    (f_io t = [] → f_kmem t = [] → bd_sector_size dev = 512 → in_dev dev 0 →
      err = (super_of dev).1 ∧ ∀ priv, (super_of dev).2 = Some priv → o = Some (root_node priv))).
Proof.
  intros O Hd. unfold fat32_mount. set (old := match _ with Some _ => _ | None => _ end). cbv zeta.
  assert (A0 : mounts_at t t m) by (by split).
  apply (mounts_at_set t t m (Fmnt bdev old)) in A0. set (t0 := with_fmnts _ t) in *.
  rewrite (ma_devs _ _ _ A0), Hd. cbn [deref mbind outcome_bind].
  destruct (Z.eqb_spec (bd_sector_size dev) FAT32_SECTOR_SIZE) as [Hsz|Hsz]; cbn [negb].
  2: { apply wp_Ok. split_and!; [done|by right|]. intros _ _ X. by destruct Hsz. }
  destruct (next_fkmem_spec t0) as (b & t1 & E1 & K1 & H1); [apply A0|]. rewrite E1.
  pose proof (mounts_at_kept _ _ _ _ A0 K1) as A1. destruct b; cbn [negb].
  2: { apply wp_Ok. split_and!; [done|by right|]. intros _ X. by specialize (H1 X). }
  eapply wp_bind; [apply (parse_bpb_spec t1 bdev dev); [apply A1|by rewrite (ma_devs _ _ _ A1)|done]|].
  intros [[err priv] t2] (K2 & C2 & S2). pose proof (mounts_at_kept _ _ _ _ A1 (kept_kept_fs _ _ K2)) as A2.
  destruct C2 as [[-> (p & -> & G)]|[Herr ->]].
  - cbn [negb Z.eqb deref mbind outcome_bind]. apply (mounts_at_set _ _ m (Fmnt bdev (Some p))) in A2 as A3. set (t3 := with_fmnts _ t2) in *.
    destruct (inode_alloc_spec FAT32_ROOT_INO (root_clus p) FAT32_ATTR_DIRECTORY true 0 t3) as (err & o & t4 & E4 & K4 & C4 & H4); [apply A3|].
    unfold fat32_inode_root. rewrite E4. pose proof (mounts_at_kept _ _ _ _ A3 K4) as A4. destruct C4 as [[-> ->]|[-> ->]].
    + cbn [negb Z.eqb]. apply wp_Ok. split_and!; [done| |].
      * left. split; [done|]. exists p. split; [|done]. split; [|done|by rewrite (ma_devs _ _ _ A4)|done].
        rewrite (kf_mnts _ _ K4). unfold t3. cbn. by rewrite lookup_insert_eq.
      * intros Hio _ _ Hin. rewrite <- S2 by (try done; by apply A1). split; [done|]. by intros p' [= <-].
    + cbn [negb Z.eqb]. apply wp_Ok. split_and!; [by apply mounts_at_set|by right|]. intros _ X. by specialize (H4 (ma_kmem _ _ _ A3 X)).
  - rewrite (proj2 (Z.eqb_neq err 0)) by lia. cbn [negb]. apply wp_Ok. split_and!; [done|by right|].
    intros Hio _ _ Hin. rewrite <- S2 by (try done; by apply A1). done.
Qed.
