(* ===== verification/Block.v ===== *)
(** * kernel/fs/block.c: the block device registry

    The table keeps pointers to structures the drivers own; a device is described by
    its address, its name and whether it has operations. *)

From S2P Require Import Prelude.

Definition MAX_BLOCK_DEVICES : Z := 8.

Record block_desc := BlockDesc { bd_addr : Z; bd_name : option (list Z); bd_ops : bool }.

Definition has_name (name : list Z) (d : block_desc) : bool := bool_decide (bd_name d = Some name).

(** [for (i = 0; i < bdev_count; i++) if (strcmp(bdevs[i]->name, name) == 0) return bdevs[i];] *)
Fixpoint block_lookup (name : list Z) (bdevs : list block_desc) : option block_desc :=
  match bdevs with
  | [] => None
  | d :: bdevs => if has_name name d then Some d else block_lookup name bdevs
  end.

Definition block_count (bdevs : list block_desc) : Z := Z.of_nat (length bdevs).

Definition block_get (index : Z) (bdevs : list block_desc) : option block_desc :=
  if index >=? block_count bdevs then None else bdevs !! Z.to_nat index.

Definition block_register (bdev : option block_desc) (bdevs : list block_desc) : Z * list block_desc :=
  match bdev with
  | None => (- EINVAL, bdevs)
  | Some d =>
      match bd_name d with
      | None => (- EINVAL, bdevs)
      | Some name =>
          if negb (bd_ops d) then (- EINVAL, bdevs) else
          match block_lookup name bdevs with
          | Some _ => (- EEXIST, bdevs)
          | None => if block_count bdevs >=? MAX_BLOCK_DEVICES then (- ENOMEM, bdevs) else (0, bdevs ++ [d])
          end
      end
  end.

(** ** The registry *)

(** Every device is complete, and names are different. *)
Record registry_ok (bdevs : list block_desc) : Prop := RegistryOk {
  ro_len : block_count bdevs <= MAX_BLOCK_DEVICES;
  ro_dev d : d ∈ bdevs → is_Some (bd_name d) ∧ bd_ops d = true;
  ro_names : NoDup (bd_name <$> bdevs)
}.

Lemma block_lookup_some name bdevs d : block_lookup name bdevs = Some d → d ∈ bdevs ∧ bd_name d = Some name.
Proof.
  induction bdevs as [|x l IH]; cbn; [done|]. unfold has_name. case_bool_decide.
  - intros [= ->]. split; [left|done].
  - intros [? ?]%IH. split; [by right|done].
Qed.

Lemma block_lookup_none name bdevs : block_lookup name bdevs = None ↔ Some name ∉ bd_name <$> bdevs.
Proof.
  induction bdevs as [|x l IH]; cbn; [split; [intros _; apply not_elem_of_nil|done]|].
  rewrite not_elem_of_cons. unfold has_name. case_bool_decide as E; [|rewrite IH]; naive_solver.
Qed.

Lemma block_lookup_app name l d :
  block_lookup name l = None → bd_name d = Some name → block_lookup name (l ++ [d]) = Some d.
Proof.
  induction l as [|x l IH]; cbn; unfold has_name.
  - intros _ E. by rewrite bool_decide_eq_true_2.
  - case_bool_decide; [done|]. apply IH.
Qed.

Lemma block_lookup_keep name l d x : block_lookup name l = Some x → block_lookup name (l ++ [d]) = Some x.
Proof. induction l as [|y l IH]; cbn; [done|]. destruct (has_name name y); [done|apply IH]. Qed.

(** The registry refuses incomplete devices, names it knows and a ninth device, and
    changes nothing then; a device it accepts is found under its name, the others stay
    where they are, and names stay different. *)
Theorem block_register_correct (bdev : option block_desc) (bdevs : list block_desc) :
  registry_ok bdevs →
  let '(err, bdevs') := block_register bdev bdevs in
  registry_ok bdevs' ∧ (err ≠ 0 → bdevs' = bdevs) ∧
  (∀ name d, bdev = Some d → bd_name d = Some name → bd_ops d = true →
     (err = - EEXIST ↔ is_Some (block_lookup name bdevs)) ∧
     (err = 0 ↔ block_lookup name bdevs = None ∧ block_count bdevs < MAX_BLOCK_DEVICES) ∧
     (err = 0 → block_lookup name bdevs' = Some d ∧ (∀ n x, block_lookup n bdevs = Some x → block_lookup n bdevs' = Some x) ∧
        block_get (block_count bdevs) bdevs' = Some d)).
Proof.
  intros R. unfold block_register. destruct bdev as [d|]; [|by split_and!].
  destruct (bd_name d) as [name|] eqn:En; [|split_and!; [done|done|congruence]].
  destruct (bd_ops d) eqn:Eo; cbn [negb]; [|split_and!; [done|done|congruence]].
  destruct (block_lookup name bdevs) as [x|] eqn:El.
  { split_and!; [done|done|]. intros n' d' [= <-] E _. rewrite En in E. injection E as <-. rewrite El.
    split_and!; [split; [by eexists|done]|split; [done|by intros [? _]]|done]. }
  destruct (Z.geb_spec (block_count bdevs) MAX_BLOCK_DEVICES) as [Hf|Hf].
  { split_and!; [done|done|]. intros n' d' [= <-] E _. rewrite En in E. injection E as <-. rewrite El.
    split_and!; [|split; [done|lia]|done]. split; [done|]. by intros [? ?]. }
  split_and!; [|done|].
  - destruct R as [R1 R2 R3]. split.
    + unfold block_count in *. rewrite length_app. cbn. lia.
    + intros y [Hy|Hy]%elem_of_app; [by apply R2|]. apply list_elem_of_singleton in Hy as ->. rewrite En. eauto.
    + rewrite fmap_app. apply NoDup_app. split_and!; [done| |apply NoDup_singleton].
      intros y Hy Hd. apply list_elem_of_singleton in Hd as ->. rewrite En in Hy. by apply block_lookup_none in El.
  - intros n' d' [= <-] E _. rewrite En in E. injection E as <-. rewrite El. split_and!.
    + split; [done|]. by intros [? ?].
    + split; [done|done].
    + intros _. split_and!; [by apply block_lookup_app|intros; by apply block_lookup_keep|].
      unfold block_get, block_count. rewrite length_app. cbn [length].
      rewrite Z.geb_leb, (proj2 (Z.leb_gt _ _)) by lia. rewrite Nat2Z.id. by apply list_lookup_middle.
Qed.

Lemma block_register_correct_witness :
  let d := BlockDesc 1 (Some [104; 100; 97]) true in
  registry_ok [] ∧ block_register (Some d) [] = (0, [d]) ∧ block_lookup [104; 100; 97] [d] = Some d.
Proof.
  intros d. assert (R : registry_ok []) by (split; [done|intros ? H; by apply not_elem_of_nil in H|constructor]).
  split_and!; [done|done|].
  destruct (block_register_correct (Some d) [] R) as (_ & _ & H).
  by destruct (H [104; 100; 97] d eq_refl eq_refl eq_refl) as (_ & _ & X); destruct (X eq_refl).
Defined.
