(* ===== verification/Vfs.v ===== *)
(** * kernel/fs/vfs.c: paths, mounts and the inode cache

    In-memory inodes live in a heap and are shared: the cache chains them by
    [vn_next] from 64 buckets, and [vn_ref] counts the references.  A file
    system is a record of operations, as [struct vfs_ops] is; operations that are NULL for
    some file system are optional.  They get the slot of their mount, their inode
    by value, and return what they changed.  Paths are C strings without their NUL. *)

From S2P Require Import Prelude Block.

Local Open Scope c_scope.

Definition VFS_MOUNT_MAX : nat := 8.
Definition VFS_ICACHE_BUCKETS : Z := 64.
Definition VFS_PATH_MAX : Z := 256.
Definition VFS_NAME_MAX : Z := 64.

Definition slash : Z := 47.
Definition dot_name : list Z := [46].
Definition dotdot_name : list Z := [46; 46].

(** ** Paths *)

Fixpoint skip_slash (p : list Z) : list Z :=
  match p with
  | [] => []
  | c :: p' => if c =? slash then skip_slash p' else p
  end.

(** [while (path[i] && path[i] != '/')]: the component and the rest, [None] when
    it does not fit into [max_len] characters with its NUL. *)
Fixpoint take_component (i max_len : Z) (p : list Z) : option (list Z * list Z) :=
  match p with
  | [] => Some ([], [])
  | c :: p' =>
      if c =? slash then Some ([], p) else
      if i >=? max_len - 1 then None else
      match take_component (i + 1) max_len p' with
      | Some (comp, rest) => Some (c :: comp, rest)
      | None => None
      end
  end.

(** [Ok] results of [next_component]: 0 at the end, 1 with a component, or an error. *)
Inductive component :=
| NoMore
| Comp (comp rest : list Z)
| TooLong.

Definition next_component (path : list Z) (max_len : Z) : component :=
  match skip_slash path with
  | [] => NoMore
  | p => match take_component 0 max_len p with Some (comp, rest) => Comp comp rest | None => TooLong end
  end.

Definition path_has_more (path : list Z) : bool := negb (bool_decide (skip_slash path = [])).

(** [while (len > 1 && out[len - 1] != '/') len--;] on [out[0..len)], reversed. *)
Fixpoint pop_to_slash (rout : list Z) : list Z :=
  match rout with
  | c :: (_ :: _) as r => if c =? slash then rout else pop_to_slash r
  | _ => rout
  end.

Definition pop_component (out : list Z) : list Z :=
  match pop_to_slash (rev out) with
  | _ :: (_ :: _) as r => rev r
  | r => rev r
  end.

Fixpoint normalize_loop (fuel : nat) (path out : list Z) : outcome (Z * list Z) :=
  match fuel with
  | O => NoFuel
  | S fuel =>
      match next_component path VFS_NAME_MAX with
      | NoMore => Ok (0, out)
      | TooLong => Ok (- ENAMETOOLONG, out)
      | Comp comp path =>
          if decide (comp = dot_name) then normalize_loop fuel path out else
          if decide (comp = dotdot_name) then normalize_loop fuel path (pop_component out) else
          let len := Z.of_nat (length out) in
          let need := (if len =? 1 then 0 else 1) + Z.of_nat (length comp) in
          if len + need + 1 >? VFS_PATH_MAX then Ok (- ENAMETOOLONG, out) else
          normalize_loop fuel path (out ++ (if negb (len =? 1) then [slash] else []) ++ comp)
      end
  end.

Definition normalize_path (path : list Z) : outcome (Z * list Z) :=
  match path with
  | c :: _ => if negb (c =? slash) then Ok (- EINVAL, []) else normalize_loop (S (length path)) path [slash]
  | [] => Ok (- EINVAL, [])
  end.

(** ** Inodes, mounts, operations *)

(** The fields of [struct vfs_inode] that vfs.c reads; the file system has the rest. *)
Class inode_fields (node : Type) := InodeFields { n_ino : node → Z; n_is_dir : node → bool; n_mode : node → Z }.

(** The addresses of [mounts[i].mnt], which the hash depends on. *)
Class mnt_addresses := mnt_addr : nat → Z.

Section Vfs.
Context {T node : Type} `{NF : inode_fields node} `{MA : mnt_addresses}.

Record vfs_ops := VfsOps {
  op_mount : nat → Z → T → outcome (Z * option node * T);
  op_lookup : nat → node → list Z → T → outcome (Z * option node * T);
  op_readdir : option (nat → node → Z → T → outcome (Z * option (Z * list Z) * T));
  op_read : option (nat → node → Z → Z → T → outcome (Z * list Z * T));
  op_write : option (nat → node → Z → Z → list Z → T → outcome (Z * node * T));
  op_truncate : option (nat → node → Z → T → outcome (Z * node * T));
  op_create : option (nat → node → list Z → Z → T → outcome (Z * option node * node * T));
  op_unlink : option (nat → node → list Z → T → outcome (Z * node * T));
  op_mkdir : option (nat → node → list Z → Z → T → outcome (Z * node * T));
  op_rmdir : option (nat → node → list Z → T → outcome (Z * node * T));
  op_rename : option (nat → node → list Z → option node → list Z → T → outcome (Z * node * option node * T));
  op_fsync : option (nat → node → T → outcome (Z * node * T));
  op_close : nat → node → T → outcome T
}.

(** The operations of the two file systems, and the registered devices. *)
Context (minix_ops fat32_ops : vfs_ops) (bdevs : list block_desc).

(** [strcmp] with [minix] and [fat32] *)
Definition ops_for_fstype (fstype : list Z) : option vfs_ops :=
  if decide (fstype = [109; 105; 110; 105; 120]) then Some minix_ops else
  if decide (fstype = [102; 97; 116; 51; 50]) then Some fat32_ops else None.

Record vnode := Vnode { vn_mnt : nat; vn_node : node; vn_ref : Z; vn_next : Z }.

Record vfs_mountpoint := Mountpoint { mp_used : bool; covered_mnt : option nat; covered_ino : Z; mp_bdev : option Z; mp_ops : option vfs_ops; mp_root : Z }.

Record vfs := Vfs {
  v_heap : gmap Z vnode;
  v_brk : Z;
  icache : list Z;
  mounts : list vfs_mountpoint;
  root_mounted : bool;
  v_fs : T
}.

Definition with_heap h s := Vfs h (v_brk s) (icache s) (mounts s) (root_mounted s) (v_fs s).
Definition with_icache c s := Vfs (v_heap s) (v_brk s) c (mounts s) (root_mounted s) (v_fs s).
Definition with_mounts m s := Vfs (v_heap s) (v_brk s) (icache s) m (root_mounted s) (v_fs s).
Definition with_fs t s := Vfs (v_heap s) (v_brk s) (icache s) (mounts s) (root_mounted s) t.
Definition with_root_mounted b s := Vfs (v_heap s) (v_brk s) (icache s) (mounts s) b (v_fs s).

Definition get_node (p : Z) (s : vfs) : outcome vnode := deref (v_heap s !! p).
Definition set_node (p : Z) (n : vnode) (s : vfs) : vfs := with_heap (<[p := n]> (v_heap s)) s.
Definition set_body (b : node) (n : vnode) : vnode := Vnode (vn_mnt n) b (vn_ref n) (vn_next n).
Definition set_link (r x : Z) (n : vnode) : vnode := Vnode (vn_mnt n) (vn_node n) r x.

(** The object a file system builds: not cached, no references. *)
Definition new_node (m : nat) (b : node) (s : vfs) : Z * vfs :=
  (v_brk s, Vfs (<[v_brk s := Vnode m b 0 0]> (v_heap s)) (v_brk s + 1) (icache s) (mounts s) (root_mounted s) (v_fs s)).

Definition get_ops (m : nat) (s : vfs) : outcome vfs_ops := mp ← deref (mounts s !! m); deref (mp_ops mp).

(** [ops->close]: the inode is written back and freed. *)
Definition close_node (p : Z) (s : vfs) : outcome vfs :=
  n ← get_node p s;
  ops ← get_ops (vn_mnt n) s;
  t ← op_close ops (vn_mnt n) (vn_node n) (v_fs s);
  Ok (with_heap (delete p (v_heap s)) (with_fs t s)).

(** ** The inode cache *)

Definition icache_hash (m : nat) (ino : Z) : nat :=
  let k := mnt_addr m in
  Z.to_nat ((Z.lxor (Z.lxor (k .>> 4) (k .>> 12)) (u32 (ino * 2654435761))) mod VFS_ICACHE_BUCKETS).

Definition vn_hash (n : vnode) : nat := icache_hash (vn_mnt n) (n_ino (vn_node n)).

Definition same_inode (a b : vnode) : bool := bool_decide (vn_mnt a = vn_mnt b) && (n_ino (vn_node a) =? n_ino (vn_node b)).

(** [for (p = icache[h]; p; p = p->cache_next)] *)
Fixpoint find_cached (fuel : nat) (p : Z) (cand : vnode) (s : vfs) : outcome (option (Z * vnode)) :=
  match fuel with
  | O => NoFuel
  | S fuel =>
      if p =? 0 then Ok None else
      n ← get_node p s;
      if same_inode n cand then Ok (Some (p, n)) else find_cached fuel (vn_next n) cand s
  end.

Definition chain_fuel (s : vfs) : nat := S (size (v_heap s)).

(** The canonical object for the inode at [pio]. *)
Definition vfs_icache_canonicalize (pio : Z) (s : vfs) : outcome (Z * vfs) :=
  cand ← get_node pio s;
  let h := vn_hash cand in
  head ← deref (icache s !! h);
  found ← find_cached (chain_fuel s) head cand s;
  match found with
  | Some (p, n) =>
      let s := set_node p (set_link (u32 (vn_ref n + 1)) (vn_next n) n) s in
      s ← close_node pio s;
      Ok (p, s)
  | None =>
      let s := set_node pio (set_link 1 head cand) s in
      Ok (pio, with_icache (<[h := pio]> (icache s)) s)
  end.

(** The walk of [vfs_iput] past the first object: [q] is the object whose link
    [pp] points to. *)
Fixpoint unlink_cached (fuel : nat) (q p next : Z) (s : vfs) : outcome vfs :=
  match fuel with
  | O => NoFuel
  | S fuel =>
      n ← get_node q s;
      if vn_next n =? 0 then Ok s else
      if vn_next n =? p then Ok (set_node q (set_link (vn_ref n) next n) s) else unlink_cached fuel (vn_next n) p next s
  end.

Definition vfs_iput (p : Z) (s : vfs) : outcome vfs :=
  if p =? 0 then Ok s else
  n ← get_node p s;
  let h := vn_hash n in
  if vn_ref n =? 0 then close_node p s else
  let r := u32 (vn_ref n - 1) in
  let s := set_node p (set_link r (vn_next n) n) s in
  if negb (r =? 0) then Ok s else
  head ← deref (icache s !! h);
  s ← (if head =? 0 then Ok s else
       if head =? p then Ok (with_icache (<[h := vn_next n]> (icache s)) s) else
       unlink_cached (chain_fuel s) head p (vn_next n) s);
  let s := set_node p (set_link 0 0 n) s in
  close_node p s.

(** All callers have an inode of a mounted file system. *)
Definition vfs_close (p : Z) (s : vfs) : outcome vfs := vfs_iput p s.

(** ** Mount points *)

Definition covers (m : nat) (ino : Z) (mp : vfs_mountpoint) : bool :=
  mp_used mp && bool_decide (covered_mnt mp = Some m) && (covered_ino mp =? ino).

(** [for (i = 1; i < VFS_MOUNT_MAX; i++)] *)
Fixpoint find_mount (i : nat) (m : nat) (ino : Z) (l : list vfs_mountpoint) : option nat :=
  match l with
  | [] => None
  | mp :: l => if covers m ino mp then Some i else find_mount (S i) m ino l
  end.

(** A lookup whose result joins the cache. *)
Definition lookup_cached (dir : Z) (name : list Z) (s : vfs) : outcome (Z * Z * vfs) :=
  n ← get_node dir s;
  ops ← get_ops (vn_mnt n) s;
  '(err, b, t) ← op_lookup ops (vn_mnt n) (vn_node n) name (v_fs s);
  let s := with_fs t s in
  if negb (err =? 0) then Ok (err, 0, s) else
  b ← deref b;
  let '(p, s) := new_node (vn_mnt n) b s in
  '(p, s) ← vfs_icache_canonicalize p s;
  Ok (0, p, s).

Fixpoint cross_mounts (fuel : nat) (cur : Z) (s : vfs) : outcome (Z * Z * vfs) :=
  match fuel with
  | O => NoFuel
  | S fuel =>
      n ← get_node cur s;
      match find_mount 1 (vn_mnt n) (n_ino (vn_node n)) (drop 1 (mounts s)) with
      | None => Ok (0, cur, s)
      | Some i =>
          sub ← deref (mounts s !! i);
          '(err, subroot, s) ← lookup_cached (mp_root sub) dot_name s;
          s ← vfs_iput cur s;
          if negb (err =? 0) then Ok (err, 0, s) else cross_mounts fuel subroot s
      end
  end.

Definition cross (cur : Z) (s : vfs) : outcome (Z * Z * vfs) := cross_mounts (S VFS_MOUNT_MAX) cur s.

(** One component down from [curr], whose reference is given up. *)
Definition walk_step (curr : Z) (comp : list Z) (s : vfs) : outcome (Z * Z * vfs) :=
  '(err, next, s) ← lookup_cached curr comp s;
  s ← vfs_iput curr s;
  if negb (err =? 0) then Ok (err, 0, s) else cross next s.

(** The start of a walk: the root inode, and what is mounted on it. *)
Definition walk_start (s : vfs) : outcome (Z * Z * vfs) :=
  root ← deref (mounts s !! 0%nat);
  '(err, curr, s) ← lookup_cached (mp_root root) dot_name s;
  if negb (err =? 0) then Ok (err, 0, s) else cross curr s.

Definition no_root (s : vfs) : bool := negb (root_mounted s) || match mounts s !! 0%nat with Some mp => mp_root mp =? 0 | None => true end.

Fixpoint parent_loop (fuel : nat) (curr : Z) (p : list Z) (name_len : Z) (s : vfs) : outcome (Z * Z * list Z * vfs) :=
  match fuel with
  | O => NoFuel
  | S fuel =>
      match next_component p VFS_NAME_MAX with
      | TooLong => s ← vfs_iput curr s; Ok (- ENAMETOOLONG, 0, [], s)
      | NoMore => s ← vfs_iput curr s; Ok (- EINVAL, 0, [], s)
      | Comp comp p =>
          if negb (path_has_more p) then
            if Z.of_nat (length comp) >=? name_len then s ← vfs_iput curr s; Ok (- ENAMETOOLONG, 0, [], s) else
            Ok (0, curr, comp, s)
          else
          n ← get_node curr s;
          if negb (n_is_dir (vn_node n)) then s ← vfs_iput curr s; Ok (- ENOTDIR, 0, [], s) else
          '(err, next, s) ← walk_step curr comp s;
          if negb (err =? 0) then Ok (err, 0, [], s) else parent_loop fuel next p name_len s
      end
  end.

(** The directory a path ends in, referenced, and the last name. *)
Definition vfs_parent (path : list Z) (name_len : Z) (s : vfs) : outcome (Z * Z * list Z * vfs) :=
  if no_root s then Ok (- ENOENT, 0, [], s) else
  '(err, norm) ← normalize_path path;
  if negb (err =? 0) then Ok (err, 0, [], s) else
  '(err, curr, s) ← walk_start s;
  if negb (err =? 0) then Ok (err, 0, [], s) else
  parent_loop (S (length norm)) curr norm name_len s.

Fixpoint open_loop (fuel : nat) (curr : Z) (p : list Z) (s : vfs) : outcome (Z * Z * vfs) :=
  match fuel with
  | O => NoFuel
  | S fuel =>
      match next_component p VFS_NAME_MAX with
      | TooLong => s ← vfs_iput curr s; Ok (- ENAMETOOLONG, 0, s)
      | NoMore => Ok (0, curr, s)
      | Comp comp p =>
          n ← get_node curr s;
          if negb (n_is_dir (vn_node n)) then s ← vfs_iput curr s; Ok (- ENOTDIR, 0, s) else
          if negb (has (n_mode (vn_node n)) 0x49) then s ← vfs_iput curr s; Ok (- EACCES, 0, s) else
          '(err, next, s) ← walk_step curr comp s;
          if negb (err =? 0) then Ok (err, 0, s) else open_loop fuel next p s
      end
  end.

Definition vfs_open (path : list Z) (s : vfs) : outcome (Z * Z * vfs) :=
  if no_root s then Ok (- ENOENT, 0, s) else
  '(err, norm) ← normalize_path path;
  if negb (err =? 0) then Ok (err, 0, s) else
  '(err, curr, s) ← walk_start s;
  if negb (err =? 0) then Ok (err, 0, s) else
  open_loop (S (length norm)) curr norm s.

(** ** Mounting *)

Definition set_mount (i : nat) (mp : vfs_mountpoint) (s : vfs) : vfs := with_mounts (<[i := mp]> (mounts s)) s.

(** The file system in slot [i] is mounted and its root pinned in the cache. *)
Definition mount_slot (i : nat) (ops : vfs_ops) (bdev : Z) (over : option (nat * Z)) (s : vfs) : outcome (Z * vfs) :=
  mp ← deref (mounts s !! i);
  let s := set_mount i (Mountpoint (mp_used mp) (covered_mnt mp) (covered_ino mp) (Some bdev) (Some ops) (mp_root mp)) s in
  '(err, root, t) ← op_mount ops i bdev (v_fs s);
  let s := with_fs t s in
  if negb (err =? 0) then Ok (err, s) else
  b ← deref root;
  let '(p, s) := new_node i b s in
  '(p, s) ← vfs_icache_canonicalize p s;
  Ok (0, set_mount i (Mountpoint true (fst <$> over) (default 0 (snd <$> over)) (Some bdev) (Some ops) p) s).

(** The scan for a free slot; [Some] of an error when the directory is taken. *)
Fixpoint free_slot (i slot m : nat) (ino : Z) (l : list vfs_mountpoint) : option nat :=
  match l with
  | [] => Some slot
  | mp :: l =>
      if covers m ino mp then None else
      free_slot (S i) (if negb (mp_used mp) && bool_decide (slot = 0%nat) then i else slot) m ino l
  end.

Definition vfs_mount (bdev_name fstype target : list Z) (s : vfs) : outcome (Z * vfs) :=
  match ops_for_fstype fstype with
  | None => Ok (- ENODEV, s)
  | Some ops =>
      match block_lookup bdev_name bdevs with
      | None => Ok (- ENODEV, s)
      | Some d =>
          let bdev := bd_addr d in
          if decide (target = [slash]) then
            if root_mounted s then Ok (- EBUSY, s) else
            mp ← deref (mounts s !! 0%nat);
            let s := set_mount 0 (Mountpoint (mp_used mp) None 0 (mp_bdev mp) (mp_ops mp) (mp_root mp)) s in
            '(err, s) ← mount_slot 0 ops bdev None s;
            Ok (err, if err =? 0 then with_root_mounted true s else s)
          else
          if negb (root_mounted s) then Ok (- ENOENT, s) else
          '(err, tdir, s) ← vfs_open target s;
          if negb (err =? 0) then Ok (err, s) else
          n ← get_node tdir s;
          if negb (n_is_dir (vn_node n)) then s ← vfs_close tdir s; Ok (- ENOTDIR, s) else
          s ← vfs_close tdir s;
          match free_slot 1 0 (vn_mnt n) (n_ino (vn_node n)) (drop 1 (mounts s)) with
          | None => Ok (- EBUSY, s)
          | Some O => Ok (- ENOSPC, s)
          | Some slot => mount_slot slot ops bdev (Some (vn_mnt n, n_ino (vn_node n))) s
          end
      end
  end.

(** ** Files *)

(** Run an operation on an inode, which it may change. *)
Definition on_node {A} (p : Z) (f : nat → node → T → outcome (A * node * T)) (s : vfs) : outcome (A * vfs) :=
  n ← get_node p s;
  '(a, b, t) ← f (vn_mnt n) (vn_node n) (v_fs s);
  Ok (a, set_node p (set_body b n) (with_fs t s)).

Definition vfs_read (p offset len : Z) (s : vfs) : outcome (Z * list Z * vfs) :=
  if p =? 0 then Ok (- EINVAL, [], s) else
  n ← get_node p s;
  ops ← get_ops (vn_mnt n) s;
  match op_read ops with
  | None => Ok (- EINVAL, [], s)
  | Some f =>
      if n_is_dir (vn_node n) then Ok (- EISDIR, [], s) else
      if negb (has (n_mode (vn_node n)) 0x124) then Ok (- EACCES, [], s) else
      '(r, bytes, t) ← f (vn_mnt n) (vn_node n) offset len (v_fs s);
      Ok (r, bytes, with_fs t s)
  end.

Definition vfs_write (p offset len : Z) (buf : list Z) (s : vfs) : outcome (Z * vfs) :=
  if p =? 0 then Ok (- EINVAL, s) else
  n ← get_node p s;
  ops ← get_ops (vn_mnt n) s;
  match op_write ops with
  | None => Ok (- EINVAL, s)
  | Some f =>
      if n_is_dir (vn_node n) then Ok (- EISDIR, s) else
      if negb (has (n_mode (vn_node n)) 0x92) then Ok (- EACCES, s) else
      on_node p (λ m b t, f m b offset len buf t) s
  end.

Definition vfs_truncate (p size : Z) (s : vfs) : outcome (Z * vfs) :=
  if p =? 0 then Ok (- EINVAL, s) else
  n ← get_node p s;
  ops ← get_ops (vn_mnt n) s;
  match op_truncate ops with
  | None => Ok (- EINVAL, s)
  | Some f => if n_is_dir (vn_node n) then Ok (- EISDIR, s) else on_node p (λ m b t, f m b size t) s
  end.

Definition vfs_fsync (p : Z) (s : vfs) : outcome (Z * vfs) :=
  if p =? 0 then Ok (- EINVAL, s) else
  n ← get_node p s;
  ops ← get_ops (vn_mnt n) s;
  match op_fsync ops with
  | None => Ok (- EINVAL, s)
  | Some f => on_node p f s
  end.

Definition vfs_readdir (p index : Z) (s : vfs) : outcome (Z * option (Z * list Z) * vfs) :=
  if p =? 0 then Ok (- EINVAL, None, s) else
  n ← get_node p s;
  ops ← get_ops (vn_mnt n) s;
  match op_readdir ops with
  | None => Ok (- EINVAL, None, s)
  | Some f =>
      if negb (n_is_dir (vn_node n)) then Ok (- ENOTDIR, None, s) else
      '(r, de, t) ← f (vn_mnt n) (vn_node n) index (v_fs s);
      Ok (r, de, with_fs t s)
  end.

(** ** Names *)

Definition vfs_create (path : list Z) (mode : Z) (s : vfs) : outcome (Z * Z * vfs) :=
  '(err, dir, name, s) ← vfs_parent path VFS_NAME_MAX s;
  if negb (err =? 0) then Ok (err, 0, s) else
  n ← get_node dir s;
  ops ← get_ops (vn_mnt n) s;
  match op_create ops with
  | None => s ← vfs_close dir s; Ok (- ENOSYS, 0, s)
  | Some f =>
      '(err, b, d, t) ← f (vn_mnt n) (vn_node n) name mode (v_fs s);
      let s := set_node dir (set_body d n) (with_fs t s) in
      '(out, s) ← (if negb (err =? 0) then Ok (0, s) else
                   b ← deref b;
                   let '(p, s) := new_node (vn_mnt n) b s in
                   vfs_icache_canonicalize p s);
      s ← vfs_close dir s;
      Ok (err, out, s)
  end.

(** An operation on the directory a path ends in. *)
Definition at_parent (path : list Z) (f : vfs_ops → option (nat → node → list Z → T → outcome (Z * node * T))) (s : vfs) : outcome (Z * vfs) :=
  '(err, dir, name, s) ← vfs_parent path VFS_NAME_MAX s;
  if negb (err =? 0) then Ok (err, s) else
  n ← get_node dir s;
  ops ← get_ops (vn_mnt n) s;
  '(err, s) ← match f ops with
              | Some g => on_node dir (λ m b t, g m b name t) s
              | None => Ok (- ENOSYS, s)
              end;
  s ← vfs_close dir s;
  Ok (err, s).

Definition vfs_unlink (path : list Z) (s : vfs) : outcome (Z * vfs) := at_parent path op_unlink s.
Definition vfs_rmdir (path : list Z) (s : vfs) : outcome (Z * vfs) := at_parent path op_rmdir s.
Definition vfs_mkdir (path : list Z) (mode : Z) (s : vfs) : outcome (Z * vfs) :=
  at_parent path (λ ops, (λ f m b name t, f m b name mode t) <$> op_mkdir ops) s.

Definition vfs_rename (old_path new_path : list Z) (s : vfs) : outcome (Z * vfs) :=
  '(err, old_dir, old_name, s) ← vfs_parent old_path VFS_NAME_MAX s;
  if negb (err =? 0) then Ok (err, s) else
  '(err, new_dir, new_name, s) ← vfs_parent new_path VFS_NAME_MAX s;
  if negb (err =? 0) then s ← vfs_close old_dir s; Ok (err, s) else
  o ← get_node old_dir s;
  n ← get_node new_dir s;
  ops ← get_ops (vn_mnt o) s;
  '(err, s) ← (if negb (bool_decide (vn_mnt o = vn_mnt n)) then Ok (- EXDEV, s) else
               match op_rename ops with
               | None => Ok (- ENOSYS, s)
               | Some f =>
                   '(err, ob, nb, t) ← f (vn_mnt o) (vn_node o) old_name (if old_dir =? new_dir then None else Some (vn_node n)) new_name (v_fs s);
                   let s := set_node old_dir (set_body ob o) (with_fs t s) in
                   Ok (err, match nb with Some nb => set_node new_dir (set_body nb n) s | None => s end)
               end);
  s ← vfs_close new_dir s;
  s ← vfs_close old_dir s;
  Ok (err, s).
End Vfs.

Arguments vfs_ops : clear implicits.
Arguments vnode : clear implicits.
Arguments vfs : clear implicits.
