(* ===== verification/VfsPath.v ===== *)
(** * Path normalisation: [normalize_path] against splitting, resolving and joining

    The reference splits a path at its slashes, drops the empty names, resolves
    [.] and [..] on a stack and joins the names again. *)

From S2P Require Import Prelude Vfs.

(** ** The reference *)

Fixpoint split_on (acc p : list Z) : list (list Z) :=
  match p with
  | [] => [acc]
  | c :: p => if c =? slash then acc :: split_on [] p else split_on (acc ++ [c]) p
  end.

(** The names of a path, in order. *)
Definition names (p : list Z) : list (list Z) := filter (λ c, c ≠ []) (split_on [] p).

(** The stack after one name, the deepest directory first. *)
Definition enter (st : list (list Z)) (c : list Z) : list (list Z) :=
  if decide (c = dot_name) then st else
  if decide (c = dotdot_name) then tail st else c :: st.

Definition resolve_dots (cs : list (list Z)) : list (list Z) := foldl enter [] cs.

Definition flat (cs : list (list Z)) : list Z := mjoin ((cons slash) <$> cs).

(** The path of a stack of names. *)
Definition join (st : list (list Z)) : list Z :=
  match st with [] => [slash] | _ => flat (reverse st) end.

(** A name: not empty, without slashes. *)
Definition name_ok (c : list Z) : Prop := c ≠ [] ∧ slash ∉ c.

(** A name a normal path can have. *)
Definition real_name (c : list Z) : Prop := name_ok c ∧ c ≠ dot_name ∧ c ≠ dotdot_name.

(** The lengths the code allows: of every name and of the path so far. *)
Definition fits (cs : list (list Z)) : Prop :=
  Forall (λ c, Z.of_nat (length c) < VFS_NAME_MAX) cs ∧
  ∀ n, Z.of_nat (length (join (resolve_dots (take n cs)))) < VFS_PATH_MAX.

(** ** Splitting *)

Lemma split_on_app acc comp rest : slash ∉ comp → split_on acc (comp ++ rest) = split_on (acc ++ comp) rest.
Proof.
  revert acc. induction comp as [|c comp IH]; intros acc H; cbn [app split_on].
  { by rewrite app_nil_r. }
  rewrite not_elem_of_cons in H. destruct H as [H1 H2].
  destruct (Z.eqb_spec c slash) as [->|_]; [done|]. rewrite IH by done. by rewrite <- app_assoc.
Qed.

(** The rest of a path after a name. *)
Definition tail_ok (rest : list Z) : Prop := rest = [] ∨ ∃ r, rest = slash :: r.

Lemma names_slash r : names (slash :: r) = names r.
Proof. done. Qed.

Lemma names_app comp rest : name_ok comp → tail_ok rest → names (comp ++ rest) = comp :: names rest.
Proof.
  intros [Hne Hs] Hr. unfold names. rewrite split_on_app by done. cbn [app].
  destruct Hr as [->|[r ->]]; cbn [split_on].
  - rewrite filter_cons_True by done. done.
  - rewrite Z.eqb_refl. rewrite filter_cons_True by done. done.
Qed.

Lemma skip_slash_spec p :
  names (skip_slash p) = names p ∧ (length (skip_slash p) ≤ length p)%nat ∧
  match skip_slash p with [] => True | c :: _ => c ≠ slash end.
Proof.
  induction p as [|c p IH]; [done|]. cbn [skip_slash].
  destruct (Z.eqb_spec c slash) as [->|Hc]; [|done].
  rewrite names_slash. cbn [length]. intuition lia.
Qed.

Lemma take_component_spec i max_len p :
  match take_component i max_len p with
  | Some (comp, rest) => p = comp ++ rest ∧ slash ∉ comp ∧ tail_ok rest ∧ (comp = [] ∨ i + Z.of_nat (length comp) < max_len)
  | None => ∃ comp rest, p = comp ++ rest ∧ slash ∉ comp ∧ tail_ok rest ∧ max_len <= i + Z.of_nat (length comp)
  end.
Proof.
  revert i. induction p as [|c p IH]; intros i; cbn [take_component].
  { split_and!; [done|apply not_elem_of_nil|by left|by left]. }
  destruct (Z.eqb_spec c slash) as [->|Hc].
  { split_and!; [done|apply not_elem_of_nil|right; by eexists|by left]. }
  assert (Hcons : ∀ l, slash ∉ l → slash ∉ c :: l) by (intros l Hl; rewrite not_elem_of_cons; done).
  specialize (IH (i + 1)). destruct (i >=? max_len - 1) eqn:E.
  - apply Z.geb_le in E. destruct (take_component (i + 1) max_len p) as [[comp rest]|];
      [destruct IH as (-> & H1 & H2 & _)|destruct IH as (comp & rest & -> & H1 & H2 & _)];
      exists (c :: comp), rest; split_and!; try done; auto; cbn [length]; lia.
  - assert (i < max_len - 1) by (rewrite Z.geb_leb in E; lia).
    destruct (take_component (i + 1) max_len p) as [[comp rest]|].
    + destruct IH as (-> & H1 & H2 & H3). split_and!; try done; auto. right. destruct H3 as [->|H3]; cbn [length] in *; lia.
    + destruct IH as (comp & rest & -> & H1 & H2 & H3). exists (c :: comp), rest. split_and!; try done; auto. cbn [length]. lia.
Qed.

(** [next_component] takes the first of the names. *)
Lemma next_component_spec p max_len :
  0 < max_len →
  match next_component p max_len with
  | NoMore => names p = []
  | Comp comp rest => names p = comp :: names rest ∧ name_ok comp ∧ Z.of_nat (length comp) < max_len ∧ (length rest < length p)%nat
  | TooLong => ∃ comp cs, names p = comp :: cs ∧ max_len <= Z.of_nat (length comp)
  end.
Proof.
  intros Hm. unfold next_component. destruct (skip_slash_spec p) as (Hn & Hl & Hc).
  rewrite <- Hn. destruct (skip_slash p) as [|c q]; [done|].
  pose proof (take_component_spec 0 max_len (c :: q)) as H.
  assert (Hne : ∀ comp rest, c :: q = comp ++ rest → tail_ok rest → comp ≠ []).
  { intros [|x comp] rest E [->|[r ->]]; cbn [app] in E; congruence. }
  destruct (take_component 0 max_len (c :: q)) as [[comp rest]|].
  - destruct H as (E & H1 & H2 & H3). pose proof (Hne _ _ E H2) as Hne'.
    assert (Hlen : (length comp > 0)%nat) by (destruct comp; cbn; [done|lia]).
    pose proof (f_equal length E) as E'. rewrite length_app in E'.
    rewrite E. rewrite names_app by done. split_and!; [done|done|destruct H3; [done|lia]|lia].
  - destruct H as (comp & rest & E & H1 & H2 & H3). rewrite E.
    rewrite names_app; [|split; [by eapply Hne|done]|done]. exists comp, (names rest). split; [done|lia].
Qed.

Lemma path_has_more_spec p : path_has_more p = negb (bool_decide (names p = [])).
Proof.
  unfold path_has_more. f_equal. apply bool_decide_ext.
  destruct (skip_slash_spec p) as (<- & _ & Hc). split; [by intros ->|].
  intros H. destruct (skip_slash p) as [|c q]; [done|].
  pose proof (take_component_spec 0 0 (c :: q)) as T.
  assert (∃ comp rest, c :: q = comp ++ rest ∧ slash ∉ comp ∧ tail_ok rest) as (comp & rest & E & H1 & H2).
  { destruct (take_component 0 0 (c :: q)) as [[comp rest]|]; [|destruct T as (comp & rest & T)]; exists comp, rest; tauto. }
  rewrite E, names_app in H; [done| |done].
  split; [|done]. destruct comp; [|done]. destruct H2 as [->|[r ->]]; cbn [app] in E; congruence.
Qed.

(** ** Joining *)

Lemma flat_app cs ds : flat (cs ++ ds) = flat cs ++ flat ds.
Proof. unfold flat. by rewrite fmap_app, join_app. Qed.

Lemma join_cons c st : join (c :: st) = flat (reverse st) ++ slash :: c.
Proof. unfold join. rewrite reverse_cons, flat_app. cbn. by rewrite app_nil_r. Qed.

Lemma join_push c st :
  Forall name_ok st →
  join (c :: st) = join st ++ (if negb (Z.of_nat (length (join st)) =? 1) then [slash] else []) ++ c.
Proof.
  intros H. rewrite join_cons. destruct st as [|d st]; [done|]. apply Forall_cons in H as [[Hd _] _].
  rewrite (join_cons d st), reverse_cons, flat_app.
  destruct (Z.eqb_spec (Z.of_nat (length (flat (reverse st) ++ slash :: d))) 1) as [E|E].
  { exfalso. rewrite length_app in E. cbn [length] in E. destruct d; [done|]. cbn [length] in E. lia. }
  cbn. rewrite app_nil_r. by rewrite <- !app_assoc.
Qed.

Lemma pop_to_slash_app c r : slash ∉ c → pop_to_slash (c ++ slash :: r) = slash :: r.
Proof.
  induction c as [|x c IH]; intros H.
  - by destruct r.
  - rewrite not_elem_of_cons in H. destruct H as [H1 H2].
    cbn [app pop_to_slash]. destruct (c ++ slash :: r) eqn:E; [by destruct c|].
    rewrite (proj2 (Z.eqb_neq x slash)) by done. by apply IH.
Qed.

(** [..] drops the last name. *)
Lemma pop_component_join st : Forall name_ok st → pop_component (join st) = join (tail st).
Proof.
  destruct st as [|c st]; intros H; [done|]. rewrite join_cons. cbn [tail].
  apply Forall_cons in H as [[Hne Hs] _]. unfold pop_component.
  rewrite rev_app_distr. cbn [rev]. rewrite <- app_assoc. cbn [app].
  rewrite pop_to_slash_app by (rewrite list_elem_of_In, <- in_rev, <- list_elem_of_In; done).
  destruct st as [|d st]; [done|].
  destruct (rev (flat (reverse (d :: st)))) as [|x r] eqn:E.
  - exfalso. apply (f_equal length) in E. rewrite length_rev, reverse_cons, flat_app, length_app in E. cbn in E. lia.
  - rewrite <- E. rewrite rev_involutive. done.
Qed.

(** ** Normalisation *)

Lemma enter_ok st c : Forall real_name st → name_ok c → Forall real_name (enter st c).
Proof.
  intros Hst Hc. unfold enter. repeat case_decide; [done| |by constructor].
  destruct Hst; [constructor|done].
Qed.

Lemma real_names_ok st : Forall real_name st → Forall name_ok st.
Proof. intros H. apply (Forall_impl _ _ _ H). by intros ? []. Qed.

Lemma fits_cons_inv st c cs :
  (∀ n, Z.of_nat (length (join (foldl enter st (take n (c :: cs))))) < VFS_PATH_MAX) →
  ∀ n, Z.of_nat (length (join (foldl enter (enter st c) (take n cs)))) < VFS_PATH_MAX.
Proof. intros H n. apply (H (S n)). Qed.

(** The loop, from any stack. *)
Lemma normalize_loop_spec fuel path st :
  (length path < fuel)%nat → Forall real_name st → Z.of_nat (length (join st)) < VFS_PATH_MAX →
  (Forall (λ c, Z.of_nat (length c) < VFS_NAME_MAX) (names path) ∧
   (∀ n, Z.of_nat (length (join (foldl enter st (take n (names path))))) < VFS_PATH_MAX) ∧
   normalize_loop fuel path (join st) = Ok (0, join (foldl enter st (names path)))) ∨
  (¬ (Forall (λ c, Z.of_nat (length c) < VFS_NAME_MAX) (names path) ∧
      ∀ n, Z.of_nat (length (join (foldl enter st (take n (names path))))) < VFS_PATH_MAX) ∧
   ∃ out, normalize_loop fuel path (join st) = Ok (- ENAMETOOLONG, out)).
Proof.
  revert path st. induction fuel as [|fuel IH]; intros path st Hf Hst Hl; [lia|]. cbn [normalize_loop].
  pose proof (next_component_spec path VFS_NAME_MAX ltac:(done)) as Hn.
  destruct (next_component path VFS_NAME_MAX) as [|comp rest|].
  - rewrite Hn. left. split_and!; [constructor| |done]. intros n. by rewrite take_nil.
  - destruct Hn as (-> & Hok & Hlen & Hr).
    assert (Henter : ∀ out, join (enter st comp) = out → Z.of_nat (length out) < VFS_PATH_MAX →
      (Forall (λ c, Z.of_nat (length c) < VFS_NAME_MAX) (comp :: names rest) ∧
       (∀ n, Z.of_nat (length (join (foldl enter st (take n (comp :: names rest))))) < VFS_PATH_MAX) ∧
       normalize_loop fuel rest out = Ok (0, join (foldl enter st (comp :: names rest)))) ∨
      (¬ (Forall (λ c, Z.of_nat (length c) < VFS_NAME_MAX) (comp :: names rest) ∧
          ∀ n, Z.of_nat (length (join (foldl enter st (take n (comp :: names rest))))) < VFS_PATH_MAX) ∧
       ∃ out', normalize_loop fuel rest out = Ok (- ENAMETOOLONG, out'))).
    { intros out <- Ho. destruct (IH rest (enter st comp)) as [(H1 & H2 & H3)|(H1 & H2)].
      - lia.
      - by apply enter_ok.
      - done.
      - left. split_and!; [by constructor|intros [|n]; [done|apply H2]|done].
      - right. split; [|done]. intros [F1 F2]. apply H1. apply Forall_cons in F1 as [_ F1].
        split; [done|]. by apply fits_cons_inv. }
    unfold enter in Henter at 1.
    destruct (decide (comp = dot_name)); [by apply Henter|].
    destruct (decide (comp = dotdot_name)).
    + rewrite pop_component_join by (by apply real_names_ok). apply Henter; [done|].
      destruct st as [|d [|d' st]]; [done|done|]. rewrite join_cons, length_app in Hl. cbn [tail join]. lia.
    + pose proof (join_push comp st (real_names_ok _ Hst)) as Hj.
      assert (Hlj : Z.of_nat (length (join (comp :: st))) = Z.of_nat (length (join st)) +
        ((if Z.of_nat (length (join st)) =? 1 then 0 else 1) + Z.of_nat (length comp))).
      { rewrite Hj, !length_app. destruct (Z.of_nat (length (join st)) =? 1); cbn [negb length]; lia. }
      rewrite <- Hj, <- Hlj.
      destruct (Z.gtb_spec (Z.of_nat (length (join (comp :: st))) + 1) VFS_PATH_MAX) as [G|G].
      * right. split; [|by eexists]. intros [_ F]. specialize (F 1%nat). change (Z.of_nat (length (join (enter st comp))) < VFS_PATH_MAX) in F. unfold enter in F.
        rewrite decide_False, decide_False in F by done. lia.
      * apply Henter; [done|lia].
  - destruct Hn as (comp & cs & -> & Hlen). right. split; [|by eexists]. intros [F _]. apply Forall_cons in F as [F _]. lia.
Qed.

Lemma resolve_real st cs : Forall real_name st → Forall name_ok cs → Forall real_name (foldl enter st cs).
Proof.
  intros Hst Hcs. revert st Hst. induction Hcs as [|c cs Hc Hcs IH]; intros st Hst; [done|].
  cbn [foldl]. apply IH. by apply enter_ok.
Qed.

Lemma names_ok p : Forall name_ok (names p).
Proof.
  unfold names. assert (H : ∀ p acc, slash ∉ acc → Forall (λ c, slash ∉ c) (split_on acc p)).
  { clear p. induction p as [|c p IH]; intros acc Ha; cbn [split_on]; [by repeat constructor|].
    destruct (Z.eqb_spec c slash).
    - constructor; [done|]. apply IH, not_elem_of_nil.
    - apply IH. rewrite not_elem_of_app, list_elem_of_singleton. done. }
  specialize (H p [] (not_elem_of_nil _)). induction H as [|c cs Hc Hcs IH]; [constructor|].
  rewrite filter_cons. case_decide; [|done]. by constructor.
Qed.

(** Splitting a joined path gives its names back. *)
Lemma names_flat cs : Forall name_ok cs → names (flat cs) = cs.
Proof.
  induction 1 as [|c cs Hc Hcs IH]; [done|]. cbn [flat fmap list_fmap mjoin list_join app].
  change (names (slash :: c ++ flat cs) = c :: cs). rewrite names_slash, names_app, IH; [done|done|].
  destruct cs; [by left|]. right. by eexists.
Qed.

Lemma names_join st : Forall name_ok st → names (join st) = reverse st.
Proof.
  intros H. destruct st as [|c st]; [done|]. unfold join. apply names_flat. by apply Forall_reverse.
Qed.

Lemma foldl_enter_real st cs : Forall real_name cs → foldl enter st cs = reverse cs ++ st.
Proof.
  intros H. revert st. induction H as [|c cs (? & ? & ?) Hcs IH]; intros st; [done|]. cbn [foldl].
  rewrite IH, reverse_cons, <- app_assoc. unfold enter. by rewrite !decide_False.
Qed.

Lemma resolve_join st : Forall real_name st → resolve_dots (names (join st)) = st.
Proof.
  intros H. unfold resolve_dots. rewrite names_join by (by apply real_names_ok).
  rewrite foldl_enter_real by (by apply Forall_reverse). by rewrite reverse_involutive, app_nil_r.
Qed.

Lemma resolve_forall (P : list Z → Prop) st cs : Forall P st → Forall P cs → Forall P (foldl enter st cs).
Proof.
  intros Hst Hcs. revert st Hst. induction Hcs as [|c cs Hc Hcs IH]; intros st Hst; [done|]. cbn [foldl].
  apply IH. unfold enter. repeat case_decide; [done| |by constructor]. destruct Hst; [constructor|done].
Qed.

Lemma length_join_drop k st : (length (join (drop k st)) ≤ length (join st))%nat.
Proof.
  revert st. induction k as [|k IH]; intros [|c st]; [done|done|done|]. cbn [drop].
  etrans; [apply IH|]. rewrite join_cons, length_app. destruct st as [|d st]; cbn [join length]; lia.
Qed.

Lemma fits_join st :
  Forall real_name st → Forall (λ c, Z.of_nat (length c) < VFS_NAME_MAX) st → Z.of_nat (length (join st)) < VFS_PATH_MAX →
  fits (names (join st)).
Proof.
  intros Hst Hlen Hj. rewrite names_join by (by apply real_names_ok). split; [by apply Forall_reverse|].
  intros n. unfold resolve_dots. rewrite foldl_enter_real by (apply Forall_take, Forall_reverse; done).
  rewrite app_nil_r, take_reverse, reverse_involutive.
  pose proof (length_join_drop (length st - n) st). lia.
Qed.

(** ** What [normalize_path] computes *)

Definition absolute (p : list Z) : Prop := head p = Some slash.

Lemma normalize_absolute path :
  absolute path →
  (fits (names path) ∧ normalize_path path = Ok (0, join (resolve_dots (names path)))) ∨
  (¬ fits (names path) ∧ ∃ out, normalize_path path = Ok (- ENAMETOOLONG, out)).
Proof.
  intros Ha. destruct path as [|c p]; [done|]. injection Ha as ->.
  unfold normalize_path. rewrite Z.eqb_refl. cbn [negb].
  destruct (normalize_loop_spec (S (length (slash :: p))) (slash :: p) []) as [(H1 & H2 & H3)|(H1 & H2)];
    [lia|constructor|done|left|right]; split; done || (by split).
Qed.

Lemma normalize_ok path out :
  normalize_path path = Ok (0, out) →
  absolute path ∧ fits (names path) ∧ out = join (resolve_dots (names path)).
Proof.
  intros H. destruct (decide (absolute path)) as [Ha|Ha].
  - destruct (normalize_absolute path Ha) as [[Hf E]|[_ [o E]]]; rewrite E in H; [|done].
    split_and!; [done|done|congruence].
  - exfalso. destruct path as [|c p]; [done|]. unfold normalize_path in H.
    destruct (Z.eqb_spec c slash) as [->|_]; [by apply Ha|]. done.
Qed.

(** The result is a stack of real names, within the bounds. *)
Lemma normalize_shape path out :
  normalize_path path = Ok (0, out) →
  ∃ st, out = join st ∧ Forall real_name st ∧ fits (names (join st)) ∧ Z.of_nat (length out) < VFS_PATH_MAX.
Proof.
  intros (Ha & [Hf1 Hf2] & ->)%normalize_ok. exists (resolve_dots (names path)).
  assert (Hr : Forall real_name (resolve_dots (names path))) by (apply resolve_real; [constructor|apply names_ok]).
  assert (Hb : Z.of_nat (length (join (resolve_dots (names path)))) < VFS_PATH_MAX).
  { specialize (Hf2 (length (names path))). by rewrite firstn_all in Hf2. }
  split_and!; [done|done| |done]. apply fits_join; [done| |done]. apply resolve_forall; [constructor|done].
Qed.

Lemma absolute_join st : absolute (join st).
Proof.
  destruct st as [|c st]; [done|]. unfold join. destruct (reverse (c :: st)) eqn:E; [|done].
  apply (f_equal length) in E. rewrite length_reverse in E. done.
Qed.

Lemma normalize_relative path : ¬ absolute path → normalize_path path = Ok (- EINVAL, []).
Proof.
  intros Ha. destruct path as [|c p]; [done|]. unfold normalize_path.
  destruct (Z.eqb_spec c slash) as [->|_]; [by destruct Ha|done].
Qed.

(** Normalising a path splits it at its slashes, resolves the dots on a stack and
    joins the names again.  A relative path is refused with EINVAL; a name of 64
    characters or more, or a path that reaches 256 characters on the way, with
    ENAMETOOLONG; every other path succeeds, and the loop always ends. *)
Theorem normalize_path_correct (path : list Z) :
  (¬ absolute path → normalize_path path = Ok (- EINVAL, [])) ∧
  (absolute path → ¬ fits (names path) → ∃ out, normalize_path path = Ok (- ENAMETOOLONG, out)) ∧
  (absolute path → fits (names path) → normalize_path path = Ok (0, join (resolve_dots (names path)))).
Proof.
  split_and!.
  - apply normalize_relative.
  - intros Ha Hf. by destruct (normalize_absolute path Ha) as [[? _]|[_ H]].
  - intros Ha Hf. by destruct (normalize_absolute path Ha) as [[_ H]|[? _]].
Qed.

(** A normalised path has no empty name, no dot names, is shorter than 256
    characters, and normalising it again changes nothing. *)
Theorem normalize_path_idempotent (path out : list Z) :
  normalize_path path = Ok (0, out) →
  absolute out ∧ Forall real_name (names out) ∧ Z.of_nat (length out) < VFS_PATH_MAX ∧
  normalize_path out = Ok (0, out).
Proof.
  intros (st & -> & Hst & Hf & Hl)%normalize_shape. pose proof (absolute_join st) as Ha.
  split_and!; [done| |done|].
  - rewrite names_join by (by apply real_names_ok). by apply Forall_reverse.
  - destruct (normalize_absolute _ Ha) as [[_ E]|[? _]]; [|done]. by rewrite resolve_join in E.
Qed.

(** [/a/../b//./c/] *)
Definition demo_path : list Z := [47; 97; 47; 46; 46; 47; 98; 47; 47; 46; 47; 99; 47].

Lemma normalize_path_idempotent_witness :
  normalize_path demo_path = Ok (0, [47; 98; 47; 99]) ∧ normalize_path [47; 98; 47; 99] = Ok (0, [47; 98; 47; 99]).
Proof.
  split; [reflexivity|]. apply (normalize_path_idempotent demo_path). reflexivity.
Defined.

Lemma normalize_path_correct_witness :
  normalize_path (97 :: demo_path) = Ok (- EINVAL, []) ∧
  normalize_path demo_path = Ok (0, join (resolve_dots (names demo_path))).
Proof.
  split.
  - apply (normalize_path_correct (97 :: demo_path)). done.
  - apply (normalize_path_correct demo_path); [done|]. split.
    + repeat constructor.
    + intros [|[|[|[|[|[|n]]]]]]; vm_compute; reflexivity.
Defined.
