(* ===== verification/VfsSpec.v ===== *)
(** * The inode cache: its invariant, canonicalisation and release

    The laws state what a file system promises to the VFS; the invariant ties the
    reference counts to the references that are held, [R]. *)

From stdpp Require Import gmultiset.
From S2P Require Import Prelude Vfs.

(** ** What a file system promises *)

(** The state of the file systems as the VFS may see it: an invariant, the devices that
    can be mounted, the inodes that are valid in memory, what a name leads to in a directory (an error on the
    left), and whether an inode is a directory, with its mode. *)
Class fs_view (T node : Type) := FsView {
  fs_inv : T → Prop;
  fs_dev : Z → Prop;
  fs_live : T → nat → node → Prop;
  fs_look : T → nat → Z → list Z → Z + Z;
  fs_attr : T → nat → Z → bool * Z
}.

Section Laws.
Context {T node : Type} `{NF : inode_fields node} `{FV : fs_view T node}.

(** The name space is unchanged and the inodes in memory stay valid. *)
Record quiet (t t' : T) : Prop := Quiet {
  q_inv : fs_inv t';
  q_live m b : fs_live t m b → fs_live t' m b;
  q_look m i c : fs_look t' m i c = fs_look t m i c;
  q_attr m i : fs_attr t' m i = fs_attr t m i
}.

(** An operation may change the inode it works on, not its number. *)
Record changes (t t' : T) (m : nat) (d d' : node) : Prop := Changes {
  c_inv : fs_inv t';
  c_ino : n_ino d' = n_ino d;
  c_live : fs_live t' m d';
  c_other m' b : (m', n_ino b) ≠ (m, n_ino d) → fs_live t m' b → fs_live t' m' b
}.

(** Mounting in slot [i] leaves the other mounts alone. *)
Record mounts_in (t t' : T) (i : nat) : Prop := MountsIn {
  mi_inv : fs_inv t';
  mi_live m b : m ≠ i → fs_live t m b → fs_live t' m b;
  mi_look m j c : m ≠ i → fs_look t' m j c = fs_look t m j c;
  mi_attr m j : m ≠ i → fs_attr t' m j = fs_attr t m j
}.

Record fs_laws (ops : vfs_ops T node) : Prop := FsLaws {
  law_attr t m b : fs_inv t → fs_live t m b → (n_is_dir b, n_mode b) = fs_attr t m (n_ino b);
  law_lookup t m d name :
    fs_inv t → fs_live t m d →
    ∃ err o t', op_lookup ops m d name t = Ok (err, o, t') ∧ quiet t t' ∧
      match fs_look t m (n_ino d) name with
      | inl e => err = e ∧ e ≠ 0
      | inr i => err = 0 ∧ ∃ b, o = Some b ∧ n_ino b = i ∧ fs_live t' m b
      end;
  law_close t m b : fs_inv t → fs_live t m b → ∃ t', op_close ops m b t = Ok t' ∧ quiet t t';
  law_mount t i bdev :
    fs_inv t → fs_dev bdev →
    ∃ err o t', op_mount ops i bdev t = Ok (err, o, t') ∧ mounts_in t t' i ∧
      (err = 0 → ∃ b, o = Some b ∧ fs_live t' i b);
  law_read f t m b off len :
    op_read ops = Some f → fs_inv t → fs_live t m b → 0 <= off → 0 <= len → ∃ r t', f m b off len t = Ok (r, t') ∧ quiet t t';
  law_readdir f t m b idx :
    op_readdir ops = Some f → fs_inv t → fs_live t m b → ∃ r t', f m b idx t = Ok (r, t') ∧ quiet t t';
  law_write f t m b off len buf :
    op_write ops = Some f → fs_inv t → fs_live t m b →
    ∃ r b' t', f m b off len buf t = Ok (r, b', t') ∧ changes t t' m b b';
  law_truncate f t m b size :
    op_truncate ops = Some f → fs_inv t → fs_live t m b →
    ∃ r b' t', f m b size t = Ok (r, b', t') ∧ changes t t' m b b';
  law_fsync f t m b :
    op_fsync ops = Some f → fs_inv t → fs_live t m b → ∃ r b' t', f m b t = Ok (r, b', t') ∧ changes t t' m b b';
  law_create f t m d name mode :
    op_create ops = Some f → fs_inv t → fs_live t m d →
    ∃ err o d' t', f m d name mode t = Ok (err, o, d', t') ∧ changes t t' m d d' ∧
      (err = 0 → ∃ b, o = Some b ∧ fs_live t' m b);
  law_unlink f t m d name :
    op_unlink ops = Some f → fs_inv t → fs_live t m d → ∃ r d' t', f m d name t = Ok (r, d', t') ∧ changes t t' m d d';
  law_mkdir f t m d name mode :
    op_mkdir ops = Some f → fs_inv t → fs_live t m d → ∃ r d' t', f m d name mode t = Ok (r, d', t') ∧ changes t t' m d d';
  law_rmdir f t m d name :
    op_rmdir ops = Some f → fs_inv t → fs_live t m d → ∃ r d' t', f m d name t = Ok (r, d', t') ∧ changes t t' m d d';
  law_rename f t m d old e new :
    op_rename ops = Some f → fs_inv t → fs_live t m d → (∀ e', e = Some e' → fs_live t m e' ∧ n_ino e' ≠ n_ino d) →
    ∃ r d' e' t', f m d old e new t = Ok (r, d', e', t') ∧
      fs_inv t' ∧ n_ino d' = n_ino d ∧ fs_live t' m d' ∧
      match e, e' with
      | None, None => True
      | Some x, Some y => n_ino y = n_ino x ∧ fs_live t' m y
      | _, _ => False
      end ∧
      (∀ m' b, (m', n_ino b) ≠ (m, n_ino d) → (∀ x, e = Some x → (m', n_ino b) ≠ (m, n_ino x)) →
        fs_live t m' b → fs_live t' m' b)
}.

#[global] Instance quiet_preorder_trans : Transitive quiet.
Proof.
  intros t1 t2 t3 [A1 A2 A3 A4] [B1 B2 B3 B4]. split; [done|auto| |]; intros.
  - by rewrite B3, A3.
  - by rewrite B4, A4.
Qed.

Lemma quiet_refl t : fs_inv t → quiet t t.
Proof. by split. Qed.
End Laws.

(** ** The invariant *)

Section Cache.
Context {T node : Type} `{NF : inode_fields node} `{FV : fs_view T node} `{MA : mnt_addresses}.
Notation vfs := (vfs T node).
Notation vnode := (vnode node).
Implicit Types (s : vfs) (n : vnode) (h : gmap Z vnode) (R : gmultiset Z).

(** The objects of a bucket, from its head. *)
Fixpoint chain h (head : Z) (l : list Z) : Prop :=
  match l with
  | [] => head = 0
  | p :: l => head = p ∧ p ≠ 0 ∧ ∃ n, h !! p = Some n ∧ chain h (vn_next n) l
  end.

(** A slot whose file system is mounted. *)
Definition mounted s (m : nat) : Prop :=
  ∃ mp ops, mounts s !! m = Some mp ∧ mp_used mp = true ∧ mp_ops mp = Some ops ∧ fs_laws ops.

Definition same_key (n1 n2 : vnode) : Prop := vn_mnt n1 = vn_mnt n2 ∧ n_ino (vn_node n1) = n_ino (vn_node n2).

(** Bucket [k] holds the objects that hash to it. *)
Definition bucket h (k : nat) (head : Z) : Prop :=
  ∃ l, chain h head l ∧ NoDup l ∧ ∀ p, p ∈ l ↔ ∃ n, h !! p = Some n ∧ vn_hash n = k.

(** Each object has as many references as are held, at least one; there is one
    object for an inode of a mount; each reference held is to an object. *)
Record cache_inv s R : Prop := CacheInv {
  ci_len : length (icache s) = Z.to_nat VFS_ICACHE_BUCKETS;
  ci_brk : 0 < v_brk s;
  ci_bucket k head : icache s !! k = Some head → bucket (v_heap s) k head;
  ci_addr p n : v_heap s !! p = Some n → 0 < p < v_brk s;
  ci_ref p n : v_heap s !! p = Some n → vn_ref n = Z.of_nat (multiplicity p R) ∧ 0 < vn_ref n < 2 ^ 32;
  ci_mnt p n : v_heap s !! p = Some n → mounted s (vn_mnt n);
  ci_live p n : v_heap s !! p = Some n → fs_live (v_fs s) (vn_mnt n) (vn_node n);
  ci_one p q n1 n2 : v_heap s !! p = Some n1 → v_heap s !! q = Some n2 → same_key n1 n2 → p = q;
  ci_held p : p ∈ R → is_Some (v_heap s !! p);
  ci_fs : fs_inv (v_fs s)
}.

(** What the cache operations leave alone: mounts, the name space, and the bodies of
    the objects that stay. *)
Record evolves s s' : Prop := Evolves {
  ev_mounts : mounts s' = mounts s;
  ev_root : root_mounted s' = root_mounted s;
  ev_look m i c : fs_look (v_fs s') m i c = fs_look (v_fs s) m i c;
  ev_attr m i : fs_attr (v_fs s') m i = fs_attr (v_fs s) m i;
  ev_brk : v_brk s <= v_brk s';
  ev_obj q n' : q < v_brk s → v_heap s' !! q = Some n' →
    ∃ n, v_heap s !! q = Some n ∧ vn_mnt n' = vn_mnt n ∧ vn_node n' = vn_node n
}.

#[global] Instance evolves_preorder : PreOrder evolves.
Proof.
  split.
  - intros s. split; try done. eauto.
  - intros s1 s2 s3 [A1 A2 A3 A4 A5 A6] [B1 B2 B3 B4 B5 B6]. split; intros; try congruence; [lia|].
    destruct (B6 q n') as (n & Hn & -> & ->); [lia|done|]. by apply A6.
Qed.

Lemma evolves_mounted s s' m : evolves s s' → mounted s m → mounted s' m.
Proof. intros [E _ _ _ _ _] (mp & ops & ?). exists mp, ops. by rewrite E. Qed.

Lemma mounted_get_ops s m : mounted s m → ∃ ops, get_ops m s = Ok ops ∧ fs_laws ops.
Proof. intros (mp & ops & E1 & _ & E2 & L). exists ops. unfold get_ops. by rewrite E1; cbn; rewrite E2. Qed.

(** The object at [p] is inode [i] of mount [m]. *)
Definition points s (p : Z) (k : nat * Z) : Prop :=
  ∃ n, v_heap s !! p = Some n ∧ vn_mnt n = k.1 ∧ n_ino (vn_node n) = k.2.

Lemma evolves_points s s' R p k : cache_inv s R → evolves s s' → points s p k → is_Some (v_heap s' !! p) → points s' p k.
Proof.
  intros I E (n & Hn & K1 & K2) [n' Hn']. destruct (ev_obj _ _ E p n') as (n0 & Hn0 & E1 & E2); [|done|].
  { by apply (ci_addr _ _ I p n). }
  simplify_eq. exists n'. by rewrite E1, E2.
Qed.

(** ** Chains *)

Lemma vchain_ext h h' head l :
  (∀ p, p ∈ l → vn_next <$> h' !! p = vn_next <$> h !! p) → chain h head l → chain h' head l.
Proof.
  revert head. induction l as [|p l IH]; intros head H C; cbn [chain] in *; [done|].
  destruct C as (-> & Hp & n & Hn & C). split_and!; [done|done|].
  pose proof (H p ltac:(left)) as Hx. rewrite Hn in Hx.
  destruct (h' !! p) as [n'|] eqn:E; [|done]. injection Hx as Hx. exists n'. split; [done|].
  rewrite Hx. apply IH; [|done]. intros q Hq. apply H. by right.
Qed.

Lemma chain_in h head l p : chain h head l → p ∈ l → is_Some (h !! p).
Proof.
  revert head. induction l as [|q l IH]; intros head C Hp; [by apply elem_of_nil in Hp|].
  destruct C as (-> & _ & n & Hn & C). apply elem_of_cons in Hp as [->|Hp]; eauto.
Qed.

Lemma chain_length h head l : chain h head l → NoDup l → (length l ≤ size h)%nat.
Proof.
  intros C N. rewrite <- (size_dom (D := gset Z)). rewrite <- (size_list_to_set (C := gset Z) l N).
  apply subseteq_size. intros p Hp. rewrite elem_of_list_to_set in Hp. apply elem_of_dom. by eapply chain_in.
Qed.

Lemma vn_hash_lt n : (vn_hash n < Z.to_nat VFS_ICACHE_BUCKETS)%nat.
Proof. unfold vn_hash, icache_hash. cbv zeta. apply Z2Nat.inj_lt; [apply Z.mod_pos_bound|done|apply Z.mod_pos_bound]; done. Qed.

Lemma vn_hash_key n1 n2 : same_key n1 n2 → vn_hash n1 = vn_hash n2.
Proof. intros [E1 E2]. unfold vn_hash. by rewrite E1, E2. Qed.

Lemma same_inode_spec n1 n2 : same_inode n1 n2 = true ↔ same_key n1 n2.
Proof. unfold same_inode, same_key. rewrite andb_true_iff, bool_decide_eq_true, Z.eqb_eq. done. Qed.

Lemma find_cached_spec fuel s head l cand :
  chain (v_heap s) head l → (length l < fuel)%nat →
  ∃ r, find_cached fuel head cand s = Ok r ∧
    match r with
    | Some (p, n) => p ∈ l ∧ v_heap s !! p = Some n ∧ same_key n cand
    | None => ∀ p n, p ∈ l → v_heap s !! p = Some n → ¬ same_key n cand
    end.
Proof.
  revert fuel head. induction l as [|p l IH]; intros [|fuel] head C Hf; try (cbn in Hf; lia); cbn [find_cached].
  - cbn in C. subst head. cbn. exists None. split; [done|]. intros p n Hp. by apply elem_of_nil in Hp.
  - destruct C as (-> & Hp & n & Hn & C). rewrite (proj2 (Z.eqb_neq p 0)) by done.
    unfold get_node. rewrite Hn. cbn. destruct (same_inode n cand) eqn:E.
    + apply same_inode_spec in E. eexists. split; [done|]. cbn. split_and!; [left|done|done].
    + destruct (IH fuel (vn_next n) C ltac:(cbn in Hf; lia)) as (r & -> & Hr). exists r. split; [done|].
      destruct r as [[q m]|].
      * destruct Hr as (H1 & H2 & H3). split_and!; [by right|done|done].
      * intros q m Hq Hm. apply elem_of_cons in Hq as [->|Hq]; [|by eapply Hr].
        simplify_eq. rewrite <- same_inode_spec, E. done.
Qed.

Lemma bucket_ext h h' k head :
  (∀ p, vn_next <$> h' !! p = vn_next <$> h !! p) → (∀ p, vn_hash <$> h' !! p = vn_hash <$> h !! p) →
  bucket h k head → bucket h' k head.
Proof.
  intros E1 E2 (l & C & N & M). exists l. split_and!; [|done|].
  - eapply vchain_ext; [|done]. auto.
  - intros p. rewrite M. specialize (E2 p).
    destruct (h !! p) as [n|], (h' !! p) as [n'|]; try done; cbn in E2.
    injection E2 as E2. split; intros (x & [= <-] & <-); eexists; done.
Qed.

(** ** Changes to the cache *)

(** The objects keep their keys and links; counts and bodies may change. *)
Lemma vcache_update s s' R R' :
  cache_inv s R → icache s' = icache s → v_brk s <= v_brk s' → (∀ m, mounted s m → mounted s' m) → fs_inv (v_fs s') →
  (∀ p n', v_heap s' !! p = Some n' →
     ∃ n, v_heap s !! p = Some n ∧ same_key n' n ∧ vn_next n' = vn_next n ∧
       vn_ref n' = Z.of_nat (multiplicity p R') ∧ 0 < vn_ref n' < 2 ^ 32 ∧ fs_live (v_fs s') (vn_mnt n') (vn_node n')) →
  (∀ p, is_Some (v_heap s !! p) → is_Some (v_heap s' !! p)) →
  (∀ p, p ∈ R' → is_Some (v_heap s' !! p)) → cache_inv s' R'.
Proof.
  intros I Eic Hb Hm Hfs H1 H2 H3.
  assert (Hopt : ∀ {A} (f : vnode → A), (∀ n n', same_key n' n → vn_next n' = vn_next n → f n' = f n) →
    ∀ p, f <$> v_heap s' !! p = f <$> v_heap s !! p).
  { intros A f Hf p. destruct (v_heap s' !! p) as [n'|] eqn:E'.
    - destruct (H1 _ _ E') as (n & -> & K & L & _). cbn. f_equal. auto.
    - destruct (v_heap s !! p) as [n|] eqn:E; [|done]. destruct (H2 p ltac:(by rewrite E)) as [? ?]. congruence. }
  split.
  - rewrite Eic. apply I.
  - pose proof (ci_brk _ _ I). lia.
  - intros k head Hk. rewrite Eic in Hk. eapply bucket_ext; [| |by apply (ci_bucket _ _ I)].
    + by apply Hopt.
    + apply Hopt. intros n n' K _. by apply vn_hash_key.
  - intros p n' Hp. destruct (H1 _ _ Hp) as (n & Hn & _). pose proof (ci_addr _ _ I _ _ Hn). lia.
  - intros p n' Hp. destruct (H1 _ _ Hp) as (n & Hn & _ & _ & Hr). tauto.
  - intros p n' Hp. destruct (H1 _ _ Hp) as (n & Hn & [-> _] & _). by apply Hm, (ci_mnt _ _ I p).
  - intros p n' Hp. destruct (H1 _ _ Hp) as (n & Hn & _ & _ & _ & _ & ?). done.
  - intros p q n1' n2' Hp Hq [K1 K2]. destruct (H1 _ _ Hp) as (n1 & Hn1 & [A1 A2] & _), (H1 _ _ Hq) as (n2 & Hn2 & [B1 B2] & _).
    apply (ci_one _ _ I p q n1 n2 Hn1 Hn2). split; congruence.
  - done.
  - done.
Qed.

(** A fresh object at the head of its bucket. *)
Lemma bucket_push h k head p n :
  h !! p = None → p ≠ 0 → bucket h k head → vn_next n = head → vn_hash n = k → bucket (<[p := n]> h) k p.
Proof.
  intros Hp H0 (l & C & N & M) Hn Hk.
  assert (Hl : p ∉ l). { rewrite M. intros (x & Hx & _). congruence. }
  exists (p :: l). split_and!.
  - split_and!; [done|done|]. exists n. rewrite lookup_insert_eq. split; [done|]. rewrite Hn.
    eapply vchain_ext; [|done]. intros q Hq. rewrite lookup_insert_ne; [done|]. by intros ->.
  - by constructor.
  - intros q. rewrite elem_of_cons, M. destruct (decide (q = p)) as [->|Hq].
    + rewrite lookup_insert_eq. split; [eauto|by left].
    + rewrite lookup_insert_ne by done. split; [by intros [?|?]|by right].
Qed.

Lemma bucket_other h k head p n :
  h !! p = None → bucket h k head → vn_hash n ≠ k → bucket (<[p := n]> h) k head.
Proof.
  intros Hp (l & C & N & M) Hk.
  assert (Hl : p ∉ l). { rewrite M. intros (x & Hx & _). congruence. }
  exists l. split_and!; [|done|].
  - eapply vchain_ext; [|done]. intros q Hq. rewrite lookup_insert_ne; [done|]. by intros ->.
  - intros q. rewrite M. destruct (decide (q = p)) as [->|Hq].
    + rewrite lookup_insert_eq, Hp. split; intros (x & Hx & Hh); [done|]. injection Hx as <-. done.
    + by rewrite lookup_insert_ne by done.
Qed.

Lemma bucket_gone h k head p n :
  h !! p = Some n → vn_hash n ≠ k → bucket h k head → bucket (delete p h) k head.
Proof.
  intros Hp Hk (l & C & N & M).
  assert (Hl : p ∉ l). { rewrite M. intros (x & Hx & Hh). congruence. }
  exists l. split_and!; [|done|].
  - eapply vchain_ext; [|done]. intros q Hq. rewrite lookup_delete_ne; [done|]. by intros ->.
  - intros q. rewrite M. destruct (decide (q = p)) as [->|Hq].
    + rewrite lookup_delete_eq. split; intros (x & Hx & Hh); [congruence|done].
    + by rewrite lookup_delete_ne by done.
Qed.

Lemma chain_delete h head l p : p ∉ l → chain h head l → chain (delete p h) head l.
Proof. intros Hl. apply vchain_ext. intros q Hq. rewrite lookup_delete_ne; [done|]. by intros ->. Qed.

Lemma filter_ne_id (p : Z) (l : list Z) : p ∉ l → filter (λ x, x ≠ p) l = l.
Proof.
  induction l as [|x l IH]; intros H; [done|]. apply not_elem_of_cons in H as [H1 H2].
  rewrite filter_cons_True by (by intros ->). by rewrite IH.
Qed.

(** The unlinking walk of [vfs_iput]: from [q], in whose chain [p] is. *)
Lemma unlink_cached_spec fuel s q nq l p np :
  v_heap s !! q = Some nq → chain (v_heap s) (vn_next nq) l → NoDup (q :: l) → p ∈ l → v_heap s !! p = Some np →
  (length l < fuel)%nat →
  ∃ h', unlink_cached fuel q p (vn_next np) s = Ok (with_heap h' s) ∧
    (∃ n', h' !! q = Some n' ∧ chain h' (vn_next n') (filter (λ x, x ≠ p) l)) ∧
    (∀ x, x ∉ q :: l → h' !! x = v_heap s !! x) ∧ h' !! p = Some np ∧
    ∀ x n, v_heap s !! x = Some n → ∃ n', h' !! x = Some n' ∧ n' = set_link (vn_ref n) (vn_next n') n.
Proof.
  revert fuel q nq. induction l as [|y l IH]; intros [|fuel] q nq Hq C N Hp Hnp Hf; try (cbn in Hf; lia); [by apply elem_of_nil in Hp|].
  cbn [unlink_cached]. unfold get_node. rewrite Hq. cbn [deref mbind outcome_bind].
  destruct C as (E & Hy & ny & Hny & C). subst y. rewrite (proj2 (Z.eqb_neq (vn_next nq) 0)) by done.
  apply NoDup_cons in N as [Nq N]. apply NoDup_cons in N as [Ny N].
  destruct (Z.eqb_spec (vn_next nq) p) as [E|E].
  - subst p. rewrite Hny in Hnp. injection Hnp as ->. clear Hp.
    assert (Hne : vn_next nq ≠ q) by (intros E; rewrite E in Nq; apply Nq; left).
    assert (Hql : q ∉ l) by (intros X; apply Nq; by right).
    exists (<[q := set_link (vn_ref nq) (vn_next np) nq]> (v_heap s)). split_and!; [done| | | |].
    + eexists. rewrite lookup_insert_eq. split; [done|]. cbn [set_link vn_next].
      rewrite filter_cons_False by (intros X; by apply X).
      rewrite filter_ne_id by done.
      eapply vchain_ext; [|done]. intros x Hx. rewrite lookup_insert_ne; [done|]. by intros ->.
    + intros x Hx. rewrite lookup_insert_ne; [done|]. intros ->. apply Hx. left.
    + rewrite lookup_insert_ne by done. done.
    + intros x n Hx. destruct (decide (x = q)) as [->|Hxq].
      * rewrite lookup_insert_eq. simplify_eq. eexists. split; [done|]. done.
      * rewrite lookup_insert_ne by done. exists n. split; [done|]. by destruct n.
  - apply elem_of_cons in Hp as [Hp|Hp]; [done|].
    destruct (IH fuel (vn_next nq) ny Hny C) as (h' & -> & (n' & Hn' & C') & F & Fp & K); [by constructor|done|done|cbn in Hf; lia|].
    exists h'. split_and!; [done| |intros x Hx; apply F; intros X; apply Hx; by right|done|done].
    destruct (K q nq Hq) as (nq' & Hq' & Eq). exists nq'. split; [done|].
    rewrite filter_cons_True by done.
    assert (Hnext : vn_next nq' = vn_next nq).
    { assert (h' !! q = v_heap s !! q) as X by (apply F; done). rewrite Hq', Hq in X. congruence. }
    rewrite Hnext. split_and!; [done|done|]. eauto.
Qed.

(** ** Canonicalisation *)

Lemma not_in_fresh s R : cache_inv s R → v_heap s !! v_brk s = None.
Proof. intros I. destruct (v_heap s !! v_brk s) eqn:E; [|done]. pose proof (ci_addr _ _ I _ _ E). lia. Qed.

Lemma multiplicity_fresh s R p : cache_inv s R → v_heap s !! p = None → multiplicity p R = 0%nat.
Proof.
  intros I Hp. destruct (decide (p ∈ R)) as [H|H]; [|by rewrite elem_of_multiplicity in H; lia].
  apply (ci_held _ _ I) in H as [? ?]. congruence.
Qed.

Lemma multiplicity_size (p : Z) R : (multiplicity p R ≤ size R)%nat.
Proof.
  destruct (multiplicity p R) as [|k] eqn:E; [lia|].
  assert (k *: {[+ p +]} ⊎ {[+ p +]} ⊆ R) as H%gmultiset_subseteq_size.
  { intros x. rewrite multiplicity_disj_union, multiplicity_scalar_mul. destruct (decide (x = p)) as [->|Hx].
    - rewrite multiplicity_singleton_eq. lia.
    - rewrite multiplicity_singleton_ne by done. lia. }
  rewrite gmultiset_size_disj_union, gmultiset_size_scalar_mul, !gmultiset_size_singleton in *. lia.
Qed.

(** One more reference to [q], and a quiet change of the file systems. *)
Lemma cache_bump s R q n t k :
  cache_inv s R → v_heap s !! q = Some n → quiet (v_fs s) t → Z.of_nat (size R) + 1 < 2 ^ 32 → 0 <= k →
  cache_inv (Vfs.Vfs (<[q := set_link (u32 (vn_ref n + 1)) (vn_next n) n]> (v_heap s)) (v_brk s + k) (icache s) (mounts s) (root_mounted s) t)
    (R ⊎ {[+ q +]}).
Proof.
  intros I Hn Q Hsz Hk. destruct (ci_ref _ _ I _ _ Hn) as [Hr Hr0]. pose proof (multiplicity_size q R) as Hms.
  apply (vcache_update s _ R); [done|done|cbn; lia|done|apply Q| | |]; cbn [v_heap v_fs].
  - intros p n' Hp. destruct (decide (p = q)) as [->|Hpq].
    + rewrite lookup_insert_eq in Hp. injection Hp as <-. exists n. cbn.
      unfold u32. rewrite Z.mod_small by lia. rewrite multiplicity_disj_union, multiplicity_singleton_eq.
      split_and!; [done|done|done|lia|lia|lia|]. apply Q. by apply (ci_live _ _ I q).
    + rewrite lookup_insert_ne in Hp by done. exists n'. rewrite multiplicity_disj_union, multiplicity_singleton_ne by done.
      destruct (ci_ref _ _ I _ _ Hp). split_and!; [done|done|done|lia|lia|lia|]. apply Q. by apply (ci_live _ _ I p).
  - intros p Hp. rewrite lookup_insert_is_Some. destruct (decide (q = p)); [by left|by right].
  - intros p Hp. rewrite lookup_insert_is_Some. apply gmultiset_elem_of_disj_union in Hp as [Hp|Hp].
    + destruct (decide (q = p)); [by left|right]. split; [done|]. by apply (ci_held _ _ I).
    + left. by apply gmultiset_elem_of_singleton in Hp.
Qed.

(** A new object for an inode that has none. *)
Lemma cache_add s R m b head :
  cache_inv s R → mounted s m → fs_live (v_fs s) m b →
  icache s !! vn_hash (Vnode m b 0 0) = Some head →
  (∀ p n, v_heap s !! p = Some n → ¬ same_key n (Vnode m b 0 0)) →
  cache_inv (Vfs.Vfs (<[v_brk s := Vnode m b 1 head]> (v_heap s)) (v_brk s + 1)
    (<[vn_hash (Vnode m b 0 0) := v_brk s]> (icache s)) (mounts s) (root_mounted s) (v_fs s)) (R ⊎ {[+ v_brk s +]}).
Proof.
  intros I Hm Hl Hh Hno. pose proof (not_in_fresh _ _ I) as Hf. pose proof (ci_brk _ _ I).
  pose proof (multiplicity_fresh _ _ _ I Hf) as Hmul.
  assert (Hsp : ∀ p n, <[v_brk s := Vnode m b 1 head]> (v_heap s) !! p = Some n →
    (p = v_brk s ∧ n = Vnode m b 1 head) ∨ (p ≠ v_brk s ∧ v_heap s !! p = Some n)).
  { intros p n. rewrite lookup_insert_Some. naive_solver. }
  split; cbn [icache v_brk v_heap v_fs].
  - rewrite length_insert. apply I.
  - lia.
  - intros k x Hk. change (vn_hash (Vnode m b 0 0)) with (vn_hash (Vnode m b 1 head)) in *.
    destruct (decide (k = vn_hash (Vnode m b 1 head))) as [->|Hne].
    + rewrite list_lookup_insert_eq in Hk by (by eapply lookup_lt_Some). injection Hk as <-.
      eapply bucket_push; [done|lia|by apply (ci_bucket _ _ I)|done|done].
    + rewrite list_lookup_insert_ne in Hk by done. apply bucket_other; [done|by apply (ci_bucket _ _ I)|done].
  - intros p n [[-> ->]|[_ Hp]]%Hsp; [lia|]. pose proof (ci_addr _ _ I _ _ Hp). lia.
  - intros p n [[-> ->]|[Hne Hp]]%Hsp; rewrite multiplicity_disj_union.
    + rewrite Hmul, multiplicity_singleton_eq. done.
    + rewrite multiplicity_singleton_ne, Nat.add_0_r by done. by apply (ci_ref _ _ I).
  - intros p n [[-> ->]|[_ Hp]]%Hsp; [done|]. by apply (ci_mnt _ _ I p).
  - intros p n [[-> ->]|[_ Hp]]%Hsp; [done|]. by apply (ci_live _ _ I p).
  - intros p q n1 n2 [[-> ->]|[_ Hp]]%Hsp [[-> ->]|[_ Hq]]%Hsp [K1 K2]; [done| | |by apply (ci_one _ _ I p q n1 n2)].
    + exfalso. by apply (Hno q n2).
    + exfalso. by apply (Hno p n1).
  - intros p. rewrite lookup_insert_is_Some. intros [Hp|Hp]%gmultiset_elem_of_disj_union.
    + destruct (decide (v_brk s = p)); [by left|right]. split; [done|]. by apply (ci_held _ _ I).
    + left. by apply gmultiset_elem_of_singleton in Hp.
  - apply I.
Qed.

Lemma close_node_spec s p n :
  v_heap s !! p = Some n → mounted s (vn_mnt n) → fs_inv (v_fs s) → fs_live (v_fs s) (vn_mnt n) (vn_node n) →
  ∃ t, quiet (v_fs s) t ∧
    close_node p s = Ok (Vfs.Vfs (delete p (v_heap s)) (v_brk s) (icache s) (mounts s) (root_mounted s) t).
Proof.
  intros Hp Hm Hi Hl. destruct (mounted_get_ops _ _ Hm) as (ops & Hops & L).
  destruct (law_close _ L _ _ _ Hi Hl) as (t & Ht & Q). exists t. split; [done|].
  unfold close_node, get_node. rewrite Hp. cbn. rewrite Hops. cbn. by rewrite Ht.
Qed.

(** The search for the candidate: its object, or the way it joins the cache. *)
Lemma canonicalize_cases s R m b :
  cache_inv s R →
  let c := Vnode m b 0 0 in
  let s0 := (new_node m b s).2 in
  (∃ q n, v_heap s !! q = Some n ∧ same_key n c ∧
     vfs_icache_canonicalize (v_brk s) s0 =
     (s' ← close_node (v_brk s) (set_node q (set_link (u32 (vn_ref n + 1)) (vn_next n) n) s0); Ok (q, s'))) ∨
  (∃ head, icache s !! vn_hash c = Some head ∧ (∀ p n, v_heap s !! p = Some n → ¬ same_key n c) ∧
     vfs_icache_canonicalize (v_brk s) s0 =
     Ok (v_brk s, Vfs.Vfs (<[v_brk s := Vnode m b 1 head]> (v_heap s)) (v_brk s + 1)
       (<[vn_hash c := v_brk s]> (icache s)) (mounts s) (root_mounted s) (v_fs s))).
Proof.
  intros I c0 s0. unfold vfs_icache_canonicalize. set (p0 := v_brk s).
  pose proof (not_in_fresh _ _ I) as Hfresh. fold p0 in Hfresh.
  assert (Ec : get_node p0 s0 = Ok c0) by (unfold get_node; cbn; by rewrite lookup_insert_eq).
  rewrite Ec. cbn [mbind outcome_bind].
  destruct (lookup_lt_is_Some_2 (icache s) (vn_hash c0)) as [head Hhead].
  { rewrite (ci_len _ _ I). apply vn_hash_lt. }
  change (icache s0) with (icache s). rewrite Hhead. cbn [deref mbind outcome_bind].
  destruct (ci_bucket _ _ I _ _ Hhead) as (l & C & N & M).
  assert (Hp0l : p0 ∉ l). { rewrite M. intros (x & Hx & _). congruence. }
  assert (C0 : chain (v_heap s0) head l).
  { eapply vchain_ext; [|done]. intros q Hq. cbn. rewrite lookup_insert_ne; [done|]. by intros <-. }
  destruct (find_cached_spec (chain_fuel s0) s0 head l c0) as (r & -> & Hr); [done| |].
  { pose proof (chain_length _ _ _ C0 N). unfold chain_fuel. lia. }
  cbn [mbind outcome_bind]. destruct r as [[q n]|]; [left|right].
  - destruct Hr as (Hq & Hn & K).
    change (v_heap s0) with (<[p0 := c0]> (v_heap s)) in Hn. rewrite lookup_insert_ne in Hn by (by intros <-).
    exists q, n. done.
  - exists head. split_and!; [done| |].
    + intros p n Hn K. eapply (Hr p n); [| |done].
      * apply M. exists n. split; [done|]. by apply vn_hash_key.
      * cbn. rewrite lookup_insert_ne; [done|]. intros <-. unfold p0 in Hfresh. congruence.
    + unfold set_node, with_heap, with_icache. cbn [v_heap v_brk icache mounts root_mounted v_fs s0 new_node snd].
      by rewrite insert_insert_eq.
Qed.

(** A file system's fresh inode becomes the canonical object, or one more reference to it. *)
Lemma intern_spec s R m b :
  cache_inv s R → mounted s m → fs_live (v_fs s) m b → Z.of_nat (size R) + 1 < 2 ^ 32 →
  wp (vfs_icache_canonicalize (new_node m b s).1 (new_node m b s).2) (λ '(p, s'),
    cache_inv s' (R ⊎ {[+ p +]}) ∧ points s' p (m, n_ino b) ∧ evolves s s').
Proof.
  intros I Hm Hl Hsz. cbn [new_node fst]. pose proof (not_in_fresh _ _ I) as Hfresh.
  destruct (canonicalize_cases s R m b I) as [(q & n & Hn & K & ->)|(head & Hh & Hno & ->)].
  - assert (Hlt : q < v_brk s) by (apply (ci_addr _ _ I q n Hn)). set (s1 := set_node q _ _).
    destruct (close_node_spec s1 (v_brk s) (Vnode m b 0 0)) as (t & Q & ->);
      [cbn; rewrite lookup_insert_ne, lookup_insert_eq by lia; done|done|apply I|done|].
    cbn [mbind outcome_bind]. apply wp_Ok. cbn [v_heap v_brk icache mounts root_mounted v_fs s1 set_node with_heap new_node snd].
    rewrite delete_insert_ne, delete_insert_id by (done || lia).
    split_and!; [apply cache_bump; done || lia| |].
    + eexists. cbn. rewrite lookup_insert_eq. split; [done|]. destruct K as [K1 K2]. cbn in *. done.
    + split; cbn; try done; [apply Q|apply Q|lia|]. intros x n' Hx. rewrite lookup_insert_Some.
      intros [[<- <-]|[_ Hn']]; eauto.
  - apply wp_Ok. split_and!.
    + by apply cache_add.
    + eexists. cbn. rewrite lookup_insert_eq. done.
    + split; cbn; try done; [lia|]. intros x n' Hx. rewrite lookup_insert_ne by lia. eauto.
Qed.

(** ** Releasing a reference *)

(** [vfs_iput] takes the object [p] out of its bucket: the state after the walk. *)
Lemma iput_unlink s p n head l :
  chain (v_heap s) head l → NoDup l → p ∈ l → v_heap s !! p = Some n → icache s !! vn_hash n = Some head →
  ∃ h' head',
    (if head =? 0 then Ok s else
     if head =? p then Ok (with_icache (<[vn_hash n := vn_next n]> (icache s)) s) else
     unlink_cached (chain_fuel s) head p (vn_next n) s) =
    Ok (Vfs.Vfs h' (v_brk s) (<[vn_hash n := head']> (icache s)) (mounts s) (root_mounted s) (v_fs s)) ∧
    chain h' head' (filter (λ x, x ≠ p) l) ∧ (∀ x, x ∉ l → h' !! x = v_heap s !! x) ∧ h' !! p = Some n ∧
    ∀ x m, v_heap s !! x = Some m → ∃ m', h' !! x = Some m' ∧ m' = set_link (vn_ref m) (vn_next m') m.
Proof.
  intros C N Hp Hn Hh. destruct l as [|q l]; [by apply elem_of_nil in Hp|].
  pose proof (chain_length _ _ _ C N) as Hlen.
  destruct C as (-> & Hq & nq & Hnq & C). rewrite (proj2 (Z.eqb_neq q 0)) by done.
  destruct (Z.eqb_spec q p) as [->|Hne].
  - rewrite Hn in Hnq. injection Hnq as <-. apply NoDup_cons in N as [Np N].
    exists (v_heap s), (vn_next n). split_and!; [done| |done|done|].
    + rewrite filter_cons_False by (intros X; by apply X). by rewrite filter_ne_id.
    + intros x m Hx. exists m. split; [done|]. by destruct m.
  - apply elem_of_cons in Hp as [Hp|Hp]; [done|].
    destruct (unlink_cached_spec (chain_fuel s) s q nq l p n) as (h' & -> & (n' & Hn' & C') & F & Fp & K); try done.
    { unfold chain_fuel. cbn [length] in Hlen. lia. }
    exists h', q. split_and!; [|rewrite filter_cons_True by done; cbn; eauto|done|done|done].
    unfold with_heap. by rewrite list_insert_id.
Qed.

(** What is left when [p] has lost its last reference. *)
Lemma cache_remove s R p n h' head' l t :
  cache_inv s (R ⊎ {[+ p +]}) → v_heap s !! p = Some n → multiplicity p R = 0%nat → quiet (v_fs s) t →
  NoDup l → (∀ x, x ∈ l ↔ ∃ m, v_heap s !! x = Some m ∧ vn_hash m = vn_hash n) →
  chain h' head' (filter (λ x, x ≠ p) l) → (∀ x, x ∉ l → h' !! x = v_heap s !! x) →
  (∀ x m, x ≠ p → v_heap s !! x = Some m → ∃ m', h' !! x = Some m' ∧ m' = set_link (vn_ref m) (vn_next m') m) →
  cache_inv (Vfs.Vfs (delete p h') (v_brk s) (<[vn_hash n := head']> (icache s)) (mounts s) (root_mounted s) t) R.
Proof.
  intros I Hp Hmul Q N M C F K.
  assert (Hsp : ∀ x m', delete p h' !! x = Some m' → x ≠ p ∧ ∃ m, v_heap s !! x = Some m ∧ m' = set_link (vn_ref m) (vn_next m') m).
  { intros x m' [Hne Hx]%lookup_delete_Some. split; [done|]. destruct (v_heap s !! x) as [m|] eqn:E.
    - destruct (K x m) as (m1 & E1 & E2); [done|done|]. simplify_eq. eauto.
    - exfalso. rewrite F in Hx; [congruence|]. rewrite M. intros (y & Hy & _). congruence. }
  assert (Hmul' : ∀ x, x ≠ p → multiplicity x (R ⊎ {[+ p +]}) = multiplicity x R).
  { intros x Hx. rewrite multiplicity_disj_union, multiplicity_singleton_ne by done. lia. }
  assert (Hl : ∀ k, (k < length (icache s))%nat → k ≠ vn_hash n → ∀ x m, v_heap s !! x = Some m → vn_hash m = k → x ∉ l).
  { intros k _ Hk x m Hx Hm. rewrite M. intros (y & Hy & E). simplify_eq. }
  split; cbn [icache v_brk v_heap v_fs].
  - rewrite length_insert. apply I.
  - apply I.
  - intros k x Hk. destruct (decide (k = vn_hash n)) as [->|Hne].
    + rewrite list_lookup_insert_eq in Hk by (rewrite (ci_len _ _ I); apply vn_hash_lt). injection Hk as <-.
      exists (filter (λ x, x ≠ p) l). split_and!; [|by apply NoDup_filter|].
      * apply chain_delete; [|done]. rewrite list_elem_of_filter. by intros [? _].
      * intros y. rewrite list_elem_of_filter, M. split.
        { intros (Hy & m & Hm & E). destruct (K y m) as (m' & Hm' & E'); [done|done|]. exists m'.
          rewrite lookup_delete_ne by done. split; [done|]. rewrite E'. done. }
        { intros (m' & Hm' & E). apply Hsp in Hm' as (Hy & m & Hm & E'). split; [done|]. exists m. split; [done|]. by rewrite E' in E. }
    + rewrite list_lookup_insert_ne in Hk by done. pose proof (lookup_lt_Some _ _ _ Hk) as Hlt.
      destruct (ci_bucket _ _ I _ _ Hk) as (l2 & C2 & N2 & M2).
      assert (Hdis : ∀ y, y ∈ l2 → y ∉ l ∧ y ≠ p).
      { intros y Hy. apply M2 in Hy as (m & Hm & E). split; [by eapply Hl|]. intros ->. simplify_eq. }
      exists l2. split_and!; [|done|].
      * eapply vchain_ext; [|done]. intros y Hy. destruct (Hdis y Hy). rewrite lookup_delete_ne by done. by rewrite F.
      * intros y. rewrite M2. split.
        { intros (m & Hm & E). destruct (Hdis y) as [H1 H2]; [apply M2; eauto|]. exists m. rewrite lookup_delete_ne, F by done. done. }
        { intros (m' & Hm' & E). apply Hsp in Hm' as (Hy & m & Hm & E'). exists m. split; [done|]. by rewrite E' in E. }
  - intros x m' (_ & m & Hm & _)%Hsp. by apply (ci_addr _ _ I x m).
  - intros x m' (Hx & m & Hm & E)%Hsp. rewrite E. cbn. rewrite <- Hmul' by done. by apply (ci_ref _ _ I).
  - intros x m' (Hx & m & Hm & E)%Hsp. rewrite E. cbn. by apply (ci_mnt _ _ I x m).
  - intros x m' (Hx & m & Hm & E)%Hsp. rewrite E. cbn. apply Q. by apply (ci_live _ _ I x m).
  - intros x y m1 m2 (Hx & n1 & Hn1 & E1)%Hsp (Hy & n2 & Hn2 & E2)%Hsp K'. rewrite E1, E2 in K'.
    by apply (ci_one _ _ I x y n1 n2).
  - intros x Hx. assert (Hxp : x ≠ p). { intros ->. rewrite elem_of_multiplicity in Hx. lia. }
    destruct (ci_held _ _ I x) as [m Hm]; [apply gmultiset_elem_of_disj_union; by left|].
    destruct (K x m) as (m' & Hm' & _); [done|done|]. rewrite lookup_delete_ne by done. eauto.
  - apply Q.
Qed.

Lemma held_object s R p : cache_inv s (R ⊎ {[+ p +]}) →
  ∃ n, v_heap s !! p = Some n ∧ vn_ref n = Z.of_nat (multiplicity p R) + 1 ∧ p ≠ 0.
Proof.
  intros I. destruct (ci_held _ _ I p) as [n Hn]; [apply gmultiset_elem_of_disj_union; right; by apply gmultiset_elem_of_singleton|].
  exists n. destruct (ci_ref _ _ I _ _ Hn) as [E _]. pose proof (ci_addr _ _ I _ _ Hn).
  rewrite E, multiplicity_disj_union, multiplicity_singleton_eq. split_and!; [done|lia|lia].
Qed.

(** One reference less; the last one takes the object out of the cache and closes it. *)
Lemma vfs_iput_spec s R p :
  cache_inv s (R ⊎ {[+ p +]}) → wp (vfs_iput p s) (λ s', cache_inv s' R ∧ evolves s s').
Proof.
  intros I. destruct (held_object _ _ _ I) as (n & Hn & Hr & Hp0).
  destruct (ci_ref _ _ I _ _ Hn) as [_ Hrb].
  unfold vfs_iput. rewrite (proj2 (Z.eqb_neq p 0)) by done. unfold get_node. rewrite Hn. cbn [deref mbind outcome_bind].
  rewrite (proj2 (Z.eqb_neq (vn_ref n) 0)) by lia. cbv zeta.
  assert (Hu : u32 (vn_ref n - 1) = Z.of_nat (multiplicity p R)) by (unfold u32; rewrite Z.mod_small; lia).
  rewrite Hu. set (n1 := set_link (Z.of_nat (multiplicity p R)) (vn_next n) n). set (s1 := set_node p n1 s).
  destruct (Z.eqb_spec (Z.of_nat (multiplicity p R)) 0) as [Hz|Hz]; cbn [negb].
  - assert (Hmul : multiplicity p R = 0%nat) by lia.
    destruct (lookup_lt_is_Some_2 (icache s) (vn_hash n)) as [head Hh]; [rewrite (ci_len _ _ I); apply vn_hash_lt|].
    destruct (ci_bucket _ _ I _ _ Hh) as (l & C & N & M).
    assert (Hpl : p ∈ l) by (apply M; eauto).
    assert (Hne : ∀ x, x ≠ p → v_heap s1 !! x = v_heap s !! x) by (intros x Hx; cbn; by rewrite lookup_insert_ne).
    assert (Hp1 : v_heap s1 !! p = Some n1) by (cbn; by rewrite lookup_insert_eq).
    assert (C1 : chain (v_heap s1) head l).
    { eapply vchain_ext; [|done]. intros x Hx. destruct (decide (x = p)) as [->|]; [by rewrite Hp1, Hn|by rewrite Hne]. }
    destruct (iput_unlink s1 p n1 head l) as (h' & head' & E & C' & F & Fp & K); [done|done|done|done|done|].
    change (vn_hash n1) with (vn_hash n) in E. change (vn_next n1) with (vn_next n) in E.
    change (icache s1) with (icache s) in *. rewrite Hh. cbn [deref mbind outcome_bind].
    rewrite E. cbn [mbind outcome_bind]. clear E.
    set (s2 := Vfs.Vfs h' _ _ _ _ _). set (s3 := set_node p (set_link 0 0 n) s2).
    destruct (close_node_spec s3 p (set_link 0 0 n)) as (t & Q & ->).
    { cbn. by rewrite lookup_insert_eq. }
    { apply (ci_mnt _ _ I p n Hn). }
    { apply I. }
    { apply (ci_live _ _ I p n Hn). }
    apply wp_Ok. cbn [v_heap v_brk icache mounts root_mounted v_fs s3 s2 s1 set_node with_heap]. rewrite delete_insert_eq. split.
    + eapply cache_remove; [done|done|done|done|exact N|done|done| |].
      * intros x Hx. rewrite F by done. apply Hne. by intros ->.
      * intros x m Hx Hm. apply K. by rewrite Hne.
    + split; cbn; try done; [apply Q|apply Q|]. intros x n' _ [Hx Hn']%lookup_delete_Some.
      destruct (v_heap s !! x) as [m|] eqn:Em.
      * destruct (K x m) as (m' & E1 & E2); [by rewrite Hne|]. simplify_eq. exists m. rewrite E2. done.
      * exfalso. rewrite F in Hn'; [rewrite Hne in Hn' by done; congruence|]. rewrite M. intros (y & Hy & _). congruence.
  - apply wp_Ok. split.
    + apply (vcache_update s _ (R ⊎ {[+ p +]})); [done|done|cbn; lia|done|apply I| | |]; cbn [s1 set_node with_heap v_heap v_fs].
      * intros x n' Hx. destruct (decide (x = p)) as [->|Hxp].
        { rewrite lookup_insert_eq in Hx. injection Hx as <-. exists n. cbn. split_and!; try done; [lia|lia|]. by apply (ci_live _ _ I p). }
        rewrite lookup_insert_ne in Hx by done. exists n'. destruct (ci_ref _ _ I _ _ Hx) as [H1 H2].
        rewrite multiplicity_disj_union, multiplicity_singleton_ne, Nat.add_0_r in H1 by done.
        split_and!; try done; [lia|lia|]. by apply (ci_live _ _ I x).
      * intros x Hx. rewrite lookup_insert_is_Some. destruct (decide (p = x)); [by left|by right].
      * intros x Hx. rewrite lookup_insert_is_Some. destruct (decide (p = x)); [by left|right]. split; [done|].
        apply (ci_held _ _ I). apply gmultiset_elem_of_disj_union. by left.
    + split; cbn; try done. intros x n' _. rewrite lookup_insert_Some. intros [[<- <-]|[_ Hx]]; eauto.
Qed.

(** ** Looking a name up *)

Lemma cache_quiet s R t : cache_inv s R → quiet (v_fs s) t → cache_inv (with_fs t s) R ∧ evolves s (with_fs t s).
Proof.
  intros I Q. split.
  - apply (vcache_update s _ R); [done|done|cbn; lia|done|apply Q| |done|apply (ci_held _ _ I)]. intros p n Hn. exists n.
    destruct (ci_ref _ _ I _ _ Hn). split_and!; try done; [lia|lia|]. apply Q. by apply (ci_live _ _ I p).
  - split; cbn; try done; [apply Q|apply Q|eauto].
Qed.

(** A lookup yields the object of the inode the name leads to, with one more
    reference, or the error of the file system and nothing else. *)
Lemma lookup_cached_spec s R dir n name :
  cache_inv s R → v_heap s !! dir = Some n → Z.of_nat (size R) + 1 < 2 ^ 32 →
  wp (lookup_cached dir name s) (λ '(err, p, s'), evolves s s' ∧
    match fs_look (v_fs s) (vn_mnt n) (n_ino (vn_node n)) name with
    | inl e => err = e ∧ e ≠ 0 ∧ cache_inv s' R
    | inr i => err = 0 ∧ cache_inv s' (R ⊎ {[+ p +]}) ∧ points s' p (vn_mnt n, i)
    end).
Proof.
  intros I Hn Hsz. pose proof (ci_mnt _ _ I _ _ Hn) as Hm. destruct (mounted_get_ops _ _ Hm) as (ops & Hops & L).
  destruct (law_lookup _ L (v_fs s) (vn_mnt n) (vn_node n) name) as (err & o & t & E & Q & Hr); [apply I|by apply (ci_live _ _ I dir)|].
  unfold lookup_cached, get_node. rewrite Hn. cbn [deref mbind outcome_bind]. rewrite Hops. cbn [mbind outcome_bind].
  rewrite E. cbn [mbind outcome_bind]. destruct (cache_quiet _ _ _ I Q) as [I' V].
  destruct (fs_look (v_fs s) (vn_mnt n) (n_ino (vn_node n)) name) as [e|i].
  - destruct Hr as [-> He]. rewrite (proj2 (Z.eqb_neq e 0)) by done. cbn [negb]. apply wp_Ok. done.
  - destruct Hr as (-> & b & -> & <- & Hb). cbn [Z.eqb negb deref mbind outcome_bind].
    pose proof (intern_spec (with_fs t s) R (vn_mnt n) b I' Hm Hb Hsz) as W.
    destruct (new_node (vn_mnt n) b (with_fs t s)) as [p0 s0]. cbn [fst snd] in W.
    eapply wp_bind; [exact W|]. intros [p s'] (I2 & P & V2). apply wp_Ok. split; [by etrans|done].
Qed.
End Cache.
