(* ===== verification/VfsWalk.v ===== *)
(** * Walking a path: mount points, [vfs_open] and [vfs_parent]

    The walks refine a resolver that knows nothing of objects and references: it works on
    (mount, inode number) pairs. *)

From stdpp Require Import gmultiset.
From S2P Require Import Prelude Vfs VfsPath VfsSpec.

(** ** The abstract name space *)

Record namespace := Namespace {
  ns_under : nat → Z → option nat;
  ns_root : nat → Z;
  ns_look : nat → Z → list Z → Z + Z;
  ns_attr : nat → Z → bool * Z
}.

Section Resolve.
Variable N : namespace.

(** What is mounted on a directory, down to the last mount of a stack. *)
Fixpoint down (fuel : nat) (k : nat * Z) : Z + nat * Z :=
  match fuel with
  | O => inr k
  | S fuel =>
      match ns_under N k.1 k.2 with
      | None => inr k
      | Some j => match ns_look N j (ns_root N j) dot_name with inl e => inl e | inr i => down fuel (j, i) end
      end
  end.

Definition down_all (k : nat * Z) : Z + nat * Z := down (S VFS_MOUNT_MAX) k.

(** One name below a directory. *)
Definition step_down (k : nat * Z) (c : list Z) : Z + nat * Z :=
  match ns_look N k.1 k.2 c with inl e => inl e | inr i => down_all (k.1, i) end.

Definition is_directory (k : nat * Z) : bool := (ns_attr N k.1 k.2).1.
Definition searchable (k : nat * Z) : bool := has (ns_attr N k.1 k.2).2 0x49.

Definition start : Z + nat * Z :=
  match ns_look N 0 (ns_root N 0) dot_name with inl e => inl e | inr i => down_all (0%nat, i) end.

(** Down a list of names; each directory on the way must be searchable. *)
Fixpoint walk (k : nat * Z) (cs : list (list Z)) : Z + nat * Z :=
  match cs with
  | [] => inr k
  | c :: cs =>
      if negb (is_directory k) then inl (- ENOTDIR) else
      if negb (searchable k) then inl (- EACCES) else
      match step_down k c with inl e => inl e | inr k => walk k cs end
  end.

(** Down to the directory of the last name. *)
Fixpoint walk_parent (k : nat * Z) (cs : list (list Z)) : Z + nat * Z * list Z :=
  match cs with
  | [] => inl (- EINVAL)
  | [c] => inr (k, c)
  | c :: cs =>
      if negb (is_directory k) then inl (- ENOTDIR) else
      match step_down k c with inl e => inl e | inr k => walk_parent k cs end
  end.

(** The names of a path, or why it has none. *)
Definition path_names (path : list Z) : Z + list (list Z) :=
  match normalize_path path with
  | Ok (err, out) => if err =? 0 then inr (names out) else inl err
  | _ => inl (- EINVAL)
  end.

Definition resolve (path : list Z) : Z + nat * Z :=
  match path_names path with
  | inl e => inl e
  | inr cs => match start with inl e => inl e | inr k => walk k cs end
  end.

Definition resolve_parent (path : list Z) : Z + nat * Z * list Z :=
  match path_names path with
  | inl e => inl e
  | inr cs => match start with inl e => inl e | inr k => walk_parent k cs end
  end.
End Resolve.

(** ** Mount points *)

Section Walk.
Context {T node : Type} `{NF : inode_fields node} `{FV : fs_view T node} `{MA : mnt_addresses}.
Notation vfs := (vfs T node).
Notation vnode := (vnode node).
Notation vfs_mountpoint := (@vfs_mountpoint T node).
Implicit Types (s : vfs) (n : vnode) (mp : vfs_mountpoint) (U R : gmultiset Z).

Definition used_slot s (i : nat) : Prop := ∃ mp, mounts s !! i = Some mp ∧ mp_used mp = true.

(** A mounted slot has a root of its own; a slot other than the first covers a directory
    of an earlier one; the slots are filled in order. *)
Record mount_inv s : Prop := MountInv {
  mv_len : length (mounts s) = VFS_MOUNT_MAX;
  mv_root : root_mounted s = true ↔ used_slot s 0;
  mv_mounted i mp : mounts s !! i = Some mp → mp_used mp = true → mounted s i;
  mv_obj i mp : mounts s !! i = Some mp → mp_used mp = true → ∃ n, v_heap s !! mp_root mp = Some n ∧ vn_mnt n = i;
  mv_covers i mp : mounts s !! i = Some mp → mp_used mp = true → i ≠ 0%nat →
    ∃ j, covered_mnt mp = Some j ∧ (j < i)%nat ∧ used_slot s j;
  mv_prefix i j : (i < j)%nat → used_slot s j → used_slot s i
}.

(** The references the mount table holds. *)
Definition roots s : gmultiset Z := list_to_set_disj (mp_root <$> filter (λ mp, mp_used mp = true) (mounts s)).

(** [U] are the references held outside of vfs.c. *)
Record vfs_inv s U : Prop := VfsInv { vi_cache : cache_inv s (roots s ⊎ U); vi_mounts : mount_inv s }.

Lemma used_root s i mp : mounts s !! i = Some mp → mp_used mp = true → mp_root mp ∈ roots s.
Proof.
  intros Hi Hu. unfold roots. rewrite elem_of_list_to_set_disj. apply list_elem_of_fmap. exists mp. split; [done|].
  apply list_elem_of_filter. split; [done|]. by eapply list_elem_of_lookup_2.
Qed.

(** The name space of a state. *)
Definition space s : namespace :=
  Namespace (λ m i, find_mount 1 m i (drop 1 (mounts s)))
    (λ j, match mounts s !! j with
          | Some mp => match v_heap s !! mp_root mp with Some n => n_ino (vn_node n) | None => 0 end
          | None => 0
          end)
    (fs_look (v_fs s)) (fs_attr (v_fs s)).

Record describes (N : namespace) s : Prop := Describes {
  ds_under m i : find_mount 1 m i (drop 1 (mounts s)) = ns_under N m i;
  ds_root j mp : mounts s !! j = Some mp → mp_used mp = true → points s (mp_root mp) (j, ns_root N j);
  ds_look m i c : fs_look (v_fs s) m i c = ns_look N m i c;
  ds_attr m i : fs_attr (v_fs s) m i = ns_attr N m i
}.

Lemma space_describes s : mount_inv s → describes (space s) s.
Proof.
  intros V. split; try done. intros j mp Hj Hu. destruct (mv_obj _ V j mp Hj Hu) as (n & Hn & Hm).
  exists n. split_and!; [done|done|]. cbn. by rewrite Hj, Hn.
Qed.

Lemma roots_evolves s s' : evolves s s' → roots s' = roots s.
Proof. intros E. unfold roots. by rewrite (ev_mounts _ _ E). Qed.

(** A walk keeps the mounts and the name space. *)
Lemma vfs_inv_evolves N s s' U U' :
  vfs_inv s U → describes N s → evolves s s' → cache_inv s' (roots s ⊎ U') → vfs_inv s' U' ∧ describes N s'.
Proof.
  intros [I V] D E I'. rewrite <- (roots_evolves _ _ E) in I'. pose proof (ev_mounts _ _ E) as Em.
  assert (Hroot : ∀ j mp k, mounts s !! j = Some mp → mp_used mp = true → points s (mp_root mp) k → points s' (mp_root mp) k).
  { intros j mp k Hj Hu P. apply (evolves_points s s' _ _ _ I E P). apply (ci_held _ _ I').
    apply gmultiset_elem_of_disj_union. left. rewrite <- Em in Hj. by eapply used_root. }
  split.
  - split; [done|]. split; unfold used_slot; rewrite ?Em, ?(ev_root _ _ E); try apply V.
    + intros i mp Hi Hu. eapply evolves_mounted; [done|]. by eapply (mv_mounted _ V).
    + intros i mp Hi Hu. destruct (mv_obj _ V i mp Hi Hu) as (n & Hn & Hm).
      destruct (Hroot i mp (i, n_ino (vn_node n)) Hi Hu) as (n' & Hn' & Hm' & _); [by exists n|]. exists n'. done.
  - split.
    + intros. rewrite Em. apply D.
    + rewrite Em. intros j mp Hj Hu. eapply Hroot; [done|done|]. by apply D.
    + intros. rewrite (ev_look _ _ E). apply D.
    + intros. rewrite (ev_attr _ _ E). apply D.
Qed.

Lemma covers_spec m i mp : covers m i mp = true ↔ mp_used mp = true ∧ covered_mnt mp = Some m ∧ covered_ino mp = i.
Proof. unfold covers. rewrite !andb_true_iff, bool_decide_eq_true, Z.eqb_eq. tauto. Qed.

Lemma find_mount_spec b m i l j :
  find_mount b m i l = Some j → ∃ d mp, j = (b + d)%nat ∧ l !! d = Some mp ∧ covers m i mp = true.
Proof.
  revert b. induction l as [|mp l IH]; intros b; cbn [find_mount]; [done|]. destruct (covers m i mp) eqn:E.
  - intros [= <-]. exists 0%nat, mp. split_and!; [lia|done|done].
  - intros (d & mp' & -> & Hd & Hc)%IH. exists (S d), mp'. split_and!; [lia|done|done].
Qed.

(** What is mounted on a directory is in a later slot: a stack of mounts ends. *)
Lemma under_later N s m i j :
  mount_inv s → describes N s → ns_under N m i = Some j →
  ∃ mp, mounts s !! j = Some mp ∧ mp_used mp = true ∧ (m < j < VFS_MOUNT_MAX)%nat.
Proof.
  intros V D H. rewrite <- (ds_under _ _ D) in H. apply find_mount_spec in H as (d & mp & -> & Hd & Hc).
  apply covers_spec in Hc as (Hu & Hm & _). rewrite lookup_drop in Hd.
  exists mp. pose proof (lookup_lt_Some _ _ _ Hd) as Hlt. rewrite (mv_len _ V) in Hlt.
  destruct (mv_covers _ V _ _ Hd Hu) as (k & Hk & Hlt' & _); [lia|]. simplify_eq. split_and!; done || lia.
Qed.

Lemma size_roots s : mount_inv s → (size (roots s) ≤ VFS_MOUNT_MAX)%nat.
Proof.
  intros V. unfold roots. rewrite <- (mv_len _ V). generalize (mounts s) as l.
  induction l as [|mp l IH]; [done|]. rewrite filter_cons. case_decide; cbn [length]; [|lia].
  rewrite fmap_cons, list_to_set_disj_cons, gmultiset_size_disj_union, gmultiset_size_singleton. lia.
Qed.

(** ** One step *)

(** [p] is held and is the inode [k]. *)
Record at_inode N s U (p : Z) (k : nat * Z) : Prop := AtInode {
  ai_inv : vfs_inv s (U ⊎ {[+ p +]}); ai_desc : describes N s; ai_points : points s p k
}.

(** A walk ends at what [r] says, with one reference, or with its error and none. *)
Definition ends N s U (r : Z + nat * Z) (x : Z * Z * vfs) : Prop :=
  let '(err, p, s') := x in
  evolves s s' ∧
  match r with
  | inl e => err = e ∧ e ≠ 0 ∧ vfs_inv s' U ∧ describes N s'
  | inr k => err = 0 ∧ at_inode N s' U p k
  end.

Lemma ends_trans N s s' U r x : evolves s s' → ends N s' U r x → ends N s U r x.
Proof. intros E. destruct x as [[err p] s'']. intros [E' H]. split; [by etrans|done]. Qed.

Definition held_room U : Prop := Z.of_nat (size U) + 16 < 2 ^ 32.

Lemma look_up_held N s U dir n name :
  vfs_inv s U → describes N s → v_heap s !! dir = Some n → Z.of_nat (size U) + 15 < 2 ^ 32 →
  wp (lookup_cached dir name s)
    (ends N s U (match ns_look N (vn_mnt n) (n_ino (vn_node n)) name with inl e => inl e | inr i => inr (vn_mnt n, i) end)).
Proof.
  intros [I V] D Hn Hsz. pose proof (size_roots _ V) as Hr. unfold VFS_MOUNT_MAX in Hr.
  eapply wp_mono; [eapply lookup_cached_spec; [done|done|rewrite gmultiset_size_disj_union; lia]|].
  intros [[err p] s'] [E H]. split; [done|]. rewrite (ds_look _ _ D) in H.
  destruct (ns_look N (vn_mnt n) (n_ino (vn_node n)) name) as [e|i].
  - destruct H as (H1 & H2 & H3). split_and!; [done|done| |]; by eapply (vfs_inv_evolves N s s' U U).
  - destruct H as (H1 & H2 & H3). split; [done|]. rewrite <- gmultiset_disj_union_assoc in H2.
    destruct (vfs_inv_evolves N s s' U (U ⊎ {[+ p +]}) (VfsInv _ _ I V) D E H2). by split.
Qed.

Lemma put_held N s U p :
  vfs_inv s (U ⊎ {[+ p +]}) → describes N s → wp (vfs_iput p s) (λ s', evolves s s' ∧ vfs_inv s' U ∧ describes N s').
Proof.
  intros [I V] D. eapply wp_mono; [eapply vfs_iput_spec; by rewrite <- gmultiset_disj_union_assoc|].
  intros s' [I' E]. split; [done|]. by eapply vfs_inv_evolves.
Qed.

(** A call that fails after the reference is given up. *)
Lemma put_fail N s U p e :
  vfs_inv s (U ⊎ {[+ p +]}) → describes N s → e ≠ 0 →
  wp (s' ← vfs_iput p s; Ok (e, 0, s')) (ends N s U (inl e)).
Proof.
  intros I D He. eapply wp_bind; [by eapply put_held|]. intros s' (E & I' & D'). apply wp_Ok. done.
Qed.

Lemma points_node s p k : points s p k → ∃ n, get_node p s = Ok n ∧ v_heap s !! p = Some n ∧ vn_mnt n = k.1 ∧ n_ino (vn_node n) = k.2.
Proof. intros (n & Hn & H). exists n. unfold get_node. by rewrite Hn. Qed.

(** The reference to [cur] is given up for the one to [p]. *)
Lemma put_keep N s U cur p k :
  at_inode N s (U ⊎ {[+ cur +]}) p k → wp (vfs_iput cur s) (λ s', evolves s s' ∧ at_inode N s' U p k).
Proof.
  intros [I D P]. assert (E : U ⊎ {[+ cur +]} ⊎ {[+ p +]} = U ⊎ {[+ p +]} ⊎ {[+ cur +]}) by multiset_solver.
  rewrite E in I. eapply wp_mono; [by eapply put_held|]. intros s' (E' & I' & D'). split; [done|]. split; [done|done|].
  eapply evolves_points; [apply I|done|done|]. apply (ci_held _ _ (vi_cache _ _ I')). multiset_solver.
Qed.

(** ** Mounts on the way *)

Lemma cross_mounts_spec N fuel s U cur k :
  at_inode N s U cur k → (VFS_MOUNT_MAX - k.1 < fuel)%nat → held_room U →
  wp (cross_mounts fuel cur s) (ends N s U (down N fuel k)).
Proof.
  revert s cur k. induction fuel as [|fuel IH]; intros s cur k A Hf Hr; [lia|].
  pose proof A as [I D P]. destruct (points_node _ _ _ P) as (n & Hg & Hn & Hm & Hi).
  cbn [cross_mounts down]. rewrite Hg. cbn [mbind outcome_bind]. rewrite Hm, Hi, (ds_under _ _ D).
  destruct (ns_under N k.1 k.2) as [j|] eqn:Hu; [|by apply wp_Ok].
  destruct (under_later N s _ _ _ (vi_mounts _ _ I) D Hu) as (mp & Hj & Hused & Hlt).
  rewrite Hj. cbn [deref mbind outcome_bind].
  destruct (ds_root _ _ D _ _ Hj Hused) as (nr & Hnr & Hmr & Hir). cbn in Hmr, Hir.
  eapply wp_bind.
  { eapply (look_up_held N s _ _ nr); [exact I|done|done|]. unfold held_room in Hr.
    rewrite gmultiset_size_disj_union, gmultiset_size_singleton. lia. }
  rewrite Hmr, Hir. intros [[err sub] s1] [E1 H1]. destruct (ns_look N j (ns_root N j) dot_name) as [e|i].
  - destruct H1 as (-> & He & I1 & D1). eapply wp_bind; [by eapply put_held|]. intros s2 (E2 & I2 & D2).
    rewrite (proj2 (Z.eqb_neq e 0)) by done. apply wp_Ok. split; [by etrans|done].
  - destruct H1 as (-> & A1). eapply wp_bind; [by eapply put_keep|]. intros s2 (E2 & A2). cbn [Z.eqb negb].
    eapply wp_mono; [apply (IH s2 sub (j, i)); [done|cbn [fst]; lia|done]|]. intros x. apply ends_trans. by etrans.
Qed.

Lemma cross_spec N s U cur k :
  at_inode N s U cur k → held_room U → wp (cross cur s) (ends N s U (down_all N k)).
Proof. intros A Hr. apply cross_mounts_spec; [done|lia|done]. Qed.

Lemma walk_step_spec N s U cur k c :
  at_inode N s U cur k → held_room U → wp (walk_step cur c s) (ends N s U (step_down N k c)).
Proof.
  intros A Hr. pose proof A as [I D P]. destruct (points_node _ _ _ P) as (n & Hg & Hn & Hm & Hi).
  unfold walk_step, step_down. eapply wp_bind.
  { eapply (look_up_held N s _ _ n); [exact I|done|done|]. unfold held_room in Hr.
    rewrite gmultiset_size_disj_union, gmultiset_size_singleton. lia. }
  rewrite Hm, Hi. intros [[err next] s1] [E1 H1]. destruct (ns_look N k.1 k.2 c) as [e|i].
  - destruct H1 as (-> & He & I1 & D1). eapply wp_bind; [by eapply put_held|]. intros s2 (E2 & I2 & D2).
    rewrite (proj2 (Z.eqb_neq e 0)) by done. apply wp_Ok. split; [by etrans|done].
  - destruct H1 as (-> & A1). eapply wp_bind; [by eapply put_keep|]. intros s2 (E2 & A2). cbn [Z.eqb negb].
    eapply wp_mono; [by eapply cross_spec|]. intros x. apply ends_trans. by etrans.
Qed.

Lemma walk_start_spec N s U :
  vfs_inv s U → describes N s → root_mounted s = true → held_room U →
  wp (walk_start s) (ends N s U (start N)).
Proof.
  intros I D Hroot Hr. pose proof (proj1 (mv_root _ (vi_mounts _ _ I)) Hroot) as (mp & H0 & Hu).
  destruct (ds_root _ _ D _ _ H0 Hu) as (nr & Hnr & Hmr & Hir). cbn in Hmr, Hir.
  unfold walk_start, start. rewrite H0. cbn [deref mbind outcome_bind]. eapply wp_bind.
  { eapply (look_up_held N s _ _ nr); [done|done|done|]. unfold held_room in Hr. lia. }
  rewrite Hmr, Hir. intros [[err cur] s1] [E1 H1]. destruct (ns_look N 0 (ns_root N 0) dot_name) as [e|i].
  - destruct H1 as (-> & He & I1 & D1). rewrite (proj2 (Z.eqb_neq e 0)) by done. by apply wp_Ok.
  - destruct H1 as (-> & A1). cbn [Z.eqb negb]. eapply wp_mono; [by eapply cross_spec|]. intros x. by apply ends_trans.
Qed.

(** ** [vfs_open] *)

(** The fields the walk tests are those of the name space. *)
Lemma inode_attr N s U p k n :
  at_inode N s U p k → v_heap s !! p = Some n → n_is_dir (vn_node n) = is_directory N k ∧ has (n_mode (vn_node n)) 0x49 = searchable N k.
Proof.
  intros [I D (n' & Hn' & Hm & Hi)] Hn. rewrite Hn in Hn'. injection Hn' as <-. pose proof (vi_cache _ _ I) as C.
  destruct (mounted_get_ops _ _ (ci_mnt _ _ C _ _ Hn)) as (ops & _ & L).
  pose proof (law_attr _ L (v_fs s) (vn_mnt n) (vn_node n) (ci_fs _ _ C) (ci_live _ _ C _ _ Hn)) as E.
  unfold is_directory, searchable. rewrite <- Hm, <- Hi, <- (ds_attr _ _ D), <- E. done.
Qed.

Lemma at_put_fail N s U p k e :
  at_inode N s U p k → e ≠ 0 → wp (s' ← vfs_iput p s; Ok (e, 0, s')) (ends N s U (inl e)).
Proof. intros [I D _]. by apply put_fail. Qed.

Definition short_names (p : list Z) : Prop := Forall (λ c, Z.of_nat (length c) < VFS_NAME_MAX) (names p).

Lemma open_loop_spec N fuel s U cur k p :
  at_inode N s U cur k → held_room U → (length p < fuel)%nat → short_names p →
  wp (open_loop fuel cur p s) (ends N s U (walk N k (names p))).
Proof.
  revert s cur k p. induction fuel as [|fuel IH]; intros s cur k p A Hr Hf Hs; [lia|].
  destruct (points_node _ _ _ (ai_points _ _ _ _ _ A)) as (n & Hg & Hn & _).
  destruct (inode_attr _ _ _ _ _ _ A Hn) as [Ed Ex].
  cbn [open_loop]. unfold short_names in Hs.
  pose proof (next_component_spec p VFS_NAME_MAX ltac:(done)) as Hc. destruct (next_component p VFS_NAME_MAX) as [|comp rest|].
  - rewrite Hc. apply wp_Ok. done.
  - destruct Hc as (Hc & _ & _ & Hl). rewrite Hc in *. apply Forall_cons in Hs as [_ Hs]. cbn [walk].
    rewrite Hg. cbn [mbind outcome_bind]. rewrite Ed, Ex.
    destruct (is_directory N k); cbn [negb]; [|by eapply at_put_fail].
    destruct (searchable N k); cbn [negb]; [|by eapply at_put_fail].
    eapply wp_bind; [by eapply walk_step_spec|]. intros [[err next] s1] [E1 H1].
    destruct (step_down N k comp) as [e|k'].
    + destruct H1 as (-> & He & I1 & D1). rewrite (proj2 (Z.eqb_neq e 0)) by done. by apply wp_Ok.
    + destruct H1 as (-> & A1). cbn [Z.eqb negb].
      eapply wp_mono; [apply (IH s1 next k' rest); [done|done|lia|done]|]. intros x. by apply ends_trans.
  - destruct Hc as (comp & cs & Hc & Hl). rewrite Hc in Hs. apply Forall_cons in Hs as [Hs _]. lia.
Qed.

(** Normalisation always returns, and what it returns has short names. *)
Lemma path_names_spec path :
  ∃ err out, normalize_path path = Ok (err, out) ∧
    path_names path = (if err =? 0 then inr (names out) else inl err) ∧ (err = 0 → short_names out).
Proof.
  assert (∃ err out, normalize_path path = Ok (err, out)) as (err & out & E).
  { destruct (decide (absolute path)) as [Ha|Ha].
    - destruct (normalize_absolute path Ha) as [[_ E]|[_ [out E]]]; eauto.
    - rewrite (normalize_relative path Ha). eauto. }
  exists err, out. unfold path_names. rewrite E. split_and!; [done|done|]. intros ->.
  destruct (normalize_shape path out E) as (st & -> & _ & [F _] & _). done.
Qed.

Lemma no_root_spec s U : vfs_inv s U → no_root s = negb (root_mounted s).
Proof.
  intros [I V]. unfold no_root. destruct (root_mounted s) eqn:E; [|done]. cbn [negb orb].
  pose proof (proj1 (mv_root _ V) E) as (mp & H0 & Hu). rewrite H0.
  destruct (mv_obj _ V _ _ H0 Hu) as (n & Hn & _). pose proof (ci_addr _ _ I _ _ Hn). apply Z.eqb_neq. lia.
Qed.

(** [resolve] as the calls see it: without a root nothing is found. *)
Definition lookup_path {A} s (r : Z + A) : Z + A := if root_mounted s then r else inl (- ENOENT).

Lemma vfs_open_spec N s U path :
  vfs_inv s U → describes N s → held_room U →
  wp (vfs_open path s) (ends N s U (lookup_path s (resolve N path))).
Proof.
  intros I D Hr. unfold vfs_open, lookup_path. rewrite (no_root_spec _ _ I).
  destruct (root_mounted s) eqn:Hroot; cbn [negb]; [|by apply wp_Ok].
  destruct (path_names_spec path) as (err & out & E & Ep & Hs). rewrite E. cbn [mbind outcome_bind].
  unfold resolve. rewrite Ep. destruct (Z.eqb_spec err 0) as [->|Herr]; cbn [negb]; [|by apply wp_Ok].
  eapply wp_bind; [by eapply walk_start_spec|]. intros [[err cur] s1] [E1 H1]. destruct (start N) as [e|k].
  - destruct H1 as (-> & He & I1 & D1). rewrite (proj2 (Z.eqb_neq e 0)) by done. by apply wp_Ok.
  - destruct H1 as (-> & A1). cbn [Z.eqb negb].
    eapply wp_mono; [apply (open_loop_spec N _ _ U _ k); [done|done|lia|by apply Hs]|]. intros x. by apply ends_trans.
Qed.

(** ** [vfs_parent] *)

Definition ends_parent N s U (r : Z + nat * Z * list Z) (x : Z * Z * list Z * vfs) : Prop :=
  let '(err, p, name, s') := x in
  evolves s s' ∧
  match r with
  | inl e => err = e ∧ e ≠ 0 ∧ vfs_inv s' U ∧ describes N s'
  | inr (k, c) => err = 0 ∧ name = c ∧ at_inode N s' U p k
  end.

Lemma ends_parent_trans N s s' U r x : evolves s s' → ends_parent N s' U r x → ends_parent N s U r x.
Proof. intros E. destruct x as [[[err p] c] s'']. intros [E' H]. split; [by etrans|done]. Qed.

Lemma parent_put_fail N s U p k e :
  at_inode N s U p k → e ≠ 0 → wp (s' ← vfs_iput p s; Ok (e, 0, [], s')) (ends_parent N s U (inl e)).
Proof.
  intros [I D _] He. eapply wp_bind; [by eapply put_held|]. intros s' (E & I' & D'). apply wp_Ok. done.
Qed.

Lemma parent_loop_spec N fuel s U cur k p :
  at_inode N s U cur k → held_room U → (length p < fuel)%nat → short_names p →
  wp (parent_loop fuel cur p VFS_NAME_MAX s) (ends_parent N s U (walk_parent N k (names p))).
Proof.
  revert s cur k p. induction fuel as [|fuel IH]; intros s cur k p A Hr Hf Hs; [lia|].
  destruct (points_node _ _ _ (ai_points _ _ _ _ _ A)) as (n & Hg & Hn & _).
  destruct (inode_attr _ _ _ _ _ _ A Hn) as [Ed _].
  cbn [parent_loop]. unfold short_names in Hs.
  pose proof (next_component_spec p VFS_NAME_MAX ltac:(done)) as Hc. destruct (next_component p VFS_NAME_MAX) as [|comp rest|].
  - rewrite Hc. by eapply parent_put_fail.
  - destruct Hc as (Hc & _ & Hlen & Hl). rewrite Hc in *. apply Forall_cons in Hs as [_ Hs].
    rewrite path_has_more_spec. destruct (names rest) as [|c cs] eqn:Er.
    + rewrite bool_decide_eq_true_2 by done. cbn [negb walk_parent].
      rewrite Z.geb_leb, (proj2 (Z.leb_gt _ _)) by lia. apply wp_Ok. done.
    + rewrite bool_decide_eq_false_2 by done. cbn [negb]. rewrite Hg. cbn [mbind outcome_bind].
      change (walk_parent N k (comp :: c :: cs)) with
        (if negb (is_directory N k) then inl (- ENOTDIR) else
         match step_down N k comp with inl e => inl e | inr k => walk_parent N k (c :: cs) end).
      rewrite Ed. destruct (is_directory N k); cbn [negb]; [|by eapply parent_put_fail].
      eapply wp_bind; [by eapply walk_step_spec|]. intros [[err next] s1] [E1 H1].
      destruct (step_down N k comp) as [e|k'].
      * destruct H1 as (-> & He & I1 & D1). rewrite (proj2 (Z.eqb_neq e 0)) by done. by apply wp_Ok.
      * destruct H1 as (-> & A1). cbn [Z.eqb negb]. rewrite <- Er in *.
        eapply wp_mono; [apply (IH s1 next k' rest); [done|done|lia|done]|]. intros x. by apply ends_parent_trans.
  - destruct Hc as (comp & cs & Hc & Hl). rewrite Hc in Hs. apply Forall_cons in Hs as [Hs _]. lia.
Qed.

Lemma vfs_parent_spec N s U path :
  vfs_inv s U → describes N s → held_room U →
  wp (vfs_parent path VFS_NAME_MAX s) (ends_parent N s U (lookup_path s (resolve_parent N path))).
Proof.
  intros I D Hr. unfold vfs_parent, lookup_path. rewrite (no_root_spec _ _ I).
  destruct (root_mounted s) eqn:Hroot; cbn [negb]; [|by apply wp_Ok].
  destruct (path_names_spec path) as (err & out & E & Ep & Hs). rewrite E. cbn [mbind outcome_bind].
  unfold resolve_parent. rewrite Ep. destruct (Z.eqb_spec err 0) as [->|Herr]; cbn [negb]; [|by apply wp_Ok].
  eapply wp_bind; [by eapply walk_start_spec|]. intros [[err cur] s1] [E1 H1]. destruct (start N) as [e|k].
  - destruct H1 as (-> & He & I1 & D1). rewrite (proj2 (Z.eqb_neq e 0)) by done. by apply wp_Ok.
  - destruct H1 as (-> & A1). cbn [Z.eqb negb].
    eapply wp_mono; [apply (parent_loop_spec N _ _ U _ k); [done|done|lia|by apply Hs]|]. intros x. by apply ends_parent_trans.
Qed.
End Walk.
