(* ===== verification/VfsMount.v ===== *)
(** * Mounting: [vfs_mount] keeps the invariant and covers one directory *)

From stdpp Require Import gmultiset.
From S2P Require Import Prelude Block Vfs VfsPath VfsSpec VfsWalk.

Section Mount.
Context {T node : Type} `{NF : inode_fields node} `{FV : fs_view T node} `{MA : mnt_addresses}.
Notation vfs := (vfs T node).
Notation vnode := (vnode node).
Notation vfs_mountpoint := (@vfs_mountpoint T node).
Implicit Types (s : vfs) (n : vnode) (mp : vfs_mountpoint) (U R : gmultiset Z).

(** ** The mount table *)

Lemma filter_insert_used (l : list vfs_mountpoint) i mp mp' :
  l !! i = Some mp → mp_used mp = false →
  list_to_set_disj (mp_root <$> filter (λ mp, mp_used mp = true) (<[i := mp']> l)) =
  (list_to_set_disj (mp_root <$> filter (λ mp, mp_used mp = true) l) : gmultiset Z)
    ⊎ (if mp_used mp' then {[+ mp_root mp' +]} else ∅).
Proof.
  revert i. induction l as [|x l IH]; intros [|i] Hi Hu; [done|done| |]; cbn [lookup list_lookup] in Hi.
  - injection Hi as ->. cbn [insert list_insert]. rewrite !filter_cons, (decide_False (P := mp_used mp = true)) by (rewrite Hu; done).
    destruct (mp_used mp') eqn:E; [rewrite decide_True by done|rewrite decide_False by done; multiset_solver].
    rewrite fmap_cons, list_to_set_disj_cons. multiset_solver.
  - cbn [insert list_insert]. rewrite !filter_cons. case_decide; [|by apply IH].
    rewrite !fmap_cons, !list_to_set_disj_cons, IH by done. multiset_solver.
Qed.

Lemma find_mount_insert b m i (l : list vfs_mountpoint) d mp mp' :
  l !! d = Some mp → mp_used mp = false →
  find_mount b m i (<[d := mp']> l) =
  match find_mount b m i (take d l) with
  | Some j => Some j
  | None => if covers m i mp' then Some (b + d)%nat else find_mount b m i l
  end.
Proof.
  revert b d. induction l as [|x l IH]; intros b [|d] Hd Hu; [done|done| |]; cbn [lookup list_lookup] in Hd.
  - injection Hd as ->. cbn [insert list_insert find_mount take].
    assert (covers m i mp = false) as -> by (unfold covers; by rewrite Hu). rewrite Nat.add_0_r. done.
  - cbn [insert list_insert find_mount take firstn]. destruct (covers m i x); [done|]. rewrite IH by done.
    by replace (S b + d)%nat with (b + S d)%nat by lia.
Qed.

Lemma find_mount_take b m i (l : list vfs_mountpoint) d : find_mount b m i l = None → find_mount b m i (take d l) = None.
Proof.
  revert b d. induction l as [|x l IH]; intros b [|d]; try done. cbn. destruct (covers m i x); [done|]. apply IH.
Qed.

(** An unused slot may be overwritten by an unused one. *)
Lemma find_mount_unused b m i (l : list vfs_mountpoint) d mp mp' :
  l !! d = Some mp → mp_used mp = false → covers m i mp' = false → find_mount b m i (<[d := mp']> l) = find_mount b m i l.
Proof.
  revert b d. induction l as [|x l IH]; intros b [|d] Hd Hu Hc; [done|done| |]; cbn [lookup list_lookup] in Hd.
  - injection Hd as ->. cbn [insert list_insert find_mount].
    assert (covers m i mp = false) as -> by (unfold covers; by rewrite Hu). by rewrite Hc.
  - cbn [insert list_insert find_mount]. destruct (covers m i x); [done|]. by apply IH.
Qed.

(** The scan: the first free slot, when nothing covers the directory. *)
Lemma free_slot_spec i slot m ino (l : list vfs_mountpoint) :
  i ≠ 0%nat → find_mount i m ino l = None →
  free_slot i slot m ino l =
  Some (if decide (slot = 0%nat) then match list_find (λ mp, mp_used mp = false) l with Some (d, _) => (i + d)%nat | None => 0%nat end else slot).
Proof.
  revert i slot. induction l as [|x l IH]; intros i slot Hi; cbn [find_mount free_slot list_find].
  { intros _. by case_decide; subst. }
  destruct (covers m ino x) eqn:Ec; [done|]. intros H. rewrite IH by done.
  destruct (mp_used x) eqn:E; cbn [negb andb].
  - rewrite (decide_False (P := true = false)) by done. f_equal. case_decide; [|done].
    destruct (list_find _ l) as [[d y]|]; cbn; [lia|done].
  - rewrite (decide_True (P := false = false)) by done. destruct (decide (slot = 0%nat)) as [->|Hs].
    + rewrite bool_decide_eq_true_2 by done. rewrite decide_False by done. f_equal. lia.
    + rewrite bool_decide_eq_false_2 by done. by rewrite decide_False.
Qed.

Lemma down_top N fuel k k' :
  (∀ m i j, ns_under N m i = Some j → (m < j < VFS_MOUNT_MAX)%nat) → (VFS_MOUNT_MAX - k.1 < fuel)%nat →
  down N fuel k = inr k' → ns_under N k'.1 k'.2 = None.
Proof.
  intros Hlt. revert k. induction fuel as [|fuel IH]; intros k Hf; [lia|]. cbn [down].
  destruct (ns_under N k.1 k.2) as [j|] eqn:E; [|by intros [= <-]].
  destruct (ns_look N j (ns_root N j) dot_name) as [e|i]; [done|]. apply IH.
  apply Hlt in E. cbn [fst]. lia.
Qed.

(** A path never ends at a directory that something is mounted on. *)
Lemma resolve_top N path k :
  (∀ m i j, ns_under N m i = Some j → (m < j < VFS_MOUNT_MAX)%nat) →
  resolve N path = inr k → ns_under N k.1 k.2 = None.
Proof.
  intros Hlt. unfold resolve. destruct (path_names path) as [e|cs]; [done|].
  assert (Hd : ∀ k k', down_all N k = inr k' → ns_under N k'.1 k'.2 = None).
  { intros k1 k2. apply down_top; [done|lia]. }
  assert (Hw : ∀ k0, ns_under N k0.1 k0.2 = None → walk N k0 cs = inr k → ns_under N k.1 k.2 = None).
  { induction cs as [|c cs IH]; intros k0 H0; cbn [walk]; [by intros [= <-]|].
    destruct (is_directory N k0); [|done]. destruct (searchable N k0); [|done]. cbn [negb].
    unfold step_down. destruct (ns_look N k0.1 k0.2 c) as [e|i]; [done|].
    destruct (down_all N (k0.1, i)) as [e|k1] eqn:E; [done|]. apply IH. by eapply Hd. }
  unfold start. destruct (ns_look N 0 (ns_root N 0) dot_name) as [e|i]; [done|].
  destruct (down_all N (0%nat, i)) as [e|k0] eqn:E; [done|]. apply Hw. by eapply Hd.
Qed.

(** ** Filling a slot *)

(** Slot [i] as [mount_slot] finds it. *)
Record free_at s (i : nat) (mp : vfs_mountpoint) : Prop := FreeAt {
  fa_at : mounts s !! i = Some mp; fa_unused : mp_used mp = false
}.

Lemma mounted_ne s i mp m : free_at s i mp → mounted s m → m ≠ i.
Proof. intros [H1 H2] (mp' & ops & Hm & Hu & _) ->. congruence. Qed.

Lemma mounted_set s i mp mp' m : free_at s i mp → mounted s m → mounted (set_mount i mp' s) m.
Proof.
  intros F H. pose proof (mounted_ne _ _ _ _ F H). destruct H as (mp0 & ops & Hm & R). exists mp0, ops.
  cbn. by rewrite list_lookup_insert_ne by done.
Qed.

(** The table and the other file systems change while slot [i] is free. *)
Lemma cache_mounting s R i mp mp' t rm :
  cache_inv s R → free_at s i mp → mounts_in (v_fs s) t i →
  cache_inv (with_root_mounted rm (with_fs t (set_mount i mp' s))) R.
Proof.
  intros I F M. apply (vcache_update s _ R); [done|done|cbn; lia| |apply M| |done|apply (ci_held _ _ I)].
  - intros m Hm. apply (mounted_set s i mp mp' m F Hm).
  - intros p n Hn. pose proof (ci_mnt _ _ I _ _ Hn) as Hm. exists n. destruct (ci_ref _ _ I _ _ Hn).
    split_and!; try done; [lia|lia|]. apply M; [by eapply mounted_ne|]. by apply (ci_live _ _ I p).
Qed.

Lemma mounts_in_refl t i : fs_inv t → mounts_in t t i.
Proof. by split. Qed.

Lemma used_set s i mp mp' j :
  free_at s i mp → used_slot (set_mount i mp' s) j ↔ (j = i ∧ mp_used mp' = true) ∨ used_slot s j.
Proof.
  intros [H1 H2]. unfold used_slot. cbn. destruct (decide (j = i)) as [->|Hne].
  - rewrite list_lookup_insert_eq by (by eapply lookup_lt_Some). split.
    + intros (x & [= <-] & Hu). by left.
    + intros [[_ Hu]|(x & Hx & Hu)]; [eauto|congruence].
  - rewrite list_lookup_insert_ne by done. split; [by right|]. intros [[? _]|?]; done.
Qed.

Lemma mounts_set s i mp mp' j x :
  free_at s i mp → mounts (set_mount i mp' s) !! j = Some x → mp_used x = true →
  (j = i ∧ x = mp') ∨ (j ≠ i ∧ mounts s !! j = Some x).
Proof.
  intros [H1 H2]. cbn. destruct (decide (j = i)) as [->|Hne].
  - rewrite list_lookup_insert_eq by (by eapply lookup_lt_Some). intros [= <-]. by left.
  - rewrite list_lookup_insert_ne by done. by right.
Qed.

(** A failed mount leaves the device and the operations in the unused slot. *)
Lemma mount_failed s U i mp mp' t :
  vfs_inv s U → free_at s i mp → mp_used mp' = false → mounts_in (v_fs s) t i →
  vfs_inv (with_fs t (set_mount i mp' s)) U.
Proof.
  intros [I V] F Hu M. set (s' := with_fs t _).
  assert (Er : roots s' = roots s).
  { unfold roots. cbn. destruct F. rewrite (filter_insert_used _ i mp mp') by done. rewrite Hu. multiset_solver. }
  assert (Hus : ∀ j, used_slot s' j ↔ used_slot s j).
  { intros j. change (used_slot (set_mount i mp' s) j ↔ used_slot s j). rewrite (used_set s i mp mp') by done. rewrite Hu.
    split; [by intros [[_ ?]|?]|by right]. }
  split; [rewrite Er; by apply (cache_mounting s _ i mp mp' t (root_mounted s))|].
  assert (Hm : ∀ j x, mounts s' !! j = Some x → mp_used x = true → mounts s !! j = Some x).
  { intros j x Hj Hx. destruct (mounts_set s i mp mp' j x F Hj Hx) as [[-> ->]|[_ ?]]; [congruence|done]. }
  split.
  - cbn. rewrite length_insert. apply V.
  - rewrite Hus. apply V.
  - intros j x Hj Hx. apply (mounted_set s i mp mp' j F). by apply (mv_mounted _ V j x (Hm _ _ Hj Hx)).
  - intros j x Hj Hx. apply (mv_obj _ V j x); [by apply Hm|done].
  - intros j x Hj Hx Hj0. destruct (mv_covers _ V j x (Hm _ _ Hj Hx) Hx Hj0) as (j' & H1 & H2 & H3).
    exists j'. split_and!; [done|done|by apply Hus].
  - intros j j' Hlt. rewrite !Hus. by apply V.
Qed.

(** A successful mount: the slot is used and holds the reference to its root. *)
Lemma mount_done s U i mp mp' t b head rm ops :
  vfs_inv s U → free_at s i mp → mp_used mp' = true → mp_ops mp' = Some ops → mp_root mp' = v_brk s → fs_laws ops →
  (∀ j, (j < i)%nat → used_slot s j) → (i ≠ 0%nat → ∃ j, covered_mnt mp' = Some j ∧ (j < i)%nat) →
  mounts_in (v_fs s) t i → fs_live t i b → icache s !! vn_hash (Vnode i b 0 0) = Some head →
  (rm = true ↔ i = 0%nat ∨ root_mounted s = true) →
  vfs_inv (Vfs.Vfs (<[v_brk s := Vnode i b 1 head]> (v_heap s)) (v_brk s + 1)
    (<[vn_hash (Vnode i b 0 0) := v_brk s]> (icache s)) (<[i := mp']> (mounts s)) rm t) U.
Proof.
  intros [I V] F Hu Ho Hroot L Hpre Hcov M Hb Hh Hrm. set (s' := Vfs.Vfs _ _ _ _ _ _).
  pose proof (not_in_fresh _ _ I) as Hf. pose proof F as [Fa Fu]. pose proof (lookup_lt_Some _ _ _ Fa) as Hlt.
  assert (Hus : ∀ j, used_slot s' j ↔ j = i ∨ used_slot s j).
  { intros j. change (used_slot (set_mount i mp' s) j ↔ j = i ∨ used_slot s j). rewrite (used_set s i mp mp') by done. rewrite Hu.
    split; intros [?|?]; tauto. }
  assert (Hmi : mounted (set_mount i mp' s) i).
  { exists mp', ops. cbn. by rewrite list_lookup_insert_eq. }
  assert (Er : roots s' ⊎ U = roots s ⊎ U ⊎ {[+ v_brk s +]}).
  { unfold roots. cbn [s' mounts]. rewrite (filter_insert_used _ i mp mp') by done. rewrite Hu, Hroot. multiset_solver. }
  split.
  - rewrite Er. apply (cache_add (with_root_mounted rm (with_fs t (set_mount i mp' s)))); [by eapply cache_mounting|done|done|done|].
    intros p n Hn [K _]. pose proof (ci_mnt _ _ I _ _ Hn) as Hm. by apply (mounted_ne _ _ _ _ F Hm).
  - split.
    + cbn. rewrite length_insert. apply V.
    + rewrite Hus. cbn. rewrite Hrm, (mv_root _ V). split; intros [?|?]; auto.
    + intros j x Hj Hx. destruct (mounts_set s i mp mp' j x F Hj Hx) as [[-> ->]|[_ Hj']]; [done|].
      apply (mounted_set s i mp mp' j F). by apply (mv_mounted _ V j x).
    + intros j x Hj Hx. cbn. destruct (mounts_set s i mp mp' j x F Hj Hx) as [[-> ->]|[_ Hj']].
      * rewrite Hroot, lookup_insert_eq. by eexists.
      * destruct (mv_obj _ V j x Hj' Hx) as (n & Hn & Hm). exists n. rewrite lookup_insert_ne; [done|]. intros E. congruence.
    + intros j x Hj Hx Hj0. destruct (mounts_set s i mp mp' j x F Hj Hx) as [[-> ->]|[_ Hj']].
      * destruct (Hcov Hj0) as (j & H1 & H2). exists j. rewrite Hus. auto.
      * destruct (mv_covers _ V j x Hj' Hx Hj0) as (j' & H1 & H2 & H3). exists j'. rewrite Hus. auto.
    + intros j j' Hjj. rewrite !Hus. intros [->|Hj']; [right; by apply Hpre|]. right. by eapply (mv_prefix _ V).
Qed.

Lemma slot_state (h : gmap Z vnode) b ic (ms : list vfs_mountpoint) r t i mp1 mp2 :
  set_mount i mp2 (Vfs.Vfs h b ic (<[i := mp1]> ms) r t) = Vfs.Vfs h b ic (<[i := mp2]> ms) r t.
Proof. unfold set_mount, with_mounts. cbn. by rewrite list_insert_insert_eq. Qed.

(** [mount_slot]: the slot is filled with a root that is held, or stays unused. *)
Lemma mount_slot_spec s U i mp ops bdev over :
  vfs_inv s U → free_at s i mp → fs_laws ops → fs_dev bdev → (∀ j, (j < i)%nat → used_slot s j) →
  (i ≠ 0%nat → ∃ j ino, over = Some (j, ino) ∧ (j < i)%nat) →
  wp (mount_slot i ops bdev over s) (λ '(err, s'),
    (err ≠ 0 → vfs_inv s' U ∧ ∃ mp', mp_used mp' = false ∧ mounts s' = <[i := mp']> (mounts s)) ∧
    (err = 0 → ∀ rm, (rm = true ↔ i = 0%nat ∨ root_mounted s = true) →
       vfs_inv (with_root_mounted rm s') U ∧
       ∃ p, mounts s' = <[i := Mountpoint true (fst <$> over) (default 0 (snd <$> over)) (Some bdev) (Some ops) p]> (mounts s)) ∧
    root_mounted s' = root_mounted s).
Proof.
  intros I F L Hbd Hpre Hov. pose proof F as [Fa Fu]. unfold mount_slot. rewrite Fa. cbn [deref mbind outcome_bind].
  set (mp1 := Mountpoint (mp_used mp) _ _ _ _ _). change (v_fs (set_mount i mp1 s)) with (v_fs s).
  destruct (law_mount _ L (v_fs s) i bdev (ci_fs _ _ (vi_cache _ _ I)) Hbd) as (err & o & t & E & M & Hr).
  rewrite E. cbn [mbind outcome_bind]. destruct (Z.eqb_spec err 0) as [->|He]; cbn [negb].
  - destruct (Hr eq_refl) as (b & -> & Hb). cbn [deref mbind outcome_bind]. set (s1 := with_fs t (set_mount i mp1 s)).
    pose proof (cache_mounting s _ i mp mp1 t (root_mounted s) (vi_cache _ _ I) F M) as I1. change (with_root_mounted _ _) with s1 in I1.
    destruct (canonicalize_cases s1 _ i b I1) as [(q & n & Hn & [K _] & _)|(head & Hh & _ & Ec)].
    { exfalso. apply (mounted_ne _ _ _ i F); [|done]. pose proof (ci_mnt _ _ (vi_cache _ _ I) q n Hn) as X. by rewrite K in X. }
    cbn [new_node snd] in Ec. unfold new_node. rewrite Ec. cbn [mbind outcome_bind]. apply wp_Ok.
    split_and!; [done| |done]. intros _ rm Hrm. change (mounts s1) with (<[i := mp1]> (mounts s)). rewrite slot_state. split; [|by eexists].
    eapply (mount_done s U i mp _ t b head rm ops); try done. cbn. intros Hi. destruct (Hov Hi) as (j & ino & -> & Hj). eauto.
  - apply wp_Ok. split_and!; [|done|done]. intros _. split; [|by exists mp1]. by eapply mount_failed.
Qed.

(** ** [vfs_mount] *)

Context (minix_ops fat32_ops : vfs_ops T node) (bdevs : list block_desc).

(** No slot is free. *)
Definition table_full s : bool := bool_decide (Forall (λ mp, mp_used mp = true) (drop 1 (mounts s))).

(** What [vfs_mount] refuses before the file system is asked. *)
Definition mount_error s (bdev_name fstype target : list Z) : option Z :=
  if bool_decide (is_Some (ops_for_fstype minix_ops fat32_ops fstype) ∧ is_Some (block_lookup bdev_name bdevs)) then
    if decide (target = [slash]) then if root_mounted s then Some (- EBUSY) else None else
    match lookup_path s (resolve (space s) target) with
    | inl e => Some e
    | inr k =>
        if negb (is_directory (space s) k) then Some (- ENOTDIR) else
        if table_full s then Some (- ENOSPC) else None
    end
  else Some (- ENODEV).

(** Slot [j] covers [k]; every other directory is as before. *)
Definition covered_by s s' (k : nat * Z) (j : nat) : Prop :=
  ns_under (space s) k.1 k.2 = None ∧ ns_under (space s') k.1 k.2 = Some j ∧
  ∀ m i, (m, i) ≠ k → ns_under (space s') m i = ns_under (space s) m i.

Definition same_table s s' : Prop :=
  root_mounted s' = root_mounted s ∧ ∀ m i, ns_under (space s') m i = ns_under (space s) m i.

Definition mount_result s bdev_name fstype target (err : Z) s' : Prop :=
  match mount_error s bdev_name fstype target with
  | Some e => err = e ∧ e ≠ 0 ∧ same_table s s'
  | None =>
      (err ≠ 0 → same_table s s') ∧
      (err = 0 →
        (target = [slash] ∧ root_mounted s' = true ∧ ∀ m i, ns_under (space s') m i = ns_under (space s) m i) ∨
        (∃ k j, resolve (space s) target = inr k ∧ covered_by s s' k j))
  end.

(** The table around an open and a close. *)
Lemma evolves_same_table s s' : evolves s s' → same_table s s'.
Proof. intros E. split; [apply E|]. intros m i. cbn. by rewrite (ev_mounts _ _ E). Qed.

Lemma drop_insert_S (l : list vfs_mountpoint) j x : drop 1 (<[S j := x]> l) = <[j := x]> (drop 1 l).
Proof. by destruct l. Qed.

Lemma free_slot_used s j d mp :
  mount_inv s → list_find (λ mp, mp_used mp = false) (drop 1 (mounts s)) = Some (d, mp) →
  free_at s (S d) mp ∧ (used_slot s 0 → ∀ j, (j < S d)%nat → used_slot s j) ∧ (used_slot s j → (j < S d)%nat).
Proof.
  intros V (Hd & Hu & Hmin)%list_find_Some. rewrite lookup_drop in Hd. cbn in Hd.
  split; [by split|]. split.
  - intros H0 [|i] Hi; [done|]. destruct (lookup_lt_is_Some_2 (mounts s) (S i)) as [x Hx].
    { pose proof (lookup_lt_Some _ _ _ Hd). lia. }
    exists x. split; [done|]. destruct (mp_used x) eqn:E; [done|]. exfalso.
    apply (Hmin i x); [by rewrite lookup_drop|lia|done].
  - intros Hj. destruct (decide (j < S d)%nat) as [|Hge]; [done|]. exfalso.
    assert (used_slot s (S d)) as (x & Hx & Hxu).
    { destruct (decide (j = S d)) as [->|]; [done|]. apply (mv_prefix _ V (S d) j); [lia|done]. }
    simplify_eq. congruence.
Qed.

Lemma table_full_find s : table_full s = true ↔ list_find (λ mp, mp_used mp = false) (drop 1 (mounts s)) = None.
Proof.
  unfold table_full. rewrite bool_decide_eq_true, list_find_None. apply Forall_iff.
  intros mp. by destruct (mp_used mp).
Qed.

Hypothesis minix_laws : fs_laws minix_ops.
Hypothesis fat32_laws : fs_laws fat32_ops.
Hypothesis known : Forall (λ d, fs_dev (bd_addr d)) bdevs.

Lemma fsops_laws f ops : ops_for_fstype minix_ops fat32_ops f = Some ops → fs_laws ops.
Proof. unfold ops_for_fstype. repeat case_decide; [by intros [= <-]|by intros [= <-]|done]. Qed.

Lemma under_order s m i j : mount_inv s → ns_under (space s) m i = Some j → (m < j < VFS_MOUNT_MAX)%nat.
Proof. intros V H. destruct (under_later (space s) s m i j V (space_describes _ V) H) as (_ & _ & _ & ?). done. Qed.

Lemma set_unused s U i mp mp' : vfs_inv s U → free_at s i mp → mp_used mp' = false → vfs_inv (set_mount i mp' s) U.
Proof.
  intros I F Hu. apply (mount_failed s U i mp mp' (v_fs s) I F Hu). apply mounts_in_refl, (ci_fs _ _ (vi_cache _ _ I)).
Qed.

(** Mounting the root. *)
Lemma mount_root_spec s U ops bdev :
  vfs_inv s U → fs_laws ops → fs_dev bdev → root_mounted s = false →
  wp (mp ← deref (mounts s !! 0%nat);
      let s := set_mount 0 (Mountpoint (mp_used mp) None 0 (mp_bdev mp) (mp_ops mp) (mp_root mp)) s in
      '(err, s) ← mount_slot 0 ops bdev None s;
      Ok (err, if err =? 0 then with_root_mounted true s else s)) (λ '(err, s'),
    vfs_inv s' U ∧ root_mounted s' = (err =? 0) ∧ drop 1 (mounts s') = drop 1 (mounts s)).
Proof.
  intros I L Hbd Hrm. pose proof (vi_mounts _ _ I) as V.
  destruct (lookup_lt_is_Some_2 (mounts s) 0) as [mp H0]; [rewrite (mv_len _ V); unfold VFS_MOUNT_MAX; lia|].
  assert (Hu : mp_used mp = false).
  { destruct (mp_used mp) eqn:E; [|done]. rewrite <- Hrm. symmetry. apply (mv_root _ V). by exists mp. }
  rewrite H0. cbn [deref mbind outcome_bind]. set (mp1 := Mountpoint (mp_used mp) _ _ _ _ _).
  assert (I1 : vfs_inv (set_mount 0 mp1 s) U) by (by eapply set_unused).
  assert (F1 : free_at (set_mount 0 mp1 s) 0 mp1).
  { split; [|done]. cbn. rewrite list_lookup_insert_eq; [done|]. by eapply lookup_lt_Some. }
  assert (Hd : ∀ (l : list vfs_mountpoint) x, drop 1 (<[0%nat := x]> l) = drop 1 l) by (by intros []).
  eapply wp_bind; [apply (mount_slot_spec _ U 0 mp1 ops bdev None I1 F1 L Hbd); [lia|done]|].
  intros [err s'] (He & Hok & Hr). apply wp_Ok. destruct (Z.eqb_spec err 0) as [->|Hne].
  - destruct (Hok eq_refl true) as [I2 (p & Em)]; [split; auto|]. split_and!; [done|done|]. cbn [with_root_mounted mounts]. rewrite Em. cbn. by rewrite !Hd.
  - destruct (He Hne) as [I2 (mp' & _ & Em)]. split_and!; [done|rewrite Hr; done|]. rewrite Em. cbn. by rewrite !Hd.
Qed.

(** Mounting on the directory [k], which nothing covers. *)
Lemma mount_sub_spec s U ops bdev k :
  vfs_inv s U → fs_laws ops → fs_dev bdev → root_mounted s = true → used_slot s k.1 → ns_under (space s) k.1 k.2 = None →
  wp (match free_slot 1 0 k.1 k.2 (drop 1 (mounts s)) with
      | None => Ok (- EBUSY, s)
      | Some O => Ok (- ENOSPC, s)
      | Some slot => mount_slot slot ops bdev (Some (k.1, k.2)) s
      end) (λ '(err, s'),
    vfs_inv s' U ∧
    (table_full s = true → err = - ENOSPC) ∧
    (err ≠ 0 → same_table s s') ∧ (err = 0 → ∃ j, covered_by s s' k j)).
Proof.
  intros I L Hbd Hrm Hk Hnone. pose proof (vi_mounts _ _ I) as V. pose proof (proj1 (mv_root _ V) Hrm) as H0.
  rewrite free_slot_spec by done. cbn [decide].
  pose proof (table_full_find s) as Hfull.
  destruct (list_find (λ mp, mp_used mp = false) (drop 1 (mounts s))) as [[d mp]|] eqn:Ef.
  - destruct (free_slot_used s k.1 d mp V Ef) as (F & Hpre & Hlt). cbn [Nat.add].
    eapply wp_mono; [eapply (mount_slot_spec s U (S d) mp); [done|done|done|done|by apply Hpre|]|].
    { intros _. exists k.1, k.2. split; [done|]. by apply Hlt. }
    destruct F as [Fa Fu]. assert (Fd : drop 1 (mounts s) !! d = Some mp) by (by rewrite lookup_drop).
    intros [err s'] (He & Hok & Hr).
    assert (I' : vfs_inv s' U).
    { destruct (decide (err = 0)) as [E0|E0]; [|by apply He]. destruct (Hok E0 true) as [I2 _]; [rewrite Hrm; split; auto|].
      assert (E : with_root_mounted true s' = s') by (rewrite <- Hrm, <- Hr; by destruct s'). by rewrite E in I2. }
    split_and!; [done|by intros X%Hfull| |].
    + intros Hne. destruct (He Hne) as [_ (mp' & Hu' & Em)]. split; [done|]. intros m i. cbn. rewrite Em, drop_insert_S.
      eapply find_mount_unused; [done|done|]. unfold covers. by rewrite Hu'.
    + intros ->. destruct (Hok eq_refl true) as [_ (p & Em)]; [rewrite Hrm; split; auto|]. exists (S d).
      split_and!; [done| |]; cbn; rewrite Em, drop_insert_S.
      * rewrite (find_mount_insert _ _ _ _ _ mp) by done. rewrite find_mount_take by done.
        rewrite (proj2 (covers_spec _ _ _)) by done. done.
      * intros m i Hmi. eapply find_mount_unused; [done|done|]. apply not_true_iff_false. rewrite covers_spec. cbn.
        intros (_ & [= E1] & E2). apply Hmi. destruct k. cbn in *. congruence.
  - apply wp_Ok. split_and!; [done|done|by split|done].
Qed.

Lemma same_table_trans s1 s2 s3 : same_table s1 s2 → same_table s2 s3 → same_table s1 s3.
Proof. intros [A1 A2] [B1 B2]. split; [congruence|]. intros. by rewrite B2. Qed.

Lemma same_table_covered s1 s2 s3 k j : same_table s1 s2 → covered_by s2 s3 k j → covered_by s1 s3 k j.
Proof. intros [_ A] (B1 & B2 & B3). split_and!; [by rewrite <- A|done|]. intros m i H. by rewrite B3, A. Qed.

Lemma table_full_evolves s s' : evolves s s' → table_full s' = table_full s.
Proof. intros E. unfold table_full. by rewrite (ev_mounts _ _ E). Qed.

(** Resolving the target, releasing it, and mounting there. *)
Lemma mount_target_spec s U ops bdev target :
  vfs_inv s U → held_room U → fs_laws ops → fs_dev bdev → root_mounted s = true →
  wp ('(err, tdir, s) ← vfs_open target s;
      if negb (err =? 0) then Ok (err, s) else
      n ← get_node tdir s;
      if negb (n_is_dir (vn_node n)) then s ← vfs_close tdir s; Ok (- ENOTDIR, s) else
      s ← vfs_close tdir s;
      match free_slot 1 0 (vn_mnt n) (n_ino (vn_node n)) (drop 1 (mounts s)) with
      | None => Ok (- EBUSY, s)
      | Some O => Ok (- ENOSPC, s)
      | Some slot => mount_slot slot ops bdev (Some (vn_mnt n, n_ino (vn_node n))) s
      end) (λ '(err, s'),
    vfs_inv s' U ∧
    match resolve (space s) target with
    | inl e => err = e ∧ e ≠ 0 ∧ same_table s s'
    | inr k =>
        (is_directory (space s) k = false → err = - ENOTDIR) ∧
        (is_directory (space s) k = true → table_full s = true → err = - ENOSPC) ∧
        (err ≠ 0 → same_table s s') ∧ (err = 0 → ∃ j, covered_by s s' k j)
    end).
Proof.
  intros I Hr L Hbd Hrm. pose proof (vi_mounts _ _ I) as V. pose proof (space_describes _ V) as D.
  eapply wp_bind; [by eapply (vfs_open_spec (space s))|]. unfold lookup_path. rewrite Hrm.
  intros [[err p] s1] [E1 H1]. destruct (resolve (space s) target) as [e|k] eqn:Hres.
  { destruct H1 as (-> & He & I1 & D1). rewrite (proj2 (Z.eqb_neq e 0)) by done. apply wp_Ok.
    split_and!; [done|done|done|]. by apply evolves_same_table. }
  destruct H1 as [-> A1]. cbn [Z.eqb negb]. pose proof A1 as [I1 D1 P1].
  destruct (points_node _ _ _ P1) as (n & Hg & Hn & Hm & Hi). destruct (inode_attr _ _ _ _ _ _ A1 Hn) as [Ed _].
  rewrite Hg. cbn [mbind outcome_bind]. rewrite Ed. unfold vfs_close.
  destruct (is_directory (space s) k) eqn:Ek; cbn [negb].
  - assert (Hus : used_slot s k.1).
    { destruct (ci_mnt _ _ (vi_cache _ _ I1) _ _ Hn) as (mp & ops' & H2 & H3 & _). rewrite Hm, (ev_mounts _ _ E1) in H2. by exists mp. }
    eapply wp_bind; [by eapply put_held|]. intros s2 (E2 & I2 & D2).
    assert (E12 : evolves s s2) by (by etrans). pose proof (evolves_same_table _ _ E12) as ST. rewrite Hm, Hi.
    eapply wp_mono.
    { eapply (mount_sub_spec s2 U); [done|done|done| | |].
      - by rewrite (ev_root _ _ E12).
      - unfold used_slot. by rewrite (ev_mounts _ _ E12).
      - rewrite (proj2 ST). eapply resolve_top; [|done]. intros m i j. by apply under_order. }
    intros [err s'] (I' & H1 & H2 & H3). rewrite (table_full_evolves _ _ E12) in H1. split_and!; [done|done|done| |].
    + intros Hne. eapply same_table_trans; [done|]. by apply H2.
    + intros E0. destruct (H3 E0) as [j Hj]. exists j. by eapply same_table_covered.
  - eapply wp_bind; [by eapply put_held|]. intros s2 (E2 & I2 & D2). apply wp_Ok.
    split_and!; [done|done|done| |done]. intros _. apply evolves_same_table. by etrans.
Qed.

(** What [vfs_mount] does in every case. *)
Lemma vfs_mount_spec s U bdev_name fstype target :
  vfs_inv s U → held_room U →
  wp (vfs_mount minix_ops fat32_ops bdevs bdev_name fstype target s) (λ '(err, s'),
    vfs_inv s' U ∧ mount_result s bdev_name fstype target err s').
Proof.
  intros I Hr. unfold vfs_mount, mount_result, mount_error.
  destruct (ops_for_fstype minix_ops fat32_ops fstype) as [ops|] eqn:Eo.
  2: { rewrite bool_decide_eq_false_2 by (intros [[? ?] _]; done). by apply wp_Ok. }
  destruct (block_lookup bdev_name bdevs) as [d|] eqn:Ed.
  2: { rewrite bool_decide_eq_false_2 by (intros [_ [? ?]]; done). by apply wp_Ok. }
  rewrite bool_decide_eq_true_2 by eauto. pose proof (fsops_laws _ _ Eo) as L.
  assert (Hbd : fs_dev (bd_addr d)) by (apply block_lookup_some in Ed as [Ed _]; by apply (proj1 (Forall_forall _ _) known)).
  destruct (decide (target = [slash])) as [->|Ht].
  - destruct (root_mounted s) eqn:Hrm; [by apply wp_Ok|].
    eapply wp_mono; [by apply mount_root_spec|]. intros [err s'] (I' & Hr' & Hd). split; [done|].
    assert (Hn : ∀ m i, ns_under (space s') m i = ns_under (space s) m i) by (intros m i; cbn; by rewrite Hd). split.
    + intros Hne. split; [|done]. by rewrite Hr', Hrm, (proj2 (Z.eqb_neq _ _)).
    + intros ->. left. done.
  - unfold lookup_path. destruct (root_mounted s) eqn:Hrm; cbn [negb]; [|by apply wp_Ok].
    eapply wp_mono; [by eapply mount_target_spec|]. intros [err s'] [I' H]. split; [done|].
    destruct (resolve (space s) target) as [e|k] eqn:Hres; [done|]. destruct H as (H1 & H2 & H3 & H4).
    destruct (is_directory (space s) k) eqn:Ek; cbn [negb].
    + destruct (table_full s) eqn:Ef.
      * rewrite (H2 eq_refl eq_refl) in *. split_and!; [done|done|by apply H3].
      * split; [done|]. intros E0. right. destruct (H4 E0) as [j Hj]. eauto.
    + rewrite (H1 eq_refl) in *. split_and!; [done|done|by apply H3].
Qed.
End Mount.
