(* ===== verification/VfsSystem.v ===== *)
(** * The VFS as a whole: every call returns and keeps the invariant

    A run of the system is a sequence of calls by holders of references. *)

From stdpp Require Import gmultiset.
From S2P Require Import Prelude Block Vfs VfsPath VfsSpec VfsWalk VfsMount.

Section System.
Context {T node : Type} `{NF : inode_fields node} `{FV : fs_view T node} `{MA : mnt_addresses}.
Notation vfs := (vfs T node).
Notation vnode := (vnode node).
Implicit Types (s : vfs) (n : vnode) (U R : gmultiset Z).

(** ** Calls on an inode *)

Lemma mount_inv_keep s s' :
  mount_inv s → mounts s' = mounts s → root_mounted s' = root_mounted s →
  (∀ p n, v_heap s !! p = Some n → ∃ n', v_heap s' !! p = Some n' ∧ vn_mnt n' = vn_mnt n) → mount_inv s'.
Proof.
  intros V Em Er H. split; unfold used_slot; rewrite ?Em, ?Er; try apply V.
  - intros i mp Hi Hu. destruct (mv_mounted _ V i mp Hi Hu) as (mp' & ops & X). exists mp', ops. by rewrite Em.
  - intros i mp Hi Hu. destruct (mv_obj _ V i mp Hi Hu) as (n & Hn & Hm). destruct (H _ _ Hn) as (n' & ? & ?). exists n'. split; congruence.
Qed.

Lemma roots_eq s s' : mounts s' = mounts s → roots s' = roots s.
Proof. unfold roots. by intros ->. Qed.

(** The body of one object and the file systems change. *)
Lemma cache_body s s' R :
  cache_inv s R → icache s' = icache s → v_brk s' = v_brk s → mounts s' = mounts s → fs_inv (v_fs s') →
  (∀ p, vn_ref <$> v_heap s' !! p = vn_ref <$> v_heap s !! p) → (∀ p, vn_next <$> v_heap s' !! p = vn_next <$> v_heap s !! p) →
  (∀ p n n', v_heap s !! p = Some n → v_heap s' !! p = Some n' → same_key n' n ∧ fs_live (v_fs s') (vn_mnt n') (vn_node n')) →
  cache_inv s' R.
Proof.
  intros I Ei Eb Em Hf Hr Hn H.
  assert (Hsome : ∀ p, is_Some (v_heap s !! p) ↔ is_Some (v_heap s' !! p)).
  { intros p. specialize (Hr p). destruct (v_heap s !! p), (v_heap s' !! p); done. }
  apply (vcache_update s _ R); [done|done|lia| |done| |by apply Hsome|intros p Hp; by apply Hsome, (ci_held _ _ I)].
  - intros m (mp & ops & X). exists mp, ops. by rewrite Em.
  - intros p n' Hp'. destruct (proj2 (Hsome p)) as [n Hp]; [eauto|]. exists n. destruct (ci_ref _ _ I _ _ Hp) as [Hr1 Hr2].
    specialize (Hr p). specialize (Hn p). rewrite Hp, Hp' in Hr, Hn. injection Hr as Hr. injection Hn as Hn.
    destruct (H _ _ _ Hp Hp'). rewrite Hr. done.
Qed.

Lemma node_changed s U p n b t :
  vfs_inv s U → v_heap s !! p = Some n → changes (v_fs s) t (vn_mnt n) (vn_node n) b →
  vfs_inv (set_node p (set_body b n) (with_fs t s)) U.
Proof.
  intros [I V] Hn C. set (s' := set_node _ _ _).
  assert (Hl : ∀ x m', v_heap s' !! x = Some m' → (x = p ∧ m' = set_body b n) ∨ (x ≠ p ∧ v_heap s !! x = Some m')).
  { intros x m'. cbn. rewrite lookup_insert_Some. naive_solver. }
  split.
  - rewrite (roots_eq s s') by done.
    assert (Hopt : ∀ {A} (f : vnode → A), f (set_body b n) = f n → ∀ x, f <$> v_heap s' !! x = f <$> v_heap s !! x).
    { intros A f Hf x. cbn. destruct (decide (x = p)) as [->|Hx].
      - rewrite lookup_insert_eq, Hn. cbn. by rewrite Hf.
      - by rewrite lookup_insert_ne by done. }
    apply (cache_body s s'); [done|done|done|done|apply C|by apply Hopt|by apply Hopt|].
    intros x m m' Hm [[-> ->]|[Hx Hm']]%Hl.
    + simplify_eq. split; [split; [done|apply C]|apply C].
    + simplify_eq. split; [done|]. cbn. apply C; [|by apply (ci_live _ _ I x)].
      intros [= K1 K2]. apply Hx. by apply (ci_one _ _ I x p m n).
  - apply (mount_inv_keep s); [done|done|done|]. intros x m Hm. cbn. destruct (decide (x = p)) as [->|Hx].
    + rewrite lookup_insert_eq. simplify_eq. by eexists.
    + rewrite lookup_insert_ne by done. eauto.
Qed.

Lemma fs_quiet s U t : vfs_inv s U → quiet (v_fs s) t → vfs_inv (with_fs t s) U.
Proof.
  intros [I V] Q. destruct (cache_quiet _ _ _ I Q) as [I' _]. split; [done|].
  apply (mount_inv_keep s); [done|done|done|eauto].
Qed.

(** An object that is held, and its file system. *)
Lemma held_inode s U p :
  vfs_inv s U → p ∈ U →
  ∃ n ops, p ≠ 0 ∧ get_node p s = Ok n ∧ v_heap s !! p = Some n ∧ get_ops (vn_mnt n) s = Ok ops ∧ fs_laws ops ∧
    fs_inv (v_fs s) ∧ fs_live (v_fs s) (vn_mnt n) (vn_node n).
Proof.
  intros [I V] Hp. destruct (ci_held _ _ I p) as [n Hn]; [multiset_solver|].
  destruct (mounted_get_ops _ _ (ci_mnt _ _ I _ _ Hn)) as (ops & Ho & L). exists n, ops.
  pose proof (ci_addr _ _ I _ _ Hn). unfold get_node. rewrite Hn.
  split_and!; [lia|done|done|done|done|apply I|by apply (ci_live _ _ I p)].
Qed.

Ltac on_held I Hp n ops L Hfi Hli :=
  let H0 := fresh in let Hg := fresh in let Hn := fresh "Hn" in let Ho := fresh in
  destruct (held_inode _ _ _ I Hp) as (n & ops & H0 & Hg & Hn & Ho & L & Hfi & Hli);
  rewrite (proj2 (Z.eqb_neq _ 0) H0), ?Hg; cbn [mbind outcome_bind]; rewrite ?Ho; cbn [mbind outcome_bind].

(** A guarded call whose operation changes the inode. *)
Lemma on_node_spec {A} s U p n (f : nat → node → T → outcome (A * node * T)) :
  vfs_inv s U → v_heap s !! p = Some n →
  (∃ r b t, f (vn_mnt n) (vn_node n) (v_fs s) = Ok (r, b, t) ∧ changes (v_fs s) t (vn_mnt n) (vn_node n) b) →
  wp (on_node p f s) (λ '(_, s'), vfs_inv s' U).
Proof.
  intros I Hn (r & b & t & E & C). unfold on_node, get_node. rewrite Hn. cbn [deref mbind outcome_bind]. rewrite E.
  cbn [mbind outcome_bind]. apply wp_Ok. by apply node_changed.
Qed.

Lemma vfs_read_spec s U p off len : vfs_inv s U → p ∈ U → 0 <= off → 0 <= len → wp (vfs_read p off len s) (λ '(_, _, s'), vfs_inv s' U).
Proof.
  intros I Hp Ho Hlen. unfold vfs_read. on_held I Hp n ops L Hfi Hli. destruct (op_read ops) as [f|] eqn:Ef; [|by apply wp_Ok].
  destruct (n_is_dir (vn_node n)); [by apply wp_Ok|]. destruct (has _ _); cbn [negb]; [|by apply wp_Ok].
  destruct (law_read _ L f _ _ _ off len Ef Hfi Hli Ho Hlen) as ([r bytes] & t & -> & Q). cbn [mbind outcome_bind]. apply wp_Ok. by apply fs_quiet.
Qed.

Lemma vfs_readdir_spec s U p i : vfs_inv s U → p ∈ U → wp (vfs_readdir p i s) (λ '(_, _, s'), vfs_inv s' U).
Proof.
  intros I Hp. unfold vfs_readdir. on_held I Hp n ops L Hfi Hli. destruct (op_readdir ops) as [f|] eqn:Ef; [|by apply wp_Ok].
  destruct (n_is_dir (vn_node n)); cbn [negb]; [|by apply wp_Ok].
  destruct (law_readdir _ L f _ _ _ i Ef Hfi Hli) as ([r de] & t & -> & Q). cbn [mbind outcome_bind]. apply wp_Ok. by apply fs_quiet.
Qed.

Lemma vfs_write_spec s U p off len buf : vfs_inv s U → p ∈ U → wp (vfs_write p off len buf s) (λ '(_, s'), vfs_inv s' U).
Proof.
  intros I Hp. unfold vfs_write. on_held I Hp n ops L Hfi Hli. destruct (op_write ops) as [f|] eqn:Ef; [|by apply wp_Ok].
  destruct (n_is_dir (vn_node n)); [by apply wp_Ok|]. destruct (has _ _); cbn [negb]; [|by apply wp_Ok].
  eapply on_node_spec; [done|done|]. by apply (law_write _ L).
Qed.

Lemma vfs_truncate_spec s U p size : vfs_inv s U → p ∈ U → wp (vfs_truncate p size s) (λ '(_, s'), vfs_inv s' U).
Proof.
  intros I Hp. unfold vfs_truncate. on_held I Hp n ops L Hfi Hli. destruct (op_truncate ops) as [f|] eqn:Ef; [|by apply wp_Ok].
  destruct (n_is_dir (vn_node n)); [by apply wp_Ok|]. eapply on_node_spec; [done|done|]. by apply (law_truncate _ L).
Qed.

Lemma vfs_fsync_spec s U p : vfs_inv s U → p ∈ U → wp (vfs_fsync p s) (λ '(_, s'), vfs_inv s' U).
Proof.
  intros I Hp. unfold vfs_fsync. on_held I Hp n ops L Hfi Hli. destruct (op_fsync ops) as [f|] eqn:Ef; [|by apply wp_Ok].
  eapply on_node_spec; [done|done|]. by apply (law_fsync _ L).
Qed.

(** ** Calls on names *)

Lemma close_held s U p : vfs_inv s (U ⊎ {[+ p +]}) → wp (vfs_close p s) (λ s', vfs_inv s' U).
Proof.
  intros I. eapply wp_mono; [apply (put_held (space s)); [done|apply space_describes, I]|]. by intros s' (_ & ? & _).
Qed.

(** The directory of a path, held. *)
Lemma parent_held s U path :
  vfs_inv s U → held_room U →
  wp (vfs_parent path VFS_NAME_MAX s) (λ '(err, dir, name, s'),
    if err =? 0 then vfs_inv s' (U ⊎ {[+ dir +]}) else vfs_inv s' U).
Proof.
  intros I Hr. eapply wp_mono; [apply (vfs_parent_spec (space s) s U path I); [apply space_describes, I|done]|].
  intros [[[err dir] name] s'] [E H]. destruct (lookup_path _ _) as [e|[k c]].
  - destruct H as (-> & He & I' & _). by rewrite (proj2 (Z.eqb_neq e 0)).
  - destruct H as (-> & _ & A). apply A.
Qed.

Lemma at_parent_spec s U path f :
  vfs_inv s U → held_room U →
  (∀ ops g t m d name, fs_laws ops → f ops = Some g → fs_inv t → fs_live t m d →
     ∃ r d' t', g m d name t = Ok (r, d', t') ∧ changes t t' m d d') →
  wp (at_parent path f s) (λ '(_, s'), vfs_inv s' U).
Proof.
  intros I Hr Hf. unfold at_parent. eapply wp_bind; [by apply parent_held|]. intros [[[err dir] name] s1] I1.
  destruct (err =? 0); cbn [negb]; [|by apply wp_Ok].
  destruct (held_inode s1 _ dir I1) as (n & ops & _ & Hg & Hn & Ho & L & Hfi & Hli); [multiset_solver|].
  rewrite Hg. cbn [mbind outcome_bind]. rewrite Ho. cbn [mbind outcome_bind].
  eapply wp_bind with (P := λ '(_, s'), vfs_inv s' (U ⊎ {[+ dir +]})).
  - destruct (f ops) as [g|] eqn:Eg; [|by apply wp_Ok]. eapply on_node_spec; [done|done|]. by eapply Hf.
  - intros [err' s2] I2. eapply wp_bind; [by apply close_held|]. intros s3 I3. by apply wp_Ok.
Qed.

Lemma size_insert_root s U p : mount_inv s → held_room U → Z.of_nat (size (roots s ⊎ (U ⊎ {[+ p +]}))) + 1 < 2 ^ 32.
Proof.
  intros V Hr. pose proof (size_roots _ V) as H. unfold VFS_MOUNT_MAX, held_room in *.
  rewrite !gmultiset_size_disj_union, gmultiset_size_singleton. lia.
Qed.

Lemma vfs_create_spec s U path mode :
  vfs_inv s U → held_room U →
  wp (vfs_create path mode s) (λ '(err, p, s'), if err =? 0 then vfs_inv s' (U ⊎ {[+ p +]}) else vfs_inv s' U).
Proof.
  intros I Hr. unfold vfs_create. eapply wp_bind; [by apply parent_held|]. intros [[[err dir] name] s1] I1.
  destruct (err =? 0) eqn:Ee; cbn [negb]; [|apply wp_Ok; by rewrite Ee].
  destruct (held_inode s1 _ dir I1) as (n & ops & _ & Hg & Hn & Ho & L & Hfi & Hli); [multiset_solver|].
  rewrite Hg. cbn [mbind outcome_bind]. rewrite Ho. cbn [mbind outcome_bind].
  destruct (op_create ops) as [f|] eqn:Ef.
  2: { eapply wp_bind; [by apply close_held|]. intros s2 I2. by apply wp_Ok. }
  destruct (law_create _ L f _ _ _ name mode Ef Hfi Hli) as (err' & o & d' & t & -> & C & Hb). cbn [mbind outcome_bind].
  pose proof (node_changed _ _ _ _ _ _ I1 Hn C) as I2. set (s2 := set_node _ _ _) in *.
  destruct (Z.eqb_spec err' 0) as [->|He]; cbn [negb].
  - destruct (Hb eq_refl) as (b & -> & Hl). cbn [deref mbind outcome_bind].
    pose proof (intern_spec s2 (roots s2 ⊎ (U ⊎ {[+ dir +]})) (vn_mnt n) b) as W. unfold new_node in *. cbn [fst snd] in W.
    eapply wp_bind.
    { apply W; [apply I2| |done|apply size_insert_root; [apply I2|done]].
      apply (ci_mnt _ _ (vi_cache _ _ I1) dir n Hn). }
    intros [p s3] (I3 & P3 & E3). rewrite <- gmultiset_disj_union_assoc in I3.
    destruct (vfs_inv_evolves (space s2) s2 s3 _ _ I2 (space_describes _ (vi_mounts _ _ I2)) E3 I3) as [I4 _].
    assert (E : U ⊎ {[+ dir +]} ⊎ {[+ p +]} = U ⊎ {[+ p +]} ⊎ {[+ dir +]}) by multiset_solver. rewrite E in I4.
    eapply wp_bind; [by apply close_held|]. intros s4 I5. by apply wp_Ok.
  - cbn [mbind outcome_bind]. eapply wp_bind; [by apply close_held|]. intros s3 I3. apply wp_Ok. by rewrite (proj2 (Z.eqb_neq _ _)).
Qed.

(** Two objects of a mount change at once. *)
Lemma two_changed s U p q n m b y t :
  vfs_inv s U → v_heap s !! p = Some n → v_heap s !! q = Some m → p ≠ q → vn_mnt n = vn_mnt m →
  fs_inv t → n_ino b = n_ino (vn_node n) → fs_live t (vn_mnt n) b → n_ino y = n_ino (vn_node m) → fs_live t (vn_mnt n) y →
  (∀ m' x, (m', n_ino x) ≠ (vn_mnt n, n_ino (vn_node n)) → (m', n_ino x) ≠ (vn_mnt n, n_ino (vn_node m)) →
     fs_live (v_fs s) m' x → fs_live t m' x) →
  vfs_inv (set_node q (set_body y m) (set_node p (set_body b n) (with_fs t s))) U.
Proof.
  intros [I V] Hp Hq Hpq Hmnt Hfi Hb Hbl Hy Hyl Hoth. set (s' := set_node q _ _).
  assert (Hx : ∀ x, v_heap s' !! x = if decide (x = q) then Some (set_body y m) else if decide (x = p) then Some (set_body b n) else v_heap s !! x).
  { intros x. cbn. repeat case_decide; subst; rewrite ?lookup_insert_eq, ?lookup_insert_ne, ?lookup_insert_eq by done; done. }
  assert (Hopt : ∀ {A} (f : vnode → A), f (set_body b n) = f n → f (set_body y m) = f m → ∀ x, f <$> v_heap s' !! x = f <$> v_heap s !! x).
  { intros A f H1 H2 x. rewrite Hx. repeat case_decide; subst; rewrite ?Hp, ?Hq; cbn; congruence. }
  split.
  - rewrite (roots_eq s s') by done. apply (cache_body s s'); [done|done|done|done|done|by apply Hopt|by apply Hopt|].
    intros x m0 m' Hm0. rewrite Hx. repeat case_decide; subst; intros Hm'.
    + injection Hm' as <-. rewrite Hq in Hm0. injection Hm0 as <-. split; [by split|]. cbn. by rewrite <- Hmnt.
    + injection Hm' as <-. rewrite Hp in Hm0. injection Hm0 as <-. split; [by split|done].
    + rewrite Hm0 in Hm'. injection Hm' as <-. split; [done|]. apply Hoth; [| |by apply (ci_live _ _ I x)].
      * intros [= K1 K2]. apply (ci_one _ _ I x p m0 n) in Hm0; done.
      * intros [= K1 K2]. apply (ci_one _ _ I x q m0 m) in Hm0; [done|done|]. split; congruence.
  - apply (mount_inv_keep s); [done|done|done|]. intros x m0 Hm0. rewrite Hx. repeat case_decide; subst; eexists; (split; [done|]); cbn; congruence.
Qed.

Lemma close_two s U p q (err : Z) :
  vfs_inv s (U ⊎ {[+ p +]} ⊎ {[+ q +]}) →
  wp (s ← vfs_close q s; s ← vfs_close p s; Ok (err, s)) (λ '(_, s'), vfs_inv s' U).
Proof.
  intros I. eapply wp_bind; [exact (close_held s _ q I)|]. intros s1 I1. eapply wp_bind; [exact (close_held s1 _ p I1)|].
  intros s2 I2. by apply wp_Ok.
Qed.

Lemma vfs_rename_spec s U old new :
  vfs_inv s U → Z.of_nat (size U) + 17 < 2 ^ 32 → wp (vfs_rename old new s) (λ '(_, s'), vfs_inv s' U).
Proof.
  intros I Hr. unfold vfs_rename. eapply wp_bind; [apply parent_held; [done|unfold held_room; lia]|].
  intros [[[err od] on] s1] I1. destruct (err =? 0); cbn [negb]; [|by apply wp_Ok].
  eapply wp_bind; [apply parent_held; [done|unfold held_room; rewrite gmultiset_size_disj_union, gmultiset_size_singleton; lia]|].
  intros [[[err2 nd] nn] s2] I2. destruct (err2 =? 0); cbn [negb].
  2: { eapply wp_bind; [by apply close_held|]. intros s3 I3. by apply wp_Ok. }
  destruct (held_inode s2 _ od I2) as (o & ops & _ & Hg & Ho & Hops & L & Hfi & Hli); [multiset_solver|].
  destruct (held_inode s2 _ nd I2) as (n & ops' & _ & Hg' & Hn & _ & _ & _ & Hli'); [multiset_solver|].
  rewrite Hg, Hg'. cbn [mbind outcome_bind]. rewrite Hops. cbn [mbind outcome_bind].
  eapply wp_bind with (P := λ '(_, s'), vfs_inv s' (U ⊎ {[+ od +]} ⊎ {[+ nd +]})).
  2: { intros [err3 s3] I3. by apply close_two. }
  case_bool_decide as Hm; cbn [negb]; [|by apply wp_Ok].
  destruct (op_rename ops) as [f|] eqn:Ef; [|by apply wp_Ok].
  destruct (Z.eqb_spec od nd) as [->|Hne].
  - destruct (law_rename _ L f _ _ _ on None nn Ef Hfi Hli) as (r & d' & e' & t & -> & T1 & T2 & T3 & T4 & T5); [done|].
    destruct e'; [done|]. cbn [mbind outcome_bind]. apply wp_Ok. apply node_changed; [done|done|]. split; try done.
    intros m' b H1 H2. by apply T5.
  - assert (Hino : n_ino (vn_node n) ≠ n_ino (vn_node o)).
    { intros E. apply Hne. by apply (ci_one _ _ (vi_cache _ _ I2) od nd o n). }
    destruct (law_rename _ L f _ _ _ on (Some (vn_node n)) nn Ef Hfi Hli) as (r & d' & e' & t & -> & T1 & T2 & T3 & T4 & T5).
    { intros e' [= <-]. rewrite Hm. done. }
    destruct e' as [y|]; [|done]. cbn [mbind outcome_bind]. apply wp_Ok.
    eapply two_changed; try done; [apply T4|apply T4|]. intros m' x H1 H2. apply T5; [done|]. by intros x' [= <-].
Qed.

(** ** Runs *)

Inductive vfs_call :=
| CMount (bdev_name fstype target : list Z)
| COpen (path : list Z)
| CClose (p : Z)
| CRead (p offset len : Z)
| CWrite (p offset len : Z) (buf : list Z)
| CTruncate (p size : Z)
| CFsync (p : Z)
| CReaddir (p index : Z)
| CCreate (path : list Z) (mode : Z)
| CUnlink (path : list Z)
| CMkdir (path : list Z) (mode : Z)
| CRmdir (path : list Z)
| CRename (old_path new_path : list Z).

Context (minix_ops fat32_ops : vfs_ops T node) (bdevs : list block_desc).
Hypothesis minix_laws : fs_laws minix_ops.
Hypothesis fat32_laws : fs_laws fat32_ops.
Hypothesis known : Forall (λ d, fs_dev (bd_addr d)) bdevs.

(** A call, and the references held after it. *)
Definition run_call (c : vfs_call) (s : vfs) (U : gmultiset Z) : outcome (Z * vfs * gmultiset Z) :=
  match c with
  | CMount b f t => '(err, s) ← vfs_mount minix_ops fat32_ops bdevs b f t s; Ok (err, s, U)
  | COpen path => '(err, p, s) ← vfs_open path s; Ok (err, s, if err =? 0 then U ⊎ {[+ p +]} else U)
  | CClose p => s ← vfs_close p s; Ok (0, s, U ∖ {[+ p +]})
  | CRead p off len => '(r, _, s) ← vfs_read p off len s; Ok (r, s, U)
  | CWrite p off len buf => '(r, s) ← vfs_write p off len buf s; Ok (r, s, U)
  | CTruncate p size => '(r, s) ← vfs_truncate p size s; Ok (r, s, U)
  | CFsync p => '(r, s) ← vfs_fsync p s; Ok (r, s, U)
  | CReaddir p i => '(r, _, s) ← vfs_readdir p i s; Ok (r, s, U)
  | CCreate path mode => '(err, p, s) ← vfs_create path mode s; Ok (err, s, if err =? 0 then U ⊎ {[+ p +]} else U)
  | CUnlink path => '(r, s) ← vfs_unlink path s; Ok (r, s, U)
  | CMkdir path mode => '(r, s) ← vfs_mkdir path mode s; Ok (r, s, U)
  | CRmdir path => '(r, s) ← vfs_rmdir path s; Ok (r, s, U)
  | CRename a b => '(r, s) ← vfs_rename a b s; Ok (r, s, U)
  end.

(** A caller uses the inodes it holds, offsets and lengths are unsigned, and the counters have room. *)
Definition may_call (U : gmultiset Z) (c : vfs_call) : Prop :=
  Z.of_nat (size U) + 17 < 2 ^ 32 ∧
  match c with
  | CRead p off len => p ∈ U ∧ 0 <= off ∧ 0 <= len
  | CClose p | CWrite p _ _ _ | CTruncate p _ | CFsync p | CReaddir p _ => p ∈ U
  | _ => True
  end.

(** Nothing mounted, nothing cached. *)
Definition vfs_start (t : T) : vfs :=
  Vfs.Vfs ∅ 1 (replicate (Z.to_nat VFS_ICACHE_BUCKETS) 0) (replicate VFS_MOUNT_MAX (Mountpoint false None 0 None None 0)) false t.

Lemma vfs_start_inv t : fs_inv t → vfs_inv (vfs_start t) ∅.
Proof.
  intros Ht. assert (Hu : ∀ j, ¬ used_slot (vfs_start t) j).
  { intros j (mp & Hj & Hu). apply lookup_replicate in Hj as [-> _]. done. }
  assert (Hr : roots (vfs_start t) = ∅) by done.
  split; [rewrite Hr|]; split; try done.
  - intros k head Hk. apply lookup_replicate in Hk as [-> _]. exists []. split_and!; [done|constructor|].
    intros p. rewrite elem_of_nil. split; [done|]. by intros (n & ? & _).
  - intros p Hp. multiset_solver.
  - split; [done|]. intros H. by apply Hu in H.
  - intros i mp Hi Hm. destruct (Hu i). by exists mp.
  - intros i mp Hi Hm. destruct (Hu i). by exists mp.
  - intros i mp Hi Hm. destruct (Hu i). by exists mp.
  - intros i j _ H. by apply Hu in H.
Qed.

Lemma run_call_spec c s U :
  vfs_inv s U → may_call U c → wp (run_call c s U) (λ '(_, s', U'), vfs_inv s' U').
Proof.
  intros I [Hr Hc]. assert (Hr' : held_room U) by (unfold held_room; lia).
  destruct c; cbn [run_call].
  - eapply wp_bind; [by apply vfs_mount_spec|]. intros [err s'] [I' _]. by apply wp_Ok.
  - eapply wp_bind; [apply (vfs_open_spec (space s) s U path I); [apply space_describes, I|done]|].
    intros [[err p] s'] [E H]. apply wp_Ok. destruct (lookup_path _ _) as [e|k].
    + destruct H as (-> & He & I' & _). by rewrite (proj2 (Z.eqb_neq e 0)).
    + destruct H as (-> & A). apply A.
  - assert (E : U = U ∖ {[+ p +]} ⊎ {[+ p +]}) by (rewrite gmultiset_disj_union_comm; apply gmultiset_disj_union_difference'; done).
    eapply wp_bind; [apply close_held; by rewrite <- E|]. intros s' I'. by apply wp_Ok.
  - eapply wp_bind; [apply vfs_read_spec; [done|apply Hc..]|]. intros [[r x] s'] I'. by apply wp_Ok.
  - eapply wp_bind; [by apply vfs_write_spec|]. intros [r s'] I'. by apply wp_Ok.
  - eapply wp_bind; [by apply vfs_truncate_spec|]. intros [r s'] I'. by apply wp_Ok.
  - eapply wp_bind; [by apply vfs_fsync_spec|]. intros [r s'] I'. by apply wp_Ok.
  - eapply wp_bind; [by apply vfs_readdir_spec|]. intros [[r x] s'] I'. by apply wp_Ok.
  - eapply wp_bind; [by apply vfs_create_spec|]. intros [[r p] s'] I'. apply wp_Ok. by destruct (r =? 0).
  - eapply wp_bind; [apply at_parent_spec; [done|done|]|].
    { intros ops g t m d name L. by apply (law_unlink _ L). }
    intros [r s'] I'. by apply wp_Ok.
  - eapply wp_bind; [apply at_parent_spec; [done|done|]|].
    { intros ops g t m d name L. destruct (op_mkdir ops) as [f|] eqn:Ef; [|done]. intros [= <-]. by apply (law_mkdir _ L). }
    intros [r s'] I'. by apply wp_Ok.
  - eapply wp_bind; [apply at_parent_spec; [done|done|]|].
    { intros ops g t m d name L. by apply (law_rmdir _ L). }
    intros [r s'] I'. by apply wp_Ok.
  - eapply wp_bind; [by apply vfs_rename_spec|]. intros [r s'] I'. by apply wp_Ok.
Qed.

Inductive vfs_reach (t : T) : vfs → gmultiset Z → Prop :=
| vr_start : vfs_reach t (vfs_start t) ∅
| vr_call c s U err s' U' :
    vfs_reach t s U → may_call U c → run_call c s U = Ok (err, s', U') → vfs_reach t s' U'.

Lemma vfs_reach_inv t s U : fs_inv t → vfs_reach t s U → vfs_inv s U.
Proof.
  intros Ht. induction 1 as [|c s U err s' U' _ IH Hc E]; [by apply vfs_start_inv|].
  destruct (run_call_spec c s U IH Hc) as ([[r s1] U1] & E1 & I). congruence.
Qed.
End System.
