(* ===== verification/VfsTop.v ===== *)
(** * What the VFS guarantees of drivers that keep its contract

    The theorems are about any two operation tables with [fs_laws]; [Fat32Top]
    applies them to the FAT32 driver.  A small file system to run the VFS on. *)

From stdpp Require Import gmultiset.
From S2P Require Import Prelude Block Vfs VfsPath VfsSpec VfsWalk VfsMount VfsSystem.

Section Top.
Context {T node : Type} `{NF : inode_fields node} `{FV : fs_view T node} `{MA : mnt_addresses}.
Context (minix_ops fat32_ops : vfs_ops T node) (bdevs : list block_desc).
Notation vfs := (vfs T node).
Implicit Types (s : vfs) (U : gmultiset Z).

Lemma points_unique s R p q k : cache_inv s R → points s p k → points s q k → p = q.
Proof.
  intros I (n1 & H1 & A1 & A2) (n2 & H2 & B1 & B2). apply (ci_one _ _ I p q n1 n2 H1 H2). split; congruence.
Qed.

(** In every state the system reaches, whatever calls were made, [vfs_open]
    returns.  It fails with the error of the abstract resolver and then holds nothing; or
    it yields the object of the inode the resolver names, with exactly one reference
    more, and that object is the one other holders of the inode have. *)
Theorem vfs_open_contract (t : T) s U path :
  fs_laws minix_ops → fs_laws fat32_ops → Forall (λ d, fs_dev (bd_addr d)) bdevs → fs_inv t → vfs_reach minix_ops fat32_ops bdevs t s U → held_room U →
  ∃ err p s', vfs_open path s = Ok (err, p, s') ∧ same_table s s' ∧
    match lookup_path s (resolve (space s) path) with
    | inl e => err = e ∧ e ≠ 0 ∧ vfs_inv s' U
    | inr k => err = 0 ∧ points s' p k ∧ vfs_inv s' (U ⊎ {[+ p +]}) ∧ (∀ q, q ∈ U → points s q k → q = p)
    end.
Proof.
  intros L1 L2 Hk Ht H Hr. pose proof (vfs_reach_inv _ _ _ L1 L2 Hk _ _ _ Ht H) as I.
  destruct (vfs_open_spec (space s) s U path I (space_describes _ (vi_mounts _ _ I)) Hr) as ([[err p] s'] & E & V & X).
  exists err, p, s'. split_and!; [done|by apply evolves_same_table|].
  destruct (lookup_path _ _) as [e|k]; [tauto|]. destruct X as (-> & [I' D' P']). split_and!; [done|done|done|].
  intros q Hq Pq. apply (points_unique s' _ q p k (vi_cache _ _ I')); [|done].
  apply (evolves_points s s' _ q k (vi_cache _ _ I) V Pq). apply (ci_held _ _ (vi_cache _ _ I')). multiset_solver.
Qed.

(** [vfs_parent], under create, unlink, mkdir, rmdir and rename, returns the directory that
    holds the last name, with one reference more, and that name; or the resolver's
    error and no reference. *)
Theorem vfs_parent_correct (t : T) s U path :
  fs_laws minix_ops → fs_laws fat32_ops → Forall (λ d, fs_dev (bd_addr d)) bdevs → fs_inv t → vfs_reach minix_ops fat32_ops bdevs t s U → held_room U →
  ∃ err p name s', vfs_parent path VFS_NAME_MAX s = Ok (err, p, name, s') ∧ same_table s s' ∧
    match lookup_path s (resolve_parent (space s) path) with
    | inl e => err = e ∧ e ≠ 0 ∧ vfs_inv s' U
    | inr (k, c) => err = 0 ∧ name = c ∧ points s' p k ∧ vfs_inv s' (U ⊎ {[+ p +]})
    end.
Proof.
  intros L1 L2 Hk Ht H Hr. pose proof (vfs_reach_inv _ _ _ L1 L2 Hk _ _ _ Ht H) as I.
  destruct (vfs_parent_spec (space s) s U path I (space_describes _ (vi_mounts _ _ I)) Hr) as ([[[err p] name] s'] & E & V & X).
  exists err, p, name, s'. split_and!; [done|by apply evolves_same_table|].
  destruct (lookup_path _ _) as [e|[k c]]; [tauto|]. destruct X as (-> & -> & [I' D' P']). done.
Qed.

(** The inode cache.  In every state the system reaches there is one object for an
    inode of a mount, its count is the number of references that are held (by
    callers and by the mount table), no object is without one, every
    reference leads to an object, and the next permitted call returns. *)
Theorem inode_cache_contract (t : T) s U :
  fs_laws minix_ops → fs_laws fat32_ops → Forall (λ d, fs_dev (bd_addr d)) bdevs → fs_inv t → vfs_reach minix_ops fat32_ops bdevs t s U →
  (∀ p q n1 n2, v_heap s !! p = Some n1 → v_heap s !! q = Some n2 → same_key n1 n2 → p = q) ∧
  (∀ p n, v_heap s !! p = Some n → vn_ref n = Z.of_nat (multiplicity p (roots s ⊎ U)) ∧ 0 < vn_ref n < 2 ^ 32) ∧
  (∀ p, p ∈ roots s ⊎ U → is_Some (v_heap s !! p)) ∧
  (∀ c, may_call U c → ∃ err s' U', run_call minix_ops fat32_ops bdevs c s U = Ok (err, s', U') ∧ vfs_reach minix_ops fat32_ops bdevs t s' U').
Proof.
  intros L1 L2 Hk Ht H. pose proof (vfs_reach_inv _ _ _ L1 L2 Hk _ _ _ Ht H) as I. pose proof (vi_cache _ _ I) as C.
  split_and!; [apply C|apply C|apply C|]. intros c Hc.
  destruct (run_call_spec minix_ops fat32_ops bdevs L1 L2 Hk c s U I Hc) as ([[err s'] U'] & E & _). exists err, s', U'. split; [done|]. by eapply vr_call.
Qed.

(** [vfs_mount].  Unknown file systems and devices, a second root, a bad target and a full table
    are refused with their errors and the table stays as it is; a mount that
    succeeds covers exactly the directory its target resolved to. *)
Theorem vfs_mount_contract (t : T) s U bdev_name fstype target :
  fs_laws minix_ops → fs_laws fat32_ops → Forall (λ d, fs_dev (bd_addr d)) bdevs → fs_inv t → vfs_reach minix_ops fat32_ops bdevs t s U → held_room U →
  ∃ err s', vfs_mount minix_ops fat32_ops bdevs bdev_name fstype target s = Ok (err, s') ∧
    vfs_inv s' U ∧ mount_result minix_ops fat32_ops bdevs s bdev_name fstype target err s'.
Proof.
  intros L1 L2 Hk Ht H Hr. pose proof (vfs_reach_inv _ _ _ L1 L2 Hk _ _ _ Ht H) as I.
  destruct (vfs_mount_spec minix_ops fat32_ops bdevs L1 L2 Hk s U bdev_name fstype target I Hr) as ([err s'] & E & X). eauto.
Qed.
End Top.

(** ** A file system to run it on *)

(** Inode 1 holds the directory [a] (2) and the file [b] (3), [a] holds the file [c] (4).
    The state counts the calls. *)
Definition toy_look (i : Z) (name : list Z) : Z + Z :=
  if decide (name = dot_name) then inr i else
  if decide (i = 1 ∧ name = [97]) then inr 2 else
  if decide (i = 1 ∧ name = [98]) then inr 3 else
  if decide (i = 2 ∧ name = [99]) then inr 4 else inl (- ENOENT).

Definition toy_attr (i : Z) : bool * Z := (i <=? 2, 0x1ed).

Definition toy_node (i : Z) : Z * (bool * Z) := (i, toy_attr i).

#[export] Instance toy_fields : inode_fields (Z * (bool * Z)) := InodeFields _ fst (λ b, b.2.1) (λ b, b.2.2).
#[export] Instance toy_view : fs_view Z (Z * (bool * Z)) :=
  FsView _ _ (λ _, True) (λ _, True) (λ _ _ b, b.2 = toy_attr b.1) (λ _ _ i c, toy_look i c) (λ _ _ i, toy_attr i).
#[export] Instance toy_addresses : mnt_addresses := λ i, 0x1000 + 64 * Z.of_nat i.

Definition toy_ops : vfs_ops Z (Z * (bool * Z)) :=
  VfsOps (λ _ bdev t, Ok (if bdev =? 0 then (- EIO, None, t + 1) else (0, Some (toy_node 1), t + 1)))
    (λ _ d name t, Ok (match toy_look d.1 name with inl e => (e, None, t + 1) | inr i => (0, Some (toy_node i), t + 1) end))
    None (Some (λ _ _ _ _ t, Ok (0, [], t + 1))) (Some (λ _ b _ len _ t, Ok (len, b, t + 1)))
    None None None None None None None (λ _ _ t, Ok (t + 1)).

Lemma toy_quiet t t' : quiet (FV := toy_view) t t'.
Proof. by split. Qed.

Lemma toy_laws : fs_laws toy_ops.
Proof.
  split; try done.
  - intros t m b _ Hb. cbn in *. destruct b as [i [d mo]]. cbn in *. by rewrite Hb.
  - intros t m d name _ _. cbn. destruct (toy_look d.1 name) as [e|i] eqn:E.
    + eexists e, None, _. split_and!; [done|apply toy_quiet|done|]. unfold toy_look in E. repeat case_decide; by simplify_eq.
    + eexists 0, _, _. split_and!; [done|apply toy_quiet|done|]. eexists. split; [done|]. done.
  - intros t m b _ _. eexists. split; [done|]. apply toy_quiet.
  - intros t i bdev _ _. cbn. destruct (bdev =? 0).
    + eexists (- EIO), None, _. split_and!; [done|by split|done].
    + eexists 0, _, _. split_and!; [done|by split|]. intros _. eexists. split; done.
  - intros f t m b off len [= <-] _ _ _ _. eexists (_, _), _. split; [done|]. apply toy_quiet.
  - intros f t m b off len buf [= <-] _ Hl. eexists _, _, _. split; [done|]. by split.
Qed.

Definition toy_bdevs : list block_desc := [BlockDesc 1 (Some [100]) true].

Lemma toy_known : Forall (λ d, fs_dev (bd_addr d)) toy_bdevs.
Proof. by repeat constructor. Qed.

(** A call on the state and references so far. *)
Definition toy_call (c : vfs_call) (x : vfs Z (Z * (bool * Z)) * gmultiset Z) : vfs Z (Z * (bool * Z)) * gmultiset Z :=
  match run_call toy_ops toy_ops toy_bdevs c x.1 x.2 with Ok (_, s, U) => (s, U) | _ => x end.

(** The root is mounted, [/b] is open, and a file system is mounted on [/a]. *)
Definition toy_state : vfs Z (Z * (bool * Z)) * gmultiset Z :=
  foldl (λ x c, toy_call c x) (vfs_start 0, ∅) [CMount [100] [109; 105; 110; 105; 120] [47]; COpen [47; 98]; CMount [100] [109; 105; 110; 105; 120] [47; 97]].

Lemma toy_call_reach c x : vfs_reach toy_ops toy_ops toy_bdevs 0 x.1 x.2 → may_call x.2 c → vfs_reach toy_ops toy_ops toy_bdevs 0 (toy_call c x).1 (toy_call c x).2.
Proof.
  intros H Hc. unfold toy_call. destruct (run_call toy_ops toy_ops toy_bdevs c x.1 x.2) as [[[err s] U]| | |] eqn:E; [|done..].
  by eapply vr_call.
Qed.

Lemma toy_reach : vfs_reach toy_ops toy_ops toy_bdevs 0 toy_state.1 toy_state.2.
Proof.
  unfold toy_state. cbn [foldl]. repeat (apply toy_call_reach; [|split; [vm_compute; reflexivity|exact I]]). constructor.
Qed.

(** The file on the second mount is another inode than the one it covers. *)
Lemma vfs_open_contract_witness :
  resolve (space toy_state.1) [47; 97; 47; 98] = inr (1%nat, 3) ∧
  ∃ p s', vfs_open [47; 97; 47; 98] toy_state.1 = Ok (0, p, s') ∧ points s' p (1%nat, 3).
Proof.
  split; [vm_compute; reflexivity|].
  destruct (vfs_open_contract toy_ops toy_ops toy_bdevs 0 toy_state.1 toy_state.2 [47; 97; 47; 98] toy_laws toy_laws toy_known I toy_reach)
    as (err & p & s' & E & _ & X); [vm_compute; reflexivity|].
  assert (R : lookup_path toy_state.1 (resolve (space toy_state.1) [47; 97; 47; 98]) = inr (1%nat, 3)) by (vm_compute; reflexivity).
  rewrite R in X. destruct X as (-> & P & _). exact (ex_intro _ p (ex_intro _ s' (conj E P))).
Defined.

Lemma vfs_parent_correct_witness :
  ∃ p s', vfs_parent [47; 97; 47; 120] VFS_NAME_MAX toy_state.1 = Ok (0, p, [120], s') ∧ points s' p (1%nat, 1).
Proof.
  destruct (vfs_parent_correct toy_ops toy_ops toy_bdevs 0 toy_state.1 toy_state.2 [47; 97; 47; 120] toy_laws toy_laws toy_known I toy_reach)
    as (err & p & name & s' & E & _ & X); [vm_compute; reflexivity|].
  assert (R : lookup_path toy_state.1 (resolve_parent (space toy_state.1) [47; 97; 47; 120]) = inr ((1%nat, 1), [120])) by (vm_compute; reflexivity).
  rewrite R in X. destruct X as (-> & -> & P & _). exact (ex_intro _ p (ex_intro _ s' (conj E P))).
Defined.

Lemma inode_cache_contract_witness :
  ∃ err s' U', run_call toy_ops toy_ops toy_bdevs (COpen [47; 98]) toy_state.1 toy_state.2 = Ok (err, s', U').
Proof.
  destruct (inode_cache_contract toy_ops toy_ops toy_bdevs 0 toy_state.1 toy_state.2 toy_laws toy_laws toy_known I toy_reach) as (_ & _ & _ & H).
  destruct (H (COpen [47; 98])) as (err & s' & U' & E & _); [split; [vm_compute; reflexivity|exact I]|].
  exact (ex_intro _ err (ex_intro _ s' (ex_intro _ U' E))).
Defined.

Lemma vfs_mount_contract_witness :
  ∃ err s', vfs_mount toy_ops toy_ops toy_bdevs [100] [109; 105; 110; 105; 120] [47; 97] toy_state.1 = Ok (err, s') ∧ vfs_inv s' toy_state.2.
Proof.
  destruct (vfs_mount_contract toy_ops toy_ops toy_bdevs 0 toy_state.1 toy_state.2 [100] [109; 105; 110; 105; 120] [47; 97] toy_laws toy_laws toy_known I toy_reach)
    as (err & s' & E & V & _); [vm_compute; reflexivity|].
  exact (ex_intro _ err (ex_intro _ s' (conj E V))).
Defined.

(** A second mount on [/a] is not refused with EBUSY: the path already leads to the
    root of the first, and the new one is stacked on it. *)
Example mount_twice :
  (λ x, match x with Ok (err, s) => Some (err, ns_under (space s) 0 2, ns_under (space s) 1 1) | _ => None end)
    (vfs_mount toy_ops toy_ops toy_bdevs [100] [109; 105; 110; 105; 120] [47; 97] toy_state.1) = Some (0, Some 1%nat, Some 2%nat).
Proof. vm_compute. reflexivity. Qed.

(** [/b/x] names a file as a directory: [vfs_parent] returns it, unlike [vfs_open]. *)
Example parent_of_a_file :
  resolve (space toy_state.1) [47; 98; 47; 120] = inl (- ENOTDIR) ∧
  resolve_parent (space toy_state.1) [47; 98; 47; 120] = inr ((0%nat, 3), [120]).
Proof. split; vm_compute; reflexivity. Qed.
