(* ===== verification/Fat32Vfs.v ===== *)
(** * FAT32 behind the VFS, and what the driver guarantees

    The operation table keeps the contract [fs_laws] when transfers and allocations
    succeed; on any image, with any failures, every operation returns. *)

From S2P Require Import Prelude Bufcache BufcacheSpec Fat32 Fat32Spec Fat32Read Fat32Dir Fat32Mount Block Vfs VfsSpec VfsSystem.

Definition fat32_ops : vfs_ops fat fat32_inode :=
  VfsOps fat32_mount fat32_lookup (Some fat32_readdir) (Some fat32_read) None None None None None None None None fat32_close.

#[export] Instance fat32_fields : inode_fields fat32_inode := InodeFields _ fi_ino fi_is_dir fi_mode.

(** The device and the geometry of a mount. *)
Definition disk_of (t : fat) (m : nat) : option (block_device * fat32_priv) :=
  match f_mnts t !! m with
  | Some mnt =>
      match fm_priv mnt, f_devs t !! fm_bdev mnt with Some priv, Some dev => Some (dev, priv) | _, _ => None end
  | None => None
  end.

(** An inode in memory is the one of its number on the disk. *)
Definition live_node (t : fat) (m : nat) (b : fat32_inode) : Prop :=
  ∃ mnt priv dev, mnt_ok t m mnt priv dev ∧ b = node_at dev priv (fi_ino b).

Section View.
Context (devs : gmap Z block_device).

(** The name space is that of the disks; no failure is to come. *)
#[export] Instance fat32_view : fs_view fat fat32_inode := FsView _ _
  (λ t, fat_ok t ∧ f_devs t = devs ∧ f_io t = [] ∧ f_kmem t = [])
  (λ bdev, is_Some (devs !! bdev))
  live_node
  (λ t m i name, match disk_of t m with Some (dev, priv) => dir_look dev priv (node_at dev priv i) name | None => inl (- EIO) end)
  (λ t m i, match disk_of t m with Some (dev, priv) => (fi_is_dir (node_at dev priv i), fi_mode (node_at dev priv i)) | None => (false, 0) end).

Lemma disk_of_mnt t m mnt priv dev : mnt_ok t m mnt priv dev → disk_of t m = Some (dev, priv).
Proof. intros [E1 E2 E3 _]. unfold disk_of. by rewrite E1, E2, E3. Qed.

Lemma disk_of_same t t' m : f_devs t' = f_devs t → f_mnts t' !! m = f_mnts t !! m → disk_of t' m = disk_of t m.
Proof. intros E1 E2. unfold disk_of. by rewrite E1, E2. Qed.

Lemma live_same t t' m b : f_devs t' = f_devs t → f_mnts t' !! m = f_mnts t !! m → live_node t m b → live_node t' m b.
Proof.
  intros E1 E2 (mnt & priv & dev & [M1 M2 M3 M4] & Hb). exists mnt, priv, dev. split; [|done]. split; [by rewrite E2|done|by rewrite E1|done].
Qed.

Lemma fat32_quiet t t' : fs_inv t → kept_fs t t' → quiet t t'.
Proof.
  intros (O & Ed & Hio & Hk) K. pose proof (kf_devs _ _ K) as D. pose proof (kf_mnts _ _ K) as E. split.
  - split_and!; [apply K|by rewrite D|by apply (kf_io _ _ K)|by apply (kf_kmem _ _ K)].
  - intros m b. apply live_same; [done|by rewrite E].
  - intros m i c. cbn. by rewrite (disk_of_same t t' m) by (done || by rewrite E).
  - intros m i. cbn. by rewrite (disk_of_same t t' m) by (done || by rewrite E).
Qed.

Lemma dir_look_error dev priv d name e : dir_look dev priv d name = inl e → e ≠ 0.
Proof.
  unfold dir_look. destruct (negb _); [by intros [= <-]|]. case_decide; [done|].
  destruct (scan_dir _ _ _ _ _ _) as [[[? ?]|]|]; [done|by intros [= <-]|by intros [= <-]].
Qed.

Lemma fat32_ops_laws : fs_laws fat32_ops.
Proof.
  split; try done.
  - intros t m b _ (mnt & priv & dev & M & Hb). cbn. rewrite (disk_of_mnt _ _ _ _ _ M), <- Hb. done.
  - intros t m d name Hi (mnt & priv & dev & M & Hb). pose proof Hi as (O & Ed & Hio & Hk). cbn [op_lookup fat32_ops fs_look fat32_view n_ino fat32_fields].
    rewrite (disk_of_mnt _ _ _ _ _ M), <- Hb.
    destruct (fat32_lookup_spec t m mnt priv dev O M (fi_ino d) name) as ([[err o] t'] & E & K & _ & S). rewrite <- Hb in E, S.
    exists err, o, t'. split_and!; [done|by apply fat32_quiet|]. specialize (S Hio Hk).
    destruct (dir_look dev priv d name) as [e|j] eqn:El.
    + destruct S as [-> _]. split; [done|]. by eapply dir_look_error.
    + destruct S as [-> ->]. split; [done|]. eexists. split_and!; [done|apply node_at_ino|].
      apply (live_same t); [apply K|by rewrite (kf_mnts _ _ K)|]. exists mnt, priv, dev. by rewrite node_at_ino.
  - intros t m b Hi _. exists t. split; [done|]. by apply quiet_refl.
  - intros t i bdev (O & Ed & Hio & Hk) [dev Hd]. rewrite <- Ed in Hd.
    destruct (fat32_mount_spec t i bdev dev O Hd) as ([[err o] t'] & E & A & C & _). exists err, o, t'. split_and!; [done| |].
    + split.
      * split_and!; [apply A|by rewrite (ma_devs _ _ _ A)|by apply (ma_io _ _ _ A)|by apply (ma_kmem _ _ _ A)].
      * intros m b Hm. apply live_same; [apply A|by apply A].
      * intros m j c Hm. cbn. rewrite (disk_of_same t t' m); [done|apply A|by apply A].
      * intros m j Hm. cbn. rewrite (disk_of_same t t' m); [done|apply A|by apply A].
    + intros ->. destruct C as [[_ (priv & M & ->)]|[? _]]; [|lia]. eexists. split; [done|]. exists (Fmnt bdev (Some priv)), priv, dev. by split.
  - intros f t m b off len [= <-] Hi (mnt & priv & dev & M & Hb) Ho Hl. pose proof Hi as (O & _).
    destruct (fat32_read_spec t m mnt priv dev b off len O M) as ([[r x] t'] & E & K & _); [|done|done|].
    { rewrite Hb. apply (node_first_nonneg dev priv (mk_geo _ _ _ _ _ M)). by apply (fo_dev _ O _ _ (mk_dev _ _ _ _ _ M)). }
    exists (r, x), t'. split; [done|]. apply fat32_quiet; [done|by apply kept_kept_fs].
  - intros f t m b idx [= <-] Hi (mnt & priv & dev & M & Hb). pose proof Hi as (O & _).
    destruct (fat32_readdir_spec t m mnt priv dev O M b idx) as ([[r x] t'] & E & K & _).
    exists (r, x), t'. split; [done|]. apply fat32_quiet; [done|by apply kept_kept_fs].
Qed.
End View.

(** ** Any image, any failures *)

(** A call of the VFS on the driver. *)
Inductive fat_call :=
| FMount (m : nat) (bdev : Z)
| FLookup (m : nat) (d : fat32_inode) (name : list Z)
| FReaddir (m : nat) (d : fat32_inode) (index : Z)
| FRead (m : nat) (b : fat32_inode) (off len : Z)
| FClose (m : nat) (b : fat32_inode).

(** A call, and the inodes the driver has given out for the mounts that are in use. *)
Definition fat_run (c : fat_call) (t : fat) (H : list (nat * fat32_inode)) : outcome (Z * fat * list (nat * fat32_inode)) :=
  match c with
  | FMount m bdev =>
      '(err, o, t) ← fat32_mount m bdev t; let H := filter (λ x, x.1 ≠ m) H in
      Ok (err, t, match o with Some b => (m, b) :: H | None => H end)
  | FLookup m d name => '(err, o, t) ← fat32_lookup m d name t; Ok (err, t, match o with Some b => (m, b) :: H | None => H end)
  | FReaddir m d index => '(err, _, t) ← fat32_readdir m d index t; Ok (err, t, H)
  | FRead m b off len => '(r, _, t) ← fat32_read m b off len t; Ok (r, t, H)
  | FClose m b => t ← fat32_close m b t; Ok (0, t, H)
  end.

(** The VFS passes registered devices and inodes it was given. *)
Definition fat_may (t : fat) (H : list (nat * fat32_inode)) (c : fat_call) : Prop :=
  match c with
  | FMount m bdev => is_Some (f_devs t !! bdev)
  | FLookup m d _ | FReaddir m d _ | FClose m d => (m, d) ∈ H
  | FRead m b off len => (m, b) ∈ H ∧ 0 <= off ∧ 0 <= len
  end.

(** An empty cache over disks of bytes; which transfers and allocations fail is open. *)
Definition fat_start (devs : gmap Z block_device) (io : list Z) (kmem : list bool) : fat :=
  Fat (replicate FAT32_CACHE_SLOTS (Fslot (Fbuf None 0 0 (replicate 512 0)) false false 0)) 0 devs io kmem ∅.

Inductive fat_reach (t0 : fat) : fat → list (nat * fat32_inode) → Prop :=
| fr_start : fat_reach t0 t0 []
| fr_call c t H err t' H' : fat_reach t0 t H → fat_may t H c → fat_run c t H = Ok (err, t', H') → fat_reach t0 t' H'.

Record fat_inv (t : fat) (H : list (nat * fat32_inode)) : Prop := FatInv {
  fv_ok : fat_ok t;
  fv_live m b : (m, b) ∈ H → live_node t m b
}.

(** The disks stay as they are, and no failure comes up. *)
Record steady (t t' : fat) : Prop := Steady {
  st_devs : f_devs t' = f_devs t;
  st_io : f_io t = [] → f_io t' = [];
  st_kmem : f_kmem t = [] → f_kmem t' = []
}.

#[export] Instance steady_trans : Transitive steady.
Proof. intros t1 t2 t3 [A1 A2 A3] [B1 B2 B3]. split; [congruence|auto|auto]. Qed.

Lemma kept_steady t t' : kept_fs t t' → steady t t'.
Proof. intros K. split; apply K. Qed.

Lemma fat_inv_kept t t' H : fat_inv t H → kept_fs t t' → fat_inv t' H ∧ steady t t'.
Proof.
  intros [O L] K. split; [|by apply kept_steady]. split; [apply K|]. intros m b Hb. apply (live_same t); [apply K|by rewrite (kf_mnts _ _ K)|]. by apply L.
Qed.

Lemma fat_inv_add t H m b : fat_inv t H → live_node t m b → fat_inv t ((m, b) :: H).
Proof. intros [O L] Hb. split; [done|]. intros m' b' [[= -> ->]|?]%elem_of_cons; [done|by apply L]. Qed.

Lemma fat_start_ok devs io kmem : (∀ d dev, devs !! d = Some dev → dev_sized dev) → fat_ok (fat_start devs io kmem).
Proof.
  intros S. split; [done| |done]. intros i x Hx. apply lookup_replicate in Hx as [-> _]. by split.
Qed.

Lemma live_first t m b : fat_ok t → live_node t m b → 0 <= fi_first_cluster b.
Proof.
  intros O (mnt & priv & dev & M & ->). apply (node_first_nonneg dev priv (mk_geo _ _ _ _ _ M)). by apply (fo_dev _ O _ _ (mk_dev _ _ _ _ _ M)).
Qed.

Lemma fat_run_spec c t H : fat_inv t H → fat_may t H c → wp (fat_run c t H) (λ '(_, t', H'), fat_inv t' H' ∧ steady t t').
Proof.
  intros I Hc. pose proof (fv_ok _ _ I) as O. destruct c as [m bdev|m d name|m d index|m b off len|m b]; cbn [fat_run fat_may] in *.
  - destruct Hc as [dev Hd]. eapply wp_bind; [by apply fat32_mount_spec|]. intros [[err o] t'] (A & C & _). apply wp_Ok.
    assert (I' : fat_inv t' (filter (λ x, x.1 ≠ m) H)).
    { split; [apply A|]. intros m' b [Hm Hb]%list_elem_of_filter. apply (live_same t); [apply A|by apply A|by apply (fv_live _ _ I)]. }
    assert (St : steady t t') by (split; apply A).
    destruct C as [[_ (priv & M & ->)]|[_ ->]]; [|done]. split; [|done]. apply fat_inv_add; [done|]. exists (Fmnt bdev (Some priv)), priv, dev. by split.
  - destruct (fv_live _ _ I _ _ Hc) as (mnt & priv & dev & M & Hb). rewrite Hb.
    eapply wp_bind; [by apply (fat32_lookup_spec t m mnt priv dev O M)|]. intros [[err o] t'] (K & C & _). apply wp_Ok.
    destruct (fat_inv_kept _ _ _ I K) as [I' St]. destruct C as [[_ (j & ->)]|[_ ->]]; [|done]. split; [|done]. apply fat_inv_add; [done|].
    apply (live_same t); [apply K|by rewrite (kf_mnts _ _ K)|]. exists mnt, priv, dev. by rewrite node_at_ino.
  - destruct (fv_live _ _ I _ _ Hc) as (mnt & priv & dev & M & _).
    eapply wp_bind; [by apply (fat32_readdir_spec t m mnt priv dev O M)|]. intros [[err o] t'] (K & _). apply wp_Ok.
    by apply (fat_inv_kept t), kept_kept_fs.
  - destruct Hc as (Hc & Ho & Hl). pose proof (live_first _ _ _ O (fv_live _ _ I _ _ Hc)).
    destruct (fv_live _ _ I _ _ Hc) as (mnt & priv & dev & M & _).
    eapply wp_bind; [by apply (fat32_read_spec t m mnt priv dev b)|]. intros [[r x] t'] (K & _). apply wp_Ok.
    by apply (fat_inv_kept t), kept_kept_fs.
  - apply wp_Ok. split; [done|by split].
Qed.

Lemma fat_reach_inv t0 t H : fat_ok t0 → fat_reach t0 t H → fat_inv t H ∧ steady t0 t.
Proof.
  intros O. induction 1 as [|c t H err t' H' _ [IH St] Hc E].
  { split; [|by split]. split; [done|]. by intros m b ?%elem_of_nil. }
  destruct (fat_run_spec c t H IH Hc) as ([[r t1] H1] & E1 & I & St'). rewrite E in E1. injection E1 as <- <- <-. split; [done|by etrans].
Qed.
