(* ===== verification/Fat32Top.v ===== *)
(** * What the FAT32 driver guarantees, on a disk to run it on *)

From stdpp Require Import gmultiset.
From S2P Require Import Prelude Bufcache BufcacheSpec Fat32 Fat32Spec Fat32Read Fat32Dir Fat32Mount Block Vfs VfsPath VfsSpec VfsWalk VfsMount VfsSystem VfsTop Fat32Vfs.

(** ** Listing and looking up *)

Section Listing.
Context (dev : block_device).

(** The entries a scan visits. *)
Fixpoint live_slots (ps : list (Z * Z)) : list (Z * Z) :=
  match ps with
  | [] => []
  | p :: ps =>
      if is_end (entry_at dev p) then [] else
      if fat32_entry_skip (entry_at dev p) then live_slots ps else p :: live_slots ps
  end.

Definition slot_ino (p : Z * Z) : Z := fat32_dirent_ino p.1 p.2.
Definition slot_name (p : Z * Z) : list Z := fat32_decode_83 (de_name (entry_at dev p)).

Lemma readdir_scan ps cur index r :
  0 <= cur <= index → index < 2 ^ 64 →
  scan_list (readdir_visit index) dev ps cur = inr (Some r) ↔ ∃ p, live_slots ps !! Z.to_nat (index - cur) = Some p ∧ r = (slot_ino p, slot_name p).
Proof.
  revert cur. induction ps as [|p ps IH]; intros cur H0 H1; cbn [scan_list live_slots]; [split; [done|by intros (? & ? & _)]|].
  destruct (is_end _); [split; [done|by intros (? & ? & _)]|]. destruct (fat32_entry_skip _); [by apply IH|].
  unfold readdir_visit at 1. destruct (Z.eqb_spec cur index) as [->|Hne].
  - rewrite Z.sub_diag. change (Z.to_nat 0) with 0%nat. cbn [lookup list_lookup]. split.
    + intros [= <-]. by exists p.
    + intros (q & [= <-] & ->). done.
  - rewrite (u64_small (cur + 1)) by (unfold in_u64; lia). rewrite IH by lia.
    replace (Z.to_nat (index - cur)) with (S (Z.to_nat (index - (cur + 1)))) by lia. done.
Qed.

Lemma lookup_scan name ps :
  scan_list (lookup_visit name) dev ps () =
  match list_find (λ p, fat32_name_eq (slot_name p) name = true) (live_slots ps) with
  | Some (_, p) => inr (Some (slot_ino p, entry_at dev p))
  | None => scan_list (λ _ _ _ (a : ()), inl a) dev ps ()
  end.
Proof.
  induction ps as [|p ps IH]; cbn [scan_list live_slots]; [done|].
  destruct (is_end _); [done|]. destruct (fat32_entry_skip _); [done|].
  unfold lookup_visit at 1. fold (slot_name p). cbn [list_find]. destruct (fat32_name_eq (slot_name p) name) eqn:E; cbn [negb].
  - by rewrite decide_True.
  - rewrite decide_False by done. rewrite IH. by destruct (list_find _ _) as [[? ?]|].
Qed.

Lemma name_eq_refl s : fat32_name_eq s s = true.
Proof. induction s as [|c s IH]; [done|]. cbn. rewrite Z.eqb_refl. cbn. by destruct (c =? 0). Qed.
End Listing.

(** An entry that is listed is found by its name, or an entry listed before it has that
    name as well. *)
Lemma entry_look dev priv d index i name :
  0 <= index < 2 ^ 64 → dir_entry dev priv d index = (1, Some (i, name)) → name ≠ [46] →
  ∃ j index' name', dir_look dev priv d name = inr j ∧ 0 <= index' <= index ∧ dir_entry dev priv d index' = (1, Some (j, name')) ∧
    fat32_name_eq name' name = true ∧ (index' = index → j = i).
Proof.
  intros Hi He Hn. unfold dir_entry, dir_look in *. destruct (negb (fi_is_dir d)); [done|]. rewrite decide_False by done.
  unfold scan_dir in *. set (ps := chain_slots _ _ _ _) in *.
  assert (Es : scan_list (readdir_visit index) dev ps 0 = inr (Some (i, name))).
  { destruct (scan_list (readdir_visit index) dev ps 0) as [?|[r|]]; [by destruct (chain_ends _ _ _ _)|congruence|done]. }
  apply readdir_scan in Es as (p & Hp & [= -> ->]); [|lia|lia]. rewrite Z.sub_0_r in Hp.
  rewrite lookup_scan. destruct (list_find _ (live_slots dev ps)) as [[k q]|] eqn:Ef.
  - apply list_find_Some in Ef as (Hq & Hm & Hmin). exists (slot_ino q), (Z.of_nat k), (slot_name dev q).
    assert (Hk : (k ≤ Z.to_nat index)%nat).
    { destruct (decide (k ≤ Z.to_nat index)%nat) as [|Hgt]; [done|]. destruct (Hmin (Z.to_nat index) p Hp); [lia|]. apply name_eq_refl. }
    assert (Es : scan_list (readdir_visit (Z.of_nat k)) dev ps 0 = inr (Some (slot_ino q, slot_name dev q))).
    { apply readdir_scan; [lia|lia|]. exists q. split; [|done]. by rewrite Z.sub_0_r, Nat2Z.id. }
    rewrite Es. split_and!; [done|lia|lia|done|done|]. intros E. rewrite <- E, Nat2Z.id in Hp. congruence.
  - exfalso. apply list_find_None in Ef. apply (Forall_lookup_1 _ _ _ _ Ef Hp). apply name_eq_refl.
Qed.

(** ** The guarantees *)

Lemma held_mnt t m b : live_node t m b → ∃ mnt priv dev, mnt_ok t m mnt priv dev ∧ b = node_at dev priv (fi_ino b) ∧ disk_of t m = Some (dev, priv).
Proof. intros (mnt & priv & dev & M & Hb). exists mnt, priv, dev. split_and!; [done|done|by eapply disk_of_mnt]. Qed.

(** C19: whatever the bytes of the disks (of at most [2 ^ 28] sectors) are and whichever
    transfers and allocations fail:
    in every state the driver reaches, no sector of its cache is in use between two calls,
    a valid one is what the disk has, an inode it gave out is that of its number, and
    the next call returns. *)
Theorem fat32_any_image devs io kmem t H c :
  (∀ d dev, devs !! d = Some dev → dev_sized dev) → fat_reach (fat_start devs io kmem) t H → fat_may t H c →
  fat_ok t ∧ (∀ m b, (m, b) ∈ H → live_node t m b) ∧
  ∃ err t' H', fat_run c t H = Ok (err, t', H') ∧ fat_reach (fat_start devs io kmem) t' H'.
Proof.
  intros S R Hc. destruct (fat_reach_inv _ _ _ (fat_start_ok _ _ _ S) R) as [[O L] _]. split_and!; [done|done|].
  destruct (fat_run_spec c t H (FatInv _ _ O L) Hc) as ([[err t'] H'] & Er & _). exists err, t', H'. split; [done|]. by eapply fr_call.
Qed.

(** C20: reading a file the driver gave out yields the bytes of its cluster chain from the
    offset on, up to the size of the file, the length asked for and the end of the
    chain. *)
Theorem fat32_read_correct devs kmem t H m b off len :
  (∀ d dev, devs !! d = Some dev → dev_sized dev) → fat_reach (fat_start devs [] kmem) t H →
  (m, b) ∈ H → fi_is_dir b = false → 0 <= off → 0 <= len →
  ∃ dev priv t', disk_of t m = Some (dev, priv) ∧ geometry priv dev ∧
    let bytes := take (Z.to_nat len) (drop (Z.to_nat off) (file_bytes dev priv b)) in
    fat32_read m b off len t = Ok (Z.of_nat (length bytes), bytes, t').
Proof.
  intros S R Hb Hd Ho Hl. destruct (fat_reach_inv _ _ _ (fat_start_ok _ _ _ S) R) as [[O L] St]. pose proof (st_io _ _ St eq_refl) as Hio.
  pose proof (L _ _ Hb) as Lb. destruct (held_mnt _ _ _ Lb) as (mnt & priv & dev & M & _ & D).
  destruct (fat32_read_spec t m mnt priv dev b off len O M (live_first _ _ _ O Lb) Ho Hl) as ([[r x] t'] & E & _ & _ & X).
  destruct (X Hio Hd) as [-> ->]. exists dev, priv, t'. split_and!; [done|apply M|done].
Qed.

(** Looking up a name in a directory yields the inode of the first live entry of its
    chain with that name, letter case aside, before the end marker; or ENOENT, EIO when the
    chain is a loop, ENOTDIR.  A name that is listed is found. *)
Theorem fat32_lookup_correct devs t H m d name :
  (∀ d dev, devs !! d = Some dev → dev_sized dev) → fat_reach (fat_start devs [] []) t H → (m, d) ∈ H →
  ∃ dev priv err o t', disk_of t m = Some (dev, priv) ∧ fat32_lookup m d name t = Ok (err, o, t') ∧
    match dir_look dev priv d name with inl e => err = e ∧ o = None | inr j => err = 0 ∧ o = Some (node_at dev priv j) end.
Proof.
  intros S R Hb. destruct (fat_reach_inv _ _ _ (fat_start_ok _ _ _ S) R) as [[O L] St].
  pose proof (st_io _ _ St eq_refl) as Hio. pose proof (st_kmem _ _ St eq_refl) as Hk.
  destruct (held_mnt _ _ _ (L _ _ Hb)) as (mnt & priv & dev & M & Hd & D).
  destruct (fat32_lookup_spec t m mnt priv dev O M (fi_ino d) name) as ([[err o] t'] & E & _ & _ & X). rewrite <- Hd in E, X.
  exists dev, priv, err, o, t'. split_and!; [done|done|by apply X].
Qed.

(** C27: what [fat32_readdir] lists, [fat32_lookup] finds: the name of an entry leads to its
    inode, or to that of an entry listed before it under the same name; the name [.]
    leads to the directory itself, whatever number it is listed with. *)
Theorem fat32_readdir_lookup devs t H m d index i name t1 :
  (∀ d dev, devs !! d = Some dev → dev_sized dev) → fat_reach (fat_start devs [] []) t H → (m, d) ∈ H →
  0 <= index < 2 ^ 64 → fat32_readdir m d index t = Ok (1, Some (i, name), t1) →
  (name = [46] → ∃ b t2, fat32_lookup m d name t1 = Ok (0, Some b, t2) ∧ fi_ino b = fi_ino d) ∧
  (name ≠ [46] → ∃ j b t2 index' name' t3, fat32_lookup m d name t1 = Ok (0, Some b, t2) ∧ fi_ino b = j ∧
    0 <= index' <= index ∧ fat32_readdir m d index' t1 = Ok (1, Some (j, name'), t3) ∧ fat32_name_eq name' name = true ∧ (index' = index → j = i)).
Proof.
  intros S R Hb Hi E. destruct (fat_reach_inv _ _ _ (fat_start_ok _ _ _ S) R) as [[O L] St].
  pose proof (st_io _ _ St eq_refl) as Hio. pose proof (st_kmem _ _ St eq_refl) as Hk.
  destruct (held_mnt _ _ _ (L _ _ Hb)) as (mnt & priv & dev & M & Hd & D).
  destruct (fat32_readdir_spec t m mnt priv dev O M d index) as ([[err o] t'] & E' & K & X). rewrite E in E'. injection E' as <- <- <-.
  assert (M1 : mnt_ok t1 m mnt priv dev) by (destruct M as [M1 M2 M3 M4]; split; [by rewrite (kp_mnts _ _ K)|done|by rewrite (kp_devs _ _ K)|done]).
  destruct (fat32_lookup_spec t1 m mnt priv dev (kp_ok _ _ K) M1 (fi_ino d) name) as ([[err o] t2] & E2 & _ & _ & Y). rewrite <- Hd in E2, Y.
  specialize (Y (kp_io _ _ K Hio) ltac:(by rewrite (kp_kmem _ _ K))). split; intros Hn.
  { assert (dir_look dev priv d name = inr (fi_ino d)) as Hl.
    { specialize (X Hio). unfold dir_entry in X. unfold dir_look. destruct (negb (fi_is_dir d)); [done|]. by rewrite decide_True. }
    rewrite Hl in Y. destruct Y as [-> ->]. exists (node_at dev priv (fi_ino d)), t2. split; [done|apply node_at_ino]. }
  destruct (entry_look dev priv d index i name Hi (eq_sym (X Hio)) Hn) as (j & index' & name' & Hl & Hi' & He & Hm & Hj).
  rewrite Hl in Y. destruct Y as [-> ->].
  destruct (fat32_readdir_spec t1 m mnt priv dev (kp_ok _ _ K) M1 d index') as ([[err o] t3] & E3 & _ & Z3). 
  rewrite He in Z3. injection (Z3 (kp_io _ _ K Hio)) as -> ->.
  exists j, (node_at dev priv j), t2, index', name', t3. split_and!; [done|apply node_at_ino|lia|lia|done|done|done].
Qed.

(** A mount that succeeds has found a superblock whose FAT covers every cluster, whose data
    lies on the device behind it and whose entries have numbers of 32 bits, and
    yields the root; one that fails yields nothing.  The other mounts stay. *)
Theorem fat32_mount_correct devs io kmem t H m bdev dev :
  (∀ d dev, devs !! d = Some dev → dev_sized dev) → fat_reach (fat_start devs io kmem) t H → devs !! bdev = Some dev →
  ∃ err o t', fat32_mount m bdev t = Ok (err, o, t') ∧ (∀ k, k ≠ m → disk_of t' k = disk_of t k) ∧
    (err = 0 ∧ (∃ priv, disk_of t' m = Some (dev, priv) ∧ geometry priv dev ∧ o = Some (root_node priv)) ∨ err < 0 ∧ o = None).
Proof.
  intros S R Hd. destruct (fat_reach_inv _ _ _ (fat_start_ok _ _ _ S) R) as [[O L] St]. pose proof (st_devs _ _ St) as Ed. cbn in Ed.
  destruct (fat32_mount_spec t m bdev dev O) as ([[err o] t'] & E & A & C & _); [by rewrite Ed|]. exists err, o, t'. split_and!; [done| |].
  - intros k Hk. apply disk_of_same; [apply A|by apply A].
  - destruct C as [[-> (priv & M & ->)]|C]; [left|by right]. split; [done|]. exists priv. split_and!; [by eapply disk_of_mnt|apply M|done].
Qed.

(** C8: the operation table keeps the contract of the VFS on the disks [devs]: each
    operation returns, names and attributes are those of the disk, inodes stay valid
    and a mount leaves the others alone. *)
Theorem fat32_laws devs : fs_laws (FV := fat32_view devs) fat32_ops.
Proof. apply fat32_ops_laws. Qed.

(** ** The VFS on FAT32 file systems

    A system that mounts FAT32 file systems only: the table of the other driver
    is never asked.  Transfers and allocations succeed, as the contract has it. *)
Section FatVfs.
Context `{MA : mnt_addresses} (minix_ops : vfs_ops fat fat32_inode) (devs : gmap Z block_device) (bdevs : list block_desc).
Notation fs_name_minix := [109; 105; 110; 105; 120].

(** The registered devices are disks. *)
Record fat_disks : Prop := FatDisks {
  fd_sized d dev : devs !! d = Some dev → dev_sized dev;
  fd_known : Forall (λ d, is_Some (devs !! bd_addr d)) bdevs
}.

Definition on_fat (c : vfs_call) : Prop := match c with CMount _ fstype _ => fstype ≠ fs_name_minix | _ => True end.

(** States after calls of the VFS with the two operation tables, no mount being one of MINIX. *)
Inductive fat_vfs_reach : vfs fat fat32_inode → gmultiset Z → Prop :=
| fv_start : fat_vfs_reach (vfs_start (fat_start devs [] [])) ∅
| fv_call c s U err s' U' : fat_vfs_reach s U → may_call U c → on_fat c →
    run_call minix_ops fat32_ops bdevs c s U = Ok (err, s', U') → fat_vfs_reach s' U'.

Lemma fstype_ops fstype : fstype ≠ fs_name_minix → ops_for_fstype minix_ops fat32_ops fstype = ops_for_fstype fat32_ops fat32_ops fstype.
Proof. intros H. unfold ops_for_fstype. by destruct (decide (fstype = fs_name_minix)). Qed.

Lemma mount_ops b fstype target (s : vfs fat fat32_inode) : fstype ≠ fs_name_minix →
  vfs_mount minix_ops fat32_ops bdevs b fstype target s = vfs_mount fat32_ops fat32_ops bdevs b fstype target s.
Proof. intros H. unfold vfs_mount. by rewrite fstype_ops. Qed.

Lemma run_call_ops c (s : vfs fat fat32_inode) U : on_fat c → run_call minix_ops fat32_ops bdevs c s U = run_call fat32_ops fat32_ops bdevs c s U.
Proof. destruct c; try done. intros H. cbn [run_call]. by rewrite mount_ops. Qed.

Lemma fat_vfs_reach_both s U : fat_vfs_reach s U → vfs_reach fat32_ops fat32_ops bdevs (fat_start devs [] []) s U.
Proof.
  induction 1 as [|c s U err s' U' _ IH Hc Hf E]; [constructor|]. eapply vr_call; [done|done|]. by rewrite <- run_call_ops.
Qed.

Lemma fat_start_view : fat_disks → fs_inv (fs_view := fat32_view devs) (fat_start devs [] []).
Proof. intros [S _]. split_and!; [by apply fat_start_ok|done..]. Qed.

(** C6: the inode cache of a system with FAT32 mounts.  In every state reached by
    calls of the VFS there is one object for an inode of a mount, its count
    is the number of references that are held (by callers and by the mount
    table), no object is without one, every reference leads to an object, and the
    next permitted call returns. *)
Theorem inode_cache_canonical s U :
  fat_disks → fat_vfs_reach s U →
  (∀ p q n1 n2, v_heap s !! p = Some n1 → v_heap s !! q = Some n2 → same_key n1 n2 → p = q) ∧
  (∀ p n, v_heap s !! p = Some n → vn_ref n = Z.of_nat (multiplicity p (roots s ⊎ U)) ∧ 0 < vn_ref n < 2 ^ 32) ∧
  (∀ p, p ∈ roots s ⊎ U → is_Some (v_heap s !! p)) ∧
  (∀ c, may_call U c → on_fat c → ∃ err s' U', run_call minix_ops fat32_ops bdevs c s U = Ok (err, s', U') ∧ fat_vfs_reach s' U').
Proof.
  intros D H. pose proof (fat32_ops_laws devs) as L.
  destruct (inode_cache_contract (FV := fat32_view devs) fat32_ops fat32_ops bdevs _ s U L L (fd_known D) (fat_start_view D) (fat_vfs_reach_both _ _ H)) as (H1 & H2 & H3 & H4).
  split_and!; [done..|]. intros c Hc Hf. destruct (H4 c Hc) as (err & s' & U' & E & _). rewrite <- run_call_ops in E by done.
  exists err, s', U'. split; [done|]. by eapply fv_call.
Qed.


End FatVfs.

(** ** A disk *)

(** The bytes [bs] at offset [o] of a sector of zeros. *)
Definition sector_with (parts : list (nat * list Z)) : list Z :=
  foldl (λ s p, list_inserts p.1 p.2 s) (replicate 512 0) parts.

Definition demo_boot : list Z :=
  sector_with [(11%nat, [0; 2; 1; 32; 0; 1]); (32%nat, [0x15; 2; 1; 0; 0; 2; 0; 0]); (44%nat, [2; 0; 0; 0]); (510%nat, [0x55; 0xaa])].
Definition demo_fat : list Z := sector_with [(8%nat, [0xff; 0xff; 0xff; 0x0f; 4; 0; 0; 0; 0xff; 0xff; 0xff; 0x0f])].

(** [HELLO.TXT], 600 bytes in the clusters 3 and 4. *)
Definition demo_root : list Z :=
  sector_with [(0%nat, [72; 69; 76; 76; 79; 32; 32; 32; 84; 88; 84; 0x20]); (26%nat, [3; 0; 0x58; 2; 0; 0])].

(** The boot sector, the FAT, the root directory and two clusters among sectors [z]. *)
Definition layout (boot fat root c3 c4 z : list Z) (n1 n2 n3 : nat) : block_device :=
  Bdev 512 (boot :: replicate n1 z ++ fat :: replicate n2 z ++ root :: c3 :: c4 :: replicate n3 z).

Definition demo_dev : block_device :=
  layout demo_boot demo_fat demo_root (replicate 512 7) (replicate 512 8) (replicate 512 0) 31 511 (Z.to_nat 65522).

Definition demo_devs : gmap Z block_device := {[0x1000 := demo_dev]}.

Lemma bytes_dec (s : list Z) : (length s =? 512)%nat && forallb (λ b, (0 <=? b) && (b <? 256)) s = true → length s = 512%nat ∧ Forall byte s.
Proof.
  intros [H1%Nat.eqb_eq H2]%andb_prop. split; [done|]. apply Forall_forall. intros b Hb. rewrite forallb_forall in H2.
  specialize (H2 b (proj1 (list_elem_of_In _ _) Hb)). unfold byte. lia.
Qed.

Lemma layout_sized boot fat root c3 c4 z n1 n2 n3 :
  sector_count (layout boot fat root c3 c4 z n1 n2 n3) ≤ 2 ^ 28 →
  Forall (λ s, length s = 512%nat ∧ Forall byte s) [boot; fat; root; c3; c4; z] → dev_sized (layout boot fat root c3 c4 z n1 n2 n3).
Proof.
  intros Hc. rewrite !Forall_cons. intros (H1 & H2 & H3 & H4 & H5 & H6 & _). split; [done|]. unfold layout. cbn [bd_sectors].
  repeat first [apply Forall_cons_2; [done|] | apply Forall_app_2; [by apply Forall_replicate|]]. by apply Forall_replicate.
Qed.

Lemma demo_sized : dev_sized demo_dev.
Proof. apply layout_sized; [vm_compute; discriminate|]. repeat apply Forall_cons_2; [apply bytes_dec; vm_compute; reflexivity..|constructor]. Qed.

Lemma demo_devs_sized d dev : demo_devs !! d = Some dev → dev_sized dev.
Proof. unfold demo_devs. intros [_ <-]%lookup_singleton_Some. apply demo_sized. Qed.

(** A call on the state and the inodes given out so far. *)
Definition demo_call (c : fat_call) (x : fat * list (nat * fat32_inode)) : fat * list (nat * fat32_inode) :=
  match fat_run c x.1 x.2 with Ok (_, t, H) => (t, H) | _ => x end.

Definition demo_root_node : fat32_inode := Finode 1 2 0x10 true 0 0x16d 0 0.
Definition hello : list Z := [104; 101; 108; 108; 111; 46; 116; 120; 116].
Definition demo_file : fat32_inode := Finode 8704 3 0x20 false 600 0x124 0 0.

(** The disk is mounted in slot 0 and [hello.txt] was looked up. *)
Definition demo_state : fat * list (nat * fat32_inode) :=
  demo_call (FLookup 0 demo_root_node hello) (demo_call (FMount 0 0x1000) (fat_start demo_devs [] [], [])).

Lemma demo_call_reach t0 c x : fat_reach t0 x.1 x.2 → fat_may x.1 x.2 c → fat_reach t0 (demo_call c x).1 (demo_call c x).2.
Proof.
  intros H Hc. unfold demo_call. destruct (fat_run c x.1 x.2) as [[[err t] H']| | |] eqn:E; [|done..]. by eapply fr_call.
Qed.

Lemma demo_held : demo_state.2 = [(0%nat, demo_file); (0%nat, demo_root_node)].
Proof. vm_compute. reflexivity. Qed.

Lemma demo_reach : fat_reach (fat_start demo_devs [] []) demo_state.1 demo_state.2.
Proof.
  unfold demo_state. apply demo_call_reach; [apply demo_call_reach; [constructor|]|].
  - exists demo_dev. cbn [fat_start f_devs fst snd]. unfold demo_devs. apply lookup_singleton_Some. done.
  - unfold fat_may. assert (E : (demo_call (FMount 0 0x1000) (fat_start demo_devs [] [], [])).2 = [(0%nat, demo_root_node)]) by (vm_compute; reflexivity).
    rewrite E. by apply elem_of_cons; left.
Qed.

Lemma demo_file_held : (0%nat, demo_file) ∈ demo_state.2.
Proof. rewrite demo_held. by apply elem_of_cons; left. Qed.

Lemma demo_root_held : (0%nat, demo_root_node) ∈ demo_state.2.
Proof. rewrite demo_held. apply elem_of_cons. right. by apply elem_of_cons; left. Qed.

Lemma fat32_any_image_witness : ∃ err t' H', fat_run (FRead 0 demo_file 500 50) demo_state.1 demo_state.2 = Ok (err, t', H').
Proof.
  destruct (fat32_any_image demo_devs [] [] demo_state.1 demo_state.2 (FRead 0 demo_file 500 50) demo_devs_sized demo_reach) as (_ & _ & err & t' & H' & E & _).
  - split; [exact demo_file_held|]. lia.
  - exact (ex_intro _ err (ex_intro _ t' (ex_intro _ H' E))).
Defined.

(** Bytes 500 to 549 of the file: the end of one cluster and the start of the next. *)
Lemma fat32_read_correct_witness : ∃ t', fat32_read 0 demo_file 500 50 demo_state.1 = Ok (50, replicate 12 7 ++ replicate 38 8, t').
Proof.
  destruct (fat32_read_correct demo_devs [] demo_state.1 demo_state.2 0 demo_file 500 50 demo_devs_sized demo_reach demo_file_held eq_refl)
    as (dev & priv & t' & D & _ & E); [lia|lia|].
  assert (B : (match disk_of demo_state.1 0 with Some (dev, priv) => take 50 (drop 500 (file_bytes dev priv demo_file)) | None => [] end)
              = replicate 12 7 ++ replicate 38 8) by (vm_compute; reflexivity).
  rewrite D in B. change (Z.to_nat 50) with 50%nat in E. change (Z.to_nat 500) with 500%nat in E. rewrite B in E. exact (ex_intro _ t' E).
Defined.

Lemma fat32_lookup_correct_witness : ∃ o t', fat32_lookup 0 demo_root_node hello demo_state.1 = Ok (0, Some o, t') ∧ fi_ino o = 8704.
Proof.
  destruct (fat32_lookup_correct demo_devs demo_state.1 demo_state.2 0 demo_root_node hello demo_devs_sized demo_reach demo_root_held)
    as (dev & priv & err & o & t' & D & E & X).
  assert (B : (match disk_of demo_state.1 0 with Some (dev, priv) => dir_look dev priv demo_root_node hello | None => inl 0 end) = inr 8704)
    by (vm_compute; reflexivity).
  rewrite D in B. rewrite B in X. destruct X as [-> ->].
  exact (ex_intro _ (node_at dev priv 8704) (ex_intro _ t' (conj E (node_at_ino dev priv 8704)))).
Defined.

Definition HELLO : list Z := [72; 69; 76; 76; 79; 46; 84; 88; 84].

Lemma fat32_readdir_lookup_witness : ∃ b t1 t2, fat32_lookup 0 demo_root_node HELLO t1 = Ok (0, Some b, t2).
Proof.
  destruct (fat32_readdir 0 demo_root_node 0 demo_state.1) as [[[err o] t1]| | |] eqn:E.
  2-4: exfalso; assert (B : (match fat32_readdir 0 demo_root_node 0 demo_state.1 with Ok _ => true | _ => false end) = true) by (vm_compute; reflexivity);
    rewrite E in B; discriminate B.
  assert (B : (match fat32_readdir 0 demo_root_node 0 demo_state.1 with Ok (err, o, _) => Some (err, o) | _ => None end) = Some (1, Some (8704, HELLO)))
    by (vm_compute; reflexivity).
  rewrite E in B. injection B as -> ->.
  destruct (fat32_readdir_lookup demo_devs demo_state.1 demo_state.2 0 demo_root_node 0 8704 HELLO t1 demo_devs_sized demo_reach demo_root_held)
    as [_ X]; [lia|exact E|]. destruct (X ltac:(discriminate)) as (j & b & t2 & _ & _ & _ & L & _).
  exact (ex_intro _ b (ex_intro _ t1 (ex_intro _ t2 L))).
Defined.

Lemma fat32_mount_correct_witness :
  ∃ err o t', fat32_mount 1 0x1000 demo_state.1 = Ok (err, o, t') ∧ disk_of t' 0 = disk_of demo_state.1 0.
Proof.
  destruct (fat32_mount_correct demo_devs [] [] demo_state.1 demo_state.2 1 0x1000 demo_dev demo_devs_sized demo_reach) as (err & o & t' & E & X & _).
  - unfold demo_devs. apply lookup_singleton_Some. done.
  - exact (ex_intro _ err (ex_intro _ o (ex_intro _ t' (conj E (X 0%nat ltac:(discriminate)))))).
Defined.

(** Names that begin with a dot are not checked: an entry can carry a path
    separator. *)
Example leading_dot_smuggles :
  let name := [46; 47; 120; 32; 32; 32; 32; 32; 32; 32; 32] in
  fat32_entry_skip (Dirent name 0x20 0 0 0 0 0 0 0 0 3 0) = false ∧ 47 ∈ fat32_decode_83 name.
Proof. split; [reflexivity|]. apply list_elem_of_In. right. by left. Qed.

(** When reading the FAT fails, a file ends early and no error is reported: 12 bytes
    of the 50. *)
Example fat_error_truncates :
  match fat32_mount 0 0x1000 (fat_start demo_devs [] []) with
  | Ok (_, _, t) => match fat32_read 0 demo_file 500 50 (with_fio [0; 0; 0; - EIO] t) with Ok (r, _, _) => r | _ => -1 end
  | _ => -1
  end = 12.
Proof. vm_compute. reflexivity. Qed.

(** Through the VFS: the disk becomes the root, [/hello.txt] is opened and read. *)
Example hello_through_the_vfs :
  match vfs_mount fat32_ops fat32_ops [BlockDesc 0x1000 (Some [100]) true] [100] [102; 97; 116; 51; 50] [47] (vfs_start (fat_start demo_devs [] [])) with
  | Ok (0, s) => match vfs_open (47 :: hello) s with Ok (0, p, s) => match vfs_read p 510 4 s with Ok (r, bytes, _) => (r, bytes) | _ => (-1, []) end | _ => (-2, []) end
  | _ => (-3, [])
  end = (4, [7; 7; 8; 8]).
Proof. vm_compute. reflexivity. Qed.

(** The disk under the VFS: mounted as the root, [/hello.txt] open. *)
Definition demo_bdevs : list block_desc := [BlockDesc 0x1000 (Some [100]) true].
Definition fat32_name : list Z := [102; 97; 116; 51; 50].

(** A table whose mount refuses everything, in the place of the MINIX driver. *)
Definition no_ops : vfs_ops fat fat32_inode :=
  VfsOps (λ _ _ t, Ok (- EIO, None, t)) (λ _ _ _ t, Ok (- EIO, None, t)) None None None None None None None None None None (λ _ _ t, Ok t).

Definition vfs_demo_call (c : vfs_call) (x : vfs fat fat32_inode * gmultiset Z) : vfs fat fat32_inode * gmultiset Z :=
  match run_call no_ops fat32_ops demo_bdevs c x.1 x.2 with Ok (_, s, U) => (s, U) | _ => x end.

Definition vfs_demo : vfs fat fat32_inode * gmultiset Z :=
  foldl (λ x c, vfs_demo_call c x) (vfs_start (fat_start demo_devs [] []), ∅) [CMount [100] fat32_name [47]; COpen (47 :: hello)].

Lemma demo_disks : fat_disks demo_devs demo_bdevs.
Proof.
  split; [exact demo_devs_sized|]. constructor; [|constructor]. exists demo_dev. unfold demo_devs. apply lookup_singleton_Some. done.
Qed.

Lemma vfs_demo_call_reach c x :
  fat_vfs_reach no_ops demo_devs demo_bdevs x.1 x.2 → may_call x.2 c → on_fat c → fat_vfs_reach no_ops demo_devs demo_bdevs (vfs_demo_call c x).1 (vfs_demo_call c x).2.
Proof.
  intros H Hc Hf. unfold vfs_demo_call. destruct (run_call no_ops fat32_ops demo_bdevs c x.1 x.2) as [[[err s] U]| | |] eqn:E; [|done..].
  by eapply fv_call.
Qed.

Lemma vfs_demo_reach : fat_vfs_reach no_ops demo_devs demo_bdevs vfs_demo.1 vfs_demo.2.
Proof.
  unfold vfs_demo. cbn [foldl]. apply vfs_demo_call_reach; [apply vfs_demo_call_reach; [constructor| |]| |].
  - split; [vm_compute; reflexivity|exact I].
  - discriminate.
  - split; [vm_compute; reflexivity|exact I].
  - exact I.
Qed.

Lemma inode_cache_canonical_witness :
  ∃ err s' U', run_call no_ops fat32_ops demo_bdevs (COpen (47 :: hello)) vfs_demo.1 vfs_demo.2 = Ok (err, s', U').
Proof.
  destruct (inode_cache_canonical no_ops demo_devs demo_bdevs vfs_demo.1 vfs_demo.2 demo_disks vfs_demo_reach) as (_ & _ & _ & H).
  destruct (H (COpen (47 :: hello))) as (err & s' & U' & E & _); [split; [vm_compute; reflexivity|exact I]|exact I|].
  exact (ex_intro _ err (ex_intro _ s' (ex_intro _ U' E))).
Defined.


